(* ===== verification/_CoqProject ===== *)
-Q . S2P
Prelude.v
TimeEngine.v
ClockEngine.v
TimeScheduler.v
Queue.v
Io.v
Memory.v
Interleaver.v
Router.v
Cache.v
Converter.v
IsaInt.v
Rv32.v
InsnCache.v
Decoder.v
Decoded.v
IsaTable.v
Rv32c.v
PulpV2.v
Core.v
Csr.v
Fetch.v
IsaVec.v
PulpSimd.v
IsaNN.v
IsaCplx.v
IsaExt.v
PulpNN.v
HostFloat.v
FlexFloat.v
FloatLib.v
FloatFacts.v
FloatRound.v
FloatInsns.v
FloatIsa.v
CircBuf.v
RspCodec.v
GdbServer.v
Spiflash.v
Hyperbus.v
