(* ===== verification/Prelude.v ===== *)
(** * Verification library for the GVSOC virtual platform

    GVSOC simulates systems on chip: a platform is a tree of components (cores, memories, interconnects, devices) that exchange
    requests and run events at the cycles of their clocks.  This library models the engine that schedules the events
    (src/engine), the memories and interconnects (src/models/memory, interco, cache), the RISC-V core (src/models/cpu/iss), the
    GDB server (src/models/gdbserver) and the external flash and RAM devices (src/models/devices), each as executable
    definitions that read like the code, and proves what makes each of them correct.

    ** Conventions

    A C integer is a number of [Z], converted by [uw w] or [sw w] where its type does it; a pointer is a name ([eid], [qid], a
    buffer address) and the store it points to is explicit, so that aliasing is modelled.  [option] is undefined behaviour or a
    refused access, [outcome] (below) a loop that may fail an assertion or need more fuel.  The code of others
    that a component calls (a slave port, an event method, a table that the build generates) is a parameter, under a class or a
    record of laws.  This file has the notations, the automation ([bcases], hint databases), and the lemmas on machine
    integers, bits, lanes of words and lists that the components share.

    ** The engine

    TimeEngine.v is the global loop (vp.cpp, time_engine.hpp): an ordered list of clients, of which the first runs.  Its clients are
    the clock engines of ClockEngine.v (clock_engine.hpp, clock_event.hpp), a circular buffer of 32 cycles and an
    ordered delayed queue, and the schedulers of TimeScheduler.v.  The theorems: the list stays ordered whatever is enqueued and
    dequeued, time never goes back over any set of engines, an event runs exactly at the cycle that was asked for, and one call of
    exec ends within as many events as it has to run.  Queue.v is the intrusive queue of queue.cpp, which refines a list.

    ** Memories and interconnects

    Io.v has the request (itf/io.hpp) and the class [IoTarget], what a slave that behaves as a memory promises.  Memory.v
    implements it; Interleaver.v, Router.v and Cache.v are proved against it: an interleaver or a router over such slaves
    is one memory, and a cache serves the bytes of the memory behind it.  Router.v also proves its search tree equal to
    a scan of the mappings; Cache.v that no two lines of a set have the same tag; Converter.v that requests that come while one
    is served are cut and served in order.

    ** The core

    Rv32.v has the registers, the data port, the load-store unit and the base and multiplication instructions (rv32i.hpp, rv32m.hpp,
    lsu.hpp, iss_wrapper.cpp); Rv32c.v, PulpV2.v and PulpSimd.v the compressed and PULP ones (hardware loops included);
    IsaExt.v those of 64 bits, GAP8 and GAP9; PulpNN.v the neural-network ones (pulp_nn.hpp, rnnext.hpp).  They call the
    functions of isa_lib/int.h: IsaInt.v (scalars), IsaVec.v (vectors), IsaNN.v (nibbles and crumbs), IsaCplx.v (complex
    numbers).  InsnCache.v, Decoder.v and Decoded.v are the cache of decoded instructions, the decoder and
    the handlers it installs; IsaTable.v is the generator of its tables (isa_gen), run on the instruction lists.  Fetch.v is the
    prefetcher, Core.v the state machine with interrupts and exceptions, Csr.v the control and status registers.  The theorems give
    each family of instructions its meaning in the manual, prove the generated trees equal to the encodings, that a fetch reads the memory,
    that in runs without debugger, where the fetch is enabled on an inactive core only, an active core always has its event and an inactive one
    a reason to wait, and that each event of the core leads a requested interrupt to its vector.

    ** Floating point

    HostFloat.v defines the double arithmetic of the host that the code relies on, exactly.  FlexFloat.v is flexfloat.c,
    FloatLib.v the functions of int.h over it, FloatInsns.v the handlers (rvf.hpp, rvXf16.hpp, rvXf16alt.hpp, rvXf8.hpp, rv32Xfvec.hpp,
    rv32Xfaux.hpp).  FloatFacts.v proves that the bits of a format survive the double that keeps them; FloatRound.v that products, and in
    the formats with 5 bits of exponent sums and differences, are rounded as IEEE 754 says, in the range of the normal numbers; FloatIsa.v
    that comparisons and sign injections do what the manual says.  Subnormal results are outside of these theorems because the
    code rounds them wrongly in some cases ([FloatLib.fma_s]).

    ** The GDB server and the devices

    CircBuf.v and RspCodec.v are the character buffer and the packet codec, which refines the automaton of the
    protocol and gives back what was encoded; GdbServer.v handles the requests, each answered at most once whatever ::send takes.  Spiflash.v and
    Hyperbus.v are the flashes and the RAM, driven by the edges of their buses: what is programmed is read, an erase is an erase.

    ** Bounds and fuel

    Loops that the code bounds are given this bound as fuel, which a theorem or the form of the loop makes enough: the size of a request for the
    loops that cut it, 3 * size + 3 for the packet decoder (a character takes at most three steps), 64 for the normalization of a
    fraction (its bits), 40 for the generation of a decoding tree (deeper than the trees), 16385 = 2^32 / 2^18 + 1 sectors for the erase of a chip.
    Loops on events take any fuel, and a theorem says which is enough.

    ** Not modelled

    Traces, power reports and wave files (output only, with vendored writers); component construction, ports and configuration
    (dynamic loading, function pointers); threads, sockets, the launcher and the proxy (the behaviour of the host); SystemC, TLM and DPI
    bridges; the peripherals that end in files, sockets or audio; the stand-alone loader and its vendored headers; semihosting.
    Findings of the modelling that no theorem names have an [Example] in their file where they can be computed. *)

From stdpp Require Export prelude list list_numbers gmap.
From Stdlib Require Export ZArith Lia Sorting.Sorted.

#[global] Open Scope Z_scope.

(** ** Notation scope of the library *)
Declare Scope gv_scope.
Delimit Scope gv_scope with gv.

(** Option monad of the fallible C expressions: [None] is undefined behaviour or a refused call. *)
Notation "'let*' x := c 'in' k" := (match c with Some x => k | None => None end)
  (at level 10, x pattern, k at level 200, only parsing) : gv_scope.
#[global] Open Scope gv_scope.

(** The result of code that loops: done, stopped by a failed assertion or a wild dereference, or
    still running when the fuel is used up. *)
Inductive outcome (A : Type) :=
  | Done (a : A)
  | AssertFailed
  | OutOfFuel.
Arguments Done {A} _.
Arguments AssertFailed {A}.
Arguments OutOfFuel {A}.

(** ** Machine integers: [uw w] is an unsigned and [sw w] a two's complement [w]-bit integer. *)
Definition uw (w z : Z) : Z := z mod 2 ^ w.
Definition sw (w z : Z) : Z := if uw w z <? 2 ^ (w - 1) then uw w z else uw w z - 2 ^ w.

Abbreviation u8 := (uw 8).
Abbreviation u16 := (uw 16).
Abbreviation u32 := (uw 32).
Abbreviation u64 := (uw 64).
Abbreviation s8 := (sw 8).
Abbreviation s16 := (sw 16).
Abbreviation s32 := (sw 32).
Abbreviation s64 := (sw 64).

(** C shifts of a [w]-bit operand: a count outside [0, w) is undefined. *)
Definition shl (w a n : Z) : option Z :=
  if (0 <=? n) && (n <? w) then Some (Z.shiftl a n) else None.
Definition shr (w a n : Z) : option Z :=
  if (0 <=? n) && (n <? w) then Some (Z.shiftr a n) else None.

(** A word seen through a C pointer cast: its [n] little-endian [w]-bit elements. *)
Fixpoint lanes (w : Z) (n : nat) (x : Z) : list Z :=
  match n with
  | O => []
  | S n' => uw w x :: lanes w n' (Z.shiftr x w)
  end.

(** The word whose little-endian [w]-bit elements are stored from [l]. *)
Fixpoint pack (w : Z) (l : list Z) : Z :=
  match l with
  | [] => 0
  | x :: l' => uw w x + 2 ^ w * pack w l'
  end.

(** ** Automation *)

Create HintDb gv discriminated.

(** Case analysis on the boolean comparisons of the code. *)
Ltac bcase :=
  match goal with
  | |- context [?a <? ?b] => destruct (Z.ltb_spec a b)
  | |- context [?a <=? ?b] => destruct (Z.leb_spec a b)
  | |- context [?a =? ?b] => destruct (Z.eqb_spec a b)
  | |- context [?a >? ?b] => rewrite (Z.gtb_ltb a b); destruct (Z.ltb_spec b a)
  | |- context [?a >=? ?b] => rewrite (Z.geb_leb a b); destruct (Z.leb_spec b a)
  end.

Ltac bcases := repeat (bcase; simpl; try done; try lia).

(** Reflects boolean comparisons in the hypotheses. *)
Ltac breflect :=
  repeat match goal with
  | H : _ && _ = true |- _ => apply andb_true_iff in H as [? ?]
  | H : _ || _ = false |- _ => apply orb_false_iff in H as [? ?]
  | H : negb _ = true |- _ => apply negb_true_iff in H
  | H : negb _ = false |- _ => apply negb_false_iff in H
  | H : (_ <? _) = true |- _ => apply Z.ltb_lt in H
  | H : (_ <? _) = false |- _ => apply Z.ltb_ge in H
  | H : (_ <=? _) = true |- _ => apply Z.leb_le in H
  | H : (_ <=? _) = false |- _ => apply Z.leb_gt in H
  | H : (_ =? _) = true |- _ => apply Z.eqb_eq in H
  | H : (_ =? _) = false |- _ => apply Z.eqb_neq in H
  end.

(** Bit-level equality of words. *)
Create Rewrite HintDb gv_bits.
#[export] Hint Rewrite Z.land_spec Z.lor_spec Z.lxor_spec Z.ldiff_spec Z.bits_0
  Bool.andb_true_r Bool.andb_false_r Bool.orb_false_r Bool.orb_true_r
  Bool.andb_true_l Bool.andb_false_l Bool.orb_false_l Bool.orb_true_l
  Bool.xorb_false_r Bool.xorb_false_l : gv_bits.

(** ** Lemmas on machine integers *)

Lemma shl_some w a n : 0 <= n < w -> shl w a n = Some (Z.shiftl a n).
Proof. intros Hn. unfold shl. rewrite (proj2 (Z.leb_le 0 n)), (proj2 (Z.ltb_lt n w)) by lia. done. Qed.

Lemma shr_some w a n : 0 <= n < w -> shr w a n = Some (Z.shiftr a n).
Proof. intros Hn. unfold shr. rewrite (proj2 (Z.leb_le 0 n)), (proj2 (Z.ltb_lt n w)) by lia. done. Qed.

Lemma uw_range w z : 0 <= w -> 0 <= uw w z < 2 ^ w.
Proof. intros Hw. apply Z.mod_pos_bound. lia. Qed.

Lemma uw_small w z : 0 <= z < 2 ^ w -> uw w z = z.
Proof. apply Z.mod_small. Qed.

Lemma uw_idemp w z : 0 <= w -> uw w (uw w z) = uw w z.
Proof. intros. apply uw_small, uw_range. done. Qed.

Lemma uw_uw_le w w' z : 0 <= w <= w' -> uw w (uw w' z) = uw w z.
Proof.
  intros Hw. unfold uw. replace w' with (w + (w' - w)) by lia.
  rewrite Z.pow_add_r by lia. rewrite Z.rem_mul_r by lia.
  rewrite (Z.mul_comm (2 ^ w)), Z.mod_add by lia. apply Z.mod_mod. lia.
Qed.

Lemma uw_testbit w z i : 0 <= w -> Z.testbit (uw w z) i = (i <? w) && Z.testbit z i.
Proof.
  intros Hw. unfold uw. destruct (Z.ltb_spec i w); simpl.
  - by rewrite Z.mod_pow2_bits_low.
  - by rewrite Z.mod_pow2_bits_high.
Qed.

Lemma uw_land w z : 0 <= w -> Z.land z (Z.ones w) = uw w z.
Proof. intros. by apply Z.land_ones. Qed.

Lemma sw_range w z : 0 < w -> - 2 ^ (w - 1) <= sw w z < 2 ^ (w - 1).
Proof.
  intros Hw. unfold sw. pose proof (uw_range w z ltac:(lia)).
  replace (2 ^ w) with (2 * 2 ^ (w - 1)) in * by (rewrite <- Z.pow_succ_r by lia; f_equal; lia).
  bcases; lia.
Qed.

Lemma sw_small w z : 0 < w -> - 2 ^ (w - 1) <= z < 2 ^ (w - 1) -> sw w z = z.
Proof.
  intros Hw Hz. unfold sw, uw.
  assert (H2 : 2 ^ w = 2 * 2 ^ (w - 1)) by (rewrite <- Z.pow_succ_r by lia; f_equal; lia).
  destruct (Z.ltb_spec z 0).
  - assert (z mod 2 ^ w = z + 2 ^ w) as ->.
    { symmetry. apply (Z.mod_unique_pos _ _ (-1)); lia. }
    bcases; lia.
  - rewrite Z.mod_small by lia. bcases; lia.
Qed.

Lemma sw_spec w z : 0 < w -> exists k, sw w z = z + k * 2 ^ w.
Proof.
  intros Hw. unfold sw, uw. pose proof (Z.div_mod z (2 ^ w)) as E.
  bcase; [exists (- (z / 2 ^ w)) | exists (- (z / 2 ^ w) - 1)]; lia.
Qed.

Lemma uw_add_mul w z k : 0 <= w -> uw w (z + k * 2 ^ w) = uw w z.
Proof. intros. unfold uw. apply Z.mod_add. lia. Qed.

Lemma uw_sw w z : 0 < w -> uw w (sw w z) = uw w z.
Proof. intros Hw. destruct (sw_spec w z Hw) as [k ->]. by rewrite uw_add_mul by lia. Qed.

Lemma sw_uw w z : 0 <= w -> sw w (uw w z) = sw w z.
Proof. intros. unfold sw. by rewrite uw_idemp. Qed.

Lemma uw_eq_sw w x y : uw w x = uw w y -> sw w x = sw w y.
Proof. intros E. unfold sw. by rewrite E. Qed.

Lemma sw_inj w x y : 0 < w -> sw w x = sw w y -> uw w x = uw w y.
Proof. intros Hw E. by rewrite <- (uw_sw w x), <- (uw_sw w y), E. Qed.

Lemma sw_nonneg_iff w z : 0 < w -> 0 <= sw w z <-> Z.testbit z (w - 1) = false.
Proof.
  intros Hw. unfold sw. pose proof (uw_range w z ltac:(lia)).
  assert (H2 : 2 ^ w = 2 * 2 ^ (w - 1)) by (rewrite <- Z.pow_succ_r by lia; f_equal; lia).
  assert (Hb : Z.testbit z (w - 1) = Z.testbit (uw w z) (w - 1)).
  { rewrite uw_testbit by lia. by bcases. }
  rewrite Hb, Z.testbit_false by lia. bcase.
  - rewrite Z.div_small by lia. split; [done | lia].
  - assert (uw w z / 2 ^ (w - 1) = 1) as ->; [|split; [lia | done]].
    symmetry. apply (Z.div_unique_pos _ _ 1 (uw w z - 2 ^ (w - 1))); lia.
Qed.

Lemma uw_add_l w x y : 0 <= w -> uw w (uw w x + y) = uw w (x + y).
Proof. intros. unfold uw. apply Z.add_mod_idemp_l. lia. Qed.
Lemma uw_add_r w x y : 0 <= w -> uw w (x + uw w y) = uw w (x + y).
Proof. intros. unfold uw. apply Z.add_mod_idemp_r. lia. Qed.
Lemma uw_mul_l w x y : 0 <= w -> uw w (uw w x * y) = uw w (x * y).
Proof. intros. unfold uw. apply Z.mul_mod_idemp_l. lia. Qed.
Lemma uw_mul_r w x y : 0 <= w -> uw w (x * uw w y) = uw w (x * y).
Proof. intros. unfold uw. apply Z.mul_mod_idemp_r. lia. Qed.
Lemma uw_sub_l w x y : 0 <= w -> uw w (uw w x - y) = uw w (x - y).
Proof. intros. unfold uw. apply Zminus_mod_idemp_l. Qed.
Lemma uw_sub_r w x y : 0 <= w -> uw w (x - uw w y) = uw w (x - y).
Proof. intros. unfold uw. apply Zminus_mod_idemp_r. Qed.

(** Bits above a word's width. *)
Lemma testbit_above w a i : 0 <= a < 2 ^ w -> w <= i -> Z.testbit a i = false.
Proof.
  intros Ha Hi. rewrite <- (Z.mod_small a (2 ^ w)) by done.
  destruct (Z.ltb_spec w 0); [rewrite Z.pow_neg_r in Ha; lia|].
  apply Z.mod_pow2_bits_high. lia.
Qed.

(** Clearing the low [n] bits of a word. *)
Lemma land_clear n x : 0 <= n -> 0 <= x < 2 ^ 32 -> Z.land x (u32 (Z.lnot (Z.ones n))) = x - x mod 2 ^ n.
Proof.
  intros Hn Hx. assert (E : x - x mod 2 ^ n = Z.ldiff x (Z.ones n)).
  { rewrite Z.ldiff_ones_r, Z.shiftl_mul_pow2, Z.shiftr_div_pow2 by lia.
    pose proof (Z.div_mod x (2 ^ n) ltac:(lia)). lia. }
  rewrite E. apply Z.bits_inj'. intros i Hi. rewrite Z.land_spec, Z.ldiff_spec, uw_testbit by lia.
  destruct (Z.ltb_spec i 32); [|by rewrite (testbit_above 32 x)]. rewrite Z.lnot_spec by lia. done.
Qed.

Lemma range_of_bits w a :
  0 <= w -> (forall i, w <= i -> Z.testbit a i = false) -> 0 <= a < 2 ^ w.
Proof.
  intros Hw H. assert (E : uw w a = a).
  { apply Z.bits_inj'. intros i Hi. rewrite uw_testbit by done.
    destruct (Z.ltb_spec i w); [done|]. simpl. by rewrite H. }
  rewrite <- E. by apply uw_range.
Qed.

Lemma lor_range w a b : 0 <= w -> 0 <= a < 2 ^ w -> 0 <= b < 2 ^ w -> 0 <= Z.lor a b < 2 ^ w.
Proof.
  intros Hw Ha Hb. apply range_of_bits; [done|]. intros i Hi.
  by rewrite Z.lor_spec, (testbit_above w a), (testbit_above w b).
Qed.

(** One bit, and two words put side by side. *)
Lemma land_pow2_cases x k : 0 <= k -> Z.land x (2 ^ k) = if Z.testbit x k then 2 ^ k else 0.
Proof.
  intros Hk. apply Z.bits_inj'. intros i Hi. rewrite Z.land_spec, Z.pow2_bits_eqb by done.
  destruct (Z.eqb_spec k i) as [<-|Hne].
  - destruct (Z.testbit x k); [by rewrite Z.pow2_bits_true|by rewrite Z.bits_0].
  - destruct (Z.testbit x k); [by rewrite Z.pow2_bits_false, andb_false_r|].
    by rewrite andb_false_r, Z.bits_0.
Qed.

Lemma land_pow2 x k : 0 <= k -> negb (Z.land x (2 ^ k) =? 0) = Z.testbit x k.
Proof.
  intros Hk. rewrite land_pow2_cases by done. destruct (Z.testbit x k); [|done].
  pose proof (Z.pow_pos_nonneg 2 k). by rewrite (proj2 (Z.eqb_neq _ 0)) by lia.
Qed.

Lemma testbit_top w x : 0 <= w -> 0 <= x < 2 * 2 ^ w -> Z.testbit x w = (2 ^ w <=? x).
Proof.
  intros Hw Hx. pose proof (Z.pow_pos_nonneg 2 w ltac:(lia) Hw). destruct (Z.leb_spec (2 ^ w) x).
  - apply Z.testbit_true; [done|]. replace (x / 2 ^ w) with 1; [done|].
    apply (Z.div_unique_pos _ _ _ (x - 2 ^ w)); lia.
  - apply (testbit_above w); lia.
Qed.

Lemma lor_high a b n : 0 <= n -> 0 <= a < 2 ^ n -> Z.lor a (2 ^ n * b) = a + 2 ^ n * b.
Proof.
  intros Hn Ha. assert (E : Z.land a (2 ^ n * b) = 0).
  { apply Z.bits_inj'. intros i Hi. rewrite Z.land_spec, Z.bits_0. destruct (Z.ltb_spec i n).
    - rewrite Z.mul_comm, Z.mul_pow2_bits_low by lia. by rewrite andb_false_r.
    - by rewrite (testbit_above n a). }
  rewrite (Z.add_nocarry_lxor _ _ E). symmetry. by apply Z.lxor_lor.
Qed.

(** Congruence modulo 2^w: machine arithmetic up to the final conversion. *)
Definition eqm (w x y : Z) : Prop := uw w x = uw w y.

#[export] Instance eqm_equiv w : Equivalence (eqm w).
Proof. unfold eqm. split; [done|by intros x y ->|by intros x y z -> ->]. Qed.

#[export] Instance eqm_add w : Proper (eqm w ==> eqm w ==> eqm w) Z.add.
Proof. unfold eqm, uw. intros x x' E y y' E'. by rewrite Zplus_mod, E, E', <- Zplus_mod. Qed.

#[export] Instance eqm_mul w : Proper (eqm w ==> eqm w ==> eqm w) Z.mul.
Proof. unfold eqm, uw. intros x x' E y y' E'. by rewrite Zmult_mod, E, E', <- Zmult_mod. Qed.

#[export] Instance eqm_sub w : Proper (eqm w ==> eqm w ==> eqm w) Z.sub.
Proof. unfold eqm, uw. intros x x' E y y' E'. by rewrite Zminus_mod, E, E', <- Zminus_mod. Qed.

#[export] Instance eqm_opp w : Proper (eqm w ==> eqm w) Z.opp.
Proof. intros x x' E. rewrite <- (Z.sub_0_l x), <- (Z.sub_0_l x'). by rewrite E. Qed.

Lemma eqm_intro w x y : eqm w x y -> uw w x = uw w y.
Proof. done. Qed.

Lemma eqm_uw w x : 0 <= w -> eqm w (uw w x) x.
Proof. intros. by apply uw_idemp. Qed.

Lemma eqm_sw w x : 0 < w -> eqm w (sw w x) x.
Proof. intros. by apply uw_sw. Qed.

Lemma eqm_mod w x k : 0 <= w -> eqm w (x + k * 2 ^ w) x.
Proof. intros. by apply uw_add_mul. Qed.

#[export] Hint Resolve uw_range sw_range : gv.

(** ** Elements of a word *)

Lemma length_lanes w n x : length (lanes w n x) = n.
Proof. revert x. induction n; intros; simpl; auto. Qed.

Lemma lookup_lanes w n x (i : nat) :
  0 <= w -> (i < n)%nat -> lanes w n x !! i = Some (uw w (Z.shiftr x (w * Z.of_nat i))).
Proof.
  intros Hw. revert x i. induction n as [|n IH]; intros x i Hi; [lia|].
  destruct i as [|i]; simpl.
  - by rewrite Z.mul_0_r, Z.shiftr_0_r.
  - rewrite IH by lia. rewrite Z.shiftr_shiftr by lia. do 3 f_equal. lia.
Qed.

Lemma pack_range w l : 0 <= w -> 0 <= pack w l < 2 ^ (w * Z.of_nat (length l)).
Proof.
  intros Hw. induction l as [|x l IH]; simpl; [by rewrite Z.mul_0_r|].
  pose proof (uw_range w x Hw). rewrite Nat2Z.inj_succ, Z.mul_succ_r, Z.pow_add_r by lia. nia.
Qed.

Lemma pack_lanes w n x : 0 <= w -> pack w (lanes w n x) = uw (w * Z.of_nat n) x.
Proof.
  intros Hw. revert x. induction n as [|n IH]; intros x; cbn [pack lanes].
  - rewrite Z.mul_0_r. unfold uw. by rewrite Z.mod_1_r.
  - rewrite IH, uw_idemp by done. unfold uw.
    rewrite Nat2Z.inj_succ, Z.mul_succ_r, (Z.add_comm _ w), Z.pow_add_r, Z.rem_mul_r by lia.
    by rewrite Z.shiftr_div_pow2.
Qed.

Lemma lanes_pack w l : 0 <= w -> lanes w (length l) (pack w l) = uw w <$> l.
Proof.
  intros Hw. induction l as [|x l IH]; [done|]. cbn [length lanes pack fmap list_fmap].
  pose proof (uw_range w x Hw). f_equal.
  - rewrite (Z.mul_comm (2 ^ w)), uw_add_mul by done. by apply uw_idemp.
  - rewrite <- IH. f_equal. rewrite Z.shiftr_div_pow2 by done.
    rewrite (Z.mul_comm (2 ^ w)), Z.div_add, Z.div_small by lia. done.
Qed.

Lemma pack_app w l r : 0 <= w -> pack w (l ++ r) = pack w l + 2 ^ (w * Z.of_nat (length l)) * pack w r.
Proof.
  intros Hw. induction l as [|x l IH]; cbn [app pack length]; [rewrite Z.mul_0_r; lia|].
  rewrite IH, Nat2Z.inj_succ, Z.mul_succ_r, (Z.add_comm _ w), Z.pow_add_r by lia. ring.
Qed.

Lemma lookup_pack w l (i : nat) y :
  0 <= w -> l !! i = Some y -> uw w (Z.shiftr (pack w l) (w * Z.of_nat i)) = uw w y.
Proof.
  intros Hw Hl. pose proof (lookup_lt_Some _ _ _ Hl).
  pose proof (lookup_lanes w (length l) (pack w l) i Hw ltac:(done)) as E.
  rewrite lanes_pack, list_lookup_fmap, Hl in E by done. simpl in E. congruence.
Qed.

Lemma Forall_lanes w n x : 0 <= w -> Forall (fun y => 0 <= y < 2 ^ w) (lanes w n x).
Proof.
  intros. revert x. induction n; intros; simpl; constructor; auto using uw_range.
Qed.

(** ** Intrusive ordered lists

    Several components keep a linked list ordered by a key and insert with the same loop: walk
    while the current element is before the new one, then link it there. *)
Fixpoint ordered_insert {A : Type} (before : A -> bool) (x : A) (l : list A) : list A :=
  match l with
  | [] => [x]
  | y :: l' => if before y then y :: ordered_insert before x l' else x :: l
  end.

Definition ordered {A : Type} (key : A -> Z) : list A -> Prop :=
  StronglySorted (fun a b => key a <= key b).

(** Unlinking of the first occurrence. *)
Fixpoint unlink {A : Type} `{EqDecision A} (x : A) (l : list A) : list A :=
  match l with
  | [] => []
  | y :: l' => if decide (y = x) then l' else y :: unlink x l'
  end.

Section Ordered.
Context {A : Type}.
Implicit Types (l : list A) (key : A -> Z).

Lemma ordered_insert_perm before (x : A) l : ordered_insert before x l ≡ₚ x :: l.
Proof.
  induction l as [|y l IH]; simpl; [done|]. destruct (before y); [|done].
  rewrite IH. constructor.
Qed.

Lemma elem_of_ordered_insert before (x y : A) l :
  y ∈ ordered_insert before x l <-> y = x \/ y ∈ l.
Proof. rewrite ordered_insert_perm. set_solver. Qed.

Lemma ordered_cons key (x : A) l :
  ordered key (x :: l) <-> ordered key l /\ forall y, y ∈ l -> key x <= key y.
Proof.
  unfold ordered. split.
  - intros H. apply StronglySorted_inv in H as [H F]. rewrite Forall_forall in F. auto.
  - intros [H F]. constructor; [done|]. by rewrite Forall_forall.
Qed.

Lemma ordered_nil key : ordered key (@nil A).
Proof. constructor. Qed.

Lemma ordered_ext key key' l :
  (forall y, y ∈ l -> key y = key' y) -> ordered key l -> ordered key' l.
Proof.
  induction l as [|x l IH]; [intros; apply ordered_nil|].
  rewrite !ordered_cons. intros E [H F]. split.
  - apply IH; [set_solver|done].
  - intros y Hy. rewrite <- (E x), <- (E y) by set_solver. auto.
Qed.

Lemma ordered_insert_ordered key (x : A) l :
  ordered key l -> ordered key (ordered_insert (fun y => key y <? key x) x l).
Proof.
  induction l as [|y l IH]; simpl.
  - intros _. apply ordered_cons. split; [apply ordered_nil | set_solver].
  - intros H. pose proof H as Hyl. apply ordered_cons in H as [H F].
    destruct (Z.ltb_spec (key y) (key x)).
    + apply ordered_cons. split; [auto|]. intros z Hz.
      apply elem_of_ordered_insert in Hz as [->|Hz]; [lia|auto].
    + apply ordered_cons. split; [done|]. intros z Hz.
      apply elem_of_cons in Hz as [->|Hz]; [lia|]. specialize (F z Hz). lia.
Qed.

Lemma ordered_insert_ext before before' (x : A) l :
  (forall y, y ∈ l -> before y = before' y) ->
  ordered_insert before x l = ordered_insert before' x l.
Proof.
  induction l as [|y l IH]; simpl; [done|]. intros E.
  rewrite <- (E y) by set_solver. rewrite IH by set_solver. done.
Qed.

Lemma ordered_hd key (x y : A) l : ordered key (x :: l) -> y ∈ x :: l -> key x <= key y.
Proof.
  rewrite ordered_cons. intros [_ F] Hy. apply elem_of_cons in Hy as [->|]; [lia|auto].
Qed.

Context `{EqDecision A}.

Lemma elem_of_unlink (x y : A) l : NoDup l -> y ∈ unlink x l <-> y ∈ l /\ y <> x.
Proof.
  induction l as [|z l IH]; simpl; intros Hnd; [set_solver|].
  apply NoDup_cons in Hnd as [Hz Hnd]. specialize (IH Hnd).
  destruct (decide (z = x)) as [->|]; set_solver.
Qed.

Lemma unlink_sublist (x : A) l : unlink x l `sublist_of` l.
Proof.
  induction l as [|z l IH]; simpl; [done|].
  destruct (decide (z = x)); by constructor.
Qed.

Lemma NoDup_unlink (x : A) l : NoDup l -> NoDup (unlink x l).
Proof. intros. eapply sublist_NoDup; [done | apply unlink_sublist]. Qed.

Lemma unlink_not_in (x : A) l : x ∉ l -> unlink x l = l.
Proof.
  induction l as [|z l IH]; simpl; [done|]. intros Hx.
  destruct (decide (z = x)) as [->|]; [set_solver|]. by rewrite IH by set_solver.
Qed.

Lemma unlink_perm (x : A) l : x ∈ l -> l ≡ₚ x :: unlink x l.
Proof.
  induction l as [|z l IH]; simpl; [set_solver|]. intros Hx.
  destruct (decide (z = x)) as [->|]; [done|].
  rewrite IH at 1 by set_solver. constructor.
Qed.

Lemma ordered_unlink key (x : A) l : ordered key l -> ordered key (unlink x l).
Proof.
  induction l as [|z l IH]; simpl; [done|]. rewrite ordered_cons. intros [H F].
  destruct (decide (z = x)); [done|]. apply ordered_cons. split; [auto|].
  intros y Hy. apply F. eapply elem_of_submseteq; [done|].
  apply sublist_submseteq, unlink_sublist.
Qed.
End Ordered.

(** Mapping the results of a pointwise operation. *)
Lemma zip_with_post {A B C D} (g : C -> D) (f : A -> B -> C) h l k :
  (forall x y, g (f x y) = h x y) -> g <$> zip_with f l k = zip_with h l k.
Proof.
  intros E. revert k. induction l as [|x l IH]; intros [|y k]; simpl; [done..|].
  by rewrite E, IH.
Qed.

(** Selecting elements of a list. *)
Lemma filter_none {A} (P : A -> Prop) `{forall x, Decision (P x)} (l : list A) :
  (forall x, x ∈ l -> ~ P x) -> filter P l = [].
Proof.
  induction l as [|x l IH]; intros Hn; [done|]. rewrite filter_cons, decide_False.
  - apply IH. intros y Hy. apply Hn. by right.
  - apply Hn. left.
Qed.

Lemma filter_all {A} (P : A -> Prop) `{forall x, Decision (P x)} (l : list A) :
  (forall x, x ∈ l -> P x) -> filter P l = l.
Proof.
  induction l as [|x l IH]; intros Hp; [done|]. rewrite filter_cons, decide_True.
  - f_equal. apply IH. intros y Hy. apply Hp. by right.
  - apply Hp. left.
Qed.

Lemma filter_ext_in {A} (P Q : A -> Prop) `{forall x, Decision (P x), forall x, Decision (Q x)}
    (l : list A) :
  (forall x, x ∈ l -> P x <-> Q x) -> filter P l = filter Q l.
Proof.
  induction l as [|x l IH]; intros E; [done|]. rewrite !filter_cons, IH.
  - pose proof (E x ltac:(left)). by repeat case_decide; try tauto.
  - intros y Hy. apply E. by right.
Qed.

Lemma filter_ordered_insert {A} (P : A -> Prop) `{forall x, Decision (P x)} before x (l : list A) :
  ~ P x -> filter P (ordered_insert before x l) = filter P l.
Proof.
  intros Hx. induction l as [|y l IH]; simpl.
  - by rewrite filter_cons, decide_False.
  - destruct (before y); rewrite !filter_cons; [by rewrite IH|]. by rewrite (decide_False (P:=P x)).
Qed.

#[export] Hint Resolve ordered_nil ordered_unlink ordered_insert_ordered NoDup_unlink : gv.
