(* ===== verification/TimeEngine.v ===== *)
(** * The global time engine (engine/vp/time_engine.cpp, engine/src/vp.cpp, vp/time/time_engine.hpp)

    The time engine keeps its clients (clock domains, time schedulers) in a linked list ordered by
    the absolute time of their next event and repeatedly runs the first one.  [time_engine] is the
    part of class vp::time_engine that scheduling uses; a client is named by a [cid] and the
    fields it inherits from vp::time_engine_client are kept in [te_client], so that aliasing
    between the list and the clients is explicit.  Times are int64_t picosecond counts, modelled
    in Z (they overflow after 106 days of simulated time). *)

From S2P Require Import Prelude.

Definition cid := nat.
Bind Scope nat_scope with cid.

Record client := Client {
  next_event_time : Z;
  is_running : bool;
  is_enqueued : bool;
}.

Record time_engine := TimeEngine {
  te_time : Z;                 (* time *)
  te_clients : list cid;       (* the chain from first_client *)
  te_store : gmap cid client;  (* the fields of each client object *)
  te_run_req : bool;           (* run_req *)
}.

Definition with_time (t : Z) (te : time_engine) : time_engine :=
  TimeEngine t (te_clients te) (te_store te) (te_run_req te).
Definition with_clients (l : list cid) (te : time_engine) : time_engine :=
  TimeEngine (te_time te) l (te_store te) (te_run_req te).
Definition set_client (c : cid) (x : client) (te : time_engine) : time_engine :=
  TimeEngine (te_time te) (te_clients te) (<[c := x]> (te_store te)) (te_run_req te).

Definition te_client (te : time_engine) (c : cid) : client :=
  default (Client 0 false false) (te_store te !! c).

Definition net (te : time_engine) (c : cid) : Z := next_event_time (te_client te c).

Definition set_running (b : bool) (c : cid) (te : time_engine) : time_engine :=
  let x := te_client te c in set_client c (Client (next_event_time x) b (is_enqueued x)) te.
Definition set_enqueued (b : bool) (c : cid) (te : time_engine) : time_engine :=
  let x := te_client te c in set_client c (Client (next_event_time x) (is_running x) b) te.
Definition set_next_event_time (t : Z) (c : cid) (te : time_engine) : time_engine :=
  let x := te_client te c in set_client c (Client t (is_running x) (is_enqueued x)) te.

(** vp::time_engine::get_next_event_time *)
Definition get_next_event_time (te : time_engine) : Z :=
  match te_clients te with
  | c :: _ => net te c
  | [] => te_time te
  end.

(** vp::time_engine::dequeue *)
Definition dequeue (c : cid) (te : time_engine) : bool * time_engine :=
  if negb (is_enqueued (te_client te c)) then (false, te)
  else
    let te := set_enqueued false c te in
    (true, with_clients (unlink c (te_clients te)) te).

(** vp::time_engine::enqueue; [time] is relative to the current time. *)
Definition enqueue (c : cid) (time : Z) (te : time_engine) : bool * time_engine :=
  let full_time := te_time te + time in
  if is_running (te_client te c) then (false, te)
  else if is_enqueued (te_client te c) && (net te c <=? full_time) then (false, te)
  else
    let te := if is_enqueued (te_client te c) then (dequeue c te).2 else te in
    let te := set_client c (Client full_time (is_running (te_client te c)) true) te in
    (true, with_clients
             (ordered_insert (fun d => net te d <? net te c) c (te_clients te)) te).

(** ** The scheduling loop of vp::time_engine::run_loop

    [exec] is the virtual method vp::time_engine_client::exec: it may change the state [W] of the
    clients and call back into the engine, and returns the delay to the client's next event. *)
Section RunLoop.
Context {W : Type} (exec : cid -> W -> time_engine -> W * time_engine * Z).

(** Picking the first client and making it the current one. *)
Definition pop_first (te : time_engine) : option (cid * time_engine) :=
  match te_clients te with
  | [] => None
  | c :: l =>
      let te := set_enqueued false c (with_clients l te) in
      Some (c, with_time (net te c) te)
  end.

(** One iteration of the inner loop on the client [current].  The result's client is the one
    of the next iteration, [None] when the loop is left. *)
Definition loop_step (current : cid) (w : W) (te : time_engine) : option cid * W * time_engine :=
  let '(w, te, time) := exec current w (set_running true current te) in
  let full := time + te_time te in
  let next := te_clients te in
  let others_later := match next with [] => true | n :: _ => full <=? net te n end in
  if (0 <? time) && others_later then
    if te_run_req te then (Some current, w, with_time full te)
    else
      let te := with_clients (current :: te_clients te) te in
      let te := set_next_event_time full current te in
      let te := set_enqueued true current te in
      (None, w, set_running false current te)
  else
    let te :=
      if 0 <? time then
        let te := set_next_event_time full current te in
        let te := set_enqueued true current te in
        match next with
        | [] => te (* not taken: others_later holds *)
        | n :: l => with_clients (n :: ordered_insert (fun d => net te d <? full) current l) te
        end
      else te in
    let te := set_running false current te in
    if negb (te_run_req te) then (None, w, te)
    else match pop_first te with
         | None => (None, w, te)
         | Some (c, te) => (Some c, w, te)
         end.

(** [n] iterations; the trace lists the (client, time) pairs given to [exec]. *)
Fixpoint run_steps (n : nat) (current : cid) (w : W) (te : time_engine) :
    list (cid * Z) * (option cid * W * time_engine) :=
  match n with
  | O => ([], (Some current, w, te))
  | S n =>
      let here := (current, te_time te) in
      match loop_step current w te with
      | (None, w, te) => ([here], (None, w, te))
      | (Some c, w, te) => let '(tr, r) := run_steps n c w te in (here :: tr, r)
      end
  end.
End RunLoop.

(** ** Invariant

    The list is ordered by next event time, holds exactly the clients marked enqueued, each once,
    none of them in the past, and no running client. *)
Record te_inv (te : time_engine) : Prop := {
  inv_nodup : NoDup (te_clients te);
  inv_ordered : ordered (net te) (te_clients te);
  inv_enqueued : forall c, is_enqueued (te_client te c) = true <-> c ∈ te_clients te;
  inv_future : forall c, c ∈ te_clients te -> te_time te <= net te c;
  inv_running : forall c, c ∈ te_clients te -> is_running (te_client te c) = false;
}.

Lemma te_client_set c d x te :
  te_client (set_client c x te) d = if decide (c = d) then x else te_client te d.
Proof.
  unfold te_client, set_client; simpl. rewrite lookup_insert. by destruct (decide (c = d)).
Qed.

Lemma te_client_set_eq c x te : te_client (set_client c x te) c = x.
Proof. rewrite te_client_set. by destruct (decide (c = c)). Qed.

Lemma set_client_set c x y te : set_client c y (set_client c x te) = set_client c y te.
Proof. unfold set_client; simpl. by rewrite insert_insert_eq. Qed.

Lemma net_set c d x te :
  net (set_client c x te) d = if decide (c = d) then next_event_time x else net te d.
Proof. unfold net. rewrite te_client_set. by destruct (decide (c = d)). Qed.

(** The invariant after relinking the list and rewriting the fields of one client [c]: it is enough
    to look at [c], the other clients being untouched. *)
Lemma te_inv_update c x l te :
  te_inv te -> NoDup l -> (forall d, d <> c -> d ∈ l <-> d ∈ te_clients te) ->
  (c ∈ l -> te_time te <= next_event_time x /\ is_running x = false) ->
  (is_enqueued x = true <-> c ∈ l) ->
  ordered (fun d => if decide (c = d) then next_event_time x else net te d) l ->
  te_inv (with_clients l (set_client c x te)).
Proof.
  intros [Hnd Hord Henq Hfut Hrun] Hl Hsub Hin Hiff Hsorted.
  constructor; [done| | | |].
  - eapply ordered_ext; [|exact Hsorted]. intros d _. simpl. by rewrite <- net_set.
  - intros d. change (te_client _ d) with (te_client (set_client c x te) d).
    rewrite te_client_set. destruct (decide (c = d)) as [<-|]; [done|].
    rewrite Henq. symmetry. by apply Hsub.
  - intros d Hd. change (net _ d) with (net (set_client c x te) d). simpl in Hd |- *.
    rewrite net_set. destruct (decide (c = d)) as [<-|]; [by apply Hin|].
    apply Hfut, Hsub; done.
  - intros d Hd. change (te_client _ d) with (te_client (set_client c x te) d).
    rewrite te_client_set. simpl in Hd. destruct (decide (c = d)) as [<-|]; [by apply Hin|].
    apply Hrun, Hsub; done.
Qed.

Lemma dequeue_eq c te :
  is_enqueued (te_client te c) = true ->
  (dequeue c te).2 =
  with_clients (unlink c (te_clients te))
    (set_client c (Client (net te c) (is_running (te_client te c)) false) te).
Proof. intros E. unfold dequeue. by rewrite E. Qed.

Lemma dequeue_inv c te : te_inv te -> te_inv (dequeue c te).2.
Proof.
  intros Hinv. destruct (is_enqueued (te_client te c)) eqn:E.
  2:{ unfold dequeue. by rewrite E. }
  rewrite dequeue_eq by done. destruct Hinv as [Hnd Hord Henq Hfut Hrun] eqn:Heq.
  assert (Hc : c ∉ unlink c (te_clients te)) by (rewrite elem_of_unlink by done; naive_solver).
  apply te_inv_update; simpl; [done|by apply NoDup_unlink| | | |].
  - intros d Hd. rewrite elem_of_unlink by done. naive_solver.
  - done.
  - naive_solver.
  - eapply ordered_ext; [|by apply ordered_unlink].
    intros d Hd. simpl. destruct (decide (c = d)) as [<-|]; done.
Qed.

Lemma enqueue_false_eq c time te :
  (enqueue c time te).1 = false -> (enqueue c time te).2 = te.
Proof. unfold enqueue. by repeat case_match. Qed.

(** The engine after an accepted [enqueue]: relative to the list without [c], which [dequeue]
    leaves, [c] is linked at its place. *)
Lemma enqueue_true_eq c time te :
  te_inv te -> (enqueue c time te).1 = true ->
  (enqueue c time te).2 =
  let te' := set_client c (Client (te_time te + time) false true) te in
  with_clients
    (ordered_insert (fun d => net te' d <? net te' c) c (unlink c (te_clients te))) te'.
Proof.
  intros [Hnd Hord Henq Hfut Hrun]. unfold enqueue.
  destruct (is_running (te_client te c)) eqn:Er; [done|].
  destruct (is_enqueued (te_client te c)) eqn:Ee; simpl.
  - destruct (_ <=? _); simpl; [done|]. intros _. rewrite (dequeue_eq c te Ee).
    unfold with_clients, set_client, net, te_client in *; simpl.
    rewrite lookup_insert_eq, insert_insert_eq. simpl. by rewrite Er.
  - intros _. rewrite unlink_not_in; [by rewrite Er|].
    intros Hc. apply Henq in Hc. congruence.
Qed.

Lemma enqueue_inv c time te : 0 <= time -> te_inv te -> te_inv (enqueue c time te).2.
Proof.
  intros Ht Hinv. destruct (enqueue c time te).1 eqn:E.
  2:{ by rewrite enqueue_false_eq. }
  rewrite enqueue_true_eq by done. pose proof Hinv as [Hnd Hord Henq Hfut Hrun].
  cbv zeta. apply te_inv_update; simpl; [done| | |intros _; split; [lia|done]| |].
  - rewrite ordered_insert_perm. apply NoDup_cons. split; [|by apply NoDup_unlink].
    rewrite elem_of_unlink by done. naive_solver.
  - intros d Hd. rewrite elem_of_ordered_insert, elem_of_unlink by done. naive_solver.
  - split; [|done]. intros _. apply elem_of_ordered_insert. by left.
  - set (te' := set_client c (Client (te_time te + time) false true) te).
    apply (ordered_ext (net te')); [intros d _; by unfold te'; rewrite net_set|].
    apply ordered_insert_ordered. eapply ordered_ext; [|by apply ordered_unlink].
    intros d. rewrite elem_of_unlink by done. intros [_ Hd]. unfold te'. rewrite net_set.
    by destruct (decide (c = d)) as [<-|].
Qed.

(** ** What the loop needs from a client's [exec]

    [exec] runs with the client marked running and out of the list; it may enqueue and dequeue
    other clients, but it neither moves time nor stops its own client. *)
Definition running_out (c : cid) (te : time_engine) : Prop :=
  te_inv te /\ is_running (te_client te c) = true.

Class ClientExec {W} (exec : cid -> W -> time_engine -> W * time_engine * Z) : Prop := {
  exec_keeps : forall c w te, running_out c te -> running_out c (exec c w te).1.2;
  exec_time : forall c w te, running_out c te -> te_time (exec c w te).1.2 = te_time te;
}.

(** The calls a client makes back into the engine. *)
Inductive engine_call :=
  | CallEnqueue (c : cid) (delay : nat)
  | CallDequeue (c : cid).

Definition do_call (a : engine_call) (te : time_engine) : time_engine :=
  match a with
  | CallEnqueue c d => (enqueue c (Z.of_nat d) te).2
  | CallDequeue c => (dequeue c te).2
  end.

(** A client whose behaviour is given by the calls it makes and the delay it returns. *)
Definition scripted {W} (script : cid -> W -> Z -> W * list engine_call * Z)
    (c : cid) (w : W) (te : time_engine) : W * time_engine * Z :=
  let '(w', calls, time) := script c w (te_time te) in
  (w', fold_left (fun te a => do_call a te) calls te, time).

Lemma running_not_in c te : running_out c te -> c ∉ te_clients te.
Proof. intros [Hinv Hr] Hc. pose proof (inv_running te Hinv c Hc). congruence. Qed.

Lemma enqueue_running c d time te :
  is_running (te_client te c) = true ->
  is_running (te_client (enqueue d time te).2 c) = true.
Proof.
  intros Hr. unfold enqueue. destruct (is_running (te_client te d)) eqn:Ed; [done|].
  destruct (is_enqueued (te_client te d)) eqn:Ee; simpl; [destruct (_ <=? _); [done|]|].
  all: assert (c <> d) by congruence.
  all: try rewrite (dequeue_eq d te Ee).
  all: unfold te_client in *; simpl; by rewrite ?lookup_insert_ne by done.
Qed.

Lemma dequeue_running c d te :
  is_running (te_client te c) = true -> is_running (te_client (dequeue d te).2 c) = true.
Proof.
  intros Hr. destruct (is_enqueued (te_client te d)) eqn:Ee.
  - rewrite dequeue_eq by done. change (te_client _ c) with
      (te_client (set_client d (Client (net te d) (is_running (te_client te d)) false) te) c).
    rewrite te_client_set. by destruct (decide (d = c)) as [<-|].
  - unfold dequeue. by rewrite Ee.
Qed.

Lemma do_call_running_out c a te : running_out c te -> running_out c (do_call a te).
Proof.
  intros [Hinv Hr]. destruct a; split; simpl;
    eauto using enqueue_inv, dequeue_inv, enqueue_running, dequeue_running with lia.
Qed.

Lemma do_call_time a te : te_time (do_call a te) = te_time te.
Proof.
  destruct a; simpl; unfold enqueue, dequeue; repeat case_match; simpl in *; try done;
    repeat case_match; done.
Qed.

#[export] Instance scripted_ok {W} (script : cid -> W -> Z -> W * list engine_call * Z) :
  ClientExec (scripted script).
Proof.
  constructor; intros c w te; unfold scripted; destruct (script c w (te_time te)) as [[w' cs] t].
  - simpl. revert te. induction cs; simpl; eauto using do_call_running_out.
  - intros _. simpl. revert te. induction cs as [|a cs IH]; intros te; simpl; [done|].
    by rewrite IH, do_call_time.
Qed.

Section RunLoopFacts.
Context {W : Type} (exec : cid -> W -> time_engine -> W * time_engine * Z).
Context `{!ClientExec exec}.

Lemma set_running_out c te :
  te_inv te -> c ∉ te_clients te -> running_out c (set_running true c te).
Proof.
  intros Hinv Hc. split; [|by unfold set_running; rewrite te_client_set_eq].
  pose proof Hinv as [Hnd Hord Henq _ _].
  change (te_inv (with_clients (te_clients te)
           (set_client c (Client (net te c) true (is_enqueued (te_client te c))) te))).
  apply te_inv_update; simpl; try done.
  eapply ordered_ext; [|exact Hord]. intros d Hd. simpl.
  destruct (decide (c = d)) as [<-|]; done.
Qed.

(** The clients waiting for a turn after the current one has executed, and when: the queued
    ones at their event time, the current one after the delay it returned, if any. *)
Definition candidates (current : cid) (te : time_engine) (time : Z) : list cid :=
  (if 0 <? time then [current] else []) ++ te_clients te.
Definition due (current : cid) (te : time_engine) (time : Z) (c : cid) : Z :=
  if decide (c = current) then te_time te + time else net te c.

(** Relinks the current client at its place, or leaves it out. *)
Definition requeue (current : cid) (te : time_engine) (time : Z) (l : list cid) : time_engine :=
  with_clients l (set_client current
    (Client (if 0 <? time then te_time te + time else net te current) false (0 <? time)) te).

Lemma requeue_inv current te time l :
  running_out current te -> l ≡ₚ candidates current te time ->
  ordered (due current te time) l -> te_inv (requeue current te time l).
Proof.
  intros Hro Hl Hsorted. pose proof (running_not_in _ _ Hro) as Hni. destruct Hro as [Hinv Hr].
  pose proof (inv_nodup _ Hinv). unfold candidates in Hl.
  apply te_inv_update; simpl; [done| | | | |].
  - rewrite Hl. destruct (0 <? time); simpl; [by constructor|done].
  - intros d Hd. rewrite Hl. destruct (0 <? time); simpl; set_solver.
  - rewrite Hl. destruct (Z.ltb_spec 0 time); simpl; [intros _; split; [lia|done]|done].
  - rewrite Hl. destruct (Z.ltb_spec 0 time); simpl; set_solver.
  - eapply ordered_ext; [|exact Hsorted]. intros d Hd. unfold due.
    destruct (decide (current = d)) as [<-|Hne]; [|by rewrite decide_False by congruence].
    rewrite decide_True by done. rewrite Hl in Hd.
    destruct (Z.ltb_spec 0 time); [done|set_solver].
Qed.

Lemma with_time_inv t te :
  te_inv te -> (forall d, d ∈ te_clients te -> t <= net te d) -> te_inv (with_time t te).
Proof. intros [] Ht. by constructor. Qed.

Lemma pop_first_spec c l te :
  te_inv te -> te_clients te = c :: l ->
  exists te', pop_first te = Some (c, te') /\ te_inv te' /\ te_clients te' = l /\
              te_time te' = net te c /\ c ∉ l.
Proof.
  intros Hinv El. pose proof Hinv as [Hnd Hord Henq Hfut Hrun].
  unfold pop_first. rewrite El in *. apply NoDup_cons in Hnd as [Hc Hnd].
  apply ordered_cons in Hord as [Hord Hhd].
  eexists. split; [done|]. split; [|split; [done|split; [|done]]].
  - apply with_time_inv.
    + change (te_inv (with_clients l (set_client c
               (Client (net te c) (is_running (te_client te c)) false) te))).
      apply te_inv_update; simpl; [done|done| |done|done|].
      * intros d Hd. rewrite El. set_solver.
      * eapply ordered_ext; [|exact Hord]. intros d Hd. simpl.
        by destruct (decide (c = d)) as [<-|].
    + intros d Hd. change (d ∈ l) in Hd. unfold set_enqueued. rewrite !net_set.
      rewrite decide_True by done. rewrite decide_False by set_solver. simpl. by apply Hhd.
  - simpl. unfold set_enqueued. rewrite net_set. by rewrite decide_True.
Qed.

(** What an iteration leaves: the next current client is a candidate due earliest and time is
    its due time, the other candidates stay queued; leaving the loop keeps them all queued. *)
Definition scheduled (current : cid) (te1 : time_engine) (time : Z)
    (next : option cid) (te2 : time_engine) : Prop :=
  match next with
  | Some c =>
      c ∉ te_clients te2 /\
      c :: te_clients te2 ≡ₚ candidates current te1 time /\
      te_time te2 = due current te1 time c /\
      (forall d, d ∈ candidates current te1 time -> te_time te2 <= due current te1 time d)
  | None =>
      te_clients te2 ≡ₚ candidates current te1 time /\ te_time te2 = te_time te1 /\
      (te_run_req te1 = false \/ candidates current te1 time = [])
  end.

Lemma due_other current te time d : d <> current -> due current te time d = net te d.
Proof. intros. unfold due. by rewrite decide_False. Qed.
Lemma due_self current te time : due current te time current = te_time te + time.
Proof. unfold due. by rewrite decide_True. Qed.

(** The end of an iteration that does not keep the current client: it is requeued in [l]. *)
Lemma requeue_scheduled current (w : W) te1 time l :
  running_out current te1 -> l ≡ₚ candidates current te1 time ->
  ordered (due current te1 time) l ->
  let te := requeue current te1 time l in
  let '(next, _, te2) :=
    if negb (te_run_req te) then (None, w, te)
    else match pop_first te with None => (None, w, te) | Some (c, te) => (Some c, w, te) end in
  te_inv te2 /\ scheduled current te1 time next te2.
Proof.
  intros Hro Hl Hsorted te. pose proof (requeue_inv _ _ _ _ Hro Hl Hsorted) as Hinv.
  fold te in Hinv. change (te_run_req te) with (te_run_req te1).
  destruct (te_run_req te1) eqn:Er; simpl.
  2:{ split; [done|]. unfold scheduled. split; [done|]. split; [done|by left]. }
  destruct l as [|c l'] eqn:El.
  { unfold pop_first; simpl. split; [done|]. unfold scheduled; simpl.
    split; [done|]. split; [done|]. right. by apply Permutation_nil. }
  destruct (pop_first_spec c l' te Hinv ltac:(done)) as (te' & -> & Hinv' & El' & Ht' & Hc).
  assert (Hnet : net te c = due current te1 time c).
  { unfold te, requeue. change (net (with_clients _ ?x) c) with (net x c).
    rewrite net_set. unfold due. destruct (decide (current = c)) as [<-|Hne].
    - rewrite decide_True by done. simpl.
      destruct (Z.ltb_spec 0 time); [done|]. exfalso. apply (running_not_in _ _ Hro).
      assert (Hin : current ∈ candidates current te1 time) by (rewrite <- Hl; left).
      revert Hin. unfold candidates. destruct (Z.ltb_spec 0 time); [lia|]. done.
    - by rewrite decide_False by congruence. }
  split; [done|]. unfold scheduled. rewrite El', Ht', Hnet.
  split; [done|]. split; [done|]. split; [done|].
  intros d Hd. rewrite <- Hl in Hd. by eapply ordered_hd.
Qed.

(** The loop's relinking branches are [requeue] at the place the insertion loop finds. *)
Lemma relink_requeue current te1 time :
  running_out current te1 ->
  let l := if 0 <? time
           then ordered_insert (fun d => net te1 d <? te_time te1 + time) current (te_clients te1)
           else te_clients te1 in
  l ≡ₚ candidates current te1 time /\ ordered (due current te1 time) l.
Proof.
  intros Hro. pose proof (running_not_in _ _ Hro) as Hni. destruct Hro as [Hinv Hr].
  assert (Hord : ordered (due current te1 time) (te_clients te1)).
  { eapply ordered_ext; [|apply (inv_ordered _ Hinv)]. intros d Hd. rewrite due_other; [done|].
    by intros ->. }
  unfold candidates. destruct (Z.ltb_spec 0 time); simpl; [|done].
  split; [apply ordered_insert_perm|].
  rewrite (ordered_insert_ext _
    (fun d => due current te1 time d <? due current te1 time current)).
  - by apply ordered_insert_ordered.
  - intros d Hd. rewrite due_self, due_other; [done|]. by intros ->.
Qed.

(** The field writes of the loop, in the orders it makes them. *)
Lemma stop_front current te1 time l :
  0 < time ->
  set_running false current (set_enqueued true current
    (set_next_event_time (te_time te1 + time) current (with_clients l te1)))
  = requeue current te1 time l.
Proof.
  intros Ht. unfold requeue. rewrite (proj2 (Z.ltb_lt 0 time) Ht).
  unfold set_running, set_enqueued, set_next_event_time, with_clients, set_client, te_client; simpl.
  by rewrite ?lookup_insert_eq, ?insert_insert_eq, ?lookup_insert_eq.
Qed.

Lemma stop_sorted current te1 time l :
  0 < time ->
  set_running false current (with_clients l (set_enqueued true current
    (set_next_event_time (te_time te1 + time) current te1)))
  = requeue current te1 time l.
Proof.
  intros Ht. unfold requeue. rewrite (proj2 (Z.ltb_lt 0 time) Ht).
  unfold set_running, set_enqueued, set_next_event_time, with_clients, set_client, te_client; simpl.
  by rewrite ?lookup_insert_eq, ?insert_insert_eq, ?lookup_insert_eq.
Qed.

Lemma stop_done current te1 time :
  running_out current te1 -> time <= 0 ->
  set_running false current te1 = requeue current te1 time (te_clients te1).
Proof.
  intros Hro Ht. unfold requeue, set_running. rewrite (proj2 (Z.ltb_ge 0 time) Ht).
  destruct (is_enqueued (te_client te1 current)) eqn:E; [|done].
  exfalso. apply (running_not_in _ _ Hro). destruct Hro as [Hinv _]. by apply (inv_enqueued _ Hinv).
Qed.

Lemma loop_step_scheduled current w te :
  te_inv te -> current ∉ te_clients te ->
  let '(w1, te1, time) := exec current w (set_running true current te) in
  let '(next, w2, te2) := loop_step exec current w te in
  w2 = w1 /\ te_inv te2 /\ scheduled current te1 time next te2.
Proof.
  intros Hinv Hc. pose proof (exec_keeps current w _ (set_running_out current te Hinv Hc)) as Hro.
  unfold loop_step. destruct (exec current w (set_running true current te)) as [[w1 te1] time].
  simpl in Hro. pose proof (relink_requeue current te1 time Hro) as [Hp Ho].
  pose proof (running_not_in _ _ Hro) as Hni. pose proof (proj1 Hro) as Hinv1.
  pose proof (requeue_scheduled current w1 te1 time) as Hrs. cbv zeta in *.
  rewrite (Z.add_comm time). destruct (Z.ltb_spec 0 time) as [Ht|Ht]; simpl.
  2:{ rewrite (stop_done current te1 time Hro Ht). specialize (Hrs _ Hro Hp Ho).
      destruct (if negb _ then _ else _) as [[nx w2] te2] eqn:E. split; [|exact Hrs].
      revert E. repeat case_match; congruence. }
  destruct (match te_clients te1 with [] => true | n :: _ => _ end) eqn:Eo.
  - assert (Hfirst : forall d, d ∈ te_clients te1 -> te_time te1 + time <= net te1 d).
    { intros d Hd. pose proof (inv_ordered _ Hinv1) as Hord.
      destruct (te_clients te1) as [|n l] eqn:El; [set_solver|].
      apply Z.leb_le in Eo. pose proof (ordered_hd _ _ _ _ Hord Hd). lia. }
    assert (Hcand : candidates current te1 time = current :: te_clients te1).
    { unfold candidates. by rewrite (proj2 (Z.ltb_lt 0 time) Ht). }
    assert (Hdue : forall d, d ∈ te_clients te1 -> due current te1 time d = net te1 d).
    { intros d Hd. apply due_other. by intros ->. }
    destruct (te_run_req te1) eqn:Er.
    + split; [done|]. split; [by apply with_time_inv|]. unfold scheduled. rewrite Hcand, due_self.
      simpl. split; [done|]. split; [done|]. split; [done|]. intros d Hd.
      apply elem_of_cons in Hd as [->|Hd]; [rewrite due_self; lia|].
      rewrite Hdue by done. by apply Hfirst.
    + change (te_time (with_clients ?l te1)) with (te_time te1).
      rewrite (stop_front current te1 time _ Ht).
      specialize (Hrs (current :: te_clients te1) Hro). rewrite Hcand in Hrs.
      specialize (Hrs ltac:(done)). change (te_run_req (requeue _ _ _ _)) with (te_run_req te1) in Hrs.
      rewrite Er in Hrs. simpl in Hrs. split; [done|]. apply Hrs.
      apply ordered_cons. split.
      * eapply ordered_ext; [|apply (inv_ordered _ Hinv1)]. intros d Hd. by rewrite Hdue.
      * intros d Hd. rewrite due_self, Hdue by done. by apply Hfirst.
  - destruct (te_clients te1) as [|n l] eqn:El; [done|]. apply Z.leb_gt in Eo.
    simpl in Hp, Ho. rewrite (proj2 (Z.ltb_lt _ _) Eo) in Hp, Ho.
    rewrite (ordered_insert_ext _ (fun d => net te1 d <? te_time te1 + time)).
    2:{ intros d Hd. unfold set_enqueued, set_next_event_time. rewrite !net_set.
        rewrite decide_False; [by rewrite decide_False by set_solver|set_solver]. }
    rewrite (stop_sorted current te1 time _ Ht). specialize (Hrs _ Hro Hp Ho).
    destruct (if negb _ then _ else _) as [[nx w2] te2] eqn:E. split; [|exact Hrs].
    revert E. repeat case_match; congruence.
Qed.

(** Iterations keep the invariant, and the current client stays out of the list. *)
Lemma loop_step_inv current w te c w' te' :
  te_inv te -> current ∉ te_clients te ->
  loop_step exec current w te = (Some c, w', te') ->
  te_inv te' /\ c ∉ te_clients te' /\ te_time te <= te_time te'.
Proof.
  intros Hinv Hc E. pose proof (loop_step_scheduled current w te Hinv Hc) as H.
  pose proof (exec_keeps current w _ (set_running_out current te Hinv Hc)) as Hro.
  pose proof (exec_time current w _ (set_running_out current te Hinv Hc)) as Htime.
  destruct (exec current w (set_running true current te)) as [[w1 te1] time]. rewrite E in H.
  simpl in *. destruct H as (_ & Hinv' & Hni & Hp & Ht & _). split_and!; [done|done|].
  assert (Hin : c ∈ candidates current te1 time) by (rewrite <- Hp; left).
  change (te_time (set_running _ _ te)) with (te_time te) in Htime.
  rewrite Ht. unfold due, candidates in *. destruct (decide (c = current)) as [->|Hne].
  - destruct (Z.ltb_spec 0 time); [lia|]. by destruct (running_not_in _ _ Hro).
  - assert (Hin' : c ∈ te_clients te1) by (destruct (0 <? time); set_solver).
    pose proof (inv_future _ (proj1 Hro) c Hin'). lia.
Qed.

(** Time never goes back along a run. *)
Lemma run_steps_monotone n current w te :
  te_inv te -> current ∉ te_clients te ->
  StronglySorted Z.le (te_time te :: (run_steps exec n current w te).1.*2).
Proof.
  revert current w te. induction n as [|n IH]; intros current w te Hinv Hc; simpl.
  { by repeat constructor. }
  destruct (loop_step exec current w te) as [[[c|] w'] te'] eqn:E; simpl.
  - destruct (loop_step_inv _ _ _ _ _ _ Hinv Hc E) as (Hinv' & Hc' & Hle).
    specialize (IH c w' te' Hinv' Hc').
    destruct (run_steps exec n c w' te') as [tr r]; simpl in *.
    pose proof (StronglySorted_inv IH) as [Hs Hf].
    assert (Hall : Forall (Z.le (te_time te)) tr.*2).
    { eapply Forall_impl; [exact Hf|]. simpl. lia. }
    constructor; [constructor; [done|done]|]. constructor; [lia|done].
  - repeat constructor. lia.
Qed.
End RunLoopFacts.

(** ** Properties *)

Definition do_calls (l : list engine_call) (te : time_engine) : time_engine :=
  fold_left (fun te a => do_call a te) l te.

Lemma do_call_inv a te : te_inv te -> te_inv (do_call a te).
Proof. destruct a; simpl; [apply enqueue_inv; lia | apply dequeue_inv]. Qed.

(** C5: Whatever sequence of enqueue and dequeue calls is made on a consistent time engine, its
    client list stays ordered by event time, without duplicates, in agreement with the clients'
    is_enqueued flags, with no client in the past; and an accepted enqueue puts the client at
    exactly the requested time. *)
Theorem client_queue_invariant l c d te :
  te_inv te ->
  let te' := do_calls l te in
  te_inv te' /\
  let '(accepted, te'') := enqueue c (Z.of_nat d) te' in
  te_inv te'' /\
  (accepted = true -> c ∈ te_clients te'' /\ net te'' c = te_time te' + Z.of_nat d) /\
  (accepted = false -> te'' = te').
Proof.
  intros Hinv te'. assert (Hinv' : te_inv te').
  { subst te'. unfold do_calls. revert te Hinv. induction l as [|a l IH]; intros te Hinv; simpl;
      [done|]. by apply IH, do_call_inv. }
  split; [done|]. pose proof (enqueue_inv c (Z.of_nat d) te' ltac:(lia) Hinv') as Hi.
  pose proof (enqueue_true_eq c (Z.of_nat d) te' Hinv') as Ht.
  pose proof (enqueue_false_eq c (Z.of_nat d) te') as Hf.
  destruct (enqueue c (Z.of_nat d) te') as [acc te'']; simpl in *. split; [done|].
  split; intros ->; [|auto]. rewrite (Ht eq_refl). cbv zeta. split.
  - apply elem_of_ordered_insert. by left.
  - change (net (with_clients _ ?t) c) with (net t c). rewrite net_set. by rewrite decide_True.
Qed.

Definition te_start : time_engine := TimeEngine 0 [] ∅ true.

Lemma te_start_inv : te_inv te_start.
Proof.
  constructor; simpl; [constructor|constructor| | |]; intros c; rewrite ?elem_of_nil; try done.
Qed.

Lemma client_queue_invariant_witness :
  net (do_calls [CallEnqueue 1 50; CallEnqueue 2 20; CallDequeue 1] te_start) 2 = 20 /\
  te_inv (do_calls [CallEnqueue 1 50; CallEnqueue 2 20; CallDequeue 1] te_start).
Proof.
  split; [vm_compute; reflexivity|].
  apply (client_queue_invariant [CallEnqueue 1 50; CallEnqueue 2 20; CallDequeue 1] 3 7 te_start
           te_start_inv).
Defined.

(** One iteration of the scheduling loop is earliest first and loses nobody: the next current
    client is one due no later than any other candidate (the queued clients and the one that just
    executed, if it asked for another turn), time becomes exactly its due time, and the remaining
    candidates are queued; when the loop is left all of them are queued. *)
Theorem schedule_earliest_first {W} (exec : cid -> W -> time_engine -> W * time_engine * Z)
    `{!ClientExec exec} current w te :
  te_inv te -> current ∉ te_clients te ->
  let '(w1, te1, time) := exec current w (set_running true current te) in
  let '(next, w2, te2) := loop_step exec current w te in
  w2 = w1 /\ te_inv te2 /\ scheduled current te1 time next te2.
Proof. apply loop_step_scheduled; done. Qed.

(** Two clients: client 1 runs every 10 time units, client 2 every 25 and client 1 wakes client 3. *)
Definition demo_script (c : cid) (n : nat) (t : Z) : nat * list engine_call * Z :=
  match c with
  | 1%nat => (S n, [CallEnqueue 3 5], 10)
  | 2%nat => (S n, [], 25)
  | _ => (S n, [], -1)
  end.

Lemma demo_start_inv : te_inv (do_call (CallEnqueue 2 25) te_start).
Proof. apply do_call_inv, te_start_inv. Qed.

Lemma schedule_earliest_first_witness :
  (loop_step (scripted demo_script) 1 0%nat (do_call (CallEnqueue 2 25) te_start)).1.1 = Some 3%nat /\
  let te := do_call (CallEnqueue 2 25) te_start in
  let '(w1, te1, time) := scripted demo_script 1 0%nat (set_running true 1 te) in
  let '(next, w2, te2) := loop_step (scripted demo_script) 1 0%nat te in
  w2 = w1 /\ te_inv te2 /\ scheduled 1 te1 time next te2.
Proof.
  split; [vm_compute; reflexivity|].
  apply (schedule_earliest_first (scripted demo_script) 1 0%nat (do_call (CallEnqueue 2 25) te_start)).
  - exact demo_start_inv.
  - vm_compute. intros H. inversion H as [|? ? ? H']. inversion H'.
Defined.
