(* ===== verification/ClockEngine.v ===== *)
(** * The clock engine (engine/src/vp.cpp, vp/clock/clock_engine.hpp, vp/clock/clock_event.hpp)

    A clock engine is a client of the time engine that runs the events of one clock domain.  An
    event due within the next 32 cycles is in a slot of a circular buffer of linked lists, a later
    one in an ordered delayed queue that is flushed into the buffer when the buffer wraps.
    Events are named by an [eid]; the fields of the event objects are in [ck_store], and the
    intrusive lists (through clock_event::next) are lists of [eid], an event being in at most one
    of them once ([ck_inv]).  Cycles and times are int64_t counts, modelled in Z. *)

From S2P Require Import Prelude TimeEngine.

Definition eid := nat.
Bind Scope nat_scope with eid.

Definition CLOCK_EVENT_QUEUE_SIZE : Z := 32.
Definition CLOCK_EVENT_QUEUE_MASK : Z := CLOCK_EVENT_QUEUE_SIZE - 1.

Record clock_event := ClockEvent {
  enqueued : bool;
  ev_cycle : Z;                (* cycle *)
}.

Record clock_engine := ClockEngine {
  self : cid;                          (* the engine as a client of the time engine *)
  event_queue : list (list eid);       (* event_queue[CLOCK_EVENT_QUEUE_SIZE] *)
  delayed_queue : list eid;
  current_cycle : Z;
  period : Z;
  freq : Z;
  cycles : Z;
  nb_enqueued_to_cycle : Z;
  stop_time : Z;
  must_flush_delayed_queue : bool;
  ck_store : gmap eid clock_event;
}.

(** A clock engine together with the time engine it is a client of. *)
Notation world := (time_engine * clock_engine)%type.

Definition set_queues (q : list (list eid)) (d : list eid) (nb : Z) (ck : clock_engine) :=
  ClockEngine (self ck) q d (current_cycle ck) (period ck) (freq ck) (cycles ck) nb
    (stop_time ck) (must_flush_delayed_queue ck) (ck_store ck).
Definition set_cycles (n : Z) (ck : clock_engine) :=
  ClockEngine (self ck) (event_queue ck) (delayed_queue ck) (current_cycle ck) (period ck)
    (freq ck) n (nb_enqueued_to_cycle ck) (stop_time ck) (must_flush_delayed_queue ck) (ck_store ck).
Definition set_current_cycle (n : Z) (ck : clock_engine) :=
  ClockEngine (self ck) (event_queue ck) (delayed_queue ck) n (period ck)
    (freq ck) (cycles ck) (nb_enqueued_to_cycle ck) (stop_time ck)
    (must_flush_delayed_queue ck) (ck_store ck).
Definition set_freq (f p : Z) (ck : clock_engine) :=
  ClockEngine (self ck) (event_queue ck) (delayed_queue ck) (current_cycle ck) p
    f (cycles ck) (nb_enqueued_to_cycle ck) (stop_time ck)
    (must_flush_delayed_queue ck) (ck_store ck).
Definition set_stop_time (t : Z) (ck : clock_engine) :=
  ClockEngine (self ck) (event_queue ck) (delayed_queue ck) (current_cycle ck) (period ck)
    (freq ck) (cycles ck) (nb_enqueued_to_cycle ck) t (must_flush_delayed_queue ck) (ck_store ck).
Definition set_must_flush (b : bool) (ck : clock_engine) :=
  ClockEngine (self ck) (event_queue ck) (delayed_queue ck) (current_cycle ck) (period ck)
    (freq ck) (cycles ck) (nb_enqueued_to_cycle ck) (stop_time ck) b (ck_store ck).
Definition set_event (e : eid) (x : clock_event) (ck : clock_engine) :=
  ClockEngine (self ck) (event_queue ck) (delayed_queue ck) (current_cycle ck) (period ck)
    (freq ck) (cycles ck) (nb_enqueued_to_cycle ck) (stop_time ck)
    (must_flush_delayed_queue ck) (<[e := x]> (ck_store ck)).

Definition event (ck : clock_engine) (e : eid) : clock_event :=
  default (ClockEvent false 0) (ck_store ck !! e).
Definition is_ev_enqueued (ck : clock_engine) (e : eid) : bool := enqueued (event ck e).
Definition get_cycle (ck : clock_engine) (e : eid) : Z := ev_cycle (event ck e).

Definition running (w : world) : bool := is_running (te_client w.1 (self w.2)).
Definition slot (ck : clock_engine) (i : Z) : list eid := default [] (event_queue ck !! Z.to_nat i).

(** has_events *)
Definition has_events (ck : clock_engine) : bool :=
  negb (nb_enqueued_to_cycle ck =? 0) || negb (bool_decide (delayed_queue ck = [])).

(** time_engine_client::enqueue_to_engine and clock_engine::dequeue_from_engine *)
Definition enqueue_to_engine (time : Z) (w : world) : world :=
  ((enqueue (self w.2) time w.1).2, w.2).
Definition dequeue_from_engine (w : world) : bool * world :=
  if running w || negb (is_enqueued (te_client w.1 (self w.2))) then (false, w)
  else (true, ((dequeue (self w.2) w.1).2, w.2)).

(** clock_engine::update *)
Definition update (w : world) : world :=
  let '(te, ck) := w in
  if period ck =? 0 then w
  else
    let diff := te_time te - stop_time ck in
    if 0 <? diff then
      let n := (diff + period ck - 1) / period ck in
      (te, set_cycles (cycles ck + n) (set_stop_time (stop_time ck + n * period ck) ck))
    else w.

(** clock_engine::sync *)
Definition sync (w : world) : world :=
  if negb (running w) && (nb_enqueued_to_cycle w.2 =? 0) then update w else w.

(** clock_engine::enqueue_to_cycle *)
Definition enqueue_to_cycle (e : eid) (n : Z) (ck : clock_engine) : clock_engine :=
  let cycle := Z.land (current_cycle ck + n) CLOCK_EVENT_QUEUE_MASK in
  let ck := set_queues (<[Z.to_nat cycle := e :: slot ck cycle]> (event_queue ck))
              (delayed_queue ck) (nb_enqueued_to_cycle ck + 1) ck in
  set_event e (ClockEvent (is_ev_enqueued ck e) (n + cycles ck)) ck.

(** clock_engine::enqueue_other; its first branch is dead, can_enqueue_to_cycle being always false. *)
Definition enqueue_other (e : eid) (cycle : Z) (w : world) : world :=
  let w := (w.1, set_must_flush true w.2) in
  let w := if period w.2 =? 0 then w else enqueue_to_engine (cycle * period w.2) w in
  let '(te, ck) := w in
  let full_cycle := cycle + cycles ck in
  let d := ordered_insert (fun f => get_cycle ck f <? full_cycle) e (delayed_queue ck) in
  (te, set_event e (ClockEvent (is_ev_enqueued ck e) full_cycle)
         (set_queues (event_queue ck) d (nb_enqueued_to_cycle ck) ck)).

(** clock_engine::enqueue; [None] is the failed assertion on an event already enqueued. *)
Definition ck_enqueue (e : eid) (n : Z) (w : world) : option world :=
  if is_ev_enqueued w.2 e then None
  else
    let w := (w.1, set_event e (ClockEvent true (get_cycle w.2 e)) w.2) in
    let w := if running w then w else sync w in
    Some (if running w && (n <? CLOCK_EVENT_QUEUE_SIZE)
          then (w.1, enqueue_to_cycle e n w.2)
          else enqueue_other e n w).

(** clock_engine::enqueue_ext *)
Definition enqueue_ext (e : eid) (n : Z) (w : world) : option world := ck_enqueue e n (sync w).

(** clock_engine::cancel; [None] is the failed assertion on an event found in no queue. *)
Definition cancel (e : eid) (w : world) : option world :=
  let '(te, ck) := w in
  if negb (is_ev_enqueued ck e) then Some w
  else
    let unlinked :=
      if bool_decide (e ∈ delayed_queue ck)
      then Some (set_queues (event_queue ck) (unlink e (delayed_queue ck))
                   (nb_enqueued_to_cycle ck) ck)
      else match list_find (fun l => e ∈ l) (event_queue ck) with
           | Some (i, l) =>
               Some (set_queues (<[i := unlink e l]> (event_queue ck)) (delayed_queue ck)
                       (nb_enqueued_to_cycle ck - 1) ck)
           | None => None
           end in
    let* ck := unlinked in
    let ck := set_event e (ClockEvent false (get_cycle ck e)) ck in
    Some (if has_events ck then (te, ck) else (dequeue_from_engine (te, ck)).2).

(** clock_engine::reenqueue and reenqueue_ext *)
Definition reenqueue (e : eid) (enqueue_cycles : Z) (w : world) : option world :=
  let n := cycles w.2 + enqueue_cycles in
  let go w :=
    let* w := ck_enqueue e enqueue_cycles w in
    Some (w.1, set_event e (ClockEvent (is_ev_enqueued w.2 e) n) w.2) in
  if is_ev_enqueued w.2 e then
    if get_cycle w.2 e <=? n then Some w
    else let* w := cancel e w in go w
  else go w.

Definition reenqueue_ext (e : eid) (n : Z) (w : world) : option world := reenqueue e n (sync w).

(** clock_engine::get_next_event *)
Definition get_next_event (ck : clock_engine) : option eid :=
  if negb (nb_enqueued_to_cycle ck =? 0) then
    match list_find (fun i => slot ck (Z.land (current_cycle ck + i) CLOCK_EVENT_QUEUE_MASK) <> [])
            (Z.of_nat <$> seq 0 32) with
    | Some (_, i) => head (slot ck (Z.land (current_cycle ck + i) CLOCK_EVENT_QUEUE_MASK))
    | None => head (delayed_queue ck)
    end
  else head (delayed_queue ck).

(** clock_engine::flush_delayed_queue; [l] is the chain from the loop variable [event]. *)
Fixpoint flush_loop (l : list eid) (ck : clock_engine) : clock_engine :=
  match l with
  | [] => ck
  | e :: l' =>
      let ck := if nb_enqueued_to_cycle ck =? 0 then set_cycles (get_cycle ck e) ck else ck in
      let cycle_diff := u64 (get_cycle ck e - cycles ck) in
      if CLOCK_EVENT_QUEUE_SIZE <=? cycle_diff then ck
      else
        let ck := enqueue_to_cycle e cycle_diff ck in
        flush_loop l' (set_queues (event_queue ck) l' (nb_enqueued_to_cycle ck) ck)
  end.
Definition flush_delayed_queue (ck : clock_engine) : clock_engine :=
  flush_loop (delayed_queue ck) (set_must_flush false ck).

(** clock_engine::apply_frequency.  The period 1e12 / freq, computed in double precision and
    truncated, is the integer quotient: the spacing of doubles is below 1/freq there. *)
Definition apply_frequency (frequency : Z) (w : world) : world :=
  if 0 <? frequency then
    let '(reenq, w) := dequeue_from_engine w in
    let old := period w.2 in
    let '(te, ck) := (w.1, set_freq frequency (10 ^ 12 / frequency) w.2) in
    if reenq && (0 <? old) then
      let n := Z.quot (net te (self ck) - te_time te) old in
      let t := n * period ck in
      ((enqueue (self ck) t (set_next_event_time t (self ck) te)).2, ck)
    else if old =? 0 then
      if has_events ck then
        match get_next_event ck with
        | Some e =>
            let t := (get_cycle ck e - cycles ck) * period ck in
            ((enqueue (self ck) t (set_next_event_time t (self ck) te)).2, ck)
        | None => (te, ck)
        end
      else (te, ck)
    else (te, ck)
  else if frequency =? 0 then
    let '(te, ck) := (dequeue_from_engine w).2 in (te, set_freq (freq ck) 0 ck)
  else w.

(** ** Execution: clock_engine::exec

    An event's method is the sequence of calls it makes on its clock engine, which may depend on
    the state [S] of the components and on the cycle. *)
Inductive ck_call :=
  | Enqueue (e : eid) (n : Z)
  | Cancel (e : eid)
  | Reenqueue (e : eid) (n : Z).

Definition run_call (a : ck_call) (w : world) : option world :=
  match a with
  | Enqueue e n => ck_enqueue e n w
  | Cancel e => cancel e w
  | Reenqueue e n => reenqueue e n w
  end.

Fixpoint run_calls (l : list ck_call) (w : world) : option world :=
  match l with
  | [] => Some w
  | a :: l => let* w := run_call a w in run_calls l w
  end.

(** A record of an executed event: its due cycle and the cycle it ran at. *)
Record executed := Executed { x_event : eid; x_due : Z; x_at : Z }.

Section Exec.
Context {S : Type} (meth : eid -> S -> Z -> S * list ck_call).

(** Taking the first event of the current slot out of it. *)
Definition pop_event (e : eid) (l : list eid) (ck : clock_engine) : clock_engine :=
  let ck := set_queues (<[Z.to_nat (current_cycle ck) := l]> (event_queue ck))
              (delayed_queue ck) (nb_enqueued_to_cycle ck - 1) ck in
  set_event e (ClockEvent false (get_cycle ck e)) ck.

(** The loop over the events of the current cycle. *)
Fixpoint exec_slot (fuel : nat) (s : S) (w : world) : outcome (list executed * S * world) :=
  match slot w.2 (current_cycle w.2) with
  | [] => Done ([], s, w)
  | e :: l =>
      match fuel with
      | O => OutOfFuel
      | Datatypes.S fuel =>
          let x := Executed e (get_cycle w.2 e) (cycles w.2) in
          let w := (w.1, pop_event e l w.2) in
          let '(s, calls) := meth e s (cycles w.2) in
          match run_calls calls w with
          | None => AssertFailed
          | Some w =>
              match exec_slot fuel s w with
              | Done (tr, s, w) => Done (x :: tr, s, w)
              | AssertFailed => AssertFailed
              | OutOfFuel => OutOfFuel
              end
          end
      end
  end.

(** The end of exec: the state for the next cycle and the delay given to the time engine. *)
Definition exec_end (w : world) : world * Z :=
  let '(te, ck) := w in
  if negb (nb_enqueued_to_cycle ck =? 0) then
    let ck := set_cycles (cycles ck + 1) ck in
    let ck := set_current_cycle (Z.land (current_cycle ck + 1) CLOCK_EVENT_QUEUE_MASK) ck in
    let ck := if current_cycle ck =? 0 then set_must_flush true ck else ck in
    ((te, ck), period ck)
  else
    let ck := set_stop_time (te_time te) (set_must_flush true ck) in
    ((te, ck), match delayed_queue ck with
               | e :: _ => (get_cycle ck e - cycles ck) * period ck
               | [] => -1
               end).

Definition start_cycle (ck : clock_engine) : clock_engine :=
  if must_flush_delayed_queue ck then flush_delayed_queue ck else ck.

Definition exec (fuel : nat) (s : S) (w : world) :
    outcome (list executed * S * world * Z) :=
  if negb (has_events w.2) then AssertFailed
  else
    match exec_slot fuel s (w.1, start_cycle w.2) with
    | Done (tr, s, w) => let '(w, time) := exec_end w in Done (tr, s, w, time)
    | AssertFailed => AssertFailed
    | OutOfFuel => OutOfFuel
    end.
End Exec.

(** ** Invariant *)

(** Every event in some queue. *)
Definition queued (ck : clock_engine) : list eid := concat (event_queue ck) ++ delayed_queue ck.

(** The queues are well formed and agree with the due cycles: an event of the buffer is due in the
    next 32 cycles and sits in the slot of its due cycle, counted from the current slot; the
    delayed queue is ordered and holds nothing due before [bound]. *)
Record ck_core (bound : Z) (ck : clock_engine) : Prop := {
  cc_len : length (event_queue ck) = 32%nat;
  cc_cur : 0 <= current_cycle ck < 32;
  cc_nb : nb_enqueued_to_cycle ck = Z.of_nat (length (concat (event_queue ck)));
  cc_nodup : NoDup (queued ck);
  cc_slot : forall i l e, event_queue ck !! i = Some l -> e ∈ l ->
    cycles ck <= get_cycle ck e < cycles ck + 32 /\
    Z.of_nat i = (current_cycle ck + (get_cycle ck e - cycles ck)) mod 32;
  cc_ordered : ordered (get_cycle ck) (delayed_queue ck);
  cc_delayed : forall e, e ∈ delayed_queue ck ->
    bound <= get_cycle ck e < cycles ck + 2 ^ 63;
}.

(** An event is marked enqueued exactly when it is in a queue. *)
Definition ck_inv_at (bound : Z) (ck : clock_engine) : Prop :=
  ck_core bound ck /\ forall e, is_ev_enqueued ck e = true <-> e ∈ queued ck.

(** While the engine runs a cycle no delayed event is due before the next wrap of the buffer. *)
Definition next_wrap (ck : clock_engine) : Z := cycles ck + CLOCK_EVENT_QUEUE_SIZE - current_cycle ck.
Definition ck_running_inv (ck : clock_engine) : Prop := ck_inv_at (next_wrap ck) ck.
(** Between two cycles this holds unless a flush is due. *)
Definition ck_inv (ck : clock_engine) : Prop :=
  ck_inv_at (if must_flush_delayed_queue ck then cycles ck else next_wrap ck) ck.

Lemma event_set e x ck f :
  event (set_event e x ck) f = if decide (e = f) then x else event ck f.
Proof. unfold event; simpl. rewrite lookup_insert. by destruct (decide (e = f)). Qed.

Lemma get_cycle_set_ne e x ck f : e <> f -> get_cycle (set_event e x ck) f = get_cycle ck f.
Proof. intros. unfold get_cycle. by rewrite event_set, decide_False. Qed.
Lemma get_cycle_set_eq e x ck : get_cycle (set_event e x ck) e = ev_cycle x.
Proof. unfold get_cycle. by rewrite event_set, decide_True. Qed.
Lemma is_ev_enqueued_set_ne e x ck f :
  e <> f -> is_ev_enqueued (set_event e x ck) f = is_ev_enqueued ck f.
Proof. intros. unfold is_ev_enqueued. by rewrite event_set, decide_False. Qed.
Lemma is_ev_enqueued_set_eq e x ck : is_ev_enqueued (set_event e x ck) e = enqueued x.
Proof. unfold is_ev_enqueued. by rewrite event_set, decide_True. Qed.

Lemma land_mask z : Z.land z CLOCK_EVENT_QUEUE_MASK = z mod 32.
Proof. change CLOCK_EVENT_QUEUE_MASK with (Z.ones 5). by rewrite Z.land_ones. Qed.

Lemma concat_insert {A} (q : list (list A)) i l l' :
  q !! i = Some l ->
  exists r, concat q ≡ₚ l ++ r /\ concat (<[i := l']> q) ≡ₚ l' ++ r.
Proof.
  intros Hi. exists (concat (take i q) ++ concat (drop (S i) q)).
  pose proof (lookup_lt_Some _ _ _ Hi). rewrite insert_take_drop by done.
  rewrite <- (take_drop_middle q i l Hi) at 1.
  rewrite !concat_app. simpl. split; solve_Permutation.
Qed.

Lemma elem_of_concat_lookup {A} (q : list (list A)) x :
  x ∈ concat q <-> exists i l, q !! i = Some l /\ x ∈ l.
Proof.
  rewrite list_elem_of_In, in_concat. split.
  - intros (l & Hl & Hx). apply list_elem_of_In, list_elem_of_lookup in Hl as [i Hi].
    exists i, l. by rewrite list_elem_of_In.
  - intros (i & l & Hi & Hx). exists l. rewrite <- !list_elem_of_In. split; [|done].
    by eapply list_elem_of_lookup_2.
Qed.

Lemma slot_in_queued ck i l e : event_queue ck !! i = Some l -> e ∈ l -> e ∈ queued ck.
Proof.
  intros Hi He. unfold queued. apply elem_of_app. left. apply elem_of_concat_lookup. eauto.
Qed.

Lemma core_set_event b e x ck : ck_core b ck -> e ∉ queued ck -> ck_core b (set_event e x ck).
Proof.
  intros [Hlen Hcur Hnb Hnd Hslot Hord Hdel] He.
  assert (Hne : forall f, f ∈ queued ck -> e <> f) by (intros f Hf ->; done).
  assert (Hd : forall f, f ∈ delayed_queue ck -> e <> f).
  { intros f Hf. apply Hne, elem_of_app. by right. }
  constructor; try done.
  - intros i l f Hi Hf. rewrite get_cycle_set_ne by eauto using slot_in_queued.
    by apply Hslot with l.
  - eapply ordered_ext; [|exact Hord]. intros f Hf. by rewrite get_cycle_set_ne by auto.
  - intros f Hf. rewrite get_cycle_set_ne by auto. by apply Hdel.
Qed.

Lemma core_bound b b' ck :
  ck_core b ck -> (forall e, e ∈ delayed_queue ck -> b' <= get_cycle ck e) -> ck_core b' ck.
Proof.
  intros [Hlen Hcur Hnb Hnd Hslot Hord Hdel] Hb. constructor; try done.
  intros e He. specialize (Hdel e He). specialize (Hb e He). lia.
Qed.

Lemma slot_lookup ck n :
  length (event_queue ck) = 32%nat -> 0 <= n < 32 ->
  event_queue ck !! Z.to_nat n = Some (slot ck n).
Proof.
  intros Hlen Hn. unfold slot.
  destruct (lookup_lt_is_Some_2 (event_queue ck) (Z.to_nat n)) as [l Hl]; [lia|]. by rewrite Hl.
Qed.

(** Linking an event in its slot. *)
Lemma core_enqueue_to_cycle b e n ck :
  ck_core b ck -> e ∉ queued ck -> 0 <= n < 32 ->
  ck_core b (enqueue_to_cycle e n ck) /\ queued (enqueue_to_cycle e n ck) ≡ₚ e :: queued ck.
Proof.
  intros Hc He Hn. pose proof Hc as [Hlen Hcur Hnb Hnd Hslot Hord Hdel].
  unfold enqueue_to_cycle. rewrite land_mask.
  set (c := (current_cycle ck + n) mod 32). assert (Hcr : 0 <= c < 32) by (apply Z.mod_pos_bound; lia).
  pose proof (slot_lookup ck c Hlen Hcr) as Hl.
  destruct (concat_insert _ _ _ (e :: slot ck c) Hl) as (r & Hr & Hr').
  assert (Hq : concat (<[Z.to_nat c := e :: slot ck c]> (event_queue ck)) ≡ₚ e :: concat (event_queue ck)).
  { by rewrite Hr', Hr. }
  assert (Hd : forall f, f ∈ delayed_queue ck -> e <> f).
  { intros f Hf ->. apply He, elem_of_app. by right. }
  split; [|unfold queued; simpl; by rewrite Hq].
  constructor; simpl; try done.
  - by rewrite length_insert.
  - rewrite Hq. simpl. lia.
  - unfold queued; simpl. rewrite Hq. simpl. by constructor.
  - intros i l f Hi Hf. change (cycles (set_event _ _ _)) with (cycles ck).
    change (current_cycle (set_event _ _ _)) with (current_cycle ck).
    destruct (decide (e = f)) as [<-|Hne].
    + rewrite get_cycle_set_eq. simpl.
      destruct (decide (i = Z.to_nat c)) as [->|Hic].
      * split; [lia|]. unfold c. rewrite Z2Nat.id by lia. f_equal. lia.
      * rewrite list_lookup_insert_ne in Hi by done. destruct He. by eapply slot_in_queued.
    + rewrite get_cycle_set_ne by done.
      destruct (decide (i = Z.to_nat c)) as [->|Hic].
      * rewrite list_lookup_insert_eq in Hi by lia. injection Hi as <-.
        apply elem_of_cons in Hf as [->|Hf]; [done|]. by eapply Hslot.
      * rewrite list_lookup_insert_ne in Hi by done. by eapply Hslot.
  - eapply ordered_ext; [|exact Hord]. intros f Hf. by rewrite get_cycle_set_ne by auto.
  - intros f Hf. rewrite get_cycle_set_ne by auto. by apply Hdel.
Qed.

(** Unlinking an event from a slot, from the delayed queue; linking one in the delayed queue. *)
Lemma core_unlink_slot b i l e ck :
  ck_core b ck -> event_queue ck !! i = Some l -> e ∈ l ->
  let ck' := set_queues (<[i := unlink e l]> (event_queue ck)) (delayed_queue ck)
               (nb_enqueued_to_cycle ck - 1) ck in
  ck_core b ck' /\ queued ck ≡ₚ e :: queued ck' /\ e ∉ queued ck'.
Proof.
  intros [Hlen Hcur Hnb Hnd Hslot Hord Hdel] Hi He ck'.
  destruct (concat_insert _ _ _ (unlink e l) Hi) as (r & Hr & Hr').
  assert (Hq : concat (event_queue ck) ≡ₚ e :: concat (event_queue ck')).
  { simpl. rewrite Hr', Hr. by rewrite (unlink_perm e l He) at 1. }
  assert (Hqq : queued ck ≡ₚ e :: queued ck') by (unfold queued; by rewrite Hq).
  rewrite Hqq in Hnd. apply NoDup_cons in Hnd as [Hni Hnd].
  split; [|by split]. constructor; simpl; try done.
  - by rewrite length_insert.
  - change (<[i:=unlink e l]> (event_queue ck)) with (event_queue ck').
    rewrite Hnb, Hq. simpl. lia.
  - intros j m f Hj Hf. destruct (decide (i = j)) as [<-|Hij].
    + rewrite list_lookup_insert_eq in Hj by (by eapply lookup_lt_Some). injection Hj as <-.
      eapply Hslot; [done|]. eapply elem_of_submseteq; [done|].
      apply sublist_submseteq, unlink_sublist.
    + rewrite list_lookup_insert_ne in Hj by done. by eapply Hslot.
Qed.

Lemma core_unlink_delayed b e ck :
  ck_core b ck -> e ∈ delayed_queue ck ->
  let ck' := set_queues (event_queue ck) (unlink e (delayed_queue ck))
               (nb_enqueued_to_cycle ck) ck in
  ck_core b ck' /\ queued ck ≡ₚ e :: queued ck' /\ e ∉ queued ck'.
Proof.
  intros [Hlen Hcur Hnb Hnd Hslot Hord Hdel] He ck'.
  assert (Hqq : queued ck ≡ₚ e :: queued ck').
  { unfold queued; simpl. rewrite (unlink_perm e _ He) at 1. by rewrite Permutation_middle. }
  rewrite Hqq in Hnd. apply NoDup_cons in Hnd as [Hni Hnd].
  split; [|by split]. constructor; simpl; try done.
  - by apply ordered_unlink.
  - intros f Hf. apply Hdel. eapply elem_of_submseteq; [done|].
    apply sublist_submseteq, unlink_sublist.
Qed.

Lemma core_link_delayed b e c ck :
  ck_core b ck -> e ∉ queued ck -> b <= c < cycles ck + 2 ^ 63 ->
  let d := ordered_insert (fun f => get_cycle ck f <? c) e (delayed_queue ck) in
  let ck' := set_event e (ClockEvent (is_ev_enqueued ck e) c)
               (set_queues (event_queue ck) d (nb_enqueued_to_cycle ck) ck) in
  ck_core b ck' /\ queued ck' ≡ₚ e :: queued ck.
Proof.
  intros [Hlen Hcur Hnb Hnd Hslot Hord Hdel] He Hb d ck'.
  assert (Hqq : queued ck' ≡ₚ e :: queued ck).
  { unfold queued; simpl. unfold d. rewrite ordered_insert_perm. by rewrite Permutation_middle. }
  assert (Hne : forall f, f ∈ queued ck -> e <> f) by (intros f Hf ->; done).
  assert (Hd : forall f, f ∈ delayed_queue ck -> e <> f).
  { intros f Hf. apply Hne, elem_of_app. by right. }
  assert (Hcyc : forall f, e <> f -> get_cycle ck' f = get_cycle ck f).
  { intros f Hf. unfold ck'. by rewrite get_cycle_set_ne. }
  assert (Hce : get_cycle ck' e = c) by (unfold ck'; by rewrite get_cycle_set_eq).
  split; [|done]. constructor; try done.
  - rewrite Hqq. by constructor.
  - intros i l f Hi Hf. rewrite Hcyc by eauto using slot_in_queued. by eapply Hslot.
  - change (delayed_queue ck') with d. unfold d. rewrite <- Hce.
    rewrite (ordered_insert_ext _ (fun f => get_cycle ck' f <? get_cycle ck' e)).
    + apply ordered_insert_ordered. eapply ordered_ext; [|exact Hord].
      intros f Hf. by rewrite Hcyc by auto.
    + intros f Hf. by rewrite (Hcyc f) by auto.
  - change (delayed_queue ck') with d. unfold d. intros f Hf.
    change (cycles ck') with (cycles ck).
    apply elem_of_ordered_insert in Hf as [->|Hf]; [by rewrite Hce|].
    rewrite Hcyc by auto. by apply Hdel.
Qed.

Lemma inv_set_enqueued b e x ck :
  ck_core b ck -> e ∉ queued ck -> enqueued x = false ->
  (forall f, f <> e -> is_ev_enqueued ck f = true <-> f ∈ queued ck) ->
  ck_inv_at b (set_event e x ck).
Proof.
  intros Hc He Hx Hq. split; [by apply core_set_event|]. intros f.
  change (queued (set_event e x ck)) with (queued ck).
  destruct (decide (e = f)) as [<-|Hne].
  - rewrite is_ev_enqueued_set_eq, Hx. naive_solver.
  - rewrite is_ev_enqueued_set_ne by done. by apply Hq.
Qed.

(** The engine does not touch the time engine while it is running. *)
Lemma dequeue_from_engine_running w : running w = true -> dequeue_from_engine w = (false, w).
Proof. intros Hr. unfold dequeue_from_engine. by rewrite Hr. Qed.

Lemma enqueue_to_engine_running t w : running w = true -> enqueue_to_engine t w = w.
Proof.
  intros Hr. unfold enqueue_to_engine, enqueue, running in *. rewrite Hr. by destruct w.
Qed.

(** ** The operations keep the invariant *)

Lemma cancel_inv b e w :
  ck_inv_at b w.2 ->
  exists w', cancel e w = Some w' /\ ck_inv_at b w'.2 /\ self w'.2 = self w.2 /\
    cycles w'.2 = cycles w.2 /\ current_cycle w'.2 = current_cycle w.2 /\
    is_ev_enqueued w'.2 e = false /\
    (forall f, f ∈ queued w'.2 <-> f ∈ queued w.2 /\ f <> e) /\
    (forall f, get_cycle w'.2 f = get_cycle w.2 f) /\
    (running w = true -> w'.1 = w.1).
Proof.
  destruct w as [te ck]. intros [Hc Hq]. simpl in *. unfold cancel.
  destruct (is_ev_enqueued ck e) eqn:E; simpl.
  2:{ exists (te, ck). simpl. split_and!; try done. intros f. split; [|tauto].
      intros Hf. split; [done|]. intros ->. apply Hq in Hf. congruence. }
  assert (Hin : e ∈ queued ck) by (by apply Hq).
  assert (exists ck', ck_core b ck' /\ queued ck ≡ₚ e :: queued ck' /\ e ∉ queued ck' /\
    (if bool_decide (e ∈ delayed_queue ck)
     then Some (set_queues (event_queue ck) (unlink e (delayed_queue ck))
                   (nb_enqueued_to_cycle ck) ck)
     else match list_find (fun l => e ∈ l) (event_queue ck) with
          | Some (i, l) =>
               Some (set_queues (<[i := unlink e l]> (event_queue ck)) (delayed_queue ck)
                       (nb_enqueued_to_cycle ck - 1) ck)
          | None => None
          end) = Some ck' /\ self ck' = self ck /\ cycles ck' = cycles ck /\
    current_cycle ck' = current_cycle ck /\ ck_store ck' = ck_store ck) as
    (ck' & Hc' & Hp & Hni & -> & Hs & Hcy & Hcu & Hst).
  { case_bool_decide as Hd.
    - destruct (core_unlink_delayed b e ck Hc Hd) as (H1 & H2 & H3). eexists. by split_and!.
    - unfold queued in Hin. apply elem_of_app in Hin as [Hin|]; [|done].
      apply elem_of_concat_lookup in Hin as (i & l & Hi & Hl).
      destruct (list_find (fun l => e ∈ l) (event_queue ck)) as [[j m]|] eqn:Ef.
      + apply list_find_Some in Ef as (Hj & Hm & _).
        destruct (core_unlink_slot b j m e ck Hc Hj Hm) as (H1 & H2 & H3). eexists. by split_and!.
      + apply list_find_None in Ef. rewrite Forall_forall in Ef. exfalso.
        eapply Ef; [|exact Hl]. by eapply list_elem_of_lookup_2. }
  set (ck2 := set_event e (ClockEvent false (get_cycle ck' e)) ck').
  assert (Hinv : ck_inv_at b ck2).
  { apply inv_set_enqueued; try done. intros f Hf.
    assert (is_ev_enqueued ck' f = is_ev_enqueued ck f) as ->.
    { unfold is_ev_enqueued, event. by rewrite Hst. }
    rewrite Hq, Hp. set_solver. }
  assert (Hcyc : forall f, get_cycle ck2 f = get_cycle ck f).
  { intros f. unfold ck2. assert (get_cycle ck' f = get_cycle ck f) as Hf.
    { unfold get_cycle, event. by rewrite Hst. }
    destruct (decide (e = f)) as [<-|]; [by rewrite get_cycle_set_eq|].
    by rewrite get_cycle_set_ne. }
  eexists. split; [done|]. assert (Hsnd : forall b' : bool,
    (if b' then (te, ck2) else (dequeue_from_engine (te, ck2)).2).2 = ck2).
  { intros []; [done|]. unfold dequeue_from_engine. by destruct (_ || _). }
  fold ck2. rewrite !Hsnd. split_and!; try done.
  - unfold ck2. by rewrite is_ev_enqueued_set_eq.
  - intros f. change (queued ck2) with (queued ck'). rewrite Hp. set_solver.
  - intros Hr. case_match; [done|]. rewrite dequeue_from_engine_running; [done|].
    unfold running in *; simpl in *. by rewrite Hs.
Qed.

(** What a call made during a cycle leaves alone. *)
Definition steady (w w' : world) : Prop :=
  w'.1 = w.1 /\ self w'.2 = self w.2 /\ cycles w'.2 = cycles w.2 /\
  current_cycle w'.2 = current_cycle w.2.

Lemma steady_refl w : steady w w.
Proof. done. Qed.
Lemma steady_trans w1 w2 w3 : steady w1 w2 -> steady w2 w3 -> steady w1 w3.
Proof. unfold steady. intros (?&?&?&?) (?&?&?&?). split_and!; congruence. Qed.
Lemma steady_running w w' : steady w w' -> running w' = running w.
Proof. intros (E1 & E2 & _). unfold running. by rewrite E1, E2. Qed.

(** The events due in the current cycle. *)
Definition due_now (ck : clock_engine) (e : eid) : Prop :=
  e ∈ queued ck /\ get_cycle ck e = cycles ck.

Lemma slot_due_now ck e :
  ck_running_inv ck -> e ∈ slot ck (current_cycle ck) <-> due_now ck e.
Proof.
  intros [[Hlen Hcur Hnb Hnd Hslot Hord Hdel] _]. pose proof (slot_lookup ck _ Hlen Hcur) as Hl.
  unfold due_now. split.
  - intros He. split; [by eapply slot_in_queued|].
    destruct (Hslot _ _ _ Hl He) as [Hr Hi]. rewrite Z2Nat.id in Hi by lia.
    Z.div_mod_to_equations. lia.
  - intros [He Hc]. unfold queued in He. apply elem_of_app in He as [He|He].
    + apply elem_of_concat_lookup in He as (i & l & Hi & He).
      destruct (Hslot _ _ _ Hi He) as [Hr Hii]. rewrite Hc, Z.sub_diag, Z.add_0_r in Hii.
      rewrite Z.mod_small in Hii by lia. assert (i = Z.to_nat (current_cycle ck)) as -> by lia.
      rewrite Hl in Hi. by injection Hi as ->.
    + specialize (Hdel e He). unfold next_wrap, CLOCK_EVENT_QUEUE_SIZE in Hdel. lia.
Qed.

Lemma mark_enqueued b e x ck :
  ck_inv_at b ck -> is_ev_enqueued ck e = false ->
  ck_core b (set_event e x ck) /\ e ∉ queued (set_event e x ck).
Proof.
  intros [Hc Hq] E. assert (He : e ∉ queued ck) by (intros H; apply Hq in H; congruence).
  split; [by apply core_set_event|done].
Qed.

Lemma is_ev_enqueued_link e n ck f :
  is_ev_enqueued (enqueue_to_cycle e n ck) f = is_ev_enqueued ck f.
Proof.
  unfold enqueue_to_cycle. destruct (decide (e = f)) as [<-|].
  - by rewrite is_ev_enqueued_set_eq.
  - by rewrite is_ev_enqueued_set_ne.
Qed.

(** [ck_enqueue] once the event is marked, whichever queue it goes to. *)
Lemma link_inv b e ck ck' :
  ck_core b ck' -> queued ck' ≡ₚ e :: queued ck -> is_ev_enqueued ck' e = true ->
  (forall f, f <> e -> is_ev_enqueued ck' f = true <-> f ∈ queued ck) -> ck_inv_at b ck'.
Proof.
  intros Hc Hp He Hq. split; [done|]. intros f. rewrite Hp.
  destruct (decide (f = e)) as [->|]; [set_solver|]. rewrite Hq by done. set_solver.
Qed.

(** The state after linking [e] to run [n] cycles from now. *)
Definition enqueued_at (e : eid) (n : Z) (w w' : world) : Prop :=
  steady w w' /\ queued w'.2 ≡ₚ e :: queued w.2 /\ get_cycle w'.2 e = cycles w.2 + n /\
  (forall f, f <> e -> get_cycle w'.2 f = get_cycle w.2 f).

Lemma ck_enqueue_running e n w :
  ck_running_inv w.2 -> running w = true -> is_ev_enqueued w.2 e = false -> 0 <= n < 2 ^ 63 ->
  exists w', ck_enqueue e n w = Some w' /\ ck_running_inv w'.2 /\ enqueued_at e n w w'.
Proof.
  destruct w as [te ck]. intros Hinv Hr E Hn. unfold ck_enqueue. simpl in *. rewrite E.
  set (ck1 := set_event e (ClockEvent true (get_cycle ck e)) ck).
  assert (Hr1 : running (te, ck1) = true) by done. rewrite !Hr1. simpl.
  destruct (mark_enqueued _ e (ClockEvent true (get_cycle ck e)) ck Hinv E) as [Hc1 Hni].
  fold ck1 in Hc1, Hni. destruct Hinv as [_ Hq].
  assert (Hq1 : forall f, f <> e -> is_ev_enqueued ck1 f = true <-> f ∈ queued ck1).
  { intros f Hf. unfold ck1. rewrite is_ev_enqueued_set_ne by done. apply Hq. }
  assert (He1 : is_ev_enqueued ck1 e = true) by (unfold ck1; by rewrite is_ev_enqueued_set_eq).
  assert (Hg1 : forall f, f <> e -> get_cycle ck1 f = get_cycle ck f).
  { intros f Hf. unfold ck1. by rewrite get_cycle_set_ne. }
  unfold CLOCK_EVENT_QUEUE_SIZE. eexists. split; [done|]. destruct (Z.ltb_spec n 32).
  - destruct (core_enqueue_to_cycle _ e n ck1 Hc1 Hni ltac:(lia)) as [Hc2 Hp].
    split.
    + eapply (link_inv _ e); [exact Hc2|exact Hp| |].
      * cbn [snd]. by rewrite is_ev_enqueued_link.
      * intros f Hf. cbn [snd]. rewrite is_ev_enqueued_link. by apply Hq1.
    + split; [done|]. split; [exact Hp|]. unfold enqueue_to_cycle. cbn [snd]. split.
      * rewrite get_cycle_set_eq. simpl. lia.
      * intros f Hf. rewrite get_cycle_set_ne by done. by apply Hg1.
  - unfold enqueue_other; simpl.
    assert ((if period ck =? 0 then (te, set_must_flush true ck1)
      else enqueue_to_engine (n * period ck) (te, set_must_flush true ck1))
      = (te, set_must_flush true ck1)) as ->.
    { destruct (period ck =? 0); [done|]. by rewrite enqueue_to_engine_running. }
    assert (Hc1' : ck_core (next_wrap ck) (set_must_flush true ck1)) by (by destruct Hc1).
    pose proof (cc_cur _ _ Hc1) as Hcur. change (current_cycle ck1) with (current_cycle ck) in Hcur.
    destruct (core_link_delayed _ e (n + cycles ck) _ Hc1' Hni) as [Hc2 Hp].
    { unfold next_wrap, CLOCK_EVENT_QUEUE_SIZE. simpl. lia. }
    split.
    + eapply (link_inv _ e); [exact Hc2|exact Hp| |].
      * cbn [snd]. by rewrite is_ev_enqueued_set_eq.
      * intros f Hf. cbn [snd]. rewrite is_ev_enqueued_set_ne by done. by apply Hq1.
    + split; [done|]. split; [exact Hp|]. cbn [snd]. split.
      * rewrite get_cycle_set_eq. simpl. lia.
      * intros f Hf. rewrite get_cycle_set_ne by done. by apply Hg1.
Qed.

Lemma inv_rewrite_event b e ck :
  ck_inv_at b ck -> ck_inv_at b (set_event e (ClockEvent (is_ev_enqueued ck e) (get_cycle ck e)) ck).
Proof.
  set (x := ClockEvent _ _). set (ck' := set_event e x ck).
  assert (Hev : forall f, event ck' f = event ck f).
  { intros f. unfold ck'. rewrite event_set. destruct (decide (e = f)) as [<-|]; [|done].
    unfold x, is_ev_enqueued, get_cycle. by destruct (event ck e). }
  assert (Hcy : forall f, get_cycle ck' f = get_cycle ck f).
  { intros f. unfold get_cycle. by rewrite Hev. }
  intros [[Hlen Hcur Hnb Hnd Hslot Hord Hdel] Hq]. split.
  - constructor; try done.
    + intros i l f Hi Hf. rewrite Hcy. by eapply Hslot.
    + eapply ordered_ext; [|exact Hord]. intros f _. by rewrite Hcy.
    + intros f Hf. rewrite Hcy. by apply Hdel.
  - intros f. unfold is_ev_enqueued. rewrite Hev. apply Hq.
Qed.

(** [reenqueue] keeps an event that is already due earlier, and moves it otherwise. *)
Lemma reenqueue_running e n w :
  ck_running_inv w.2 -> running w = true -> 0 <= n < 2 ^ 63 ->
  exists w', reenqueue e n w = Some w' /\ ck_running_inv w'.2 /\ steady w w' /\
    (forall f, f ∈ queued w'.2 <-> f = e \/ f ∈ queued w.2) /\
    get_cycle w'.2 e = (if is_ev_enqueued w.2 e then Z.min (get_cycle w.2 e) (cycles w.2 + n)
                        else cycles w.2 + n) /\
    (forall f, f <> e -> get_cycle w'.2 f = get_cycle w.2 f).
Proof.
  intros Hinv Hr Hn. unfold reenqueue.
  assert (Hgo : forall v, ck_running_inv v.2 -> steady w v -> is_ev_enqueued v.2 e = false ->
    exists w', (let* u := ck_enqueue e n v in
      Some (u.1, set_event e (ClockEvent (is_ev_enqueued u.2 e) (cycles w.2 + n)) u.2)) = Some w' /\
      ck_running_inv w'.2 /\ steady w w' /\ queued w'.2 ≡ₚ e :: queued v.2 /\
      get_cycle w'.2 e = cycles w.2 + n /\
      (forall f, f <> e -> get_cycle w'.2 f = get_cycle v.2 f)).
  { intros v Hv Hst Ev. pose proof (steady_running _ _ Hst) as Hrv. rewrite Hr in Hrv.
    destruct (ck_enqueue_running e n v Hv Hrv Ev Hn) as (u & -> & Hu & Hsu & Hp & Hc & Ho).
    assert (Hcyc : cycles w.2 + n = get_cycle u.2 e).
    { rewrite Hc. by destruct Hst as (_ & _ & -> & _). }
    eexists. split; [done|]. rewrite Hcyc. split_and!; try done.
    - apply (inv_rewrite_event _ e), Hu.
    - by apply (steady_trans _ v).
    - simpl. by rewrite get_cycle_set_eq.
    - intros f Hf. simpl. rewrite get_cycle_set_ne by done. by apply Ho. }
  destruct (is_ev_enqueued w.2 e) eqn:E.
  - assert (Hin : e ∈ queued w.2) by (by apply Hinv). destruct (Z.leb_spec (get_cycle w.2 e) (cycles w.2 + n)).
    + exists w. split_and!; try done; [intros f; split; [by right|by intros [->|]]|lia].
    + destruct (cancel_inv _ e w Hinv) as (v & -> & Hv & Hs & Hcy & Hcu & Hf & Hq & Hg & Ht).
      assert (Hst : steady w v) by (unfold steady; auto).
      destruct (Hgo v) as (w' & -> & Hw' & Hst' & Hp & Hc & Ho); [|done|done|].
      { unfold ck_running_inv, next_wrap. rewrite Hcy, Hcu. exact Hv. }
      exists w'. split_and!; try done; [|lia|].
      * intros f. rewrite Hp, elem_of_cons, Hq. destruct (decide (f = e)); naive_solver.
      * intros f Hne. by rewrite Ho, Hg.
  - destruct (Hgo w) as (w' & -> & Hw' & Hst' & Hp & Hc & Ho); try done.
    exists w'. split_and!; try done. intros f. by rewrite Hp, elem_of_cons.
Qed.

(** The calls of an event's method: the number of cycles is an int64_t; a method that only
    schedules events for later cycles makes [future] calls. *)
Definition call_delay (a : ck_call) : option Z :=
  match a with Enqueue _ n | Reenqueue _ n => Some n | Cancel _ => None end.
Definition call_ok (a : ck_call) : Prop :=
  match call_delay a with Some n => 0 <= n < 2 ^ 63 | None => True end.
Definition call_future (a : ck_call) : Prop :=
  match call_delay a with Some n => 0 < n | None => True end.
Definition call_safe (a : ck_call) : Prop :=
  match a with Enqueue _ _ => False | _ => True end.

Lemma run_call_running a w :
  ck_running_inv w.2 -> running w = true -> call_ok a ->
  match run_call a w with
  | Some w' => ck_running_inv w'.2 /\ steady w w' /\
               (call_future a -> forall f, due_now w'.2 f -> due_now w.2 f)
  | None => ~ call_safe a
  end.
Proof.
  intros Hinv Hr Hok. destruct a as [e n|e|e n]; cbn [run_call].
  - destruct (is_ev_enqueued w.2 e) eqn:E.
    + unfold ck_enqueue. rewrite E. by intros [].
    + destruct (ck_enqueue_running e n w Hinv Hr E Hok) as (w' & -> & Hi & Hs & Hp & Hc & Ho).
      split_and!; try done. intros Hf f [Hq Hd]. destruct Hs as (_ & _ & Hcy & _).
      cbn in Hf. destruct (decide (f = e)) as [->|Hne]; [lia|].
      rewrite Hp in Hq. rewrite Ho in Hd by done. split; [set_solver|lia].
  - destruct (cancel_inv _ e w Hinv) as (v & -> & Hv & Hs & Hcy & Hcu & Hf & Hq & Hg & Ht).
    split_and!.
    + unfold ck_running_inv, next_wrap. rewrite Hcy, Hcu. exact Hv.
    + unfold steady. auto.
    + intros _ f [Hfq Hd]. rewrite Hg, Hcy in Hd. split; [by apply Hq|done].
  - destruct (reenqueue_running e n w Hinv Hr Hok) as (w' & -> & Hi & Hs & Hq & Hc & Ho).
    split_and!; try done. intros Hf f [Hfq Hd]. destruct Hs as (_ & _ & Hcy & _). cbn in Hf.
    destruct (decide (f = e)) as [->|Hne].
    + destruct (is_ev_enqueued w.2 e) eqn:E; [|lia]. split; [|lia]. by apply Hinv.
    + rewrite Ho in Hd by done. apply Hq in Hfq. split; [naive_solver|lia].
Qed.

Lemma run_calls_running l w :
  ck_running_inv w.2 -> running w = true -> Forall call_ok l ->
  match run_calls l w with
  | Some w' => ck_running_inv w'.2 /\ steady w w' /\
               (Forall call_future l -> forall f, due_now w'.2 f -> due_now w.2 f)
  | None => ~ Forall call_safe l
  end.
Proof.
  revert w. induction l as [|a l IH]; intros w Hinv Hr Hok; cbn [run_calls].
  { split_and!; try done. }
  apply Forall_cons in Hok as [Ha Hok]. pose proof (run_call_running a w Hinv Hr Ha) as H.
  destruct (run_call a w) as [v|].
  2:{ intros Hs. apply Forall_cons in Hs as [Hs _]. done. }
  destruct H as (Hv & Hst & Hf). pose proof (steady_running _ _ Hst) as Hrv. rewrite Hr in Hrv.
  specialize (IH v Hv Hrv Hok). destruct (run_calls l v) as [u|].
  - destruct IH as (Hu & Hsu & Hfu). split_and!; [done|by eapply steady_trans|].
    intros Hfl f Hd. apply Forall_cons in Hfl as [Hfa Hfl]. auto.
  - intros Hs. apply Forall_cons in Hs as [_ Hs]. auto.
Qed.

Lemma flush_loop_inv l ck :
  ck_inv_at (cycles ck) ck -> delayed_queue ck = l ->
  let ck' := flush_loop l ck in
  ck_inv_at (cycles ck' + CLOCK_EVENT_QUEUE_SIZE) ck' /\
  queued ck' ≡ₚ queued ck /\ (forall e, get_cycle ck' e = get_cycle ck e) /\
  self ck' = self ck /\ current_cycle ck' = current_cycle ck /\
  must_flush_delayed_queue ck' = must_flush_delayed_queue ck /\ cycles ck <= cycles ck'.
Proof.
  revert ck. induction l as [|e l IH]; intros ck [Hc Hq] El; simpl.
  { split; [|by split_and!]. split; [|done]. eapply core_bound; [done|].
    intros e. rewrite El. by intros ?%elem_of_nil. }
  (* the engine skips to the first delayed event when the buffer is empty *)
  set (ck0 := if nb_enqueued_to_cycle ck =? 0 then set_cycles (get_cycle ck e) ck else ck).
  assert (He : e ∈ delayed_queue ck) by (rewrite El; left).
  pose proof (cc_delayed _ _ Hc e He) as Hb.
  assert (H0 : ck_core (cycles ck0) ck0 /\ cycles ck <= cycles ck0 <= get_cycle ck e).
  { unfold ck0. destruct (Z.eqb_spec (nb_enqueued_to_cycle ck) 0) as [Hz|]; [|split; [done|lia]].
    split; [|simpl; lia]. destruct Hc as [Hlen Hcur Hnb Hnd Hslot Hord Hdel].
    assert (Hnil : concat (event_queue ck) = []) by (apply length_zero_iff_nil; lia).
    constructor; try done.
    - intros i m f Hi Hf. exfalso. apply (not_elem_of_nil f). rewrite <- Hnil.
      apply elem_of_concat_lookup. eauto.
    - intros f Hf. simpl in Hf |- *. specialize (Hdel f Hf). rewrite El in Hf, Hord.
      change (get_cycle (set_cycles (get_cycle ck e) ck) f) with (get_cycle ck f).
      pose proof (ordered_hd _ _ _ _ Hord Hf). lia. }
  destruct H0 as [Hc0 Hle]. assert (Hq0 : queued ck0 = queued ck) by (unfold ck0; by case_match).
  assert (Hg0 : forall f, get_cycle ck0 f = get_cycle ck f) by (intros; unfold ck0; by case_match).
  assert (Hen0 : forall f, is_ev_enqueued ck0 f = is_ev_enqueued ck f)
    by (intros; unfold ck0; by case_match).
  assert (El0 : delayed_queue ck0 = e :: l) by (rewrite <- El; unfold ck0; by case_match).
  assert (Hs0 : self ck0 = self ck /\ current_cycle ck0 = current_cycle ck /\
    must_flush_delayed_queue ck0 = must_flush_delayed_queue ck) by (unfold ck0; by case_match).
  rewrite Hg0. rewrite (uw_small 64) by lia.
  unfold CLOCK_EVENT_QUEUE_SIZE in *. destruct (Z.leb_spec 32 (get_cycle ck e - cycles ck0)).
  { split; [|rewrite Hq0; by split_and!; try apply Hs0; try lia]. split.
    - eapply core_bound; [done|]. intros f Hf. rewrite Hg0.
      pose proof (cc_ordered _ _ Hc0) as Hord. rewrite El0 in Hf, Hord.
      pose proof (ordered_hd _ _ _ _ Hord Hf) as Hhd. rewrite !Hg0 in Hhd. lia.
    - intros f. by rewrite Hen0, Hq0. }
  (* move the event to its slot and go on *)
  set (n := get_cycle ck e - cycles ck0).
  set (ckd := set_queues (event_queue ck0) l (nb_enqueued_to_cycle ck0) ck0).
  assert (Hun : ck_core (cycles ck0) ckd /\ queued ck0 ≡ₚ e :: queued ckd /\ e ∉ queued ckd).
  { pose proof (core_unlink_delayed _ e ck0 Hc0) as Hu. rewrite El0 in Hu. simpl in Hu.
    rewrite decide_True in Hu by done. apply Hu. left. }
  destruct Hun as (Hcd & Hpd & Hnd).
  destruct (core_enqueue_to_cycle _ e n ckd Hcd Hnd ltac:(unfold n; lia)) as [Hc1 Hp1].
  set (ck1 := set_queues (event_queue (enqueue_to_cycle e n ck0)) l
                (nb_enqueued_to_cycle (enqueue_to_cycle e n ck0)) (enqueue_to_cycle e n ck0)).
  assert (E1 : ck1 = enqueue_to_cycle e n ckd) by done.
  assert (Hg1 : forall f, get_cycle ck1 f = get_cycle ck f).
  { intros f. rewrite E1. unfold enqueue_to_cycle. destruct (decide (e = f)) as [<-|].
    - rewrite get_cycle_set_eq. simpl. unfold n. lia.
    - rewrite get_cycle_set_ne by done. apply Hg0. }
  assert (Hqq : queued ck1 ≡ₚ queued ck) by (by rewrite E1, Hp1, <- Hpd, Hq0).
  assert (Hinv1 : ck_inv_at (cycles ck1) ck1).
  { split; [exact Hc1|]. intros f. rewrite Hqq. rewrite E1, is_ev_enqueued_link.
    change (is_ev_enqueued ckd f) with (is_ev_enqueued ck0 f). by rewrite Hen0. }
  destruct (IH ck1 Hinv1 ltac:(done)) as (Hi & Hp & Hg & Hse & Hcu & Hmf & Hcy).
  destruct Hs0 as (Hs1 & Hs2 & Hs3). change (cycles ck1) with (cycles ck0) in Hcy.
  split; [exact Hi|]. split; [etransitivity; [exact Hp|exact Hqq]|].
  split; [intros f; etransitivity; [exact (Hg f)|apply Hg1]|].
  split; [exact (eq_trans Hse Hs1)|]. split; [exact (eq_trans Hcu Hs2)|].
  split; [exact (eq_trans Hmf Hs3)|]. exact (Z.le_trans _ _ _ (proj1 Hle) Hcy).
Qed.

Lemma start_cycle_inv ck :
  ck_inv ck ->
  let ck' := start_cycle ck in
  ck_running_inv ck' /\ queued ck' ≡ₚ queued ck /\
  (forall e, get_cycle ck' e = get_cycle ck e) /\ self ck' = self ck /\
  cycles ck <= cycles ck' /\ must_flush_delayed_queue ck' = false.
Proof.
  unfold ck_inv, start_cycle. intros Hinv.
  destruct (must_flush_delayed_queue ck) eqn:Em; [|by split_and!].
  unfold flush_delayed_queue. set (ck0 := set_must_flush false ck).
  assert (Hi0 : ck_inv_at (cycles ck0) ck0) by (destruct Hinv as [[] Hq]; by split).
  destruct (flush_loop_inv (delayed_queue ck) ck0 Hi0 ltac:(done)) as ([Hc Hq]&Hp&Hg&Hs&Hcu&Hm&Hcy).
  split_and!; try done. split; [|done]. eapply core_bound; [done|].
  intros e He. pose proof (cc_delayed _ _ Hc e He) as Hd.
  pose proof (cc_cur _ _ Hc). unfold next_wrap. lia.
Qed.

Lemma pop_event_inv e l ck :
  ck_running_inv ck -> slot ck (current_cycle ck) = e :: l ->
  ck_running_inv (pop_event e l ck) /\ e ∉ queued (pop_event e l ck) /\
  queued ck ≡ₚ e :: queued (pop_event e l ck) /\
  (forall f, get_cycle (pop_event e l ck) f = get_cycle ck f).
Proof.
  intros [Hc Hq] El. pose proof (slot_lookup ck _ (cc_len _ _ Hc) (cc_cur _ _ Hc)) as Hl.
  rewrite El in Hl.
  destruct (core_unlink_slot _ _ _ e ck Hc Hl ltac:(left)) as (Hc' & Hp & Hni).
  simpl in Hc', Hp, Hni. rewrite decide_True in Hc', Hp, Hni by done.
  unfold pop_event. split; [|split; [done|split; [done|]]].
  - apply (inv_set_enqueued _ e (ClockEvent false _)); [done|done|done|].
    intros f Hf. change (is_ev_enqueued (set_queues _ _ _ ck) f) with (is_ev_enqueued ck f).
    rewrite Hq, Hp, elem_of_cons. naive_solver.
  - intros f. destruct (decide (e = f)) as [<-|].
    + by rewrite get_cycle_set_eq.
    + by rewrite get_cycle_set_ne.
Qed.

Section ExecFacts.
Context {S : Type} (meth : eid -> S -> Z -> S * list ck_call).
(** Cycle counts given to the engine are int64_t. *)
Context (meth_ok : forall e s c, Forall call_ok (meth e s c).2).

Lemma exec_slot_inv fuel s w tr s' w' :
  ck_running_inv w.2 -> running w = true ->
  exec_slot meth fuel s w = Done (tr, s', w') ->
  ck_running_inv w'.2 /\ steady w w' /\ (forall f, ~ due_now w'.2 f) /\
  Forall (fun x => x_due x = cycles w.2 /\ x_at x = cycles w.2) tr.
Proof.
  revert s w tr. induction fuel as [|fuel IH]; intros s w tr Hinv Hr; simpl.
  all: destruct (slot w.2 (current_cycle w.2)) as [|e l] eqn:El.
  1,3: intros [= <- <- <-]; split_and!; try done; intros f Hf;
    apply slot_due_now in Hf; [|done]; rewrite El in Hf; by apply elem_of_nil in Hf.
  { done. }
  destruct (pop_event_inv e l w.2 Hinv El) as (Hi & _ & _ & _).
  assert (Hdue : due_now w.2 e) by (apply slot_due_now; [done|]; rewrite El; left).
  destruct (meth e s (cycles w.2)) as [s1 calls] eqn:Em.
  pose proof (meth_ok e s (cycles w.2)) as Hok. rewrite Em in Hok.
  pose proof (run_calls_running calls (w.1, pop_event e l w.2) Hi Hr Hok) as H.
  destruct (run_calls calls (w.1, pop_event e l w.2)) as [v|]; [|done].
  destruct H as (Hv & Hst & _). pose proof (steady_running _ _ Hst) as Hrv.
  change (running (w.1, pop_event e l w.2)) with (running w) in Hrv. rewrite Hr in Hrv.
  destruct (exec_slot meth fuel s1 v) as [[[tr1 s2] u]| |] eqn:Ex; [|done|done].
  intros [= <- <- <-]. destruct (IH _ _ _ Hv Hrv Ex) as (Hu & Hsu & Hn & Hf).
  assert (Hcy : cycles v.2 = cycles w.2) by (by destruct Hst as (_ & _ & -> & _)).
  split_and!; [done| |done|].
  - eapply steady_trans; [|done]. exact Hst.
  - constructor; [|by rewrite <- Hcy]. simpl. by destruct Hdue as [_ ->].
Qed.

(** Every event left after the current cycle is due later. *)
Lemma late ck :
  ck_running_inv ck -> (forall f, ~ due_now ck f) ->
  forall e, e ∈ queued ck -> cycles ck < get_cycle ck e.
Proof.
  intros [Hc _] Hnd e He. pose proof Hc as [Hlen Hcur Hnb Hndup Hslot Hord Hdel].
  pose proof He as He'. unfold queued in He'. apply elem_of_app in He' as [He'|He'].
  - apply elem_of_concat_lookup in He' as (i & l & Hi & Hl).
    destruct (Hslot _ _ _ Hi Hl) as [Hr _]. specialize (Hnd e). unfold due_now in Hnd.
    destruct (decide (get_cycle ck e = cycles ck)); [tauto|lia].
  - specialize (Hdel e He'). unfold next_wrap, CLOCK_EVENT_QUEUE_SIZE in Hdel. lia.
Qed.

(** Moving to the next slot of the buffer. *)
Definition next_cycle (ck : clock_engine) : clock_engine :=
  set_current_cycle (Z.land (current_cycle ck + 1) CLOCK_EVENT_QUEUE_MASK)
    (set_cycles (cycles ck + 1) ck).

Lemma next_cycle_core ck :
  ck_running_inv ck -> (forall f, ~ due_now ck f) ->
  ck_core (next_wrap ck) (next_cycle ck) /\
  current_cycle (next_cycle ck) =
    (if current_cycle ck =? 31 then 0 else current_cycle ck + 1).
Proof.
  intros Hinv Hnd. pose proof (late ck Hinv Hnd) as Hlate. destruct Hinv as [Hc _].
  pose proof Hc as [Hlen Hcur Hnb Hndup Hslot Hord Hdel].
  unfold next_cycle. rewrite land_mask. split.
  - constructor; try done; simpl.
    + apply Z.mod_pos_bound. lia.
    + intros i l e Hi He. change (get_cycle (set_current_cycle _ _) e) with (get_cycle ck e).
      destruct (Hslot _ _ _ Hi He) as [Hr Hii].
      specialize (Hlate e (slot_in_queued _ _ _ _ Hi He)). split; [lia|].
      rewrite Hii. rewrite Z.add_mod_idemp_l by lia. f_equal. lia.
    + intros e He. change (get_cycle (set_current_cycle _ _) e) with (get_cycle ck e).
      specialize (Hdel e He). lia.
  - simpl. destruct (Z.eqb_spec (current_cycle ck) 31) as [->|]; [done|]. rewrite Z.mod_small; lia.
Qed.

(** The engine ends its turn in a state that satisfies the invariant between cycles. *)
Lemma exec_end_inv w :
  ck_running_inv w.2 -> (forall f, ~ due_now w.2 f) ->
  let '(w', time) := exec_end w in
  ck_inv w'.2 /\ w'.1 = w.1 /\ self w'.2 = self w.2 /\ queued w'.2 = queued w.2 /\
  (forall e, get_cycle w'.2 e = get_cycle w.2 e).
Proof.
  destruct w as [te ck]. cbn [fst snd]. intros Hinv Hnd. unfold exec_end.
  destruct (Z.eqb_spec (nb_enqueued_to_cycle ck) 0) as [Hz|Hz]; cbn [negb].
  { destruct Hinv as [Hc Hq]. split_and!; try done. split; [|done].
    eapply core_bound; [destruct Hc; by constructor|]. intros e He. simpl.
    pose proof (cc_delayed _ _ Hc e He) as Hd. pose proof (cc_cur _ _ Hc).
    change (get_cycle (set_stop_time _ _) e) with (get_cycle ck e).
    unfold next_wrap, CLOCK_EVENT_QUEUE_SIZE in Hd. lia. }
  destruct (next_cycle_core ck Hinv Hnd) as [Hc1 Hcur1].
  pose proof (cc_cur _ _ Hc1) as Hcb.
  change (set_current_cycle _ _) with (next_cycle ck).
  split; [|cbn [fst snd]; destruct (current_cycle (next_cycle ck) =? 0); by split_and!].
  destruct Hinv as [_ Hq]. destruct (Z.eqb_spec (current_cycle (next_cycle ck)) 0) as [E0|E0].
  - split; [|exact Hq]. eapply core_bound; [destruct Hc1; by constructor|].
    intros e He. pose proof (cc_delayed _ _ Hc1 e He) as Hd. simpl.
    change (get_cycle (set_must_flush true _) e) with (get_cycle (next_cycle ck) e).
    unfold next_wrap, CLOCK_EVENT_QUEUE_SIZE in Hd.
    destruct (Z.eqb_spec (current_cycle ck) 31); lia.
  - split; [|exact Hq]. eapply core_bound; [exact Hc1|].
    intros e He. pose proof (cc_delayed _ _ Hc1 e He) as Hd. revert Hd.
    unfold next_wrap. rewrite Hcur1 in *. unfold CLOCK_EVENT_QUEUE_SIZE.
    change (cycles (next_cycle ck)) with (cycles ck + 1).
    destruct (Z.eqb_spec (current_cycle ck) 31); [lia|]. intros Hd.
    cbn [snd]. change (cycles (next_cycle ck)) with (cycles ck + 1).
    match goal with |- (if ?b then _ else _) <= _ => destruct b end; [lia|].
    rewrite Hcur1. lia.
Qed.

(** The cycle [exec] runs: the current one, or that of the first delayed event when the buffer
    is empty. *)
Definition exec_cycle (ck : clock_engine) : Z := cycles (start_cycle ck).

Lemma exec_on_time_lemma fuel s w tr s' w' time :
  ck_inv w.2 -> running w = true ->
  exec meth fuel s w = Done (tr, s', w', time) ->
  let c := exec_cycle w.2 in
  Forall (fun x => x_due x = c /\ x_at x = c) tr /\
  (forall e, e ∈ queued w'.2 -> c < get_cycle w'.2 e) /\
  ck_inv w'.2 /\ w'.1 = w.1.
Proof.
  intros Hinv Hr. unfold exec. destruct (has_events w.2); cbn [negb]; [|done].
  destruct (start_cycle_inv w.2 Hinv) as (Hi & _ & _ & Hs & _ & _).
  assert (Hr' : running (w.1, start_cycle w.2) = true) by (unfold running in *; cbn [fst snd]; by rewrite Hs).
  destruct (exec_slot meth fuel s (w.1, start_cycle w.2)) as [[[tr1 s1] u]| |] eqn:Ex; [|done|done].
  destruct (exec_slot_inv _ _ (w.1, start_cycle w.2) _ _ _ Hi Hr' Ex) as (Hu & Hst & Hn & Hf).
  pose proof (exec_end_inv u Hu Hn) as He. destruct (exec_end u) as [u' t].
  intros [= <- <- <- <-]. destruct He as (Hck & Ht & _ & Hq & Hg).
  destruct Hst as (Ht1 & _ & Hc & _). cbn [fst snd] in *. split_and!; [done| |done|].
  - intros e. rewrite Hq, Hg. unfold exec_cycle. rewrite <- Hc. by apply late.
  - by rewrite Ht.
Qed.

(** Methods that only schedule into the future: the loop over the slot ends, and it can only
    fail on a call that enqueues an event already enqueued. *)
Lemma exec_slot_total fuel s w :
  (forall e s c, Forall call_future (meth e s c).2) ->
  ck_running_inv w.2 -> running w = true ->
  (length (slot w.2 (current_cycle w.2)) <= fuel)%nat ->
  exec_slot meth fuel s w <> OutOfFuel /\
  ((forall e s c, Forall call_safe (meth e s c).2) -> exec_slot meth fuel s w <> AssertFailed).
Proof.
  intros Hfut. revert s w. induction fuel as [|fuel IH]; intros s w Hinv Hr Hlen; simpl.
  all: destruct (slot w.2 (current_cycle w.2)) as [|e l] eqn:El; [done|].
  { simpl in Hlen. lia. }
  destruct (pop_event_inv e l w.2 Hinv El) as (Hi & Hni & Hp & Hg).
  destruct (meth e s (cycles w.2)) as [s1 calls] eqn:Em.
  pose proof (meth_ok e s (cycles w.2)) as Hok. pose proof (Hfut e s (cycles w.2)) as Hf.
  rewrite Em in Hok, Hf. cbn [snd] in *.
  pose proof (run_calls_running calls (w.1, pop_event e l w.2) Hi Hr Hok) as H.
  destruct (run_calls calls (w.1, pop_event e l w.2)) as [v|].
  2:{ split; [done|]. intros Hs. specialize (Hs e s (cycles w.2)). by rewrite Em in Hs. }
  destruct H as (Hv & Hst & Hd). pose proof (steady_running _ _ Hst) as Hrv.
  change (running (w.1, pop_event e l w.2)) with (running w) in Hrv. rewrite Hr in Hrv.
  enough (Hle : (length (slot v.2 (current_cycle v.2)) <= length l)%nat).
  { destruct (IH s1 v Hv Hrv) as [H1 H2]; [simpl in Hlen; lia|].
    destruct (exec_slot meth fuel s1 v) as [[[tr s2] u]| |]; split; done || auto. }
  apply submseteq_length, NoDup_submseteq.
  - destruct Hv as [Hc _]. pose proof (slot_lookup _ _ (cc_len _ _ Hc) (cc_cur _ _ Hc)) as Hl.
    pose proof (cc_nodup _ _ Hc) as Hnd. unfold queued in Hnd. apply NoDup_app in Hnd as [Hnd _].
    destruct (concat_insert _ _ _ [] Hl) as (r & Hr2 & _). rewrite Hr2 in Hnd.
    by apply NoDup_app in Hnd as [? _].
  - intros f Hin. apply slot_due_now in Hin; [|done]. apply (Hd Hf) in Hin as [Hq Hc].
    cbn [fst snd] in Hq, Hc. assert (Hw : due_now w.2 f).
    { split; [|by rewrite <- Hg]. rewrite Hp. by right. }
    apply slot_due_now in Hw; [|done]. rewrite El in Hw.
    apply elem_of_cons in Hw as [->|]; done.
Qed.

Lemma exec_terminates_lemma s w :
  (forall e s c, Forall call_future (meth e s c).2) ->
  ck_inv w.2 -> running w = true -> has_events w.2 = true ->
  let r := exec meth (length (queued w.2)) s w in
  r <> OutOfFuel /\
  ((forall e s c, Forall call_safe (meth e s c).2) -> exists x, r = Done x).
Proof.
  intros Hfut Hinv Hr Hev. unfold exec. rewrite Hev. cbn [negb].
  destruct (start_cycle_inv w.2 Hinv) as (Hi & Hp & _ & Hs & _ & _).
  assert (Hr' : running (w.1, start_cycle w.2) = true) by (unfold running in *; cbn [fst snd]; by rewrite Hs).
  destruct (exec_slot_total (length (queued w.2)) s (w.1, start_cycle w.2)) as [H1 H2];
    [done|done|done| |].
  - rewrite <- Hp. cbn [fst snd]. destruct Hi as [Hc _].
    pose proof (slot_lookup _ _ (cc_len _ _ Hc) (cc_cur _ _ Hc)) as Hl.
    destruct (concat_insert _ _ _ [] Hl) as (r & Hr2 & _). unfold queued.
    rewrite Hr2, !length_app. lia.
  - destruct (exec_slot meth _ s _) as [[[tr1 s1] u]| |].
    + destruct (exec_end u) as [u' t]. split; [done|]. intros _. by eexists.
    + split; [done|]. intros Hsafe. by destruct (H2 Hsafe).
    + done.
Qed.
End ExecFacts.

(** ** Construction, resynchronisation and the time engine *)

(** clock_engine::clock_engine, with the frequency set by the constructor of clock_domain. *)
Definition ck_new (c : cid) (frequency : Z) : clock_engine :=
  ClockEngine c (replicate 32 []) [] 0 (10 ^ 12 / frequency) frequency 0 0 0 true ∅.

Lemma ck_new_inv c f : ck_inv (ck_new c f).
Proof.
  assert (Hq : queued (ck_new c f) = []) by reflexivity.
  split.
  - constructor; try done.
    + by rewrite Hq; constructor.
    + intros i l e Hi He. exfalso. apply (not_elem_of_nil e). rewrite <- Hq.
      by eapply slot_in_queued.
    + constructor.
  - intros e. rewrite Hq. split; [done|]. by intros ?%elem_of_nil.
Qed.

Lemma running_inv_inv ck : ck_running_inv ck -> ck_inv ck.
Proof.
  intros [Hc Hq]. split; [|done]. eapply core_bound; [done|]. intros e He.
  pose proof (cc_delayed _ _ Hc e He). pose proof (cc_cur _ _ Hc).
  unfold next_wrap, CLOCK_EVENT_QUEUE_SIZE in *. case_match; lia.
Qed.

(** [update] catches up with time by whole cycles, to the first clock edge not before it. *)
Lemma update_edge w :
  0 < period w.2 ->
  let ck := w.2 in let ck' := (update w).2 in
  (update w).1 = w.1 /\
  stop_time ck' - stop_time ck = (cycles ck' - cycles ck) * period ck /\
  (stop_time ck <= te_time w.1 ->
   te_time w.1 <= stop_time ck' < te_time w.1 + period ck) /\
  (te_time w.1 <= stop_time ck -> ck' = ck).
Proof.
  destruct w as [te ck]; simpl. intros Hp. unfold update.
  rewrite (proj2 (Z.eqb_neq (period ck) 0)) by lia.
  destruct (Z.ltb_spec 0 (te_time te - stop_time ck)); simpl; [|by split_and!; try lia].
  set (d := te_time te - stop_time ck) in *.
  pose proof (Z.div_mod (d + period ck - 1) (period ck)).
  pose proof (Z.mod_pos_bound (d + period ck - 1) (period ck) Hp).
  split_and!; [done|lia| |lia]. intros _. unfold d in *. nia.
Qed.

(** Resynchronising an idle engine keeps the invariant as long as the time engine has not passed
    the time the engine asked to be called back for its first delayed event. *)
Lemma sync_inv w :
  ck_inv w.2 -> must_flush_delayed_queue w.2 = true -> 0 < period w.2 ->
  (forall e, e ∈ delayed_queue w.2 ->
     te_time w.1 <= stop_time w.2 + (get_cycle w.2 e - cycles w.2) * period w.2) ->
  ck_inv (sync w).2.
Proof.
  intros Hinv Hm Hp Htime. unfold sync.
  destruct (running w); simpl; [done|]. destruct (Z.eqb_spec (nb_enqueued_to_cycle w.2) 0) as [Hz|]; [|done].
  destruct w as [te ck]. cbn [fst snd] in *.
  unfold ck_inv in Hinv. rewrite Hm in Hinv. destruct Hinv as [Hc Hq].
  unfold update. rewrite (proj2 (Z.eqb_neq (period ck) 0)) by lia.
  destruct (Z.ltb_spec 0 (te_time te - stop_time ck)).
  2:{ unfold ck_inv. cbn [snd]. by rewrite Hm. }
  cbn [snd]. set (d := te_time te - stop_time ck) in *.
  set (n := (d + period ck - 1) / period ck).
  assert (Hn : 0 <= n) by (apply Z.div_pos; lia).
  pose proof Hc as [Hlen Hcur Hnb Hnd Hslot Hord Hdel].
  assert (Hnil : concat (event_queue ck) = []) by (apply length_zero_iff_nil; lia).
  split; [|done]. simpl. rewrite Hm. constructor; try done.
  - intros i m f Hi Hf. exfalso. apply (not_elem_of_nil f). rewrite <- Hnil.
    apply elem_of_concat_lookup. eauto.
  - intros e He. simpl in He |- *. specialize (Htime e He). specialize (Hdel e He).
    change (get_cycle (set_cycles _ _) e) with (get_cycle ck e).
    enough (n <= get_cycle ck e - cycles ck) by lia.
    apply Z.lt_succ_r, Z.div_lt_upper_bound; [done|]. unfold d in *. nia.
Qed.

(** An event enqueued from outside on an engine with nothing in its buffer: it is queued for the
    requested cycle, counted from the resynchronised one, and the engine is called back no later
    than that many periods from now. *)
Lemma enqueue_idle e n w w' :
  te_inv w.1 -> running w = false -> 0 <= n -> 0 < period w.2 ->
  ck_enqueue e n w = Some w' ->
  get_cycle w'.2 e = cycles (sync w).2 + n /\ e ∈ delayed_queue w'.2 /\
  te_inv w'.1 /\ self w'.2 ∈ te_clients w'.1 /\
  net w'.1 (self w'.2) <= te_time w.1 + n * period w.2.
Proof.
  intros Ht Hr Hn Hp. unfold ck_enqueue. destruct (is_ev_enqueued w.2 e); [done|].
  set (w1 := (w.1, set_event e (ClockEvent true (get_cycle w.2 e)) w.2)).
  assert (Hr1 : running w1 = false) by done. rewrite Hr1. cbn [andb].
  assert (Hs : (sync w1).1 = w.1 /\ self (sync w1).2 = self w.2 /\
    period (sync w1).2 = period w.2 /\ cycles (sync w1).2 = cycles (sync w).2).
  { unfold sync. rewrite Hr1, Hr. simpl. destruct (nb_enqueued_to_cycle w.2 =? 0); [|done].
    unfold update, w1. destruct w as [te ck]. cbn [fst snd] in *.
    change (period (set_event _ _ ck)) with (period ck).
    destruct (period ck =? 0); [done|].
    change (stop_time (set_event _ _ ck)) with (stop_time ck). by destruct (0 <? _). }
  destruct Hs as (Hs1 & Hs2 & Hs3 & Hs4).
  assert (Hr2 : running (sync w1) = false).
  { unfold running in *. by rewrite Hs1, Hs2. }
  rewrite Hr2. cbn [andb]. intros [= <-]. unfold enqueue_other. cbn [fst snd].
  change (period (set_must_flush true (sync w1).2)) with (period (sync w1).2). rewrite Hs3.
  rewrite (proj2 (Z.eqb_neq (period w.2) 0)) by lia. unfold enqueue_to_engine. cbn [fst snd].
  change (self (set_must_flush true (sync w1).2)) with (self (sync w1).2). rewrite Hs1, Hs2.
  cbn [delayed_queue event_queue cycles self set_event set_queues set_must_flush].
  rewrite Hs2. split; [rewrite get_cycle_set_eq; simpl; rewrite Hs4; lia|].
  split; [apply elem_of_ordered_insert; by left|].
  split; [apply enqueue_inv; [nia|done]|].
  unfold running in Hr. destruct (enqueue (self w.2) (n * period w.2) w.1).1 eqn:E.
  - rewrite enqueue_true_eq by done. cbn zeta. unfold with_clients; simpl. split.
    + apply elem_of_ordered_insert. by left.
    + change (net (TimeEngine _ _ ?s _) (self w.2)) with
        (net (set_client (self w.2) (Client (te_time w.1 + n * period w.2) false true) w.1) (self w.2)).
      rewrite net_set, decide_True by done. simpl. lia.
  - rewrite enqueue_false_eq by done. unfold enqueue in E. rewrite Hr in E.
    destruct (is_enqueued (te_client w.1 (self w.2))) eqn:Ee; [|done]. simpl in E.
    split; [by apply (inv_enqueued _ Ht)|]. destruct (Z.leb_spec (net w.1 (self w.2)) (te_time w.1 + n * period w.2)); done.
Qed.

(** ** A running clock engine is a well-behaved client of the time engine

    Whatever its events do, and without the invariant, the calls they make leave the time engine
    alone while the engine is running. *)
Definition te_same (w w' : world) : Prop := w'.1 = w.1 /\ self w'.2 = self w.2.

Lemma te_same_running w w' : te_same w w' -> running w = true -> running w' = true.
Proof. intros [E1 E2]. unfold running. by rewrite E1, E2. Qed.
Lemma te_same_trans w1 w2 w3 : te_same w1 w2 -> te_same w2 w3 -> te_same w1 w3.
Proof. unfold te_same. intros [? ?] [? ?]. split; congruence. Qed.

Lemma ck_enqueue_te e n w w' :
  running w = true -> ck_enqueue e n w = Some w' -> te_same w w'.
Proof.
  intros Hr. unfold ck_enqueue. destruct (is_ev_enqueued w.2 e); [done|].
  change (running (w.1, set_event e _ w.2)) with (running w). rewrite Hr. cbn [andb].
  intros [= <-]. destruct w as [te ck]. cbn [fst snd].
  change (running (te, set_event e _ ck)) with (running (te, ck)). rewrite Hr. cbn [andb].
  destruct (n <? CLOCK_EVENT_QUEUE_SIZE); [done|]. unfold enqueue_other. cbn [fst snd].
  destruct (period _ =? 0); [done|]. by rewrite enqueue_to_engine_running.
Qed.

Lemma cancel_te e w w' : running w = true -> cancel e w = Some w' -> te_same w w'.
Proof.
  destruct w as [te ck]. intros Hr. unfold cancel. destruct (is_ev_enqueued ck e); cbn [negb].
  2:{ by intros [= <-]. }
  set (un := if bool_decide (e ∈ delayed_queue ck) then _ else _).
  assert (Hs : forall ck', un = Some ck' -> self ck' = self ck).
  { intros ck'. unfold un. repeat case_match; intros; simplify_eq; done. }
  destruct un as [ck'|]; [|done]. specialize (Hs ck' eq_refl). intros [= <-].
  case_match; [by split|]. rewrite dequeue_from_engine_running; [by split|].
  unfold running in *. cbn [fst snd] in *. simpl. by rewrite Hs.
Qed.

Lemma run_call_te a w w' : running w = true -> run_call a w = Some w' -> te_same w w'.
Proof.
  intros Hr. destruct a as [e n|e|e n]; cbn [run_call];
    [by apply ck_enqueue_te|by apply cancel_te|].
  unfold reenqueue. destruct (is_ev_enqueued w.2 e).
  - case_match; [by intros [= <-]|]. destruct (cancel e w) as [v|] eqn:Ec; [|done].
    pose proof (cancel_te _ _ _ Hr Ec) as Hv. pose proof (te_same_running _ _ Hv Hr) as Hrv.
    destruct (ck_enqueue e n v) as [u|] eqn:Ee; [|done]. intros [= <-].
    exact (te_same_trans _ _ _ Hv (ck_enqueue_te _ _ _ _ Hrv Ee)).
  - destruct (ck_enqueue e n w) as [u|] eqn:Ee; [|done]. intros [= <-].
    exact (ck_enqueue_te _ _ _ _ Hr Ee).
Qed.

Lemma run_calls_te l w w' : running w = true -> run_calls l w = Some w' -> te_same w w'.
Proof.
  revert w. induction l as [|a l IH]; intros w Hr; cbn [run_calls]; [by intros [= <-]|].
  destruct (run_call a w) as [v|] eqn:Ea; [|done]. intros H.
  pose proof (run_call_te _ _ _ Hr Ea) as Hv.
  eapply te_same_trans; [exact Hv|]. apply IH; [by eapply te_same_running|done].
Qed.

Lemma flush_loop_self l ck : self (flush_loop l ck) = self ck.
Proof.
  revert ck. induction l as [|e l IH]; intros ck; simpl; [done|].
  destruct (nb_enqueued_to_cycle ck =? 0); (case_match; [done|]); by rewrite IH.
Qed.

Section Client.
Context {S : Type} (meth : eid -> S -> Z -> S * list ck_call).

Lemma exec_slot_te fuel s w tr s' w' :
  running w = true -> exec_slot meth fuel s w = Done (tr, s', w') -> te_same w w'.
Proof.
  revert s w tr. induction fuel as [|fuel IH]; intros s w tr Hr; simpl.
  all: destruct (slot w.2 (current_cycle w.2)) as [|e l]; try done; try (by intros [= <- <- <-]).
  destruct (meth e s (cycles w.2)) as [s1 calls].
  destruct (run_calls calls (w.1, pop_event e l w.2)) as [v|] eqn:Ec; [|done].
  apply run_calls_te in Ec; [|done]. assert (Hv : te_same w v) by exact Ec.
  destruct (exec_slot meth fuel s1 v) as [[[tr1 s2] u]| |] eqn:Ex; [|done|done].
  intros [= <- <- <-]. eapply te_same_trans; [exact Hv|].
  by eapply IH; [eapply te_same_running|].
Qed.

Lemma exec_te fuel s w tr s' w' time :
  running w = true -> exec meth fuel s w = Done (tr, s', w', time) -> w'.1 = w.1.
Proof.
  intros Hr. unfold exec. destruct (has_events w.2); cbn [negb]; [|done].
  assert (Hself : self (start_cycle w.2) = self w.2).
  { unfold start_cycle, flush_delayed_queue. case_match; [by rewrite flush_loop_self|done]. }
  destruct (exec_slot meth fuel s (w.1, start_cycle w.2)) as [[[tr1 s1] u]| |] eqn:Ex; [|done|done].
  apply exec_slot_te in Ex as [Hu _].
  2:{ unfold running in *. cbn [fst snd]. by rewrite Hself. }
  destruct u as [te ck]. unfold exec_end. destruct (negb _); intros [= <- <- <- <-]; exact Hu.
Qed.

(** The clock engines of a platform, by client; an engine whose execution aborts on an assertion
    or exceeds the fuel gives no further event. *)
Definition as_self (c : cid) (ck : clock_engine) : clock_engine :=
  ClockEngine c (event_queue ck) (delayed_queue ck) (current_cycle ck) (period ck) (freq ck)
    (cycles ck) (nb_enqueued_to_cycle ck) (stop_time ck) (must_flush_delayed_queue ck) (ck_store ck).

Definition clock_client (fuel : nat) (c : cid) (st : S * gmap cid clock_engine)
    (te : time_engine) : S * gmap cid clock_engine * time_engine * Z :=
  match st.2 !! c with
  | None => (st, te, -1)
  | Some ck =>
      match exec meth fuel st.1 (te, as_self c ck) with
      | Done (_, s, w, time) => ((s, <[c := w.2]> st.2), w.1, time)
      | _ => (st, te, -1)
      end
  end.

#[export] Instance clock_client_ok fuel : ClientExec (clock_client fuel).
Proof.
  assert (Hsame : forall c st te, is_running (te_client te c) = true ->
    (clock_client fuel c st te).1.2 = te).
  { intros c [s m] te Hr. unfold clock_client. cbn [fst snd].
    destruct (m !! c) as [ck|]; [|done].
    destruct (exec meth fuel s (te, as_self c ck)) as [[[[tr s'] w] t]| |] eqn:E; [|done|done].
    cbn [fst snd]. by apply exec_te in E. }
  constructor; intros c st te Hro; by rewrite Hsame by apply Hro.
Qed.
End Client.

(** ** Properties *)

(** C1: Time seen by the clients never goes back along a run of the scheduling loop over any set of
    clock engines. *)
Theorem platform_time_monotone {S} (meth : eid -> S -> Z -> S * list ck_call) fuel n c st te :
  te_inv te -> c ∉ te_clients te ->
  StronglySorted Z.le (te_time te :: (run_steps (clock_client meth fuel) n c st te).1.*2).
Proof. apply run_steps_monotone, _. Qed.

(** An event that reenqueues itself every third cycle. *)
Definition tick (e : eid) (s : nat) (c : Z) : nat * list ck_call := (S s, [Reenqueue e 3]).

(** Client [c] running at time 0. *)
Definition te_run (c : cid) : time_engine := set_running true c te_start.

(** A 1 GHz engine whose event 7 is due at cycle 2 and event 8 at cycle 40. *)
Definition demo_ck : clock_engine :=
  match run_calls [Enqueue 7 2; Enqueue 8 40] (te_run 0, ck_new 0 (10 ^ 9)) with
  | Some w => w.2
  | None => ck_new 0 (10 ^ 9)
  end.

Lemma ck_new_running_inv c f : ck_running_inv (ck_new c f).
Proof.
  destruct (ck_new_inv c f) as [Hc Hq]. split; [|done]. eapply core_bound; [exact Hc|].
  intros e He. by apply not_elem_of_nil in He.
Qed.

Lemma demo_ck_inv : ck_inv demo_ck.
Proof.
  apply running_inv_inv.
  pose proof (run_calls_running [Enqueue 7 2; Enqueue 8 40] (te_run 0, ck_new 0 (10 ^ 9))
    (ck_new_running_inv 0 (10 ^ 9)) eq_refl) as H.
  unfold demo_ck. destruct (run_calls _ _) as [w|].
  - apply H. repeat constructor; vm_compute; done.
  - apply ck_new_running_inv.
Qed.

Lemma platform_time_monotone_witness :
  (run_steps (clock_client tick 10) 9 0 (0%nat, {[0%nat := demo_ck]}) te_start).1.*2
    = [0; 1000; 2000; 3000; 4000; 5000; 6000; 7000; 8000] /\
  StronglySorted Z.le (0 :: (run_steps (clock_client tick 10) 9 0 (0%nat, {[0%nat := demo_ck]}) te_start).1.*2).
Proof.
  split; [vm_compute; reflexivity|].
  apply (platform_time_monotone tick 10 9 0 (0%nat, {[0%nat := demo_ck]}) te_start).
  - exact te_start_inv.
  - apply not_elem_of_nil.
Defined.

(** C4: A clock engine executes its events exactly on time: every event run by one call of exec is
    due at the cycle being executed, which is the current one (or that of the first delayed event
    when the buffer is empty), and no event due at or before that cycle is left behind.  The
    queues stay consistent and the time engine is not touched. *)
Theorem exec_on_time {S} (meth : eid -> S -> Z -> S * list ck_call) fuel s w tr s' w' time :
  (forall e s c, Forall call_ok (meth e s c).2) ->
  ck_inv w.2 -> running w = true ->
  exec meth fuel s w = Done (tr, s', w', time) ->
  let c := exec_cycle w.2 in
  Forall (fun x => x_due x = c /\ x_at x = c) tr /\
  (forall e, e ∈ queued w'.2 -> c < get_cycle w'.2 e) /\
  ck_inv w'.2 /\ w'.1 = w.1.
Proof. intros Hok. by apply exec_on_time_lemma. Qed.

Lemma tick_ok e s c : Forall call_ok (tick e s c).2.
Proof. repeat constructor; vm_compute; done. Qed.

Lemma exec_on_time_witness :
  exists tr s' w' time,
    exec tick 10 0%nat (te_run 0, demo_ck) = Done (tr, s', w', time) /\ time = 1000 /\
    Forall (fun x => x_due x = 0 /\ x_at x = 0) tr.
Proof.
  do 4 eexists. split; [vm_compute; reflexivity|]. split; [reflexivity|].
  eapply (exec_on_time tick 10 0%nat (te_run 0, demo_ck)).
  - exact tick_ok.
  - exact demo_ck_inv.
  - reflexivity.
  - vm_compute; reflexivity.
Defined.

(** C32: When events only schedule work for later cycles, one call of exec terminates within as many
    event executions as there are queued events; and it cannot fail when they never enqueue an
    event directly but through reenqueue. *)
Theorem exec_terminates {S} (meth : eid -> S -> Z -> S * list ck_call) s w :
  (forall e s c, Forall call_ok (meth e s c).2) ->
  (forall e s c, Forall call_future (meth e s c).2) ->
  ck_inv w.2 -> running w = true -> has_events w.2 = true ->
  let r := exec meth (length (queued w.2)) s w in
  r <> OutOfFuel /\
  ((forall e s c, Forall call_safe (meth e s c).2) -> exists x, r = Done x).
Proof. intros Hok Hf. by apply exec_terminates_lemma. Qed.

Lemma exec_terminates_witness :
  exec tick (length (queued demo_ck)) 0%nat (te_run 0, demo_ck) <> OutOfFuel.
Proof.
  apply (exec_terminates tick 0%nat (te_run 0, demo_ck)).
  - exact tick_ok.
  - intros e s c. repeat constructor; vm_compute; done.
  - exact demo_ck_inv.
  - reflexivity.
  - reflexivity.
Defined.

(** Reenqueueing during a cycle never delays an event: one already queued keeps the earlier of
    its due cycle and the requested one, one not queued gets the requested one; the others are
    untouched and the queues stay consistent. *)
Theorem reenqueue_earliest e n w :
  ck_running_inv w.2 -> running w = true -> 0 <= n < 2 ^ 63 ->
  exists w', reenqueue e n w = Some w' /\ ck_running_inv w'.2 /\
    (forall f, f ∈ queued w'.2 <-> f = e \/ f ∈ queued w.2) /\
    get_cycle w'.2 e = (if is_ev_enqueued w.2 e then Z.min (get_cycle w.2 e) (cycles w.2 + n)
                        else cycles w.2 + n) /\
    (forall f, f <> e -> get_cycle w'.2 f = get_cycle w.2 f).
Proof.
  intros Hi Hr Hn. destruct (reenqueue_running e n w Hi Hr Hn) as (w' & E & H1 & _ & H2 & H3 & H4).
  by exists w'.
Qed.

Lemma reenqueue_earliest_witness :
  exists w', reenqueue 7 5 (te_run 0, ck_new 0 (10 ^ 9)) = Some w' /\ get_cycle w'.2 7 = 5.
Proof.
  destruct (reenqueue_earliest 7 5 (te_run 0, ck_new 0 (10 ^ 9)) (ck_new_running_inv 0 (10 ^ 9)) eq_refl
              ltac:(lia)) as (w' & E & _ & _ & Hc & _).
  exists w'. split; [exact E|exact Hc].
Defined.

(** Enqueueing from outside an idle engine: the event is due the requested number of cycles
    after the resynchronised current cycle, in the delayed queue, and the engine is registered
    with the time engine no later than that many periods from now. *)
Theorem enqueue_ext_idle e n w w' :
  te_inv w.1 -> running w = false -> 0 <= n -> 0 < period w.2 ->
  ck_enqueue e n w = Some w' ->
  get_cycle w'.2 e = cycles (sync w).2 + n /\ e ∈ delayed_queue w'.2 /\
  te_inv w'.1 /\ self w'.2 ∈ te_clients w'.1 /\
  net w'.1 (self w'.2) <= te_time w.1 + n * period w.2.
Proof. apply enqueue_idle. Qed.

Lemma enqueue_ext_idle_witness :
  exists w', ck_enqueue 7 4 (with_time 2500 te_start, ck_new 0 (10 ^ 9)) = Some w' /\
    get_cycle w'.2 7 = 3 + 4 /\ net w'.1 0 <= 2500 + 4 * 1000.
Proof.
  eexists. split; [vm_compute; reflexivity|].
  edestruct (enqueue_ext_idle 7 4 (with_time 2500 te_start, ck_new 0 (10 ^ 9))) as (H1 & _ & _ & _ & H2).
  - apply with_time_inv; [exact te_start_inv|]. intros d Hd. by apply not_elem_of_nil in Hd.
  - reflexivity.
  - lia.
  - reflexivity.
  - vm_compute; reflexivity.
  - split; [exact H1|exact H2].
Defined.

(** Resynchronising an idle engine moves it by whole cycles to the first clock edge that is not
    before the current time, and keeps its queues consistent as long as the time engine has not
    passed the time of the first delayed event. *)
Theorem sync_edge w :
  ck_inv w.2 -> must_flush_delayed_queue w.2 = true -> 0 < period w.2 ->
  running w = false -> nb_enqueued_to_cycle w.2 = 0 -> stop_time w.2 <= te_time w.1 ->
  (forall e, e ∈ delayed_queue w.2 ->
     te_time w.1 <= stop_time w.2 + (get_cycle w.2 e - cycles w.2) * period w.2) ->
  let ck := w.2 in let ck' := (sync w).2 in
  ck_inv ck' /\
  stop_time ck' - stop_time ck = (cycles ck' - cycles ck) * period ck /\
  te_time w.1 <= stop_time ck' < te_time w.1 + period ck.
Proof.
  intros Hi Hm Hp Hr Hz Hs Ht ck ck'. split; [by apply sync_inv|].
  unfold ck', sync. rewrite Hr, Hz. cbn [negb andb Z.eqb].
  destruct (update_edge w Hp) as (_ & H1 & H2 & _). split; [exact H1|]. by apply H2.
Qed.

Lemma sync_edge_witness :
  let w := (with_time 2500 te_start, ck_new 0 (10 ^ 9)) in
  cycles (sync w).2 = 3 /\ 2500 <= stop_time (sync w).2 < 2500 + 1000.
Proof.
  intros w. split; [vm_compute; reflexivity|].
  apply (sync_edge w); try reflexivity; try (vm_compute; discriminate).
  - apply ck_new_inv.
  - intros e He. by apply not_elem_of_nil in He.
Defined.

(** The state of a gated engine (period 0) with one event due [n] cycles later in its buffer, and
    the cycle counts at which the time engine calls it after the frequency is set again. *)
Definition gated (n : Z) : world :=
  match run_calls [Enqueue 7 n] (te_run 0, set_freq 0 0 (ck_new 0 (10 ^ 9))) with
  | Some (te, ck) => (set_running false 0 te, ck)
  | None => (te_start, ck_new 0 (10 ^ 9))
  end.

Definition nop (e : eid) (s : nat) (c : Z) : nat * list ck_call := (S s, []).

(** The time at which the first event of client 0 is executed after [w], in at most [n] turns. *)
Fixpoint first_event_time (n : nat) (w : world) : option Z :=
  match n with
  | O => None
  | S n =>
      match pop_first w.1 with
      | None => None
      | Some (_, te) =>
          match exec nop 10 0%nat (set_running true 0 te, w.2) with
          | Done (x :: _, _, _, _) => Some (te_time te)
          | Done ([], _, w, time) =>
              first_event_time n (enqueue_to_engine time (set_running false 0 w.1, w.2))
          | _ => None
          end
      end
  end.

(** Leaving clock gating runs a buffered event late: an event due [n] cycles ahead when the
    clock is restored at 1 GHz (1000 ps) executes after 2n periods, because apply_frequency
    programs the time engine with the time of the event while exec resumes from the cycle where
    the clock was gated. *)
Theorem gated_event_late n :
  1 <= n < 32 ->
  first_event_time 64 (apply_frequency (10 ^ 9) (gated n)) = Some (2 * n * 1000).
Proof.
  intros Hn. assert (Hin : n ∈ (Z.of_nat <$> seq 1 31)).
  { apply list_elem_of_fmap. exists (Z.to_nat n). split; [lia|]. apply elem_of_seq. lia. }
  revert n Hin Hn. refine (proj1 (Forall_forall _ _) _).
  repeat (constructor; [intros _; vm_compute; reflexivity|]). constructor.
Qed.

Lemma gated_event_late_witness :
  first_event_time 64 (apply_frequency (10 ^ 9) (gated 5)) = Some 10000.
Proof. apply (gated_event_late 5). lia. Defined.
