(* ===== verification/TimeScheduler.v ===== *)
(** * The time scheduler (engine/src/vp.cpp, vp/time/time_scheduler.hpp)

    vp::time_scheduler is the time engine client of the components without a clock: a list of
    events ordered by absolute time, of which exec runs the ones due now.  Events are named by a
    [tid]; [ts_times] holds their time field.  An event method is the sequence of enqueue calls it
    makes on its scheduler, as for the events of a clock engine. *)

From S2P Require Import Prelude TimeEngine.

Definition tid := nat.
Bind Scope nat_scope with tid.

Record time_scheduler := TimeScheduler {
  ts_self : cid;
  ts_events : list tid;        (* the chain from first_event *)
  ts_times : gmap tid Z;       (* time_event::time *)
}.

Definition ts_time (ts : time_scheduler) (e : tid) : Z := default 0 (ts_times ts !! e).

Definition ts_world : Type := time_engine * time_scheduler.

(** time_scheduler::enqueue.  Linking an event that is already linked closes a cycle in the chain;
    it is refused ([None]). *)
Definition ts_enqueue (e : tid) (time : Z) (w : ts_world) : option ts_world :=
  let '(te, ts) := w in
  if bool_decide (e ∈ ts_events ts) then None
  else
    let full_time := time + te_time te in
    let l := ordered_insert (fun d => ts_time ts d <? full_time) e (ts_events ts) in
    let ts := TimeScheduler (ts_self ts) l (<[e := full_time]> (ts_times ts)) in
    Some ((enqueue (ts_self ts) time te).2, ts).

Fixpoint ts_calls (l : list (tid * Z)) (w : ts_world) : option ts_world :=
  match l with
  | [] => Some w
  | (e, t) :: l => let* w := ts_enqueue e t w in ts_calls l w
  end.

Section Exec.
Context {S : Type} (meth : tid -> S -> Z -> S * list (tid * Z)).

(** The loop of time_scheduler::exec, with the events it runs. *)
Fixpoint ts_loop (fuel : nat) (s : S) (w : ts_world) : outcome (list tid * S * ts_world) :=
  match ts_events w.2 with
  | [] => Done ([], s, w)
  | e :: l =>
      if ts_time w.2 e =? te_time w.1 then
        match fuel with
        | O => OutOfFuel
        | Datatypes.S fuel =>
            let '(s, calls) := meth e s (te_time w.1) in
            match ts_calls calls (w.1, TimeScheduler (ts_self w.2) l (ts_times w.2)) with
            | None => AssertFailed
            | Some w =>
                match ts_loop fuel s w with
                | Done (tr, s, w) => Done (e :: tr, s, w)
                | AssertFailed => AssertFailed
                | OutOfFuel => OutOfFuel
                end
            end
        end
      else Done ([], s, w)
  end.

Definition ts_exec (fuel : nat) (s : S) (w : ts_world) : outcome (list tid * S * ts_world * Z) :=
  match ts_loop fuel s w with
  | Done (tr, s, w) =>
      Done (tr, s, w, match ts_events w.2 with
                      | [] => -1
                      | e :: _ => ts_time w.2 e - te_time w.1
                      end)
  | AssertFailed => AssertFailed
  | OutOfFuel => OutOfFuel
  end.
End Exec.

(** ** Invariant

    The chain is ordered, without repetition, and no event is in the past of [now]. *)
Record ts_inv (now : Z) (ts : time_scheduler) : Prop := {
  ts_nodup : NoDup (ts_events ts);
  ts_ordered : ordered (ts_time ts) (ts_events ts);
  ts_future : forall e, e ∈ ts_events ts -> now <= ts_time ts e;
}.

(** A stopped scheduler with events is registered with the time engine no later than its first. *)
Definition ts_awake (w : ts_world) : Prop :=
  is_running (te_client w.1 (ts_self w.2)) = false ->
  forall e, e ∈ ts_events w.2 ->
    ts_self w.2 ∈ te_clients w.1 /\ net w.1 (ts_self w.2) <= ts_time w.2 e.

Lemma ts_time_insert c l m e t f :
  ts_time (TimeScheduler c l (<[e := t]> m)) f =
  if decide (e = f) then t else ts_time (TimeScheduler c l m) f.
Proof. unfold ts_time; simpl. rewrite lookup_insert. by destruct (decide (e = f)). Qed.

Lemma ts_enqueue_some e time w w' :
  ts_enqueue e time w = Some w' ->
  e ∉ ts_events w.2 /\
  w'.1 = (enqueue (ts_self w.2) time w.1).2 /\ ts_self w'.2 = ts_self w.2 /\
  ts_events w'.2 ≡ₚ e :: ts_events w.2 /\
  (forall f, ts_time w'.2 f = if decide (e = f) then te_time w.1 + time else ts_time w.2 f).
Proof.
  destruct w as [te ts]. unfold ts_enqueue. case_bool_decide as He; [done|].
  intros [= <-]. simpl. split; [done|]. split; [done|]. split; [done|].
  split; [apply ordered_insert_perm|]. intros f. rewrite ts_time_insert.
  destruct (decide (e = f)); [lia|done].
Qed.

Lemma ts_enqueue_inv e time w w' :
  ts_enqueue e time w = Some w' -> 0 <= time ->
  ts_inv (te_time w.1) w.2 -> ts_inv (te_time w.1) w'.2.
Proof.
  intros E Ht [Hnd Hord Hfut].
  destruct (ts_enqueue_some _ _ _ _ E) as (He & _ & _ & Hp & Htm).
  constructor.
  - rewrite Hp. by constructor.
  - destruct w as [te ts]. unfold ts_enqueue in E. case_bool_decide; [done|].
    injection E as <-. simpl in *.
    eapply ordered_ext; [intros f _; symmetry; apply ts_time_insert|]. simpl.
    rewrite (ordered_insert_ext _ (fun d =>
      (if decide (e = d) then time + te_time te else ts_time ts d) <?
      (if decide (e = e) then time + te_time te else ts_time ts e))).
    2:{ intros d Hd. rewrite (decide_True (P:=e=e)) by done.
        by rewrite decide_False by (intros <-; done). }
    apply (ordered_insert_ordered
             (fun d => if decide (e = d) then time + te_time te else ts_time ts d)).
    eapply ordered_ext; [|exact Hord]. intros d Hd. simpl. by rewrite decide_False by (intros <-; done).
  - intros f Hf. rewrite Htm. destruct (decide (e = f)); [lia|].
    rewrite Hp in Hf. apply elem_of_cons in Hf as [->|Hf]; [done|]. by apply Hfut.
Qed.

(** ** Execution *)

Definition future_calls (l : list (tid * Z)) : Prop := Forall (fun a => 0 < a.2) l.

(** While the scheduler runs, its calls leave the time engine alone. *)
Lemma enqueue_running_id c time te :
  is_running (te_client te c) = true -> (enqueue c time te).2 = te.
Proof. intros Hr. unfold enqueue. by rewrite Hr. Qed.

(** The calls of a method made with positive delays add later events only. *)
Lemma ts_calls_running l w w' :
  is_running (te_client w.1 (ts_self w.2)) = true -> future_calls l ->
  ts_inv (te_time w.1) w.2 -> ts_calls l w = Some w' ->
  w'.1 = w.1 /\ ts_self w'.2 = ts_self w.2 /\ ts_inv (te_time w.1) w'.2 /\
  (forall e, e ∈ ts_events w'.2 ->
     te_time w.1 < ts_time w'.2 e \/ (e ∈ ts_events w.2 /\ ts_time w'.2 e = ts_time w.2 e)) /\
  (forall e, e ∈ ts_events w.2 -> e ∈ ts_events w'.2 /\ ts_time w'.2 e = ts_time w.2 e).
Proof.
  revert w. induction l as [|[e t] l IH]; intros w Hr Hf Hi; cbn [ts_calls].
  { intros [= <-]. split_and!; auto. }
  destruct (ts_enqueue e t w) as [w1|] eqn:E; [|done]. intros El.
  apply Forall_cons in Hf as [Ht Hf]. simpl in Ht.
  pose proof (ts_enqueue_inv _ _ _ _ E ltac:(lia) Hi) as Hi1.
  destruct (ts_enqueue_some _ _ _ _ E) as (He & Hte & Hs & Hp & Htm).
  rewrite (enqueue_running_id _ _ _ Hr) in Hte.
  destruct (IH w1) as (H1 & H2 & H3 & H4 & H5); [by rewrite Hs, Hte|done|by rewrite Hte|done|].
  rewrite Hte in *. split; [done|]. split; [congruence|]. split; [done|]. split.
  - intros f Hfin. destruct (H4 f Hfin) as [?|[Hin ->]]; [by left|].
    rewrite Htm. rewrite Hp in Hin. destruct (decide (e = f)) as [->|Hne]; [left; lia|right].
    apply elem_of_cons in Hin as [->|]; done.
  - intros f Hfin. destruct (H5 f) as [Hin ->].
    { rewrite Hp. by right. }
    split; [done|]. rewrite Htm. by rewrite decide_False by (intros ->; done).
Qed.

(** The events due now, in the order of the chain. *)
Definition due_events (now : Z) (ts : time_scheduler) : list tid :=
  filter (fun e => ts_time ts e = now) (ts_events ts).

Lemma due_none now ts e l :
  ts_inv now ts -> ts_events ts = e :: l -> ts_time ts e <> now ->
  due_events now ts = [] /\ forall f, f ∈ ts_events ts -> now < ts_time ts f.
Proof.
  intros [_ Hord Hfut] El Hne.
  assert (H : forall f, f ∈ ts_events ts -> now < ts_time ts f).
  { intros f Hf. rewrite El in *. pose proof (ordered_hd _ _ _ _ Hord Hf).
    specialize (Hfut e ltac:(left)). lia. }
  split; [|done]. apply filter_none. intros f Hf. specialize (H f Hf). lia.
Qed.

Lemma due_first now ts e l :
  ts_events ts = e :: l -> ts_time ts e = now ->
  due_events now ts = e :: due_events now (TimeScheduler (ts_self ts) l (ts_times ts)).
Proof. intros El E. unfold due_events. rewrite El. simpl. by rewrite filter_cons, decide_True. Qed.

(** Calls with positive delays do not change what is due now. *)
Lemma ts_calls_due l w w' :
  is_running (te_client w.1 (ts_self w.2)) = true -> future_calls l -> ts_calls l w = Some w' ->
  due_events (te_time w.1) w'.2 = due_events (te_time w.1) w.2.
Proof.
  revert w. induction l as [|[e t] l IH]; intros w Hr Hf; cbn [ts_calls].
  { by intros [= <-]. }
  destruct (ts_enqueue e t w) as [w1|] eqn:E; [|done]. intros El.
  apply Forall_cons in Hf as [Ht Hf]. simpl in Ht.
  destruct (ts_enqueue_some _ _ _ _ E) as (He & Hte & Hs & Hp & Htm).
  rewrite (enqueue_running_id _ _ _ Hr) in Hte.
  specialize (IH w1). rewrite Hs, Hte in IH. rewrite (IH Hr Hf El). unfold due_events.
  destruct w as [te ts]. unfold ts_enqueue in E. case_bool_decide; [done|].
  injection E as <-. cbn [fst snd] in *. simpl in *.
  rewrite filter_ordered_insert.
  - apply filter_ext_in. intros f Hfin. rewrite Htm. by rewrite decide_False by (intros <-; done).
  - rewrite Htm, decide_True by done. lia.
Qed.

Section ExecFacts.
Context {S : Type} (meth : tid -> S -> Z -> S * list (tid * Z)).
Hypothesis Hmeth : forall e s t, future_calls (meth e s t).2.

Lemma ts_loop_spec fuel s w :
  is_running (te_client w.1 (ts_self w.2)) = true -> ts_inv (te_time w.1) w.2 ->
  (length (due_events (te_time w.1) w.2) <= fuel)%nat ->
  match ts_loop meth fuel s w with
  | Done (tr, _, w') =>
      tr = due_events (te_time w.1) w.2 /\ w'.1 = w.1 /\ ts_self w'.2 = ts_self w.2 /\
      ts_inv (te_time w.1) w'.2 /\ (forall e, e ∈ ts_events w'.2 -> te_time w.1 < ts_time w'.2 e) /\
      (forall e, e ∈ ts_events w.2 -> e ∉ tr ->
         e ∈ ts_events w'.2 /\ ts_time w'.2 e = ts_time w.2 e)
  | AssertFailed => True
  | OutOfFuel => False
  end.
Proof.
  revert s w. induction fuel as [|fuel IH]; intros s w Hr Hi Hf;
    cbn [ts_loop]; destruct (ts_events w.2) as [|e l] eqn:El.
  1,3: split_and!; try done; rewrite ?El; try (intros f Hx; by apply not_elem_of_nil in Hx);
    unfold due_events; by rewrite El.
  all: destruct (Z.eqb_spec (ts_time w.2 e) (te_time w.1)) as [Et|Et];
    [|destruct (due_none _ _ _ _ Hi El Et) as [Hd Hl]; rewrite Hd;
      split_and!; try done; rewrite El; intros; split; done].
  { rewrite (due_first _ _ _ _ El Et) in Hf. simpl in Hf. lia. }
  pose proof (due_first _ _ _ _ El Et) as Hdue. rewrite Hdue in Hf |- *. simpl in Hf.
  set (w0 := (w.1, TimeScheduler (ts_self w.2) l (ts_times w.2))) in *.
  assert (Hi0 : ts_inv (te_time w.1) w0.2).
  { destruct Hi as [Hnd Hord Hfut]. rewrite El in *. apply NoDup_cons in Hnd as [_ Hnd].
    apply ordered_cons in Hord as [Hord _]. constructor; [done|done|].
    intros f Hx. apply Hfut. by right. }
  specialize (Hmeth e s (te_time w.1)). destruct (meth e s (te_time w.1)) as [s1 calls].
  destruct (ts_calls calls w0) as [w1|] eqn:Ec; [|done].
  destruct (ts_calls_running calls w0 w1 Hr Hmeth Hi0 Ec) as (H1 & H2 & H3 & _ & H5).
  pose proof (ts_calls_due calls w0 w1 Hr Hmeth Ec) as Hd1. change (w0.1) with (w.1) in *.
  specialize (IH s1 w1). rewrite H2, H1, Hd1 in IH. specialize (IH Hr H3 (le_S_n _ _ Hf)).
  destruct (ts_loop meth fuel s1 w1) as [[[tr s2] w2]| |]; [|done|done].
  destruct IH as (-> & I2 & I3 & I4 & I5 & I6). split_and!; try done.
  intros f Hx Hn. apply not_elem_of_cons in Hn as [Hne Hn].
  apply elem_of_cons in Hx as [->|Hx]; [done|]. destruct (H5 f Hx) as [Hx1 Ht1].
  destruct (I6 f Hx1 Hn) as [? ->]. split; [done|exact Ht1].
Qed.
End ExecFacts.

(** Enqueueing from outside keeps the scheduler awake in time. *)
Lemma ts_enqueue_awake e time w w' :
  te_inv w.1 -> 0 <= time -> is_running (te_client w.1 (ts_self w.2)) = false ->
  ts_awake w -> ts_enqueue e time w = Some w' -> te_inv w'.1 /\ ts_awake w'.
Proof.
  intros Hinv Ht Hr Hw E. destruct (ts_enqueue_some _ _ _ _ E) as (He & Hte & Hs & Hp & Htm).
  pose proof (enqueue_inv (ts_self w.2) time w.1 Ht Hinv) as Hinv'. rewrite <- Hte in Hinv'.
  split; [done|]. intros _ f Hf.
  assert (Hnet : ts_self w.2 ∈ te_clients w'.1 /\ net w'.1 (ts_self w.2) <= te_time w.1 + time /\
     (ts_self w.2 ∈ te_clients w.1 -> net w'.1 (ts_self w.2) <= net w.1 (ts_self w.2))).
  { rewrite Hte. set (c := ts_self w.2) in *. destruct (enqueue c time w.1).1 eqn:Ea.
    - assert (Hlt : c ∈ te_clients w.1 -> te_time w.1 + time <= net w.1 c).
      { intros Hc. apply (inv_enqueued _ Hinv) in Hc. revert Ea. unfold enqueue.
        rewrite Hr, Hc. simpl. destruct (Z.leb_spec (net w.1 c) (te_time w.1 + time)); [done|lia]. }
      rewrite (enqueue_true_eq c time w.1 Hinv Ea). cbv zeta.
      change (net (with_clients ?l ?t) c) with (net t c). rewrite net_set, decide_True by done.
      simpl. split; [apply elem_of_ordered_insert; by left|]. split; [lia|done].
    - rewrite (enqueue_false_eq c time w.1 Ea). revert Ea. unfold enqueue. rewrite Hr.
      destruct (is_enqueued (te_client w.1 c)) eqn:Ee; [|done]. simpl.
      destruct (Z.leb_spec (net w.1 c) (te_time w.1 + time)); [|done]. intros _.
      split; [by apply (inv_enqueued _ Hinv)|]. split; [lia|done]. }
  destruct Hnet as (H1 & H2 & H3). rewrite Hs. split; [done|]. rewrite Htm.
  destruct (decide (e = f)) as [->|Hne]; [done|]. rewrite Hp in Hf.
  apply elem_of_cons in Hf as [->|Hf]; [done|]. destruct (Hw Hr f Hf) as [Hc Hn].
  specialize (H3 Hc). lia.
Qed.

(** ** Properties *)

(** One call of exec runs exactly the events due at the current time, once each and in the order
    of the chain, whatever later events their methods enqueue; it terminates within that many
    steps; no event is lost or left overdue; and the delay it returns is that of the earliest
    remaining event, or -1 when there is none. *)
Theorem ts_exec_runs_due {S} (meth : tid -> S -> Z -> S * list (tid * Z)) s w :
  (forall e s t, future_calls (meth e s t).2) ->
  is_running (te_client w.1 (ts_self w.2)) = true -> ts_inv (te_time w.1) w.2 ->
  let due := due_events (te_time w.1) w.2 in
  match ts_exec meth (length due) s w with
  | Done (tr, _, w', delay) =>
      tr = due /\ w'.1 = w.1 /\ ts_inv (te_time w.1) w'.2 /\
      (forall e, e ∈ ts_events w.2 -> e ∉ due ->
         e ∈ ts_events w'.2 /\ ts_time w'.2 e = ts_time w.2 e) /\
      (if decide (ts_events w'.2 = []) then delay = -1
       else 0 < delay /\ forall e, e ∈ ts_events w'.2 -> te_time w.1 + delay <= ts_time w'.2 e)
  | AssertFailed => True
  | OutOfFuel => False
  end.
Proof.
  intros Hm Hr Hi due. unfold ts_exec.
  pose proof (ts_loop_spec meth Hm (length due) s w Hr Hi ltac:(done)) as H.
  destruct (ts_loop meth (length due) s w) as [[[tr s'] w']| |]; [|done|done].
  destruct H as (-> & H1 & _ & H2 & H3 & H4). split_and!; try done.
  destruct (ts_events w'.2) as [|e l] eqn:El; [done|]. rewrite decide_False by done.
  rewrite H1. split; [specialize (H3 e ltac:(left)); lia|]. intros f Hf.
  pose proof (ts_ordered _ _ H2) as Ho. rewrite El in Ho.
  pose proof (ordered_hd _ _ _ _ Ho Hf). lia.
Qed.

(** Event 1 enqueues event 3 five later. *)
Definition ts_demo (e : tid) (s : nat) (t : Z) : nat * list (tid * Z) :=
  match e with 1%nat => (S s, [(3%nat, 5)]) | _ => (S s, []) end.

Definition ts_demo_start : ts_world :=
  default (te_start, TimeScheduler 0 [] ∅)
    (ts_calls [(1%nat, 0); (2%nat, 0); (4%nat, 7)] (set_running true 0 te_start, TimeScheduler 0 [] ∅)).

Lemma ts_demo_inv : ts_inv (te_time ts_demo_start.1) ts_demo_start.2.
Proof.
  constructor.
  - apply (bool_decide_unpack _). vm_compute. exact I.
  - repeat constructor; vm_compute; discriminate.
  - intros e He. apply (list_elem_of_In _ _) in He. vm_compute in He.
    destruct He as [<-|[<-|[<-|[]]]]; vm_compute; discriminate.
Qed.

Lemma ts_exec_runs_due_witness :
  ts_exec ts_demo 2 0%nat ts_demo_start =
    Done ([2%nat; 1%nat], 2%nat, (ts_demo_start.1,
      TimeScheduler 0 [3%nat; 4%nat] {[1%nat := 0; 2%nat := 0; 3%nat := 5; 4%nat := 7]}), 5) /\
  match ts_exec ts_demo (length (due_events (te_time ts_demo_start.1) ts_demo_start.2)) 0%nat ts_demo_start with
  | Done (tr, _, w', delay) => tr = due_events (te_time ts_demo_start.1) ts_demo_start.2
  | _ => False
  end.
Proof.
  split; [vm_compute; reflexivity|].
  assert (Hm : forall e s t, future_calls (ts_demo e s t).2).
  { intros [|[|e]] s t; repeat constructor. }
  pose proof (ts_exec_runs_due ts_demo 0%nat ts_demo_start Hm eq_refl ts_demo_inv) as H.
  cbv zeta in H.
  destruct (ts_exec ts_demo _ 0%nat ts_demo_start) as [[[[tr s] w] d]| |] eqn:E.
  - exact (proj1 H).
  - vm_compute in E. discriminate E.
  - exact H.
Defined.

(** Enqueueing an event on a stopped scheduler keeps it awake: it stays registered with the time
    engine no later than its earliest event. *)
Theorem ts_enqueue_stays_awake e time w w' :
  te_inv w.1 -> 0 <= time -> is_running (te_client w.1 (ts_self w.2)) = false ->
  ts_inv (te_time w.1) w.2 -> ts_awake w -> ts_enqueue e time w = Some w' ->
  te_inv w'.1 /\ ts_awake w' /\ ts_inv (te_time w.1) w'.2 /\ ts_time w'.2 e = te_time w.1 + time.
Proof.
  intros Hinv Ht Hr Hi Hw E. destruct (ts_enqueue_awake _ _ _ _ Hinv Ht Hr Hw E).
  split; [done|]. split; [done|]. split; [by eapply ts_enqueue_inv|].
  destruct (ts_enqueue_some _ _ _ _ E) as (_ & _ & _ & _ & Htm). by rewrite Htm, decide_True.
Qed.

Lemma ts_enqueue_stays_awake_witness :
  exists w', ts_enqueue 1 30 (te_start, TimeScheduler 0 [] ∅) = Some w' /\ ts_time w'.2 1 = 0 + 30.
Proof.
  eexists. split; [vm_compute; reflexivity|].
  apply (ts_enqueue_stays_awake 1 30 (te_start, TimeScheduler 0 [] ∅)).
  - exact te_start_inv.
  - lia.
  - reflexivity.
  - constructor; simpl; [constructor|apply ordered_nil|]. intros f Hf. by apply not_elem_of_nil in Hf.
  - intros _ f Hf. by apply not_elem_of_nil in Hf.
  - vm_compute; reflexivity.
Defined.
