(* ===== verification/Queue.v ===== *)
(** * The queue of requests (engine/src/queue.cpp, vp/queue.hpp)

    vp::queue is an intrusive singly linked list with a pointer to its first and last elements,
    which the memory-mapped components use to keep pending requests.  The model keeps the
    pointers: an element is a [qid], [elems] holds the fields of the element objects, and a
    fresh element's [next] is unspecified (any value).  The abstract contract is a list. *)

From S2P Require Import Prelude.

Definition qid := nat.
Bind Scope nat_scope with qid.

Record queue_elem := QueueElem {
  next : option qid;           (* NULL is None *)
  cancellable : bool;          (* cancel_callback and cancel_this have been set *)
}.

Record queue := Queue {
  first : option qid;
  last : option qid;
  elems : gmap qid queue_elem;
}.

Definition elem_of_queue (q : queue) (e : qid) : queue_elem :=
  default (QueueElem None false) (elems q !! e).
Definition next_of (q : queue) (e : qid) : option qid := next (elem_of_queue q e).
Definition set_first (f : option qid) (q : queue) : queue := Queue f (last q) (elems q).
Definition set_last (l : option qid) (q : queue) : queue := Queue (first q) l (elems q).
Definition set_next (e : qid) (n : option qid) (q : queue) : queue :=
  Queue (first q) (last q) (<[e := QueueElem n (cancellable (elem_of_queue q e))]> (elems q)).
Definition set_cancel (e : qid) (q : queue) : queue :=
  Queue (first q) (last q) (<[e := QueueElem (next_of q e) true]> (elems q)).

(** ** Operations *)

Definition empty (q : queue) : bool := match first q with None => true | Some _ => false end.


(** [None]: [last] is dereferenced while it is not an element. *)
Definition push_back (e : qid) (q : queue) : option queue :=
  let* q :=
    match first q with
    | Some _ => let* l := last q in Some (set_next l (Some e) q)
    | None => Some (set_first (Some e) q)
    end in
  let q := set_next e None (set_last (Some e) q) in
  Some (set_cancel e q).


Definition head (q : queue) : option qid := first q.


(** The walk of cancel_callback: the found element (or NULL) and the one before it. *)
Fixpoint cancel_walk (fuel : nat) (q : queue) (e : qid) (current prev : option qid) :
    outcome (option qid * option qid) :=
  match current with
  | None => Done (None, prev)
  | Some c =>
      if decide (c = e) then Done (Some c, prev)
      else
        match fuel with
        | O => OutOfFuel
        | S fuel => cancel_walk fuel q e (next_of q c) (Some c)
        end
  end.

Definition cancel_callback (fuel : nat) (e : qid) (q : queue) : outcome queue :=
  match cancel_walk fuel q e (first q) None with
  | Done (Some c, Some p) => Done (set_next p (next_of q c) q)
  | Done (Some c, None) => Done (set_first (next_of q c) q)
  | Done (None, _) => AssertFailed
  | AssertFailed => AssertFailed
  | OutOfFuel => OutOfFuel
  end.

(** queue_elem::cancel, through the callback set when the element was pushed. *)
Definition elem_cancel (fuel : nat) (e : qid) (q : queue) : outcome queue :=
  if cancellable (elem_of_queue q e) then cancel_callback fuel e q else AssertFailed.

(** ** The list a queue represents *)

(** Following [next] from [p] goes through the elements [l] and arrives at [r]. *)
Fixpoint chain (q : queue) (p : option qid) (l : list qid) (r : option qid) : Prop :=
  match l with
  | [] => p = r
  | e :: l => p = Some e /\ chain q (next_of q e) l r
  end.

(** The elements reached from [first] are those of [l], each linked once and pushed. *)
Record linked (q : queue) (l : list qid) : Prop := {
  linked_chain : chain q (first q) l None;
  linked_nodup : NoDup l;
  linked_cancel : forall e, e ∈ l -> cancellable (elem_of_queue q e) = true;
}.

(** ... and [last] points to the last of them. *)
Definition represents (q : queue) (l : list qid) : Prop :=
  linked q l /\ forall l' e, l = l' ++ [e] -> last q = Some e.

Lemma elem_set_next q e n f :
  elem_of_queue (set_next e n q) f =
  if decide (e = f) then QueueElem n (cancellable (elem_of_queue q e)) else elem_of_queue q f.
Proof.
  unfold elem_of_queue, set_next; simpl. rewrite lookup_insert. by destruct (decide (e = f)).
Qed.

Lemma elem_set_cancel q e f :
  elem_of_queue (set_cancel e q) f =
  if decide (e = f) then QueueElem (next_of q e) true else elem_of_queue q f.
Proof.
  unfold elem_of_queue, set_cancel; simpl. rewrite lookup_insert. by destruct (decide (e = f)).
Qed.

Lemma next_set_next q e n f : next_of (set_next e n q) f = if decide (e = f) then n else next_of q f.
Proof. unfold next_of. rewrite elem_set_next. by destruct (decide (e = f)). Qed.

Lemma next_set_cancel q e f : next_of (set_cancel e q) f = next_of q f.
Proof. unfold next_of at 1. rewrite elem_set_cancel. by destruct (decide (e = f)) as [<-|]. Qed.

(** A chain depends only on the next pointers of its elements. *)
Lemma chain_ext q q' p l r :
  (forall e, e ∈ l -> next_of q' e = next_of q e) -> chain q p l r -> chain q' p l r.
Proof.
  revert p. induction l as [|e l IH]; intros p E; simpl; [done|]. intros [-> H].
  split; [done|]. rewrite E by left. apply IH; [|done]. intros f Hf. apply E. by right.
Qed.

Lemma chain_app q p l1 l2 r :
  chain q p (l1 ++ l2) r <-> exists m, chain q p l1 m /\ chain q m l2 r.
Proof.
  revert p. induction l1 as [|e l1 IH]; intros p; simpl.
  - naive_solver.
  - rewrite IH. naive_solver.
Qed.

Lemma chain_set_next q e n p l r :
  e ∉ l -> chain q p l r -> chain (set_next e n q) p l r.
Proof.
  intros He. apply chain_ext. intros f Hf. rewrite next_set_next.
  by destruct (decide (e = f)) as [->|].
Qed.

Lemma cancellable_set_next e n f q :
  cancellable (elem_of_queue (set_next e n q) f) = cancellable (elem_of_queue q f).
Proof. rewrite elem_set_next. by destruct (decide (e = f)) as [->|]. Qed.

(** ** The operations on the list *)

Lemma empty_spec q l : linked q l -> empty q = true <-> l = [].
Proof.
  intros [Hc _ _]. unfold empty. destruct l as [|e l]; simpl in Hc.
  - by rewrite Hc.
  - by destruct Hc as [-> _].
Qed.

Lemma head_spec q l : linked q l -> head q = hd_error l.
Proof. intros [Hc _ _]. unfold head. destruct l; simpl in *; tauto. Qed.




Lemma push_back_spec e q l :
  represents q l -> e ∉ l -> exists q', push_back e q = Some q' /\ represents q' (l ++ [e]).
Proof.
  intros [[Hc Hnd Hca] Hl] He. unfold push_back.
  assert (Hnd' : NoDup (l ++ [e])).
  { apply NoDup_app. split; [done|]. split; [|apply NoDup_singleton].
    intros f Hf. rewrite list_elem_of_singleton. by intros ->. }
  assert (Hlast : forall q1 : queue, last q1 = Some e ->
    forall l' f, l ++ [e] = l' ++ [f] -> last q1 = Some f).
  { intros q1 H l' f E. apply app_inj_tail in E as [_ <-]. done. }
  destruct l as [|d l] using rev_ind.
  - simpl in Hc. rewrite Hc. eexists. split; [done|]. split; [constructor|].
    + simpl. split; [done|]. rewrite next_set_cancel, next_set_next. by rewrite decide_True.
    + done.
    + intros f Hf. apply list_elem_of_singleton in Hf as ->. rewrite elem_set_cancel.
      by rewrite decide_True.
    + by apply Hlast.
  - clear IHl. rewrite (Hl l d eq_refl).
    assert (Hf : exists f, first q = Some f).
    { destruct l; simpl in Hc; destruct Hc as [-> _]; by eexists. }
    destruct Hf as [f Hf]. rewrite Hf. eexists. split; [done|].
    assert (Hed : e <> d) by (intros ->; apply He, elem_of_app; right; left).
    apply chain_app in Hc as (m & Hc & -> & Hd). apply NoDup_app in Hnd as (Hnl & Hdl & _).
    assert (Hdl' : d ∉ l) by (intros H; apply (Hdl _ H); left).
    assert (Hn : forall x, next_of (set_cancel e (set_next e None (set_last (Some e) (set_next d (Some e) q)))) x =
       if decide (e = x) then None else if decide (d = x) then Some e else next_of q x).
    { intros x. rewrite next_set_cancel, next_set_next.
      change (next_of (set_last ?a ?b) x) with (next_of b x). by rewrite next_set_next. }
    split; [constructor|].
    + simpl. rewrite <- app_assoc. apply chain_app. exists (Some d). split.
      * eapply chain_ext; [|exact Hc]. intros x Hx. rewrite Hn.
        rewrite decide_False by (intros ->; apply He, elem_of_app; by left).
        by rewrite decide_False by (intros ->; done).
      * simpl. rewrite !Hn. rewrite (decide_False (P:=e=d)), !decide_True by done. done.
    + done.
    + intros x Hx. rewrite elem_set_cancel. destruct (decide (e = x)); [done|].
      rewrite cancellable_set_next. change (elem_of_queue (set_last ?a ?b) x) with (elem_of_queue b x).
      rewrite cancellable_set_next. apply Hca. apply elem_of_app in Hx as [|Hx]; [done|].
      by apply list_elem_of_singleton in Hx as ->.
    + by apply Hlast.
Qed.

(** The walk finds the element and its predecessor. *)
Lemma cancel_walk_spec q e l1 l2 p prev fuel :
  chain q p (l1 ++ e :: l2) None -> e ∉ l1 -> (length l1 <= fuel)%nat ->
  cancel_walk fuel q e p prev = Done (Some e, match list.last l1 with Some d => Some d | None => prev end).
Proof.
  revert p prev fuel. induction l1 as [|d l1 IH]; intros p prev fuel; simpl.
  - intros [-> _] _ _. destruct fuel; cbn [cancel_walk]; by rewrite decide_True.
  - intros [-> Hc] He Hf. apply not_elem_of_cons in He as [Hne He].
    destruct fuel as [|fuel]; [lia|]. cbn [cancel_walk]. rewrite decide_False by done.
    rewrite IH by (done || lia). change (d :: l1) with ([d] ++ l1).
    by rewrite last_app; destruct (list.last l1).
Qed.

Lemma unlink_middle {A} `{EqDecision A} (e : A) l1 l2 :
  e ∉ l1 -> unlink e (l1 ++ e :: l2) = l1 ++ l2.
Proof.
  induction l1 as [|d l1 IH]; simpl; [by rewrite decide_True|].
  intros He. apply not_elem_of_cons in He as [Hne He]. rewrite decide_False by done. by rewrite IH.
Qed.

(** Cancelling takes the element out of the chain; [last] is left as it was. *)
Lemma cancel_spec e q l fuel :
  linked q l -> e ∈ l -> (length l <= fuel)%nat ->
  exists q', elem_cancel fuel e q = Done q' /\ linked q' (unlink e l) /\ last q' = last q.
Proof.
  intros [Hc Hnd Hca] He Hf. unfold elem_cancel, cancel_callback. rewrite Hca by done.
  apply list_elem_of_split in He as (l1 & l2 & ->).
  pose proof Hnd as Hnd2. apply NoDup_app in Hnd2 as (Hn1 & Hd & Hn2).
  assert (He1 : e ∉ l1) by (intros H; apply (Hd _ H); left).
  assert (Hnu : NoDup (l1 ++ l2)) by (rewrite <- (unlink_middle e l1 l2 He1); by apply NoDup_unlink).
  rewrite length_app in Hf. simpl in Hf. rewrite (unlink_middle e l1 l2 He1).
  rewrite (cancel_walk_spec q e l1 l2) by (done || lia).
  assert (Hsub : forall x, x ∈ l1 ++ l2 -> cancellable (elem_of_queue q x) = true).
  { intros x Hx. apply Hca. apply elem_of_app. apply elem_of_app in Hx as [|]; [by left|].
    right. by right. }
  apply chain_app in Hc as (m & Hc1 & -> & Hc2).
  destruct l1 as [|d l1 _] using rev_ind.
  - eexists. split; [done|]. split; [|done]. constructor; [by apply (chain_ext q)|done|done].
  - rewrite last_snoc. eexists. split; [done|]. split; [|done].
    apply chain_app in Hc1 as (m & Hc1 & -> & Hd1).
    apply NoDup_app in Hn1 as (Hn1 & Hd1' & _).
    assert (Hdl : d ∉ l1) by (intros H; apply (Hd1' _ H); left).
    assert (Hdl2 : d ∉ l2) by (intros H; apply (Hd d); [apply elem_of_app; right; left|by right]).
    constructor; [|done|].
    + rewrite <- app_assoc. apply chain_app. exists (Some d). split; [by apply chain_set_next|].
      simpl. rewrite next_set_next, decide_True by done. split; [done|]. by apply chain_set_next.
    + intros x Hx. rewrite cancellable_set_next. by apply Hsub.
Qed.

(** ** Sequences of operations *)












(** ** Properties *)


Definition queue_new : queue := Queue None None ∅.

Lemma queue_new_represents : represents queue_new [].
Proof.
  split; [constructor; [done|constructor|]|].
  - intros e He. by apply not_elem_of_nil in He.
  - intros [|] e; discriminate.
Qed.


(** Cancelling the last of several elements leaves [last] pointing to it, so the next element
    pushed at the back is linked after the cancelled one and lost: the queue still represents
    the shortened list, and popping never returns the new element. *)
Theorem cancel_last_loses_next_push l d e f q fuel :
  represents q (l ++ [d; e]) -> f ∉ l ++ [d; e] -> (length l + 2 <= fuel)%nat ->
  exists q1 q2, elem_cancel fuel e q = Done q1 /\ push_back f q1 = Some q2 /\
    linked q1 (l ++ [d]) /\ linked q2 (l ++ [d]).
Proof.
  intros [Hk Hl] Hf Hfu.
  assert (Hin : e ∈ l ++ [d; e]) by (apply elem_of_app; right; right; left).
  destruct (cancel_spec e q (l ++ [d; e]) fuel Hk Hin) as (q1 & E1 & Hk1 & Hl1).
  { rewrite length_app. simpl. lia. }
  assert (Hu : unlink e (l ++ [d; e]) = l ++ [d]).
  { pose proof (linked_nodup _ _ Hk) as Hnd. change (l ++ [d; e]) with (l ++ [d] ++ [e]) in *.
    rewrite app_assoc in Hnd |- *.
    rewrite (unlink_middle e (l ++ [d]) []); [by rewrite app_nil_r|].
    apply NoDup_app in Hnd as (_ & H & _). intros H'. apply (H _ H'). left. }
  rewrite Hu in Hk1. specialize (Hl (l ++ [d]) e). rewrite <- app_assoc in Hl.
  rewrite (Hl eq_refl) in Hl1.
  assert (He : e ∉ l ++ [d]).
  { rewrite <- Hu. rewrite elem_of_unlink by apply Hk. tauto. }
  assert (Hf' : f ∉ l ++ [d] /\ f <> e).
  { split; intros H; apply Hf; [|subst; done]. apply elem_of_app in H as [H|H];
      apply elem_of_app; [by left|right]. apply list_elem_of_singleton in H as ->. left. }
  exists q1. unfold push_back. rewrite Hl1.
  destruct Hk1 as [Hc Hnd Hca]. destruct (first q1) as [g|] eqn:Eg.
  2:{ by destruct l; destruct Hc. }
  eexists. split; [done|]. split; [done|]. split; [constructor; [by rewrite Eg|done|exact Hca]|].
  constructor; [|done|].
  - apply (chain_ext (set_next f None (set_next e (Some f) q1))).
    { intros x _. rewrite next_set_cancel, !next_set_next.
      change (next_of (set_last ?a ?b) x) with (next_of b x). by rewrite next_set_next. }
    simpl. rewrite Eg. apply chain_set_next; [apply Hf'|]. by apply chain_set_next.
  - intros x Hx. rewrite elem_set_cancel. destruct (decide (f = x)); [done|].
    rewrite cancellable_set_next. change (elem_of_queue (set_last ?a ?b) x) with (elem_of_queue b x).
    rewrite cancellable_set_next. by apply Hca.
Qed.

Definition queue_of (l : list qid) : queue :=
  fold_left (fun q e => default q (push_back e q)) l queue_new.

Lemma cancel_last_loses_next_push_witness :
  exists q1 q2, elem_cancel 2 2 (queue_of [1%nat; 2%nat]) = Done q1 /\ push_back 3 q1 = Some q2 /\
    linked q1 [1%nat] /\ linked q2 [1%nat].
Proof.
  apply (cancel_last_loses_next_push [] 1 2 3 (queue_of [1%nat; 2%nat]) 2).
  - destruct (push_back_spec 1 queue_new [] queue_new_represents) as (q & E & Hq).
    { apply not_elem_of_nil. }
    destruct (push_back_spec 2 q [1%nat] Hq) as (q' & E' & Hq').
    { intros H. by apply list_elem_of_singleton in H. }
    unfold queue_of. cbn [fold_left]. rewrite E. cbn [from_option id]. rewrite E'. exact Hq'.
  - intros H. cbn [app] in H. rewrite !elem_of_cons in H. destruct H as [H|[H|H]]; try discriminate.
    by apply not_elem_of_nil in H.
  - simpl. lia.
Defined.
