(* ===== verification/Io.v ===== *)
(** * IO requests (engine/include/vp/itf/io.hpp)

    The request object that masters send to slaves, the buffers its data pointer designates, and
    the interface between a slave and its masters: a request method, and [IoTarget], what a slave
    that behaves as a byte-addressable memory promises. *)

From S2P Require Import Prelude.

(** vp::io_req_status_e *)
Inductive io_req_status_e :=
  | IO_REQ_OK
  | IO_REQ_INVALID
  | IO_REQ_DENIED
  | IO_REQ_PENDING.

#[export] Instance io_req_status_e_eq_dec : EqDecision io_req_status_e.
Proof. solve_decision. Defined.

(** vp::io_req.  A pointer is its address, NULL is 0; [r_args] is the stack of saved words, its top
    first ([args] and [current_arg], at most 16 deep in the code). *)
Record io_req := IoReq {
  r_addr : Z;
  r_data : Z;
  r_size : Z;
  r_is_write : bool;
  r_debug : bool;
  r_latency : Z;
  r_duration : Z;
  r_resp_port : Z;
  r_args : list Z;
}.

Definition set_addr (v : Z) (r : io_req) : io_req :=
  IoReq v (r_data r) (r_size r) (r_is_write r) (r_debug r) (r_latency r) (r_duration r)
    (r_resp_port r) (r_args r).
Definition set_data (v : Z) (r : io_req) : io_req :=
  IoReq (r_addr r) v (r_size r) (r_is_write r) (r_debug r) (r_latency r) (r_duration r)
    (r_resp_port r) (r_args r).
Definition set_size (v : Z) (r : io_req) : io_req :=
  IoReq (r_addr r) (r_data r) v (r_is_write r) (r_debug r) (r_latency r) (r_duration r)
    (r_resp_port r) (r_args r).
Definition set_is_write (v : bool) (r : io_req) : io_req :=
  IoReq (r_addr r) (r_data r) (r_size r) v (r_debug r) (r_latency r) (r_duration r)
    (r_resp_port r) (r_args r).
Definition set_latency (v : Z) (r : io_req) : io_req :=
  IoReq (r_addr r) (r_data r) (r_size r) (r_is_write r) (r_debug r) v (r_duration r)
    (r_resp_port r) (r_args r).
Definition inc_latency (incr : Z) (r : io_req) : io_req := set_latency (r_latency r + incr) r.

(** A duration only grows. *)
Definition set_duration (duration : Z) (r : io_req) : io_req :=
  IoReq (r_addr r) (r_data r) (r_size r) (r_is_write r) (r_debug r) (r_latency r)
    (if duration >? r_duration r then duration else r_duration r) (r_resp_port r) (r_args r).
Definition get_full_latency (r : io_req) : Z := r_latency r + r_duration r.

Definition set_resp_port (v : Z) (r : io_req) : io_req :=
  IoReq (r_addr r) (r_data r) (r_size r) (r_is_write r) (r_debug r) (r_latency r) (r_duration r)
    v (r_args r).
Definition set_args (v : list Z) (r : io_req) : io_req :=
  IoReq (r_addr r) (r_data r) (r_size r) (r_is_write r) (r_debug r) (r_latency r) (r_duration r)
    (r_resp_port r) v.

Definition arg_push (arg : Z) (r : io_req) : io_req := set_args (arg :: r_args r) r.
(** Popping an empty stack reads outside the array. *)
Definition arg_pop (r : io_req) : option (Z * io_req) :=
  match r_args r with
  | [] => None
  | x :: l => Some (x, set_args l r)
  end.

Definition prepare (r : io_req) : io_req :=
  IoReq (r_addr r) (r_data r) (r_size r) (r_is_write r) false 0 0 (r_resp_port r) (r_args r).
Definition init (r : io_req) : io_req := set_args [] (prepare r).

Definition save (r : io_req) : io_req :=
  arg_push (Z.b2z (r_is_write r)) (arg_push (r_data r) (arg_push (r_size r) (arg_push (r_addr r) r))).
Definition restore (r : io_req) : option io_req :=
  let* (w, r) := arg_pop r in
  let r := set_is_write (negb (w =? 0)) r in
  let* (d, r) := arg_pop r in
  let r := set_data d r in
  let* (s, r) := arg_pop r in
  let r := set_size s r in
  let* (a, r) := arg_pop r in
  Some (set_addr a r).

(** ** The buffers of the masters, by address *)
Abbreviation host := (gmap Z Z).
Definition hget (h : host) (p : Z) : Z := default 0 (h !! p).

Fixpoint store_bytes (p : Z) (l : list Z) (h : host) : host :=
  match l with
  | [] => h
  | x :: l => store_bytes (p + 1) l (<[p := x]> h)
  end.
Definition load_bytes (p n : Z) (h : host) : list Z :=
  (fun i => hget h (p + Z.of_nat i)) <$> seq 0 (Z.to_nat n).

Lemma hget_insert h p q x : hget (<[p := x]> h) q = if q =? p then x else hget h q.
Proof.
  unfold hget. destruct (Z.eqb_spec q p) as [->|H].
  - by rewrite lookup_insert_eq.
  - by rewrite lookup_insert_ne by done.
Qed.

Lemma hget_store_bytes p l h q :
  hget (store_bytes p l h) q =
  if (p <=? q) && (q <? p + Z.of_nat (length l)) then default 0 (l !! Z.to_nat (q - p)) else hget h q.
Proof.
  revert p h. induction l as [|x l IH]; intros p h; simpl.
  - by destruct (Z.leb_spec p q), (Z.ltb_spec q (p + Z.of_nat 0)); try lia.
  - rewrite IH, hget_insert.
    destruct (Z.leb_spec (p + 1) q), (Z.ltb_spec q (p + 1 + Z.of_nat (length l))), (Z.leb_spec p q),
      (Z.ltb_spec q (p + Z.of_nat (S (length l)))), (Z.eqb_spec q p); simpl; try lia; try done.
    + replace (Z.to_nat (q - p)) with (S (Z.to_nat (q - (p + 1)))) by lia. done.
    + subst. by replace (Z.to_nat (p - p)) with O by lia.
Qed.

Lemma length_load_bytes p n h : length (load_bytes p n h) = Z.to_nat n.
Proof. unfold load_bytes. by rewrite length_fmap, length_seq. Qed.

Lemma lookup_load_bytes p n h i :
  (i < Z.to_nat n)%nat -> load_bytes p n h !! i = Some (hget h (p + Z.of_nat i)).
Proof.
  intros Hi. unfold load_bytes. rewrite list_lookup_fmap, lookup_seq_lt by done. done.
Qed.

Lemma load_bytes_ext p n h h' :
  (forall i, 0 <= i < n -> hget h' (p + i) = hget h (p + i)) -> load_bytes p n h' = load_bytes p n h.
Proof.
  intros H. apply list_fmap_ext. intros i x Hx. apply lookup_seq in Hx as [-> Hi]. apply H. lia.
Qed.

Lemma load_bytes_app p n m h :
  0 <= n -> 0 <= m -> load_bytes p (n + m) h = load_bytes p n h ++ load_bytes (p + n) m h.
Proof.
  intros Hn Hm. unfold load_bytes. rewrite Z2Nat.inj_add by done. rewrite seq_app, fmap_app. f_equal.
  apply list_eq. intros i. rewrite !list_lookup_fmap.
  destruct (decide (i < Z.to_nat m)%nat).
  - rewrite !lookup_seq_lt by done. simpl. do 2 f_equal. lia.
  - rewrite !lookup_seq_ge by lia. done.
Qed.

(** ** Slaves

    The request method of a slave with state [S]; [None] is undefined behaviour. *)
Definition io_meth (S : Type) : Type :=
  io_req -> host -> S -> option (io_req_status_e * io_req * host * S).

(** io_master::req gives the slave the port to reply on, io_master::req_forward keeps the one of the
    previous master. *)
Definition master_req {S} (slave_port : Z) (meth : io_meth S) : io_meth S :=
  fun r h s => meth (set_resp_port slave_port r) h s.
Definition req_forward {S} (meth : io_meth S) : io_meth S := meth.

(** [in_range a n b]: address [b] is one of the [n] bytes at [a]. *)
Definition in_range (a n b : Z) : bool := (a <=? b) && (b <? a + n).

(** A transfer of [n] bytes between the buffer at [d] and the memory whose byte at [a] is [rd s a]: a
    write copied the buffer to the [n] bytes at [a], a read copied them to the buffer, and nothing
    else changed.  With a NULL buffer nothing moves. *)
Definition moves {S} (rd : S -> Z -> Z) (w : bool) (a d n : Z) (h : host) (s : S) (h' : host) (s' : S) : Prop :=
  (forall b, rd s' b =
    if w && negb (d =? 0) && in_range a n b then hget h (d + (b - a)) else rd s b) /\
  (forall p, hget h' p =
    if negb w && negb (d =? 0) && in_range d n p then rd s (a + (p - d)) else hget h p).

Definition served {S} (rd : S -> Z -> Z) (r : io_req) : host -> S -> host -> S -> Prop :=
  moves rd (r_is_write r) (r_addr r) (r_data r) (r_size r).

Lemma in_range_spec a n b : reflect (a <= b < a + n) (in_range a n b).
Proof.
  unfold in_range. apply iff_reflect. by rewrite andb_true_iff, Z.leb_le, Z.ltb_lt.
Qed.

Lemma moves_null {S} (rd : S -> Z -> Z) w a n h s h' s' :
  moves rd w a 0 n h s h' s' <-> (forall b, rd s' b = rd s b) /\ (forall p, hget h' p = hget h p).
Proof. unfold moves. cbn [Z.eqb negb]. by rewrite !andb_false_r. Qed.

(** A transfer in two parts. *)
Lemma moves_split {S} (rd : S -> Z -> Z) w a d n1 n2 h s h1 s1 h2 s2 :
  0 <= d -> 0 <= n1 -> 0 <= n2 ->
  moves rd w a d n1 h s h1 s1 -> moves rd w (a + n1) (if d =? 0 then 0 else d + n1) n2 h1 s1 h2 s2 ->
  moves rd w a d (n1 + n2) h s h2 s2.
Proof.
  intros Hd H1 H2 A B. destruct (Z.eqb_spec d 0) as [->|Hne].
  - apply moves_null in A as [A1 A2], B as [B1 B2]. apply moves_null.
    split; intros x; [by rewrite B1|by rewrite B2].
  - destruct A as [A1 A2], B as [B1 B2].
   rewrite (proj2 (Z.eqb_neq (d + n1) 0)) in B1, B2 by lia. rewrite (proj2 (Z.eqb_neq d 0)) in A1, A2 by lia.
    split; intros x; rewrite (proj2 (Z.eqb_neq d 0)) by lia; destruct w; cbn [negb andb] in *.
    + rewrite B1, A1, A2.
      destruct (in_range_spec (a + n1) n2 x), (in_range_spec a n1 x), (in_range_spec a (n1 + n2) x);
        try lia; try done. f_equal. lia.
    + by rewrite B1, A1.
    + by rewrite B2, A2.
    + rewrite B2, A2, A1.
      destruct (in_range_spec (d + n1) n2 x), (in_range_spec d n1 x), (in_range_spec d (n1 + n2) x);
        try lia; try done. f_equal. lia.
Qed.

Lemma moves_nothing {S} (rd : S -> Z -> Z) w a d h s : moves rd w a d 0 h s h s.
Proof.
  split; intros x.
  - destruct (in_range_spec a 0 x); [lia|]. by rewrite andb_false_r.
  - destruct (in_range_spec d 0 x); [lia|]. by rewrite andb_false_r.
Qed.

(** The fields of a request that its master still relies on afterwards. *)
Definition same_req (r r' : io_req) : Prop :=
  r_addr r' = r_addr r /\ r_data r' = r_data r /\ r_size r' = r_size r /\
  r_is_write r' = r_is_write r /\ r_debug r' = r_debug r /\ r_args r' = r_args r.

Lemma same_req_refl r : same_req r r.
Proof. by repeat split. Qed.

Lemma same_req_trans r1 r2 r3 : same_req r1 r2 -> same_req r2 r3 -> same_req r1 r3.
Proof. intros (?&?&?&?&?&?) (?&?&?&?&?&?). repeat split; congruence. Qed.

(** A family of slaves sharing a state, each a memory on its addresses [ok i s a n] (the [n] bytes at
    [a] in state [s]), and independent: an access to one changes no byte of another. *)
Class IoTargets {I S} (meth : I -> io_meth S) (rd : I -> S -> Z -> Z)
    (ok : I -> S -> Z -> Z -> Prop) : Prop := {
  target_ok i r h s :
    ok i s (r_addr r) (r_size r) -> 0 < r_size r -> 0 <= r_data r ->
    exists r' h' s', meth i r h s = Some (IO_REQ_OK, r', h', s') /\
      same_req r r' /\ served (rd i) r h s h' s' /\
      (forall j, j <> i -> forall a, rd j s' a = rd j s a) /\
      (forall j a n, ok j s a n -> ok j s' a n);
}.

(** Restoring undoes saving. *)
Lemma restore_save r : restore (save r) = Some r.
Proof. destruct r as [a d n [] g t u p l]; reflexivity. Qed.
