(* ===== verification/Memory.v ===== *)
(** * The memory model (models/memory/memory_impl.cpp)

    An array of bytes behind an IO slave port, with a bandwidth that delays requests and an optional
    bitmap of the bytes that were written. *)

From S2P Require Import Prelude Io.

(** The fields of class memory that a request uses; [check_mem] is [None] when check is off. *)
Record memory := Memory {
  mem_size : Z;
  width_bits : Z;
  mem_data : list Z;
  check_mem : option (list Z);
  next_packet_start : Z;
  powered_up : bool;
}.

Definition set_mem_data (l : list Z) (m : memory) : memory :=
  Memory (mem_size m) (width_bits m) l (check_mem m) (next_packet_start m) (powered_up m).
Definition set_check_mem (l : option (list Z)) (m : memory) : memory :=
  Memory (mem_size m) (width_bits m) (mem_data m) l (next_packet_start m) (powered_up m).
Definition set_next_packet_start (t : Z) (m : memory) : memory :=
  Memory (mem_size m) (width_bits m) (mem_data m) (check_mem m) t (powered_up m).

(** The bandwidth: a packet starts when the previous one is over. *)
Definition account_bandwidth (cycles : Z) (r : io_req) (m : memory) : io_req * memory :=
  if width_bits m =? 0 then (r, m)
  else
    let duration := s32 (Z.max (Z.shiftr (r_size r) (width_bits m)) 1) in
    let r := set_duration duration r in
    let diff := next_packet_start m - cycles in
    let r := if 0 <? diff then inc_latency diff r else r in
    (r, set_next_packet_start (Z.max (next_packet_start m) cycles + duration) m).

(** The bits of the bytes [offset .. offset+n-1] in the bitmap. *)
Fixpoint mark_written (n : nat) (offset : Z) (l : list Z) : list Z :=
  match n with
  | O => l
  | S n =>
      mark_written n (offset + 1)
        (alter (fun b => Z.lor b (Z.shiftl 1 (offset mod 8))) (Z.to_nat (offset / 8)) l)
  end.
Definition byte_written (l : list Z) (offset : Z) : bool :=
  negb (Z.land (Z.shiftr (default 0 (l !! Z.to_nat (offset / 8))) (offset mod 8)) 1 =? 0).
Fixpoint all_written (n : nat) (offset : Z) (l : list Z) : bool :=
  match n with
  | O => true
  | S n => byte_written l offset && all_written n (offset + 1) l
  end.

(** memory::req at cycle [cycles], for sizes below 2^32.  The bound is checked on the 64-bit sum; when
    the sum wraps around, memcpy runs outside the array and the check outside the bitmap ([None]). *)
Definition memory_req (cycles : Z) : io_meth memory := fun r h m =>
  let offset := r_addr r in
  let data := r_data r in
  let size := r_size r in
  if negb (powered_up m) then Some (IO_REQ_INVALID, r, h, m)
  else
    let '(r, m) := if negb (r_debug r) then account_bandwidth cycles r m else (r, m) in
    if u64 (offset + size) >? mem_size m then Some (IO_REQ_INVALID, r, h, m)
    else if (offset + size >? mem_size m) && (negb (data =? 0) || bool_decide (is_Some (check_mem m))) then None
    else if r_is_write r then
      let m := match check_mem m with
               | Some l => set_check_mem (Some (mark_written (Z.to_nat size) offset l)) m
               | None => m
               end in
      let m := if negb (data =? 0)
               then set_mem_data (list_inserts (Z.to_nat offset) (load_bytes data size h) (mem_data m)) m
               else m in
      Some (IO_REQ_OK, r, h, m)
    else
      if match check_mem m with Some l => all_written (Z.to_nat size) offset l | None => true end then
        let h := if negb (data =? 0)
                 then store_bytes data (take (Z.to_nat size) (drop (Z.to_nat offset) (mem_data m))) h
                 else h in
        Some (IO_REQ_OK, r, h, m)
      else Some (IO_REQ_INVALID, r, h, m).

(** memory::reset *)
Definition memory_reset (active : bool) (m : memory) : memory :=
  if active then Memory (mem_size m) (width_bits m) (mem_data m) (check_mem m) 0 true else m.

(** memory::power_ctrl_sync *)
Definition power_ctrl_sync (value : bool) (m : memory) : memory :=
  Memory (mem_size m) (width_bits m) (mem_data m) (check_mem m) (next_packet_start m) value.

(** memory::start without a stimuli file.  The bitmap is allocated and not initialised: [garbage] is
    what it holds.  The last two fields are set by reset. *)
Definition memory_start (size width_bits : Z) (check : bool) (garbage : list Z) : memory :=
  Memory size width_bits (replicate (Z.to_nat size) 0x57)
    (if check then Some (take (Z.to_nat ((size + 7) / 8)) garbage) else None) 0 false.

(** ** The memory as an array of bytes *)

Definition mem_rd (m : memory) (a : Z) : Z :=
  if a <? 0 then 0 else default 0 (mem_data m !! Z.to_nat a).

Record mem_wf (m : memory) : Prop := {
  wf_size : 0 <= mem_size m < 2 ^ 64;
  wf_len : length (mem_data m) = Z.to_nat (mem_size m);
}.

(** The addresses the memory accepts. *)
Definition mem_ok (m : memory) (a n : Z) : Prop :=
  mem_wf m /\ powered_up m = true /\ check_mem m = None /\ 0 <= a /\ 0 <= n /\ a + n <= mem_size m.

Lemma account_keeps cycles r m :
  let '(r', m') := account_bandwidth cycles r m in
  same_req r r' /\ mem_data m' = mem_data m /\ mem_size m' = mem_size m /\
  check_mem m' = check_mem m /\ powered_up m' = powered_up m /\ width_bits m' = width_bits m.
Proof.
  unfold account_bandwidth. destruct (width_bits m =? 0); [done|].
  destruct (0 <? next_packet_start m - cycles); done.
Qed.

Lemma mem_rd_inserts m a l x :
  mem_wf m -> 0 <= a -> a + Z.of_nat (length l) <= mem_size m ->
  mem_rd (set_mem_data (list_inserts (Z.to_nat a) l (mem_data m)) m) x =
  if in_range a (Z.of_nat (length l)) x then default 0 (l !! Z.to_nat (x - a)) else mem_rd m x.
Proof.
  intros [Hs Hl] Ha Hb. unfold mem_rd, in_range. simpl.
  destruct (Z.ltb_spec x 0) as [Hx|Hx].
  - destruct (Z.leb_spec a x); [lia|done].
  - destruct (Z.leb_spec a x) as [H1|H1]; simpl.
    + destruct (Z.ltb_spec x (a + Z.of_nat (length l))).
      * rewrite list_lookup_inserts by lia. f_equal. f_equal. lia.
      * rewrite list_lookup_inserts_ge by lia. done.
    + rewrite list_lookup_inserts_lt by lia. done.
Qed.

(** The end of a request, once its time is accounted. *)
Lemma mem_ok_next m t a n : mem_ok m a n -> mem_ok (set_next_packet_start t m) a n.
Proof. by intros ([? ?] & ?). Qed.

Lemma account_inv cycles r m r' m' :
  account_bandwidth cycles r m = (r', m') \/ (r, m) = (r', m') ->
  same_req r r' /\ exists t, m' = set_next_packet_start t m.
Proof.
  intros [E|E].
  - unfold account_bandwidth in E. destruct (width_bits m =? 0).
    + simplify_eq. split; [by repeat split|]. exists (next_packet_start m'). by destruct m'.
    + destruct (0 <? next_packet_start m - cycles); simplify_eq; (split; [by repeat split|by eexists]).
  - simplify_eq. split; [by repeat split|]. exists (next_packet_start m'). by destruct m'.
Qed.

Lemma take_drop_lookup {A} (l : list A) a n i :
  (i < n)%nat -> take n (drop a l) !! i = l !! (a + i)%nat.
Proof. intros. by rewrite lookup_take_lt, lookup_drop by done. Qed.

Lemma memory_req_ok cycles r h m :
  mem_ok m (r_addr r) (r_size r) ->
  exists r' h' m', memory_req cycles r h m = Some (IO_REQ_OK, r', h', m') /\
    same_req r r' /\ served mem_rd r h m h' m' /\
    (forall a n, mem_ok m a n -> mem_ok m' a n).
Proof.
  intros Hok. pose proof Hok as ([Hs Hl] & Hp & Hc & Ha & Hn & Hb).
  unfold memory_req. rewrite Hp. cbn [negb].
  destruct (if negb (r_debug r) then account_bandwidth cycles r m else (r, m)) as [r0 m0] eqn:E.
  destruct (account_inv cycles r m r0 m0) as (Hr & t & ->).
  { destruct (r_debug r); [by right|by left]. }
  pose proof Hr as (Ea & Ed & Es & Ew & _). cbn [mem_size set_next_packet_start].
  assert (Hu : u64 (r_addr r + r_size r) = r_addr r + r_size r) by (apply Z.mod_small; lia).
  rewrite Hu, Z.gtb_ltb, (proj2 (Z.ltb_ge _ _)) by lia. cbn [check_mem set_next_packet_start].
  rewrite Ew, Hc. destruct (r_is_write r) eqn:W.
  - eexists _, _, _. split; [done|]. split; [done|]. split.
    + unfold served, moves. rewrite W. split; [|done]. intros a. cbn [andb].
      destruct (r_data r =? 0) eqn:D; cbn [negb andb]; [done|].
      rewrite (mem_rd_inserts (set_next_packet_start t m)); [| |lia|rewrite length_load_bytes; simpl; lia].
      2: by split.
      rewrite length_load_bytes, Z2Nat.id by lia. destruct (in_range (r_addr r) (r_size r) a) eqn:R; [|done].
      unfold in_range in R. apply andb_true_iff in R as [R1%Z.leb_le R2%Z.ltb_lt].
      rewrite lookup_load_bytes by lia. simpl. f_equal. lia.
    + intros a n Hok'. destruct Hok' as ([? ?] & ?). destruct (r_data r =? 0); cbn [negb]; [done|].
      split; [|done]. split; [done|]. simpl. by rewrite length_inserts.
  - eexists _, _, _. split; [done|]. split; [done|]. split.
    + unfold served, moves. rewrite W. split; [done|]. intros p. cbn [andb negb].
      destruct (r_data r =? 0) eqn:D; cbn [negb andb]; [done|].
      assert (Hlen : Z.of_nat (length (take (Z.to_nat (r_size r)) (drop (Z.to_nat (r_addr r)) (mem_data m)))) = r_size r).
      { rewrite length_take, length_drop. lia. }
      rewrite hget_store_bytes. cbn [mem_data set_next_packet_start]. rewrite Hlen. fold (in_range (r_data r) (r_size r) p).
      destruct (in_range (r_data r) (r_size r) p) eqn:R; [|done].
      unfold in_range in R. apply andb_true_iff in R as [R1%Z.leb_le R2%Z.ltb_lt].
      rewrite take_drop_lookup by lia. unfold mem_rd. rewrite (proj2 (Z.ltb_ge _ _)) by lia.
      do 2 f_equal. lia.
    + intros a n. apply mem_ok_next.
Qed.

#[export] Instance memory_target cycles :
  IoTargets (fun _ : unit => memory_req cycles) (fun _ => mem_rd) (fun _ => mem_ok).
Proof.
  split. intros [] r h s Hok _ _. destruct (memory_req_ok cycles r h s Hok) as (r' & h' & m' & E & Hr & Hs & Hk).
  exists r', h', m'. split; [done|]. split; [done|]. split; [done|]. split; [by intros []|].
  intros _. apply Hk.
Qed.

(** What a memory accepts it accepts in parts. *)
Lemma mem_ok_part (m : memory) a n b n' : mem_ok m a n -> a <= b -> 0 <= n' -> b + n' <= a + n -> mem_ok m b n'.
Proof. intros (? & ? & ? & ? & ? & ?) ???. repeat split; try done; try apply H; lia. Qed.

(** Several memories, by number. *)
Definition bank_req (cycles : Z) (i : Z) : io_meth (list memory) := fun r h l =>
  if i <? 0 then None
  else
    let* m := l !! Z.to_nat i in
    let* (st, r, h, m) := memory_req cycles r h m in
    Some (st, r, h, <[Z.to_nat i := m]> l).
Definition bank_rd (i : Z) (l : list memory) (a : Z) : Z :=
  if i <? 0 then 0 else match l !! Z.to_nat i with Some m => mem_rd m a | None => 0 end.
Definition bank_ok (i : Z) (l : list memory) (a n : Z) : Prop :=
  0 <= i /\ exists m, l !! Z.to_nat i = Some m /\ mem_ok m a n.

#[export] Instance bank_targets cycles : IoTargets (bank_req cycles) bank_rd bank_ok.
Proof.
  split. intros i r h l (Hi & m & Hm & Hok) _ _.
  destruct (memory_req_ok cycles r h m Hok) as (r' & h' & m' & E & Hr & [S1 S2] & Hk).
  exists r', h', (<[Z.to_nat i := m']> l). pose proof (lookup_lt_Some _ _ _ Hm) as Hlt.
  unfold bank_req. rewrite (proj2 (Z.ltb_ge i 0) Hi), Hm, E. split; [done|]. split; [done|]. split.
  { unfold served, moves, bank_rd. rewrite (proj2 (Z.ltb_ge i 0) Hi), Hm.
    rewrite list_lookup_insert_eq by done. done. }
  split.
  - intros j Hj a. unfold bank_rd. destruct (Z.ltb_spec j 0); [done|].
    by rewrite list_lookup_insert_ne by lia.
  - intros j a n (Hj & mj & Hmj & Hokj). split; [done|].
    destruct (decide (j = i)) as [->|].
    + exists m'. split; [by apply list_lookup_insert_eq|]. simplify_eq. by apply Hk.
    + exists mj. by rewrite list_lookup_insert_ne by lia.
Qed.

(** ** Reading what was written *)

Lemma memory_req_write cycles r h m st r' h' m' :
  r_is_write r = true -> memory_req cycles r h m = Some (st, r', h', m') -> h' = h.
Proof.
  intros W E. unfold memory_req in E. destruct (negb (powered_up m)); [by simplify_eq|].
  destruct (if negb (r_debug r) then account_bandwidth cycles r m else (r, m)) as [r0 m0] eqn:E0.
  destruct (account_inv cycles r m r0 m0) as ((_ & _ & _ & Ew & _) & t & ->).
  { destruct (r_debug r); [by right|by left]. }
  rewrite Ew, W in E. repeat case_match; by simplify_eq.
Qed.

(** The memory is an array of bytes: after a write request, a read of any range returns the
    written bytes where the ranges overlap and the bytes that were there before elsewhere, when
    both ranges are in the memory, and neither request fails. *)
Theorem memory_write_read cycles cycles' w r h m
    (Hw : mem_ok m (r_addr w) (r_size w)) (Hr : mem_ok m (r_addr r) (r_size r))
    (Ww : r_is_write w = true) (Wr : r_is_write r = false)
    (Dw : r_data w <> 0) (Dr : r_data r <> 0) :
  exists w' m1 r' h2 m2,
    memory_req cycles w h m = Some (IO_REQ_OK, w', h, m1) /\
    memory_req cycles' r h m1 = Some (IO_REQ_OK, r', h2, m2) /\
    forall i, 0 <= i < r_size r ->
      hget h2 (r_data r + i) =
      if in_range (r_addr w) (r_size w) (r_addr r + i)
      then hget h (r_data w + (r_addr r + i - r_addr w)) else mem_rd m (r_addr r + i).
Proof.
  destruct (memory_req_ok cycles w h m Hw) as (w' & h1 & m1 & E1 & _ & [S1 _] & K).
  assert (h1 = h) as ->.
  { by apply (memory_req_write cycles w h m IO_REQ_OK w' h1 m1). }
  destruct (memory_req_ok cycles' r h m1 (K _ _ Hr)) as (r' & h2 & m2 & E2 & _ & [_ S2] & _).
  exists w', m1, r', h2, m2. split; [done|]. split; [done|]. intros i Hi.
  rewrite S2, Wr, (proj2 (Z.eqb_neq _ _) Dr). cbn [negb andb].
  assert (in_range (r_data r) (r_size r) (r_data r + i) = true) as ->.
  { unfold in_range. apply andb_true_iff. split; [apply Z.leb_le|apply Z.ltb_lt]; lia. }
  rewrite S1, Ww, (proj2 (Z.eqb_neq _ _) Dw). cbn [negb andb].
  by replace (r_addr r + (r_data r + i - r_data r)) with (r_addr r + i) by lia.
Qed.

(** A 64-byte memory, after reset. *)
Definition demo_memory (check : bool) : memory := memory_reset true (memory_start 64 2 check (replicate 8 0)).
Definition demo_req (addr data size : Z) (is_write : bool) : io_req :=
  IoReq addr data size is_write false 0 0 0 [].

Lemma demo_memory_ok a n : 0 <= a -> 0 <= n -> a + n <= 64 -> mem_ok (demo_memory false) a n.
Proof. intros. repeat split; simpl; (done || lia). Qed.

Lemma memory_write_read_witness :
  exists w' m1 r' h2 m2,
    memory_req 0 (demo_req 8 1000 4 true) (store_bytes 1000 [1; 2; 3; 4] ∅) (demo_memory false) =
      Some (IO_REQ_OK, w', store_bytes 1000 [1; 2; 3; 4] ∅, m1) /\
    memory_req 1 (demo_req 10 2000 4 false) (store_bytes 1000 [1; 2; 3; 4] ∅) m1 =
      Some (IO_REQ_OK, r', h2, m2) /\
    forall i, 0 <= i < 4 ->
      hget h2 (2000 + i) =
      if in_range 8 4 (10 + i) then hget (store_bytes 1000 [1; 2; 3; 4] ∅) (1000 + (10 + i - 8))
      else mem_rd (demo_memory false) (10 + i).
Proof.
  apply (memory_write_read 0 1 (demo_req 8 1000 4 true) (demo_req 10 2000 4 false)
           (store_bytes 1000 [1; 2; 3; 4] ∅) (demo_memory false));
    [apply demo_memory_ok; simpl; lia|apply demo_memory_ok; simpl; lia|reflexivity|reflexivity
    |simpl; lia|simpl; lia].
Defined.

(** ** Out of bounds *)

(** A request that ends after the memory is answered IO_REQ_INVALID and moves no byte, as long
    as the end does not wrap around 2^64; a request whose end does wrap around to an address in
    the memory passes the check and, with a buffer, copies outside the array. *)
Theorem memory_bounds cycles r h m
    (Hm : mem_wf m) (Hp : powered_up m = true) (Ha : 0 <= r_addr r < 2 ^ 64) (Hn : 0 <= r_size r < 2 ^ 64)
    (Hd : r_data r <> 0) (Hend : mem_size m < r_addr r + r_size r) :
  if (r_addr r + r_size r <? 2 ^ 64) || (mem_size m <? r_addr r + r_size r - 2 ^ 64)
  then exists r' t, memory_req cycles r h m = Some (IO_REQ_INVALID, r', h, set_next_packet_start t m)
  else memory_req cycles r h m = None.
Proof.
  unfold memory_req. rewrite Hp. cbn [negb].
  destruct (if negb (r_debug r) then account_bandwidth cycles r m else (r, m)) as [r0 m0] eqn:E.
  destruct (account_inv cycles r m r0 m0) as (Hr & t & ->).
  { destruct (r_debug r); [by right|by left]. }
  cbn [mem_size set_next_packet_start]. rewrite (proj2 (Z.eqb_neq (r_data r) 0) Hd). cbn [negb orb].
  assert (Hu : u64 (r_addr r + r_size r) =
    if r_addr r + r_size r <? 2 ^ 64 then r_addr r + r_size r else r_addr r + r_size r - 2 ^ 64).
  { unfold uw. destruct (Z.ltb_spec (r_addr r + r_size r) (2 ^ 64)).
    - apply Z.mod_small. lia.
    - symmetry. apply (Z.mod_unique _ _ 1); lia. }
  rewrite Hu, !Z.gtb_ltb, (proj2 (Z.ltb_lt (mem_size m) _) Hend).
  destruct (Z.ltb_spec (r_addr r + r_size r) (2 ^ 64)); cbn [orb].
  - rewrite (proj2 (Z.ltb_lt (mem_size m) _) Hend). by eexists _, _.
  - destruct (Z.ltb_spec (mem_size m) (r_addr r + r_size r - 2 ^ 64)); [by eexists _, _|done].
Qed.

Lemma memory_bounds_witness :
  memory_req 0 (demo_req (2 ^ 64 - 1) 1000 2 false) ∅ (demo_memory false) = None.
Proof.
  apply (memory_bounds 0 (demo_req (2 ^ 64 - 1) 1000 2 false) ∅ (demo_memory false));
    [split; simpl; lia|reflexivity|simpl; lia|simpl; lia|done|simpl; lia].
Defined.

(** ** The bitmap of written bytes *)

Lemma byte_written_testbit l a :
  byte_written l a = Z.testbit (default 0 (l !! Z.to_nat (a / 8))) (a mod 8).
Proof.
  unfold byte_written. pose proof (Z.mod_pos_bound a 8 ltac:(lia)).
  change 1 with (Z.ones 1). rewrite Z.land_ones by lia. change (2 ^ 1) with 2.
  rewrite <- Z.bit0_mod, Z.shiftr_spec by lia. by destruct (Z.testbit _ _).
Qed.

Lemma mark_one l o a :
  0 <= o -> 0 <= a -> o / 8 < Z.of_nat (length l) ->
  byte_written (alter (fun b => Z.lor b (Z.shiftl 1 (o mod 8))) (Z.to_nat (o / 8)) l) a =
  (a =? o) || byte_written l a.
Proof.
  intros Ho Ha Hl. rewrite !byte_written_testbit.
  pose proof (Z.mod_pos_bound o 8 ltac:(lia)). pose proof (Z.mod_pos_bound a 8 ltac:(lia)).
  pose proof (Z.div_pos o 8 Ho ltac:(lia)). pose proof (Z.div_pos a 8 Ha ltac:(lia)).
  pose proof (Z.div_mod o 8 ltac:(lia)). pose proof (Z.div_mod a 8 ltac:(lia)).
  destruct (decide (a / 8 = o / 8)) as [E|E].
  - rewrite E, list_lookup_alter_eq.
    destruct (lookup_lt_is_Some_2 l (Z.to_nat (o / 8))) as [b ->]; [lia|]. simpl.
    rewrite Z.lor_spec, orb_comm. f_equal. rewrite Z.shiftl_1_l, Z.pow2_bits_eqb by lia.
    destruct (Z.eqb_spec (o mod 8) (a mod 8)), (Z.eqb_spec a o); (done || lia).
  - rewrite list_lookup_alter_ne by lia. destruct (Z.eqb_spec a o); [subst; lia|done].
Qed.

Lemma mark_written_spec n o l a :
  0 <= o -> 0 <= a -> o + Z.of_nat n <= 8 * Z.of_nat (length l) ->
  byte_written (mark_written n o l) a = in_range o (Z.of_nat n) a || byte_written l a.
Proof.
  intros Ho Ha. revert o l Ho. induction n as [|n IH]; intros o l Ho Hl.
  - unfold in_range. cbn [mark_written]. by destruct (Z.leb_spec o a), (Z.ltb_spec a (o + Z.of_nat 0)); try lia.
  - simpl. rewrite IH, mark_one; [|lia|lia| |lia|rewrite length_alter; lia].
    + unfold in_range. destruct (Z.leb_spec (o + 1) a), (Z.ltb_spec a (o + 1 + Z.of_nat n)),
        (Z.leb_spec o a), (Z.ltb_spec a (o + Z.of_nat (S n))), (Z.eqb_spec a o); simpl; (done || lia).
    + apply Z.div_lt_upper_bound; lia.
Qed.

Lemma all_written_spec n o l :
  all_written n o l = true <-> forall a, o <= a < o + Z.of_nat n -> byte_written l a = true.
Proof.
  revert o. induction n as [|n IH]; intros o; simpl.
  - split; [lia|done].
  - rewrite andb_true_iff, IH. split.
    + intros [H1 H2] a Ha. destruct (decide (a = o)) as [->|]; [done|]. apply H2. lia.
    + intros H. split; [apply H; lia|]. intros a Ha. apply H. lia.
Qed.

(** With the check option, a write in bounds marks exactly its bytes as written, and a read in
    bounds succeeds when every one of its bytes is marked and is answered IO_REQ_INVALID, copying
    nothing, when one is not. *)
Theorem memory_check_mode cycles r h m l
    (Hm : mem_wf m) (Hp : powered_up m = true) (Hc : check_mem m = Some l)
    (Hl : length l = Z.to_nat ((mem_size m + 7) / 8))
    (Ha : 0 <= r_addr r) (Hn : 0 <= r_size r) (Hend : r_addr r + r_size r <= mem_size m) :
  exists st r' h' m' l', memory_req cycles r h m = Some (st, r', h', m') /\ check_mem m' = Some l' /\
    (if r_is_write r
     then st = IO_REQ_OK /\
       forall a, 0 <= a -> byte_written l' a = in_range (r_addr r) (r_size r) a || byte_written l a
     else l' = l /\ mem_data m' = mem_data m /\
       (st = IO_REQ_OK <-> forall a, in_range (r_addr r) (r_size r) a = true -> byte_written l a = true) /\
       (st <> IO_REQ_OK -> st = IO_REQ_INVALID /\ h' = h)).
Proof.
  unfold memory_req. rewrite Hp. cbn [negb].
  destruct (if negb (r_debug r) then account_bandwidth cycles r m else (r, m)) as [r0 m0] eqn:E.
  destruct (account_inv cycles r m r0 m0) as ((_ & _ & _ & Ew & _) & t & ->).
  { destruct (r_debug r); [by right|by left]. }
  destruct Hm as [Hs Hlen]. cbn [mem_size set_next_packet_start].
  assert (Hu : u64 (r_addr r + r_size r) = r_addr r + r_size r) by (apply Z.mod_small; lia).
  rewrite Hu, Z.gtb_ltb, (proj2 (Z.ltb_ge _ _)) by lia. cbn [check_mem set_next_packet_start].
  rewrite Ew, Hc. destruct (r_is_write r).
  - eexists _, _, _, _, _. split; [done|]. split; [by destruct (r_data r =? 0)|]. split; [done|].
    intros a Ha'. rewrite mark_written_spec; [by rewrite Z2Nat.id by lia|lia|lia|].
    rewrite Z2Nat.id by lia. pose proof (Z.div_mod (mem_size m + 7) 8 ltac:(lia)).
    pose proof (Z.mod_pos_bound (mem_size m + 7) 8 ltac:(lia)). lia.
  - pose proof (all_written_spec (Z.to_nat (r_size r)) (r_addr r) l) as Hall. rewrite Z2Nat.id in Hall by lia.
    assert (Hall' : all_written (Z.to_nat (r_size r)) (r_addr r) l = true <->
      (forall a, in_range (r_addr r) (r_size r) a = true -> byte_written l a = true)).
    { rewrite Hall. unfold in_range. setoid_rewrite andb_true_iff. setoid_rewrite Z.leb_le. by setoid_rewrite Z.ltb_lt. }
    clear Hall. destruct (all_written (Z.to_nat (r_size r)) (r_addr r) l);
      (eexists _, _, _, _, _; split; [done|]; split; [done|]; split; [done|]; split; [done|]; split).
    + split; [intros _; by apply Hall'|done].
    + done.
    + split; [done|]. intros H. by apply Hall' in H.
    + done.
Qed.

Lemma memory_check_mode_witness :
  exists st r' h' m' l', memory_req 0 (demo_req 4 1000 2 true) ∅ (demo_memory true) = Some (st, r', h', m') /\
    check_mem m' = Some l' /\ st = IO_REQ_OK /\
    forall a, 0 <= a -> byte_written l' a = in_range 4 2 a || byte_written (replicate 8 0) a.
Proof.
  apply (memory_check_mode 0 (demo_req 4 1000 2 true) ∅ (demo_memory true) (replicate 8 0));
    [split; simpl; lia|reflexivity|reflexivity|reflexivity|simpl; lia|simpl; lia|simpl; lia].
Defined.

(** ** The bandwidth *)

(** A sequence of requests, each at its cycle: when each one's packet starts (its cycle plus the
    latency the memory adds) and stops. *)
Fixpoint packets (l : list (Z * io_req)) (h : host) (m : memory) : option (list (Z * Z)) :=
  match l with
  | [] => Some []
  | (cycles, r) :: l =>
      let* (_, r', h, m) := memory_req cycles r h m in
      let start := cycles + (r_latency r' - r_latency r) in
      let* p := packets l h m in
      Some ((start, start + Z.max (Z.shiftr (r_size r) (width_bits m)) 1) :: p)
  end.

(** One packet at a time, in order, each as soon as it is there and the port is free. *)
Fixpoint schedule (free : Z) (l : list (Z * Z)) : list (Z * Z) :=
  match l with
  | [] => []
  | (cycle, duration) :: l =>
      let start := Z.max free cycle in (start, start + duration) :: schedule (start + duration) l
  end.

Definition packet_ok (m : memory) (p : Z * io_req) : Prop :=
  r_debug p.2 = false /\ mem_ok m (r_addr p.2) (r_size p.2) /\
  Z.max (Z.shiftr (r_size p.2) (width_bits m)) 1 < 2 ^ 31.

Lemma memory_req_time cycles r h m :
  width_bits m <> 0 -> packet_ok m (cycles, r) ->
  exists r' h' m', memory_req cycles r h m = Some (IO_REQ_OK, r', h', m') /\
    width_bits m' = width_bits m /\
    next_packet_start m' = Z.max (next_packet_start m) cycles + Z.max (Z.shiftr (r_size r) (width_bits m)) 1 /\
    cycles + (r_latency r' - r_latency r) = Z.max (next_packet_start m) cycles /\
    (forall a n, mem_ok m a n -> mem_ok m' a n).
Proof.
  intros Hw (Hd & Hok & Hdur). simpl in *.
  destruct (memory_req_ok cycles r h m Hok) as (r' & h' & m' & E & _ & _ & K).
  exists r', h', m'. split; [done|]. enough (width_bits m' = width_bits m /\
    next_packet_start m' = Z.max (next_packet_start m) cycles + Z.max (Z.shiftr (r_size r) (width_bits m)) 1 /\
    cycles + (r_latency r' - r_latency r) = Z.max (next_packet_start m) cycles) by tauto.
  destruct Hok as ([Hs Hl] & Hp & Hc & Ha & Hn & Hb).
  assert (Hu : u64 (r_addr r + r_size r) = r_addr r + r_size r) by (apply Z.mod_small; lia).
  assert (Hs32 : s32 (Z.max (Z.shiftr (r_size r) (width_bits m)) 1) = Z.max (Z.shiftr (r_size r) (width_bits m)) 1)
    by (apply sw_small; simpl; lia).
  unfold memory_req, account_bandwidth in E. rewrite Hp, Hd, (proj2 (Z.eqb_neq _ _) Hw) in E.
  cbn [negb] in E. rewrite Hs32 in E.
  destruct (Z.ltb_spec 0 (next_packet_start m - cycles)); cbn [set_next_packet_start mem_size check_mem] in E;
    rewrite Hu, Z.gtb_ltb, (proj2 (Z.ltb_ge _ _)) in E by lia; rewrite Hc in E; cbn in E;
    (destruct (r_is_write r); simplify_eq; [destruct (negb (r_data r =? 0))|]; simpl; lia).
Qed.

(** The memory serves one packet at a time: for requests that are not debug accesses, in any
    number and at any cycles, the start and end cycles of their packets are those of a port that
    serves them in order, each starting when it arrives or when the previous one ends, and lasting
    size / 2^width_bits cycles, at least one. *)
Theorem memory_bandwidth l h m
    (Hw : width_bits m <> 0) (Hok : Forall (packet_ok m) l) :
  packets l h m = Some (schedule (next_packet_start m)
    ((fun p => (p.1, Z.max (Z.shiftr (r_size p.2) (width_bits m)) 1)) <$> l)).
Proof.
  revert h m Hw Hok. induction l as [|[c r] l IH]; intros h m Hw Hok; [done|].
  apply Forall_cons in Hok as [H1 Hok].
  destruct (memory_req_time c r h m Hw H1) as (r' & h' & m' & E & W & N & L & K).
  simpl. rewrite E, (IH h' m'), W, N, L; [done|by rewrite W|].
  eapply Forall_impl; [exact Hok|]. intros [c' r''] (? & ? & ?). split; [done|].
  split; [by apply K|]. simpl. by rewrite W.
Qed.

Lemma memory_bandwidth_witness :
  packets [(5, demo_req 0 1000 16 true); (6, demo_req 16 1000 8 true); (20, demo_req 0 2000 2 false)] ∅
    (demo_memory false) = Some [(5, 9); (9, 11); (20, 21)].
Proof.
  apply (memory_bandwidth [(5, demo_req 0 1000 16 true); (6, demo_req 16 1000 8 true); (20, demo_req 0 2000 2 false)]
           ∅ (demo_memory false)); [simpl; lia|].
  repeat apply Forall_cons_2; [..|apply Forall_nil_2];
    (split; [reflexivity|]; split; [apply demo_memory_ok; simpl; lia|vm_compute; reflexivity]).
Defined.
