(* ===== verification/Interleaver.v ===== *)
(** * The interleaver (models/interco/interleaver_impl.cpp)

    Consecutive blocks of 2^interleaving_bits bytes go to consecutive slaves.  A request is cut at
    the block boundaries and forwarded piece by piece. *)

From S2P Require Import Prelude Io Memory.

(** The fields set by interleaver::build. *)
Record interleaver := Interleaver {
  nb_slaves : Z;
  interleaving_bits : Z;
  stage_bits : Z;
  offset_mask : Z;
  remove_offset : Z;
}.

(** interleaver::build, from the properties of the configuration. *)
Definition interleaver_build (nb_slaves stage_bits interleaving_bits remove_offset : Z) : interleaver :=
  let stage_bits := if stage_bits =? 0 then Z.log2 nb_slaves else stage_bits in
  Interleaver nb_slaves interleaving_bits stage_bits
    (u64 (Z.land (-1) (Z.lnot (Z.shiftl 1 (interleaving_bits + stage_bits) - 1)))) remove_offset.

Section Interleaver.
Context (il : interleaver) {S : Type} (out : Z -> io_meth S).

(** Where a block offset goes. *)
Definition output_id (offset : Z) : Z :=
  Z.land (Z.shiftr offset (interleaving_bits il)) (Z.shiftl 1 (stage_bits il) - 1).
Definition new_offset (offset : Z) : Z :=
  u64 (Z.shiftr (Z.land offset (offset_mask il)) (stage_bits il) +
       Z.land offset (Z.shiftl 1 (interleaving_bits il) - 1)).

(** The loop of interleaver::req; each turn forwards at least one byte, so [size] turns are enough.
    [None] stands for undefined behaviour (an output that does not exist). *)
Fixpoint interleaver_loop (fuel : nat) (align_size offset size data : Z) (r : io_req) (h : host) (s : S) :
    option (io_req_status_e * io_req * host * S) :=
  if size =? 0 then Some (IO_REQ_OK, r, h, s)
  else
    match fuel with
    | O => None
    | Datatypes.S fuel =>
        let loop_size := if negb (align_size =? 0) then align_size else Z.shiftl 1 (interleaving_bits il) in
        let loop_size := if loop_size >? size then size else loop_size in
        let id := output_id offset in
        if negb (id <? nb_slaves il) then None
        else
          let r := set_data data (set_size loop_size (set_addr (new_offset offset) r)) in
          let* (err, r, h, s) := req_forward (out id) r h s in
          match err with
          | IO_REQ_OK =>
              interleaver_loop fuel 0 (u64 (offset + loop_size)) (size - loop_size)
                (if negb (data =? 0) then data + loop_size else data) r h s
          | IO_REQ_PENDING =>
              Some (if size =? loop_size then IO_REQ_PENDING else IO_REQ_INVALID, r, h, s)
          | _ => Some (IO_REQ_INVALID, r, h, s)
          end
    end.

(** interleaver::req *)
Definition interleaver_req : io_meth S := fun r h s =>
  let init_offset := r_addr r in
  let init_data := r_data r in
  let init_size := r_size r in
  let port_size := Z.shiftl 1 (interleaving_bits il) in
  let align_size := Z.land init_offset (port_size - 1) in
  let align_size := if negb (align_size =? 0) then port_size - align_size else align_size in
  let offset := u64 (init_offset - remove_offset il) in
  let* (err, r, h, s) := interleaver_loop (Z.to_nat init_size) align_size offset init_size init_data r h s in
  match err with
  | IO_REQ_OK =>
      Some (IO_REQ_OK, set_data init_data (set_size init_size (set_addr init_offset r)), h, s)
  | _ => Some (err, r, h, s)
  end.
End Interleaver.

(** ** The address map *)

(** An interleaver as built, over [2 ^ stage_bits] slaves of [bank] bytes each, a whole number of
    blocks; the whole fits in 63 bits. *)
Record il_wf (il : interleaver) (bank : Z) : Prop := {
  il_mask : offset_mask il = u64 (Z.lnot (2 ^ (interleaving_bits il + stage_bits il) - 1));
  il_bits : 0 <= interleaving_bits il /\ 0 <= stage_bits il /\ interleaving_bits il + stage_bits il < 31;
  il_slaves : 2 ^ stage_bits il <= nb_slaves il;
  il_bank : 0 < bank /\ bank mod 2 ^ interleaving_bits il = 0;
  il_remove : 0 <= remove_offset il /\ remove_offset il mod 2 ^ interleaving_bits il = 0;
  il_total : remove_offset il + 2 ^ stage_bits il * bank < 2 ^ 63;
}.

Lemma build_wf nb sb ib ro bank :
  0 <= ib -> 0 <= sb -> ib + (if sb =? 0 then Z.log2 nb else sb) < 31 -> 0 < nb ->
  2 ^ sb <= nb -> 0 < bank -> bank mod 2 ^ ib = 0 -> 0 <= ro -> ro mod 2 ^ ib = 0 ->
  ro + 2 ^ (if sb =? 0 then Z.log2 nb else sb) * bank < 2 ^ 63 ->
  il_wf (interleaver_build nb sb ib ro) bank.
Proof.
  intros Hib Hsb Hlt Hnb Hs Hb Hbm Hr Hrm Ht. pose proof (Z.log2_spec nb Hnb). pose proof (Z.log2_nonneg nb).
  unfold interleaver_build. split; simpl; try done.
  - rewrite Z.land_m1_l, Z.shiftl_1_l. done.
  - destruct (sb =? 0); lia.
  - destruct (sb =? 0); lia.
Qed.

Section Map.
Context (il : interleaver) (bank : Z) (Hwf : il_wf il bank).
Let P := 2 ^ interleaving_bits il.
Let N := 2 ^ stage_bits il.

Lemma PN_pos : 0 < P /\ 0 < N /\ 2 ^ (interleaving_bits il + stage_bits il) = P * N.
Proof.
  destruct Hwf as [_ (?&?&?) _ _ _ _]. unfold P, N. rewrite Z.pow_add_r by lia.
  split; [apply Z.pow_pos_nonneg; lia|]. split; [apply Z.pow_pos_nonneg; lia|]. lia.
Qed.

Lemma output_id_spec off : 0 <= off -> output_id il off = (off / P) mod N.
Proof.
  intros Ho. destruct Hwf as [_ (?&?&?) _ _ _ _]. unfold output_id.
  rewrite Z.shiftl_1_l.
  replace (2 ^ stage_bits il - 1) with (Z.ones (stage_bits il)) by (rewrite Z.ones_equiv; lia).
  rewrite Z.land_ones, Z.shiftr_div_pow2 by lia. done.
Qed.

Lemma new_offset_spec off : 0 <= off < 2 ^ 63 -> new_offset il off = off / (P * N) * P + off mod P.
Proof.
  intros Ho. destruct PN_pos as (HP & HN & HPN). destruct Hwf as [Hm (?&?&?) _ _ _ _]. unfold new_offset.
  rewrite Hm, Z.shiftl_1_l.
  replace (2 ^ interleaving_bits il - 1) with (Z.ones (interleaving_bits il)) by (rewrite Z.ones_equiv; lia).
  rewrite Z.land_ones by lia. fold P.
  assert (E : Z.shiftr (Z.land off (u64 (Z.lnot (2 ^ (interleaving_bits il + stage_bits il) - 1)))) (stage_bits il)
              = off / (P * N) * P).
  { replace (2 ^ (interleaving_bits il + stage_bits il) - 1) with (Z.ones (interleaving_bits il + stage_bits il))
      by (rewrite Z.ones_equiv; lia).
    assert (E2 : Z.land off (u64 (Z.lnot (Z.ones (interleaving_bits il + stage_bits il)))) =
      Z.ldiff off (Z.ones (interleaving_bits il + stage_bits il))).
    { apply Z.bits_inj'. intros k Hk. rewrite Z.land_spec, Z.ldiff_spec, uw_testbit, Z.lnot_spec by lia.
      destruct (Z.ltb_spec k 64); [done|]. rewrite (testbit_above 64 off k); [done|lia|lia]. }
    rewrite E2, Z.ldiff_ones_r, Z.shiftr_div_pow2, Z.shiftl_mul_pow2 by lia.
    rewrite Z.shiftr_div_pow2 by lia. fold N. rewrite HPN. replace (off / (P * N) * (P * N)) with (off / (P * N) * P * N) by ring.
    by rewrite Z.div_mul by lia. }
  rewrite E. apply Z.mod_small.
  pose proof (Z.mod_pos_bound off P HP). pose proof (Z.div_pos off (P * N) ltac:(lia) ltac:(nia)).
  pose proof (Z.mul_div_le off (P * N) ltac:(nia)).
  assert (P < 2 ^ 31) by (apply Z.pow_lt_mono_r; lia). nia.
Qed.

(** The bytes of a piece of a block are bytes of one slave, at consecutive addresses. *)
Lemma piece off len b :
  0 <= off -> 0 < len -> off mod P + len <= P -> 0 <= b < 2 ^ 63 -> off < 2 ^ 63 ->
  (output_id il b = output_id il off /\ in_range (new_offset il off) len (new_offset il b) = true <->
   in_range off len b = true) /\
  (in_range off len b = true -> new_offset il b - new_offset il off = b - off).
Proof.
  intros Ho Hl Hp Hb Ho'. destruct PN_pos as (HP & HN & _).
  rewrite !output_id_spec, !new_offset_spec by lia.
  rewrite <- !Z.div_div by lia. pose proof (Z.div_mod b P ltac:(lia)) as Eb.
  pose proof (Z.div_mod off P ltac:(lia)) as Eo.
  pose proof (Z.mod_pos_bound b P HP). pose proof (Z.mod_pos_bound off P HP).
  set (B := b / P) in *. set (O := off / P) in *. set (rb := b mod P) in *. set (ro := off mod P) in *.
  assert (Hsame : off <= b < off + len -> B = O) by nia.
  split; [split|].
  - intros [Hport Hloc]. destruct (in_range_spec (O / N * P + ro) len (B / N * P + rb)) as [Hr|]; [|done].
    destruct (in_range_spec off len b) as [|Hn]; [done|]. exfalso.
    pose proof (Z.div_mod B N ltac:(lia)). pose proof (Z.div_mod O N ltac:(lia)).
    assert (B / N = O / N) by nia. assert (B = O) by congruence. nia.
  - intros Hr. destruct (in_range_spec off len b) as [Hin|]; [|done]. rewrite (Hsame Hin) in *.
    split; [done|]. destruct (in_range_spec (O / N * P + ro) len (O / N * P + rb)); [done|]. nia.
  - intros Hr. destruct (in_range_spec off len b) as [Hin|]; [|done]. rewrite (Hsame Hin) in *. nia.
Qed.

Lemma piece_fits off len :
  0 <= off -> off mod P + len <= P -> off < N * bank -> N * bank < 2 ^ 63 -> 
  0 <= new_offset il off /\ new_offset il off + len <= bank /\ 0 <= output_id il off < N.
Proof.
  intros Ho Hp Hlt Hmax. destruct PN_pos as (HP & HN & _).
  rewrite output_id_spec, new_offset_spec by lia. destruct Hwf as [_ _ _ [Hb Hbm] _ _]. fold P in Hbm.
  pose proof (Z.mod_pos_bound off P HP).
  pose proof (Z.div_pos off (P * N) Ho ltac:(nia)). split; [nia|]. split; [|apply Z.mod_pos_bound; lia].
  pose proof (Z.div_mod bank P ltac:(lia)) as Eb. rewrite Hbm in Eb.
  assert (off / (P * N) < bank / P).
  { apply Z.div_lt_upper_bound; [nia|]. nia. }
  nia.
Qed.
End Map.

(** ** The flat memory of an interleaver

    When the slaves are memories, so is the interleaver. *)
Section Flat.
Context (il : interleaver) (bank : Z) (Hwf : il_wf il bank).
Context {S : Type} (out : Z -> io_meth S) (rd : Z -> S -> Z -> Z) (ok : Z -> S -> Z -> Z -> Prop).
Context `{!IoTargets out rd ok}.
Let N := 2 ^ stage_bits il.
Let P := 2 ^ interleaving_bits il.

Definition il_rd (s : S) (a : Z) : Z :=
  let off := a - remove_offset il in
  if in_range 0 (2 ^ stage_bits il * bank) off then rd (output_id il off) s (new_offset il off) else 0.

(** Every slave accepts the addresses of its bank. *)
Definition banks_ok (s : S) : Prop :=
  forall i a n, 0 <= i < 2 ^ stage_bits il -> 0 <= a -> 0 <= n -> a + n <= bank -> ok i s a n.

Definition il_ok (s : S) (a n : Z) : Prop :=
  banks_ok s /\ remove_offset il <= a /\ 0 <= n /\ a + n <= remove_offset il + 2 ^ stage_bits il * bank.

Lemma piece_moves w off d len h s h' s' :
  0 <= off -> 0 < len -> off mod P + len <= P -> off + len <= N * bank ->
  moves (rd (output_id il off)) w (new_offset il off) d len h s h' s' ->
  (forall j, j <> output_id il off -> forall a, rd j s' a = rd j s a) ->
  moves il_rd w (remove_offset il + off) d len h s h' s'.
Proof.
  intros Ho Hl Hp Hb [M1 M2] Hf.
  assert (Hmax : N * bank < 2 ^ 63) by (destruct Hwf as [_ _ _ _ [? _] ?]; unfold N; lia).
  split.
  - intros b. unfold il_rd. set (o := b - remove_offset il).
    replace (in_range (remove_offset il + off) len b) with (in_range off len o)
      by (unfold o; destruct (in_range_spec off len (b - remove_offset il)), (in_range_spec (remove_offset il + off) len b); try done; lia).
    replace (b - (remove_offset il + off)) with (o - off) by (unfold o; lia).
    fold N. destruct (in_range_spec 0 (N * bank) o) as [Hin|Hout].
    + destruct (piece il bank Hwf off len o) as [Hiff Hdiff]; [done|done|done|lia|lia|].
      destruct (decide (output_id il o = output_id il off)) as [E|E].
      * rewrite E, M1. destruct (in_range off len o) eqn:R.
        -- destruct (proj2 Hiff eq_refl) as [_ R']. rewrite R', (Hdiff eq_refl). done.
        -- destruct (in_range (new_offset il off) len (new_offset il o)); [|by rewrite !andb_false_r].
           by assert (false = true) by by apply Hiff.
      * rewrite Hf by done. destruct (in_range off len o); [|by rewrite andb_false_r].
        by destruct (proj2 Hiff eq_refl).
    + destruct (in_range_spec off len o); [lia|]. by rewrite andb_false_r.
  - intros p. rewrite M2. destruct (in_range_spec d len p) as [Hin|]; [|rewrite !andb_false_r; done].
    destruct (negb w && negb (d =? 0) && true); [|done].
    unfold il_rd. replace (remove_offset il + off + (p - d) - remove_offset il) with (off + (p - d)) by lia.
    fold N. destruct (in_range_spec 0 (N * bank) (off + (p - d))); [|lia].
    destruct (piece il bank Hwf off len (off + (p - d))) as [Hiff Hdiff]; [done|done|done|lia|lia|].
    assert (R : in_range off len (off + (p - d)) = true) by (destruct (in_range_spec off len (off + (p - d))); [done|lia]).
    destruct (proj2 Hiff R) as [-> _]. f_equal. specialize (Hdiff R). lia.
Qed.

Lemma banks_ok_keep s s' : (forall j a n, ok j s a n -> ok j s' a n) -> banks_ok s -> banks_ok s'.
Proof. intros Hk Hb i a n ????. by apply Hk, Hb. Qed.

(** The bytes of the next piece: up to the end of the block. *)
Definition piece_size (off size : Z) : Z := Z.min (P - off mod P) size.

(** The alignment variable says where the block ends. *)
Definition aligned (align_size off size : Z) : Prop :=
  size = 0 \/ (align_size = 0 /\ off mod P = 0) \/ (align_size <> 0 /\ align_size = P - off mod P).

Lemma aligned_piece align off size :
  aligned align off size -> 0 < size ->
  (let l := if negb (align =? 0) then align else Z.shiftl 1 (interleaving_bits il) in
   if l >? size then size else l) = piece_size off size.
Proof.
  intros Ha Hs. unfold piece_size. cbv zeta. rewrite Z.shiftl_1_l. fold P.
  destruct Ha as [?|[[-> Hm]|[Hne ->]]]; [lia| |].
  - cbn [Z.eqb negb]. rewrite Hm, Z.gtb_ltb. destruct (Z.ltb_spec size P); lia.
  - rewrite (proj2 (Z.eqb_neq _ _) Hne). cbn [negb]. rewrite Z.gtb_ltb.
    destruct (Z.ltb_spec size (P - off mod P)); lia.
Qed.

Lemma aligned_next off size : 0 <= off -> 0 < P -> aligned 0 (off + piece_size off size) (size - piece_size off size).
Proof.
  intros Ho HP. unfold aligned, piece_size. destruct (Z.min_spec (P - off mod P) size) as [[? ->]|[? ->]]; [|left; lia].
  right. left. split; [done|].
  replace (off + (P - off mod P)) with ((off / P + 1) * P) by (pose proof (Z.div_mod off P ltac:(lia)); lia).
  by apply Z.mod_mul; lia.
Qed.

Lemma interleaver_loop_ok fuel align off size data r h s :
  (Z.to_nat size <= fuel)%nat -> 0 <= off -> 0 <= size -> off + size <= N * bank -> 0 <= data ->
  aligned align off size -> banks_ok s ->
  exists r' h' s',
    interleaver_loop il out fuel align off size data r h s = Some (IO_REQ_OK, r', h', s') /\
    r_is_write r' = r_is_write r /\ r_debug r' = r_debug r /\ r_args r' = r_args r /\
    moves il_rd (r_is_write r) (remove_offset il + off) data size h s h' s' /\
    (forall j a n, ok j s a n -> ok j s' a n).
Proof.
  destruct (PN_pos il bank Hwf) as (HP & HN & _). fold P in HP.
  assert (Hmax : N * bank < 2 ^ 63) by (destruct Hwf as [_ _ _ _ [? _] ?]; unfold N; lia).
  revert align off size data r h s. induction fuel as [|fuel IH]; intros align off size data r h s Hf Ho Hs Hb Hd Ha Hok.
  { assert (size = 0) as -> by lia. exists r, h, s. repeat (split; [done|]). split; [apply moves_nothing|done]. }
  cbn [interleaver_loop]. destruct (Z.eqb_spec size 0) as [->|Hne].
  { exists r, h, s. repeat (split; [done|]). split; [apply moves_nothing|done]. }
  pose proof (aligned_piece align off size Ha ltac:(lia)) as Hp. cbv zeta in Hp |- *. rewrite Hp. clear Hp.
  pose proof (Z.mod_pos_bound off P HP) as Hmod. pose proof (aligned_next off size Ho HP) as Hnext.
  set (len := piece_size off size) in *.
  assert (Hlen : 0 < len <= size /\ off mod P + len <= P) by (unfold len, piece_size; lia).
  destruct (piece_fits il bank Hwf off len) as (L1 & L2 & L3); [lia|fold P; lia|fold N; lia|fold N; lia|].
  rewrite (proj2 (Z.ltb_lt (output_id il off) _)) by (destruct Hwf; lia). cbn [negb].
  set (r1 := set_data data _).
  destruct (target_ok (output_id il off) r1 h s) as (r2 & h2 & s2 & E & Hr & Hserved & Hframe & Hkeep).
  { apply Hok; simpl; lia. }
  { simpl; lia. } { simpl; lia. }
  unfold req_forward. rewrite E.
  assert (Hu : u64 (off + len) = off + len) by (apply Z.mod_small; lia). rewrite Hu.
  destruct (IH 0 (off + len) (size - len) (if negb (data =? 0) then data + len else data) r2 h2 s2)
    as (r' & h' & s' & E' & W' & D' & A' & M' & K').
  { lia. } { lia. } { lia. } { lia. } { destruct (negb (data =? 0)); lia. } { done. }
  { by apply (banks_ok_keep s). }
  destruct Hr as (_ & _ & _ & W & D & A). simpl in W, D, A.
  exists r', h', s'. split; [done|]. rewrite W', D', A', W, D, A. repeat (split; [done|]).
  split; [|by intros; apply K', Hkeep].
  rewrite W in M'. replace size with (len + (size - len)) by lia.
  apply moves_split with h2 s2; [lia|lia|lia| |].
  - apply piece_moves; [done|lia|lia|lia|exact Hserved|done].
  - replace (remove_offset il + off + len) with (remove_offset il + (off + len)) by lia.
    destruct (Z.eqb_spec data 0) as [->|]; exact M'.
Qed.
End Flat.

Section FlatTarget.
Context (il : interleaver) (bank : Z).
Context {S : Type} (out : Z -> io_meth S) (rd : Z -> S -> Z -> Z) (ok : Z -> S -> Z -> Z -> Prop).

Lemma interleaver_req_ok `{!IoTargets out rd ok} (Hwf : il_wf il bank) r h s :
  il_ok il bank ok s (r_addr r) (r_size r) -> 0 <= r_data r ->
  exists r' h' s', interleaver_req il out r h s = Some (IO_REQ_OK, r', h', s') /\ same_req r r' /\
    served (il_rd il bank rd) r h s h' s' /\ (forall j a n, ok j s a n -> ok j s' a n).
Proof.
  intros (Hok & Hlo & Hn & Hhi) Hd. destruct (PN_pos il bank Hwf) as (HP & HN & _).
  pose proof (il_remove il bank Hwf) as [Hr0 Hrm]. pose proof (il_total il bank Hwf) as Ht.
  unfold interleaver_req.
  assert (Hu : u64 (r_addr r - remove_offset il) = r_addr r - remove_offset il) by (apply Z.mod_small; lia).
  rewrite Hu, Z.shiftl_1_l.
  replace (2 ^ interleaving_bits il - 1) with (Z.ones (interleaving_bits il)) by (rewrite Z.ones_equiv; lia).
  rewrite Z.land_ones by (destruct (il_bits il bank Hwf); lia).
  assert (Hm : r_addr r mod 2 ^ interleaving_bits il = (r_addr r - remove_offset il) mod 2 ^ interleaving_bits il).
  { rewrite Zminus_mod, Hrm, Z.sub_0_r. by rewrite Z.mod_mod by lia. }
  rewrite Hm. set (off := r_addr r - remove_offset il) in *.
  pose proof (Z.mod_pos_bound off (2 ^ interleaving_bits il) HP).
  destruct (interleaver_loop_ok il bank Hwf out rd ok (Z.to_nat (r_size r))
    (if negb (off mod 2 ^ interleaving_bits il =? 0) then 2 ^ interleaving_bits il - off mod 2 ^ interleaving_bits il
     else off mod 2 ^ interleaving_bits il) off (r_size r) (r_data r) r h s)
    as (r' & h' & s' & E & W & D & A & M & K); [lia|lia|lia|lia|lia| |done|].
  { right. destruct (Z.eqb_spec (off mod 2 ^ interleaving_bits il) 0) as [->|]; [by left|right]. cbn [negb]. lia. }
  rewrite E. eexists _, h', s'. split; [done|]. split; [by repeat split|]. split; [|done].
  unfold served. by replace (r_addr r) with (remove_offset il + off) by lia.
Qed.

#[export] Instance interleaver_target `{!IoTargets out rd ok} (Hwf : il_wf il bank) :
  IoTargets (fun _ : unit => interleaver_req il out) (fun _ => il_rd il bank rd) (fun _ => il_ok il bank ok).
Proof.
  split. intros [] r h s Hok Hn Hd.
  destruct (interleaver_req_ok Hwf r h s Hok Hd) as (r' & h' & s' & E & Hr & Hs & Hk).
  exists r', h', s'. split; [done|]. split; [done|]. split; [done|]. split; [by intros []|].
  intros _ a n (Hb & ?). split; [|done]. by apply (banks_ok_keep il bank ok s).
Qed.
End FlatTarget.

(** ** Properties *)



Definition demo_il : interleaver := interleaver_build 4 0 2 0.
Lemma demo_il_wf : il_wf demo_il 64.
Proof. apply build_wf; simpl; (done || lia). Qed.


(** The address map is a bijection: every byte of every bank is the image of exactly one
    address. *)
Theorem interleaver_bijective il bank (Hwf : il_wf il bank) i a
    (Hi : 0 <= i < 2 ^ stage_bits il) (Ha : 0 <= a < bank) :
  exists off, (0 <= off < 2 ^ stage_bits il * bank /\ output_id il off = i /\ new_offset il off = a) /\
    forall off', 0 <= off' < 2 ^ stage_bits il * bank -> output_id il off' = i -> new_offset il off' = a ->
      off' = off.
Proof.
  destruct (PN_pos il bank Hwf) as (HP & HN & _). pose proof (il_total il bank Hwf).
  destruct (il_remove il bank Hwf) as [? _]. destruct (il_bank il bank Hwf) as [_ Hbm].
  set (P := 2 ^ interleaving_bits il) in *. set (N := 2 ^ stage_bits il) in *.
  pose proof (Z.div_mod a P ltac:(lia)). pose proof (Z.mod_pos_bound a P HP).
  pose proof (Z.div_mod bank P ltac:(lia)) as Eb. rewrite Hbm in Eb.
  assert (Hq : a / P < bank / P) by (apply Z.div_lt_upper_bound; lia).
  pose proof (Z.div_pos a P ltac:(lia) HP).
  set (off := (a / P * N + i) * P + a mod P).
  assert (Hoff : 0 <= off < N * bank) by (unfold off; nia).
  assert (Hd : off / P = a / P * N + i) by (symmetry; apply (Z.div_unique off P _ (a mod P)); unfold off; lia).
  assert (Hm : off mod P = a mod P) by (symmetry; apply (Z.mod_unique off P (a / P * N + i)); unfold off; lia).
  assert (Hport : output_id il off = i).
  { rewrite (output_id_spec il bank) by (done || lia). fold P N. rewrite Hd.
    symmetry. apply (Z.mod_unique _ _ (a / P)); lia. }
  assert (Hloc : new_offset il off = a).
  { rewrite (new_offset_spec il bank) by (done || lia). fold P N. rewrite <- Z.div_div, Hd, Hm by lia.
    rewrite <- (Z.div_unique (a / P * N + i) N (a / P) i) by lia. lia. }
  exists off. split; [done|]. intros off' Ho' Hport' Hloc'.
  destruct (piece il bank Hwf off' 1 off) as [Hiff _]; [lia|lia|fold P; pose proof (Z.mod_pos_bound off' P HP); lia|lia|lia|].
  assert (Hin : in_range off' 1 off = true).
  { apply Hiff. rewrite Hport, Hport', Hloc, Hloc'. split; [done|]. destruct (in_range_spec a 1 a); [done|lia]. }
  destruct (in_range_spec off' 1 off); [lia|done].
Qed.

Lemma interleaver_bijective_witness :
  exists off, (0 <= off < 2 ^ stage_bits demo_il * 64 /\ output_id demo_il off = 3 /\ new_offset demo_il off = 13) /\
    forall off', 0 <= off' < 2 ^ stage_bits demo_il * 64 -> output_id demo_il off' = 3 ->
      new_offset demo_il off' = 13 -> off' = off.
Proof. apply (interleaver_bijective demo_il 64 demo_il_wf 3 13); simpl; lia. Defined.
