(* ===== verification/Router.v ===== *)
(** * The router (models/interco/router_impl.cpp)

    Requests are routed by address: the table of mappings is kept sorted by base, and a binary tree
    built on it finds the entry of an address.  A request that goes past the end of its entry is
    cut and the rest is routed again. *)

From S2P Require Import Prelude Io Memory.

(** class MapEntry, for the entries of the table.  [me_port] and [me_itf] are the two ways an entry
    is connected, by number. *)
Record map_entry := MapEntry {
  me_port : option Z;
  me_itf : option Z;
  me_id : Z;
  me_base : Z;
  me_size : Z;
  me_remove_offset : Z;
  me_add_offset : Z;
  me_latency : Z;
}.

(** MapEntry again, for the tree: [lowestBase] of a node is the one of its left child. *)
Inductive map_tree :=
  | Leaf (lowestBase : Z) (e : nat)
  | Node (base lowestBase : Z) (left right : map_tree).

Definition tree_lowest (t : map_tree) : Z :=
  match t with Leaf b _ => b | Node _ b _ _ => b end.

Record perf_counter := PerfCounter {
  nb_read : Z;
  nb_write : Z;
  read_stalls : Z;
  write_stalls : Z;
}.

(** class router.  Entries are designated by their index in [map_entries]; [firstMapEntry] is the
    chain from the field of that name. *)
Record router := Router {
  init_done : bool;
  map_entries : list map_entry;
  firstMapEntry : list nat;
  defaultMapEntry : option nat;
  errorMapEntry : option nat;
  topMapEntry : option map_tree;
  next_packet_time : gmap nat Z;
  counters : gmap Z perf_counter;
  bandwidth : Z;
  rt_latency : Z;
}.

Definition no_entry : map_entry := MapEntry None None (-1) 0 0 0 0 0.
Definition entry_at (l : list map_entry) (e : nat) : map_entry := default no_entry (l !! e).
Definition entry_of (rt : router) (e : nat) : map_entry := entry_at (map_entries rt) e.

Definition set_table (l : list map_entry) (first : list nat) (d er : option nat) (rt : router) : router :=
  Router (init_done rt) l first d er (topMapEntry rt) (next_packet_time rt) (counters rt) (bandwidth rt)
    (rt_latency rt).
Definition set_top (t : option map_tree) (rt : router) : router :=
  Router true (map_entries rt) (firstMapEntry rt) (defaultMapEntry rt) (errorMapEntry rt) t
    (next_packet_time rt) (counters rt) (bandwidth rt) (rt_latency rt).
Definition set_next_packet_time (e : nat) (t : Z) (rt : router) : router :=
  Router (init_done rt) (map_entries rt) (firstMapEntry rt) (defaultMapEntry rt) (errorMapEntry rt)
    (topMapEntry rt) (<[e := t]> (next_packet_time rt)) (counters rt) (bandwidth rt) (rt_latency rt).
Definition set_counter (id : Z) (c : perf_counter) (rt : router) : router :=
  Router (init_done rt) (map_entries rt) (firstMapEntry rt) (defaultMapEntry rt) (errorMapEntry rt)
    (topMapEntry rt) (next_packet_time rt) (<[id := c]> (counters rt)) (bandwidth rt) (rt_latency rt).

(** ** The table *)

(** MapEntry::insert of a new entry. *)
Definition insert_entry (x : map_entry) (rt : router) : router :=
  let e := length (map_entries rt) in
  let l := map_entries rt ++ [x] in
  if negb (me_size x =? 0) then
    match me_port x, me_itf x with
    | None, None => set_table l (firstMapEntry rt) (defaultMapEntry rt) (Some e) rt
    | _, _ =>
        set_table l (ordered_insert (fun d => me_base (entry_at l d) <? me_base x) e (firstMapEntry rt))
          (defaultMapEntry rt) (errorMapEntry rt) rt
    end
  else set_table l (firstMapEntry rt) (Some e) (errorMapEntry rt) rt.

(** router::build: a counter per identifier, then the insertion of the entry. *)
Definition add_mapping (x : map_entry) (rt : router) : router :=
  let rt := match counters rt !! me_id x with
            | None => set_counter (me_id x) (PerfCounter 0 0 0 0) rt
            | Some _ => rt
            end in
  insert_entry x rt.
Definition router_new (bandwidth latency : Z) : router :=
  Router false [] [] None None None ∅ ∅ bandwidth latency.
Definition router_build (bandwidth latency : Z) (mappings : list map_entry) : router :=
  foldl (fun rt x => add_mapping x rt) (router_new bandwidth latency) mappings.

(** One level of router::init_entries: the entries are merged two by two, an odd one is kept. *)
Fixpoint merge_level (l : list map_tree) : list map_tree :=
  match l with
  | lft :: current :: l => Node (tree_lowest current) (tree_lowest lft) lft current :: merge_level l
  | l => l
  end.

(** Each level halves the list, so its length is enough fuel. *)
Fixpoint merge_levels (fuel : nat) (l : list map_tree) : option map_tree :=
  match l with
  | [] => None
  | [t] => Some t
  | _ => match fuel with O => None | S fuel => merge_levels fuel (merge_level l) end
  end.

Definition init_entries (rt : router) : router :=
  let leaves := (fun e => Leaf (me_base (entry_of rt e)) e) <$> firstMapEntry rt in
  set_top (merge_levels (length leaves) leaves) rt.

(** ** Routing *)

Fixpoint find_entry (t : map_tree) (offset : Z) : nat :=
  match t with
  | Leaf _ e => e
  | Node base _ lft rgt => if offset >=? base then find_entry rgt offset else find_entry lft offset
  end.

(** The entry of an address that no mapping holds: none in the error region, else the default one. *)
Definition fallback (rt : router) (offset size : Z) : option nat :=
  match errorMapEntry rt with
  | Some er =>
      let x := entry_of rt er in
      if (me_base x <=? offset) && (u64 (offset + size - 1) <=? u64 (me_base x + me_size x - 1))
      then None else defaultMapEntry rt
  | None => defaultMapEntry rt
  end.

(** The entry of a request at [offset] with [size] bytes left. *)
Definition route (rt : router) (offset size : Z) : option nat :=
  let entry :=
    let* t := topMapEntry rt in
    let e := find_entry t offset in
    let x := entry_of rt e in
    if (offset <? me_base x) || (u64 (me_base x + me_size x - 1) <? offset) then None else Some e in
  match entry with
  | Some e => Some e
  | None => fallback rt offset size
  end.

Definition packet_time (rt : router) (e : nat) : Z := default 0 (next_packet_time rt !! e).

(** The timing of a request that is not a debug access. *)
Definition account_time (cycles : Z) (e : nat) (size : Z) (r : io_req) (rt : router) : io_req * router :=
  let x := entry_of rt e in
  if negb (bandwidth rt =? 0) then
    let packet_duration := u64 (size + bandwidth rt - 1) / bandwidth rt in
    let r := set_duration packet_duration r in
    let latency := r_latency r in
    let router_latency := packet_time rt e - cycles in
    let latency := if router_latency >? latency then router_latency else latency in
    let r := set_latency (latency + me_latency x) r in
    let router_time := if cycles <? packet_time rt e then packet_time rt e else cycles in
    (r, set_next_packet_time e (router_time + packet_duration) rt)
  else (inc_latency (me_latency x + rt_latency rt) r, rt).

(** The update of the counter of the entry. *)
Definition count (id : Z) (isRead : bool) (r : io_req) (rt : router) : option router :=
  if id =? -1 then Some rt
  else
    let latency := r_latency r in
    let latency := if r_duration r >? 1 then latency + (r_duration r - 1) else latency in
    let* c := counters rt !! id in
    Some (set_counter id
      (if isRead then PerfCounter (nb_read c + 1) (nb_write c) (read_stalls c + latency) (write_stalls c)
       else PerfCounter (nb_read c) (nb_write c + 1) (read_stalls c) (write_stalls c + latency)) rt).

(** The 32-bit wires of a Perf_counter: reading a register, and writing it. *)
Definition nb_read_sync_back (c : perf_counter) : Z := u32 (nb_read c).
Definition nb_read_sync (value : Z) (c : perf_counter) : perf_counter :=
  PerfCounter value (nb_write c) (read_stalls c) (write_stalls c).
Definition nb_write_sync_back (c : perf_counter) : Z := u32 (nb_write c).
Definition nb_write_sync (value : Z) (c : perf_counter) : perf_counter :=
  PerfCounter (nb_read c) value (read_stalls c) (write_stalls c).
Definition read_stalls_sync_back (c : perf_counter) : Z := u32 (read_stalls c).
Definition read_stalls_sync (value : Z) (c : perf_counter) : perf_counter :=
  PerfCounter (nb_read c) (nb_write c) value (write_stalls c).
Definition write_stalls_sync_back (c : perf_counter) : Z := u32 (write_stalls c).
Definition write_stalls_sync (value : Z) (c : perf_counter) : perf_counter :=
  PerfCounter (nb_read c) (nb_write c) (read_stalls c) value.
Definition stalls_sync_back (c : perf_counter) : Z := u32 (read_stalls c + write_stalls c).
Definition stalls_sync (value : Z) (c : perf_counter) : perf_counter :=
  PerfCounter (nb_read c) (nb_write c) value value.

Section Req.
(** The methods behind the ports, and the interface of a bound master port: its own slave port and
    the method it is bound to. *)
Context {S : Type} (port_meth : Z -> io_meth S) (itf : Z -> option (Z * io_meth S)) (cycles : Z).

(** The call to the target of an entry: its status, or [None] when the interface is not bound. *)
Definition forward (x : map_entry) (r : io_req) (h : host) (s : S) :
    outcome (option io_req_status_e * io_req * host * S) :=
  let popped st r h s :=
    match st with
    | IO_REQ_OK => match arg_pop r with
                   | Some (_, r) => Done (Some st, r, h, s)
                   | None => AssertFailed
                   end
    | _ => Done (Some st, r, h, s)
    end in
  match me_port x, me_itf x with
  | Some p, _ =>
      match port_meth p (set_resp_port p (arg_push 0 r)) h s with
      | Some (st, r, h, s) => popped st r h s
      | None => AssertFailed
      end
  | None, Some i =>
      match itf i with
      | None => Done (None, r, h, s)
      | Some (slave_port, meth) =>
          match master_req slave_port meth (arg_push (r_resp_port r) r) h s with
          | Some (st, r, h, s) => popped st r h s
          | None => AssertFailed
          end
      end
  | None, None => Done (Some IO_REQ_OK, r, h, s)
  end.

(** The loop of router::req.  [result] is uninitialised before the first piece ([None]): a request of
    no byte reads it.  The size of a piece is an int. *)
Fixpoint req_loop (fuel : nat) (result : option io_req_status_e) (offset size data : Z)
    (r : io_req) (h : host) (s : S) (rt : router) :
    outcome (io_req_status_e * io_req * host * S * router) :=
  if size =? 0 then
    match result with Some st => Done (st, r, h, s, rt) | None => AssertFailed end
  else
    match fuel with
    | O => OutOfFuel
    | Datatypes.S fuel =>
        let isRead := negb (r_is_write r) in
        match route rt offset size with
        | None => Done (IO_REQ_INVALID, r, h, s, rt)
        | Some e =>
            let x := entry_of rt e in
            let '(r, rt) := if negb (r_debug r) then account_time cycles e size r rt else (r, rt) in
            let iter_size := if bool_decide (Some e = defaultMapEntry rt) then s32 size
                             else s32 (me_size x - (offset - me_base x)) in
            let iter_size := if u64 iter_size >? size then s32 size else iter_size in
            let r := set_data data (set_size (u64 iter_size) (set_addr offset r)) in
            let r := if negb (me_remove_offset x =? 0) then set_addr (u64 (offset - me_remove_offset x)) r else r in
            let r := if negb (me_add_offset x =? 0) then set_addr (u64 (offset + me_add_offset x)) r else r in
            match forward x r h s with
            | AssertFailed => AssertFailed
            | OutOfFuel => OutOfFuel
            | Done (None, r, h, s) => Done (IO_REQ_INVALID, r, h, s, rt)
            | Done (Some st, r, h, s) =>
                match count (me_id x) isRead r rt with
                | None => AssertFailed
                | Some rt =>
                    req_loop fuel (Some st) (u64 (offset + iter_size)) (u64 (size - iter_size))
                      (data + iter_size) r h s rt
                end
            end
        end
    end.

(** router::req *)
Definition router_req (fuel : nat) (r : io_req) (h : host) (s : S) (rt : router) :
    outcome (io_req_status_e * io_req * host * S * router) :=
  let rt := if negb (init_done rt) then init_entries rt else rt in
  let req_size := r_size r in
  let req_offset := r_addr r in
  let req_data := r_data r in
  match req_loop fuel None req_offset req_size req_data r h s rt with
  | Done (IO_REQ_OK, r, h, s, rt) =>
      Done (IO_REQ_OK, set_data req_data (set_size req_size (set_addr req_offset r)), h, s, rt)
  | x => x
  end.

(** router::grant and router::response: the port to call, if any, and the request left. *)
Definition router_grant (r : io_req) : option (Z * io_req) :=
  let* (port, r) := arg_pop r in Some (port, arg_push port r).
Definition router_response (r : io_req) : option (Z * io_req) := arg_pop r.
End Req.

(** ** The registers of the counters *)

(** Writing a register and reading it back gives the value written, except for the sum of the stalls,
    which reads back as twice the value. *)
Lemma counter_registers value c :
  0 <= value < 2 ^ 32 ->
  nb_read_sync_back (nb_read_sync value c) = value /\ nb_write_sync_back (nb_write_sync value c) = value /\
  read_stalls_sync_back (read_stalls_sync value c) = value /\
  write_stalls_sync_back (write_stalls_sync value c) = value /\
  stalls_sync_back (stalls_sync value c) = u32 (2 * value).
Proof.
  intros Hv. unfold nb_read_sync_back, nb_write_sync_back, read_stalls_sync_back, write_stalls_sync_back, stalls_sync_back.
  simpl. rewrite uw_small by done. do 4 (split; [done|]). f_equal. lia.
Qed.

(** ** The tree finds what a scan of the sorted table finds *)

Fixpoint fringe (t : map_tree) : list (Z * nat) :=
  match t with
  | Leaf b e => [(b, e)]
  | Node _ _ lft rgt => fringe lft ++ fringe rgt
  end.

(** A node's base is the lowest base on its right. *)
Fixpoint tree_ok (t : map_tree) : Prop :=
  match t with
  | Leaf _ _ => True
  | Node b lo lft rgt => b = tree_lowest rgt /\ lo = tree_lowest lft /\ tree_ok lft /\ tree_ok rgt
  end.

(** The reference: the last entry of the chain whose base is not above the offset. *)
Fixpoint scan (l : list (Z * nat)) (offset : Z) (found : nat) : nat :=
  match l with
  | [] => found
  | (b, e) :: l => if b <=? offset then scan l offset e else found
  end.
Definition scan_all (l : list (Z * nat)) (offset : Z) : option nat :=
  match l with [] => None | (_, e) :: l => Some (scan l offset e) end.

Lemma fringe_first t : tree_ok t -> exists e l, fringe t = (tree_lowest t, e) :: l.
Proof.
  induction t as [b e|b lo t1 IH1 t2 IH2]; simpl; [by eexists _, _|].
  intros (_ & -> & H1 & _). destruct (IH1 H1) as (e & l & ->). by eexists _, _.
Qed.

Lemma scan_app_low l k offset found b e :
  Forall (fun p => p.1 <= offset) l -> b <= offset -> scan (l ++ (b, e) :: k) offset found = scan k offset e.
Proof.
  intros Hl Hb. revert found. induction Hl as [|[b' e'] l Hb' _ IH]; intros found; simpl in *.
  - by rewrite (proj2 (Z.leb_le _ _) Hb).
  - by rewrite (proj2 (Z.leb_le _ _) Hb'), IH.
Qed.

Lemma scan_app_high l k offset found :
  Forall (fun p => offset < p.1) k -> scan (l ++ k) offset found = scan l offset found.
Proof.
  intros Hk. revert found. induction l as [|[b e] l IH]; intros found; simpl.
  - destruct Hk as [|[b e] k Hb]; simpl in *; [done|]. by rewrite (proj2 (Z.leb_gt _ _) Hb).
  - by destruct (b <=? offset).
Qed.

Abbreviation sorted_bases := (Sorted.StronglySorted (fun p q : Z * nat => p.1 <= q.1)).

Lemma sorted_app_inv (l k : list (Z * nat)) :
  sorted_bases (l ++ k) -> sorted_bases l /\ sorted_bases k /\
    forall p q, p ∈ l -> q ∈ k -> p.1 <= q.1.
Proof.
  induction l as [|x l IH]; simpl; intros H.
  - split; [constructor|]. split; [done|]. by intros p q Hp%elem_of_nil.
  - inversion_clear H as [|? ? H1 H2]. apply Forall_app in H2 as [H2 H3].
    destruct (IH H1) as (S1 & S2 & S3). split; [by constructor|]. split; [done|].
    intros p q [->|Hp]%elem_of_cons Hq; [|by apply S3]. by apply (proj1 (Forall_forall _ _) H3).
Qed.

Lemma find_entry_scan t offset :
  tree_ok t -> sorted_bases (fringe t) -> Some (find_entry t offset) = scan_all (fringe t) offset.
Proof.
  induction t as [b e|b lo t1 IH1 t2 IH2]; simpl; [done|].
  intros (-> & _ & H1 & H2) Hs. apply sorted_app_inv in Hs as (S1 & S2 & S3).
  specialize (IH1 H1 S1). specialize (IH2 H2 S2).
  destruct (fringe_first t1 H1) as (e1 & l1 & E1), (fringe_first t2 H2) as (e2 & l2 & E2).
  rewrite E1 in *. rewrite E2 in *. simpl in *. rewrite Z.geb_leb.
  destruct (Z.leb_spec (tree_lowest t2) offset) as [Hle|Hgt].
  - rewrite IH2. f_equal. rewrite scan_app_low; [done| |done].
    apply Forall_forall. intros p Hp. specialize (S3 p (tree_lowest t2, e2)). simpl in S3.
    etransitivity; [apply S3; [by right|by left]|done].
  - rewrite IH1. f_equal. rewrite scan_app_high; [done|].
    apply Forall_forall. intros p Hp. inversion_clear S2 as [|? ? S4 S5].
    apply elem_of_cons in Hp as [->|Hp]; [done|]. pose proof (proj1 (Forall_forall _ _) S5 p Hp). simpl in *. lia.
Qed.

Lemma merge_level_spec l :
  Forall tree_ok l ->
  Forall tree_ok (merge_level l) /\ concat (fringe <$> merge_level l) = concat (fringe <$> l) /\
  (length (merge_level l) <= length l)%nat /\ (2 <= length l -> length (merge_level l) < length l)%nat /\
  (l <> [] -> merge_level l <> []).
Proof.
  remember (length l) as n eqn:Hn. revert l Hn. induction (lt_wf n) as [n _ IH]. intros l Hn Hl.
  destruct l as [|a [|b l]]; [simpl in *; subst; repeat split; (done || lia)..|].
  apply Forall_cons in Hl as [Ha Hl]. apply Forall_cons in Hl as [Hb Hl]. simpl in Hn.
  destruct (IH (length l) ltac:(lia) l eq_refl Hl) as (H1 & H2 & H3 & _ & _). cbn [merge_level].
  split; [constructor; [by repeat split|done]|]. split.
  { rewrite !fmap_cons. cbn [fringe concat]. by rewrite H2, <- app_assoc. }
  simpl. split; [lia|]. split; [lia|done].
Qed.

Lemma merge_levels_spec fuel l :
  (length l <= fuel)%nat -> l <> [] -> Forall tree_ok l ->
  exists t, merge_levels fuel l = Some t /\ tree_ok t /\ fringe t = concat (fringe <$> l).
Proof.
  revert l. induction fuel as [|fuel IH]; intros l Hf Hne Hl.
  - destruct l; simpl in *; [done|lia].
  - destruct l as [|a [|b l]]; [done| |].
    + exists a. split; [done|]. inversion_clear Hl. split; [done|]. simpl. by rewrite app_nil_r.
    + destruct (merge_level_spec (a :: b :: l) Hl) as (H1 & H2 & _ & H3 & H4).
      destruct (IH (merge_level (a :: b :: l))) as (t & E & Ht & Hfr); [simpl in *; lia|by apply H4|done|].
      exists t. split; [exact E|]. split; [done|]. by rewrite Hfr.
Qed.

(** ** The table built from the mappings *)

(** An entry that is routed to: not the default entry, and connected. *)
Definition routed (x : map_entry) : bool :=
  negb (me_size x =? 0) && match me_port x, me_itf x with None, None => false | _, _ => true end.

Lemma entry_at_app l x e : (e < length l)%nat -> entry_at (l ++ [x]) e = entry_at l e.
Proof. intros. unfold entry_at. by rewrite lookup_app_l. Qed.
Lemma entry_at_last l x : entry_at (l ++ [x]) (length l) = x.
Proof. unfold entry_at. by rewrite lookup_app_r, Nat.sub_diag by lia. Qed.

Lemma build_snoc bw lat ms x : router_build bw lat (ms ++ [x]) = add_mapping x (router_build bw lat ms).
Proof. unfold router_build. by rewrite foldl_app. Qed.

Lemma add_mapping_table x rt :
  map_entries (add_mapping x rt) = map_entries rt ++ [x] /\
  firstMapEntry (add_mapping x rt) =
    (if routed x then ordered_insert (fun d => me_base (entry_at (map_entries rt ++ [x]) d) <? me_base x)
                        (length (map_entries rt)) (firstMapEntry rt)
     else firstMapEntry rt) /\
  topMapEntry (add_mapping x rt) = topMapEntry rt /\ init_done (add_mapping x rt) = init_done rt.
Proof.
  unfold add_mapping, insert_entry, routed.
  destruct (counters rt !! me_id x), (me_size x =? 0), (me_port x), (me_itf x); simpl; done.
Qed.

(** The chain holds the routed entries, in the order of their bases. *)
Lemma build_table bw lat ms :
  let rt := router_build bw lat ms in
  map_entries rt = ms /\
  ordered (fun e => me_base (entry_at ms e)) (firstMapEntry rt) /\
  (forall e, e ∈ firstMapEntry rt <-> exists x, ms !! e = Some x /\ routed x = true) /\
  init_done rt = false.
Proof.
  cbv zeta. induction ms as [|x ms IH] using rev_ind.
  - split; [done|]. split; [apply ordered_nil|]. split; [|done]. intros e. split.
    + by intros ?%elem_of_nil.
    + intros (x & Hx & _). done.
  - destruct IH as (H1 & H2 & H3 & H4). rewrite build_snoc.
    destruct (add_mapping_table x (router_build bw lat ms)) as (E1 & E2 & _ & E4). rewrite E1, E2, E4, H1.
    split; [done|].
    assert (Hlt : forall e, e ∈ firstMapEntry (router_build bw lat ms) -> (e < length ms)%nat).
    { intros e (y & Hy & _)%H3. by apply lookup_lt_Some in Hy. }
    assert (Hkey : forall e, e ∈ firstMapEntry (router_build bw lat ms) ->
      me_base (entry_at ms e) = me_base (entry_at (ms ++ [x]) e)).
    { intros e He. by rewrite entry_at_app by by apply Hlt. }
    pose proof (ordered_ext _ _ _ Hkey H2) as H2'. split; [|split; [|done]].
    + destruct (routed x); [|done].
      replace (me_base x) with (me_base (entry_at (ms ++ [x]) (length ms))) by by rewrite entry_at_last.
      apply (ordered_insert_ordered (fun e => me_base (entry_at (ms ++ [x]) e)) (length ms)). done.
    + intros e. destruct (routed x) eqn:R.
      * rewrite elem_of_ordered_insert, H3. split.
        -- intros [->|(y & Hy & Ry)]; [|exists y; split; [by apply lookup_app_l_Some|done]].
           exists x. split; [|done]. by rewrite lookup_app_r, Nat.sub_diag by lia.
        -- intros (y & Hy & Ry). apply lookup_app_Some in Hy as [Hy|[Hge Hy]]; [right; by exists y|left].
           apply lookup_lt_Some in Hy. simpl in Hy. lia.
      * rewrite H3. split.
        -- intros (y & Hy & Ry). exists y. split; [by apply lookup_app_l_Some|done].
        -- intros (y & Hy & Ry). exists y. apply lookup_app_Some in Hy as [Hy|[Hge Hy]]; [done|].
           apply list_lookup_singleton_Some in Hy as [_ ->]. congruence.
Qed.

Lemma scan_all_split l1 b e l2 offset :
  Forall (fun p => p.1 <= offset) l1 -> b <= offset -> Forall (fun p => offset < p.1) l2 ->
  scan_all (l1 ++ (b, e) :: l2) offset = Some e.
Proof.
  intros H1 Hb H2. pose proof (scan_app_high [] l2 offset e H2) as E. simpl in E.
  destruct l1 as [|[b1 e1] l1]; simpl; [by rewrite E|]. inversion_clear H1 as [|? ? Hb1 Hl1].
  by rewrite scan_app_low, E.
Qed.

(** Mapping [x] holds address [offset]. *)
Definition covers (x : map_entry) (offset : Z) : Prop := me_base x <= offset < me_base x + me_size x.

(** The mappings are ranges of 64-bit addresses, no two of which meet. *)
Record mappings_ok (ms : list map_entry) : Prop := {
  mo_range e x : ms !! e = Some x -> routed x = true ->
    0 <= me_base x /\ 0 < me_size x /\ me_base x + me_size x <= 2 ^ 64;
  mo_disjoint e e' x x' : ms !! e = Some x -> ms !! e' = Some x' -> routed x = true -> routed x' = true ->
    e <> e' -> me_base x + me_size x <= me_base x' \/ me_base x' + me_size x' <= me_base x;
}.

Lemma concat_leaves (f : nat -> Z) l :
  concat (fringe <$> ((fun e => Leaf (f e) e) <$> l)) = (fun e => (f e, e)) <$> l.
Proof. induction l as [|e l IH]; [done|]. by rewrite !fmap_cons; cbn [concat fringe app]; rewrite IH. Qed.

Section Lookup.
Context (bw lat : Z) (ms : list map_entry) (Hok : mappings_ok ms).
Let rt := init_entries (router_build bw lat ms).
Let chain := firstMapEntry (router_build bw lat ms).
Let key (e : nat) : Z * nat := (me_base (entry_at ms e), e).

Lemma init_top :
  topMapEntry rt = None /\ chain = [] \/
  exists t, topMapEntry rt = Some t /\ tree_ok t /\ fringe t = key <$> chain.
Proof.
  destruct (build_table bw lat ms) as (E & _ & _ & _). unfold rt, init_entries. cbn [topMapEntry set_top].
  fold chain. unfold key, entry_of. rewrite E. clear E. revert chain. intros l.
  destruct l as [|e l]; [by left|right].
  set (leaves := (fun e => Leaf (me_base (entry_at ms e)) e) <$> e :: l).
  destruct (merge_levels_spec (length leaves) leaves) as (t & Et & Ht & Hf); [done|done| |].
  - apply Forall_forall. intros t Ht. unfold leaves in Ht. apply list_elem_of_fmap in Ht as (? & -> & _). done.
  - exists t. split; [done|]. split; [done|]. by rewrite Hf; apply concat_leaves.
Qed.

Lemma chain_entry e : e ∈ chain <-> exists x, ms !! e = Some x /\ routed x = true.
Proof. apply (build_table bw lat ms). Qed.

Lemma entry_of_init e : entry_of rt e = entry_at ms e.
Proof. unfold rt, init_entries, entry_of. simpl. by destruct (build_table bw lat ms) as (-> & _). Qed.

Lemma keys_sorted : sorted_bases (key <$> chain).
Proof.
  destruct (build_table bw lat ms) as (_ & H & _ & _). fold chain in H. revert H. generalize chain.
  unfold ordered. intros l H. induction H as [|e l _ IH Hl]; [constructor|].
  rewrite fmap_cons. constructor; [done|]. apply Forall_fmap. exact Hl.
Qed.

(** The tree search returns the mapping that holds the address. *)
Lemma search_hit e x offset t :
  ms !! e = Some x -> routed x = true -> covers x offset ->
  tree_ok t -> fringe t = key <$> chain -> find_entry t offset = e.
Proof.
  intros Hx Hr Hc Ht Hf. pose proof keys_sorted as Hs. rewrite <- Hf in Hs.
  pose proof (find_entry_scan t offset Ht Hs) as E. rewrite Hf in E, Hs.
  assert (Hin : e ∈ chain) by (apply chain_entry; by exists x).
  apply list_elem_of_split_r in Hin as (l1 & l2 & Hl & Hlast).
  rewrite Hl, fmap_app, fmap_cons in E, Hs.
  assert (Ex : entry_at ms e = x) by (unfold entry_at; by rewrite Hx).
  apply sorted_app_inv in Hs as (_ & Hs & Hbefore). inversion_clear Hs as [|? ? _ Hafter].
  unfold key at 2 in E. rewrite Ex in E. unfold covers in Hc.
  rewrite scan_all_split in E; [by injection E| |lia|].
  - apply Forall_forall. intros p Hp. specialize (Hbefore p (key e) Hp ltac:(by left)).
    unfold key in Hbefore. simpl in Hbefore. rewrite Ex in Hbefore. lia.
  - apply Forall_forall. intros p Hp. pose proof (proj1 (Forall_forall _ _) Hafter p Hp) as Hge.
    apply list_elem_of_fmap in Hp as (e' & -> & He'). unfold key in *. simpl in *. rewrite Ex in Hge.
    destruct (proj1 (chain_entry e')) as (x' & Hx' & Hr'); [rewrite Hl; set_solver|].
    unfold entry_at in *. rewrite Hx' in *. simpl in *.
    destruct (mo_range ms Hok e' x' Hx' Hr') as (_ & ? & _).
    destruct (mo_disjoint ms Hok e' e x' x Hx' Hx Hr' Hr); [by intros ->|lia|lia].
Qed.

(** Whatever the search returns is one of the mappings. *)
Lemma search_in t offset :
  tree_ok t -> fringe t = key <$> chain -> find_entry t offset ∈ chain.
Proof.
  intros Ht Hf. assert (H : exists b, (b, find_entry t offset) ∈ fringe t).
  { clear Hf. induction t as [b e|b lo t1 IH1 t2 IH2]; simpl in *.
    - exists b. by left.
    - destruct Ht as (_ & _ & H1 & H2). destruct (offset >=? b);
        [destruct (IH2 H2) as [b' ?]|destruct (IH1 H1) as [b' ?]]; exists b'; apply elem_of_app; tauto. }
  destruct H as [b H]. rewrite Hf in H. apply list_elem_of_fmap in H as (e & [=] & He). by subst.
Qed.

Lemma route_spec offset size :
  0 <= offset ->
  (forall e x, ms !! e = Some x -> routed x = true -> covers x offset -> route rt offset size = Some e) /\
  ((forall e x, ms !! e = Some x -> routed x = true -> ~ covers x offset) ->
    route rt offset size = fallback rt offset size).
Proof.
  intros Ho. unfold route. destruct init_top as [[-> Hnil]|(t & -> & Ht & Hf)].
  - split; [|done]. intros e x Hx Hr _. assert (e ∈ chain) as He by (apply chain_entry; by exists x).
    rewrite Hnil in He. by apply elem_of_nil in He.
  - pose proof (search_in t offset Ht Hf) as Hin. apply chain_entry in Hin as (y & Hy & Ry).
    destruct (mo_range ms Hok _ y Hy Ry) as (B1 & B2 & B3).
    assert (Ey : entry_of rt (find_entry t offset) = y) by (rewrite entry_of_init; unfold entry_at; by rewrite Hy).
    rewrite Ey. assert (Hu : u64 (me_base y + me_size y - 1) = me_base y + me_size y - 1) by (apply Z.mod_small; lia).
    rewrite Hu. split.
    + intros e x Hx Hr Hc. pose proof (search_hit e x offset t Hx Hr Hc Ht Hf) as He. subst e.
      assert (x = y) as -> by congruence. unfold covers in Hc.
      destruct (Z.ltb_spec offset (me_base y)), (Z.ltb_spec (me_base y + me_size y - 1) offset); (done || lia).
    + intros Hno. specialize (Hno _ y Hy Ry). unfold covers in Hno.
      destruct (Z.ltb_spec offset (me_base y)), (Z.ltb_spec (me_base y + me_size y - 1) offset); (done || lia).
Qed.
End Lookup.

(** ** Requests that change only the accounting *)

(** The tables, and that every counter is there. *)
Definition same_table (rt rt' : router) : Prop :=
  map_entries rt' = map_entries rt /\ topMapEntry rt' = topMapEntry rt /\
  defaultMapEntry rt' = defaultMapEntry rt /\ errorMapEntry rt' = errorMapEntry rt /\
  init_done rt' = init_done rt /\ forall id, is_Some (counters rt !! id) -> is_Some (counters rt' !! id).

Lemma same_table_refl rt : same_table rt rt.
Proof. by repeat split. Qed.
Lemma same_table_trans rt1 rt2 rt3 : same_table rt1 rt2 -> same_table rt2 rt3 -> same_table rt1 rt3.
Proof. intros (?&?&?&?&?&?) (?&?&?&?&?&?). repeat split; (congruence || auto). Qed.

Lemma route_same_table rt rt' offset size :
  same_table rt rt' -> route rt' offset size = route rt offset size.
Proof. intros (E1 & E2 & E3 & E4 & _). unfold route, fallback, entry_of. by rewrite E1, E2, E3, E4. Qed.

Lemma account_time_keeps cycles e size r rt :
  let '(r', rt') := account_time cycles e size r rt in same_req r r' /\ r_resp_port r' = r_resp_port r /\ same_table rt rt'.
Proof. unfold account_time. destruct (negb (bandwidth rt =? 0)); by repeat split. Qed.

Lemma count_keeps id isRead r rt :
  (id = -1 \/ is_Some (counters rt !! id)) -> exists rt', count id isRead r rt = Some rt' /\ same_table rt rt'.
Proof.
  intros H. unfold count. destruct (Z.eqb_spec id (-1)); [by eexists|].
  destruct H as [|[c Hc]]; [done|]. rewrite Hc. eexists. split; [done|]. repeat split.
  intros id' Hs. simpl. destruct (decide (id' = id)) as [->|]; [by rewrite lookup_insert_eq|by rewrite lookup_insert_ne].
Qed.

(** What the mappings guarantee of the fields of the router. *)
Lemma build_fields bw lat ms :
  let rt := router_build bw lat ms in
  (forall d, defaultMapEntry rt = Some d -> exists x, ms !! d = Some x /\ me_size x = 0) /\
  (forall x, x ∈ ms -> is_Some (counters rt !! me_id x)).
Proof.
  cbv zeta. induction ms as [|x ms [IH1 IH2]] using rev_ind.
  - split; [done|]. by intros x ?%elem_of_nil.
  - rewrite build_snoc. destruct (build_table bw lat ms) as (E & _).
    set (rt := router_build bw lat ms) in *. split.
    + intros d. unfold add_mapping, insert_entry.
      assert (Hd : defaultMapEntry rt = Some d -> exists y, (ms ++ [x]) !! d = Some y /\ me_size y = 0).
      { intros Hd. destruct (IH1 d Hd) as (y & Hy & Hs). exists y. split; [by apply lookup_app_l_Some|done]. }
      destruct (counters rt !! me_id x), (Z.eqb_spec (me_size x) 0), (me_port x), (me_itf x); simpl; try exact Hd;
        intros [= <-]; exists x; rewrite E, lookup_app_r, Nat.sub_diag by lia; done.
    + intros y Hy. apply elem_of_app in Hy as [Hy|Hy%list_elem_of_singleton]; unfold add_mapping, insert_entry.
      * specialize (IH2 y Hy).
        destruct (counters rt !! me_id x) eqn:C, (me_size x =? 0), (me_port x), (me_itf x); simpl; try done;
          (destruct (decide (me_id y = me_id x)) as [->|]; [by rewrite lookup_insert_eq|by rewrite lookup_insert_ne]).
      * subst y. destruct (counters rt !! me_id x) eqn:C, (me_size x =? 0), (me_port x), (me_itf x); simpl;
          rewrite ?C, ?lookup_insert_eq; done.
Qed.

(** ** The flat memory of a router *)

#[export] Instance covers_dec x a : Decision (covers x a).
Proof. unfold covers. apply _. Defined.

(** The mapping of an address, and the constant that its target adds to it.  An add_offset replaces
    the address computed with remove_offset. *)
Definition holder (ms : list map_entry) (a : Z) : option map_entry :=
  head (filter (fun x => routed x = true /\ covers x a) ms).
Definition shift (x : map_entry) : Z :=
  if negb (me_add_offset x =? 0) then me_add_offset x else - me_remove_offset x.

Lemma holder_spec ms e x a :
  mappings_ok ms -> ms !! e = Some x -> routed x = true -> covers x a -> holder ms a = Some x.
Proof.
  intros Hok Hx Hr Hc. unfold holder.
  assert (Hin : x ∈ filter (fun x => routed x = true /\ covers x a) ms).
  { apply list_elem_of_filter. split; [done|]. by apply list_elem_of_lookup_2 in Hx. }
  destruct (filter (fun x => routed x = true /\ covers x a) ms) as [|y l] eqn:F; [by apply elem_of_nil in Hin|].
  simpl. f_equal. assert (Hy : y ∈ filter (fun x => routed x = true /\ covers x a) ms) by (rewrite F; by left).
  apply list_elem_of_filter in Hy as [[Hry Hcy] Hy]. apply list_elem_of_lookup_1 in Hy as [e' Hy].
  destruct (decide (e = e')) as [<-|Hne]; [congruence|]. unfold covers in *.
  destruct (mo_disjoint ms Hok e e' x y Hx Hy Hr Hry Hne); lia.
Qed.

(** Each mapping is behind its own interface, is smaller than 4 GB, and its translated addresses
    do not wrap around. *)
Record mappings_flat (ms : list map_entry) : Prop := {
  mf_ok : mappings_ok ms;
  mf_itf e x : ms !! e = Some x -> routed x = true -> me_port x = None;
  mf_distinct e e' x x' i : ms !! e = Some x -> ms !! e' = Some x' ->
    me_itf x = Some i -> me_itf x' = Some i -> e = e';
  mf_size e x : ms !! e = Some x -> routed x = true ->
    me_size x < 2 ^ 32 /\ 0 <= me_base x + shift x /\ me_base x + me_size x + shift x <= 2 ^ 64;
}.

Lemma piece_len R size :
  0 < R < 2 ^ 32 -> 0 < size < 2 ^ 31 ->
  (if u64 (s32 R) >? size then s32 size else s32 R) = Z.min R size.
Proof.
  intros HR Hs. assert (Hss : s32 size = size) by (apply sw_small; lia). rewrite Hss, Z.gtb_ltb.
  destruct (Z.ltb_spec R (2 ^ 31)) as [Hlt|Hge].
  - assert (HsR : s32 R = R) by (apply sw_small; lia). rewrite HsR.
    assert (Hu : u64 R = R) by (apply Z.mod_small; lia). rewrite Hu. destruct (Z.ltb_spec size R); lia.
  - assert (HsR : s32 R = R - 2 ^ 32).
    { unfold sw, uw. rewrite Z.mod_small by lia. destruct (Z.ltb_spec R (2 ^ (32 - 1))); lia. }
    rewrite HsR. assert (Hu : u64 (R - 2 ^ 32) = R - 2 ^ 32 + 2 ^ 64).
    { symmetry. apply (Z.mod_unique _ _ (-1)); lia. }
    rewrite Hu. destruct (Z.ltb_spec size (R - 2 ^ 32 + 2 ^ 64)); lia.
Qed.

Section Flat.
Context (bw lat cycles : Z) (ms : list map_entry) (Hms : mappings_flat ms).
Context {S : Type} (port_meth : Z -> io_meth S) (itf : Z -> option (Z * io_meth S)) (slave_port : Z -> Z).
Context (meth : Z -> io_meth S) (rd : Z -> S -> Z -> Z) (ok : Z -> S -> Z -> Z -> Prop) `{!IoTargets meth rd ok}.
Hypothesis Hitf : forall e x i, ms !! e = Some x -> me_itf x = Some i -> itf i = Some (slave_port i, meth i).
Let rt0 := init_entries (router_build bw lat ms).

Definition rt_rd (s : S) (a : Z) : Z :=
  match holder ms a with
  | Some x => match me_itf x with Some i => rd i s (a + shift x) | None => 0 end
  | None => 0
  end.

(** The slaves accept the addresses of their mappings. *)
Definition targets_ok (s : S) : Prop :=
  forall e x i, ms !! e = Some x -> routed x = true -> me_itf x = Some i ->
    forall a n, me_base x <= a -> 0 <= n -> a + n <= me_base x + me_size x -> ok i s (a + shift x) n.

Lemma rt_piece e x i w off d len h s h' s' :
  ms !! e = Some x -> routed x = true -> me_itf x = Some i ->
  me_base x <= off -> 0 <= len -> off + len <= me_base x + me_size x ->
  moves (rd i) w (off + shift x) d len h s h' s' -> (forall j, j <> i -> forall a, rd j s' a = rd j s a) ->
  moves rt_rd w off d len h s h' s'.
Proof.
  intros Hx Hr Hi Hlo Hl Hhi [M1 M2] Hf. split.
  - intros b. unfold rt_rd. destruct (in_range_spec off len b) as [Hin|Hout].
    + rewrite (holder_spec ms e x b) by (apply Hms || done || (unfold covers; lia)). rewrite Hi, M1.
      replace (in_range (off + shift x) len (b + shift x)) with true
        by (destruct (in_range_spec (off + shift x) len (b + shift x)); (done || lia)).
      by replace (b + shift x - (off + shift x)) with (b - off) by lia.
    + rewrite !andb_false_r. destruct (holder ms b) as [y|] eqn:Hy; [|done].
      destruct (me_itf y) as [j|] eqn:Hj; [|done]. destruct (decide (j = i)) as [->|Hne]; [|by apply Hf].
      assert (y = x) as ->.
      { unfold holder in Hy. apply head_Some_elem_of, list_elem_of_filter in Hy as [_ Hy].
        apply list_elem_of_lookup_1 in Hy as [e' Hy]. pose proof (mf_distinct ms Hms _ _ _ _ _ Hx Hy Hi Hj). congruence. }
      rewrite M1. destruct (in_range_spec (off + shift x) len (b + shift x)); [lia|]. by rewrite !andb_false_r.
  - intros p. rewrite M2. destruct (in_range_spec d len p) as [Hin|]; [|by rewrite !andb_false_r].
    destruct (negb w && negb (d =? 0) && true); [|done]. unfold rt_rd.
    rewrite (holder_spec ms e x (off + (p - d))) by (apply Hms || done || (unfold covers; lia)).
    rewrite Hi. f_equal. lia.
Qed.

Lemma req_loop_ok fuel result off size d r h s rt :
  (Z.to_nat size <= fuel)%nat -> same_table rt0 rt -> 0 <= off -> 0 <= size < 2 ^ 31 -> off + size <= 2 ^ 64 ->
  0 < d -> targets_ok s -> (size = 0 -> result = Some IO_REQ_OK) ->
  (forall b, off <= b < off + size -> exists e x, ms !! e = Some x /\ routed x = true /\ covers x b) ->
  exists r' h' s' rt',
    req_loop port_meth itf cycles fuel result off size d r h s rt = Done (IO_REQ_OK, r', h', s', rt') /\
    r_is_write r' = r_is_write r /\ r_debug r' = r_debug r /\ r_args r' = r_args r /\
    moves rt_rd (r_is_write r) off d size h s h' s' /\ same_table rt0 rt' /\
    (forall j a n, ok j s a n -> ok j s' a n).
Proof.
  pose proof (mf_ok ms Hms) as Hok.
  revert result off size d r h s rt.
  induction fuel as [|fuel IH]; intros result off size d r h s rt Hf Hrt Ho Hs Hend Hd Hts Hres Hcov.
  { assert (size = 0) as -> by lia. rewrite Hres by done. exists r, h, s, rt.
    repeat (split; [done|]). split; [apply moves_nothing|done]. }
  cbn [req_loop]. destruct (Z.eqb_spec size 0) as [->|Hne].
  { rewrite Hres by done. exists r, h, s, rt. repeat (split; [done|]). split; [apply moves_nothing|done]. }
  destruct (Hcov off ltac:(lia)) as (e & x & Hx & Hr & Hc).
  rewrite (route_same_table rt0 rt) by done.
  assert (Hroute : route rt0 off size = Some e) by by apply (route_spec bw lat ms Hok off size Ho) with x.
  rewrite Hroute. clear Hroute.
  assert (Ex : entry_of rt e = x).
  { destruct Hrt as (E & _). unfold entry_of. rewrite E. fold (entry_of rt0 e).
    transitivity (entry_at ms e); [apply entry_of_init|]. unfold entry_at. by rewrite Hx. }
  rewrite Ex. clear Ex.
  destruct (if negb (r_debug r) then account_time cycles e size r rt else (r, rt)) as [r1 rt1] eqn:Et.
  assert (Hacc : same_req r r1 /\ same_table rt0 rt1).
  { destruct (negb (r_debug r)); [|by simplify_eq].
    pose proof (account_time_keeps cycles e size r rt) as K. rewrite Et in K. destruct K as (? & _ & ?).
    split; [done|by apply (same_table_trans _ rt)]. }
  clear Et. destruct Hacc as [(_ & _ & _ & W1 & D1 & A1) Hrt1].
  rewrite bool_decide_eq_false_2.
  2: { destruct Hrt1 as (_ & _ & -> & _). intros Hdef. unfold rt0 in Hdef. simpl in Hdef.
       destruct (proj1 (build_fields bw lat ms) e (eq_sym Hdef)) as (y & Hy & Hz).
       assert (x = y) as <- by congruence. unfold routed in Hr. by rewrite Hz in Hr. }
  unfold covers in Hc. destruct (mf_size ms Hms e x Hx Hr) as (Hsz & Hsh1 & Hsh2).
  rewrite piece_len by lia. set (len := Z.min (me_size x - (off - me_base x)) size).
  assert (Hlen : 0 < len <= size) by (unfold len; lia).
  assert (Hu : u64 len = len) by (apply Z.mod_small; lia). rewrite Hu.
  set (r2 := if negb (me_add_offset x =? 0) then _ else _).
  assert (Hr2 : r_addr r2 = off + shift x /\ r_data r2 = d /\ r_size r2 = len /\ r_is_write r2 = r_is_write r /\
    r_debug r2 = r_debug r /\ r_args r2 = r_args r).
  { unfold r2, shift. unfold shift in Hsh1, Hsh2.
    destruct (Z.eqb_spec (me_add_offset x) 0), (Z.eqb_spec (me_remove_offset x) 0); cbn [negb] in *; simpl;
      (split; [|done]); unfold uw; try (rewrite Z.mod_small by lia); lia. }
  clearbody r2. destruct Hr2 as (Ea & Ed & Es & Ew & Edb & Eargs).
  assert (Hi : exists i, me_itf x = Some i).
  { unfold routed in Hr. rewrite (mf_itf ms Hms e x Hx Hr) in Hr. destruct (me_itf x); [by eexists|].
    by rewrite andb_false_r in Hr. }
  destruct Hi as [i Hi]. unfold forward. rewrite (mf_itf ms Hms e x Hx Hr), Hi, (Hitf e x i Hx Hi).
  unfold master_req. set (r3 := set_resp_port _ _).
  destruct (target_ok i r3 h s) as (r4 & h4 & s4 & E & Hreq & Hserved & Hframe & Hkeep).
  { simpl. rewrite Ea, Es. apply (Hts e x i Hx Hr Hi); unfold len; lia. }
  { simpl. lia. } { simpl. lia. }
  rewrite E. destruct Hreq as (_ & _ & _ & W & D & A). simpl in W, D, A.
  unfold arg_pop. rewrite A. cbv iota beta.
  destruct (count_keeps (me_id x) (negb (r_is_write r)) (set_args (r_args r2) r4) rt1) as (rt5 & Ec & Hrt5).
  { right. apply Hrt1. apply (build_fields bw lat ms). by apply list_elem_of_lookup_2 in Hx. }
  rewrite Ec.
  assert (Hu2 : u64 (size - len) = size - len) by (apply Z.mod_small; lia). rewrite Hu2.
  destruct (decide (size - len = 0)) as [Hz|Hz].
  - rewrite Hz. replace size with len in * by lia.
    assert (Hl0 : forall o d' r' h' s' rt', req_loop port_meth itf cycles fuel (Some IO_REQ_OK) o 0 d' r' h' s' rt' =
      Done (IO_REQ_OK, r', h', s', rt')) by (intros; by destruct fuel).
    rewrite Hl0. eexists _, h4, s4, rt5. split; [done|]. simpl. rewrite W, D, Ew, Edb, Eargs.
    repeat (split; [done|]). split; [|split; [by apply (same_table_trans _ rt1)|done]].
    apply (rt_piece e x i) with (1 := Hx) (2 := Hr) (3 := Hi); [lia|lia|unfold len; lia| |done].
    unfold served in Hserved. simpl in Hserved. by rewrite Ea, Ed, Es, Ew in Hserved.
  - assert (Hu1 : u64 (off + len) = off + len) by (apply Z.mod_small; lia). rewrite Hu1.
    destruct (IH (Some IO_REQ_OK) (off + len) (size - len) (d + len) (set_args (r_args r2) r4) h4 s4 rt5)
      as (r' & h' & s' & rt' & E' & W' & D' & A' & M' & T' & K').
    { lia. } { by apply (same_table_trans _ rt1). } { lia. } { lia. } { lia. } { lia. }
    { intros e' x' i' ??? a n ???. apply Hkeep. by eapply Hts. } { done. }
    { intros b Hb. apply Hcov. lia. }
    exists r', h', s', rt'. split; [done|]. simpl in *. rewrite W', D', A', W, D, Ew, Edb, Eargs.
    repeat (split; [done|]). split; [|split; [done|by intros; apply K', Hkeep]].
    replace size with (len + (size - len)) by lia. rewrite W, Ew in M'.
    apply moves_split with h4 s4; [lia|lia|lia| |].
    + apply (rt_piece e x i) with (1 := Hx) (2 := Hr) (3 := Hi); [lia|lia|unfold len; lia| |done].
      unfold served in Hserved. simpl in Hserved. by rewrite Ea, Ed, Es, Ew in Hserved.
    + by rewrite (proj2 (Z.eqb_neq d 0)) by lia.
Qed.
End Flat.

(** ** Properties *)


(** Three mappings and a default entry. *)
Definition demo_mappings : list map_entry := [
  MapEntry None (Some 0) 7 0x1000 0x100 0x1000 0 1;
  MapEntry None (Some 1) 8 0x200 0x20 0x200 0 2;
  MapEntry None (Some 2) 9 0x1100 0x40 0x1100 0 3;
  MapEntry None (Some 3) (-1) 0 0 0 0 0].

Ltac each_mapping H :=
  repeat (match type of H with ?l !! ?e = Some _ => destruct e as [|e]; [simpl in H; simplify_eq|simpl in H] end);
  try done.

Lemma demo_mappings_flat : mappings_flat demo_mappings.
Proof.
  split; [split|..].
  - intros e x Hx Hr. unfold demo_mappings in Hx. each_mapping Hx; simpl; lia.
  - intros e e' x x' Hx Hx' Hr Hr' Hne. unfold demo_mappings in *. each_mapping Hx; each_mapping Hx'; simpl; lia.
  - intros e x Hx _. unfold demo_mappings in *. by each_mapping Hx.
  - intros e e' x x' i Hx Hx' Hi Hi'. unfold demo_mappings in *. each_mapping Hx; each_mapping Hx'; by simplify_eq/=.
  - intros e x Hx Hr. unfold demo_mappings in *. each_mapping Hx; unfold shift; simpl; lia.
Qed.


(** The memories behind the mappings. *)
Definition serves (ms : list map_entry) (l : list memory) : Prop :=
  forall e x i, ms !! e = Some x -> routed x = true -> me_itf x = Some i ->
    0 <= i /\ exists m, l !! Z.to_nat i = Some m /\ mem_wf m /\ powered_up m = true /\ check_mem m = None /\
      me_base x + me_size x + shift x <= mem_size m.

(** C2: A router in front of memories behaves as one memory. The mappings do not meet, each is of less than 4
    GB (one of 4 GB hangs, see [router_4gb_hangs]), its translated range is of 64-bit addresses, and each has
    its own slave interface, behind which a memory that is powered up and without the check option holds the
    whole mapping. Then a request of 1 to 2^31 - 1 bytes at 64-bit addresses, with a data buffer, all of whose
    bytes are mapped, is answered IO_REQ_OK with its fields restored, and moves exactly its bytes between the
    buffer and the flat memory whose byte at a is the translated byte of the memory mapped at a, whatever the
    number of mappings it spans; [size] turns of the loop are enough. *)
Theorem router_flat_memory bw lat cycles ms r h l fuel
    (Hms : mappings_flat ms) (Hl : serves ms l) (Hd : 0 < r_data r) (Ha : 0 <= r_addr r)
    (Hn : 0 < r_size r < 2 ^ 31) (Hend : r_addr r + r_size r <= 2 ^ 64)
    (Hmapped : forall b, r_addr r <= b < r_addr r + r_size r ->
      exists e x, ms !! e = Some x /\ routed x = true /\ covers x b)
    (Hfuel : (Z.to_nat (r_size r) <= fuel)%nat) :
  exists r' h' l' rt', router_req (fun _ _ _ _ => None) (fun i => Some (i, bank_req cycles i)) cycles fuel r h l
      (router_build bw lat ms) = Done (IO_REQ_OK, r', h', l', rt') /\
    same_req r r' /\ served (rt_rd ms bank_rd) r h l h' l'.
Proof.
  unfold router_req. destruct (build_table bw lat ms) as (_ & _ & _ & ->). cbn [negb].
  destruct (req_loop_ok bw lat cycles ms Hms (fun _ _ _ _ => None) (fun i => Some (i, bank_req cycles i)) (fun i => i)
    (bank_req cycles) bank_rd bank_ok ltac:(done) fuel None (r_addr r) (r_size r) (r_data r) r h l
    (init_entries (router_build bw lat ms))) as (r' & h' & l' & rt' & E & W & D & A & M & _);
    [done|apply same_table_refl|done|lia|done|done| |lia|done|].
  - intros e x i Hx Hr Hi a n Hlo Hn' Hhi. destruct (Hl e x i Hx Hr Hi) as (Hi0 & m & Hm & Hw & Hp & Hc & Hsz).
    destruct (mf_size ms Hms e x Hx Hr) as (_ & ? & _). split; [done|]. exists m. repeat (split; [done|]). lia.
  - rewrite E. eexists _, h', l', rt'. split; [done|]. split; [by repeat split|done].
Qed.

Lemma demo_serves : serves demo_mappings (replicate 3 (memory_reset true (memory_start 256 0 false []))).
Proof.
  intros e x i Hx Hr Hi. unfold demo_mappings in Hx.
  each_mapping Hx; simplify_eq/=; (split; [lia|]); eexists; (split; [reflexivity|]); (repeat split; unfold shift; simpl; (done || lia)).
Qed.

Lemma router_flat_memory_witness :
  exists r' h' l' rt', router_req (fun _ _ _ _ => None) (fun i => Some (i, bank_req 0 i)) 0 8
      (demo_req 0x10FC 1000 8 true) ∅ (replicate 3 (memory_reset true (memory_start 256 0 false [])))
      (router_build 4 0 demo_mappings) = Done (IO_REQ_OK, r', h', l', rt') /\
    same_req (demo_req 0x10FC 1000 8 true) r' /\
    served (rt_rd demo_mappings bank_rd) (demo_req 0x10FC 1000 8 true) ∅
      (replicate 3 (memory_reset true (memory_start 256 0 false []))) h' l'.
Proof.
  apply (router_flat_memory 4 0 0 demo_mappings (demo_req 0x10FC 1000 8 true) ∅
           (replicate 3 (memory_reset true (memory_start 256 0 false []))) 8);
    [apply demo_mappings_flat|apply demo_serves|simpl; lia|simpl; lia|simpl; lia|simpl; lia| |simpl; lia].
  simpl. intros b Hb. destruct (decide (b < 0x1100)).
  - exists 0%nat. eexists. split; [reflexivity|]. split; [reflexivity|]. unfold covers. simpl. lia.
  - exists 2%nat. eexists. split; [reflexivity|]. split; [reflexivity|]. unfold covers. simpl. lia.
Defined.

(** A mapping of 4 GB hangs the router: a request at its base makes the loop forward pieces of
    no byte for ever, whatever the slave answers as long as it answers. *)
Theorem router_4gb_hangs {S} bw lat cycles x i (meth : io_meth S) r h s fuel
    (Hi : me_itf x = Some i) (Hp : me_port x = None) (Hid : me_id x = -1)
    (Hb : 0 <= me_base x) (Hsz : me_size x = 2 ^ 32) (Hend : me_base x + me_size x <= 2 ^ 64)
    (Hr : r_addr r = me_base x) (Hn : 0 < r_size r < 2 ^ 64)
    (Hmeth : forall r h s, exists r' h' s', meth r h s = Some (IO_REQ_OK, r', h', s') /\ r_args r' = r_args r) :
  router_req (fun _ => meth) (fun j => Some (j, meth)) cycles fuel r h s (router_build bw lat [x]) = OutOfFuel.
Proof.
  set (rt0 := init_entries (router_build bw lat [x])).
  assert (Hrouted : routed x = true) by (unfold routed; by rewrite Hsz, Hp, Hi).
  assert (Hok : mappings_ok [x]).
  { split.
    - intros [|e] y Hy _; [|done]. simplify_eq/=. lia.
    - intros [|e] [|e'] y y' Hy Hy'; simplify_eq/=; done. }
  assert (Hreq : forall rt, same_table rt0 rt -> entry_of rt 0 = x).
  { intros rt (E & _). unfold entry_of. rewrite E. change (entry_of rt0 0 = x).
    transitivity (entry_at [x] 0); [apply entry_of_init|done]. }
  assert (Hloop : forall n d size r h s rt res, same_table rt0 rt -> 0 < size < 2 ^ 64 ->
    req_loop (fun _ => meth) (fun j => Some (j, meth)) cycles n res (me_base x) size d r h s rt = OutOfFuel).
  { clear r h s Hr Hn. induction n as [|n IH]; intros d size r h s rt res Hrt Hn; cbn [req_loop];
      rewrite (proj2 (Z.eqb_neq size 0)) by lia; [done|].
    assert (Hroute : route rt (me_base x) size = Some 0%nat).
    { rewrite (route_same_table rt0) by done. apply (route_spec bw lat [x] Hok (me_base x) size Hb) with x; try done.
      unfold covers. lia. }
    rewrite Hroute, (Hreq rt Hrt).
    destruct (if negb (r_debug r) then _ else _) as [r1 rt1] eqn:Et.
    assert (Hrt1 : same_table rt0 rt1).
    { destruct (negb (r_debug r)); [|by simplify_eq].
      pose proof (account_time_keeps cycles 0 size r rt) as K. rewrite Et in K. destruct K as (_ & _ & ?).
      by apply (same_table_trans _ rt). }
    rewrite bool_decide_eq_false_2.
    2: { destruct Hrt1 as (_ & _ & -> & _). unfold rt0. simpl. intros Hdef.
         destruct (proj1 (build_fields bw lat [x]) 0%nat (eq_sym Hdef)) as (y & Hy & Hz). simplify_eq/=. lia. }
    rewrite Z.sub_diag, Z.sub_0_r, Hsz. change (s32 (2 ^ 32)) with 0. change (u64 0) with 0.
    rewrite Z.gtb_ltb, (proj2 (Z.ltb_ge size 0)) by lia.
    unfold forward. rewrite Hp, Hi. unfold master_req.
    match goal with |- context [meth ?r h s] => destruct (Hmeth r h s) as (r' & h' & s' & E & A) end.
    rewrite E. unfold arg_pop. rewrite A. simpl r_args. cbv iota beta. unfold count. rewrite Hid.
    cbn [Z.eqb Pos.eqb]. rewrite Z.add_0_r, Z.sub_0_r.
    assert (Hu : u64 (me_base x) = me_base x) by (apply Z.mod_small; lia).
    assert (Hu' : u64 size = size) by (apply Z.mod_small; lia). rewrite Hu, Hu'. by apply IH. }
  unfold router_req. destruct (build_table bw lat [x]) as (_ & _ & _ & ->). cbn [negb]. fold rt0.
  rewrite Hr, Hloop; [done|apply same_table_refl|done].
Qed.

Lemma router_4gb_hangs_witness :
  router_req (fun _ r h s => Some (IO_REQ_OK, r, h, s)) (fun j => Some (j, fun r h s => Some (IO_REQ_OK, r, h, s))) 0 100
    (demo_req 0 1000 4 false) ∅ tt (router_build 0 0 [MapEntry None (Some 0) (-1) 0 (2 ^ 32) 0 0 0]) = OutOfFuel.
Proof.
  apply (router_4gb_hangs 0 0 0 (MapEntry None (Some 0) (-1) 0 (2 ^ 32) 0 0 0) 0
           (fun r h s => Some (IO_REQ_OK, r, h, s)) (demo_req 0 1000 4 false) ∅ tt 100);
    try reflexivity; simpl; try lia. intros. by eexists _, _, _.
Defined.
