(* ===== verification/Cache.v ===== *)
(** * The cache (models/cache/cache_impl.cpp)

    A set-associative cache in front of a slave.  It refills one line at a time; a refill answered
    later by the slave leaves the request, and those that miss meanwhile, in a queue. *)

From S2P Require Import Prelude Io Memory.

(** cache_line_t; the bytes of a line are in the buffer at [l_data]. *)
Record cache_line := CacheLine {
  l_tag : Z;
  l_data : Z;
  l_timestamp : Z;
}.

(** class Cache.  Line [way] of set [index] is number [index * nb_ways + way] of [lines]; the queue
    of pending requests is the list it implements. *)
Record cache := Cache {
  nb_ways_bits : Z;
  nb_sets_bits : Z;
  line_size_bits : Z;
  enabled : bool;
  refill_latency : Z;
  refill_shift : Z;
  add_offset : Z;
  refill_timestamp : Z;
  lru_out : Z;
  flush_line_addr : Z;
  lines : list cache_line;
  refill_line : nat;
  refill_tag : Z;
  pending_refill : bool;
  refill_pending_reqs : list io_req;
  fsm_enqueued : bool;
}.

Definition nb_ways (c : cache) : Z := Z.shiftl 1 (nb_ways_bits c).
Definition nb_sets (c : cache) : Z := Z.shiftl 1 (nb_sets_bits c).
Definition line_size (c : cache) : Z := Z.shiftl 1 (line_size_bits c).

Definition set_lines (l : list cache_line) (c : cache) : cache :=
  Cache (nb_ways_bits c) (nb_sets_bits c) (line_size_bits c) (enabled c) (refill_latency c)
    (refill_shift c) (add_offset c) (refill_timestamp c) (lru_out c) (flush_line_addr c) l
    (refill_line c) (refill_tag c) (pending_refill c) (refill_pending_reqs c) (fsm_enqueued c).
Definition set_pending (b : bool) (q : list io_req) (c : cache) : cache :=
  Cache (nb_ways_bits c) (nb_sets_bits c) (line_size_bits c) (enabled c) (refill_latency c)
    (refill_shift c) (add_offset c) (refill_timestamp c) (lru_out c) (flush_line_addr c) (lines c)
    (refill_line c) (refill_tag c) b q (fsm_enqueued c).
Definition set_refill (line : nat) (tag : Z) (c : cache) : cache :=
  Cache (nb_ways_bits c) (nb_sets_bits c) (line_size_bits c) (enabled c) (refill_latency c)
    (refill_shift c) (add_offset c) (refill_timestamp c) (lru_out c) (flush_line_addr c) (lines c)
    line tag (pending_refill c) (refill_pending_reqs c) (fsm_enqueued c).
Definition set_refill_timestamp (t : Z) (c : cache) : cache :=
  Cache (nb_ways_bits c) (nb_sets_bits c) (line_size_bits c) (enabled c) (refill_latency c)
    (refill_shift c) (add_offset c) t (lru_out c) (flush_line_addr c) (lines c)
    (refill_line c) (refill_tag c) (pending_refill c) (refill_pending_reqs c) (fsm_enqueued c).
Definition set_lru_out (v : Z) (c : cache) : cache :=
  Cache (nb_ways_bits c) (nb_sets_bits c) (line_size_bits c) (enabled c) (refill_latency c)
    (refill_shift c) (add_offset c) (refill_timestamp c) v (flush_line_addr c) (lines c)
    (refill_line c) (refill_tag c) (pending_refill c) (refill_pending_reqs c) (fsm_enqueued c).
Definition set_fsm (b : bool) (c : cache) : cache :=
  Cache (nb_ways_bits c) (nb_sets_bits c) (line_size_bits c) (enabled c) (refill_latency c)
    (refill_shift c) (add_offset c) (refill_timestamp c) (lru_out c) (flush_line_addr c) (lines c)
    (refill_line c) (refill_tag c) (pending_refill c) (refill_pending_reqs c) b.

(** Cache::enable_sync and Cache::enable *)
Definition enable_sync (active : bool) (c : cache) : cache :=
  Cache (nb_ways_bits c) (nb_sets_bits c) (line_size_bits c) active (refill_latency c)
    (refill_shift c) (add_offset c) (refill_timestamp c) (lru_out c) (flush_line_addr c) (lines c)
    (refill_line c) (refill_tag c) (pending_refill c) (refill_pending_reqs c) (fsm_enqueued c).
(** Cache::flush_line_addr_sync *)
Definition flush_line_addr_sync (addr : Z) (c : cache) : cache :=
  Cache (nb_ways_bits c) (nb_sets_bits c) (line_size_bits c) (enabled c) (refill_latency c)
    (refill_shift c) (add_offset c) (refill_timestamp c) (lru_out c) addr (lines c)
    (refill_line c) (refill_tag c) (pending_refill c) (refill_pending_reqs c) (fsm_enqueued c).

(** The tag of an empty line: -1 in a uint32_t. *)
Definition no_tag : Z := u32 (-1).

(** Cache::get_line_base and Cache::get_line_index, on unsigned int. *)
Definition get_line_base (c : cache) (addr : Z) : Z := Z.land addr (u32 (Z.lnot (line_size c - 1))).
Definition get_line_index (c : cache) (addr : Z) : Z :=
  Z.land (Z.shiftr addr (line_size_bits c)) (nb_sets c - 1).

(** Cache::flush *)
Definition flush_one (x : cache_line) : cache_line := CacheLine no_tag (l_data x) (l_timestamp x).
Definition flush (c : cache) : cache := set_lines (flush_one <$> lines c) c.
(** Cache::flush_sync; the acknowledge goes to flush_ack. *)
Definition flush_sync (active : bool) (c : cache) : cache := if active then flush c else c.

(** Cache::flush_line: the ways of the set from number [i] on. *)
Fixpoint flush_ways (n : nat) (i : nat) (tag : Z) (l : list cache_line) : list cache_line :=
  match n with
  | O => l
  | S n => flush_ways n (S i) tag (alter (fun x => if l_tag x =? tag then flush_one x else x) i l)
  end.
Definition flush_line (addr : Z) (c : cache) : cache :=
  let tag := Z.shiftr addr (line_size_bits c) in
  let line_index := get_line_index c addr in
  set_lines (flush_ways (Z.to_nat (nb_ways c)) (Z.to_nat (line_index * nb_ways c)) tag (lines c)) c.
Definition flush_line_sync (active : bool) (c : cache) : cache :=
  if active then flush_line (flush_line_addr c) c else c.

(** Cache::stepLru: an 8-bit shift register elects the way. *)
Definition stepLru (c : cache) : Z * cache :=
  let bit k := Z.land (Z.shiftr (lru_out c) k) 1 in
  let linear_feedback := if Z.lxor (Z.lxor (Z.lxor (bit 7) (bit 3)) (bit 2)) (bit 1) =? 0 then 1 else 0 in
  let lru := u8 (Z.lor (Z.shiftl (lru_out c) 1) (Z.land linear_feedback 1)) in
  (Z.land (Z.shiftr lru 1) (nb_ways c - 1), set_lru_out lru c).

(** The search of Cache::get_line among the [n] ways from line number [i] on. *)
Fixpoint find_way (n : nat) (i : nat) (tag : Z) (l : list cache_line) : option nat :=
  match n with
  | O => None
  | S n =>
      match l !! i with
      | Some x => if l_tag x =? tag then Some i else find_way n (S i) tag l
      | None => None
      end
  end.

(** The tag and set of an address, and the line that holds it. *)
Definition line_tag (c : cache) (offset : Z) : Z := u32 (Z.shiftr offset (line_size_bits c)).
Definition line_set (c : cache) (offset : Z) : Z := Z.land (line_tag c offset) (nb_sets c - 1).
Definition get_line (c : cache) (offset : Z) : option nat :=
  find_way (Z.to_nat (nb_ways c)) (Z.to_nat (line_set c offset * nb_ways c)) (line_tag c offset) (lines c).

(** The address of a refill. *)
Definition full_addr (c : cache) (addr : Z) : Z :=
  u32 (get_line_base c (u32 (Z.shiftl (u32 addr) (refill_shift c))) + add_offset c).

(** The request object of the refills, as Cache::refill sets it up. *)
Definition new_refill_req (c : cache) (addr data : Z) : io_req :=
  IoReq (full_addr c addr) data (line_size c) false false 0 0 0 [].

(** memcpy between two buffers. *)
Definition memcpy (dst src n : Z) (h : host) : host := store_bytes dst (load_bytes src n h) h.

(** Cache::build.  [buf] gives the buffers of the lines; the fields it does not set hold [garbage]. *)
Definition cache_build (nb_sets_bits nb_ways_bits line_size_bits refill_latency refill_shift add_offset : Z)
    (buf : nat -> Z) (garbage : Z) : cache :=
  let n := Z.to_nat (Z.shiftl 1 nb_sets_bits * Z.shiftl 1 nb_ways_bits) in
  Cache nb_ways_bits nb_sets_bits line_size_bits false refill_latency refill_shift (u32 add_offset) (-1) 0
    (u32 garbage) ((fun i => CacheLine no_tag (buf i) (-1)) <$> seq 0 n) (Z.to_nat garbage) (u32 garbage)
    false [] false.

Section Refill.
Context {S : Type} (refill_port : Z) (refill_itf : io_meth S) (cycles : Z).

(** Cache::refill: the line, or [None] with whether the request is pending. *)
Definition refill (line_index addr tag : Z) (r : io_req) (h : host) (s : S) (c : cache) :
    option (option nat * bool * io_req * host * S * cache) :=
  if pending_refill c then
    let r := save r in
    Some (None, true, r, h, s, set_pending true (refill_pending_reqs c ++ [r]) c)
  else
    let '(way, c) := stepLru c in
    let line := Z.to_nat (line_index * nb_ways c + way mod nb_ways c) in
    let* x := lines c !! line in
    let* (err, rr, h, s) := master_req refill_port refill_itf (new_refill_req c addr (l_data x)) h s in
    match err with
    | IO_REQ_OK =>
        if negb (r_debug r) then
          let latency := if cycles <? refill_timestamp c then refill_timestamp c - cycles else 0 in
          let latency := latency + (get_full_latency rr + refill_latency c) in
          let c := set_refill_timestamp (cycles + latency) c in
          let c := set_lines (<[line := CacheLine tag (l_data x) (cycles + latency)]> (lines c)) c in
          Some (Some line, false, inc_latency latency r, h, s, c)
        else
          Some (Some line, false, r, h, s,
                set_lines (<[line := CacheLine tag (l_data x) (l_timestamp x)]> (lines c)) c)
    | IO_REQ_PENDING =>
        let r := save r in
        Some (None, true, r, h, s,
              set_pending true (r :: refill_pending_reqs c) (set_refill line tag c))
    | _ => Some (None, false, r, h, s, c)
    end.

(** Cache::handle_req.  The transfer is with the first bytes of the line. *)
Definition handle_req (r : io_req) (h : host) (s : S) (c : cache) :
    option (io_req_status_e * io_req * host * S * cache) :=
  let offset := r_addr r in
  let data := r_data r in
  let size := r_size r in
  let finish line r h s c :=
    let* x := lines c !! line in
    let h := if negb (data =? 0) then
               if negb (r_is_write r) then memcpy data (l_data x) size h else memcpy (l_data x) data size h
             else h in
    Some (IO_REQ_OK, r, h, s, c) in
  match get_line c offset with
  | None =>
      let* (hit, pending, r, h, s, c) := refill (line_set c offset) offset (line_tag c offset) r h s c in
      match hit with
      | None => Some (if pending then IO_REQ_PENDING else IO_REQ_INVALID, r, h, s, c)
      | Some line => finish line r h s c
      end
  | Some line =>
      let* x := lines c !! line in
      let r := if negb (r_debug r) && (cycles <? l_timestamp x) then inc_latency (l_timestamp x - cycles) r
               else r in
      finish line r h s c
  end.

(** Cache::req *)
Definition cache_req (r : io_req) (h : host) (s : S) (c : cache) :
    option (io_req_status_e * io_req * host * S * cache) :=
  if negb (enabled c) then
    let r := set_addr (u64 (u64 (Z.shiftl (r_addr r) (refill_shift c)) + add_offset c)) r in
    let* (st, r, h, s) := req_forward refill_itf r h s in
    Some (st, r, h, s, c)
  else handle_req r h s c.

(** Cache::check_state *)
Definition check_state (c : cache) : cache :=
  if negb (pending_refill c) && negb (bool_decide (refill_pending_reqs c = [])) && negb (fsm_enqueued c)
  then set_fsm true c else c.

(** Cache::refill_response on the answer [rr] to the refill request: the response sent, and the
    state. *)
Definition refill_response (rr : io_req) (h : host) (c : cache) : option (io_req * host * cache) :=
  match refill_pending_reqs c with
  | [] => None
  | r :: q =>
      let* r := restore r in
      let data := r_data r in
      let is_write := r_is_write rr in
      let size := r_size r in
      let c := set_pending false q c in
      let* x := lines c !! refill_line c in
      let '(h, c) :=
        if negb (data =? 0) then
          (if negb is_write then memcpy data (l_data x) size h else memcpy (l_data x) data size h,
           set_lines (<[refill_line c := CacheLine (refill_tag c) (l_data x) (l_timestamp x)]> (lines c)) c)
        else (h, c) in
      Some (r, h, check_state c)
  end.

(** Cache::fsm_handler: the response sent, if any, and the state. *)
Definition fsm_handler (h : host) (s : S) (c : cache) : option (option io_req * host * S * cache) :=
  let c := set_fsm false c in
  match refill_pending_reqs c with
  | r :: q =>
      if pending_refill c then Some (None, h, s, check_state c)
      else
        let* r := restore r in
        let* (st, r, h, s, c) := handle_req r h s (set_pending (pending_refill c) q c) in
        Some (if decide (st = IO_REQ_OK) then Some r else None, h, s, check_state c)
  | [] => Some (None, h, s, check_state c)
  end.
End Refill.

(** ** The lines of a cache *)

Record cache_wf (c : cache) : Prop := {
  cw_bits : 0 <= nb_ways_bits c /\ 0 <= nb_sets_bits c /\ 1 <= line_size_bits c;
  cw_len : Z.of_nat (length (lines c)) = nb_sets c * nb_ways c;
}.

Lemma shiftl_1_pos n : 0 < Z.shiftl 1 n \/ n < 0.
Proof. destruct (Z.ltb_spec n 0); [by right|left]. rewrite Z.shiftl_1_l. by apply Z.pow_pos_nonneg. Qed.

Lemma nb_pos c : cache_wf c -> 0 < nb_ways c /\ 0 < nb_sets c /\ 0 < line_size c.
Proof.
  intros [(? & ? & ?) _]. unfold nb_ways, nb_sets, line_size.
  split; [|split]; edestruct shiftl_1_pos; try done; lia.
Qed.

Lemma set_range c t : cache_wf c -> 0 <= Z.land t (nb_sets c - 1) < nb_sets c.
Proof.
  intros Hw. pose proof (nb_pos c Hw). destruct Hw as [(? & ? & ?) _]. unfold nb_sets in *.
  rewrite Z.shiftl_1_l in *. replace (2 ^ nb_sets_bits c - 1) with (Z.ones (nb_sets_bits c)) by (rewrite Z.ones_equiv; lia).
  rewrite Z.land_ones by done. apply Z.mod_pos_bound. lia.
Qed.

(** The set of a tag, as the lines of that set are numbered. *)
Definition tag_set (c : cache) (t : Z) : Z := Z.land t (nb_sets c - 1).
Definition in_set (c : cache) (t : Z) (i : nat) : Prop :=
  tag_set c t * nb_ways c <= Z.of_nat i < tag_set c t * nb_ways c + nb_ways c.

Lemma in_set_length c t i : cache_wf c -> in_set c t i -> (i < length (lines c))%nat.
Proof.
  intros Hw [_ Hi]. pose proof (nb_pos c Hw). pose proof (set_range c t Hw). destruct Hw as [_ Hl].
  fold (tag_set c t) in *. nia.
Qed.

Lemma find_way_some n i tag l j :
  find_way n i tag l = Some j ->
  (i <= j < i + n)%nat /\ exists x, l !! j = Some x /\ l_tag x = tag.
Proof.
  revert i. induction n as [|n IH]; intros i; simpl; [done|].
  destruct (l !! i) as [x|] eqn:E; [|done]. destruct (Z.eqb_spec (l_tag x) tag).
  - intros [= <-]. split; [lia|]. by exists x.
  - intros H%IH. split; [lia|]. apply H.
Qed.

Lemma find_way_none n i tag l :
  (i + n <= length l)%nat -> find_way n i tag l = None ->
  forall j x, (i <= j < i + n)%nat -> l !! j = Some x -> l_tag x <> tag.
Proof.
  revert i. induction n as [|n IH]; intros i Hl E j x Hj Hx; [lia|]. simpl in E.
  destruct (l !! i) as [y|] eqn:Ey; [|apply lookup_ge_None in Ey; lia].
  destruct (Z.eqb_spec (l_tag y) tag); [done|]. destruct (decide (j = i)) as [->|]; [congruence|].
  apply (IH (Datatypes.S i) ltac:(lia) E j); [lia|done].
Qed.

(** The search of an address finds the line of its set with its tag. *)
Lemma set_bounds c t i : cache_wf c ->
  in_set c t i <->
  (Z.to_nat (tag_set c t * nb_ways c) <= i < Z.to_nat (tag_set c t * nb_ways c) + Z.to_nat (nb_ways c))%nat.
Proof.
  intros Hw. pose proof (nb_pos c Hw). pose proof (set_range c t Hw) as Hs. fold (tag_set c t) in Hs.
  unfold in_set. nia.
Qed.

Lemma get_line_some c a i :
  cache_wf c -> get_line c a = Some i ->
  in_set c (line_tag c a) i /\ exists x, lines c !! i = Some x /\ l_tag x = line_tag c a.
Proof. intros Hw [H1 H2]%find_way_some. split; [|done]. by apply set_bounds. Qed.

Lemma get_line_none c a :
  cache_wf c -> get_line c a = None ->
  forall i x, in_set c (line_tag c a) i -> lines c !! i = Some x -> l_tag x <> line_tag c a.
Proof.
  intros Hw E i x Hi. pose proof (nb_pos c Hw). pose proof (set_range c (line_tag c a) Hw) as Hs.
  eapply find_way_none; [|exact E|by apply set_bounds].
  destruct Hw as [_ Hl]. change (line_set c a) with (Z.land (line_tag c a) (nb_sets c - 1)). nia.
Qed.

(** ** The tags *)

(** Each line is in the set of its tag, and no two lines have the same one. *)
Record tags_inv (ins : Z -> nat -> Prop) (l : list cache_line) : Prop := {
  tg_place i x : l !! i = Some x -> l_tag x <> no_tag -> ins (l_tag x) i;
  tg_unique i j x y : l !! i = Some x -> l !! j = Some y -> l_tag x <> no_tag -> l_tag x = l_tag y -> i = j;
}.

Definition absent (t : Z) (l : list cache_line) : Prop := forall i x, l !! i = Some x -> l_tag x <> t.

(** What only removes tags, and what gives a line a tag that no line has. *)
Definition fewer_tags (l' l : list cache_line) : Prop :=
  forall i y, l' !! i = Some y -> l_tag y <> no_tag -> exists x, l !! i = Some x /\ l_tag x = l_tag y.

Lemma tags_fewer ins l l' : fewer_tags l' l -> tags_inv ins l -> tags_inv ins l'.
Proof.
  intros Hf [Hp Hu]. split.
  - intros i y Hy Ht. destruct (Hf i y Hy Ht) as (x & Hx & E). rewrite <- E in *. by apply Hp.
  - intros i j y z Hy Hz Ht E. destruct (Hf i y Hy Ht) as (x & Hx & Ex).
    destruct (Hf j z Hz ltac:(congruence)) as (x' & Hx' & Ex').
    apply (Hu i j x x'); congruence.
Qed.

Lemma absent_fewer t l l' : t <> no_tag -> fewer_tags l' l -> absent t l -> absent t l'.
Proof.
  intros Ht Hf Ha i y Hy E. subst t. destruct (Hf i y Hy Ht) as (x & Hx & E). by apply (Ha i x Hx).
Qed.

Lemma tags_fill ins l i y :
  tags_inv ins l -> ins (l_tag y) i -> absent (l_tag y) l -> tags_inv ins (<[i := y]> l).
Proof.
  intros [Hp Hu] Hi Ha. split.
  - intros j x [(-> & <- & _)|[Hj Hx]]%list_lookup_insert_Some; [done|by apply Hp].
  - intros j k x z [(-> & <- & _)|[Hj Hx]]%list_lookup_insert_Some
      [(-> & <- & _)|[Hk Hz]]%list_lookup_insert_Some Ht E; [done| | |by apply (Hu j k x z)].
    + by destruct (Ha k z Hz).
    + by destruct (Ha j x Hx).
Qed.

(** A request in the queue restores to an access to the first 4 GB. *)
Definition addr_ok (r : io_req) : Prop := 0 <= r_addr r < 2 ^ 32.
Definition saved (r : io_req) : Prop := exists r', restore r = Some r' /\ addr_ok r'.

Record cache_inv (c : cache) : Prop := {
  ci_wf : cache_wf c;
  ci_tags : tags_inv (in_set c) (lines c);
  ci_pending : pending_refill c = true ->
    refill_tag c <> no_tag /\ in_set c (refill_tag c) (refill_line c) /\ absent (refill_tag c) (lines c) /\
    refill_pending_reqs c <> [];
  ci_queue : Forall saved (refill_pending_reqs c);
}.

Lemma line_tag_value c a :
  cache_wf c -> 0 <= a < 2 ^ 32 -> line_tag c a = Z.shiftr a (line_size_bits c) /\ line_tag c a <> no_tag.
Proof.
  intros [(_ & _ & Hb) _] Ha. unfold line_tag.
  assert (Hr : 0 <= Z.shiftr a (line_size_bits c) < 2 ^ 31).
  { rewrite Z.shiftr_div_pow2 by lia. split; [apply Z.div_pos; lia|].
    apply Z.div_lt_upper_bound; [lia|].
    assert (2 ^ 1 <= 2 ^ line_size_bits c) by (apply Z.pow_le_mono_r; lia). lia. }
  rewrite uw_small by lia. split; [done|]. unfold no_tag.
  assert (E : u32 (-1) = 2 ^ 32 - 1) by reflexivity. rewrite E. lia.
Qed.

(** On a miss no line at all has the tag. *)
Lemma miss_absent c a :
  cache_wf c -> tags_inv (in_set c) (lines c) -> 0 <= a < 2 ^ 32 -> get_line c a = None ->
  absent (line_tag c a) (lines c).
Proof.
  intros Hw [Hp _] Ha E i x Hx Ht. destruct (line_tag_value c a Hw Ha) as [_ Hn].
  refine (get_line_none c a Hw E i x _ Hx Ht). rewrite <- Ht. apply Hp; congruence.
Qed.

Lemma victim_in_set c t (way : Z) :
  cache_wf c -> in_set c t (Z.to_nat (tag_set c t * nb_ways c + way mod nb_ways c)).
Proof.
  intros Hw. pose proof (nb_pos c Hw). pose proof (set_range c t Hw) as Hs. fold (tag_set c t) in Hs.
  pose proof (Z.mod_pos_bound way (nb_ways c) ltac:(lia)). unfold in_set. nia.
Qed.

Lemma inv_lines c l :
  cache_inv c -> length l = length (lines c) -> tags_inv (in_set c) l ->
  (pending_refill c = true -> absent (refill_tag c) l) -> cache_inv (set_lines l c).
Proof.
  intros [[Hb Hl] Ht Hp Hq] E Htg Ha. split; [|done| |done].
  - split; [done|]. simpl. by rewrite E.
  - intros Hpend. specialize (Hp Hpend). specialize (Ha Hpend). tauto.
Qed.

Lemma inv_fewer c l :
  cache_inv c -> length l = length (lines c) -> fewer_tags l (lines c) -> cache_inv (set_lines l c).
Proof.
  intros Hc E Hf. apply inv_lines; [done|done|by eapply tags_fewer, Hc|].
  intros Hp. destruct (ci_pending c Hc Hp) as (? & _ & ? & _). by eapply absent_fewer.
Qed.

(** ** Flushing *)

Lemma flush_fewer l : fewer_tags (flush_one <$> l) l.
Proof.
  intros i y Hy Ht. rewrite list_lookup_fmap in Hy. destruct (l !! i); [|done]. by simplify_eq/=.
Qed.

Lemma lookup_flush_ways n i tag l j :
  flush_ways n i tag l !! j =
  (fun x => if bool_decide (i <= j < i + n)%nat && (l_tag x =? tag) then flush_one x else x) <$> l !! j.
Proof.
  revert i l. induction n as [|n IH]; intros i l; cbn [flush_ways].
  - rewrite bool_decide_eq_false_2 by lia. by destruct (l !! j).
  - rewrite IH. destruct (decide (j = i)) as [->|Hne].
    + rewrite list_lookup_alter_eq, (bool_decide_eq_false_2 (Datatypes.S i <= i < _)%nat) by lia.
      rewrite (bool_decide_eq_true_2 (i <= i < _)%nat) by lia. by destruct (l !! i).
    + rewrite list_lookup_alter_ne by done. destruct (l !! j); [|done]. simpl. do 2 f_equal.
      repeat case_bool_decide; try done; lia.
Qed.

Lemma length_flush_ways n i tag l : length (flush_ways n i tag l) = length l.
Proof. revert i l. induction n as [|n IH]; intros i l; simpl; [done|]. by rewrite IH, length_alter. Qed.

Lemma flush_ways_fewer n i tag l : fewer_tags (flush_ways n i tag l) l.
Proof.
  intros j y Hy Ht. rewrite lookup_flush_ways in Hy. destruct (l !! j) as [x|]; [|done].
  simplify_eq/=. exists x. split; [done|]. by destruct (_ && _).
Qed.

Lemma flush_inv c : cache_inv c -> cache_inv (flush c).
Proof. intros H. apply inv_fewer; [done|by rewrite length_fmap|apply flush_fewer]. Qed.

Lemma flush_line_inv addr c : cache_inv c -> cache_inv (flush_line addr c).
Proof. intros H. apply inv_fewer; [done|apply length_flush_ways|apply flush_ways_fewer]. Qed.

(** ** The requests *)

Lemma wf_frame c c' :
  nb_ways_bits c' = nb_ways_bits c -> nb_sets_bits c' = nb_sets_bits c ->
  line_size_bits c' = line_size_bits c -> length (lines c') = length (lines c) -> cache_wf c -> cache_wf c'.
Proof.
  intros E1 E2 E3 E4 [Hb Hl]. split; [by rewrite E1, E2, E3|].
  unfold nb_sets, nb_ways. by rewrite E1, E2, E4.
Qed.

Lemma inv_frame c c' :
  nb_ways_bits c' = nb_ways_bits c -> nb_sets_bits c' = nb_sets_bits c ->
  line_size_bits c' = line_size_bits c -> lines c' = lines c -> pending_refill c' = pending_refill c ->
  refill_tag c' = refill_tag c -> refill_line c' = refill_line c ->
  refill_pending_reqs c' = refill_pending_reqs c -> cache_inv c -> cache_inv c'.
Proof.
  intros E1 E2 E3 E4 E5 E6 E7 E8 [Hw Ht Hp Hq]. split.
  - by apply (wf_frame c); rewrite ?E4.
  - rewrite E4. unfold in_set, tag_set, nb_sets, nb_ways in *. by rewrite E1, E2.
  - rewrite E4, E5, E6, E7, E8. unfold in_set, tag_set, nb_sets, nb_ways in *. by rewrite E1, E2.
  - by rewrite E8.
Qed.

Lemma set_pending_inv b q c :
  cache_inv c -> Forall saved q ->
  (b = true -> refill_tag c <> no_tag /\ in_set c (refill_tag c) (refill_line c) /\
    absent (refill_tag c) (lines c) /\ q <> []) ->
  cache_inv (set_pending b q c).
Proof. intros [Hw Ht _ _] Hq Hp. split; [by apply (wf_frame c)|done|done|done]. Qed.

Lemma saved_save r : addr_ok r -> saved (save r).
Proof. intros H. exists r. by rewrite restore_save. Qed.

Lemma fill_inv c i y :
  cache_inv c -> pending_refill c = false -> in_set c (l_tag y) i -> absent (l_tag y) (lines c) ->
  cache_inv (set_lines (<[i := y]> (lines c)) c).
Proof.
  intros Hc Hp Hi Ha. apply inv_lines; [done|apply length_insert|by apply tags_fill; [apply Hc|..]|].
  by rewrite Hp.
Qed.

Lemma check_state_inv c : cache_inv c -> cache_inv (check_state c).
Proof. intros H. unfold check_state. destruct (_ && _); [by apply (inv_frame c)|done]. Qed.

Section Requests.
Context {S : Type} (refill_port : Z) (refill_itf : io_meth S) (cycles : Z).

Lemma refill_inv r h s c hit p r' h' s' c' :
  cache_inv c -> addr_ok r -> get_line c (r_addr r) = None ->
  refill refill_port refill_itf cycles (line_set c (r_addr r)) (r_addr r) (line_tag c (r_addr r)) r h s c =
    Some (hit, p, r', h', s', c') ->
  cache_inv c'.
Proof.
  intros Hc Hr Hmiss E. pose proof (ci_wf c Hc) as Hw. unfold refill in E. set (a := r_addr r) in *.
  pose proof (miss_absent c a Hw (ci_tags c Hc) Hr Hmiss) as Ha.
  destruct (line_tag_value c a Hw Hr) as [_ Hnt].
  destruct (pending_refill c) eqn:P.
  { simplify_eq. apply set_pending_inv; [done|apply Forall_app; split; [apply Hc|]|].
    - constructor; [by apply saved_save|done].
    - intros _. destruct (ci_pending c Hc P) as (? & ? & ? & ?). do 3 (split; [done|]).
      by intros [? ?]%app_eq_nil. }
  destruct (stepLru c) as [way c1] eqn:L.
  assert (Hc1 : cache_inv c1 /\ c1 = set_lru_out (lru_out c1) c).
  { unfold stepLru in L. simplify_eq/=. split; [by apply (inv_frame c)|done]. }
  destruct Hc1 as [Hc1 Ec1]. rewrite Ec1 in E. change (nb_ways (set_lru_out _ c)) with (nb_ways c) in E.
  pose proof (victim_in_set c (line_tag c a) way Hw) as Hv. unfold tag_set in Hv. fold (line_set c a) in Hv.
  rewrite <- Ec1 in E. set (line := Z.to_nat _) in *.
  assert (El : lines c1 = lines c) by (by rewrite Ec1). assert (Ep : pending_refill c1 = false) by (by rewrite Ec1).
  assert (Hv1 : in_set c1 (line_tag c a) line) by (by rewrite Ec1).
  destruct (lines c1 !! line) as [x|]; [|done].
  destruct (master_req _ _ _ _ _) as [[[[err rr] h1] s1]|]; [|done]. destruct err; [|by simplify_eq..|].
  - destruct (negb (r_debug r)); simplify_eq.
    + apply (inv_frame (set_lines (<[line:=CacheLine (line_tag c a) (l_data x)
        (cycles + ((if cycles <? refill_timestamp c1 then refill_timestamp c1 - cycles else 0) +
         (get_full_latency rr + refill_latency c1)))]> (lines c1)) c1)); try done.
      apply fill_inv; [done..|by rewrite El].
    + apply fill_inv; [done..|by rewrite El].
  - simplify_eq. destruct Hc1 as [W T _ Q]. split; [by apply (wf_frame c1)|done| |].
    + intros _. simpl. rewrite El. do 3 (split; [done|]). done.
    + constructor; [by apply saved_save|done].
Qed.

Lemma handle_req_inv r h s c st r' h' s' c' :
  cache_inv c -> addr_ok r -> handle_req refill_port refill_itf cycles r h s c = Some (st, r', h', s', c') ->
  cache_inv c'.
Proof.
  intros Hc Hr E. unfold handle_req in E. destruct (get_line c (r_addr r)) as [line|] eqn:G.
  - repeat case_match; by simplify_eq.
  - destruct (refill _ _ _ _ _ _ _ _ _ _) as [[[[[[hit p] r1] h1] s1] c1]|] eqn:R; [|done].
    apply refill_inv in R; [|done..]. repeat case_match; by simplify_eq.
Qed.

Lemma cache_req_inv r h s c st r' h' s' c' :
  cache_inv c -> addr_ok r -> cache_req refill_port refill_itf cycles r h s c = Some (st, r', h', s', c') ->
  cache_inv c'.
Proof.
  intros Hc Hr E. unfold cache_req in E. destruct (negb (enabled c)); [repeat case_match; by simplify_eq|].
  by eapply handle_req_inv.
Qed.

Lemma response_inv rr h c r' h' c' :
  cache_inv c -> pending_refill c = true -> refill_response rr h c = Some (r', h', c') -> cache_inv c'.
Proof.
  intros Hc P E. destruct (ci_pending c Hc P) as (Hnt & Hin & Hab & _). unfold refill_response in E.
  destruct (refill_pending_reqs c) as [|r q] eqn:Q; [done|].
  destruct (restore r) as [r1|]; [|done]. simpl in E.
  pose proof (ci_queue c Hc) as Hq. rewrite Q in Hq. inversion_clear Hq as [|? ? _ Hq'].
  assert (Hc1 : cache_inv (set_pending false q c)) by (by apply set_pending_inv).
  destruct (lines c !! refill_line c) as [x|]; [|done].
  destruct (negb (r_data r1 =? 0)); simplify_eq; apply check_state_inv; [|done].
  by apply (fill_inv (set_pending false q c)).
Qed.

Lemma fsm_inv h s c out h' s' c' :
  cache_inv c -> fsm_handler refill_port refill_itf cycles h s c = Some (out, h', s', c') -> cache_inv c'.
Proof.
  intros Hc E. unfold fsm_handler in E.
  assert (Hc1 : cache_inv (set_fsm false c)) by (by apply (inv_frame c)).
  change (refill_pending_reqs (set_fsm false c)) with (refill_pending_reqs c) in E.
  destruct (refill_pending_reqs c) as [|r q] eqn:Q; [simplify_eq; by apply check_state_inv|].
  change (pending_refill (set_fsm false c)) with (pending_refill c) in E.
  destruct (pending_refill c) eqn:P; [simplify_eq; by apply check_state_inv|].
  pose proof (ci_queue c Hc) as Hq. rewrite Q in Hq. inversion_clear Hq as [|? ? Hr Hq'].
  destruct Hr as (r1 & E1 & Hr1). rewrite E1 in E.
  destruct (handle_req _ _ _ _ _ _ _) as [[[[[st r2] h2] s2] c2]|] eqn:R; [|done]. simplify_eq.
  apply check_state_inv. eapply handle_req_inv; [|exact Hr1|exact R].
  by apply (set_pending_inv false q (set_fsm false c)).
Qed.
End Requests.

Lemma get_line_iff c a i :
  cache_inv c -> 0 <= a < 2 ^ 32 ->
  get_line c a = Some i <-> exists x, lines c !! i = Some x /\ l_tag x = line_tag c a.
Proof.
  intros Hc Ha. pose proof (ci_wf c Hc) as Hw. split; [by intros [_ ?]%(get_line_some c a i Hw)|].
  intros (x & Hx & Ht). destruct (ci_tags c Hc) as [Hp Hu]. destruct (line_tag_value c a Hw Ha) as [_ Hn].
  destruct (get_line c a) as [j|] eqn:G.
  - apply get_line_some in G as [_ (y & Hy & Hty)]; [|done]. f_equal. apply (Hu j i y x Hy Hx); congruence.
  - destruct (miss_absent c a Hw (ci_tags c Hc) Ha G i x Hx Ht).
Qed.

Lemma build_inv nsb nwb lsb lat shift off buf garbage :
  0 <= nwb -> 0 <= nsb -> 1 <= lsb -> cache_inv (cache_build nsb nwb lsb lat shift off buf garbage).
Proof.
  intros Hw Hs Hl. destruct (shiftl_1_pos nwb); [|lia]. destruct (shiftl_1_pos nsb); [|lia].
  assert (Hn : forall i x, lines (cache_build nsb nwb lsb lat shift off buf garbage) !! i = Some x ->
    l_tag x = no_tag).
  { intros i x Hx. simpl in Hx. rewrite list_lookup_fmap in Hx. destruct (seq _ _ !! i); by simplify_eq/=. }
  split; [split; [done|]|split|done|constructor].
  - simpl. rewrite length_fmap, length_seq. unfold nb_sets, nb_ways. simpl. lia.
  - intros i x Hx []. by apply (Hn i).
  - intros i j x y Hx _ []. by apply (Hn i).
Qed.

(** The calls a cache receives, with any slave behind it: requests of its masters, the answer to a
    pending refill, its own event, and the control wires. *)
Inductive cache_step (c : cache) : cache -> Prop :=
  | step_req (S : Type) port (itf : io_meth S) cycles r h s st r' h' s' c' :
      addr_ok r -> cache_req port itf cycles r h s c = Some (st, r', h', s', c') -> cache_step c c'
  | step_response rr h r' h' c' :
      pending_refill c = true -> refill_response rr h c = Some (r', h', c') -> cache_step c c'
  | step_fsm (S : Type) port (itf : io_meth S) cycles h s out h' s' c' :
      fsm_handler port itf cycles h s c = Some (out, h', s', c') -> cache_step c c'
  | step_enable active : cache_step c (enable_sync active c)
  | step_flush active : cache_step c (flush_sync active c)
  | step_flush_addr addr : cache_step c (flush_line_addr_sync addr c)
  | step_flush_line active : cache_step c (flush_line_sync active c).

Lemma step_inv c c' : cache_inv c -> cache_step c c' -> cache_inv c'.
Proof.
  intros Hc []; [by eapply cache_req_inv|by eapply response_inv|by eapply fsm_inv|by apply (inv_frame c)| |
    by apply (inv_frame c)|].
  - unfold flush_sync. destruct active; [by apply flush_inv|done].
  - unfold flush_line_sync. destruct active; [by apply flush_line_inv|done].
Qed.

Lemma reachable_inv c c' : cache_inv c -> rtc cache_step c c' -> cache_inv c'.
Proof. intros Hc H. induction H; [done|]. eauto using step_inv. Qed.

(** In every state a cache reaches, by any sequence of requests to the first 4 GB, answers to its
    refills, events, flushes and enabling, with any slave behind it: an address hits exactly the one
    line that holds its tag (no line is cached twice), the line being refilled does not hit, and the
    answer to a pending refill always finds the request it is for. *)
Theorem cache_tags_unique nsb nwb lsb lat shift off buf garbage c a :
  0 <= nwb -> 0 <= nsb -> 1 <= lsb -> 0 <= a < 2 ^ 32 ->
  rtc cache_step (cache_build nsb nwb lsb lat shift off buf garbage) c ->
  (forall i, get_line c a = Some i <-> exists x, lines c !! i = Some x /\ l_tag x = line_tag c a) /\
  (pending_refill c = true -> line_tag c a = refill_tag c -> get_line c a = None) /\
  (pending_refill c = true -> forall rr h, exists r' h' c', refill_response rr h c = Some (r', h', c')).
Proof.
  intros Hw Hs Hl Ha H. apply reachable_inv in H as Hc; [|by apply build_inv].
  split; [intros i; by apply get_line_iff|]. split.
  - intros P E. destruct (ci_pending c Hc P) as (_ & _ & Hab & _).
    destruct (get_line c a) as [i|] eqn:G; [|done]. apply get_line_iff in G as (x & Hx & Ht); [|done..].
    destruct (Hab i x Hx). congruence.
  - intros P rr h. destruct (ci_pending c Hc P) as (_ & Hin & _ & Hne). pose proof (ci_queue c Hc) as Hq.
    unfold refill_response. destruct (refill_pending_reqs c) as [|r q]; [done|].
    inversion_clear Hq as [|? ? Hr _]. destruct Hr as (r1 & -> & _). simpl.
    destruct (lookup_lt_is_Some_2 (lines c) (refill_line c)) as [x ->].
    { by eapply in_set_length; [apply Hc|]. }
    destruct (negb (r_data r1 =? 0)); eauto.
Qed.

(** ** Flushing removes what it should *)

Lemma flush_index c addr :
  cache_wf c -> 0 <= addr < 2 ^ 32 ->
  Z.shiftr addr (line_size_bits c) = line_tag c addr /\ get_line_index c addr = tag_set c (line_tag c addr).
Proof. intros Hw Ha. destruct (line_tag_value c addr Hw Ha) as [E _]. unfold get_line_index. by rewrite <- E. Qed.

(** Flushing the line of an address removes that line from the cache and no other, and flushing
    the cache removes every line. *)
Theorem flush_line_exact c addr a :
  cache_inv c -> 0 <= addr < 2 ^ 32 -> 0 <= a < 2 ^ 32 ->
  get_line (flush_line addr c) a = (if line_tag c a =? line_tag c addr then None else get_line c a) /\
  get_line (flush c) a = None.
Proof.
  intros Hc Hf Ha. pose proof (ci_wf c Hc) as Hw. destruct (line_tag_value c a Hw Ha) as [_ Hn].
  split; apply option_eq; intros i.
  - rewrite get_line_iff by (auto using flush_line_inv).
    change (line_tag (flush_line addr c) a) with (line_tag c a). unfold flush_line. cbn [lines set_lines].
    destruct (flush_index c addr Hw Hf) as [-> ->].
    setoid_rewrite lookup_flush_ways. split.
    + intros (y & Hy & Ht). destruct (lines c !! i) as [x|] eqn:Ex; [|done]. simpl in Hy.
      destruct (Z.eqb_spec (l_tag x) (line_tag c addr)) as [E|E].
      * assert (Hi : in_set c (l_tag x) i).
        { apply (tg_place _ _ (ci_tags c Hc) i x Ex). rewrite E. by apply line_tag_value. }
        rewrite E in Hi. apply (set_bounds c _ i Hw) in Hi. rewrite bool_decide_eq_true_2 in Hy by done.
        by simplify_eq/=.
      * rewrite andb_false_r in Hy. simplify_eq. rewrite <- Ht, (proj2 (Z.eqb_neq _ _)) by done.
        apply get_line_iff; [done..|]. by exists y.
    + destruct (Z.eqb_spec (line_tag c a) (line_tag c addr)) as [E|E]; [done|].
      intros (x & Hx & Ht)%get_line_iff; [|done..]. exists x. rewrite Hx. simpl.
      rewrite Ht, (proj2 (Z.eqb_neq _ _)), andb_false_r by done. done.
  - rewrite get_line_iff by (auto using flush_inv). simpl. split; [|done].
    intros (y & Hy & Ht). rewrite list_lookup_fmap in Hy. destruct (lines c !! i); [|done].
    by simplify_eq/=.
Qed.

(** ** A cache in front of a memory *)

Lemma hget_memcpy dst src n h p :
  0 <= n -> hget (memcpy dst src n h) p = if in_range dst n p then hget h (src + (p - dst)) else hget h p.
Proof.
  intros Hn. unfold memcpy. rewrite hget_store_bytes, length_load_bytes, Z2Nat.id by done.
  fold (in_range dst n p). destruct (in_range_spec dst n p); [|done].
  rewrite lookup_load_bytes by lia. simpl. f_equal. lia.
Qed.








Section InFrontOfMemory.
Context {S : Type} (port : Z) (itf : io_meth S) (cycles : Z) (rd : S -> Z -> Z) (ok : S -> Z -> Z -> Prop).
Context `{!IoTargets (fun _ : unit => itf) (fun _ => rd) (fun _ => ok)}.






End InFrontOfMemory.






(** ** The election of the victim *)

Definition elect (c : cache) : cache := (stepLru c).2.

(** The register alone. *)
Definition lru_next (v : Z) : Z :=
  let bit k := Z.land (Z.shiftr v k) 1 in
  u8 (Z.lor (Z.shiftl v 1)
    (Z.land (if Z.lxor (Z.lxor (Z.lxor (bit 7) (bit 3)) (bit 2)) (bit 1) =? 0 then 1 else 0) 1)).

(** The ways elected in [n] steps, as a bit mask added to [acc]. *)
Fixpoint elected (n : nat) (v acc : Z) : Z :=
  match n with
  | O => acc
  | S n => elected n (lru_next v) (Z.setbit acc (Z.land (Z.shiftr (lru_next v) 1) 127))
  end.

Lemma register_elects :
  forallb (fun v => elected 255 v 0 =? Z.ones 128) (Z.of_nat <$> seq 0 255) = true.
Proof. vm_compute. reflexivity. Qed.

Lemma register_next :
  forallb (fun v => (0 <=? lru_next v) && (lru_next v <? 255)) (Z.of_nat <$> seq 0 255) = true.
Proof. vm_compute. reflexivity. Qed.

Lemma elem_of_below (n : nat) v : 0 <= v < Z.of_nat n -> In v (Z.of_nat <$> seq 0 n).
Proof. intros Hv. apply list_elem_of_In, list_elem_of_fmap. exists (Z.to_nat v). rewrite elem_of_seq. lia. Qed.

Lemma elected_spec n c acc way :
  0 <= nb_ways_bits c <= 7 -> 0 <= way < nb_ways c -> Z.testbit (elected n (lru_out c) acc) way = true ->
  Z.testbit acc way = true \/ exists k, (k < n)%nat /\ (stepLru (Nat.iter k elect c)).1 = way.
Proof.
  revert c acc. induction n as [|n IH]; intros c acc Hb Hw; cbn [elected]; [by left|].
  intros E. destruct (IH (elect c) _ Hb Hw E) as [E1|(k & Hk & Ek)].
  - rewrite Z.setbit_eqb in E1 by (apply Z.land_nonneg; lia).
    apply orb_true_iff in E1 as [E1%Z.eqb_eq|E1]; [right|by left].
    exists O. split; [lia|]. change (Nat.iter 0 elect c) with c. change (stepLru c).1 with
      (Z.land (Z.shiftr (lru_next (lru_out c)) 1) (nb_ways c - 1)).
    unfold nb_ways in *. rewrite Z.shiftl_1_l in *. rewrite <- E1 in Hw |- *.
    replace 127 with (Z.ones 7) in * by done.
    replace (2 ^ nb_ways_bits c - 1) with (Z.ones (nb_ways_bits c)) by (rewrite Z.ones_equiv; lia).
    rewrite Z.land_ones in * by lia. rewrite Z.land_ones by lia.
    rewrite <- (Z.mod_small (_ mod 2 ^ 7) (2 ^ nb_ways_bits c)) by done.
    symmetry. apply (uw_uw_le (nb_ways_bits c) 7). lia.
  - right. exists (Datatypes.S k). split; [lia|]. by rewrite Nat.iter_succ_r.
Qed.

(** The pseudo-random election of the victims starves no way: from the state built, and from any
    state it leads to, every way (of at most 128) is elected within the next 255 refills. *)
Theorem lru_elects_every_way c way n :
  0 <= nb_ways_bits c <= 7 -> 0 <= way < nb_ways c -> lru_out c = 0 ->
  exists k, (n <= k < n + 255)%nat /\ (stepLru (Nat.iter k elect c)).1 = way.
Proof.
  intros Hb Hw Hl.
  assert (Hn : 0 <= lru_out (Nat.iter n elect c) < 255 /\ nb_ways_bits (Nat.iter n elect c) = nb_ways_bits c).
  { induction n as [|n [IH1 IH2]]; [simpl; rewrite Hl; split; [lia|done]|]. simpl. split; [|done].
    pose proof (proj1 (forallb_forall _ _) register_next (lru_out (Nat.iter n elect c)) (elem_of_below 255 _ IH1)) as E.
    simpl in E. breflect. fold (lru_next (lru_out (Nat.iter n elect c))). lia. }
  destruct Hn as [Hv Hbits]. set (c1 := Nat.iter n elect c) in *.
  assert (Hw1 : 0 <= way < nb_ways c1) by (unfold nb_ways; by rewrite Hbits).
  assert (W7 : nb_ways c <= 128).
  { unfold nb_ways. rewrite Z.shiftl_1_l. change 128 with (2 ^ 7). apply Z.pow_le_mono_r; lia. }
  pose proof (proj1 (forallb_forall _ _) register_elects _ (elem_of_below 255 _ Hv)) as E1%Z.eqb_eq.
  destruct (elected_spec 255 c1 0 way) as [Ek|(k & Hk & Ek)]; [by rewrite Hbits|done| | |].
  - rewrite E1, Z.ones_spec_low by lia. done.
  - by rewrite Z.bits_0 in Ek.
  - exists (k + n)%nat. split; [lia|]. by rewrite Nat.iter_add.
Qed.

(** ** The answer to a pending refill *)

Lemma line_data_fill (l : list cache_line) i t x ts :
  l !! i = Some x -> l_data <$> <[i := CacheLine t (l_data x) ts]> l = l_data <$> l.
Proof.
  intros Hx. apply list_eq. intros j. rewrite !list_lookup_fmap. destruct (decide (j = i)) as [->|].
  - rewrite list_lookup_insert_eq, Hx by (by eapply lookup_lt_Some). done.
  - by rewrite list_lookup_insert_ne.
Qed.

(** The answer to a pending refill always copies the line to the buffer of the request that
    missed, and no other byte changes, whether the request reads or writes: the direction is taken
    from the refill request, a read.  A write that misses on an asynchronous refill is answered with
    its data lost and its master's buffer overwritten. *)
Theorem pending_write_lost r q x rr h c addr data :
  refill_pending_reqs c = save r :: q -> lines c !! refill_line c = Some x ->
  0 < r_data r -> 0 <= r_size r ->
  r_is_write rr = r_is_write (new_refill_req c addr data) ->
  exists h' c', refill_response rr h c = Some (r, h', c') /\
    (forall p, hget h' p = if in_range (r_data r) (r_size r) p then hget h (l_data x + (p - r_data r)) else hget h p) /\
    pending_refill c' = false /\ refill_pending_reqs c' = q /\ l_data <$> lines c' = l_data <$> lines c /\
    (exists y, lines c' !! refill_line c = Some y /\ l_tag y = refill_tag c) /\
    (q <> [] -> fsm_enqueued c' = true).
Proof.
  intros Hq Hx Hd Hn Hrr. unfold refill_response. rewrite Hq, restore_save. simpl. rewrite Hx, Hrr.
  rewrite (proj2 (Z.eqb_neq (r_data r) 0)) by lia. cbn [negb new_refill_req r_is_write].
  eexists _, _. split; [done|]. split; [intros p; by apply hget_memcpy|].
  pose proof (lookup_lt_Some _ _ _ Hx) as Hlt.
  unfold check_state. cbn [pending_refill set_lines set_pending refill_pending_reqs fsm_enqueued refill_tag].
  destruct q as [|r2 q], (fsm_enqueued c) eqn:F;
    rewrite ?bool_decide_eq_true_2, ?bool_decide_eq_false_2 by done; cbn [negb andb];
    (split; [done|]; split; [done|]; split; [by apply line_data_fill|]; split; [|done]);
    (eexists; split; [by apply list_lookup_insert_eq|done]).
Qed.

(** ** Examples *)

(** Two sets of two ways of 4 bytes in front of a memory. *)
Definition demo_cache : cache := enable_sync true (cache_build 1 1 2 3 0 0 (fun i => 1000 + 4 * Z.of_nat i) 7).




(** The state of the demo cache after a read of address 8. *)
Definition demo_cache_8 : cache :=
  match cache_req 1 (memory_req 0) 0 (demo_req 8 2000 4 false) ∅ (demo_memory false) demo_cache with
  | Some (_, _, _, _, c) => c
  | None => demo_cache
  end.

Lemma demo_reach : rtc cache_step (cache_build 1 1 2 3 0 0 (fun i => 1000 + 4 * Z.of_nat i) 7) demo_cache_8.
Proof.
  eapply rtc_l; [apply (step_enable _ true)|]. eapply rtc_l; [|apply rtc_refl].
  eapply (step_req _ memory 1 (memory_req 0) 0 (demo_req 8 2000 4 false) ∅ (demo_memory false)); [|reflexivity].
  by split.
Qed.

Lemma cache_tags_unique_witness :
  get_line demo_cache_8 8 = Some 0%nat <->
    exists x, lines demo_cache_8 !! 0%nat = Some x /\ l_tag x = line_tag demo_cache_8 8.
Proof.
  destruct (cache_tags_unique 1 1 2 3 0 0 (fun i => 1000 + 4 * Z.of_nat i) 7 demo_cache_8 8) as (H & _ & _);
    [lia|lia|lia|lia|apply demo_reach|exact (H 0%nat)].
Defined.

Lemma flush_line_exact_witness :
  get_line demo_cache_8 8 = Some 0%nat /\ get_line (flush_line 9 demo_cache_8) 8 = None.
Proof.
  split; [reflexivity|].
  apply (flush_line_exact demo_cache_8 9 8); [|lia|lia].
  eapply reachable_inv; [|apply demo_reach]. by apply build_inv.
Defined.

Lemma lru_elects_every_way_witness :
  exists k, (10 <= k < 10 + 255)%nat /\ (stepLru (Nat.iter k elect demo_cache)).1 = 1.
Proof. apply (lru_elects_every_way demo_cache 1 10); [simpl; lia|vm_compute; split; done|reflexivity]. Defined.

(** A write of address 8 that waits for its refill. *)
Definition demo_pending : cache :=
  set_pending true [save (demo_req 8 2000 4 true)] (set_refill 0 2 demo_cache).

Lemma pending_write_lost_witness :
  exists h' c', refill_response (new_refill_req demo_cache 8 1000) (store_bytes 2000 [1; 2; 3; 4] ∅) demo_pending =
    Some (demo_req 8 2000 4 true, h', c') /\ hget h' 2000 = 0.
Proof.
  destruct (pending_write_lost (demo_req 8 2000 4 true) [] (CacheLine no_tag 1000 (-1))
    (new_refill_req demo_cache 8 1000) (store_bytes 2000 [1; 2; 3; 4] ∅) demo_pending 8 1000)
    as (h' & c' & E & H & _); [reflexivity|reflexivity|simpl; lia|simpl; lia|reflexivity|].
  exists h', c'. split; [exact E|]. rewrite H. reflexivity.
Defined.
