(* ===== verification/Converter.v ===== *)
(** * The width converter (models/interco/converter_impl.cpp)

    A request that crosses a boundary of the output width is cut into pieces, sent one per event; the
    requests that arrive meanwhile are denied and served afterwards, in order. *)

From S2P Require Import Prelude Io Memory.

(** class converter.  [pending_req] and [stalled_req] are the chains from the fields of those names;
    [event] is the cycle the event is enqueued for. *)
Record converter := Converter {
  output_width : Z;
  output_align : Z;
  pending_req : list io_req;
  event : option Z;
  ready_cycle : Z;
  ongoing_size : Z;
  ongoing_req : option io_req;
  stalled_req : list io_req;
}.

(** converter::build, then converter::reset; [ready_cycle] and the rest are set by the reset. *)
Definition converter_reset (active : bool) (c : converter) : converter :=
  if active then Converter (output_width c) (output_align c) [] (event c) 0 0 None [] else c.
Definition converter_build (width align : Z) : converter :=
  converter_reset true (Converter width align [] None 0 0 None []).

Definition set_pieces (l : list io_req) (ev : option Z) (c : converter) : converter :=
  Converter (output_width c) (output_align c) l ev (ready_cycle c) (ongoing_size c) (ongoing_req c) (stalled_req c).
Definition set_progress (ready size : Z) (c : converter) : converter :=
  Converter (output_width c) (output_align c) (pending_req c) (event c) ready size (ongoing_req c) (stalled_req c).
Definition set_ongoing (r : option io_req) (stalled : list io_req) (c : converter) : converter :=
  Converter (output_width c) (output_align c) (pending_req c) (event c) (ready_cycle c) (ongoing_size c) r stalled.

(** converter::check_state at cycle [cycles] *)
Definition conv_check_state (cycles : Z) (c : converter) : converter :=
  match pending_req c, event c with
  | _ :: _, None =>
      let latency := if ready_cycle c >? cycles then ready_cycle c - cycles else 1 in
      set_pieces (pending_req c) (Some (cycles + latency)) c
  | _, _ => c
  end.

(** The loop of converter::process_pending_req; a piece is put before the ones made so far.  Each turn
    takes at least a byte when the alignment is not above the width, so [size] turns are enough. *)
Fixpoint cut_pieces (fuel : nat) (width mask offset size data : Z) (is_write : bool) (l : list io_req) :
    outcome (list io_req) :=
  if size =? 0 then Done l
  else
    match fuel with
    | O => OutOfFuel
    | S fuel =>
        let iter_size := width in
        let iter_size := if negb (Z.land offset mask =? 0) then s32 (iter_size - Z.land offset mask) else iter_size in
        let iter_size := if u64 iter_size >? size then s32 size else iter_size in
        cut_pieces fuel width mask (u64 (offset + iter_size)) (u64 (size - iter_size)) (data + iter_size) is_write
          (IoReq offset data (u64 iter_size) is_write false 0 0 0 [] :: l)
    end.

(** converter::process_pending_req; its status is IO_REQ_PENDING. *)
Definition process_pending_req (r : io_req) (c : converter) : outcome converter :=
  match cut_pieces (Z.to_nat (r_size r)) (output_width c) (output_align c - 1) (r_addr r) (r_size r) (r_data r)
          (r_is_write r) (pending_req c) with
  | Done l => Done (set_pieces l (event c) (set_progress (ready_cycle c) (s32 (r_size r))
                      (set_ongoing (Some r) (stalled_req c) c)))
  | AssertFailed => AssertFailed
  | OutOfFuel => OutOfFuel
  end.

(** Whether a request is in one aligned block. *)
Definition fits (c : converter) (r : io_req) : bool :=
  let mask := output_align c - 1 in
  Z.land (r_addr r) (u64 (Z.lnot mask)) =? Z.land (u64 (r_addr r + r_size r - 1)) (u64 (Z.lnot mask)).

(** What the converter tells its masters. *)
Inductive notice :=
  | Resp (r : io_req)
  | Grant (r : io_req).

Section Converter.
Context {S : Type} (out_port : Z) (out : io_meth S).

(** converter::process_req *)
Definition process_req (r : io_req) (h : host) (s : S) (c : converter) :
    outcome (io_req_status_e * io_req * host * S * converter) :=
  if fits c r then
    match req_forward out r h s with
    | Some (st, r, h, s) => Done (st, r, h, s, c)
    | None => AssertFailed
    end
  else
    match process_pending_req r c with
    | Done c => Done (IO_REQ_PENDING, r, h, s, c)
    | AssertFailed => AssertFailed
    | OutOfFuel => OutOfFuel
    end.

(** converter::req at cycle [cycles] *)
Definition converter_req (cycles : Z) (r : io_req) (h : host) (s : S) (c : converter) :
    outcome (io_req_status_e * io_req * host * S * converter) :=
  match ongoing_req c with
  | Some _ => Done (IO_REQ_DENIED, r, h, s, set_ongoing (ongoing_req c) (stalled_req c ++ [r]) c)
  | None =>
      match process_req r h s c with
      | Done (IO_REQ_OK, r, h, s, c) => Done (IO_REQ_OK, r, h, s, c)
      | Done (_, r, h, s, c) => Done (IO_REQ_PENDING, r, h, s, conv_check_state cycles c)
      | AssertFailed => AssertFailed
      | OutOfFuel => OutOfFuel
      end
  end.

(** converter::event_handler at cycle [cycles], the masters being notified only. *)
Definition event_handler (cycles : Z) (h : host) (s : S) (c : converter) :
    outcome (list notice * host * S * converter) :=
  match pending_req c with
  | [] => AssertFailed
  | p :: l =>
      let c := set_pieces l None c in
      match master_req out_port out p h s with
      | None => AssertFailed
      | Some (IO_REQ_OK, p, h, s) =>
          let c := set_progress (cycles + r_latency p + 1) (s32 (ongoing_size c - r_size p)) c in
          if ongoing_size c =? 0 then
            match ongoing_req c with
            | None => AssertFailed
            | Some r =>
                let r := set_latency (r_latency r + 1) r in
                match stalled_req c with
                | [] => Done ([Resp r], h, s, conv_check_state cycles (set_ongoing None [] c))
                | r2 :: stalled =>
                    match process_pending_req r2 (set_ongoing None stalled c) with
                    | Done c => Done ([Resp r; Grant r2], h, s, conv_check_state cycles c)
                    | AssertFailed => AssertFailed
                    | OutOfFuel => OutOfFuel
                    end
                end
            end
          else Done ([], h, s, conv_check_state cycles c)
      | Some (_, p, h, s) =>
          Done ([], h, s, conv_check_state cycles (set_progress (2 ^ 31 - 1) (ongoing_size c) c))
      end
  end.

(** The clock engine: the event runs at its cycle as long as it is enqueued. *)
Fixpoint converter_run (fuel : nat) (h : host) (s : S) (c : converter) :
    outcome (list notice * host * S * converter) :=
  match event c with
  | None => Done ([], h, s, c)
  | Some cycles =>
      match fuel with
      | O => OutOfFuel
      | Datatypes.S fuel =>
          match event_handler cycles h s c with
          | Done (l, h, s, c) =>
              match converter_run fuel h s c with
              | Done (l', h, s, c) => Done (l ++ l', h, s, c)
              | AssertFailed => AssertFailed
              | OutOfFuel => OutOfFuel
              end
          | AssertFailed => AssertFailed
          | OutOfFuel => OutOfFuel
          end
      end
  end.
(** What happens to the converter: a request arrives at a cycle, or its event runs. *)
Inductive happening :=
  | Arrives (cycles : Z) (r : io_req)
  | Runs.
Fixpoint arrivals (tr : list happening) : list io_req :=
  match tr with
  | [] => []
  | Arrives _ r :: tr => r :: arrivals tr
  | Runs :: tr => arrivals tr
  end.

(** The answers to the requests, and the notices. *)
Fixpoint timeline (tr : list happening) (h : host) (s : S) (c : converter) :
    outcome (list io_req_status_e * list notice * host * S * converter) :=
  match tr with
  | [] => Done ([], [], h, s, c)
  | Arrives cycles r :: tr =>
      match converter_req cycles r h s c with
      | Done (st, _, h, s, c) =>
          match timeline tr h s c with
          | Done (l, n, h, s, c) => Done (st :: l, n, h, s, c)
          | AssertFailed => AssertFailed
          | OutOfFuel => OutOfFuel
          end
      | AssertFailed => AssertFailed
      | OutOfFuel => OutOfFuel
      end
  | Runs :: tr =>
      match event c with
      | None => AssertFailed
      | Some cycles =>
          match event_handler cycles h s c with
          | Done (l', h, s, c) =>
              match timeline tr h s c with
              | Done (l, n, h, s, c) => Done (l, l' ++ n, h, s, c)
              | AssertFailed => AssertFailed
              | OutOfFuel => OutOfFuel
              end
          | AssertFailed => AssertFailed
          | OutOfFuel => OutOfFuel
          end
      end
  end.
End Converter.

(** ** The pieces of a request *)

(** [cut W w o d m ps]: the pieces [ps], in address order, are the [m] bytes at [o]; none is empty and
    none crosses a boundary of [W] bytes. *)
Definition piece_req (o d n : Z) (w : bool) : io_req := IoReq o d n w false 0 0 0 [].
Inductive cut (W : Z) (w : bool) (o d : Z) : Z -> list io_req -> Prop :=
  | cut_nil : cut W w o d 0 []
  | cut_snoc m n ps :
      cut W w o d m ps -> 0 < n -> (o + m) mod W + n <= W ->
      cut W w o d (m + n) (ps ++ [piece_req (o + m) (d + m) n w]).

Lemma cut_size W w o d m ps : cut W w o d m ps -> 0 <= m /\ (m = 0 <-> ps = []).
Proof.
  induction 1 as [|m n ps _ [IH _] Hn _]; [by split|]. split; [lia|]. split; [lia|].
  by intros [_ ?]%app_eq_nil.
Qed.

Lemma cut_pieces_spec k w o d size fuel m ps :
  0 <= k <= 30 -> 0 <= o -> o + size <= 2 ^ 64 -> size < 2 ^ 31 -> m <= size ->
  size - m <= Z.of_nat fuel -> cut (2 ^ k) w o d m ps ->
  exists ps', cut_pieces fuel (2 ^ k) (2 ^ k - 1) (u64 (o + m)) (size - m) (d + m) w (rev ps) = Done (rev ps') /\
    cut (2 ^ k) w o d size ps'.
Proof.
  intros Hk Ho Hend Hs. assert (HW : 0 < 2 ^ k <= 2 ^ 30).
  { split; [apply Z.pow_pos_nonneg; lia|apply Z.pow_le_mono_r; lia]. }
  revert m ps. induction fuel as [|fuel IH]; intros m ps Hm Hf Hc; pose proof (cut_size _ _ _ _ _ _ Hc) as [H0 _];
    cbn [cut_pieces]; destruct (Z.eqb_spec (size - m) 0) as [E|E].
  1, 3: exists ps; split; [done|]; by replace size with m by lia.
  { lia. }
  rewrite (uw_small 64 (o + m)) by lia.
  assert (Hland : Z.land (o + m) (2 ^ k - 1) = (o + m) mod 2 ^ k).
  { replace (2 ^ k - 1) with (Z.ones k) by (rewrite Z.ones_equiv; lia). apply Z.land_ones. lia. }
  rewrite Hland.
  pose proof (Z.mod_pos_bound (o + m) (2 ^ k) ltac:(lia)) as Hmod.
  set (iter := if negb ((o + m) mod 2 ^ k =? 0) then s32 (2 ^ k - (o + m) mod 2 ^ k) else 2 ^ k).
  assert (Hi : iter = 2 ^ k - (o + m) mod 2 ^ k).
  { unfold iter. destruct (Z.eqb_spec ((o + m) mod 2 ^ k) 0); cbn [negb]; [lia|]. rewrite sw_small; lia. }
  rewrite Hi, (uw_small 64 (2 ^ k - _)) by lia.
  set (n := if _ >? size - m then _ else _).
  assert (Hn : 0 < n <= size - m /\ (o + m) mod 2 ^ k + n <= 2 ^ k).
  { unfold n. rewrite Z.gtb_ltb. destruct (Z.ltb_spec (size - m) (2 ^ k - (o + m) mod 2 ^ k)).
    - rewrite sw_small by lia. lia.
    - lia. }
  rewrite (uw_small 64 n), (uw_small 64 (size - m - n)) by lia.
  destruct (IH (m + n) (ps ++ [piece_req (o + m) (d + m) n w])) as (ps' & E' & Hc'); [lia|lia|apply cut_snoc; [done|lia|lia]|].
  exists ps'. split; [|done]. rewrite rev_app_distr in E'. cbn [rev app] in E'. rewrite <- E'.
  replace (o + (m + n)) with (o + m + n) by lia. replace (size - (m + n)) with (size - m - n) by lia.
  replace (d + (m + n)) with (d + m + n) by lia. done.
Qed.

(** A transfer whose last bytes move first. *)
Lemma moves_backwards {S} (rd : S -> Z -> Z) w a d n1 n2 h s h1 s1 h2 s2 :
  0 < d -> 0 <= n1 -> 0 <= n2 ->
  moves rd w (a + n1) (d + n1) n2 h s h1 s1 -> moves rd w a d n1 h1 s1 h2 s2 ->
  moves rd w a d (n1 + n2) h s h2 s2.
Proof.
  intros Hd H1 H2 [A1 A2] [B1 B2].
  rewrite (proj2 (Z.eqb_neq (d + n1) 0)) in A1, A2 by lia. rewrite (proj2 (Z.eqb_neq d 0)) in B1, B2 by lia.
  split; intros x; rewrite (proj2 (Z.eqb_neq d 0)) by lia; destruct w; cbn [negb andb] in *.
  - rewrite B1, A1, A2.
    destruct (in_range_spec (a + n1) n2 x), (in_range_spec a n1 x), (in_range_spec a (n1 + n2) x);
      try lia; try done. f_equal. lia.
  - by rewrite B1, A1.
  - by rewrite B2, A2.
  - rewrite B2, A2, A1.
    destruct (in_range_spec (d + n1) n2 x), (in_range_spec d n1 x), (in_range_spec d (n1 + n2) x);
      try lia; try done. f_equal. lia.
Qed.

Section Serving.
Context {S : Type} (out_port : Z) (out : io_meth S) (rd : S -> Z -> Z) (ok : S -> Z -> Z -> Prop).
Context `{!IoTargets (fun _ : unit => out) (fun _ => rd) (fun _ => ok)}.
(** What the memory accepts it accepts in parts. *)
Hypothesis ok_part : forall s a n b m, ok s a n -> a <= b -> 0 <= m -> b + m <= a + n -> ok s b m.
Context (k : Z) (Hk : 0 <= k <= 30).

Definition keeps_ok (s s' : S) : Prop := forall a n, ok s a n -> ok s' a n.

(** A request the converter can serve. *)
Record can_serve (s : S) (r : io_req) : Prop := {
  cs_size : 0 < r_size r < 2 ^ 31;
  cs_addr : 0 <= r_addr r /\ r_addr r + r_size r <= 2 ^ 64;
  cs_data : 0 < r_data r;
  cs_ok : ok s (r_addr r) (r_size r);
}.

Lemma can_serve_keeps s s' r : keeps_ok s s' -> can_serve s r -> can_serve s' r.
Proof. intros Hs []. split; auto. Qed.

(** Serving [r], the first [m] bytes being left, in the pieces [ps]; the next piece goes at [cyc]. *)
Record busy (c : converter) (r : io_req) (m : Z) (ps : list io_req) (cyc : Z) : Prop := {
  bz_width : output_width c = 2 ^ k /\ output_align c = 2 ^ k;
  bz_pending : pending_req c = rev ps;
  bz_cut : cut (2 ^ k) (r_is_write r) (r_addr r) (r_data r) m ps;
  bz_ongoing : ongoing_req c = Some r;
  bz_size : ongoing_size c = m;
  bz_event : event c = Some cyc;
}.

Record idle (c : converter) : Prop := {
  id_width : output_width c = 2 ^ k /\ output_align c = 2 ^ k;
  id_pending : pending_req c = [];
  id_event : event c = None;
  id_ongoing : ongoing_req c = None;
  id_stalled : stalled_req c = [];
}.

(** Starting on a request, with nothing pending. *)
Lemma process_busy r c s cycles :
  output_width c = 2 ^ k -> output_align c = 2 ^ k -> pending_req c = [] -> event c = None -> can_serve s r ->
  exists c1 ps cyc, process_pending_req r c = Done c1 /\
    busy (conv_check_state cycles c1) r (r_size r) ps cyc /\ stalled_req (conv_check_state cycles c1) = stalled_req c.
Proof.
  intros Hw Ha Hp He [Hs Hadr Hd Hok]. unfold process_pending_req. rewrite Hw, Ha, Hp.
  destruct (cut_pieces_spec k (r_is_write r) (r_addr r) (r_data r) (r_size r) (Z.to_nat (r_size r)) 0 [])
    as (ps & E & Hc); [done|lia|lia|lia|lia|lia|constructor|].
  rewrite !Z.add_0_r, Z.sub_0_r in E.
  replace (u64 (r_addr r)) with (r_addr r) in E by (symmetry; apply uw_small; lia). cbn [rev] in E. rewrite E.
  destruct (cut_size _ _ _ _ _ _ Hc) as [_ Hne]. assert (Hrev : rev ps <> []).
  { intros E0. apply (f_equal (@rev _)) in E0. rewrite rev_involutive in E0. apply Hne in E0. lia. }
  eexists _, ps, _. split; [done|]. unfold conv_check_state. cbn [pending_req set_pieces event].
  destruct (rev ps) as [|p l] eqn:Er; [done|]. rewrite He. split; [|done].
  split; simpl; try done. by rewrite sw_small by lia.
Qed.

(** One event. *)
Lemma event_step cycles h s c r m n ps cyc :
  busy c r (m + n) (ps ++ [piece_req (r_addr r + m) (r_data r + m) n (r_is_write r)]) cyc ->
  cut (2 ^ k) (r_is_write r) (r_addr r) (r_data r) m ps -> 0 < n -> m + n <= r_size r -> can_serve s r ->
  exists h1 s1, moves rd (r_is_write r) (r_addr r + m) (r_data r + m) n h s h1 s1 /\ keeps_ok s s1 /\
    (ps <> [] -> exists c1 cyc1, event_handler out_port out cycles h s c = Done ([], h1, s1, c1) /\
      busy c1 r m ps cyc1 /\ stalled_req c1 = stalled_req c) /\
    (ps = [] ->
      (stalled_req c = [] -> exists c1, idle c1 /\
        event_handler out_port out cycles h s c = Done ([Resp (set_latency (r_latency r + 1) r)], h1, s1, c1)) /\
      (forall r2 rs, stalled_req c = r2 :: rs -> can_serve s r2 -> exists c1 ps1 cyc1,
        event_handler out_port out cycles h s c =
          Done ([Resp (set_latency (r_latency r + 1) r); Grant r2], h1, s1, c1) /\
        busy c1 r2 (r_size r2) ps1 cyc1 /\ stalled_req c1 = rs)).
Proof.
  intros [[Hw Ha] Hp _ Ho Hsz He] Hc Hn Hm [Hs Hadr Hd Hok].
  pose proof (cut_size _ _ _ _ _ _ Hc) as [H0 Hne]. rewrite rev_app_distr in Hp. cbn [rev app] in Hp.
  unfold event_handler. rewrite Hp. unfold master_req.
  destruct (target_ok tt (set_resp_port out_port (piece_req (r_addr r + m) (r_data r + m) n (r_is_write r))) h s)
    as (p1 & h1 & s1 & -> & (_ & _ & Es & _) & Hmv & _ & Hkeep); [apply (ok_part _ _ _ _ _ Hok); simpl; lia|done|simpl; lia|].
  simpl in Es. rewrite Es. cbn [ongoing_size set_progress set_pieces ongoing_req stalled_req]. rewrite Hsz, Ho.
  rewrite sw_small by lia. replace (m + n - n) with m by lia. exists h1, s1.
  split; [exact Hmv|]. split; [exact (Hkeep tt)|]. split.
  - intros Hps. destruct (Z.eqb_spec m 0) as [E|_]; [by apply Hne in E|].
    unfold conv_check_state. cbn [pending_req set_progress set_pieces event].
    destruct (rev ps) as [|q l] eqn:Er.
    { apply (f_equal (@rev _)) in Er. by rewrite rev_involutive in Er. }
    eexists _, _. split; [done|]. by split.
  - intros ->. rewrite (proj2 (Z.eqb_eq m 0) (proj2 Hne eq_refl)). split.
    + intros ->. eexists. split; [|done]. by split.
    + intros r2 rs -> Hr2.
      destruct (process_busy r2 (set_ongoing None rs (set_progress (cycles + r_latency p1 + 1) m
        (set_pieces (rev []) None c))) s cycles) as (c1 & ps1 & cyc1 & E1 & Hb & Hst); try done.
      simpl in E1, Hst |- *. rewrite E1. eexists _, ps1, cyc1. by split.
Qed.

(** Prefixing the notices of a run. *)
Definition after (l : list notice) (x : outcome (list notice * host * S * converter)) :
    outcome (list notice * host * S * converter) :=
  match x with
  | Done (l', h, s, c) => Done (l ++ l', h, s, c)
  | AssertFailed => AssertFailed
  | OutOfFuel => OutOfFuel
  end.

Lemma run_event fuel cyc h s c :
  event c = Some cyc ->
  converter_run out_port out (Datatypes.S fuel) h s c =
  match event_handler out_port out cyc h s c with
  | Done (l, h, s, c) => after l (converter_run out_port out fuel h s c)
  | AssertFailed => AssertFailed
  | OutOfFuel => OutOfFuel
  end.
Proof. intros E. cbn [converter_run]. rewrite E. by destruct (event_handler _ _ _ _ _ _) as [[[[? ?] ?] ?]| |]. Qed.

(** The events of one request: they end with its response, and the start on the next one. *)
Lemma drain r m ps : cut (2 ^ k) (r_is_write r) (r_addr r) (r_data r) m ps -> ps <> [] ->
  forall c h s cyc, busy c r m ps cyc -> can_serve s r -> m <= r_size r ->
  exists h1 s1, moves rd (r_is_write r) (r_addr r) (r_data r) m h s h1 s1 /\ keeps_ok s s1 /\
    (stalled_req c = [] -> exists c1, idle c1 /\ forall fuel,
      converter_run out_port out (length ps + fuel) h s c =
      after [Resp (set_latency (r_latency r + 1) r)] (converter_run out_port out fuel h1 s1 c1)) /\
    (forall r2 rs, stalled_req c = r2 :: rs -> can_serve s r2 -> exists c1 ps1 cyc1,
      busy c1 r2 (r_size r2) ps1 cyc1 /\ stalled_req c1 = rs /\ forall fuel,
      converter_run out_port out (length ps + fuel) h s c =
      after [Resp (set_latency (r_latency r + 1) r); Grant r2] (converter_run out_port out fuel h1 s1 c1)).
Proof.
  induction 1 as [|m n ps Hc IH Hn Hfit]; [done|]. intros _ c h s cyc Hb Hr Hm.
  pose proof (cut_size _ _ _ _ _ _ Hc) as [H0 Hne]. pose proof (bz_event _ _ _ _ _ Hb) as Hev.
  destruct (event_step cyc h s c r m n ps cyc Hb Hc Hn Hm Hr) as (h1 & s1 & Hmv & Hk1 & Hmore & Hlast).
  rewrite length_app. cbn [length]. rewrite Nat.add_1_r.
  destruct (decide (ps = [])) as [->|Hps].
  - destruct (Hlast eq_refl) as [Hl1 Hl2]. destruct Hne as [_ Hz]. rewrite (Hz eq_refl) in *.
    rewrite !Z.add_0_r in Hmv. exists h1, s1. split; [exact Hmv|]. split; [done|]. split.
    + intros Hst. destruct (Hl1 Hst) as (c1 & Hid & E). exists c1. split; [done|]. intros fuel.
      cbn [length Nat.add]. by rewrite (run_event _ _ _ _ _ Hev), E.
    + intros r2 rs Hst Hr2. destruct (Hl2 r2 rs Hst Hr2) as (c1 & ps1 & cyc1 & E & Hb1 & Hs1).
      exists c1, ps1, cyc1. split; [done|]. split; [done|]. intros fuel.
      cbn [length Nat.add]. by rewrite (run_event _ _ _ _ _ Hev), E.
  - destruct (Hmore Hps) as (c1 & cyc1 & E & Hb1 & Hs1).
    destruct (IH Hps c1 h1 s1 cyc1 Hb1 (can_serve_keeps _ _ _ Hk1 Hr) ltac:(lia)) as (h2 & s2 & Hmv2 & Hk2 & R1 & R2).
    exists h2, s2. split; [|split; [by intros a b ?%Hk1%Hk2|split]].
    + eapply moves_backwards; [apply Hr|lia|lia|exact Hmv|exact Hmv2].
    + intros Hst. rewrite <- Hs1 in Hst. destruct (R1 Hst) as (c2 & Hid & E2). exists c2. split; [done|].
      intros fuel. cbn [Nat.add]. rewrite (run_event _ _ _ _ _ Hev), E, E2.
      by destruct (converter_run _ _ fuel _ _ _) as [[[[? ?] ?] ?]| |].
    + intros r2 rs Hst Hr2. rewrite <- Hs1 in Hst.
      destruct (R2 r2 rs Hst (can_serve_keeps _ _ _ Hk1 Hr2)) as (c2 & ps2 & cyc2 & Hb2 & Hs2 & E2).
      exists c2, ps2, cyc2. split; [done|]. split; [done|].
      intros fuel. cbn [Nat.add]. rewrite (run_event _ _ _ _ _ Hev), E, E2.
      by destruct (converter_run _ _ fuel _ _ _) as [[[[? ?] ?] ?]| |].
Qed.

(** Requests served one after the other. *)
Fixpoint served_all (rs : list io_req) (h : host) (s : S) (h' : host) (s' : S) : Prop :=
  match rs with
  | [] => h' = h /\ s' = s
  | r :: rs => exists h1 s1, served rd r h s h1 s1 /\ served_all rs h1 s1 h' s'
  end.

(** The notices for requests that were denied. *)
Definition denied_notices (rs : list io_req) : list notice :=
  concat ((fun r => [Grant r; Resp (set_latency (r_latency r + 1) r)]) <$> rs).

Lemma run_all rs : forall r c h s m ps cyc,
  busy c r m ps cyc -> 0 < m <= r_size r -> stalled_req c = rs -> Forall (can_serve s) (r :: rs) ->
  exists n h1 s1 h' s' c', moves rd (r_is_write r) (r_addr r) (r_data r) m h s h1 s1 /\ served_all rs h1 s1 h' s' /\ idle c' /\
    forall fuel, converter_run out_port out (n + fuel) h s c =
      Done (Resp (set_latency (r_latency r + 1) r) :: denied_notices rs, h', s', c').
Proof.
  induction rs as [|r2 rs IH]; intros r c h s m ps cyc Hb Hm Hst Hall; inversion_clear Hall as [|? ? Hr Hrs];
    pose proof (bz_cut _ _ _ _ _ Hb) as Hc; pose proof (cut_size _ _ _ _ _ _ Hc) as [_ Hne];
    (assert (Hps : ps <> []) by (intros E; apply Hne in E; lia));
    destruct (drain r _ ps Hc Hps c h s cyc Hb Hr ltac:(lia)) as (h1 & s1 & Hmv & Hk1 & R1 & R2).
  - destruct (R1 Hst) as (c1 & Hid & E). exists (length ps), h1, s1, h1, s1, c1.
    split; [done|]. split; [done|]. split; [done|]. intros fuel. rewrite E.
    destruct fuel; cbn [converter_run]; by rewrite (id_event _ Hid).
  - inversion_clear Hrs as [|? ? Hr2 Hrs']. destruct (R2 r2 rs Hst Hr2) as (c1 & ps1 & cyc1 & Hb1 & Hs1 & E).
    destruct (IH r2 c1 h1 s1 (r_size r2) ps1 cyc1 Hb1) as (n & h2 & s2 & h3 & s3 & c2 & Hmv2 & Hsv & Hid & E2); [destruct Hr2; lia|done| |].
    { constructor; [by apply (can_serve_keeps s)|]. eapply Forall_impl; [exact Hrs'|].
      intros. by apply (can_serve_keeps s). }
    exists (length ps + n)%nat, h1, s1, h3, s3, c2. split; [done|]. split; [by exists h2, s2|]. split; [done|]. intros fuel.
    rewrite <- Nat.add_assoc, E, E2. done.
Qed.

(** *** Requests that arrive between the events *)

Lemma arrive_denied r c cycles r2 h s : ongoing_req c = Some r ->
  converter_req out cycles r2 h s c = Done (IO_REQ_DENIED, r2, h, s, set_ongoing (Some r) (stalled_req c ++ [r2]) c).
Proof. intros Ho. unfold converter_req. by rewrite Ho. Qed.

Lemma busy_arrive c r m ps cyc l : busy c r m ps cyc -> busy (set_ongoing (Some r) l c) r m ps cyc.
Proof. intros []. by split. Qed.

(** An idle converter denies nothing and has no event. *)
Lemma idle_accepts c cycles r h s : idle c ->
  match converter_req out cycles r h s c with Done (st, _, _, _, _) => st <> IO_REQ_DENIED | _ => True end.
Proof.
  intros Hi. unfold converter_req. rewrite (id_ongoing _ Hi). by destruct (process_req _ _ _ _ _) as [[[[[[] ?] ?] ?] ?]| |].
Qed.

Lemma idle_timeline tr c h s l n h2 s2 c2 : idle c -> timeline out_port out tr h s c = Done (l, n, h2, s2, c2) ->
  Forall (eq IO_REQ_DENIED) l -> tr = [] /\ l = [] /\ n = [] /\ h2 = h /\ s2 = s /\ c2 = c.
Proof.
  intros Hi E Hl. destruct tr as [|[cycles r|] tr]; cbn [timeline] in E; [by injection E as <- <- <- <- <-| |].
  - pose proof (idle_accepts c cycles r h s Hi) as Ha. destruct (converter_req _ _ _ _ _ _) as [[[[[st ?] ?] ?] ?]| |]; [|done..].
    destruct (timeline _ _ _ _ _ _) as [[[[[? ?] ?] ?] ?]| |]; [|done..]. injection E as <- <- <- <- <-. by inversion Hl; subst.
  - by rewrite (id_event _ Hi) in E.
Qed.

(** Whatever the order of the arrivals and of the events, what was notified and what the remaining events notify is one
    response, and the grants and responses of the requests in their order of arrival. *)
Lemma timeline_serves tr : forall r c h s m ps cyc l n h2 s2 c2,
  busy c r m ps cyc -> 0 < m <= r_size r -> Forall (can_serve s) (r :: stalled_req c ++ arrivals tr) ->
  timeline out_port out tr h s c = Done (l, n, h2, s2, c2) -> Forall (eq IO_REQ_DENIED) l ->
  exists k' n2 h1 s1 h' s' c', moves rd (r_is_write r) (r_addr r) (r_data r) m h s h1 s1 /\
    served_all (stalled_req c ++ arrivals tr) h1 s1 h' s' /\ idle c' /\
    (forall fuel, converter_run out_port out (k' + fuel) h2 s2 c2 = Done (n2, h', s', c')) /\
    n ++ n2 = Resp (set_latency (r_latency r + 1) r) :: denied_notices (stalled_req c ++ arrivals tr).
Proof.
  induction tr as [|[cycles r2|] tr IH]; intros r c h s m ps cyc l n h2 s2 c2 Hb Hm Hall E Hl; cbn [timeline arrivals] in *.
  - injection E as <- <- <- <- <-. rewrite app_nil_r in *.
    destruct (run_all _ r c h s m ps cyc Hb Hm eq_refl Hall) as (k' & h1 & s1 & h' & s' & c' & Hmv & Hsv & Hid & Er).
    by exists k', (Resp (set_latency (r_latency r + 1) r) :: denied_notices (stalled_req c)), h1, s1, h', s', c'.
  - rewrite (arrive_denied r c cycles r2 h s (bz_ongoing _ _ _ _ _ Hb)) in E.
    destruct (timeline out_port out tr h s _) as [[[[[l1 n1] h3] s3] c3]| |] eqn:Et; [|done..]. injection E as <- <- <- <- <-.
    inversion_clear Hl as [|? ? _ Hl1].
    destruct (IH r _ h s m ps cyc l1 n1 h3 s3 c3 (busy_arrive _ _ _ _ _ (stalled_req c ++ [r2]) Hb) Hm) as (k' & n2 & h1 & s1 & h' & s' & c' & H);
      [by cbn; rewrite <- app_assoc|done|done|].
    exists k', n2, h1, s1, h', s', c'. cbn [stalled_req set_ongoing] in H. by rewrite <- app_assoc in H.
  - rewrite (bz_event _ _ _ _ _ Hb) in E. pose proof (bz_cut _ _ _ _ _ Hb) as Hc. inversion Hc as [Hm0 Hp0|m1 n1 ps1 Hc1 Hn1 _ Hm1 Hp1]; [lia|]. subst ps.
    inversion_clear Hall as [|? ? Hr Hrs]. rewrite <- Hm1 in *.
    destruct (event_step cyc h s c r m1 n1 ps1 cyc Hb Hc1 Hn1 ltac:(lia) Hr) as (h1 & s1 & Hmv & Hk1 & Hmore & Hlast).
    pose proof (cut_size _ _ _ _ _ _ Hc1) as [H0 Hne].
    assert (Forall (can_serve s1) (stalled_req c ++ arrivals tr)) as Hrs1.
    { eapply Forall_impl; [exact Hrs|]. intros. by apply (can_serve_keeps s). }
    destruct (decide (ps1 = [])) as [->|Hps].
    + destruct (Hlast eq_refl) as [Hl1 Hl2]. rewrite (proj2 Hne eq_refl) in *. rewrite Z.add_0_r in Hmv.
      rewrite !Z.add_0_r in Hmv. destruct (stalled_req c) as [|r2 rs] eqn:Hst.
      * destruct (Hl1 eq_refl) as (c1 & Hid & E1). rewrite E1 in E.
        destruct (timeline out_port out tr h1 s1 c1) as [[[[[l2 n2] h3] s3] c3]| |] eqn:Et; [|done..]. injection E as <- <- <- <- <-.
        destruct (idle_timeline _ _ _ _ _ _ _ _ _ Hid Et Hl) as (-> & -> & -> & -> & -> & ->).
        exists 0%nat, [], h1, s1, h1, s1, c1. split; [exact Hmv|]. split; [done|]. split; [done|]. split; [|done].
        intros fuel. destruct fuel; cbn [Nat.add converter_run]; by rewrite (id_event _ Hid).
      * cbn [app] in Hrs, Hrs1. inversion Hrs as [|? ? Hr2 _]; subst. destruct (Hl2 r2 rs eq_refl Hr2) as (c1 & ps2 & cyc1 & E1 & Hb1 & Hs1).
        rewrite E1 in E. destruct (timeline out_port out tr h1 s1 c1) as [[[[[l2 n2] h3] s3] c3]| |] eqn:Et; [|done..]. injection E as <- <- <- <- <-.
        destruct (IH r2 c1 h1 s1 (r_size r2) ps2 cyc1 l2 n2 h3 s3 c3 Hb1) as (k' & n3 & h4 & s4 & h' & s' & c' & Hmv2 & Hsv & Hid & Er & En);
          [destruct Hr2; lia|by rewrite Hs1|done|done|]. rewrite Hs1 in Hsv, En.
        exists k', n3, h1, s1, h', s', c'. split; [exact Hmv|]. split; [by exists h4, s4|]. split; [done|]. split; [done|].
        cbn [app]. by rewrite En.
    + destruct (Hmore Hps) as (c1 & cyc1 & E1 & Hb1 & Hs1). rewrite E1 in E.
      destruct (timeline out_port out tr h1 s1 c1) as [[[[[l2 n2] h3] s3] c3]| |] eqn:Et; [|done..]. injection E as <- <- <- <- <-.
      assert (0 < m1) as Hpos by (destruct (Z.eq_dec m1 0) as [E0|]; [by apply Hne in E0|lia]).
      destruct (IH r c1 h1 s1 m1 ps1 cyc1 l2 n2 h3 s3 c3 Hb1) as (k' & n3 & h4 & s4 & h' & s' & c' & Hmv2 & Hsv & Hid & Er & En);
        [lia|rewrite Hs1; constructor; [by apply (can_serve_keeps s)|done]|done|done|]. rewrite Hs1 in Hsv, En.
      exists k', n3, h4, s4, h', s', c'. split; [|done]. eapply moves_backwards; [apply Hr|lia|lia|exact Hmv|exact Hmv2].
Qed.
End Serving.

(** C6: A request that crosses a boundary of the converter's width, a power of two, sent to an idle converter,
    is answered pending. Then requests arrive before, between or after events, in any interleaving in which
    each arrives while an earlier one is served, and so is denied; all are of less than 2^31 bytes, at 64-bit
    addresses, with buffers, and the slave accepts their bytes at once. The events that remain end, and the
    notices of all the events are the response of the first request and, for each other in order of arrival,
    its grant and one response; the converter is then idle, and the bytes moved are those of the requests
    served whole, one after the other, although the pieces of each go from the last to the first. Not covered:
    a request that a master sends from within the callback of its grant or response, which the code can lose,
    and a slave that answers a piece later or refuses it. *)
Theorem converter_serves_in_order {S} (out_port : Z) (out : io_meth S) rd ok
    `{!IoTargets (fun _ : unit => out) (fun _ => rd) (fun _ => ok)} k cycles r tr h s c l notices h2 s2 c2
    (Hpart : forall s a n b m, ok s a n -> a <= b -> 0 <= m -> b + m <= a + n -> ok s b m)
    (Hk : 0 <= k <= 30) (Hidle : idle k c) (Hfit : fits c r = false)
    (Hall : Forall (can_serve ok s) (r :: arrivals tr))
    (Hrun : timeline out_port out (Arrives cycles r :: tr) h s c = Done (l, notices, h2, s2, c2))
    (Hdenied : Forall (eq IO_REQ_DENIED) (tail l)) :
  exists n notices2 h' s' c',
    head l = Some IO_REQ_PENDING /\
    (forall fuel, converter_run out_port out (n + fuel) h2 s2 c2 = Done (notices2, h', s', c')) /\
    notices ++ notices2 = Resp (set_latency (r_latency r + 1) r) :: denied_notices (arrivals tr) /\
    served_all rd (r :: arrivals tr) h s h' s' /\ idle k c'.
Proof.
  destruct Hidle as [[Hw Ha] Hp He Ho Hst]. inversion_clear Hall as [|? ? Hr Hrs].
  destruct (process_busy ok k Hk r c s cycles Hw Ha Hp He Hr) as (c0 & ps & cyc & E & Hb & Hs0).
  assert (E1 : converter_req out cycles r h s c = Done (IO_REQ_PENDING, r, h, s, conv_check_state cycles c0)).
  { unfold converter_req, process_req. by rewrite Ho, Hfit, E. }
  cbn [timeline] in Hrun. rewrite E1 in Hrun. set (c1 := conv_check_state cycles c0) in *. rewrite Hst in Hs0.
  destruct (timeline out_port out tr h s c1) as [[[[[l1 n1] h3] s3] c3]| |] eqn:Et; [|done..]. injection Hrun as <- <- <- <- <-.
  destruct (timeline_serves out_port out rd ok Hpart k Hk tr r c1 h s (r_size r) ps cyc l1 n1 h3 s3 c3 Hb)
    as (k' & n2 & h1 & s1 & h' & s' & c' & Hmv & Hsv & Hid & Er & En);
    [destruct Hr; lia|rewrite Hs0; by constructor|done|done|]. rewrite Hs0 in Hsv, En.
  exists k', n2, h', s', c'. split; [done|]. split; [done|]. split; [done|]. split; [|done]. by exists h1, s1.
Qed.

(** A request that fits the width and that the slave refuses is answered IO_REQ_PENDING like one
    that waits, but nothing is left to do: the converter's events end with no response. *)
Theorem converter_loses_errors {S} (out_port : Z) (out : io_meth S) cycles r h s c st r1 h1 s1
    (Hn : ongoing_req c = None) (Hp : pending_req c = []) (He : event c = None) (Hfit : fits c r = true)
    (Hout : out r h s = Some (st, r1, h1, s1)) (Hst : st = IO_REQ_INVALID \/ st = IO_REQ_DENIED) :
  converter_req out cycles r h s c = Done (IO_REQ_PENDING, r1, h1, s1, c) /\
  forall fuel, converter_run out_port out fuel h1 s1 c = Done ([], h1, s1, c).
Proof.
  split.
  - unfold converter_req, process_req, req_forward. rewrite Hn, Hfit, Hout. unfold conv_check_state. rewrite Hp.
    by destruct Hst as [-> | ->].
  - intros [|fuel]; cbn [converter_run]; by rewrite He.
Qed.

(** ** Examples *)

(** A write in three pieces, with a read that arrives after the first piece. *)
Definition demo_happenings : list happening := [Arrives 0 (demo_req 2 1000 8 true); Runs; Arrives 1 (demo_req 4 2000 4 false)].
Lemma converter_serves_in_order_witness :
  let h := store_bytes 1000 [1; 2; 3; 4; 5; 6; 7; 8] ∅ in
  match timeline 1 (memory_req 0) demo_happenings h (demo_memory false) (converter_build 4 4) with
  | Done (l, notices, h2, s2, c2) =>
      l = [IO_REQ_PENDING; IO_REQ_DENIED] /\ exists n notices2 h' s' c',
      (forall fuel, converter_run 1 (memory_req 0) (n + fuel) h2 s2 c2 = Done (notices2, h', s', c')) /\
      notices ++ notices2 = [Resp (set_latency 1 (demo_req 2 1000 8 true)); Grant (demo_req 4 2000 4 false);
                             Resp (set_latency 1 (demo_req 4 2000 4 false))] /\ idle 2 c'
  | _ => False
  end.
Proof.
  intros h. destruct (timeline 1 (memory_req 0) demo_happenings h (demo_memory false) (converter_build 4 4))
    as [[[[[l notices] h2] s2] c2]| |] eqn:E; [|by vm_compute in E..].
  assert (l = [IO_REQ_PENDING; IO_REQ_DENIED]) as Hl by (vm_compute in E; by injection E as <- _ _ _ _).
  split; [exact Hl|].
  destruct (converter_serves_in_order 1 (memory_req 0) mem_rd mem_ok 2 0 (demo_req 2 1000 8 true)
    [Runs; Arrives 1 (demo_req 4 2000 4 false)] h (demo_memory false) (converter_build 4 4) l notices h2 s2 c2)
    as (n & notices2 & h' & s' & c' & _ & E2 & E3 & _ & E4);
    [exact mem_ok_part|lia|by split|reflexivity| |exact E|rewrite Hl; by repeat constructor|exists n, notices2, h', s', c'; by split].
  do 2 (constructor; [split; [simpl; lia|simpl; lia|done|apply demo_memory_ok; simpl; lia]|]). constructor.
Defined.

Lemma converter_loses_errors_witness :
  converter_req (memory_req 0) 0 (demo_req 64 1000 4 true) ∅ (demo_memory false) (converter_build 4 4) =
    Done (IO_REQ_PENDING, set_duration 1 (demo_req 64 1000 4 true), ∅, set_next_packet_start 1 (demo_memory false),
          converter_build 4 4) /\
  forall fuel, converter_run 1 (memory_req 0) fuel ∅ (set_next_packet_start 1 (demo_memory false)) (converter_build 4 4) =
    Done ([], ∅, set_next_packet_start 1 (demo_memory false), converter_build 4 4).
Proof.
  apply (converter_loses_errors 1 (memory_req 0) 0 (demo_req 64 1000 4 true) ∅ (demo_memory false)
    (converter_build 4 4) IO_REQ_INVALID); [done|done|done|reflexivity|reflexivity|by left].
Defined.
