(* ===== verification/IsaInt.v ===== *)
(** * Integer instructions of the instruction set simulator (iss/include/isa_lib/int.h)

    The scalar part of models/cpu/iss/include/isa_lib/int.h: logical and arithmetic operations,
    the multiply-accumulate family on half words, bit manipulation, normalisation with rounding
    and clipping.  An argument of type unsigned int is a number in [0, 2^32), one of type int a
    number in [-2^31, 2^31), and results are converted with [u32]/[s32] as the C types do.  Signed
    overflow wraps, as the compilers the simulator is built with do (gcc, clang at -fwrapv
    semantics of two's complement); a shift count outside the operand's width has no defined
    result and gives [None].  The register width ISS_REG_WIDTH is 32. *)

From S2P Require Import Prelude.

(** The part of iss_cpu_state_t these functions use. *)
Record cpu_state := CpuState {
  carry : bool;
  overflow : bool;
}.

(** ** Fields *)

Definition DoExtend (R e m : Z) : option Z :=
  if m + e =? 31 then Some R
  else
    let* x := shr 32 R (e + m) in
    let S := Z.land x 1 in
    let* y := shl 32 (2 ^ 32 - 1) (e + m) in
    let Mask := if negb (S =? 0) then u32 y else 0 in
    Some (Z.lor R Mask).

Definition getField (val shift bits : Z) : option Z :=
  let* x := shr 32 val shift in
  let* y := shl 32 1 bits in
  Some (Z.land x (u32 (s32 y - 1))).

Definition ISS_REG_WIDTH : Z := 32.

Definition getSignedValue (val bits : Z) : option Z :=
  let* x := shl 32 (s32 val) (ISS_REG_WIDTH - bits) in
  shr 32 (s32 x) (ISS_REG_WIDTH - bits).

Definition getSignedField (val shift bits : Z) : option Z :=
  let* x := getField val shift bits in
  let* y := getSignedValue x bits in
  Some (u32 y).

(** ** Logical operations *)

Definition lib_SLL (a b : Z) : option Z := let* r := shl 32 a b in Some (u32 r).
Definition lib_SRL (a b : Z) : option Z := shr 32 a b.
Definition lib_SRA (a b : Z) : option Z := let* r := shr 32 (s32 a) b in Some (u32 r).
Definition lib_ROR (a b : Z) : option Z :=
  let* r := shr 32 a b in let* l := shl 32 a (u32 (32 - b)) in Some (Z.lor r (u32 l)).
Definition lib_XOR (a b : Z) : Z := Z.lxor a b.
Definition lib_OR (a b : Z) : Z := Z.lor a b.
Definition lib_AND (a b : Z) : Z := Z.land a b.

Definition lib_SLL_64 (a b : Z) : option Z := let* r := shl 64 a b in Some (u64 r).
Definition lib_SRL_64 (a b : Z) : option Z := shr 64 a b.
Definition lib_SRA_64 (a b : Z) : option Z := shr 64 a b.
Definition lib_ROR_64 (a b : Z) : option Z :=
  let* r := shr 64 a b in let* l := shl 64 a (u64 (32 - b)) in Some (Z.lor r (u64 l)).
Definition lib_XOR_64 (a b : Z) : Z := Z.lxor a b.
Definition lib_OR_64 (a b : Z) : Z := Z.lor a b.
Definition lib_AND_64 (a b : Z) : Z := Z.land a b.

(** ** Arithmetic operations *)

Definition add (s : cpu_state) (a b : Z) : Z * cpu_state :=
  let result := u64 (a + b) in
  let c := negb (Z.land result 0x100000000 =? 0) in
  let o := negb (Z.lxor (Z.land result 0x80000000) (Z.land a 0x80000000) =? 0) in
  (u32 result, CpuState c o).

Definition addWithCarry (s : cpu_state) (a b : Z) : Z * cpu_state :=
  let result := u64 (a + b + Z.b2z (carry s)) in
  let c := negb (Z.land result 0x100000000 =? 0) in
  let o := negb (Z.lxor (Z.land result 0x80000000) (Z.land a 0x80000000) =? 0) in
  (u32 result, CpuState c o).

Definition lib_ADD_C (s : cpu_state) (a b : Z) : Z * cpu_state := add s a b.
Definition lib_ADD (a b : Z) : Z := u32 (a + b).
Definition lib_ADD_64 (a b : Z) : Z := u64 (a + b).
Definition lib_ADDC_C (s : cpu_state) (a b : Z) : Z * cpu_state := addWithCarry s a b.
Definition lib_SUB (a b : Z) : Z := u32 (a - b).
Definition lib_SUB_64 (a b : Z) : Z := u64 (a - b).

Definition lib_SUB_C (s : cpu_state) (a b : Z) : Z * cpu_state :=
  let result := u32 (a - b) in
  let c := b >? a in
  let s := CpuState c (overflow s) in
  let o := ((s32 a <? 0) && (s32 b >=? 0) && (s32 result >=? 0)) ||
           ((s32 a >=? 0) && (s32 b <? 0) && (s32 result <? 0)) in
  let s := CpuState (carry s) o in
  let s := CpuState (overflow s) (overflow s) in
  (result, s).

Definition lib_MACS_64 (a b c : Z) : Z := s64 (a + b * c).
Definition lib_MSUS_64 (a b c : Z) : Z := s64 (a - b * c).
Definition lib_MACU_64 (a b c : Z) : Z := u64 (a + b * c).
Definition lib_MSUU_64 (a b c : Z) : Z := u64 (a - b * c).

Definition SL (val : Z) : Z := s16 (Z.land val 0xffff).
Definition SH (val : Z) : Z := s16 (Z.land (Z.shiftr val 16) 0xffff).
Definition ZL (val : Z) : Z := u16 (Z.land val 0xffff).
Definition ZH (val : Z) : Z := u16 (Z.land (Z.shiftr val 16) 0xffff).

(** The rounding normalisation of the _NR_R operations, on an int32_t and on a uint32_t result. *)
Definition norm_s (result shift : Z) : option Z :=
  if 0 <? shift then
    let* r := shl 32 1 (shift - 1) in shr 32 (s32 (result + s32 r)) shift
  else Some result.
Definition norm_u (result shift : Z) : option Z :=
  if 0 <? shift then
    let* r := shl 32 1 (shift - 1) in shr 32 (u32 (result + s32 r)) shift
  else Some result.

Definition lib_MAC (a b c : Z) : Z := u32 (a + b * c).
Definition lib_MAC_C (s : cpu_state) (a b c : Z) : Z * cpu_state :=
  add s a (u32 (b * c)).
Definition lib_MACC (s : cpu_state) (a b c : Z) : Z * cpu_state :=
  addWithCarry s a (u32 (b * c)).
Definition lib_MSU (a b c : Z) : Z := u32 (a - b * c).
Definition lib_MMUL (a b c : Z) : Z := u32 (- b * c).

Definition lib_MAC_SL_SL (a b c : Z) : Z := u32 (a + SL b * SL c).
Definition lib_MAC_SL_SH (a b c : Z) : Z := u32 (a + SL b * SH c).
Definition lib_MAC_SH_SL (a b c : Z) : Z := u32 (a + SH b * SL c).
Definition lib_MAC_SH_SH (a b c : Z) : Z := u32 (a + SH b * SH c).
Definition lib_MAC_ZL_ZL (a b c : Z) : Z := u32 (a + ZL b * ZL c).
Definition lib_MAC_ZL_ZH (a b c : Z) : Z := u32 (a + ZL b * ZH c).
Definition lib_MAC_ZH_ZL (a b c : Z) : Z := u32 (a + ZH b * ZL c).
Definition lib_MAC_ZH_ZH (a b c : Z) : Z := u32 (a + ZH b * ZH c).
Definition lib_MAC_SL_ZL (a b c : Z) : Z := u32 (a + SL b * ZL c).
Definition lib_MAC_SL_ZH (a b c : Z) : Z := u32 (a + SL b * ZH c).
Definition lib_MAC_SH_ZL (a b c : Z) : Z := u32 (a + SH b * ZL c).
Definition lib_MAC_SH_ZH (a b c : Z) : Z := u32 (a + SH b * ZH c).
Definition lib_MAC_ZL_SL (a b c : Z) : Z := u32 (a + ZL b * SL c).
Definition lib_MAC_ZL_SH (a b c : Z) : Z := u32 (a + ZL b * SH c).
Definition lib_MAC_ZH_SL (a b c : Z) : Z := u32 (a + ZH b * SL c).
Definition lib_MAC_ZH_SH (a b c : Z) : Z := u32 (a + ZH b * SH c).
Definition lib_MAC_SL_SL_NR (a b c shift : Z) : option Z :=
  let* r := shr 32 (s32 (a + SL b * SL c)) shift in Some (u32 r).
Definition lib_MAC_SH_SH_NR (a b c shift : Z) : option Z :=
  let* r := shr 32 (s32 (a + SH b * SH c)) shift in Some (u32 r).
Definition lib_MAC_ZL_ZL_NR (a b c shift : Z) : option Z :=
  let* r := shr 32 (u32 (a + ZL b * ZL c)) shift in Some (u32 r).
Definition lib_MAC_ZH_ZH_NR (a b c shift : Z) : option Z :=
  let* r := shr 32 (u32 (a + ZH b * ZH c)) shift in Some (u32 r).
Definition lib_MAC_SL_SL_NR_R (a b c shift : Z) : option Z :=
  let* r := norm_s (s32 (a + SL b * SL c)) shift in Some (u32 r).
Definition lib_MAC_SH_SH_NR_R (a b c shift : Z) : option Z :=
  let* r := norm_s (s32 (a + SH b * SH c)) shift in Some (u32 r).
Definition lib_MAC_ZL_ZL_NR_R (a b c shift : Z) : option Z :=
  let* r := norm_u (u32 (a + ZL b * ZL c)) shift in Some (u32 r).
Definition lib_MAC_ZH_ZH_NR_R (a b c shift : Z) : option Z :=
  let* r := norm_u (u32 (a + ZH b * ZH c)) shift in Some (u32 r).
Definition lib_MAC_C_SL_SL (s : cpu_state) (a b c : Z) : Z * cpu_state :=
  add s a (u32 (SL b * SL c)).
Definition lib_MAC_C_SL_SH (s : cpu_state) (a b c : Z) : Z * cpu_state :=
  add s a (u32 (SL b * SH c)).
Definition lib_MAC_C_SH_SL (s : cpu_state) (a b c : Z) : Z * cpu_state :=
  add s a (u32 (SH b * SL c)).
Definition lib_MAC_C_SH_SH (s : cpu_state) (a b c : Z) : Z * cpu_state :=
  add s a (u32 (SH b * SH c)).
Definition lib_MAC_C_ZL_ZL (s : cpu_state) (a b c : Z) : Z * cpu_state :=
  add s a (u32 (ZL b * ZL c)).
Definition lib_MAC_C_ZL_ZH (s : cpu_state) (a b c : Z) : Z * cpu_state :=
  add s a (u32 (ZL b * ZH c)).
Definition lib_MAC_C_ZH_ZL (s : cpu_state) (a b c : Z) : Z * cpu_state :=
  add s a (u32 (ZH b * ZL c)).
Definition lib_MAC_C_ZH_ZH (s : cpu_state) (a b c : Z) : Z * cpu_state :=
  add s a (u32 (ZH b * ZH c)).
Definition lib_MAC_C_SL_ZL (s : cpu_state) (a b c : Z) : Z * cpu_state :=
  add s a (u32 (SL b * ZL c)).
Definition lib_MAC_C_SL_ZH (s : cpu_state) (a b c : Z) : Z * cpu_state :=
  add s a (u32 (SL b * ZH c)).
Definition lib_MAC_C_SH_ZL (s : cpu_state) (a b c : Z) : Z * cpu_state :=
  add s a (u32 (SH b * ZL c)).
Definition lib_MAC_C_SH_ZH (s : cpu_state) (a b c : Z) : Z * cpu_state :=
  add s a (u32 (SH b * ZH c)).
Definition lib_MAC_C_ZL_SL (s : cpu_state) (a b c : Z) : Z * cpu_state :=
  add s a (u32 (ZL b * SL c)).
Definition lib_MAC_C_ZL_SH (s : cpu_state) (a b c : Z) : Z * cpu_state :=
  add s a (u32 (ZL b * SH c)).
Definition lib_MAC_C_ZH_SL (s : cpu_state) (a b c : Z) : Z * cpu_state :=
  add s a (u32 (ZH b * SL c)).
Definition lib_MAC_C_ZH_SH (s : cpu_state) (a b c : Z) : Z * cpu_state :=
  add s a (u32 (ZH b * SH c)).
Definition lib_MACC_SL_SL (s : cpu_state) (a b c : Z) : Z * cpu_state :=
  addWithCarry s a (u32 (SL b * SL c)).
Definition lib_MACC_SH_SL (s : cpu_state) (a b c : Z) : Z * cpu_state :=
  addWithCarry s a (u32 (SH b * SL c)).
Definition lib_MACC_SH_SH (s : cpu_state) (a b c : Z) : Z * cpu_state :=
  addWithCarry s a (u32 (SH b * SH c)).
Definition lib_MACC_ZL_ZL (s : cpu_state) (a b c : Z) : Z * cpu_state :=
  addWithCarry s a (u32 (ZL b * ZL c)).
Definition lib_MACC_ZH_ZL (s : cpu_state) (a b c : Z) : Z * cpu_state :=
  addWithCarry s a (u32 (ZH b * ZL c)).
Definition lib_MACC_ZH_ZH (s : cpu_state) (a b c : Z) : Z * cpu_state :=
  addWithCarry s a (u32 (ZH b * ZH c)).
Definition lib_MACC_SH_ZL (s : cpu_state) (a b c : Z) : Z * cpu_state :=
  addWithCarry s a (u32 (SH b * ZL c)).

Definition lib_MSU_SL_SL (a b c : Z) : Z := u32 (a - SL b * SL c).
Definition lib_MSU_SL_SH (a b c : Z) : Z := u32 (a - SL b * SH c).
Definition lib_MSU_SH_SL (a b c : Z) : Z := u32 (a - SH b * SL c).
Definition lib_MSU_SH_SH (a b c : Z) : Z := u32 (a - SH b * SH c).
Definition lib_MSU_ZL_ZL (a b c : Z) : Z := u32 (a - ZL b * ZL c).
Definition lib_MSU_ZL_ZH (a b c : Z) : Z := u32 (a - ZL b * ZH c).
Definition lib_MSU_ZH_ZL (a b c : Z) : Z := u32 (a - ZH b * ZL c).
Definition lib_MSU_ZH_ZH (a b c : Z) : Z := u32 (a - ZH b * ZH c).
Definition lib_MSU_SL_ZL (a b c : Z) : Z := u32 (a - SL b * ZL c).
Definition lib_MSU_SL_ZH (a b c : Z) : Z := u32 (a - SL b * ZH c).
Definition lib_MSU_SH_ZL (a b c : Z) : Z := u32 (a - SH b * ZL c).
Definition lib_MSU_SH_ZH (a b c : Z) : Z := u32 (a - SH b * ZH c).
Definition lib_MSU_ZL_SL (a b c : Z) : Z := u32 (a - ZL b * SL c).
Definition lib_MSU_ZL_SH (a b c : Z) : Z := u32 (a - ZL b * SH c).
Definition lib_MSU_ZH_SL (a b c : Z) : Z := u32 (a - ZH b * SL c).
Definition lib_MSU_ZH_SH (a b c : Z) : Z := u32 (a - ZH b * SH c).

Definition lib_MUL_SL_SL (b c : Z) : Z := u32 (SL b * SL c).
Definition lib_MUL_SL_SH (b c : Z) : Z := u32 (SL b * SH c).
Definition lib_MUL_SH_SL (b c : Z) : Z := u32 (SH b * SL c).
Definition lib_MUL_SH_SH (b c : Z) : Z := u32 (SH b * SH c).
Definition lib_MUL_ZL_ZL (b c : Z) : Z := u32 (ZL b * ZL c).
Definition lib_MUL_ZL_ZH (b c : Z) : Z := u32 (ZL b * ZH c).
Definition lib_MUL_ZH_ZL (b c : Z) : Z := u32 (ZH b * ZL c).
Definition lib_MUL_ZH_ZH (b c : Z) : Z := u32 (ZH b * ZH c).
Definition lib_MUL_SL_SL_NR (b c shift : Z) : option Z :=
  let* r := shr 32 (s32 (SL b * SL c)) shift in Some (u32 r).
Definition lib_MUL_SH_SH_NR (b c shift : Z) : option Z :=
  let* r := shr 32 (s32 (SH b * SH c)) shift in Some (u32 r).
Definition lib_MUL_ZL_ZL_NR (b c shift : Z) : option Z :=
  let* r := shr 32 (u32 (ZL b * ZL c)) shift in Some (u32 r).
Definition lib_MUL_ZH_ZH_NR (b c shift : Z) : option Z :=
  let* r := shr 32 (u32 (ZH b * ZH c)) shift in Some (u32 r).
Definition lib_MUL_SL_SL_NR_R (b c shift : Z) : option Z :=
  let* r := norm_s (s32 (SL b * SL c)) shift in Some (u32 r).
Definition lib_MUL_SH_SH_NR_R (b c shift : Z) : option Z :=
  let* r := norm_s (s32 (SH b * SH c)) shift in Some (u32 r).
Definition lib_MUL_ZL_ZL_NR_R (b c shift : Z) : option Z :=
  let* r := norm_u (u32 (ZL b * ZL c)) shift in Some (u32 r).
Definition lib_MUL_ZH_ZH_NR_R (b c shift : Z) : option Z :=
  let* r := norm_u (u32 (ZH b * ZH c)) shift in Some (u32 r).
Definition lib_MUL_SL_ZL (b c : Z) : Z := u32 (SL b * ZL c).
Definition lib_MUL_SL_ZH (b c : Z) : Z := u32 (SL b * ZH c).
Definition lib_MUL_SH_ZL (b c : Z) : Z := u32 (SH b * ZL c).
Definition lib_MUL_SH_ZH (b c : Z) : Z := u32 (SH b * ZH c).
Definition lib_MUL_ZL_SL (b c : Z) : Z := u32 (ZL b * SL c).
Definition lib_MUL_ZL_SH (b c : Z) : Z := u32 (ZL b * SH c).
Definition lib_MUL_ZH_SL (b c : Z) : Z := u32 (ZH b * SL c).
Definition lib_MUL_ZH_SH (b c : Z) : Z := u32 (ZH b * SH c).
Definition lib_MMUL_SL_SL (b c : Z) : Z := u32 (- SL b * SL c).
Definition lib_MMUL_SL_SH (b c : Z) : Z := u32 (- SL b * SH c).
Definition lib_MMUL_SH_SL (b c : Z) : Z := u32 (- SH b * SL c).
Definition lib_MMUL_SH_SH (b c : Z) : Z := u32 (- SH b * SH c).
Definition lib_MMUL_ZL_ZL (b c : Z) : Z := u32 (- ZL b * ZL c).
Definition lib_MMUL_ZL_ZH (b c : Z) : Z := u32 (- ZL b * ZH c).
Definition lib_MMUL_ZH_ZL (b c : Z) : Z := u32 (- ZH b * ZL c).
Definition lib_MMUL_ZH_ZH (b c : Z) : Z := u32 (- ZH b * ZH c).
Definition lib_MMUL_SL_ZL (b c : Z) : Z := u32 (- SL b * ZL c).
Definition lib_MMUL_SL_ZH (b c : Z) : Z := u32 (- SL b * ZH c).
Definition lib_MMUL_SH_ZL (b c : Z) : Z := u32 (- SH b * ZL c).
Definition lib_MMUL_SH_ZH (b c : Z) : Z := u32 (- SH b * ZH c).
Definition lib_MMUL_ZL_SL (b c : Z) : Z := u32 (- ZL b * SL c).
Definition lib_MMUL_ZL_SH (b c : Z) : Z := u32 (- ZL b * SH c).
Definition lib_MMUL_ZH_SL (b c : Z) : Z := u32 (- ZH b * SL c).
Definition lib_MMUL_ZH_SH (b c : Z) : Z := u32 (- ZH b * SH c).

Definition lib_MULS (a b : Z) : Z := u32 (s32 (a * b)).
Definition lib_MULU (a b : Z) : Z := u32 (a * b).
Definition lib_MULS_64 (a b : Z) : Z := s64 (a * b).
Definition lib_MULU_64 (a b : Z) : Z := u64 (a * b).
Definition lib_DIVS (a b : Z) : option Z :=
  if b =? 0 then Some 0
  else if (a =? - 2 ^ 31) && (b =? -1) then None else Some (u32 (Z.quot a b)).
Definition lib_DIVU (a b : Z) : Z := if b =? 0 then 0 else a / b.
Definition lib_MINU (a b : Z) : Z := if a <? b then a else b.
Definition lib_MINS (a b : Z) : Z := if a <? b then a else b.
Definition lib_MAXU (a b : Z) : Z := if a >? b then a else b.
Definition lib_MAXS (a b : Z) : Z := if a >? b then a else b.
Definition lib_ABS (a : Z) : Z := if a >=? 0 then a else s32 (- a).
Definition lib_AVGU (a b : Z) : Z := Z.shiftr (u32 (a + b)) 1.
Definition lib_AVGS (a b : Z) : Z := Z.shiftr (s32 (a + b)) 1.

Definition lib_MINU_64 (a b : Z) : Z := if a <? b then a else b.
Definition lib_MINS_64 (a b : Z) : Z := if a <? b then a else b.
Definition lib_MAXU_64 (a b : Z) : Z := if a >? b then a else b.
Definition lib_MAXS_64 (a b : Z) : Z := if a >? b then a else b.
Definition lib_ABS_64 (a : Z) : Z := if a <? 0 then s64 (- a) else a.

Definition lib_CMOV (flag a b : Z) : Z := if negb (flag =? 0) then a else b.

(** ** Bit manipulation *)

(** The C library's ffs: one plus the index of the least set bit, 0 when there is none. *)
Fixpoint ffs_from (n : nat) (i a : Z) : Z :=
  match n with
  | O => 0
  | S n => if Z.testbit a i then i + 1 else ffs_from n (i + 1) a
  end.
Definition ffs (a : Z) : Z := ffs_from 32 0 a.

(** __builtin_popcount and __builtin_clrsb on 32 bits. *)
Fixpoint popcount_from (n : nat) (i a : Z) : Z :=
  match n with
  | O => 0
  | S n => Z.b2z (Z.testbit a i) + popcount_from n (i + 1) a
  end.
Definition popcount (a : Z) : Z := popcount_from 32 0 a.

Fixpoint clrsb_from (n : nat) (a : Z) : Z :=
  match n with
  | O => 0
  | S n => if Bool.eqb (Z.testbit a (Z.of_nat n)) (Z.testbit a 31) then 1 + clrsb_from n a else 0
  end.
Definition clrsb (a : Z) : Z := clrsb_from 31 a.

Definition lib_FF1_or1k (a : Z) : Z := ffs a.

(** The network that reverses the bits of a word, by swapping ever larger neighbours. *)
Definition swap_bits (hi lo n t : Z) : Z :=
  Z.lor (Z.shiftr (Z.land t hi) n) (u32 (Z.shiftl (Z.land t lo) n)).
Definition reverse_word (t : Z) : Z :=
  let t := swap_bits 0xaaaaaaaa 0x55555555 1 t in
  let t := swap_bits 0xcccccccc 0x33333333 2 t in
  let t := swap_bits 0xf0f0f0f0 0x0f0f0f0f 4 t in
  let t := swap_bits 0xff00ff00 0x00ff00ff 8 t in
  Z.lor (Z.shiftr t 16) (u32 (Z.shiftl t 16)).

Definition lib_FL1_or1k (t : Z) : Z :=
  let t := ffs (reverse_word t) in
  if 0 =? t then t else 33 - t.

Definition lib_FF1 (a : Z) : Z :=
  let result := ffs a in
  if result =? 0 then 32 else result - 1.

Definition lib_FL1 (t : Z) : Z :=
  let t := ffs (reverse_word t) in
  if 0 =? t then 32 else 32 - t.

Definition lib_CNT (t : Z) : Z := popcount t.
Definition lib_CNT_64 (t : Z) : Z :=
  popcount (Z.land (Z.shiftr t 32) (Z.shiftl 1 32 - 1)) + popcount (Z.land t (Z.shiftl 1 32 - 1)).
Definition lib_CLB (t : Z) : Z := if t =? 0 then 0 else clrsb t.

Definition lib_BSET (val mask : Z) : Z := Z.lor val mask.
Definition lib_BCLR (val mask : Z) : Z := Z.land val (u32 (Z.lnot mask)).

Definition lib_BEXTRACT (val bits shift : Z) : option Z :=
  let bits := if u32 (shift + bits) >? 32 then u32 (32 - shift) else bits in
  let* r := getSignedField val (s32 shift) (s32 bits) in
  Some (s32 r).

Definition lib_BEXTRACTU (val mask shift : Z) : option Z := shr 32 (Z.land val mask) shift.

Definition lib_BINSERT (a b mask shift : Z) : option Z :=
  let* x := shl 32 a shift in
  Some (Z.lor (Z.land b (u32 (Z.lnot mask))) (Z.land (u32 x) mask)).

(** ** Normalisation and rounding *)

Definition lib_ADD_NR (a b shift : Z) : option Z :=
  let shift := Z.land shift 0x1f in
  let* r := shr 32 (s32 (a + b)) shift in Some (u32 r).
Definition lib_ADD_NRU (a b shift : Z) : option Z :=
  let shift := Z.land shift 0x1f in shr 32 (u32 (a + b)) shift.
Definition lib_ADD_NL (a b shift : Z) : option Z :=
  let shift := Z.land shift 0x1f in
  let* r := shl 32 (u32 (a + b)) shift in Some (u32 r).
Definition lib_ADD_NR_R (a b shift : Z) : option Z :=
  let shift := Z.land shift 0x1f in
  if 0 <? shift then
    let* x := shl 32 1 (shift - 1) in
    let* r := shr 32 (s32 (a + b + x)) shift in Some (u32 r)
  else Some (u32 (s32 (a + b))).
Definition lib_ADD_NR_RU (a b shift : Z) : option Z :=
  let shift := Z.land shift 0x1f in
  if 0 <? shift then
    let* x := shl 32 1 (shift - 1) in shr 32 (u32 (a + b + x)) shift
  else Some (u32 (a + b)).

Definition lib_SUB_NR (a b shift : Z) : option Z :=
  let shift := Z.land shift 0x1f in
  let* r := shr 32 (s32 (a - b)) shift in Some (u32 r).
Definition lib_SUB_NRU (a b shift : Z) : option Z :=
  let shift := Z.land shift 0x1f in shr 32 (u32 (a - b)) shift.
Definition lib_SUB_NL (a b shift : Z) : option Z :=
  let shift := Z.land shift 0x1f in
  let* r := shl 32 (u32 (a - b)) shift in Some (u32 r).
Definition lib_SUB_NR_R (a b shift : Z) : option Z :=
  let shift := Z.land shift 0x1f in
  if 0 <? shift then
    let* x := shl 32 1 (shift - 1) in
    let* r := shr 32 (s32 (a - b + x)) shift in Some (u32 r)
  else Some (u32 (s32 (a - b))).
Definition lib_SUB_NR_RU (a b shift : Z) : option Z :=
  let shift := Z.land shift 0x1f in
  if 0 <? shift then
    let* x := shl 32 1 (shift - 1) in shr 32 (u32 (a - b + x)) shift
  else Some (u32 (a - b)).

Definition lib_MULS_NL (a b shift : Z) : option Z :=
  let* r := shl 32 (s32 (a * b)) shift in Some (s32 r).
Definition lib_MULU_NL (a b shift : Z) : option Z :=
  let* r := shl 32 (u32 (a * b)) shift in Some (u32 r).
Definition lib_MULUS_NL (a b shift : Z) : option Z :=
  let* r := shl 32 (u32 (a * b)) shift in Some (u32 r).
Definition lib_MULS_NR (a b shift : Z) : option Z := shr 32 (s32 (a * b)) shift.
Definition lib_MULU_NR (a b shift : Z) : option Z := shr 32 (u32 (a * b)) shift.
Definition lib_MULUS_NR (a b shift : Z) : option Z :=
  let* r := shr 32 (s32 (a * b)) shift in Some (u32 r).
Definition lib_MULS_NR_R (a b shift : Z) : option Z :=
  if 0 <? shift then
    let* x := shl 32 1 (shift - 1) in shr 32 (s32 (a * b + x)) shift
  else Some (s32 (a * b)).
Definition lib_MULU_NR_R (a b shift : Z) : option Z :=
  if 0 <? shift then
    let* x := shl 32 1 (shift - 1) in shr 32 (u32 (a * b + x)) shift
  else Some (u32 (a * b)).
Definition lib_MULUS_NR_R (a b shift : Z) : option Z :=
  let* roundValue := if shift =? 0 then Some 0 else shl 32 1 (shift - 1) in
  shr 32 (s32 (a * b + roundValue)) shift.

Definition lib_MACS_NL (a b c shift : Z) : option Z :=
  let* r := shl 32 (s32 (a + b * c)) shift in Some (s32 r).
Definition lib_MACU_NL (a b c shift : Z) : option Z :=
  let* r := shl 32 (u32 (a + b * c)) shift in Some (u32 r).
Definition lib_MACUS_NL (a b c shift : Z) : option Z :=
  let* r := shl 32 (u32 (a + b * c)) shift in Some (u32 r).
Definition lib_MACS_NR (a b c shift : Z) : option Z := shr 32 (s32 (a + b * c)) shift.
Definition lib_MACU_NR (a b c shift : Z) : option Z := shr 32 (u32 (a + b * c)) shift.
Definition lib_MACUS_NR (a b c shift : Z) : option Z :=
  let* r := shr 32 (s32 (a + b * c)) shift in Some (u32 r).
Definition lib_MACS_NR_R (a b c shift : Z) : option Z :=
  if 0 <? shift then
    let* x := shl 32 1 (shift - 1) in shr 32 (s32 (a + b * c + x)) shift
  else Some (s32 (a + b * c)).
Definition lib_MACU_NR_R (a b c shift : Z) : option Z :=
  if 0 <? shift then
    let* x := shl 32 1 (shift - 1) in shr 32 (u32 (a + b * c + x)) shift
  else Some (u32 (a + b * c)).
Definition lib_MACUS_NR_R (a b c shift : Z) : option Z :=
  if 0 <? shift then
    let* x := shl 32 1 (shift - 1) in
    let* r := shr 32 (s32 (a + b * c + x)) shift in Some (u32 r)
  else Some (u32 (s32 (a + b * c))).

(** ** Clipping *)

Definition lib_CLIP (a low high : Z) : Z :=
  let result := if a <? low then low else if a >? high then high else a in u32 result.

Definition lib_CLIPU (a high : Z) : Z :=
  let result := if a >? high then high else if a <=? 0 then 0 else a in u32 result.

(** ** Digit reversal

    The loop of lib_BITREV from [i], with its number of remaining iterations. *)
Fixpoint bitrev_loop (n : nat) (radix mask input input_reverse : Z) : option (Z * Z) :=
  match n with
  | O => Some (input, input_reverse)
  | S n =>
      let* input := shr 32 input radix in
      let* x := shl 32 input_reverse radix in
      let input_reverse := Z.lor (u32 x) (Z.land input mask) in
      bitrev_loop n radix mask input input_reverse
  end.

Definition lib_BITREV (input points radix : Z) : option Z :=
  let points := u32 (32 - points) in
  let* x := shl 32 1 radix in
  let mask := u32 (s32 x - 1) in
  if radix =? 0 then None
  else
    let* r := bitrev_loop (Z.to_nat (points / radix - 1)) radix mask input input in
    let input_reverse := snd r in
    if points <? 32 then
      let* y := shl 32 1 points in
      Some (Z.land input_reverse (u32 (s32 y - 1)))
    else Some input_reverse.

(** ** Bits of words *)

(** The positions of a word, one by one. *)
Lemma forall_word_bits (P : Z -> Prop) :
  Forall P (Z.of_nat <$> seq 0 32) -> forall i, 0 <= i < 32 -> P i.
Proof.
  intros H i Hi. rewrite Forall_forall in H. apply H. apply list_elem_of_fmap.
  exists (Z.to_nat i). split; [lia|]. apply elem_of_seq. lia.
Qed.

(** A stage with masks [hi] and [lo] exchanges bits [i] and [i xor n]. *)
Definition swap_masks (hi lo n : Z) : Prop :=
  0 < n /\ 0 <= hi < 2 ^ 32 /\
  Forall (fun i => Z.testbit hi (i + n) = negb (Z.testbit i (Z.log2 n)) /\
                   Z.testbit lo (i - n) = Z.testbit i (Z.log2 n) /\
                   Z.lxor i n = if Z.testbit i (Z.log2 n) then i - n else i + n)
    (Z.of_nat <$> seq 0 32).

Lemma swap_bits_spec hi lo n t i :
  swap_masks hi lo n -> 0 <= i < 32 -> Z.testbit (swap_bits hi lo n t) i = Z.testbit t (Z.lxor i n).
Proof.
  intros (Hn & Hhi & HF) Hi. unfold swap_bits.
  rewrite Z.lor_spec, uw_testbit, Z.shiftr_spec, Z.shiftl_spec, !Z.land_spec by lia.
  destruct (forall_word_bits _ HF i Hi) as (E1 & E2 & ->). rewrite E1, E2.
  rewrite (proj2 (Z.ltb_lt i 32)) by lia.
  destruct (Z.testbit i (Z.log2 n)); simpl; by autorewrite with gv_bits.
Qed.

Lemma swap_bits_high hi lo n t i :
  swap_masks hi lo n -> 32 <= i -> Z.testbit (swap_bits hi lo n t) i = false.
Proof.
  intros (Hn & Hhi & HF) Hi. unfold swap_bits.
  rewrite Z.lor_spec, uw_testbit, Z.shiftr_spec, Z.land_spec by lia.
  rewrite (testbit_above 32 hi) by lia. rewrite (proj2 (Z.ltb_ge i 32)) by lia.
  by autorewrite with gv_bits.
Qed.

Ltac swap_masks := split; [lia|split; [lia|repeat constructor]].
Lemma swap_1 : swap_masks 0xaaaaaaaa 0x55555555 1. Proof. swap_masks. Qed.
Lemma swap_2 : swap_masks 0xcccccccc 0x33333333 2. Proof. swap_masks. Qed.
Lemma swap_4 : swap_masks 0xf0f0f0f0 0x0f0f0f0f 4. Proof. swap_masks. Qed.
Lemma swap_8 : swap_masks 0xff00ff00 0x00ff00ff 8. Proof. swap_masks. Qed.

(** Evaluates the position of a bit of [x]. *)
Ltac eval_bit x :=
  lazymatch goal with |- context [Z.testbit x ?a] =>
    let a' := eval vm_compute in a in change (Z.testbit x a) with (Z.testbit x a') end.

Lemma reverse_word_bit t i :
  0 <= i < 32 -> Z.testbit (reverse_word t) i = Z.testbit t (31 - i).
Proof.
  revert i. apply forall_word_bits. unfold reverse_word.
  set (t1 := swap_bits 0xaaaaaaaa 0x55555555 1 t).
  set (t2 := swap_bits 0xcccccccc 0x33333333 2 t1).
  set (t3 := swap_bits 0xf0f0f0f0 0x0f0f0f0f 4 t2).
  set (t4 := swap_bits 0xff00ff00 0x00ff00ff 8 t3).
  assert (H4 : forall j, 32 <= j -> Z.testbit t4 j = false)
    by (intros; by apply swap_bits_high; [apply swap_8|]).
  assert (S8 : forall j, 0 <= j < 32 -> Z.testbit t4 j = Z.testbit t3 (Z.lxor j 8))
    by (intros; by apply swap_bits_spec; [apply swap_8|]).
  assert (S4 : forall j, 0 <= j < 32 -> Z.testbit t3 j = Z.testbit t2 (Z.lxor j 4))
    by (intros; by apply swap_bits_spec; [apply swap_4|]).
  assert (S2 : forall j, 0 <= j < 32 -> Z.testbit t2 j = Z.testbit t1 (Z.lxor j 2))
    by (intros; by apply swap_bits_spec; [apply swap_2|]).
  assert (S1 : forall j, 0 <= j < 32 -> Z.testbit t1 j = Z.testbit t (Z.lxor j 1))
    by (intros; by apply swap_bits_spec; [apply swap_1|]).
  clearbody t1 t2 t3 t4. cbn [seq fmap list_fmap].
  repeat (apply Forall_cons; split;
    [ cbv beta; rewrite Z.lor_spec, uw_testbit, Z.shiftr_spec, Z.shiftl_spec by lia;
      lazymatch goal with |- Z.testbit t4 ?a || ?d && Z.testbit t4 ?b = Z.testbit t ?c =>
        change d with true;
        let a' := eval vm_compute in a in change a with a';
        let b' := eval vm_compute in b in change b with b';
        let c' := eval vm_compute in c in change c with c';
        first [rewrite (Z.testbit_neg_r t4 b') by lia | rewrite (H4 a') by lia] end;
      rewrite S8 by lia;
      eval_bit t3;
      rewrite S4 by lia;
      eval_bit t2;
      rewrite S2 by lia;
      eval_bit t1;
      rewrite S1 by lia;
      cbn [Z.lxor]; by autorewrite with gv_bits
    |]).
  constructor.
Qed.

(** ffs finds the least set bit of a word. *)
Lemma ffs_from_spec n i a :
  let r := ffs_from n i a in
  (r = 0 /\ forall j, i <= j < i + Z.of_nat n -> Z.testbit a j = false) \/
  (i < r <= i + Z.of_nat n /\ Z.testbit a (r - 1) = true /\
   forall j, i <= j < r - 1 -> Z.testbit a j = false).
Proof.
  revert i. induction n as [|n IH]; intros i; cbn [ffs_from].
  { left. split; [done|]. lia. }
  destruct (Z.testbit a i) eqn:E.
  { right. split; [lia|]. replace (i + 1 - 1) with i by lia. split; [done|]. lia. }
  destruct (IH (i + 1)) as [[-> H]|(Hr & Hb & H)]; [left|right].
  - split; [done|]. intros j Hj. destruct (Z.eq_dec i j) as [<-|]; [done|]. apply H. lia.
  - split; [lia|]. split; [done|]. intros j Hj.
    destruct (Z.eq_dec i j) as [<-|]; [done|]. apply H. lia.
Qed.

Lemma bits_zero w a : 0 <= a < 2 ^ w -> (forall i, 0 <= i < w -> Z.testbit a i = false) -> a = 0.
Proof.
  intros Ha H. apply Z.bits_inj_0. intros i. destruct (Z.ltb_spec i 0).
  - by apply Z.testbit_neg_r.
  - destruct (Z.ltb_spec i w); [by apply H|]. by eapply testbit_above.
Qed.

Lemma log2_highest a i :
  0 <= a -> 0 <= i -> Z.testbit a i = true -> (forall j, i < j -> Z.testbit a j = false) ->
  Z.log2 a = i.
Proof.
  intros Ha Hi Hb Hn. destruct (Z.ltb_spec (Z.log2 a) i).
  { rewrite Z.bits_above_log2 in Hb by done. done. }
  destruct (Z.ltb_spec i (Z.log2 a)) as [Hl|]; [|lia]. specialize (Hn _ Hl).
  rewrite Z.bit_log2 in Hn; [done|]. destruct (Z.eq_dec a 0) as [->|]; [|lia].
  by rewrite Z.bits_0 in Hb.
Qed.

Lemma ffs_spec a :
  0 <= a < 2 ^ 32 ->
  (a = 0 /\ ffs a = 0) \/
  (a <> 0 /\ 0 < ffs a <= 32 /\ Z.testbit a (ffs a - 1) = true /\
   forall j, 0 <= j < ffs a - 1 -> Z.testbit a j = false).
Proof.
  intros Ha. destruct (ffs_from_spec 32 0 a) as [[H H0]|(H1 & H2 & H3)]; [left|right].
  - split; [|done]. by apply (bits_zero 32).
  - split; [intros ->; by rewrite Z.bits_0 in H2|]. done.
Qed.

Lemma reverse_word_range t : 0 <= reverse_word t < 2 ^ 32.
Proof.
  unfold reverse_word. set (t4 := swap_bits _ _ 8 _). apply range_of_bits; [lia|]. intros i Hi.
  rewrite Z.lor_spec, uw_testbit, Z.shiftr_spec by lia. rewrite (proj2 (Z.ltb_ge i 32)) by lia.
  unfold t4. by rewrite (swap_bits_high _ _ _ _ _ swap_8) by lia.
Qed.

(** FL1 and FL1_or1k find the greatest set bit. *)
Lemma FL1_spec t :
  0 < t < 2 ^ 32 -> lib_FL1 t = Z.log2 t /\ lib_FL1_or1k t = Z.log2 t + 1.
Proof.
  intros Ht. unfold lib_FL1, lib_FL1_or1k.
  destruct (ffs_spec (reverse_word t)) as [[Hz _]|(_ & Hr & Hb & Hn)]; [apply reverse_word_range| |].
  - exfalso. assert (Hl : Z.testbit (reverse_word t) (31 - Z.log2 t) = true).
    { pose proof (Z.log2_lt_pow2 t 32 ltac:(lia)). pose proof (Z.log2_nonneg t).
      rewrite reverse_word_bit by lia. replace (31 - _) with (Z.log2 t) by lia.
      apply Z.bit_log2. lia. }
    by rewrite Hz, Z.bits_0 in Hl.
  - rewrite (proj2 (Z.eqb_neq 0 _)) by lia.
    assert (Hlog : Z.log2 t = 32 - ffs (reverse_word t)).
    { apply log2_highest; [lia|lia| |].
      - rewrite reverse_word_bit in Hb by lia. rewrite <- Hb. f_equal. lia.
      - intros j Hj. destruct (Z.ltb_spec j 32); [|by apply (testbit_above 32); lia].
        specialize (Hn (31 - j) ltac:(lia)). rewrite reverse_word_bit in Hn by lia.
        rewrite <- Hn. f_equal. lia. }
    rewrite Hlog. split; lia.
Qed.

(** clrsb counts the bits below bit 31 that repeat it. *)
Lemma clrsb_from_spec n a :
  (n <= 31)%nat ->
  let k := clrsb_from n a in
  0 <= k <= Z.of_nat n /\
  (forall i, Z.of_nat n - k <= i < Z.of_nat n -> Z.testbit a i = Z.testbit a 31) /\
  (k < Z.of_nat n -> Z.testbit a (Z.of_nat n - 1 - k) = negb (Z.testbit a 31)).
Proof.
  induction n as [|n IH]; intros Hn; cbn [clrsb_from]; [split; [lia|split; lia]|].
  destruct (Bool.eqb _ _) eqn:E.
  - apply Bool.eqb_prop in E. destruct (IH ltac:(lia)) as (H1 & H2 & H3).
    split; [lia|]. split.
    + intros i Hi. destruct (Z.eq_dec i (Z.of_nat n)) as [->|]; [done|]. apply H2. lia.
    + intros Hk. rewrite <- H3 by lia. f_equal. lia.
  - split; [lia|]. split; [lia|]. intros _. apply Bool.eqb_false_iff in E.
    replace (Z.of_nat (S n) - 1 - 0) with (Z.of_nat n) by lia.
    destruct (Z.testbit a (Z.of_nat n)), (Z.testbit a 31); done.
Qed.

(** ** Carries *)

Lemma sign_bit a : 0 <= a < 2 ^ 32 -> negb (Z.land a 0x80000000 =? 0) = (s32 a <? 0).
Proof.
  intros Ha. change 0x80000000 with (2 ^ 31). rewrite land_pow2 by lia.
  rewrite (testbit_top 31) by lia. unfold sw. rewrite uw_small by lia. change (32 - 1) with 31.
  destruct (Z.ltb_spec a (2 ^ 31)); bcases.
Qed.

Lemma lxor_eqb_0 a b : (Z.lxor a b =? 0) = (a =? b).
Proof.
  destruct (Z.eqb_spec a b) as [->|Hne]; [by rewrite Z.lxor_nilpotent|].
  apply Z.eqb_neq. intros E. by apply Z.lxor_eq in E.
Qed.

(** The two adders share their flags. *)
Lemma adder_spec a b (ci : bool) :
  0 <= a < 2 ^ 32 -> 0 <= b < 2 ^ 32 ->
  let result := u64 (a + b + Z.b2z ci) in
  result = a + b + Z.b2z ci /\
  negb (Z.land result 0x100000000 =? 0) = (2 ^ 32 <=? result) /\
  negb (Z.lxor (Z.land result 0x80000000) (Z.land a 0x80000000) =? 0) =
    xorb (s32 (u32 result) <? 0) (s32 a <? 0).
Proof.
  intros Ha Hb result.
  assert (E : result = a + b + Z.b2z ci) by (apply uw_small; destruct ci; simpl; lia).
  assert (Hr : 0 <= result < 2 * 2 ^ 32) by (rewrite E; destruct ci; simpl; lia).
  clearbody result. split; [done|]. split.
  { change 0x100000000 with (2 ^ 32). rewrite land_pow2 by lia. by rewrite testbit_top by lia. }
  rewrite lxor_eqb_0. pose proof (uw_range 32 result ltac:(lia)).
  rewrite <- (sign_bit a) by done. rewrite <- (sign_bit (u32 result)) by done.
  change 0x80000000 with (2 ^ 31). rewrite !land_pow2_cases by lia.
  rewrite uw_testbit by lia. change (31 <? 32) with true. cbn [andb].
  by destruct (Z.testbit result 31), (Z.testbit a 31).
Qed.

Lemma add_is_adder s a b : add s a b =
  let result := u64 (a + b + Z.b2z false) in
  (u32 result, CpuState (negb (Z.land result 0x100000000 =? 0))
     (negb (Z.lxor (Z.land result 0x80000000) (Z.land a 0x80000000) =? 0))).
Proof. unfold add. by rewrite Z.add_0_r. Qed.

(** ** Properties *)

(** The bit search instructions on a 32-bit word: FF1 gives the index of the least and FL1 of
    the greatest set bit, 32 when there is none (the or1k variants number bits from 1 and give
    0), and CLB the number of bits that repeat the sign bit. *)
Theorem bit_search t :
  0 <= t < 2 ^ 32 ->
  (t = 0 -> lib_FF1 t = 32 /\ lib_FL1 t = 32 /\ lib_FF1_or1k t = 0 /\ lib_FL1_or1k t = 0 /\
            lib_CLB t = 0) /\
  (t <> 0 ->
     (Z.testbit t (lib_FF1 t) = true /\ forall i, 0 <= i < lib_FF1 t -> Z.testbit t i = false) /\
     lib_FL1 t = Z.log2 t /\
     lib_FF1_or1k t = lib_FF1 t + 1 /\ lib_FL1_or1k t = lib_FL1 t + 1 /\
     (forall i, 31 - lib_CLB t <= i <= 31 -> Z.testbit t i = Z.testbit t 31) /\
     (lib_CLB t < 31 -> Z.testbit t (30 - lib_CLB t) = negb (Z.testbit t 31))).
Proof.
  intros Ht. split.
  - intros ->. by vm_compute.
  - intros Hne. destruct (FL1_spec t ltac:(lia)) as [H1 H2].
    unfold lib_FF1, lib_FF1_or1k. destruct (ffs_spec t Ht) as [[]|(_ & Hr & Hb & Hn)]; [done|].
    rewrite (proj2 (Z.eqb_neq (ffs t) 0)) by lia. split; [done|]. split; [done|].
    split; [lia|]. split; [lia|]. unfold lib_CLB. rewrite (proj2 (Z.eqb_neq t 0)) by done.
    destruct (clrsb_from_spec 31 t ltac:(lia)) as (C1 & C2 & C3). fold (clrsb t) in *.
    change (Z.of_nat 31) with 31 in *. split.
    + intros i Hi. destruct (Z.eq_dec i 31) as [->|]; [done|]. apply C2. lia.
    + intros Hk. rewrite <- C3 by lia. done.
Qed.

Lemma bit_search_witness :
  lib_FF1 0x50 = 4 /\ lib_FL1 0x50 = 6 /\ lib_CLB 0x50 = 24 /\
  Z.testbit 0x50 (lib_FF1 0x50) = true.
Proof.
  split; [reflexivity|]. split; [reflexivity|]. split; [reflexivity|].
  refine (proj1 (proj1 (proj2 (bit_search 0x50 _) _))); lia.
Defined.

(** ADD_C followed by ADDC_C on the high words adds 64-bit numbers: the two results are the
    halves of the sum and the final carry flag is its carry out. *)
Theorem wide_addition s a b :
  0 <= a < 2 ^ 64 -> 0 <= b < 2 ^ 64 ->
  let '(lo, s1) := lib_ADD_C s (a mod 2 ^ 32) (b mod 2 ^ 32) in
  let '(hi, s2) := lib_ADDC_C s1 (a / 2 ^ 32) (b / 2 ^ 32) in
  lo + 2 ^ 32 * hi = (a + b) mod 2 ^ 64 /\ carry s2 = (2 ^ 64 <=? a + b).
Proof.
  intros Ha Hb. unfold lib_ADD_C, lib_ADDC_C. rewrite add_is_adder. unfold addWithCarry. cbv zeta.
  pose proof (Z.div_mod a (2 ^ 32) ltac:(lia)) as Ea. pose proof (Z.div_mod b (2 ^ 32) ltac:(lia)) as Eb.
  pose proof (Z.mod_pos_bound a (2 ^ 32) ltac:(lia)) as Ra.
  pose proof (Z.mod_pos_bound b (2 ^ 32) ltac:(lia)) as Rb.
  assert (Hh : forall x, 0 <= x < 2 ^ 64 -> 0 <= x / 2 ^ 32 < 2 ^ 32).
  { intros x Hx. split; [apply Z.div_pos; lia|]. apply Z.div_lt_upper_bound; lia. }
  pose proof (Hh a Ha) as Rah. pose proof (Hh b Hb) as Rbh. clear Hh.
  set (al := a mod 2 ^ 32) in *. set (bl := b mod 2 ^ 32) in *.
  set (ah := a / 2 ^ 32) in *. set (bh := b / 2 ^ 32) in *. clearbody al bl ah bh.
  destruct (adder_spec al bl false Ra Rb) as (E1 & C1 & _). rewrite C1, E1. simpl Z.b2z.
  cbn [carry]. rewrite Z.add_0_r.
  set (c := 2 ^ 32 <=? al + bl).
  destruct (adder_spec ah bh c Rah Rbh) as (E2 & C2 & _). rewrite C2, E2.
  assert (Hc : Z.b2z c = (al + bl) / 2 ^ 32).
  { subst c. destruct (Z.leb_spec (2 ^ 32) (al + bl)); simpl.
    - apply (Z.div_unique_pos _ _ _ (al + bl - 2 ^ 32)); lia.
    - symmetry. apply Z.div_small. lia. }
  pose proof (Z.div_mod (al + bl) (2 ^ 32) ltac:(lia)) as El. rewrite <- Hc in El.
  unfold uw. rewrite <- Z.add_assoc. split.
  - pose proof (Z.div_mod (ah + (bh + Z.b2z c)) (2 ^ 32) ltac:(lia)) as Eh.
    pose proof (Z.mod_pos_bound (al + bl) (2 ^ 32)). pose proof (Z.mod_pos_bound (ah + (bh + Z.b2z c)) (2 ^ 32)).
    apply (Z.mod_unique_pos _ _ ((ah + (bh + Z.b2z c)) / 2 ^ 32)); lia.
  - pose proof (Z.mod_pos_bound (al + bl) (2 ^ 32)).
    destruct (Z.leb_spec (2 ^ 32) (ah + (bh + Z.b2z c))), (Z.leb_spec (2 ^ 64) (a + b)); try done; lia.
Qed.

Lemma wide_addition_witness :
  let '(lo, s1) := lib_ADD_C (CpuState false false) 0xffffffff 1 in
  let '(hi, s2) := lib_ADDC_C s1 0xffffffff 0 in
  lo + 2 ^ 32 * hi = 0 /\ carry s2 = true.
Proof.
  apply (wide_addition (CpuState false false) 0xffffffffffffffff 1); lia.
Defined.

(** ADD_C's overflow flag reports a change of sign with respect to the first operand, not a
    signed overflow: adding a nonnegative number to a negative one sets it whenever the exact
    and representable sum is not negative. *)
Theorem add_overflow_flag s a b :
  0 <= a < 2 ^ 32 -> 0 <= b < 2 ^ 32 -> s32 a < 0 -> 0 <= s32 b -> 0 <= s32 a + s32 b ->
  let '(r, s') := lib_ADD_C s a b in
  s32 r = s32 a + s32 b /\ overflow s' = true.
Proof.
  intros Ha Hb Hna Hnb Hs. unfold lib_ADD_C. rewrite add_is_adder. cbv zeta.
  destruct (adder_spec a b false Ha Hb) as (E & _ & ->). cbn [overflow].
  assert (Hr : s32 (u32 (u64 (a + b + Z.b2z false))) = s32 a + s32 b).
  { rewrite E. simpl Z.b2z. rewrite Z.add_0_r.
    rewrite sw_uw by lia. pose proof (sw_range 32 a). pose proof (sw_range 32 b).
    destruct (sw_spec 32 a) as [k Hk]; [lia|]. destruct (sw_spec 32 b) as [k' Hk']; [lia|].
    rewrite <- (sw_small 32 (s32 a + s32 b)) by lia. apply uw_eq_sw.
    rewrite Hk, Hk'. replace (a + k * 2 ^ 32 + (b + k' * 2 ^ 32)) with (a + b + (k + k') * 2 ^ 32) by lia.
    symmetry. apply uw_add_mul. lia. }
  rewrite Hr. split; [done|]. rewrite (proj2 (Z.ltb_ge _ 0)) by lia. by rewrite (proj2 (Z.ltb_lt _ 0)).
Qed.

Lemma add_overflow_flag_witness :
  let '(r, s') := lib_ADD_C (CpuState false false) 0xffffffff 2 in
  s32 r = 1 /\ overflow s' = true.
Proof.
  apply (add_overflow_flag (CpuState false false) 0xffffffff 2); vm_compute; intuition discriminate.
Defined.

(** ** Rounding *)

(** A rounded arithmetic shift gives the nearest integer, ties towards plus infinity. *)
Definition nearest (x shift r : Z) : Prop :=
  - 2 ^ (shift - 1) <= x - r * 2 ^ shift < 2 ^ (shift - 1).

Lemma round_nearest x shift :
  0 < shift -> nearest x shift (Z.shiftr (x + Z.shiftl 1 (shift - 1)) shift).
Proof.
  intros Hs. unfold nearest. rewrite Z.shiftr_div_pow2, Z.shiftl_1_l by lia.
  assert (E : 2 ^ shift = 2 * 2 ^ (shift - 1)) by (rewrite <- Z.pow_succ_r by lia; f_equal; lia).
  pose proof (Z.pow_pos_nonneg 2 (shift - 1) ltac:(lia) ltac:(lia)).
  pose proof (Z.div_mod (x + 2 ^ (shift - 1)) (2 ^ shift) ltac:(lia)) as Ed.
  pose proof (Z.mod_pos_bound (x + 2 ^ (shift - 1)) (2 ^ shift) ltac:(lia)). lia.
Qed.

Lemma half_range a : -32768 <= SL a < 32768 /\ -32768 <= SH a < 32768.
Proof. split; apply (sw_range 16); lia. Qed.

Lemma norm_s_nearest x shift :
  0 < shift < 32 -> - 2 ^ 31 <= x -> x + 2 ^ (shift - 1) < 2 ^ 31 ->
  exists r, norm_s x shift = Some r /\ nearest x shift r.
Proof.
  intros Hs Hx Hy. pose proof (Z.pow_pos_nonneg 2 (shift - 1) ltac:(lia) ltac:(lia)).
  unfold norm_s. rewrite (proj2 (Z.ltb_lt 0 shift)) by lia. rewrite shl_some by lia.
  assert (E : s32 (Z.shiftl 1 (shift - 1)) = Z.shiftl 1 (shift - 1)).
  { rewrite Z.shiftl_1_l. apply sw_small; [lia|]. change (32 - 1) with 31.
    assert (2 ^ (shift - 1) <= 2 ^ 30) by (apply Z.pow_le_mono_r; lia). lia. }
  rewrite E, sw_small by (rewrite ?Z.shiftl_1_l; lia). rewrite shr_some by lia.
  eexists. split; [done|]. apply round_nearest; lia.
Qed.

(** The rounding multiplications on signed half words give the product divided by 2^shift and
    rounded to the nearest integer, for every operand and every shift from 1 to 30; the word
    versions do as long as the rounded sum does not overflow. *)
Theorem rounding_nearest b c shift :
  0 < shift < 31 ->
  (exists r, lib_MUL_SL_SL_NR_R b c shift = Some (u32 r) /\ nearest (SL b * SL c) shift r) /\
  (exists r, lib_MUL_SH_SH_NR_R b c shift = Some (u32 r) /\ nearest (SH b * SH c) shift r) /\
  (forall a, - 2 ^ 31 <= a + b * c + 2 ^ (shift - 1) < 2 ^ 31 ->
     exists r, lib_MACS_NR_R a b c shift = Some r /\ nearest (a + b * c) shift r).
Proof.
  intros Hs. assert (Hh : 2 ^ (shift - 1) <= 2 ^ 29) by (apply Z.pow_le_mono_r; lia).
  assert (Hmul : forall x y, -32768 <= x < 32768 -> -32768 <= y < 32768 ->
    - 2 ^ 30 <= x * y <= 2 ^ 30) by (intros; nia).
  assert (Hcase : forall p, - 2 ^ 30 <= p <= 2 ^ 30 ->
    exists r, (let* r := norm_s (s32 p) shift in Some (u32 r)) = Some (u32 r) /\ nearest p shift r).
  { intros p Hp. rewrite sw_small by lia.
    destruct (norm_s_nearest p shift ltac:(lia) ltac:(lia) ltac:(lia)) as (r & -> & Hr). eauto. }
  destruct (half_range b), (half_range c). split; [|split].
  - apply Hcase, Hmul; done.
  - apply Hcase, Hmul; done.
  - intros a Ha. unfold lib_MACS_NR_R. rewrite (proj2 (Z.ltb_lt 0 shift)) by lia.
    rewrite shl_some, shr_some by lia. rewrite sw_small by (rewrite ?Z.shiftl_1_l; lia).
    eexists. split; [done|]. apply round_nearest. lia.
Qed.

Lemma rounding_nearest_witness :
  lib_MUL_SL_SL_NR_R 0xfffd 7 3 = Some (u32 (-3)) /\
  exists r, lib_MUL_SL_SL_NR_R 0xfffd 7 3 = Some (u32 r) /\ nearest (-21) 3 r.
Proof.
  split; [reflexivity|]. apply (rounding_nearest 0xfffd 7 3). lia.
Defined.

(** ** Half-word products *)

Lemma half_split x : 0 <= x < 2 ^ 32 -> x = ZL x + 65536 * ZH x.
Proof.
  intros Hx. unfold ZL, ZH. change 0xffff with (Z.ones 16). rewrite !uw_land, !uw_idemp by lia.
  unfold uw. rewrite Z.shiftr_div_pow2 by lia. rewrite (Z.mod_small (x / 2 ^ 16)).
  - change 65536 with (2 ^ 16). rewrite (Z.div_mod x (2 ^ 16)) at 1 by lia. lia.
  - split; [apply Z.div_pos; lia|apply Z.div_lt_upper_bound; lia].
Qed.

(** The half-word multiplications compose into the full one: the low word of a product is the sum
    of its three half products, multiply-accumulate with all of them is MAC, and MSU undoes MAC. *)
Theorem half_products a b c :
  0 <= b < 2 ^ 32 -> 0 <= c < 2 ^ 32 ->
  u32 (lib_MUL_ZL_ZL b c + 65536 * (lib_MUL_ZL_ZH b c + lib_MUL_ZH_ZL b c)) = lib_MULU b c /\
  lib_MAC_ZL_ZL (u32 (a + 65536 * lib_MAC_ZL_ZH (lib_MUL_ZH_ZL b c) b c)) b c = lib_MAC a b c /\
  lib_MSU (lib_MAC a b c) b c = u32 a.
Proof.
  intros Hb Hc. unfold lib_MUL_ZL_ZL, lib_MUL_ZL_ZH, lib_MUL_ZH_ZL, lib_MULU, lib_MAC_ZL_ZL,
    lib_MAC_ZL_ZH, lib_MAC, lib_MSU.
  pose proof (half_split b Hb) as Eb. pose proof (half_split c Hc) as Ec.
  assert (Emul : b * c = ZL b * ZL c + 65536 * (ZL b * ZH c + ZH b * ZL c) + ZH b * ZH c * 2 ^ 32).
  { rewrite Eb at 1. rewrite Ec at 1. ring. }
  split; [|split]; apply eqm_intro; rewrite !eqm_uw by lia.
  - rewrite Emul, eqm_mod by lia. reflexivity.
  - rewrite Emul, (Z.add_assoc a), eqm_mod by lia.
    apply f_equal. ring.
  - apply f_equal. ring.
Qed.

Lemma half_products_witness :
  lib_MUL_ZL_ZL 0x12345678 0x9abcdef0 = 0x4b4d2080 /\
  lib_MSU (lib_MAC 5 0x12345678 0x9abcdef0) 0x12345678 0x9abcdef0 = 5.
Proof.
  split; [reflexivity|]. apply (half_products 5 0x12345678 0x9abcdef0); lia.
Defined.

(** ** Fields *)

(** A sign-extended field: shifting the field to the top and back arithmetically. *)
Lemma getSignedValue_spec v bits :
  0 < bits <= 32 -> getSignedValue v bits = Some (sw bits v).
Proof.
  intros Hb. unfold getSignedValue, ISS_REG_WIDTH. rewrite shl_some, shr_some by lia. f_equal.
  rewrite Z.shiftl_mul_pow2, Z.shiftr_div_pow2 by lia.
  assert (E32 : 2 ^ 32 = 2 ^ bits * 2 ^ (32 - bits)) by (rewrite <- Z.pow_add_r by lia; f_equal; lia).
  assert (E31 : 2 ^ 31 = 2 ^ (bits - 1) * 2 ^ (32 - bits)) by (rewrite <- Z.pow_add_r by lia; f_equal; lia).
  pose proof (Z.pow_pos_nonneg 2 (32 - bits) ltac:(lia) ltac:(lia)) as Hp.
  pose proof (sw_range bits v ltac:(lia)) as Hr.
  assert (E : s32 (s32 v * 2 ^ (32 - bits)) = sw bits v * 2 ^ (32 - bits)).
  { destruct (sw_spec 32 v) as [k Hk]; [lia|]. destruct (sw_spec bits v) as [k' Hk']; [lia|].
    rewrite <- (sw_small 32 (sw bits v * 2 ^ (32 - bits))).
    - apply uw_eq_sw. rewrite Hk, Hk'.
      replace ((v + k * 2 ^ 32) * 2 ^ (32 - bits)) with
        (v * 2 ^ (32 - bits) + (k * 2 ^ (32 - bits)) * 2 ^ 32) by ring.
      replace ((v + k' * 2 ^ bits) * 2 ^ (32 - bits)) with
        (v * 2 ^ (32 - bits) + k' * 2 ^ 32) by (rewrite E32; ring).
      by rewrite !uw_add_mul by lia.
    - lia.
    - change (32 - 1) with 31. rewrite E31. nia. }
  rewrite E. apply Z.div_mul. lia.
Qed.

Lemma getField_spec v shift bits :
  0 <= shift < 32 -> 0 <= bits < 32 -> getField v shift bits = Some (uw bits (Z.shiftr v shift)).
Proof.
  intros Hs Hb. unfold getField. rewrite shr_some, shl_some by lia. f_equal.
  rewrite Z.shiftl_1_l. assert (E : u32 (s32 (2 ^ bits) - 1) = Z.ones bits).
  { rewrite Z.ones_equiv, <- Z.sub_1_r. pose proof (Z.pow_pos_nonneg 2 bits ltac:(lia) ltac:(lia)).
    assert (2 ^ bits <= 2 ^ 31) by (apply Z.pow_le_mono_r; lia).
    rewrite <- (uw_small 32 (2 ^ bits - 1)) by lia.
    apply eqm_intro. rewrite eqm_sw by lia. reflexivity. }
  rewrite E. apply uw_land; lia.
Qed.

(** Bit fields: BEXTRACT gives the sign-extended field of the given position and width (cut at the
    word's end), and the field BINSERT stores with the mask of a field is the one BEXTRACTU gives
    back with it, the other bits being kept. *)
Theorem bit_fields a b bits shift :
  0 <= a < 2 ^ 32 -> 0 <= b < 2 ^ 32 -> 0 < bits < 32 -> 0 <= shift < 32 ->
  (let w := Z.min bits (32 - shift) in
   lib_BEXTRACT b bits shift = Some (sw w (Z.shiftr b shift))) /\
  (shift + bits <= 32 ->
   let mask := Z.shiftl (Z.ones bits) shift in
   exists r, lib_BINSERT a b mask shift = Some r /\
     lib_BEXTRACTU r mask shift = Some (uw bits a) /\
     forall i, 0 <= i < 32 -> ~ (shift <= i < shift + bits) -> Z.testbit r i = Z.testbit b i).
Proof.
  intros Ha Hb Hbits Hs. split.
  - cbv zeta. unfold lib_BEXTRACT.
    rewrite (uw_small 32 (shift + bits)), (uw_small 32 (32 - shift)) by lia.
    assert (E : (if shift + bits >? 32 then 32 - shift else bits) = Z.min bits (32 - shift))
      by (bcases; lia).
    rewrite E. set (w := Z.min bits (32 - shift)). assert (Hw : 0 < w < 32) by lia.
    rewrite !sw_small by lia. unfold getSignedField. rewrite getField_spec by lia.
    rewrite getSignedValue_spec by lia. f_equal. rewrite sw_uw by lia. rewrite sw_uw by lia.
    pose proof (sw_range w (Z.shiftr b shift) ltac:(lia)).
    assert (2 ^ (w - 1) <= 2 ^ 31) by (apply Z.pow_le_mono_r; lia). apply sw_small; lia.
  - intros Hsb mask. unfold lib_BINSERT. rewrite shl_some by lia. eexists. split; [done|].
    assert (Hmask : forall i, 0 <= i -> Z.testbit mask i = (shift <=? i) && (i <? shift + bits)).
    { intros i Hi. unfold mask. rewrite Z.shiftl_spec by lia.
      destruct (Z.leb_spec shift i); cbn [andb].
      - rewrite Z.testbit_ones_nonneg by lia. bcases.
      - apply Z.testbit_neg_r. lia. }
    split.
    + unfold lib_BEXTRACTU. rewrite shr_some by lia. f_equal. apply Z.bits_inj'. intros i Hi.
      rewrite Z.shiftr_spec, uw_testbit by lia.
      rewrite Z.land_spec, Z.lor_spec, !Z.land_spec, !uw_testbit, Z.lnot_spec, Z.shiftl_spec by lia.
      rewrite Hmask by lia. replace (i + shift - shift) with i by lia.
      bcases; autorewrite with gv_bits; done.
    + intros i Hi Hout. rewrite Z.lor_spec, !Z.land_spec, !uw_testbit, Z.lnot_spec by lia.
      rewrite Hmask by lia. bcases; autorewrite with gv_bits; done.
Qed.

Lemma bit_fields_witness :
  lib_BEXTRACT 0xabcd 4 8 = Some (-5) /\
  exists r, lib_BINSERT 0x3 0xabcd 0xf00 8 = Some r /\ lib_BEXTRACTU r 0xf00 8 = Some 3.
Proof.
  destruct (bit_fields 0x3 0xabcd 4 8) as [H1 H2]; [lia|lia|lia|lia|].
  destruct (H2 ltac:(lia)) as (r & E1 & E2 & _).
  split; [exact H1|]. exists r. split; [exact E1|exact E2].
Defined.

(** ** Digit reversal *)

(** After [k] iterations of the loop on a word [x], the low [k + 1] digits of the result are those
    of [x] in reverse order. *)
Definition reversed_low (radix x : Z) (k : Z) (r : Z) : Prop :=
  forall i, 0 <= i < Z.min 32 ((k + 1) * radix) ->
    Z.testbit r i = Z.testbit x ((k - i / radix) * radix + i mod radix).

Lemma bitrev_loop_spec n radix x k r :
  0 < radix < 32 -> 0 <= x < 2 ^ 32 -> 0 <= k -> 0 <= r < 2 ^ 32 -> reversed_low radix x k r ->
  exists r', bitrev_loop n radix (Z.ones radix) (Z.shiftr x (k * radix)) r =
               Some (Z.shiftr x ((k + Z.of_nat n) * radix), r') /\
             0 <= r' < 2 ^ 32 /\ reversed_low radix x (k + Z.of_nat n) r'.
Proof.
  intros Hr Hx. revert k r. induction n as [|n IH]; intros k r Hk Hr32 Hrev; cbn [bitrev_loop].
  { exists r. by rewrite !Z.add_0_r. }
  rewrite shr_some, shl_some by lia. rewrite Z.shiftr_shiftr by lia.
  replace (k * radix + radix) with ((k + 1) * radix) by lia.
  destruct (IH (k + 1) (Z.lor (u32 (Z.shiftl r radix))
              (Z.land (Z.shiftr x ((k + 1) * radix)) (Z.ones radix)))) as (r' & E & H0 & H); [lia| | |].
  - apply lor_range; [lia|by apply uw_range|]. rewrite uw_land by lia.
    pose proof (uw_range radix (Z.shiftr x ((k + 1) * radix)) ltac:(lia)).
    assert (2 ^ radix <= 2 ^ 32) by (apply Z.pow_le_mono_r; lia). lia.
  - intros i Hi. rewrite Z.lor_spec, uw_land, !uw_testbit, Z.shiftl_spec, Z.shiftr_spec by nia.
    rewrite (proj2 (Z.ltb_lt i 32)) by lia. cbn [andb].
    destruct (Z.ltb_spec i radix).
    + rewrite (Z.testbit_neg_r r) by lia. rewrite Z.div_small, Z.mod_small by lia.
      cbn [andb orb]. f_equal. lia.
    + cbn [andb]. rewrite orb_false_r. rewrite Hrev by nia.
      assert (E : i = (i - radix) + 1 * radix) by lia.
      rewrite E at 3 4. rewrite Z.div_add, Z.mod_add by lia. f_equal. lia.
  - exists r'. rewrite E. by replace (k + 1 + Z.of_nat n) with (k + Z.of_nat (S n)) in * by lia.
Qed.

(** BITREV reverses the order of the digits of the low 32 - points bits of a word, for every
    digit size that divides this number of bits. *)
Theorem bitrev_reverses_digits input points radix :
  0 <= input < 2 ^ 32 -> 0 <= points < 32 -> 0 < radix < 32 -> (radix | 32 - points) ->
  exists r, lib_BITREV input points radix = Some r /\ 0 <= r < 2 ^ (32 - points) /\
    forall d i, 0 <= d < (32 - points) / radix -> 0 <= i < radix ->
      Z.testbit r (d * radix + i) =
      Z.testbit input (((32 - points) / radix - 1 - d) * radix + i).
Proof.
  intros Hin Hp Hr [q Hq]. unfold lib_BITREV. rewrite (uw_small 32 (32 - points)) by lia.
  rewrite shl_some by lia. rewrite (proj2 (Z.eqb_neq radix 0)) by lia.
  set (n := 32 - points) in *. assert (Hn : 0 < n <= 32) by lia.
  assert (Hqr : n / radix = q) by (rewrite Hq; apply Z.div_mul; lia).
  rewrite Hqr. assert (Hq0 : 0 < q) by nia.
  assert (Hones : forall k, 0 < k < 32 -> u32 (s32 (Z.shiftl 1 k) - 1) = Z.ones k).
  { intros k Hk. rewrite Z.shiftl_1_l, Z.ones_equiv, <- Z.sub_1_r.
    pose proof (Z.pow_pos_nonneg 2 k ltac:(lia) ltac:(lia)).
    assert (2 ^ k <= 2 ^ 31) by (apply Z.pow_le_mono_r; lia).
    rewrite <- (uw_small 32 (2 ^ k - 1)) by lia. apply eqm_intro. rewrite eqm_sw by lia. reflexivity. }
  rewrite Hones by lia.
  destruct (bitrev_loop_spec (Z.to_nat (q - 1)) radix input 0 input ltac:(lia) Hin ltac:(lia) Hin)
    as (r & E & Hr32 & Hrev).
  { intros i Hi. rewrite Z.div_small, Z.mod_small by lia. f_equal. }
  rewrite Z.mul_0_l, Z.shiftr_0_r in E. rewrite E. cbn [snd].
  rewrite Z2Nat.id in Hrev by lia. rewrite Z.add_0_l in Hrev.
  assert (Hbit : forall d i, 0 <= d < q -> 0 <= i < radix ->
    Z.testbit r (d * radix + i) = Z.testbit input ((q - 1 - d) * radix + i)).
  { intros d i Hd Hi. rewrite Hrev by nia.
    rewrite Z.div_add_l, Z.div_small, (Z.add_comm (d * radix)), Z.mod_add, Z.mod_small by lia.
    f_equal. lia. }
  destruct (Z.ltb_spec n 32).
  - rewrite shl_some by lia. rewrite Hones, uw_land by lia. eexists. split; [done|].
    split; [apply uw_range; lia|]. intros d i Hd Hi. rewrite uw_testbit by lia.
    rewrite (proj2 (Z.ltb_lt _ n)) by nia. by apply Hbit.
  - replace n with 32 by lia. eauto.
Qed.

Lemma bitrev_reverses_digits_witness :
  lib_BITREV 0x6 24 2 = Some 0x90 /\
  exists r, lib_BITREV 0x6 24 2 = Some r /\ 0 <= r < 2 ^ 8.
Proof.
  split; [reflexivity|].
  destruct (bitrev_reverses_digits 0x6 24 2) as (r & E & Hr & _); [lia|lia|lia|by exists 4|].
  exists r. split; [exact E|exact Hr].
Defined.

(** ** The half-word family

    The signed or unsigned half word [i] of a register. *)
Definition half (signed : bool) (i : nat) (x : Z) : Z :=
  let h := default 0 (lanes 16 2 x !! i) in if signed then s16 h else h.

(** The operations on a pair of half words, with the halves of their operands. *)
Record half_ops := HalfOps {
  half_b : Z -> Z;
  half_c : Z -> Z;
  op_MUL : Z -> Z -> Z;
  op_MAC : Z -> Z -> Z -> Z;
  op_MSU : Z -> Z -> Z -> Z;
  op_MMUL : Z -> Z -> Z;
  op_MAC_C : cpu_state -> Z -> Z -> Z -> Z * cpu_state;
}.

Definition half_ops_table : list half_ops := [
  HalfOps (half true 0%nat) (half true 0%nat) lib_MUL_SL_SL lib_MAC_SL_SL lib_MSU_SL_SL
    lib_MMUL_SL_SL lib_MAC_C_SL_SL;
  HalfOps (half true 0%nat) (half true 1%nat) lib_MUL_SL_SH lib_MAC_SL_SH lib_MSU_SL_SH
    lib_MMUL_SL_SH lib_MAC_C_SL_SH;
  HalfOps (half true 1%nat) (half true 0%nat) lib_MUL_SH_SL lib_MAC_SH_SL lib_MSU_SH_SL
    lib_MMUL_SH_SL lib_MAC_C_SH_SL;
  HalfOps (half true 1%nat) (half true 1%nat) lib_MUL_SH_SH lib_MAC_SH_SH lib_MSU_SH_SH
    lib_MMUL_SH_SH lib_MAC_C_SH_SH;
  HalfOps (half false 0%nat) (half false 0%nat) lib_MUL_ZL_ZL lib_MAC_ZL_ZL lib_MSU_ZL_ZL
    lib_MMUL_ZL_ZL lib_MAC_C_ZL_ZL;
  HalfOps (half false 0%nat) (half false 1%nat) lib_MUL_ZL_ZH lib_MAC_ZL_ZH lib_MSU_ZL_ZH
    lib_MMUL_ZL_ZH lib_MAC_C_ZL_ZH;
  HalfOps (half false 1%nat) (half false 0%nat) lib_MUL_ZH_ZL lib_MAC_ZH_ZL lib_MSU_ZH_ZL
    lib_MMUL_ZH_ZL lib_MAC_C_ZH_ZL;
  HalfOps (half false 1%nat) (half false 1%nat) lib_MUL_ZH_ZH lib_MAC_ZH_ZH lib_MSU_ZH_ZH
    lib_MMUL_ZH_ZH lib_MAC_C_ZH_ZH;
  HalfOps (half true 0%nat) (half false 0%nat) lib_MUL_SL_ZL lib_MAC_SL_ZL lib_MSU_SL_ZL
    lib_MMUL_SL_ZL lib_MAC_C_SL_ZL;
  HalfOps (half true 0%nat) (half false 1%nat) lib_MUL_SL_ZH lib_MAC_SL_ZH lib_MSU_SL_ZH
    lib_MMUL_SL_ZH lib_MAC_C_SL_ZH;
  HalfOps (half true 1%nat) (half false 0%nat) lib_MUL_SH_ZL lib_MAC_SH_ZL lib_MSU_SH_ZL
    lib_MMUL_SH_ZL lib_MAC_C_SH_ZL;
  HalfOps (half true 1%nat) (half false 1%nat) lib_MUL_SH_ZH lib_MAC_SH_ZH lib_MSU_SH_ZH
    lib_MMUL_SH_ZH lib_MAC_C_SH_ZH;
  HalfOps (half false 0%nat) (half true 0%nat) lib_MUL_ZL_SL lib_MAC_ZL_SL lib_MSU_ZL_SL
    lib_MMUL_ZL_SL lib_MAC_C_ZL_SL;
  HalfOps (half false 0%nat) (half true 1%nat) lib_MUL_ZL_SH lib_MAC_ZL_SH lib_MSU_ZL_SH
    lib_MMUL_ZL_SH lib_MAC_C_ZL_SH;
  HalfOps (half false 1%nat) (half true 0%nat) lib_MUL_ZH_SL lib_MAC_ZH_SL lib_MSU_ZH_SL
    lib_MMUL_ZH_SL lib_MAC_C_ZH_SL;
  HalfOps (half false 1%nat) (half true 1%nat) lib_MUL_ZH_SH lib_MAC_ZH_SH lib_MSU_ZH_SH
    lib_MMUL_ZH_SH lib_MAC_C_ZH_SH
].

Lemma half_ZL x : half false 0 x = ZL x.
Proof.
  unfold half, ZL. cbn [lanes lookup list_lookup default]. change 0xffff with (Z.ones 16).
  by rewrite uw_land, uw_idemp by lia.
Qed.
Lemma half_ZH x : half false 1 x = ZH x.
Proof.
  unfold half, ZH. cbn [lanes lookup list_lookup default]. change 0xffff with (Z.ones 16).
  by rewrite uw_land, uw_idemp by lia.
Qed.
Lemma half_SL x : half true 0 x = SL x.
Proof. change (half true 0 x) with (s16 (half false 0 x)). rewrite half_ZL. unfold ZL. by rewrite sw_uw. Qed.
Lemma half_SH x : half true 1 x = SH x.
Proof. change (half true 1 x) with (s16 (half false 1 x)). rewrite half_ZH. unfold ZH. by rewrite sw_uw. Qed.

(** The operations of a row, on the values of the two halves. *)
Lemma half_row x y s a :
  u32 (x * y) = u32 (x * y) /\ u32 (a + x * y) = u32 (a + u32 (x * y)) /\
  u32 (a - x * y) = u32 (a - u32 (x * y)) /\ u32 (- x * y) = u32 (- u32 (x * y)) /\
  add s a (u32 (x * y)) = add s a (u32 (x * y)).
Proof.
  split; [done|]. split; [|split; [|split; [|done]]]; apply eqm_intro; rewrite eqm_uw by lia;
    apply f_equal; ring.
Qed.

(** The 80 half-word multiplications agree with their names: for each of the 16 choices of a
    signed or unsigned, low or high half of both operands, MUL is the product of these halves
    modulo 2^32, and MAC, MSU, MMUL and MAC_C add it to, subtract it from, negate it and add it
    with carry to the accumulator. *)
Theorem half_word_family :
  length half_ops_table = 16%nat /\
  Forall (fun o => forall s a b c,
    op_MUL o b c = u32 (half_b o b * half_c o c) /\
    op_MAC o a b c = u32 (a + op_MUL o b c) /\
    op_MSU o a b c = u32 (a - op_MUL o b c) /\
    op_MMUL o b c = u32 (- op_MUL o b c) /\
    op_MAC_C o s a b c = add s a (op_MUL o b c)) half_ops_table.
Proof.
  split; [done|]. unfold half_ops_table.
  repeat apply Forall_cons_2; [..|apply Forall_nil_2]; intros s a b c;
    cbn [op_MUL op_MAC op_MSU op_MMUL op_MAC_C half_b half_c];
    rewrite ?half_SL, ?half_SH, ?half_ZL, ?half_ZH;
    exact (half_row _ _ s a).
Qed.
