(* ===== verification/Rv32.v ===== *)
(** * The processor core: registers, loads and stores, and the base instructions

    The instruction handlers of models/cpu/iss/include/rv32i.hpp and rv32m.hpp over the register file
    (regs.hpp), the load-store unit (lsu.hpp, vp/include/platform_wrapper.hpp) and the data port of the
    wrapper (vp/include/iss_wrapper.hpp, vp/src/iss_wrapper.cpp).  Loads and stores hand the address of a
    register to the bus, so the register file is in the same byte buffers as the requests. *)

From S2P Require Import Prelude Io Memory IsaInt.

(** The events of the performance counters that are used here. *)
Definition CSR_PCER_CYCLES : Z := 0.
Definition CSR_PCER_LD : Z := 5.
Definition CSR_PCER_ST : Z := 6.
Definition CSR_PCER_JUMP : Z := 7.
Definition CSR_PCER_BRANCH : Z := 8.
Definition CSR_PCER_TAKEN_BRANCH : Z := 9.
Definition CSR_PCER_MISALIGNED : Z := 29.

(** iss_insn_t.  An instruction of the cache is designated by its address. *)
Record iss_insn := Insn {
  i_addr : Z;
  i_size : Z;
  in_regs : list Z;
  out_regs : list Z;
  i_uim : list Z;
  i_sim : list Z;
  i_next : Z;
  i_branch : Z;
}.

(** The callbacks of a stalled access; [TraceResume] stands for those that only trace. *)
Inductive resume := LoadResume | LoadSignedResume | StoreResume | ElwResume | TraceResume.

(** The fields of iss_cpu_t, iss_csr_t and iss_wrapper that executing these instructions involves. *)
Record core := Core {
  insn_cycles : Z;
  pcmr : Z;
  pcer : Z;
  pccr : list Z;
  stack_conf : Z;
  stack_start : Z;
  stack_end : Z;
  stalled : Z;
  stall_callback : option resume;
  stall_reg : Z;
  stall_size : Z;
  current_insn : Z;
  stall_insn : Z;
  is_active : bool;
  misaligned_access : bool;
  misaligned_size : Z;
  misaligned_data : Z;
  misaligned_addr : Z;
  misaligned_is_write : bool;
  misaligned_latency : Z;
}.

Definition set_insn_cycles (v_insn_cycles : Z) (c : core) : core :=
  Core v_insn_cycles (pcmr c) (pcer c) (pccr c) (stack_conf c) (stack_start c) (stack_end c)
    (stalled c) (stall_callback c) (stall_reg c) (stall_size c) (current_insn c) (stall_insn c)
    (is_active c) (misaligned_access c) (misaligned_size c) (misaligned_data c) (misaligned_addr c)
    (misaligned_is_write c) (misaligned_latency c).
Definition set_pccr (v_pccr : list Z) (c : core) : core :=
  Core (insn_cycles c) (pcmr c) (pcer c) v_pccr (stack_conf c) (stack_start c) (stack_end c)
    (stalled c) (stall_callback c) (stall_reg c) (stall_size c) (current_insn c) (stall_insn c)
    (is_active c) (misaligned_access c) (misaligned_size c) (misaligned_data c) (misaligned_addr c)
    (misaligned_is_write c) (misaligned_latency c).
Definition set_stalled (v_stalled : Z) (c : core) : core :=
  Core (insn_cycles c) (pcmr c) (pcer c) (pccr c) (stack_conf c) (stack_start c) (stack_end c)
    v_stalled (stall_callback c) (stall_reg c) (stall_size c) (current_insn c) (stall_insn c)
    (is_active c) (misaligned_access c) (misaligned_size c) (misaligned_data c) (misaligned_addr c)
    (misaligned_is_write c) (misaligned_latency c).
Definition set_stall (v_stall_callback : option resume) (v_stall_reg : Z) (v_stall_size : Z) (c : core) : core :=
  Core (insn_cycles c) (pcmr c) (pcer c) (pccr c) (stack_conf c) (stack_start c) (stack_end c)
    (stalled c) v_stall_callback v_stall_reg v_stall_size (current_insn c) (stall_insn c) (is_active
    c) (misaligned_access c) (misaligned_size c) (misaligned_data c) (misaligned_addr c)
    (misaligned_is_write c) (misaligned_latency c).
Definition set_stall_insn (v_stalled : Z) (v_stall_insn : Z) (c : core) : core :=
  Core (insn_cycles c) (pcmr c) (pcer c) (pccr c) (stack_conf c) (stack_start c) (stack_end c)
    v_stalled (stall_callback c) (stall_reg c) (stall_size c) (current_insn c) v_stall_insn
    (is_active c) (misaligned_access c) (misaligned_size c) (misaligned_data c) (misaligned_addr c)
    (misaligned_is_write c) (misaligned_latency c).
Definition set_misaligned_access (v_misaligned_access : bool) (c : core) : core :=
  Core (insn_cycles c) (pcmr c) (pcer c) (pccr c) (stack_conf c) (stack_start c) (stack_end c)
    (stalled c) (stall_callback c) (stall_reg c) (stall_size c) (current_insn c) (stall_insn c)
    (is_active c) v_misaligned_access (misaligned_size c) (misaligned_data c) (misaligned_addr c)
    (misaligned_is_write c) (misaligned_latency c).
Definition set_misaligned (v_misaligned_access : bool) (v_misaligned_size : Z) (v_misaligned_data : Z) (v_misaligned_addr : Z) (v_misaligned_is_write : bool) (c : core) : core :=
  Core (insn_cycles c) (pcmr c) (pcer c) (pccr c) (stack_conf c) (stack_start c) (stack_end c)
    (stalled c) (stall_callback c) (stall_reg c) (stall_size c) (current_insn c) (stall_insn c)
    (is_active c) v_misaligned_access v_misaligned_size v_misaligned_data v_misaligned_addr
    v_misaligned_is_write (misaligned_latency c).
Definition set_misaligned_latency (v_misaligned_latency : Z) (c : core) : core :=
  Core (insn_cycles c) (pcmr c) (pcer c) (pccr c) (stack_conf c) (stack_start c) (stack_end c)
    (stalled c) (stall_callback c) (stall_reg c) (stall_size c) (current_insn c) (stall_insn c)
    (is_active c) (misaligned_access c) (misaligned_size c) (misaligned_data c) (misaligned_addr c)
    (misaligned_is_write c) v_misaligned_latency.

(** ** The register file *)

Section Regs.
(** The addresses of the registers of the core and of null_reg. *)
Context (regs null_reg : Z).

Definition iss_reg_ref (reg : Z) : Z := if reg =? 0 then null_reg else regs + 4 * reg.
Definition iss_reg_store_ref (reg : Z) : Z := regs + 4 * reg.
Definition iss_set_reg (reg value : Z) (h : host) : host :=
  if negb (reg =? 0) then store_bytes (regs + 4 * reg) (lanes 8 4 value) h else h.
Definition iss_get_reg_untimed (h : host) (reg : Z) : Z := pack 8 (load_bytes (regs + 4 * reg) 4 h).
Definition iss_get_reg64_untimed (h : host) (reg : Z) : Z :=
  if reg =? 0 then 0
  else u64 (Z.shiftl (iss_get_reg_untimed h (reg + 1)) 32 + iss_get_reg_untimed h reg).
Definition iss_set_reg64 (reg value : Z) (h : host) : host :=
  if negb (reg =? 0) then
    store_bytes (regs + 4 * (reg + 1)) (lanes 8 4 (Z.shiftr value 32))
      (store_bytes (regs + 4 * reg) (lanes 8 4 (Z.land value 0xFFFFFFFF)) h)
  else h.

(** iss_get_signed_value: the low bits of a 32-bit value, sign-extended. *)
Definition iss_get_signed_value (val bits : Z) : Z :=
  u32 (Z.shiftr (s32 (Z.shiftl (s32 val) (32 - bits))) (32 - bits)).
End Regs.

(** ** Time accounting *)

(** iss_pccr_account_event, without the trace. *)
Definition iss_pccr_account_event (event incr : Z) (c : core) : core :=
  if negb (Z.land (pcmr c) 1 =? 0) && negb (Z.land (pcer c) (Z.shiftl 1 event) =? 0)
  then set_pccr (alter (fun x => u32 (x + incr)) (Z.to_nat event) (pccr c)) c
  else c.
Definition iss_perf_account_taken_branch (c : core) : core := set_insn_cycles (insn_cycles c + 2) c.
Definition iss_perf_account_dependency_stall (latency : Z) (c : core) : core :=
  set_insn_cycles (insn_cycles c + (latency - 1)) c.
Definition iss_perf_account_jump (c : core) : core := set_insn_cycles (insn_cycles c + 1) c.

(** iss_exec_account_cycles, without the traces and the counters outside the core. *)
Definition iss_exec_account_cycles (cycles : Z) (c : core) : core :=
  if negb (Z.land (pcmr c) 1 =? 0) && (0 <=? cycles) && negb (Z.land (pcer c) (Z.shiftl 1 CSR_PCER_CYCLES) =? 0)
  then set_pccr (alter (fun x => u32 (x + cycles)) (Z.to_nat CSR_PCER_CYCLES) (pccr c)) c
  else c.
Definition iss_exec_insn_terminate (c : core) : core := iss_exec_account_cycles (insn_cycles c) c.
Definition iss_exec_insn_stall (c : core) : core := set_stall_insn (stalled c + 1) (current_insn c) c.

(** ** The data port *)

Section Core.
Context {S : Type} (regs null_reg : Z) (port : Z) (data : io_meth S).

(** A core, the byte buffers with its registers, and what is behind its data port. *)
Record iss := Iss {
  cpu : core;
  hst : host;
  bus : S;
}.
Definition set_cpu (c : core) (st : iss) : iss := Iss c (hst st) (bus st).
Definition set_hst (h : host) (st : iss) : iss := Iss (cpu st) h (bus st).

(** iss_wrapper::data_req_aligned: the status, and the request for its latency. *)
Definition data_req_aligned (addr data_ptr size : Z) (is_write : bool) (st : iss) :
    option (io_req_status_e * io_req * iss) :=
  let* (err, r, h, s) := master_req port data (IoReq addr data_ptr size is_write false 0 0 0 []) (hst st) (bus st) in
  let st := Iss (cpu st) h s in
  match err with
  | IO_REQ_OK => Some (err, r, set_cpu (set_insn_cycles (insn_cycles (cpu st) + r_latency r) (cpu st)) st)
  | _ => Some (err, r, st)
  end.

Definition ADDR_MASK : Z := u32 (Z.lnot 3).

(** iss_wrapper::data_misaligned_req: the first part now, the second one in exec_misaligned. *)
Definition data_misaligned_req (addr data_ptr size : Z) (is_write : bool) (st : iss) :
    option (io_req_status_e * iss) :=
  let addr1 := Z.land (u32 (addr + size - 1)) ADDR_MASK in
  let c := iss_pccr_account_event CSR_PCER_MISALIGNED 1 (cpu st) in
  let size0 := s32 (u32 (addr1 - addr)) in
  let size1 := size - size0 in
  let c := set_misaligned true size1 (data_ptr + size0) addr1 is_write c in
  let* (err, r, st) := data_req_aligned addr data_ptr size0 is_write (set_cpu c st) in
  match err with
  | IO_REQ_OK => Some (IO_REQ_PENDING, set_cpu (set_misaligned_latency (r_latency r + 1) (cpu st)) st)
  | _ => Some (IO_REQ_OK, st)
  end.

(** iss_wrapper::data_req *)
Definition data_req (addr data_ptr size : Z) (is_write : bool) (st : iss) : option (io_req_status_e * iss) :=
  let addr0 := Z.land addr ADDR_MASK in
  let addr1 := Z.land (u32 (addr + size - 1)) ADDR_MASK in
  if addr0 =? addr1 then
    let* (err, _, st) := data_req_aligned addr data_ptr size is_write st in Some (err, st)
  else data_misaligned_req addr data_ptr size is_write st.

(** iss_wrapper::exec_misaligned: the cycles to the next instruction, when it is enqueued. *)
Definition exec_misaligned (st : iss) : option (option Z * iss) :=
  let c := set_stalled (stalled (cpu st) - 1) (cpu st) in
  let c := set_insn_cycles (insn_cycles c + 1) c in
  let c := iss_pccr_account_event CSR_PCER_LD 1 c in
  let* (err, r, st) := data_req_aligned (misaligned_addr c) (misaligned_data c) (misaligned_size c)
                         (misaligned_is_write c) (set_cpu c st) in
  match err with
  | IO_REQ_OK =>
      let c := set_misaligned_access false (iss_exec_insn_terminate (cpu st)) in
      Some (if is_active c then Some (r_latency r + 1) else None, set_cpu c st)
  | _ => Some (None, st)
  end.

(** ** The load-store unit *)

Definition set_reg (reg value : Z) (st : iss) : iss := set_hst (iss_set_reg regs reg value (hst st)) st.
Definition get_reg (st : iss) (reg : Z) : Z := iss_get_reg_untimed regs (hst st) reg.

(** The stall of an access that is not over. *)
Definition stall_access (cb : resume) (reg size : Z) (st : iss) : iss :=
  set_cpu (iss_exec_insn_stall (set_stall (Some cb) reg size (cpu st))) st.

Definition iss_lsu_load (addr size reg : Z) (st : iss) : option iss :=
  let st := set_reg reg 0 st in
  let* (err, st) := data_req addr (iss_reg_ref regs null_reg reg) size false st in
  match err with
  | IO_REQ_OK => Some st
  | _ => Some (stall_access LoadResume reg (stall_size (cpu st)) st)
  end.

Definition iss_lsu_load_signed (addr size reg : Z) (st : iss) : option iss :=
  let* (err, st) := data_req addr (iss_reg_ref regs null_reg reg) size false st in
  match err with
  | IO_REQ_OK => Some (set_reg reg (iss_get_signed_value (get_reg st reg) (size * 8)) st)
  | _ => Some (stall_access LoadSignedResume reg size st)
  end.

Definition iss_lsu_store (addr size reg : Z) (st : iss) : option iss :=
  let* (err, st) := data_req addr (iss_reg_store_ref regs reg) size true st in
  match err with
  | IO_REQ_OK => Some st
  | _ => Some (stall_access StoreResume reg (stall_size (cpu st)) st)
  end.

(** The load of p.elw: its callback, which only clears elw_insn, is with the state of that instruction. *)
Definition iss_lsu_elw (addr size reg : Z) (st : iss) : option iss :=
  let st := set_reg reg 0 st in
  let* (err, st) := data_req addr (iss_reg_ref regs null_reg reg) size false st in
  match err with
  | IO_REQ_OK => Some st
  | _ => Some (stall_access ElwResume reg (stall_size (cpu st)) st)
  end.

(** The callbacks that end a stalled access. *)
Definition iss_lsu_load_resume (st : iss) : iss := st.
Definition iss_lsu_load_signed_resume (st : iss) : iss :=
  let reg := stall_reg (cpu st) in
  set_reg reg (iss_get_signed_value (get_reg st reg) (stall_size (cpu st) * 8)) st.
Definition iss_lsu_store_resume (st : iss) : iss := st.

Definition account (event : Z) (st : iss) : iss := set_cpu (iss_pccr_account_event event 1 (cpu st)) st.
Definition iss_lsu_load_perf (addr size reg : Z) (st : iss) : option iss :=
  iss_lsu_load addr size reg (account CSR_PCER_LD st).
Definition iss_lsu_elw_perf (addr size reg : Z) (st : iss) : option iss :=
  iss_lsu_elw addr size reg (account CSR_PCER_LD st).
Definition iss_lsu_load_signed_perf (addr size reg : Z) (st : iss) : option iss :=
  iss_lsu_load_signed addr size reg (account CSR_PCER_LD st).
Definition iss_lsu_store_perf (addr size reg : Z) (st : iss) : option iss :=
  iss_lsu_store addr size reg (account CSR_PCER_ST st).

(** iss_lsu_check_stack_access: [None] is iss_fatal, which ends the simulation. *)
Definition iss_lsu_check_stack_access (reg addr : Z) (st : iss) : option unit :=
  let c := cpu st in
  if negb (stack_conf c =? 0) && (reg =? 2) && ((addr <? stack_start c) || (stack_end c <=? addr))
  then None else Some tt.

(** ** The instructions

    A handler returns the address of the next instruction; [None] is undefined behaviour or iss_fatal. *)

Definition REG_IN (i : iss_insn) (k : nat) : Z := default 0 (in_regs i !! k).
Definition REG_OUT (i : iss_insn) (k : nat) : Z := default 0 (out_regs i !! k).
Definition UIM_GET (i : iss_insn) (k : nat) : Z := default 0 (i_uim i !! k).
Definition SIM_GET (i : iss_insn) (k : nat) : Z := default 0 (i_sim i !! k).
Definition REG_GET (i : iss_insn) (k : nat) (st : iss) : Z := get_reg st (REG_IN i k).
Definition REG_SET (i : iss_insn) (k : nat) (value : Z) (st : iss) : iss := set_reg (REG_OUT i k) value st.

(** The instruction that the instruction cache has at an address, by its own address. *)
Definition insn_cache_get (pc : Z) : Z := Z.land pc (u32 (Z.lnot 1)).

Definition insn_result (i : iss_insn) (value : option Z) (st : iss) : option (Z * iss) :=
  let* v := value in Some (i_next i, REG_SET i 0 v st).

Definition lui_exec (i : iss_insn) (st : iss) : option (Z * iss) := insn_result i (Some (UIM_GET i 0)) st.
Definition auipc_exec (i : iss_insn) (st : iss) : option (Z * iss) := insn_result i (Some (UIM_GET i 0)) st.
Definition auipc_decode (i : iss_insn) : iss_insn :=
  Insn (i_addr i) (i_size i) (in_regs i) (out_regs i) (<[0%nat := u32 (UIM_GET i 0 + i_addr i)]> (i_uim i)) (i_sim i)
    (i_next i) (i_branch i).

Definition jal_exec_common (perf : bool) (i : iss_insn) (st : iss) : option (Z * iss) :=
  let st := if negb (REG_OUT i 0 =? 0) then REG_SET i 0 (u32 (i_addr i + i_size i)) st else st in
  let st := if perf then account CSR_PCER_JUMP st else st in
  Some (i_next i, set_cpu (iss_perf_account_jump (cpu st)) st).
Definition jal_exec_fast := jal_exec_common false.
Definition jal_exec := jal_exec_common true.
Definition jal_decode (i : iss_insn) : iss_insn :=
  Insn (i_addr i) (i_size i) (in_regs i) (out_regs i) (i_uim i) (i_sim i)
    (insn_cache_get (u32 (i_addr i + SIM_GET i 0))) (i_branch i).

Definition jalr_exec_common (perf : bool) (i : iss_insn) (st : iss) : option (Z * iss) :=
  let next_insn := insn_cache_get (u32 (SIM_GET i 0 + get_reg st (REG_IN i 0))) in
  let st := if negb (REG_OUT i 0 =? 0) then REG_SET i 0 (u32 (i_addr i + i_size i)) st else st in
  let st := if perf then account CSR_PCER_JUMP st else st in
  Some (next_insn, set_cpu (iss_perf_account_jump (cpu st)) st).
Definition jalr_exec_fast := jalr_exec_common false.
Definition jalr_exec := jalr_exec_common true.

Definition bxx_decode (i : iss_insn) : iss_insn :=
  Insn (i_addr i) (i_size i) (in_regs i) (out_regs i) (i_uim i) (i_sim i) (i_next i)
    (insn_cache_get (u32 (i_addr i + SIM_GET i 0))).

(** The two outcomes of the branches. *)
Definition branch_common (taken perf : bool) (i : iss_insn) (st : iss) : option (Z * iss) :=
  let st := if perf then account CSR_PCER_BRANCH st else st in
  if taken then
    let st := if perf then account CSR_PCER_TAKEN_BRANCH st else st in
    Some (i_branch i, set_cpu (iss_perf_account_taken_branch (cpu st)) st)
  else Some (i_next i, st).


Definition beq_exec_common (perf : bool) (i : iss_insn) (st : iss) : option (Z * iss) :=
  branch_common (REG_GET i 0 st =? REG_GET i 1 st) perf i st.
Definition beq_exec_fast := beq_exec_common false.
Definition beq_exec := beq_exec_common true.

Definition bne_exec_common (perf : bool) (i : iss_insn) (st : iss) : option (Z * iss) :=
  branch_common (negb (REG_GET i 0 st =? REG_GET i 1 st)) perf i st.
Definition bne_exec_fast := bne_exec_common false.
Definition bne_exec := bne_exec_common true.

Definition blt_exec_common (perf : bool) (i : iss_insn) (st : iss) : option (Z * iss) :=
  branch_common (s32 (REG_GET i 0 st) <? s32 (REG_GET i 1 st)) perf i st.
Definition blt_exec_fast := blt_exec_common false.
Definition blt_exec := blt_exec_common true.

Definition bge_exec_common (perf : bool) (i : iss_insn) (st : iss) : option (Z * iss) :=
  branch_common (s32 (REG_GET i 0 st) >=? s32 (REG_GET i 1 st)) perf i st.
Definition bge_exec_fast := bge_exec_common false.
Definition bge_exec := bge_exec_common true.

Definition bltu_exec_common (perf : bool) (i : iss_insn) (st : iss) : option (Z * iss) :=
  branch_common (REG_GET i 0 st <? REG_GET i 1 st) perf i st.
Definition bltu_exec_fast := bltu_exec_common false.
Definition bltu_exec := bltu_exec_common true.

Definition bgeu_exec_common (perf : bool) (i : iss_insn) (st : iss) : option (Z * iss) :=
  branch_common (REG_GET i 0 st >=? REG_GET i 1 st) perf i st.
Definition bgeu_exec_fast := bgeu_exec_common false.
Definition bgeu_exec := bgeu_exec_common true.

Definition then_next (i : iss_insn) (st : option iss) : option (Z * iss) := let* st := st in Some (i_next i, st).
Definition mem_addr (i : iss_insn) (st : iss) : Z := u32 (REG_GET i 0 st + SIM_GET i 0).

Definition lb_exec_fast (i : iss_insn) (st : iss) : option (Z * iss) :=
  then_next i (iss_lsu_load_signed (mem_addr i st) 1 (REG_OUT i 0) st).
Definition lb_exec (i : iss_insn) (st : iss) : option (Z * iss) :=
  let* _ := iss_lsu_check_stack_access (REG_IN i 0) (mem_addr i st) st in
  then_next i (iss_lsu_load_signed_perf (mem_addr i st) 1 (REG_OUT i 0) st).

Definition lh_exec_fast (i : iss_insn) (st : iss) : option (Z * iss) :=
  then_next i (iss_lsu_load_signed (mem_addr i st) 2 (REG_OUT i 0) st).
Definition lh_exec (i : iss_insn) (st : iss) : option (Z * iss) :=
  let* _ := iss_lsu_check_stack_access (REG_IN i 0) (mem_addr i st) st in
  then_next i (iss_lsu_load_signed_perf (mem_addr i st) 2 (REG_OUT i 0) st).

Definition lw_exec_fast (i : iss_insn) (st : iss) : option (Z * iss) :=
  then_next i (iss_lsu_load (mem_addr i st) 4 (REG_OUT i 0) st).
Definition lw_exec (i : iss_insn) (st : iss) : option (Z * iss) :=
  let* _ := iss_lsu_check_stack_access (REG_IN i 0) (mem_addr i st) st in
  then_next i (iss_lsu_load_perf (mem_addr i st) 4 (REG_OUT i 0) st).

Definition lbu_exec_fast (i : iss_insn) (st : iss) : option (Z * iss) :=
  then_next i (iss_lsu_load (mem_addr i st) 1 (REG_OUT i 0) st).
Definition lbu_exec (i : iss_insn) (st : iss) : option (Z * iss) :=
  let* _ := iss_lsu_check_stack_access (REG_IN i 0) (mem_addr i st) st in
  then_next i (iss_lsu_load_perf (mem_addr i st) 1 (REG_OUT i 0) st).

Definition lhu_exec_fast (i : iss_insn) (st : iss) : option (Z * iss) :=
  then_next i (iss_lsu_load (mem_addr i st) 2 (REG_OUT i 0) st).
Definition lhu_exec (i : iss_insn) (st : iss) : option (Z * iss) :=
  let* _ := iss_lsu_check_stack_access (REG_IN i 0) (mem_addr i st) st in
  then_next i (iss_lsu_load_perf (mem_addr i st) 2 (REG_OUT i 0) st).

Definition sb_exec_fast (i : iss_insn) (st : iss) : option (Z * iss) :=
  then_next i (iss_lsu_store (mem_addr i st) 1 (REG_IN i 1) st).
Definition sb_exec (i : iss_insn) (st : iss) : option (Z * iss) :=
  let* _ := iss_lsu_check_stack_access (REG_OUT i 0) (mem_addr i st) st in
  then_next i (iss_lsu_store_perf (mem_addr i st) 1 (REG_IN i 1) st).

Definition sh_exec_fast (i : iss_insn) (st : iss) : option (Z * iss) :=
  then_next i (iss_lsu_store (mem_addr i st) 2 (REG_IN i 1) st).
Definition sh_exec (i : iss_insn) (st : iss) : option (Z * iss) :=
  let* _ := iss_lsu_check_stack_access (REG_OUT i 0) (mem_addr i st) st in
  then_next i (iss_lsu_store_perf (mem_addr i st) 2 (REG_IN i 1) st).

Definition sw_exec_fast (i : iss_insn) (st : iss) : option (Z * iss) :=
  then_next i (iss_lsu_store (mem_addr i st) 4 (REG_IN i 1) st).
Definition sw_exec (i : iss_insn) (st : iss) : option (Z * iss) :=
  let* _ := iss_lsu_check_stack_access (REG_OUT i 0) (mem_addr i st) st in
  then_next i (iss_lsu_store_perf (mem_addr i st) 4 (REG_IN i 1) st).

Definition addi_exec (i : iss_insn) (st : iss) : option (Z * iss) :=
  insn_result i (Some (lib_ADD (REG_GET i 0 st) (u32 (SIM_GET i 0)))) st.
Definition nop_exec (i : iss_insn) (st : iss) : option (Z * iss) := Some (i_next i, st).
Definition slti_exec (i : iss_insn) (st : iss) : option (Z * iss) :=
  insn_result i (Some (Z.b2z (s32 (REG_GET i 0 st) <? SIM_GET i 0))) st.
Definition sltiu_exec (i : iss_insn) (st : iss) : option (Z * iss) :=
  insn_result i (Some (Z.b2z (REG_GET i 0 st <? u32 (SIM_GET i 0)))) st.
Definition xori_exec (i : iss_insn) (st : iss) : option (Z * iss) :=
  insn_result i (Some (lib_XOR (REG_GET i 0 st) (u32 (SIM_GET i 0)))) st.
Definition ori_exec (i : iss_insn) (st : iss) : option (Z * iss) :=
  insn_result i (Some (lib_OR (REG_GET i 0 st) (u32 (SIM_GET i 0)))) st.
Definition andi_exec (i : iss_insn) (st : iss) : option (Z * iss) :=
  insn_result i (Some (lib_AND (REG_GET i 0 st) (u32 (SIM_GET i 0)))) st.
Definition slli_exec (i : iss_insn) (st : iss) : option (Z * iss) :=
  insn_result i (lib_SLL (REG_GET i 0 st) (UIM_GET i 0)) st.
Definition srli_exec (i : iss_insn) (st : iss) : option (Z * iss) :=
  insn_result i (lib_SRL (REG_GET i 0 st) (UIM_GET i 0)) st.
Definition srai_exec (i : iss_insn) (st : iss) : option (Z * iss) :=
  insn_result i (lib_SRA (REG_GET i 0 st) (UIM_GET i 0)) st.
Definition add_exec (i : iss_insn) (st : iss) : option (Z * iss) :=
  insn_result i (Some (lib_ADD (REG_GET i 0 st) (REG_GET i 1 st))) st.
Definition sub_exec (i : iss_insn) (st : iss) : option (Z * iss) :=
  insn_result i (Some (lib_SUB (REG_GET i 0 st) (REG_GET i 1 st))) st.
Definition sll_exec (i : iss_insn) (st : iss) : option (Z * iss) :=
  insn_result i (lib_SLL (REG_GET i 0 st) (REG_GET i 1 st)) st.
Definition slt_exec (i : iss_insn) (st : iss) : option (Z * iss) :=
  insn_result i (Some (Z.b2z (s32 (REG_GET i 0 st) <? s32 (REG_GET i 1 st)))) st.
Definition sltu_exec (i : iss_insn) (st : iss) : option (Z * iss) :=
  insn_result i (Some (Z.b2z (REG_GET i 0 st <? REG_GET i 1 st))) st.
Definition xor_exec (i : iss_insn) (st : iss) : option (Z * iss) :=
  insn_result i (Some (lib_XOR (REG_GET i 0 st) (REG_GET i 1 st))) st.
Definition srl_exec (i : iss_insn) (st : iss) : option (Z * iss) :=
  insn_result i (lib_SRL (REG_GET i 0 st) (REG_GET i 1 st)) st.
Definition sra_exec (i : iss_insn) (st : iss) : option (Z * iss) :=
  insn_result i (lib_SRA (REG_GET i 0 st) (REG_GET i 1 st)) st.
Definition or_exec (i : iss_insn) (st : iss) : option (Z * iss) :=
  insn_result i (Some (lib_OR (REG_GET i 0 st) (REG_GET i 1 st))) st.
Definition and_exec (i : iss_insn) (st : iss) : option (Z * iss) :=
  insn_result i (Some (lib_AND (REG_GET i 0 st) (REG_GET i 1 st))) st.

(** rv32m.hpp *)
Definition mul_exec (i : iss_insn) (st : iss) : option (Z * iss) :=
  insn_result i (Some (lib_MULU (REG_GET i 0 st) (REG_GET i 1 st))) st.
Definition mulh_exec (i : iss_insn) (st : iss) : option (Z * iss) :=
  insn_result i (Some (u32 (Z.shiftr (s64 (s32 (REG_GET i 0 st) * s32 (REG_GET i 1 st))) 32))) st.
Definition mulhsu_exec (i : iss_insn) (st : iss) : option (Z * iss) :=
  insn_result i (Some (u32 (Z.shiftr (u64 (u64 (s32 (REG_GET i 0 st)) * REG_GET i 1 st)) 32))) st.
Definition mulhu_exec (i : iss_insn) (st : iss) : option (Z * iss) :=
  insn_result i (Some (u32 (Z.shiftr (u64 (REG_GET i 0 st * REG_GET i 1 st)) 32))) st.

(** __builtin_clz of a 32-bit value: undefined on 0. *)
Definition builtin_clz (x : Z) : option Z := if u32 x =? 0 then None else Some (31 - Z.log2 (u32 x)).

Definition div_result (dividend divider : Z) : Z :=
  if divider =? 0 then -1
  else if (divider =? - 2 ^ 31) && (dividend =? -1) then 0
  else if (dividend =? - 2 ^ 31) && (divider =? -1) then - 2 ^ 31
  else Z.quot dividend divider.
Definition rem_result (dividend divider : Z) : Z :=
  if divider =? 0 then dividend
  else if (divider =? - 2 ^ 31) && (dividend =? -1) then -1
  else if (dividend =? - 2 ^ 31) && (divider =? -1) then 0
  else Z.rem dividend divider.
Definition divu_result (dividend divider : Z) : Z := if divider =? 0 then u32 (-1) else dividend / divider.
Definition remu_result (dividend divider : Z) : Z := if divider =? 0 then dividend else dividend mod divider.

(** The cycles of a signed division. *)
Definition div_cycles (divider : Z) : option Z :=
  if divider >=? 0 then let* n := builtin_clz divider in Some (n + 3)
  else let* n := builtin_clz (Z.lnot divider + 1) in Some (n + 2).

Definition stalled_result (i : iss_insn) (value : Z) (cycles : option Z) (st : iss) : option (Z * iss) :=
  let st := REG_SET i 0 value st in
  let* n := cycles in
  Some (i_next i, set_cpu (iss_perf_account_dependency_stall n (cpu st)) st).

Definition div_exec (i : iss_insn) (st : iss) : option (Z * iss) :=
  let divider := s32 (REG_GET i 1 st) in
  let dividend := s32 (REG_GET i 0 st) in
  stalled_result i (u32 (div_result dividend divider)) (div_cycles divider) st.
Definition rem_exec (i : iss_insn) (st : iss) : option (Z * iss) :=
  let divider := s32 (REG_GET i 1 st) in
  let dividend := s32 (REG_GET i 0 st) in
  stalled_result i (u32 (rem_result dividend divider)) (div_cycles divider) st.
Definition divu_exec (i : iss_insn) (st : iss) : option (Z * iss) :=
  let divider := REG_GET i 1 st in
  let dividend := REG_GET i 0 st in
  stalled_result i (divu_result dividend divider) (let* n := builtin_clz divider in Some (n + 3)) st.
Definition remu_exec (i : iss_insn) (st : iss) : option (Z * iss) :=
  let divider := REG_GET i 1 st in
  let dividend := REG_GET i 0 st in
  stalled_result i (remu_result dividend divider) (let* n := builtin_clz divider in Some (n + 3)) st.
End Core.

(** ** Words of the register file *)

(** The bytes of a memory from an address. *)
Definition mem_bytes {S : Type} (rd : S -> Z -> Z) (s : S) (a n : Z) : list Z :=
  (fun i => rd s (a + Z.of_nat i)) <$> seq 0 (Z.to_nat n).

Lemma load_bytes_moved {S : Type} (rd : S -> Z -> Z) s a d n h h' :
  (forall p, hget h' p = if in_range d n p then rd s (a + (p - d)) else hget h p) ->
  load_bytes d n h' = mem_bytes rd s a n.
Proof.
  intros H. apply list_fmap_ext. intros i x Hx. apply lookup_seq in Hx as [-> Hi]. simpl. rewrite H.
  destruct (in_range_spec d n (d + Z.of_nat i)); [|lia]. f_equal. lia.
Qed.

Lemma length_mem_bytes {S : Type} (rd : S -> Z -> Z) s a n : length (mem_bytes rd s a n) = Z.to_nat n.
Proof. unfold mem_bytes. by rewrite length_fmap, length_seq. Qed.

Lemma load_bytes_stored p l h : load_bytes p (Z.of_nat (length l)) (store_bytes p l h) = l.
Proof.
  apply list_eq. intros i. destruct (decide (i < length l)%nat).
  - rewrite lookup_load_bytes by lia. rewrite hget_store_bytes.
    destruct (Z.leb_spec p (p + Z.of_nat i)), (Z.ltb_spec (p + Z.of_nat i) (p + Z.of_nat (length l))); try lia.
    simpl. replace (Z.to_nat (p + Z.of_nat i - p)) with i by lia.
    by destruct (lookup_lt_is_Some_2 l i) as [x ->].
  - rewrite !lookup_ge_None_2; [done|lia|]. rewrite length_load_bytes. lia.
Qed.

Section RegFacts.
Context (regs : Z).

Lemma get_reg_range h k : 0 <= iss_get_reg_untimed regs h k < 2 ^ 32.
Proof.
  pose proof (pack_range 8 (load_bytes (regs + 4 * k) 4 h) ltac:(lia)) as H.
  rewrite length_load_bytes in H. exact H.
Qed.

Lemma get_set_reg h k v : k <> 0 -> iss_get_reg_untimed regs (iss_set_reg regs k v h) k = u32 v.
Proof.
  intros Hk. unfold iss_get_reg_untimed, iss_set_reg. rewrite (proj2 (Z.eqb_neq k 0) Hk). cbn [negb].
  change 4 with (Z.of_nat (length (lanes 8 4 v))) at 2. rewrite load_bytes_stored. by apply (pack_lanes 8 4).
Qed.

(** A change elsewhere keeps a register. *)
Lemma get_reg_ext h h' k :
  (forall p, regs + 4 * k <= p < regs + 4 * k + 4 -> hget h' p = hget h p) ->
  iss_get_reg_untimed regs h' k = iss_get_reg_untimed regs h k.
Proof. intros H. unfold iss_get_reg_untimed. f_equal. apply load_bytes_ext. intros i Hi. apply H. lia. Qed.

Lemma hget_set_reg h k v p :
  ~ regs + 4 * k <= p < regs + 4 * k + 4 -> hget (iss_set_reg regs k v h) p = hget h p.
Proof.
  intros Hp. unfold iss_set_reg. destruct (negb (k =? 0)); [|done].
  rewrite hget_store_bytes. rewrite length_lanes.
  destruct (Z.leb_spec (regs + 4 * k) p), (Z.ltb_spec p (regs + 4 * k + Z.of_nat 4)); try done; lia.
Qed.

Lemma get_set_reg_ne h k j v : j <> k -> iss_get_reg_untimed regs (iss_set_reg regs k v h) j = iss_get_reg_untimed regs h j.
Proof. intros Hj. apply get_reg_ext. intros p Hp. apply hget_set_reg. lia. Qed.

Lemma get_set_reg_0 h v : iss_set_reg regs 0 v h = h.
Proof. done. Qed.
End RegFacts.

Lemma signed_value_spec val bits :
  0 < bits <= 32 -> iss_get_signed_value val bits = u32 (sw bits val).
Proof.
  intros Hb. unfold iss_get_signed_value. f_equal.
  rewrite Z.shiftr_div_pow2, Z.shiftl_mul_pow2 by lia.
  pose proof (sw_range bits val ltac:(lia)) as Hr.
  assert (H32 : 2 ^ 32 = 2 ^ bits * 2 ^ (32 - bits)) by (rewrite <- Z.pow_add_r by lia; f_equal; lia).
  assert (H31 : 2 ^ (32 - 1) = 2 ^ (bits - 1) * 2 ^ (32 - bits)) by (rewrite <- Z.pow_add_r by lia; f_equal; lia).
  assert (E : s32 (s32 val * 2 ^ (32 - bits)) = sw bits val * 2 ^ (32 - bits)).
  { rewrite <- (sw_small 32 (sw bits val * 2 ^ (32 - bits))) by nia. apply uw_eq_sw.
    destruct (sw_spec 32 val ltac:(lia)) as [k1 ->], (sw_spec bits val ltac:(lia)) as [k2 ->].
    rewrite !Z.mul_add_distr_r. rewrite <- !Z.mul_assoc, (Z.mul_comm (2 ^ 32)), <- H32.
    rewrite Z.mul_assoc. by rewrite !uw_add_mul by lia. }
  rewrite E. apply Z.div_mul. lia.
Qed.

(** ** Register instructions against the instruction set manual *)

Inductive alu_op :=
  | ADD | SUB | SLL | SLT | SLTU | XOR | SRL | SRA | OR | AND
  | MUL | MULH | MULHSU | MULHU | DIV | DIVU | REM | REMU.

(** The result of an operation on two 32-bit words, as the manual defines it. *)
Definition isa_value (op : alu_op) (x y : Z) : Z :=
  match op with
  | ADD => (x + y) mod 2 ^ 32
  | SUB => (x - y) mod 2 ^ 32
  | SLL => (x * 2 ^ (y mod 32)) mod 2 ^ 32
  | SLT => if s32 x <? s32 y then 1 else 0
  | SLTU => if x <? y then 1 else 0
  | XOR => Z.lxor x y
  | SRL => x / 2 ^ (y mod 32)
  | SRA => (s32 x / 2 ^ (y mod 32)) mod 2 ^ 32
  | OR => Z.lor x y
  | AND => Z.land x y
  | MUL => (s32 x * s32 y) mod 2 ^ 32
  | MULH => (s32 x * s32 y / 2 ^ 32) mod 2 ^ 32
  | MULHSU => (s32 x * y / 2 ^ 32) mod 2 ^ 32
  | MULHU => x * y / 2 ^ 32
  | DIV => if y =? 0 then 2 ^ 32 - 1 else (Z.quot (s32 x) (s32 y)) mod 2 ^ 32
  | DIVU => if y =? 0 then 2 ^ 32 - 1 else x / y
  | REM => if y =? 0 then x else (Z.rem (s32 x) (s32 y)) mod 2 ^ 32
  | REMU => if y =? 0 then x else x mod y
  end.

Definition is_shift (op : alu_op) : bool := match op with SLL | SRL | SRA => true | _ => false end.
Definition is_division (op : alu_op) : bool := match op with DIV | DIVU | REM | REMU => true | _ => false end.

(** What the code computes, before it is known to be the manual's. *)
Definition iss_value (op : alu_op) (x y : Z) : option Z :=
  match op with
  | ADD => Some (lib_ADD x y) | SUB => Some (lib_SUB x y) | SLL => lib_SLL x y
  | SLT => Some (Z.b2z (s32 x <? s32 y)) | SLTU => Some (Z.b2z (x <? y))
  | XOR => Some (lib_XOR x y) | SRL => lib_SRL x y | SRA => lib_SRA x y
  | OR => Some (lib_OR x y) | AND => Some (lib_AND x y)
  | MUL => Some (lib_MULU x y)
  | MULH => Some (u32 (Z.shiftr (s64 (s32 x * s32 y)) 32))
  | MULHSU => Some (u32 (Z.shiftr (u64 (u64 (s32 x) * y)) 32))
  | MULHU => Some (u32 (Z.shiftr (u64 (x * y)) 32))
  | DIV => Some (u32 (div_result (s32 x) (s32 y))) | DIVU => Some (divu_result x y)
  | REM => Some (u32 (rem_result (s32 x) (s32 y))) | REMU => Some (remu_result x y)
  end.

Lemma s32_zero y : 0 <= y < 2 ^ 32 -> s32 y = 0 <-> y = 0.
Proof.
  intros Hy. split; [|by intros ->]. intros E. apply (f_equal u32) in E. rewrite uw_sw, uw_small in E by lia. exact E.
Qed.

Lemma div_result_spec x y :
  - 2 ^ 31 <= x < 2 ^ 31 -> - 2 ^ 31 <= y < 2 ^ 31 ->
  u32 (div_result x y) = if y =? 0 then 2 ^ 32 - 1 else (Z.quot x y) mod 2 ^ 32.
Proof.
  intros Hx Hy. unfold div_result. destruct (Z.eqb_spec y 0); [done|].
  destruct (Z.eqb_spec y (- 2 ^ 31)) as [->|]; [destruct (Z.eqb_spec x (-1)) as [->|]; [done|]|]; cbn [andb];
    (destruct (Z.eqb_spec x (- 2 ^ 31)) as [->|]; cbn [andb]; [|done]);
    [done|]. by destruct (Z.eqb_spec y (-1)) as [->|].
Qed.

Lemma rem_result_spec x y :
  - 2 ^ 31 <= x < 2 ^ 31 -> - 2 ^ 31 <= y < 2 ^ 31 ->
  u32 (rem_result x y) = if y =? 0 then x mod 2 ^ 32 else (Z.rem x y) mod 2 ^ 32.
Proof.
  intros Hx Hy. unfold rem_result. destruct (Z.eqb_spec y 0); [done|].
  destruct (Z.eqb_spec y (- 2 ^ 31)) as [->|]; [destruct (Z.eqb_spec x (-1)) as [->|]; [done|]|]; cbn [andb];
    (destruct (Z.eqb_spec x (- 2 ^ 31)) as [->|]; cbn [andb]; [|done]);
    [done|]. by destruct (Z.eqb_spec y (-1)) as [->|].
Qed.

Lemma high_word z : u32 (Z.shiftr (uw 64 z) 32) = (z / 2 ^ 32) mod 2 ^ 32.
Proof.
  rewrite Z.shiftr_div_pow2 by lia. unfold uw. change (2 ^ 64) with (2 ^ 32 * 2 ^ 32).
  rewrite Z.rem_mul_r by lia. rewrite (Z.mul_comm (2 ^ 32) (_ mod _)), Z.div_add, Z.div_small, Z.add_0_l by
    (try apply Z.mod_pos_bound; lia). apply Z.mod_mod. lia.
Qed.

Lemma iss_value_spec op x y :
  0 <= x < 2 ^ 32 -> 0 <= y < 2 ^ 32 -> (is_shift op = true -> y < 32) ->
  iss_value op x y = Some (isa_value op x y) /\ 0 <= isa_value op x y < 2 ^ 32.
Proof.
  intros Hx Hy Hs. pose proof (sw_range 32 x ltac:(lia)) as Sx. pose proof (sw_range 32 y ltac:(lia)) as Sy.
  change (32 - 1) with 31 in *.
  assert (Hm : forall z, 0 <= z mod 2 ^ 32 < 2 ^ 32) by (intros; apply Z.mod_pos_bound; lia).
  assert (Ey : (s32 y =? 0) = (y =? 0)).
  { apply Bool.eq_true_iff_eq. rewrite !Z.eqb_eq. by apply s32_zero. }
  destruct op; cbn [iss_value isa_value is_shift] in *; try (specialize (Hs eq_refl)).
  - done.
  - done.
  - unfold lib_SLL. rewrite shl_some, (Z.mod_small y), Z.shiftl_mul_pow2 by lia. done.
  - by destruct (s32 x <? s32 y).
  - by destruct (x <? y).
  - split; [done|]. apply range_of_bits; [lia|]. intros i Hi.
    by rewrite Z.lxor_spec, (testbit_above 32 x), (testbit_above 32 y).
  - unfold lib_SRL. rewrite shr_some, (Z.mod_small y), Z.shiftr_div_pow2 by lia. split; [done|].
    split; [apply Z.div_pos; lia|]. apply Z.div_lt_upper_bound; [lia|].
    assert (1 <= 2 ^ y) by (change 1 with (2 ^ 0); apply Z.pow_le_mono_r; lia). nia.
  - unfold lib_SRA. rewrite shr_some, (Z.mod_small y), Z.shiftr_div_pow2 by lia. done.
  - split; [done|]. apply lor_range; [lia|done|done].
  - split; [done|]. apply range_of_bits; [lia|]. intros i Hi.
    by rewrite Z.land_spec, (testbit_above 32 x).
  - split; [|done]. unfold lib_MULU. f_equal. apply (eqm_intro 32). by rewrite !eqm_sw by lia.
  - split; [|done]. f_equal. rewrite sw_small by nia. by rewrite Z.shiftr_div_pow2 by lia.
  - split; [|done]. f_equal. rewrite <- (high_word (s32 x * y)). by rewrite uw_mul_l by lia.
  - rewrite high_word, Z.mod_small; [split; [done|]|]; (split; [apply Z.div_pos; nia|apply Z.div_lt_upper_bound; nia]).
  - rewrite div_result_spec, Ey by done. by destruct (y =? 0).
  - unfold divu_result. destruct (Z.eqb_spec y 0); [done|]. split; [done|].
    split; [apply Z.div_pos; lia|]. apply Z.div_lt_upper_bound; nia.
  - rewrite rem_result_spec, Ey by done. destruct (y =? 0); [|done].
    change (s32 x mod 2 ^ 32) with (u32 (s32 x)). by rewrite uw_sw, uw_small by lia.
  - unfold remu_result. destruct (Z.eqb_spec y 0); [done|]. split; [done|].
    pose proof (Z.mod_pos_bound x y ltac:(lia)). lia.
Qed.

(** The second operand of an instruction: a register, or one of its immediates. *)
Inductive operand := Reg | Simm | Uimm.

(** The immediates are words. *)
Record insn_ok (i : iss_insn) : Prop := {
  ok_sim k : - 2 ^ 31 <= SIM_GET i k < 2 ^ 31;
  ok_uim k : 0 <= UIM_GET i k < 2 ^ 32;
}.

Section RegisterInsns.
Context {S : Type} (regs : Z).
Implicit Types (st : iss (S := S)) (i : iss_insn).

Definition operand_value (o : operand) i st : Z :=
  match o with
  | Reg => REG_GET regs i 1 st
  | Simm => u32 (SIM_GET i 0)
  | Uimm => UIM_GET i 0
  end.

(** The handlers, with the operation of the manual each stands for. *)
Definition register_insns : list ((iss_insn -> iss (S := S) -> option (Z * iss (S := S))) * alu_op * operand) :=
  [(addi_exec regs, ADD, Simm); (slti_exec regs, SLT, Simm); (sltiu_exec regs, SLTU, Simm);
   (xori_exec regs, XOR, Simm); (ori_exec regs, OR, Simm); (andi_exec regs, AND, Simm);
   (slli_exec regs, SLL, Uimm); (srli_exec regs, SRL, Uimm); (srai_exec regs, SRA, Uimm);
   (add_exec regs, ADD, Reg); (sub_exec regs, SUB, Reg); (sll_exec regs, SLL, Reg); (slt_exec regs, SLT, Reg);
   (sltu_exec regs, SLTU, Reg); (xor_exec regs, XOR, Reg); (srl_exec regs, SRL, Reg); (sra_exec regs, SRA, Reg);
   (or_exec regs, OR, Reg); (and_exec regs, AND, Reg); (mul_exec regs, MUL, Reg); (mulh_exec regs, MULH, Reg);
   (mulhsu_exec regs, MULHSU, Reg); (mulhu_exec regs, MULHU, Reg); (div_exec regs, DIV, Reg);
   (divu_exec regs, DIVU, Reg); (rem_exec regs, REM, Reg); (remu_exec regs, REMU, Reg)].

(** The cycles a division adds. *)
Definition insn_stall (op : alu_op) (y : Z) : option Z :=
  match op with
  | DIV | REM => div_cycles (s32 y)
  | _ => let* n := builtin_clz y in Some (n + 3)
  end.

Lemma insns_value f op o i st :
  (f, op, o) ∈ register_insns -> insn_ok i ->
  f i st = if is_division op
           then stalled_result regs i (default 0 (iss_value op (REG_GET regs i 0 st) (operand_value o i st)))
                  (insn_stall op (operand_value o i st)) st
           else insn_result regs i (iss_value op (REG_GET regs i 0 st) (operand_value o i st)) st.
Proof.
  intros Hin [Hs _]. unfold register_insns in Hin.
  repeat (apply elem_of_cons in Hin as [Hin|Hin]; [injection Hin as -> -> ->; try reflexivity|]); [|by apply elem_of_nil in Hin].
  unfold slti_exec. cbn [is_division iss_value operand_value]. specialize (Hs 0%nat). by rewrite sw_uw, (sw_small 32 (SIM_GET i 0)) by lia.
Qed.

Lemma operand_range o i st : insn_ok i -> 0 <= operand_value o i st < 2 ^ 32.
Proof. intros H. destruct o; [apply get_reg_range|by apply uw_range|apply (ok_uim i H)]. Qed.

Lemma insn_stall_defined op y :
  0 <= y < 2 ^ 32 -> is_division op = true -> insn_stall op y = None <-> y = 0.
Proof.
  intros Hy Hd. pose proof (sw_range 32 y ltac:(lia)) as Hr. change (32 - 1) with 31 in Hr.
  assert (Hz : builtin_clz y = None <-> y = 0).
  { unfold builtin_clz. rewrite uw_small by lia. by destruct (Z.eqb_spec y 0). }
  assert (Hs : div_cycles (s32 y) = None <-> y = 0).
  { unfold div_cycles, builtin_clz. rewrite Z.geb_leb. rewrite <- s32_zero by done.
    destruct (Z.leb_spec 0 (s32 y)).
    - rewrite uw_small by lia. destruct (Z.eqb_spec (s32 y) 0); [done|by split].
    - replace (Z.lnot (s32 y) + 1) with (- s32 y) by (unfold Z.lnot; lia).
      rewrite uw_small by lia. destruct (Z.eqb_spec (- s32 y) 0); [lia|]. split; [done|lia]. }
  destruct op; try done; cbn [insn_stall]; try done; rewrite <- Hz; by destruct (builtin_clz y).
Qed.

Lemma get_reg_set k v st j : get_reg regs (set_reg regs k v st) j =
  if negb (k =? 0) && (j =? k) then u32 v else get_reg regs st j.
Proof.
  unfold get_reg, set_reg. simpl. destruct (Z.eqb_spec k 0) as [->|Hk]; [done|]. cbn [negb andb].
  destruct (Z.eqb_spec j k) as [->|Hj]; [by apply get_set_reg|by apply get_set_reg_ne].
Qed.

(** C7: Every register and immediate instruction of the base and multiply extensions computes what the
    instruction set manual defines, division by zero excepted and overflow included: the result goes to
    the destination register unless it is x0, and no other register, nor the memory, changes.  A
    register shift by 32 or more and a division by zero are undefined behaviour of the C code. *)
Theorem register_insns_isa f op o i st :
  (f, op, o) ∈ register_insns -> insn_ok i ->
  let x := REG_GET regs i 0 st in
  let y := operand_value o i st in
  if (is_shift op && (32 <=? y)) || (is_division op && (y =? 0)) then f i st = None
  else exists st', f i st = Some (i_next i, st') /\ bus st' = bus st /\
    forall k, get_reg regs st' k =
      if negb (REG_OUT i 0 =? 0) && (k =? REG_OUT i 0) then isa_value op x y else get_reg regs st k.
Proof.
  intros Hin Hok x y. pose proof (insns_value f op o i st Hin Hok) as E. fold x y in E.
  pose proof (operand_range o i st Hok : 0 <= y < 2 ^ 32) as Hy.
  pose proof (get_reg_range regs (hst st) (REG_IN i 0) : 0 <= x < 2 ^ 32) as Hx.
  destruct (is_shift op) eqn:Hs.
  { assert (Hd : is_division op = false) by (by destruct op). rewrite Hd in *. cbn [andb]. rewrite orb_false_r.
    destruct (Z.leb_spec 32 y).
    - rewrite E. unfold insn_result. unfold is_shift in Hs.
      destruct op; try done; cbn [iss_value]; unfold lib_SLL, lib_SRL, lib_SRA, shl, shr;
        by rewrite (proj2 (Z.ltb_ge y 32)), andb_false_r by lia.
    - destruct (iss_value_spec op x y Hx Hy ltac:(lia)) as [Ev Hr]. rewrite E, Ev. eexists. split; [done|].
      split; [done|]. intros k. unfold REG_SET. rewrite get_reg_set. by rewrite (uw_small 32 (isa_value _ _ _)). }
  destruct (iss_value_spec op x y Hx Hy ltac:(by rewrite Hs)) as [Ev Hr]. cbn [andb orb].
  destruct (is_division op) eqn:Hd; cbn [andb].
  - pose proof (insn_stall_defined op y Hy Hd) as Hst. rewrite E, Ev. unfold stalled_result. cbn [default].
    destruct (Z.eqb_spec y 0) as [Hz|Hz]; [by rewrite (proj2 Hst Hz)|].
    destruct (insn_stall op y) as [n|]; [|by destruct Hz; apply Hst].
    eexists. split; [done|]. split; [done|]. intros k.
    transitivity (get_reg regs (set_reg regs (REG_OUT i 0) (isa_value op x y) st) k); [reflexivity|].
    rewrite get_reg_set. by rewrite (uw_small 32 (isa_value _ _ _)).
  - rewrite E, Ev. eexists. split; [done|]. split; [done|]. intros k. unfold REG_SET. rewrite get_reg_set.
    by rewrite (uw_small 32 (isa_value _ _ _)).
Qed.
End RegisterInsns.

(** ** Branches and jumps *)

Inductive branch_op := BEQ | BNE | BLT | BGE | BLTU | BGEU.

Definition isa_taken (op : branch_op) (x y : Z) : Prop :=
  match op with
  | BEQ => x = y
  | BNE => x <> y
  | BLT => s32 x < s32 y
  | BGE => s32 y <= s32 x
  | BLTU => x < y
  | BGEU => y <= x
  end.

Section ControlFlow.
Context {S : Type} (regs : Z).
Implicit Types (st : iss (S := S)) (i : iss_insn).

(** The handlers of the branches, without and with the performance counters. *)
Definition branch_insns : list ((iss_insn -> iss (S := S) -> option (Z * iss (S := S))) * branch_op) :=
  [(beq_exec_fast regs, BEQ); (beq_exec regs, BEQ); (bne_exec_fast regs, BNE); (bne_exec regs, BNE);
   (blt_exec_fast regs, BLT); (blt_exec regs, BLT); (bge_exec_fast regs, BGE); (bge_exec regs, BGE);
   (bltu_exec_fast regs, BLTU); (bltu_exec regs, BLTU); (bgeu_exec_fast regs, BGEU); (bgeu_exec regs, BGEU)].

Lemma insn_cache_get_even pc : 0 <= pc < 2 ^ 32 -> insn_cache_get pc = pc - pc mod 2.
Proof. apply (land_clear 1); lia. Qed.

Lemma keeps_account event st : hst (account event st) = hst st /\ bus (account event st) = bus st /\
  insn_cycles (cpu (account event st)) = insn_cycles (cpu st).
Proof. unfold account, iss_pccr_account_event. by destruct (_ && _). Qed.

(** What a branch handler does, by whether it is taken. *)
Lemma branch_common_spec taken perf i st :
  exists st', branch_common taken perf i st = Some (if taken then i_branch i else i_next i, st') /\
    hst st' = hst st /\ bus st' = bus st /\ insn_cycles (cpu st') = insn_cycles (cpu st) + (if taken then 2 else 0).
Proof.
  unfold branch_common. set (st0 := if perf then account CSR_PCER_BRANCH st else st).
  assert (H0 : hst st0 = hst st /\ bus st0 = bus st /\ insn_cycles (cpu st0) = insn_cycles (cpu st)).
  { unfold st0. destruct perf; [apply keeps_account|done]. }
  destruct H0 as (A1 & A2 & A3). destruct taken.
  - set (st1 := if perf then account CSR_PCER_TAKEN_BRANCH st0 else st0).
    assert (H1 : hst st1 = hst st0 /\ bus st1 = bus st0 /\ insn_cycles (cpu st1) = insn_cycles (cpu st0)).
    { unfold st1. destruct perf; [apply keeps_account|done]. }
    destruct H1 as (B1 & B2 & B3). eexists. split; [done|]. cbn. rewrite B1, B2, B3, A1, A2, A3. done.
  - eexists. split; [done|]. rewrite A1, A2, A3. repeat split. lia.
Qed.

(** C10: Branches and jumps go where the instruction set manual says: a decoded branch goes to its
    address plus its offset when its comparison holds, at the cost of two cycles, and to the next
    instruction otherwise; jal and jalr go to their target with the return address in the destination
    register unless it is x0.  The last bit of a target is cleared by the instruction cache.  Nothing
    else changes in the registers nor in memory, with and without performance counters. *)
Theorem control_flow_isa i st :
  (forall f op, (f, op) ∈ branch_insns ->
    exists (taken : bool) st', f (bxx_decode i) st = Some (if taken then insn_cache_get (u32 (i_addr i + SIM_GET i 0)) else i_next i, st') /\
      (taken = true <-> isa_taken op (REG_GET regs i 0 st) (REG_GET regs i 1 st)) /\
      hst st' = hst st /\ bus st' = bus st /\ insn_cycles (cpu st') = insn_cycles (cpu st) + (if taken then 2 else 0)) /\
  (forall perf, exists st', jal_exec_common regs perf (jal_decode i) st = Some (insn_cache_get (u32 (i_addr i + SIM_GET i 0)), st') /\
      bus st' = bus st /\ forall k, get_reg regs st' k =
        if negb (REG_OUT i 0 =? 0) && (k =? REG_OUT i 0) then u32 (i_addr i + i_size i) else get_reg regs st k) /\
  (forall perf, exists st', jalr_exec_common regs perf i st = Some (insn_cache_get (u32 (SIM_GET i 0 + REG_GET regs i 0 st)), st') /\
      bus st' = bus st /\ forall k, get_reg regs st' k =
        if negb (REG_OUT i 0 =? 0) && (k =? REG_OUT i 0) then u32 (i_addr i + i_size i) else get_reg regs st k) /\
  (forall pc, 0 <= pc < 2 ^ 32 -> insn_cache_get pc = pc - pc mod 2).
Proof.
  assert (J : forall (perf : bool) (target : Z), exists st',
    (let st0 := if negb (REG_OUT i 0 =? 0) then REG_SET regs i 0 (u32 (i_addr i + i_size i)) st else st in
     let st0 := if perf then account CSR_PCER_JUMP st0 else st0 in
     Some (target, set_cpu (iss_perf_account_jump (cpu st0)) st0)) = Some (target, st') /\ bus st' = bus st /\
    forall k, get_reg regs st' k =
      if negb (REG_OUT i 0 =? 0) && (k =? REG_OUT i 0) then u32 (i_addr i + i_size i) else get_reg regs st k).
  { intros perf target. set (st0 := if negb (REG_OUT i 0 =? 0) then REG_SET regs i 0 (u32 (i_addr i + i_size i)) st else st).
    assert (E0 : bus st0 = bus st /\ forall k, get_reg regs st0 k =
      if negb (REG_OUT i 0 =? 0) && (k =? REG_OUT i 0) then u32 (i_addr i + i_size i) else get_reg regs st k).
    { unfold st0, REG_SET. destruct (negb (REG_OUT i 0 =? 0)) eqn:Z0; [|done]. split; [done|]. intros k.
      rewrite get_reg_set, Z0. by rewrite uw_idemp by lia. }
    destruct (keeps_account CSR_PCER_JUMP st0) as (A1 & A2 & _). eexists. split; [done|]. unfold get_reg.
    destruct perf; simpl; rewrite ?A1, ?A2; exact E0. }
  split; [|split; [intros perf; apply J|split; [intros perf; apply J|apply insn_cache_get_even]]].
  intros f op Hin. set (x := REG_GET regs i 0 st). set (y := REG_GET regs i 1 st).
  assert (E : exists (taken perf : bool), f (bxx_decode i) st = branch_common taken perf (bxx_decode i) st /\
    (taken = true <-> isa_taken op x y)).
  { unfold branch_insns in Hin.
    repeat (apply elem_of_cons in Hin as [Hin|Hin]; [injection Hin as -> ->; eexists _, _; (split; [reflexivity|]);
      cbn [isa_taken]; change (REG_GET regs (bxx_decode i) 0 st) with x; change (REG_GET regs (bxx_decode i) 1 st) with y|]);
      [..|by apply elem_of_nil in Hin]; rewrite ?Z.geb_leb, ?negb_true_iff, ?Z.eqb_neq, ?Z.eqb_eq, ?Z.ltb_lt, ?Z.leb_le; done. }
  destruct E as (taken & perf & E & Ht). destruct (branch_common_spec taken perf (bxx_decode i) st) as (st' & Es & H).
  exists taken, st'. rewrite E, Es. by split.
Qed.
End ControlFlow.

(** ** Loads and stores *)

Lemma mask_word a : 0 <= a < 2 ^ 32 -> Z.land a ADDR_MASK = a - a mod 4.
Proof.
  intros Ha. assert (E : a - a mod 4 = Z.ldiff a (Z.ones 2)).
  { rewrite Z.ldiff_ones_r, Z.shiftl_mul_pow2, Z.shiftr_div_pow2 by lia. change (2 ^ 2) with 4.
    pose proof (Z.div_mod a 4 ltac:(lia)). lia. }
  rewrite E. apply Z.bits_inj'. intros n Hn. unfold ADDR_MASK. rewrite Z.land_spec, Z.ldiff_spec, uw_testbit by lia.
  destruct (Z.ltb_spec n 32); [|by rewrite (testbit_above 32 a)]. rewrite Z.lnot_spec by lia. done.
Qed.

(** What a partial transfer into a register leaves in it. *)
Lemma loaded_word {S : Type} (rd : S -> Z -> Z) s a ref n h h' :
  0 <= n <= 4 ->
  (forall p, hget h' p = if in_range ref n p then rd s (a + (p - ref)) else hget h p) ->
  pack 8 (load_bytes ref 4 h') =
  pack 8 (mem_bytes rd s a n) + 2 ^ (8 * n) * (pack 8 (load_bytes ref 4 h) / 2 ^ (8 * n)).
Proof.
  intros Hn H. replace 4 with (n + (4 - n)) by lia. rewrite !load_bytes_app by lia.
  rewrite (load_bytes_moved rd s a ref n h h' H).
  rewrite (load_bytes_ext (ref + n) (4 - n) h h').
  2: { intros i Hi. rewrite H. destruct (in_range_spec ref n (ref + n + i)); [lia|done]. }
  rewrite !pack_app, length_mem_bytes, length_load_bytes, Z2Nat.id by lia.
  set (B := pack 8 (load_bytes (ref + n) (4 - n) h)). do 2 f_equal.
  pose proof (pack_range 8 (load_bytes ref n h) ltac:(lia)) as Hr. rewrite length_load_bytes, Z2Nat.id in Hr by lia.
  rewrite (Z.mul_comm (2 ^ (8 * n))), Z.div_add, Z.div_small by lia. lia.
Qed.

Lemma register_byte h ref j :
  0 <= j < 4 -> u8 (hget h (ref + j)) = u8 (Z.shiftr (pack 8 (load_bytes ref 4 h)) (8 * j)).
Proof.
  intros Hj. symmetry. rewrite <- (Z2Nat.id j) by lia. rewrite (lookup_pack 8 _ (Z.to_nat j) (hget h (ref + Z.of_nat (Z.to_nat j)))); [done|lia|].
  apply lookup_load_bytes. lia.
Qed.

Section LoadStore.
Context {S : Type} (regs null_reg port : Z) (data : io_meth S) (rd : S -> Z -> Z) (ok : S -> Z -> Z -> Prop).
Context `{!IoTargets (fun _ : unit => data) (fun _ => rd) (fun _ => ok)}.
Hypothesis ok_part : forall s a n b m, ok s a n -> a <= b -> 0 <= m -> b + m <= a + n -> ok s b m.
(** The registers and null_reg are in separate places. *)
Hypothesis layout : 0 < regs /\ 0 < null_reg /\ (null_reg + 4 <= regs \/ regs + 128 <= null_reg).
Implicit Types (st : iss (S := S)) (i : iss_insn).

Lemma aligned_access addr d n w st :
  ok (bus st) addr n -> 0 < n -> 0 < d ->
  exists r h' s',
    data_req_aligned port data addr d n w st =
      Some (IO_REQ_OK, r, Iss (set_insn_cycles (insn_cycles (cpu st) + r_latency r) (cpu st)) h' s') /\
    moves rd w addr d n (hst st) (bus st) h' s' /\ (forall a m, ok (bus st) a m -> ok s' a m).
Proof.
  intros Hok Hn Hd. unfold data_req_aligned, master_req.
  destruct (target_ok tt (set_resp_port port (IoReq addr d n w false 0 0 0 [])) (hst st) (bus st))
    as (r & h' & s' & -> & _ & Hm & _ & Hk); [done|done|simpl; lia|].
  exists r, h', s'. split; [done|]. split; [exact Hm|exact (Hk tt)].
Qed.

Lemma data_req_inside addr d n w st :
  0 <= addr -> addr + n <= 2 ^ 32 -> 0 < n -> 0 < d -> ok (bus st) addr n -> addr mod 4 + n <= 4 ->
  exists r h' s',
    data_req port data addr d n w st =
      Some (IO_REQ_OK, Iss (set_insn_cycles (insn_cycles (cpu st) + r_latency r) (cpu st)) h' s') /\
    moves rd w addr d n (hst st) (bus st) h' s' /\ (forall a m, ok (bus st) a m -> ok s' a m).
Proof.
  intros Ha Hend Hn Hd Hok Hin. unfold data_req. rewrite (uw_small 32 (addr + n - 1)), !mask_word by lia.
  assert (E : (addr + n - 1) mod 4 = addr mod 4 + (n - 1)).
  { pose proof (Z.mod_pos_bound addr 4 ltac:(lia)). symmetry. apply (Z.mod_unique _ _ (addr / 4)); [lia|].
    pose proof (Z.div_mod addr 4 ltac:(lia)). lia. }
  rewrite E, (proj2 (Z.eqb_eq _ _)) by lia.
  destruct (aligned_access addr d n w st Hok Hn Hd) as (r & h' & s' & -> & Hm & Hk). by exists r, h', s'.
Qed.

Lemma data_req_across addr d n w st :
  0 <= addr -> addr + n <= 2 ^ 32 -> 0 < n <= 4 -> 0 < d -> ok (bus st) addr n -> 4 < addr mod 4 + n ->
  exists c1 h1 s1 size0,
    data_req port data addr d n w st = Some (IO_REQ_PENDING, Iss c1 h1 s1) /\
    misaligned_access c1 = true /\ stalled c1 = stalled (cpu st) /\ 0 < size0 < n /\
    moves rd w addr d size0 (hst st) (bus st) h1 s1 /\
    forall c2 h2, misaligned_size c2 = misaligned_size c1 -> misaligned_data c2 = misaligned_data c1 ->
      misaligned_addr c2 = misaligned_addr c1 -> misaligned_is_write c2 = misaligned_is_write c1 ->
    exists x c3 h' s', exec_misaligned port data (Iss c2 h2 s1) = Some (x, Iss c3 h' s') /\
      moves rd w (addr + size0) (d + size0) (n - size0) h2 s1 h' s' /\
      misaligned_access c3 = false /\ stalled c3 = stalled c2 - 1.
Proof.
  intros Ha Hend Hn Hd Hok Hin. pose proof (Z.mod_pos_bound addr 4 ltac:(lia)) as Hm4.
  pose proof (Z.div_mod addr 4 ltac:(lia)) as Hdm.
  assert (E : (addr + n - 1) mod 4 = addr mod 4 + (n - 1) - 4).
  { symmetry. apply (Z.mod_unique _ _ (addr / 4 + 1)); lia. }
  set (size0 := 4 - addr mod 4).
  unfold data_req. rewrite (uw_small 32 (addr + n - 1)), !mask_word, E by lia.
  rewrite (proj2 (Z.eqb_neq _ _)) by lia.
  unfold data_misaligned_req. rewrite (uw_small 32 (addr + n - 1)), mask_word, E by lia.
  replace (addr + n - 1 - (addr mod 4 + (n - 1) - 4)) with (addr + size0) by lia.
  replace (addr + size0 - addr) with size0 by lia. rewrite (uw_small 32 size0), (sw_small 32 size0) by lia.
  set (c0 := iss_pccr_account_event CSR_PCER_MISALIGNED 1 (cpu st)).
  assert (Hc0 : stalled c0 = stalled (cpu st)) by (unfold c0, iss_pccr_account_event; by destruct (_ && _)).
  destruct (aligned_access addr d size0 w
    (set_cpu (set_misaligned true (n - size0) (d + size0) (addr + size0) w c0) st)) as (r & h1 & s1 & -> & M1 & K1);
    [apply (ok_part _ _ _ _ _ Hok); lia|lia|done|].
  simpl in M1. eexists _, h1, s1, size0. split; [done|]. split; [done|]. split; [done|].
  split; [unfold size0; lia|]. split; [exact M1|]. intros c2 h2 Es Ed Ea Ew. unfold exec_misaligned. cbn [cpu].
  set (c4 := iss_pccr_account_event CSR_PCER_LD 1 _).
  assert (Hc4 : misaligned_size c4 = n - size0 /\ misaligned_data c4 = d + size0 /\ misaligned_addr c4 = addr + size0 /\
    misaligned_is_write c4 = w /\ stalled c4 = stalled c2 - 1).
  { unfold c4, iss_pccr_account_event. simpl in *. destruct (_ && _); simpl; by rewrite Es, Ed, Ea, Ew. }
  destruct Hc4 as (-> & -> & -> & -> & Hst4).
  destruct (aligned_access (addr + size0) (d + size0) (n - size0) w (set_cpu c4 (Iss c2 h2 s1)))
    as (r2 & h3 & s2 & -> & M2 & _); [apply K1, (ok_part _ _ _ _ _ Hok); lia|lia|lia|].
  simpl in M2. eexists _, _, h3, s2. split; [done|]. split; [exact M2|].
  split; [done|]. simpl. unfold iss_exec_insn_terminate, iss_exec_account_cycles. by destruct (_ && _ && _).
Qed.

(** The end of an instruction, once the second half of a misaligned access is done. *)
Definition complete (x : option (Z * iss (S := S))) : option (iss (S := S)) :=
  let* (_, st) := x in
  if misaligned_access (cpu st) then let* (_, st) := exec_misaligned port data st in Some st else Some st.

(** The outcome of a transfer of [n] bytes at [addr] with the buffer at [d]. *)
Definition accessed (w : bool) (addr d n : Z) (h : host) (c : core) (s : S) st' : Prop :=
  moves rd w addr d n h s (hst st') (bus st') /\
  misaligned_access (cpu st') = false /\ stalled (cpu st') = stalled c.

Record access_ok (addr n : Z) st : Prop := {
  ao_addr : 0 <= addr /\ addr + n <= 2 ^ 32;
  ao_size : 0 < n <= 4;
  ao_ok : ok (bus st) addr n;
  ao_idle : misaligned_access (cpu st) = false;
}.

(** The register [base] is not in the buffer of a transfer. *)
Definition separate (d n base : Z) : Prop :=
  base = 0 \/ forall p, regs + 4 * base <= p < regs + 4 * base + 4 -> ~ d <= p < d + n.

Lemma moves_set_reg w a d n h s h1 s1 base v :
  separate d n base -> moves rd w a d n h s h1 s1 ->
  moves rd w a d n (iss_set_reg regs base v h) s (iss_set_reg regs base v h1) s1.
Proof.
  intros [->|Hsep] [M1 M2]; [done|]. unfold iss_set_reg. destruct (negb (base =? 0)); [|done].
  split; intros x.
  - rewrite M1. destruct (w && negb (d =? 0)); cbn [andb]; [|done].
    destruct (in_range_spec a n x) as [Hx|]; [|done]. rewrite hget_store_bytes, length_lanes.
    destruct (Z.leb_spec (regs + 4 * base) (d + (x - a))), (Z.ltb_spec (d + (x - a)) (regs + 4 * base + Z.of_nat 4));
      try done. destruct (Hsep (d + (x - a))); lia.
  - rewrite !hget_store_bytes, M2, length_lanes.
    destruct (Z.leb_spec (regs + 4 * base) x), (Z.ltb_spec x (regs + 4 * base + Z.of_nat 4)); try done. cbn [andb].
    destruct (in_range_spec d n x); [|by rewrite andb_false_r]. destruct (Hsep x); lia.
Qed.

Lemma set_reg_0 v st : set_reg regs 0 v st = st.
Proof. by destruct st. Qed.

(** A request and, when it crosses a word, the stall and the second half, before which a register may be
    set. *)
Lemma access_update addr d n w st (i : iss_insn) :
  access_ok addr n st -> 0 < d ->
  exists err st1, data_req port data addr d n w st = Some (err, st1) /\
    (forall p, w = true \/ ~ d <= p < d + n -> hget (hst st1) p = hget (hst st) p) /\
    if addr mod 4 + n <=? 4 then err = IO_REQ_OK /\ accessed w addr d n (hst st) (cpu st) (bus st) st1
    else err = IO_REQ_PENDING /\ forall cb reg size base v, separate d n base -> exists st2,
      complete (Some (i_next i, set_reg regs base v (stall_access cb reg size st1))) = Some st2 /\
      accessed w addr d n (iss_set_reg regs base v (hst st)) (cpu st) (bus st) st2.
Proof.
  intros [[Ha Hend] Hn Hok Hidle] Hd.
  assert (Hout : forall m h s h' s', m <= n -> moves rd w addr d m h s h' s' ->
    forall p, w = true \/ ~ d <= p < d + n -> hget h' p = hget h p).
  { intros m h s h' s' Hm [_ M] p Hp. rewrite M. destruct Hp as [->|Hp]; [done|].
    destruct (in_range_spec d m p); [lia|]. by rewrite andb_false_r. }
  destruct (Z.leb_spec (addr mod 4 + n) 4) as [Hin|Hcross].
  - destruct (data_req_inside addr d n w st) as (r & h' & s' & E & Hm & _); try done; [lia|].
    eexists _, _. split; [exact E|]. split; [exact (Hout n _ _ _ _ ltac:(lia) Hm)|]. split; [done|]. by split.
  - destruct (data_req_across addr d n w st) as (c1 & h1 & s1 & m & E & Hmis & Hst & Hm0 & M1 & Hnext); try done.
    exists IO_REQ_PENDING, (Iss c1 h1 s1). split; [done|]. split; [exact (Hout m _ _ _ _ ltac:(lia) M1)|].
    split; [done|]. intros cb reg size base v Hsep.
    destruct (Hnext (iss_exec_insn_stall (set_stall (Some cb) reg size c1)) (iss_set_reg regs base v h1)
      eq_refl eq_refl eq_refl eq_refl) as (x & c3 & h' & s' & E3 & M2 & Hf & Hs3).
    exists (Iss c3 h' s'). split.
    + unfold complete.
      replace (misaligned_access (cpu (set_reg regs base v (stall_access cb reg size (Iss c1 h1 s1))))) with true by (symmetry; exact Hmis).
      change (set_reg regs base v (stall_access cb reg size (Iss c1 h1 s1))) with
        (Iss (iss_exec_insn_stall (set_stall (Some cb) reg size c1)) (iss_set_reg regs base v h1) s1). by rewrite E3.
    + split; [|split; [done|cbn [cpu]; rewrite Hs3; simpl; lia]].
      replace n with (m + (n - m)) by lia.
      apply (moves_split rd w addr d m (n - m) _ _ (iss_set_reg regs base v h1) s1); try lia.
      * apply moves_set_reg; [|done]. destruct Hsep as [Hz|Hsep]; [by left|]. right. intros p Hp ?. by apply (Hsep p Hp); lia.
      * by rewrite (proj2 (Z.eqb_neq d 0)) by lia.
Qed.

Lemma access_complete addr d n w st (i : iss_insn) :
  access_ok addr n st -> 0 < d ->
  exists err st1, data_req port data addr d n w st = Some (err, st1) /\
    if addr mod 4 + n <=? 4 then err = IO_REQ_OK /\ accessed w addr d n (hst st) (cpu st) (bus st) st1
    else err = IO_REQ_PENDING /\ forall cb reg size, exists st2,
      complete (Some (i_next i, stall_access cb reg size st1)) = Some st2 /\
      accessed w addr d n (hst st) (cpu st) (bus st) st2.
Proof.
  intros Hok Hd. destruct (access_update addr d n w st i Hok Hd) as (err & st1 & E & _ & H).
  exists err, st1. split; [done|]. destruct (addr mod 4 + n <=? 4); [done|]. destruct H as [-> H].
  split; [done|]. intros cb reg size. destruct (H cb reg size 0 0 (or_introl eq_refl)) as (st2 & E2 & A).
  rewrite set_reg_0 in E2. by exists st2.
Qed.

Lemma reg_ref_pos reg : 0 <= reg < 32 -> 0 < iss_reg_ref regs null_reg reg.
Proof. intros Hr. unfold iss_reg_ref. destruct (reg =? 0); lia. Qed.

Lemma complete_done i st : misaligned_access (cpu st) = false -> complete (then_next i (Some st)) = Some st.
Proof. intros H. unfold complete, then_next. by rewrite H. Qed.

Lemma load_complete addr n reg st i :
  access_ok addr n st -> 0 <= reg < 32 ->
  exists st', complete (then_next i (iss_lsu_load regs null_reg port data addr n reg st)) = Some st' /\
    accessed false addr (iss_reg_ref regs null_reg reg) n (iss_set_reg regs reg 0 (hst st)) (cpu st) (bus st) st'.
Proof.
  intros Hok Hr. unfold iss_lsu_load.
  assert (Hok' : access_ok addr n (set_reg regs reg 0 st)) by (destruct Hok; by split).
  destruct (access_complete addr (iss_reg_ref regs null_reg reg) n false (set_reg regs reg 0 st) i Hok' (reg_ref_pos reg Hr))
    as (err & st1 & -> & H).
  destruct (addr mod 4 + n <=? 4); destruct H as [-> H].
  - exists st1. split; [|exact H]. apply complete_done. apply H.
  - apply H.
Qed.

Lemma load_signed_complete addr n reg st i :
  access_ok addr n st -> 0 <= reg < 32 ->
  exists st1, accessed false addr (iss_reg_ref regs null_reg reg) n (hst st) (cpu st) (bus st) st1 /\
    complete (then_next i (iss_lsu_load_signed regs null_reg port data addr n reg st)) =
    Some (if addr mod 4 + n <=? 4 then set_reg regs reg (iss_get_signed_value (get_reg regs st1 reg) (n * 8)) st1 else st1).
Proof.
  intros Hok Hr. unfold iss_lsu_load_signed.
  destruct (access_complete addr (iss_reg_ref regs null_reg reg) n false st i Hok (reg_ref_pos reg Hr)) as (err & st1 & -> & H).
  destruct (addr mod 4 + n <=? 4); destruct H as [-> H].
  - exists st1. split; [exact H|]. apply complete_done. apply H.
  - destruct (H LoadSignedResume reg n) as (st2 & E & Hacc). by exists st2.
Qed.

Lemma store_complete addr n reg st i :
  access_ok addr n st -> 0 <= reg < 32 ->
  exists st', complete (then_next i (iss_lsu_store regs port data addr n reg st)) = Some st' /\
    accessed true addr (regs + 4 * reg) n (hst st) (cpu st) (bus st) st'.
Proof.
  intros Hok Hr. unfold iss_lsu_store, iss_reg_store_ref.
  destruct (access_complete addr (regs + 4 * reg) n true st i Hok ltac:(lia)) as (err & st1 & -> & H).
  destruct (addr mod 4 + n <=? 4); destruct H as [-> H].
  - exists st1. split; [|exact H]. apply complete_done. apply H.
  - apply H.
Qed.

(** ** The load and store instructions *)

(** The handlers, with their size and whether they extend the sign. *)
Definition load_insns : list ((iss_insn -> iss (S := S) -> option (Z * iss (S := S))) * Z * bool) :=
  [(lb_exec_fast regs null_reg port data, 1, true); (lh_exec_fast regs null_reg port data, 2, true);
   (lw_exec_fast regs null_reg port data, 4, false); (lbu_exec_fast regs null_reg port data, 1, false);
   (lhu_exec_fast regs null_reg port data, 2, false);
   (lb_exec regs null_reg port data, 1, true); (lh_exec regs null_reg port data, 2, true);
   (lw_exec regs null_reg port data, 4, false); (lbu_exec regs null_reg port data, 1, false);
   (lhu_exec regs null_reg port data, 2, false)].

Definition store_insns : list ((iss_insn -> iss (S := S) -> option (Z * iss (S := S))) * Z) :=
  [(sb_exec_fast regs port data, 1); (sh_exec_fast regs port data, 2); (sw_exec_fast regs port data, 4);
   (sb_exec regs port data, 1); (sh_exec regs port data, 2); (sw_exec regs port data, 4)].

Lemma account_same event st :
  hst (account event st) = hst st /\ bus (account event st) = bus st /\
  misaligned_access (cpu (account event st)) = misaligned_access (cpu st) /\ stalled (cpu (account event st)) = stalled (cpu st).
Proof. unfold account, iss_pccr_account_event. by destruct (_ && _). Qed.

Lemma stack_access_off reg addr st : stack_conf (cpu st) = 0 -> iss_lsu_check_stack_access reg addr st = Some tt.
Proof. intros H. unfold iss_lsu_check_stack_access. by rewrite H. Qed.

(** A load, before what it leaves in the register is known. *)
Lemma load_insn_spec f n (sgn : bool) i st :
  (f, n, sgn) ∈ load_insns -> stack_conf (cpu st) = 0 -> access_ok (mem_addr regs i st) n st -> 0 <= REG_OUT i 0 < 32 ->
  let addr := mem_addr regs i st in
  let reg := REG_OUT i 0 in
  exists st1,
    accessed false addr (iss_reg_ref regs null_reg reg) n (if sgn then hst st else iss_set_reg regs reg 0 (hst st))
      (cpu st) (bus st) st1 /\
    complete (f i st) =
      Some (if sgn && (addr mod 4 + n <=? 4)
            then set_reg regs reg (iss_get_signed_value (get_reg regs st1 reg) (n * 8)) st1 else st1).
Proof.
  intros Hin Hstk Hok Hr addr reg.
  assert (Hacc : access_ok addr n (account CSR_PCER_LD st)).
  { destruct (account_same CSR_PCER_LD st) as (E1 & E2 & E3 & _). destruct Hok. split; try done; by rewrite ?E2, ?E3. }
  assert (Hcore : forall w a d h s st', accessed w a d n h (cpu (account CSR_PCER_LD st)) s st' -> accessed w a d n h (cpu st) s st').
  { intros w a d h s st' (? & ? & E). split; [done|]. split; [done|]. rewrite E. apply account_same. }
  destruct (account_same CSR_PCER_LD st) as (E1 & E2 & _).
  unfold load_insns in Hin.
  repeat (apply elem_of_cons in Hin as [Hin|Hin];
    [injection Hin as -> -> ->;
     unfold lb_exec, lh_exec, lw_exec, lbu_exec, lhu_exec; rewrite ?stack_access_off by done;
     cbn [andb];
     first [ destruct (load_signed_complete addr _ reg st i Hok Hr) as (st1 & A & E); exists st1; split; [exact A|exact E]
           | destruct (load_complete addr _ reg st i Hok Hr) as (st1 & E & A); exists st1; split; [exact A|exact E]
           | destruct (load_signed_complete addr _ reg (account CSR_PCER_LD st) i Hacc Hr) as (st1 & A & E);
             rewrite E1, E2 in A; exists st1; split; [apply Hcore; exact A|exact E]
           | destruct (load_complete addr _ reg (account CSR_PCER_LD st) i Hacc Hr) as (st1 & E & A);
             rewrite E1, E2 in A; exists st1; split; [apply Hcore; exact A|exact E] ]|]);
    by apply elem_of_nil in Hin.
Qed.

(** A transfer into a register changes no other register. *)
Lemma other_register k reg n addr h c s st' :
  accessed false addr (iss_reg_ref regs null_reg reg) n h c s st' -> 0 < n <= 4 -> 0 <= reg < 32 -> 0 <= k < 32 ->
  k <> reg \/ reg = 0 -> get_reg regs st' k = iss_get_reg_untimed regs h k.
Proof.
  intros [[_ M] _] Hn Hr Hk Hne. pose proof (reg_ref_pos reg Hr) as Hpos. apply get_reg_ext. intros p Hp.
  rewrite M, (proj2 (Z.eqb_neq (iss_reg_ref regs null_reg reg) 0)) by lia. cbn [negb andb].
  destruct (in_range_spec (iss_reg_ref regs null_reg reg) n p) as [Hin|]; [|done]. exfalso.
  unfold iss_reg_ref in Hin. destruct (Z.eqb_spec reg 0); lia.
Qed.

(** What a transfer leaves in its register. *)
Lemma own_register reg n addr h c s st' :
  accessed false addr (iss_reg_ref regs null_reg reg) n h c s st' -> 0 < n <= 4 -> 0 < reg < 32 ->
  get_reg regs st' reg =
  pack 8 (mem_bytes rd s addr n) + 2 ^ (8 * n) * (iss_get_reg_untimed regs h reg / 2 ^ (8 * n)).
Proof.
  intros [[_ M] _] Hn Hr. unfold get_reg, iss_get_reg_untimed.
  assert (E : iss_reg_ref regs null_reg reg = regs + 4 * reg) by (unfold iss_reg_ref; by rewrite (proj2 (Z.eqb_neq reg 0)) by lia).
  rewrite E in M. apply loaded_word; [lia|]. intros p. rewrite M, (proj2 (Z.eqb_neq (regs + 4 * reg) 0)) by lia. done.
Qed.

(** The value of a load of [n] bytes of value [v], inside a word or across two, over an old value. *)
Definition load_value (sgn inside : bool) (n v old : Z) : Z :=
  if negb sgn then v
  else if inside then u32 (sw (8 * n) v)
  else v + 2 ^ (8 * n) * (old / 2 ^ (8 * n)).

(** The registers after a load. *)
Lemma loaded_registers (sgn : bool) n reg addr h c s st1 :
  accessed false addr (iss_reg_ref regs null_reg reg) n (if sgn then h else iss_set_reg regs reg 0 h) c s st1 ->
  0 < n <= 4 -> 0 <= reg < 32 ->
  let inside := addr mod 4 + n <=? 4 in
  forall k, 0 <= k < 32 ->
    get_reg regs (if sgn && inside then set_reg regs reg (iss_get_signed_value (get_reg regs st1 reg) (n * 8)) st1 else st1) k =
    if negb (reg =? 0) && (k =? reg)
    then load_value sgn inside n (pack 8 (mem_bytes rd s addr n)) (iss_get_reg_untimed regs h k)
    else iss_get_reg_untimed regs h k.
Proof.
  intros Hacc Hn Hr inside k Hk. set (h0 := if sgn then h else _) in Hacc.
  assert (Hh0 : forall k, k <> reg \/ reg = 0 -> iss_get_reg_untimed regs h0 k = iss_get_reg_untimed regs h k).
  { intros j Hj. unfold h0. destruct sgn; [done|]. destruct Hj as [Hj|Hj]; [by apply get_set_reg_ne|by rewrite Hj]. }
  destruct (Z.eqb_spec reg 0) as [Hz|Hnz]; cbn [negb andb].
  - transitivity (get_reg regs st1 k).
    { destruct (sgn && inside); [|done]. rewrite get_reg_set. by rewrite (proj2 (Z.eqb_eq reg 0) Hz). }
    rewrite (other_register k reg n addr h0 c s st1 Hacc Hn Hr Hk (or_intror Hz)). apply Hh0. by right.
  - destruct (Z.eqb_spec k reg) as [Hkr|Hne].
    + pose proof (own_register reg n addr h0 c s st1 Hacc Hn ltac:(lia)) as Hown. rewrite Hkr in *.
      unfold load_value. destruct sgn; cbn [negb andb].
      * destruct inside; [|exact Hown].
        rewrite get_reg_set, Z.eqb_refl, (proj2 (Z.eqb_neq reg 0)) by done. cbn [negb andb].
        rewrite signed_value_spec by lia. rewrite uw_idemp by lia. rewrite (Z.mul_comm n 8), Hown.
        f_equal. apply uw_eq_sw. rewrite (Z.mul_comm (2 ^ (8 * n))). by rewrite uw_add_mul by lia.
      * rewrite Hown. unfold h0. rewrite get_set_reg by lia. unfold uw. rewrite Z.mod_0_l by lia.
        rewrite Z.div_0_l by (apply Z.pow_nonzero; lia). lia.
    + transitivity (get_reg regs st1 k).
      { destruct (sgn && inside); [|done]. rewrite get_reg_set. by rewrite (proj2 (Z.eqb_neq k reg)), andb_false_r by lia. }
      rewrite (other_register k reg n addr h0 c s st1 Hacc Hn Hr Hk (or_introl Hne)). apply Hh0. by left.
Qed.

(** C8: A load puts in its destination register the little-endian value of the bytes at its address in
    the memory, extended with zeros or with its sign, and changes no other register (x0 included) nor
    the memory, whether it is in one word or, with the second half the wrapper does, across two.  The
    exception is a signed half-word across two words: it is not extended, and the upper half of the
    register keeps its old value. *)
Theorem loads_isa f n (sgn : bool) i st :
  (f, n, sgn) ∈ load_insns -> stack_conf (cpu st) = 0 -> access_ok (mem_addr regs i st) n st -> 0 <= REG_OUT i 0 < 32 ->
  let addr := mem_addr regs i st in
  exists st', complete (f i st) = Some st' /\
    misaligned_access (cpu st') = false /\ stalled (cpu st') = stalled (cpu st) /\
    (forall b, rd (bus st') b = rd (bus st) b) /\
    forall k, 0 <= k < 32 -> get_reg regs st' k =
      if negb (REG_OUT i 0 =? 0) && (k =? REG_OUT i 0)
      then load_value sgn (addr mod 4 + n <=? 4) n (pack 8 (mem_bytes rd (bus st) addr n)) (get_reg regs st k)
      else get_reg regs st k.
Proof.
  intros Hin Hstk Hok Hr addr. pose proof (ao_size _ _ _ Hok) as Hn.
  destruct (load_insn_spec f n sgn i st Hin Hstk Hok Hr) as (st1 & Hacc & E). fold addr in Hacc, E.
  rewrite E. eexists. split; [done|]. pose proof Hacc as (HM & Hmis & Hst).
  split; [by destruct (sgn && (addr mod 4 + n <=? 4))|]. split; [by destruct (sgn && (addr mod 4 + n <=? 4))|].
  split. { destruct HM as [HM _]. intros b. transitivity (rd (bus st1) b); [by destruct (sgn && (addr mod 4 + n <=? 4))|exact (HM b)]. }
  exact (loaded_registers sgn n (REG_OUT i 0) addr (hst st) (cpu st) (bus st) st1 Hacc Hn Hr).
Qed.

(** The memory and the registers after a store. *)
Lemma stored_memory src n addr h c s st' :
  accessed true addr (regs + 4 * src) n h c s st' -> 0 < n <= 4 -> 0 <= src ->
  (forall b, u8 (rd (bus st') b) =
    if in_range addr n b then u8 (Z.shiftr (iss_get_reg_untimed regs h src) (8 * (b - addr))) else u8 (rd s b)) /\
  forall k, get_reg regs st' k = iss_get_reg_untimed regs h k.
Proof.
  intros ([Mm Mh] & _) Hn Hs. rewrite (proj2 (Z.eqb_neq (regs + 4 * src) 0)) in Mm by lia. cbn [negb andb] in Mm, Mh. split.
  - intros b. rewrite Mm. destruct (in_range_spec addr n b) as [Hb|]; [|done]. apply register_byte. lia.
  - intros k. apply get_reg_ext. intros p _. apply Mh.
Qed.

(** C9: A store writes the low bytes of its source register to memory at its address, least significant
    first, and changes no other byte of the memory and no register, inside a word and across two. *)
Theorem stores_isa f n i st :
  (f, n) ∈ store_insns -> stack_conf (cpu st) = 0 -> access_ok (mem_addr regs i st) n st -> 0 <= REG_IN i 1 < 32 ->
  let addr := mem_addr regs i st in
  exists st', complete (f i st) = Some st' /\
    misaligned_access (cpu st') = false /\ stalled (cpu st') = stalled (cpu st) /\
    (forall b, u8 (rd (bus st') b) = if in_range addr n b then u8 (Z.shiftr (REG_GET regs i 1 st) (8 * (b - addr))) else u8 (rd (bus st) b)) /\
    forall k, get_reg regs st' k = get_reg regs st k.
Proof.
  intros Hin Hstk Hok Hr addr. pose proof (ao_size _ _ _ Hok) as Hn.
  assert (E : exists st', complete (f i st) = Some st' /\
    accessed true addr (regs + 4 * REG_IN i 1) n (hst st) (cpu st) (bus st) st').
  { assert (Hacc : access_ok addr n (account CSR_PCER_ST st)).
    { destruct (account_same CSR_PCER_ST st) as (E1 & E2 & E3 & _). destruct Hok. split; try done; by rewrite ?E2, ?E3. }
    destruct (store_complete addr n (REG_IN i 1) st i Hok Hr) as (st1 & E1 & A1).
    destruct (store_complete addr n (REG_IN i 1) (account CSR_PCER_ST st) i Hacc Hr) as (st2 & E2 & A2).
    destruct (account_same CSR_PCER_ST st) as (H1 & H2 & _ & H4). rewrite H1, H2 in A2.
    assert (A2' : accessed true addr (regs + 4 * REG_IN i 1) n (hst st) (cpu st) (bus st) st2).
    { destruct A2 as (? & ? & A). by rewrite H4 in A. }
    unfold store_insns in Hin.
    repeat (apply elem_of_cons in Hin as [Hin|Hin];
      [injection Hin as -> ->; unfold sb_exec, sh_exec, sw_exec; rewrite ?stack_access_off by done; 
       first [ exists st1; split; [exact E1|exact A1] | exists st2; split; [exact E2|exact A2'] ]|]);
      by apply elem_of_nil in Hin. }
  destruct E as (st' & E & Hacc). exists st'. pose proof Hacc as (_ & Hmis & Hst).
  split; [done|]. split; [done|]. split; [done|].
  exact (stored_memory (REG_IN i 1) n addr (hst st) (cpu st) (bus st) st' Hacc Hn ltac:(lia)).
Qed.
End LoadStore.

(** ** Examples *)

Definition demo_core : core :=
  Core 0 0 0 (replicate 32 0) 0 0 0 0 None 0 0 64 0 true false 0 0 0 false 0.
(** Registers at 5000: x5 is 0xAABBCCDD, x6 is -7, x7 is 2. *)
Definition demo_regs : host :=
  iss_set_reg 5000 5 0xAABBCCDD (iss_set_reg 5000 6 (-7) (iss_set_reg 5000 7 2 ∅)).
Definition demo_iss : iss := Iss demo_core demo_regs (demo_memory false).
Definition demo_insn (a b d imm : Z) : iss_insn := Insn 64 4 [a; b] [d] [0] [imm] 68 0.

Lemma demo_insn_ok a b d imm : - 2 ^ 31 <= imm < 2 ^ 31 -> insn_ok (demo_insn a b d imm).
Proof.
  intros H. split; intros k; unfold SIM_GET, UIM_GET; simpl.
  - destruct k as [|k]; simpl; lia.
  - destruct k as [|k]; simpl; lia.
Qed.

Lemma register_insns_isa_witness :
  exists st', div_exec 5000 (demo_insn 6 7 5 0) demo_iss = Some (68, st') /\ get_reg 5000 st' 5 = 2 ^ 32 - 3.
Proof.
  assert (Hin : (div_exec 5000, DIV, Reg) ∈ register_insns (S := memory) 5000).
  { by apply (list_elem_of_lookup_2 _ 23). }
  destruct (register_insns_isa 5000 (div_exec 5000) DIV Reg (demo_insn 6 7 5 0) demo_iss Hin
    (demo_insn_ok 6 7 5 0 ltac:(lia))) as (st' & E & _ & H).
  exists st'. split; [exact E|]. rewrite H. reflexivity.
Defined.

Lemma control_flow_isa_witness :
  exists st', blt_exec 5000 (bxx_decode (demo_insn 6 7 0 (-16))) demo_iss = Some (48, st') /\ insn_cycles (cpu st') = 2.
Proof.
  destruct (control_flow_isa 5000 (demo_insn 6 7 0 (-16)) demo_iss) as (H & _).
  destruct (H (blt_exec 5000) BLT) as (taken & st' & E & [_ Ht] & _ & _ & Hc).
  { by apply (list_elem_of_lookup_2 _ 5). }
  rewrite (Ht eq_refl) in *. exists st'. split; [exact E|exact Hc].
Defined.

Lemma demo_access a n : 0 <= a -> 0 < n <= 4 -> a + n <= 64 -> access_ok mem_ok a n demo_iss.
Proof. intros. split; [lia|done| |done]. apply demo_memory_ok; lia. Qed.

Lemma loads_isa_witness :
  exists st', complete 1 (memory_req 0) (lh_exec_fast 5000 4000 1 (memory_req 0) (demo_insn 0 0 5 3) demo_iss) = Some st' /\
    get_reg 5000 st' 5 = 0xAABB5757.
Proof.
  destruct (loads_isa 5000 4000 1 (memory_req 0) mem_rd mem_ok mem_ok_part ltac:(lia)
    (lh_exec_fast 5000 4000 1 (memory_req 0)) 2 true (demo_insn 0 0 5 3) demo_iss) as (st' & E & _ & _ & _ & H).
  - by apply (list_elem_of_lookup_2 _ 1).
  - reflexivity.
  - apply demo_access; vm_compute; done.
  - split; vm_compute; done.
  - exists st'. split; [exact E|]. rewrite H by lia. vm_compute. reflexivity.
Defined.

Lemma stores_isa_witness :
  exists st', complete 1 (memory_req 0) (sw_exec_fast 5000 1 (memory_req 0) (demo_insn 0 5 0 2) demo_iss) = Some st' /\
    u8 (mem_rd (bus st') 4) = 0xBB.
Proof.
  destruct (stores_isa 5000 4000 1 (memory_req 0) mem_rd mem_ok mem_ok_part ltac:(lia)
    (sw_exec_fast 5000 1 (memory_req 0)) 4 (demo_insn 0 5 0 2) demo_iss) as (st' & E & _ & _ & H & _).
  - by apply (list_elem_of_lookup_2 _ 2).
  - reflexivity.
  - apply demo_access; vm_compute; done.
  - split; vm_compute; done.
  - exists st'. split; [exact E|]. rewrite H. vm_compute. reflexivity.
Defined.
