(* ===== verification/InsnCache.v ===== *)
(** * The instruction cache (models/cpu/iss/src/insn_cache.cpp)

    The decoded instructions are kept in blocks of 256, chained in a table of lists and never freed; an
    instruction is designated by a pointer into its block.  The theorems of this file justify that the rest of
    the library designates it by its address. *)

From S2P Require Import Prelude.

Definition ISS_INSN_BLOCK_SIZE_LOG2 : Z := 8.
Definition ISS_INSN_BLOCK_SIZE : nat := 256.
Definition ISS_INSN_PC_BITS : Z := 1.
Definition ISS_INSN_NB_BLOCKS : Z := 4096.

(** The functions that an instruction has as handlers: those of the decoder and of exec.hpp, the handler of the
    ends of loops, and the handlers of the tables, by number. *)
Inductive fn :=
  | iss_decode_pc
  | iss_exec_insn_illegal
  | iss_resource_offload
  | iss_exec_stalled_insn
  | iss_exec_stalled_insn_fast
  | iss_exec_insn_with_trace
  | hwloop_check_exec
  | insn_fn (id : nat).

#[export] Instance fn_eq_dec : EqDecision fn.
Proof. solve_decision. Defined.

(** The address of an instruction in memory: its block, by order of allocation, and its place there. *)
Abbreviation ptr := (nat * nat)%type.

(** iss_insn_arg_t, with the fields of the union that its type selects. *)
Inductive iss_insn_arg :=
  | ArgNone
  | ArgReg (out : bool) (flags index : Z)
  | ArgUim (flags value : Z)
  | ArgSim (flags value : Z)
  | ArgIndirectImm (flags reg_index imm : Z)
  | ArgIndirectReg (flags base_reg_index offset_reg_index : Z).

(** iss_insn_t.  out_regs, in_regs, uim and sim are adjacent arrays of 32-bit words, of 3, 3, 4 and 4 elements:
    [s_words] is the 14 words in that order. *)
Record slot := Slot {
  s_addr : Z;
  s_opcode : Z;
  s_fetched : bool;
  s_fast_handler : fn;
  s_handler : fn;
  s_resource_handler : fn;
  s_hwloop_handler : option fn;
  s_stall_handler : fn;
  s_stall_fast_handler : fn;
  s_saved_handler : fn;
  s_size : Z;
  s_nb_out_reg : Z;
  s_nb_in_reg : Z;
  s_words : list Z;
  s_args : list iss_insn_arg;
  s_next : option ptr;
  s_branch : option ptr;
  s_item : nat;
  s_resource_id : Z;
  s_resource_latency : Z;
  s_resource_bandwidth : Z;
  s_input_latency : Z;
  s_input_latency_reg : Z;
  s_latency : Z;
}.
Definition set_s_addr (x : Z) (s : slot) : slot := Slot x (s_opcode s) (s_fetched s) (s_fast_handler s) (s_handler s) (s_resource_handler s) (s_hwloop_handler s) (s_stall_handler s) (s_stall_fast_handler s) (s_saved_handler s) (s_size s) (s_nb_out_reg s) (s_nb_in_reg s) (s_words s) (s_args s) (s_next s) (s_branch s) (s_item s) (s_resource_id s) (s_resource_latency s) (s_resource_bandwidth s) (s_input_latency s) (s_input_latency_reg s) (s_latency s).
Definition set_s_opcode (x : Z) (s : slot) : slot := Slot (s_addr s) x (s_fetched s) (s_fast_handler s) (s_handler s) (s_resource_handler s) (s_hwloop_handler s) (s_stall_handler s) (s_stall_fast_handler s) (s_saved_handler s) (s_size s) (s_nb_out_reg s) (s_nb_in_reg s) (s_words s) (s_args s) (s_next s) (s_branch s) (s_item s) (s_resource_id s) (s_resource_latency s) (s_resource_bandwidth s) (s_input_latency s) (s_input_latency_reg s) (s_latency s).
Definition set_s_fetched (x : bool) (s : slot) : slot := Slot (s_addr s) (s_opcode s) x (s_fast_handler s) (s_handler s) (s_resource_handler s) (s_hwloop_handler s) (s_stall_handler s) (s_stall_fast_handler s) (s_saved_handler s) (s_size s) (s_nb_out_reg s) (s_nb_in_reg s) (s_words s) (s_args s) (s_next s) (s_branch s) (s_item s) (s_resource_id s) (s_resource_latency s) (s_resource_bandwidth s) (s_input_latency s) (s_input_latency_reg s) (s_latency s).
Definition set_s_fast_handler (x : fn) (s : slot) : slot := Slot (s_addr s) (s_opcode s) (s_fetched s) x (s_handler s) (s_resource_handler s) (s_hwloop_handler s) (s_stall_handler s) (s_stall_fast_handler s) (s_saved_handler s) (s_size s) (s_nb_out_reg s) (s_nb_in_reg s) (s_words s) (s_args s) (s_next s) (s_branch s) (s_item s) (s_resource_id s) (s_resource_latency s) (s_resource_bandwidth s) (s_input_latency s) (s_input_latency_reg s) (s_latency s).
Definition set_s_handler (x : fn) (s : slot) : slot := Slot (s_addr s) (s_opcode s) (s_fetched s) (s_fast_handler s) x (s_resource_handler s) (s_hwloop_handler s) (s_stall_handler s) (s_stall_fast_handler s) (s_saved_handler s) (s_size s) (s_nb_out_reg s) (s_nb_in_reg s) (s_words s) (s_args s) (s_next s) (s_branch s) (s_item s) (s_resource_id s) (s_resource_latency s) (s_resource_bandwidth s) (s_input_latency s) (s_input_latency_reg s) (s_latency s).
Definition set_s_resource_handler (x : fn) (s : slot) : slot := Slot (s_addr s) (s_opcode s) (s_fetched s) (s_fast_handler s) (s_handler s) x (s_hwloop_handler s) (s_stall_handler s) (s_stall_fast_handler s) (s_saved_handler s) (s_size s) (s_nb_out_reg s) (s_nb_in_reg s) (s_words s) (s_args s) (s_next s) (s_branch s) (s_item s) (s_resource_id s) (s_resource_latency s) (s_resource_bandwidth s) (s_input_latency s) (s_input_latency_reg s) (s_latency s).
Definition set_s_hwloop_handler (x : option fn) (s : slot) : slot := Slot (s_addr s) (s_opcode s) (s_fetched s) (s_fast_handler s) (s_handler s) (s_resource_handler s) x (s_stall_handler s) (s_stall_fast_handler s) (s_saved_handler s) (s_size s) (s_nb_out_reg s) (s_nb_in_reg s) (s_words s) (s_args s) (s_next s) (s_branch s) (s_item s) (s_resource_id s) (s_resource_latency s) (s_resource_bandwidth s) (s_input_latency s) (s_input_latency_reg s) (s_latency s).
Definition set_s_stall_handler (x : fn) (s : slot) : slot := Slot (s_addr s) (s_opcode s) (s_fetched s) (s_fast_handler s) (s_handler s) (s_resource_handler s) (s_hwloop_handler s) x (s_stall_fast_handler s) (s_saved_handler s) (s_size s) (s_nb_out_reg s) (s_nb_in_reg s) (s_words s) (s_args s) (s_next s) (s_branch s) (s_item s) (s_resource_id s) (s_resource_latency s) (s_resource_bandwidth s) (s_input_latency s) (s_input_latency_reg s) (s_latency s).
Definition set_s_stall_fast_handler (x : fn) (s : slot) : slot := Slot (s_addr s) (s_opcode s) (s_fetched s) (s_fast_handler s) (s_handler s) (s_resource_handler s) (s_hwloop_handler s) (s_stall_handler s) x (s_saved_handler s) (s_size s) (s_nb_out_reg s) (s_nb_in_reg s) (s_words s) (s_args s) (s_next s) (s_branch s) (s_item s) (s_resource_id s) (s_resource_latency s) (s_resource_bandwidth s) (s_input_latency s) (s_input_latency_reg s) (s_latency s).
Definition set_s_saved_handler (x : fn) (s : slot) : slot := Slot (s_addr s) (s_opcode s) (s_fetched s) (s_fast_handler s) (s_handler s) (s_resource_handler s) (s_hwloop_handler s) (s_stall_handler s) (s_stall_fast_handler s) x (s_size s) (s_nb_out_reg s) (s_nb_in_reg s) (s_words s) (s_args s) (s_next s) (s_branch s) (s_item s) (s_resource_id s) (s_resource_latency s) (s_resource_bandwidth s) (s_input_latency s) (s_input_latency_reg s) (s_latency s).
Definition set_s_size (x : Z) (s : slot) : slot := Slot (s_addr s) (s_opcode s) (s_fetched s) (s_fast_handler s) (s_handler s) (s_resource_handler s) (s_hwloop_handler s) (s_stall_handler s) (s_stall_fast_handler s) (s_saved_handler s) x (s_nb_out_reg s) (s_nb_in_reg s) (s_words s) (s_args s) (s_next s) (s_branch s) (s_item s) (s_resource_id s) (s_resource_latency s) (s_resource_bandwidth s) (s_input_latency s) (s_input_latency_reg s) (s_latency s).
Definition set_s_nb_out_reg (x : Z) (s : slot) : slot := Slot (s_addr s) (s_opcode s) (s_fetched s) (s_fast_handler s) (s_handler s) (s_resource_handler s) (s_hwloop_handler s) (s_stall_handler s) (s_stall_fast_handler s) (s_saved_handler s) (s_size s) x (s_nb_in_reg s) (s_words s) (s_args s) (s_next s) (s_branch s) (s_item s) (s_resource_id s) (s_resource_latency s) (s_resource_bandwidth s) (s_input_latency s) (s_input_latency_reg s) (s_latency s).
Definition set_s_nb_in_reg (x : Z) (s : slot) : slot := Slot (s_addr s) (s_opcode s) (s_fetched s) (s_fast_handler s) (s_handler s) (s_resource_handler s) (s_hwloop_handler s) (s_stall_handler s) (s_stall_fast_handler s) (s_saved_handler s) (s_size s) (s_nb_out_reg s) x (s_words s) (s_args s) (s_next s) (s_branch s) (s_item s) (s_resource_id s) (s_resource_latency s) (s_resource_bandwidth s) (s_input_latency s) (s_input_latency_reg s) (s_latency s).
Definition set_s_words (x : list Z) (s : slot) : slot := Slot (s_addr s) (s_opcode s) (s_fetched s) (s_fast_handler s) (s_handler s) (s_resource_handler s) (s_hwloop_handler s) (s_stall_handler s) (s_stall_fast_handler s) (s_saved_handler s) (s_size s) (s_nb_out_reg s) (s_nb_in_reg s) x (s_args s) (s_next s) (s_branch s) (s_item s) (s_resource_id s) (s_resource_latency s) (s_resource_bandwidth s) (s_input_latency s) (s_input_latency_reg s) (s_latency s).
Definition set_s_args (x : list iss_insn_arg) (s : slot) : slot := Slot (s_addr s) (s_opcode s) (s_fetched s) (s_fast_handler s) (s_handler s) (s_resource_handler s) (s_hwloop_handler s) (s_stall_handler s) (s_stall_fast_handler s) (s_saved_handler s) (s_size s) (s_nb_out_reg s) (s_nb_in_reg s) (s_words s) x (s_next s) (s_branch s) (s_item s) (s_resource_id s) (s_resource_latency s) (s_resource_bandwidth s) (s_input_latency s) (s_input_latency_reg s) (s_latency s).
Definition set_s_next (x : option ptr) (s : slot) : slot := Slot (s_addr s) (s_opcode s) (s_fetched s) (s_fast_handler s) (s_handler s) (s_resource_handler s) (s_hwloop_handler s) (s_stall_handler s) (s_stall_fast_handler s) (s_saved_handler s) (s_size s) (s_nb_out_reg s) (s_nb_in_reg s) (s_words s) (s_args s) x (s_branch s) (s_item s) (s_resource_id s) (s_resource_latency s) (s_resource_bandwidth s) (s_input_latency s) (s_input_latency_reg s) (s_latency s).
Definition set_s_branch (x : option ptr) (s : slot) : slot := Slot (s_addr s) (s_opcode s) (s_fetched s) (s_fast_handler s) (s_handler s) (s_resource_handler s) (s_hwloop_handler s) (s_stall_handler s) (s_stall_fast_handler s) (s_saved_handler s) (s_size s) (s_nb_out_reg s) (s_nb_in_reg s) (s_words s) (s_args s) (s_next s) x (s_item s) (s_resource_id s) (s_resource_latency s) (s_resource_bandwidth s) (s_input_latency s) (s_input_latency_reg s) (s_latency s).
Definition set_s_item (x : nat) (s : slot) : slot := Slot (s_addr s) (s_opcode s) (s_fetched s) (s_fast_handler s) (s_handler s) (s_resource_handler s) (s_hwloop_handler s) (s_stall_handler s) (s_stall_fast_handler s) (s_saved_handler s) (s_size s) (s_nb_out_reg s) (s_nb_in_reg s) (s_words s) (s_args s) (s_next s) (s_branch s) x (s_resource_id s) (s_resource_latency s) (s_resource_bandwidth s) (s_input_latency s) (s_input_latency_reg s) (s_latency s).
Definition set_s_resource_id (x : Z) (s : slot) : slot := Slot (s_addr s) (s_opcode s) (s_fetched s) (s_fast_handler s) (s_handler s) (s_resource_handler s) (s_hwloop_handler s) (s_stall_handler s) (s_stall_fast_handler s) (s_saved_handler s) (s_size s) (s_nb_out_reg s) (s_nb_in_reg s) (s_words s) (s_args s) (s_next s) (s_branch s) (s_item s) x (s_resource_latency s) (s_resource_bandwidth s) (s_input_latency s) (s_input_latency_reg s) (s_latency s).
Definition set_s_resource_latency (x : Z) (s : slot) : slot := Slot (s_addr s) (s_opcode s) (s_fetched s) (s_fast_handler s) (s_handler s) (s_resource_handler s) (s_hwloop_handler s) (s_stall_handler s) (s_stall_fast_handler s) (s_saved_handler s) (s_size s) (s_nb_out_reg s) (s_nb_in_reg s) (s_words s) (s_args s) (s_next s) (s_branch s) (s_item s) (s_resource_id s) x (s_resource_bandwidth s) (s_input_latency s) (s_input_latency_reg s) (s_latency s).
Definition set_s_resource_bandwidth (x : Z) (s : slot) : slot := Slot (s_addr s) (s_opcode s) (s_fetched s) (s_fast_handler s) (s_handler s) (s_resource_handler s) (s_hwloop_handler s) (s_stall_handler s) (s_stall_fast_handler s) (s_saved_handler s) (s_size s) (s_nb_out_reg s) (s_nb_in_reg s) (s_words s) (s_args s) (s_next s) (s_branch s) (s_item s) (s_resource_id s) (s_resource_latency s) x (s_input_latency s) (s_input_latency_reg s) (s_latency s).
Definition set_s_input_latency (x : Z) (s : slot) : slot := Slot (s_addr s) (s_opcode s) (s_fetched s) (s_fast_handler s) (s_handler s) (s_resource_handler s) (s_hwloop_handler s) (s_stall_handler s) (s_stall_fast_handler s) (s_saved_handler s) (s_size s) (s_nb_out_reg s) (s_nb_in_reg s) (s_words s) (s_args s) (s_next s) (s_branch s) (s_item s) (s_resource_id s) (s_resource_latency s) (s_resource_bandwidth s) x (s_input_latency_reg s) (s_latency s).
Definition set_s_input_latency_reg (x : Z) (s : slot) : slot := Slot (s_addr s) (s_opcode s) (s_fetched s) (s_fast_handler s) (s_handler s) (s_resource_handler s) (s_hwloop_handler s) (s_stall_handler s) (s_stall_fast_handler s) (s_saved_handler s) (s_size s) (s_nb_out_reg s) (s_nb_in_reg s) (s_words s) (s_args s) (s_next s) (s_branch s) (s_item s) (s_resource_id s) (s_resource_latency s) (s_resource_bandwidth s) (s_input_latency s) x (s_latency s).
Definition set_s_latency (x : Z) (s : slot) : slot := Slot (s_addr s) (s_opcode s) (s_fetched s) (s_fast_handler s) (s_handler s) (s_resource_handler s) (s_hwloop_handler s) (s_stall_handler s) (s_stall_fast_handler s) (s_saved_handler s) (s_size s) (s_nb_out_reg s) (s_nb_in_reg s) (s_words s) (s_args s) (s_next s) (s_branch s) (s_item s) (s_resource_id s) (s_resource_latency s) (s_resource_bandwidth s) (s_input_latency s) (s_input_latency_reg s) x.

(** iss_insn_block_t, without its next pointer. *)
Record block := Block {
  b_pc : Z;
  b_is_init : bool;
  b_insns : list slot;
}.

(** iss_insn_cache_t: the blocks allocated so far, and the lists of the table as the chains of their next
    pointers. *)
Record icache := ICache {
  blocks : list block;
  chains : gmap Z (list nat);
}.

Definition get_insn (c : icache) (p : ptr) : option slot :=
  let* b := blocks c !! p.1 in b_insns b !! p.2.
Definition upd_block (f : block -> block) (b : nat) (c : icache) : icache :=
  ICache (alter f b (blocks c)) (chains c).
Definition upd_insn (f : slot -> slot) (p : ptr) (c : icache) : icache :=
  upd_block (fun b => Block (b_pc b) (b_is_init b) (alter f p.2 (b_insns b))) p.1 c.
Definition chain (c : icache) (k : Z) : list nat := default [] (chains c !! k).

Definition insn_init (addr : Z) (insn : slot) : slot :=
  set_s_input_latency_reg (-1) (set_s_fetched false (set_s_hwloop_handler None (set_s_next None
    (set_s_addr addr (set_s_fast_handler iss_decode_pc (set_s_handler iss_decode_pc insn)))))).

Definition insn_block_init (pc : Z) (b : block) : block :=
  Block (b_pc b) true (imap (fun i insn => insn_init (u32 (pc + Z.shiftl (Z.of_nat i) ISS_INSN_PC_BITS)) insn) (b_insns b)).

Definition set_b_pc (pc : Z) (b : block) : block := Block pc (b_is_init b) (b_insns b).

Definition insn_cache_init : icache := ICache [] ∅.

Section Cache.
(** The contents of memory returned by malloc. *)
Context (junk : slot).

Definition pc_base (pc : Z) : Z :=
  Z.land pc (u32 (Z.lnot (Z.shiftl 1 (ISS_INSN_BLOCK_SIZE_LOG2 + ISS_INSN_PC_BITS) - 1))).
Definition insn_id (pc : Z) : nat :=
  Z.to_nat (Z.land (Z.shiftr pc ISS_INSN_PC_BITS) (Z.of_nat ISS_INSN_BLOCK_SIZE - 1)).
Definition block_id (base : Z) : Z := Z.land base (ISS_INSN_NB_BLOCKS - 1).

(** The walk of a list: the block found, or the last one that is free. *)
Fixpoint find_block (c : icache) (base : Z) (l : list nat) (first_free : option nat) : nat + option nat :=
  match l with
  | [] => inr first_free
  | b :: l =>
    match blocks c !! b with
    | Some blk =>
      if b_is_init blk then
        if b_pc blk =? base then inl b else find_block c base l first_free
      else find_block c base l (Some b)
    | None => find_block c base l first_free
    end
  end.

Definition insn_cache_get (pc : Z) (c : icache) : ptr * icache :=
  let base := pc_base pc in
  let bid := block_id base in
  match find_block c base (chain c bid) None with
  | inl b => ((b, insn_id pc), c)
  | inr first_free =>
    let '(b, c) :=
      match first_free with
      | Some b => (b, c)
      | None =>
        let b := length (blocks c) in
        (b, ICache (blocks c ++ [Block 0 false (repeat junk ISS_INSN_BLOCK_SIZE)]) (<[bid := b :: chain c bid]> (chains c)))
      end in
    ((b, insn_id pc), upd_block (fun blk => insn_block_init base (set_b_pc base blk)) b c)
  end.

(** The loop of flush_cache. *)
Definition flush_blocks (c : icache) : icache :=
  foldl (fun c b => upd_block (fun blk => insn_block_init (b_pc blk) blk) b c) c
    (concat (map (chain c) (seqZ 0 ISS_INSN_NB_BLOCKS))).

End Cache.

(** ** The pointers of the cache *)

Lemma pc_base_spec pc : 0 <= pc < 2 ^ 32 -> pc_base pc = pc - pc mod 512.
Proof. apply (land_clear 9); lia. Qed.

Lemma insn_id_spec pc : Z.of_nat (insn_id pc) = (pc / 2) mod 256.
Proof.
  unfold insn_id. rewrite Z.shiftr_div_pow2 by (unfold ISS_INSN_PC_BITS; lia).
  change (Z.of_nat ISS_INSN_BLOCK_SIZE - 1) with (Z.ones 8). rewrite Z.land_ones by lia.
  change (2 ^ ISS_INSN_PC_BITS) with 2. change (2 ^ 8) with 256.
  pose proof (Z.mod_pos_bound (pc / 2) 256 ltac:(lia)). lia.
Qed.

(** The address of the block and the place in it are the address without its low bit. *)
Lemma base_id pc : 0 <= pc < 2 ^ 32 -> pc_base pc + 2 * Z.of_nat (insn_id pc) = 2 * (pc / 2).
Proof. intros H. rewrite pc_base_spec, insn_id_spec by done. Z.div_mod_to_equations. lia. Qed.

Lemma pc_base_range pc : 0 <= pc < 2 ^ 32 -> 0 <= pc_base pc < 2 ^ 32 /\ pc_base (pc_base pc) = pc_base pc.
Proof.
  intros H. rewrite (pc_base_spec pc) by done. 
  assert (0 <= pc - pc mod 512 < 2 ^ 32) by (Z.div_mod_to_equations; lia). split; [done|].
  rewrite pc_base_spec by done. Z.div_mod_to_equations. lia.
Qed.

(** The blocks in use, each in the list of its address, with one block for an address, and their instructions. *)
Record block_ok (blk : block) : Prop := {
  bo_init : b_is_init blk = true;
  bo_base : 0 <= b_pc blk < 2 ^ 32 /\ pc_base (b_pc blk) = b_pc blk;
  bo_len : length (b_insns blk) = ISS_INSN_BLOCK_SIZE;
  bo_addr i s : b_insns blk !! i = Some s -> s_addr s = b_pc blk + 2 * Z.of_nat i;
}.
Record cache_inv (c : icache) : Prop := {
  ci_block b blk : blocks c !! b = Some blk -> block_ok blk /\ b ∈ chain c (block_id (b_pc blk));
  ci_chain k b : b ∈ chain c k -> is_Some (blocks c !! b);
  ci_inj b1 b2 blk1 blk2 : blocks c !! b1 = Some blk1 -> blocks c !! b2 = Some blk2 -> b_pc blk1 = b_pc blk2 -> b1 = b2;
}.

(** The pointer that the cache has for an address. *)
Definition points (c : icache) (p : ptr) (pc : Z) : Prop :=
  p.2 = insn_id pc /\ exists blk, blocks c !! p.1 = Some blk /\ b_pc blk = pc_base pc.

Lemma insn_id_lt pc : (insn_id pc < 256)%nat.
Proof. pose proof (insn_id_spec pc). pose proof (Z.mod_pos_bound (pc / 2) 256 ltac:(lia)). lia. Qed.

(** A pointer for two addresses: they are the same but for the low bit. *)
Lemma points_inj c p pc pc' : 0 <= pc < 2 ^ 32 -> 0 <= pc' < 2 ^ 32 ->
  points c p pc -> points c p pc' -> pc / 2 = pc' / 2.
Proof.
  intros H H' [Hi (blk & Hb & Ep)] [Hi' (blk' & Hb' & Ep')].
  pose proof (base_id pc H). pose proof (base_id pc' H'). assert (blk' = blk) by congruence. subst. lia.
Qed.

Lemma same_half pc pc' : 0 <= pc < 2 ^ 32 -> 0 <= pc' < 2 ^ 32 -> pc / 2 = pc' / 2 ->
  pc_base pc = pc_base pc' /\ insn_id pc = insn_id pc'.
Proof.
  intros H H' E. rewrite !pc_base_spec by done. pose proof (insn_id_spec pc). pose proof (insn_id_spec pc').
  rewrite E in *. split; [|lia]. Z.div_mod_to_equations. lia.
Qed.

Lemma points_fun c p q pc pc' : cache_inv c -> 0 <= pc < 2 ^ 32 -> 0 <= pc' < 2 ^ 32 -> pc / 2 = pc' / 2 ->
  points c p pc -> points c q pc' -> p = q.
Proof.
  intros I H H' E [Hi (blk & Hb & Ep)] [Hi' (blk' & Hb' & Ep')]. destruct (same_half pc pc' H H' E) as [E1 E2].
  destruct p, q. simpl in *. f_equal; [|congruence]. apply (ci_inj c I _ _ blk blk'); congruence.
Qed.

Lemma find_block_spec c base l first :
  (forall b, b ∈ l -> exists blk, blocks c !! b = Some blk /\ b_is_init blk = true) ->
  match find_block c base l first with
  | inl b => exists blk, b ∈ l /\ blocks c !! b = Some blk /\ b_pc blk = base
  | inr f => f = first /\ forall b blk, b ∈ l -> blocks c !! b = Some blk -> b_pc blk <> base
  end.
Proof.
  intros H. induction l as [|b l IH]; simpl.
  - split; [done|]. intros b blk Hb. by apply not_elem_of_nil in Hb.
  - destruct (H b ltac:(left)) as (blk & Hb & Ei). rewrite Hb, Ei.
    destruct (Z.eqb_spec (b_pc blk) base) as [E|E]; [exists blk; split; [left|done]|].
    assert (H' : forall b, b ∈ l -> exists blk, blocks c !! b = Some blk /\ b_is_init blk = true)
      by (intros; apply H; by right).
    specialize (IH H'). destruct (find_block c base l first) as [b'|f].
    + destruct IH as (blk' & ? & ?). exists blk'. split; [by right|done].
    + destruct IH as [-> IH]. split; [done|]. intros b' blk' Hb' E'. apply elem_of_cons in Hb' as [->|?]; [congruence|eauto].
Qed.

Section Get.
Context (junk : slot).
#[local] Notation insn_cache_get := (insn_cache_get junk).

(** A get either finds the instruction or allocates one block. *)
Definition fresh_block (base : Z) : block :=
  insn_block_init base (set_b_pc base (Block 0 false (repeat junk ISS_INSN_BLOCK_SIZE))).
Definition alloc (base : Z) (c : icache) : icache :=
  ICache (blocks c ++ [fresh_block base]) (<[block_id base := length (blocks c) :: chain c (block_id base)]> (chains c)).

Lemma get_cases pc c : cache_inv c ->
  let '(p, c') := insn_cache_get pc c in
  (c' = c /\ points c p pc) \/
  (c' = alloc (pc_base pc) c /\ p = (length (blocks c), insn_id pc) /\
   forall b blk, blocks c !! b = Some blk -> b_pc blk <> pc_base pc).
Proof.
  intros I. unfold insn_cache_get.
  pose proof (find_block_spec c (pc_base pc) (chain c (block_id (pc_base pc))) None) as F.
  specialize (F ltac:(intros b Hb; destruct (ci_chain c I _ _ Hb) as [blk E]; exists blk;
    split; [done|apply (ci_block c I _ _ E)])).
  destruct (find_block _ _ _ _) as [b|f].
  - left. destruct F as (blk & Hin & Hb & E). split; [done|]. split; [done|]. by exists blk.
  - destruct F as [-> F]. right. split; [|split; [done|]].
    + unfold alloc, upd_block. simpl. f_equal.
      rewrite alter_app_r_alt, Nat.sub_diag by done. done.
    + intros b blk Hb E. destruct (ci_block c I _ _ Hb) as [_ Hin]. rewrite E in Hin. by apply (F b blk).
Qed.

Lemma block_init_ok blk : 0 <= b_pc blk < 2 ^ 32 -> pc_base (b_pc blk) = b_pc blk ->
  length (b_insns blk) = ISS_INSN_BLOCK_SIZE -> block_ok (insn_block_init (b_pc blk) blk).
Proof.
  intros H E L. split; [done|done|by apply (eq_trans (length_imap _ _))|].
  intros i s Hs. unfold insn_block_init in *. cbn [b_insns b_pc] in *. rewrite list_lookup_imap in Hs.
  destruct (b_insns blk !! i) as [x|] eqn:Ex; [|done]. apply lookup_lt_Some in Ex. rewrite L in Ex.
  unfold ISS_INSN_BLOCK_SIZE in Ex. cbn in Hs. injection Hs as <-. cbn.
  rewrite Z.shiftl_mul_pow2 by (unfold ISS_INSN_PC_BITS; lia). change (2 ^ ISS_INSN_PC_BITS) with 2.
  rewrite pc_base_spec in E by done. rewrite uw_small; [lia|]. Z.div_mod_to_equations. lia.
Qed.

Lemma fresh_block_ok base : 0 <= base < 2 ^ 32 -> pc_base base = base -> block_ok (fresh_block base).
Proof. intros H E. by apply (block_init_ok (set_b_pc base (Block 0 false (repeat junk ISS_INSN_BLOCK_SIZE)))). Qed.

Lemma alloc_inv base c : cache_inv c -> 0 <= base < 2 ^ 32 -> pc_base base = base ->
  (forall b blk, blocks c !! b = Some blk -> b_pc blk <> base) -> cache_inv (alloc base c).
Proof.
  intros I H E N. set (n := length (blocks c)).
  assert (L : forall b blk, blocks (alloc base c) !! b = Some blk ->
    (blocks c !! b = Some blk) \/ (b = n /\ blk = fresh_block base)).
  { intros b blk Hb. apply lookup_app_Some in Hb as [?|[? Hb]]; [by left|]. right.
    apply list_lookup_singleton_Some in Hb as [? ->]. split; [|done]. unfold n. lia. }
  assert (C : forall k b, b ∈ chain (alloc base c) k <-> (k = block_id base /\ b = n) \/ b ∈ chain c k).
  { intros k b. unfold chain at 1. simpl. destruct (decide (k = block_id base)) as [->|D].
    - rewrite lookup_insert. rewrite decide_True by done. simpl. rewrite elem_of_cons. fold n. naive_solver.
    - rewrite lookup_insert_ne by done. unfold chain. naive_solver. }
  split.
  - intros b blk Hb. rewrite C. destruct (L _ _ Hb) as [Hb'|[-> ->]].
    + destruct (ci_block c I _ _ Hb'). split; [done|by right].
    + split; [by apply fresh_block_ok|by left].
  - intros k b Hb. apply C in Hb as [[_ ->]|Hb].
    + exists (fresh_block base). simpl. by rewrite lookup_app_r, Nat.sub_diag by done.
    + destruct (ci_chain c I _ _ Hb) as [blk Hb']. exists blk. by apply lookup_app_l_Some.
  - intros b1 b2 blk1 blk2 H1 H2 E12. destruct (L _ _ H1) as [H1'|[-> ->]], (L _ _ H2) as [H2'|[-> ->]].
    + by apply (ci_inj c I _ _ blk1 blk2).
    + exfalso. by apply (N _ _ H1').
    + exfalso. by apply (N _ _ H2').
    + done.
Qed.

Lemma alloc_keeps base c p s : get_insn c p = Some s -> get_insn (alloc base c) p = Some s.
Proof.
  unfold get_insn, alloc. simpl. destruct (blocks c !! p.1) as [b|] eqn:E; [|done].
  by rewrite (lookup_app_l_Some _ _ _ _ E).
Qed.

Lemma points_valid c p pc : cache_inv c -> 0 <= pc < 2 ^ 32 -> points c p pc ->
  exists s, get_insn c p = Some s /\ s_addr s = 2 * (pc / 2).
Proof.
  intros I H [Hi (blk & Hb & E)]. destruct (ci_block c I _ _ Hb) as [O _].
  destruct (lookup_lt_is_Some_2 (b_insns blk) p.2) as [s Hs].
  { rewrite (bo_len _ O), Hi. apply insn_id_lt. }
  exists s. unfold get_insn. rewrite Hb. split; [done|]. rewrite (bo_addr _ O _ _ Hs), E, Hi. by apply base_id.
Qed.

Lemma get_points pc c : cache_inv c -> 0 <= pc < 2 ^ 32 ->
  let '(p, c') := insn_cache_get pc c in
  cache_inv c' /\ points c' p pc /\ (forall q s, get_insn c q = Some s -> get_insn c' q = Some s).
Proof.
  intros I H. pose proof (get_cases pc c I) as G. destruct (insn_cache_get pc c) as [p c'].
  destruct G as [[-> P]|(-> & -> & N)]; [done|]. destruct (pc_base_range pc H). split; [by apply alloc_inv|].
  split; [|intros; by apply alloc_keeps]. split; [done|]. exists (fresh_block (pc_base pc)).
  simpl. by rewrite lookup_app_r, Nat.sub_diag by done.
Qed.

(** A get of an instruction already there changes nothing. *)
Lemma get_hit pc c p : cache_inv c -> 0 <= pc < 2 ^ 32 -> points c p pc -> insn_cache_get pc c = (p, c).
Proof.
  intros I H P. pose proof (get_cases pc c I) as G. destruct (insn_cache_get pc c) as [q c'].
  destruct G as [[-> P']|(-> & -> & N)].
  - f_equal. by apply (points_fun c q p pc pc).
  - destruct P as [_ (blk & Hb & E)]. by destruct (N _ _ Hb).
Qed.

(** C17: insn_cache_get returns an instruction whose address is the one asked for without its low bit, leaves
    every instruction already in the cache where it was, unchanged, and from then on returns the same pointer for
    that address and no other: an instruction of the cache is designated by its address. *)
Theorem insn_cache_designates pc c p c' : cache_inv c -> 0 <= pc < 2 ^ 32 -> insn_cache_get pc c = (p, c') ->
  cache_inv c' /\ (exists s, get_insn c' p = Some s /\ s_addr s = 2 * (pc / 2)) /\
  (forall q s, get_insn c q = Some s -> get_insn c' q = Some s) /\
  (forall pc', 0 <= pc' < 2 ^ 32 -> (insn_cache_get pc' c').1 = p <-> pc' / 2 = pc / 2).
Proof.
  intros I H E. pose proof (get_points pc c I H) as G. rewrite E in G. destruct G as (I' & P & K).
  split; [done|]. split; [by apply points_valid|]. split; [done|]. intros pc' H'.
  pose proof (get_points pc' c' I' H') as G. destruct (insn_cache_get pc' c') as [q c2] eqn:E2. simpl.
  destruct G as (I2 & P2 & K2). split.
  - intros ->. destruct P as [Hi (blk & Hb & Eb)], P2 as [Hi2 (blk2 & Hb2 & Eb2)].
    destruct (points_valid c' p pc I' H (conj Hi (ex_intro _ blk (conj Hb Eb)))) as (s & Hs & As).
    destruct (points_valid c2 p pc' I2 H' (conj Hi2 (ex_intro _ blk2 (conj Hb2 Eb2)))) as (s2 & Hs2 & As2).
    rewrite (K2 _ _ Hs) in Hs2. injection Hs2 as <-. lia.
  - intros Eh. assert (P' : points c' p pc').
    { destruct P as [Hi Hb], (same_half pc pc' H H' (eq_sym Eh)) as [E3 E4]. unfold points. by rewrite <- E3, <- E4. }
    rewrite (get_hit pc' c' p I' H' P') in E2. congruence.
Qed.

End Get.

(** ** Updates of an instruction, and the flush *)

Lemma get_upd_insn f p q c :
  get_insn (upd_insn f p c) q = if decide (q = p) then f <$> get_insn c p else get_insn c q.
Proof.
  unfold get_insn, upd_insn, upd_block. simpl. destruct p as [b i], q as [b' i']. simpl.
  destruct (decide (b' = b)) as [->|Nb].
  - rewrite list_lookup_alter_eq. destruct (blocks c !! b) as [blk|]; simpl.
    + destruct (decide (i' = i)) as [->|Ni].
      * by rewrite list_lookup_alter_eq, decide_True.
      * rewrite list_lookup_alter_ne by done. by rewrite decide_False by congruence.
    + by destruct (decide _).
  - rewrite list_lookup_alter_ne by done. by rewrite decide_False by congruence.
Qed.

Lemma upd_block_inv (f : block -> block) c b : cache_inv c -> (forall blk, b_pc (f blk) = b_pc blk) ->
  (forall blk, blocks c !! b = Some blk -> block_ok blk -> block_ok (f blk)) -> cache_inv (upd_block f b c).
Proof.
  intros I Hp Hok.
  assert (L : forall b' blk', blocks (upd_block f b c) !! b' = Some blk' ->
    exists blk, blocks c !! b' = Some blk /\ b_pc blk' = b_pc blk /\ (block_ok blk -> block_ok blk')).
  { intros b' blk' H. unfold upd_block in H. simpl in H. destruct (decide (b' = b)) as [->|N].
    - rewrite list_lookup_alter_eq in H. destruct (blocks c !! b) as [blk|] eqn:E; [|done]. simpl in H.
      injection H as <-. exists blk. auto.
    - rewrite list_lookup_alter_ne in H by done. eauto. }
  split.
  - intros b' blk' H. destruct (L _ _ H) as (blk & H' & -> & Ok). destruct (ci_block c I _ _ H'). auto.
  - intros k b' H. apply (ci_chain c I) in H. apply lookup_lt_is_Some. unfold upd_block. simpl.
    rewrite length_alter. by apply lookup_lt_is_Some.
  - intros b1 b2 blk1 blk2 H1 H2 E. destruct (L _ _ H1) as (x & H1' & E1 & _), (L _ _ H2) as (y & H2' & E2 & _).
    apply (ci_inj c I _ _ x y); congruence.
Qed.

Lemma upd_insn_inv f p c : cache_inv c -> (forall s, s_addr (f s) = s_addr s) -> cache_inv (upd_insn f p c).
Proof.
  intros I H. apply upd_block_inv; [done|done|]. intros blk Hb [Hi Hbase Hl Ha]. split; simpl; [done|done| |].
  - by rewrite length_alter.
  - intros i s Hs. destruct (decide (i = p.2)) as [->|N].
    + rewrite list_lookup_alter_eq in Hs. destruct (b_insns blk !! p.2) as [x|] eqn:E; [|done]. simpl in Hs.
      injection Hs as <-. rewrite H. eauto.
    + rewrite list_lookup_alter_ne in Hs by done. eauto.
Qed.

Lemma points_upd_insn f p c q pc : points (upd_insn f p c) q pc <-> points c q pc.
Proof.
  unfold points, upd_insn, upd_block. simpl. destruct (decide (q.1 = p.1)) as [E|N].
  - rewrite E, list_lookup_alter_eq. destruct (blocks c !! p.1) as [blk|]; [|naive_solver]. simpl.
    split; intros [? (blk' & Hb & ?)]; (split; [done|]); injection Hb as <-; eexists; split; done.
  - by rewrite list_lookup_alter_ne by done.
Qed.

(** The instruction as after a flush. *)
Definition flushed (s : slot) : slot := insn_init (s_addr s) s.

Lemma insn_block_init_flushed blk : block_ok blk ->
  insn_block_init (b_pc blk) blk = Block (b_pc blk) true (flushed <$> b_insns blk).
Proof.
  intros [Hi [Hb Eb] Hl Ha]. unfold insn_block_init. f_equal. apply list_eq. intros i.
  rewrite list_lookup_imap, list_lookup_fmap. destruct (b_insns blk !! i) as [s|] eqn:E; [|done]. simpl. f_equal.
  unfold flushed. f_equal. rewrite (Ha _ _ E). apply lookup_lt_Some in E. rewrite Hl in E. unfold ISS_INSN_BLOCK_SIZE in E.
  rewrite Z.shiftl_mul_pow2 by (unfold ISS_INSN_PC_BITS; lia). change (2 ^ ISS_INSN_PC_BITS) with 2.
  rewrite pc_base_spec in Eb by done. rewrite uw_small; [lia|]. Z.div_mod_to_equations. lia.
Qed.

Lemma flushed_flushed s : flushed (flushed s) = flushed s.
Proof. destruct s. vm_compute. reflexivity. Qed.

(** The walk over a list of blocks. *)
Definition flush_step (c : icache) (b : nat) : icache :=
  upd_block (fun blk => insn_block_init (b_pc blk) blk) b c.

Lemma flush_step_inv c b : cache_inv c -> cache_inv (flush_step c b).
Proof.
  intros I. apply upd_block_inv; [done|done|]. intros blk Hb Ok. destruct Ok. by apply block_init_ok; [apply bo_base0..|].
Qed.

Lemma flush_step_get c b p : cache_inv c ->
  get_insn (flush_step c b) p = (if decide (p.1 = b) then flushed <$> get_insn c p else get_insn c p).
Proof.
  intros I. unfold get_insn, flush_step, upd_block. simpl. destruct (decide (p.1 = b)) as [<-|N].
  - rewrite list_lookup_alter_eq. destruct (blocks c !! p.1) as [blk|] eqn:E; [|done].
    cbn [fmap option_fmap option_map]. rewrite insn_block_init_flushed by apply (ci_block c I _ _ E). simpl.
    by rewrite list_lookup_fmap.
  - by rewrite list_lookup_alter_ne by done.
Qed.

Lemma flush_steps l c p : cache_inv c -> let c' := foldl flush_step c l in
  cache_inv c' /\ chains c' = chains c /\
  get_insn c' p = (if decide (p.1 ∈ l) then flushed <$> get_insn c p else get_insn c p).
Proof.
  revert c. induction l as [|b l IH]; intros c I; simpl.
  - split; [done|]. done.
  - destruct (IH (flush_step c b) (flush_step_inv c b I)) as (I' & E & G). split; [done|]. split; [done|].
    rewrite G, flush_step_get by done. destruct (decide (p.1 ∈ l)) as [H|H], (decide (p.1 = b)) as [H'|H'].
    + rewrite decide_True by (by right). destruct (get_insn c p) as [s|]; [|done].
      cbn. by rewrite flushed_flushed.
    + by rewrite decide_True by (by right).
    + rewrite decide_True by (rewrite H'; left). done.
    + rewrite decide_False; [done|]. by intros [?|?]%elem_of_cons.
Qed.

Lemma block_id_range base : 0 <= block_id base < 4096.
Proof.
  unfold block_id, ISS_INSN_NB_BLOCKS. change (4096 - 1) with (Z.ones 12). rewrite Z.land_ones by lia.
  apply Z.mod_pos_bound. lia.
Qed.

(** A flush keeps every pointer and address, and makes every instruction one to decode again. *)
Lemma flush_blocks_spec c p : cache_inv c ->
  cache_inv (flush_blocks c) /\ get_insn (flush_blocks c) p = flushed <$> get_insn c p.
Proof.
  intros I. unfold flush_blocks. fold flush_step.
  destruct (flush_steps (concat (map (chain c) (seqZ 0 ISS_INSN_NB_BLOCKS))) c p I) as (I' & _ & G).
  split; [done|]. rewrite G. destruct (decide _) as [H|H]; [done|].
  unfold get_insn. destruct (blocks c !! p.1) as [blk|] eqn:E; [|done]. destruct H.
  apply list_elem_of_In, in_concat. exists (chain c (block_id (b_pc blk))). split.
  - apply in_map, list_elem_of_In, elem_of_seqZ. apply block_id_range.
  - apply list_elem_of_In, (ci_block c I _ _ E).
Qed.

Lemma insn_cache_init_inv : cache_inv insn_cache_init.
Proof.
  split; [by intros ? ? ?|intros k b H|by intros ? ? ? ? ?].
  unfold chain, insn_cache_init in H. simpl in H. rewrite lookup_empty in H. by apply not_elem_of_nil in H.
Qed.

(** The lists of the table that are used: the number of a list is a multiple of the size of a block. *)
Lemma few_lists base : 0 <= base < 2 ^ 32 -> exists k, 0 <= k < 8 /\ block_id (pc_base base) = 512 * k.
Proof.
  intros H. pose proof (pc_base_range base H) as [R _]. unfold block_id, ISS_INSN_NB_BLOCKS.
  change (4096 - 1) with (Z.ones 12). rewrite Z.land_ones by lia. rewrite pc_base_spec in * by done.
  exists ((base / 512) mod 8). change (2 ^ 12) with 4096. Z.div_mod_to_equations. lia.
Qed.

(** An instruction of the cache is the one that the cache points to for its own address. *)
Lemma insn_points c p s : cache_inv c -> get_insn c p = Some s ->
  points c p (s_addr s) /\ 0 <= s_addr s < 2 ^ 32 /\ s_addr s mod 2 = 0.
Proof.
  intros I H. unfold get_insn in H. destruct (blocks c !! p.1) as [blk|] eqn:E; [|done].
  destruct (ci_block c I _ _ E) as [[Hi [Hb Eb] Hl Ha] _]. rewrite (Ha _ _ H).
  apply lookup_lt_Some in H. rewrite Hl in H. unfold ISS_INSN_BLOCK_SIZE in H.
  rewrite pc_base_spec in Eb by done.
  assert (R : 0 <= b_pc blk + 2 * Z.of_nat p.2 < 2 ^ 32) by (Z.div_mod_to_equations; lia).
  split; [|split; [done|Z.div_mod_to_equations; lia]]. split.
  - apply Nat2Z.inj. rewrite insn_id_spec. Z.div_mod_to_equations; lia.
  - exists blk. split; [done|]. rewrite pc_base_spec by done. Z.div_mod_to_equations; lia.
Qed.

Lemma get_other junk pc c : cache_inv c -> 0 <= pc < 2 ^ 32 ->
  forall q pc', points c q pc' -> points (insn_cache_get junk pc c).2 q pc'.
Proof.
  intros I H q pc' [Hi (blk & Hb & E)]. pose proof (get_cases junk pc c I) as G.
  destruct (insn_cache_get junk pc c) as [p c']. destruct G as [[-> _]|(-> & _)]; (split; [done|]); exists blk; [done|].
  split; [|done]. by apply lookup_app_l_Some.
Qed.

(** ** An example: the cache after the instruction at 0x102 was looked up *)

Definition blank : slot :=
  Slot 0 0 false (insn_fn 0) (insn_fn 0) (insn_fn 0) None (insn_fn 0) (insn_fn 0) (insn_fn 0) 0 0 0 (replicate 14 0)
    (replicate 5 ArgNone) None None 0 0 0 0 0 0 0.
Definition demo_cache : icache := (insn_cache_get blank 0x103 insn_cache_init).2.
Definition demo_ptr : ptr := (0%nat, 129%nat).
Definition demo_slot : slot := insn_init 0x102 blank.

Lemma demo_cache_inv : cache_inv demo_cache.
Proof.
  pose proof (get_points blank 0x103 insn_cache_init insn_cache_init_inv ltac:(lia)) as H. unfold demo_cache.
  destruct (insn_cache_get blank 0x103 insn_cache_init). apply H.
Qed.
Lemma demo_insn : get_insn demo_cache demo_ptr = Some demo_slot.
Proof. vm_compute. reflexivity. Qed.

Lemma insn_cache_designates_witness : exists c', insn_cache_get blank 0x103 insn_cache_init = (demo_ptr, c') /\
  (exists s, get_insn c' demo_ptr = Some s /\ s_addr s = 0x102) /\
  (insn_cache_get blank 0x102 c').1 = demo_ptr /\ (insn_cache_get blank 0x302 c').1 <> demo_ptr.
Proof.
  exists demo_cache. assert (E : insn_cache_get blank 0x103 insn_cache_init = (demo_ptr, demo_cache)) by (vm_compute; reflexivity).
  split; [exact E|].
  destruct (insn_cache_designates blank 0x103 insn_cache_init demo_ptr demo_cache insn_cache_init_inv ltac:(lia) E)
    as (_ & A & _ & D).
  split; [exact A|]. split; [apply (D 0x102); [lia|reflexivity]|]. intros F. apply (D 0x302) in F; [discriminate F|lia].
Defined.
