(* ===== verification/Decoder.v ===== *)
(** * The instruction decoder (models/cpu/iss/src/decoder.cpp, insn_cache.cpp, resource.cpp)

    An opcode is decoded by walking trees of tables, generated from the descriptions of isa_gen: the
    groups of a tree select a leaf, whose instruction says which fields of the opcode are its operands.  Decoding
    fills the instruction of the cache and chooses its handlers, wrapped for the ends of loops, shared resources,
    stalls and traces.  The trees, and the numbers of pipeline stages and register files, are parameters. *)

From Stdlib Require String.
From S2P Require Import Prelude InsnCache.

(** ** The tables (types.hpp) *)

Definition ISS_DECODER_ARG_FLAG_POSTINC : Z := 1.
Definition ISS_DECODER_ARG_FLAG_PREINC : Z := 2.
Definition ISS_DECODER_ARG_FLAG_COMPRESSED : Z := 4.
Definition ISS_DECODER_ARG_FLAG_FREG : Z := 8.
Definition ISS_DECODER_ARG_FLAG_REG64 : Z := 16.
Definition ISS_REG_WIDTH : Z := 32.
Definition ISS_NB_REGS : Z := 32.

Record iss_decoder_range := Range { r_bit : Z; r_width : Z; r_shift : Z }.

(** iss_decoder_arg_info_t: its type and the field of its union. *)
Inductive iss_decoder_arg_info :=
  | ISS_DECODER_VALUE_TYPE_UIM (uim : Z)
  | ISS_DECODER_VALUE_TYPE_SIM (sim : Z)
  | ISS_DECODER_VALUE_TYPE_RANGE (ranges : list iss_decoder_range).

Record imm_desc := ImmDesc { im_is_signed : bool; im_id : Z; im_info : iss_decoder_arg_info }.
Record reg_desc := RegDesc { rg_id : Z; rg_flags : Z; rg_latency : Z; rg_info : iss_decoder_arg_info }.

Inductive iss_decoder_arg :=
  | ISS_DECODER_ARG_TYPE_NONE
  | ISS_DECODER_ARG_TYPE_REG (out : bool) (flags : Z) (reg : reg_desc)
  | ISS_DECODER_ARG_TYPE_UIMM (flags : Z) (uimm : imm_desc)
  | ISS_DECODER_ARG_TYPE_SIMM (flags : Z) (simm : imm_desc)
  | ISS_DECODER_ARG_TYPE_INDIRECT_IMM (flags : Z) (reg : reg_desc) (imm : imm_desc)
  | ISS_DECODER_ARG_TYPE_INDIRECT_REG (flags : Z) (base_reg offset_reg : reg_desc).

(** The functions that an instruction of the tables has in its field decode. *)
Inductive decode_fn := auipc_decode | jal_decode | bxx_decode.

(** The leaf of an instruction. *)
Record insn_desc := InsnDesc {
  it_handler : fn;
  it_fast_handler : fn;
  it_decode : option decode_fn;
  it_size : Z;
  it_latency : Z;
  it_args : list iss_decoder_arg;
  it_resource_id : Z;
  it_resource_latency : Z;
  it_resource_bandwidth : Z;
}.

(** iss_decoder_item_t.  A leaf has a number: the item that is_active is about. *)
Inductive item :=
  | Leaf (opcode_others : bool) (opcode : Z) (id : nat) (insn : insn_desc)
  | Group (opcode_others : bool) (opcode bit width : Z) (groups : list item).

Definition item_others (it : item) : bool := match it with Leaf o _ _ _ => o | Group o _ _ _ _ => o end.
Definition item_opcode (it : item) : Z := match it with Leaf _ o _ _ => o | Group _ o _ _ _ => o end.

(** ** Fields of an opcode (utils.hpp) *)

Definition iss_get_field (val sh bits : Z) : option Z :=
  let* field := shr 32 val sh in
  let* one := shl 32 1 bits in
  Some (Z.land field (u32 (one - 1))).

Definition iss_get_signed_value (val bits : Z) : option Z :=
  let* high := shl 32 (s32 val) (ISS_REG_WIDTH - bits) in
  let* res := shr 32 (s32 high) (ISS_REG_WIDTH - bits) in
  Some (u32 res).

(** The loop over the ranges, from the result and the number of bits so far. *)
Fixpoint gather (opcode : Z) (ranges : list iss_decoder_range) (result bits : Z) : option (Z * Z) :=
  match ranges with
  | [] => Some (result, bits)
  | range :: ranges =>
    let* field := iss_get_field opcode (r_bit range) (r_width range) in
    let* field := shl 32 field (r_shift range) in
    let last_bit := r_width range + r_shift range in
    gather opcode ranges (Z.lor result (u32 field)) (if last_bit >? bits then last_bit else bits)
  end.

Definition decode_ranges (opcode : Z) (ranges : list iss_decoder_range) (is_signed : bool) : option Z :=
  let* (result, bits) := gather opcode ranges 0 0 in
  if is_signed then iss_get_signed_value (u32 result) bits else Some result.

Definition decode_info (opcode : Z) (info : iss_decoder_arg_info) (is_signed : bool) : option Z :=
  match info with
  | ISS_DECODER_VALUE_TYPE_RANGE ranges => let* v := decode_ranges opcode ranges is_signed in Some (s32 v)
  | ISS_DECODER_VALUE_TYPE_UIM uim => Some (s32 uim)
  | ISS_DECODER_VALUE_TYPE_SIM sim => Some sim
  end.

(** info.u.range_set, whatever the type: its first word is the number of ranges, which shares its place in the
    union with a constant. *)
Definition range_set (info : iss_decoder_arg_info) : option (list iss_decoder_range) :=
  match info with
  | ISS_DECODER_VALUE_TYPE_RANGE ranges => Some ranges
  | ISS_DECODER_VALUE_TYPE_UIM v | ISS_DECODER_VALUE_TYPE_SIM v => if v =? 0 then Some [] else None
  end.

(** ** Operands *)

Definition has_flag (flags flag : Z) : bool := negb (Z.land flags flag =? 0).

(** The places of the arrays in the words of an instruction; an index past the end of one is in the next. *)
Definition set_word (k v : Z) (s : slot) : option slot :=
  if (0 <=? k) && (k <? 14) then Some (set_s_words (<[Z.to_nat k := v]> (s_words s)) s) else None.
Definition set_out_reg (id v : Z) : slot -> option slot := set_word id v.
Definition set_in_reg (id v : Z) : slot -> option slot := set_word (3 + id) v.
Definition set_uim (id v : Z) : slot -> option slot := set_word (6 + id) v.
Definition set_sim (id v : Z) : slot -> option slot := set_word (10 + id) v.
Definition word (k : nat) (s : slot) : Z := default 0 (s_words s !! k).
Definition s_in_reg (id : nat) (s : slot) : Z := s32 (word (3 + id) s).
Definition s_uim (id : nat) (s : slot) : Z := u32 (word (6 + id) s).
Definition s_sim (id : nat) (s : slot) : Z := s32 (word (10 + id) s).

Definition count_in (id : Z) (s : slot) : slot := if id >=? s_nb_in_reg s then set_s_nb_in_reg (id + 1) s else s.
Definition count_out (id : Z) (s : slot) : slot := if id >=? s_nb_out_reg s then set_s_nb_out_reg (id + 1) s else s.
Definition set_arg (k : nat) (a : iss_insn_arg) (s : slot) : slot := set_s_args (<[k := a]> (s_args s)) s.

Section Decode.
Context (junk : slot) (single_regfile : bool) (PIPELINE_STAGES : Z).
#[local] Notation insn_cache_get := (insn_cache_get junk).

Definition reg_index (opcode flags : Z) (r : reg_desc) : option Z :=
  let* index := decode_info opcode (rg_info r) false in
  let index := if has_flag flags ISS_DECODER_ARG_FLAG_COMPRESSED then s32 (index + 8) else index in
  Some (if negb single_regfile && has_flag flags ISS_DECODER_ARG_FLAG_FREG then s32 (index + ISS_NB_REGS) else index).

(** The registers of an indirect argument, with their own flags. *)
Definition indirect_index (opcode : Z) (r : reg_desc) : option Z :=
  let* index := decode_info opcode (rg_info r) false in
  Some (if has_flag (rg_flags r) ISS_DECODER_ARG_FLAG_COMPRESSED then s32 (index + 8) else index).

(** The switch on the type of one argument: what it does to the instruction, and the register and latency that it
    gives to the next one. *)
Definition decode_arg (opcode : Z) (i : nat) (darg : iss_decoder_arg) (s : slot) : option (slot * option (Z * Z)) :=
  match darg with
  | ISS_DECODER_ARG_TYPE_NONE => Some (set_arg i ArgNone s, None)
  | ISS_DECODER_ARG_TYPE_REG out flags r =>
    let* index := reg_index opcode flags r in
    let s := set_arg i (ArgReg out flags index) s in
    if out then
      let* s := set_out_reg (rg_id r) index (count_out (rg_id r) s) in
      Some (s, if negb (rg_latency r =? 0) then Some (index, rg_latency r) else None)
    else
      let* s := set_in_reg (rg_id r) index (count_in (rg_id r) s) in Some (s, None)
  | ISS_DECODER_ARG_TYPE_UIMM flags im =>
    let* ranges := range_set (im_info im) in
    let* v := decode_ranges opcode ranges (im_is_signed im) in
    let* s := set_uim (im_id im) (u32 v) (set_arg i (ArgUim flags (u32 v)) s) in Some (s, None)
  | ISS_DECODER_ARG_TYPE_SIMM flags im =>
    let* ranges := range_set (im_info im) in
    let* v := decode_ranges opcode ranges (im_is_signed im) in
    let* s := set_sim (im_id im) (s32 v) (set_arg i (ArgSim flags (s32 v)) s) in Some (s, None)
  | ISS_DECODER_ARG_TYPE_INDIRECT_IMM flags r im =>
    let* index := indirect_index opcode r in
    let* s := set_in_reg (rg_id r) index s in
    let s := count_in (rg_id r) s in
    let* imm := decode_info opcode (im_info im) (im_is_signed im) in
    let* s := set_sim (im_id im) imm (set_arg i (ArgIndirectImm flags index imm) s) in Some (s, None)
  | ISS_DECODER_ARG_TYPE_INDIRECT_REG flags base offset =>
    let* base_index := indirect_index opcode base in
    let* s := set_in_reg (rg_id base) base_index s in
    let s := count_in (rg_id base) s in
    let* offset_index := indirect_index opcode offset in
    let* s := set_in_reg (rg_id offset) offset_index s in
    let s := count_in (rg_id offset) s in
    Some (set_arg i (ArgIndirectReg flags base_index offset_index) s, None)
  end.

(** The loop that clears the registers: it runs over the arguments, not over the registers. *)
Fixpoint clear_regs (n : nat) (i : Z) (s : slot) : option slot :=
  match n with
  | O => Some s
  | S n => let* s := set_out_reg i (-1) s in let* s := set_in_reg i (-1) s in clear_regs n (i + 1) s
  end.

(** The start of decode_insn, up to the loops over the arguments. *)
Definition decode_handlers (id : nat) (d : insn_desc) (s : slot) : slot :=
  let s := set_s_latency 0 s in
  let s := set_s_handler (it_handler d) (set_s_fast_handler (it_fast_handler d) s) in
  let s := set_s_resource_bandwidth (it_resource_bandwidth d)
             (set_s_resource_latency (it_resource_latency d) (set_s_resource_id (it_resource_id d) s)) in
  let s := match s_hwloop_handler s with
           | Some h => set_s_fast_handler h (set_s_handler h (set_s_hwloop_handler (Some (s_handler s)) s))
           | None => s
           end in
  let s := if negb (it_resource_id d =? -1) then
             set_s_handler iss_resource_offload (set_s_fast_handler iss_resource_offload
               (set_s_resource_handler (s_handler s) s))
           else s in
  set_s_latency (it_latency d) (set_s_nb_in_reg 0 (set_s_nb_out_reg 0 (set_s_size (it_size d) (set_s_item id s)))).

(** The latency left by the previous instruction. *)
Definition decode_latency (s : slot) : slot :=
  if negb (s_input_latency_reg s =? -1) then
    if existsb (fun j => s_in_reg j s =? s_input_latency_reg s) (seq 0 (Z.to_nat (s_nb_in_reg s))) then
      set_s_latency (s_latency s + s_input_latency s) s
    else if s_input_latency s >? PIPELINE_STAGES then
      set_s_latency (s_latency s + (s_input_latency s - PIPELINE_STAGES + 1)) s
    else s
  else s.

Definition decode_stall (s : slot) : slot :=
  if negb (s_latency s =? 0) then
    set_s_fast_handler iss_exec_stalled_insn_fast (set_s_handler iss_exec_stalled_insn
      (set_s_stall_fast_handler (s_fast_handler s) (set_s_stall_handler (s_handler s) s)))
  else s.

Definition put (p : ptr) (s : slot) (c : icache) : icache := upd_insn (fun _ => s) p c.

(** Gives the latency of a result to the next instruction. *)
Definition give_latency (reg latency : Z) (s : slot) (c : icache) : icache :=
  let '(next, c) := insn_cache_get (u32 (s_addr s + s_size s)) c in
  upd_insn (fun n => set_s_input_latency latency (set_s_input_latency_reg reg n)) next c.

Fixpoint decode_args (p : ptr) (opcode : Z) (i : nat) (args : list iss_decoder_arg) (c : icache) : option icache :=
  match args with
  | [] => Some c
  | darg :: args =>
    let* s := get_insn c p in
    let* (s, given) := decode_arg opcode i darg s in
    let c := put p s c in
    let c := match given with Some (reg, latency) => give_latency reg latency s c | None => c end in
    decode_args p opcode (Datatypes.S i) args c
  end.

(** The functions of rv32i.hpp that end the decoding of some instructions. *)
Definition run_decode (d : decode_fn) (p : ptr) (s : slot) (c : icache) : option icache :=
  match d with
  | auipc_decode => let* s := set_uim 0 (u32 (s_uim 0 s + s_addr s)) s in Some (put p s c)
  | jal_decode =>
    let '(target, c) := insn_cache_get (u32 (s_addr s + s_sim 0 s)) c in
    Some (upd_insn (set_s_next (Some target)) p c)
  | bxx_decode =>
    let '(target, c) := insn_cache_get (u32 (s_addr s + s_sim 0 s)) c in
    Some (upd_insn (set_s_branch (Some target)) p c)
  end.

(** decode_insn, decode_opcode_group and decode_item.  [active] is the set of the active leaves; the result is that
    of the code, 0 or -1. *)
Context (active : gset nat).

Definition decode_insn (p : ptr) (opcode : Z) (id : nat) (d : insn_desc) (c : icache) : option (Z * icache) :=
  if negb (bool_decide (id ∈ active)) then Some (-1, c)
  else
    let c := upd_insn (decode_handlers id d) p c in
    let* s := get_insn c p in
    let* s := clear_regs (length (it_args d)) 0 s in
    let* c := decode_args p opcode 0 (it_args d) (put p s c) in
    let* s := get_insn c p in
    let s := decode_latency s in
    let '(next, c) := insn_cache_get (u32 (s_addr s + s_size s)) (put p s c) in
    let c := upd_insn (set_s_next (Some next)) p c in
    let* s := get_insn c p in
    let* c := match it_decode d with Some f => run_decode f p s c | None => Some c end in
    Some (0, upd_insn decode_stall p c).

(** The choice of a group: the last item for the other opcodes is kept for the end. *)
Definition group_opcode (opcode bit width : Z) : option Z :=
  let* field := shr 32 opcode bit in
  let* one := shl 64 1 width in
  Some (Z.land field (u32 (one - 1))).

Fixpoint select (opcode : Z) (it : item) : option (option (nat * insn_desc)) :=
  match it with
  | Leaf _ _ id d => Some (Some (id, d))
  | Group _ _ bit width groups =>
    let* g := group_opcode opcode bit width in
    (fix walk l other :=
       match l with
       | [] => match other with Some r => r | None => Some None end
       | it :: l =>
         if (g =? item_opcode it) && negb (item_others it) then select opcode it
         else walk l (if item_others it then Some (select opcode it) else other)
       end) groups None
  end.

(** decode_item: the walk of the tree ends in the decoding of one leaf at most. *)
Definition decode_item (p : ptr) (opcode : Z) (it : item) (c : icache) : option (Z * icache) :=
  let* leaf := select opcode it in
  match leaf with
  | Some (id, d) => decode_insn p opcode id d c
  | None => Some (-1, c)
  end.

(** The trees of __iss_isa_set, in order. *)
Fixpoint decode_opcode (p : ptr) (opcode : Z) (trees : list item) (c : icache) : option (Z * icache) :=
  match trees with
  | [] => Some (-1, c)
  | tree :: trees =>
    let* (r, c) := decode_item p opcode tree c in
    if r =? 0 then Some (0, c) else decode_opcode p opcode trees c
  end.

(** [trace]: iss_insn_trace_active or iss_insn_event_active. *)
Definition iss_decode_pc_noexec (trees : list item) (trace : bool) (p : ptr) (c : icache) : option icache :=
  let* s := get_insn c p in
  let opcode := s_opcode s in
  let* (r, c) := decode_opcode p opcode trees c in
  if r =? -1 then
    Some (upd_insn (fun s => set_s_fast_handler iss_exec_insn_illegal (set_s_handler iss_exec_insn_illegal s)) p c)
  else
    let c := upd_insn (set_s_opcode opcode) p c in
    Some (if trace then
            upd_insn (fun s => set_s_fast_handler iss_exec_insn_with_trace (set_s_handler iss_exec_insn_with_trace
                                 (set_s_saved_handler (s_handler s) s))) p c
          else c).

End Decode.

(** ** Fields of an opcode and their encoding *)

(** The bits of a value put where the ranges read them. *)
Fixpoint scatter (v : Z) (ranges : list iss_decoder_range) : Z :=
  match ranges with
  | [] => 0
  | r :: ranges => Z.lor (Z.shiftl (Z.land (Z.shiftr v (r_shift r)) (Z.ones (r_width r))) (r_bit r)) (scatter v ranges)
  end.

(** The bits of a value that the ranges hold, and its width. *)
Fixpoint value_mask (ranges : list iss_decoder_range) : Z :=
  match ranges with
  | [] => 0
  | r :: ranges => Z.lor (Z.shiftl (Z.ones (r_width r)) (r_shift r)) (value_mask ranges)
  end.
Definition value_width (ranges : list iss_decoder_range) : Z := foldr (fun r w => Z.max (r_width r + r_shift r) w) 0 ranges.

Definition range_ok (r : iss_decoder_range) : bool :=
  (0 <=? r_bit r) && (0 <? r_width r) && (r_width r <? 32) && (r_bit r + r_width r <=? 32) &&
  (0 <=? r_shift r) && (r_width r + r_shift r <=? 32).
Definition apart (a wa b wb : Z) : bool := (a + wa <=? b) || (b + wb <=? a).
Fixpoint ranges_ok (ranges : list iss_decoder_range) : bool :=
  match ranges with
  | [] => true
  | r :: ranges =>
    range_ok r && forallb (fun r' => apart (r_bit r) (r_width r) (r_bit r') (r_width r') &&
                                     apart (r_shift r) (r_width r) (r_shift r') (r_width r')) ranges && ranges_ok ranges
  end.

(** [j] is in the [w] bits from [a]. *)
Definition within (a w j : Z) : bool := (a <=? j) && (j <? a + w).

Lemma testbit_field v sh w b k : 0 <= sh -> 0 <= w -> 0 <= b -> 0 <= k ->
  Z.testbit (Z.shiftl (Z.land (Z.shiftr v sh) (Z.ones w)) b) k = within b w k && Z.testbit v (sh + (k - b)).
Proof.
  intros. rewrite Z.shiftl_spec by done. unfold within. destruct (Z.leb_spec b k) as [Hb|Hb]; simpl.
  - rewrite Z.land_spec, Z.shiftr_spec, Z.testbit_ones_nonneg by lia.
    replace (k <? b + w) with (k - b <? w) by (destruct (Z.ltb_spec (k - b) w), (Z.ltb_spec k (b + w)); lia).
    rewrite (Z.add_comm sh). apply andb_comm.
  - apply Z.testbit_neg_r. lia.
Qed.

Lemma range_ok_spec r : range_ok r = true <->
  0 <= r_bit r /\ 0 < r_width r < 32 /\ r_bit r + r_width r <= 32 /\ 0 <= r_shift r /\ r_width r + r_shift r <= 32.
Proof. unfold range_ok. rewrite !andb_true_iff, !Z.leb_le, !Z.ltb_lt. tauto. Qed.

Lemma testbit_scatter v rs k : forallb range_ok rs = true -> 0 <= k ->
  Z.testbit (scatter v rs) k =
  existsb (fun r => within (r_bit r) (r_width r) k && Z.testbit v (r_shift r + (k - r_bit r))) rs.
Proof.
  intros H Hk. induction rs as [|r rs IH]; simpl; [apply Z.bits_0|]. simpl in H. apply andb_true_iff in H as [Hr H].
  apply range_ok_spec in Hr. rewrite Z.lor_spec, IH, testbit_field by (done || lia). done.
Qed.

Lemma testbit_value_mask rs k : forallb range_ok rs = true -> 0 <= k ->
  Z.testbit (value_mask rs) k = existsb (fun r => within (r_shift r) (r_width r) k) rs.
Proof.
  intros H Hk. induction rs as [|r rs IH]; simpl; [apply Z.bits_0|]. simpl in H. apply andb_true_iff in H as [Hr H].
  apply range_ok_spec in Hr. rewrite Z.lor_spec, IH by done. f_equal.
  pose proof (testbit_field (-1) 0 (r_width r) (r_shift r) k ltac:(lia) ltac:(lia) ltac:(lia) Hk) as T.
  rewrite Z.shiftr_0_r, Z.land_m1_l in T. rewrite T. unfold within.
  destruct (Z.leb_spec (r_shift r) k); simpl; [|done]. rewrite Z.bits_m1 by lia. apply andb_true_r.
Qed.

(** What the loop of decode_ranges gathers, bit by bit. *)
Lemma gather_spec opcode rs res bits : forallb range_ok rs = true -> 0 <= bits ->
  exists res', gather opcode rs res bits = Some (res', Z.max bits (value_width rs)) /\
  forall k, 0 <= k -> Z.testbit res' k = Z.testbit res k ||
    existsb (fun r => within (r_shift r) (r_width r) k && Z.testbit opcode (r_bit r + (k - r_shift r))) rs.
Proof.
  revert res bits. induction rs as [|r rs IH]; intros res bits H Hb.
  - exists res. unfold value_width. simpl. split; [f_equal; f_equal; lia|]. intros. by rewrite orb_false_r.
  - simpl in H. apply andb_true_iff in H as [Hr H]. apply range_ok_spec in Hr as (Hbit & Hw & Hbw & Hs & Hws).
    simpl. unfold iss_get_field. rewrite !shr_some, !shl_some by lia.
    assert (E : u32 (Z.shiftl 1 (r_width r) - 1) = Z.ones (r_width r)).
    { rewrite Z.shiftl_1_l, Z.ones_equiv, Z.sub_1_r. rewrite uw_small; [done|].
      pose proof (Z.pow_pos_nonneg 2 (r_width r) ltac:(lia) ltac:(lia)).
      pose proof (Z.pow_lt_mono_r 2 (r_width r) 32 ltac:(lia) ltac:(lia) ltac:(lia)). lia. }
    rewrite E.
    set (field := Z.shiftl (Z.land _ _) _). set (bits' := if r_width r + r_shift r >? bits then _ else _).
    destruct (IH (Z.lor res (u32 field)) bits' H ltac:(unfold bits'; destruct (_ >? _); lia)) as (res' & G & T).
    exists res'. split.
    + rewrite G. f_equal. f_equal. unfold value_width. simpl. unfold bits'. rewrite Z.gtb_ltb.
      destruct (Z.ltb_spec bits (r_width r + r_shift r)); lia.
    + intros k Hk. rewrite T, Z.lor_spec, uw_testbit by lia. unfold field.
      rewrite testbit_field by lia. rewrite <- orb_assoc. f_equal. f_equal. unfold within.
      destruct (Z.ltb_spec k 32); simpl; [done|]. destruct (Z.ltb_spec k (r_shift r + r_width r)); [lia|].
      by rewrite andb_false_r.
Qed.

Lemma ranges_ok_forall rs : ranges_ok rs = true -> forallb range_ok rs = true.
Proof.
  induction rs as [|r rs IH]; simpl; [done|]. intros H. apply andb_true_iff in H as [H Hrs].
  apply andb_true_iff in H as [Hr _]. rewrite Hr. by apply IH.
Qed.

Lemma apart_within a wa b wb k : apart a wa b wb = true -> within a wa k = true -> within b wb k = true -> False.
Proof.
  unfold apart, within. rewrite orb_true_iff, !andb_true_iff, !Z.leb_le, !Z.ltb_lt. lia.
Qed.

(** Two ranges that read the same bit, or write the same bit, are the same. *)
Lemma ranges_apart rs r r' k : ranges_ok rs = true -> r ∈ rs -> r' ∈ rs ->
  (within (r_bit r) (r_width r) k = true /\ within (r_bit r') (r_width r') k = true) \/
  (within (r_shift r) (r_width r) k = true /\ within (r_shift r') (r_width r') k = true) -> r = r'.
Proof.
  induction rs as [|x rs IH]; [by intros _ H%not_elem_of_nil|]. simpl. intros H Hr Hr' Hk.
  apply andb_true_iff in H as [H Hrs]. apply andb_true_iff in H as [_ Hf].
  assert (A : forall y, y ∈ rs -> (within (r_bit x) (r_width x) k = true -> within (r_bit y) (r_width y) k = true -> False) /\
    (within (r_shift x) (r_width x) k = true -> within (r_shift y) (r_width y) k = true -> False)).
  { intros y Hy. rewrite forallb_forall in Hf. specialize (Hf y). rewrite <- list_elem_of_In in Hf.
    apply andb_true_iff in Hf as [A1 A2]; [|done]. split; eauto using apart_within. }
  apply elem_of_cons in Hr as [->|Hr], Hr' as [->|Hr']; [done| | |by apply IH].
  - destruct (A r' Hr') as [A1 A2]. destruct Hk as [[]|[]]; exfalso; eauto.
  - destruct (A r Hr) as [A1 A2]. destruct Hk as [[]|[]]; exfalso; eauto.
Qed.

Lemma existsb_elem {A} (f : A -> bool) l : existsb f l = true <-> exists x, x ∈ l /\ f x = true.
Proof. rewrite existsb_exists. setoid_rewrite list_elem_of_In. done. Qed.

Lemma value_width_bound rs : forallb range_ok rs = true -> 0 <= value_width rs <= 32.
Proof.
  induction rs as [|r rs IH]; simpl; [lia|]. intros H. apply andb_true_iff in H as [Hr H].
  apply range_ok_spec in Hr. specialize (IH H). fold (value_width rs). lia.
Qed.

Lemma elem_value_width r rs : r ∈ rs -> r_width r + r_shift r <= value_width rs.
Proof.
  induction rs as [|x rs IH]; [by intros ?%not_elem_of_nil|]. intros [->|H]%elem_of_cons; simpl; fold (value_width rs).
  - lia.
  - specialize (IH H). lia.
Qed.

Lemma range_facts rs r : forallb range_ok rs = true -> r ∈ rs ->
  0 <= r_bit r /\ 0 < r_width r < 32 /\ r_bit r + r_width r <= 32 /\ 0 <= r_shift r /\ r_width r + r_shift r <= 32.
Proof. rewrite forallb_forall. intros H Hr. by apply range_ok_spec, H, list_elem_of_In. Qed.

(** Gathering what was scattered among the other bits of an opcode. *)
Lemma gather_scatter rs v other : ranges_ok rs = true -> Z.land other (scatter (-1) rs) = 0 ->
  gather (Z.lor other (scatter v rs)) rs 0 0 = Some (Z.land v (value_mask rs), value_width rs).
Proof.
  intros H Ho. pose proof (ranges_ok_forall rs H) as Hf. pose proof (value_width_bound rs Hf).
  destruct (gather_spec (Z.lor other (scatter v rs)) rs 0 0 Hf ltac:(lia)) as (res & -> & T).
  f_equal. f_equal; [|lia]. apply Z.bits_inj'. intros k Hk. rewrite T, Z.bits_0, Z.land_spec, testbit_value_mask by done.
  simpl. apply eq_true_iff_eq. rewrite andb_true_iff, !existsb_elem.
  assert (S : forall r, r ∈ rs -> within (r_shift r) (r_width r) k = true ->
    Z.testbit (Z.lor other (scatter v rs)) (r_bit r + (k - r_shift r)) = Z.testbit v k).
  { intros r Hr Hw. set (j := r_bit r + (k - r_shift r)).
    destruct (range_facts rs r Hf Hr) as (? & ? & ? & ? & ?).
    assert (Hw' : within (r_bit r) (r_width r) j = true).
    { unfold within in *. unfold j. rewrite andb_true_iff, Z.leb_le, Z.ltb_lt in *. lia. }
    assert (Hj : 0 <= j) by (unfold within in Hw'; rewrite andb_true_iff, Z.leb_le in Hw'; lia).
    rewrite Z.lor_spec. replace (Z.testbit other j) with false.
    - simpl. rewrite testbit_scatter by done. apply eq_true_iff_eq. rewrite existsb_elem. split.
      + intros (r' & Hr' & [W Tv]%andb_true_iff). assert (r = r') as <- by (apply (ranges_apart rs _ _ j); auto).
        rewrite <- Tv. f_equal. unfold j. lia.
      + intros Tv. exists r. split; [done|]. rewrite Hw'. simpl. rewrite <- Tv. f_equal. unfold j. lia.
    - assert (B : Z.testbit (Z.land other (scatter (-1) rs)) j = false) by (by rewrite Ho, Z.bits_0).
      rewrite Z.land_spec, testbit_scatter in B by done. apply andb_false_iff in B as [B|B]; [done|].
      exfalso. apply not_true_iff_false in B. apply B, existsb_elem. exists r. split; [done|]. rewrite Hw'. simpl.
      rewrite Z.bits_m1; [done|]. unfold j. unfold within in Hw. rewrite andb_true_iff, Z.leb_le in Hw. lia. }
  split.
  - intros (r & Hr & [W Tb]%andb_true_iff). rewrite S in Tb by done. split; [done|]. by exists r.
  - intros [Tv (r & Hr & W)]. exists r. split; [done|]. rewrite W, S; done.
Qed.

Lemma signed_value v bits : 0 < bits <= 32 -> iss_get_signed_value v bits = Some (u32 (sw bits v)).
Proof.
  intros H. unfold iss_get_signed_value, ISS_REG_WIDTH. rewrite shl_some, shr_some by lia. f_equal. f_equal.
  rewrite Z.shiftl_mul_pow2, Z.shiftr_div_pow2 by lia.
  assert (E : s32 (s32 v * 2 ^ (32 - bits)) = sw bits v * 2 ^ (32 - bits)).
  { rewrite <- (sw_small 32 (sw bits v * _)); [|lia|].
    - apply uw_eq_sw. unfold uw. destruct (sw_spec 32 v ltac:(lia)) as [a ->], (sw_spec bits v ltac:(lia)) as [b ->].
      replace ((v + a * 2 ^ 32) * 2 ^ (32 - bits)) with (v * 2 ^ (32 - bits) + (a * 2 ^ (32 - bits)) * 2 ^ 32) by lia.
      replace ((v + b * 2 ^ bits) * 2 ^ (32 - bits)) with (v * 2 ^ (32 - bits) + b * 2 ^ 32)
        by (rewrite Z.mul_add_distr_r, <- Z.mul_assoc, <- Z.pow_add_r by lia; do 3 f_equal; lia).
      by rewrite !Z_mod_plus_full.
    - pose proof (sw_range bits v ltac:(lia)) as R. pose proof (Z.pow_pos_nonneg 2 (32 - bits) ltac:(lia) ltac:(lia)).
      replace (2 ^ (32 - 1)) with (2 ^ (bits - 1) * 2 ^ (32 - bits)) by (rewrite <- Z.pow_add_r by lia; f_equal; lia). nia. }
  rewrite E. apply Z.div_mul. pose proof (Z.pow_pos_nonneg 2 (32 - bits) ltac:(lia) ltac:(lia)). lia.
Qed.

(** The values that ranges can hold: of their width, with bits only where there is a range. *)
Definition fits (is_signed : bool) (rs : list iss_decoder_range) (v : Z) : Prop :=
  let w := value_width rs in
  (if is_signed then - 2 ^ (w - 1) <= v < 2 ^ (w - 1) else 0 <= v < 2 ^ w) /\ Z.land v (value_mask rs) = uw w v.

(** an operand put in the fields of an opcode, whatever the other bits, is the operand that is decoded, signed
    or not; and the fields of an opcode put again where they were read are those of the opcode. *)
Theorem decode_ranges_roundtrip rs is_signed v other opcode :
  ranges_ok rs = true -> 0 < value_width rs -> fits is_signed rs v -> Z.land other (scatter (-1) rs) = 0 ->
  decode_ranges (Z.lor other (scatter v rs)) rs is_signed = Some (u32 v) /\
  (let* field := decode_ranges opcode rs false in Some (scatter field rs)) = Some (Z.land opcode (scatter (-1) rs)).
Proof.
  intros H Hw [Hv Hm] Ho. pose proof (ranges_ok_forall rs H) as Hf. pose proof (value_width_bound rs Hf). split.
  - unfold decode_ranges. rewrite gather_scatter, Hm by done.
    pose proof (Z.pow_le_mono_r 2 (value_width rs) 32 ltac:(lia) ltac:(lia)).
    pose proof (uw_range (value_width rs) v ltac:(lia)). destruct is_signed.
    + by rewrite signed_value, (uw_small 32 (uw _ v)), sw_uw, sw_small by lia.
    + by rewrite !uw_small by lia.
  - unfold decode_ranges. destruct (gather_spec opcode rs 0 0 Hf ltac:(lia)) as (res & -> & T). f_equal.
    apply Z.bits_inj'. intros k Hk. rewrite Z.land_spec, !testbit_scatter by done.
    assert (G : forall r, r ∈ rs -> within (r_bit r) (r_width r) k = true ->
      Z.testbit res (r_shift r + (k - r_bit r)) = Z.testbit opcode k).
    { intros r Hr W. destruct (range_facts rs r Hf Hr) as (? & ? & ? & ? & ?). set (j := r_shift r + (k - r_bit r)).
      unfold within in W. rewrite andb_true_iff, Z.leb_le, Z.ltb_lt in W.
      assert (Wj : within (r_shift r) (r_width r) j = true)
        by (unfold within, j; rewrite andb_true_iff, Z.leb_le, Z.ltb_lt; lia).
      rewrite T, Z.bits_0 by lia. apply eq_true_iff_eq. rewrite orb_false_l, existsb_elem. split.
      - intros (r' & Hr' & [W' Tv]%andb_true_iff). assert (r = r') as <- by (apply (ranges_apart rs _ _ j); auto).
        rewrite <- Tv. f_equal. unfold j. lia.
      - intros Tv. exists r. split; [done|]. rewrite Wj. simpl. rewrite <- Tv. f_equal. unfold j. lia. }
    apply eq_true_iff_eq. rewrite andb_true_iff, !existsb_elem. split.
    + intros (r & Hr & [W Tr]%andb_true_iff). rewrite G in Tr by done. split; [done|]. exists r. split; [done|].
      rewrite W. simpl. apply Z.bits_m1. destruct (range_facts rs r Hf Hr) as (? & ? & ? & ? & ?).
      unfold within in W. rewrite andb_true_iff, Z.leb_le, Z.ltb_lt in W. lia.
    + intros [To (r & Hr & [W _]%andb_true_iff)]. exists r. split; [done|]. by rewrite W, G.
Qed.

(** ** Tables that can be decoded *)

(** The value is defined: an empty set of ranges cannot be extended with a sign. *)
Definition imm_ok (im : imm_desc) : bool :=
  (0 <=? im_id im) && (im_id im <? 4) &&
  match range_set (im_info im) with
  | Some rs => ranges_ok rs && (negb (im_is_signed im) || (0 <? value_width rs))
  | None => false
  end.
Definition index_ok (limit : Z) (info : iss_decoder_arg_info) : bool :=
  match info with
  | ISS_DECODER_VALUE_TYPE_UIM v | ISS_DECODER_VALUE_TYPE_SIM v => (0 <=? v) && (v <? limit)
  | ISS_DECODER_VALUE_TYPE_RANGE rs => ranges_ok rs && (2 ^ value_width rs <=? limit)
  end.
(** A register: three bits for those of compressed instructions, five for the others. *)
Definition reg_ok (flags : Z) (r : reg_desc) : bool :=
  (0 <=? rg_id r) && (rg_id r <? 3) &&
  index_ok (if has_flag flags ISS_DECODER_ARG_FLAG_COMPRESSED then 8 else 32) (rg_info r).
Definition arg_ok (a : iss_decoder_arg) : bool :=
  match a with
  | ISS_DECODER_ARG_TYPE_NONE => true
  | ISS_DECODER_ARG_TYPE_REG _ flags r => reg_ok flags r
  | ISS_DECODER_ARG_TYPE_UIMM _ im | ISS_DECODER_ARG_TYPE_SIMM _ im => imm_ok im
  | ISS_DECODER_ARG_TYPE_INDIRECT_IMM _ r im =>
    reg_ok (rg_flags r) r && imm_ok im && match im_info im with ISS_DECODER_VALUE_TYPE_RANGE _ => true | _ => false end
  | ISS_DECODER_ARG_TYPE_INDIRECT_REG _ b o => reg_ok (rg_flags b) b && reg_ok (rg_flags o) o
  end.
Definition args_ok (args : list iss_decoder_arg) : bool := (length args <=? 5)%nat && forallb arg_ok args.

Section Slots.
Context (single_regfile : bool) (PIPELINE_STAGES : Z).
#[local] Notation decode_arg := (decode_arg single_regfile).
#[local] Notation decode_latency := (decode_latency PIPELINE_STAGES).

(** The effect of the loop over the arguments on the instruction itself. *)
Fixpoint decode_fields (opcode : Z) (i : nat) (args : list iss_decoder_arg) (s : slot) : option slot :=
  match args with
  | [] => Some s
  | darg :: args => let* (s, _) := decode_arg opcode i darg s in decode_fields opcode (Datatypes.S i) args s
  end.

(** The instruction before its next one is looked up. *)
Definition decode_slot (opcode : Z) (id : nat) (d : insn_desc) (s : slot) : option slot :=
  let* s := clear_regs (length (it_args d)) 0 (decode_handlers id d s) in
  let* s := decode_fields opcode 0 (it_args d) s in
  Some (decode_latency s).

(** The arguments of an instruction leave the rest of it alone. *)
Definition fixed (s : slot) :=
  ((s_addr s, s_opcode s, s_fetched s, s_size s, s_next s, s_branch s),
   (s_fast_handler s, s_handler s, s_resource_handler s, s_hwloop_handler s, s_stall_handler s, s_stall_fast_handler s),
   (s_resource_id s, s_latency s, s_input_latency s, s_input_latency_reg s)).

Lemma set_word_spec k v s s' : set_word k v s = Some s' ->
  0 <= k < 14 /\ s_words s' = <[Z.to_nat k := v]> (s_words s) /\ fixed s' = fixed s.
Proof.
  unfold set_word. destruct (_ && _) eqn:E; [|done]. apply andb_true_iff in E as [E1 E2].
  intros H. injection H as <-. rewrite Z.leb_le, Z.ltb_lt in *. done.
Qed.

Lemma set_word_some k v s : 0 <= k < 14 -> exists s', set_word k v s = Some s'.
Proof. intros H. unfold set_word. destruct (Z.leb_spec 0 k), (Z.ltb_spec k 14); simpl; try lia. by eexists. Qed.

Lemma fixed_count_in id s : fixed (count_in id s) = fixed s /\ s_words (count_in id s) = s_words s.
Proof. unfold count_in. by destruct (_ >=? _). Qed.
Lemma fixed_count_out id s : fixed (count_out id s) = fixed s /\ s_words (count_out id s) = s_words s.
Proof. unfold count_out. by destruct (_ >=? _). Qed.
Lemma fixed_set_arg k a s : fixed (set_arg k a s) = fixed s /\ s_words (set_arg k a s) = s_words s.
Proof. done. Qed.

Lemma decode_ranges_range opcode rs sg : ranges_ok rs = true -> (sg = true -> 0 < value_width rs) ->
  exists v, decode_ranges opcode rs sg = Some v /\ 0 <= v < 2 ^ 32 /\ (sg = false -> v < 2 ^ value_width rs).
Proof.
  intros H Hs. pose proof (ranges_ok_forall rs H) as Hf. pose proof (value_width_bound rs Hf) as Hw.
  unfold decode_ranges. destruct (gather_spec opcode rs 0 0 Hf ltac:(lia)) as (res & -> & T).
  assert (R : 0 <= res < 2 ^ value_width rs).
  { apply range_of_bits; [lia|]. intros k Hk. rewrite T, Z.bits_0 by lia. simpl. apply not_true_iff_false.
    intros E. apply existsb_elem in E as (r & Hr & [W _]%andb_true_iff). unfold within in W.
    rewrite andb_true_iff, Z.leb_le, Z.ltb_lt in W. pose proof (elem_value_width r rs Hr). lia. }
  pose proof (Z.pow_le_mono_r 2 (value_width rs) 32 ltac:(lia) ltac:(lia)). destruct sg.
  - specialize (Hs eq_refl). rewrite signed_value by lia. eexists. split; [done|]. split; [|done].
    apply uw_range. lia.
  - exists res. split; [done|]. split; [lia|]. intros _. lia.
Qed.

Lemma imm_ok_decode opcode im : imm_ok im = true -> 0 <= im_id im < 4 /\
  exists rs v, range_set (im_info im) = Some rs /\ decode_ranges opcode rs (im_is_signed im) = Some v.
Proof.
  unfold imm_ok. rewrite !andb_true_iff, Z.leb_le, Z.ltb_lt. intros [Hid H]. split; [done|].
  destruct (range_set (im_info im)) as [rs|]; [|done]. apply andb_true_iff in H as [H1 H2].
  destruct (decode_ranges_range opcode rs (im_is_signed im) H1) as (v & E & _).
  { intros Es. rewrite Es in H2. by apply Z.ltb_lt. }
  by exists rs, v.
Qed.

Lemma index_ok_decode opcode limit info : index_ok limit info = true -> limit <= 32 ->
  exists v, decode_info opcode info false = Some v /\ 0 <= v < limit.
Proof.
  intros H Hl. destruct info as [v|v|rs]; simpl in *; apply andb_true_iff in H as [H1 H2].
  - rewrite Z.leb_le, Z.ltb_lt in *. exists (s32 v). rewrite sw_small by lia. done.
  - rewrite Z.leb_le, Z.ltb_lt in *. by exists v.
  - apply Z.leb_le in H2. destruct (decode_ranges_range opcode rs false H1 ltac:(done)) as (v & -> & Hv & Hv').
    specialize (Hv' eq_refl). exists (s32 v). rewrite sw_small by lia. split; [done|lia].
Qed.

Lemma reg_ok_index opcode flags r : reg_ok flags r = true -> 0 <= rg_id r < 3 /\
  exists v, decode_info opcode (rg_info r) false = Some v /\
  0 <= (if has_flag flags ISS_DECODER_ARG_FLAG_COMPRESSED then s32 (v + 8) else v) < 32.
Proof.
  unfold reg_ok. rewrite !andb_true_iff, Z.leb_le, Z.ltb_lt. intros [Hid H]. split; [done|].
  destruct (has_flag flags _); destruct (index_ok_decode opcode _ _ H ltac:(lia)) as (v & -> & Hv); exists v; (split; [done|]).
  - rewrite sw_small by lia. lia.
  - done.
Qed.

(** The registers of an instruction after decoding: those that it had, -1 or numbers of registers. *)
Definition regs_ok (s s' : slot) : Prop :=
  length (s_words s') = length (s_words s) /\
  forall k, (k < 6)%nat -> word k s' = word k s \/ -1 <= word k s' < 64.

Lemma regs_ok_refl s s' : s_words s' = s_words s -> regs_ok s s'.
Proof. intros E. unfold regs_ok, word. rewrite E. auto. Qed.
Lemma regs_ok_trans s1 s2 s3 : regs_ok s1 s2 -> regs_ok s2 s3 -> regs_ok s1 s3.
Proof.
  intros [L1 H1] [L2 H2]. split; [congruence|]. intros k Hk.
  destruct (H1 k Hk) as [<-|], (H2 k Hk) as [->|]; auto.
Qed.
Lemma regs_ok_set k v s s' : set_word k v s = Some s' -> 6 <= k \/ -1 <= v < 64 -> regs_ok s s'.
Proof.
  intros H Hv. apply set_word_spec in H as (Hk & E & _). unfold regs_ok, word. rewrite E. split; [apply length_insert|].
  intros j Hj. destruct (decide (j = Z.to_nat k)) as [->|N].
  - destruct (decide (Z.to_nat k < length (s_words s))%nat) as [Hl|Hl].
    + rewrite list_lookup_insert_eq by done. simpl. destruct Hv; [lia|auto].
    + rewrite list_insert_ge by lia. auto.
  - rewrite list_lookup_insert_ne by done. auto.
Qed.

Lemma reg_index_ok opcode flags r : reg_ok flags r = true ->
  0 <= rg_id r < 3 /\ exists v, reg_index single_regfile opcode flags r = Some v /\ 0 <= v < 64.
Proof.
  intros H. destruct (reg_ok_index opcode flags r H) as (Hid & v & E & Hv). split; [done|].
  unfold reg_index. rewrite E. unfold ISS_NB_REGS.
  destruct (has_flag flags ISS_DECODER_ARG_FLAG_COMPRESSED), single_regfile, (has_flag flags ISS_DECODER_ARG_FLAG_FREG);
    simpl; eexists; (split; [done|]); rewrite ?(sw_small 32 (_ + 32)); lia.
Qed.

Lemma indirect_index_ok opcode r : reg_ok (rg_flags r) r = true ->
  0 <= rg_id r < 3 /\ exists v, indirect_index opcode r = Some v /\ 0 <= v < 64.
Proof.
  intros H. destruct (reg_ok_index opcode (rg_flags r) r H) as (Hid & v & E & Hv). split; [done|].
  unfold indirect_index. rewrite E. eexists. split; [done|]. lia.
Qed.

(** A step of the decoding of an operand: the words, and nothing that [fixed] names. *)
Definition operand_step (s s' : slot) : Prop := fixed s' = fixed s /\ regs_ok s s'.

Lemma operand_step_trans s1 s2 s3 : operand_step s1 s2 -> operand_step s2 s3 -> operand_step s1 s3.
Proof. intros [] []. split; [congruence|]. by apply (regs_ok_trans _ s2). Qed.
Lemma operand_step_arg k a s : operand_step s (set_arg k a s).
Proof. split; [done|]. by apply regs_ok_refl. Qed.
Lemma operand_step_in id s : operand_step s (count_in id s).
Proof. destruct (fixed_count_in id s). split; [done|]. by apply regs_ok_refl. Qed.
Lemma operand_step_out id s : operand_step s (count_out id s).
Proof. destruct (fixed_count_out id s). split; [done|]. by apply regs_ok_refl. Qed.
Lemma operand_step_word k v s : 0 <= k < 14 -> 6 <= k \/ -1 <= v < 64 ->
  exists s', set_word k v s = Some s' /\ operand_step s s'.
Proof.
  intros Hk Hv. destruct (set_word_some k v s Hk) as [s' E]. exists s'. split; [done|].
  split; [by destruct (set_word_spec k v s s' E) as (_ & _ & ?)|]. by apply (regs_ok_set k v).
Qed.
#[local] Hint Resolve operand_step_arg operand_step_in operand_step_out : core.
#[local] Hint Extern 1 (operand_step ?s (set_arg _ _ (?f _ ?s))) => eapply operand_step_trans; [|apply operand_step_arg] : core.

Lemma decode_arg_ok opcode i a s : arg_ok a = true -> exists s' g, decode_arg opcode i a s = Some (s', g) /\ operand_step s s'.
Proof.
  destruct a as [|out flags r|flags im|flags im|flags r im|flags b o]; simpl; intros H.
  - eauto.
  - destruct (reg_index_ok opcode flags r H) as (Hid & v & -> & Hv). destruct out.
    + unfold set_out_reg. edestruct operand_step_word as (s' & -> & Hs'); [lia|right; clear -Hv; lia|].
      eexists _, _. split; [done|]. eauto using operand_step_trans.
    + unfold set_in_reg. edestruct operand_step_word as (s' & -> & Hs'); [|right; clear -Hv; lia|]; [lia|].
      eexists _, _. split; [done|]. eauto using operand_step_trans.
  - destruct (imm_ok_decode opcode im H) as (Hid & rs & v & -> & ->). unfold set_uim.
    edestruct operand_step_word as (s' & -> & Hs'); [|left|]; [lia|lia|]. eexists _, _. split; [done|]. eauto using operand_step_trans.
  - destruct (imm_ok_decode opcode im H) as (Hid & rs & v & -> & ->). unfold set_sim.
    edestruct operand_step_word as (s' & -> & Hs'); [|left|]; [lia|lia|]. eexists _, _. split; [done|]. eauto using operand_step_trans.
  - apply andb_true_iff in H as [[H1 H2]%andb_true_iff H3].
    destruct (indirect_index_ok opcode r H1) as (Hid & v & -> & Hv).
    destruct (imm_ok_decode opcode im H2) as (Hid' & rs & v' & Er & Ev).
    destruct (im_info im) as [?|?|rs']; [done..|]. simpl in Er. injection Er as ->. unfold set_in_reg, set_sim. simpl. rewrite Ev.
    edestruct operand_step_word as (s1 & -> & H1'); [|right; clear -Hv; lia|]; [lia|].
    edestruct operand_step_word as (s2 & -> & H2'); [|left|]; [lia|lia|]. eexists _, _. split; [done|]. eauto 6 using operand_step_trans.
  - apply andb_true_iff in H as [H1 H2].
    destruct (indirect_index_ok opcode b H1) as (Hid & v & -> & Hv), (indirect_index_ok opcode o H2) as (Hid' & v' & Ev & Hv').
    unfold set_in_reg. edestruct operand_step_word as (s1 & -> & H1'); [|right; clear -Hv; lia|]; [lia|]. rewrite Ev.
    edestruct operand_step_word as (s2 & -> & H2'); [|right; clear -Hv'; lia|]; [lia|]. eexists _, _. split; [done|].
    eauto 7 using operand_step_trans.
Qed.

Lemma decode_fields_ok opcode i args s : forallb arg_ok args = true ->
  exists s', decode_fields opcode i args s = Some s' /\ operand_step s s'.
Proof.
  revert i s. induction args as [|a args IH]; intros i s H; simpl.
  - exists s. split; [done|]. split; [done|by apply regs_ok_refl].
  - simpl in H. apply andb_true_iff in H as [Ha H]. destruct (decode_arg_ok opcode i a s Ha) as (s1 & g & -> & H1).
    destruct (IH (Datatypes.S i) s1 H) as (s2 & -> & H2). exists s2. split; [done|]. by apply (operand_step_trans _ s1).
Qed.

(** The loop that clears the registers stays in the words of the instruction: with more than three arguments it
    goes past the end of both arrays of registers. *)
Lemma clear_regs_ok n i s : 0 <= i -> i + Z.of_nat n <= 5 -> exists s', clear_regs n i s = Some s' /\ operand_step s s'.
Proof.
  revert i s. induction n as [|n IH]; intros i s Hi Hn.
  - exists s. split; [done|]. split; [done|by apply regs_ok_refl].
  - cbn [clear_regs]. unfold set_out_reg, set_in_reg.
    destruct (operand_step_word i (-1) s ltac:(lia) ltac:(lia)) as (s1 & -> & H1).
    destruct (operand_step_word (3 + i) (-1) s1 ltac:(lia) ltac:(lia)) as (s2 & -> & H2).
    destruct (IH (i + 1) s2 ltac:(lia) ltac:(lia)) as (s3 & -> & H3). exists s3. split; [done|].
    eauto using operand_step_trans.
Qed.

(** What decode_handlers leaves of the instruction. *)
Lemma decode_handlers_words id d s : s_words (decode_handlers id d s) = s_words s /\
  s_addr (decode_handlers id d s) = s_addr s /\ s_size (decode_handlers id d s) = it_size d.
Proof.
  unfold decode_handlers. cbv zeta. cbn [s_hwloop_handler set_s_resource_bandwidth set_s_resource_latency set_s_resource_id set_s_handler set_s_fast_handler set_s_latency].
  destruct (s_hwloop_handler s), (negb _); done.
Qed.

Lemma decode_latency_fixed s : s_words (decode_latency s) = s_words s /\ s_addr (decode_latency s) = s_addr s /\
  s_size (decode_latency s) = s_size s.
Proof. unfold decode_latency. repeat case_match; done. Qed.

Lemma decode_slot_ok opcode id d s : args_ok (it_args d) = true ->
  exists s', decode_slot opcode id d s = Some s' /\ regs_ok s s' /\ s_addr s' = s_addr s /\ s_size s' = it_size d.
Proof.
  unfold args_ok. rewrite andb_true_iff, Nat.leb_le. intros [Hl Ha]. unfold decode_slot.
  destruct (decode_handlers_words id d s) as (Ew & Ea & Es).
  destruct (clear_regs_ok (length (it_args d)) 0 (decode_handlers id d s) ltac:(lia) ltac:(lia)) as (s1 & -> & F1 & R1).
  destruct (decode_fields_ok opcode 0 (it_args d) s1 Ha) as (s2 & -> & F2 & R2). eexists. split; [done|].
  destruct (decode_latency_fixed s2) as (Ew2 & Ea2 & Es2). unfold fixed in F1, F2.
  split; [|split; [rewrite Ea2|rewrite Es2]; congruence].
  apply (regs_ok_trans _ s2); [|by apply regs_ok_refl]. apply (regs_ok_trans _ s1); [|done].
  apply (regs_ok_trans _ (decode_handlers id d s)); [|done]. by apply regs_ok_refl.
Qed.

End Slots.

#[local] Arguments set_word : simpl never.
#[local] Arguments get_insn : simpl never.
#[local] Arguments upd_insn : simpl never.

(** ** Decoding in the cache *)

(** From [c] to [c'] only the instruction at [p] is changed, and the latency that others get from theirs. *)
Definition others (p : ptr) (c c' : icache) : Prop :=
  cache_inv c' /\ (forall q pc, points c q pc -> points c' q pc) /\
  forall q s, q <> p -> get_insn c q = Some s ->
    exists reg latency, get_insn c' q = Some (set_s_input_latency latency (set_s_input_latency_reg reg s)).

Lemma latency_same s : s = set_s_input_latency (s_input_latency s) (set_s_input_latency_reg (s_input_latency_reg s) s).
Proof. by destruct s. Qed.

Lemma others_refl p c : cache_inv c -> others p c c.
Proof. intros I. split; [done|]. split; [done|]. intros q s _ H. eexists _, _. rewrite H. f_equal. apply latency_same. Qed.

Lemma others_trans p c1 c2 c3 : others p c1 c2 -> others p c2 c3 -> others p c1 c3.
Proof.
  intros (I1 & P1 & G1) (I2 & P2 & G2). split; [done|]. split; [auto|]. intros q s N H.
  destruct (G1 q s N H) as (r1 & l1 & H1). destruct (G2 q _ N H1) as (r2 & l2 & H2). exists r2, l2. by rewrite H2.
Qed.

Lemma others_upd p c f : cache_inv c -> (forall s, s_addr (f s) = s_addr s) -> others p c (upd_insn f p c).
Proof.
  intros I H. split; [by apply upd_insn_inv|]. split.
  - intros q pc. by rewrite points_upd_insn.
  - intros q s N E. rewrite get_upd_insn, decide_False by done. rewrite E. eexists _, _. f_equal. apply latency_same.
Qed.

Lemma put_spec p c s s' : cache_inv c -> get_insn c p = Some s -> s_addr s' = s_addr s ->
  others p c (put p s' c) /\ get_insn (put p s' c) p = Some s'.
Proof.
  intros I H E. unfold put. split.
  - assert (U : upd_insn (fun _ => s') p c = upd_insn (fun x => if s_addr x =? s_addr s' then s' else x) p c).
    { unfold upd_insn, upd_block. f_equal. apply list_eq. intros b. destruct (decide (b = p.1)) as [->|N].
      - rewrite !list_lookup_alter_eq. unfold get_insn in H. destruct (blocks c !! p.1) as [blk|]; [|done]. simpl.
        f_equal. f_equal. apply list_eq. intros j. destruct (decide (j = p.2)) as [->|N].
        + rewrite !list_lookup_alter_eq, H. simpl. by rewrite E, Z.eqb_refl.
        + by rewrite !list_lookup_alter_ne.
      - by rewrite !list_lookup_alter_ne. }
    rewrite U. apply others_upd; [done|]. intros x. destruct (Z.eqb_spec (s_addr x) (s_addr s')); congruence.
  - rewrite get_upd_insn, decide_True by done. by rewrite H.
Qed.

Section Store.
Context (junk : slot) (single_regfile : bool) (PIPELINE_STAGES : Z) (active : gset nat).
#[local] Notation insn_cache_get := (insn_cache_get junk).

Lemma others_get p c pc : cache_inv c -> 0 <= pc < 2 ^ 32 ->
  let '(q, c') := insn_cache_get pc c in
  others p c c' /\ points c' q pc /\ forall r s, get_insn c r = Some s -> get_insn c' r = Some s.
Proof.
  intros I H. pose proof (get_points junk pc c I H) as G. pose proof (get_other junk pc c I H) as O.
  destruct (insn_cache_get pc c) as [q c']. destruct G as (I' & P & K). split; [|done]. split; [done|].
  split; [done|]. intros r s _ E. eexists _, _. rewrite (K _ _ E). f_equal. apply latency_same.
Qed.

(** The next instruction is another one. *)
Lemma next_other c p q s : cache_inv c -> get_insn c p = Some s -> s_size s = 2 \/ s_size s = 4 ->
  points c q (u32 (s_addr s + s_size s)) -> q <> p.
Proof.
  intros I H Hs P ->. destruct (insn_points c p s I H) as (P' & R & Ev).
  pose proof (uw_range 32 (s_addr s + s_size s) ltac:(lia)) as R'.
  pose proof (points_inj c p _ _ R R' P' P) as E. unfold uw in *. Z.div_mod_to_equations. lia.
Qed.

Lemma give_latency_spec reg latency s c p : cache_inv c -> get_insn c p = Some s -> s_size s = 2 \/ s_size s = 4 ->
  others p c (give_latency junk reg latency s c) /\ get_insn (give_latency junk reg latency s c) p = Some s.
Proof.
  intros I H Hs. unfold give_latency. pose proof (uw_range 32 (s_addr s + s_size s) ltac:(lia)) as R.
  pose proof (others_get p c _ I R) as G. destruct (insn_cache_get _ c) as [q c']. destruct G as (O & P & K).
  pose proof (next_other c' p q s (proj1 O) (K _ _ H) Hs P) as N. split.
  - apply (others_trans p c c'); [done|]. destruct O as (I' & _). split; [by apply upd_insn_inv|]. split.
    + intros r pc. by rewrite points_upd_insn.
    + intros r s' Nr E. rewrite get_upd_insn. destruct (decide (r = q)) as [->|Nq].
      * rewrite E. by eexists _, _.
      * rewrite E. eexists _, _. f_equal. apply latency_same.
  - rewrite get_upd_insn, decide_False by done. by apply K.
Qed.

Lemma decode_args_spec p opcode args i s s' c : cache_inv c -> get_insn c p = Some s ->
  s_size s = 2 \/ s_size s = 4 -> forallb arg_ok args = true -> decode_fields single_regfile opcode i args s = Some s' ->
  exists c', decode_args junk single_regfile p opcode i args c = Some c' /\ others p c c' /\ get_insn c' p = Some s'.
Proof.
  revert i s c. induction args as [|a args IH]; intros i s c I H Hs Ha E; simpl in *.
  - injection E as <-. exists c. split; [done|]. split; [by apply others_refl|done].
  - apply andb_true_iff in Ha as [Ha1 Ha]. rewrite H.
    destruct (decode_arg_ok single_regfile opcode i a s Ha1) as (s1 & g & Ed & F & _). rewrite Ed in *.
    unfold fixed in F. assert (Ea : s_addr s1 = s_addr s) by congruence. assert (Ez : s_size s1 = s_size s) by congruence.
    destruct (put_spec p c s s1 I H Ea) as [O1 H1]. rewrite <- Ez in Hs.
    destruct g as [[reg latency]|].
    + destruct (give_latency_spec reg latency s1 _ p (proj1 O1) H1 Hs) as [O2 H2].
      destruct (IH (Datatypes.S i) s1 _ (proj1 O2) H2 Hs Ha E) as (c' & -> & O3 & H3).
      exists c'. eauto using others_trans.
    + destruct (IH (Datatypes.S i) s1 _ (proj1 O1) H1 Hs Ha E) as (c' & -> & O3 & H3). exists c'. eauto using others_trans.
Qed.

(** The instruction after its next one, its target or its constant are computed. *)
Definition linked (d : insn_desc) (c : icache) (s s2 : slot) : Prop :=
  exists next, points c next (u32 (s_addr s + s_size s)) /\ let s1 := set_s_next (Some next) s in
  match it_decode d with
  | None => s2 = s1
  | Some auipc_decode => set_uim 0 (u32 (s_uim 0 s + s_addr s)) s1 = Some s2
  | Some jal_decode => exists target, points c target (u32 (s_addr s + s_sim 0 s)) /\ s2 = set_s_next (Some target) s1
  | Some bxx_decode => exists target, points c target (u32 (s_addr s + s_sim 0 s)) /\ s2 = set_s_branch (Some target) s1
  end.

Lemma upd_step p c f s : cache_inv c -> get_insn c p = Some s -> (forall s, s_addr (f s) = s_addr s) ->
  others p c (upd_insn f p c) /\ get_insn (upd_insn f p c) p = Some (f s).
Proof. intros I H E. split; [by apply others_upd|]. rewrite get_upd_insn, decide_True by done. by rewrite H. Qed.

Lemma run_decode_spec d p c s next : cache_inv c -> get_insn c p = Some (set_s_next (Some next) s) ->
  points c next (u32 (s_addr s + s_size s)) ->
  exists c' s2, (match it_decode d with
                 | Some f => run_decode junk f p (set_s_next (Some next) s) c
                 | None => Some c end) = Some c' /\
  others p c c' /\ get_insn c' p = Some s2 /\ linked d c' s s2.
Proof.
  intros I H P. unfold linked. destruct (it_decode d) as [[]|]; cbn [run_decode].
  - unfold set_uim. destruct (set_word_some (6 + 0) (u32 (s_uim 0 s + s_addr s)) (set_s_next (Some next) s) ltac:(lia)) as [s2 E].
    change (s_uim 0 (set_s_next (Some next) s)) with (s_uim 0 s). change (s_addr (set_s_next (Some next) s)) with (s_addr s). rewrite E.
    destruct (put_spec p c _ s2 I H) as [O G]; [by destruct (set_word_spec _ _ _ _ E) as (_ & _ & [=])|].
    eexists _, s2. split; [done|]. split; [done|]. split; [done|]. exists next. split; [|done]. by apply O.
  - change (s_sim 0 (set_s_next (Some next) s)) with (s_sim 0 s).
    pose proof (others_get p c (u32 (s_addr s + s_sim 0 s)) I (uw_range 32 _ ltac:(lia))) as G.
    destruct (insn_cache_get _ c) as [t c1]. destruct G as (O1 & P1 & K).
    destruct (upd_step p c1 (set_s_next (Some t)) _ (proj1 O1) (K _ _ H) ltac:(done)) as [O2 H2].
    eexists _, _. split; [done|]. split; [by apply (others_trans p c c1)|]. split; [done|]. exists next.
    split; [by apply O2, O1|]. exists t. split; [by apply O2|done].
  - change (s_sim 0 (set_s_next (Some next) s)) with (s_sim 0 s).
    pose proof (others_get p c (u32 (s_addr s + s_sim 0 s)) I (uw_range 32 _ ltac:(lia))) as G.
    destruct (insn_cache_get _ c) as [t c1]. destruct G as (O1 & P1 & K).
    destruct (upd_step p c1 (set_s_branch (Some t)) _ (proj1 O1) (K _ _ H) ltac:(done)) as [O2 H2].
    eexists _, _. split; [done|]. split; [by apply (others_trans p c c1)|]. split; [done|]. exists next.
    split; [by apply O2, O1|]. exists t. split; [by apply O2|done].
  - exists c, (set_s_next (Some next) s). split; [done|]. split; [by apply others_refl|]. split; [done|]. by exists next.
Qed.

Lemma decode_handlers_addr id d s : s_addr (decode_handlers id d s) = s_addr s.
Proof. apply decode_handlers_words. Qed.

Lemma decode_stall_addr s : s_addr (decode_stall s) = s_addr s.
Proof. unfold decode_stall. by destruct (negb _). Qed.

Lemma clear_fields_fixed n opcode args s s1 s2 : Z.of_nat n <= 5 -> forallb arg_ok args = true ->
  clear_regs n 0 s = Some s1 -> decode_fields single_regfile opcode 0 args s1 = Some s2 ->
  s_addr s1 = s_addr s /\ s_size s1 = s_size s /\ s_addr s2 = s_addr s /\ s_size s2 = s_size s.
Proof.
  intros Hn Ha E1 E2. destruct (clear_regs_ok n 0 s ltac:(lia) ltac:(lia)) as (x & E1' & F1 & _).
  destruct (decode_fields_ok single_regfile opcode 0 args s1 Ha) as (y & E2' & F2 & _).
  rewrite E1 in E1'. injection E1' as <-. rewrite E2 in E2'. injection E2' as <-. unfold fixed in *.
  repeat split; congruence.
Qed.

(** An instruction of a well-formed table is always decoded, whatever the opcode, and of the other instructions in
    the cache only the latency of their input can change. *)
Lemma decode_insn_ok c p s opcode id d : cache_inv c -> get_insn c p = Some s -> id ∈ active ->
  args_ok (it_args d) = true -> it_size d = 2 \/ it_size d = 4 ->
  exists c' s1 s2, decode_slot single_regfile PIPELINE_STAGES opcode id d s = Some s1 /\
  decode_insn junk single_regfile PIPELINE_STAGES active p opcode id d c = Some (0, c') /\
  others p c c' /\ linked d c' s1 s2 /\ get_insn c' p = Some (decode_stall s2).
Proof.
  intros I H Hact Hok Hsize. destruct (decode_slot_ok single_regfile PIPELINE_STAGES opcode id d s Hok) as (s1 & E & _ & Ea & Ez).
  pose proof E as E'. unfold decode_slot in E'. unfold args_ok in Hok. apply andb_true_iff in Hok as [Hl Ha].
  apply Nat.leb_le in Hl.
  destruct (clear_regs (length (it_args d)) 0 (decode_handlers id d s)) as [x|] eqn:E1; [|done].
  destruct (decode_fields single_regfile opcode 0 (it_args d) x) as [y|] eqn:E2; [|done]. injection E' as E3.
  destruct (clear_fields_fixed (length (it_args d)) opcode (it_args d) _ x y ltac:(lia) Ha E1 E2) as (A1 & Z1 & A2 & Z2).
  destruct (decode_handlers_words id d s) as (_ & Ah & Zh).
  destruct (upd_step p c (decode_handlers id d) s I H (decode_handlers_addr id d)) as [O1 G1].
  destruct (put_spec p _ _ x (proj1 O1) G1 A1) as [O2 G2].
  destruct (decode_args_spec p opcode (it_args d) 0 x y _ (proj1 O2) G2 ltac:(rewrite Z1, Zh; done) Ha E2) as (c3 & Ed & O3 & G3).
  destruct (put_spec p c3 y s1 (proj1 O3) G3 ltac:(congruence)) as [O4 G4].
  pose proof (others_get p (put p s1 c3) (u32 (s_addr s1 + s_size s1)) (proj1 O4) (uw_range 32 _ ltac:(lia))) as On.
  unfold decode_insn. rewrite bool_decide_true by done. cbn [negb]. rewrite G1, E1, Ed, G3, E3.
  destruct (insn_cache_get _ (put p s1 c3)) as [next c5]. destruct On as (O5 & P5 & K5).
  destruct (upd_step p c5 (set_s_next (Some next)) s1 (proj1 O5) (K5 _ _ G4) ltac:(done)) as [O6 G6].
  destruct (run_decode_spec d p _ s1 next (proj1 O6) G6 (proj1 (proj2 O6) _ _ P5)) as (c7 & s2 & Er & O7 & G7 & L).
  rewrite G6, Er. destruct (upd_step p c7 decode_stall s2 (proj1 O7) G7 decode_stall_addr) as [O8 G8].
  eexists _, s1, s2. split; [done|]. split; [done|]. split; [|split; [|done]].
  - do 7 (eapply others_trans; [eassumption|]). exact O8.
  - destruct L as (nx & Pn & L). exists nx. split; [by apply O8|].
    destruct (it_decode d) as [[]|]; [done| | |done]; destruct L as (t & Pt & L); exists t; (split; [by apply O8|done]).
Qed.

End Store.
(** ** Ends of loops, resources and the flush *)

(** hwloop_set_insn_end of pulp_v2.hpp. *)
Definition hwloop_set_insn_end (insn : slot) : slot :=
  if s_fetched insn then
    match s_hwloop_handler insn with
    | None => set_s_fast_handler hwloop_check_exec (set_s_handler hwloop_check_exec
                (set_s_hwloop_handler (Some (s_handler insn)) insn))
    | Some _ => insn
    end
  else set_s_hwloop_handler (Some hwloop_check_exec) insn.

(** The pointers to instructions that the core keeps (iss_cpu_t, iss_cpu_state_t and iss_irq_t), with the address in
    the prefetcher. *)
Record cpu_insns := CpuInsns {
  k_current_insn : option ptr;
  k_prev_insn : option ptr;
  k_stall_insn : option ptr;
  k_prefetch_insn : option ptr;
  k_hwloop_end_insn_0 : option ptr;
  k_hwloop_end_insn_1 : option ptr;
  k_vectors : list ptr;
  k_debug_handler : option ptr;
  k_vector_base : Z;
  k_prefetcher_addr : Z;
}.

(** iss_isa_tag_t: the leaves of each tag. *)
Definition iss_decode_activate_isa (tags : list (String.string * list nat)) (name : String.string) (active : gset nat) : gset nat :=
  foldl (fun active tag => if String.eqb tag.1 name then active ∪ list_to_set tag.2 else active) active tags.

Section Flush.
Context (junk : slot) (single_regfile : bool) (PIPELINE_STAGES : Z) (active : gset nat) (trees : list item) (trace : bool)
  (priv_1_10 : bool) (config_debug_handler : Z).
#[local] Notation insn_cache_get := (insn_cache_get junk).
#[local] Notation decode := (iss_decode_pc_noexec junk single_regfile PIPELINE_STAGES active trees trace).

Definition insn_addr (c : icache) (p : option ptr) : Z :=
  match p with Some p => match get_insn c p with Some s => s_addr s | None => 0 end | None => 0 end.

(** An instruction that was kept is looked up again. *)
Definition get_again (p : option ptr) (addr : Z) (c : icache) : option ptr * icache :=
  match p with Some _ => let '(p, c) := insn_cache_get addr c in (Some p, c) | None => (None, c) end.

Definition set_end_again (p : option ptr) (addr : Z) (c : icache) : option ptr * icache :=
  match p with
  | Some _ => let '(p, c) := insn_cache_get addr c in (Some p, upd_insn hwloop_set_insn_end p c)
  | None => (None, c)
  end.

(** iss_irq_set_vector_table, for the vector table of iss_irq_flush. *)
Definition get_vectors (base : Z) (c : icache) : list ptr * icache :=
  foldl (fun '(l, c) i => let '(p, c) := insn_cache_get (u32 (base + i * 4)) c in (l ++ [p], c)) ([], c) (seqZ 0 35).

Definition iss_cache_flush (k : cpu_insns) (c : icache) : option (cpu_insns * icache) :=
  let opcode := match k_current_insn k with
                | Some p => match get_insn c p with Some s => s_opcode s | None => 0 end
                | None => 0 end in
  let current_addr := insn_addr c (k_current_insn k) in
  let prev_addr := insn_addr c (k_prev_insn k) in
  let stall_addr := insn_addr c (k_stall_insn k) in
  let stall_addr := match k_prefetch_insn k with Some p => insn_addr c (Some p) | None => stall_addr end in
  let hwloop_end_addr_0 := insn_addr c (k_hwloop_end_insn_0 k) in
  let hwloop_end_addr_1 := insn_addr c (k_hwloop_end_insn_1 k) in
  let c := flush_blocks c in
  let* (current, c) :=
    match k_current_insn k with
    | Some _ =>
      let '(p, c) := insn_cache_get current_addr c in
      let c := upd_insn (fun s => set_s_fetched true (set_s_opcode opcode s)) p c in
      let* c := decode p c in Some (Some p, c)
    | None => Some (None, c)
    end in
  let '(prev, c) := get_again (k_prev_insn k) prev_addr c in
  let '(stall, c) := get_again (k_stall_insn k) stall_addr c in
  let '(prefetch, c) := get_again (k_prefetch_insn k) stall_addr c in
  let '(end0, c) := set_end_again (k_hwloop_end_insn_0 k) hwloop_end_addr_0 c in
  let '(end1, c) := set_end_again (k_hwloop_end_insn_1 k) hwloop_end_addr_1 c in
  let '(vectors, c) := get_vectors (k_vector_base k) c in
  let '(debug_handler, c) :=
    if priv_1_10 then let '(p, c) := insn_cache_get config_debug_handler c in (Some p, c) else (k_debug_handler k, c) in
  Some (CpuInsns current prev stall prefetch end0 end1 vectors debug_handler (k_vector_base k) (u32 (-1)), c).

End Flush.

(** ** The handlers that an instruction runs *)

(** The handler that a wrapping handler calls (exec.hpp, trace.cpp, pulp_v2.hpp, resource.cpp). *)
Definition wrapped (h : fn) (s : slot) : option fn :=
  match h with
  | iss_exec_stalled_insn => Some (s_stall_handler s)
  | iss_exec_stalled_insn_fast => Some (s_stall_fast_handler s)
  | iss_resource_offload => Some (s_resource_handler s)
  | hwloop_check_exec => s_hwloop_handler s
  | iss_exec_insn_with_trace => Some (s_saved_handler s)
  | iss_decode_pc | iss_exec_insn_illegal | insn_fn _ => None
  end.

(** The handlers run from [h], at most [fuel] of them. *)
Fixpoint runs (fuel : nat) (h : fn) (s : slot) : list fn :=
  match fuel with
  | O => []
  | Datatypes.S fuel => h :: match wrapped h s with Some h => runs fuel h s | None => [] end
  end.

Definition opt (b : bool) (h : fn) : list fn := if b then [h] else [].

Definition handlers (s : slot) :=
  (s_fast_handler s, s_handler s, s_resource_handler s, s_hwloop_handler s, s_stall_handler s, s_stall_fast_handler s).

Lemma runs_ext fuel h s s' : handlers s = handlers s' -> s_saved_handler s = s_saved_handler s' -> runs fuel h s = runs fuel h s'.
Proof.
  unfold handlers. intros E E'. revert h. induction fuel as [|fuel IH]; intros h; simpl; [done|]. f_equal.
  assert (W : wrapped h s = wrapped h s') by (destruct h; simpl; congruence). rewrite W. by destruct (wrapped h s').
Qed.

Lemma decode_handlers_handlers id d s : handlers (decode_handlers id d s) =
  let '(f, h) := match s_hwloop_handler s with Some c => (c, c) | None => (it_fast_handler d, it_handler d) end in
  let r := negb (it_resource_id d =? -1) in
  (if r then iss_resource_offload else f, if r then iss_resource_offload else h, if r then h else s_resource_handler s,
   match s_hwloop_handler s with Some _ => Some (it_handler d) | None => None end, s_stall_handler s, s_stall_fast_handler s).
Proof.
  destruct s. unfold decode_handlers. cbn -[Z.eqb]. destruct s_hwloop_handler, (it_resource_id d =? -1); reflexivity.
Qed.

Lemma linked_handlers d c s s2 : linked d c s s2 -> handlers s2 = handlers s /\ s_latency s2 = s_latency s.
Proof.
  intros (next & _ & L). destruct (it_decode d) as [[]|].
  - destruct (set_word_spec _ _ _ _ L) as (_ & _ & F). unfold fixed in F. unfold handlers. cbn in F. split; congruence.
  - by destruct L as (t & _ & ->).
  - by destruct L as (t & _ & ->).
  - cbv zeta in L. by rewrite L.
Qed.

Lemma decode_slot_handlers single_regfile stages opcode id d s s1 : args_ok (it_args d) = true ->
  decode_slot single_regfile stages opcode id d s = Some s1 -> handlers s1 = handlers (decode_handlers id d s).
Proof.
  unfold decode_slot, args_ok. rewrite andb_true_iff, Nat.leb_le. intros [Hl Ha].
  destruct (clear_regs_ok (length (it_args d)) 0 (decode_handlers id d s) ltac:(lia) ltac:(lia)) as (x & -> & F1 & _).
  destruct (decode_fields_ok single_regfile opcode 0 (it_args d) x Ha) as (y & -> & F2 & _). intros H. injection H as <-.
  assert (E : handlers (decode_latency stages y) = handlers y) by (unfold decode_latency; repeat case_match; done).
  rewrite E. unfold handlers, fixed in *. congruence.
Qed.

(** the handlers of a decoded instruction: executing it accounts its stall, then its resource, then checks for
    the end of a loop, each exactly when the instruction has one, and then runs the handler of its table, once; the
    fast handlers do the same with the fast handler of the table, unless a resource or an end of loop selects the
    other one. *)
Theorem decoded_handlers single_regfile stages opcode id d s s1 c s2 a b :
  args_ok (it_args d) = true -> it_handler d = insn_fn a -> it_fast_handler d = insn_fn b ->
  s_hwloop_handler s = None \/ s_hwloop_handler s = Some hwloop_check_exec ->
  decode_slot single_regfile stages opcode id d s = Some s1 -> linked d c s1 s2 ->
  let s' := decode_stall s2 in
  let stalls := negb (s_latency s1 =? 0) in
  let resource := negb (it_resource_id d =? -1) in
  let loop_end := match s_hwloop_handler s with Some _ => true | None => false end in
  runs 4 (s_handler s') s' =
    opt stalls iss_exec_stalled_insn ++ opt resource iss_resource_offload ++ opt loop_end hwloop_check_exec ++ [it_handler d] /\
  runs 4 (s_fast_handler s') s' =
    opt stalls iss_exec_stalled_insn_fast ++ opt resource iss_resource_offload ++ opt loop_end hwloop_check_exec ++
    [if resource || loop_end then it_handler d else it_fast_handler d].
Proof.
  intros Hok Ha Hb Hh E L s' stalls resource loop_end.
  destruct (linked_handlers d c s1 s2 L) as [H2 El]. rewrite (decode_slot_handlers _ _ _ _ _ _ _ Hok E) in H2.
  rewrite decode_handlers_handlers in H2. unfold s', stalls, resource, loop_end, decode_stall. rewrite El.
  unfold handlers in H2. generalize (s_latency s1). intros latency.
  clear -H2 Ha Hb Hh. generalize dependent (s_hwloop_handler s). intros h Hh H2. destruct s2. cbn -[Z.eqb] in *. rewrite Ha, Hb in *.
  destruct Hh as [-> | ->]; destruct (it_resource_id d =? -1), (latency =? 0); cbn in *; injection H2 as -> -> -> -> -> ->; done.
Qed.

(** ** Trees *)

(** Tables that can be decoded with: fields within the opcode, and well-formed instructions. *)
Definition desc_ok (d : insn_desc) : bool := args_ok (it_args d) && ((it_size d =? 2) || (it_size d =? 4)).
Fixpoint tree_ok (it : item) : bool :=
  match it with
  | Leaf _ _ _ d => desc_ok d
  | Group _ _ bit width groups => (0 <=? bit) && (bit <? 32) && (0 <=? width) && (width <? 64) && forallb tree_ok groups
  end.

Lemma item_nested_ind (P : item -> Prop) :
  (forall o op id d, P (Leaf o op id d)) ->
  (forall o op bit width groups, (forall it, it ∈ groups -> P it) -> P (Group o op bit width groups)) -> forall it, P it.
Proof.
  intros HL HG. fix IH 1. intros [o op id d|o op bit width groups]; [apply HL|]. apply HG.
  induction groups as [|x l IHl].
  - clear IH. intros it H. by apply not_elem_of_nil in H.
  - intros it H. apply elem_of_cons in H as [->|H]; [apply IH|exact (IHl it H)].
Qed.

(** The item that a group chooses: the first of its opcode, or else the last of those for the other opcodes. *)
Definition choose (g : Z) (groups : list item) : option item :=
  match list_find (fun it => item_opcode it = g /\ item_others it = false) groups with
  | Some (_, it) => Some it
  | None => last (filter (fun it => item_others it = true) groups)
  end.

Lemma select_group opcode o op bit width groups : 0 <= bit < 32 -> 0 <= width < 64 ->
  select opcode (Group o op bit width groups) =
  match choose (Z.land (Z.shiftr opcode bit) (u32 (Z.shiftl 1 width - 1))) groups with
  | Some it => select opcode it
  | None => Some None
  end.
Proof.
  intros Hb Hw. cbn [select]. unfold group_opcode. rewrite shr_some, shl_some by lia.
  set (g := Z.land _ _).
  match goal with |- ?f groups None = _ => set (walk := f) end.
  assert (W : forall l other, walk l other =
    match list_find (fun it => item_opcode it = g /\ item_others it = false) l with
    | Some (_, it) => select opcode it
    | None => match last (filter (fun it => item_others it = true) l) with
              | Some it => select opcode it
              | None => match other with Some r => r | None => Some None end
              end
    end).
  { induction l as [|it l IH]; intros other; [done|]. cbn [list_find]. simpl (walk (it :: l) other).
    destruct (Z.eqb_spec g (item_opcode it)) as [E|E], (item_others it) eqn:Eo; cbn [andb negb].
    - rewrite decide_False by (intros [_ ?]; congruence). rewrite IH, filter_cons_True by done.
      destruct (list_find _ l) as [[]|]; [done|]. cbn. rewrite last_cons. by destruct (last _).
    - by rewrite decide_True by done.
    - rewrite decide_False by (intros [? ?]; congruence). rewrite IH, filter_cons_True by done.
      destruct (list_find _ l) as [[]|]; [done|]. cbn. rewrite last_cons. by destruct (last _).
    - rewrite decide_False by (intros [? ?]; congruence). rewrite IH, filter_cons_False by congruence.
      by destruct (list_find _ l) as [[]|]. }
  rewrite W. unfold choose. destruct (list_find _ groups) as [[]|]; [done|]. by destruct (last _).
Qed.

Lemma choose_elem g groups it : choose g groups = Some it -> it ∈ groups /\
  (item_others it = false -> item_opcode it = g).
Proof.
  unfold choose. destruct (list_find _ groups) as [[i x]|] eqn:E.
  - intros [= ->]. apply list_find_Some in E as (H & [E1 E2] & _). split; [by eapply list_elem_of_lookup_2|done].
  - intros H. apply last_Some_elem_of in H. apply list_elem_of_filter in H as [H1 H2]. split; [done|intros; congruence].
Qed.

(** A walk ends in a leaf that is well formed, or in none. *)
Lemma select_ok opcode it : tree_ok it = true -> exists r, select opcode it = Some r /\
  match r with Some (_, d) => desc_ok d = true | None => True end.
Proof.
  induction it as [o op id d|o op bit width groups IH] using item_nested_ind; intros H.
  - by eexists.
  - cbn [tree_ok] in H. rewrite !andb_true_iff, !Z.leb_le, !Z.ltb_lt in H. destruct H as ((((H1 & H2) & H3) & H4) & H5).
    rewrite select_group by lia. destruct (choose _ groups) as [it|] eqn:E; [|by eexists].
    apply choose_elem in E as [Hin _]. apply IH; [done|]. rewrite forallb_forall in H5. by apply H5, list_elem_of_In.
Qed.

Section Total.
Context (junk : slot) (single_regfile : bool) (PIPELINE_STAGES : Z) (active : gset nat).
#[local] Notation decode_opcode := (decode_opcode junk single_regfile PIPELINE_STAGES active).
#[local] Notation decode := (iss_decode_pc_noexec junk single_regfile PIPELINE_STAGES active).

Lemma decode_opcode_total trees p opcode c s : cache_inv c -> get_insn c p = Some s -> forallb tree_ok trees = true ->
  exists r c', decode_opcode p opcode trees c = Some (r, c') /\ others p c c' /\ is_Some (get_insn c' p) /\
  (r = -1 -> c' = c) /\ (r = -1 \/ r = 0).
Proof.
  intros I H Ht. induction trees as [|t trees IH]; cbn [Decoder.decode_opcode].
  - exists (-1), c. split; [done|]. split; [by apply others_refl|]. rewrite H. auto.
  - simpl in Ht. apply andb_true_iff in Ht as [Ht Hts]. specialize (IH Hts). unfold decode_item.
    destruct (select_ok opcode t Ht) as (r & -> & Hr). destruct r as [[id d]|]; [|by apply IH].
    destruct (decide (id ∈ active)) as [Ha|Ha].
    + apply andb_true_iff in Hr as [Hr Hz]. rewrite orb_true_iff, !Z.eqb_eq in Hz.
      destruct (decode_insn_ok junk single_regfile PIPELINE_STAGES active c p s opcode id d I H Ha Hr Hz)
        as (c' & s1 & s2 & _ & -> & O & _ & G). exists 0, c'. rewrite G. split; [done|]. split; [done|].
      split; [done|]. split; [lia|auto].
    + unfold decode_insn. rewrite bool_decide_false by done. by apply IH.
Qed.

Lemma decode_total trees trace p c s : cache_inv c -> get_insn c p = Some s -> forallb tree_ok trees = true ->
  exists c', decode trees trace p c = Some c' /\ others p c c'.
Proof.
  intros I H Ht. unfold iss_decode_pc_noexec. rewrite H.
  destruct (decode_opcode_total trees p (s_opcode s) c s I H Ht) as (r & c1 & -> & O & _ & _ & Hr).
  assert (U : forall f, (forall s, s_addr (f s) = s_addr s) -> others p c (upd_insn f p c1)).
  { intros f Hf. apply (others_trans p c c1); [done|]. apply others_upd; [apply O|done]. }
  pose proof (U (set_s_opcode (s_opcode s)) ltac:(done)) as O1. destruct Hr as [-> | ->]; cbn.
  - eexists. split; [done|]. by apply U.
  - destruct trace; eexists; (split; [done|]); [|done].
    apply (others_trans p c _ _ O1). apply others_upd; [apply O1|done].
Qed.

End Total.

(** ** The flush *)

Lemma insn_addr_points c p : cache_inv c -> is_Some (get_insn c p) ->
  points c p (insn_addr c (Some p)) /\ 0 <= insn_addr c (Some p) < 2 ^ 32.
Proof. intros I [s H]. unfold insn_addr. rewrite H. destruct (insn_points c p s I H) as (? & ? & _). done. Qed.

Lemma points_flush c p pc : cache_inv c -> 0 <= pc < 2 ^ 32 -> points c p pc -> points (flush_blocks c) p pc.
Proof.
  intros I H P. destruct (points_valid c p pc I H P) as (s & G & A).
  destruct (flush_blocks_spec c p I) as [I' G']. rewrite G in G'.
  destruct (insn_points _ p _ I' G') as ([Hi (blk & Hb & E)] & R & _). cbn in Hi, E, R. rewrite A in *.
  destruct (same_half (2 * (pc / 2)) pc R H) as [E1 E2]; [Z.div_mod_to_equations; lia|].
  split; [by rewrite <- E2|]. exists blk. by rewrite <- E1.
Qed.

Section FlushSpec.
Context (junk : slot) (single_regfile : bool) (PIPELINE_STAGES : Z) (active : gset nat) (trees : list item) (trace : bool)
  (priv_1_10 : bool) (config_debug_handler : Z).
#[local] Notation flush := (iss_cache_flush junk single_regfile PIPELINE_STAGES active trees trace priv_1_10 config_debug_handler).

(** Pointers of [c] that are in [c'], for the same addresses. *)
Definition kept (c c' : icache) : Prop := cache_inv c' /\ forall q pc, 0 <= pc < 2 ^ 32 -> points c q pc -> points c' q pc.

Lemma kept_trans c1 c2 c3 : kept c1 c2 -> kept c2 c3 -> kept c1 c3.
Proof. intros [] []. split; auto. Qed.
Lemma kept_upd c f p : cache_inv c -> (forall s, s_addr (f s) = s_addr s) -> kept c (upd_insn f p c).
Proof. intros I H. split; [by apply upd_insn_inv|]. intros q pc _. by rewrite points_upd_insn. Qed.
Lemma kept_others p c c' : others p c c' -> kept c c'.
Proof. intros (I & P & _). split; auto. Qed.

Lemma get_again_spec c0 c p : cache_inv c0 -> kept c0 c -> (forall q, p = Some q -> is_Some (get_insn c0 q)) ->
  get_again junk p (insn_addr c0 p) c = (p, c).
Proof.
  intros I0 [I K] H. destruct p as [q|]; [|done]. destruct (insn_addr_points c0 q I0 (H q eq_refl)) as [P R].
  unfold get_again. by rewrite (get_hit junk _ c q I R (K _ _ R P)).
Qed.

Lemma set_end_again_spec c0 c p : cache_inv c0 -> kept c0 c -> (forall q, p = Some q -> is_Some (get_insn c0 q)) ->
  exists c', set_end_again junk p (insn_addr c0 p) c = (p, c') /\ kept c c'.
Proof.
  intros I0 [I K] H. destruct p as [q|]; [|by exists c].
  destruct (insn_addr_points c0 q I0 (H q eq_refl)) as [P R].
  unfold set_end_again. rewrite (get_hit junk _ c q I R (K _ _ R P)). eexists. split; [done|]. apply kept_upd; [done|].
  intros s. unfold hwloop_set_insn_end. by destruct (s_fetched s), (s_hwloop_handler s).
Qed.

Lemma get_vectors_spec base c : cache_inv c -> let '(l, c') := get_vectors junk base c in
  kept c c' /\ length l = 35%nat /\ forall (i : nat) p, l !! i = Some p -> points c' p (u32 (base + Z.of_nat i * 4)).
Proof.
  intros I. unfold get_vectors.
  assert (G : forall n m c l, cache_inv c -> length l = m ->
    (forall i p, l !! i = Some p -> points c p (u32 (base + Z.of_nat i * 4))) ->
    let '(l', c') := foldl (fun '(l, c) i => let '(p, c) := insn_cache_get junk (u32 (base + i * 4)) c in (l ++ [p], c)) (l, c)
      (seqZ (Z.of_nat m) (Z.of_nat n)) in
    kept c c' /\ length l' = (m + n)%nat /\ forall i p, l' !! i = Some p -> points c' p (u32 (base + Z.of_nat i * 4))).
  { clear I c. induction n as [|n IH]; intros m c l I Hl Hp; [cbn; split; [done|split; [lia|done]]|].
    rewrite Nat2Z.inj_succ, seqZ_cons, Z.pred_succ, <- Nat2Z.inj_succ by lia. cbn [foldl].
    pose proof (get_points junk (u32 (base + Z.of_nat m * 4)) c I (uw_range 32 _ ltac:(lia))) as Gp.
    pose proof (get_other junk (u32 (base + Z.of_nat m * 4)) c I (uw_range 32 _ ltac:(lia))) as Go.
    destruct (insn_cache_get junk _ c) as [p c1]. destruct Gp as (I1 & P1 & _).
    specialize (IH (Datatypes.S m) c1 (l ++ [p]) I1 ltac:(rewrite length_app; simpl; lia)).
    destruct (foldl _ _ _) as [l' c']. destruct IH as (K & L & P).
    - intros i q Hq. apply lookup_app_Some in Hq as [Hq|[Hi Hq]]; [by apply Go, Hp|].
      apply list_lookup_singleton_Some in Hq as [Hi' ->]. replace i with m by lia. done.
    - split; [|split; [lia|done]]. apply (kept_trans c c1); [|done]. split; [done|]. intros q pc _. apply Go. }
  specialize (G 35%nat 0%nat c [] I eq_refl ltac:(intros ? ? [=])). exact G.
Qed.

(** C18: after a flush, whether or not an instruction is being fetched, the core designates the same instructions as
    before: the cache keeps its blocks, and each pointer is the one for the address that it had; except that the
    stalled instruction, when a fetch was once missed, becomes the instruction of that fetch. *)
Theorem flush_keeps_pointers k c : cache_inv c -> forallb tree_ok trees = true -> 0 <= config_debug_handler < 2 ^ 32 ->
  Forall (fun p => forall q, p = Some q -> is_Some (get_insn c q))
    [k_current_insn k; k_prev_insn k; k_stall_insn k; k_prefetch_insn k; k_hwloop_end_insn_0 k; k_hwloop_end_insn_1 k] ->
  exists k' c', flush k c = Some (k', c') /\ kept c c' /\
  k_current_insn k' = k_current_insn k /\ k_prev_insn k' = k_prev_insn k /\ k_prefetch_insn k' = k_prefetch_insn k /\
  k_hwloop_end_insn_0 k' = k_hwloop_end_insn_0 k /\ k_hwloop_end_insn_1 k' = k_hwloop_end_insn_1 k /\
  k_stall_insn k' = (match k_stall_insn k, k_prefetch_insn k with Some _, Some q => Some q | p, _ => p end) /\
  length (k_vectors k') = 35%nat /\
  (forall (i : nat) p, k_vectors k' !! i = Some p -> points c' p (u32 (k_vector_base k + Z.of_nat i * 4))) /\
  (priv_1_10 = true -> exists p, k_debug_handler k' = Some p /\ points c' p config_debug_handler).
Proof.
  intros I Ht Hd Hk. rewrite !Forall_cons in Hk. destruct Hk as (Hc & Hp & Hs & Hf & H0 & H1 & _).
  assert (K1 : kept c (flush_blocks c)).
  { split; [by apply (flush_blocks_spec c (0%nat, 0%nat))|]. intros. by apply points_flush. }
  unfold iss_cache_flush. set (c1 := flush_blocks c) in *.
  match goal with |- context [match ?t with Some p => _ | None => None end] =>
    assert (exists c2, t = Some (k_current_insn k, c2) /\ kept c c2) as (c2 & -> & K2) end.
  { destruct (k_current_insn k) as [p|] eqn:Ec; [|by exists c1].
    destruct (insn_addr_points c p I (Hc p eq_refl)) as [P R]. rewrite (get_hit junk _ c1 p (proj1 K1) R (proj2 K1 _ _ R P)).
    set (o := match get_insn c p with Some s => s_opcode s | None => 0 end).
    assert (Kf : kept c1 (upd_insn (fun s => set_s_fetched true (set_s_opcode o s)) p c1)) by (by apply kept_upd; [apply K1|]).
    destruct (points_valid _ p _ (proj1 Kf) R (proj2 Kf _ _ R (proj2 K1 _ _ R P))) as (s & G & _).
    destruct (decode_total junk single_regfile PIPELINE_STAGES active trees trace p _ s (proj1 Kf) G Ht) as (c2 & -> & O).
    exists c2. split; [done|]. eauto using kept_trans, kept_others. }
  rewrite (get_again_spec c c2 (k_prev_insn k)) by done.
  assert (Es : get_again junk (k_stall_insn k)
      (match k_prefetch_insn k with Some p => insn_addr c (Some p) | None => insn_addr c (k_stall_insn k) end) c2 =
    (match k_stall_insn k, k_prefetch_insn k with Some _, Some q => Some q | p, _ => p end, c2)).
  { destruct (k_prefetch_insn k) as [q|] eqn:Eq; [|destruct (k_stall_insn k); by apply (get_again_spec c)].
    destruct (k_stall_insn k); [|done]. rewrite <- (get_again_spec c c2 (Some q)) by done. done. }
  rewrite Es.
  assert (Ef : get_again junk (k_prefetch_insn k)
      (match k_prefetch_insn k with Some p => insn_addr c (Some p) | None => insn_addr c (k_stall_insn k) end) c2 =
    (k_prefetch_insn k, c2)).
  { destruct (k_prefetch_insn k) as [q|] eqn:Eq; [by apply (get_again_spec c)|done]. }
  rewrite Ef.
  destruct (set_end_again_spec c c2 (k_hwloop_end_insn_0 k) I K2 H0) as (c3 & -> & K3).
  assert (K03 : kept c c3) by (by apply (kept_trans c c2)).
  destruct (set_end_again_spec c c3 (k_hwloop_end_insn_1 k) I K03 H1) as (c4 & -> & K4).
  assert (K04 : kept c c4) by (by apply (kept_trans c c3)).
  pose proof (get_vectors_spec (k_vector_base k) c4 (proj1 K04)) as V. destruct (get_vectors _ _ c4) as [l c5].
  destruct V as (K5 & L & V). assert (K05 : kept c c5) by (by apply (kept_trans c c4)). destruct priv_1_10.
  - pose proof (get_points junk config_debug_handler c5 (proj1 K05) Hd) as G.
    pose proof (get_other junk config_debug_handler c5 (proj1 K05) Hd) as O.
    destruct (insn_cache_get junk config_debug_handler c5) as [p c6]. destruct G as (I6 & P6 & _).
    eexists _, c6. split; [done|]. cbn. split; [apply (kept_trans c c5); [done|split; [done|auto]]|].
    repeat (split; [done|]). split; [intros i q Hq; apply O, (V i q Hq)|]. intros _. by exists p.
  - eexists _, c5. split; [done|]. cbn. done.
Qed.

End FlushSpec.

(** ** Examples *)

Lemma decode_ranges_roundtrip_witness :
  decode_ranges (Z.lor 0x00208063 (scatter (-6) [Range 7 1 11; Range 8 4 1; Range 25 6 5; Range 31 1 12]))
    [Range 7 1 11; Range 8 4 1; Range 25 6 5; Range 31 1 12] true = Some (u32 (-6)).
Proof.
  apply (decode_ranges_roundtrip [Range 7 1 11; Range 8 4 1; Range 25 6 5; Range 31 1 12] true (-6) 0x00208063 0).
  - vm_compute. reflexivity.
  - vm_compute. reflexivity.
  - split; [vm_compute; split; congruence|vm_compute; reflexivity].
  - vm_compute. reflexivity.
Defined.

(** mul, with a resource and a stall. *)
Definition demo_desc : insn_desc :=
  InsnDesc (insn_fn 4) (insn_fn 5) None 4 3
    [ISS_DECODER_ARG_TYPE_REG true 0 (RegDesc 0 0 0 (ISS_DECODER_VALUE_TYPE_RANGE [Range 7 5 0]));
     ISS_DECODER_ARG_TYPE_REG false 0 (RegDesc 0 0 0 (ISS_DECODER_VALUE_TYPE_RANGE [Range 15 5 0]));
     ISS_DECODER_ARG_TYPE_REG false 0 (RegDesc 1 0 0 (ISS_DECODER_VALUE_TYPE_RANGE [Range 20 5 0]))] 0 2 1.
(** The instruction at 0xfe, which ends a loop. *)
Definition demo_start : slot := set_s_addr 0xfe (set_s_hwloop_handler (Some hwloop_check_exec) demo_slot).
Definition demo_decoded : slot := default blank (decode_slot false 2 0x02208133 0 demo_desc demo_start).
Definition demo_linked : slot := set_s_next (Some demo_ptr) demo_decoded.

Lemma decoded_handlers_witness :
  runs 4 (s_handler (decode_stall demo_linked)) (decode_stall demo_linked) =
  [iss_exec_stalled_insn; iss_resource_offload; hwloop_check_exec; insn_fn 4].
Proof.
  assert (E : decode_slot false 2 0x02208133 0 demo_desc demo_start = Some demo_decoded) by (vm_compute; reflexivity).
  assert (L : linked demo_desc demo_cache demo_decoded demo_linked).
  { exists demo_ptr. split; [|reflexivity]. split; [vm_compute; reflexivity|].
    eexists. split; [vm_compute; reflexivity|vm_compute; reflexivity]. }
  exact (proj1 (decoded_handlers false 2 0x02208133 0 demo_desc demo_start demo_decoded demo_cache demo_linked 4 5
    eq_refl eq_refl eq_refl (or_intror eq_refl) E L)).
Defined.

Lemma flush_keeps_pointers_witness : exists k' c',
  iss_cache_flush blank false 2 {[0%nat]} [Leaf false 0 0 demo_desc] false false 0
    (CpuInsns (Some demo_ptr) None None (Some demo_ptr) None None [] None 0x100 0) demo_cache = Some (k', c') /\
  k_current_insn k' = Some demo_ptr /\ k_stall_insn k' = None /\ length (k_vectors k') = 35%nat.
Proof.
  edestruct (flush_keeps_pointers blank false 2 {[0%nat]} [Leaf false 0 0 demo_desc] false false 0
    (CpuInsns (Some demo_ptr) None None (Some demo_ptr) None None [] None 0x100 0) demo_cache demo_cache_inv)
    as (k' & c' & E & _ & A & _ & _ & _ & _ & B & C & _).
  - vm_compute. reflexivity.
  - lia.
  - repeat constructor; cbn; intros q Hq; try discriminate Hq; injection Hq as <-; rewrite demo_insn; eexists; reflexivity.
  - exists k', c'. split; [exact E|]. split; [exact A|]. split; [exact B|exact C].
Defined.
