(* ===== verification/Decoded.v ===== *)
(** * Decoded instructions and their execution
    (models/cpu/iss/src/decoder.cpp, resource.cpp, models/cpu/iss/include/exec.hpp)

    What the instruction that decoding leaves in the cache is for the handlers of Rv32.v and the files on it, and
    the handlers that wrap those: stalls for a dependency, and the resources that cores share. *)

From S2P Require Import Prelude Io Memory InsnCache Decoder.
From S2P Require Rv32.

(** ** The instruction seen by its handler *)

(** A pointer of an instruction, by the address of what it points to. *)
Definition ptr_addr (c : icache) (p : option ptr) : Z := insn_addr c p.
#[local] Arguments ptr_addr : simpl never.

(** The fields of an instruction that handlers use, as C reads them. *)
Definition view (c : icache) (s : slot) : Rv32.iss_insn :=
  Rv32.Insn (s_addr s) (s_size s) ((fun k => s_in_reg k s) <$> seq 0 3) ((fun k => s32 (word k s)) <$> seq 0 3)
    ((fun k => s_uim k s) <$> seq 0 4) ((fun k => s_sim k s) <$> seq 0 4) (ptr_addr c (s_next s)) (ptr_addr c (s_branch s)).

Lemma points_addr c p pc : cache_inv c -> 0 <= pc < 2 ^ 32 -> points c p pc -> ptr_addr c (Some p) = Rv32.insn_cache_get pc.
Proof.
  intros I H P. destruct (points_valid c p pc I H P) as (s & G & A). unfold ptr_addr, insn_addr. rewrite G, A.
  rewrite Rv32.insn_cache_get_even by done. Z.div_mod_to_equations. lia.
Qed.

Lemma word_set k j v s s' : length (s_words s) = 14%nat -> set_word k v s = Some s' ->
  word j s' = if decide (j = Z.to_nat k) then v else word j s.
Proof.
  intros L E. destruct (set_word_spec _ _ _ _ E) as (Hk & W & _). unfold word. rewrite W.
  destruct (decide (j = Z.to_nat k)) as [->|N].
  - by rewrite list_lookup_insert_eq by lia.
  - by rewrite list_lookup_insert_ne by done.
Qed.

(** The view with the next instruction of the cache. *)
Definition sequential_view (c : icache) (s : slot) : Rv32.iss_insn :=
  let v := view c s in
  Rv32.Insn (Rv32.i_addr v) (Rv32.i_size v) (Rv32.in_regs v) (Rv32.out_regs v) (Rv32.i_uim v) (Rv32.i_sim v)
    (Rv32.insn_cache_get (u32 (s_addr s + s_size s))) (Rv32.i_branch v).

Lemma view_stall c s : view c (decode_stall s) = view c s.
Proof. unfold decode_stall. by destruct (negb _). Qed.

Lemma view_insn_ok c s : Rv32.insn_ok (view c s).
Proof.
  split; intros k; unfold Rv32.SIM_GET, Rv32.UIM_GET, view; simpl;
    do 4 (destruct k as [|k]; [first [apply (sw_range 32); lia|apply (uw_range 32); lia]|]); simpl; rewrite ?lookup_nil; simpl; lia.
Qed.

Lemma view_linked d c s s2 : cache_inv c -> length (s_words s) = 14%nat -> linked d c s s2 ->
  view c s2 = match it_decode d with
              | None => sequential_view c s
              | Some auipc_decode => Rv32.auipc_decode (sequential_view c s)
              | Some jal_decode => Rv32.jal_decode (sequential_view c s)
              | Some bxx_decode => Rv32.bxx_decode (sequential_view c s)
              end.
Proof.
  intros I Lw (next & Pn & L). apply points_addr in Pn as En; [|done|apply uw_range; lia].
  unfold sequential_view, Rv32.auipc_decode, Rv32.jal_decode, Rv32.bxx_decode, Rv32.UIM_GET, Rv32.SIM_GET.
  destruct (it_decode d) as [[]|].
  - pose proof (fun j => word_set (6 + 0) j _ (set_s_next (Some next) s) s2 Lw L) as W.
    destruct (set_word_spec _ _ _ _ L) as (_ & _ & F). unfold fixed in F. cbn in F.
    unfold view, s_in_reg, s_uim, s_sim. simpl. rewrite !W. simpl. rewrite (uw_idemp 32) by lia.
    assert (s_addr s2 = s_addr s) as -> by congruence. assert (s_size s2 = s_size s) as -> by congruence.
    assert (s_branch s2 = s_branch s) as -> by congruence. assert (s_next s2 = Some next) as -> by congruence.
    by rewrite En.
  - destruct L as (t & Pt & ->). apply points_addr in Pt as Et; [|done|apply uw_range; lia].
    unfold view. simpl. by rewrite Et.
  - destruct L as (t & Pt & ->). apply points_addr in Pt as Et; [|done|apply uw_range; lia].
    unfold view. simpl. by rewrite Et, En.
  - cbv zeta in L. subst. unfold view. simpl. by rewrite En.
Qed.

(** what the handlers of a decoded instruction get from it is the instruction of Rv32.v: its immediates are
    words, the next instruction and the target of a branch are those of the cache, by their addresses, and the
    functions that end the decoding of auipc, jal and the branches are those of that model; its registers are
    those that it had, none, or numbers of registers. *)
Theorem decoded_view junk single_regfile stages active c p s opcode id d : cache_inv c -> get_insn c p = Some s ->
  id ∈ active -> args_ok (it_args d) = true -> it_size d = 2 \/ it_size d = 4 -> length (s_words s) = 14%nat ->
  exists c' s1 s', decode_insn junk single_regfile stages active p opcode id d c = Some (0, c') /\
  get_insn c' p = Some s' /\ decode_slot single_regfile stages opcode id d s = Some s1 /\ regs_ok s s1 /\
  s_addr s1 = s_addr s /\ s_size s1 = it_size d /\ Rv32.insn_ok (view c' s') /\
  view c' s' = match it_decode d with
               | None => sequential_view c' s1
               | Some auipc_decode => Rv32.auipc_decode (sequential_view c' s1)
               | Some jal_decode => Rv32.jal_decode (sequential_view c' s1)
               | Some bxx_decode => Rv32.bxx_decode (sequential_view c' s1)
               end.
Proof.
  intros I H Ha Hok Hz Lw.
  destruct (decode_insn_ok junk single_regfile stages active c p s opcode id d I H Ha Hok Hz)
    as (c' & s1 & s2 & E & D & O & L & G).
  destruct (decode_slot_ok single_regfile stages opcode id d s Hok) as (x & E' & R & A & Z).
  rewrite E in E'. injection E' as <-. exists c', s1, (decode_stall s2). repeat (split; [done|]).
  split; [apply view_insn_ok|]. rewrite view_stall. apply view_linked; [apply O| |done].
  destruct R as [-> _]. done.
Qed.

(** ** Stalls and resources (exec.hpp, resource.cpp) *)

Definition CSR_PCER_LD_STALL : Z := 2.
Definition CSR_PCER_INSN_CONT : Z := 30.

Section Wrapping.
Context {S : Type}.
#[local] Notation iss := (Rv32.iss (S := S)).
#[local] Notation handler := (Rv32.iss_insn -> iss -> option (Z * iss)).

Definition iss_exec_stalled_insn_fast (latency : Z) (stall_fast_handler : handler) : handler := fun i st =>
  stall_fast_handler i (Rv32.set_cpu (Rv32.iss_perf_account_dependency_stall latency (Rv32.cpu st)) st).

Definition iss_exec_stalled_insn (latency : Z) (stall_handler : handler) : handler := fun i st =>
  let c := Rv32.iss_perf_account_dependency_stall latency (Rv32.cpu st) in
  stall_handler i (Rv32.set_cpu (Rv32.iss_pccr_account_event CSR_PCER_LD_STALL 1 c) st).

(** The resources of the instruction set, shared by the cores: for each, the cycle at which each of its
    instances can be accessed. *)
#[local] Abbreviation resources := (list (list Z)).

(** iss_resource_init, of one more core: the instances that it adds to each resource, of which there are [nb]. *)
Definition iss_resource_init (nb : list nat) (r : resources) : resources :=
  zip_with (fun n instances => instances ++ replicate n 0) nb r.

(** The instance that a core is given: the first. *)
Definition instance (id : nat) (r : resources) : option Z := let* l := r !! id in head l.
Definition set_instance (id : nat) (cycles : Z) (r : resources) : resources :=
  alter (fun l => match l with [] => [] | _ :: l => cycles :: l end) id r.

(** [now]: the cycle of the clock. *)
Definition iss_resource_offload (id : nat) (latency bandwidth now : Z) (resource_handler : handler) (i : Rv32.iss_insn)
    (t : iss * resources) : option (Z * (iss * resources)) :=
  let '(st, r) := t in
  let* ready := instance id r in
  let '(c, cycles, ready) :=
    if now <? ready then
      let cycles := ready - now in
      (Rv32.iss_pccr_account_event CSR_PCER_INSN_CONT (s32 cycles) (Rv32.cpu st), cycles, ready + bandwidth)
    else (Rv32.cpu st, 0, now + bandwidth) in
  let c := Rv32.set_insn_cycles (Rv32.insn_cycles c + cycles + latency - 1) c in
  let* (next, st) := resource_handler i (Rv32.set_cpu c st) in
  Some (next, (st, set_instance id ready r)).

(** The state in which the instruction is run, after a wait of [d] cycles. *)
Definition waited (d latency : Z) (st : iss) : iss :=
  let c := if 0 <? d then Rv32.iss_pccr_account_event CSR_PCER_INSN_CONT (s32 d) (Rv32.cpu st) else Rv32.cpu st in
  Rv32.set_cpu (Rv32.set_insn_cycles (Rv32.insn_cycles c + d + latency - 1) c) st.

Lemma offload_spec id latency bandwidth now h i st r ready : instance id r = Some ready ->
  iss_resource_offload id latency bandwidth now h i (st, r) =
  let* (next, st') := h i (waited (Z.max 0 (ready - now)) latency st) in
  Some (next, (st', set_instance id (Z.max now ready + bandwidth) r)).
Proof.
  intros E. unfold iss_resource_offload. rewrite E. unfold waited. destruct (Z.ltb_spec now ready) as [H|H].
  - replace (Z.max 0 (ready - now)) with (ready - now) by lia. replace (Z.max now ready) with ready by lia.
    destruct (Z.ltb_spec 0 (ready - now)); [done|lia].
  - replace (Z.max 0 (ready - now)) with 0 by lia. by replace (Z.max now ready) with now by lia.
Qed.

Lemma instance_set id cycles r ready : instance id r = Some ready -> instance id (set_instance id cycles r) = Some cycles.
Proof.
  unfold instance, set_instance. rewrite list_lookup_alter_eq. destruct (r !! id) as [[|x l]|]; done.
Qed.

(** the accesses of the cores to a resource are served one at a time: an access waits until the bandwidth of the
    one before it is over, and no longer; its instruction runs with the wait and the latency of the resource added to
    its cycles. *)
Theorem resource_serialized id r ready lat1 bw1 now1 lat2 bw2 now2 : instance id r = Some ready ->
  let start1 := Z.max now1 ready in
  let start2 := Z.max now2 (start1 + bw1) in
  exists r1 r2, instance id r2 = Some (start2 + bw2) /\
  (forall h i st, iss_resource_offload id lat1 bw1 now1 h i (st, r) =
     let* (next, st') := h i (waited (start1 - now1) lat1 st) in Some (next, (st', r1))) /\
  (forall h i st, iss_resource_offload id lat2 bw2 now2 h i (st, r1) =
     let* (next, st') := h i (waited (start2 - now2) lat2 st) in Some (next, (st', r2))).
Proof.
  intros E start1 start2. exists (set_instance id (start1 + bw1) r).
  pose proof (instance_set id (start1 + bw1) r ready E) as E1.
  exists (set_instance id (start2 + bw2) (set_instance id (start1 + bw1) r)).
  split; [by apply (instance_set _ _ _ (start1 + bw1))|]. split; intros h i st.
  - rewrite (offload_spec _ _ _ _ _ _ _ _ _ E). fold start1. by replace (Z.max 0 (ready - now1)) with (start1 - now1) by lia.
  - rewrite (offload_spec _ _ _ _ _ _ _ _ _ E1). fold start2. by replace (Z.max 0 (start1 + bw1 - now2)) with (start2 - now2) by lia.
Qed.
End Wrapping.

(** ** Examples *)

Lemma decoded_view_witness : exists c' s',
  decode_insn blank false 2 {[0%nat]} demo_ptr 0x02208133 0 demo_desc demo_cache = Some (0, c') /\
  get_insn c' demo_ptr = Some s' /\ Rv32.insn_ok (view c' s') /\ Rv32.i_next (view c' s') = 0x106.
Proof.
  destruct (decoded_view blank false 2 {[0%nat]} demo_cache demo_ptr demo_slot 0x02208133 0 demo_desc demo_cache_inv demo_insn)
    as (c' & s1 & s' & E & G & _ & _ & A & Z & O & V).
  - vm_compute. reflexivity.
  - reflexivity.
  - right. reflexivity.
  - reflexivity.
  - exists c', s'. split; [exact E|]. split; [exact G|]. split; [exact O|].
    rewrite V. unfold sequential_view. simpl. rewrite A, Z. vm_compute. reflexivity.
Defined.

Lemma resource_serialized_witness : exists r1 r2 : list (list Z), instance 0 r2 = Some 12 /\
  (forall h i (st : Rv32.iss (S := unit)), iss_resource_offload 0 3 4 5 h i (st, [[0]]) =
     let* (next, st') := h i (waited 0 3 st) in Some (next, (st', r1))) /\
  (forall h i (st : Rv32.iss (S := unit)), iss_resource_offload 0 3 3 6 h i (st, r1) =
     let* (next, st') := h i (waited 3 3 st) in Some (next, (st', r2))).
Proof. exact (resource_serialized (S := unit) 0 [[0]] 0 3 4 5 3 3 6 eq_refl). Defined.
