(* ===== verification/IsaTable.v ===== *)
(** * The tables of the instruction set (models/cpu/iss/isa_gen/isa_gen.py, isa_riscv_gen.py)

    The formats of the operands, the encodings of the base, multiplication and compressed instructions, and the
    generator of the decoding trees, DecodeTree.  The generator is run here on the three instruction lists, and what
    the decoder of Decoder.v selects with the trees is compared with the encodings.  Latencies, resources and
    tags are left out. *)

From Stdlib Require Import String Ascii.
From S2P Require Import Prelude InsnCache Decoder.
#[local] Open Scope list_scope.
#[local] Open Scope string_scope.

(** ** Formats *)

Definition Const (v : Z) : iss_decoder_arg_info := ISS_DECODER_VALUE_TYPE_UIM v.
Definition Range1 (first width shift : Z) : iss_decoder_arg_info := ISS_DECODER_VALUE_TYPE_RANGE [Range first width shift].
Definition Ranges (l : list iss_decoder_range) : iss_decoder_arg_info := ISS_DECODER_VALUE_TYPE_RANGE l.

Definition reg_arg (out : bool) (flags id : Z) (info : iss_decoder_arg_info) : iss_decoder_arg :=
  ISS_DECODER_ARG_TYPE_REG out flags (RegDesc id flags 0 info).
Definition OutReg := reg_arg true 0.
Definition OutFReg := reg_arg true ISS_DECODER_ARG_FLAG_FREG.
Definition OutReg64 := reg_arg true ISS_DECODER_ARG_FLAG_REG64.
Definition OutRegComp := reg_arg true ISS_DECODER_ARG_FLAG_COMPRESSED.
Definition OutFRegComp := reg_arg true (Z.lor ISS_DECODER_ARG_FLAG_COMPRESSED ISS_DECODER_ARG_FLAG_FREG).
Definition InReg := reg_arg false 0.
Definition InFReg := reg_arg false ISS_DECODER_ARG_FLAG_FREG.
Definition InReg64 := reg_arg false ISS_DECODER_ARG_FLAG_REG64.
Definition InRegComp := reg_arg false ISS_DECODER_ARG_FLAG_COMPRESSED.
Definition InFRegComp := reg_arg false (Z.lor ISS_DECODER_ARG_FLAG_COMPRESSED ISS_DECODER_ARG_FLAG_FREG).
Definition UnsignedImm (id : Z) (info : iss_decoder_arg_info) (is_signed : bool) : iss_decoder_arg :=
  ISS_DECODER_ARG_TYPE_UIMM 0 (ImmDesc is_signed id info).
Definition SignedImm (id : Z) (info : iss_decoder_arg_info) (is_signed : bool) : iss_decoder_arg :=
  ISS_DECODER_ARG_TYPE_SIMM 0 (ImmDesc is_signed id info).
Definition post_flags (post : bool) : Z := if post then ISS_DECODER_ARG_FLAG_POSTINC else 0.
Definition IndirectImm (base offset : iss_decoder_arg) (post : bool) : iss_decoder_arg :=
  match base, offset with
  | ISS_DECODER_ARG_TYPE_REG _ _ r, ISS_DECODER_ARG_TYPE_SIMM _ im => ISS_DECODER_ARG_TYPE_INDIRECT_IMM (post_flags post) r im
  | _, _ => ISS_DECODER_ARG_TYPE_NONE
  end.
Definition IndirectReg (base offset : iss_decoder_arg) (post : bool) : iss_decoder_arg :=
  match base, offset with
  | ISS_DECODER_ARG_TYPE_REG _ _ r, ISS_DECODER_ARG_TYPE_REG _ _ o => ISS_DECODER_ARG_TYPE_INDIRECT_REG (post_flags post) r o
  | _, _ => ISS_DECODER_ARG_TYPE_NONE
  end.

(** R5: the label, the format, the encoding, the function that ends the decoding, and whether there is a fast handler. *)
Record instr := Instr {
  n_label : string;
  n_format : string;
  n_encoding : string;
  n_decode : option decode_fn;
  n_fast : bool;
}.

(** The formats of R5 (isa_riscv_gen.py), but for those of the atomic instructions. *)
Definition formats : list (string * list iss_decoder_arg) := [
  ("R", [OutReg 0 (Range1 7 5 0); InReg 0 (Range1 15 5 0); InReg 1 (Range1 20 5 0)]);
  ("R1x64_W64", [OutReg64 0 (Range1 7 5 0); InReg64 0 (Range1 15 5 0)]);
  ("R2x64_W64", [OutReg64 0 (Range1 7 5 0); InReg64 0 (Range1 15 5 0); InReg64 1 (Range1 20 5 0)]);
  ("R1x64puImm_W64", [OutReg64 0 (Range1 7 5 0); InReg64 0 (Range1 15 5 0); UnsignedImm 0 (Range1 20 5 0) false]);
  ("R1x64psImm_W64", [OutReg64 0 (Range1 7 5 0); InReg64 0 (Range1 15 5 0); SignedImm 0 (Range1 20 5 0) true]);
  ("R1x64puImm_W32", [OutReg 0 (Range1 7 5 0); InReg64 0 (Range1 15 5 0); UnsignedImm 0 (Range1 20 5 0) false]);
  ("R1x64psImm_W32", [OutReg 0 (Range1 7 5 0); InReg64 0 (Range1 15 5 0); SignedImm 0 (Range1 20 5 0) true]);
  ("R1x64_W32", [OutReg 0 (Range1 7 5 0); InReg64 0 (Range1 15 5 0)]);
  ("R2x64_W32", [OutReg 0 (Range1 7 5 0); InReg64 0 (Range1 15 5 0); InReg64 1 (Range1 20 5 0)]);
  ("R1x32_W64", [OutReg64 0 (Range1 7 5 0); InReg 0 (Range1 15 5 0)]);
  ("R2x32_W64", [OutReg64 0 (Range1 7 5 0); InReg 0 (Range1 15 5 0); InReg 1 (Range1 20 5 0)]);
  ("R2x32_W32", [OutReg 0 (Range1 7 5 0); InReg 0 (Range1 15 5 0); InReg 1 (Range1 20 5 0)]);
  ("R2x32p64_W64", [OutReg64 0 (Range1 7 5 0); InReg 0 (Range1 15 5 0); InReg 1 (Range1 20 5 0); InReg64 2 (Range1 7 5 0)]);
  ("BITREV", [OutReg 0 (Range1 7 5 0); InReg 0 (Range1 15 5 0); UnsignedImm 0 (Range1 20 5 0) false; UnsignedImm 1 (Range1 25 2 0) false]);
  ("LRRRR", [OutReg 0 (Range1 7 5 0); InReg 2 (Range1 7 5 0); IndirectImm (InReg 0 (Range1 15 5 0)) (SignedImm 0 (Ranges []) true) false; InReg 1 (Range1 20 5 0)]);
  ("F", [InReg 0 (Range1 15 5 0)]);
  ("RF", [OutFReg 0 (Range1 7 5 0); InFReg 0 (Range1 15 5 0); InFReg 1 (Range1 20 5 0); UnsignedImm 0 (Range1 12 3 0) false]);
  ("RF4", [OutFReg 0 (Range1 7 5 0); InFReg 2 (Range1 7 5 0); InFReg 0 (Range1 15 5 0); InFReg 1 (Range1 20 5 0); UnsignedImm 0 (Range1 12 3 0) false]);
  ("RF2", [OutReg 0 (Range1 7 5 0); InFReg 0 (Range1 15 5 0); InFReg 1 (Range1 20 5 0); UnsignedImm 0 (Range1 12 3 0) false]);
  ("R2F1", [OutReg 0 (Range1 7 5 0); InFReg 0 (Range1 15 5 0); UnsignedImm 0 (Range1 12 3 0) false]);
  ("R2F2", [OutFReg 0 (Range1 7 5 0); InReg 0 (Range1 15 5 0); UnsignedImm 0 (Range1 12 3 0) false]);
  ("R2F3", [OutFReg 0 (Range1 7 5 0); InFReg 0 (Range1 15 5 0); UnsignedImm 0 (Range1 12 3 0) false]);
  ("R3F", [OutReg 0 (Range1 7 5 0); InFReg 0 (Range1 15 5 0)]);
  ("R3F2", [OutFReg 0 (Range1 7 5 0); InReg 0 (Range1 15 5 0)]);
  ("R4U", [OutFReg 0 (Range1 7 5 0); InFReg 0 (Range1 15 5 0); InFReg 1 (Range1 20 5 0); InFReg 2 (Range1 27 5 0); UnsignedImm 0 (Range1 12 3 0) false]);
  ("RVF", [OutFReg 0 (Range1 7 5 0); InFReg 0 (Range1 15 5 0); InFReg 1 (Range1 20 5 0)]);
  ("RVF2", [OutFReg 0 (Range1 7 5 0); InFReg 0 (Range1 15 5 0)]);
  ("RVF4", [OutFReg 0 (Range1 7 5 0); InFReg 2 (Range1 7 5 0); InFReg 0 (Range1 15 5 0); InFReg 1 (Range1 20 5 0)]);
  ("R2VF", [OutReg 0 (Range1 7 5 0); InFReg 0 (Range1 15 5 0); InFReg 1 (Range1 20 5 0)]);
  ("R2VF2", [OutReg 0 (Range1 7 5 0); InFReg 0 (Range1 15 5 0)]);
  ("RRRR", [OutReg 0 (Range1 7 5 0); InReg 2 (Range1 7 5 0); InReg 0 (Range1 15 5 0); InReg 1 (Range1 20 5 0)]);
  ("LRR", [OutReg 0 (Range1 7 5 0); InReg 0 (Range1 15 5 0); IndirectImm (InReg 1 (Range1 20 5 0)) (SignedImm 0 (Ranges []) true) false]);
  ("RRRR64", [OutReg64 0 (Range1 7 5 0); InReg64 2 (Range1 7 5 0); InReg64 0 (Range1 15 5 0); InReg64 1 (Range1 20 5 0)]);
  ("RRRR2", [OutReg 0 (Range1 7 5 0); InReg 0 (Range1 7 5 0); InReg 1 (Range1 15 5 0); InReg 2 (Range1 20 5 0)]);
  ("RRRS", [OutReg 0 (Range1 7 5 0); InReg 0 (Range1 7 5 0); InReg 1 (Range1 15 5 0); SignedImm 0 (Ranges [Range 25 1 0; Range 20 5 1]) true]);
  ("RRRU", [OutReg 0 (Range1 7 5 0); InReg 0 (Range1 7 5 0); InReg 1 (Range1 15 5 0); UnsignedImm 0 (Ranges [Range 25 1 0; Range 20 5 1]) false]);
  ("RRRU2", [OutReg 0 (Range1 7 5 0); InReg 0 (Range1 15 5 0); InReg 1 (Range1 20 5 0); UnsignedImm 0 (Range1 25 5 0) false]);
  ("RRRU3", [OutReg 0 (Range1 7 5 0); InReg 0 (Range1 7 5 0); InReg 1 (Range1 15 5 0); UnsignedImm 0 (Range1 20 5 0) false]);
  ("RRRRU", [OutReg 0 (Range1 7 5 0); InReg 2 (Range1 7 5 0); InReg 0 (Range1 15 5 0); InReg 1 (Range1 20 5 0); UnsignedImm 0 (Range1 25 5 0) false]);
  ("R1", [OutReg 0 (Range1 7 5 0); InReg 0 (Range1 15 5 0)]);
  ("R1_64", [OutReg64 0 (Range1 7 5 0); InReg64 0 (Range1 15 5 0)]);
  ("RRU", [OutReg 0 (Range1 7 5 0); InReg 0 (Range1 15 5 0); UnsignedImm 0 (Ranges [Range 25 1 0; Range 20 5 1]) false]);
  ("RRS", [OutReg 0 (Range1 7 5 0); InReg 0 (Range1 15 5 0); SignedImm 0 (Ranges [Range 25 1 0; Range 20 5 1]) true]);
  ("RRU2", [OutReg 0 (Range1 7 5 0); InReg 0 (Range1 15 5 0); UnsignedImm 0 (Ranges [Range 25 1 0; Range 20 5 1]) false]);
  ("LR", [OutReg 0 (Range1 7 5 0); IndirectReg (InReg 0 (Range1 15 5 0)) (InReg 1 (Range1 20 5 0)) false]);
  ("LRPOST", [OutReg 0 (Range1 7 5 0); IndirectReg (InReg 0 (Range1 15 5 0)) (InReg 1 (Range1 20 5 0)) true]);
  ("RR", [OutReg 0 (Range1 7 5 0); InReg 0 (Range1 15 5 0); InReg 1 (Range1 20 5 0); InReg 2 (Range1 25 5 0)]);
  ("RR64", [OutReg64 0 (Range1 7 5 0); InReg64 0 (Range1 15 5 0); InReg64 1 (Range1 20 5 0); InReg64 2 (Range1 7 5 0)]);
  ("SR", [InReg 1 (Range1 20 5 0); IndirectReg (InReg 0 (Range1 15 5 0)) (InReg 2 (Range1 7 5 0)) false]);
  ("SR_OLD", [InReg 1 (Range1 20 5 0); IndirectReg (InReg 0 (Range1 15 5 0)) (InReg 2 (Range1 25 5 0)) false]);
  ("I", [OutReg 0 (Range1 7 5 0); InReg 0 (Range1 15 5 0); SignedImm 0 (Range1 20 12 0) true]);
  ("I64", [OutReg64 0 (Range1 7 5 0); InReg64 0 (Range1 15 5 0); SignedImm 0 (Range1 20 5 0) true]);
  ("Z", []);
  ("L", [OutReg 0 (Range1 7 5 0); IndirectImm (InReg 0 (Range1 15 5 0)) (SignedImm 0 (Range1 20 12 0) true) false]);
  ("FL", [OutFReg 0 (Range1 7 5 0); IndirectImm (InReg 0 (Range1 15 5 0)) (SignedImm 0 (Range1 20 12 0) true) false]);
  ("LPOST", [OutReg 0 (Range1 7 5 0); IndirectImm (InReg 0 (Range1 15 5 0)) (SignedImm 0 (Range1 20 12 0) true) true]);
  ("IU", [OutReg 0 (Range1 7 5 0); InReg 0 (Range1 15 5 0); UnsignedImm 0 (Range1 20 12 0) false]);
  ("IUR", [OutReg 0 (Range1 7 5 0); UnsignedImm 1 (Range1 15 5 0) false; UnsignedImm 0 (Range1 20 12 0) false]);
  ("I1U", [OutReg 0 (Range1 7 5 0); InReg 0 (Range1 15 5 0); UnsignedImm 0 (Range1 20 5 0) false]);
  ("I2U", [OutReg 0 (Range1 7 5 0); UnsignedImm 0 (Range1 20 12 0) false; UnsignedImm 1 (Range1 15 5 0) false]);
  ("I3U", [UnsignedImm 0 (Range1 20 8 0) false]);
  ("I4U", [OutReg 0 (Range1 7 5 0); InReg 0 (Range1 15 5 0); UnsignedImm 0 (Range1 25 5 0) false; UnsignedImm 1 (Range1 20 5 0) false]);
  ("I5U", [OutReg 0 (Range1 7 5 0); InReg 1 (Range1 7 5 0); InReg 0 (Range1 15 5 0); UnsignedImm 0 (Range1 25 5 0) false; UnsignedImm 1 (Range1 20 5 0) false]);
  ("I5U2", [OutReg 0 (Range1 7 5 0); InReg 1 (Range1 7 5 0); InReg 0 (Range1 15 5 0); InReg 2 (Range1 20 5 0)]);
  ("IOU", [UnsignedImm 0 (Range1 15 5 0) false]);
  ("S", [InReg 1 (Range1 20 5 0); IndirectImm (InReg 0 (Range1 15 5 0)) (SignedImm 0 (Ranges [Range 7 5 0; Range 25 7 5]) true) false]);
  ("FS", [InFReg 1 (Range1 20 5 0); IndirectImm (InReg 0 (Range1 15 5 0)) (SignedImm 0 (Ranges [Range 7 5 0; Range 25 7 5]) true) false]);
  ("SPOST", [InReg 1 (Range1 20 5 0); IndirectImm (InReg 0 (Range1 15 5 0)) (SignedImm 0 (Ranges [Range 7 5 0; Range 25 7 5]) true) true]);
  ("S1", [InReg 0 (Range1 15 5 0); InReg 1 (Range1 20 5 0); InReg 2 (Range1 25 5 0)]);
  ("SRPOST", [InReg 1 (Range1 20 5 0); IndirectReg (InReg 0 (Range1 15 5 0)) (InReg 2 (Range1 7 5 0)) true]);
  ("SB", [InReg 0 (Range1 15 5 0); InReg 1 (Range1 20 5 0); SignedImm 0 (Ranges [Range 7 1 11; Range 8 4 1; Range 25 6 5; Range 31 1 12]) true]);
  ("SB2", [InReg 0 (Range1 15 5 0); SignedImm 0 (Ranges [Range 7 1 11; Range 8 4 1; Range 25 6 5; Range 31 1 12]) true; SignedImm 1 (Range1 20 5 0) true]);
  ("U", [OutReg 0 (Range1 7 5 0); UnsignedImm 0 (Range1 12 20 12) false]);
  ("UJ", [OutReg 0 (Range1 7 5 0); SignedImm 0 (Ranges [Range 12 8 12; Range 20 1 11; Range 21 10 1; Range 31 1 20]) true]);
  ("HL0", [UnsignedImm 0 (Range1 7 1 0) false; InReg 0 (Range1 15 5 0); UnsignedImm 1 (Range1 20 12 0) false]);
  ("HL1", [UnsignedImm 0 (Range1 7 1 0) false; UnsignedImm 1 (Range1 20 12 0) false; UnsignedImm 2 (Range1 15 5 0) false]);
  ("CR", [OutReg 0 (Range1 7 5 0); InReg 0 (Range1 7 5 0); InReg 1 (Range1 2 5 0)]);
  ("CR1", [OutReg 0 (Const 0); InReg 0 (Range1 7 5 0); InReg 1 (Const 0); SignedImm 0 (Const 0) true]);
  ("CR2", [OutReg 0 (Range1 7 5 0); InReg 0 (Const 0); InReg 1 (Range1 2 5 0)]);
  ("CR3", [OutReg 0 (Const 1); InReg 0 (Range1 7 5 0); InReg 1 (Range1 2 5 0); SignedImm 0 (Const 0) true]);
  ("CI1", [OutReg 0 (Range1 7 5 0); InReg 0 (Range1 7 5 0); SignedImm 0 (Ranges [Range 2 5 0; Range 12 1 5]) true]);
  ("CI1U", [OutReg 0 (Range1 7 5 0); InReg 0 (Range1 7 5 0); UnsignedImm 0 (Ranges [Range 2 5 0; Range 12 1 5]) false]);
  ("CI2", [OutReg 0 (Range1 7 5 0); InReg 0 (Range1 7 5 0); SignedImm 0 (Ranges [Range 2 5 2; Range 12 1 7]) true]);
  ("CI3", [OutReg 0 (Range1 7 5 0); IndirectImm (InReg 0 (Const 2)) (SignedImm 0 (Ranges [Range 4 3 2; Range 12 1 5; Range 2 2 6]) false) false]);
  ("FCI3", [OutFReg 0 (Range1 7 5 0); IndirectImm (InReg 0 (Const 2)) (SignedImm 0 (Ranges [Range 4 3 2; Range 12 1 5; Range 2 2 6]) false) false]);
  ("CI4", [OutReg 0 (Const 2); InReg 0 (Const 2); SignedImm 0 (Ranges [Range 6 1 4; Range 2 1 5; Range 5 1 6; Range 3 2 7; Range 12 1 9]) true]);
  ("CI5", [OutReg 0 (Range1 7 5 0); UnsignedImm 0 (Ranges [Range 2 5 12; Range 12 1 17]) true]);
  ("CI6", [OutReg 0 (Range1 7 5 0); InReg 0 (Const 0); SignedImm 0 (Ranges [Range 2 5 0; Range 12 1 5]) true]);
  ("CSS", [InReg 1 (Range1 2 5 0); IndirectImm (InReg 0 (Const 2)) (SignedImm 0 (Ranges [Range 9 4 2; Range 7 2 6]) false) false]);
  ("FCSS", [InFReg 1 (Range1 2 5 0); IndirectImm (InReg 0 (Const 2)) (SignedImm 0 (Ranges [Range 9 4 2; Range 7 2 6]) false) false]);
  ("CIW", [OutRegComp 0 (Range1 2 3 0); InReg 0 (Const 2); SignedImm 0 (Ranges [Range 6 1 2; Range 5 1 3; Range 11 2 4; Range 7 4 6]) false]);
  ("CL", [OutRegComp 0 (Range1 2 3 0); IndirectImm (InRegComp 0 (Range1 7 3 0)) (SignedImm 0 (Ranges [Range 6 1 2; Range 10 3 3; Range 5 1 6]) false) false]);
  ("FCL", [OutFRegComp 0 (Range1 2 3 0); IndirectImm (InRegComp 0 (Range1 7 3 0)) (SignedImm 0 (Ranges [Range 6 1 2; Range 10 3 3; Range 5 1 6]) false) false]);
  ("CS", [InRegComp 1 (Range1 2 3 0); IndirectImm (InRegComp 0 (Range1 7 3 0)) (SignedImm 0 (Ranges [Range 6 1 2; Range 10 3 3; Range 5 1 6]) false) false]);
  ("FCS", [InFRegComp 1 (Range1 2 3 0); IndirectImm (InRegComp 0 (Range1 7 3 0)) (SignedImm 0 (Ranges [Range 6 1 2; Range 10 3 3; Range 5 1 6]) false) false]);
  ("CS2", [OutRegComp 0 (Range1 7 3 0); InRegComp 0 (Range1 7 3 0); InRegComp 1 (Range1 2 3 0)]);
  ("CB1", [InRegComp 0 (Range1 7 3 0); InReg 1 (Const 0); SignedImm 0 (Ranges [Range 3 2 1; Range 10 2 3; Range 2 1 5; Range 5 2 6; Range 12 1 8]) true]);
  ("CB2", [OutRegComp 0 (Range1 7 3 0); InRegComp 0 (Range1 7 3 0); UnsignedImm 0 (Ranges [Range 2 5 0; Range 12 1 5]) false]);
  ("CB2S", [OutRegComp 0 (Range1 7 3 0); InRegComp 0 (Range1 7 3 0); SignedImm 0 (Ranges [Range 2 5 0; Range 12 1 5]) true]);
  ("CJ", [OutReg 0 (Const 0); SignedImm 0 (Ranges [Range 3 3 1; Range 11 1 4; Range 2 1 5; Range 7 1 6; Range 6 1 7; Range 9 2 8; Range 8 1 10; Range 12 1 11]) true]);
  ("CJ1", [OutReg 0 (Const 1); SignedImm 0 (Ranges [Range 3 3 1; Range 11 1 4; Range 2 1 5; Range 7 1 6; Range 6 1 7; Range 9 2 8; Range 8 1 10; Range 12 1 11]) true])].

Definition priv_pulp_v2 : list instr := [
  Instr "mret" "Z" "0011000 00010 00000 000 00000 1110011" None false;
  Instr "dret" "Z" "0111101 10010 00000 000 00000 1110011" None false;
  Instr "wfi" "Z" "0001000 00101 00000 000 00000 1110011" None false].

Definition rv32i : list instr := [
  Instr "lui" "U" "------- ----- ----- --- ----- 0110111" None false;
  Instr "auipc" "U" "------- ----- ----- --- ----- 0010111" (Some auipc_decode) false;
  Instr "jal" "UJ" "------- ----- ----- --- ----- 1101111" (Some jal_decode) true;
  Instr "jalr" "I" "------- ----- ----- 000 ----- 1100111" None true;
  Instr "beq" "SB" "------- ----- ----- 000 ----- 1100011" (Some bxx_decode) true;
  Instr "bne" "SB" "------- ----- ----- 001 ----- 1100011" (Some bxx_decode) true;
  Instr "blt" "SB" "------- ----- ----- 100 ----- 1100011" (Some bxx_decode) true;
  Instr "bge" "SB" "------- ----- ----- 101 ----- 1100011" (Some bxx_decode) true;
  Instr "bltu" "SB" "------- ----- ----- 110 ----- 1100011" (Some bxx_decode) true;
  Instr "bgeu" "SB" "------- ----- ----- 111 ----- 1100011" (Some bxx_decode) true;
  Instr "lb" "L" "------- ----- ----- 000 ----- 0000011" None true;
  Instr "lh" "L" "------- ----- ----- 001 ----- 0000011" None true;
  Instr "lw" "L" "------- ----- ----- 010 ----- 0000011" None true;
  Instr "lbu" "L" "------- ----- ----- 100 ----- 0000011" None true;
  Instr "lhu" "L" "------- ----- ----- 101 ----- 0000011" None true;
  Instr "sb" "S" "------- ----- ----- 000 ----- 0100011" None true;
  Instr "sh" "S" "------- ----- ----- 001 ----- 0100011" None true;
  Instr "sw" "S" "------- ----- ----- 010 ----- 0100011" None true;
  Instr "addi" "I" "------- ----- ----- 000 ----- 0010011" None false;
  Instr "addi" "Z" "0000000 00000 00000 000 00000 0010011" None false;
  Instr "slti" "I" "------- ----- ----- 010 ----- 0010011" None false;
  Instr "sltiu" "I" "------- ----- ----- 011 ----- 0010011" None false;
  Instr "xori" "I" "------- ----- ----- 100 ----- 0010011" None false;
  Instr "ori" "I" "------- ----- ----- 110 ----- 0010011" None false;
  Instr "andi" "I" "------- ----- ----- 111 ----- 0010011" None false;
  Instr "slli" "I1U" "0000000 ----- ----- 001 ----- 0010011" None false;
  Instr "srli" "I1U" "0000000 ----- ----- 101 ----- 0010011" None false;
  Instr "srai" "I1U" "0100000 ----- ----- 101 ----- 0010011" None false;
  Instr "add" "R" "0000000 ----- ----- 000 ----- 0110011" None false;
  Instr "sub" "R" "0100000 ----- ----- 000 ----- 0110011" None false;
  Instr "sll" "R" "0000000 ----- ----- 001 ----- 0110011" None false;
  Instr "slt" "R" "0000000 ----- ----- 010 ----- 0110011" None false;
  Instr "sltu" "R" "0000000 ----- ----- 011 ----- 0110011" None false;
  Instr "xor" "R" "0000000 ----- ----- 100 ----- 0110011" None false;
  Instr "srl" "R" "0000000 ----- ----- 101 ----- 0110011" None false;
  Instr "sra" "R" "0100000 ----- ----- 101 ----- 0110011" None false;
  Instr "or" "R" "0000000 ----- ----- 110 ----- 0110011" None false;
  Instr "and" "R" "0000000 ----- ----- 111 ----- 0110011" None false;
  Instr "fence" "I3U" "0000--- ----- 00000 000 00000 0001111" None false;
  Instr "fence.i" "I" "0000000 00000 00000 001 00000 0001111" None false;
  Instr "ecall" "I" "0000000 00000 00000 000 00000 1110011" None false;
  Instr "ebreak" "I" "0000000 00001 00000 000 00000 1110011" None false].

Definition rv32m : list instr := [
  Instr "mul" "R" "0000001 ----- ----- 000 ----- 0110011" None false;
  Instr "mulh" "R" "0000001 ----- ----- 001 ----- 0110011" None false;
  Instr "mulhsu" "R" "0000001 ----- ----- 010 ----- 0110011" None false;
  Instr "mulhu" "R" "0000001 ----- ----- 011 ----- 0110011" None false;
  Instr "div" "R" "0000001 ----- ----- 100 ----- 0110011" None false;
  Instr "divu" "R" "0000001 ----- ----- 101 ----- 0110011" None false;
  Instr "rem" "R" "0000001 ----- ----- 110 ----- 0110011" None false;
  Instr "remu" "R" "0000001 ----- ----- 111 ----- 0110011" None false].

Definition rv32c : list instr := [
  Instr "c.addi4spn" "CIW" "000 --- --- -- --- 00" None true;
  Instr "c.lw" "CL" "010 --- --- -- --- 00" None true;
  Instr "c.sw" "CS" "110 --- --- -- --- 00" None true;
  Instr "c.nop" "CI1" "000 000 000 00 000 01" None true;
  Instr "c.addi" "CI1" "000 --- --- -- --- 01" None true;
  Instr "c.jal" "CJ1" "001 --- --- -- --- 01" (Some jal_decode) true;
  Instr "c.li" "CI6" "010 --- --- -- --- 01" None true;
  Instr "c.addi16sp" "CI4" "011 -00 010 -- --- 01" None true;
  Instr "c.lui" "CI5" "011 --- --- -- --- 01" None true;
  Instr "c.srli" "CB2" "100 -00 --- -- --- 01" None true;
  Instr "c.srai" "CB2" "100 -01 --- -- --- 01" None true;
  Instr "c.andi" "CB2S" "100 -10 --- -- --- 01" None true;
  Instr "c.sub" "CS2" "100 011 --- 00 --- 01" None true;
  Instr "c.xor" "CS2" "100 011 --- 01 --- 01" None true;
  Instr "c.or" "CS2" "100 011 --- 10 --- 01" None true;
  Instr "c.and" "CS2" "100 011 --- 11 --- 01" None true;
  Instr "c.j" "CJ" "101 --- --- -- --- 01" (Some jal_decode) true;
  Instr "c.beqz" "CB1" "110 --- --- -- --- 01" (Some bxx_decode) true;
  Instr "c.bnez" "CB1" "111 --- --- -- --- 01" (Some bxx_decode) true;
  Instr "c.slli" "CI1U" "000 --- --- -- --- 10" None true;
  Instr "c.lwsp" "CI3" "010 --- --- -- --- 10" None true;
  Instr "c.jr" "CR1" "100 0-- --- 00 000 10" None true;
  Instr "c.mv" "CR2" "100 0-- --- -- --- 10" None true;
  Instr "c.ebreak" "CR" "100 100 000 00 000 10" None false;
  Instr "c.jalr" "CR3" "100 1-- --- 00 000 10" None true;
  Instr "c.add" "CR" "100 1-- --- -- --- 10" None true;
  Instr "c.swsp" "CSS" "110 --- --- -- --- 10" None true;
  Instr "c.sbreak" "CI1" "100 000 000 00 000 10" None false].

Definition priv : list instr := [
  Instr "csrrw" "IU" "------- ----- ----- 001 ----- 1110011" None false;
  Instr "csrrs" "IU" "------- ----- ----- 010 ----- 1110011" None false;
  Instr "csrrc" "IU" "------- ----- ----- 011 ----- 1110011" None false;
  Instr "csrrwi" "IUR" "------- ----- ----- 101 ----- 1110011" None false;
  Instr "csrrsi" "IUR" "------- ----- ----- 110 ----- 1110011" None false;
  Instr "csrrci" "IUR" "------- ----- ----- 111 ----- 1110011" None false].

Definition pulp_v2_insns : list instr := [
  Instr "p.abs" "R1" "0000010 00000 ----- 000 ----- 0110011" None false;
  Instr "SB_RR" "SR" "0000000 ----- ----- 100 ----- 0100011" None true;
  Instr "SH_RR" "SR" "0000000 ----- ----- 101 ----- 0100011" None true;
  Instr "SW_RR" "SR" "0000000 ----- ----- 110 ----- 0100011" None true;
  Instr "p.elw" "L" "------- ----- ----- 110 ----- 0000011" None false;
  Instr "pv.add.h" "R" "000000- ----- ----- 000 ----- 1010111" None false;
  Instr "pv.add.sc.h" "R" "000000- ----- ----- 100 ----- 1010111" None false;
  Instr "pv.add.sci.h" "RRS" "000000- ----- ----- 110 ----- 1010111" None false;
  Instr "pv.add.b" "R" "000000- ----- ----- 001 ----- 1010111" None false;
  Instr "pv.add.sc.b" "R" "000000- ----- ----- 101 ----- 1010111" None false;
  Instr "pv.add.sci.b" "RRS" "000000- ----- ----- 111 ----- 1010111" None false;
  Instr "pv.sub.h" "R" "000010- ----- ----- 000 ----- 1010111" None false;
  Instr "pv.sub.sc.h" "R" "000010- ----- ----- 100 ----- 1010111" None false;
  Instr "pv.sub.sci.h" "RRS" "000010- ----- ----- 110 ----- 1010111" None false;
  Instr "pv.sub.b" "R" "000010- ----- ----- 001 ----- 1010111" None false;
  Instr "pv.sub.sc.b" "R" "000010- ----- ----- 101 ----- 1010111" None false;
  Instr "pv.sub.sci.b" "RRS" "000010- ----- ----- 111 ----- 1010111" None false;
  Instr "pv.avg.h" "R" "000100- ----- ----- 000 ----- 1010111" None false;
  Instr "pv.avg.sc.h" "R" "000100- ----- ----- 100 ----- 1010111" None false;
  Instr "pv.avg.sci.h" "RRS" "000100- ----- ----- 110 ----- 1010111" None false;
  Instr "pv.avg.b" "R" "000100- ----- ----- 001 ----- 1010111" None false;
  Instr "pv.avg.sc.b" "R" "000100- ----- ----- 101 ----- 1010111" None false;
  Instr "pv.avg.sci.b" "RRS" "000100- ----- ----- 111 ----- 1010111" None false;
  Instr "pv.avgu.h" "R" "000110- ----- ----- 000 ----- 1010111" None false;
  Instr "pv.avgu.sc.h" "R" "000110- ----- ----- 100 ----- 1010111" None false;
  Instr "pv.avgu.sci.h" "RRU" "000110- ----- ----- 110 ----- 1010111" None false;
  Instr "pv.avgu.b" "R" "000110- ----- ----- 001 ----- 1010111" None false;
  Instr "pv.avgu.sc.b" "R" "000110- ----- ----- 101 ----- 1010111" None false;
  Instr "pv.avgu.sci.b" "RRU" "000110- ----- ----- 111 ----- 1010111" None false;
  Instr "pv.min.h" "R" "001000- ----- ----- 000 ----- 1010111" None false;
  Instr "pv.min.sc.h" "R" "001000- ----- ----- 100 ----- 1010111" None false;
  Instr "pv.min.sci.h" "RRS" "001000- ----- ----- 110 ----- 1010111" None false;
  Instr "pv.min.b" "R" "001000- ----- ----- 001 ----- 1010111" None false;
  Instr "pv.min.sc.b" "R" "001000- ----- ----- 101 ----- 1010111" None false;
  Instr "pv.min.sci.b" "RRS" "001000- ----- ----- 111 ----- 1010111" None false;
  Instr "pv.minu.h" "R" "001010- ----- ----- 000 ----- 1010111" None false;
  Instr "pv.minu.sc.h" "R" "001010- ----- ----- 100 ----- 1010111" None false;
  Instr "pv.minu.sci.h" "RRU" "001010- ----- ----- 110 ----- 1010111" None false;
  Instr "pv.minu.b" "R" "001010- ----- ----- 001 ----- 1010111" None false;
  Instr "pv.minu.sc.b" "R" "001010- ----- ----- 101 ----- 1010111" None false;
  Instr "pv.minu.sci.b" "RRU" "001010- ----- ----- 111 ----- 1010111" None false;
  Instr "pv.max.h" "R" "001100- ----- ----- 000 ----- 1010111" None false;
  Instr "pv.max.sc.h" "R" "001100- ----- ----- 100 ----- 1010111" None false;
  Instr "pv.max.sci.h" "RRS" "001100- ----- ----- 110 ----- 1010111" None false;
  Instr "pv.max.b" "R" "001100- ----- ----- 001 ----- 1010111" None false;
  Instr "pv.max.sc.b" "R" "001100- ----- ----- 101 ----- 1010111" None false;
  Instr "pv.max.sci.b" "RRS" "001100- ----- ----- 111 ----- 1010111" None false;
  Instr "pv.maxu.h" "R" "001110- ----- ----- 000 ----- 1010111" None false;
  Instr "pv.maxu.sc.h" "R" "001110- ----- ----- 100 ----- 1010111" None false;
  Instr "pv.maxu.sci.h" "RRU" "001110- ----- ----- 110 ----- 1010111" None false;
  Instr "pv.maxu.b" "R" "001110- ----- ----- 001 ----- 1010111" None false;
  Instr "pv.maxu.sc.b" "R" "001110- ----- ----- 101 ----- 1010111" None false;
  Instr "pv.maxu.sci.b" "RRU" "001110- ----- ----- 111 ----- 1010111" None false;
  Instr "pv.srl.h" "R" "010000- ----- ----- 000 ----- 1010111" None false;
  Instr "pv.srl.sc.h" "R" "010000- ----- ----- 100 ----- 1010111" None false;
  Instr "pv.srl.sci.h" "RRU" "010000- ----- ----- 110 ----- 1010111" None false;
  Instr "pv.srl.b" "R" "010000- ----- ----- 001 ----- 1010111" None false;
  Instr "pv.srl.sc.b" "R" "010000- ----- ----- 101 ----- 1010111" None false;
  Instr "pv.srl.sci.b" "RRU" "010000- ----- ----- 111 ----- 1010111" None false;
  Instr "pv.sra.h" "R" "010010- ----- ----- 000 ----- 1010111" None false;
  Instr "pv.sra.sc.h" "R" "010010- ----- ----- 100 ----- 1010111" None false;
  Instr "pv.sra.sci.h" "RRS" "010010- ----- ----- 110 ----- 1010111" None false;
  Instr "pv.sra.b" "R" "010010- ----- ----- 001 ----- 1010111" None false;
  Instr "pv.sra.sc.b" "R" "010010- ----- ----- 101 ----- 1010111" None false;
  Instr "pv.sra.sci.b" "RRS" "010010- ----- ----- 111 ----- 1010111" None false;
  Instr "pv.sll.h" "R" "010100- ----- ----- 000 ----- 1010111" None false;
  Instr "pv.sll.sc.h" "R" "010100- ----- ----- 100 ----- 1010111" None false;
  Instr "pv.sll.sci.h" "RRU" "010100- ----- ----- 110 ----- 1010111" None false;
  Instr "pv.sll.b" "R" "010100- ----- ----- 001 ----- 1010111" None false;
  Instr "pv.sll.sc.b" "R" "010100- ----- ----- 101 ----- 1010111" None false;
  Instr "pv.sll.sci.b" "RRU" "010100- ----- ----- 111 ----- 1010111" None false;
  Instr "pv.or.h" "R" "010110- ----- ----- 000 ----- 1010111" None false;
  Instr "pv.or.sc.h" "R" "010110- ----- ----- 100 ----- 1010111" None false;
  Instr "pv.or.sci.h" "RRS" "010110- ----- ----- 110 ----- 1010111" None false;
  Instr "pv.or.b" "R" "010110- ----- ----- 001 ----- 1010111" None false;
  Instr "pv.or.sc.b" "R" "010110- ----- ----- 101 ----- 1010111" None false;
  Instr "pv.or.sci.b" "RRS" "010110- ----- ----- 111 ----- 1010111" None false;
  Instr "pv.xor.h" "R" "011000- ----- ----- 000 ----- 1010111" None false;
  Instr "pv.xor.sc.h" "R" "011000- ----- ----- 100 ----- 1010111" None false;
  Instr "pv.xor.sci.h" "RRS" "011000- ----- ----- 110 ----- 1010111" None false;
  Instr "pv.xor.b" "R" "011000- ----- ----- 001 ----- 1010111" None false;
  Instr "pv.xor.sc.b" "R" "011000- ----- ----- 101 ----- 1010111" None false;
  Instr "pv.xor.sci.b" "RRS" "011000- ----- ----- 111 ----- 1010111" None false;
  Instr "pv.and.h" "R" "011010- ----- ----- 000 ----- 1010111" None false;
  Instr "pv.and.sc.h" "R" "011010- ----- ----- 100 ----- 1010111" None false;
  Instr "pv.and.sci.h" "RRS" "011010- ----- ----- 110 ----- 1010111" None false;
  Instr "pv.and.b" "R" "011010- ----- ----- 001 ----- 1010111" None false;
  Instr "pv.and.sc.b" "R" "011010- ----- ----- 101 ----- 1010111" None false;
  Instr "pv.and.sci.b" "RRS" "011010- ----- ----- 111 ----- 1010111" None false;
  Instr "pv.abs.h" "R1" "0111000 ----- ----- 000 ----- 1010111" None false;
  Instr "pv.abs.b" "R1" "0111000 ----- ----- 001 ----- 1010111" None false;
  Instr "pv.extract.h" "RRU" "011110- ----- ----- 110 ----- 1010111" None false;
  Instr "pv.extract.b" "RRU" "011110- ----- ----- 111 ----- 1010111" None false;
  Instr "pv.extractu.h" "RRU" "100100- ----- ----- 110 ----- 1010111" None false;
  Instr "pv.extractu.b" "RRU" "100100- ----- ----- 111 ----- 1010111" None false;
  Instr "pv.insert.h" "RRRU" "101100- ----- ----- 110 ----- 1010111" None false;
  Instr "pv.insert.b" "RRRU" "101100- ----- ----- 111 ----- 1010111" None false;
  Instr "pv.dotsp.h" "R" "100110- ----- ----- 000 ----- 1010111" None false;
  Instr "pv.dotsp.h.sc" "R" "100110- ----- ----- 100 ----- 1010111" None false;
  Instr "pv.dotsp.h.sci" "RRS" "100110- ----- ----- 110 ----- 1010111" None false;
  Instr "pv.dotsp.b" "R" "100110- ----- ----- 001 ----- 1010111" None false;
  Instr "pv.dotsp.b.sc" "R" "100110- ----- ----- 101 ----- 1010111" None false;
  Instr "pv.dotsp.b.sci" "RRS" "100110- ----- ----- 111 ----- 1010111" None false;
  Instr "pv.dotup.h" "R" "100000- ----- ----- 000 ----- 1010111" None false;
  Instr "pv.dotup.h.sc" "R" "100000- ----- ----- 100 ----- 1010111" None false;
  Instr "pv.dotup.h.sci" "RRU" "100000- ----- ----- 110 ----- 1010111" None false;
  Instr "pv.dotup.b" "R" "100000- ----- ----- 001 ----- 1010111" None false;
  Instr "pv.dotup.b.sc" "R" "100000- ----- ----- 101 ----- 1010111" None false;
  Instr "pv.dotup.b.sci" "RRU" "100000- ----- ----- 111 ----- 1010111" None false;
  Instr "pv.dotusp.h" "R" "100010- ----- ----- 000 ----- 1010111" None false;
  Instr "pv.dotusp.h.sc" "R" "100010- ----- ----- 100 ----- 1010111" None false;
  Instr "pv.dotusp.h.sci" "RRS" "100010- ----- ----- 110 ----- 1010111" None false;
  Instr "pv.dotusp.b" "R" "100010- ----- ----- 001 ----- 1010111" None false;
  Instr "pv.dotusp.b.sc" "R" "100010- ----- ----- 101 ----- 1010111" None false;
  Instr "pv.dotusp.b.sci" "RRS" "100010- ----- ----- 111 ----- 1010111" None false;
  Instr "pv.sdotsp.h" "RRRR" "101110- ----- ----- 000 ----- 1010111" None false;
  Instr "pv.sdotsp.h.sc" "RRRR" "101110- ----- ----- 100 ----- 1010111" None false;
  Instr "pv.sdotsp.h.sci" "RRRS" "101110- ----- ----- 110 ----- 1010111" None false;
  Instr "pv.sdotsp.b" "RRRR" "101110- ----- ----- 001 ----- 1010111" None false;
  Instr "pv.sdotsp.b.sc" "RRRR" "101110- ----- ----- 101 ----- 1010111" None false;
  Instr "pv.sdotsp.b.sci" "RRRS" "101110- ----- ----- 111 ----- 1010111" None false;
  Instr "pv.sdotup.h" "RRRR" "101000- ----- ----- 000 ----- 1010111" None false;
  Instr "pv.sdotup.h.sc" "RRRR" "101000- ----- ----- 100 ----- 1010111" None false;
  Instr "pv.sdotup.h.sci" "RRRU" "101000- ----- ----- 110 ----- 1010111" None false;
  Instr "pv.sdotup.b" "RRRR" "101000- ----- ----- 001 ----- 1010111" None false;
  Instr "pv.sdotup.b.sc" "RRRR" "101000- ----- ----- 101 ----- 1010111" None false;
  Instr "pv.sdotup.b.sci" "RRRU" "101000- ----- ----- 111 ----- 1010111" None false;
  Instr "pv.sdotusp.h" "RRRR" "101010- ----- ----- 000 ----- 1010111" None false;
  Instr "pv.sdotusp.h.sc" "RRRR" "101010- ----- ----- 100 ----- 1010111" None false;
  Instr "pv.sdotusp.h.sci" "RRRS" "101010- ----- ----- 110 ----- 1010111" None false;
  Instr "pv.sdotusp.b" "RRRR" "101010- ----- ----- 001 ----- 1010111" None false;
  Instr "pv.sdotusp.b.sc" "RRRR" "101010- ----- ----- 101 ----- 1010111" None false;
  Instr "pv.sdotusp.b.sci" "RRRS" "101010- ----- ----- 111 ----- 1010111" None false;
  Instr "pv.shuffle.h" "R" "110000- ----- ----- 000 ----- 1010111" None false;
  Instr "pv.shuffle.h.sci" "RRU" "110000- ----- ----- 110 ----- 1010111" None false;
  Instr "pv.shuffle.b" "R" "110000- ----- ----- 001 ----- 1010111" None false;
  Instr "pv.shufflei0.b.sci" "RRU2" "110000- ----- ----- 111 ----- 1010111" None false;
  Instr "pv.shufflei1.b.sci" "RRU2" "111010- ----- ----- 111 ----- 1010111" None false;
  Instr "pv.shufflei2.b.sci" "RRU2" "111100- ----- ----- 111 ----- 1010111" None false;
  Instr "pv.shufflei3.b.sci" "RRU2" "111110- ----- ----- 111 ----- 1010111" None false;
  Instr "pv.shuffle2.h" "RRRR" "110010- ----- ----- 000 ----- 1010111" None false;
  Instr "pv.shuffle2.b" "RRRR" "110010- ----- ----- 001 ----- 1010111" None false;
  Instr "pv.pack.h" "RRRR" "1101000 ----- ----- 000 ----- 1010111" None false;
  Instr "pv.packhi.b" "RRRR" "110110- ----- ----- 001 ----- 1010111" None false;
  Instr "pv.packlo.b" "RRRR" "111000- ----- ----- 001 ----- 1010111" None false;
  Instr "pv.cmpeq.h" "R" "000001- ----- ----- 000 ----- 1010111" None false;
  Instr "pv.cmpeq.sc.h" "R" "000001- ----- ----- 100 ----- 1010111" None false;
  Instr "pv.cmpeq.sci.h" "RRS" "000001- ----- ----- 110 ----- 1010111" None false;
  Instr "pv.cmpeq.b" "R" "000001- ----- ----- 001 ----- 1010111" None false;
  Instr "pv.cmpeq.sc.b" "R" "000001- ----- ----- 101 ----- 1010111" None false;
  Instr "pv.cmpeq.sci.b" "RRS" "000001- ----- ----- 111 ----- 1010111" None false;
  Instr "pv.cmpne.h" "R" "000011- ----- ----- 000 ----- 1010111" None false;
  Instr "pv.cmpne.sc.h" "R" "000011- ----- ----- 100 ----- 1010111" None false;
  Instr "pv.cmpne.sci.h" "RRS" "000011- ----- ----- 110 ----- 1010111" None false;
  Instr "pv.cmpne.b" "R" "000011- ----- ----- 001 ----- 1010111" None false;
  Instr "pv.cmpne.sc.b" "R" "000011- ----- ----- 101 ----- 1010111" None false;
  Instr "pv.cmpne.sci.b" "RRS" "000011- ----- ----- 111 ----- 1010111" None false;
  Instr "pv.cmpgt.h" "R" "000101- ----- ----- 000 ----- 1010111" None false;
  Instr "pv.cmpgt.sc.h" "R" "000101- ----- ----- 100 ----- 1010111" None false;
  Instr "pv.cmpgt.sci.h" "RRS" "000101- ----- ----- 110 ----- 1010111" None false;
  Instr "pv.cmpgt.b" "R" "000101- ----- ----- 001 ----- 1010111" None false;
  Instr "pv.cmpgt.sc.b" "R" "000101- ----- ----- 101 ----- 1010111" None false;
  Instr "pv.cmpgt.sci.b" "RRS" "000101- ----- ----- 111 ----- 1010111" None false;
  Instr "pv.cmpge.h" "R" "000111- ----- ----- 000 ----- 1010111" None false;
  Instr "pv.cmpge.sc.h" "R" "000111- ----- ----- 100 ----- 1010111" None false;
  Instr "pv.cmpge.sci.h" "RRS" "000111- ----- ----- 110 ----- 1010111" None false;
  Instr "pv.cmpge.b" "R" "000111- ----- ----- 001 ----- 1010111" None false;
  Instr "pv.cmpge.sc.b" "R" "000111- ----- ----- 101 ----- 1010111" None false;
  Instr "pv.cmpge.sci.b" "RRS" "000111- ----- ----- 111 ----- 1010111" None false;
  Instr "pv.cmplt.h" "R" "001001- ----- ----- 000 ----- 1010111" None false;
  Instr "pv.cmplt.sc.h" "R" "001001- ----- ----- 100 ----- 1010111" None false;
  Instr "pv.cmplt.sci.h" "RRS" "001001- ----- ----- 110 ----- 1010111" None false;
  Instr "pv.cmplt.b" "R" "001001- ----- ----- 001 ----- 1010111" None false;
  Instr "pv.cmplt.sc.b" "R" "001001- ----- ----- 101 ----- 1010111" None false;
  Instr "pv.cmplt.sci.b" "RRS" "001001- ----- ----- 111 ----- 1010111" None false;
  Instr "pv.cmple.h" "R" "001011- ----- ----- 000 ----- 1010111" None false;
  Instr "pv.cmple.sc.h" "R" "001011- ----- ----- 100 ----- 1010111" None false;
  Instr "pv.cmple.sci.h" "RRS" "001011- ----- ----- 110 ----- 1010111" None false;
  Instr "pv.cmple.b" "R" "001011- ----- ----- 001 ----- 1010111" None false;
  Instr "pv.cmple.sc.b" "R" "001011- ----- ----- 101 ----- 1010111" None false;
  Instr "pv.cmple.sci.b" "RRS" "001011- ----- ----- 111 ----- 1010111" None false;
  Instr "pv.cmpgtu.h" "R" "001101- ----- ----- 000 ----- 1010111" None false;
  Instr "pv.cmpgtu.sc.h" "R" "001101- ----- ----- 100 ----- 1010111" None false;
  Instr "pv.cmpgtu.sci.h" "RRU" "001101- ----- ----- 110 ----- 1010111" None false;
  Instr "pv.cmpgtu.b" "R" "001101- ----- ----- 001 ----- 1010111" None false;
  Instr "pv.cmpgtu.sc.b" "R" "001101- ----- ----- 101 ----- 1010111" None false;
  Instr "pv.cmpgtu.sci.b" "RRU" "001101- ----- ----- 111 ----- 1010111" None false;
  Instr "pv.cmpgeu.h" "R" "001111- ----- ----- 000 ----- 1010111" None false;
  Instr "pv.cmpgeu.sc.h" "R" "001111- ----- ----- 100 ----- 1010111" None false;
  Instr "pv.cmpgeu.sci.h" "RRU" "001111- ----- ----- 110 ----- 1010111" None false;
  Instr "pv.cmpgeu.b" "R" "001111- ----- ----- 001 ----- 1010111" None false;
  Instr "pv.cmpgeu.sc.b" "R" "001111- ----- ----- 101 ----- 1010111" None false;
  Instr "pv.cmpgeu.sci.b" "RRU" "001111- ----- ----- 111 ----- 1010111" None false;
  Instr "pv.cmpltu.h" "R" "010001- ----- ----- 000 ----- 1010111" None false;
  Instr "pv.cmpltu.sc.h" "R" "010001- ----- ----- 100 ----- 1010111" None false;
  Instr "pv.cmpltu.sci.h" "RRU" "010001- ----- ----- 110 ----- 1010111" None false;
  Instr "pv.cmpltu.b" "R" "010001- ----- ----- 001 ----- 1010111" None false;
  Instr "pv.cmpltu.sc.b" "R" "010001- ----- ----- 101 ----- 1010111" None false;
  Instr "pv.cmpltu.sci.b" "RRU" "010001- ----- ----- 111 ----- 1010111" None false;
  Instr "pv.cmpleu.h" "R" "010011- ----- ----- 000 ----- 1010111" None false;
  Instr "pv.cmpleu.sc.h" "R" "010011- ----- ----- 100 ----- 1010111" None false;
  Instr "pv.cmpleu.sci.h" "RRU" "010011- ----- ----- 110 ----- 1010111" None false;
  Instr "pv.cmpleu.b" "R" "010011- ----- ----- 001 ----- 1010111" None false;
  Instr "pv.cmpleu.sc.b" "R" "010011- ----- ----- 101 ----- 1010111" None false;
  Instr "pv.cmpleu.sci.b" "RRU" "010011- ----- ----- 111 ----- 1010111" None false;
  Instr "p.beqimm" "SB2" "------- ----- ----- 010 ----- 1100011" (Some bxx_decode) true;
  Instr "p.bneimm" "SB2" "------- ----- ----- 011 ----- 1100011" (Some bxx_decode) true;
  Instr "p.mac" "RRRR" "0100001 ----- ----- 000 ----- 0110011" None false;
  Instr "p.msu" "RRRR" "0100001 ----- ----- 001 ----- 0110011" None false;
  Instr "p.mul" "R" "0000001 ----- ----- 000 ----- 0110011" None false;
  Instr "p.muls" "R" "1000000 ----- ----- 000 ----- 1011011" None false;
  Instr "p.mulhhs" "R" "1100000 ----- ----- 000 ----- 1011011" None false;
  Instr "p.mulsN" "RRRU2" "10----- ----- ----- 000 ----- 1011011" None false;
  Instr "p.mulhhsN" "RRRU2" "11----- ----- ----- 000 ----- 1011011" None false;
  Instr "p.mulsNR" "RRRU2" "10----- ----- ----- 100 ----- 1011011" None false;
  Instr "p.mulhhsNR" "RRRU2" "11----- ----- ----- 100 ----- 1011011" None false;
  Instr "p.mulu" "R" "0000000 ----- ----- 000 ----- 1011011" None false;
  Instr "p.mulhhu" "R" "0100000 ----- ----- 000 ----- 1011011" None false;
  Instr "p.muluN" "RRRU2" "00----- ----- ----- 000 ----- 1011011" None false;
  Instr "p.mulhhuN" "RRRU2" "01----- ----- ----- 000 ----- 1011011" None false;
  Instr "p.muluNR" "RRRU2" "00----- ----- ----- 100 ----- 1011011" None false;
  Instr "p.mulhhuNR" "RRRU2" "01----- ----- ----- 100 ----- 1011011" None false;
  Instr "p.macs" "RRRR" "1000000 ----- ----- 001 ----- 1011011" None false;
  Instr "p.machhs" "RRRR" "1100000 ----- ----- 001 ----- 1011011" None false;
  Instr "p.macsN" "RRRRU" "10----- ----- ----- 001 ----- 1011011" None false;
  Instr "p.machhsN" "RRRRU" "11----- ----- ----- 001 ----- 1011011" None false;
  Instr "p.macsNR" "RRRRU" "10----- ----- ----- 101 ----- 1011011" None false;
  Instr "p.machhsNR" "RRRRU" "11----- ----- ----- 101 ----- 1011011" None false;
  Instr "p.macu" "RRRR" "0000000 ----- ----- 001 ----- 1011011" None false;
  Instr "p.machhu" "RRRR" "0100000 ----- ----- 001 ----- 1011011" None false;
  Instr "p.macuN" "RRRRU" "00----- ----- ----- 001 ----- 1011011" None false;
  Instr "p.machhuN" "RRRRU" "01----- ----- ----- 001 ----- 1011011" None false;
  Instr "p.macuNR" "RRRRU" "00----- ----- ----- 101 ----- 1011011" None false;
  Instr "p.machhuNR" "RRRRU" "01----- ----- ----- 101 ----- 1011011" None false;
  Instr "p.addNi" "RRRU2" "00----- ----- ----- 010 ----- 1011011" None false;
  Instr "p.adduNi" "RRRU2" "10----- ----- ----- 010 ----- 1011011" None false;
  Instr "p.addRNi" "RRRU2" "00----- ----- ----- 110 ----- 1011011" None false;
  Instr "p.adduRNi" "RRRU2" "10----- ----- ----- 110 ----- 1011011" None false;
  Instr "p.subNi" "RRRU2" "00----- ----- ----- 011 ----- 1011011" None false;
  Instr "p.subuNi" "RRRU2" "10----- ----- ----- 011 ----- 1011011" None false;
  Instr "p.subRNi" "RRRU2" "00----- ----- ----- 111 ----- 1011011" None false;
  Instr "p.subuRNi" "RRRU2" "10----- ----- ----- 111 ----- 1011011" None false;
  Instr "p.addN" "RRRR2" "0100000 ----- ----- 010 ----- 1011011" None false;
  Instr "p.adduN" "RRRR2" "1100000 ----- ----- 010 ----- 1011011" None false;
  Instr "p.addRN" "RRRR2" "0100000 ----- ----- 110 ----- 1011011" None false;
  Instr "p.adduRN" "RRRR2" "1100000 ----- ----- 110 ----- 1011011" None false;
  Instr "p.subN" "RRRR2" "0100000 ----- ----- 011 ----- 1011011" None false;
  Instr "p.subuN" "RRRR2" "1100000 ----- ----- 011 ----- 1011011" None false;
  Instr "p.subRN" "RRRR2" "0100000 ----- ----- 111 ----- 1011011" None false;
  Instr "p.subuRN" "RRRR2" "1100000 ----- ----- 111 ----- 1011011" None false;
  Instr "p.clipi" "I1U" "0001010 ----- ----- 001 ----- 0110011" None false;
  Instr "p.clipui" "I1U" "0001010 ----- ----- 010 ----- 0110011" None false;
  Instr "p.clip" "R" "0001010 ----- ----- 101 ----- 0110011" None false;
  Instr "p.clipu" "R" "0001010 ----- ----- 110 ----- 0110011" None false;
  Instr "p.extracti" "I4U" "11----- ----- ----- 000 ----- 0110011" None false;
  Instr "p.extractui" "I4U" "11----- ----- ----- 001 ----- 0110011" None false;
  Instr "p.extract" "R" "1000000 ----- ----- 000 ----- 0110011" None false;
  Instr "p.extractu" "R" "1000000 ----- ----- 001 ----- 0110011" None false;
  Instr "p.inserti" "I5U" "11----- ----- ----- 010 ----- 0110011" None false;
  Instr "p.insert" "I5U2" "1000000 ----- ----- 010 ----- 0110011" None false;
  Instr "p.bseti" "I4U" "11----- ----- ----- 100 ----- 0110011" None false;
  Instr "p.bclri" "I4U" "11----- ----- ----- 011 ----- 0110011" None false;
  Instr "p.bset" "R" "1000000 ----- ----- 100 ----- 0110011" None false;
  Instr "p.bclr" "R" "1000000 ----- ----- 011 ----- 0110011" None false].

Definition pulp_common_insns : list instr := [
  Instr "LB_RR" "LR" "0000000 ----- ----- 111 ----- 0000011" None true;
  Instr "LH_RR" "LR" "0001000 ----- ----- 111 ----- 0000011" None true;
  Instr "LW_RR" "LR" "0010000 ----- ----- 111 ----- 0000011" None true;
  Instr "LBU_RR" "LR" "0100000 ----- ----- 111 ----- 0000011" None true;
  Instr "LHU_RR" "LR" "0101000 ----- ----- 111 ----- 0000011" None true;
  Instr "LB_POSTINC" "LPOST" "------- ----- ----- 000 ----- 0001011" None true;
  Instr "LH_POSTINC" "LPOST" "------- ----- ----- 001 ----- 0001011" None true;
  Instr "LW_POSTINC" "LPOST" "------- ----- ----- 010 ----- 0001011" None true;
  Instr "LBU_POSTINC" "LPOST" "------- ----- ----- 100 ----- 0001011" None true;
  Instr "LHU_POSTINC" "LPOST" "------- ----- ----- 101 ----- 0001011" None true;
  Instr "SB_POSTINC" "SPOST" "------- ----- ----- 000 ----- 0101011" None true;
  Instr "SH_POSTINC" "SPOST" "------- ----- ----- 001 ----- 0101011" None true;
  Instr "SW_POSTINC" "SPOST" "------- ----- ----- 010 ----- 0101011" None true;
  Instr "LB_RR_POSTINC" "LRPOST" "0000000 ----- ----- 111 ----- 0001011" None true;
  Instr "LH_RR_POSTINC" "LRPOST" "0001000 ----- ----- 111 ----- 0001011" None true;
  Instr "LW_RR_POSTINC" "LRPOST" "0010000 ----- ----- 111 ----- 0001011" None true;
  Instr "LBU_RR_POSTINC" "LRPOST" "0100000 ----- ----- 111 ----- 0001011" None true;
  Instr "LHU_RR_POSTINC" "LRPOST" "0101000 ----- ----- 111 ----- 0001011" None true;
  Instr "SB_RR_POSTINC" "SRPOST" "0000000 ----- ----- 100 ----- 0101011" None true;
  Instr "SH_RR_POSTINC" "SRPOST" "0000000 ----- ----- 101 ----- 0101011" None true;
  Instr "SW_RR_POSTINC" "SRPOST" "0000000 ----- ----- 110 ----- 0101011" None true;
  Instr "p.avgu" "R" "0000010 ----- ----- 001 ----- 0110011" None false;
  Instr "p.slet" "R" "0000010 ----- ----- 010 ----- 0110011" None false;
  Instr "p.sletu" "R" "0000010 ----- ----- 011 ----- 0110011" None false;
  Instr "p.min" "R" "0000010 ----- ----- 100 ----- 0110011" None false;
  Instr "p.minu" "R" "0000010 ----- ----- 101 ----- 0110011" None false;
  Instr "p.max" "R" "0000010 ----- ----- 110 ----- 0110011" None false;
  Instr "p.maxu" "R" "0000010 ----- ----- 111 ----- 0110011" None false;
  Instr "p.ror" "R" "0000100 ----- ----- 101 ----- 0110011" None false;
  Instr "p.ff1" "R1" "0001000 00000 ----- 000 ----- 0110011" None false;
  Instr "p.fl1" "R1" "0001000 00000 ----- 001 ----- 0110011" None false;
  Instr "p.clb" "R1" "0001000 00000 ----- 010 ----- 0110011" None false;
  Instr "p.cnt" "R1" "0001000 00000 ----- 011 ----- 0110011" None false;
  Instr "p.exths" "R1" "0001000 00000 ----- 100 ----- 0110011" None false;
  Instr "p.exthz" "R1" "0001000 00000 ----- 101 ----- 0110011" None false;
  Instr "p.extbs" "R1" "0001000 00000 ----- 110 ----- 0110011" None false;
  Instr "p.extbz" "R1" "0001000 00000 ----- 111 ----- 0110011" None false;
  Instr "lp.starti" "HL0" "------- ----- ----- 000 0000- 1111011" None false;
  Instr "lp.endi" "HL0" "------- ----- ----- 001 0000- 1111011" None false;
  Instr "lp.count" "HL0" "------- ----- ----- 010 0000- 1111011" None false;
  Instr "lp.counti" "HL0" "------- ----- ----- 011 0000- 1111011" None false;
  Instr "lp.setup" "HL0" "------- ----- ----- 100 0000- 1111011" None false;
  Instr "lp.setupi" "HL1" "------- ----- ----- 101 0000- 1111011" None false].

Definition pulp_nn_insns : list instr := [
  Instr "pv.add.n" "R" "0000000 ----- ----- 010 ----- 1010111" None false;
  Instr "pv.add.sc.n" "R" "0000000 ----- ----- 011 ----- 1010111" None false;
  Instr "pv.add.c" "R" "0000001 ----- ----- 010 ----- 1010111" None false;
  Instr "pv.add.sc.c" "R" "0000001 ----- ----- 011 ----- 1010111" None false;
  Instr "pv.sub.n" "R" "0000100 ----- ----- 010 ----- 1010111" None false;
  Instr "pv.sub.sc.n" "R" "0000100 ----- ----- 011 ----- 1010111" None false;
  Instr "pv.sub.c" "R" "0000101 ----- ----- 010 ----- 1010111" None false;
  Instr "pv.sub.sc.c" "R" "0000101 ----- ----- 011 ----- 1010111" None false;
  Instr "pv.avg.n" "R" "0001000 ----- ----- 010 ----- 1010111" None false;
  Instr "pv.avg.sc.n" "R" "0001000 ----- ----- 011 ----- 1010111" None false;
  Instr "pv.avg.c" "R" "0001001 ----- ----- 010 ----- 1010111" None false;
  Instr "pv.avg.sc.c" "R" "0001001 ----- ----- 011 ----- 1010111" None false;
  Instr "pv.avgu.n" "R" "0001100 ----- ----- 010 ----- 1010111" None false;
  Instr "pv.avgu.sc.n" "R" "0001100 ----- ----- 011 ----- 1010111" None false;
  Instr "pv.avgu.c" "R" "0001101 ----- ----- 010 ----- 1010111" None false;
  Instr "pv.avgu.sc.c" "R" "0001101 ----- ----- 011 ----- 1010111" None false;
  Instr "pv.max.n" "R" "0011000 ----- ----- 010 ----- 1010111" None false;
  Instr "pv.max.sc.n" "R" "0011000 ----- ----- 011 ----- 1010111" None false;
  Instr "pv.max.c" "R" "0011001 ----- ----- 010 ----- 1010111" None false;
  Instr "pv.max.sc.c" "R" "0011001 ----- ----- 011 ----- 1010111" None false;
  Instr "pv.maxu.n" "R" "0011100 ----- ----- 010 ----- 1010111" None false;
  Instr "pv.maxu.sc.n" "R" "0011100 ----- ----- 011 ----- 1010111" None false;
  Instr "pv.maxu.c" "R" "0011101 ----- ----- 010 ----- 1010111" None false;
  Instr "pv.maxu.sc.c" "R" "0011101 ----- ----- 011 ----- 1010111" None false;
  Instr "pv.min.n" "R" "0010000 ----- ----- 010 ----- 1010111" None false;
  Instr "pv.min.sc.n" "R" "0010000 ----- ----- 011 ----- 1010111" None false;
  Instr "pv.min.c" "R" "0010001 ----- ----- 010 ----- 1010111" None false;
  Instr "pv.min.sc.c" "R" "0010001 ----- ----- 011 ----- 1010111" None false;
  Instr "pv.minu.n" "R" "0010100 ----- ----- 010 ----- 1010111" None false;
  Instr "pv.minu.sc.n" "R" "0010100 ----- ----- 011 ----- 1010111" None false;
  Instr "pv.minu.c" "R" "0010101 ----- ----- 010 ----- 1010111" None false;
  Instr "pv.minu.sc.c" "R" "0010101 ----- ----- 011 ----- 1010111" None false;
  Instr "pv.srl.n" "R" "0100000 ----- ----- 010 ----- 1010111" None false;
  Instr "pv.srl.sc.n" "R" "0100000 ----- ----- 011 ----- 1010111" None false;
  Instr "pv.srl.c" "R" "0100001 ----- ----- 010 ----- 1010111" None false;
  Instr "pv.srl.sc.c" "R" "0100001 ----- ----- 011 ----- 1010111" None false;
  Instr "pv.sra.n" "R" "0100100 ----- ----- 010 ----- 1010111" None false;
  Instr "pv.sra.sc.n" "R" "0100100 ----- ----- 011 ----- 1010111" None false;
  Instr "pv.sra.c" "R" "0100101 ----- ----- 010 ----- 1010111" None false;
  Instr "pv.sra.sc.c" "R" "0100101 ----- ----- 011 ----- 1010111" None false;
  Instr "pv.sll.n" "R" "0101000 ----- ----- 010 ----- 1010111" None false;
  Instr "pv.sll.sc.n" "R" "0101000 ----- ----- 011 ----- 1010111" None false;
  Instr "pv.sll.c" "R" "0101001 ----- ----- 010 ----- 1010111" None false;
  Instr "pv.sll.sc.c" "R" "0101001 ----- ----- 011 ----- 1010111" None false;
  Instr "pv.or.n" "R" "0101100 ----- ----- 010 ----- 1010111" None false;
  Instr "pv.or.sc.n" "R" "0101100 ----- ----- 011 ----- 1010111" None false;
  Instr "pv.or.c" "R" "0101101 ----- ----- 010 ----- 1010111" None false;
  Instr "pv.or.sc.c" "R" "0101101 ----- ----- 011 ----- 1010111" None false;
  Instr "pv.xor.n" "R" "0110000 ----- ----- 010 ----- 1010111" None false;
  Instr "pv.xor.sc.n" "R" "0110000 ----- ----- 011 ----- 1010111" None false;
  Instr "pv.xor.c" "R" "0110001 ----- ----- 010 ----- 1010111" None false;
  Instr "pv.xor.sc.c" "R" "0110001 ----- ----- 011 ----- 1010111" None false;
  Instr "pv.and.n" "R" "0110100 ----- ----- 010 ----- 1010111" None false;
  Instr "pv.and.sc.n" "R" "0110100 ----- ----- 011 ----- 1010111" None false;
  Instr "pv.and.c" "R" "0110101 ----- ----- 010 ----- 1010111" None false;
  Instr "pv.and.sc.c" "R" "0110101 ----- ----- 011 ----- 1010111" None false;
  Instr "pv.abs.n" "R" "0111000 ----- ----- 010 ----- 1010111" None false;
  Instr "pv.abs.c" "R" "0111001 ----- ----- 010 ----- 1010111" None false;
  Instr "pv.dotup.n" "RRRR" "1000000 ----- ----- 010 ----- 1010111" None false;
  Instr "pv.dotup.n.sc" "RRRR" "1000000 ----- ----- 011 ----- 1010111" None false;
  Instr "pv.dotup.c" "RRRR" "1000001 ----- ----- 010 ----- 1010111" None false;
  Instr "pv.dotup.c.sc" "RRRR" "1000001 ----- ----- 011 ----- 1010111" None false;
  Instr "pv.dotusp.n" "RRRR" "1000100 ----- ----- 010 ----- 1010111" None false;
  Instr "pv.dotusp.n.sc" "RRRR" "1000100 ----- ----- 011 ----- 1010111" None false;
  Instr "pv.dotusp.c" "RRRR" "1000101 ----- ----- 010 ----- 1010111" None false;
  Instr "pv.dotusp.c.sc" "RRRR" "1000101 ----- ----- 011 ----- 1010111" None false;
  Instr "pv.dotsp.n" "RRRR" "1001100 ----- ----- 010 ----- 1010111" None false;
  Instr "pv.dotsp.n.sc" "RRRR" "1001100 ----- ----- 011 ----- 1010111" None false;
  Instr "pv.dotsp.c" "RRRR" "1001101 ----- ----- 010 ----- 1010111" None false;
  Instr "pv.dotsp.c.sc" "RRRR" "1001101 ----- ----- 011 ----- 1010111" None false;
  Instr "pv.sdotup.n" "RRRR" "1010000 ----- ----- 010 ----- 1010111" None false;
  Instr "pv.sdotup.n.sc" "RRRR" "1010000 ----- ----- 011 ----- 1010111" None false;
  Instr "pv.sdotup.c" "RRRR" "1010001 ----- ----- 010 ----- 1010111" None false;
  Instr "pv.sdotup.c.sc" "RRRR" "1010001 ----- ----- 011 ----- 1010111" None false;
  Instr "pv.sdotusp.n" "RRRR" "1010100 ----- ----- 010 ----- 1010111" None false;
  Instr "pv.sdotusp.n.sc" "RRRR" "1010100 ----- ----- 011 ----- 1010111" None false;
  Instr "pv.sdotusp.c" "RRRR" "1010101 ----- ----- 010 ----- 1010111" None false;
  Instr "pv.sdotusp.c.sc" "RRRR" "1010101 ----- ----- 011 ----- 1010111" None false;
  Instr "pv.sdotsp.n" "RRRR" "1011100 ----- ----- 010 ----- 1010111" None false;
  Instr "pv.sdotsp.n.sc" "RRRR" "1011100 ----- ----- 011 ----- 1010111" None false;
  Instr "pv.sdotsp.c" "RRRR" "1011101 ----- ----- 010 ----- 1010111" None false;
  Instr "pv.sdotsp.c.sc" "RRRR" "1011101 ----- ----- 011 ----- 1010111" None false;
  Instr "pv.qnt.n" "LRR" "1110000 ----- ----- 010 ----- 1010111" None false;
  Instr "pv.mlsdotup.h" "RRRU3" "1110000 ----- ----- 000 ----- 1110111" None false;
  Instr "pv.mlsdotusp.h" "RRRU3" "1110100 ----- ----- 000 ----- 1110111" None false;
  Instr "pv.mlsdotsup.h" "RRRU3" "1101100 ----- ----- 000 ----- 1110111" None false;
  Instr "pv.mlsdotsp.h" "RRRU3" "1111100 ----- ----- 000 ----- 1110111" None false;
  Instr "pv.mlsdotup.b" "RRRU3" "1110000 ----- ----- 001 ----- 1110111" None false;
  Instr "pv.mlsdotusp.b" "RRRU3" "1110100 ----- ----- 001 ----- 1110111" None false;
  Instr "pv.mlsdotsup.b" "RRRU3" "1101100 ----- ----- 001 ----- 1110111" None false;
  Instr "pv.mlsdotsp.b" "RRRU3" "1111100 ----- ----- 001 ----- 1110111" None false;
  Instr "pv.mlsdotup.n" "RRRU3" "1110000 ----- ----- 010 ----- 1110111" None false;
  Instr "pv.mlsdotusp.n" "RRRU3" "1110100 ----- ----- 010 ----- 1110111" None false;
  Instr "pv.mlsdotsup.n" "RRRU3" "1101100 ----- ----- 010 ----- 1110111" None false;
  Instr "pv.mlsdotsp.n" "RRRU3" "1111100 ----- ----- 010 ----- 1110111" None false;
  Instr "pv.mlsdotup.c" "RRRU3" "1110000 ----- ----- 011 ----- 1110111" None false;
  Instr "pv.mlsdotusp.c" "RRRU3" "1110100 ----- ----- 011 ----- 1110111" None false;
  Instr "pv.mlsdotsup.c" "RRRU3" "1101100 ----- ----- 011 ----- 1110111" None false;
  Instr "pv.mlsdotsp.c" "RRRU3" "1111100 ----- ----- 011 ----- 1110111" None false].

Definition rnnext : list instr := [
  Instr "pl.sdotsp.h.0" "LRRRR" "101110- ----- ----- 000 ----- 1110111" None false;
  Instr "pl.sdotsp.h.1" "LRRRR" "101111- ----- ----- 000 ----- 1110111" None false;
  Instr "pl.tanh" "R1" "1111100 00000 ----- 000 ----- 1110111" None false;
  Instr "pl.sig" "R1" "1111100 00000 ----- 001 ----- 1110111" None false].

Definition pulp_v2 : list instr := (pulp_v2_insns ++ pulp_common_insns)%list.

#[local] Close Scope string_scope.

(** ** The generator of trees *)

(** The bits of an encoding from the lowest, undefined ones being None. *)
Fixpoint encoding_bits (s : string) (acc : list (option bool)) : list (option bool) :=
  match s with
  | EmptyString => acc
  | String c s =>
    encoding_bits s (if Ascii.eqb c "0" then Some false :: acc else if Ascii.eqb c "1" then Some true :: acc
                     else if Ascii.eqb c "-" then None :: acc else acc)
  end.
Definition bits_of (i : instr) : list (option bool) := encoding_bits (n_encoding i) [].

(** An instruction with its number. *)
Definition entry : Type := nat * instr.
Definition e_len (e : entry) : nat := List.length (bits_of e.2).
Definition e_bit (e : entry) (b : nat) : option bool := match bits_of e.2 !! b with Some x => x | None => None end.
Definition e_defined (e : entry) (b : nat) : bool := match e_bit e b with Some _ => true | None => false end.

Definition set_bit (b : nat) (mask : Z) : Z := Z.lor mask (2 ^ Z.of_nat b).
Definition clear_bit (b : nat) (mask : Z) : Z := Z.ldiff mask (2 ^ Z.of_nat b).
Definition has_bit (mask : Z) (b : nat) : bool := Z.testbit mask (Z.of_nat b).

(** The loop that keeps the first run of bits that an instruction defines. *)
Fixpoint first_run (e : entry) (bits : list nat) (mask : Z) (first : option nat) (done : bool) : Z * option nat :=
  match bits with
  | [] => (mask, first)
  | b :: bits =>
    if done || negb (e_defined e b) || negb (has_bit mask b) then
      first_run e bits (clear_bit b mask) first (match first with Some _ => true | None => done end)
    else first_run e bits mask (match first with Some f => Some f | None => Some b end) done
  end.

(** The mask of a tree and its lowest bit; None when two instructions have the same opcode. *)
Definition tree_mask (l : list entry) (mask : Z) : option (Z * nat) :=
  let min_size := foldr (fun e n => Nat.min (e_len e) n) (match l with e :: _ => e_len e | [] => 0%nat end) l in
  let current := Z.land mask (2 ^ Z.of_nat min_size - 1) in
  let search := foldl (fun m e => foldl (fun m b => if has_bit current b && e_defined e b then set_bit b m else m) m
                                    (seq 0 min_size)) 0 l in
  let current := Z.land current search in
  let '(search, first) :=
    foldl (fun '(m, f) e =>
             let '(m, first) := first_run e (seq 0 (e_len e)) m None false in
             (m, match first with Some b => if (f <? b)%nat then b else f | None => f end)) (current, 0%nat) l in
  let size := match last l with Some e => e_len e | None => 0%nat end in
  let '(search, first) :=
    if (search =? 0) && (1 <? List.length l)%nat then
      let search := foldl (fun m e =>
        let im := foldl (fun im b => if has_bit current b && e_defined e b then set_bit b im else im) 0 (seq 0 size) in
        if im =? 0 then m else Z.land m im) current l in
      (search, match List.find (has_bit search) (seq 0 size) with Some b => b | None => first end)
    else (search, first) in
  if (search =? 0) && (1 <? List.length l)%nat then None else Some (search, first).

(** The opcode of an instruction for a mask, from the highest bit; None when a bit is not defined. *)
Definition opcode_of (mask : Z) (e : entry) : option (list bool) :=
  foldl (fun acc b => if has_bit mask b then let* l := acc in let* x := e_bit e b in Some (l ++ [x]) else acc)
    (Some []) (rev (seq 0 (e_len e))).

Definition key_eqb (a b : option (list bool)) : bool := bool_decide (a = b).

(** The groups, in the order of their first instructions. *)
Fixpoint add_group (k : option (list bool)) (e : entry) (groups : list (option (list bool) * list entry)) :=
  match groups with
  | [] => [(k, [e])]
  | (k', l) :: groups => if key_eqb k k' then (k', l ++ [e]) :: groups else (k', l) :: add_group k e groups
  end.

Definition opcode_value (l : list bool) : Z := foldl (fun v b => 2 * v + Z.b2z b) 0 l.

Definition find_format (name : string) : list iss_decoder_arg :=
  match List.find (fun f => String.eqb f.1 name) formats with Some f => f.2 | None => [] end.

(** Instr.gen. *)
Definition instr_desc (e : entry) : insn_desc :=
  InsnDesc (insn_fn (2 * e.1)) (insn_fn (2 * e.1 + (if n_fast e.2 then 1 else 0))) (n_decode e.2)
    (Z.of_nat (e_len e) / 8) 0 (find_format (n_format e.2)) (-1) 0 0.

(** DecodeTree: [opcode] is the one that leads to this tree. *)
Fixpoint decode_tree (fuel : nat) (l : list entry) (mask : Z) (opcode : list bool) : option item :=
  match fuel with
  | O => None
  | S fuel =>
    let* (current, first) := tree_mask l mask in
    let groups := foldl (fun groups e => add_group (opcode_of current e) e groups) [] l in
    let width := foldr (fun g n => match g.1 with Some k => Nat.max (List.length k) n | None => n end) 0%nat groups in
    let need_tree := existsb (fun g => match g.1 with Some [] => false | _ => true end) groups in
    let* children :=
      foldr (fun g acc =>
        let* acc := acc in
        let* child :=
          match g.1, g.2 with
          | None, e :: _ => Some (Leaf true (opcode_value opcode) e.1 (instr_desc e))
          | Some k, [e] =>
            if current =? 0 then Some (Leaf false (opcode_value opcode) e.1 (instr_desc e))
            else decode_tree fuel [e] (Z.ldiff mask current) k
          | Some k, l => decode_tree fuel l (Z.ldiff mask current) k
          | None, [] => None
          end in
        Some (child :: acc)) (Some []) groups in
    if need_tree then Some (Group false (opcode_value opcode) (Z.of_nat first) (Z.of_nat width) children)
    else head children
  end.

(** IsaDecodeTree: the tree of a list of instructions; a level of the tree takes at least one bit. *)
Definition isa_tree (l : list instr) : option item := decode_tree 40 (imap (fun i x => (i, x)) l) 0xffffffff [false].

(** ** The trees decode the encodings *)

Definition enc_mask (i : instr) : Z :=
  foldr (fun x m => 2 * m + (match x with Some _ => 1 | None => 0 end)) 0 (bits_of i).
Definition enc_value (i : instr) : Z :=
  foldr (fun x m => 2 * m + (match x with Some b => Z.b2z b | None => 0 end)) 0 (bits_of i).
Definition matches (opcode : Z) (i : instr) : Prop := Z.land opcode (enc_mask i) = enc_value i.

(** [i] defines the bits that [j] defines. *)
Definition specialises (i j : instr) : Prop := Z.land (enc_mask j) (enc_mask i) = enc_mask j.

Definition field_mask (bit width : Z) : Z := Z.shiftl (Z.ones width) bit.
Definition group_ok (bit width : Z) : bool := (0 <=? bit) && (bit <? 32) && (0 <? width) && (width <=? 32).

(** The leaves are for opcodes of their encodings: [M] and [V] are the bits known on the path, and their values. *)
Fixpoint sound (l : list instr) (M V : Z) (it : item) : bool :=
  match it with
  | Leaf _ _ id _ =>
    match l !! id with
    | Some i => (Z.land (enc_mask i) M =? enc_mask i) && (Z.land V (enc_mask i) =? enc_value i)
    | None => false
    end
  | Group _ _ bit width groups =>
    group_ok bit width &&
    forallb (fun c => if item_others c then sound l M V c
                      else sound l (Z.lor M (field_mask bit width)) (Z.lor V (Z.shiftl (item_opcode c) bit)) c) groups
  end.

(** A group has an item for the field of the encoding, which defines all of it. *)
Definition exact (m v bit width : Z) (groups : list item) : bool :=
  (Z.land m (field_mask bit width) =? field_mask bit width) &&
  existsb (fun c => negb (item_others c) && (Z.shiftl (item_opcode c) bit =? Z.land v (field_mask bit width))) groups.

(** Every opcode of the encoding [m], [v] is for a leaf that defines at least its bits. *)
Fixpoint covers (l : list instr) (m v : Z) (it : item) : bool :=
  match it with
  | Leaf _ _ id _ => match l !! id with Some i => Z.land m (enc_mask i) =? m | None => false end
  | Group _ _ bit width groups =>
    group_ok bit width && (existsb item_others groups || exact m v bit width groups) &&
    forallb (fun c => (if item_others c then exact m v bit width groups
                       else negb (Z.land (Z.shiftl (item_opcode c) bit) m =? Z.land v (field_mask bit width))) ||
                      covers l m v c) groups
  end.

(** The leaves are the instructions of the list. *)
Fixpoint leaves (it : item) : list (nat * insn_desc) :=
  match it with
  | Leaf _ _ id d => [(id, d)]
  | Group _ _ _ _ groups => concat (map leaves groups)
  end.

Lemma u32_ones w : 0 <= w <= 32 -> u32 (Z.shiftl 1 w - 1) = Z.ones w.
Proof.
  intros H. rewrite Z.shiftl_1_l, Z.ones_equiv, Z.sub_1_r. apply uw_small.
  pose proof (Z.pow_pos_nonneg 2 w ltac:(lia) ltac:(lia)). pose proof (Z.pow_le_mono_r 2 w 32 ltac:(lia) ltac:(lia)). lia.
Qed.

Lemma field_bits opcode bit width : 0 <= bit -> 0 <= width ->
  Z.shiftl (Z.land (Z.shiftr opcode bit) (Z.ones width)) bit = Z.land opcode (field_mask bit width).
Proof.
  intros Hb Hw. apply Z.bits_inj'. intros n Hn. unfold field_mask. rewrite Z.land_spec, !Z.shiftl_spec by done.
  destruct (Z.ltb_spec n bit).
  - rewrite !(Z.testbit_neg_r _ (n - bit)) by lia. by rewrite andb_false_r.
  - rewrite Z.land_spec, Z.shiftr_spec by lia. f_equal. f_equal. lia.
Qed.

Lemma group_ok_spec bit width : group_ok bit width = true -> 0 <= bit < 32 /\ 0 < width <= 32.
Proof. unfold group_ok. rewrite !andb_true_iff, !Z.leb_le, !Z.ltb_lt. lia. Qed.

Lemma select_group_ok opcode o op bit width groups : group_ok bit width = true ->
  select opcode (Group o op bit width groups) =
  match choose (Z.land (Z.shiftr opcode bit) (Z.ones width)) groups with Some it => select opcode it | None => Some None end.
Proof.
  intros H. apply group_ok_spec in H as [Hb Hw]. rewrite select_group, u32_ones by lia. done.
Qed.

Lemma sound_select l opcode it M V : sound l M V it = true -> Z.land opcode M = V ->
  exists r, select opcode it = Some r /\
  match r with Some (id, d) => exists i, l !! id = Some i /\ matches opcode i | None => True end.
Proof.
  revert M V. induction it as [o op id d|o op bit width groups IH] using item_nested_ind; intros M V H Hm.
  - cbn [sound] in H. destruct (l !! id) as [i|] eqn:E; [|done]. apply andb_true_iff in H as [H1 H2].
    apply Z.eqb_eq in H1, H2. eexists. split; [done|]. cbn. exists i. split; [done|].
    unfold matches. rewrite <- H1, (Z.land_comm _ M), Z.land_assoc, Hm. done.
  - cbn [sound] in H. apply andb_true_iff in H as [Hg H]. rewrite select_group_ok by done.
    apply group_ok_spec in Hg as [Hb Hw]. destruct (choose _ groups) as [c|] eqn:E; [|by eexists].
    apply choose_elem in E as [Hin Ho]. rewrite forallb_forall in H. specialize (H c). rewrite <- list_elem_of_In in H.
    specialize (H Hin). destruct (item_others c) eqn:Eo; [by apply (IH c Hin M V)|]. apply (IH c Hin _ _ H).
    rewrite Z.land_lor_distr_r, Hm, Ho, field_bits by (done || lia). done.
Qed.

(** The choice when the field of the opcode has an item, and when there is one for the others. *)
Lemma exact_choose opcode m v bit width groups : 0 <= bit -> 0 <= width -> Z.land opcode m = v ->
  exact m v bit width groups = true ->
  exists c, choose (Z.land (Z.shiftr opcode bit) (Z.ones width)) groups = Some c /\ item_others c = false.
Proof.
  intros Hb Hw Hm H. apply andb_true_iff in H as [H1 H2]. apply existsb_elem in H2 as (c & Hc & [Ho Ec]%andb_true_iff).
  apply Z.eqb_eq in H1, Ec. apply negb_true_iff in Ho. set (g := Z.land _ _).
  assert (Eg : Z.shiftl g bit = Z.land opcode (field_mask bit width)) by (by apply field_bits).
  unfold choose. destruct (list_find _ groups) as [[i x]|] eqn:F.
  - apply list_find_Some in F as (_ & [_ Hx] & _). by exists x.
  - exfalso. apply list_find_None in F. rewrite Forall_forall in F. apply (F c Hc). split; [|done].
    apply (f_equal (fun x => Z.shiftr x bit)) in Ec, Eg. rewrite !Z.shiftr_shiftl_l, !Z.sub_diag, !Z.shiftl_0_r in * by lia.
    rewrite Ec, Eg. f_equal. rewrite <- Hm, <- H1, <- Z.land_assoc, (Z.land_assoc m m), Z.land_diag. done.
Qed.

Lemma others_choose g groups : existsb item_others groups = true -> is_Some (choose g groups).
Proof.
  intros H. apply existsb_elem in H as (c & Hc & Ho). unfold choose. destruct (list_find _ _) as [[]|]; [done|].
  destruct (last _) eqn:L; [done|]. apply last_None in L.
  assert (X : c ∈ filter (fun it => item_others it = true) groups) by (by apply list_elem_of_filter).
  rewrite L in X. by apply not_elem_of_nil in X.
Qed.

Lemma covers_select l opcode it m v : covers l m v it = true -> Z.land opcode m = v ->
  exists id d, select opcode it = Some (Some (id, d)) /\ exists i, l !! id = Some i /\ Z.land m (enc_mask i) = m.
Proof.
  intros H Hm. induction it as [o op id d|o op bit width groups IH] using item_nested_ind.
  - cbn [covers] in H. destruct (l !! id) as [i|] eqn:E; [|done]. apply Z.eqb_eq in H. exists id, d. split; [done|]. by exists i.
  - cbn [covers] in H. apply andb_true_iff in H as [[Hg Hn]%andb_true_iff H]. rewrite select_group_ok by done.
    apply group_ok_spec in Hg as [Hb Hw]. pose proof (exact_choose opcode m v bit width groups ltac:(lia) ltac:(lia) Hm) as X.
    assert (Eg := field_bits opcode bit width ltac:(lia) ltac:(lia)). set (g := Z.land _ (Z.ones width)) in *.
    assert (Hc : is_Some (choose g groups)).
    { apply orb_true_iff in Hn as [Hn|Hn]; [by apply others_choose|]. destruct (X Hn) as (c & -> & _). done. }
    destruct Hc as [c Ec]. rewrite Ec. pose proof Ec as Ec'. apply choose_elem in Ec as [Hin Ho]. apply (IH c Hin).
    rewrite forallb_forall in H. specialize (H c). rewrite <- list_elem_of_In in H. specialize (H Hin).
    apply orb_true_iff in H as [H|H]; [|done]. exfalso. destruct (item_others c) eqn:Eo.
    + destruct (X H) as (c' & Ec2 & Ho'). rewrite Ec' in Ec2. injection Ec2 as <-. congruence.
    + apply negb_true_iff, Z.eqb_neq in H. apply H. rewrite (Ho eq_refl), Eg, <- Hm.
      rewrite <- !Z.land_assoc. f_equal. apply Z.land_comm.
Qed.

Lemma select_leaves l M V opcode it id d : sound l M V it = true -> select opcode it = Some (Some (id, d)) -> (id, d) ∈ leaves it.
Proof.
  revert M V. induction it as [o op id' d'|o op bit width groups IH] using item_nested_ind; intros M V H E.
  - cbn in *. injection E as -> ->. by left.
  - cbn [sound] in H. apply andb_true_iff in H as [Hg H]. rewrite select_group_ok in E by done.
    destruct (choose _ groups) as [c|] eqn:Ec; [|done]. apply choose_elem in Ec as [Hin _].
    rewrite forallb_forall in H. specialize (H c). rewrite <- list_elem_of_In in H. specialize (H Hin).
    cbn [leaves]. apply list_elem_of_In, in_concat. exists (leaves c). split; [by apply in_map, list_elem_of_In|].
    apply list_elem_of_In. destruct (item_others c); by apply (IH c Hin _ _ H).
Qed.

#[export] Instance iss_decoder_range_eq_dec : EqDecision iss_decoder_range.
Proof. solve_decision. Defined.
#[export] Instance iss_decoder_arg_info_eq_dec : EqDecision iss_decoder_arg_info.
Proof. solve_decision. Defined.
#[export] Instance imm_desc_eq_dec : EqDecision imm_desc.
Proof. solve_decision. Defined.
#[export] Instance reg_desc_eq_dec : EqDecision reg_desc.
Proof. solve_decision. Defined.
#[export] Instance iss_decoder_arg_eq_dec : EqDecision iss_decoder_arg.
Proof. solve_decision. Defined.
#[export] Instance decode_fn_eq_dec : EqDecision decode_fn.
Proof. solve_decision. Defined.
#[export] Instance insn_desc_eq_dec : EqDecision insn_desc.
Proof. solve_decision. Defined.

(** What it is for a tree to decode a list of instructions: an opcode is for the instruction that matches it, the one
    that defines most bits when several do, and for none when none does. *)
Definition decodes (l : list instr) (t : item) : Prop := forall opcode, exists r, select opcode t = Some r /\
  match r with
  | Some (id, d) => exists i, l !! id = Some i /\ d = instr_desc (id, i) /\ matches opcode i /\
                      forall j, j ∈ l -> matches opcode j -> specialises i j
  | None => forall j, j ∈ l -> ~ matches opcode j
  end.

Definition check_tree (l : list instr) (t : item) : bool :=
  sound l 0 0 t && forallb (fun j => covers l (enc_mask j) (enc_value j) t) l &&
  forallb (fun x => match l !! x.1 with Some i => bool_decide (x.2 = instr_desc (x.1, i)) | None => false end) (leaves t).

Lemma check_tree_ok l t : check_tree l t = true -> decodes l t.
Proof.
  unfold check_tree. rewrite !andb_true_iff, !forallb_forall. intros [[Hs Hc] Hl] opcode.
  destruct (sound_select l opcode t 0 0 Hs (Z.land_0_r _)) as (r & E & Hr). exists r. split; [done|].
  assert (C : forall j, j ∈ l -> matches opcode j -> exists id d, r = Some (id, d) /\ exists i, l !! id = Some i /\ specialises i j).
  { intros j Hj Hm. specialize (Hc j). rewrite <- list_elem_of_In in Hc.
    destruct (covers_select l opcode t _ _ (Hc Hj) Hm) as (id & d & E' & i & Hi & S). exists id, d.
    split; [congruence|]. by exists i. }
  destruct r as [[id d]|].
  - destruct Hr as (i & Hi & Hm). pose proof (select_leaves l 0 0 opcode t id d Hs E) as L. specialize (Hl (id, d)).
    rewrite <- list_elem_of_In in Hl. specialize (Hl L). cbn in Hl. rewrite Hi in Hl. apply bool_decide_eq_true in Hl.
    exists i. split; [done|]. split; [done|]. split; [done|]. intros j Hj Hmj.
    destruct (C j Hj Hmj) as (id' & d' & [= <- <-] & i' & Hi' & S). rewrite Hi in Hi'. by injection Hi' as <-.
  - intros j Hj Hm. by destruct (C j Hj Hm) as (? & ? & [=] & _).
Qed.

(** The encodings that the tree of rv32i is for.  The bits that tell nop from addi are not contiguous, and a group
    of the tree is a contiguous field: the three highest bits of the immediate are not looked at. *)
Definition rv32i_decoded : list instr :=
  <[19%nat := Instr "addi"%string "Z"%string "---0000 00000 00000 000 00000 0010011"%string None false]> rv32i.

(** The instruction lists, with what their trees decode. *)
Definition isa_lists : list (list instr * list instr) :=
  [(priv_pulp_v2, priv_pulp_v2); (rv32i, rv32i_decoded); (rv32m, rv32m); (rv32c, rv32c); (priv, priv);
   (pulp_v2, pulp_v2); (pulp_nn_insns, pulp_nn_insns); (rnnext, rnnext)].

(** C16: the decoding trees that are generated for the base, multiplication, compressed, privileged and PULP
    instructions decode their encodings: the walk of a tree ends for every opcode in the most specific of the
    instructions that match it, or fails when there is none.  The base tree has one exception, where addi on the
    register 0 is a nop. *)
Theorem trees_decode : Forall (fun '(l, l') => exists t, isa_tree l = Some t /\ decodes l' t) isa_lists.
Proof.
  assert (H : forallb (fun '(l, l') => match isa_tree l with Some t => check_tree l' t | None => false end) isa_lists = true)
    by (vm_compute; reflexivity).
  rewrite forallb_forall in H. apply Forall_forall. intros [l l'] Hin%list_elem_of_In. specialize (H _ Hin).
  cbn beta iota in H. destruct (isa_tree l) as [t|]; [|discriminate]. exists t. split; [reflexivity|].
  by apply check_tree_ok.
Qed.

(** ** The formats of the manual *)

(** Bits [hi] to [lo] of an opcode. *)
Definition bits (opcode hi lo : Z) : Z := (opcode / 2 ^ lo) mod 2 ^ (hi - lo + 1).

(** The value that ranges read. *)
Fixpoint fields (opcode : Z) (rs : list iss_decoder_range) : Z :=
  match rs with
  | [] => 0
  | r :: rs => bits opcode (r_bit r + r_width r - 1) (r_bit r) * 2 ^ r_shift r + fields opcode rs
  end.

Lemma gather_fields opcode rs res w : ranges_ok rs = true -> 0 <= w -> Z.land res (value_mask rs) = 0 ->
  gather opcode rs res w = Some (res + fields opcode rs, Z.max w (value_width rs)).
Proof.
  revert res w. induction rs as [|r rs IH]; intros res w H Hw Hm; cbn [gather fields].
  - rewrite Z.add_0_r. unfold value_width. simpl. by rewrite Z.max_l by lia.
  - cbn [ranges_ok value_mask] in *. apply andb_true_iff in H as [[Hr Hf]%andb_true_iff H]. apply range_ok_spec in Hr as (Hb & Hwd & Hbw & Hs & Hws).
    rewrite Z.land_lor_distr_r in Hm. apply Z.lor_eq_0_iff in Hm as [Hm1 Hm2].
    unfold iss_get_field. rewrite !shr_some, !shl_some by lia. rewrite u32_ones by lia.
    set (x := bits opcode _ _).
    assert (Ex : Z.land (Z.shiftr opcode (r_bit r)) (Z.ones (r_width r)) = x).
    { rewrite Z.land_ones, Z.shiftr_div_pow2 by lia. unfold x, bits. do 2 f_equal. lia. }
    assert (Rx : 0 <= x < 2 ^ r_width r) by (rewrite <- Ex, Z.land_ones by lia; apply Z.mod_pos_bound; lia).
    assert (Rs : 0 <= x * 2 ^ r_shift r < 2 ^ (r_width r + r_shift r))
      by (rewrite Z.pow_add_r by lia; pose proof (Z.pow_pos_nonneg 2 (r_shift r) ltac:(lia) ltac:(lia)); nia).
    pose proof (Z.pow_le_mono_r 2 (r_width r + r_shift r) 32 ltac:(lia) ltac:(lia)).
    rewrite Ex. rewrite Z.shiftl_mul_pow2 by lia. rewrite uw_small by lia.
    assert (Em : x * 2 ^ r_shift r = Z.land (x * 2 ^ r_shift r) (Z.shiftl (Z.ones (r_width r)) (r_shift r))).
    { rewrite <- Z.shiftl_mul_pow2, <- Z.shiftl_land by lia. by rewrite Z.land_ones, Z.mod_small by lia. }
    assert (D0 : Z.land res (x * 2 ^ r_shift r) = 0)
      by (rewrite Em, (Z.land_comm (x * _)), Z.land_assoc, Hm1; apply Z.land_0_l).
    assert (El : Z.lor res (x * 2 ^ r_shift r) = res + x * 2 ^ r_shift r)
      by (rewrite (Z.add_nocarry_lxor _ _ D0); symmetry; by apply Z.lxor_lor).
    rewrite El, IH; [| done | destruct (_ >? _); lia |].
    + f_equal. f_equal; [lia|]. unfold value_width. simpl. rewrite Z.gtb_ltb. destruct (Z.ltb_spec w (r_width r + r_shift r)); lia.
    + rewrite <- El, Z.land_lor_distr_l, Hm2, Em, <- Z.land_assoc.
      enough (E : Z.land (Z.shiftl (Z.ones (r_width r)) (r_shift r)) (value_mask rs) = 0) by (by rewrite E, Z.land_0_r).
      apply Z.bits_inj'. intros n Hn. rewrite Z.land_spec, Z.bits_0.
      pose proof (testbit_value_mask [r] n) as T1. cbn [value_mask forallb existsb] in T1. rewrite Z.lor_0_r, orb_false_r in T1.
      rewrite T1, testbit_value_mask; [|by apply ranges_ok_forall|done| |done].
      2:{ rewrite andb_true_r. apply range_ok_spec. lia. }
      apply not_true_iff_false. intros [W1 W2]%andb_true_iff. apply existsb_elem in W2 as (r' & Hr' & W2).
      rewrite forallb_forall in Hf. specialize (Hf r'). rewrite <- list_elem_of_In in Hf.
      apply andb_true_iff in Hf as [_ Hf]; [|done]. by apply (apart_within _ _ _ _ n Hf W1).
Qed.

Lemma decode_unsigned opcode rs : ranges_ok rs = true -> decode_ranges opcode rs false = Some (fields opcode rs).
Proof. intros H. unfold decode_ranges. by rewrite gather_fields by (done || lia || apply Z.land_0_l). Qed.

Lemma decode_signed opcode rs : ranges_ok rs = true -> 0 < value_width rs ->
  decode_ranges opcode rs true = Some (u32 (sw (value_width rs) (fields opcode rs))).
Proof.
  intros H Hw. pose proof (value_width_bound rs (ranges_ok_forall rs H)). unfold decode_ranges.
  rewrite gather_fields by (done || lia || apply Z.land_0_l). rewrite Z.add_0_l, Z.max_r by lia.
  rewrite signed_value by lia. f_equal. f_equal. unfold sw. by rewrite uw_uw_le by lia.
Qed.

(** The words that an argument writes. *)
Definition arg_writes (single_regfile : bool) (opcode : Z) (a : iss_decoder_arg) : option (list (Z * Z)) :=
  match a with
  | ISS_DECODER_ARG_TYPE_NONE => Some []
  | ISS_DECODER_ARG_TYPE_REG out flags r =>
    let* v := reg_index single_regfile opcode flags r in Some [((if out then 0 else 3) + rg_id r, v)]
  | ISS_DECODER_ARG_TYPE_UIMM _ im =>
    let* rs := range_set (im_info im) in let* v := decode_ranges opcode rs (im_is_signed im) in Some [(6 + im_id im, u32 v)]
  | ISS_DECODER_ARG_TYPE_SIMM _ im =>
    let* rs := range_set (im_info im) in let* v := decode_ranges opcode rs (im_is_signed im) in Some [(10 + im_id im, s32 v)]
  | ISS_DECODER_ARG_TYPE_INDIRECT_IMM _ r im =>
    let* v := indirect_index opcode r in let* imm := decode_info opcode (im_info im) (im_is_signed im) in
    Some [(3 + rg_id r, v); (10 + im_id im, imm)]
  | ISS_DECODER_ARG_TYPE_INDIRECT_REG _ b o =>
    let* v := indirect_index opcode b in let* v' := indirect_index opcode o in Some [(3 + rg_id b, v); (3 + rg_id o, v')]
  end.
Fixpoint all_writes (single_regfile : bool) (opcode : Z) (args : list iss_decoder_arg) : option (list (Z * Z)) :=
  match args with
  | [] => Some []
  | a :: args => let* w := arg_writes single_regfile opcode a in let* ws := all_writes single_regfile opcode args in Some (w ++ ws)
  end.
(** The last value written to a word. *)
Definition written (k : Z) (ws : list (Z * Z)) : option Z :=
  foldl (fun acc '(j, v) => if j =? k then Some v else acc) None ws.

Definition writes (ws : list (Z * Z)) (l : list Z) : list Z := foldl (fun l '(k, v) => <[Z.to_nat k := v]> l) l ws.

Lemma word_step k v s s' : set_word k v s = Some s' -> s_words s' = writes [(k, v)] (s_words s).
Proof. intros H. by apply set_word_spec in H as (_ & -> & _). Qed.

Lemma decode_arg_words single_regfile opcode i a s s' g : decode_arg single_regfile opcode i a s = Some (s', g) ->
  exists ws, arg_writes single_regfile opcode a = Some ws /\ s_words s' = writes ws (s_words s).
Proof.
  destruct a as [|out flags r|flags im|flags im|flags r im|flags b o]; cbn [decode_arg arg_writes]; intros H.
  - injection H as <- _. by exists [].
  - destruct (reg_index _ _ _ _) as [v|]; [|done]. destruct out.
    + destruct (set_out_reg _ _ _) as [x|] eqn:E; [|done]. injection H as <- _. eexists. split; [done|].
      rewrite (word_step _ _ _ _ E). f_equal. by destruct (fixed_count_out (rg_id r) (set_arg i (ArgReg true flags v) s)) as [_ ->].
    + destruct (set_in_reg _ _ _) as [x|] eqn:E; [|done]. injection H as <- _. eexists. split; [done|].
      rewrite (word_step _ _ _ _ E). f_equal. by destruct (fixed_count_in (rg_id r) (set_arg i (ArgReg false flags v) s)) as [_ ->].
  - destruct (range_set _) as [rs|]; [|done]. destruct (decode_ranges _ _ _) as [v|]; [|done].
    destruct (set_uim _ _ _) as [x|] eqn:E; [|done]. injection H as <- _. eexists. split; [done|]. by rewrite (word_step _ _ _ _ E).
  - destruct (range_set _) as [rs|]; [|done]. destruct (decode_ranges _ _ _) as [v|]; [|done].
    destruct (set_sim _ _ _) as [x|] eqn:E; [|done]. injection H as <- _. eexists. split; [done|]. by rewrite (word_step _ _ _ _ E).
  - destruct (indirect_index _ _) as [v|]; [|done]. destruct (set_in_reg _ _ _) as [x|] eqn:E; [|done].
    destruct (decode_info _ _ _) as [v'|]; [|done]. destruct (set_sim _ _ _) as [y|] eqn:E'; [|done]. injection H as <- _.
    eexists. split; [done|]. rewrite (word_step _ _ _ _ E'). destruct (fixed_count_in (rg_id r) x) as [_ Ew].
    cbn [writes foldl]. do 2 f_equal. cbn. rewrite Ew. by rewrite (word_step _ _ _ _ E).
  - destruct (indirect_index _ b) as [v|]; [|done]. destruct (set_in_reg _ _ s) as [x|] eqn:E; [|done].
    destruct (indirect_index _ o) as [v'|]; [|done]. destruct (set_in_reg (rg_id o) _ _) as [y|] eqn:E'; [|done]. injection H as <- _.
    eexists. split; [done|]. destruct (fixed_count_in (rg_id o) y) as [_ Ew'], (fixed_count_in (rg_id b) x) as [_ Ew].
    cbn [s_words set_arg set_s_args]. rewrite Ew', (word_step _ _ _ _ E'), Ew, (word_step _ _ _ _ E). done.
Qed.

Lemma decode_fields_words single_regfile opcode i args s s' : decode_fields single_regfile opcode i args s = Some s' ->
  exists ws, all_writes single_regfile opcode args = Some ws /\ s_words s' = writes ws (s_words s).
Proof.
  revert i s. induction args as [|a args IH]; intros i s H; cbn [decode_fields all_writes] in *.
  - injection H as <-. by exists [].
  - destruct (decode_arg _ _ _ _ _) as [[x g]|] eqn:E; [|done]. apply decode_arg_words in E as (w & -> & Ew).
    apply IH in H as (ws & -> & Es). exists (w ++ ws). split; [done|]. rewrite Es, Ew. unfold writes. by rewrite foldl_app.
Qed.

Lemma written_word k ws l v : 0 <= k < Z.of_nat (length l) -> Forall (fun w => 0 <= w.1) ws -> written k ws = Some v ->
  writes ws l !! Z.to_nat k = Some v.
Proof.
  intros Hk Hw. unfold written, writes. induction ws as [|[j x] ws IH] using rev_ind; [done|].
  apply Forall_app in Hw as [Hw Hj]. rewrite Forall_singleton in Hj. cbn in Hj. rewrite !foldl_app. cbn [foldl].
  assert (L : length (foldl (fun l '(k, v) => <[Z.to_nat k := v]> l) l ws) = length l).
  { clear. revert l. induction ws as [|[j x] ws IH]; intros l; [done|]. cbn. by rewrite IH, length_insert. }
  destruct (Z.eqb_spec j k) as [->|N].
  - intros [= ->]. rewrite list_lookup_insert_eq by lia. done.
  - intros H. rewrite list_lookup_insert_ne by lia. by apply IH.
Qed.

(** The operands in the instruction set manual: words 0 to 2 are the output registers, 3 to 5 the input registers,
    6 to 9 the unsigned immediates and 10 to 13 the signed ones. *)
Definition manual (opcode : Z) : list (string * list (Z * Z)) :=
  let b := bits opcode in
  let i_imm := sw 12 (b 31 20) in
  let s_imm := sw 12 (b 31 25 * 2 ^ 5 + b 11 7) in
  let b_imm := sw 13 (b 31 31 * 2 ^ 12 + b 7 7 * 2 ^ 11 + b 30 25 * 2 ^ 5 + b 11 8 * 2) in
  let j_imm := sw 21 (b 31 31 * 2 ^ 20 + b 19 12 * 2 ^ 12 + b 20 20 * 2 ^ 11 + b 30 21 * 2) in
  let rvc_imm := sw 6 (b 12 12 * 2 ^ 5 + b 6 2) in
  let rvc_uimm := b 12 12 * 2 ^ 5 + b 6 2 in
  let clw_imm := b 5 5 * 2 ^ 6 + b 12 10 * 2 ^ 3 + b 6 6 * 2 ^ 2 in
  let cb_imm := sw 9 (b 12 12 * 2 ^ 8 + b 6 5 * 2 ^ 6 + b 2 2 * 2 ^ 5 + b 11 10 * 2 ^ 3 + b 4 3 * 2) in
  let cj_imm := sw 12 (b 12 12 * 2 ^ 11 + b 8 8 * 2 ^ 10 + b 10 9 * 2 ^ 8 + b 6 6 * 2 ^ 7 + b 7 7 * 2 ^ 6 +
                       b 2 2 * 2 ^ 5 + b 11 11 * 2 ^ 4 + b 5 3 * 2) in
  [ ("R"%string, [(0, b 11 7); (3, b 19 15); (4, b 24 20)]);
    ("I"%string, [(0, b 11 7); (3, b 19 15); (10, i_imm)]);
    ("L"%string, [(0, b 11 7); (3, b 19 15); (10, i_imm)]);
    ("IU"%string, [(0, b 11 7); (3, b 19 15); (6, b 31 20)]);
    ("IUR"%string, [(0, b 11 7); (7, b 19 15); (6, b 31 20)]);
    ("I1U"%string, [(0, b 11 7); (3, b 19 15); (6, b 24 20)]);
    ("S"%string, [(3, b 19 15); (4, b 24 20); (10, s_imm)]);
    ("SB"%string, [(3, b 19 15); (4, b 24 20); (10, b_imm)]);
    ("U"%string, [(0, b 11 7); (6, b 31 12 * 2 ^ 12)]);
    ("UJ"%string, [(0, b 11 7); (10, j_imm)]);
    ("CR"%string, [(0, b 11 7); (3, b 11 7); (4, b 6 2)]);
    ("CR2"%string, [(0, b 11 7); (3, 0); (4, b 6 2)]);
    ("CI1"%string, [(0, b 11 7); (3, b 11 7); (10, rvc_imm)]);
    ("CI1U"%string, [(0, b 11 7); (3, b 11 7); (6, rvc_uimm)]);
    ("CI3"%string, [(0, b 11 7); (3, 2); (10, b 3 2 * 2 ^ 6 + b 12 12 * 2 ^ 5 + b 6 4 * 2 ^ 2)]);
    ("CI4"%string, [(0, 2); (3, 2);
       (10, sw 10 (b 12 12 * 2 ^ 9 + b 4 3 * 2 ^ 7 + b 5 5 * 2 ^ 6 + b 2 2 * 2 ^ 5 + b 6 6 * 2 ^ 4))]);
    ("CI5"%string, [(0, b 11 7); (6, u32 (sw 18 (b 12 12 * 2 ^ 17 + b 6 2 * 2 ^ 12)))]);
    ("CI6"%string, [(0, b 11 7); (3, 0); (10, rvc_imm)]);
    ("CSS"%string, [(3, 2); (4, b 6 2); (10, b 8 7 * 2 ^ 6 + b 12 9 * 2 ^ 2)]);
    ("CIW"%string, [(0, 8 + b 4 2); (3, 2); (10, b 10 7 * 2 ^ 6 + b 12 11 * 2 ^ 4 + b 5 5 * 2 ^ 3 + b 6 6 * 2 ^ 2)]);
    ("CL"%string, [(0, 8 + b 4 2); (3, 8 + b 9 7); (10, clw_imm)]);
    ("CS"%string, [(3, 8 + b 9 7); (4, 8 + b 4 2); (10, clw_imm)]);
    ("CS2"%string, [(0, 8 + b 9 7); (3, 8 + b 9 7); (4, 8 + b 4 2)]);
    ("CB1"%string, [(3, 8 + b 9 7); (4, 0); (10, cb_imm)]);
    ("CB2"%string, [(0, 8 + b 9 7); (3, 8 + b 9 7); (6, rvc_uimm)]);
    ("CB2S"%string, [(0, 8 + b 9 7); (3, 8 + b 9 7); (10, rvc_imm)]);
    ("CJ"%string, [(0, 0); (10, cj_imm)]);
    ("CJ1"%string, [(0, 1); (10, cj_imm)]) ].

Lemma bits_range opcode hi lo : lo <= hi -> 0 <= bits opcode hi lo < 2 ^ (hi - lo + 1).
Proof. intros H. apply Z.mod_pos_bound. apply Z.pow_pos_nonneg; lia. Qed.

Lemma reg_info opcode bit width : 0 <= bit -> 0 < width <= 5 -> bit + width <= 32 ->
  decode_info opcode (Range1 bit width 0) false = Some (bits opcode (bit + width - 1) bit).
Proof.
  intros Hb Hw Hbw. cbn [decode_info Range1]. rewrite decode_unsigned.
  - cbn [fields r_bit r_width r_shift]. rewrite Z.mul_1_r, Z.add_0_r.
    pose proof (bits_range opcode (bit + width - 1) bit ltac:(lia)).
    pose proof (Z.pow_le_mono_r 2 (bit + width - 1 - bit + 1) 5 ltac:(lia) ltac:(lia)). by rewrite sw_small by lia.
  - cbn [ranges_ok forallb]. rewrite !andb_true_r. apply range_ok_spec. cbn. lia.
Qed.

Lemma s32_u32_sw w x : 0 < w <= 32 -> s32 (u32 (sw w x)) = sw w x.
Proof.
  intros H. rewrite sw_uw by lia. apply sw_small; [lia|]. pose proof (sw_range w x ltac:(lia)).
  pose proof (Z.pow_le_mono_r 2 (w - 1) (32 - 1) ltac:(lia) ltac:(lia)). lia.
Qed.

(** One operand of a format: the words that its argument writes. *)
Ltac bit_facts :=
  repeat match goal with
  | |- context [bits ?o ?h ?l] =>
    lazymatch goal with
    | _ : 0 <= bits o h l < _ |- _ => fail
    | _ => let H := fresh in pose proof (bits_range o h l ltac:(lia)) as H; simpl in H
    end
  end.

Lemma formats_written single_regfile opcode name operands s : length (s_words s) = 14%nat ->
  args_ok (find_format name) = true ->
  Forall (fun '(k, v) => 0 <= k < 14 /\ (let* ws := all_writes single_regfile opcode (find_format name) in written k ws) = Some v) operands ->
  exists s', decode_fields single_regfile opcode 0 (find_format name) s = Some s' /\
    Forall (fun '(k, v) => word (Z.to_nat k) s' = v) operands.
Proof.
  intros Hl Hok H. unfold args_ok in Hok. apply andb_true_iff in Hok as [_ Ha].
  destruct (decode_fields_ok single_regfile opcode 0 (find_format name) s Ha) as (s' & E & _). exists s'. split; [done|].
  apply decode_fields_words in E as (ws & Ew & Es). rewrite Ew in H.
  assert (Hw : Forall (fun w => 0 <= w.1) ws).
  { clear -Ew Ha. revert ws Ew. induction (find_format name) as [|a args IH]; cbn [all_writes]; intros ws Ew.
    - injection Ew as <-. constructor.
    - cbn [forallb] in Ha. apply andb_true_iff in Ha as [Ha1 Ha]. destruct (arg_writes _ _ a) as [w|] eqn:E; [|done].
      destruct (all_writes _ _ args) as [ws'|]; [|done]. injection Ew as <-. apply Forall_app. split; [|by apply IH].
      clear -E Ha1. destruct a as [|out flags r|flags im|flags im|flags r im|flags b o]; cbn [arg_writes arg_ok] in *;
        repeat match goal with H : context [match ?x with Some _ => _ | None => None end] |- _ => destruct x; [|done] end;
        injection E as <-; unfold reg_ok, imm_ok in Ha1; rewrite ?andb_true_iff, ?Z.leb_le, ?Z.ltb_lt in Ha1;
        repeat constructor; cbn; try lia. destruct out; lia. }
  eapply Forall_impl; [exact H|]. intros [k v] [Hk E]. cbn in *. unfold word. rewrite Es.
  by rewrite (written_word k ws (s_words s) v ltac:(lia) Hw E).
Qed.

(** Evaluates the words written by the arguments of one format, down to the bits of the opcode. *)
Ltac closed_part f :=
  repeat match goal with
  | |- context [f ?a ?b] => let v := eval vm_compute in (f a b) in progress change (f a b) with v
  end.
Ltac operand_bits :=
  cbv [all_writes arg_writes reg_index indirect_index decode_info rg_info rg_id rg_flags im_info im_id im_is_signed range_set];
  rewrite ?decode_unsigned, ?decode_signed by reflexivity;
  cbn [fields r_bit r_width r_shift Z.eqb];
  repeat match goal with
  | |- context [has_flag ?a ?b] => let v := eval vm_compute in (has_flag a b) in change (has_flag a b) with v
  | |- context [value_width ?l] => let v := eval vm_compute in (value_width l) in change (value_width l) with v
  | |- context [bits ?o (?h + ?w - 1) ?l] => let v := eval vm_compute in (h + w - 1) in change (h + w - 1) with v
  | |- context [(3 + ?k, ?v)] => let k' := eval vm_compute in (3 + k) in change (3 + k, v) with (k', v)
  | |- context [(0 + ?k, ?v)] => let k' := eval vm_compute in (0 + k) in change (0 + k, v) with (k', v)
  | |- context [(6 + ?k, ?v)] => let k' := eval vm_compute in (6 + k) in change (6 + k, v) with (k', v)
  | |- context [(10 + ?k, ?v)] => let k' := eval vm_compute in (10 + k) in change (10 + k, v) with (k', v)
  end;
  rewrite ?andb_false_r; cbn [app written foldl Z.eqb Pos.eqb negb andb].

Ltac operand_value :=
  bit_facts; unfold ISS_NB_REGS; rewrite ?Z.add_0_r, ?Z.mul_1_r, ?s32_u32_sw, ?uw_idemp by lia;
  rewrite ?(sw_small 32 (bits _ _ _)) by (simpl; lia); rewrite ?(sw_small 32), ?(uw_small 32) by (simpl; lia);
  first [lia|f_equal; lia|do 2 f_equal; lia].

Ltac format_case :=
  apply formats_written; [assumption|vm_compute; reflexivity|];
  match goal with |- context [find_format ?n] => let f := eval vm_compute in (find_format n) in change (find_format n) with f end;
  operand_bits; repeat apply Forall_cons_2; [..|apply Forall_nil_2]; (split; [lia|]); cbn match; f_equal; operand_value.

(** the operands that the generated formats decode are those of the instruction set manual: the registers and
    immediates of the base formats (R, I, S, B, U, J and the ones of shifts and CSRs) and of the compressed ones
    (CR, CI, CSS, CIW, CL, CS, CB, CJ and their variants), every bit of an immediate coming from its place in the
    opcode, with its sign. *)
Theorem manual_formats single_regfile opcode s : length (s_words s) = 14%nat ->
  Forall (fun '(name, operands) => exists s', decode_fields single_regfile opcode 0 (find_format name) s = Some s' /\
    Forall (fun '(k, v) => word (Z.to_nat k) s' = v) operands) (manual opcode).
Proof.
  intros Hl. unfold manual. cbv zeta. repeat apply Forall_cons_2; [..|apply Forall_nil_2].
  all: format_case.
Qed.

(** The formats with a signed operand that has no bit: their decoding shifts a word by its width. *)
Definition undefined_formats : list string := ["LRRRR"; "LRR"; "CR1"; "CR3"]%string.

Definition arg_undefined (a : iss_decoder_arg) : bool :=
  match a with
  | ISS_DECODER_ARG_TYPE_SIMM _ im => im_is_signed im && match range_set (im_info im) with Some [] => true | _ => false end
  | ISS_DECODER_ARG_TYPE_INDIRECT_IMM _ _ im =>
    im_is_signed im && match im_info im with ISS_DECODER_VALUE_TYPE_RANGE [] => true | _ => false end
  | _ => false
  end.

Lemma all_writes_undefined single_regfile opcode args : existsb arg_undefined args = true ->
  all_writes single_regfile opcode args = None.
Proof.
  induction args as [|a args IH]; cbn [existsb all_writes]; [done|]. intros H. apply orb_true_iff in H as [H|H].
  - destruct a as [|out flags r|flags im|flags im|flags r im|flags b o]; try done; cbn [arg_undefined arg_writes] in *;
      apply andb_true_iff in H as [-> H].
    + by destruct (range_set (im_info im)) as [[|]|].
    + destruct (im_info im) as [| |[|]]; try done. cbn. by destruct (indirect_index opcode r).
  - rewrite (IH H). by destruct (arg_writes _ _ a).
Qed.

(** every format of the instruction sets can be decoded, from every opcode, but for four, where the operand
    with no bits of a load, of c.jr and of c.jalr is extended by shifting a word by 32, which C does not define. *)
Theorem formats_defined single_regfile opcode s name args : (name, args) ∈ formats ->
  (exists s', decode_fields single_regfile opcode 0 args s = Some s') <-> name ∉ undefined_formats.
Proof.
  intros H.
  assert (F : forallb (fun f => if bool_decide (f.1 ∈ undefined_formats) then existsb arg_undefined f.2 else args_ok f.2)
    formats = true) by (vm_compute; reflexivity).
  rewrite forallb_forall in F. specialize (F (name, args)). rewrite <- list_elem_of_In in F. specialize (F H). cbn in F.
  case_bool_decide as Hu.
  - split; [|done]. intros [s' E]. apply decode_fields_words in E as (ws & E & _).
    by rewrite all_writes_undefined in E.
  - split; [done|]. intros _. apply andb_true_iff in F as [_ F].
    destruct (decode_fields_ok single_regfile opcode 0 args s F) as (s' & E & _). by exists s'.
Qed.

(** ** Examples *)

Lemma manual_formats_witness : length (s_words blank) = 14%nat /\
  Forall (fun '(name, operands) => exists s', decode_fields false 0xfe20cee3 0 (find_format name) blank = Some s' /\
    Forall (fun '(k, v) => word (Z.to_nat k) s' = v) operands) (manual 0xfe20cee3).
Proof. split; [reflexivity|]. exact (manual_formats false 0xfe20cee3 blank eq_refl). Defined.

Lemma formats_defined_witness : (exists s', decode_fields false 0x02208133 0
    [OutReg 0 (Range1 7 5 0); InReg 0 (Range1 15 5 0); InReg 1 (Range1 20 5 0)] blank = Some s') <->
  "R"%string ∉ undefined_formats.
Proof. apply formats_defined. vm_compute. left. Defined.
