(* ===== verification/Rv32c.v ===== *)
(** * The compressed instructions (models/cpu/iss/include/rv32c.hpp)

    Each handler is the one of a base instruction, counted as compressed when the performance counters are
    used.  The core switches to the fast handlers when the counters are off; the theorem of this file says
    for which states that switch is not visible. *)

From S2P Require Import Prelude Io Memory Rv32.

Definition CSR_PCER_RVC : Z := 10.

Section Compressed.
Context {S : Type} (regs null_reg port : Z) (data : io_meth S).
Implicit Types (i : iss_insn) (st : iss (S := S)).

Definition c_addi4spn_exec_fast := addi_exec (S := S) regs.
Definition c_addi4spn_exec i st := addi_exec regs i (account CSR_PCER_RVC st).

Definition c_lw_exec_fast := lw_exec_fast regs null_reg port data.
Definition c_lw_exec i st := lw_exec regs null_reg port data i (account CSR_PCER_RVC st).

Definition c_sw_exec_fast := sw_exec_fast regs port data.
Definition c_sw_exec i st := sw_exec regs port data i (account CSR_PCER_RVC st).

Definition c_swsp_exec_fast := sw_exec_fast regs port data.
Definition c_swsp_exec i st := sw_exec regs port data i (account CSR_PCER_RVC st).

Definition c_nop_exec_fast := nop_exec (S := S).
Definition c_nop_exec i st := nop_exec i (account CSR_PCER_RVC st).

Definition c_addi_exec_fast := addi_exec (S := S) regs.
Definition c_addi_exec i st := addi_exec regs i (account CSR_PCER_RVC st).

Definition c_jal_exec_fast := jal_exec_fast (S := S) regs.
Definition c_jal_exec i st := jal_exec regs i (account CSR_PCER_RVC st).

Definition c_li_exec_fast := addi_exec (S := S) regs.
Definition c_li_exec i st := addi_exec regs i (account CSR_PCER_RVC st).

Definition c_addi16sp_exec_fast := addi_exec (S := S) regs.
Definition c_addi16sp_exec i st := addi_exec regs i (account CSR_PCER_RVC st).

Definition c_jalr_exec_fast := jalr_exec_fast (S := S) regs.
Definition c_jalr_exec i st := jalr_exec regs i (account CSR_PCER_RVC st).

Definition c_lui_exec_fast := lui_exec (S := S) regs.
Definition c_lui_exec i st := lui_exec regs i (account CSR_PCER_RVC st).

Definition c_srli_exec_fast := srli_exec (S := S) regs.
Definition c_srli_exec i st := srli_exec regs i (account CSR_PCER_RVC st).

Definition c_srai_exec_fast := srai_exec (S := S) regs.
Definition c_srai_exec i st := srai_exec regs i (account CSR_PCER_RVC st).

Definition c_andi_exec_fast := andi_exec (S := S) regs.
Definition c_andi_exec i st := andi_exec regs i (account CSR_PCER_RVC st).

Definition c_sub_exec_fast := sub_exec (S := S) regs.
Definition c_sub_exec i st := sub_exec regs i (account CSR_PCER_RVC st).

Definition c_xor_exec_fast := xor_exec (S := S) regs.
Definition c_xor_exec i st := xor_exec regs i (account CSR_PCER_RVC st).

Definition c_or_exec_fast := or_exec (S := S) regs.
Definition c_or_exec i st := or_exec regs i (account CSR_PCER_RVC st).

Definition c_and_exec_fast := and_exec (S := S) regs.
Definition c_and_exec i st := and_exec regs i (account CSR_PCER_RVC st).

Definition c_j_exec_fast := jal_exec_fast (S := S) regs.
Definition c_j_exec i st := jal_exec regs i (account CSR_PCER_RVC st).

Definition c_beqz_exec_fast := beq_exec_fast (S := S) regs.
Definition c_beqz_exec i st := beq_exec regs i (account CSR_PCER_RVC st).

Definition c_bnez_exec_fast := bne_exec_fast (S := S) regs.
Definition c_bnez_exec i st := bne_exec regs i (account CSR_PCER_RVC st).

Definition c_slli_exec_fast := slli_exec (S := S) regs.
Definition c_slli_exec i st := slli_exec regs i (account CSR_PCER_RVC st).

Definition c_lwsp_exec_fast := lw_exec_fast regs null_reg port data.
Definition c_lwsp_exec i st := lw_exec regs null_reg port data i (account CSR_PCER_RVC st).

Definition c_jr_exec_fast := jalr_exec_fast (S := S) regs.
Definition c_jr_exec i st := jalr_exec regs i (account CSR_PCER_RVC st).

Definition c_mv_exec_fast := add_exec (S := S) regs.
Definition c_mv_exec i st := add_exec regs i (account CSR_PCER_RVC st).

Definition c_add_exec_fast := add_exec (S := S) regs.
Definition c_add_exec i st := add_exec regs i (account CSR_PCER_RVC st).
(** The register a full handler of a load or a store compares with the stack pointer: its base, or, for a
    store, its destination. *)
Inductive stack_operand := LoadBase | StoreOut.
Definition stack_check (o : option stack_operand) i st : option unit :=
  match o with
  | None => Some tt
  | Some LoadBase => iss_lsu_check_stack_access (REG_IN i 0) (mem_addr regs i st) st
  | Some StoreOut => iss_lsu_check_stack_access (REG_OUT i 0) (mem_addr regs i st) st
  end.

(** The full and fast handlers of the instructions that have both, with the stack check of the full one. *)
Definition handler_pairs :
    list ((iss_insn -> iss -> option (Z * iss)) * (iss_insn -> iss -> option (Z * iss (S := S))) * option stack_operand) :=
  [(jal_exec regs, jal_exec_fast regs, None); (jalr_exec regs, jalr_exec_fast regs, None);
   (beq_exec regs, beq_exec_fast regs, None); (bne_exec regs, bne_exec_fast regs, None);
   (blt_exec regs, blt_exec_fast regs, None); (bge_exec regs, bge_exec_fast regs, None);
   (bltu_exec regs, bltu_exec_fast regs, None); (bgeu_exec regs, bgeu_exec_fast regs, None);
   (lb_exec regs null_reg port data, lb_exec_fast regs null_reg port data, Some LoadBase);
   (lh_exec regs null_reg port data, lh_exec_fast regs null_reg port data, Some LoadBase);
   (lw_exec regs null_reg port data, lw_exec_fast regs null_reg port data, Some LoadBase);
   (lbu_exec regs null_reg port data, lbu_exec_fast regs null_reg port data, Some LoadBase);
   (lhu_exec regs null_reg port data, lhu_exec_fast regs null_reg port data, Some LoadBase);
   (sb_exec regs port data, sb_exec_fast regs port data, Some StoreOut);
   (sh_exec regs port data, sh_exec_fast regs port data, Some StoreOut);
   (sw_exec regs port data, sw_exec_fast regs port data, Some StoreOut);
   (c_addi4spn_exec, c_addi4spn_exec_fast, None); (c_lw_exec, c_lw_exec_fast, Some LoadBase);
   (c_sw_exec, c_sw_exec_fast, Some StoreOut); (c_swsp_exec, c_swsp_exec_fast, Some StoreOut);
   (c_nop_exec, c_nop_exec_fast, None); (c_addi_exec, c_addi_exec_fast, None); (c_jal_exec, c_jal_exec_fast, None);
   (c_li_exec, c_li_exec_fast, None); (c_addi16sp_exec, c_addi16sp_exec_fast, None);
   (c_jalr_exec, c_jalr_exec_fast, None); (c_lui_exec, c_lui_exec_fast, None);
   (c_srli_exec, c_srli_exec_fast, None); (c_srai_exec, c_srai_exec_fast, None);
   (c_andi_exec, c_andi_exec_fast, None); (c_sub_exec, c_sub_exec_fast, None); (c_xor_exec, c_xor_exec_fast, None);
   (c_or_exec, c_or_exec_fast, None); (c_and_exec, c_and_exec_fast, None); (c_j_exec, c_j_exec_fast, None);
   (c_beqz_exec, c_beqz_exec_fast, None); (c_bnez_exec, c_bnez_exec_fast, None);
   (c_slli_exec, c_slli_exec_fast, None); (c_lwsp_exec, c_lwsp_exec_fast, Some LoadBase);
   (c_jr_exec, c_jr_exec_fast, None); (c_mv_exec, c_mv_exec_fast, None); (c_add_exec, c_add_exec_fast, None)].

(** ** States up to the performance counters *)

Definition upto st st' : Prop :=
  hst st' = hst st /\ bus st' = bus st /\ set_pccr [] (cpu st') = set_pccr [] (cpu st).

#[export] Instance upto_equivalence : Equivalence upto.
Proof.
  split.
  - intros st. by repeat split.
  - intros st st' (? & ? & ?). by repeat split.
  - intros s1 s2 s3 (? & ? & ?) (? & ? & ?). repeat split; congruence.
Qed.

Abbreviation upto_result := (option_Forall2 (prod_relation eq upto)).

(** Two states up to their counters: [c] and [c'] differ in the counters only. *)
Ltac destruct_upto H :=
  let st := fresh "st" in let st' := fresh "st" in
  intros st st' H; destruct st as [c h s], st' as [c' h' s']; destruct H as (Hh & Hs & Hc);
  cbn [hst bus cpu] in *; subst h' s'; destruct c, c'; unfold set_pccr in Hc; cbn in Hc; injection Hc as; subst.

Lemma account_upto event st : upto (account event st) st.
Proof. unfold account, iss_pccr_account_event. destruct (_ && _); by repeat split. Qed.

#[export] Instance account_proper event : Proper (upto ==> upto) (account event).
Proof. intros st st' H. by rewrite !account_upto. Qed.

#[export] Instance get_reg_proper : Proper (upto ==> eq ==> eq) (get_reg regs).
Proof. intros st st' (H & _) k _ <-. unfold get_reg. by rewrite H. Qed.

#[export] Instance mem_addr_proper i : Proper (upto ==> eq) (mem_addr regs i).
Proof. intros st st' H. unfold mem_addr, REG_GET. by rewrite H. Qed.

#[export] Instance set_reg_proper reg v : Proper (upto ==> upto) (set_reg regs reg v).
Proof. intros st st' (H & ? & ?). unfold set_reg. by rewrite H. Qed.

#[export] Instance data_req_aligned_proper addr d n w :
  Proper (upto ==> option_Forall2 (prod_relation (prod_relation eq eq) upto)) (data_req_aligned port data addr d n w).
Proof.
  destruct_upto H. unfold data_req_aligned. cbn [hst bus].
  destruct (master_req _ _ _ _ _) as [[[[err r] h1] s1]|]; [|constructor].
  destruct err; repeat constructor.
Qed.

#[export] Instance data_misaligned_req_proper addr d n w :
  Proper (upto ==> upto_result) (data_misaligned_req port data addr d n w).
Proof.
  intros st st' H. unfold data_misaligned_req.
  set (addr1 := Z.land _ _). set (size0 := s32 _).
  assert (Hm : upto
    (set_cpu (set_misaligned true (n - size0) (d + size0) addr1 w (iss_pccr_account_event CSR_PCER_MISALIGNED 1 (cpu st))) st)
    (set_cpu (set_misaligned true (n - size0) (d + size0) addr1 w (iss_pccr_account_event CSR_PCER_MISALIGNED 1 (cpu st'))) st')).
  { revert st st' H. destruct_upto H. unfold iss_pccr_account_event. cbn.
    destruct (_ && _); by repeat split. }
  pose proof (data_req_aligned_proper addr d size0 w _ _ Hm) as [[[err r] s1] [[err' r'] s1'] [[E1 E2] H1]|]; [|constructor].
  cbn in E1, E2, H1. subst err' r'.
  destruct err; repeat constructor; cbn; try apply H1. destruct H1 as (? & ? & Hc).
  destruct (cpu s1), (cpu s1'). unfold set_pccr in Hc. cbn in *. injection Hc as. by subst.
Qed.

#[export] Instance data_req_proper addr d n w : Proper (upto ==> upto_result) (data_req port data addr d n w).
Proof.
  intros st st' H. unfold data_req. destruct (_ =? _).
  - pose proof (data_req_aligned_proper addr d n w _ _ H) as [[[err r] s1] [[err' r'] s1'] [[E1 E2] H1]|]; [|constructor].
  cbn in E1, E2, H1. subst err' r'.
    cbn. by constructor.
  - by apply data_misaligned_req_proper.
Qed.

#[export] Instance stall_access_proper cb reg n : Proper (upto ==> upto) (stall_access cb reg n).
Proof. destruct_upto H. done. Qed.

Lemma stall_size_upto st st' : upto st st' -> stall_size (cpu st') = stall_size (cpu st).
Proof. revert st st'. destruct_upto H. done. Qed.

#[export] Instance lsu_load_proper addr n reg : Proper (upto ==> option_Forall2 upto) (iss_lsu_load regs null_reg port data addr n reg).
Proof.
  intros st st' H. unfold iss_lsu_load.
  pose proof (data_req_proper addr (iss_reg_ref regs null_reg reg) n false _ _ (set_reg_proper reg 0 _ _ H))
    as [[err s1] [err' s1'] [E1 H1]|]; [|constructor].
  cbn in E1, H1. subst err'.
  rewrite <- (stall_size_upto _ _ H1).
  destruct err; constructor; try done; by apply stall_access_proper.
Qed.

#[export] Instance lsu_load_signed_proper addr n reg :
  Proper (upto ==> option_Forall2 upto) (iss_lsu_load_signed regs null_reg port data addr n reg).
Proof.
  intros st st' H. unfold iss_lsu_load_signed.
  pose proof (data_req_proper addr (iss_reg_ref regs null_reg reg) n false _ _ H) as [[err s1] [err' s1'] [E1 H1]|]; [|constructor].
  cbn in E1, H1. subst err'.
  destruct err; constructor; try (by apply stall_access_proper).
  rewrite (get_reg_proper _ _ H1 reg reg eq_refl). by apply set_reg_proper.
Qed.

#[export] Instance lsu_store_proper addr n reg : Proper (upto ==> option_Forall2 upto) (iss_lsu_store regs port data addr n reg).
Proof.
  intros st st' H. unfold iss_lsu_store.
  pose proof (data_req_proper addr (iss_reg_store_ref regs reg) n true _ _ H) as [[err s1] [err' s1'] [E1 H1]|]; [|constructor].
  cbn in E1, H1. subst err'.
  rewrite <- (stall_size_upto _ _ H1).
  destruct err; constructor; try done; by apply stall_access_proper.
Qed.

(** ** The handlers, up to the counters *)

Lemma upto_account event st st' : upto st st' -> upto (account event st) st'.
Proof. intros H. by rewrite account_upto. Qed.

Lemma then_next_upto i x y : option_Forall2 upto x y -> upto_result (then_next i x) (then_next i y).
Proof. intros H. destruct H; constructor; by split. Qed.

Lemma insn_result_upto i v st st' : upto st st' -> upto_result (insn_result regs i v st) (insn_result regs i v st').
Proof. intros H. destruct v; constructor. split; [done|by apply set_reg_proper]. Qed.

Lemma add_cycles_upto n st st' :
  upto st st' -> upto (set_cpu (set_insn_cycles (insn_cycles (cpu st) + n) (cpu st)) st)
                   (set_cpu (set_insn_cycles (insn_cycles (cpu st') + n) (cpu st')) st').
Proof. revert st st'. destruct_upto H. done. Qed.

Lemma link_upto (perf : bool) i st st' :
  upto st st' ->
  let ret st := if negb (REG_OUT i 0 =? 0) then REG_SET regs i 0 (u32 (i_addr i + i_size i)) st else st in
  upto (if perf then account CSR_PCER_JUMP (ret st) else ret st) (ret st').
Proof.
  intros H ret. assert (upto (ret st) (ret st')) by (unfold ret; destruct (negb _); [by apply set_reg_proper|done]).
  destruct perf; [by apply upto_account|done].
Qed.

Lemma jal_upto (perf : bool) i st st' :
  upto st st' -> upto_result (jal_exec_common regs perf i st) (jal_exec_common regs false i st').
Proof. intros H. unfold jal_exec_common. constructor. split; [done|]. apply (add_cycles_upto 1), (link_upto perf i), H. Qed.

Lemma jalr_upto (perf : bool) i st st' :
  upto st st' -> upto_result (jalr_exec_common regs perf i st) (jalr_exec_common regs false i st').
Proof.
  intros H. unfold jalr_exec_common. constructor. split; [cbn; by rewrite H|]. apply (add_cycles_upto 1), (link_upto perf i), H.
Qed.

Lemma branch_upto (perf taken : bool) i st st' :
  upto st st' -> upto_result (branch_common taken perf i st) (branch_common taken false i st').
Proof.
  intros H. unfold branch_common. set (st0 := if perf then account CSR_PCER_BRANCH st else st).
  assert (H0 : upto st0 st') by (unfold st0; destruct perf; [by apply upto_account|done]).
  destruct taken; constructor; (split; [done|]); [|exact H0]. apply (add_cycles_upto 2).
  destruct perf; [by apply upto_account|exact H0].
Qed.

Lemma stack_access_upto reg addr st st' :
  upto st st' -> iss_lsu_check_stack_access reg addr st = iss_lsu_check_stack_access reg addr st'.
Proof. revert st st'. destruct_upto H. done. Qed.

(** A full handler passes its stack check and does what the fast one does up to the counters, or stops the
    simulation. *)
Definition agree (full fast : iss_insn -> iss -> option (Z * iss (S := S))) (chk : option stack_operand) : Prop :=
  forall i st st', upto st st' ->
    if stack_check chk i st is Some _ then upto_result (full i st) (fast i st') else full i st = None.

Ltac memory_pair lsu_proper :=
  let i := fresh "i" in let st := fresh "st" in let st' := fresh "st" in let H := fresh "H" in
  intros i st st' H; cbn [stack_check];
  unfold lb_exec, lh_exec, lw_exec, lbu_exec, lhu_exec, sb_exec, sh_exec, sw_exec;
  destruct (iss_lsu_check_stack_access _ _ st); [|done];
  apply then_next_upto; rewrite (mem_addr_proper i _ _ H); apply lsu_proper, upto_account, H.

Lemma base_pairs_agree :
  agree (jal_exec regs) (jal_exec_fast regs) None /\ agree (jalr_exec regs) (jalr_exec_fast regs) None /\
  agree (beq_exec regs) (beq_exec_fast regs) None /\ agree (bne_exec regs) (bne_exec_fast regs) None /\
  agree (blt_exec regs) (blt_exec_fast regs) None /\ agree (bge_exec regs) (bge_exec_fast regs) None /\
  agree (bltu_exec regs) (bltu_exec_fast regs) None /\ agree (bgeu_exec regs) (bgeu_exec_fast regs) None.
Proof.
  repeat split; intros i st st' H; cbn [stack_check]; first [apply jal_upto, H|apply jalr_upto, H|idtac];
    unfold beq_exec, bne_exec, blt_exec, bge_exec, bltu_exec, bgeu_exec, beq_exec_fast, bne_exec_fast, blt_exec_fast,
      bge_exec_fast, bltu_exec_fast, bgeu_exec_fast, beq_exec_common, bne_exec_common, blt_exec_common, bge_exec_common,
      bltu_exec_common, bgeu_exec_common, REG_GET;
    rewrite !(get_reg_proper st st' H _ _ eq_refl); apply branch_upto, H.
Qed.

Lemma memory_pairs_agree :
  agree (lb_exec regs null_reg port data) (lb_exec_fast regs null_reg port data) (Some LoadBase) /\
  agree (lh_exec regs null_reg port data) (lh_exec_fast regs null_reg port data) (Some LoadBase) /\
  agree (lw_exec regs null_reg port data) (lw_exec_fast regs null_reg port data) (Some LoadBase) /\
  agree (lbu_exec regs null_reg port data) (lbu_exec_fast regs null_reg port data) (Some LoadBase) /\
  agree (lhu_exec regs null_reg port data) (lhu_exec_fast regs null_reg port data) (Some LoadBase) /\
  agree (sb_exec regs port data) (sb_exec_fast regs port data) (Some StoreOut) /\
  agree (sh_exec regs port data) (sh_exec_fast regs port data) (Some StoreOut) /\
  agree (sw_exec regs port data) (sw_exec_fast regs port data) (Some StoreOut).
Proof.
  repeat split; first [memory_pair lsu_load_signed_proper|memory_pair lsu_load_proper|memory_pair lsu_store_proper].
Qed.

(** ** With the counters off *)

Definition counters_off st : Prop := Z.land (pcmr (cpu st)) 1 = 0.

Lemma account_off event st : counters_off st -> account event st = st.
Proof.
  unfold counters_off, account, iss_pccr_account_event. intros ->. cbn. by destruct st.
Qed.

Definition agree_off (full fast : iss_insn -> iss -> option (Z * iss (S := S))) (chk : option stack_operand) : Prop :=
  forall i st, counters_off st -> stack_check chk i st = Some tt -> full i st = fast i st.

Ltac pair_off :=
  let i := fresh "i" in let st := fresh "st" in let Hoff := fresh "Hoff" in let Hchk := fresh "Hchk" in
  intros i st Hoff Hchk; cbn [stack_check] in Hchk;
  unfold jal_exec, jalr_exec, beq_exec, bne_exec, blt_exec, bge_exec, bltu_exec, bgeu_exec, jal_exec_fast, jalr_exec_fast,
    beq_exec_fast, bne_exec_fast, blt_exec_fast, bge_exec_fast, bltu_exec_fast, bgeu_exec_fast,
    beq_exec_common, bne_exec_common, blt_exec_common, bge_exec_common, bltu_exec_common, bgeu_exec_common,
    jal_exec_common, jalr_exec_common, branch_common,
    lb_exec, lh_exec, lw_exec, lbu_exec, lhu_exec, sb_exec, sh_exec, sw_exec,
    iss_lsu_load_perf, iss_lsu_load_signed_perf, iss_lsu_store_perf;
  try (rewrite Hchk; clear Hchk);
  repeat match goal with
    | |- context [account ?e ?s] => rewrite (account_off e s) by first [exact Hoff|destruct (negb _); exact Hoff]
    end;
  reflexivity.

Lemma base_pairs_off :
  agree_off (jal_exec regs) (jal_exec_fast regs) None /\ agree_off (jalr_exec regs) (jalr_exec_fast regs) None /\
  agree_off (beq_exec regs) (beq_exec_fast regs) None /\ agree_off (bne_exec regs) (bne_exec_fast regs) None /\
  agree_off (blt_exec regs) (blt_exec_fast regs) None /\ agree_off (bge_exec regs) (bge_exec_fast regs) None /\
  agree_off (bltu_exec regs) (bltu_exec_fast regs) None /\ agree_off (bgeu_exec regs) (bgeu_exec_fast regs) None.
Proof. repeat split; pair_off. Qed.

Lemma memory_pairs_off :
  agree_off (lb_exec regs null_reg port data) (lb_exec_fast regs null_reg port data) (Some LoadBase) /\
  agree_off (lh_exec regs null_reg port data) (lh_exec_fast regs null_reg port data) (Some LoadBase) /\
  agree_off (lw_exec regs null_reg port data) (lw_exec_fast regs null_reg port data) (Some LoadBase) /\
  agree_off (lbu_exec regs null_reg port data) (lbu_exec_fast regs null_reg port data) (Some LoadBase) /\
  agree_off (lhu_exec regs null_reg port data) (lhu_exec_fast regs null_reg port data) (Some LoadBase) /\
  agree_off (sb_exec regs port data) (sb_exec_fast regs port data) (Some StoreOut) /\
  agree_off (sh_exec regs port data) (sh_exec_fast regs port data) (Some StoreOut) /\
  agree_off (sw_exec regs port data) (sw_exec_fast regs port data) (Some StoreOut).
Proof. repeat split; pair_off. Qed.

(** ** The compressed instructions *)

Lemma stack_check_upto chk i st st' : upto st st' -> stack_check chk i st = stack_check chk i st'.
Proof.
  intros H. destruct chk as [[]|]; cbn [stack_check]; [..|done];
    rewrite (mem_addr_proper i _ _ H); by apply stack_access_upto.
Qed.

Lemma compressed_agree full fast chk :
  agree full fast chk -> agree (fun i st => full i (account CSR_PCER_RVC st)) fast chk.
Proof.
  intros Ha i st st' H. rewrite (stack_check_upto chk i st (account CSR_PCER_RVC st)) by (symmetry; apply account_upto).
  apply (Ha i (account CSR_PCER_RVC st) st'), upto_account, H.
Qed.

Lemma compressed_off full fast chk :
  agree_off full fast chk -> agree_off (fun i st => full i (account CSR_PCER_RVC st)) fast chk.
Proof. intros Ha i st Hoff Hchk. rewrite account_off by done. by apply Ha. Qed.

(** A register instruction has one handler. *)
Lemma single_agree f : (forall i, Proper (upto ==> upto_result) (f i)) -> agree f f None /\ agree_off f f None.
Proof. intros Hf. split; [|by intros i st _ _]. intros i st st' H. cbn [stack_check]. by apply Hf. Qed.

Lemma register_proper f (v : iss_insn -> iss (S := S) -> option Z) i :
  (forall i st, f i st = insn_result regs i (v i st) st) -> (forall st st', upto st st' -> v i st = v i st') ->
  Proper (upto ==> upto_result) (f i).
Proof. intros Ef Hv st st' H. rewrite !Ef, (Hv st st' H). by apply insn_result_upto. Qed.

Ltac single := apply single_agree; intros i;
  first [ by intros st st' H; constructor
        | eapply register_proper; [intros; reflexivity|intros st st' H; cbn; unfold REG_GET; by rewrite ?(get_reg_proper st st' H _ _ eq_refl)] ].

Lemma alu_singles f :
  f ∈ [addi_exec regs; nop_exec; lui_exec regs; srli_exec regs; srai_exec regs; andi_exec regs; sub_exec regs;
       xor_exec regs; or_exec regs; and_exec regs; slli_exec regs; add_exec regs] -> agree f f None /\ agree_off f f None.
Proof.
  intros Hin. repeat (apply elem_of_cons in Hin as [->|Hin]; [single|]). by apply elem_of_nil in Hin.
Qed.

Lemma base_pair_agrees full fast chk :
  (full, fast, chk) ∈ take 16 handler_pairs -> agree full fast chk /\ agree_off full fast chk.
Proof.
  intros Hin. cbn [take handler_pairs] in Hin.
  repeat (apply elem_of_cons in Hin as [Hin|Hin];
    [injection Hin as -> -> ->; split;
       first [apply base_pairs_agree|apply memory_pairs_agree|apply base_pairs_off|apply memory_pairs_off]|]).
  by apply elem_of_nil in Hin.
Qed.

(** What a compressed instruction expands to. *)
Definition expansions :
    list ((iss_insn -> iss -> option (Z * iss)) * (iss_insn -> iss -> option (Z * iss (S := S))) * option stack_operand) :=
  take 16 handler_pairs ++ ((fun f => (f, f, None)) <$>
    [addi_exec regs; nop_exec; lui_exec regs; srli_exec regs; srai_exec regs; andi_exec regs; sub_exec regs;
     xor_exec regs; or_exec regs; and_exec regs; slli_exec regs; add_exec regs]).

Lemma expansion_agrees full fast chk :
  (full, fast, chk) ∈ expansions -> agree full fast chk /\ agree_off full fast chk.
Proof.
  intros [Hin|Hin]%elem_of_app; [by apply base_pair_agrees|].
  apply list_elem_of_fmap in Hin as (f & Hf & Hin). injection Hf as -> -> ->. by apply alu_singles.
Qed.

Lemma pair_expansion full fast chk :
  (full, fast, chk) ∈ handler_pairs ->
  (full, fast, chk) ∈ expansions \/
  exists base, (base, fast, chk) ∈ expansions /\ forall i st, full i st = base i (account CSR_PCER_RVC st).
Proof.
  rewrite <- (take_drop 16 handler_pairs) at 1. intros [Hin|Hin]%elem_of_app.
  { left. apply elem_of_app. by left. }
  right. cbn [drop handler_pairs] in Hin.
  repeat (apply elem_of_cons in Hin as [Hin|Hin];
    [injection Hin as -> -> ->; refine (ex_intro _ _ (conj _ (fun i st => eq_refl)));
     unfold expansions; cbn [take handler_pairs app fmap list_fmap];
     solve [repeat first [apply list_elem_of_here|apply list_elem_of_further]]|]).
  by apply elem_of_nil in Hin.
Qed.

(** An instruction with a full handler, used while the performance counters count, and a fast one, used
    when they do not, behaves in the same way with both: the same next instruction, registers, memory,
    stalls and cycles, with only the counters different, and exactly the same state when the counters are
    off.  The exception is the check of the stack bounds, which only the full handler makes: where it
    fails, the full handler stops the simulation. *)
Theorem fast_handlers_agree full fast chk i st :
  (full, fast, chk) ∈ handler_pairs ->
  match stack_check chk i st with
  | None => full i st = None
  | Some _ => upto_result (full i st) (fast i st) /\ (counters_off st -> full i st = fast i st)
  end.
Proof.
  intros Hin.
  assert (H : agree full fast chk /\ agree_off full fast chk).
  { destruct (pair_expansion _ _ _ Hin) as [He|(base & He & Ef)]; [by apply expansion_agrees|].
    destruct (expansion_agrees _ _ _ He) as [Ha Ho].
    split; [intros i' s s' Hs|intros i' s Hs Hc]; rewrite Ef.
    - by apply (compressed_agree _ _ _ Ha).
    - by apply (compressed_off _ _ _ Ho). }
  destruct H as [Ha Ho]. specialize (Ha i st st ltac:(reflexivity)). specialize (Ho i st).
  destruct (stack_check chk i st) as [[]|]; [|done]. split; [done|]. intros Hoff. by apply Ho.
Qed.
End Compressed.

(** ** Witness: a compressed load, with the counters on, and outside the stack bounds. *)
Definition demo_stack : iss (S := memory) :=
  Iss (Core 0 1 (-1) (replicate 32 0) 1 0x100 0x200 0 None 0 0 64 0 true false 0 0 0 false 0) demo_regs (demo_memory false).

Lemma fast_handlers_agree_witness :
  option_Forall2 (prod_relation eq upto) (c_lw_exec 5000 4000 1 (memory_req 0) (demo_insn 7 0 6 2) demo_stack)
    (c_lw_exec_fast 5000 4000 1 (memory_req 0) (demo_insn 7 0 6 2) demo_stack) /\
  c_lw_exec 5000 4000 1 (memory_req 0) (demo_insn 2 0 6 4) demo_stack = None.
Proof.
  assert (Hin : (c_lw_exec 5000 4000 1 (memory_req 0), c_lw_exec_fast 5000 4000 1 (memory_req 0), Some LoadBase) ∈
    handler_pairs 5000 4000 1 (memory_req 0)).
  { by apply (list_elem_of_lookup_2 _ 17). }
  split.
  - destruct (fast_handlers_agree 5000 4000 1 (memory_req 0) _ _ _ (demo_insn 7 0 6 2) demo_stack Hin) as [H _].
    exact H.
  - exact (fast_handlers_agree 5000 4000 1 (memory_req 0) _ _ _ (demo_insn 2 0 6 4) demo_stack Hin).
Defined.
