(* ===== verification/PulpV2.v ===== *)
(** * The PULP instructions (models/cpu/iss/include/pulp_v2.hpp)

    Loads and stores with register offsets and post-increments, scalar arithmetic, bit fields, and the two
    hardware loops, over the core of Rv32.v and the operations of IsaInt.v.  The vector instructions are
    in PulpSimd.v. *)

From S2P Require Import Prelude Io Memory IsaInt Rv32 Rv32c.

Section Pulp.
Context {S : Type} (regs null_reg port : Z) (data : io_meth S).
Implicit Types (i : iss_insn) (st : iss (S := S)).

#[local] Notation REG_GET := (REG_GET regs).
#[local] Notation insn_result := (insn_result regs).
#[local] Notation load := (iss_lsu_load regs null_reg port data).
#[local] Notation load_perf := (iss_lsu_load_perf regs null_reg port data).
#[local] Notation load_signed := (iss_lsu_load_signed regs null_reg port data).
#[local] Notation load_signed_perf := (iss_lsu_load_signed_perf regs null_reg port data).
#[local] Notation store := (iss_lsu_store regs port data).
#[local] Notation store_perf := (iss_lsu_store_perf regs port data).

Definition IN_REG_SET i (k : nat) (value : Z) st := set_reg regs (REG_IN i k) value st.

(** ** Loads and stores *)

Definition LB_RR_exec_fast i st :=
  then_next i (load_signed (u32 (REG_GET i 0 st + REG_GET i 1 st)) 1 (REG_OUT i 0) st).
Definition LB_RR_exec i st :=
  let* _ := iss_lsu_check_stack_access (REG_IN i 0) (u32 (REG_GET i 0 st + REG_GET i 1 st)) st in
  let* _ := iss_lsu_check_stack_access (REG_IN i 1) (u32 (REG_GET i 0 st + REG_GET i 1 st)) st in
  then_next i (load_signed_perf (u32 (REG_GET i 0 st + REG_GET i 1 st)) 1 (REG_OUT i 0) st).

Definition LH_RR_exec_fast i st :=
  then_next i (load_signed (u32 (REG_GET i 0 st + REG_GET i 1 st)) 2 (REG_OUT i 0) st).
Definition LH_RR_exec i st :=
  let* _ := iss_lsu_check_stack_access (REG_IN i 0) (u32 (REG_GET i 0 st + REG_GET i 1 st)) st in
  let* _ := iss_lsu_check_stack_access (REG_IN i 1) (u32 (REG_GET i 0 st + REG_GET i 1 st)) st in
  then_next i (load_signed_perf (u32 (REG_GET i 0 st + REG_GET i 1 st)) 2 (REG_OUT i 0) st).

Definition LW_RR_exec_fast i st :=
  then_next i (load (u32 (REG_GET i 0 st + REG_GET i 1 st)) 4 (REG_OUT i 0) st).
Definition LW_RR_exec i st :=
  let* _ := iss_lsu_check_stack_access (REG_IN i 0) (u32 (REG_GET i 0 st + REG_GET i 1 st)) st in
  let* _ := iss_lsu_check_stack_access (REG_IN i 1) (u32 (REG_GET i 0 st + REG_GET i 1 st)) st in
  then_next i (load_perf (u32 (REG_GET i 0 st + REG_GET i 1 st)) 4 (REG_OUT i 0) st).

Definition LBU_RR_exec_fast i st :=
  then_next i (load (u32 (REG_GET i 0 st + REG_GET i 1 st)) 1 (REG_OUT i 0) st).
Definition LBU_RR_exec i st :=
  let* _ := iss_lsu_check_stack_access (REG_IN i 0) (u32 (REG_GET i 0 st + REG_GET i 1 st)) st in
  let* _ := iss_lsu_check_stack_access (REG_IN i 1) (u32 (REG_GET i 0 st + REG_GET i 1 st)) st in
  then_next i (load_perf (u32 (REG_GET i 0 st + REG_GET i 1 st)) 1 (REG_OUT i 0) st).

Definition LHU_RR_exec_fast i st :=
  then_next i (load (u32 (REG_GET i 0 st + REG_GET i 1 st)) 2 (REG_OUT i 0) st).
Definition LHU_RR_exec i st :=
  let* _ := iss_lsu_check_stack_access (REG_IN i 0) (u32 (REG_GET i 0 st + REG_GET i 1 st)) st in
  let* _ := iss_lsu_check_stack_access (REG_IN i 1) (u32 (REG_GET i 0 st + REG_GET i 1 st)) st in
  then_next i (load_perf (u32 (REG_GET i 0 st + REG_GET i 1 st)) 2 (REG_OUT i 0) st).

Definition LB_POSTINC_exec_fast i st :=
  let* t := load_signed (REG_GET i 0 st) 1 (REG_OUT i 0) st in
  Some (i_next i, IN_REG_SET i 0 (u32 (REG_GET i 0 t + SIM_GET i 0)) t).
Definition LB_POSTINC_exec i st :=
  let* t := load_signed_perf (REG_GET i 0 st) 1 (REG_OUT i 0) st in
  Some (i_next i, IN_REG_SET i 0 (u32 (REG_GET i 0 t + SIM_GET i 0)) t).

Definition LH_POSTINC_exec_fast i st :=
  let* t := load_signed (REG_GET i 0 st) 2 (REG_OUT i 0) st in
  Some (i_next i, IN_REG_SET i 0 (u32 (REG_GET i 0 t + SIM_GET i 0)) t).
Definition LH_POSTINC_exec i st :=
  let* t := load_signed_perf (REG_GET i 0 st) 2 (REG_OUT i 0) st in
  Some (i_next i, IN_REG_SET i 0 (u32 (REG_GET i 0 t + SIM_GET i 0)) t).

Definition LW_POSTINC_exec_fast i st :=
  let* t := load_signed (REG_GET i 0 st) 4 (REG_OUT i 0) st in
  Some (i_next i, IN_REG_SET i 0 (u32 (REG_GET i 0 t + SIM_GET i 0)) t).
Definition LW_POSTINC_exec i st :=
  let* t := load_signed_perf (REG_GET i 0 st) 4 (REG_OUT i 0) st in
  Some (i_next i, IN_REG_SET i 0 (u32 (REG_GET i 0 t + SIM_GET i 0)) t).

Definition LBU_POSTINC_exec_fast i st :=
  let* t := load (REG_GET i 0 st) 1 (REG_OUT i 0) st in
  Some (i_next i, IN_REG_SET i 0 (u32 (REG_GET i 0 t + SIM_GET i 0)) t).
Definition LBU_POSTINC_exec i st :=
  let* _ := iss_lsu_check_stack_access (REG_IN i 0) (REG_GET i 0 st) st in
  let* t := load_perf (REG_GET i 0 st) 1 (REG_OUT i 0) st in
  Some (i_next i, IN_REG_SET i 0 (u32 (REG_GET i 0 t + SIM_GET i 0)) t).

Definition LHU_POSTINC_exec_fast i st :=
  let* t := load (REG_GET i 0 st) 2 (REG_OUT i 0) st in
  Some (i_next i, IN_REG_SET i 0 (u32 (REG_GET i 0 t + SIM_GET i 0)) t).
Definition LHU_POSTINC_exec i st :=
  let* _ := iss_lsu_check_stack_access (REG_IN i 0) (REG_GET i 0 st) st in
  let* t := load_perf (REG_GET i 0 st) 2 (REG_OUT i 0) st in
  Some (i_next i, IN_REG_SET i 0 (u32 (REG_GET i 0 t + SIM_GET i 0)) t).

Definition SB_POSTINC_exec_fast i st :=
  let* t := store (REG_GET i 0 st) 1 (REG_IN i 1) st in
  Some (i_next i, IN_REG_SET i 0 (u32 (REG_GET i 0 t + SIM_GET i 0)) t).
Definition SB_POSTINC_exec i st :=
  let* _ := iss_lsu_check_stack_access (REG_IN i 0) (REG_GET i 0 st) st in
  let* t := store_perf (REG_GET i 0 st) 1 (REG_IN i 1) st in
  Some (i_next i, IN_REG_SET i 0 (u32 (REG_GET i 0 t + SIM_GET i 0)) t).

Definition SH_POSTINC_exec_fast i st :=
  let* t := store (REG_GET i 0 st) 2 (REG_IN i 1) st in
  Some (i_next i, IN_REG_SET i 0 (u32 (REG_GET i 0 t + SIM_GET i 0)) t).
Definition SH_POSTINC_exec i st :=
  let* _ := iss_lsu_check_stack_access (REG_IN i 0) (REG_GET i 0 st) st in
  let* t := store_perf (REG_GET i 0 st) 2 (REG_IN i 1) st in
  Some (i_next i, IN_REG_SET i 0 (u32 (REG_GET i 0 t + SIM_GET i 0)) t).

Definition SW_POSTINC_exec_fast i st :=
  let* t := store (REG_GET i 0 st) 4 (REG_IN i 1) st in
  Some (i_next i, IN_REG_SET i 0 (u32 (REG_GET i 0 t + SIM_GET i 0)) t).
Definition SW_POSTINC_exec i st :=
  let* _ := iss_lsu_check_stack_access (REG_IN i 0) (REG_GET i 0 st) st in
  let* t := store_perf (REG_GET i 0 st) 4 (REG_IN i 1) st in
  Some (i_next i, IN_REG_SET i 0 (u32 (REG_GET i 0 t + SIM_GET i 0)) t).

Definition LB_RR_POSTINC_exec_fast i st :=
  let new_val := u32 (REG_GET i 0 st + REG_GET i 1 st) in
  let* t := load_signed (REG_GET i 0 st) 1 (REG_OUT i 0) st in
  Some (i_next i, IN_REG_SET i 0 new_val t).
Definition LB_RR_POSTINC_exec i st :=
  let new_val := u32 (REG_GET i 0 st + REG_GET i 1 st) in
  let* t := load_signed_perf (REG_GET i 0 st) 1 (REG_OUT i 0) st in
  Some (i_next i, IN_REG_SET i 0 new_val t).

Definition LH_RR_POSTINC_exec_fast i st :=
  let new_val := u32 (REG_GET i 0 st + REG_GET i 1 st) in
  let* t := load_signed (REG_GET i 0 st) 2 (REG_OUT i 0) st in
  Some (i_next i, IN_REG_SET i 0 new_val t).
Definition LH_RR_POSTINC_exec i st :=
  let new_val := u32 (REG_GET i 0 st + REG_GET i 1 st) in
  let* t := load_signed_perf (REG_GET i 0 st) 2 (REG_OUT i 0) st in
  Some (i_next i, IN_REG_SET i 0 new_val t).

Definition LW_RR_POSTINC_exec_fast i st :=
  let new_val := u32 (REG_GET i 0 st + REG_GET i 1 st) in
  let* t := load_signed (REG_GET i 0 st) 4 (REG_OUT i 0) st in
  Some (i_next i, IN_REG_SET i 0 new_val t).
Definition LW_RR_POSTINC_exec i st :=
  let new_val := u32 (REG_GET i 0 st + REG_GET i 1 st) in
  let* t := load_signed_perf (REG_GET i 0 st) 4 (REG_OUT i 0) st in
  Some (i_next i, IN_REG_SET i 0 new_val t).

Definition LBU_RR_POSTINC_exec_fast i st :=
  let new_val := u32 (REG_GET i 0 st + REG_GET i 1 st) in
  let* t := load (REG_GET i 0 st) 1 (REG_OUT i 0) st in
  Some (i_next i, IN_REG_SET i 0 new_val t).
Definition LBU_RR_POSTINC_exec i st :=
  let new_val := u32 (REG_GET i 0 st + REG_GET i 1 st) in
  let* _ := iss_lsu_check_stack_access (REG_IN i 0) (REG_GET i 0 st) st in
  let* t := load_perf (REG_GET i 0 st) 1 (REG_OUT i 0) st in
  Some (i_next i, IN_REG_SET i 0 new_val t).

Definition LHU_RR_POSTINC_exec_fast i st :=
  let new_val := u32 (REG_GET i 0 st + REG_GET i 1 st) in
  let* t := load (REG_GET i 0 st) 2 (REG_OUT i 0) st in
  Some (i_next i, IN_REG_SET i 0 new_val t).
Definition LHU_RR_POSTINC_exec i st :=
  let new_val := u32 (REG_GET i 0 st + REG_GET i 1 st) in
  let* _ := iss_lsu_check_stack_access (REG_IN i 0) (REG_GET i 0 st) st in
  let* t := load_perf (REG_GET i 0 st) 2 (REG_OUT i 0) st in
  Some (i_next i, IN_REG_SET i 0 new_val t).

Definition SB_RR_POSTINC_exec_fast i st :=
  let new_val := u32 (REG_GET i 0 st + REG_GET i 2 st) in
  let* t := store (REG_GET i 0 st) 1 (REG_IN i 1) st in
  Some (i_next i, IN_REG_SET i 0 new_val t).
Definition SB_RR_POSTINC_exec i st :=
  let new_val := u32 (REG_GET i 0 st + REG_GET i 2 st) in
  let* _ := iss_lsu_check_stack_access (REG_OUT i 0) (REG_GET i 0 st) st in
  let* t := store_perf (REG_GET i 0 st) 1 (REG_IN i 1) st in
  Some (i_next i, IN_REG_SET i 0 new_val t).

Definition SH_RR_POSTINC_exec_fast i st :=
  let new_val := u32 (REG_GET i 0 st + REG_GET i 2 st) in
  let* t := store (REG_GET i 0 st) 2 (REG_IN i 1) st in
  Some (i_next i, IN_REG_SET i 0 new_val t).
Definition SH_RR_POSTINC_exec i st :=
  let new_val := u32 (REG_GET i 0 st + REG_GET i 2 st) in
  let* _ := iss_lsu_check_stack_access (REG_OUT i 0) (REG_GET i 0 st) st in
  let* t := store_perf (REG_GET i 0 st) 2 (REG_IN i 1) st in
  Some (i_next i, IN_REG_SET i 0 new_val t).

Definition SW_RR_POSTINC_exec_fast i st :=
  let new_val := u32 (REG_GET i 0 st + REG_GET i 2 st) in
  let* t := store (REG_GET i 0 st) 4 (REG_IN i 1) st in
  Some (i_next i, IN_REG_SET i 0 new_val t).
Definition SW_RR_POSTINC_exec i st :=
  let new_val := u32 (REG_GET i 0 st + REG_GET i 2 st) in
  let* _ := iss_lsu_check_stack_access (REG_OUT i 0) (REG_GET i 0 st) st in
  let* t := store_perf (REG_GET i 0 st) 4 (REG_IN i 1) st in
  Some (i_next i, IN_REG_SET i 0 new_val t).

Definition SB_RR_exec_fast i st :=
  then_next i (store (u32 (REG_GET i 0 st + REG_GET i 2 st)) 1 (REG_IN i 1) st).
Definition SB_RR_exec i st :=
  let* _ := iss_lsu_check_stack_access (REG_IN i 0) (u32 (REG_GET i 0 st + REG_GET i 2 st)) st in
  let* _ := iss_lsu_check_stack_access (REG_IN i 2) (u32 (REG_GET i 0 st + REG_GET i 2 st)) st in
  then_next i (store_perf (u32 (REG_GET i 0 st + REG_GET i 2 st)) 1 (REG_IN i 1) st).

Definition SH_RR_exec_fast i st :=
  then_next i (store (u32 (REG_GET i 0 st + REG_GET i 2 st)) 2 (REG_IN i 1) st).
Definition SH_RR_exec i st :=
  let* _ := iss_lsu_check_stack_access (REG_IN i 0) (u32 (REG_GET i 0 st + REG_GET i 2 st)) st in
  let* _ := iss_lsu_check_stack_access (REG_IN i 2) (u32 (REG_GET i 0 st + REG_GET i 2 st)) st in
  then_next i (store_perf (u32 (REG_GET i 0 st + REG_GET i 2 st)) 2 (REG_IN i 1) st).

Definition SW_RR_exec_fast i st :=
  then_next i (store (u32 (REG_GET i 0 st + REG_GET i 2 st)) 4 (REG_IN i 1) st).
Definition SW_RR_exec i st :=
  let* _ := iss_lsu_check_stack_access (REG_IN i 0) (u32 (REG_GET i 0 st + REG_GET i 2 st)) st in
  let* _ := iss_lsu_check_stack_access (REG_IN i 2) (u32 (REG_GET i 0 st + REG_GET i 2 st)) st in
  then_next i (store_perf (u32 (REG_GET i 0 st + REG_GET i 2 st)) 4 (REG_IN i 1) st).

(** ** Scalar arithmetic *)

(** iss_get_field (utils.hpp), with constant arguments below 32. *)
Definition iss_get_field (val shift bits : Z) : Z := Z.land (Z.shiftr val shift) (Z.shiftl 1 bits - 1).

Definition p_avgu_exec i st := insn_result i (Some (lib_AVGU (REG_GET i 0 st) (REG_GET i 1 st))) st.
Definition p_slet_exec i st := insn_result i (Some (Z.b2z (s32 (REG_GET i 0 st) <=? s32 (REG_GET i 1 st)))) st.
Definition p_sletu_exec i st := insn_result i (Some (Z.b2z (REG_GET i 0 st <=? REG_GET i 1 st))) st.
Definition p_min_exec i st := insn_result i (Some (lib_MINS (s32 (REG_GET i 0 st)) (s32 (REG_GET i 1 st)))) st.
Definition p_minu_exec i st := insn_result i (Some (lib_MINU (REG_GET i 0 st) (REG_GET i 1 st))) st.
Definition p_max_exec i st := insn_result i (Some (lib_MAXS (s32 (REG_GET i 0 st)) (s32 (REG_GET i 1 st)))) st.
Definition p_maxu_exec i st := insn_result i (Some (lib_MAXU (REG_GET i 0 st) (REG_GET i 1 st))) st.
Definition p_ror_exec i st := insn_result i (lib_ROR (REG_GET i 0 st) (REG_GET i 1 st)) st.
Definition p_ff1_exec i st := insn_result i (Some (lib_FF1 (REG_GET i 0 st))) st.
Definition p_fl1_exec i st := insn_result i (Some (lib_FL1 (REG_GET i 0 st))) st.
Definition p_clb_exec i st := insn_result i (Some (lib_CLB (REG_GET i 0 st))) st.
Definition p_cnt_exec i st := insn_result i (Some (lib_CNT (REG_GET i 0 st))) st.
Definition p_exths_exec i st := insn_result i (Some (iss_get_signed_value (REG_GET i 0 st) 16)) st.
Definition p_exthz_exec i st := insn_result i (Some (iss_get_field (REG_GET i 0 st) 0 16)) st.
Definition p_extbs_exec i st := insn_result i (Some (iss_get_signed_value (REG_GET i 0 st) 8)) st.
Definition p_extbz_exec i st := insn_result i (Some (iss_get_field (REG_GET i 0 st) 0 8)) st.
Definition p_abs_exec i st := insn_result i (Some (lib_ABS (s32 (REG_GET i 0 st)))) st.
Definition p_mac_exec i st := insn_result i (Some (lib_MAC (REG_GET i 2 st) (REG_GET i 0 st) (REG_GET i 1 st))) st.
Definition p_msu_exec i st := insn_result i (Some (lib_MSU (REG_GET i 2 st) (REG_GET i 0 st) (REG_GET i 1 st))) st.
Definition p_mul_exec i st := insn_result i (Some (lib_MULS (s32 (REG_GET i 0 st)) (s32 (REG_GET i 1 st)))) st.
Definition p_muls_exec i st := insn_result i (Some (lib_MUL_SL_SL (REG_GET i 0 st) (REG_GET i 1 st))) st.
Definition p_mulhhs_exec i st := insn_result i (Some (lib_MUL_SH_SH (REG_GET i 0 st) (REG_GET i 1 st))) st.
Definition p_mulsN_exec i st := insn_result i (lib_MUL_SL_SL_NR (REG_GET i 0 st) (REG_GET i 1 st) (UIM_GET i 0)) st.
Definition p_mulhhsN_exec i st := insn_result i (lib_MUL_SH_SH_NR (REG_GET i 0 st) (REG_GET i 1 st) (UIM_GET i 0)) st.
Definition p_mulsNR_exec i st :=
  insn_result i (lib_MUL_SL_SL_NR_R (REG_GET i 0 st) (REG_GET i 1 st) (UIM_GET i 0)) st.
Definition p_mulhhsNR_exec i st :=
  insn_result i (lib_MUL_SH_SH_NR_R (REG_GET i 0 st) (REG_GET i 1 st) (UIM_GET i 0)) st.
Definition p_mulu_exec i st := insn_result i (Some (lib_MUL_ZL_ZL (REG_GET i 0 st) (REG_GET i 1 st))) st.
Definition p_mulhhu_exec i st := insn_result i (Some (lib_MUL_ZH_ZH (REG_GET i 0 st) (REG_GET i 1 st))) st.
Definition p_muluN_exec i st := insn_result i (lib_MUL_ZL_ZL_NR (REG_GET i 0 st) (REG_GET i 1 st) (UIM_GET i 0)) st.
Definition p_mulhhuN_exec i st := insn_result i (lib_MUL_ZH_ZH_NR (REG_GET i 0 st) (REG_GET i 1 st) (UIM_GET i 0)) st.
Definition p_muluNR_exec i st :=
  insn_result i (lib_MUL_ZL_ZL_NR_R (REG_GET i 0 st) (REG_GET i 1 st) (UIM_GET i 0)) st.
Definition p_mulhhuNR_exec i st :=
  insn_result i (lib_MUL_ZH_ZH_NR_R (REG_GET i 0 st) (REG_GET i 1 st) (UIM_GET i 0)) st.
Definition p_macs_exec i st :=
  insn_result i (Some (lib_MAC_SL_SL (REG_GET i 2 st) (REG_GET i 0 st) (REG_GET i 1 st))) st.
Definition p_machhs_exec i st :=
  insn_result i (Some (lib_MAC_SH_SH (REG_GET i 2 st) (REG_GET i 0 st) (REG_GET i 1 st))) st.
Definition p_macsN_exec i st :=
  insn_result i (lib_MAC_SL_SL_NR (REG_GET i 2 st) (REG_GET i 0 st) (REG_GET i 1 st) (UIM_GET i 0)) st.
Definition p_machhsN_exec i st :=
  insn_result i (lib_MAC_SH_SH_NR (REG_GET i 2 st) (REG_GET i 0 st) (REG_GET i 1 st) (UIM_GET i 0)) st.
Definition p_macsNR_exec i st :=
  insn_result i (lib_MAC_SL_SL_NR_R (REG_GET i 2 st) (REG_GET i 0 st) (REG_GET i 1 st) (UIM_GET i 0)) st.
Definition p_machhsNR_exec i st :=
  insn_result i (lib_MAC_SH_SH_NR_R (REG_GET i 2 st) (REG_GET i 0 st) (REG_GET i 1 st) (UIM_GET i 0)) st.
Definition p_macu_exec i st :=
  insn_result i (Some (lib_MAC_ZL_ZL (REG_GET i 2 st) (REG_GET i 0 st) (REG_GET i 1 st))) st.
Definition p_machhu_exec i st :=
  insn_result i (Some (lib_MAC_ZH_ZH (REG_GET i 2 st) (REG_GET i 0 st) (REG_GET i 1 st))) st.
Definition p_macuN_exec i st :=
  insn_result i (lib_MAC_ZL_ZL_NR (REG_GET i 2 st) (REG_GET i 0 st) (REG_GET i 1 st) (UIM_GET i 0)) st.
Definition p_machhuN_exec i st :=
  insn_result i (lib_MAC_ZH_ZH_NR (REG_GET i 2 st) (REG_GET i 0 st) (REG_GET i 1 st) (UIM_GET i 0)) st.
Definition p_macuNR_exec i st :=
  insn_result i (lib_MAC_ZL_ZL_NR_R (REG_GET i 2 st) (REG_GET i 0 st) (REG_GET i 1 st) (UIM_GET i 0)) st.
Definition p_machhuNR_exec i st :=
  insn_result i (lib_MAC_ZH_ZH_NR_R (REG_GET i 2 st) (REG_GET i 0 st) (REG_GET i 1 st) (UIM_GET i 0)) st.
Definition p_addNi_exec i st := insn_result i (lib_ADD_NR (REG_GET i 0 st) (REG_GET i 1 st) (UIM_GET i 0)) st.
Definition p_adduNi_exec i st := insn_result i (lib_ADD_NRU (REG_GET i 0 st) (REG_GET i 1 st) (UIM_GET i 0)) st.
Definition p_addRNi_exec i st := insn_result i (lib_ADD_NR_R (REG_GET i 0 st) (REG_GET i 1 st) (UIM_GET i 0)) st.
Definition p_adduRNi_exec i st := insn_result i (lib_ADD_NR_RU (REG_GET i 0 st) (REG_GET i 1 st) (UIM_GET i 0)) st.
Definition p_subNi_exec i st := insn_result i (lib_SUB_NR (REG_GET i 0 st) (REG_GET i 1 st) (UIM_GET i 0)) st.
Definition p_subuNi_exec i st := insn_result i (lib_SUB_NRU (REG_GET i 0 st) (REG_GET i 1 st) (UIM_GET i 0)) st.
Definition p_subRNi_exec i st := insn_result i (lib_SUB_NR_R (REG_GET i 0 st) (REG_GET i 1 st) (UIM_GET i 0)) st.
Definition p_subuRNi_exec i st := insn_result i (lib_SUB_NR_RU (REG_GET i 0 st) (REG_GET i 1 st) (UIM_GET i 0)) st.
Definition p_addN_exec i st := insn_result i (lib_ADD_NR (REG_GET i 0 st) (REG_GET i 1 st) (REG_GET i 2 st)) st.
Definition p_adduN_exec i st := insn_result i (lib_ADD_NRU (REG_GET i 0 st) (REG_GET i 1 st) (REG_GET i 2 st)) st.
Definition p_addRN_exec i st := insn_result i (lib_ADD_NR_R (REG_GET i 0 st) (REG_GET i 1 st) (REG_GET i 2 st)) st.
Definition p_adduRN_exec i st := insn_result i (lib_ADD_NR_RU (REG_GET i 0 st) (REG_GET i 1 st) (REG_GET i 2 st)) st.
Definition p_subN_exec i st := insn_result i (lib_SUB_NR (REG_GET i 0 st) (REG_GET i 1 st) (REG_GET i 2 st)) st.
Definition p_subuN_exec i st := insn_result i (lib_SUB_NRU (REG_GET i 0 st) (REG_GET i 1 st) (REG_GET i 2 st)) st.
Definition p_subRN_exec i st := insn_result i (lib_SUB_NR_R (REG_GET i 0 st) (REG_GET i 1 st) (REG_GET i 2 st)) st.
Definition p_subuRN_exec i st := insn_result i (lib_SUB_NR_RU (REG_GET i 0 st) (REG_GET i 1 st) (REG_GET i 2 st)) st.

Definition p_bneimm_exec_common (perf : bool) i st := branch_common (negb (s32 (REG_GET i 0 st) =? SIM_GET i 1)) perf i st.
Definition p_bneimm_exec_fast := p_bneimm_exec_common false.
Definition p_bneimm_exec := p_bneimm_exec_common true.

Definition p_beqimm_exec_common (perf : bool) i st := branch_common (s32 (REG_GET i 0 st) =? SIM_GET i 1) perf i st.
Definition p_beqimm_exec_fast := p_beqimm_exec_common false.
Definition p_beqimm_exec := p_beqimm_exec_common true.

(** 1 << MAX((int)UIM_GET(0)-1, 0) *)
Definition clip_bound i : option Z := let* b := shl 32 1 (Z.max (s32 (UIM_GET i 0) - 1) 0) in Some (s32 b).
Definition p_clipi_exec i st :=
  let* bound := clip_bound i in
  let low := s32 (- bound) in
  let high := s32 (bound - 1) in
  insn_result i (Some (lib_CLIP (s32 (REG_GET i 0 st)) low high)) st.
Definition p_clipui_exec i st :=
  let* bound := clip_bound i in
  let high := s32 (bound - 1) in
  insn_result i (Some (lib_CLIPU (s32 (REG_GET i 0 st)) high)) st.
Definition p_clip_exec i st :=
  let low := s32 (- REG_GET i 1 st - 1) in
  let high := s32 (REG_GET i 1 st) in
  insn_result i (Some (lib_CLIP (s32 (REG_GET i 0 st)) low high)) st.
Definition p_clipu_exec i st :=
  let high := s32 (REG_GET i 1 st) in
  insn_result i (Some (lib_CLIPU (s32 (REG_GET i 0 st)) high)) st.

(** ** Bit fields *)

(** ((1ULL << width) - 1) << shift, as an unsigned int *)
Definition field_mask (width shift : Z) : option Z :=
  let* b := shl 64 1 width in
  let* m := shl 64 (u64 (b - 1)) shift in
  Some (u32 m).
(** The width and the position in the immediates, or in register [k]. *)
Definition imm_width i : Z := s32 (UIM_GET i 0 + 1).
Definition imm_shift i : Z := s32 (UIM_GET i 1).
Definition reg_width i (k : nat) st : Z := Z.land (Z.shiftr (REG_GET i k st) 5) 0x1f + 1.
Definition reg_shift i (k : nat) st : Z := Z.land (REG_GET i k st) 0x1f.

Definition p_bclri_exec i st :=
  let* mask := field_mask (imm_width i) (imm_shift i) in insn_result i (Some (lib_BCLR (REG_GET i 0 st) mask)) st.
Definition p_bclr_exec i st :=
  let* mask := field_mask (reg_width i 1 st) (reg_shift i 1 st) in insn_result i (Some (lib_BCLR (REG_GET i 0 st) mask)) st.
Definition p_extracti_exec i st :=
  insn_result i (lib_BEXTRACT (REG_GET i 0 st) (u32 (imm_width i)) (u32 (imm_shift i))) st.
Definition p_extractui_exec i st :=
  let* mask := field_mask (imm_width i) (imm_shift i) in
  insn_result i (lib_BEXTRACTU (REG_GET i 0 st) mask (u32 (imm_shift i))) st.
Definition p_extract_exec i st := insn_result i (lib_BEXTRACT (REG_GET i 0 st) (reg_width i 1 st) (reg_shift i 1 st)) st.
Definition p_extractu_exec i st :=
  let* mask := field_mask (reg_width i 1 st) (reg_shift i 1 st) in
  insn_result i (lib_BEXTRACTU (REG_GET i 0 st) mask (reg_shift i 1 st)) st.
Definition p_inserti_exec i st :=
  let* mask := field_mask (imm_width i) (imm_shift i) in
  insn_result i (lib_BINSERT (REG_GET i 0 st) (REG_GET i 1 st) mask (u32 (imm_shift i))) st.
Definition p_insert_exec i st :=
  let* mask := field_mask (reg_width i 2 st) (reg_shift i 2 st) in
  insn_result i (lib_BINSERT (REG_GET i 0 st) (REG_GET i 1 st) mask (reg_shift i 2 st)) st.
Definition p_bseti_exec i st :=
  let* mask := field_mask (imm_width i) (imm_shift i) in insn_result i (Some (lib_BSET (REG_GET i 0 st) mask)) st.
Definition p_bset_exec i st :=
  let* mask := field_mask (reg_width i 1 st) (reg_shift i 1 st) in insn_result i (Some (lib_BSET (REG_GET i 0 st) mask)) st.
End Pulp.

(** ** Hardware loops and event loads

    The state of the loops: the registers (start, end and count of loop 0 at 0, 1, 2 and of loop 1 at 4, 5,
    6), the instructions at the starts, the one computed by the last end of loop, the addresses of the
    instructions whose handler is hwloop_check_exec, and the state of a pending p.elw. *)
Record hwloops := Hwloops {
  hwloop_regs : list Z;
  hwloop_start_insn : list Z;
  hwloop_end_insn : list Z;
  hwloop_next_insn : Z;
  hwloop_handlers : gset Z;
  elw_insn : option Z;
  elw_stalled : bool;
  elw_interrupted : bool;
}.

Definition PULPV2_HWLOOP_LPSTART (x : nat) : nat := (0 + x * 4)%nat.
Definition PULPV2_HWLOOP_LPEND (x : nat) : nat := (1 + x * 4)%nat.
Definition PULPV2_HWLOOP_LPCOUNT (x : nat) : nat := (2 + x * 4)%nat.

Definition set_hwloop_regs (l : list Z) (hw : hwloops) : hwloops :=
  Hwloops l (hwloop_start_insn hw) (hwloop_end_insn hw) (hwloop_next_insn hw) (hwloop_handlers hw)
    (elw_insn hw) (elw_stalled hw) (elw_interrupted hw).
Definition set_hwloop_next_insn (a : Z) (hw : hwloops) : hwloops :=
  Hwloops (hwloop_regs hw) (hwloop_start_insn hw) (hwloop_end_insn hw) a (hwloop_handlers hw)
    (elw_insn hw) (elw_stalled hw) (elw_interrupted hw).
Definition set_elw (insn : option Z) (is_stalled interrupted : bool) (hw : hwloops) : hwloops :=
  Hwloops (hwloop_regs hw) (hwloop_start_insn hw) (hwloop_end_insn hw) (hwloop_next_insn hw) (hwloop_handlers hw)
    insn is_stalled interrupted.
Definition hwloop_reg (k : nat) (hw : hwloops) : Z := default 0 (hwloop_regs hw !! k).

Section Hwloops.
Context {S : Type} (regs null_reg port : Z) (data : io_meth S).
Implicit Types (i : iss_insn) (hw : hwloops) (t : iss (S := S) * hwloops).

(** A handler over the core and its loops; the handlers that do not use them. *)
Definition hw_handler : Type := iss_insn -> iss (S := S) * hwloops -> option (Z * (iss (S := S) * hwloops)).
Definition lift (f : iss_insn -> iss (S := S) -> option (Z * iss (S := S))) : hw_handler := fun i t =>
  let* (next, st) := f i t.1 in Some (next, (st, t.2)).

(** The end of one loop: the registers after it, and whether it jumps back. *)
Definition hwloop_end (x : nat) (pc : Z) hw : hwloops * bool :=
  let count := hwloop_reg (PULPV2_HWLOOP_LPCOUNT x) hw in
  if negb (count =? 0) && (hwloop_reg (PULPV2_HWLOOP_LPEND x) hw =? pc) then
    let hw := set_hwloop_regs (<[PULPV2_HWLOOP_LPCOUNT x := u32 (count - 1)]> (hwloop_regs hw)) hw in
    if negb (u32 (count - 1) =? 0) then
      (set_hwloop_next_insn (default 0 (hwloop_start_insn hw !! x)) hw, true)
    else (hw, false)
  else (hw, false).

(** The handler of the last instruction of a loop, whose own handler is [handler]. *)
Definition hwloop_check_exec (handler : hw_handler) : hw_handler := fun i t =>
  let pc := i_addr i in
  let interrupted := elw_interrupted t.2 in
  let* (insn_next, t) := handler i t in
  if interrupted then Some (hwloop_next_insn t.2, t)
  else
    let '(hw, jump0) := hwloop_end 0 pc t.2 in
    if jump0 then Some (default 0 (hwloop_start_insn hw !! 0%nat), (t.1, hw))
    else
      let '(hw, jump1) := hwloop_end 1 pc hw in
      if jump1 then Some (default 0 (hwloop_start_insn hw !! 1%nat), (t.1, hw))
      else Some (insn_next, (t.1, set_hwloop_next_insn insn_next hw)).

(** The handler that is run for an instruction. *)
Definition hw_exec (handler : hw_handler) : hw_handler := fun i t =>
  if decide (i_addr i ∈ hwloop_handlers t.2) then hwloop_check_exec handler i t else handler i t.

Definition hwloop_set_start (index : nat) (start : Z) hw : hwloops :=
  Hwloops (<[PULPV2_HWLOOP_LPSTART index := start]> (hwloop_regs hw))
    (<[index := insn_cache_get start]> (hwloop_start_insn hw)) (hwloop_end_insn hw) (hwloop_next_insn hw)
    (hwloop_handlers hw) (elw_insn hw) (elw_stalled hw) (elw_interrupted hw).
(** hwloop_set_insn_end: from now on the instruction has the handler of the end of a loop. *)
Definition hwloop_set_insn_end (insn : Z) hw : hwloops :=
  Hwloops (hwloop_regs hw) (hwloop_start_insn hw) (hwloop_end_insn hw) (hwloop_next_insn hw)
    ({[insn]} ∪ hwloop_handlers hw) (elw_insn hw) (elw_stalled hw) (elw_interrupted hw).
Definition hwloop_set_end (index : nat) (end_ : Z) hw : hwloops :=
  let end_insn := insn_cache_get end_ in
  let hw := Hwloops (hwloop_regs hw) (hwloop_start_insn hw) (<[index := end_insn]> (hwloop_end_insn hw))
              (hwloop_next_insn hw) (hwloop_handlers hw) (elw_insn hw) (elw_stalled hw) (elw_interrupted hw) in
  let hw := hwloop_set_insn_end end_insn hw in
  set_hwloop_regs (<[PULPV2_HWLOOP_LPEND index := end_]> (hwloop_regs hw)) hw.
Definition hwloop_set_count (index : nat) (count : Z) hw : hwloops :=
  set_hwloop_regs (<[PULPV2_HWLOOP_LPCOUNT index := count]> (hwloop_regs hw)) hw.
Definition hwloop_set_all (index : nat) (start end_ count : Z) hw : hwloops :=
  hwloop_set_count index count (hwloop_set_start index start (hwloop_set_end index end_ hw)).

Definition lp_index i : nat := Z.to_nat (UIM_GET i 0).
Definition lp_starti_exec : hw_handler := fun i t =>
  Some (i_next i, (t.1, hwloop_set_start (lp_index i) (u32 (i_addr i + Z.shiftl (UIM_GET i 1) 1)) t.2)).
Definition lp_endi_exec : hw_handler := fun i t =>
  Some (i_next i, (t.1, hwloop_set_end (lp_index i) (u32 (i_addr i + Z.shiftl (UIM_GET i 1) 1)) t.2)).
Definition lp_count_exec : hw_handler := fun i t =>
  Some (i_next i, (t.1, hwloop_set_count (lp_index i) (REG_GET regs i 0 t.1) t.2)).
Definition lp_counti_exec : hw_handler := fun i t =>
  Some (i_next i, (t.1, hwloop_set_count (lp_index i) (UIM_GET i 1) t.2)).
Definition lp_setup_exec : hw_handler := fun i t =>
  let count := REG_GET regs i 0 t.1 in
  let start := u32 (i_addr i + i_size i) in
  let end_ := u32 (i_addr i + Z.shiftl (UIM_GET i 1) 1) in
  Some (i_next i, (t.1, hwloop_set_all (lp_index i) start end_ count t.2)).
Definition lp_setupi_exec : hw_handler := fun i t =>
  let count := UIM_GET i 1 in
  let start := u32 (i_addr i + i_size i) in
  let end_ := u32 (i_addr i + Z.shiftl (UIM_GET i 2) 1) in
  Some (i_next i, (t.1, hwloop_set_all (lp_index i) start end_ count t.2)).

(** p.elw; iss_lsu_elw_resume is the callback of its load. *)
Definition p_elw_exec : hw_handler := fun i t =>
  let st := set_cpu (set_insn_cycles (insn_cycles (cpu t.1) + 2) (cpu t.1)) t.1 in
  let hw := set_elw (Some (i_addr i)) (elw_stalled t.2) false t.2 in
  let* st := iss_lsu_elw_perf regs null_reg port data (u32 (REG_GET regs i 0 st + SIM_GET i 0)) 4 (REG_OUT i 0) st in
  let hw := if stalled (cpu st) =? 0 then set_elw None (elw_stalled hw) (elw_interrupted hw) hw
            else set_elw (elw_insn hw) true (elw_interrupted hw) hw in
  Some (i_next i, (st, hw)).
Definition iss_lsu_elw_resume hw : hwloops := set_elw None (elw_stalled hw) (elw_interrupted hw) hw.

(** iss_isa_pulpv2_activate *)
Definition iss_isa_pulpv2_activate hw : hwloops :=
  set_hwloop_regs (<[PULPV2_HWLOOP_LPCOUNT 1 := 0]> (<[PULPV2_HWLOOP_LPCOUNT 0 := 0]> (hwloop_regs hw))) hw.
End Hwloops.


(** ** What a hardware loop does *)

Section Loops.
Context {S : Type} (regs null_reg port : Z) (data : io_meth S).
Implicit Types (i : iss_insn) (hw : hwloops) (st : iss (S := S)).
Notation plain := (iss_insn -> iss (S := S) -> option (Z * iss (S := S))).

(** A program: the instruction at each address with its handler; running [fuel] instructions from [pc]. *)
Context (code : Z -> option (iss_insn * hw_handler (S := S))).
Fixpoint run_insns (fuel : nat) (pc : Z) (t : iss (S := S) * hwloops) : option (Z * (iss (S := S) * hwloops)) :=
  match fuel with
  | O => Some (pc, t)
  | Datatypes.S fuel => let* (insn, handler) := code pc in let* (pc, t) := hw_exec handler insn t in run_insns fuel pc t
  end.

(** The code from [a] to the end [e] of the loop: instructions that do not use the loops and go to the next
    one. *)
Inductive straight (e : Z) : Z -> list (iss_insn * plain) -> Z -> Prop :=
| straight_end i (f : plain) :
    code e = Some (i, lift f) -> i_addr i = e -> (forall st next st', f i st = Some (next, st') -> next = i_next i) ->
    straight e e [(i, f)] (i_next i)
| straight_insn a i (f : plain) body next :
    code a = Some (i, lift f) -> i_addr i = a -> a <> e ->
    (forall st next st', f i st = Some (next, st') -> next = i_next i) ->
    straight e (i_next i) body next -> straight e a ((i, f) :: body) next.

Fixpoint exec_body (body : list (iss_insn * plain)) st : option (iss (S := S)) :=
  match body with
  | [] => Some st
  | (insn, f) :: body => let* r := f insn st in exec_body body r.2
  end.
Fixpoint exec_times (n : nat) (body : list (iss_insn * plain)) st : option (iss (S := S)) :=
  match n with
  | O => Some st
  | Datatypes.S n => let* s' := exec_body body st in exec_times n body s'
  end.

(** Loop [x] is set from [s] to [e] with [n] iterations left; loop [y] does not end at [a]. *)
Record loop_at (x : nat) (s e n : Z) hw : Prop := {
  la_regs : length (hwloop_regs hw) = 7%nat;
  la_end : hwloop_reg (PULPV2_HWLOOP_LPEND x) hw = e;
  la_count : hwloop_reg (PULPV2_HWLOOP_LPCOUNT x) hw = n;
  la_start : hwloop_start_insn hw !! x = Some s;
  la_handler : e ∈ hwloop_handlers hw;
  la_first : elw_interrupted hw = false;
}.
Definition quiet (y : nat) (body : list (iss_insn * plain)) hw : Prop :=
  hwloop_reg (PULPV2_HWLOOP_LPCOUNT y) hw = 0 \/
  Forall (fun p => hwloop_reg (PULPV2_HWLOOP_LPEND y) hw <> i_addr p.1) body.
(** The loop that is not [x]. *)
Definition other (x : nat) : nat := (1 - x)%nat.

Lemma hwloop_end_quiet x pc hw :
  hwloop_reg (PULPV2_HWLOOP_LPCOUNT x) hw = 0 \/ hwloop_reg (PULPV2_HWLOOP_LPEND x) hw <> pc -> hwloop_end x pc hw = (hw, false).
Proof.
  unfold hwloop_end. intros [-> | H]; [done|]. by rewrite (proj2 (Z.eqb_neq _ pc)), andb_false_r.
Qed.

Lemma hwloop_end_at x s e n hw :
  (x < 2)%nat -> loop_at x s e n hw -> 0 < n < 2 ^ 32 ->
  exists hw', hwloop_end x e hw = (hw', negb (n - 1 =? 0)) /\ loop_at x s e (n - 1) hw' /\
    (forall k, k <> PULPV2_HWLOOP_LPCOUNT x -> hwloop_reg k hw' = hwloop_reg k hw).
Proof.
  intros Hx [Hl He Hc Hs Hh Hf] Hn. unfold hwloop_end. rewrite Hc, He, Z.eqb_refl, (proj2 (Z.eqb_neq n 0)) by lia.
  rewrite (uw_small 32 (n - 1)) by lia. cbn [negb andb]. destruct (negb (n - 1 =? 0)); eexists; (split; [done|]).
  all: split; [split; try done|]; unfold hwloop_reg, set_hwloop_next_insn, set_hwloop_regs in *; cbn [hwloop_regs].
  all: rewrite ?length_insert, ?list_lookup_insert_ne by (unfold PULPV2_HWLOOP_LPCOUNT, PULPV2_HWLOOP_LPEND; lia); try done.
  all: try (intros k Hk; by rewrite list_lookup_insert_ne).
  all: rewrite list_lookup_insert_eq; [done|]; rewrite Hl; unfold PULPV2_HWLOOP_LPCOUNT; lia.
Qed.

Lemma loop_at_next x s e n a hw : loop_at x s e n hw -> loop_at x s e n (set_hwloop_next_insn a hw).
Proof. by intros []. Qed.

(** An instruction that is not the end of an active loop. *)
Lemma step_plain i (f : plain) hw st next st' :
  elw_interrupted hw = false -> f i st = Some (next, st') ->
  (forall x, (x < 2)%nat -> hwloop_reg (PULPV2_HWLOOP_LPCOUNT x) hw = 0 \/ hwloop_reg (PULPV2_HWLOOP_LPEND x) hw <> i_addr i) ->
  exists hw', hw_exec (lift f) i (st, hw) = Some (next, (st', hw')) /\ (hw' = hw \/ hw' = set_hwloop_next_insn next hw).
Proof.
  intros Hf E Hq. unfold hw_exec. cbn [fst snd]. case_decide as Hin.
  - unfold hwloop_check_exec, lift. cbn [fst snd]. rewrite Hf, E. cbn [mbind option_bind].
    rewrite (hwloop_end_quiet 0), (hwloop_end_quiet 1) by (apply Hq; lia). eexists. split; [done|by right].
  - unfold lift. cbn [fst snd]. rewrite E. eexists. split; [done|by left].
Qed.

(** The end of the loop. *)
Lemma step_end x i (f : plain) s n hw st next st' :
  (x < 2)%nat -> loop_at x s (i_addr i) n hw -> quiet (other x) [(i, f)] hw -> 0 <= n < 2 ^ 32 -> f i st = Some (next, st') ->
  exists hw', hw_exec (lift f) i (st, hw) = Some (if 2 <=? n then s else next, (st', hw')) /\
    loop_at x s (i_addr i) (Z.max 0 (n - 1)) hw' /\ (forall k, k <> PULPV2_HWLOOP_LPCOUNT x -> hwloop_reg k hw' = hwloop_reg k hw).
Proof.
  intros Hx Hla Hq Hn E. pose proof Hla as [Hl He Hc Hs Hh Hf]. unfold hw_exec. cbn [fst snd].
  rewrite decide_True by done. unfold hwloop_check_exec, lift. cbn [fst snd]. rewrite Hf, E. cbn [mbind option_bind fst snd].
  assert (Hy : hwloop_end (other x) (i_addr i) hw = (hw, false)).
  { apply hwloop_end_quiet. destruct Hq as [|Hq]; [by left|]. right. by inversion Hq. }
  assert (Hx' : exists hw', hwloop_end x (i_addr i) hw = (hw', 2 <=? n) /\ loop_at x s (i_addr i) (Z.max 0 (n - 1)) hw' /\
    (forall k, k <> PULPV2_HWLOOP_LPCOUNT x -> hwloop_reg k hw' = hwloop_reg k hw)).
  { destruct (decide (n = 0)) as [->|Hnz].
    - exists hw. split; [apply hwloop_end_quiet; by left|]. by split.
    - destruct (hwloop_end_at x s (i_addr i) n hw Hx Hla) as (hw' & -> & H1 & H2); [lia|]. exists hw'.
      replace (Z.max 0 (n - 1)) with (n - 1) by lia. split; [|done]. f_equal.
      destruct (Z.eqb_spec (n - 1) 0), (Z.leb_spec 2 n); cbn; lia || done. }
  destruct Hx' as (hw' & Ex & Hla' & Hk).
  assert (Hy' : hwloop_end (other x) (i_addr i) hw' = (hw', false)).
  { unfold other, PULPV2_HWLOOP_LPCOUNT in *. apply hwloop_end_quiet.
    unfold quiet, PULPV2_HWLOOP_LPCOUNT, PULPV2_HWLOOP_LPEND in *. rewrite !Hk by lia.
    destruct Hq as [|Hq]; [by left|]. right. by inversion Hq. }
  pose proof (la_start _ _ _ _ _ Hla') as Hs'.
  destruct x as [|[|x]]; [| |lia]; unfold other in Hy, Hy'; cbn [Nat.sub] in Hy, Hy'.
  - rewrite Ex. destruct (2 <=? n); [rewrite Hs'; by exists hw'|]. rewrite Hy'.
    eexists. split; [done|]. by split; [apply loop_at_next|].
  - rewrite Hy, Ex. destruct (2 <=? n); [rewrite Hs'; by exists hw'|].
    eexists. split; [done|]. by split; [apply loop_at_next|].
Qed.

Lemma quiet_ext y body hw hw' :
  (forall k, k <> PULPV2_HWLOOP_LPCOUNT (other y) -> hwloop_reg k hw' = hwloop_reg k hw) -> (y < 2)%nat ->
  quiet y body hw -> quiet y body hw'.
Proof.
  unfold quiet, other, PULPV2_HWLOOP_LPCOUNT, PULPV2_HWLOOP_LPEND. intros H Hy. by rewrite !H by lia.
Qed.

Lemma quiet_sub y p body hw : quiet y (p :: body) hw -> quiet y [p] hw /\ quiet y body hw.
Proof.
  intros [|H]; [by split; left|]. apply Forall_cons in H as [H1 H2]. split; right; [by constructor|done].
Qed.

(** One run of the body. *)
Lemma run_body x e a body next s n hw st st' :
  (x < 2)%nat -> straight e a body next -> loop_at x s e n hw -> quiet (other x) body hw -> 0 <= n < 2 ^ 32 ->
  exec_body body st = Some st' ->
  exists hw', (forall fuel, run_insns (length body + fuel) a (st, hw) = run_insns fuel (if 2 <=? n then s else next) (st', hw')) /\
    loop_at x s e (Z.max 0 (n - 1)) hw' /\ (forall k, k <> PULPV2_HWLOOP_LPCOUNT x -> hwloop_reg k hw' = hwloop_reg k hw).
Proof.
  intros Hx Hb. revert hw st. induction Hb as [i f Hc Ha Hf|a i f body next Hc Ha Hne Hf Hb IH]; intros hw st Hla Hq Hn E;
    cbn [exec_body] in E; destruct (f i st) as [[next' st1]|] eqn:Ef; [|done| |done]; cbn [mbind option_bind snd] in E.
  - injection E as <-. subst e. destruct (step_end x i f s n hw st next' st1 Hx Hla Hq Hn Ef) as (hw' & Eh & H1 & H2).
    exists hw'. split; [|by split]. intros fuel. cbn [length Nat.add run_insns]. rewrite Hc. cbn [mbind option_bind]. rewrite Eh.
    cbn [mbind option_bind]. by rewrite (Hf _ _ _ Ef).
  - destruct (quiet_sub _ _ _ _ Hq) as [Hq1 Hq2].
    destruct (step_plain i f hw st next' st1 (la_first _ _ _ _ _ Hla) Ef) as (hw1 & Eh & Hhw1).
    { intros z Hz. destruct (decide (z = x)) as [->|Hzx].
      - right. rewrite (la_end _ _ _ _ _ Hla). congruence.
      - replace z with (other x) by (unfold other; lia). destruct Hq1 as [|Hq1]; [by left|]. right. by inversion Hq1. }
    assert (Hreg : forall k, hwloop_reg k hw1 = hwloop_reg k hw) by (by destruct Hhw1 as [-> | ->]).
    destruct (IH hw1 st1) as (hw' & Eh' & H1 & H2); [|by apply (quiet_ext _ _ hw); [..|unfold other; lia|]|done|done|].
    { destruct Hhw1 as [-> | ->]; [done|by apply loop_at_next]. }
    exists hw'. split; [|split; [done|intros k Hk; by rewrite H2]].
    intros fuel. cbn [length Nat.add run_insns]. rewrite Hc. cbn [mbind option_bind]. rewrite Eh. cbn [mbind option_bind].
    by rewrite (Hf _ _ _ Ef).
Qed.

(** The whole loop, from its first instruction. *)
Lemma run_loop x s e body next m hw st st' :
  (x < 2)%nat -> straight e s body next -> loop_at x s e (Z.of_nat m) hw -> quiet (other x) body hw -> Z.of_nat m < 2 ^ 32 ->
  exec_times (max 1 m) body st = Some st' ->
  exists hw', run_insns (max 1 m * length body) s (st, hw) = Some (next, (st', hw')) /\
    loop_at x s e 0 hw' /\ (forall k, k <> PULPV2_HWLOOP_LPCOUNT x -> hwloop_reg k hw' = hwloop_reg k hw).
Proof.
  intros Hx Hb. revert hw st. induction m as [|m IH]; intros hw st Hla Hq Hm E.
  - cbn [max exec_times] in E. destruct (exec_body body st) as [st1|] eqn:E1; [|done]. injection E as <-.
    destruct (run_body x e s body next s 0 hw st st1 Hx Hb Hla Hq ltac:(lia) E1) as (hw' & Er & H1 & H2).
    exists hw'. split; [|by split]. rewrite Nat.mul_1_l, <-(Nat.add_0_r (length body)). exact (Er 0%nat).
  - replace (max 1 (Datatypes.S m)) with (Datatypes.S m) in * by lia. cbn [exec_times] in E.
    destruct (exec_body body st) as [st1|] eqn:E1; [|done]. cbn [mbind option_bind] in E.
    destruct (run_body x e s body next s (Z.of_nat (Datatypes.S m)) hw st st1 Hx Hb Hla Hq ltac:(lia) E1) as (hw1 & Er & H1 & H2).
    cbn [Nat.mul]. rewrite Er. destruct m as [|m].
    + injection E as <-. exists hw1. by split.
    + rewrite (proj2 (Z.leb_le 2 _)) by lia. replace (Z.max 0 (Z.of_nat (Datatypes.S (Datatypes.S m)) - 1)) with (Z.of_nat (Datatypes.S m)) in H1 by lia.
      destruct (IH hw1 st1 H1) as (hw' & Er' & H3 & H4); [|lia|done|].
      { apply (quiet_ext _ _ hw); [|unfold other; lia|done]. intros k Hk. apply H2.
        unfold other, PULPV2_HWLOOP_LPCOUNT in *. lia. }
      exists hw'. split; [exact Er'|]. split; [done|]. intros k Hk. by rewrite H4, H2.
Qed.

Lemma setup_loop x s e n hw :
  (x < 2)%nat -> length (hwloop_regs hw) = 7%nat -> length (hwloop_start_insn hw) = 2%nat -> elw_interrupted hw = false ->
  insn_cache_get e = e ->
  loop_at x (insn_cache_get s) e n (hwloop_set_all x s e n hw) /\
  forall k, k <> PULPV2_HWLOOP_LPSTART x -> k <> PULPV2_HWLOOP_LPEND x -> k <> PULPV2_HWLOOP_LPCOUNT x ->
    hwloop_reg k (hwloop_set_all x s e n hw) = hwloop_reg k hw.
Proof.
  intros Hx Hl Hl2 Hf He. unfold hwloop_set_all, hwloop_set_count, hwloop_set_start, hwloop_set_end, hwloop_set_insn_end.
  unfold set_hwloop_regs. split.
  - split; unfold hwloop_reg, PULPV2_HWLOOP_LPSTART, PULPV2_HWLOOP_LPEND, PULPV2_HWLOOP_LPCOUNT;
      cbn [hwloop_regs hwloop_start_insn hwloop_handlers elw_interrupted].
    + by rewrite !length_insert.
    + rewrite !list_lookup_insert_ne by lia. by rewrite list_lookup_insert_eq by (rewrite Hl; lia).
    + by rewrite list_lookup_insert_eq by (rewrite !length_insert, Hl; lia).
    + by rewrite list_lookup_insert_eq by (rewrite Hl2; lia).
    + rewrite He. set_solver.
    + done.
  - intros k H1 H2 H3. unfold hwloop_reg. cbn [hwloop_regs]. by rewrite !list_lookup_insert_ne by done.
Qed.

(** C24: A hardware loop set by lp.setup or lp.setupi executes its body exactly as many times as the 32-bit
    count says, and once for a count of 0; then it leaves to the instruction after the end, with a count of 0
    and the other loop untouched. The setup instruction is not itself an end of loop and goes to the next
    address; the end of the loop is an address of an instruction (even); the body is a run of instructions
    that each go to the next one, do not use the loops and run without failing the given number of times; the
    other loop does not end in it, or has a count of 0; and no p.elw was interrupted: while elw_interrupted is
    set, the first end of loop does not count its iteration and leaves the loop. *)
Theorem hwloop_iterates (imm : bool) (insn : iss_insn) body next st st' hw :
  let x := lp_index insn in
  let count := if imm then UIM_GET insn 1 else REG_GET regs insn 0 st in
  let e := u32 (i_addr insn + Z.shiftl (UIM_GET insn (if imm then 2 else 1)) 1) in
  let n := Z.to_nat (Z.max 1 count) in
  code (i_addr insn) = Some (insn, if imm then lp_setupi_exec else lp_setup_exec regs) ->
  i_next insn = insn_cache_get (u32 (i_addr insn + i_size insn)) -> insn_cache_get e = e ->
  (x < 2)%nat -> 0 <= count < 2 ^ 32 ->
  length (hwloop_regs hw) = 7%nat -> length (hwloop_start_insn hw) = 2%nat -> elw_interrupted hw = false ->
  i_addr insn ∉ hwloop_handlers hw ->
  straight e (i_next insn) body next -> quiet (other x) body hw -> exec_times n body st = Some st' ->
  exists hw', run_insns (1 + n * length body) (i_addr insn) (st, hw) = Some (next, (st', hw')) /\
    hwloop_reg (PULPV2_HWLOOP_LPCOUNT x) hw' = 0 /\
    forall k, k <> PULPV2_HWLOOP_LPSTART x -> k <> PULPV2_HWLOOP_LPEND x -> k <> PULPV2_HWLOOP_LPCOUNT x ->
      hwloop_reg k hw' = hwloop_reg k hw.
Proof.
  intros x count e n Hcode Hnext He Hx Hcount Hl Hl2 Hf Hh Hb Hq E.
  set (start := u32 (i_addr insn + i_size insn)) in *.
  destruct (setup_loop x start e count hw Hx Hl Hl2 Hf He) as [Hla Hk]. rewrite <-Hnext in Hla.
  set (hw1 := hwloop_set_all x start e count hw) in *.
  assert (Hq1 : quiet (other x) body hw1).
  { unfold quiet, other, PULPV2_HWLOOP_LPCOUNT, PULPV2_HWLOOP_LPEND in *.
    rewrite !Hk by (unfold PULPV2_HWLOOP_LPSTART, PULPV2_HWLOOP_LPEND, PULPV2_HWLOOP_LPCOUNT; lia). exact Hq. }
  replace n with (max 1 (Z.to_nat count)) in * by lia. rewrite <-(Z2Nat.id count) in Hla by lia.
  destruct (run_loop x (i_next insn) e body next (Z.to_nat count) hw1 st st' Hx Hb Hla Hq1 ltac:(lia) E) as (hw' & Er & H0 & Hk').
  exists hw'. split; [|split; [apply H0|intros k ? ? ?; by rewrite Hk', Hk]].
  cbn [Nat.add run_insns]. rewrite Hcode. cbn [mbind option_bind]. unfold hw_exec. cbn [fst snd]. rewrite decide_False by done.
  destruct imm; exact Er.
Qed.
End Loops.

(** ** Memory instructions *)

(** The three addressing modes: base plus register, or base with the base then moved by an immediate or by
    a register. *)
Inductive pulp_mode := RR | POSTINC | RR_POSTINC.

Section Memory.
Context {S : Type} (regs null_reg port : Z) (data : io_meth S) (rd : S -> Z -> Z) (ok : S -> Z -> Z -> Prop).
Context `{!IoTargets (fun _ : unit => data) (fun _ => rd) (fun _ => ok)}.
Hypothesis ok_part : forall s a n b m, ok s a n -> a <= b -> 0 <= m -> b + m <= a + n -> ok s b m.
Hypothesis layout : 0 < regs /\ 0 < null_reg /\ (null_reg + 4 <= regs \/ regs + 128 <= null_reg).
Implicit Types (i : iss_insn) (st : iss (S := S)).

(** The address, and the register moved afterwards (x0 for none) with its new value; [off] is the operand
    with the register offset. *)
Definition pulp_addr (m : pulp_mode) (off : nat) i st : Z :=
  if m is RR then u32 (REG_GET regs i 0 st + REG_GET regs i off st) else REG_GET regs i 0 st.
Definition pulp_base (m : pulp_mode) i : Z := if m is RR then 0 else REG_IN i 0.
Definition pulp_moved (m : pulp_mode) (off : nat) i st : Z :=
  u32 (REG_GET regs i 0 st + if m is POSTINC then SIM_GET i 0 else REG_GET regs i off st).

Definition pulp_loads : list ((iss_insn -> iss (S := S) -> option (Z * iss (S := S))) * Z * bool * pulp_mode) :=
  let h (f : Z -> Z -> Z -> io_meth S -> iss_insn -> iss (S := S) -> option (Z * iss (S := S))) := f regs null_reg port data in
  [(h LB_RR_exec, 1, true, RR); (h LH_RR_exec, 2, true, RR); (h LW_RR_exec, 4, false, RR);
   (h LBU_RR_exec, 1, false, RR); (h LHU_RR_exec, 2, false, RR); (h LB_RR_exec_fast, 1, true, RR);
   (h LH_RR_exec_fast, 2, true, RR); (h LW_RR_exec_fast, 4, false, RR); (h LBU_RR_exec_fast, 1, false, RR);
   (h LHU_RR_exec_fast, 2, false, RR); (h LB_POSTINC_exec, 1, true, POSTINC);
   (h LH_POSTINC_exec, 2, true, POSTINC); (h LW_POSTINC_exec, 4, true, POSTINC);
   (h LBU_POSTINC_exec, 1, false, POSTINC); (h LHU_POSTINC_exec, 2, false, POSTINC);
   (h LB_POSTINC_exec_fast, 1, true, POSTINC); (h LH_POSTINC_exec_fast, 2, true, POSTINC);
   (h LW_POSTINC_exec_fast, 4, true, POSTINC); (h LBU_POSTINC_exec_fast, 1, false, POSTINC);
   (h LHU_POSTINC_exec_fast, 2, false, POSTINC); (h LB_RR_POSTINC_exec, 1, true, RR_POSTINC);
   (h LH_RR_POSTINC_exec, 2, true, RR_POSTINC); (h LW_RR_POSTINC_exec, 4, true, RR_POSTINC);
   (h LBU_RR_POSTINC_exec, 1, false, RR_POSTINC); (h LHU_RR_POSTINC_exec, 2, false, RR_POSTINC);
   (h LB_RR_POSTINC_exec_fast, 1, true, RR_POSTINC); (h LH_RR_POSTINC_exec_fast, 2, true, RR_POSTINC);
   (h LW_RR_POSTINC_exec_fast, 4, true, RR_POSTINC); (h LBU_RR_POSTINC_exec_fast, 1, false, RR_POSTINC);
   (h LHU_RR_POSTINC_exec_fast, 2, false, RR_POSTINC)].

Definition pulp_stores : list ((iss_insn -> iss (S := S) -> option (Z * iss (S := S))) * Z * pulp_mode) :=
  let h (f : Z -> Z -> io_meth S -> iss_insn -> iss (S := S) -> option (Z * iss (S := S))) := f regs port data in
  [(h SB_RR_exec, 1, RR); (h SH_RR_exec, 2, RR); (h SW_RR_exec, 4, RR); (h SB_RR_exec_fast, 1, RR);
   (h SH_RR_exec_fast, 2, RR); (h SW_RR_exec_fast, 4, RR); (h SB_POSTINC_exec, 1, POSTINC);
   (h SH_POSTINC_exec, 2, POSTINC); (h SW_POSTINC_exec, 4, POSTINC); (h SB_POSTINC_exec_fast, 1, POSTINC);
   (h SH_POSTINC_exec_fast, 2, POSTINC); (h SW_POSTINC_exec_fast, 4, POSTINC);
   (h SB_RR_POSTINC_exec, 1, RR_POSTINC); (h SH_RR_POSTINC_exec, 2, RR_POSTINC);
   (h SW_RR_POSTINC_exec, 4, RR_POSTINC); (h SB_RR_POSTINC_exec_fast, 1, RR_POSTINC);
   (h SH_RR_POSTINC_exec_fast, 2, RR_POSTINC); (h SW_RR_POSTINC_exec_fast, 4, RR_POSTINC)].

(** A load or a store, and the new value of the base. *)
Definition the_load (sgn : bool) (addr n reg : Z) st : option (iss (S := S)) :=
  if sgn then iss_lsu_load_signed regs null_reg port data addr n reg st else iss_lsu_load regs null_reg port data addr n reg st.
Definition new_base (m : pulp_mode) (off : nat) i st (t : iss (S := S)) : Z :=
  if m is POSTINC then u32 (REG_GET regs i 0 t + SIM_GET i 0) else pulp_moved m off i st.

Lemma then_next_base i (x : option (iss (S := S))) (v : iss (S := S) -> Z) :
  then_next i x = let* t := x in Some (i_next i, set_reg regs 0 (v t) t).
Proof. destruct x as [t|]; [|done]. cbn. by rewrite set_reg_0. Qed.

Ltac load_shape i st f :=
  exists (f st); split; [first [by left|by right]|];
  unfold LB_RR_exec, LH_RR_exec, LW_RR_exec, LBU_RR_exec, LHU_RR_exec, LBU_POSTINC_exec, LHU_POSTINC_exec,
    LBU_RR_POSTINC_exec, LHU_RR_POSTINC_exec;
  rewrite ?stack_access_off by done;
  first [reflexivity|exact (then_next_base i _ (new_base RR 1 i st))].

Ltac store_shape i st f :=
  exists (f st); split; [first [by left|by right]|];
  unfold SB_RR_exec, SH_RR_exec, SW_RR_exec, SB_POSTINC_exec, SH_POSTINC_exec, SW_POSTINC_exec,
    SB_RR_POSTINC_exec, SH_RR_POSTINC_exec, SW_RR_POSTINC_exec;
  rewrite ?stack_access_off by done;
  first [reflexivity|exact (then_next_base i _ (new_base RR 2 i st))].

Lemma pulp_load_shape f n (sgn : bool) m i st :
  (f, n, sgn, m) ∈ pulp_loads -> stack_conf (cpu st) = 0 ->
  exists st0, (st0 = st \/ st0 = account CSR_PCER_LD st) /\
    f i st = let* t := the_load sgn (pulp_addr m 1 i st) n (REG_OUT i 0) st0 in
             Some (i_next i, set_reg regs (pulp_base m i) (new_base m 1 i st t) t).
Proof.
  intros Hin Hstk. unfold pulp_loads in Hin.
  repeat (apply elem_of_cons in Hin as [Hin|Hin]; [injection Hin as -> -> -> ->|]); [..|by apply elem_of_nil in Hin].
  all: first [load_shape i st (fun st : iss (S := S) => st)|load_shape i st (account (S := S) CSR_PCER_LD)].
Qed.

Lemma set_reg_swap h a b x y p :
  a <> b -> hget (iss_set_reg regs a x (iss_set_reg regs b y h)) p = hget (iss_set_reg regs b y (iss_set_reg regs a x h)) p.
Proof.
  intros Hab. unfold iss_set_reg. destruct (negb (a =? 0)), (negb (b =? 0)); try done.
  rewrite !hget_store_bytes, !length_lanes.
  destruct (Z.leb_spec (regs + 4 * a) p), (Z.ltb_spec p (regs + 4 * a + Z.of_nat 4)), (Z.leb_spec (regs + 4 * b) p),
    (Z.ltb_spec p (regs + 4 * b + Z.of_nat 4)); try done; lia.
Qed.

Lemma accessed_ext w addr d n h h' c s st :
  (forall p, hget h' p = hget h p) -> accessed rd w addr d n h c s st -> accessed rd w addr d n h' c s st.
Proof.
  intros Eh ([M1 M2] & Hc). split; [|done]. split; intros x; [rewrite M1; by rewrite Eh|rewrite M2; by rewrite Eh].
Qed.

Lemma ref_separate reg n base :
  0 <= reg < 32 -> 0 <= base < 32 -> n <= 4 -> base = 0 \/ base <> reg -> separate regs (iss_reg_ref regs null_reg reg) n base.
Proof.
  intros Hr Hb Hn [->|Hne]; [by left|]. destruct (decide (base = 0)) as [->|]; [by left|]. right. intros p Hp Hd.
  unfold iss_reg_ref in Hd. destruct (Z.eqb_spec reg 0); lia.
Qed.

(** What a load does to the state but for the value of its base. *)
Definition load_done (sgn : bool) (addr n reg base v0 : Z) st st2 : Prop :=
  misaligned_access (cpu st2) = false /\ stalled (cpu st2) = stalled (cpu st) /\
  (forall b, rd (bus st2) b = rd (bus st) b) /\
  forall k, 0 <= k < 32 -> get_reg regs st2 k =
    if negb (base =? 0) && (k =? base) then u32 v0
    else if negb (reg =? 0) && (k =? reg)
    then load_value sgn (addr mod 4 + n <=? 4) n (pack 8 (mem_bytes rd (bus st) addr n)) (get_reg regs st k)
    else get_reg regs st k.

(** The bytes around a load, before it extends the sign. *)
Lemma the_load_request (sgn : bool) addr n reg st i :
  access_ok ok addr n st -> 0 <= reg < 32 ->
  let h := if sgn then hst st else iss_set_reg regs reg 0 (hst st) in
  let d := iss_reg_ref regs null_reg reg in
  exists st1 : iss (S := S), (forall p, ~ d <= p < d + n -> hget (hst st1) p = hget h p) /\
    if addr mod 4 + n <=? 4 then
      accessed rd false addr d n h (cpu st) (bus st) st1 /\
      the_load sgn addr n reg st =
        Some (if sgn then set_reg regs reg (iss_get_signed_value (get_reg regs st1 reg) (n * 8)) st1 else st1)
    else exists cb size, the_load sgn addr n reg st = Some (stall_access cb reg size st1) /\
      forall base v, separate regs d n base -> exists st2,
        complete port data (Some (i_next i, set_reg regs base v (stall_access cb reg size st1))) = Some st2 /\
        accessed rd false addr d n (iss_set_reg regs base v h) (cpu st) (bus st) st2.
Proof.
  intros Hok Hr h d. set (stz := if sgn then st else set_reg regs reg 0 st).
  assert (Hokz : access_ok ok addr n stz) by (unfold stz; destruct sgn; [done|]; destruct Hok; by split).
  assert (Ez : hst stz = h /\ cpu stz = cpu st /\ bus stz = bus st) by (unfold stz, h; by destruct sgn).
  destruct (access_update regs port data rd ok ok_part addr d n false stz i Hokz) as (err & st1 & E & Hout & H).
  { apply (reg_ref_pos regs null_reg layout reg Hr). }
  destruct Ez as (E1 & E2 & E3). rewrite E1 in Hout. exists st1. split; [intros p Hp; apply Hout; by right|].
  assert (El : the_load sgn addr n reg st =
    match err with
    | IO_REQ_OK => Some (if sgn then set_reg regs reg (iss_get_signed_value (get_reg regs st1 reg) (n * 8)) st1 else st1)
    | _ => Some (stall_access (if sgn then LoadSignedResume else LoadResume) reg
                   (if sgn then n else stall_size (cpu st1)) st1)
    end).
  { unfold the_load, stz in *. destruct sgn; unfold iss_lsu_load_signed, iss_lsu_load; fold d; rewrite E; by destruct err. }
  destruct (addr mod 4 + n <=? 4); destruct H as [-> H].
  - split; [|exact El]. by rewrite E1, E2, E3 in H.
  - eexists _, _. split; [exact El|]. intros base v Hsep.
    destruct (H (if sgn then LoadSignedResume else LoadResume) reg (if sgn then n else stall_size (cpu st1)) base v Hsep)
      as (st2 & Ec & Ha). exists st2. split; [exact Ec|]. by rewrite E1, E2, E3 in Ha.
Qed.

Lemma load_update (sgn : bool) addr n reg base (v : iss (S := S) -> Z) v0 st i :
  access_ok ok addr n st -> 0 <= reg < 32 -> 0 <= base < 32 -> base = 0 \/ base <> reg ->
  (forall t : iss (S := S), base <> 0 -> get_reg regs t base = get_reg regs st base -> v t = v0) ->
  exists st2, complete port data (let* t := the_load sgn addr n reg st in Some (i_next i, set_reg regs base (v t) t)) = Some st2 /\
    load_done sgn addr n reg base v0 st st2.
Proof.
  intros Hok Hr Hb Hne Hv.
  assert (Hset : forall t : iss (S := S), (base <> 0 -> get_reg regs t base = get_reg regs st base) ->
    set_reg regs base (v t) t = set_reg regs base v0 t).
  { intros t Ht. destruct (decide (base = 0)) as [->|Hnz]; [by rewrite !set_reg_0|]. rewrite Hv; auto. }
  pose proof (ao_size _ _ _ _ Hok) as Hn. set (d := iss_reg_ref regs null_reg reg).
  destruct (the_load_request sgn addr n reg st i Hok Hr) as (st1 & Hout & H). fold d in Hout, H.
  set (h := if sgn then hst st else _) in *.
  pose proof (ref_separate reg n base Hr Hb ltac:(lia) Hne) as Hsep. fold d in Hsep.
  assert (Hbase : forall h', (forall p, ~ d <= p < d + n -> hget h' p = hget h p) -> base <> 0 ->
    iss_get_reg_untimed regs h' base = get_reg regs st base).
  { intros h' Hh Hnz. destruct Hne as [|Hne]; [done|]. transitivity (iss_get_reg_untimed regs h base).
    - apply get_reg_ext. intros p Hp. apply Hh. destruct Hsep as [|Hsep]; [done|]. by apply Hsep.
    - unfold h. destruct sgn; [done|]. by apply get_set_reg_ne. }
  destruct (Z.leb_spec (addr mod 4 + n) 4) as [Hin|Hcross].
  - destruct H as [Hacc E]. pose proof (loaded_registers regs null_reg rd layout sgn n reg addr (hst st) (cpu st) (bus st) st1 Hacc Hn Hr) as Ht.
    cbv zeta in Ht. rewrite (proj2 (Z.leb_le _ _) Hin), andb_true_r in Ht. set (t := if sgn then set_reg _ _ _ _ else st1) in E, Ht.
    assert (Et : misaligned_access (cpu t) = misaligned_access (cpu st1) /\ stalled (cpu t) = stalled (cpu st1) /\ bus t = bus st1)
      by (unfold t; by destruct sgn).
    destruct Et as (Et1 & Et2 & Et3), Hacc as ([M _] & Hmis & Hst).
    assert (Hv0 : set_reg regs base (v t) t = set_reg regs base v0 t).
    { apply Hset. intros Hnz. rewrite Ht by done. destruct Hne as [|Hne]; [done|].
      by rewrite (proj2 (Z.eqb_neq base reg)), andb_false_r. }
    exists (set_reg regs base v0 t). rewrite E. cbn [mbind option_bind]. unfold complete. rewrite Hv0. cbn [set_reg set_hst cpu]. rewrite Et1, Hmis.
    split; [done|]. split; [exact (eq_trans Et1 Hmis)|]. split; [exact (eq_trans Et2 Hst)|].
    split; [intros b; cbn [bus set_reg set_hst]; rewrite Et3; apply M|].
    intros k Hk. rewrite get_reg_set. destruct (negb (base =? 0) && (k =? base)); [done|]. rewrite Ht by done.
    by rewrite (proj2 (Z.leb_le _ _) Hin).
  - destruct H as (cb & size & E & H). destruct (H base v0 Hsep) as (st2 & Ec & Hacc). exists st2. rewrite E.
    assert (Hv0 : set_reg regs base (v (stall_access cb reg size st1)) (stall_access cb reg size st1) =
      set_reg regs base v0 (stall_access cb reg size st1)) by (apply Hset; intros Hnz; by apply (Hbase (hst st1))).
    cbn [mbind option_bind]. rewrite Hv0. split; [exact Ec|].
    assert (Hacc' : accessed rd false addr d n
      (if sgn then iss_set_reg regs base v0 (hst st) else iss_set_reg regs reg 0 (iss_set_reg regs base v0 (hst st)))
      (cpu st) (bus st) st2).
    { unfold h in Hacc. destruct sgn; [exact Hacc|]. destruct Hne as [->|Hne]; [exact Hacc|].
      apply (accessed_ext _ _ _ _ (iss_set_reg regs base v0 (iss_set_reg regs reg 0 (hst st)))); [|exact Hacc].
      intros p. apply set_reg_swap. lia. }
    pose proof (loaded_registers regs null_reg rd layout sgn n reg addr _ (cpu st) (bus st) st2 Hacc' Hn Hr) as Ht.
    cbv zeta in Ht. rewrite (proj2 (Z.leb_gt _ _) Hcross), andb_false_r in Ht. destruct Hacc as ([M _] & Hmis & Hst).
    split; [exact Hmis|]. split; [exact Hst|]. split; [exact M|]. intros k Hk. rewrite Ht by done.
    rewrite (proj2 (Z.leb_gt _ _) Hcross).
    pose proof (get_reg_set regs base v0 st k) as Eset. unfold get_reg, set_reg in Eset. cbn [set_hst hst] in Eset. rewrite !Eset.
    destruct (Z.eqb_spec base 0) as [|Hb0], (Z.eqb_spec k base) as [->|]; cbn [negb andb]; try done.
    destruct Hne as [|Hne]; [done|]. by rewrite (proj2 (Z.eqb_neq base reg)), andb_false_r.
Qed.

(** C25: The PULP loads, with a register offset or with a post-increment of the base by an immediate or a
    register: the loaded value goes to the destination register as for the base loads (zero or sign
    extended, except for signed half-words over two words), the base gets the incremented address, and no
    other register nor the memory changes, whether the access is in one word or is finished later. *)
Theorem pulp_loads_isa f n (sgn : bool) m i st :
  (f, n, sgn, m) ∈ pulp_loads -> stack_conf (cpu st) = 0 ->
  access_ok ok (pulp_addr m 1 i st) n st -> 0 <= REG_OUT i 0 < 32 -> 0 <= REG_IN i 0 < 32 ->
  pulp_base m i = 0 \/ pulp_base m i <> REG_OUT i 0 ->
  exists st2, complete port data (f i st) = Some st2 /\
    load_done sgn (pulp_addr m 1 i st) n (REG_OUT i 0) (pulp_base m i) (pulp_moved m 1 i st) st st2.
Proof.
  intros Hin Hstk Hok Hr Hb Hne. destruct (pulp_load_shape f n sgn m i st Hin Hstk) as (st0 & Hst0 & ->).
  assert (E0 : hst st0 = hst st /\ bus st0 = bus st /\ misaligned_access (cpu st0) = misaligned_access (cpu st) /\
    stalled (cpu st0) = stalled (cpu st)) by (destruct Hst0 as [-> | ->]; [done|apply account_same]).
  destruct E0 as (E1 & E2 & E3 & E4).
  assert (Hok0 : access_ok ok (pulp_addr m 1 i st) n st0) by (destruct Hok; split; try done; by rewrite ?E2, ?E3).
  destruct (load_update sgn (pulp_addr m 1 i st) n (REG_OUT i 0) (pulp_base m i) (new_base m 1 i st) (pulp_moved m 1 i st) st0 i)
    as (st2 & E & H); [done|done|by destruct m|done| |].
  - intros t Hnz Ht. unfold new_base, pulp_moved. destruct m; try done. cbn [pulp_base] in *.
    unfold REG_GET. rewrite Ht. unfold get_reg. by rewrite E1.
  - exists st2. split; [exact E|]. unfold load_done, get_reg in *. by rewrite E1, E2, E4 in H.
Qed.

Lemma pulp_store_shape f n m i st :
  (f, n, m) ∈ pulp_stores -> stack_conf (cpu st) = 0 ->
  exists st0, (st0 = st \/ st0 = account CSR_PCER_ST st) /\
    f i st = let* t := iss_lsu_store regs port data (pulp_addr m 2 i st) n (REG_IN i 1) st0 in
             Some (i_next i, set_reg regs (pulp_base m i) (new_base m 2 i st t) t).
Proof.
  intros Hin Hstk. unfold pulp_stores in Hin.
  repeat (apply elem_of_cons in Hin as [Hin|Hin]; [injection Hin as -> -> ->|]); [..|by apply elem_of_nil in Hin].
  all: first [store_shape i st (fun st : iss (S := S) => st)|store_shape i st (account (S := S) CSR_PCER_ST)].
Qed.

(** What a store does to the state but for the value of its base. *)
Definition store_done (addr n src base v0 : Z) st st2 : Prop :=
  misaligned_access (cpu st2) = false /\ stalled (cpu st2) = stalled (cpu st) /\
  (forall b, u8 (rd (bus st2) b) =
     if in_range addr n b then u8 (Z.shiftr (get_reg regs st src) (8 * (b - addr))) else u8 (rd (bus st) b)) /\
  forall k, 0 <= k < 32 -> get_reg regs st2 k = if negb (base =? 0) && (k =? base) then u32 v0 else get_reg regs st k.

Lemma store_separate src n base :
  0 <= src < 32 -> 0 <= base < 32 -> n <= 4 -> base = 0 \/ base <> src -> separate regs (regs + 4 * src) n base.
Proof.
  intros Hs Hb Hn [->|Hne]; [by left|]. right. intros p Hp Hd. lia.
Qed.

Lemma store_update addr n src base (v : iss (S := S) -> Z) v0 st i :
  access_ok ok addr n st -> 0 <= src < 32 -> 0 <= base < 32 ->
  (addr mod 4 + n <= 4 \/ base = 0 \/ base <> src) ->
  (forall t : iss (S := S), get_reg regs t base = get_reg regs st base -> v t = v0) ->
  exists st2, complete port data (let* t := iss_lsu_store regs port data addr n src st in Some (i_next i, set_reg regs base (v t) t)) = Some st2 /\
    store_done addr n src base v0 st st2.
Proof.
  intros Hok Hs Hb Hne Hv. pose proof (ao_size _ _ _ _ Hok) as Hn. destruct layout as (Hregs & _).
  destruct (access_update regs port data rd ok ok_part addr (regs + 4 * src) n true st i Hok ltac:(lia)) as (err & st1 & E & Hout & H).
  unfold iss_lsu_store, iss_reg_store_ref. rewrite E.
  destruct (Z.leb_spec (addr mod 4 + n) 4) as [Hin|Hcross]; destruct H as [-> H]; cbn [mbind option_bind].
  - pose proof (stored_memory regs null_reg rd layout src n addr (hst st) (cpu st) (bus st) st1 H Hn (proj1 Hs)) as [Hm Hk].
    destruct H as (_ & Hmis & Hst). rewrite Hv by apply Hk.
    exists (set_reg regs base v0 st1). unfold complete. cbn [set_reg set_hst cpu]. rewrite Hmis. split; [done|].
    do 2 (split; [done|]). split; [exact Hm|]. intros k _. rewrite get_reg_set. by rewrite Hk.
  - assert (Hsep : separate regs (regs + 4 * src) n base) by (apply store_separate; lia).
    destruct (H StoreResume src (stall_size (cpu st1)) base v0 Hsep) as (st2 & Ec & Hacc). exists st2.
    rewrite Hv; [|apply get_reg_ext; intros p _; apply Hout; by left]. split; [exact Ec|].
    pose proof (stored_memory regs null_reg rd layout src n addr _ (cpu st) (bus st) st2 Hacc Hn (proj1 Hs)) as [Hm Hk].
    destruct Hacc as (_ & Hmis & Hst). split; [exact Hmis|]. split; [exact Hst|].
    pose proof (get_reg_set regs base v0 st) as Eset. unfold get_reg, set_reg in Eset. cbn [set_hst hst] in Eset.
    split; [|intros k _; by rewrite Hk, Eset].
    intros b. rewrite Hm, Eset. destruct (Z.eqb_spec base 0) as [|Hb0], (Z.eqb_spec src base); cbn [negb andb]; try done.
    lia.
Qed.

(** The PULP stores, with the same addressing modes: the low bytes of the source register go to the
    memory, no other byte changes, the base gets the incremented address and no other register changes,
    when the source is not the base that the instruction moves or the access is inside one word. *)
Theorem pulp_stores_isa f n m i st :
  (f, n, m) ∈ pulp_stores -> stack_conf (cpu st) = 0 ->
  access_ok ok (pulp_addr m 2 i st) n st -> 0 <= REG_IN i 1 < 32 -> 0 <= REG_IN i 0 < 32 ->
  (pulp_addr m 2 i st mod 4 + n <= 4 \/ pulp_base m i = 0 \/ pulp_base m i <> REG_IN i 1) ->
  exists st2, complete port data (f i st) = Some st2 /\
    store_done (pulp_addr m 2 i st) n (REG_IN i 1) (pulp_base m i) (pulp_moved m 2 i st) st st2.
Proof.
  intros Hin Hstk Hok Hr Hb Hne. destruct (pulp_store_shape f n m i st Hin Hstk) as (st0 & Hst0 & ->).
  assert (E0 : hst st0 = hst st /\ bus st0 = bus st /\ misaligned_access (cpu st0) = misaligned_access (cpu st) /\
    stalled (cpu st0) = stalled (cpu st)) by (destruct Hst0 as [-> | ->]; [done|apply account_same]).
  destruct E0 as (E1 & E2 & E3 & E4).
  assert (Hok0 : access_ok ok (pulp_addr m 2 i st) n st0) by (destruct Hok; split; try done; by rewrite ?E2, ?E3).
  destruct (store_update (pulp_addr m 2 i st) n (REG_IN i 1) (pulp_base m i) (new_base m 2 i st) (pulp_moved m 2 i st) st0 i)
    as (st2 & E & H); [done|done|by destruct m|done| |].
  - intros t Ht. unfold new_base, pulp_moved. destruct m; try done. cbn [pulp_base] in *.
    unfold REG_GET. rewrite Ht. unfold get_reg. by rewrite E1.
  - exists st2. split; [exact E|]. unfold store_done, get_reg in *. by rewrite E1, E2, E4 in H.
Qed.

End Memory.

(** ** Bit field instructions *)

Inductive field_op := FSet | FClear | FInsert | FExtractU | FExtract.

(** Bit [j] of the result for the field of [w] bits at [s], cut at the end of the word; [a] is the first
    operand and [b] the second, the word an insertion keeps. *)
Definition field_bit (op : field_op) (w s a b j : Z) : bool :=
  let inside := (s <=? j) && (j <? s + w) in
  match op with
  | FSet => Z.testbit a j || inside
  | FClear => Z.testbit a j && negb inside
  | FInsert => if inside then Z.testbit a (j - s) else Z.testbit b j
  | FExtractU => (j <? Z.min w (32 - s)) && Z.testbit a (j + s)
  | FExtract => Z.testbit a (s + Z.min j (Z.min w (32 - s) - 1))
  end.

Section BitFields.
Context {S : Type} (regs : Z).
Implicit Types (i : iss_insn) (st : iss (S := S)).

(** Where the field is given: in the immediates, or in a register. *)
Definition field_width (k : option nat) i st : Z := if k is Some k then reg_width regs i k st else imm_width i.
Definition field_shift (k : option nat) i st : Z := if k is Some k then reg_shift regs i k st else imm_shift i.

Definition field_insns : list ((iss_insn -> iss (S := S) -> option (Z * iss (S := S))) * field_op * option nat) :=
  [(p_bseti_exec regs, FSet, None); (p_bset_exec regs, FSet, Some 1%nat); (p_bclri_exec regs, FClear, None);
   (p_bclr_exec regs, FClear, Some 1%nat); (p_inserti_exec regs, FInsert, None); (p_insert_exec regs, FInsert, Some 2%nat);
   (p_extractui_exec regs, FExtractU, None); (p_extractu_exec regs, FExtractU, Some 1%nat);
   (p_extracti_exec regs, FExtract, None); (p_extract_exec regs, FExtract, Some 1%nat)].

Lemma field_mask_spec w s :
  0 < w <= 32 -> 0 <= s < 32 ->
  exists mask, field_mask w s = Some mask /\ 0 <= mask < 2 ^ 32 /\
    forall j, 0 <= j -> Z.testbit mask j = (j <? 32) && ((s <=? j) && (j <? s + w)).
Proof.
  intros Hw Hs. unfold field_mask. rewrite shl_some by lia. cbn [mbind option_bind]. rewrite shl_some by lia.
  eexists. split; [done|]. split; [apply uw_range; lia|]. intros j Hj.
  rewrite Z.shiftl_1_l, Z.sub_1_r, <-Z.ones_equiv. rewrite (uw_small 64).
  2: { pose proof (Z.ones_equiv w). assert (2 ^ w <= 2 ^ 32) by (apply Z.pow_le_mono_r; lia).
       assert (0 < 2 ^ w) by (apply Z.pow_pos_nonneg; lia). lia. }
  rewrite uw_testbit, Z.shiftl_spec by lia. destruct (Z.ltb_spec j 32); [|done]. cbn [andb].
  destruct (Z.leb_spec s j); cbn [andb]; [|apply Z.testbit_neg_r; lia].
  rewrite Z.testbit_ones_nonneg by lia. bcases.
Qed.

Lemma field_param_range k i st :
  (k = None -> 0 <= UIM_GET i 0 < 32 /\ 0 <= UIM_GET i 1 < 32) -> 0 < field_width k i st <= 32 /\ 0 <= field_shift k i st < 32.
Proof.
  intros H. destruct k as [k|]; cbn [field_width field_shift].
  - unfold reg_width, reg_shift. change 0x1f with (Z.ones 5). rewrite !uw_land by lia.
    pose proof (uw_range 5 (Z.shiftr (REG_GET regs i k st) 5) ltac:(lia)). pose proof (uw_range 5 (REG_GET regs i k st) ltac:(lia)). lia.
  - destruct (H eq_refl). unfold imm_width, imm_shift. rewrite !sw_small by lia. lia.
Qed.

(** The operation of the library under each instruction. *)
Definition field_value (op : field_op) (w s a b : Z) : option Z :=
  let* mask := field_mask w s in
  match op with
  | FSet => Some (lib_BSET a mask)
  | FClear => Some (lib_BCLR a mask)
  | FInsert => lib_BINSERT a b mask s
  | FExtractU => lib_BEXTRACTU a mask s
  | FExtract => lib_BEXTRACT a w s
  end.

Lemma sign_field_bit v w j : 0 < w -> 0 <= j -> Z.testbit (sw w v) j = Z.testbit v (Z.min j (w - 1)).
Proof.
  intros Hw Hj. pose proof (uw_range w v ltac:(lia)) as Hu. pose proof (testbit_top (w - 1) (uw w v)) as Htop.
  replace (2 * 2 ^ (w - 1)) with (2 ^ w) in Htop by (rewrite <-Z.pow_succ_r by lia; f_equal; lia).
  rewrite uw_testbit, (proj2 (Z.ltb_lt _ _)) in Htop by lia. specialize (Htop ltac:(lia) Hu). cbn [andb] in Htop.
  destruct (Z.ltb_spec j w).
  - assert (E : Z.testbit (uw w (sw w v)) j = Z.testbit (uw w v) j) by (by rewrite uw_sw).
    rewrite !uw_testbit, (proj2 (Z.ltb_lt j w)) in E by lia. cbn [andb] in E. rewrite E. f_equal. lia.
  - replace (Z.min j (w - 1)) with (w - 1) by lia. rewrite Htop. unfold sw.
    destruct (Z.ltb_spec (uw w v) (2 ^ (w - 1))) as [Hlt|Hge].
    + rewrite uw_testbit, (proj2 (Z.ltb_ge j w)), (proj2 (Z.leb_gt _ _)) by lia. done.
    + rewrite (proj2 (Z.leb_le _ _)), Z.testbit_odd, Z.shiftr_div_pow2 by lia.
      assert (2 ^ w <= 2 ^ j) by (apply Z.pow_le_mono_r; lia).
      rewrite <-(Z.div_unique (uw w v - 2 ^ w) (2 ^ j) (-1) (uw w v - 2 ^ w + 2 ^ j)); [done|lia|lia].
Qed.

Lemma field_value_spec op w s a b :
  0 < w <= 32 -> 0 <= s < 32 -> 0 <= a < 2 ^ 32 -> 0 <= b < 2 ^ 32 -> (op = FExtract -> w < 32) ->
  exists v, field_value op w s a b = Some v /\ forall j, 0 <= j < 32 -> Z.testbit v j = field_bit op w s a b j.
Proof.
  intros Hw Hs Ha Hb Hext. destruct (field_mask_spec w s Hw Hs) as (mask & E & Hm & Hbit).
  unfold field_value. rewrite E. cbn [mbind option_bind].
  destruct op; cbn [field_bit]; unfold lib_BSET, lib_BCLR, lib_BINSERT, lib_BEXTRACTU.
  - eexists. split; [done|]. intros j Hj. rewrite Z.lor_spec, Hbit by lia. by rewrite (proj2 (Z.ltb_lt j 32)) by lia.
  - eexists. split; [done|]. intros j Hj. rewrite Z.land_spec, uw_testbit, Z.lnot_spec, Hbit by lia.
    by rewrite (proj2 (Z.ltb_lt j 32)) by lia.
  - rewrite shl_some by lia. eexists. split; [done|]. intros j Hj.
    rewrite Z.lor_spec, !Z.land_spec, !uw_testbit, Z.lnot_spec, Hbit, Z.shiftl_spec by lia.
    rewrite (proj2 (Z.ltb_lt j 32)) by lia. cbn [andb].
    destruct ((s <=? j) && (j <? s + w)); autorewrite with gv_bits; done.
  - rewrite shr_some by lia. eexists. split; [done|]. intros j Hj. rewrite Z.shiftr_spec, Z.land_spec, Hbit by lia.
    rewrite andb_comm. f_equal. bcases.
  - rewrite (proj1 (bit_fields a a w s Ha Ha ltac:(split; [lia|by apply Hext]) Hs)). eexists. split; [done|]. intros j Hj.
    rewrite sign_field_bit, Z.shiftr_spec by lia. f_equal. lia.
Qed.

Lemma field_insns_value f op k i st :
  (f, op, k) ∈ field_insns -> (k = None -> 0 <= UIM_GET i 0 < 32 /\ 0 <= UIM_GET i 1 < 32) ->
  f i st = insn_result regs i (field_value op (field_width k i st) (field_shift k i st) (REG_GET regs i 0 st) (REG_GET regs i 1 st)) st.
Proof.
  intros Hin Himm. destruct (field_param_range k i st Himm) as [Hw Hs].
  destruct (field_mask_spec _ _ Hw Hs) as (mask & E & _).
  unfold field_insns in Hin.
  repeat (apply elem_of_cons in Hin as [Hin|Hin]; [injection Hin as -> -> ->|]); [..|by apply elem_of_nil in Hin].
  all: cbn [field_width field_shift] in *; unfold field_value; rewrite E; cbn [mbind option_bind].
  all: unfold p_bseti_exec, p_bset_exec, p_bclri_exec, p_bclr_exec, p_inserti_exec, p_insert_exec, p_extractui_exec,
      p_extractu_exec, p_extracti_exec, p_extract_exec; rewrite ?E; cbn [mbind option_bind].
  all: rewrite ?(uw_small 32 (imm_shift i)), ?(uw_small 32 (imm_width i)) by lia; reflexivity.
Qed.

(** The bit field instructions (p.bset, p.bclr, p.insert, p.extractu, p.extract), with the width and
    the position of the field in the immediates or in a register: set, clear, replace, and extract with
    zeros or copies of the sign exactly the bits of the field, cut at the end of the word. p.extract is
    stated for fields narrower than the word. *)
Theorem pulp_bit_fields f op k i st :
  (f, op, k) ∈ field_insns -> (k = None -> 0 <= UIM_GET i 0 < 32 /\ 0 <= UIM_GET i 1 < 32) ->
  (op = FExtract -> field_width k i st < 32) ->
  let w := field_width k i st in
  let s := field_shift k i st in
  exists v, f i st = Some (i_next i, set_reg regs (REG_OUT i 0) v st) /\
    forall j, 0 <= j < 32 -> Z.testbit v j = field_bit op w s (REG_GET regs i 0 st) (REG_GET regs i 1 st) j.
Proof.
  intros Hin Himm Hext w s. rewrite (field_insns_value f op k i st Hin Himm).
  destruct (field_param_range k i st Himm) as [Hw Hs].
  destruct (field_value_spec op w s (REG_GET regs i 0 st) (REG_GET regs i 1 st)) as (v & E & H);
    try done; try apply get_reg_range.
  exists v. unfold w, s in E. by rewrite E.
Qed.
End BitFields.

(** ** Scalar arithmetic *)

Inductive pulp_op :=
  | PAvgu | PSlet | PSletu | PMin | PMinu | PMax | PMaxu | PExths | PExthz | PExtbs | PExtbz | PAbs | PMac | PMsu
  | PMul | PRor | PClipi | PClipui | PClip | PClipu.

(** What each instruction computes on the words [x], [y], [z] of its operands, with the immediate [n]. *)
Definition clamp (low high v : Z) : Z := Z.max low (Z.min high v).
Definition pulp_value (op : pulp_op) (n x y z : Z) : Z :=
  let bound := 2 ^ Z.max (n - 1) 0 in
  match op with
  | PAvgu => (x + y) mod 2 ^ 32 / 2
  | PSlet => Z.b2z (bool_decide (s32 x <= s32 y))
  | PSletu => Z.b2z (bool_decide (x <= y))
  | PMin => Z.min (s32 x) (s32 y)
  | PMinu => Z.min x y
  | PMax => Z.max (s32 x) (s32 y)
  | PMaxu => Z.max x y
  | PExths => s16 x
  | PExthz => x mod 2 ^ 16
  | PExtbs => s8 x
  | PExtbz => x mod 2 ^ 8
  | PAbs => Z.abs (s32 x)
  | PMac => z + x * y
  | PMsu => z - x * y
  | PMul => x * y
  | PRor => x / 2 ^ y + x * 2 ^ (32 - y)
  | PClipi => clamp (- bound) (bound - 1) (s32 x)
  | PClipui => clamp 0 (bound - 1) (s32 x)
  | PClip => clamp (- s32 y - 1) (s32 y) (s32 x)
  | PClipu => clamp 0 (s32 y) (s32 x)
  end.

(** Where the code leaves the operation undefined, or clips to an empty interval. *)
Definition pulp_defined (op : pulp_op) (n y : Z) : Prop :=
  match op with
  | PRor => 0 < y < 32
  | PClipi | PClipui => 0 <= n < 32
  | PClip | PClipu => 0 <= s32 y
  | _ => True
  end.

Section Scalar.
Context {S : Type} (regs : Z).
Implicit Types (i : iss_insn) (st : iss (S := S)).

Definition pulp_insns : list ((iss_insn -> iss (S := S) -> option (Z * iss (S := S))) * pulp_op) :=
  [(p_avgu_exec regs, PAvgu); (p_slet_exec regs, PSlet); (p_sletu_exec regs, PSletu); (p_min_exec regs, PMin);
   (p_minu_exec regs, PMinu); (p_max_exec regs, PMax); (p_maxu_exec regs, PMaxu); (p_exths_exec regs, PExths);
   (p_exthz_exec regs, PExthz); (p_extbs_exec regs, PExtbs); (p_extbz_exec regs, PExtbz); (p_abs_exec regs, PAbs);
   (p_mac_exec regs, PMac); (p_msu_exec regs, PMsu); (p_mul_exec regs, PMul); (p_ror_exec regs, PRor);
   (p_clipi_exec regs, PClipi); (p_clipui_exec regs, PClipui); (p_clip_exec regs, PClip); (p_clipu_exec regs, PClipu)].

(** The value the code computes. *)
Definition pulp_lib (op : pulp_op) (i : iss_insn) (x y z : Z) : option Z :=
  match op with
  | PAvgu => Some (lib_AVGU x y)
  | PSlet => Some (Z.b2z (s32 x <=? s32 y))
  | PSletu => Some (Z.b2z (x <=? y))
  | PMin => Some (lib_MINS (s32 x) (s32 y))
  | PMinu => Some (lib_MINU x y)
  | PMax => Some (lib_MAXS (s32 x) (s32 y))
  | PMaxu => Some (lib_MAXU x y)
  | PExths => Some (iss_get_signed_value x 16)
  | PExthz => Some (iss_get_field x 0 16)
  | PExtbs => Some (iss_get_signed_value x 8)
  | PExtbz => Some (iss_get_field x 0 8)
  | PAbs => Some (lib_ABS (s32 x))
  | PMac => Some (lib_MAC z x y)
  | PMsu => Some (lib_MSU z x y)
  | PMul => Some (lib_MULS (s32 x) (s32 y))
  | PRor => lib_ROR x y
  | PClipi => let* b := clip_bound i in Some (lib_CLIP (s32 x) (s32 (- b)) (s32 (b - 1)))
  | PClipui => let* b := clip_bound i in Some (lib_CLIPU (s32 x) (s32 (b - 1)))
  | PClip => Some (lib_CLIP (s32 x) (s32 (- y - 1)) (s32 y))
  | PClipu => Some (lib_CLIPU (s32 x) (s32 y))
  end.

Lemma pulp_insns_value f op i st :
  (f, op) ∈ pulp_insns ->
  f i st = insn_result regs i (pulp_lib op i (REG_GET regs i 0 st) (REG_GET regs i 1 st) (REG_GET regs i 2 st)) st.
Proof.
  intros Hin. unfold pulp_insns in Hin.
  repeat (apply elem_of_cons in Hin as [Hin|Hin];
    [injection Hin as -> ->; cbn [pulp_lib]; first [reflexivity|unfold p_clipi_exec, p_clipui_exec; by destruct (clip_bound i)]|]).
  by apply elem_of_nil in Hin.
Qed.

Lemma clip_bound_spec i : 0 <= UIM_GET i 0 < 32 ->
  clip_bound i = Some (2 ^ Z.max (UIM_GET i 0 - 1) 0) /\ 0 < 2 ^ Z.max (UIM_GET i 0 - 1) 0 <= 2 ^ 30.
Proof.
  intros Hi. unfold clip_bound. rewrite (sw_small 32 (UIM_GET i 0)) by lia. rewrite shl_some by lia. cbn [mbind option_bind].
  rewrite Z.shiftl_1_l. set (e := Z.max _ 0).
  assert (0 < 2 ^ e <= 2 ^ 30).
  { split; [apply Z.pow_pos_nonneg; lia|apply Z.pow_le_mono_r; lia]. }
  rewrite sw_small by lia. done.
Qed.

Lemma clip_clamp low high v : low <= high -> lib_CLIP v low high = u32 (clamp low high v).
Proof. intros H. unfold lib_CLIP, clamp. f_equal. bcases. Qed.
Lemma clipu_clamp high v : 0 <= high -> lib_CLIPU v high = u32 (clamp 0 high v).
Proof. intros H. unfold lib_CLIPU, clamp. f_equal. bcases. Qed.

Lemma ror_value x y : 0 <= x < 2 ^ 32 -> 0 < y < 32 ->
  exists v, lib_ROR x y = Some v /\ u32 v = u32 (x / 2 ^ y + x * 2 ^ (32 - y)).
Proof.
  intros Hx Hy. unfold lib_ROR. rewrite (uw_small 32 (32 - y)) by lia. rewrite shr_some, shl_some by lia.
  cbn [mbind option_bind]. eexists. split; [done|].
  assert (Hd : Z.land (Z.shiftr x y) (u32 (Z.shiftl x (32 - y))) = 0).
  { apply Z.bits_inj'. intros j Hj. rewrite Z.bits_0, Z.land_spec, Z.shiftr_spec, uw_testbit, Z.shiftl_spec by lia.
    destruct (Z.ltb_spec j (32 - y)).
    - rewrite (Z.testbit_neg_r x (j - (32 - y))) by lia. by rewrite !andb_false_r.
    - rewrite <-(uw_small 32 x), uw_testbit, (proj2 (Z.ltb_ge _ _)) by lia. done. }
  rewrite <-Z.lxor_lor, <-Z.add_nocarry_lxor by done. rewrite Z.shiftr_div_pow2, Z.shiftl_mul_pow2 by lia.
  by rewrite uw_add_r by lia.
Qed.

Lemma pulp_lib_value op i x y z :
  0 <= x < 2 ^ 32 -> 0 <= y < 2 ^ 32 -> pulp_defined op (UIM_GET i 0) y ->
  exists v, pulp_lib op i x y z = Some v /\ u32 v = u32 (pulp_value op (UIM_GET i 0) x y z).
Proof.
  intros Hx Hy Hd.
  assert (Hsx : - 2 ^ 31 <= s32 x < 2 ^ 31) by (apply (sw_range 32); lia).
  assert (Hsy : - 2 ^ 31 <= s32 y < 2 ^ 31) by (apply (sw_range 32); lia).
  destruct op; cbn [pulp_lib pulp_value pulp_defined] in *.
  all: try (eexists; split; [done|]; try done).
  all: try (unfold lib_MINS, lib_MINU, lib_MAXS, lib_MAXU; f_equal; bcases; fail).
  - unfold lib_AVGU. by rewrite Z.shiftr_div_pow2 by lia.
  - do 2 f_equal. apply eq_true_iff_eq. by rewrite Z.leb_le, bool_decide_eq_true.
  - do 2 f_equal. apply eq_true_iff_eq. by rewrite Z.leb_le, bool_decide_eq_true.
  - rewrite signed_value_spec by lia. by rewrite uw_idemp by lia.
  - unfold iss_get_field. change (Z.shiftl 1 16 - 1) with (Z.ones 16). by rewrite Z.shiftr_0_r, uw_land by lia.
  - rewrite signed_value_spec by lia. by rewrite uw_idemp by lia.
  - unfold iss_get_field. change (Z.shiftl 1 8 - 1) with (Z.ones 8). by rewrite Z.shiftr_0_r, uw_land by lia.
  - unfold lib_ABS. destruct (Z.geb_spec (s32 x) 0); [f_equal; lia|]. rewrite uw_sw by lia. f_equal. lia.
  - unfold lib_MAC. by rewrite uw_idemp by lia.
  - unfold lib_MSU. by rewrite uw_idemp by lia.
  - unfold lib_MULS. apply eqm_intro. by rewrite eqm_uw, !eqm_sw by lia.
  - apply ror_value; done.
  - destruct (clip_bound_spec i Hd) as [-> Hb]. cbn [mbind option_bind]. eexists. split; [done|].
    set (b := 2 ^ Z.max _ _) in *. rewrite (sw_small 32 (- b)), (sw_small 32 (b - 1)), clip_clamp by lia. by rewrite uw_idemp by lia.
  - destruct (clip_bound_spec i Hd) as [-> Hb]. cbn [mbind option_bind]. eexists. split; [done|].
    set (b := 2 ^ Z.max _ _) in *. rewrite (sw_small 32 (b - 1)), clipu_clamp by lia. by rewrite uw_idemp by lia.
  - replace (s32 (- y - 1)) with (- s32 y - 1).
    + rewrite clip_clamp by lia. by rewrite uw_idemp by lia.
    + rewrite <-(sw_small 32 (- s32 y - 1)) by lia. apply uw_eq_sw, eqm_intro. by rewrite eqm_sw by lia.
  - rewrite clipu_clamp by lia. by rewrite uw_idemp by lia.
Qed.

(** The scalar PULP instructions compute what the instruction set defines: averages, signed and
    unsigned comparisons, minima and maxima, sign and zero extensions, absolute value, multiply-accumulate,
    rotation (by 1 to 31 bits, the code shifts by the whole word otherwise) and the clips to a power of
    two or to a register. *)
Theorem pulp_scalar_isa f op i st :
  (f, op) ∈ pulp_insns -> pulp_defined op (UIM_GET i 0) (REG_GET regs i 1 st) ->
  exists st', f i st = Some (i_next i, st') /\ cpu st' = cpu st /\ bus st' = bus st /\
    forall k, get_reg regs st' k =
      if negb (REG_OUT i 0 =? 0) && (k =? REG_OUT i 0)
      then u32 (pulp_value op (UIM_GET i 0) (REG_GET regs i 0 st) (REG_GET regs i 1 st) (REG_GET regs i 2 st))
      else get_reg regs st k.
Proof.
  intros Hin Hd. rewrite (pulp_insns_value f op i st Hin).
  destruct (pulp_lib_value op i (REG_GET regs i 0 st) (REG_GET regs i 1 st) (REG_GET regs i 2 st)) as (v & -> & E);
    try apply get_reg_range; [done|].
  eexists. split; [done|]. split; [done|]. split; [done|]. intros k.
  rewrite <-E. apply get_reg_set.
Qed.
End Scalar.

(** ** Half-word products, and sums with normalisation and rounding *)

(** The sum or product [x] as a signed or unsigned word, rounded or not, divided by a power of two. *)
Definition norm_value (sgn rnd : bool) (x n : Z) : Z :=
  let word := if sgn then sw 32 else uw 32 in
  (if rnd && (0 <? n) then word (x + 2 ^ (n - 1)) else word x) / 2 ^ n.

Section Dsp.
Context {S : Type} (regs : Z).
Implicit Types (i : iss_insn) (st : iss (S := S)).

(** The exact results: the product of the low or high halves of the operands, added to the accumulator or
    not, and the sum or the difference of two words. *)
Definition half_product (sgn : bool) (h : nat) i st : Z :=
  half sgn h (REG_GET regs i 0 st) * half sgn h (REG_GET regs i 1 st).
Definition half_mac (sgn : bool) (h : nat) i st : Z := REG_GET regs i 2 st + half_product sgn h i st.
Definition words_sum i st : Z := REG_GET regs i 0 st + REG_GET regs i 1 st.
Definition words_difference i st : Z := REG_GET regs i 0 st - REG_GET regs i 1 st.
(** The amounts of the shift: none, the immediate, or the low bits of the immediate or of a register. *)
Definition no_shift i st : Z := 0.
Definition imm_amount i st : Z := UIM_GET i 0.
Definition imm_amount5 i st : Z := UIM_GET i 0 mod 32.
Definition reg_amount5 i st : Z := REG_GET regs i 2 st mod 32.

(** Handler, signed, rounded, exact result, shift. *)
Definition dsp_insns : list ((iss_insn -> iss (S := S) -> option (Z * iss (S := S))) * bool * bool *
    (iss_insn -> iss (S := S) -> Z) * (iss_insn -> iss (S := S) -> Z)) :=
  [(p_muls_exec regs, true, false, half_product true 0, no_shift);
   (p_mulhhs_exec regs, true, false, half_product true 1, no_shift);
   (p_mulsN_exec regs, true, false, half_product true 0, imm_amount);
   (p_mulhhsN_exec regs, true, false, half_product true 1, imm_amount);
   (p_mulsNR_exec regs, true, true, half_product true 0, imm_amount);
   (p_mulhhsNR_exec regs, true, true, half_product true 1, imm_amount);
   (p_mulu_exec regs, false, false, half_product false 0, no_shift);
   (p_mulhhu_exec regs, false, false, half_product false 1, no_shift);
   (p_muluN_exec regs, false, false, half_product false 0, imm_amount);
   (p_mulhhuN_exec regs, false, false, half_product false 1, imm_amount);
   (p_muluNR_exec regs, false, true, half_product false 0, imm_amount);
   (p_mulhhuNR_exec regs, false, true, half_product false 1, imm_amount);
   (p_macs_exec regs, true, false, half_mac true 0, no_shift);
   (p_machhs_exec regs, true, false, half_mac true 1, no_shift);
   (p_macsN_exec regs, true, false, half_mac true 0, imm_amount);
   (p_machhsN_exec regs, true, false, half_mac true 1, imm_amount);
   (p_macsNR_exec regs, true, true, half_mac true 0, imm_amount);
   (p_machhsNR_exec regs, true, true, half_mac true 1, imm_amount);
   (p_macu_exec regs, false, false, half_mac false 0, no_shift);
   (p_machhu_exec regs, false, false, half_mac false 1, no_shift);
   (p_macuN_exec regs, false, false, half_mac false 0, imm_amount);
   (p_machhuN_exec regs, false, false, half_mac false 1, imm_amount);
   (p_macuNR_exec regs, false, true, half_mac false 0, imm_amount);
   (p_machhuNR_exec regs, false, true, half_mac false 1, imm_amount);
   (p_addNi_exec regs, true, false, words_sum, imm_amount5);
   (p_adduNi_exec regs, false, false, words_sum, imm_amount5);
   (p_addRNi_exec regs, true, true, words_sum, imm_amount5);
   (p_adduRNi_exec regs, false, true, words_sum, imm_amount5);
   (p_subNi_exec regs, true, false, words_difference, imm_amount5);
   (p_subuNi_exec regs, false, false, words_difference, imm_amount5);
   (p_subRNi_exec regs, true, true, words_difference, imm_amount5);
   (p_subuRNi_exec regs, false, true, words_difference, imm_amount5);
   (p_addN_exec regs, true, false, words_sum, reg_amount5);
   (p_adduN_exec regs, false, false, words_sum, reg_amount5);
   (p_addRN_exec regs, true, true, words_sum, reg_amount5);
   (p_adduRN_exec regs, false, true, words_sum, reg_amount5);
   (p_subN_exec regs, true, false, words_difference, reg_amount5);
   (p_subuN_exec regs, false, false, words_difference, reg_amount5);
   (p_subRN_exec regs, true, true, words_difference, reg_amount5);
   (p_subuRN_exec regs, false, true, words_difference, reg_amount5)].

(** The value of an operation of the library, up to the width of a register. *)
Definition gives (r : option Z) (v : Z) : Prop := exists x, r = Some x /\ u32 x = u32 v.

Lemma gives_word (r : option Z) v : gives r v -> gives (let* x := r in Some (u32 x)) v.
Proof. intros (x & -> & E). eexists. split; [done|]. by rewrite uw_idemp. Qed.

Lemma gives_plain (sgn : bool) x n : 0 <= n < 32 -> gives (shr 32 (if sgn then s32 x else u32 x) n) (norm_value sgn false x n).
Proof.
  intros Hn. rewrite shr_some by lia. eexists. split; [done|]. unfold norm_value. cbn [andb]. rewrite Z.shiftr_div_pow2 by lia.
  by destruct sgn.
Qed.

Lemma gives_none (sgn : bool) v x : u32 v = u32 x -> gives (Some v) (norm_value sgn false x 0).
Proof.
  intros E. eexists. split; [done|]. unfold norm_value. cbn [andb]. rewrite Z.div_1_r, E. destruct sgn.
  - by rewrite uw_sw by lia.
  - by rewrite uw_idemp by lia.
Qed.

(** Adding half a unit, to the exact result or to the wrapped one. *)
Lemma gives_rounded (sgn : bool) x y z n :
  0 <= n < 32 -> u32 y = u32 (x + 2 ^ (n - 1)) \/ n = 0 -> u32 z = u32 x ->
  gives (if 0 <? n then shr 32 (if sgn then s32 y else u32 y) n else Some z) (norm_value sgn true x n).
Proof.
  intros Hn Hy Hz. unfold norm_value. cbn [andb]. destruct (Z.ltb_spec 0 n) as [Hp|Hp].
  - destruct Hy as [Hy|]; [|lia]. rewrite shr_some by lia. eexists. split; [done|]. rewrite Z.shiftr_div_pow2 by lia.
    destruct sgn; [|by rewrite Hy]. by rewrite (uw_eq_sw 32 _ _ Hy).
  - replace n with 0 by lia. eexists. split; [done|]. rewrite Z.div_1_r, Hz. destruct sgn.
    + by rewrite uw_sw by lia.
    + by rewrite uw_idemp by lia.
Qed.

Lemma half_unit n : 0 < n < 32 -> shl 32 1 (n - 1) = Some (2 ^ (n - 1)) /\ s32 (2 ^ (n - 1)) = 2 ^ (n - 1).
Proof.
  intros Hn. rewrite shl_some, Z.shiftl_1_l by lia. split; [done|].
  assert (0 < 2 ^ (n - 1) <= 2 ^ 30) by (split; [apply Z.pow_pos_nonneg; lia|apply Z.pow_le_mono_r; lia]). apply sw_small; lia.
Qed.

Lemma gives_norm_s x n : 0 <= n < 32 -> gives (norm_s (s32 x) n) (norm_value true true x n).
Proof.
  intros Hn. pose proof (gives_rounded true x (s32 x + 2 ^ (n - 1)) (s32 x) n Hn) as H. unfold norm_s.
  destruct (Z.ltb_spec 0 n) as [Hp|Hp]; [destruct (half_unit n) as [-> E]; [lia|]; cbn [mbind option_bind]; rewrite E|]; apply H.
  all: try (rewrite uw_sw; [done|lia]). all: try (by right; lia).
  left. apply eqm_intro. by rewrite eqm_sw by lia.
Qed.
Lemma gives_norm_u x n : 0 <= n < 32 -> gives (norm_u (u32 x) n) (norm_value false true x n).
Proof.
  intros Hn. pose proof (gives_rounded false x (u32 x + 2 ^ (n - 1)) (u32 x) n Hn) as H. unfold norm_u.
  destruct (Z.ltb_spec 0 n) as [Hp|Hp]; [destruct (half_unit n) as [-> E]; [lia|]; cbn [mbind option_bind]; rewrite E|]; apply H.
  all: try (rewrite uw_idemp; [done|lia]). all: try (by right; lia).
  left. apply eqm_intro. by rewrite eqm_uw by lia.
Qed.
Lemma gives_add_s x n : 0 <= n < 32 ->
  gives (if 0 <? n then let* h := shl 32 1 (n - 1) in let* r := shr 32 (s32 (x + h)) n in Some (u32 r) else Some (u32 (s32 x)))
    (norm_value true true x n).
Proof.
  intros Hn. pose proof (gives_rounded true x (x + 2 ^ (n - 1)) (u32 (s32 x)) n Hn) as H.
  destruct (Z.ltb_spec 0 n) as [Hp|Hp]; [destruct (half_unit n) as [-> _]; [lia|]; cbn [mbind option_bind]; apply gives_word|];
    apply H; try (by left); try (rewrite uw_idemp, uw_sw by lia; done).
Qed.
Lemma gives_add_u x n : 0 <= n < 32 ->
  gives (if 0 <? n then let* h := shl 32 1 (n - 1) in shr 32 (u32 (x + h)) n else Some (u32 x)) (norm_value false true x n).
Proof.
  intros Hn. pose proof (gives_rounded false x (x + 2 ^ (n - 1)) (u32 x) n Hn) as H.
  destruct (Z.ltb_spec 0 n) as [Hp|Hp]; [destruct (half_unit n) as [-> _]; [lia|]; cbn [mbind option_bind]|];
    apply H; try (by left); try (rewrite uw_idemp by lia; done).
Qed.

Lemma dsp_insns_value f sgn rnd x n i st :
  (f, sgn, rnd, x, n) ∈ dsp_insns -> 0 <= UIM_GET i 0 < 32 ->
  exists r, f i st = insn_result regs i r st /\ gives r (norm_value sgn rnd (x i st) (n i st)).
Proof.
  intros Hin Hi. unfold dsp_insns in Hin.
  repeat (apply elem_of_cons in Hin as [Hin|Hin]; [injection Hin as -> -> -> -> ->; eexists; split; [reflexivity|]|]);
    [..|by apply elem_of_nil in Hin].
  all: unfold half_mac, half_product, words_sum, words_difference, no_shift, imm_amount, imm_amount5, reg_amount5;
    rewrite ?half_SL, ?half_SH, ?half_ZL, ?half_ZH.
  all: try (apply gives_none; apply uw_idemp; lia).
  all: unfold lib_MUL_SL_SL_NR, lib_MUL_SH_SH_NR, lib_MUL_ZL_ZL_NR, lib_MUL_ZH_ZH_NR, lib_MAC_SL_SL_NR, lib_MAC_SH_SH_NR,
    lib_MAC_ZL_ZL_NR, lib_MAC_ZH_ZH_NR, lib_MUL_SL_SL_NR_R, lib_MUL_SH_SH_NR_R, lib_MUL_ZL_ZL_NR_R, lib_MUL_ZH_ZH_NR_R,
    lib_MAC_SL_SL_NR_R, lib_MAC_SH_SH_NR_R, lib_MAC_ZL_ZL_NR_R, lib_MAC_ZH_ZH_NR_R, lib_ADD_NR, lib_ADD_NRU, lib_ADD_NR_R,
    lib_ADD_NR_RU, lib_SUB_NR, lib_SUB_NRU, lib_SUB_NR_R, lib_SUB_NR_RU.
  all: change 0x1f with (Z.ones 5); rewrite ?uw_land by lia; fold (uw 5 (UIM_GET i 0)).
  all: first [apply gives_word; first [apply (gives_plain true)|apply (gives_plain false)|apply gives_norm_s|apply gives_norm_u]
             |apply (gives_plain false)|apply gives_add_s|apply gives_add_u].
  all: first [exact Hi|apply (uw_range 5); lia].
Qed.

(** The forty multiplications, additions and subtractions with normalisation: the product of the
    signed or unsigned, low or high halves of the operands, with or without an accumulator, or the sum or
    difference of words, wrapped to a word, is rounded if the instruction asks for it by adding half a
    unit, and divided by the power of two. *)
Theorem pulp_dsp_isa f sgn rnd x n i st :
  (f, sgn, rnd, x, n) ∈ dsp_insns -> 0 <= UIM_GET i 0 < 32 ->
  exists st', f i st = Some (i_next i, st') /\ cpu st' = cpu st /\ bus st' = bus st /\
    forall k, get_reg regs st' k =
      if negb (REG_OUT i 0 =? 0) && (k =? REG_OUT i 0) then u32 (norm_value sgn rnd (x i st) (n i st)) else get_reg regs st k.
Proof.
  intros Hin Hi. destruct (dsp_insns_value f sgn rnd x n i st Hin Hi) as (r & -> & v & -> & E).
  eexists. split; [done|]. split; [done|]. split; [done|]. intros k. rewrite <-E. apply get_reg_set.
Qed.
End Dsp.

(** ** Concrete instructions *)

Lemma pulp_loads_isa_witness :
  exists st2, complete 1 (memory_req 0) (LW_POSTINC_exec_fast 5000 4000 1 (memory_req 0) (demo_insn 7 0 5 4) demo_iss) = Some st2 /\
    get_reg 5000 st2 7 = 6 /\ get_reg 5000 st2 5 = 0x57575757.
Proof.
  destruct (pulp_loads_isa 5000 4000 1 (memory_req 0) mem_rd mem_ok mem_ok_part ltac:(lia)
    (LW_POSTINC_exec_fast 5000 4000 1 (memory_req 0)) 4 true POSTINC (demo_insn 7 0 5 4) demo_iss) as (st2 & E & _ & _ & _ & H).
  - by apply (list_elem_of_lookup_2 _ 17).
  - reflexivity.
  - apply demo_access; vm_compute; done.
  - split; vm_compute; done.
  - split; vm_compute; done.
  - right. vm_compute. done.
  - exists st2. split; [exact E|]. rewrite !H by lia. split; vm_compute; reflexivity.
Defined.

Lemma pulp_stores_isa_witness :
  exists st2, complete 1 (memory_req 0) (SW_POSTINC_exec_fast 5000 1 (memory_req 0) (demo_insn 7 5 0 4) demo_iss) = Some st2 /\
    u8 (mem_rd (bus st2) 4) = 0xBB /\ get_reg 5000 st2 7 = 6.
Proof.
  destruct (pulp_stores_isa 5000 4000 1 (memory_req 0) mem_rd mem_ok mem_ok_part ltac:(lia)
    (SW_POSTINC_exec_fast 5000 1 (memory_req 0)) 4 POSTINC (demo_insn 7 5 0 4) demo_iss) as (st2 & E & _ & _ & H & Hk).
  - by apply (list_elem_of_lookup_2 _ 11).
  - reflexivity.
  - apply demo_access; vm_compute; done.
  - split; vm_compute; done.
  - split; vm_compute; done.
  - right. right. vm_compute. done.
  - exists st2. split; [exact E|]. rewrite H, Hk by lia. split; vm_compute; reflexivity.
Defined.

(** lp.setupi of loop 0 with three runs of two instructions: x5 <- x5 + x7, then x6 <- x6 + 1. *)
Definition demo_setup : iss_insn := Insn 64 4 [] [] [0; 3; 4] [] 68 0.
Definition demo_add : iss_insn := Insn 68 4 [5; 7] [5] [] [] 72 0.
Definition demo_addi : iss_insn := Insn 72 4 [6] [6] [] [1] 76 0.
Definition demo_code (pc : Z) : option (iss_insn * hw_handler (S := memory)) :=
  if pc =? 64 then Some (demo_setup, lp_setupi_exec)
  else if pc =? 68 then Some (demo_add, lift (add_exec 5000))
  else if pc =? 72 then Some (demo_addi, lift (addi_exec 5000)) else None.
Definition demo_hwloops : hwloops := Hwloops (replicate 7 0) [0; 0] [0; 0] 0 ∅ None false false.

Lemma hwloop_iterates_witness :
  exists st' hw', run_insns demo_code 7 64 (demo_iss, demo_hwloops) = Some (76, (st', hw')) /\
    get_reg 5000 st' 5 = 0xAABBCCE3 /\ get_reg 5000 st' 6 = u32 (-4) /\ hwloop_reg 2 hw' = 0.
Proof.
  destruct (exec_times 3 [(demo_add, add_exec 5000); (demo_addi, addi_exec 5000)] demo_iss) as [st'|] eqn:E; [|done].
  destruct (hwloop_iterates 5000 demo_code true demo_setup [(demo_add, add_exec 5000); (demo_addi, addi_exec 5000)] 76
    demo_iss st' demo_hwloops) as (hw' & H & Hc & _).
  - reflexivity.
  - reflexivity.
  - reflexivity.
  - vm_compute. lia.
  - vm_compute. done.
  - reflexivity.
  - reflexivity.
  - reflexivity.
  - set_solver.
  - apply straight_insn; [done|done|done| |apply (straight_end demo_code 72 demo_addi); [done..|]].
    all: intros st next st1 [= <- _]; done.
  - left. reflexivity.
  - exact E.
  - exists st', hw'. split; [exact H|]. split; [|split; [|exact Hc]].
    all: vm_compute in E; injection E as <-; vm_compute; done.
Defined.

(** p.inserti of the 8 low bits of x6 at bit 4 of x5. *)
Lemma pulp_bit_fields_witness :
  exists v, p_inserti_exec 5000 (Insn 64 4 [6; 5] [5] [7; 4] [] 68 0) demo_iss = Some (68, set_reg 5000 5 v demo_iss) /\
    Z.testbit v 3 = true /\ Z.testbit v 5 = false /\ Z.testbit v 11 = true /\ Z.testbit v 12 = false.
Proof.
  destruct (pulp_bit_fields 5000 (p_inserti_exec 5000) FInsert None (Insn 64 4 [6; 5] [5] [7; 4] [] 68 0) demo_iss)
    as (v & E & H).
  - by apply (list_elem_of_lookup_2 _ 4).
  - intros _. vm_compute. done.
  - done.
  - exists v. split; [exact E|]. rewrite !H by lia. do 3 (split; [vm_compute; reflexivity|]). vm_compute. reflexivity.
Defined.

(** p.clipi of x6 to 3 bits. *)
Lemma pulp_scalar_isa_witness :
  exists st', p_clipi_exec 5000 (Insn 64 4 [6] [5] [3] [] 68 0) demo_iss = Some (68, st') /\ get_reg 5000 st' 5 = u32 (-4).
Proof.
  destruct (pulp_scalar_isa 5000 (p_clipi_exec 5000) PClipi (Insn 64 4 [6] [5] [3] [] 68 0) demo_iss)
    as (st' & E & _ & _ & H).
  - by apply (list_elem_of_lookup_2 _ 16).
  - vm_compute. done.
  - exists st'. split; [exact E|]. rewrite H. vm_compute. reflexivity.
Defined.

(** p.mulsNR of x6 and x7 by 2 bits: -14 / 4 rounded. *)
Lemma pulp_dsp_isa_witness :
  exists st', p_mulsNR_exec 5000 (Insn 64 4 [6; 7] [5] [2] [] 68 0) demo_iss = Some (68, st') /\ get_reg 5000 st' 5 = u32 (-3).
Proof.
  destruct (pulp_dsp_isa 5000 (p_mulsNR_exec 5000) true true (half_product 5000 true 0) imm_amount
    (Insn 64 4 [6; 7] [5] [2] [] 68 0) demo_iss) as (st' & E & _ & _ & H).
  - by apply (list_elem_of_lookup_2 _ 4).
  - vm_compute. done.
  - exists st'. split; [exact E|]. rewrite H. vm_compute. reflexivity.
Defined.
