(* ===== verification/Core.v ===== *)
(** * The core as a component: its state machine, interrupts and exceptions
    (models/cpu/iss/vp/src/iss_wrapper.cpp, models/cpu/iss/include/irq.hpp, exceptions.hpp, exec.hpp, priv.hpp)

    An active core has one event in its clock engine: the execution of an instruction, by the fast or the
    full handlers, or the second half of a misaligned access.  Stalls, interrupts, wfi and the debugger stop
    it and wake it through check_state.  The handlers are those of Rv32.v (or of the other instruction
    files) and the ones of interrupts here; the answer of the memory to the fetch of the next instruction,
    which Fetch.v models, is an input.  Traces, power and the IPC statistics are left out. *)

From S2P Require Import Prelude Io Memory Rv32 PulpV2.

(** ** State *)

(** The events of the core in its clock engine. *)
Inductive event := instr_event | check_all_event | misaligned_event | irq_sync_event.
#[export] Instance event_eq_dec : EqDecision event.
Proof. solve_decision. Defined.

(** The CSRs that no instruction of the other files uses: the union of fcsr is [fcsr_raw], of which fflags are
    the low five bits, and frm is a bit field after it; [ext_counters] are the external counters, as their
    devices hold them, for the ports that are bound. *)
Record csrs := Csrs {
  c_status : Z;
  c_mtvec : Z;
  c_mscratch : Z;
  c_scratch0 : Z;
  c_scratch1 : Z;
  fcsr_raw : Z;
  fcsr_frm : Z;
  c_fprec : Z;
  c_misa : Z;
  c_mhartid : Z;
  ext_counters : list (option Z);
}.

(** The control part of the core: cpu.state, cpu.irq, cpu.csr and cpu.pulpv2. Instructions are named by their
    addresses, None is a NULL pointer; [irq_acks] are the acknowledges sent, the last one first. *)
Record ctl := Ctl {
  prev_insn : option Z;
  do_fetch : bool;
  debug_mode : bool;
  fetch_cycles : Z;
  csr_epc : Z;
  csr_depc : Z;
  csr_mcause : Z;
  csr_dcsr : Z;
  c_pulp : hwloops;
  irq_enable : bool;
  saved_irq_enable : bool;
  debug_saved_irq_enable : bool;
  req_irq : Z;
  req_debug : bool;
  debug_handler : Z;
  vectors : list (option Z);
  vector_base : Z;
  irq_acks : list Z;
  c_csr : csrs;
}.

Definition set_c_status (x : Z) (s : csrs) : csrs :=
  Csrs x (c_mtvec s) (c_mscratch s) (c_scratch0 s) (c_scratch1 s) (fcsr_raw s) (fcsr_frm s) (c_fprec s) (c_misa s)
    (c_mhartid s) (ext_counters s).
Definition set_c_mtvec (x : Z) (s : csrs) : csrs :=
  Csrs (c_status s) x (c_mscratch s) (c_scratch0 s) (c_scratch1 s) (fcsr_raw s) (fcsr_frm s) (c_fprec s) (c_misa s)
    (c_mhartid s) (ext_counters s).
Definition set_c_mscratch (x : Z) (s : csrs) : csrs :=
  Csrs (c_status s) (c_mtvec s) x (c_scratch0 s) (c_scratch1 s) (fcsr_raw s) (fcsr_frm s) (c_fprec s) (c_misa s)
    (c_mhartid s) (ext_counters s).
Definition set_c_scratch0 (x : Z) (s : csrs) : csrs :=
  Csrs (c_status s) (c_mtvec s) (c_mscratch s) x (c_scratch1 s) (fcsr_raw s) (fcsr_frm s) (c_fprec s) (c_misa s)
    (c_mhartid s) (ext_counters s).
Definition set_c_scratch1 (x : Z) (s : csrs) : csrs :=
  Csrs (c_status s) (c_mtvec s) (c_mscratch s) (c_scratch0 s) x (fcsr_raw s) (fcsr_frm s) (c_fprec s) (c_misa s)
    (c_mhartid s) (ext_counters s).
Definition set_fcsr_raw (x : Z) (s : csrs) : csrs :=
  Csrs (c_status s) (c_mtvec s) (c_mscratch s) (c_scratch0 s) (c_scratch1 s) x (fcsr_frm s) (c_fprec s) (c_misa s)
    (c_mhartid s) (ext_counters s).
Definition set_fcsr_frm (x : Z) (s : csrs) : csrs :=
  Csrs (c_status s) (c_mtvec s) (c_mscratch s) (c_scratch0 s) (c_scratch1 s) (fcsr_raw s) x (c_fprec s) (c_misa s)
    (c_mhartid s) (ext_counters s).
Definition set_c_fprec (x : Z) (s : csrs) : csrs :=
  Csrs (c_status s) (c_mtvec s) (c_mscratch s) (c_scratch0 s) (c_scratch1 s) (fcsr_raw s) (fcsr_frm s) x (c_misa s)
    (c_mhartid s) (ext_counters s).
Definition set_ext_counters (x : list (option Z)) (s : csrs) : csrs :=
  Csrs (c_status s) (c_mtvec s) (c_mscratch s) (c_scratch0 s) (c_scratch1 s) (fcsr_raw s) (fcsr_frm s) (c_fprec s)
    (c_misa s) (c_mhartid s) x.

Definition set_prev_insn (x : option Z) (w : ctl) : ctl :=
  Ctl x (do_fetch w) (debug_mode w) (fetch_cycles w) (csr_epc w) (csr_depc w) (csr_mcause w) (csr_dcsr w) (c_pulp w)
    (irq_enable w) (saved_irq_enable w) (debug_saved_irq_enable w) (req_irq w) (req_debug w) (debug_handler w)
    (vectors w) (vector_base w) (irq_acks w) (c_csr w).
Definition set_do_fetch (x : bool) (w : ctl) : ctl :=
  Ctl (prev_insn w) x (debug_mode w) (fetch_cycles w) (csr_epc w) (csr_depc w) (csr_mcause w) (csr_dcsr w) (c_pulp
    w) (irq_enable w) (saved_irq_enable w) (debug_saved_irq_enable w) (req_irq w) (req_debug w) (debug_handler w)
    (vectors w) (vector_base w) (irq_acks w) (c_csr w).
Definition set_debug_mode (x : bool) (w : ctl) : ctl :=
  Ctl (prev_insn w) (do_fetch w) x (fetch_cycles w) (csr_epc w) (csr_depc w) (csr_mcause w) (csr_dcsr w) (c_pulp w)
    (irq_enable w) (saved_irq_enable w) (debug_saved_irq_enable w) (req_irq w) (req_debug w) (debug_handler w)
    (vectors w) (vector_base w) (irq_acks w) (c_csr w).
Definition set_fetch_cycles (x : Z) (w : ctl) : ctl :=
  Ctl (prev_insn w) (do_fetch w) (debug_mode w) x (csr_epc w) (csr_depc w) (csr_mcause w) (csr_dcsr w) (c_pulp w)
    (irq_enable w) (saved_irq_enable w) (debug_saved_irq_enable w) (req_irq w) (req_debug w) (debug_handler w)
    (vectors w) (vector_base w) (irq_acks w) (c_csr w).
Definition set_csr_epc (x : Z) (w : ctl) : ctl :=
  Ctl (prev_insn w) (do_fetch w) (debug_mode w) (fetch_cycles w) x (csr_depc w) (csr_mcause w) (csr_dcsr w) (c_pulp
    w) (irq_enable w) (saved_irq_enable w) (debug_saved_irq_enable w) (req_irq w) (req_debug w) (debug_handler w)
    (vectors w) (vector_base w) (irq_acks w) (c_csr w).
Definition set_csr_depc (x : Z) (w : ctl) : ctl :=
  Ctl (prev_insn w) (do_fetch w) (debug_mode w) (fetch_cycles w) (csr_epc w) x (csr_mcause w) (csr_dcsr w) (c_pulp
    w) (irq_enable w) (saved_irq_enable w) (debug_saved_irq_enable w) (req_irq w) (req_debug w) (debug_handler w)
    (vectors w) (vector_base w) (irq_acks w) (c_csr w).
Definition set_csr_mcause (x : Z) (w : ctl) : ctl :=
  Ctl (prev_insn w) (do_fetch w) (debug_mode w) (fetch_cycles w) (csr_epc w) (csr_depc w) x (csr_dcsr w) (c_pulp w)
    (irq_enable w) (saved_irq_enable w) (debug_saved_irq_enable w) (req_irq w) (req_debug w) (debug_handler w)
    (vectors w) (vector_base w) (irq_acks w) (c_csr w).
Definition set_csr_dcsr (x : Z) (w : ctl) : ctl :=
  Ctl (prev_insn w) (do_fetch w) (debug_mode w) (fetch_cycles w) (csr_epc w) (csr_depc w) (csr_mcause w) x (c_pulp
    w) (irq_enable w) (saved_irq_enable w) (debug_saved_irq_enable w) (req_irq w) (req_debug w) (debug_handler w)
    (vectors w) (vector_base w) (irq_acks w) (c_csr w).
Definition set_c_pulp (x : hwloops) (w : ctl) : ctl :=
  Ctl (prev_insn w) (do_fetch w) (debug_mode w) (fetch_cycles w) (csr_epc w) (csr_depc w) (csr_mcause w) (csr_dcsr
    w) x (irq_enable w) (saved_irq_enable w) (debug_saved_irq_enable w) (req_irq w) (req_debug w) (debug_handler w)
    (vectors w) (vector_base w) (irq_acks w) (c_csr w).
Definition set_irq_enable (x : bool) (w : ctl) : ctl :=
  Ctl (prev_insn w) (do_fetch w) (debug_mode w) (fetch_cycles w) (csr_epc w) (csr_depc w) (csr_mcause w) (csr_dcsr
    w) (c_pulp w) x (saved_irq_enable w) (debug_saved_irq_enable w) (req_irq w) (req_debug w) (debug_handler w)
    (vectors w) (vector_base w) (irq_acks w) (c_csr w).
Definition set_saved_irq_enable (x : bool) (w : ctl) : ctl :=
  Ctl (prev_insn w) (do_fetch w) (debug_mode w) (fetch_cycles w) (csr_epc w) (csr_depc w) (csr_mcause w) (csr_dcsr
    w) (c_pulp w) (irq_enable w) x (debug_saved_irq_enable w) (req_irq w) (req_debug w) (debug_handler w) (vectors
    w) (vector_base w) (irq_acks w) (c_csr w).
Definition set_debug_saved_irq_enable (x : bool) (w : ctl) : ctl :=
  Ctl (prev_insn w) (do_fetch w) (debug_mode w) (fetch_cycles w) (csr_epc w) (csr_depc w) (csr_mcause w) (csr_dcsr
    w) (c_pulp w) (irq_enable w) (saved_irq_enable w) x (req_irq w) (req_debug w) (debug_handler w) (vectors w)
    (vector_base w) (irq_acks w) (c_csr w).
Definition set_req_irq (x : Z) (w : ctl) : ctl :=
  Ctl (prev_insn w) (do_fetch w) (debug_mode w) (fetch_cycles w) (csr_epc w) (csr_depc w) (csr_mcause w) (csr_dcsr
    w) (c_pulp w) (irq_enable w) (saved_irq_enable w) (debug_saved_irq_enable w) x (req_debug w) (debug_handler w)
    (vectors w) (vector_base w) (irq_acks w) (c_csr w).
Definition set_req_debug (x : bool) (w : ctl) : ctl :=
  Ctl (prev_insn w) (do_fetch w) (debug_mode w) (fetch_cycles w) (csr_epc w) (csr_depc w) (csr_mcause w) (csr_dcsr
    w) (c_pulp w) (irq_enable w) (saved_irq_enable w) (debug_saved_irq_enable w) (req_irq w) x (debug_handler w)
    (vectors w) (vector_base w) (irq_acks w) (c_csr w).
Definition set_debug_handler (x : Z) (w : ctl) : ctl :=
  Ctl (prev_insn w) (do_fetch w) (debug_mode w) (fetch_cycles w) (csr_epc w) (csr_depc w) (csr_mcause w) (csr_dcsr
    w) (c_pulp w) (irq_enable w) (saved_irq_enable w) (debug_saved_irq_enable w) (req_irq w) (req_debug w) x
    (vectors w) (vector_base w) (irq_acks w) (c_csr w).
Definition set_vectors (x : list (option Z)) (w : ctl) : ctl :=
  Ctl (prev_insn w) (do_fetch w) (debug_mode w) (fetch_cycles w) (csr_epc w) (csr_depc w) (csr_mcause w) (csr_dcsr
    w) (c_pulp w) (irq_enable w) (saved_irq_enable w) (debug_saved_irq_enable w) (req_irq w) (req_debug w)
    (debug_handler w) x (vector_base w) (irq_acks w) (c_csr w).
Definition set_vector_base (x : Z) (w : ctl) : ctl :=
  Ctl (prev_insn w) (do_fetch w) (debug_mode w) (fetch_cycles w) (csr_epc w) (csr_depc w) (csr_mcause w) (csr_dcsr
    w) (c_pulp w) (irq_enable w) (saved_irq_enable w) (debug_saved_irq_enable w) (req_irq w) (req_debug w)
    (debug_handler w) (vectors w) x (irq_acks w) (c_csr w).
Definition set_irq_acks (x : list Z) (w : ctl) : ctl :=
  Ctl (prev_insn w) (do_fetch w) (debug_mode w) (fetch_cycles w) (csr_epc w) (csr_depc w) (csr_mcause w) (csr_dcsr
    w) (c_pulp w) (irq_enable w) (saved_irq_enable w) (debug_saved_irq_enable w) (req_irq w) (req_debug w)
    (debug_handler w) (vectors w) (vector_base w) x (c_csr w).
Definition set_c_csr (x : csrs) (w : ctl) : ctl :=
  Ctl (prev_insn w) (do_fetch w) (debug_mode w) (fetch_cycles w) (csr_epc w) (csr_depc w) (csr_mcause w) (csr_dcsr
    w) (c_pulp w) (irq_enable w) (saved_irq_enable w) (debug_saved_irq_enable w) (req_irq w) (req_debug w)
    (debug_handler w) (vectors w) (vector_base w) (irq_acks w) x.

(** The pending p.elw, in the state of PulpV2.v. *)
Definition c_elw_insn (c : ctl) : option Z := elw_insn (c_pulp c).
Definition c_elw_stalled (c : ctl) : bool := elw_stalled (c_pulp c).
Definition c_elw_interrupted (c : ctl) : bool := elw_interrupted (c_pulp c).
Definition set_c_elw_insn (x : option Z) (c : ctl) : ctl :=
  set_c_pulp (set_elw x (c_elw_stalled c) (c_elw_interrupted c) (c_pulp c)) c.
Definition set_c_elw_stalled (x : bool) (c : ctl) : ctl :=
  set_c_pulp (set_elw (c_elw_insn c) x (c_elw_interrupted c) (c_pulp c)) c.
Definition set_c_elw_interrupted (x : bool) (c : ctl) : ctl :=
  set_c_pulp (set_elw (c_elw_insn c) (c_elw_stalled c) x (c_pulp c)) c.

Definition set_current_insn (x : Z) (w : core) : core :=
  Core (insn_cycles w) (pcmr w) (pcer w) (pccr w) (stack_conf w) (stack_start w) (stack_end w) (stalled w)
    (stall_callback w) (stall_reg w) (stall_size w) x (stall_insn w) (is_active w) (misaligned_access w)
    (misaligned_size w) (misaligned_data w) (misaligned_addr w) (misaligned_is_write w) (misaligned_latency w).
Definition set_is_active (x : bool) (w : core) : core :=
  Core (insn_cycles w) (pcmr w) (pcer w) (pccr w) (stack_conf w) (stack_start w) (stack_end w) (stalled w)
    (stall_callback w) (stall_reg w) (stall_size w) (current_insn w) (stall_insn w) x (misaligned_access w)
    (misaligned_size w) (misaligned_data w) (misaligned_addr w) (misaligned_is_write w) (misaligned_latency w).

Section Wrapper.
Context {S : Type}.

(** The registers of the component: [events] are the enqueued events with their delays, [clock_retain] counts
    the holds of the clock. *)
Record wrapper := Wrapper {
  halted : bool;
  fetch_enable : bool;
  do_step : bool;
  step_mode : bool;
  wfi : bool;
  irq_req : Z;
  irq_req_value : Z;
  current_event : event;
  events : list (event * Z);
  wakeup_latency : Z;
  halt_cause : Z;
  hit_reg : Z;
  ppc : Z;
  npc : Z;
  clock_retain : Z;
  w_ctl : ctl;
  w_iss : iss (S := S);
}.

Definition set_halted (x : bool) (w : wrapper) : wrapper :=
  Wrapper x (fetch_enable w) (do_step w) (step_mode w) (wfi w) (irq_req w) (irq_req_value w) (current_event w)
    (events w) (wakeup_latency w) (halt_cause w) (hit_reg w) (ppc w) (npc w) (clock_retain w) (w_ctl w) (w_iss
    w).
Definition set_fetch_enable (x : bool) (w : wrapper) : wrapper :=
  Wrapper (halted w) x (do_step w) (step_mode w) (wfi w) (irq_req w) (irq_req_value w) (current_event w) (events
    w) (wakeup_latency w) (halt_cause w) (hit_reg w) (ppc w) (npc w) (clock_retain w) (w_ctl w) (w_iss w).
Definition set_do_step (x : bool) (w : wrapper) : wrapper :=
  Wrapper (halted w) (fetch_enable w) x (step_mode w) (wfi w) (irq_req w) (irq_req_value w) (current_event w)
    (events w) (wakeup_latency w) (halt_cause w) (hit_reg w) (ppc w) (npc w) (clock_retain w) (w_ctl w) (w_iss
    w).
Definition set_step_mode (x : bool) (w : wrapper) : wrapper :=
  Wrapper (halted w) (fetch_enable w) (do_step w) x (wfi w) (irq_req w) (irq_req_value w) (current_event w)
    (events w) (wakeup_latency w) (halt_cause w) (hit_reg w) (ppc w) (npc w) (clock_retain w) (w_ctl w) (w_iss
    w).
Definition set_wfi (x : bool) (w : wrapper) : wrapper :=
  Wrapper (halted w) (fetch_enable w) (do_step w) (step_mode w) x (irq_req w) (irq_req_value w) (current_event
    w) (events w) (wakeup_latency w) (halt_cause w) (hit_reg w) (ppc w) (npc w) (clock_retain w) (w_ctl w)
    (w_iss w).
Definition set_irq_req (x : Z) (w : wrapper) : wrapper :=
  Wrapper (halted w) (fetch_enable w) (do_step w) (step_mode w) (wfi w) x (irq_req_value w) (current_event w)
    (events w) (wakeup_latency w) (halt_cause w) (hit_reg w) (ppc w) (npc w) (clock_retain w) (w_ctl w) (w_iss
    w).
Definition set_irq_req_value (x : Z) (w : wrapper) : wrapper :=
  Wrapper (halted w) (fetch_enable w) (do_step w) (step_mode w) (wfi w) (irq_req w) x (current_event w) (events
    w) (wakeup_latency w) (halt_cause w) (hit_reg w) (ppc w) (npc w) (clock_retain w) (w_ctl w) (w_iss w).
Definition set_current_event (x : event) (w : wrapper) : wrapper :=
  Wrapper (halted w) (fetch_enable w) (do_step w) (step_mode w) (wfi w) (irq_req w) (irq_req_value w) x (events
    w) (wakeup_latency w) (halt_cause w) (hit_reg w) (ppc w) (npc w) (clock_retain w) (w_ctl w) (w_iss w).
Definition set_events (x : list (event * Z)) (w : wrapper) : wrapper :=
  Wrapper (halted w) (fetch_enable w) (do_step w) (step_mode w) (wfi w) (irq_req w) (irq_req_value w)
    (current_event w) x (wakeup_latency w) (halt_cause w) (hit_reg w) (ppc w) (npc w) (clock_retain w) (w_ctl w)
    (w_iss w).
Definition set_wakeup_latency (x : Z) (w : wrapper) : wrapper :=
  Wrapper (halted w) (fetch_enable w) (do_step w) (step_mode w) (wfi w) (irq_req w) (irq_req_value w)
    (current_event w) (events w) x (halt_cause w) (hit_reg w) (ppc w) (npc w) (clock_retain w) (w_ctl w) (w_iss
    w).
Definition set_halt_cause (x : Z) (w : wrapper) : wrapper :=
  Wrapper (halted w) (fetch_enable w) (do_step w) (step_mode w) (wfi w) (irq_req w) (irq_req_value w)
    (current_event w) (events w) (wakeup_latency w) x (hit_reg w) (ppc w) (npc w) (clock_retain w) (w_ctl w)
    (w_iss w).
Definition set_hit_reg (x : Z) (w : wrapper) : wrapper :=
  Wrapper (halted w) (fetch_enable w) (do_step w) (step_mode w) (wfi w) (irq_req w) (irq_req_value w)
    (current_event w) (events w) (wakeup_latency w) (halt_cause w) x (ppc w) (npc w) (clock_retain w) (w_ctl w)
    (w_iss w).
Definition set_ppc (x : Z) (w : wrapper) : wrapper :=
  Wrapper (halted w) (fetch_enable w) (do_step w) (step_mode w) (wfi w) (irq_req w) (irq_req_value w)
    (current_event w) (events w) (wakeup_latency w) (halt_cause w) (hit_reg w) x (npc w) (clock_retain w) (w_ctl
    w) (w_iss w).
Definition set_npc (x : Z) (w : wrapper) : wrapper :=
  Wrapper (halted w) (fetch_enable w) (do_step w) (step_mode w) (wfi w) (irq_req w) (irq_req_value w)
    (current_event w) (events w) (wakeup_latency w) (halt_cause w) (hit_reg w) (ppc w) x (clock_retain w) (w_ctl
    w) (w_iss w).
Definition set_clock_retain (x : Z) (w : wrapper) : wrapper :=
  Wrapper (halted w) (fetch_enable w) (do_step w) (step_mode w) (wfi w) (irq_req w) (irq_req_value w)
    (current_event w) (events w) (wakeup_latency w) (halt_cause w) (hit_reg w) (ppc w) (npc w) x (w_ctl w)
    (w_iss w).
Definition set_w_ctl (x : ctl) (w : wrapper) : wrapper :=
  Wrapper (halted w) (fetch_enable w) (do_step w) (step_mode w) (wfi w) (irq_req w) (irq_req_value w)
    (current_event w) (events w) (wakeup_latency w) (halt_cause w) (hit_reg w) (ppc w) (npc w) (clock_retain w)
    x (w_iss w).
Definition set_w_iss (x : iss (S := S)) (w : wrapper) : wrapper :=
  Wrapper (halted w) (fetch_enable w) (do_step w) (step_mode w) (wfi w) (irq_req w) (irq_req_value w)
    (current_event w) (events w) (wakeup_latency w) (halt_cause w) (hit_reg w) (ppc w) (npc w) (clock_retain w)
    (w_ctl w) x.

Definition CSR_PCER_INSTR : Z := 1.
Definition CSR_PCER_IMISS : Z := 4.

Definition w_cpu w : core := cpu (w_iss w).
Definition upd_ctl (f : ctl -> ctl) w : wrapper := set_w_ctl (f (w_ctl w)) w.
Definition upd_cpu (f : core -> core) w : wrapper := set_w_iss (set_cpu (f (w_cpu w)) (w_iss w)) w.

(** ** The clock engine, as the core uses it *)

Definition is_enqueued (e : event) w : bool := bool_decide (e ∈ (events w).*1).
Definition event_enqueue (e : event) (cycles : Z) w : wrapper := set_events ((e, cycles) :: events w) w.
Definition event_cancel (e : event) w : wrapper := set_events (filter (fun p => p.1 <> e) (events w)) w.

Definition trigger_check_all w : wrapper := set_current_event check_all_event w.
Definition irq_check w : wrapper := set_current_event check_all_event w.

Definition enqueue_next_instr (cycles : Z) w : wrapper :=
  if is_active (w_cpu w) then event_enqueue (current_event w) cycles w else w.

(** ** Fetching

    prefetcher_fetch is the one of Fetch.v: the instruction is in the buffer, or the memory answers now with
    a latency, or it answers later and the core stalls. *)
Inductive fetch_answer := Hit | Filled (latency : Z) | Later.
Definition prefetcher_fetch (answer : fetch_answer) w : wrapper :=
  match answer with
  | Hit => w
  | Filled latency => upd_ctl (set_fetch_cycles latency) w
  | Later => upd_cpu (fun c => set_stalled (stalled c + 1) c) w
  end.
Definition prefetcher_refetch w : wrapper :=
  let w := upd_cpu (set_is_active false) (upd_ctl (set_do_fetch true) w) in
  if is_enqueued (current_event w) w then event_cancel (current_event w) w else w.
Definition iss_pc_set (value : Z) w : wrapper := prefetcher_refetch (upd_cpu (set_current_insn (insn_cache_get value)) w).

(** ** The state machine *)

Definition halt_core w : wrapper := set_npc (current_insn (w_cpu w)) (set_ppc (default 0 (prev_insn (w_ctl w))) w).

(** [answer] is for the fetch that may be needed. *)
Definition check_state (answer : fetch_answer) w : wrapper :=
  let event := current_event w in
  let w := set_current_event check_all_event w in
  if negb (is_active (w_cpu w)) then
    if negb (halted w) && fetch_enable w && (stalled (w_cpu w) =? 0) &&
       (negb (wfi w) || negb (irq_req w =? -1) || debug_mode (w_ctl w)) then
      let fetch := do_fetch (w_ctl w) in
      let w := if fetch then prefetcher_fetch answer w else w in
      if fetch && negb (stalled (w_cpu w) =? 0) then w
      else
        let w := upd_cpu (set_is_active true) (set_wfi false w) in
        let w := if step_mode w && negb (debug_mode (w_ctl w)) then set_do_step true w else w in
        let w := upd_cpu (iss_pccr_account_event CSR_PCER_CYCLES (1 + wakeup_latency w)) w in
        set_wakeup_latency 0 (enqueue_next_instr (1 + wakeup_latency w) w)
    else w
  else
    let w := if halted w && negb (do_step w) then halt_core (upd_cpu (set_is_active false) w)
             else if wfi w then
               if irq_req w =? -1 then upd_cpu (set_is_active false) w else set_wfi false w
             else w in
    if negb (is_active (w_cpu w)) then if is_enqueued event w then event_cancel event w else w else w.

Definition wait_for_interrupt (answer : fetch_answer) w : wrapper := check_state answer (set_wfi true w).

Definition debug_req (answer : fetch_answer) w : wrapper :=
  check_state answer (set_wfi false (irq_check (upd_ctl (set_req_debug true) w))).

Definition HALT_CAUSE_HALT : Z := 3.
Definition HALT_CAUSE_STEP : Z := 4.

(** Whether the component has the RISC-V debug unit and a GDB server, and the core the privilege
    architecture 1.10 (PRIV_1_10), which the platform configures. *)
Context (riscv_dbg_unit gdbserver priv_1_10 : bool).

Definition set_halt_mode (halt : bool) (cause : Z) (answer : fetch_answer) w : wrapper :=
  if riscv_dbg_unit then
    if negb (debug_mode (w_ctl w)) then
      debug_req answer (upd_ctl (fun c =>
        set_csr_dcsr (Z.lor (Z.land (csr_dcsr c) (u32 (Z.lnot (Z.shiftl 0x7 6)))) (Z.shiftl cause 6)) c) w)
    else w
  else
    let w := set_halt_cause cause w in
    let w := if halted w && negb halt then set_clock_retain (clock_retain w - 1) w
             else if negb (halted w) && halt then set_clock_retain (clock_retain w + 1) w else w in
    set_halted halt w.

(** ** Interrupts and exceptions *)

(** iss_irq_check: [true] when it returns -1, the fetch of the handler being late. [None] is the use of a
    vector that is not set. *)
Definition iss_irq_check (answer : fetch_answer) w : option (bool * wrapper) :=
  let c := w_ctl w in
  if req_debug c && negb (debug_mode c) then
    let c := set_csr_depc (current_insn (w_cpu w)) (set_debug_mode true c) in
    let c := set_req_debug false (set_irq_enable false (set_debug_saved_irq_enable (irq_enable c) c)) in
    Some (false, upd_cpu (set_current_insn (debug_handler c)) (set_w_ctl c w))
  else if negb (req_irq c =? -1) && irq_enable c then
    let irq := req_irq c in
    let w := if c_elw_insn c is Some elw
             then upd_cpu (set_current_insn elw) (upd_ctl (fun c => set_c_elw_interrupted true (set_c_elw_insn None c)) w)
             else w in
    let c := set_csr_epc (current_insn (w_cpu w)) (w_ctl w) in
    let c := set_req_irq (-1) (set_irq_enable false (set_saved_irq_enable (irq_enable c) c)) in
    let* vector := default None (vectors c !! Z.to_nat irq) in
    let c := set_csr_mcause (Z.lor (Z.shiftl 1 31) irq) c in
    let c := set_c_elw_insn None (set_irq_acks (irq :: irq_acks c) c) in
    let w := prefetcher_fetch answer (upd_cpu (set_current_insn vector) (set_w_ctl c w)) in
    Some (negb (stalled (w_cpu w) =? 0), w)
  else Some (false, upd_ctl (set_c_elw_insn None) w).

(** The instruction where mret and dret go. *)
Definition iss_irq_handle_mret w : Z * wrapper :=
  let w := upd_ctl (fun c => set_csr_mcause 0 (set_irq_enable (saved_irq_enable c) c)) (trigger_check_all w) in
  (insn_cache_get (csr_epc (w_ctl w)), w).
Definition iss_irq_handle_dret w : Z * wrapper :=
  let w := upd_ctl (fun c => set_debug_mode false (set_irq_enable (debug_saved_irq_enable c) c)) (trigger_check_all w) in
  (insn_cache_get (csr_depc (w_ctl w)), w).

Definition iss_irq_enable (enable : bool) w : wrapper := irq_check (upd_ctl (set_irq_enable enable) w).

Definition iss_unstall w : wrapper := upd_cpu (fun c => set_stalled (stalled c - 1) c) w.
Definition iss_irq_req (irq : Z) w : wrapper :=
  let w := upd_ctl (set_req_irq irq) w in
  if bool_decide (c_elw_insn (w_ctl w) <> None) && c_elw_stalled (w_ctl w)
  then iss_unstall (upd_ctl (set_c_elw_stalled false) w) else w.

Definition iss_irq_set_vector_table (base : Z) w : wrapper :=
  upd_ctl (fun c => set_vector_base base (set_vectors (map (fun i => Some (insn_cache_get (u32 (base + i * 4)))) (seqZ 0 35)) c)) w.
Definition iss_irq_init (config_debug_handler : Z) : ctl -> ctl := fun c =>
  let c := if priv_1_10 then set_debug_handler (insn_cache_get config_debug_handler) c else c in
  set_req_debug false (set_req_irq (-1) (set_irq_enable false (set_c_elw_interrupted false (set_vector_base 0 c)))).

Definition ISS_EXCEPT_DEBUG : Z := 3.
Definition ISS_EXCEPT_ECALL : Z := 2.
Definition iss_except_raise (id : Z) w : Z * wrapper :=
  let pc := current_insn (w_cpu w) in
  if priv_1_10 && (id =? ISS_EXCEPT_DEBUG) then
    (debug_handler (w_ctl w),
     upd_ctl (fun c => set_irq_enable false (set_debug_saved_irq_enable (irq_enable c) (set_csr_depc pc c))) w)
  else
    let w := upd_ctl (fun c => set_csr_mcause 0xb (set_irq_enable false
               (set_saved_irq_enable (irq_enable c) (set_csr_epc pc c)))) w in
    let vector := default None (vectors (w_ctl w) !! Z.to_nat (if priv_1_10 then 0 else 32 + id)) in
    (default (insn_cache_get 0) vector, w).

(** ** Instructions

    A handler gives the address of the next instruction; the code gives the handlers of each address. *)

Definition handler : Type := wrapper -> option (Z * wrapper).
Record decoded := Decoded {
  insn_handler : handler;
  insn_fast_handler : handler;
}.

(** The handlers over the core of Rv32.v, and those of rv32i.hpp and priv.hpp that change the control. *)
Definition lift_insn (f : iss_insn -> iss (S := S) -> option (Z * iss (S := S))) (i : iss_insn) : handler := fun w =>
  let* r := f i (w_iss w) in Some (r.1, set_w_iss r.2 w).
(** The handlers of PulpV2.v, on the hardware loops too; hw_exec chooses the one of an instruction at the end of
    a loop. *)
Definition lift_hw (f : hw_handler (S := S)) (i : iss_insn) : handler := fun w =>
  let* r := f i (w_iss w, c_pulp (w_ctl w)) in
  Some (r.1, set_w_iss r.2.1 (upd_ctl (set_c_pulp r.2.2) w)).
Definition hw_insn (f : hw_handler (S := S)) (i : iss_insn) : handler := lift_hw (hw_exec f) i.
Definition ecall_exec : handler := fun w => Some (iss_except_raise ISS_EXCEPT_ECALL w).
Definition wfi_exec (next : Z) : handler := fun w => Some (next, wait_for_interrupt Hit w).
Definition mret_exec : handler := fun w => Some (iss_irq_handle_mret (upd_cpu (iss_perf_account_dependency_stall 5) w)).
Definition dret_exec : handler := fun w => Some (iss_irq_handle_dret w).

Section Exec.
Context (code : Z -> option decoded) (port : Z) (data : io_meth S).

(** ISS_EXEC_NO_FETCH_COMMON *)
Definition exec_no_fetch_common (get : decoded -> handler) w : option wrapper :=
  let w := upd_cpu (set_insn_cycles 1) w in
  let pc := current_insn (w_cpu w) in
  let w := if negb (fetch_cycles (w_ctl w) =? 0) then
             let w := upd_cpu (fun c => set_insn_cycles (insn_cycles c + fetch_cycles (w_ctl w)) c) w in
             let w := upd_ctl (set_fetch_cycles 0) w in
             upd_cpu (iss_pccr_account_event CSR_PCER_IMISS (fetch_cycles (w_ctl w))) w
           else w in
  let* d := code pc in
  let* (next, w) := get d w in
  Some (upd_ctl (set_prev_insn (Some pc)) (upd_cpu (set_current_insn next) w)).

(** The two ways to execute an instruction: the cycles, and the state. *)
Definition iss_exec_step_nofetch (answer : fetch_answer) w : option (Z * wrapper) :=
  let* w := exec_no_fetch_common insn_fast_handler w in
  let w := prefetcher_fetch answer w in
  Some (insn_cycles (w_cpu w), w).
Definition iss_exec_step_nofetch_perf (irq_answer answer : fetch_answer) w : option (Z * wrapper) :=
  let* (late, w) := iss_irq_check irq_answer w in
  if (late : bool) then Some (-1, w)
  else
    let* w := exec_no_fetch_common insn_handler w in
    let w := prefetcher_fetch answer w in
    let cycles := insn_cycles (w_cpu w) in
    let w := upd_cpu (iss_exec_account_cycles cycles) w in
    Some (cycles, upd_cpu (iss_pccr_account_event CSR_PCER_INSTR 1) w).

(** Without VP_TRACE_ACTIVE. *)
Definition iss_exec_switch_to_fast w : bool := Z.land (pcmr (w_cpu w)) 1 =? 0.

(** EXEC_INSTR_COMMON *)
Definition exec_instr_common (func : wrapper -> option (Z * wrapper)) w : option wrapper :=
  let* (cycles, w) := func w in
  Some (if stalled (w_cpu w) =? 0 then enqueue_next_instr cycles w
        else if misaligned_access (w_cpu w) then event_enqueue misaligned_event (misaligned_latency (w_cpu w)) w
        else upd_cpu (set_is_active false) w).

Definition exec_instr (answer : fetch_answer) w : option wrapper := exec_instr_common (iss_exec_step_nofetch answer) w.
(** [check] is for the fetch of the last check_state. *)
Definition exec_instr_check_all (irq_answer answer check : fetch_answer) w : option wrapper :=
  let w := if iss_exec_switch_to_fast w then set_current_event instr_event w else w in
  let debug := debug_mode (w_ctl w) in
  let* w := exec_instr_common (iss_exec_step_nofetch_perf irq_answer answer) w in
  Some (if step_mode w && negb debug then
          let w := set_hit_reg (Z.lor (hit_reg w) 1) (set_do_step false w) in
          check_state check (if gdbserver then set_halted true w else set_halt_mode true HALT_CAUSE_STEP check w)
        else w).

(** iss_wrapper::exec_misaligned, on the component. *)
Definition exec_misaligned_event w : option wrapper :=
  let* (delay, s) := exec_misaligned port data (w_iss w) in
  let w := set_w_iss s w in
  Some (match delay with Some n => event_enqueue (current_event w) n w | None => w end).

(** ** Inputs *)

Definition stall_resume (cb : option resume) (regs : Z) w : wrapper :=
  match cb with
  | Some LoadSignedResume => set_w_iss (iss_lsu_load_signed_resume regs (w_iss w)) w
  | Some ElwResume => upd_ctl (set_c_elw_insn None) w
  | _ => w
  end.
Definition data_response (regs latency : Z) (answer : fetch_answer) w : wrapper :=
  let w := upd_cpu (fun c => set_stalled (stalled c - 1) c) w in
  let w := set_wakeup_latency latency w in
  let w := if misaligned_access (w_cpu w) then upd_cpu (set_misaligned_access false) w
           else upd_cpu iss_exec_insn_terminate (stall_resume (stall_callback (w_cpu w)) regs w) in
  check_state answer w.
(** The callback of the fetch is the one of Fetch.v. *)
Definition fetch_response (answer : fetch_answer) w : wrapper :=
  check_state answer (upd_cpu (fun c => set_stalled (stalled c - 1) c) w).
Definition fetchen_sync (bootaddr : Z) (active : bool) (answer : fetch_answer) w : wrapper :=
  let old_val := fetch_enable w in
  let w := set_fetch_enable active w in
  let w := if negb old_val && active then iss_pc_set bootaddr w else w in
  check_state answer w.
Definition halt_sync (halt : bool) (answer : fetch_answer) w : wrapper :=
  check_state answer (set_halt_mode halt HALT_CAUSE_HALT answer w).
Definition flush_cache_ack_sync (answer : fetch_answer) w : wrapper := check_state answer (upd_cpu iss_exec_insn_terminate w).
Definition irq_req_sync (irq : Z) w : wrapper :=
  let w := set_irq_req_value irq w in
  if is_enqueued irq_sync_event w then w else event_enqueue irq_sync_event 0 w.
Definition irq_req_sync_handler (answer : fetch_answer) w : wrapper :=
  let w := irq_check (set_irq_req (irq_req_value w) w) in
  check_state answer (set_wfi false (iss_irq_req (irq_req w) w)).
Definition gdbserver_stop (answer : fetch_answer) w : wrapper := check_state answer (set_halted true w).
Definition gdbserver_cont (answer : fetch_answer) w : wrapper := check_state answer (set_halted false w).
Definition gdbserver_stepi (answer : fetch_answer) w : wrapper :=
  check_state answer (set_halted false (set_step_mode true w)).

(** iss_csr_init (the status is in Csr.v), iss_reset (the flush of the instruction cache and the end of the
    hardware loops, which is in PulpV2.v, apart) and the reset of the component, asserted and released. *)
Definition iss_csr_init w : wrapper :=
  upd_cpu (fun c => Core (insn_cycles c) 3 3 (pccr c) 0 (stack_start c) (stack_end c) (stalled c) (stall_callback c)
    (stall_reg c) (stall_size c) (current_insn c) (stall_insn c) (is_active c) (misaligned_access c) (misaligned_size c)
    (misaligned_data c) (misaligned_addr c) (misaligned_is_write c) (misaligned_latency c))
    (upd_ctl (fun c => set_csr_mcause 0 (set_csr_dcsr (Z.shiftl 4 28) c)) w).
Definition reset_regs (regs : Z) (h : host) : host :=
  fold_left (fun h i => store_bytes (regs + 4 * i) (lanes 8 4 (if i =? 0 then 0 else 0x57575757)) h) (seqZ 0 64) h.
Definition iss_reset (regs config_debug_handler : Z) w : wrapper :=
  let w := set_w_iss (set_hst (reset_regs regs (hst (w_iss w))) (w_iss w)) w in
  let w := upd_ctl (fun c => set_do_fetch false (set_c_elw_stalled false (set_c_elw_insn None
             (set_prev_insn None (iss_irq_init config_debug_handler c))))) w in
  iss_csr_init w.
Definition reset_on (regs config_debug_handler : Z) w : wrapper :=
  iss_reset regs config_debug_handler (set_wakeup_latency 0 (set_irq_req (-1) w)).
Definition reset_off (bootaddr bootaddr_offset : Z) (answer : fetch_answer) w : wrapper :=
  let w := iss_pc_set (u32 (bootaddr + bootaddr_offset)) (iss_csr_init w) in
  let w := iss_irq_set_vector_table (Z.land bootaddr (u32 (Z.lnot (Z.shiftl 1 8 - 1)))) w in
  check_state answer (if gdbserver then set_halted true w else w).
Definition pre_reset w : wrapper := if is_active (w_cpu w) then event_cancel (current_event w) w else w.

(** The event [e] of the core comes. *)
Definition fire (e : event) (irq_answer answer check : fetch_answer) w : option wrapper :=
  let w := event_cancel e w in
  match e with
  | instr_event => exec_instr answer w
  | check_all_event => exec_instr_check_all irq_answer answer check w
  | misaligned_event => exec_misaligned_event w
  | irq_sync_event => Some (irq_req_sync_handler check w)
  end.
End Exec.
End Wrapper.

(** ** What handlers may do

    A handler does not touch the events; it may stall the core once (with the second half of a misaligned
    access to do, or not), put it to sleep when no interrupt is requested, and change the control if it asks
    for the full handlers whenever it may have let an interrupt in. *)

Section Invariant.
Context {S : Type}.
Notation wrapper := (wrapper (S := S)).
Notation handler := (handler (S := S)).
Notation decoded := (decoded (S := S)).

Definition active (w : wrapper) : bool := is_active (w_cpu w).
Definition stalls (w : wrapper) : Z := stalled (w_cpu w).
Definition misaligned (w : wrapper) : bool := misaligned_access (w_cpu w).
(** An interrupt is requested and the core accepts it. *)
Definition interrupted (w : wrapper) : Prop := req_irq (w_ctl w) <> -1 /\ irq_enable (w_ctl w) = true.

Record calm (w w' : wrapper) : Prop := {
  calm_events : events w' = events w;
  calm_run : halted w' = halted w /\ step_mode w' = step_mode w /\ fetch_enable w' = fetch_enable w /\ irq_req w' = irq_req w;
  calm_elw : c_elw_stalled (w_ctl w') = c_elw_stalled (w_ctl w);
  calm_event : current_event w' = check_all_event \/ current_event w' = current_event w;
  calm_stall : (stalls w' = stalls w /\ misaligned w' = misaligned w) \/ stalls w' = stalls w + 1;
  calm_active : (active w' = true /\ wfi w' = false) \/
    (active w' = false /\ wfi w' = true /\ irq_req w = -1 /\ misaligned w' = misaligned w);
  calm_irq : interrupted w' -> current_event w' = check_all_event \/ interrupted w;
}.
(** The state in which a handler is called. *)
Definition executing (w : wrapper) : Prop :=
  active w = true /\ wfi w = false /\ halted w = false /\ is_enqueued (current_event w) w = false.
Class HandlerOk (h : handler) : Prop :=
  handler_calm w next w' : executing w -> h w = Some (next, w') -> calm w w'.
(** The handlers of the core of Rv32.v. *)
Class InsnOk (f : iss_insn -> iss (S := S) -> option (Z * iss (S := S))) : Prop :=
  insn_calm i st next st' : f i st = Some (next, st') ->
    is_active (cpu st') = is_active (cpu st) /\
    ((stalled (cpu st') = stalled (cpu st) /\ misaligned_access (cpu st') = misaligned_access (cpu st)) \/
     stalled (cpu st') = stalled (cpu st) + 1).

#[export] Instance lift_insn_ok f i `{!InsnOk f} : HandlerOk (lift_insn f i).
Proof.
  intros w next w' (Ha & Hw & _ & _) E. unfold lift_insn in E. destruct (f i (w_iss w)) as [[n st']|] eqn:Ef; [|done].
  injection E as <- <-. destruct (insn_calm i _ _ _ Ef) as [E1 E2]. split; try done; try (by right).
  left. split; [exact (eq_trans E1 Ha)|exact Hw].
Qed.

(** The handlers on the hardware loops. *)
Class HwOk (f : hw_handler (S := S)) : Prop :=
  hw_calm i t next t' : f i t = Some (next, t') ->
    elw_stalled t'.2 = elw_stalled t.2 /\ is_active (cpu t'.1) = is_active (cpu t.1) /\
    ((stalled (cpu t'.1) = stalled (cpu t.1) /\ misaligned_access (cpu t'.1) = misaligned_access (cpu t.1)) \/
     stalled (cpu t'.1) = stalled (cpu t.1) + 1).

#[export] Instance lift_hw_ok f i `{!HwOk f} : HandlerOk (lift_hw f i).
Proof.
  intros w next w' (Ha & Hw & _ & _) E. unfold lift_hw in E.
  destruct (f i (w_iss w, c_pulp (w_ctl w))) as [[n [st hw]]|] eqn:Ef; [|done].
  injection E as <- <-. destruct (hw_calm i _ _ _ Ef) as (E1 & E2 & E3). split; try done; try (by right).
  left. split; [exact (eq_trans E2 Ha)|exact Hw].
Qed.
#[export] Instance lift_insn_hw_ok f `{!InsnOk f} : HwOk (lift f).
Proof.
  intros i t next t' E. unfold lift in E. destruct (f i t.1) as [[n st]|] eqn:Ef; [|done]. injection E as <- <-.
  split; [done|]. exact (insn_calm i _ _ _ Ef).
Qed.
Lemma hwloop_end_stalled x pc hw : elw_stalled (hwloop_end x pc hw).1 = elw_stalled hw.
Proof. unfold hwloop_end. by repeat case_match. Qed.
#[export] Instance hwloop_check_ok f `{!HwOk f} : HwOk (hwloop_check_exec f).
Proof.
  intros i t next t' E. unfold hwloop_check_exec in E. destruct (f i t) as [[n t1]|] eqn:Ef; [|done].
  destruct (hw_calm i _ _ _ Ef) as (E1 & E2 & E3). cbn [mbind option_bind] in E.
  destruct (elw_interrupted t.2); [injection E as <- <-; by split_and!|].
  pose proof (hwloop_end_stalled 0 (i_addr i) t1.2) as F0. destruct (hwloop_end 0 (i_addr i) t1.2) as [hw0 j0].
  destruct j0; [injection E as <- <-; by rewrite <- E1|].
  pose proof (hwloop_end_stalled 1 (i_addr i) hw0) as F1. destruct (hwloop_end 1 (i_addr i) hw0) as [hw1 j1].
  destruct j1; injection E as <- <-; (split; [exact (eq_trans F1 (eq_trans F0 E1))|by split]).
Qed.
#[export] Instance hw_exec_ok f `{!HwOk f} : HwOk (hw_exec f).
Proof. intros i t next t' E. unfold hw_exec in E. case_decide; by apply hw_calm in E. Qed.
Ltac hw_only := intros i t next t' E; injection E as <- <-; split; [done|split; [done|by left]].
#[export] Instance lp_starti_ok : HwOk lp_starti_exec. Proof. hw_only. Qed.
#[export] Instance lp_endi_ok : HwOk lp_endi_exec. Proof. hw_only. Qed.
#[export] Instance lp_count_ok regs : HwOk (lp_count_exec regs). Proof. hw_only. Qed.
#[export] Instance lp_counti_ok : HwOk lp_counti_exec. Proof. hw_only. Qed.
#[export] Instance lp_setup_ok regs : HwOk (lp_setup_exec regs). Proof. hw_only. Qed.
#[export] Instance lp_setupi_ok : HwOk lp_setupi_exec. Proof. hw_only. Qed.

(** check_state on an active core. *)
Lemma check_state_active answer w :
  active w = true -> halted w = false ->
  check_state answer w =
    let w1 := set_current_event check_all_event w in
    if wfi w then
      if irq_req w =? -1 then
        let w2 := upd_cpu (set_is_active false) w1 in
        if is_enqueued (current_event w) w then event_cancel (current_event w) w2 else w2
      else set_wfi false w1
    else w1.
Proof.
  intros Ha Hh. unfold check_state. change (is_active (w_cpu (set_current_event check_all_event w))) with (active w).
  rewrite Ha. cbn [negb]. change (halted (set_current_event check_all_event w)) with (halted w). rewrite Hh. cbn [andb negb].
  change (wfi (set_current_event check_all_event w)) with (wfi w).
  change (irq_req (set_current_event check_all_event w)) with (irq_req w).
  destruct (wfi w); [destruct (irq_req w =? -1)|].
  - reflexivity.
  - change (is_active (w_cpu (set_wfi false _))) with (active w). by rewrite Ha.
  - change (is_active (w_cpu (set_current_event _ _))) with (active w). by rewrite Ha.
Qed.

Lemma check_state_halt answer w :
  active w = true -> halted w = true -> do_step w = false ->
  check_state answer w =
    let w2 := halt_core (upd_cpu (set_is_active false) (set_current_event check_all_event w)) in
    if is_enqueued (current_event w) w then event_cancel (current_event w) w2 else w2.
Proof.
  intros Ha Hh Hd. unfold check_state. change (is_active (w_cpu (set_current_event check_all_event w))) with (active w).
  rewrite Ha. cbn [negb]. change (halted (set_current_event check_all_event w)) with (halted w).
  change (do_step (set_current_event check_all_event w)) with (do_step w). rewrite Hh, Hd. reflexivity.
Qed.

(** check_state on an inactive core that is not halted. *)
Lemma check_state_inactive answer w :
  active w = false -> halted w = false ->
  check_state answer w =
    let w0 := set_current_event check_all_event w in
    if fetch_enable w && (stalls w =? 0) && (negb (wfi w) || negb (irq_req w =? -1) || debug_mode (w_ctl w)) then
      let w1 := if do_fetch (w_ctl w0) then prefetcher_fetch answer w0 else w0 in
      if do_fetch (w_ctl w0) && negb (stalls w1 =? 0) then w1
      else
        let w2 := upd_cpu (set_is_active true) (set_wfi false w1) in
        let w3 := if step_mode w1 && negb (debug_mode (w_ctl w2)) then set_do_step true w2 else w2 in
        let w4 := upd_cpu (iss_pccr_account_event CSR_PCER_CYCLES (1 + wakeup_latency w3)) w3 in
        set_wakeup_latency 0 (enqueue_next_instr (1 + wakeup_latency w4) w4)
    else w0.
Proof.
  intros Ha Hh. unfold check_state. change (is_active (w_cpu (set_current_event check_all_event w))) with (active w).
  rewrite Ha. cbn [negb]. change (halted (set_current_event check_all_event w)) with (halted w). rewrite Hh. reflexivity.
Qed.

#[export] Instance wfi_exec_ok next : HandlerOk (wfi_exec next).
Proof.
  intros w n w' (Ha & Hw & Hh & He) E. injection E as <- <-. unfold wait_for_interrupt.
  rewrite check_state_active by done. cbv zeta. cbn [wfi set_wfi irq_req].
  destruct (Z.eqb_spec (irq_req w) (-1)) as [Hi|Hi].
  - change (is_enqueued _ (set_wfi true w)) with (is_enqueued (current_event w) w). rewrite He.
    split; try done; try (by left); try (by right).
  - split; try done; by left.
Qed.
#[export] Instance mret_exec_ok : HandlerOk mret_exec.
Proof. intros w n w' (Ha & Hw & Hh & He) E. injection E as <- <-. split; try done; by left. Qed.
#[export] Instance dret_exec_ok : HandlerOk dret_exec.
Proof. intros w n w' (Ha & Hw & Hh & He) E. injection E as <- <-. split; try done; by left. Qed.
#[export] Instance ecall_exec_ok priv : HandlerOk (ecall_exec priv).
Proof.
  intros w n w' (Ha & Hw & Hh & He) E. unfold ecall_exec, iss_except_raise in E. cbn [Z.eqb ISS_EXCEPT_ECALL ISS_EXCEPT_DEBUG] in E.
  rewrite andb_false_r in E. injection E as <- <-. split; try done; try (by left); try (by right).
  intros [_ Hirq]. done.
Qed.
Lemma irq_enable_calm b w : executing w -> calm w (iss_irq_enable b w).
Proof. intros (Ha & Hw & Hh & He). split; try done; by left. Qed.

(** ** The invariant of the state machine

    Without the old halt mode and without single steps: an active core has exactly one event of its own in
    the engine, the second half of a misaligned access if one is under way and an instruction otherwise;
    an inactive core has none, and has a reason to be inactive: no fetch enable, a stall, or a wfi without
    request. *)

Definition core_events (w : wrapper) : list (event * Z) := filter (fun p => p.1 <> irq_sync_event) (events w).

Record pre (w : wrapper) : Prop := {
  pre_stall : 0 <= stalls w;
  pre_mis : misaligned w = true -> active w = true /\ 1 <= stalls w;
  pre_event : if active w
    then exists e n, core_events w = [(e, n)] /\ (misaligned w = true <-> e = misaligned_event)
    else core_events w = [];
  pre_wfi : active w = true -> wfi w = false;
  pre_run : halted w = false /\ step_mode w = false;
  pre_elw : c_elw_stalled (w_ctl w) = false;
}.
Record inv (w : wrapper) : Prop := {
  inv_pre : pre w;
  inv_awake : active w = false -> fetch_enable w = false \/ 0 < stalls w \/ (wfi w = true /\ irq_req w = -1);
  inv_irq : interrupted w -> current_event w = check_all_event;
  inv_current : current_event w = instr_event \/ current_event w = check_all_event;
}.

Lemma core_events_enqueue e n w : e <> irq_sync_event -> core_events (event_enqueue e n w) = (e, n) :: core_events w.
Proof. intros He. unfold core_events, event_enqueue. cbn. by rewrite decide_True. Qed.

Lemma pre_fetch answer w :
  stalls (prefetcher_fetch answer w) = stalls w + (if answer is Later then 1 else 0) /\
  active (prefetcher_fetch answer w) = active w /\ misaligned (prefetcher_fetch answer w) = misaligned w /\
  events (prefetcher_fetch answer w) = events w /\ wfi (prefetcher_fetch answer w) = wfi w /\
  (halted (prefetcher_fetch answer w) = halted w /\ step_mode (prefetcher_fetch answer w) = step_mode w) /\
  c_elw_stalled (w_ctl (prefetcher_fetch answer w)) = c_elw_stalled (w_ctl w) /\
  (fetch_enable (prefetcher_fetch answer w) = fetch_enable w /\ irq_req (prefetcher_fetch answer w) = irq_req w) /\
  current_event (prefetcher_fetch answer w) = current_event w /\
  (interrupted (prefetcher_fetch answer w) <-> interrupted w).
Proof. destruct answer; split_and!; try done; by rewrite Z.add_0_r. Qed.

Lemma account_facts n w :
  let w' := upd_cpu (iss_pccr_account_event CSR_PCER_CYCLES n) w in
  active w' = active w /\ stalls w' = stalls w /\ misaligned w' = misaligned w.
Proof.
  unfold active, stalls, misaligned, w_cpu, upd_cpu. cbn [w_iss set_w_iss set_cpu cpu].
  unfold iss_pccr_account_event. by destruct (_ && _).
Qed.

Lemma core_check_state_inv answer w : pre w -> inv (check_state answer w).
Proof.
  intros Hp. destruct (pre_run w Hp) as [Hh Hs]. destruct (active w) eqn:Ha.
  - rewrite check_state_active by done. cbv zeta. rewrite (pre_wfi w Hp Ha).
    split; [|intros H; change (active w = false) in H; congruence|done|by right]. by destruct Hp; split.
  - pose proof (pre_event w Hp) as Hev. rewrite Ha in Hev.
    assert (Hmis : misaligned w = false).
    { destruct (misaligned w) eqn:E; [|done]. destruct (pre_mis w Hp E). congruence. }
    rewrite check_state_inactive by done. cbv zeta. set (w0 := set_current_event check_all_event w).
    assert (Hw0 : pre w0) by (destruct Hp; by split).
    destruct (fetch_enable w && (stalls w =? 0) && _) eqn:Hcond.
    + apply andb_true_iff in Hcond as [Hcond _]. apply andb_true_iff in Hcond as [Hfe Hst].
      apply Z.eqb_eq in Hst.
      set (w1 := if do_fetch (w_ctl w0) then prefetcher_fetch answer w0 else w0).
      assert (Hw1 : (stalls w1 = 0 \/ stalls w1 = 1 /\ do_fetch (w_ctl w0) = true) /\ active w1 = false /\ misaligned w1 = false /\ events w1 = events w /\
        (halted w1 = false /\ step_mode w1 = false) /\ c_elw_stalled (w_ctl w1) = false /\ current_event w1 = check_all_event /\
        wfi w1 = wfi w).
      { unfold w1. destruct (do_fetch (w_ctl w0)).
        - destruct (pre_fetch answer w0) as (F1 & F2 & F3 & F4 & F5 & F6 & F7 & _ & F9 & _). rewrite F1, F2, F3, F4, F5, F7, F9.
          destruct F6 as [-> ->]. destruct Hw0 as [? ? ? ? [? ?] ?]. 
          change (stalls w0) with (stalls w). rewrite Hst. split_and!; try done. destruct answer; auto.
        - split_and!; try done; [left; exact Hst|exact (pre_elw w Hp)]. }
      destruct Hw1 as (F1 & F2 & F3 & F4 & [F5 F6] & F7 & F8 & F9). clearbody w1.
      rewrite F6. cbn [andb]. destruct (do_fetch (w_ctl w0) && negb (stalls w1 =? 0)) eqn:Hlate.
      * assert (Hs1 : 0 < stalls w1).
        { apply andb_true_iff in Hlate as [_ Hl]. apply negb_true_iff, Z.eqb_neq in Hl. lia. }
        split; [|by right; left|done|by right]. split; try done; rewrite ?F2, ?F3; try done; [lia|].
        unfold core_events in *. by rewrite F4.
      * assert (Hs1 : stalls w1 = 0).
        { destruct F1 as [|[F1 E]]; [done|]. rewrite E, F1 in Hlate. done. }
        destruct (account_facts (1 + wakeup_latency w1) (upd_cpu (set_is_active true) (set_wfi false w1))) as (G1 & G2 & G3).
        set (w4 := upd_cpu _ (upd_cpu (set_is_active true) (set_wfi false w1))) in *.
        unfold enqueue_next_instr. change (is_active (w_cpu w4)) with (active w4).
        assert (G1' : active w4 = true) by (by rewrite G1). rewrite G1'.
        assert (G2' : stalls w4 = 0) by (rewrite G2; exact Hs1). assert (G3' : misaligned w4 = false) by (rewrite G3; exact F3).
        set (w5 := set_wakeup_latency 0 (event_enqueue (current_event w4) (1 + wakeup_latency w4) w4)).
        assert (Hc5 : core_events w5 = [(check_all_event, 1 + wakeup_latency w1)]).
        { change (core_events w5) with (core_events (event_enqueue (current_event w1) (1 + wakeup_latency w1) w1)).
          rewrite F8, core_events_enqueue by done. unfold core_events in *. by rewrite F4, Hev. }
        split; [split|..].
        -- change (0 <= stalls w4). lia.
        -- change (misaligned w4 = true -> active w4 = true /\ 1 <= stalls w4). congruence.
        -- change (active w5) with (active w4). rewrite G1'. do 2 eexists. split; [exact Hc5|].
           change (misaligned w5) with (misaligned w4). rewrite G3'. done.
        -- done.
        -- done.
        -- exact F7.
        -- change (active w4 = false -> fetch_enable w5 = false \/ 0 < stalls w5 \/ wfi w5 = true /\ irq_req w5 = -1). congruence.
        -- intros _. exact F8.
        -- right. exact F8.
    + split; [done| |done|by right]. intros _. change (fetch_enable w0) with (fetch_enable w).
      change (stalls w0) with (stalls w). change (wfi w0) with (wfi w). change (irq_req w0) with (irq_req w).
      pose proof (pre_stall w Hp). apply andb_false_iff in Hcond as [Hc|Hc].
      * apply andb_false_iff in Hc as [Hc|Hc]; [by left|]. apply Z.eqb_neq in Hc. right. left. lia.
      * right. right. apply orb_false_iff in Hc as [Hc _]. apply orb_false_iff in Hc as [H1 H2].
        apply negb_false_iff in H1, H2. apply Z.eqb_eq in H2. done.
Qed.

(** ** Executing an instruction *)

(** Before the instruction, its event being taken, and after it. *)
Record running (w : wrapper) : Prop := {
  run_stall : 0 <= stalls w;
  run_mis : misaligned w = false;
  run_active : active w = true;
  run_event : core_events w = [];
  run_wfi : wfi w = false;
  run_run : halted w = false /\ step_mode w = false;
  run_elw : c_elw_stalled (w_ctl w) = false;
  run_irq : interrupted w -> current_event w = check_all_event;
  run_current : current_event w = instr_event \/ current_event w = check_all_event;
}.
Record executed (w : wrapper) : Prop := {
  exd_stall : 0 <= stalls w;
  exd_mis : misaligned w = true -> active w = true /\ 1 <= stalls w;
  exd_event : core_events w = [];
  exd_active : (active w = true /\ wfi w = false) \/ (active w = false /\ wfi w = true /\ irq_req w = -1);
  exd_run : halted w = false /\ step_mode w = false;
  exd_elw : c_elw_stalled (w_ctl w) = false;
  exd_irq : interrupted w -> current_event w = check_all_event;
  exd_current : current_event w = instr_event \/ current_event w = check_all_event;
}.

Lemma running_executing w : running w -> executing w.
Proof.
  intros [_ _ Ha He Hw [Hh _] _ _ Hc]. split_and!; try done. unfold is_enqueued. apply bool_decide_eq_false.
  intros Hin. apply list_elem_of_fmap in Hin as ([e n] & E & Hin). cbn in E.
  assert (Hin' : (e, n) ∈ core_events w) by (apply list_elem_of_filter; split; [cbn; destruct Hc; congruence|done]).
  rewrite He in Hin'. by apply elem_of_nil in Hin'.
Qed.

Lemma calm_executed w w' : running w -> calm w w' -> executed w'.
Proof.
  intros [R1 R2 R3 R4 R5 [R6 R6'] R7 R8 R9] [C1 (C2 & C3 & C4 & C5) C6 C7 C8 C9 C10].
  split.
  - destruct C8 as [[-> _] | ->]; lia.
  - intros Hm. destruct C8 as [[_ E]|E]; [congruence|]. split; [|lia]. destruct C9 as [[]|(_ & _ & _ & E')]; [done|congruence].
  - unfold core_events in *. by rewrite C1.
  - destruct C9 as [|(H1 & H2 & H3 & _)]; [by left|]. right. by rewrite C5.
  - by rewrite C2, C3.
  - by rewrite C6.
  - intros Hi. destruct (C10 Hi) as [|Hi']; [done|]. destruct C7 as [|E]; [done|]. rewrite E. by apply R8.
  - destruct C7 as [|E]; [by right|]. by rewrite E.
Qed.

Lemma fetch_executed answer w : executed w -> executed (prefetcher_fetch answer w).
Proof.
  intros [R1 R2 R4 R5 [R6 R6'] R7 R8 R9].
  destruct (pre_fetch answer w) as (F1 & F2 & F3 & F4 & F5 & [F6 F6'] & F7 & [_ F8] & F9 & F10).
  split; rewrite ?F2, ?F3, ?F5, ?F6, ?F6', ?F7, ?F8, ?F9; try done.
  - rewrite F1. destruct answer; lia.
  - intros Hm. destruct (R2 Hm). split; [done|]. rewrite F1. destruct answer; lia.
  - unfold core_events in *. by rewrite F4.
  - intros Hi. apply R8. by apply F10.
Qed.

Lemma active_enqueue e n w : active (event_enqueue e n w) = active w.
Proof. done. Qed.
Lemma misaligned_enqueue e n w : misaligned (event_enqueue e n w) = misaligned w.
Proof. done. Qed.

(** What EXEC_INSTR_COMMON does after the instruction. *)
Lemma after_insn cycles w : executed w ->
  inv (if stalled (w_cpu w) =? 0 then enqueue_next_instr cycles w
       else if misaligned_access (w_cpu w) then event_enqueue misaligned_event (misaligned_latency (w_cpu w)) w
       else upd_cpu (set_is_active false) w).
Proof.
  intros [R1 R2 R4 R5 R6 R7 R8 R9]. change (stalled (w_cpu w)) with (stalls w). change (misaligned_access (w_cpu w)) with (misaligned w).
  destruct (Z.eqb_spec (stalls w) 0) as [Hs|Hs]; [|destruct (misaligned w) eqn:Hm].
  - unfold enqueue_next_instr. change (is_active (w_cpu w)) with (active w).
    assert (Hm : misaligned w = false) by (destruct (misaligned w); [destruct (R2 eq_refl); lia|done]).
    destruct R5 as [[Ha Hw]|(Ha & Hw & Hi)]; rewrite Ha.
    + split; [split|..]; try done.
      * rewrite (active_enqueue _ _ w), Ha. exists (current_event w), cycles.
        rewrite core_events_enqueue, R4 by (destruct R9; congruence). split; [done|].
        rewrite misaligned_enqueue, Hm. split; [done|]. destruct R9; congruence.
      * change (active w = false -> fetch_enable w = false \/ 0 < stalls w \/ wfi w = true /\ irq_req w = -1). congruence.
    + split; [split|..]; try done; try congruence; [by rewrite Ha|by right; right].
  - destruct (R2 eq_refl) as [Ha Hs1].
    assert (Hw : wfi w = false) by (destruct R5 as [[]|[]]; [done|congruence]).
    split; [split|..]; try done.
    + rewrite active_enqueue, Ha. do 2 eexists.
      rewrite core_events_enqueue, R4 by done. split; [done|]. by rewrite misaligned_enqueue, Hm.
    + change (active w = false -> fetch_enable w = false \/ 0 < stalls w \/ wfi w = true /\ irq_req w = -1). congruence.
  - split; [split|..]; try done.
    + change (misaligned w = true -> false = true /\ 1 <= stalls w). congruence.
    + intros _. right. left. change (0 < stalls w). lia.
Qed.

(** Changes of the core that the state machine does not see. *)
Definition same_core (c c' : core) : Prop :=
  stalled c' = stalled c /\ is_active c' = is_active c /\ misaligned_access c' = misaligned_access c.
Lemma running_cpu f w : (forall c, same_core c (f c)) -> running w -> running (upd_cpu f w).
Proof.
  intros Hf [R1 R2 R3 R4 R5 R6 R7 R8 R9]. destruct (Hf (w_cpu w)) as (E1 & E2 & E3).
  split; try done; unfold stalls, misaligned, active, w_cpu in *; cbn [w_iss upd_cpu set_w_iss set_cpu cpu]; unfold w_cpu; congruence.
Qed.
Lemma executed_cpu f w : (forall c, same_core c (f c)) -> executed w -> executed (upd_cpu f w).
Proof.
  intros Hf [R1 R2 R4 R5 R6 R7 R8 R9]. destruct (Hf (w_cpu w)) as (E1 & E2 & E3).
  split; try done; unfold stalls, misaligned, active, w_cpu in *; cbn [w_iss upd_cpu set_w_iss set_cpu cpu]; unfold w_cpu; rewrite ?E1, ?E2, ?E3; done.
Qed.
Lemma same_account event n c : same_core c (iss_pccr_account_event event n c).
Proof. unfold iss_pccr_account_event. by destruct (_ && _). Qed.
Lemma same_account_cycles n c : same_core c (iss_exec_account_cycles n c).
Proof. unfold iss_exec_account_cycles. by destruct (_ && _). Qed.

(** A change of the control that lets no interrupt in. *)
Lemma running_ctl f w :
  (forall c, c_elw_stalled (f c) = c_elw_stalled c /\ req_irq (f c) = req_irq c /\ irq_enable (f c) = irq_enable c) ->
  running w -> running (upd_ctl f w).
Proof.
  intros Hf [R1 R2 R3 R4 R5 R6 R7 R8 R9]. destruct (Hf (w_ctl w)) as (E1 & E2 & E3).
  split; try done; cbn [w_ctl upd_ctl set_w_ctl]; [by rewrite E1|]. intros [H1 H2]. apply R8. split; cbn [w_ctl upd_ctl set_w_ctl] in *; congruence.
Qed.
Lemma executed_ctl f w :
  (forall c, c_elw_stalled (f c) = c_elw_stalled c /\ req_irq (f c) = req_irq c /\ irq_enable (f c) = irq_enable c) ->
  executed w -> executed (upd_ctl f w).
Proof.
  intros Hf [R1 R2 R4 R5 R6 R7 R8 R9]. destruct (Hf (w_ctl w)) as (E1 & E2 & E3).
  split; try done; cbn [w_ctl upd_ctl set_w_ctl]; [by rewrite E1|]. intros [H1 H2]. apply R8. split; cbn [w_ctl upd_ctl set_w_ctl] in *; congruence.
Qed.

Section Steps.
Context (gdbserver riscv_dbg_unit : bool) (code : Z -> option decoded) (port : Z) (data : io_meth S).
Hypothesis code_ok : forall pc d, code pc = Some d -> HandlerOk (insn_handler d) /\ HandlerOk (insn_fast_handler d).

Lemma exec_no_fetch_executed (fast : bool) w w' :
  running w -> exec_no_fetch_common code (if fast then insn_fast_handler else insn_handler) w = Some w' ->
  executed w' /\ (current_event w' = check_all_event \/ current_event w' = current_event w).
Proof.
  intros Hr E. unfold exec_no_fetch_common in E.
  set (w1 := upd_cpu (set_insn_cycles 1) w) in E. assert (Hr1 : running w1) by (by apply running_cpu). assert (Hc1 : current_event w1 = current_event w) by done.
  set (w2 := if negb (fetch_cycles (w_ctl w1) =? 0) then _ else w1) in E.
  assert (Hc2 : current_event w2 = current_event w) by (unfold w2; by destruct (negb _)).
  assert (Hr2 : running w2).
  { unfold w2. destruct (negb _); [|done]. apply running_cpu; [apply same_account|]. apply running_ctl; [done|]. by apply running_cpu. }
  clearbody w2. clear Hr1. destruct (code (current_insn (w_cpu w1))) as [d|] eqn:Ed; [|done]. cbn [mbind option_bind] in E.
  destruct (code_ok _ _ Ed) as [H1 H2].
  destruct ((if fast then insn_fast_handler else insn_handler) d w2) as [[next w3]|] eqn:Eh; [|done].
  cbn [mbind option_bind] in E. injection E as <-.
  assert (Hcalm : calm w2 w3).
  { destruct fast; [exact (H2 w2 next w3 (running_executing _ Hr2) Eh)|exact (H1 w2 next w3 (running_executing _ Hr2) Eh)]. }
  split; [|rewrite <-Hc2; exact (calm_event _ _ Hcalm)].
  apply executed_ctl; [done|]. apply executed_cpu; [done|]. by apply (calm_executed w2).
Qed.

Lemma exec_instr_inv answer w w' : running w -> exec_instr code answer w = Some w' -> inv w'.
Proof.
  intros Hr E. unfold exec_instr, exec_instr_common, iss_exec_step_nofetch in E.
  destruct (exec_no_fetch_common code insn_fast_handler w) as [w1|] eqn:E1; [|done]. cbn [mbind option_bind] in E.
  injection E as <-. apply after_insn, fetch_executed. exact (proj1 (exec_no_fetch_executed true w w1 Hr E1)).
Qed.

(** The interrupts are checked after the next event is chosen. *)
Lemma irq_check_running answer w late w' :
  running (set_current_event check_all_event w) -> current_event w = instr_event \/ current_event w = check_all_event ->
  iss_irq_check answer w = Some (late, w') -> if late : bool then executed w' else running w'.
Proof.
  intros [R1 R2 R3 R4 R5 R6 R7 _ _] Hc E. unfold iss_irq_check in E.
  destruct (req_debug (w_ctl w) && _); [|destruct (negb (req_irq (w_ctl w) =? -1) && irq_enable (w_ctl w)) eqn:Hi].
  - injection E as <- <-. split; try done. by intros [_ H].
  - set (w1 := if c_elw_insn (w_ctl w) is Some elw then _ else w) in E.
    assert (Hr1 : running (set_current_event check_all_event w1) /\ current_event w1 = current_event w).
    { unfold w1. by destruct (c_elw_insn (w_ctl w)); split; try done; split; try done; right. }
    clearbody w1. destruct Hr1 as [[Q1 Q2 Q3 Q4 Q5 Q6 Q7 _ _] Hc1].
    match type of E with (match ?v with _ => _ end) = _ => destruct v as [vector|]; [|done] end. cbn [mbind option_bind] in E.
    match type of E with context [prefetcher_fetch answer ?x] => set (w2 := x) in E end.
    assert (Hr2 : running w2) by (split; try done; [by intros [_ H]|by rewrite <-Hc1 in Hc]).
    injection E as <- <-. destruct (Z.eqb_spec (stalled (w_cpu (prefetcher_fetch answer w2))) 0) as [Hs|Hs]; cbn [negb].
    + destruct answer; [done| |].
      * by apply running_ctl.
      * destruct Hr2 as [X _ _ _ _ _ _ _ _]. change (stalls w2 + 1 = 0) in Hs. lia.
    + apply fetch_executed. destruct Hr2 as [X1 X2 X3 X4 X5 X6 X7 X8 X9]. split; try done; [congruence|by left].
  - injection E as <- <-. split; try done. intros [H1 H2]. change (req_irq (w_ctl w) <> -1) in H1.
    change (irq_enable (w_ctl w) = true) in H2. rewrite H2, andb_true_r in Hi. apply negb_false_iff, Z.eqb_eq in Hi. done.
Qed.

Lemma exec_check_all_inv irq_answer answer check w w' :
  running w -> exec_instr_check_all riscv_dbg_unit gdbserver code irq_answer answer check w = Some w' -> inv w'.
Proof.
  intros Hr E. unfold exec_instr_check_all, exec_instr_common, iss_exec_step_nofetch_perf in E.
  set (w1 := if iss_exec_switch_to_fast w then _ else w) in E.
  assert (Hw1 : running (set_current_event check_all_event w1) /\
    (current_event w1 = instr_event \/ current_event w1 = check_all_event)).
  { destruct Hr as [R1 R2 R3 R4 R5 R6 R7 R8 R9]. unfold w1. destruct (iss_exec_switch_to_fast w).
    - split; [split; try done; by right|by left].
    - split; [split; try done; by right|exact R9]. }
  clearbody w1. destruct Hw1 as [Hr1 Hc1].
  destruct (iss_irq_check irq_answer w1) as [[late w2]|] eqn:Ei; [|done]. cbn [mbind option_bind] in E.
  pose proof (irq_check_running _ _ _ _ Hr1 Hc1 Ei) as H2.
  assert (Hend : forall cycles w3, executed w3 -> Some
     (let w4 := if stalled (w_cpu w3) =? 0 then enqueue_next_instr cycles w3
                else if misaligned_access (w_cpu w3) then event_enqueue misaligned_event (misaligned_latency (w_cpu w3)) w3
                else upd_cpu (set_is_active false) w3 in
      if step_mode w4 && negb (debug_mode (w_ctl w1)) then
        let w5 := set_hit_reg (Z.lor (hit_reg w4) 1) (set_do_step false w4) in
        check_state check (if gdbserver then set_halted true w5 else set_halt_mode riscv_dbg_unit true HALT_CAUSE_STEP check w5)
      else w4) = Some w' -> inv w').
  { intros cycles w3 H3 E3. pose proof (after_insn cycles w3 H3) as Hi. cbv zeta in E3.
    destruct (pre_run _ (inv_pre _ Hi)) as [_ Hstep]. rewrite Hstep in E3. cbn [andb] in E3. by injection E3 as <-. }
  destruct late; cbn [mbind option_bind] in E; [exact (Hend _ _ H2 E)|].
  destruct (exec_no_fetch_common code insn_handler w2) as [w3|] eqn:E3; [|done]. cbn [mbind option_bind] in E.
  refine (Hend _ _ _ E). apply executed_cpu; [apply same_account|]. apply executed_cpu; [apply same_account_cycles|].
  apply fetch_executed. exact (proj1 (exec_no_fetch_executed false w2 w3 H2 E3)).
Qed.

(** ** Runs of the component

    The data port answers the second half of a misaligned access at once, as the code expects; responses come
    for stalled accesses only; the fetch is enabled on an inactive core. *)
Hypothesis data_sync : forall addr d n is_write (s s' : iss (S := S)) err r,
  data_req_aligned port data addr d n is_write s = Some (err, r, s') -> err = IO_REQ_OK.

Inductive step : wrapper -> wrapper -> Prop :=
| step_fire e irq_answer answer check w w' :
    is_enqueued e w = true -> fire riscv_dbg_unit gdbserver code port data e irq_answer answer check w = Some w' -> step w w'
| step_irq irq w : step w (irq_req_sync irq w)
| step_data regs latency answer w : misaligned w = false -> 0 < stalls w -> step w (data_response regs latency answer w)
| step_fetch answer w : (if misaligned w then 1 else 0) < stalls w -> step w (fetch_response answer w)
| step_fetchen bootaddr enable answer w :
    (enable = true -> fetch_enable w = false -> active w = false) -> step w (fetchen_sync bootaddr enable answer w)
| step_debug answer w : step w (debug_req answer w)
| step_flush answer w : step w (flush_cache_ack_sync answer w).

Lemma core_events_ext w w' : events w' = events w -> core_events w' = core_events w.
Proof. unfold core_events. by intros ->. Qed.
Lemma core_events_cancel e w : core_events (event_cancel e w) = filter (fun p => p.1 <> e) (core_events w).
Proof.
  unfold core_events, event_cancel. cbn [events set_events]. rewrite !list_filter_filter.
  apply list_filter_iff. intros p. tauto.
Qed.

(** The event taken from the engine. *)
Lemma fire_running e w : inv w -> is_enqueued e w = true -> e <> irq_sync_event ->
  if decide (e = misaligned_event) then active w = true /\ misaligned w = true /\ core_events (event_cancel e w) = []
  else running (event_cancel e w).
Proof.
  intros [[P1 P2 P3 P4 P5 P6] _ I2 I3] He Hne. unfold is_enqueued in He. apply bool_decide_eq_true in He.
  apply list_elem_of_fmap in He as ([e' n] & -> & Hin). cbn [fst] in *.
  assert (Hin' : (e', n) ∈ core_events w) by (by apply list_elem_of_filter).
  destruct (active w) eqn:Ha; [|rewrite P3 in Hin'; by apply elem_of_nil in Hin'].
  destruct P3 as (e0 & n0 & P3 & Hmis). rewrite P3 in Hin'. apply list_elem_of_singleton in Hin' as [= -> ->].
  assert (Hc : core_events (event_cancel e0 w) = []).
  { rewrite core_events_cancel, P3. cbn [filter list_filter fst]. by rewrite decide_False by auto. }
  case_decide as Hd.
  - split; [done|]. split; [by apply Hmis|done].
  - assert (Hm : misaligned w = false).
    { destruct (misaligned w) eqn:E; [|done]. destruct Hd. by apply Hmis. }
    split; try done. by apply P4.
Qed.

Lemma pre_cpu f w : (forall c, same_core c (f c)) -> pre w -> pre (upd_cpu f w).
Proof.
  intros Hf [R1 R2 R3 R4 R5 R6]. destruct (Hf (w_cpu w)) as (E1 & E2 & E3).
  split; try done; unfold stalls, misaligned, active, w_cpu in *; cbn [w_iss upd_cpu set_w_iss set_cpu cpu]; unfold w_cpu; rewrite ?E1, ?E2, ?E3; done.
Qed.

(** A response ends one stall. *)
Lemma pre_unstall w : pre w -> (if misaligned w then 1 else 0) < stalls w -> pre (upd_cpu (fun c => set_stalled (stalled c - 1) c) w).
Proof.
  intros [R1 R2 R3 R4 R5 R6] Hs. split; try done.
  - change (0 <= stalls w - 1). destruct (misaligned w); lia.
  - intros Hm. change (misaligned w = true) in Hm. destruct (R2 Hm). split; [done|]. change (1 <= stalls w - 1). rewrite Hm in Hs. lia.
Qed.

(** The program counter set on an inactive core. *)
Lemma pc_set_pre value w : active w = false -> pre w -> pre (iss_pc_set value w).
Proof.
  intros Ha [P1 P2 P3 P4 P5 P6]. rewrite Ha in P3. unfold iss_pc_set, prefetcher_refetch.
  set (w1 := upd_cpu (set_is_active false) _). 
  assert (Hc1 : core_events w1 = []) by (by rewrite (core_events_ext w)).
  assert (Hm1 : misaligned w1 = false).
  { change (misaligned w1) with (misaligned w). destruct (misaligned w); [destruct (P2 eq_refl); congruence|done]. }
  assert (Hp1 : pre w1) by (split; try done; intros H; congruence). 
  destruct (is_enqueued (current_event w1) w1); [|done]. destruct Hp1 as [? ? ? ? ? ?]. split; try done.
  change (core_events (event_cancel (current_event w1) w1) = []). by rewrite core_events_cancel, Hc1.
Qed.

(** The second half of a misaligned access. *)
Lemma exec_misaligned_spec (s s' : iss (S := S)) delay :
  exec_misaligned port data s = Some (delay, s') ->
  stalled (cpu s') = stalled (cpu s) - 1 /\ is_active (cpu s') = is_active (cpu s) /\ misaligned_access (cpu s') = false /\
  (is_active (cpu s) = true -> exists n, delay = Some n) /\ (is_active (cpu s) = false -> delay = None).
Proof.
  intros E. unfold exec_misaligned in E.
  match type of E with context [data_req_aligned port data ?a ?d ?n ?b ?x] =>
    destruct (data_req_aligned port data a d n b x) as [[[err r] s1]|] eqn:Ed; [|done]; set (s0 := x) in Ed end.
  cbn [mbind option_bind] in E. pose proof (data_sync _ _ _ _ _ _ _ _ Ed) as ->.
  assert (H0 : stalled (cpu s0) = stalled (cpu s) - 1 /\ is_active (cpu s0) = is_active (cpu s)).
  { unfold s0, iss_pccr_account_event. cbn [cpu set_cpu]. by destruct (_ && _). }
  assert (H1 : same_core (cpu s0) (cpu s1)).
  { unfold data_req_aligned in Ed. destruct (master_req port data _ (hst s0) (bus s0)) as [[[[err' r'] h'] b']|]; [|done].
    cbn [mbind option_bind] in Ed. by destruct err'; simplify_eq. }
  injection E as <- <-. destruct H0 as [<- <-], H1 as (<- & H1 & _). unfold iss_exec_insn_terminate.
  destruct (same_account_cycles (insn_cycles (cpu s1)) (cpu s1)) as (E1 & E2 & _).
  cbn [cpu set_cpu set_misaligned_access stalled is_active misaligned_access]. rewrite E1, E2, H1. split_and!; try done.
  - intros ->. by eexists.
  - by intros ->.
Qed.

Lemma misaligned_inv w w' :
  inv w -> active w = true -> misaligned w = true -> core_events (event_cancel misaligned_event w) = [] ->
  exec_misaligned_event port data (event_cancel misaligned_event w) = Some w' -> inv w'.
Proof.
  intros [[P1 P2 P3 P4 P5 P6] _ I2 I3] Ha Hm Hc E. unfold exec_misaligned_event in E.
  change (w_iss (event_cancel misaligned_event w)) with (w_iss w) in E.
  destruct (exec_misaligned port data (w_iss w)) as [[delay s]|] eqn:Es; [|done]. cbn [mbind option_bind] in E.
  destruct (exec_misaligned_spec _ _ _ Es) as (E1 & E2 & E3 & E4 & _). destruct (E4 Ha) as (n & ->). injection E as <-.
  set (w1 := set_w_iss s (event_cancel misaligned_event w)).
  assert (Ha1 : active w1 = true) by (exact (eq_trans E2 Ha)).
  destruct (P2 Hm) as [_ Hs].
  split; [split|..]; try done.
  - change (0 <= stalled (cpu s)). rewrite E1. unfold stalls, w_cpu in Hs. lia.
  - intros H. change (misaligned_access (cpu s) = true) in H. congruence.
  - rewrite active_enqueue, Ha1. do 2 eexists. rewrite core_events_enqueue.
    + change (core_events w1) with (core_events (event_cancel misaligned_event w)). rewrite Hc. split; [done|].
      rewrite misaligned_enqueue. change (misaligned w1) with (misaligned_access (cpu s)). rewrite E3. split; [done|].
      change (current_event w1) with (current_event w). destruct I3; congruence.
    + change (current_event w1) with (current_event w). destruct I3; congruence.
  - intros _. exact (P4 Ha).
  - intros H. change (active w1 = false) in H. congruence.
Qed.

Lemma core_step_inv w w' : inv w -> step w w' -> inv w'.
Proof.
  intros Hi Hstep. destruct Hstep as [e irq_answer answer check w w' He E|irq w|regs latency answer w Hm Hs|answer w Hs
    |bootaddr enable answer w Hen|answer w|answer w].
  - destruct (decide (e = irq_sync_event)) as [->|Hne].
    + change (Some (irq_req_sync_handler check (event_cancel irq_sync_event w)) = Some w') in E. apply (inj Some) in E as <-.
      apply core_check_state_inv. set (w1 := event_cancel irq_sync_event w).
      assert (Hc : core_events w1 = core_events w).
      { unfold w1. rewrite core_events_cancel. unfold core_events. rewrite list_filter_filter. apply list_filter_iff. tauto. }
      destruct Hi as [[P1 P2 P3 P4 P5 P6] _ _ _].
      unfold iss_irq_req. change (c_elw_stalled _) with (c_elw_stalled (w_ctl w)). rewrite P6, andb_false_r.
      split; try done. rewrite (core_events_ext w1), Hc by done. exact P3.
    + pose proof (fire_running e w Hi He Hne) as Hr. destruct e; cbn [fire] in E; try done.
      * exact (exec_instr_inv _ _ _ Hr E).
      * exact (exec_check_all_inv _ _ _ _ _ Hr E).
      * destruct Hr as (Ha & Hm & Hc). exact (misaligned_inv w w' Hi Ha Hm Hc E).
  - unfold irq_req_sync. destruct (is_enqueued irq_sync_event (set_irq_req_value irq w)); destruct Hi as [[] ? ? ?]; by split; [split|..].
  - apply core_check_state_inv. set (w1 := set_wakeup_latency latency _). change (misaligned_access (w_cpu w1)) with (misaligned w).
    rewrite Hm. assert (Hp1 : pre w1).
    { destruct (pre_unstall w (inv_pre w Hi)); [by rewrite Hm|]. by split. }
    clearbody w1. apply pre_cpu; [intros c; exact (same_account_cycles (insn_cycles c) c)|].
    destruct (stall_callback (w_cpu w1)) as [[]|]; try done; destruct Hp1; by split.
  - apply core_check_state_inv, pre_unstall; [apply Hi|done].
  - apply core_check_state_inv. set (w1 := set_fetch_enable enable w).
    assert (Hp1 : pre w1) by (destruct (inv_pre w Hi); by split).
    destruct (negb (fetch_enable w) && enable) eqn:Hrise; [|done].
    apply andb_true_iff in Hrise as [Hf ->]. apply negb_true_iff in Hf.
    apply pc_set_pre; [exact (Hen eq_refl Hf)|done].
  - apply core_check_state_inv. destruct (inv_pre w Hi). by split.
  - apply core_check_state_inv, pre_cpu; [intros c; exact (same_account_cycles (insn_cycles c) c)|apply Hi].
Qed.

(** ** The properties *)

(** A component that is built and not started. *)
Record off (w : wrapper) : Prop := {
  off_active : active w = false;
  off_stall : stalls w = 0 /\ misaligned w = false;
  off_events : events w = [];
  off_run : halted w = false /\ step_mode w = false;
  off_elw : c_elw_stalled (w_ctl w) = false;
}.

Lemma off_pre w : off w -> pre w.
Proof.
  intros [H1 [H2 H2'] H3 H4 H5]. split; try done; try (intros; congruence); [lia|]. rewrite H1. unfold core_events. by rewrite H3.
Qed.

Lemma pre_ctl f w : (forall c, c_elw_stalled (f c) = c_elw_stalled c) -> pre w -> pre (upd_ctl f w).
Proof. intros Hf [P1 P2 P3 P4 P5 P6]. split; try done. exact (eq_trans (Hf (w_ctl w)) P6). Qed.

Lemma reset_inv bootaddr bootaddr_offset answer w : gdbserver = false -> off w -> inv (reset_off gdbserver bootaddr bootaddr_offset answer w).
Proof.
  intros Hg Ho. unfold reset_off. rewrite Hg. apply core_check_state_inv.
  apply pre_ctl; [done|]. apply pc_set_pre; [apply Ho|]. apply pre_cpu; [done|]. apply pre_ctl; [done|]. by apply off_pre.
Qed.

Lemma run_inv w w' : inv w -> rtc step w w' -> inv w'.
Proof. intros Hi Hr. induction Hr as [|? ? ? Hs _ IH]; [done|]. by apply IH, (core_step_inv _ _ Hi). Qed.

Lemma inv_core_event w : inv w -> active w = true ->
  exists e n, core_events w = [(e, n)] /\
    if misaligned w then e = misaligned_event else e = instr_event \/ e = check_all_event.
Proof.
  intros Hi Ha. pose proof (pre_event w (inv_pre w Hi)) as He. rewrite Ha in He. destruct He as (e & n & He & Hm).
  exists e, n. split; [done|]. assert (Hin : (e, n) ∈ core_events w) by (rewrite He; by left).
  apply list_elem_of_filter in Hin as [Hne _]. cbn in Hne. destruct (misaligned w); [by apply Hm|].
  destruct e; auto; [by destruct Hm as [_ Hm]; specialize (Hm eq_refl)|done].
Qed.

(** C11: The core is never lost nor run twice: from the reset of a component that is built and not started,
    without the GDB server, an active core has exactly one event of its own in the clock engine, the second
    half of a misaligned access if one is under way and an instruction otherwise; an inactive core has none,
    and the fetch is disabled, or an access is awaited, or it waits for an interrupt and none is requested.
    The run is of any events, interrupt requests, debug requests, cache flushes, responses for accesses that
    are stalled (none for data during a misaligned access), and fetch enables, a fetch being enabled on an
    inactive core only (one disabled and enabled during a misaligned access loses the core, see
    [fetch_toggle_loses]). The handlers of the instructions change the state as [HandlerOk] says, the data
    port answers the second half of a misaligned access at once, and neither the GDB server nor the old debug
    unit halts the core. *)
Theorem core_never_lost bootaddr bootaddr_offset answer w0 w :
  gdbserver = false -> off w0 -> rtc step (reset_off gdbserver bootaddr bootaddr_offset answer w0) w ->
  (active w = true -> exists e n, core_events w = [(e, n)] /\
     if misaligned w then e = misaligned_event else e = instr_event \/ e = check_all_event) /\
  (active w = false -> core_events w = [] /\
     (fetch_enable w = false \/ 0 < stalls w \/ (wfi w = true /\ irq_req w = -1))).
Proof.
  intros Hg Ho Hr. pose proof (run_inv _ _ (reset_inv _ _ _ _ Hg Ho) Hr) as Hi. split.
  - by apply inv_core_event.
  - intros Ha. split; [|by apply inv_awake]. pose proof (pre_event w (inv_pre w Hi)) as He. by rewrite Ha in He.
Qed.





Lemma not_enqueued e w : e <> irq_sync_event -> e ∉ (core_events w).*1 -> is_enqueued e w = false.
Proof.
  intros Hne Hn. unfold is_enqueued. apply bool_decide_eq_false. intros Hin. apply Hn.
  apply list_elem_of_fmap in Hin as (p & -> & Hin). apply list_elem_of_fmap. exists p. split; [done|].
  by apply list_elem_of_filter.
Qed.

(** A running core stopped by the GDB server, and continued. *)
Definition stopped w : wrapper :=
  halt_core (upd_cpu (set_is_active false) (set_current_event check_all_event (set_halted true w))).
Lemma stop_leaves answer w :
  active w = true -> do_step w = false -> is_enqueued (current_event w) w = false -> gdbserver_stop answer w = stopped w.
Proof.
  intros Ha Hd He. unfold gdbserver_stop. rewrite check_state_halt; [|exact Ha|reflexivity|exact Hd]. cbv zeta.
  replace (is_enqueued (current_event (set_halted true w)) (set_halted true w)) with false by (symmetry; exact He). reflexivity.
Qed.
Lemma continue_stalled answer w :
  active w = false -> 0 < stalls w -> gdbserver_cont answer w = set_current_event check_all_event (set_halted false w).
Proof.
  intros Ha Hs. unfold gdbserver_cont. rewrite check_state_inactive; [|exact Ha|reflexivity]. cbv zeta.
  replace (stalls (set_halted false w) =? 0) with false by (symmetry; apply Z.eqb_neq; change (stalls w <> 0); lia).
  by rewrite andb_false_r.
Qed.
Lemma misaligned_asleep w w' :
  active w = false -> exec_misaligned_event port data (event_cancel misaligned_event w) = Some w' ->
  active w' = false /\ halted w' = halted w /\ stalls w' = stalls w - 1 /\ wfi w' = wfi w /\
  events w' = filter (fun p => p.1 <> misaligned_event) (events w).
Proof.
  intros Ha E. unfold exec_misaligned_event in E. change (w_iss (event_cancel misaligned_event w)) with (w_iss w) in E.
  destruct (exec_misaligned port data (w_iss w)) as [[delay s]|] eqn:Es; [|done]. cbn [mbind option_bind] in E.
  destruct (exec_misaligned_spec _ _ _ Es) as (F1 & F2 & F3 & _ & F5). rewrite (F5 Ha) in E. apply (inj Some) in E as <-.
  split; [exact (eq_trans F2 Ha)|]. split; [reflexivity|]. split; [exact F1|]. by split.
Qed.

(** What the state machine loses when the GDB server stops the core. An active core whose next instruction
    was enqueued with the fast handlers, and that has been asked for the full ones since (by an
    interrupt, or by a state check), is halted without removing that instruction: it runs it while halted.
    And a core stopped and continued during a misaligned access ends the access asleep, with nothing that
    could wake it. *)
Theorem gdb_stop_loses bootaddr bootaddr_offset boot_answer w0 w answer answer' :
  gdbserver = false -> off w0 -> rtc step (reset_off gdbserver bootaddr bootaddr_offset boot_answer w0) w ->
  active w = true ->
  (forall n, core_events w = [(instr_event, n)] -> current_event w = check_all_event -> do_step w = false ->
     let w1 := gdbserver_stop answer w in
     halted w1 = true /\ active w1 = false /\ core_events w1 = [(instr_event, n)]) /\
  (misaligned w = true -> do_step w = false -> stalls w = 1 -> debug_mode (w_ctl w) = false ->
     let w1 := gdbserver_cont answer' (gdbserver_stop answer w) in
     forall w2, exec_misaligned_event port data (event_cancel misaligned_event w1) = Some w2 ->
     active w2 = false /\ halted w2 = false /\ stalls w2 = 0 /\ wfi w2 = false /\ core_events w2 = []).
Proof.
  intros Hg Ho Hrun Ha. pose proof (run_inv _ _ (reset_inv _ _ _ _ Hg Ho) Hrun) as Hi. split.
  - intros n Hev Hc Hd w1.
    assert (E : w1 = stopped w).
    { apply stop_leaves; [done..|]. rewrite Hc. apply not_enqueued; [done|]. rewrite Hev. set_solver. }
    rewrite E. split; [reflexivity|]. split; [reflexivity|]. rewrite (core_events_ext w); [done|reflexivity].
  - intros Hm Hd Hs Hdm. cbv zeta. intros w2 E2. destruct (inv_core_event w Hi Ha) as (e & n & Hev & He). rewrite Hm in He. subst e.
    assert (Hne : is_enqueued (current_event w) w = false).
    { pose proof (inv_current w Hi) as Hcur. apply not_enqueued; [by destruct Hcur as [-> | ->]|]. rewrite Hev.
      destruct Hcur as [-> | ->]; set_solver. }
    rewrite (stop_leaves answer w Ha Hd Hne) in E2.
    rewrite (continue_stalled answer' (stopped w)) in E2; [|reflexivity|change (0 < stalls w); lia].
    apply misaligned_asleep in E2 as (F1 & F2 & F3 & F4 & F5); [|reflexivity].
    split; [exact F1|]. split; [exact F2|].
    split; [rewrite F3; change (stalls w - 1 = 0); lia|]. split; [rewrite F4; exact (pre_wfi w (inv_pre w Hi) Ha)|].
    rewrite (core_events_ext (event_cancel misaligned_event w)), core_events_cancel, Hev; [|exact F5].
    cbn [filter list_filter fst]. by rewrite decide_False by auto.
Qed.
End Steps.
End Invariant.

(** ** The handlers of Rv32.v are calm *)

Section Insns.
Context {S : Type} (regs null_reg port : Z) (data : io_meth S).
Hypothesis data_sync : forall addr d n is_write (s s' : iss (S := S)) err r,
  data_req_aligned port data addr d n is_write s = Some (err, r, s') -> err = IO_REQ_OK.
Implicit Types (i : iss_insn).

Definition calm_core (c c' : core) : Prop :=
  is_active c' = is_active c /\
  ((stalled c' = stalled c /\ misaligned_access c' = misaligned_access c) \/ stalled c' = stalled c + 1).
Lemma calm_same c c' : same_core c c' -> calm_core c c'.
Proof. intros (E1 & E2 & E3). split; [done|]. by left. Qed.

Lemma insn_result_calm i v (s : iss (S := S)) next s' :
  insn_result regs i v s = Some (next, s') -> calm_core (cpu s) (cpu s').
Proof. unfold insn_result. destruct v; [|done]. cbn [mbind option_bind]. intros E. simplify_eq. by apply calm_same. Qed.
Lemma stalled_result_calm i v c (s : iss (S := S)) next s' :
  stalled_result regs i v c s = Some (next, s') -> calm_core (cpu s) (cpu s').
Proof. unfold stalled_result. destruct c; [|done]. cbn [mbind option_bind]. intros E. simplify_eq. by apply calm_same. Qed.

Lemma register_insns_calm f op o : (f, op, o) ∈ register_insns (S := S) regs -> InsnOk f.
Proof.
  intros Hin i s next s' E. unfold register_insns in Hin.
  repeat (apply elem_of_cons in Hin as [Hin|Hin];
    [injection Hin as -> -> ->; first [exact (insn_result_calm _ _ _ _ _ E)|exact (stalled_result_calm _ _ _ _ _ _ E)]|]).
  by apply elem_of_nil in Hin.
Qed.

Lemma same_trans c1 c2 c3 : same_core c1 c2 -> same_core c2 c3 -> same_core c1 c3.
Proof. intros (E1 & E2 & E3) (F1 & F2 & F3). split_and!; congruence. Qed.
Lemma same_event (b : bool) event (s : iss (S := S)) : same_core (cpu s) (cpu (if b then account event s else s)).
Proof. destruct b; [apply same_account|done]. Qed.

Lemma branch_insns_calm f op : (f, op) ∈ branch_insns (S := S) regs -> InsnOk f.
Proof.
  intros Hin i s next s' E.
  assert (H : exists taken perf, branch_common taken perf i s = Some (next, s')).
  { unfold branch_insns in Hin.
    repeat (apply elem_of_cons in Hin as [Hin|Hin]; [injection Hin as -> ->; do 2 eexists; exact E|]). by apply elem_of_nil in Hin. }
  destruct H as (taken & perf & E'). unfold branch_common in E'. apply calm_same.
  apply (same_trans _ _ _ (same_event perf CSR_PCER_BRANCH s)).
  destruct taken; injection E' as _ <-; [|done]. exact (same_event perf CSR_PCER_TAKEN_BRANCH _).
Qed.
#[export] Instance jal_calm perf : InsnOk (jal_exec_common (S := S) regs perf).
Proof.
  intros i s next s' E. injection E as _ <-. apply calm_same.
  apply (same_trans _ (cpu (if negb (REG_OUT i 0 =? 0) then REG_SET regs i 0 (u32 (i_addr i + i_size i)) s else s))).
  - by destruct (negb _).
  - exact (same_event perf CSR_PCER_JUMP _).
Qed.
#[export] Instance jalr_calm perf : InsnOk (jalr_exec_common (S := S) regs perf).
Proof.
  intros i s next s' E. injection E as _ <-. apply calm_same.
  apply (same_trans _ (cpu (if negb (REG_OUT i 0 =? 0) then REG_SET regs i 0 (u32 (i_addr i + i_size i)) s else s))).
  - by destruct (negb _).
  - exact (same_event perf CSR_PCER_JUMP _).
Qed.

(** The accesses: over at once, or stalled once. *)
Lemma data_req_calm addr d n is_write (s s' : iss (S := S)) err :
  data_req port data addr d n is_write s = Some (err, s') ->
  is_active (cpu s') = is_active (cpu s) /\ stalled (cpu s') = stalled (cpu s) /\
  (err = IO_REQ_OK -> misaligned_access (cpu s') = misaligned_access (cpu s)).
Proof.
  assert (Hal : forall a p m w (x x' : iss (S := S)) e r, data_req_aligned port data a p m w x = Some (e, r, x') -> same_core (cpu x) (cpu x')).
  { intros a p m w x x' e r E. unfold data_req_aligned in E.
    destruct (master_req port data _ (hst x) (bus x)) as [[[[err' r'] h'] b']|]; [|done].
    cbn [mbind option_bind] in E. destruct err'; by simplify_eq. }
  intros E. unfold data_req in E. destruct (_ =? _).
  - destruct (data_req_aligned port data addr d n is_write s) as [[[e r] x]|] eqn:Ed; [|done]. cbn [mbind option_bind] in E.
    simplify_eq. by destruct (Hal _ _ _ _ _ _ _ _ Ed) as (-> & -> & ->).
  - unfold data_misaligned_req in E.
    match type of E with context [data_req_aligned port data ?a ?p ?m ?w ?x] =>
      destruct (data_req_aligned port data a p m w x) as [[[e r] x']|] eqn:Ed; [|done]; set (s0 := x) in Ed end.
    cbn [mbind option_bind] in E. pose proof (data_sync _ _ _ _ _ _ _ _ Ed) as ->.
    assert (H0 : stalled (cpu s0) = stalled (cpu s) /\ is_active (cpu s0) = is_active (cpu s)).
    { destruct (same_account CSR_PCER_MISALIGNED 1 (cpu s)) as (E1 & E2 & _). by split. }
    destruct (Hal _ _ _ _ _ _ _ _ Ed) as (F1 & F2 & _). injection E as <- <-. destruct H0 as [H1 H2].
    split; [exact (eq_trans F2 H2)|]. split; [exact (eq_trans F1 H1)|done].
Qed.

(** The three accesses of the load-store unit, from a core that [s0] counts in. *)
Lemma access_calm (s0 s s' : iss (S := S)) addr d n is_write (done_ : iss (S := S) -> iss (S := S)) cb reg (size : iss (S := S) -> Z) :
  same_core (cpu s0) (cpu s) -> (forall x, cpu (done_ x) = cpu x) ->
  (let* r := data_req port data addr d n is_write s in
   match r.1 with IO_REQ_OK => Some (done_ r.2) | _ => Some (stall_access cb reg (size r.2) r.2) end) = Some s' ->
  calm_core (cpu s0) (cpu s').
Proof.
  intros (E1 & E2 & E3) Hd E. destruct (data_req port data addr d n is_write s) as [[err x]|] eqn:Er; [|done].
  destruct (data_req_calm _ _ _ _ _ _ _ Er) as (F1 & F2 & F3). cbn [mbind option_bind fst snd] in E. unfold calm_core.
  destruct err; injection E as <-.
  - rewrite Hd. specialize (F3 eq_refl). split; [congruence|]. left. split; congruence.
  - split; [exact (eq_trans F1 E2)|]. right. cbn. congruence.
  - split; [exact (eq_trans F1 E2)|]. right. cbn. congruence.
  - split; [exact (eq_trans F1 E2)|]. right. cbn. congruence.
Qed.

Lemma lsu_load_calm (s0 s s' : iss (S := S)) addr n reg :
  same_core (cpu s0) (cpu s) -> iss_lsu_load regs null_reg port data addr n reg s = Some s' -> calm_core (cpu s0) (cpu s').
Proof.
  intros H E. unfold iss_lsu_load in E.
  destruct (data_req port data addr _ n false (set_reg regs reg 0 s)) as [[err x]|] eqn:Er; [|done].
  refine (access_calm s0 (set_reg regs reg 0 s) s' addr _ n false (fun x => x) LoadResume reg (fun x => stall_size (cpu x)) _ _ _); [exact H|done|].
  rewrite Er. exact E.
Qed.
Lemma lsu_load_signed_calm (s0 s s' : iss (S := S)) addr n reg :
  same_core (cpu s0) (cpu s) -> iss_lsu_load_signed regs null_reg port data addr n reg s = Some s' -> calm_core (cpu s0) (cpu s').
Proof.
  intros H E. unfold iss_lsu_load_signed in E.
  destruct (data_req port data addr _ n false s) as [[err x]|] eqn:Er; [|done].
  refine (access_calm s0 s s' addr _ n false (fun x => set_reg regs reg (iss_get_signed_value (get_reg regs x reg) (n * 8)) x)
    LoadSignedResume reg (fun _ => n) _ _ _); [exact H|done|].
  rewrite Er. exact E.
Qed.
Lemma lsu_store_calm (s0 s s' : iss (S := S)) addr n reg :
  same_core (cpu s0) (cpu s) -> iss_lsu_store regs port data addr n reg s = Some s' -> calm_core (cpu s0) (cpu s').
Proof.
  intros H E. unfold iss_lsu_store in E.
  destruct (data_req port data addr _ n true s) as [[err x]|] eqn:Er; [|done].
  refine (access_calm s0 s s' addr _ n true (fun x => x) StoreResume reg (fun x => stall_size (cpu x)) _ _ _); [exact H|done|].
  rewrite Er. exact E.
Qed.
Lemma then_next_some i (x : option (iss (S := S))) r : then_next i x = Some r -> x = Some r.2.
Proof. destruct x; [|done]. intros E. injection E as <-. done. Qed.
Lemma after_check {A} (x : option unit) (y : option A) r : (let* _ := x in y) = Some r -> y = Some r.
Proof. by destruct x. Qed.

Ltac access E := first [apply after_check in E|idtac]; apply then_next_some in E;
  first [exact (lsu_load_calm _ _ _ _ _ _ (same_event false CSR_PCER_LD _) E)
        |exact (lsu_load_calm _ _ _ _ _ _ (same_event true CSR_PCER_LD _) E)
        |exact (lsu_load_signed_calm _ _ _ _ _ _ (same_event false CSR_PCER_LD _) E)
        |exact (lsu_load_signed_calm _ _ _ _ _ _ (same_event true CSR_PCER_LD _) E)
        |exact (lsu_store_calm _ _ _ _ _ _ (same_event false CSR_PCER_ST _) E)
        |exact (lsu_store_calm _ _ _ _ _ _ (same_event true CSR_PCER_ST _) E)].

Lemma load_insns_calm f n sgn : (f, n, sgn) ∈ load_insns regs null_reg port data -> InsnOk f.
Proof.
  intros Hin i s next s' E. unfold load_insns in Hin.
  repeat (apply elem_of_cons in Hin as [Hin|Hin]; [injection Hin as -> -> ->; access E|]). by apply elem_of_nil in Hin.
Qed.
Lemma store_insns_calm f n : (f, n) ∈ store_insns regs port data -> InsnOk f.
Proof.
  intros Hin i s next s' E. unfold store_insns in Hin.
  repeat (apply elem_of_cons in Hin as [Hin|Hin]; [injection Hin as -> ->; access E|]). by apply elem_of_nil in Hin.
Qed.
End Insns.

(** ** A concrete core

    A device that answers everything at once; at 128 a misaligned lw from x7, then the interrupts are
    enabled, then wfi, and mret at the vector of interrupt 3. *)

Definition demo_device : io_meth unit := fun r h s => Some (IO_REQ_OK, r, h, s).
Definition enable_exec (next : Z) : handler (S := unit) := fun w => Some (next, iss_irq_enable true w).
Definition demo_lw : iss_insn := Insn 128 4 [7] [5] [] [0] 132 0.
Definition demo_program (pc : Z) : option (decoded (S := unit)) :=
  let both (h : handler (S := unit)) := Some (Decoded h h) in
  if pc =? 128 then both (lift_insn (lw_exec_fast 5000 4000 1 demo_device) demo_lw)
  else if pc =? 132 then both (enable_exec 136)
  else if pc =? 136 then both (wfi_exec 140)
  else if pc =? 12 then both mret_exec
  else None.
Definition demo_ctl : ctl :=
  Ctl None false false 0 0 0 0 0 (Hwloops (replicate 7 0) [0; 0] [0; 0] 0 ∅ None false false) false false false (-1) false 0
    (replicate 35 None) 0 [] (Csrs 0 0 0 0 0 0 0 0 0 0 []).
Definition demo_built : wrapper (S := unit) :=
  Wrapper false true false false false (-1) (-1) check_all_event [] 0 0 0 0 0 0 demo_ctl
    (Iss (Core 0 0 0 (replicate 32 0) 0 0 0 0 None 0 0 0 0 false false 0 0 0 false 0) (iss_set_reg 5000 7 2 ∅) tt).
Abbreviation demo_reset := (reset_off false 128 0 Hit demo_built).

Lemma demo_device_sync addr d n is_write (s s' : iss (S := unit)) err r :
  data_req_aligned 1 demo_device addr d n is_write s = Some (err, r, s') -> err = IO_REQ_OK.
Proof. unfold data_req_aligned, demo_device, master_req. cbn. intros E. by injection E as <- <- <-. Qed.

Lemma demo_program_ok pc d : demo_program pc = Some d -> HandlerOk (insn_handler d) /\ HandlerOk (insn_fast_handler d).
Proof.
  assert (H1 : HandlerOk (lift_insn (lw_exec_fast 5000 4000 1 demo_device) demo_lw)).
  { apply lift_insn_ok. apply (load_insns_calm 5000 4000 1 demo_device demo_device_sync _ 4 false).
    by apply (list_elem_of_lookup_2 _ 2). }
  assert (H2 : HandlerOk (enable_exec 136)).
  { intros w n w' Hw E. apply (inj Some) in E. injection E as _ <-. by apply irq_enable_calm. }
  unfold demo_program. intros E. repeat (case_match; [injection E as <-; by split; try apply _|]). done.
Qed.

Lemma demo_off : off demo_built.
Proof. by split. Qed.
Abbreviation demo_step := (step false true demo_program 1 demo_device).
Abbreviation demo_fire := (fire true false demo_program 1 demo_device).

(** The events of the core, in order, with fetches that hit. *)
Fixpoint demo_run (l : list event) (w : wrapper (S := unit)) : option (wrapper (S := unit)) :=
  match l with
  | [] => Some w
  | e :: l => if is_enqueued e w then let* w := demo_fire e Hit Hit Hit w in demo_run l w else None
  end.
Lemma demo_run_steps l w w' : demo_run l w = Some w' -> rtc demo_step w w'.
Proof.
  revert w. induction l as [|e l IH]; intros w E; cbn [demo_run] in E; [by injection E as <-|].
  destruct (is_enqueued e w) eqn:He; [|done]. destruct (demo_fire e Hit Hit Hit w) as [w1|] eqn:E1; [|done].
  apply (rtc_l _ _ w1); [|by apply IH]. exact (step_fire _ _ _ _ _ e Hit Hit Hit w w1 He E1).
Qed.

(** What is computed of a state. *)
Lemma demo_eval {A B} (f : A -> B) (o : option A) x y : o = Some x -> option_map f o = Some y -> f x = y.
Proof. intros ->. cbn. congruence. Qed.
Lemma demo_some {A} (o : option A) : option_map (fun _ => tt) o = Some tt -> exists x, o = Some x.
Proof. destruct o; [by eexists|done]. Qed.
Lemma demo_then {A B} (f : A -> option B) (o : option A) x :
  o = Some x -> option_map (fun x => bool_decide (is_Some (f x))) o = Some true -> exists y, f x = Some y.
Proof. intros ->. cbn. intros E. injection E as E. by apply bool_decide_eq_true in E as [y Ey]; exists y. Qed.
Ltac demo E := match type of E with _ = Some ?w => pattern w end;
  match goal with |- (fun x => @?f x = @?g x) ?w => change (f w = g w) end;
  match goal with |- ?f ?w = _ => apply (demo_eval f _ _ _ E) end; vm_compute; reflexivity.

(** The misaligned load is under way. *)
Lemma core_never_lost_witness :
  exists w e n, demo_run [check_all_event] demo_reset = Some w /\ core_events w = [(e, n)] /\ e = misaligned_event.
Proof.
  destruct (demo_some (demo_run [check_all_event] demo_reset)) as [w E]; [vm_compute; reflexivity|].
  destruct (core_never_lost false true demo_program 1 demo_device demo_program_ok demo_device_sync 128 0 Hit demo_built w)
    as [H _]; [reflexivity|exact demo_off|exact (demo_run_steps _ _ _ E)|].
  assert (Ha : active w = true) by demo E. assert (Hm : misaligned w = true) by demo E.
  destruct (H Ha) as (e & n & Hev & He). rewrite Hm in He.
  exists w, e, n. split; [exact E|]. split; [exact Hev|exact He].
Defined.

(** The fetch disabled and enabled again during the misaligned load: its second half ends with the core
    asleep, without event, although the fetch is enabled and nothing is awaited. *)
Definition fetch_toggled (w : wrapper (S := unit)) : option (wrapper (S := unit)) :=
  let w := fetchen_sync 128 true Hit (fetchen_sync 128 false Hit w) in
  if is_enqueued misaligned_event w then demo_fire misaligned_event Hit Hit Hit w else None.
Lemma fetch_toggle_loses :
  match (let* w := demo_run [check_all_event] demo_reset in fetch_toggled w) with
  | Some w => active w = false /\ core_events w = [] /\ fetch_enable w = true /\ stalls w = 0 /\ wfi w = false
  | None => False
  end.
Proof. vm_compute. by split_and!. Qed.


(** Stopped and continued during the misaligned load. *)
Lemma gdb_stop_loses_witness :
  exists w w2, demo_run [check_all_event] demo_reset = Some w /\
    exec_misaligned_event 1 demo_device (event_cancel misaligned_event (gdbserver_cont Hit (gdbserver_stop Hit w))) = Some w2 /\
    active w2 = false /\ halted w2 = false /\ stalls w2 = 0 /\ core_events w2 = [].
Proof.
  destruct (demo_some (demo_run [check_all_event] demo_reset)) as [w E]; [vm_compute; reflexivity|].
  destruct (demo_then (fun w => exec_misaligned_event 1 demo_device
    (event_cancel misaligned_event (gdbserver_cont Hit (gdbserver_stop Hit w)))) _ _ E) as [w2 E2]; [vm_compute; reflexivity|].
  destruct (gdb_stop_loses false true demo_program 1 demo_device demo_program_ok demo_device_sync 128 0 Hit demo_built w Hit Hit)
    as [_ H]; [reflexivity|exact demo_off|exact (demo_run_steps _ _ _ E)|demo E|].
  destruct (H ltac:(demo E) ltac:(demo E) ltac:(demo E) ltac:(demo E) w2 E2) as (H1 & H2 & H3 & _ & H5).
  exists w, w2. split; [exact E|]. split; [exact E2|]. by split_and!.
Defined.
