(* ===== verification/Csr.v ===== *)
(** * Control and status registers
    (models/cpu/iss/src/csr.cpp, models/cpu/iss/include/priv.hpp)

    The reads and writes of every register, their dispatch on the number, the performance counters with those
    outside the core, and the six CSR instructions, over the core of Core.v.  The numbers of the registers of
    the hardware loops and of the stack check come from headers outside the repository: they are parameters. *)

From S2P Require Import Prelude Io Memory Rv32 PulpV2 Core.

Definition CSR_PCCR (n : Z) : Z := 0x780 + n.
Definition CSR_PCER : Z := 0x7A0.
Definition CSR_PCMR : Z := 0x7A1.
Definition CSR_PCER_NB_EVENTS : Z := 17.
Definition CSR_PCER_NB_INTERNAL_EVENTS : Z := 11.
Definition CSR_NB_PCCR : Z := 31.
Definition CSR_PCMR_ACTIVE : Z := 1.
Definition CSR_PCER_EVENT_MASK (id : Z) : Z := Z.shiftl 1 id.

Definition set_stack (conf start end_ : Z) (c : core) : core :=
  Rv32.Core (insn_cycles c) (pcmr c) (pcer c) (pccr c) conf start end_ (stalled c) (stall_callback c) (stall_reg c)
    (stall_size c) (current_insn c) (stall_insn c) (is_active c) (misaligned_access c) (misaligned_size c)
    (misaligned_data c) (misaligned_addr c) (misaligned_is_write c) (misaligned_latency c).
Definition set_perf (mr er : Z) (c : core) : core :=
  Rv32.Core (insn_cycles c) mr er (pccr c) (stack_conf c) (stack_start c) (stack_end c) (stalled c) (stall_callback c)
    (stall_reg c) (stall_size c) (current_insn c) (stall_insn c) (is_active c) (misaligned_access c) (misaligned_size c)
    (misaligned_data c) (misaligned_addr c) (misaligned_is_write c) (misaligned_latency c).

Section Csr.
Context {S : Type}.
Notation wrapper := (wrapper (S := S)).
Notation handler := (handler (S := S)).
(** The build options SECURE and the loops of the PULP extension, the numbers of their registers and of those of
    the stack check (#ifdef CSR_STACK_CONF), and the counters whose trace is active. *)
Context (secure hwloop : bool) (hwloop0_start hwloop1_counter : Z) (stack_csrs : option (Z * Z * Z)).
Context (pcer_trace : Z -> bool).
Implicit Types (w : wrapper).

(** A read gives the status, true for an error, and the value; its first argument is what the variable of the
    caller holds, which is the value of a read that does not set it. *)
Definition csr_read : Type := Z -> wrapper -> bool * Z * wrapper.
Definition csr_write : Type := Z -> wrapper -> bool * wrapper.

Definition csr (w : wrapper) : csrs := c_csr (w_ctl w).
Definition upd_csr (f : csrs -> csrs) : wrapper -> wrapper := upd_ctl (fun c => set_c_csr (f (c_csr c)) c).
Definition read_nothing : csr_read := fun value w => (false, value, w).
Definition write_nothing : csr_write := fun value w => (false, w).
Definition read_of (f : wrapper -> Z) : csr_read := fun _ w => (false, f w, w).

(** ** The registers *)

(** User CSRs *)
Definition ustatus_read : csr_read := read_of (fun _ => 0).
Definition ustatus_write : csr_write := write_nothing.
Definition uie_read : csr_read := read_nothing.
Definition uie_write : csr_write := write_nothing.
Definition utvec_read : csr_read := read_of (fun _ => 0).
Definition utvec_write : csr_write := write_nothing.
Definition uscratch_read : csr_read := read_nothing.
Definition uscratch_write : csr_write := write_nothing.
Definition uepc_read : csr_read := read_nothing.
Definition uepc_write : csr_write := write_nothing.
Definition ucause_read : csr_read := read_nothing.
Definition ucause_write : csr_write := write_nothing.
Definition ubadaddr_read : csr_read := read_nothing.
Definition ubadaddr_write : csr_write := write_nothing.
Definition uip_read : csr_read := read_nothing.
Definition uip_write : csr_write := write_nothing.
Definition fflags_read : csr_read := read_of (fun w => Z.land (fcsr_raw (csr w)) 0x1f).
Definition fflags_write : csr_write := fun value w =>
  (false, upd_csr (fun s => set_fcsr_raw (Z.lor (Z.land (fcsr_raw s) (u32 (Z.lnot 0x1f))) (Z.land value 0x1f)) s) w).
Definition frm_read : csr_read := read_of (fun w => fcsr_frm (csr w)).
Definition frm_write : csr_write := fun value w => (false, upd_csr (set_fcsr_frm (Z.land value 0x7)) w).
Definition fcsr_read : csr_read := read_of (fun w => fcsr_raw (csr w)).
Definition fcsr_write : csr_write := fun value w => (false, upd_csr (set_fcsr_raw (Z.land value 0xff)) w).
Definition fprec_read : csr_read := read_of (fun w => c_fprec (csr w)).
Definition fprec_write : csr_write := fun value w => (false, upd_csr (set_c_fprec (Z.land value 0x1f)) w).
Definition cycle_read : csr_read := read_nothing.
Definition time_read : csr_read := read_nothing.
Definition instret_read : csr_read := read_nothing.
Definition cycleh_read : csr_read := read_nothing.
Definition timeh_read : csr_read := read_nothing.
Definition instreth_read : csr_read := read_nothing.

(** Supervisor CSRs *)
Definition sstatus_read : csr_read := read_nothing.
Definition sstatus_write : csr_write := write_nothing.
Definition sedeleg_read : csr_read := read_nothing.
Definition sedeleg_write : csr_write := write_nothing.
Definition sideleg_read : csr_read := read_nothing.
Definition sideleg_write : csr_write := write_nothing.
Definition sie_read : csr_read := read_nothing.
Definition sie_write : csr_write := write_nothing.
Definition stvec_read : csr_read := read_nothing.
Definition stvec_write : csr_write := write_nothing.
Definition sscratch_read : csr_read := read_nothing.
Definition sscratch_write : csr_write := write_nothing.
Definition sepc_read : csr_read := read_nothing.
Definition sepc_write : csr_write := write_nothing.
Definition scause_read : csr_read := read_nothing.
Definition scause_write : csr_write := write_nothing.
Definition sbadaddr_read : csr_read := read_nothing.
Definition sbadaddr_write : csr_write := write_nothing.
Definition sip_read : csr_read := read_nothing.
Definition sip_write : csr_write := write_nothing.
Definition sptbr_read : csr_read := read_nothing.
Definition sptbr_write : csr_write := write_nothing.

(** Hypervisor CSRs *)
Definition hstatus_read : csr_read := read_nothing.
Definition hstatus_write : csr_write := write_nothing.
Definition hedeleg_read : csr_read := read_nothing.
Definition hedeleg_write : csr_write := write_nothing.
Definition hideleg_read : csr_read := read_nothing.
Definition hideleg_write : csr_write := write_nothing.
Definition hie_read : csr_read := read_nothing.
Definition hie_write : csr_write := write_nothing.
Definition htvec_read : csr_read := read_nothing.
Definition htvec_write : csr_write := write_nothing.
Definition hscratch_read : csr_read := read_nothing.
Definition hscratch_write : csr_write := write_nothing.
Definition hepc_read : csr_read := read_nothing.
Definition hepc_write : csr_write := write_nothing.
Definition hcause_read : csr_read := read_nothing.
Definition hcause_write : csr_write := write_nothing.
Definition hbadaddr_read : csr_read := read_nothing.
Definition hbadaddr_write : csr_write := write_nothing.

(** Machine CSRs *)
Definition misa_read : csr_read := read_of (fun w => c_misa (csr w)).
Definition misa_write : csr_write := write_nothing.
Definition mvendorid_read : csr_read := read_nothing.
Definition marchid_read : csr_read := read_nothing.
Definition mimpid_read : csr_read := read_of (fun _ => 0).
Definition mhartid_read : csr_read := read_of (fun w => c_mhartid (csr w)).
Definition mstatus_read : csr_read := read_of (fun w =>
  Z.lor (Z.lor (Z.land (c_status (csr w)) (u32 (Z.lnot (Z.shiftl 1 3)))) (Z.shiftl (Z.b2z (irq_enable (w_ctl w))) 3))
    (Z.shiftl (Z.b2z (saved_irq_enable (w_ctl w))) 7)).
Definition mstatus_write : csr_write := fun value w =>
  let mask := if secure then 0x21899 else 0x88 in
  let or_mask := if secure then 0 else 0x1800 in
  let w := upd_csr (set_c_status (Z.lor (Z.land value mask) or_mask)) w in
  let w := iss_irq_enable (Z.testbit value 3) w in
  (false, upd_ctl (set_saved_irq_enable (Z.testbit value 7)) w).
Definition medeleg_read : csr_read := read_nothing.
Definition medeleg_write : csr_write := write_nothing.
Definition mideleg_read : csr_read := read_nothing.
Definition mideleg_write : csr_write := write_nothing.
Definition mie_read : csr_read := read_nothing.
Definition mie_write : csr_write := write_nothing.
Definition mtvec_read : csr_read := read_of (fun w => c_mtvec (csr w)).
Definition mtvec_write : csr_write := fun value w => (false, iss_irq_set_vector_table value (upd_csr (set_c_mtvec value) w)).
Definition mscratch_read : csr_read := read_of (fun w => c_mscratch (csr w)).
Definition mscratch_write : csr_write := fun value w => (false, upd_csr (set_c_mscratch value) w).
Definition mepc_read : csr_read := read_of (fun w => csr_epc (w_ctl w)).
Definition mepc_write : csr_write := fun value w => (false, upd_ctl (set_csr_epc (Z.land value (u32 (Z.lnot 1)))) w).
Definition mcause_read : csr_read := read_of (fun w => csr_mcause (w_ctl w)).
Definition mcause_write : csr_write := fun value w => (false, upd_ctl (set_csr_mcause value) w).
Definition mbadaddr_read : csr_read := read_nothing.
Definition mbadaddr_write : csr_write := write_nothing.
Definition mip_read : csr_read := read_nothing.
Definition mip_write : csr_write := write_nothing.
Definition mbase_read : csr_read := read_nothing.
Definition mbase_write : csr_write := write_nothing.
Definition mbound_read : csr_read := read_nothing.
Definition mbound_write : csr_write := write_nothing.
Definition mibase_read : csr_read := read_nothing.
Definition mibase_write : csr_write := write_nothing.
Definition mibound_read : csr_read := read_nothing.
Definition mibound_write : csr_write := write_nothing.
Definition mdbase_read : csr_read := read_nothing.
Definition mdbase_write : csr_write := write_nothing.
Definition mdbound_read : csr_read := read_nothing.
Definition mdbound_write : csr_write := write_nothing.
Definition mcycle_read : csr_read := read_nothing.
Definition mcycle_write : csr_write := write_nothing.
Definition minstret_read : csr_read := read_nothing.
Definition minstret_write : csr_write := write_nothing.
Definition mcycleh_read : csr_read := read_nothing.
Definition mcycleh_write : csr_write := write_nothing.
Definition minstreth_read : csr_read := read_nothing.
Definition minstreth_write : csr_write := write_nothing.
Definition mucounteren_read : csr_read := read_nothing.
Definition mucounteren_write : csr_write := write_nothing.
Definition mscounteren_read : csr_read := read_nothing.
Definition mscounteren_write : csr_write := write_nothing.
Definition mhcounteren_read : csr_read := read_nothing.
Definition mhcounteren_write : csr_write := write_nothing.

(** PULP CSRs *)
Definition stack_conf_write : csr_write := fun value w => (false, upd_cpu (fun c => set_stack value (stack_start c) (stack_end c) c) w).
Definition stack_conf_read : csr_read := read_of (fun w => stack_conf (w_cpu w)).
Definition stack_start_write : csr_write := fun value w => (false, upd_cpu (fun c => set_stack (stack_conf c) value (stack_end c) c) w).
Definition stack_start_read : csr_read := read_of (fun w => stack_start (w_cpu w)).
Definition stack_end_write : csr_write := fun value w => (false, upd_cpu (fun c => set_stack (stack_conf c) (stack_start c) value c) w).
Definition stack_end_read : csr_read := read_of (fun w => stack_end (w_cpu w)).
Definition umode_read : csr_read := read_of (fun _ => 3).
Definition dcsr_read : csr_read := read_of (fun w => csr_dcsr (w_ctl w)).
Definition dcsr_write : csr_write := fun value w => (false, set_step_mode (Z.testbit value 2) (upd_ctl (set_csr_dcsr value) w)).
Definition depc_read : csr_read := read_of (fun w => csr_depc (w_ctl w)).
Definition depc_write : csr_write := fun value w => (false, upd_ctl (set_csr_depc value) w).
Definition scratch0_read : csr_read := read_of (fun w => c_scratch0 (csr w)).
Definition scratch0_write : csr_write := fun value w => (false, upd_csr (set_c_scratch0 value) w).
Definition scratch1_read : csr_read := read_of (fun w => c_scratch1 (csr w)).
Definition scratch1_write : csr_write := fun value w => (false, upd_csr (set_c_scratch1 value) w).

(** ** Hardware loops and performance counters *)

Definition hwloop_read (reg : Z) : csr_read := read_of (fun w => hwloop_reg (Z.to_nat reg) (c_pulp (w_ctl w))).
Definition hwloop_write (reg : Z) : csr_write := fun value w =>
  let hw := c_pulp (w_ctl w) in
  let hw := set_hwloop_regs (<[Z.to_nat reg := value]> (hwloop_regs hw)) hw in
  let start (k : nat) := Hwloops (hwloop_regs hw) (<[k := insn_cache_get value]> (hwloop_start_insn hw)) (hwloop_end_insn hw)
    (hwloop_next_insn hw) (hwloop_handlers hw) (elw_insn hw) (elw_stalled hw) (elw_interrupted hw) in
  let hw := if reg =? 0 then start 0%nat else if reg =? 4 then start 1%nat else hw in
  (false, upd_ctl (set_c_pulp hw) w).

(** The count of the external counter [id], None when its port is not bound. *)
Definition ext_counter (id : Z) w : option Z := default None (ext_counters (csr w) !! Z.to_nat id).
Definition iss_csr_ext_counter_is_bound (id : Z) w : bool := if ext_counter id w is Some _ then true else false.
Definition iss_csr_ext_counter_set (id value : Z) w : wrapper :=
  if iss_csr_ext_counter_is_bound id w
  then upd_csr (fun s => set_ext_counters (<[Z.to_nat id := Some value]> (ext_counters s)) s) w else w.
Definition iss_csr_ext_counter_get (id : Z) (value : Z) w : Z := default value (ext_counter id w).
Definition iss_pccr_trace_active (id : Z) w : bool := pcer_trace id && iss_csr_ext_counter_is_bound id w.

Definition update_external_pccr (id pcer pcmr : Z) w : wrapper :=
  let w :=
    if (negb (Z.land pcer (CSR_PCER_EVENT_MASK id) =? 0) && negb (Z.land pcmr CSR_PCMR_ACTIVE =? 0)) || iss_pccr_trace_active id w
    then upd_cpu (fun c => set_pccr (alter (fun x => u32 (x + iss_csr_ext_counter_get id 0 w)) (Z.to_nat id) (pccr c)) c) w
    else w in
  if iss_csr_ext_counter_is_bound id w then iss_csr_ext_counter_set id 0 w else w.
Definition check_perf_config_change (pcer pcmr : Z) w : wrapper :=
  fold_left (fun w i => update_external_pccr i pcer pcmr w)
    (seqZ CSR_PCER_NB_INTERNAL_EVENTS (CSR_PCER_NB_EVENTS - CSR_PCER_NB_INTERNAL_EVENTS)) w.
Definition flushExternalCounters w : wrapper := check_perf_config_change (pcer (w_cpu w)) (pcmr (w_cpu w)) w.

Definition pcer_write (prev_val : Z) : csr_write := fun value w =>
  let w := upd_cpu (fun c => set_perf (pcmr c) (Z.land value 0x7fffffff) c) w in
  (false, check_perf_config_change prev_val (pcmr (w_cpu w)) w).
Definition pcmr_write (prev_val : Z) : csr_write := fun value w =>
  let w := upd_cpu (fun c => set_perf value (pcer c) c) w in
  (false, check_perf_config_change (pcer (w_cpu w)) prev_val w).

Definition pccr_at (k : Z) w : Z := default 0 (pccr (w_cpu w) !! Z.to_nat k).
Definition is_external (reg : Z) : bool := (CSR_PCCR CSR_PCER_NB_INTERNAL_EVENTS <=? reg) && (reg <? CSR_PCCR CSR_NB_PCCR).
Definition perfCounters_read (reg : Z) : csr_read := fun value w =>
  if is_external reg then
    let w := update_external_pccr (reg - CSR_PCCR 0) (pcer (w_cpu w)) (pcmr (w_cpu w)) w in
    (false, pccr_at (reg - CSR_PCCR 0) w, w)
  else if reg =? CSR_PCER then (false, pcer (w_cpu w), w)
  else if reg =? CSR_PCMR then (false, pcmr (w_cpu w), w)
  else (false, pccr_at (reg - CSR_PCCR 0) w, w).
Definition perfCounters_write (reg : Z) : csr_write := fun value w =>
  let set_pccr_at (i : Z) w := upd_cpu (fun c => set_pccr (<[Z.to_nat i := value]> (pccr c)) c) w in
  if reg =? CSR_PCER then pcer_write (pcer (w_cpu w)) value w
  else if reg =? CSR_PCMR then pcmr_write (pcmr (w_cpu w)) value w
  else if is_external reg then (false, update_external_pccr (reg - CSR_PCCR 0) (pcer (w_cpu w)) (pcmr (w_cpu w)) w)
  else if reg =? CSR_PCCR CSR_NB_PCCR then
    (false, fold_left (fun w i =>
       let w := set_pccr_at i w in
       if (CSR_PCER_NB_INTERNAL_EVENTS <=? i) && (i <? CSR_PCER_NB_EVENTS) then update_external_pccr i 0 0 w else w)
       (seqZ 0 31) w)
  else (false, set_pccr_at (reg - CSR_PCCR 0) w).

(** ** Dispatch *)

Fixpoint switch {A} (reg : Z) (cases : list (Z * A)) : option A :=
  match cases with
  | [] => None
  | (x, a) :: cases => if reg =? x then Some a else switch reg cases
  end.

Definition csr_reads : list (Z * csr_read) :=
  [(0x000, ustatus_read); (0x004, uie_read); (0x005, utvec_read); (0x040, uscratch_read); (0x041, uepc_read);
   (0x042, ucause_read); (0x043, ubadaddr_read); (0x044, uip_read); (0x001, fflags_read); (0x002, frm_read);
   (0x003, fcsr_read); (0x006, fprec_read); (0xc00, cycle_read); (0xc01, time_read); (0xc02, instret_read);
   (0xc80, cycleh_read); (0xc81, timeh_read); (0xc82, instreth_read); (0x100, sstatus_read);
   (0x102, sedeleg_read); (0x103, sideleg_read); (0x104, sie_read); (0x105, stvec_read); (0x140, sscratch_read);
   (0x141, sepc_read); (0x142, scause_read); (0x143, sbadaddr_read); (0x144, sip_read); (0x180, sptbr_read);
   (0x200, hstatus_read); (0x202, hedeleg_read); (0x203, hideleg_read); (0x204, hie_read); (0x205, htvec_read);
   (0x240, hscratch_read); (0x241, hepc_read); (0x242, hcause_read); (0x243, hbadaddr_read);
   (0xf11, mvendorid_read); (0xf12, marchid_read); (0xf13, mimpid_read); (0xf14, mhartid_read);
   (0x300, mstatus_read); (0x301, misa_read); (0x302, medeleg_read); (0x303, mideleg_read); (0x304, mie_read);
   (0x305, mtvec_read); (0x340, mscratch_read); (0x341, mepc_read); (0x342, mcause_read); (0x343, mbadaddr_read);
   (0x344, mip_read); (0x380, mbase_read); (0x381, mbound_read); (0x382, mibase_read); (0x383, mibound_read);
   (0x384, mdbase_read); (0x385, mdbound_read); (0xb00, mcycle_read); (0xb02, minstret_read);
   (0xb80, mcycleh_read); (0xb82, minstreth_read); (0x320, mucounteren_read); (0x321, mscounteren_read);
   (0x322, mhcounteren_read); (0xc10, umode_read); (0x014, mhartid_read)] ++
  (if hwloop0_start =? 0x7b0 then [] else [(0x7b0, dcsr_read); (0x7b1, depc_read); (0x7b2, scratch0_read); (0x7b3, scratch1_read)]) ++
  match stack_csrs with
  | Some (conf, start, end_) => [(conf, stack_conf_read); (start, stack_start_read); (end_, stack_end_read)]
  | None => []
  end.
Definition csr_writes : list (Z * csr_write) :=
  [(0x000, ustatus_write); (0x004, uie_write); (0x005, utvec_write); (0x040, uscratch_write); (0x041, uepc_write);
   (0x042, ucause_write); (0x043, ubadaddr_write); (0x044, uip_write); (0x001, fflags_write); (0x002, frm_write);
   (0x003, fcsr_write); (0x006, fprec_write); (0x100, sstatus_write); (0x102, sedeleg_write);
   (0x103, sideleg_write); (0x104, sie_write); (0x105, stvec_write); (0x140, sscratch_write); (0x141, sepc_write);
   (0x142, scause_write); (0x143, sbadaddr_write); (0x144, sip_write); (0x180, sptbr_write);
   (0x200, hstatus_write); (0x202, hedeleg_write); (0x203, hideleg_write); (0x204, hie_write);
   (0x205, htvec_write); (0x240, hscratch_write); (0x241, hepc_write); (0x242, hcause_write);
   (0x243, hbadaddr_write); (0x300, mstatus_write); (0x301, misa_write); (0x302, medeleg_write);
   (0x303, mideleg_write); (0x304, mie_write); (0x305, mtvec_write); (0x340, mscratch_write); (0x341, mepc_write);
   (0x342, mcause_write); (0x343, mbadaddr_write); (0x344, mip_write); (0x380, mbase_write);
   (0x381, mbound_write); (0x382, mibase_write); (0x383, mibound_write); (0x384, mdbase_write);
   (0x385, mdbound_write); (0xb00, mcycle_write); (0xb02, minstret_write); (0xb80, mcycleh_write);
   (0xb82, minstreth_write); (0x310, mucounteren_write); (0x311, mscounteren_write); (0x312, mhcounteren_write)] ++
  (if hwloop0_start =? 0x7b0 then [] else [(0x7b0, dcsr_write); (0x7b1, depc_write); (0x7b2, scratch0_write); (0x7b3, scratch1_write)]) ++
  match stack_csrs with
  | Some (conf, start, end_) => [(conf, stack_conf_write); (start, stack_start_write); (end_, stack_end_write)]
  | None => []
  end.

Definition is_perf (reg : Z) : bool :=
  ((CSR_PCCR 0 <=? reg) && (reg <=? CSR_PCCR CSR_NB_PCCR)) || (reg =? CSR_PCER) || (reg =? CSR_PCMR).
Definition is_hwloop (reg : Z) : bool := (hwloop0_start <=? reg) && (reg <=? hwloop1_counter).

(** [status] is what the variable of iss_csr_read holds: it is the status of a read that does not set it. *)
Definition iss_csr_read (status : bool) (reg : Z) : csr_read := fun value w =>
  match switch reg csr_reads with
  | Some f => f value w
  | None =>
      if is_perf reg then perfCounters_read reg value w
      else if hwloop then
        if is_hwloop reg then hwloop_read (reg - hwloop0_start) value w else (status, value, w)
      else (true, value, w)
  end.
Definition iss_csr_write (reg : Z) : csr_write := fun value w =>
  let w := trigger_check_all w in
  match switch reg csr_writes with
  | Some f => f value w
  | None =>
      if is_perf reg then perfCounters_write reg value w
      else if hwloop && is_hwloop reg then hwloop_write (reg - hwloop0_start) value w
      else (true, w)
  end.

(** ** The CSR instructions

    [status] and [value] are the uninitialised variables of iss_csr_read and of the handler. *)

Section Insns.
Context (regs : Z) (status : bool) (value : Z).
Implicit Types (i : iss_insn).

(** The read, and the register that takes the value. *)
Definition csr_read_reg i w : Z * wrapper :=
  let '(err, value, w) := iss_csr_read status (UIM_GET i 0) value w in
  (value, if negb err && negb (REG_OUT i 0 =? 0) then set_w_iss (REG_SET regs i 0 value (w_iss w)) w else w).
Definition csrrw_exec i : handler := fun w =>
  let reg_value := REG_GET regs i 0 (w_iss w) in
  let '(value, w) := csr_read_reg i w in
  Some (i_next i, (iss_csr_write (UIM_GET i 0) reg_value w).2).
Definition csrrc_exec i : handler := fun w =>
  let reg_value := REG_GET regs i 0 (w_iss w) in
  let '(value, w) := csr_read_reg i w in
  Some (i_next i, (iss_csr_write (UIM_GET i 0) (Z.land value (u32 (Z.lnot reg_value))) w).2).
Definition csrrs_exec i : handler := fun w =>
  let reg_value := REG_GET regs i 0 (w_iss w) in
  let '(value, w) := csr_read_reg i w in
  Some (i_next i, (iss_csr_write (UIM_GET i 0) (Z.lor value reg_value) w).2).
Definition csrrwi_exec i : handler := fun w =>
  let '(value, w) := csr_read_reg i w in
  Some (i_next i, (iss_csr_write (UIM_GET i 0) (UIM_GET i 1) w).2).
Definition csrrci_exec i : handler := fun w =>
  let '(value, w) := csr_read_reg i w in
  Some (i_next i, (iss_csr_write (UIM_GET i 0) (Z.land value (u32 (Z.lnot (UIM_GET i 1)))) w).2).
Definition csrrsi_exec i : handler := fun w =>
  let '(value, w) := csr_read_reg i w in
  Some (i_next i, (iss_csr_write (UIM_GET i 0) (Z.lor value (UIM_GET i 1)) w).2).
End Insns.
End Csr.

(** * What the registers do *)

Section Registers.
Context {S : Type} (secure hwloop : bool) (hwloop0_start hwloop1_counter : Z) (stack_csrs : option (Z * Z * Z)).
Context (pcer_trace : Z -> bool).
Notation wrapper := (wrapper (S := S)).
Implicit Types (w : wrapper).
#[local] Notation iss_csr_read := (iss_csr_read hwloop hwloop0_start hwloop1_counter stack_csrs pcer_trace).
#[local] Notation iss_csr_write := (iss_csr_write secure hwloop hwloop0_start hwloop1_counter stack_csrs pcer_trace).
#[local] Notation update_external_pccr := (update_external_pccr pcer_trace).
#[local] Notation check_perf_config_change := (check_perf_config_change pcer_trace).
#[local] Notation csr_reads := (csr_reads hwloop0_start stack_csrs).
#[local] Notation csr_writes := (csr_writes secure hwloop0_start stack_csrs).

(** The registers that keep what is written, with the bits they have: the floating-point ones, those of the traps,
    the debug ones when they are not the hardware loops, PCER and PCMR, and the counters inside the core. *)
Definition csr_masks : list (Z * Z) :=
  [(0x001, 0x1f); (0x002, 0x7); (0x003, 0xff); (0x006, 0x1f); (0x305, 0xffffffff); (0x340, 0xffffffff);
   (0x341, 0xfffffffe); (0x342, 0xffffffff); (0x7a0, 0x7fffffff); (0x7a1, 0xffffffff)] ++
  [(0x780, 0xffffffff); (0x781, 0xffffffff); (0x782, 0xffffffff); (0x783, 0xffffffff); (0x784, 0xffffffff);
   (0x785, 0xffffffff); (0x786, 0xffffffff); (0x787, 0xffffffff); (0x788, 0xffffffff); (0x789, 0xffffffff);
   (0x78a, 0xffffffff)] ++
  (if hwloop0_start =? 0x7b0 then [] else [(0x7b0, 0xffffffff); (0x7b1, 0xffffffff); (0x7b2, 0xffffffff); (0x7b3, 0xffffffff)]).

(** The value of each of them in the state. *)
Definition csr_value (reg : Z) w : Z :=
  let s := csr w in
  default (pccr_at (reg - 0x780) w) (switch reg
    [(0x001, Z.land (fcsr_raw s) 0x1f); (0x002, fcsr_frm s); (0x003, fcsr_raw s); (0x006, c_fprec s); (0x305, c_mtvec s);
     (0x340, c_mscratch s); (0x341, csr_epc (w_ctl w)); (0x342, csr_mcause (w_ctl w)); (0x7a0, pcer (w_cpu w));
     (0x7a1, pcmr (w_cpu w)); (0x7b0, csr_dcsr (w_ctl w)); (0x7b1, csr_depc (w_ctl w)); (0x7b2, c_scratch0 s);
     (0x7b3, c_scratch1 s)]).

(** fflags is a part of fcsr. *)
Definition csr_overlap (reg reg' : Z) : bool := ((reg =? 0x001) && (reg' =? 0x003)) || ((reg =? 0x003) && (reg' =? 0x001)).

(** The stack registers are not performance counters. *)
Context (stack_numbers : forall conf start end_, stack_csrs = Some (conf, start, end_) ->
  is_perf conf = false /\ is_perf start = false /\ is_perf end_ = false).

Lemma switch_app {A} reg (l l' : list (Z * A)) :
  switch reg (l ++ l') = match switch reg l with Some a => Some a | None => switch reg l' end.
Proof. induction l as [|[x a] l IH]; [done|]. cbn [app switch]. by destruct (reg =? x). Qed.
Lemma switch_in {A} reg (l : list (Z * A)) a : switch reg l = Some a -> (reg, a) ∈ l.
Proof.
  induction l as [|[x b] l IH]; [done|]. cbn [switch]. destruct (Z.eqb_spec reg x) as [->|]; [|by right; apply IH].
  intros E. injection E as ->. by left.
Qed.
Lemma no_stack_case {A} reg (a b c : A) : is_perf reg = true ->
  switch reg match stack_csrs with Some (conf, start, end_) => [(conf, a); (start, b); (end_, c)] | None => [] end = None.
Proof.
  intros Hr. destruct stack_csrs as [[[x y] z]|]; [|done]. destruct (stack_numbers x y z eq_refl) as (H1 & H2 & H3).
  cbn [switch]. repeat (case_match; [|]); try done; (match goal with H : (reg =? _) = true |- _ => apply Z.eqb_eq in H; subst end; congruence).
Qed.

Lemma no_debug_case {A} reg (a b c d : A) : is_perf reg = true ->
  switch reg (if hwloop0_start =? 0x7b0 then [] else [(0x7b0, a); (0x7b1, b); (0x7b2, c); (0x7b3, d)]) = None.
Proof.
  intros Hr. destruct (hwloop0_start =? 0x7b0); [done|]. cbn [switch].
  repeat (case_match; [match goal with H : (reg =? _) = true |- _ => apply Z.eqb_eq in H; subst end; done|]). done.
Qed.

(** One goal for each register of the list. *)
Lemma csr_masks_ind (P : Z -> Z -> Prop) :
  Forall (fun p => P p.1 p.2) csr_masks -> forall reg mask, (reg, mask) ∈ csr_masks -> P reg mask.
Proof. intros H reg mask Hin. rewrite Forall_forall in H. exact (H _ Hin). Qed.

Ltac each_csr Hin := unfold csr_masks in Hin; apply elem_of_app in Hin as [Hin|Hin]; [|apply elem_of_app in Hin as [Hin|Hin]];
  [| |let H := fresh "Hloop" in destruct (hwloop0_start =? 0x7b0) eqn:H];
  repeat (apply elem_of_cons in Hin as [Hin|Hin]; [injection Hin as -> ->|]); try (by apply elem_of_nil in Hin).

Lemma csr_read_value status reg mask junk w :
  (reg, mask) ∈ csr_masks -> iss_csr_read status reg junk w = (false, csr_value reg w, w).
Proof.
  intros Hin. unfold iss_csr_read, csr_reads. rewrite !switch_app.
  each_csr Hin; rewrite ?no_stack_case by done; try reflexivity; rewrite ?Hloop; try reflexivity;
  destruct (hwloop0_start =? 0x7b0); reflexivity.
Qed.

(** Synchronising an external counter changes that counter and the one of its port, nothing else. *)
Record only_counter (id : nat) w w' : Prop := {
  only_eq : exists pc ext, w' = upd_csr (set_ext_counters ext) (upd_cpu (set_pccr pc) w) /\
    length pc = length (pccr (w_cpu w)) /\ (forall k, k <> id -> pc !! k = pccr (w_cpu w) !! k);
  only_range : Forall (fun x => 0 <= x < 2 ^ 32) (pccr (w_cpu w)) -> Forall (fun x => 0 <= x < 2 ^ 32) (pccr (w_cpu w'));
}.

Lemma same_counters w : w = upd_csr (set_ext_counters (ext_counters (csr w))) (upd_cpu (set_pccr (pccr (w_cpu w))) w).
Proof. destruct w as [? ? ? ? ? ? ? ? ? ? ? ? ? ? ? [? ? ? ? ? ? ? ? ? ? ? ? ? ? ? ? ? ? []] [[] ? ?]]. reflexivity. Qed.

Lemma update_external_only id er mr w : only_counter (Z.to_nat id) w (update_external_pccr id er mr w).
Proof.
  unfold update_external_pccr. set (b := (_ && _) || _).
  set (pc := alter (fun x => u32 (x + iss_csr_ext_counter_get id 0 w)) (Z.to_nat id) (pccr (w_cpu w))).
  assert (H1 : only_counter (Z.to_nat id) w (if b then upd_cpu (fun c => set_pccr (alter (fun x =>
    u32 (x + iss_csr_ext_counter_get id 0 w)) (Z.to_nat id) (pccr c)) c) w else w)).
  { destruct b.
    - split.
      + exists pc, (ext_counters (csr w)). split; [|split].
        * destruct w as [? ? ? ? ? ? ? ? ? ? ? ? ? ? ? [? ? ? ? ? ? ? ? ? ? ? ? ? ? ? ? ? ? []] [[] ? ?]]. reflexivity.
        * apply length_alter.
        * intros k Hk. apply list_lookup_alter_ne. congruence.
      + intros H. cbn. apply Forall_alter; [exact H|]. intros x _ _. by apply uw_range.
    - split; [|done]. exists (pccr (w_cpu w)), (ext_counters (csr w)). split; [apply same_counters|done]. }
  set (w1 := if b then _ else w) in *. destruct H1 as [(pc1 & ext1 & E1 & E2 & E3) E4].
  destruct (iss_csr_ext_counter_is_bound id w1) eqn:Hb; [|by split; [exists pc1, ext1|]].
  unfold iss_csr_ext_counter_set. rewrite Hb. split; [|exact E4].
  exists pc1, (<[Z.to_nat id := Some 0]> (ext_counters (csr w1))). split; [|done]. clearbody w1. subst w1. reflexivity.
Qed.

Lemma only_counter_value id reg mask w w' :
  11 <= id -> (reg, mask) ∈ csr_masks -> only_counter (Z.to_nat id) w w' -> csr_value reg w' = csr_value reg w.
Proof.
  intros Hid Hin [(pc & ext & -> & _ & Hpc) _]. each_csr Hin; try reflexivity;
    unfold csr_value; cbn [switch Z.eqb Pos.eqb default]; unfold pccr_at; cbn; rewrite Hpc by (cbn; lia); reflexivity.
Qed.
Lemma sync_value ids er mr reg mask w :
  Forall (fun i => 11 <= i) ids -> (reg, mask) ∈ csr_masks ->
  csr_value reg (fold_left (fun w i => update_external_pccr i er mr w) ids w) = csr_value reg w.
Proof.
  intros H Hin. revert w. induction H as [|i ids Hi _ IH]; intros w; [done|]. cbn [fold_left].
  rewrite IH. apply (only_counter_value i reg mask); [done..|]. apply update_external_only.
Qed.
Lemma check_perf_value er mr reg mask w :
  (reg, mask) ∈ csr_masks -> csr_value reg (check_perf_config_change er mr w) = csr_value reg w.
Proof.
  apply sync_value. apply Forall_forall. intros i [Hi _]%elem_of_seqZ. exact Hi.
Qed.

Lemma land_word v : 0 <= v < 2 ^ 32 -> Z.land v 0xffffffff = v.
Proof. intros H. change 0xffffffff with (Z.ones 32). rewrite Z.land_ones by lia. by apply Z.mod_small. Qed.
Lemma land_even v : Z.land v (u32 (Z.lnot 1)) = Z.land v 0xfffffffe.
Proof. reflexivity. Qed.
Lemma fflags_bits r v : Z.land (Z.lor (Z.land r (u32 (Z.lnot 0x1f))) (Z.land v 0x1f)) 0x1f = Z.land v 0x1f.
Proof.
  rewrite Z.land_lor_distr_l, <- !Z.land_assoc. change (Z.land (u32 (Z.lnot 31)) 31) with 0. change (Z.land 31 31) with 31.
  by rewrite Z.land_0_r.
Qed.
Lemma fcsr_bits v : Z.land (Z.land v 0xff) 0x1f = Z.land v 0x1f.
Proof. by rewrite <- Z.land_assoc. Qed.

Lemma counter_value reg w : 0x780 <= reg < 0x78b -> csr_value reg w = pccr_at (reg - 0x780) w.
Proof.
  intros Hr. unfold csr_value. cbn [switch]. by rewrite !(proj2 (Z.eqb_neq _ _)) by lia.
Qed.

(** Writing PCER, PCMR and the counters of the core. *)
Lemma pcer_write_value v w reg' mask' :
  (reg', mask') ∈ csr_masks ->
  csr_value reg' (perfCounters_write pcer_trace 0x7a0 v w).2 = if reg' =? 0x7a0 then Z.land v 0x7fffffff else csr_value reg' w.
Proof.
  intros Hin. etrans; [exact (check_perf_value (pcer (w_cpu w)) (pcmr (w_cpu w)) reg' mask'
    (upd_cpu (fun c => set_perf (pcmr c) (Z.land v 0x7fffffff) c) w) Hin)|]. each_csr Hin; reflexivity.
Qed.
Lemma pcmr_write_value v w reg' mask' :
  (reg', mask') ∈ csr_masks ->
  csr_value reg' (perfCounters_write pcer_trace 0x7a1 v w).2 = if reg' =? 0x7a1 then v else csr_value reg' w.
Proof.
  intros Hin. etrans; [exact (check_perf_value (pcer (w_cpu w)) (pcmr (w_cpu w)) reg' mask'
    (upd_cpu (fun c => set_perf v (pcer c) c) w) Hin)|]. each_csr Hin; reflexivity.
Qed.
(** A register of the list is a counter, or is not among them. *)
Lemma counter_or_not reg mask :
  (reg, mask) ∈ csr_masks ->
  (0x780 <= reg < 0x78b /\ mask = 0xffffffff) \/
  (~ 0x780 <= reg < 0x78b /\ forall pc w, csr_value reg (upd_cpu (set_pccr pc) w) = csr_value reg w).
Proof. intros Hin. each_csr Hin; first [left; split; [lia|done]|right; split; [lia|done]]. Qed.
Lemma pccr_write_value reg v w reg' mask' :
  0x780 <= reg < 0x78b -> (reg', mask') ∈ csr_masks -> length (pccr (w_cpu w)) = 32%nat ->
  csr_value reg' (perfCounters_write pcer_trace reg v w).2 = if reg' =? reg then v else csr_value reg' w.
Proof.
  intros Hk Hin Hlen.
  assert (E : (perfCounters_write pcer_trace reg v w).2 =
    upd_cpu (fun c => set_pccr (<[Z.to_nat (reg - 0x780) := v]> (pccr c)) c) w).
  { unfold perfCounters_write, is_external. rewrite !(proj2 (Z.eqb_neq _ _)) by (unfold CSR_PCER, CSR_PCMR, CSR_PCCR, CSR_NB_PCCR; lia).
    by rewrite (proj2 (Z.leb_gt _ _)) by (unfold CSR_PCCR, CSR_PCER_NB_INTERNAL_EVENTS; lia). }
  rewrite E. clear E.
  destruct (counter_or_not reg' mask' Hin) as [[Hr _]|[Hn Hr]].
  - rewrite !counter_value by done. unfold pccr_at. cbn [w_cpu cpu upd_cpu set_w_iss w_iss set_cpu pccr set_pccr].
    rewrite list_lookup_insert. destruct (Z.eqb_spec reg' reg) as [->|E]; [by rewrite decide_True by lia|by rewrite decide_False by lia].
  - destruct (Z.eqb_spec reg' reg) as [->|_]; [by destruct Hn|]. apply (Hr _ w).
Qed.

(** What a write to one of them does to all of them. *)
Lemma csr_write_value reg mask v w reg' mask' :
  (reg, mask) ∈ csr_masks -> (reg', mask') ∈ csr_masks -> length (pccr (w_cpu w)) = 32%nat -> 0 <= v < 2 ^ 32 ->
  (iss_csr_write reg v w).1 = false /\
  csr_value reg' (iss_csr_write reg v w).2 =
    if reg' =? reg then Z.land v mask
    else if csr_overlap reg reg' then
      (if reg =? 0x003 then Z.land v 0x1f else Z.lor (Z.land (csr_value 0x003 w) (u32 (Z.lnot 0x1f))) (Z.land v 0x1f))
    else csr_value reg' w.
Proof.
  intros Hin Hin' Hlen Hv. unfold iss_csr_write, csr_writes. rewrite !switch_app.
  each_csr Hin; rewrite ?no_stack_case by done; rewrite ?no_debug_case by done; rewrite ?Hloop;
    cbn [switch Z.eqb Pos.eqb Z.add Pos.add Pos.succ fst snd];
    (split; [reflexivity|]).
  all: try (match goal with |- csr_value _ (if is_perf ?r then _ else _).2 = _ => change (is_perf r) with true; cbv iota end;
    first [rewrite (pcer_write_value _ _ _ _ Hin'); reflexivity
          |rewrite (pcmr_write_value _ _ _ _ Hin'), land_word by done; reflexivity
          |match goal with |- csr_value _ (perfCounters_write _ ?r _ _).2 = _ =>
             rewrite (pccr_write_value r _ (trigger_check_all w) _ _ ltac:(lia) Hin' Hlen), land_word by done; reflexivity end]).
  all: each_csr Hin'; rewrite ?land_word by done; first [reflexivity|apply fflags_bits|apply fcsr_bits].
Qed.

(** ** The invariant: the counters are 32 words, and each register holds only bits it has *)

Definition word (x : Z) : Prop := 0 <= x < 2 ^ 32.
Record csr_ok w : Prop := {
  ok_length : length (pccr (w_cpu w)) = 32%nat;
  ok_counters : Forall word (pccr (w_cpu w));
  ok_bits reg mask : (reg, mask) ∈ csr_masks -> Z.land (csr_value reg w) mask = csr_value reg w;
}.

(** [w'] is [w] after a write of [v] that spares the counters or fills them, and no other register of the list. *)
Record filled (v : Z) w w' : Prop := {
  fill_length : length (pccr (w_cpu w')) = length (pccr (w_cpu w));
  fill_counters : word v -> Forall word (pccr (w_cpu w)) -> Forall word (pccr (w_cpu w'));
  fill_value reg mask : (reg, mask) ∈ csr_masks ->
    csr_value reg w' = csr_value reg w \/ (mask = 0xffffffff /\ csr_value reg w' = v);
}.
Lemma filled_trans v w1 w2 w3 : filled v w1 w2 -> filled v w2 w3 -> filled v w1 w3.
Proof.
  intros [L1 C1 V1] [L2 C2 V2]. split; [congruence|by auto|]. intros reg mask Hin.
  destruct (V1 _ _ Hin) as [E1|E1], (V2 _ _ Hin) as [E2|E2]; rewrite ?E2; auto.
Qed.
Lemma filled_same v w w' :
  pccr (w_cpu w') = pccr (w_cpu w) -> (forall reg mask, (reg, mask) ∈ csr_masks -> csr_value reg w' = csr_value reg w) ->
  filled v w w'.
Proof. intros E H. split; rewrite ?E; [done|done|]. intros reg mask Hin. left. by apply (H _ mask). Qed.
Lemma filled_external v id er mr w : 11 <= id -> filled v w (update_external_pccr id er mr w).
Proof.
  intros Hid. pose proof (update_external_only id er mr w) as H. split.
  - by destruct H as [(pc & ext & -> & Hl & _) _].
  - intros _. by destruct H.
  - intros reg mask Hin. left. by apply (only_counter_value id reg mask).
Qed.
Lemma filled_externals v ids er mr w :
  Forall (fun i => 11 <= i) ids -> filled v w (fold_left (fun w i => update_external_pccr i er mr w) ids w).
Proof.
  intros H. revert w. induction H as [|i ids Hi _ IH]; intros w; [by apply filled_same|]. cbn [fold_left].
  apply (filled_trans v _ (update_external_pccr i er mr w)); [by apply filled_external|apply IH].
Qed.
Lemma filled_set v i w : 0 <= i -> filled v w (upd_cpu (fun c => set_pccr (<[Z.to_nat i := v]> (pccr c)) c) w).
Proof.
  intros Hi. split.
  - apply length_insert.
  - intros Hv H. by apply (Forall_insert word).
  - intros reg mask Hin. destruct (counter_or_not reg mask Hin) as [[Hr ->]|[_ Hr]]; [|left; apply (Hr _ w)].
    rewrite !counter_value by done. unfold pccr_at. cbn [w_cpu cpu upd_cpu set_w_iss w_iss set_cpu pccr set_pccr].
    rewrite list_lookup_insert. case_decide; [by right|by left].
Qed.

Lemma filled_perf reg v w : is_perf reg = true -> reg <> 0x7a0 -> reg <> 0x7a1 -> filled v w (perfCounters_write pcer_trace reg v w).2.
Proof.
  intros Hp H1 H2. unfold perfCounters_write. rewrite !(proj2 (Z.eqb_neq _ _)) by done.
  assert (Hr : 0x780 <= reg <= 0x79f).
  { unfold is_perf in Hp. rewrite !(proj2 (Z.eqb_neq _ _)), !orb_false_r in Hp by done.
    apply andb_true_iff in Hp as [?%Z.leb_le ?%Z.leb_le]. by split. }
  destruct (is_external reg) eqn:He.
  - apply andb_true_iff in He as [He%Z.leb_le _]. apply filled_external. unfold CSR_PCCR, CSR_PCER_NB_INTERNAL_EVENTS in *. lia.
  - case_match; cbn [snd]; [|apply filled_set; unfold CSR_PCCR; lia].
    generalize (seqZ 0 31), (fun i => proj1 (elem_of_seqZ 0 31 i)). intros ids Hids. revert w.
    induction ids as [|i ids IH]; intros w; [by apply filled_same|]. cbn [fold_left].
    destruct (Hids i ltac:(left)) as [Hi _].
    eapply filled_trans; [|apply IH; intros j Hj; apply Hids; by right].
    case_match eqn:Hb; [|by apply filled_set].
    eapply filled_trans; [by apply filled_set|]. apply andb_true_iff in Hb as [Hb%Z.leb_le _]. by apply filled_external.
Qed.

Ltac in_list := repeat first [left|right].

(** Any other write. *)
Lemma csr_write_filled reg v w :
  (forall mask, (reg, mask) ∉ csr_masks) -> filled v w (iss_csr_write reg v w).2.
Proof.
  intros Hn. unfold iss_csr_write.
  destruct (switch reg csr_writes) as [f|] eqn:E.
  - apply switch_in in E. unfold csr_writes in E. rewrite !elem_of_app in E. destruct E as [E|[E|E]].
    + repeat (apply elem_of_cons in E as [E|E];
        [injection E as -> ->; first [by apply filled_same|edestruct Hn; apply elem_of_app; left; in_list]|]).
      by apply elem_of_nil in E.
    + destruct (hwloop0_start =? 0x7b0) eqn:Hl; [by apply elem_of_nil in E|].
      repeat (apply elem_of_cons in E as [E|E]; [injection E as -> ->; edestruct Hn; unfold csr_masks; rewrite Hl;
        apply elem_of_app; right; apply elem_of_app; right; in_list|]). by apply elem_of_nil in E.
    + destruct stack_csrs as [[[conf start] end_]|]; [|by apply elem_of_nil in E].
      repeat (apply elem_of_cons in E as [E|E]; [injection E as -> ->; by apply filled_same|]). by apply elem_of_nil in E.
  - destruct (is_perf reg) eqn:Hp.
    + apply (filled_trans v w (trigger_check_all w)); [by apply filled_same|]. apply filled_perf; [done|..];
        intros ->; edestruct Hn; apply elem_of_app; left; in_list.
    + destruct (hwloop && _); by apply filled_same.
Qed.

Lemma csr_ok_filled v w w' : word v -> csr_ok w -> filled v w w' -> csr_ok w'.
Proof.
  intros Hv [Hl Hc Hb] [Fl Fc Fv]. split; [congruence|by auto|]. intros reg mask Hin.
  destruct (Fv reg mask Hin) as [->|[-> ->]]; [by apply Hb|by apply land_word].
Qed.
Lemma csr_ok_trigger w : csr_ok w -> csr_ok (trigger_check_all w).
Proof. by intros [H1 H2 H3]. Qed.

Lemma csr_write_pccr reg mask v w :
  (reg, mask) ∈ csr_masks -> word v -> csr_ok w ->
  length (pccr (w_cpu (iss_csr_write reg v w).2)) = 32%nat /\ Forall word (pccr (w_cpu (iss_csr_write reg v w).2)).
Proof.
  intros Hin Hv [Hl Hc _]. unfold iss_csr_write, csr_writes. rewrite !switch_app.
  assert (Hx : forall er mr (x : wrapper), length (pccr (w_cpu x)) = 32%nat -> Forall word (pccr (w_cpu x)) ->
    length (pccr (w_cpu (check_perf_config_change er mr x))) = 32%nat /\ Forall word (pccr (w_cpu (check_perf_config_change er mr x)))).
  { intros er mr x Hlx Hcx. assert (F : filled v x (check_perf_config_change er mr x)).
    { apply filled_externals, Forall_forall. intros i [Hi _]%elem_of_seqZ. exact Hi. }
    split; [rewrite (fill_length _ _ _ F); exact Hlx|by apply (fill_counters _ _ _ F)]. }
  each_csr Hin; rewrite ?no_stack_case by done; rewrite ?no_debug_case by done; rewrite ?Hloop; try (by split).
  1,2: by apply Hx.
  all: split; [exact (eq_trans (length_insert _ _ _) Hl)|by apply (Forall_insert word)].
Qed.

Lemma csr_masks_word reg mask : (reg, mask) ∈ csr_masks -> 0 <= mask < 2 ^ 32.
Proof. intros Hin. each_csr Hin; by split. Qed.

Lemma csr_mask_switch reg mask : (reg, mask) ∈ csr_masks -> switch reg csr_masks = Some mask.
Proof. intros Hin. each_csr Hin; unfold csr_masks; try reflexivity; by rewrite Hloop. Qed.

(** C15: the type of the registers: whatever the register and the value, and whatever the hardware loops, stack
    registers and external counters, a CSR access keeps 32 counters of 32 bits and, in every register that keeps
    what is written, only the bits the register has. *)
Theorem csr_access_ok reg v w status junk :
  csr_ok w -> word v -> csr_ok (iss_csr_write reg v w).2 /\ csr_ok (iss_csr_read status reg junk w).2.
Proof.
  intros Hok Hv. split.
  - destruct (decide (Exists (fun p => p.1 = reg) csr_masks)) as [Hin|Hn].
    + apply Exists_exists in Hin as [[r mask] [Hin E]]. cbn in E. subst r.
      destruct (csr_write_pccr reg mask v w Hin Hv Hok) as [Hl Hc]. split; [done|done|]. intros reg' mask' Hin'.
      destruct (csr_write_value reg mask v w reg' mask' Hin Hin' (ok_length _ Hok) Hv) as [_ ->].
      apply csr_mask_switch in Hin as Hm. apply csr_mask_switch in Hin' as Hm'.
      destruct (Z.eqb_spec reg' reg) as [->|Hne].
      { rewrite Hm in Hm'. injection Hm' as ->. by rewrite <- Z.land_assoc, Z.land_diag. }
      destruct (csr_overlap reg reg') eqn:Ho; [|by apply (ok_bits _ Hok)].
      unfold csr_overlap in Ho. destruct (Z.eqb_spec reg 1) as [->|H1].
      * destruct (Z.eqb_spec reg' 3) as [->|]; [|by destruct (1 =? 3) eqn:?].
        injection Hm' as <-. cbn [Z.eqb Pos.eqb]. rewrite Z.land_lor_distr_l, <- (Z.land_assoc v). f_equal.
        rewrite <- Z.land_assoc, (Z.land_comm (u32 _)), Z.land_assoc.
        by rewrite (ok_bits _ Hok 3 0xff Hin').
      * destruct (Z.eqb_spec reg 3) as [->|]; [|done]. destruct (Z.eqb_spec reg' 1) as [->|]; [|done].
        injection Hm' as <-. by rewrite <- Z.land_assoc.
    + apply (csr_ok_filled v w); [done..|]. apply csr_write_filled. intros mask Hin. apply Hn, Exists_exists. by exists (reg, mask).
  - unfold iss_csr_read. destruct (switch reg csr_reads) as [f|] eqn:E.
    + replace (f junk w).2 with w; [done|].
      apply switch_in in E. unfold csr_reads in E. rewrite !elem_of_app in E. destruct E as [E|[E|E]];
        [|destruct (hwloop0_start =? 0x7b0)|destruct stack_csrs as [[[? ?] ?]|]];
        repeat (apply elem_of_cons in E as [E|E]; [injection E as _ ->; reflexivity|]); by apply elem_of_nil in E.
    + destruct (is_perf reg); [|by destruct hwloop; [destruct (is_hwloop _ _ _)|]].
      unfold perfCounters_read. destruct (is_external reg) eqn:He; [|by repeat case_match].
      apply andb_true_iff in He as [He%Z.leb_le _]. apply (csr_ok_filled 0 w); [done..|].
      apply filled_external. unfold CSR_PCCR, CSR_PCER_NB_INTERNAL_EVENTS in *. lia.
Qed.

(** ** Writing and reading *)

(** What no CSR access touches. *)
Definition rest w :=
  ((hst (w_iss w), bus (w_iss w), events w, halted w, fetch_enable w, wfi w, irq_req w),
   (stalled (w_cpu w), misaligned_access (w_cpu w), is_active (w_cpu w), c_elw_stalled (w_ctl w), req_irq (w_ctl w))).
Record quiet w w' : Prop := {
  quiet_rest : rest w' = rest w;
  quiet_event : current_event w' = current_event w;
  quiet_step : step_mode w' = step_mode w;
}.
Lemma quiet_external id er mr w : quiet w (update_external_pccr id er mr w) /\
  irq_enable (w_ctl (update_external_pccr id er mr w)) = irq_enable (w_ctl w).
Proof. destruct (update_external_only id er mr w) as [(pc & ext & -> & _) _]. by split. Qed.
Lemma quiet_fold (f : wrapper -> Z -> wrapper) ids w :
  (forall w i, quiet w (f w i)) -> quiet w (fold_left f ids w).
Proof.
  intros H. revert w. induction ids as [|i ids IH]; intros w; [by split|]. cbn [fold_left].
  destruct (IH (f w i)) as [H1 H2 H3], (H w i) as [G1 G2 G3]. split; congruence.
Qed.
Lemma quiet_perf reg v w : quiet w (perfCounters_write pcer_trace reg v w).2.
Proof.
  assert (Hs : forall er mr (x : wrapper), quiet x (check_perf_config_change er mr x)).
  { intros er mr x. apply quiet_fold. intros y i. apply quiet_external. }
  unfold perfCounters_write. repeat case_match; cbn [snd]; try (by split); try apply quiet_external.
  - destruct (Hs (pcer (w_cpu w)) (pcmr (w_cpu (upd_cpu (fun c => set_perf (pcmr c) (Z.land v 0x7fffffff) c) w)))
      (upd_cpu (fun c => set_perf (pcmr c) (Z.land v 0x7fffffff) c) w)) as [H1 H2 H3]. by split.
  - destruct (Hs (pcer (w_cpu (upd_cpu (fun c => set_perf v (pcer c) c) w))) (pcmr (w_cpu w))
      (upd_cpu (fun c => set_perf v (pcer c) c) w)) as [H1 H2 H3]. by split.
  - apply quiet_fold. intros x i. case_match; [|by split].
    destruct (proj1 (quiet_external i 0 0 (upd_cpu (fun c => set_pccr (<[Z.to_nat i := v]> (pccr c)) c) x))) as [G1 G2 G3].
    by split.
Qed.

Lemma csr_write_rest reg v w :
  rest (iss_csr_write reg v w).2 = rest w /\ current_event (iss_csr_write reg v w).2 = check_all_event /\
  (reg <> 0x7b0 \/ hwloop0_start = 0x7b0 -> step_mode (iss_csr_write reg v w).2 = step_mode w).
Proof.
  unfold iss_csr_write. destruct (switch reg csr_writes) as [f|] eqn:E.
  - apply switch_in in E. unfold csr_writes in E. rewrite !elem_of_app in E.
    destruct E as [E|[E|E]]; [|destruct (Z.eqb_spec hwloop0_start 0x7b0)|destruct stack_csrs as [[[? ?] ?]|]];
      repeat (apply elem_of_cons in E as [E|E]; [injection E as -> ->; first [by split_and!|split; [done|split; [done|by intros [?|?]]]]|]);
      by apply elem_of_nil in E.
  - destruct (is_perf reg).
    + destruct (quiet_perf reg v (trigger_check_all w)) as [H1 H2 H3]. split; [exact H1|]. split; [exact H2|done].
    + destruct (hwloop && _); [|done]. unfold hwloop_write. repeat case_match; done.
Qed.

(** C14: a CSR that keeps what is written reads back as the written value cut to its bits, without error and
    whatever the variables of the reader held, and the other ones, the two views of the floating-point flags
    apart, read as before; from then on the core runs the full handlers. *)
Theorem csr_write_read reg mask v w status junk :
  (reg, mask) ∈ csr_masks -> csr_ok w -> word v ->
  exists w', iss_csr_write reg v w = (false, w') /\ iss_csr_read status reg junk w' = (false, Z.land v mask, w') /\
    (forall reg' mask', (reg', mask') ∈ csr_masks -> reg' <> reg -> csr_overlap reg reg' = false ->
       iss_csr_read status reg' junk w' = (false, csr_value reg' w, w')) /\
    rest w' = rest w /\ current_event w' = check_all_event.
Proof.
  intros Hin Hok Hv. destruct (csr_write_value reg mask v w reg mask Hin Hin (ok_length _ Hok) Hv) as [Herr Hval].
  rewrite Z.eqb_refl in Hval. destruct (csr_write_rest reg v w) as (Hr & He & _).
  exists (iss_csr_write reg v w).2. split; [by rewrite <- Herr, <- surjective_pairing|].
  rewrite (csr_read_value status reg mask junk _ Hin), Hval. split; [done|]. split; [|done].
  intros reg' mask' Hin' Hne Ho. rewrite (csr_read_value status reg' mask' junk _ Hin').
  destruct (csr_write_value reg mask v w reg' mask' Hin Hin' (ok_length _ Hok) Hv) as [_ ->].
  by rewrite Ho, (proj2 (Z.eqb_neq _ _)).
Qed.

(** ** The instructions *)

Section Insns.
Context (regs : Z) (status : bool) (junk : Z).
#[local] Notation read_reg := (csr_read_reg hwloop hwloop0_start hwloop1_counter stack_csrs pcer_trace regs status junk).
#[local] Notation exec f := (f secure hwloop hwloop0_start hwloop1_counter stack_csrs pcer_trace regs status junk).

(** The handlers, with the update of the register each does, and whether its operand is an immediate. *)
Definition csr_insns : list ((iss_insn -> handler (S := S)) * (Z -> Z -> Z) * bool) :=
  [(exec csrrw_exec, fun _ src => src, false); (exec csrrs_exec, Z.lor, false); (exec csrrc_exec, Z.ldiff, false);
   (exec csrrwi_exec, fun _ src => src, true); (exec csrrsi_exec, Z.lor, true); (exec csrrci_exec, Z.ldiff, true)].

Lemma csr_value_word reg mask w : csr_ok w -> (reg, mask) ∈ csr_masks -> word (csr_value reg w).
Proof.
  intros Hok Hin. rewrite <- (ok_bits _ Hok _ _ Hin). pose proof (csr_masks_word _ _ Hin) as Hm.
  replace mask with (Z.land mask (Z.ones 32)) by (rewrite Z.land_ones by lia; by apply Z.mod_small).
  rewrite Z.land_assoc, Z.land_ones by lia. by apply Z.mod_pos_bound.
Qed.
Lemma clear_bits x y : word x -> word y -> Z.land x (u32 (Z.lnot y)) = Z.ldiff x y.
Proof.
  intros Hx Hy. apply Z.bits_inj'. intros n Hn. rewrite Z.land_spec, Z.ldiff_spec. unfold u32, uw.
  destruct (Z.ltb_spec n 32) as [H|H].
  - by rewrite Z.mod_pow2_bits_low, Z.lnot_spec by lia.
  - rewrite (Z.bits_above_log2 x); [done|apply Hx|].
    destruct (decide (x = 0)) as [->|]; [cbn; lia|]. apply Z.log2_lt_pow2; [destruct Hx; lia|].
    destruct Hx as [_ Hx]. apply (Z.lt_le_trans _ _ _ Hx). by apply Z.pow_le_mono_r.
Qed.

Lemma lor_word x y : word x -> word y -> word (Z.lor x y).
Proof.
  intros Hx Hy. rewrite <- (land_word x), <- (land_word y), <- Z.land_lor_distr_l by done.
  change 0xffffffff with (Z.ones 32). rewrite Z.land_ones by lia. by apply Z.mod_pos_bound.
Qed.
Lemma land_word_range x y : word x -> word (Z.land x y).
Proof.
  intros Hx. rewrite <- (land_word x), <- Z.land_assoc, (Z.land_comm _ y), Z.land_assoc by done.
  change 0xffffffff with (Z.ones 32). rewrite Z.land_ones by lia. by apply Z.mod_pos_bound.
Qed.

(** The part that all of them share. *)
Lemma csr_read_reg_spec i mask w :
  (UIM_GET i 0, mask) ∈ csr_masks ->
  read_reg i w = (csr_value (UIM_GET i 0) w, set_w_iss (REG_SET regs i 0 (csr_value (UIM_GET i 0) w) (w_iss w)) w).
Proof.
  intros Hin. unfold csr_read_reg. rewrite (csr_read_value status _ mask junk w Hin). cbn [negb andb].
  destruct (Z.eqb_spec (REG_OUT i 0) 0) as [E|]; [|done]. cbn [negb]. f_equal. unfold REG_SET, set_reg. rewrite E.
  unfold iss_set_reg, set_hst. cbn [negb Z.eqb]. by destruct w as [? ? ? ? ? ? ? ? ? ? ? ? ? ? ? ? []].
Qed.

(** C13: csrrw, csrrs, csrrc and their immediate forms do what the instruction set manual defines on every CSR that
    keeps what is written: the destination register takes the old value, unless it is x0, the CSR takes the
    operand, or the old value with its bits set or cleared, the operand being read before the destination is
    written, and no other register or CSR changes, the views of the floating-point flags apart. *)
Theorem csr_insns_isa f op (imm : bool) i mask w :
  (f, op, imm) ∈ csr_insns -> (UIM_GET i 0, mask) ∈ csr_masks -> csr_ok w -> insn_ok i ->
  let old := csr_value (UIM_GET i 0) w in
  let src := if imm then UIM_GET i 1 else REG_GET regs i 0 (w_iss w) in
  exists w', f i w = Some (i_next i, w') /\ csr_value (UIM_GET i 0) w' = Z.land (op old src) mask /\
    (forall reg mask', (reg, mask') ∈ csr_masks -> reg <> UIM_GET i 0 -> csr_overlap (UIM_GET i 0) reg = false ->
       csr_value reg w' = csr_value reg w) /\
    (forall j, get_reg regs (w_iss w') j = if negb (REG_OUT i 0 =? 0) && (j =? REG_OUT i 0) then old else get_reg regs (w_iss w) j).
Proof.
  intros Hf Hin Hok Hi old src.
  assert (Ho : word old) by by apply (csr_value_word _ mask).
  assert (Hs : word src) by (unfold src; destruct imm; [apply (ok_uim i Hi)|apply get_reg_range]).
  set (w1 := set_w_iss (REG_SET regs i 0 old (w_iss w)) w).
  assert (Hok1 : csr_ok w1) by (destruct Hok as [K1 K2 K3]; by split).
  assert (Hop : word (op old src)).
  { unfold csr_insns in Hf. repeat (apply elem_of_cons in Hf as [Hf|Hf]; [injection Hf as _ -> _|]); [..|by apply elem_of_nil in Hf];
      try done; first [by apply lor_word|rewrite <- clear_bits by done; by apply land_word_range]. }
  assert (E : f i w = Some (i_next i, (iss_csr_write (UIM_GET i 0) (op old src) w1).2)).
  { unfold csr_insns in Hf. repeat (apply elem_of_cons in Hf as [Hf|Hf]; [injection Hf as -> -> ->|]); [..|by apply elem_of_nil in Hf].
    all: cbv beta; unfold csrrw_exec, csrrs_exec, csrrc_exec, csrrwi_exec, csrrsi_exec, csrrci_exec.
    all: rewrite (csr_read_reg_spec i mask w Hin); first [reflexivity|by rewrite <- clear_bits]. }
  eexists. split; [exact E|].
  pose proof (csr_write_rest (UIM_GET i 0) (op old src) w1) as (Hr & _).
  split; [|split].
  - rewrite (proj2 (csr_write_value (UIM_GET i 0) mask _ w1 _ mask Hin Hin (ok_length _ Hok1) Hop)).
    by rewrite Z.eqb_refl.
  - intros reg mask' Hin' Hne Hov.
    rewrite (proj2 (csr_write_value (UIM_GET i 0) mask _ w1 _ mask' Hin Hin' (ok_length _ Hok1) Hop)).
    by rewrite Hov, (proj2 (Z.eqb_neq _ _)).
  - intros j. injection Hr as Hh _. unfold get_reg at 1. rewrite Hh.
    etrans; [exact (get_reg_set regs (REG_OUT i 0) old (w_iss w) j)|].
    case_match; [by apply uw_small|done].
Qed.

(** They are handlers of the core: a program with CSR instructions that do not write dcsr is never lost. *)
Lemma csr_read_quiet reg w :
  quiet w (iss_csr_read status reg junk w).2 /\ irq_enable (w_ctl (iss_csr_read status reg junk w).2) = irq_enable (w_ctl w).
Proof.
  unfold iss_csr_read. destruct (switch reg csr_reads) as [f|] eqn:E.
  - apply switch_in in E. unfold csr_reads in E. rewrite !elem_of_app in E. destruct E as [E|[E|E]];
      [|destruct (hwloop0_start =? 0x7b0)|destruct stack_csrs as [[[? ?] ?]|]];
      repeat (apply elem_of_cons in E as [E|E]; [injection E as _ ->; by split|]); by apply elem_of_nil in E.
  - unfold perfCounters_read. repeat case_match; first [by split|apply quiet_external].
Qed.
Lemma csr_insn_ok f op (imm : bool) i :
  (f, op, imm) ∈ csr_insns -> UIM_GET i 0 <> 0x7b0 \/ hwloop0_start = 0x7b0 -> HandlerOk (f i).
Proof.
  intros Hf Hd w next w' (Ha & Hw & _ & _) E.
  assert (H : exists v, w' = (iss_csr_write (UIM_GET i 0) v (read_reg i w).2).2).
  { unfold csr_insns in Hf. repeat (apply elem_of_cons in Hf as [Hf|Hf]; [injection Hf as -> -> ->|]); [..|by apply elem_of_nil in Hf].
    all: cbv beta in E; unfold csrrw_exec, csrrs_exec, csrrc_exec, csrrwi_exec, csrrsi_exec, csrrci_exec in E;
      destruct (read_reg i w) as [x w1]; injection E as _ <-; by eexists. }
  destruct H as [v ->].
  assert (Hq : events (read_reg i w).2 = events w /\ halted (read_reg i w).2 = halted w /\ step_mode (read_reg i w).2 = step_mode w /\
    fetch_enable (read_reg i w).2 = fetch_enable w /\ wfi (read_reg i w).2 = wfi w /\ irq_req (read_reg i w).2 = irq_req w /\
    w_cpu (read_reg i w).2 = w_cpu (iss_csr_read status (UIM_GET i 0) junk w).2 /\
    c_elw_stalled (w_ctl (read_reg i w).2) = c_elw_stalled (w_ctl w)).
  { unfold csr_read_reg. destruct (csr_read_quiet (UIM_GET i 0) w) as [[Q1 Q2 Q3] _].
    destruct (iss_csr_read status (UIM_GET i 0) junk w) as [[err x] w1]. cbn [snd] in *. unfold rest in Q1.
    injection Q1 as E1 E2 E3 E4 E5 E6 E7 E8 E9 E10 E11 E12. by case_match. }
  destruct Hq as (R1 & R2 & R3 & R4 & R5 & R6 & R7 & R8).
  destruct (csr_read_quiet (UIM_GET i 0) w) as [[Q1 _ _] _]. injection Q1 as _ _ _ _ _ _ _ Q8 Q9 Q10 _ _.
  destruct (csr_write_rest (UIM_GET i 0) v (read_reg i w).2) as (W1 & W2 & W3). specialize (W3 Hd).
  injection W1 as _ _ V3 V4 V5 V6 V7 V8 V9 V10 V11 V12.
  split; unfold stalls, misaligned, active in *; try (by left); rewrite ?R7 in *.
  - congruence.
  - split_and!; congruence.
  - congruence.
  - left. split; congruence.
  - left. split; congruence.
Qed.
End Insns.

(** ** What goes wrong *)

(** after a write of mstatus the bits of the two interrupt enables read as written; but the previous enable
    is kept in two places, and the read takes their union: once an exception has cleared it, it still reads as
    set, and the usual read-modify-write of mstatus sets it again, so that mret enables the interrupts. *)
Theorem mstatus_stale_enable priv v w status junk :
  word v ->
  let w1 := (iss_csr_write 0x300 v w).2 in
  (exists x, iss_csr_read status 0x300 junk w1 = (false, x, w1) /\ Z.testbit x 3 = Z.testbit v 3 /\ Z.testbit x 7 = Z.testbit v 7) /\
  irq_enable (w_ctl w1) = Z.testbit v 3 /\ saved_irq_enable (w_ctl w1) = Z.testbit v 7 /\
  (Z.testbit v 3 = false -> Z.testbit v 7 = true ->
   let w2 := (iss_except_raise priv ISS_EXCEPT_ECALL w1).2 in
   saved_irq_enable (w_ctl w2) = false /\
   exists x, iss_csr_read status 0x300 junk w2 = (false, x, w2) /\ Z.testbit x 7 = true /\
     irq_enable (w_ctl (iss_irq_handle_mret (iss_csr_write 0x300 x w2).2).2) = true).
Proof.
  intros Hv w1.
  assert (Hr : forall x : wrapper, iss_csr_read status 0x300 junk x = mstatus_read junk x).
  { intros x. unfold iss_csr_read, csr_reads. by rewrite !switch_app. }
  assert (Hw : forall y (x : wrapper), iss_csr_write 0x300 y x = mstatus_write secure y (trigger_check_all x)).
  { intros y x. unfold iss_csr_write, csr_writes. by rewrite !switch_app. }
  assert (Hs : Z.testbit (c_status (csr w1)) 7 = Z.testbit v 7).
  { unfold w1. rewrite Hw.
    change (Z.testbit (Z.lor (Z.land v (if secure then 0x21899 else 0x88)) (if secure then 0 else 0x1800)) 7 = Z.testbit v 7).
    rewrite Z.lor_spec, Z.land_spec. destruct secure; cbn [Z.testbit Pos.testbit]; by rewrite andb_true_r, orb_false_r. }
  assert (Hi : irq_enable (w_ctl w1) = Z.testbit v 3) by (unfold w1; by rewrite Hw).
  assert (Hp : saved_irq_enable (w_ctl w1) = Z.testbit v 7) by (unfold w1; by rewrite Hw).
  assert (Hread : forall (x : wrapper) n, Z.testbit (mstatus_read junk x).1.2 n =
    (Z.testbit (c_status (csr x)) n && Z.testbit (u32 (Z.lnot (Z.shiftl 1 3))) n ||
     Z.testbit (Z.shiftl (Z.b2z (irq_enable (w_ctl x))) 3) n) || Z.testbit (Z.shiftl (Z.b2z (saved_irq_enable (w_ctl x))) 7) n).
  { intros x n. by rewrite <- Z.land_spec, <- !Z.lor_spec. }
  clearbody w1. split; [|split; [done|split; [done|]]].
  - exists (mstatus_read junk w1).1.2. rewrite Hr. split; [done|]. rewrite !Hread, Hs, Hi, Hp by lia.
    split; destruct (Z.testbit v 3), (Z.testbit v 7); cbn; by rewrite ?andb_false_r, ?andb_true_r.
  - intros Hv3 Hv7 w2.
    assert (Hw2 : c_status (csr w2) = c_status (csr w1) /\ saved_irq_enable (w_ctl w2) = irq_enable (w_ctl w1)).
    { unfold w2, iss_except_raise. rewrite andb_false_r. by split. }
    destruct Hw2 as [Hs2 Hp2]. clearbody w2. split; [congruence|].
    exists (mstatus_read junk w2).1.2. rewrite Hr, Hw. split; [done|].
    assert (Hb : Z.testbit (mstatus_read junk w2).1.2 7 = true).
    { by rewrite Hread, Hs2, Hs, Hv7 by lia. }
    split; [exact Hb|]. unfold iss_irq_handle_mret. cbn. exact Hb.
Qed.

(** A write to the counter of an external signal does not depend on the value: the comment of perfCounters_write
    says that the counter is overwritten with it, the code only synchronises it. *)
Lemma external_counter_write_ignored k v v' w :
  11 <= k < 31 -> iss_csr_write (0x780 + k) v w = iss_csr_write (0x780 + k) v' w.
Proof.
  intros Hk. assert (Hp : is_perf (0x780 + k) = true).
  { unfold is_perf, CSR_PCCR, CSR_NB_PCCR. by rewrite !(proj2 (Z.leb_le _ _)) by lia. }
  unfold iss_csr_write, csr_writes. rewrite !switch_app, no_debug_case, no_stack_case by done.
  cbn [switch]. rewrite !(proj2 (Z.eqb_neq _ _)) by lia. rewrite Hp. unfold perfCounters_write, is_external.
  rewrite !(proj2 (Z.eqb_neq _ _)) by (unfold CSR_PCER, CSR_PCMR; lia).
  rewrite (proj2 (Z.leb_le _ _)), (proj2 (Z.ltb_lt _ _)) by (unfold CSR_PCCR, CSR_PCER_NB_INTERNAL_EVENTS, CSR_NB_PCCR; lia). done.
Qed.
End Registers.

(** ** Concrete accesses *)

Abbreviation demo_write := (iss_csr_write false true 0x7c0 0x7c6 None (fun _ => false)).
Abbreviation demo_read := (iss_csr_read true 0x7c0 0x7c6 None (fun _ => false)).
Definition no_stack : forall conf start end_, @None (Z * Z * Z) = Some (conf, start, end_) ->
  is_perf conf = false /\ is_perf start = false /\ is_perf end_ = false.
Proof. done. Defined.
Lemma demo_csr_ok : csr_ok 0x7c0 demo_built.
Proof.
  split; [done|by repeat constructor|]. apply (csr_masks_ind 0x7c0 (fun reg mask => Z.land (csr_value reg demo_built) mask = csr_value reg demo_built)).
  repeat (constructor; [reflexivity|]). constructor.
Qed.
Lemma demo_in_masks reg mask : bool_decide ((reg, mask) ∈ csr_masks 0x7c0) = true -> (reg, mask) ∈ csr_masks 0x7c0.
Proof. apply bool_decide_eq_true. Qed.

Lemma csr_access_ok_witness : csr_ok 0x7c0 (demo_write 0x7a0 0xffffffff demo_built).2.
Proof.
  apply (csr_access_ok false true 0x7c0 0x7c6 None (fun _ => false) no_stack 0x7a0 0xffffffff demo_built false 0);
    [exact demo_csr_ok|by split].
Defined.
Lemma csr_write_read_witness :
  exists w', demo_write 0x341 0x1235 demo_built = (false, w') /\ demo_read false 0x341 7 w' = (false, 0x1234, w').
Proof.
  destruct (csr_write_read false true 0x7c0 0x7c6 None (fun _ => false) no_stack 0x341 0xfffffffe 0x1235 demo_built false 7)
    as (w' & E1 & E2 & _); [by apply demo_in_masks|exact demo_csr_ok|by split|].
  by exists w'.
Defined.
(** csrrs x5, mscratch, x7. *)
Definition demo_csrrs : iss_insn := Insn 128 4 [7] [5] [0x340] [] 132 0.
Lemma csr_insns_isa_witness :
  exists w', csrrs_exec false true 0x7c0 0x7c6 None (fun _ => false) 5000 true 7 demo_csrrs demo_built = Some (132, w') /\
    csr_value 0x340 w' = 2 /\ get_reg 5000 (w_iss w') 5 = 0.
Proof.
  destruct (csr_insns_isa false true 0x7c0 0x7c6 None (fun _ => false) no_stack 5000 true 7
    (csrrs_exec false true 0x7c0 0x7c6 None (fun _ => false) 5000 true 7) Z.lor false demo_csrrs 0xffffffff demo_built)
    as (w' & E & Hv & _ & Hr).
  - by apply (list_elem_of_lookup_2 _ 1).
  - by apply demo_in_masks.
  - exact demo_csr_ok.
  - split; intros [|[|k]]; by split.
  - exists w'. split; [exact E|]. split; [exact (eq_trans Hv ltac:(vm_compute; reflexivity))|exact (eq_trans (Hr 5) ltac:(vm_compute; reflexivity))].
Defined.
(** mstatus set to MPIE alone, then an ecall. *)
Lemma mstatus_stale_enable_witness :
  exists x, demo_read false 0x300 0 (iss_except_raise true ISS_EXCEPT_ECALL (demo_write 0x300 0x80 demo_built).2).2 =
    (false, x, (iss_except_raise true ISS_EXCEPT_ECALL (demo_write 0x300 0x80 demo_built).2).2) /\ Z.testbit x 7 = true.
Proof.
  destruct (mstatus_stale_enable false true 0x7c0 0x7c6 None (fun _ => false) true 0x80 demo_built false 0)
    as (_ & _ & _ & H); [by split|].
  destruct (H eq_refl eq_refl) as (_ & x & Hx & Hb & _). by exists x.
Defined.
