(* ===== verification/Fetch.v ===== *)
(** * Instruction fetch (models/cpu/iss/include/prefetcher.hpp)

    The prefetcher holds one line of 16 bytes.  An opcode is read from it, after one or two line fills
    when it is not there; a fill the fetch port answers later leaves the instruction waiting for the
    response, which resumes it. *)

From S2P Require Import Prelude Io Memory.

Definition ISS_PREFETCHER_SIZE : Z := 16.
Definition ISS_OPCODE_MAX_SIZE : Z := 4.

(** The functions set as fetch_stall_callback. *)
Inductive fetch_callback := FetchValueResume0 | FetchValueResume1.

(** iss_prefetcher_t (its bytes are at [data] in the buffers), and the fields of the core that a fetch
    uses: fetch_stall_callback, fetch_stall_opcode, the address of prefetch_insn, the stall counter. *)
Record fetcher {S : Type} := Fetcher {
  pf_addr : Z;
  fetch_cycles : Z;
  fetch_stall_callback : option fetch_callback;
  fetch_stall_opcode : Z;
  prefetch_insn : Z;
  f_stalled : Z;
  f_host : host;
  f_bus : S;
}.
Arguments fetcher : clear implicits.

Section Prefetcher.
Context {S : Type} (data port : Z) (fetch : io_meth S).
Implicit Types (st : fetcher S).

Definition set_fetch (cycles : Z) (h : host) (s : S) st : fetcher S :=
  Fetcher _ (pf_addr st) cycles (fetch_stall_callback st) (fetch_stall_opcode st) (prefetch_insn st) (f_stalled st) h s.
Definition set_pf_addr (addr : Z) st : fetcher S :=
  Fetcher _ addr (fetch_cycles st) (fetch_stall_callback st) (fetch_stall_opcode st) (prefetch_insn st) (f_stalled st)
    (f_host st) (f_bus st).
Definition set_waiting (cb : option fetch_callback) (opcode insn : Z) st : fetcher S :=
  Fetcher _ (pf_addr st) (fetch_cycles st) cb opcode insn (f_stalled st + 1) (f_host st) (f_bus st).

(** iss_fetch_req (vp/include/platform_wrapper.hpp): whether the fetch is pending.  An invalid fetch is
    only warned about. *)
Definition iss_fetch_req (addr size : Z) st : option (bool * fetcher S) :=
  let* (err, r, h, s) := master_req port fetch (IoReq addr data size false false 0 0 0 []) (f_host st) (f_bus st) in
  match err with
  | IO_REQ_OK => Some (false, set_fetch (r_latency r) h s st)
  | IO_REQ_INVALID => Some (false, set_fetch (fetch_cycles st) h s st)
  | _ => Some (true, set_fetch (fetch_cycles st) h s st)
  end.

(** The mask of a line. *)
Definition LINE_MASK : Z := u32 (Z.lnot (ISS_PREFETCHER_SIZE - 1)).

(** prefetcher_fill *)
Definition prefetcher_fill (addr : Z) st : option (bool * fetcher S) :=
  let aligned_addr := Z.land addr LINE_MASK in
  iss_fetch_req aligned_addr ISS_PREFETCHER_SIZE (set_pf_addr aligned_addr st).

(** The little-endian word at an index of the line. *)
Definition line_word (index : Z) st : Z := pack 8 (load_bytes (data + index) 4 (f_host st)).

(** What a fetch ends with: the opcode to decode, or a wait. *)
Inductive fetched :=
  | Decode (opcode : Z)
  | Wait.

(** prefetcher_fetch_value_after_fill_0 of the instruction at [addr] *)
Definition prefetcher_fetch_value_after_fill_0 (addr index : Z) st : option (fetched * fetcher S) :=
  if index + ISS_OPCODE_MAX_SIZE <=? ISS_PREFETCHER_SIZE then Some (Decode (line_word index st), st)
  else
    let next_addr := Z.land (u32 (addr + ISS_PREFETCHER_SIZE - 1)) LINE_MASK in
    let nb_bytes := s32 (u32 (next_addr - addr)) in
    let opcode := pack 8 (load_bytes (data + index) nb_bytes (f_host st)) in
    let* (pending, st) := prefetcher_fill next_addr st in
    if (pending : bool) then Some (Wait, set_waiting (Some FetchValueResume1) opcode addr st)
    else
      Some (Decode (Z.lor opcode (u32 (Z.shiftl (line_word 0 st) (nb_bytes * 8)))), st).

(** prefetcher_fetch_value_resume_0 and prefetcher_fetch_value_resume_1 *)
Definition prefetcher_fetch_value_resume_0 st : option (fetched * fetcher S) :=
  let addr := prefetch_insn st in
  let index := s32 (u32 (addr - pf_addr st)) in
  prefetcher_fetch_value_after_fill_0 addr index st.
Definition prefetcher_fetch_value_resume_1 st : option (fetched * fetcher S) :=
  let addr := prefetch_insn st in
  let next_addr := Z.land (u32 (addr + ISS_PREFETCHER_SIZE - 1)) LINE_MASK in
  let nb_bytes := s32 (u32 (next_addr - addr)) in
  Some (Decode (Z.lor (fetch_stall_opcode st) (u32 (Z.shiftl (line_word 0 st) (nb_bytes * 8)))), st).

(** prefetcher_fetch_value of the instruction at [addr] *)
Definition prefetcher_fetch_value (addr : Z) st : option (fetched * fetcher S) :=
  let index := s32 (u32 (addr - pf_addr st)) in
  if (0 <=? index) && (index <=? ISS_PREFETCHER_SIZE - 4) then Some (Decode (line_word index st), st)
  else if (index <? 0) || (ISS_PREFETCHER_SIZE <=? index) then
    let* (pending, st) := prefetcher_fill addr st in
    if (pending : bool) then Some (Wait, set_waiting (Some FetchValueResume0) (fetch_stall_opcode st) addr st)
    else prefetcher_fetch_value_after_fill_0 addr (s32 (u32 (addr - pf_addr st))) st
  else prefetcher_fetch_value_after_fill_0 addr index st.

(** prefetcher_fetch_novalue_check_overflow, and prefetcher_fetch_novalue of an instruction that is
    decoded already: the fills for their timing, and whether one is pending.  No callback is left. *)
Definition prefetcher_fetch_novalue_check_overflow (addr index : Z) st : option (bool * fetcher S) :=
  if index + ISS_OPCODE_MAX_SIZE >? ISS_PREFETCHER_SIZE then
    let* (pending, st) := prefetcher_fill (u32 (pf_addr st + ISS_PREFETCHER_SIZE)) st in
    if (pending : bool) then Some (true, set_waiting None (fetch_stall_opcode st) addr st) else Some (false, st)
  else Some (false, st).
Definition prefetcher_fetch_novalue (addr : Z) st : option (bool * fetcher S) :=
  let index := s32 (u32 (addr - pf_addr st)) in
  if (0 <=? index) && (index <=? ISS_PREFETCHER_SIZE - 4) then Some (false, st)
  else if (index <? 0) || (ISS_PREFETCHER_SIZE <=? index) then
    let* (pending, st) := prefetcher_fill addr st in
    if (pending : bool) then Some (true, set_waiting None (fetch_stall_opcode st) addr st)
    else prefetcher_fetch_novalue_check_overflow addr (s32 (u32 (addr - pf_addr st))) st
  else prefetcher_fetch_novalue_check_overflow addr index st.

(** prefetcher_fetch: an instruction whose [fetched] flag is set is not decoded again ([None]). *)
Definition prefetcher_fetch (is_fetched : bool) (addr : Z) st : option (option fetched * fetcher S) :=
  if is_fetched then
    let* (pending, st) := prefetcher_fetch_novalue addr st in Some (if pending : bool then Some Wait else None, st)
  else let* (x, st) := prefetcher_fetch_value addr st in Some (Some x, st).

(** prefetcher_flush, for the prefetcher of the fetch. *)
Definition prefetcher_flush st : fetcher S := set_pf_addr (u32 (-1)) st.

(** iss_wrapper::fetch_response, up to its check_state. *)
Definition fetch_response st : option (option fetched * fetcher S) :=
  let st := Fetcher _ (pf_addr st) (fetch_cycles st) (fetch_stall_callback st) (fetch_stall_opcode st)
              (prefetch_insn st) (f_stalled st - 1) (f_host st) (f_bus st) in
  match fetch_stall_callback st with
  | Some FetchValueResume0 => let* (x, st) := prefetcher_fetch_value_resume_0 st in Some (Some x, st)
  | Some FetchValueResume1 => let* (x, st) := prefetcher_fetch_value_resume_1 st in Some (Some x, st)
  | None => Some (None, st)
  end.
End Prefetcher.


(** ** The opcode of an instruction *)

Lemma mask_line a : 0 <= a < 2 ^ 32 -> Z.land a LINE_MASK = a - a mod 16.
Proof. apply (land_clear 4); lia. Qed.

(** The word at the end of one line and the start of the next. *)
Lemma join_words A B C nb :
  0 <= nb <= 4 -> Z.of_nat (length A) = nb -> Z.of_nat (length B) = 4 - nb ->
  Z.lor (pack 8 A) (u32 (Z.shiftl (pack 8 (B ++ C)) (nb * 8))) = pack 8 (A ++ B).
Proof.
  intros Hnb HA HB. pose proof (pack_range 8 A ltac:(lia)) as RA. pose proof (pack_range 8 B ltac:(lia)) as RB.
  rewrite HA in RA. rewrite HB in RB. rewrite !pack_app, HA, HB by lia. rewrite Z.shiftl_mul_pow2 by lia.
  assert (H32 : 2 ^ 32 = 2 ^ (8 * nb) * 2 ^ (8 * (4 - nb))) by (rewrite <- Z.pow_add_r by lia; f_equal; lia).
  replace ((pack 8 B + 2 ^ (8 * (4 - nb)) * pack 8 C) * 2 ^ (nb * 8)) with (2 ^ (8 * nb) * pack 8 B + pack 8 C * 2 ^ 32)
    by (rewrite H32, (Z.mul_comm nb 8); ring).
  rewrite uw_add_mul, uw_small by nia. apply lor_high; lia.
Qed.

Section FetchFacts.
Context {S : Type} (data port : Z) (fetch : io_meth S) (mem : Z -> Z) (inv : S -> Prop) (limit : Z).
Implicit Types (st : fetcher S).

(** The line at [a] is in the buffer. *)
Definition line_at (h : host) (a : Z) : Prop := forall k, 0 <= k < 16 -> hget h (data + k) = mem (a + k).

(** The fetch port answers the request for a line of the memory, of [limit] bytes, at once with its bytes
    or later. *)
Hypothesis limit_ok : limit <= 2 ^ 32.
Hypothesis port_ok : forall a h s, inv s -> 0 <= a -> a mod 16 = 0 -> a + 16 <= limit ->
  exists err r h' s', fetch (IoReq a data 16 false false 0 0 port []) h s = Some (err, r, h', s') /\ inv s' /\
    (err = IO_REQ_OK /\ line_at h' a \/ err = IO_REQ_PENDING).

Definition opcode_at (addr : Z) : Z := pack 8 ((fun i => mem (addr + Z.of_nat i)) <$> seq 0 4).

(** The prefetcher holds a line of the memory, or was flushed. *)
Definition line_valid st : Prop :=
  pf_addr st mod 16 = 0 /\ 0 <= pf_addr st /\ line_at (f_host st) (pf_addr st).

(** The buffers and the memory when the response comes. *)
Definition at_response (h : host) (s : S) st : fetcher S := set_fetch (fetch_cycles st) h s st.

(** A fetch of [addr] ends with its opcode within [n] more responses, each coming with the line asked. *)
Fixpoint fetch_ends (n : nat) (addr : Z) (x : fetched) st : Prop :=
  match x with
  | Decode o => o = opcode_at addr /\ line_valid st
  | Wait =>
      match n with
      | O => False
      | Datatypes.S n => forall h s, inv s -> line_at h (pf_addr st) ->
          exists x' st', fetch_response data port fetch (at_response h s st) = Some (Some x', st') /\ fetch_ends n addr x' st'
      end
  end.

Lemma fill_ok a st :
  inv (f_bus st) -> 0 <= a -> a + 16 <= limit ->
  exists p st1, prefetcher_fill data port fetch a st = Some (p, st1) /\ inv (f_bus st1) /\
    pf_addr st1 = a - a mod 16 /\ fetch_stall_opcode st1 = fetch_stall_opcode st /\
    (p = false -> line_at (f_host st1) (pf_addr st1)).
Proof.
  intros Hi Ha Hend. pose proof (Z.mod_pos_bound a 16 ltac:(lia)).
  pose proof (Z.mod_le a 16 ltac:(lia) ltac:(lia)). unfold prefetcher_fill. rewrite mask_line by lia.
  unfold iss_fetch_req, master_req, set_resp_port. cbn [r_addr r_data r_size r_is_write r_debug r_latency r_duration r_args].
  assert (Hal : (a - a mod 16) mod 16 = 0).
  { rewrite Zminus_mod, Z.mod_mod, Z.sub_diag by lia. done. }
  destruct (port_ok (a - a mod 16) (f_host (set_pf_addr (a - a mod 16) st)) (f_bus (set_pf_addr (a - a mod 16) st)))
    as (err & r & h' & s' & E & Hi' & Hor); [exact Hi|lia|exact Hal|lia|].
  unfold ISS_PREFETCHER_SIZE. rewrite E. destruct Hor as [[-> Hl]| ->]; by eexists _, _.
Qed.

(** The bytes of the current line. *)
Lemma line_bytes h a index n :
  line_at h a -> 0 <= index -> 0 <= n -> index + n <= 16 ->
  load_bytes (data + index) n h = (fun i => mem (a + index + Z.of_nat i)) <$> seq 0 (Z.to_nat n).
Proof.
  intros Hl Hi Hn Hend. apply list_fmap_ext. intros k x Hk. apply lookup_seq in Hk as [-> Hk]. simpl.
  rewrite <- Z.add_assoc, Hl by lia. f_equal. lia.
Qed.

Lemma next_line addr :
  0 <= addr -> addr + 32 <= 2 ^ 32 -> 12 < addr mod 16 ->
  Z.land (u32 (addr + ISS_PREFETCHER_SIZE - 1)) LINE_MASK = addr - addr mod 16 + 16 /\
  s32 (u32 (addr - addr mod 16 + 16 - addr)) = 16 - addr mod 16.
Proof.
  intros Ha Hend Hc. pose proof (Z.mod_pos_bound addr 16 ltac:(lia)). pose proof (Z.div_mod addr 16 ltac:(lia)).
  unfold ISS_PREFETCHER_SIZE. rewrite (uw_small 32 (addr + 16 - 1)), mask_line by lia.
  assert (E : (addr + 16 - 1) mod 16 = addr mod 16 - 1) by (symmetry; apply (Z.mod_unique _ _ (addr / 16 + 1)); lia).
  rewrite E. split; [lia|]. rewrite uw_small, sw_small by lia. lia.
Qed.

(** The opcode in two lines. *)
Lemma two_lines addr h1 h2 :
  0 <= addr -> 12 < addr mod 16 -> line_at h1 (addr - addr mod 16) -> line_at h2 (addr - addr mod 16 + 16) ->
  Z.lor (pack 8 (load_bytes (data + addr mod 16) (16 - addr mod 16) h1))
    (u32 (Z.shiftl (pack 8 (load_bytes (data + 0) 4 h2)) ((16 - addr mod 16) * 8))) = opcode_at addr.
Proof.
  intros Ha Hc H1 H2. pose proof (Z.mod_pos_bound addr 16 ltac:(lia)) as Hm. set (m := addr mod 16) in *.
  replace 4 with ((4 - (16 - m)) + (16 - m)) at 1 by lia.
  rewrite load_bytes_app by lia. rewrite join_words; [|lia|rewrite length_load_bytes; lia|rewrite length_load_bytes; lia].
  unfold opcode_at. f_equal. rewrite (line_bytes h1 (addr - m)), (line_bytes h2 (addr - m + 16)) by (done || lia).
  apply list_eq. intros i. destruct (decide (i < 4)%nat) as [Hi|Hi].
  - rewrite list_lookup_fmap, lookup_seq_lt by lia. simpl. destruct (decide (i < Z.to_nat (16 - m))%nat) as [Hi1|Hi1].
    + rewrite lookup_app_l, list_lookup_fmap, lookup_seq_lt by (rewrite ?length_fmap, ?length_seq; lia).
      simpl. do 2 f_equal. lia.
    + rewrite lookup_app_r, list_lookup_fmap, length_fmap, length_seq, lookup_seq_lt
        by (rewrite ?length_fmap, ?length_seq; lia). simpl. do 2 f_equal. lia.
  - rewrite !lookup_ge_None_2; [done|rewrite length_fmap, length_seq; lia|].
    rewrite length_app, !length_fmap, !length_seq. lia.
Qed.

Lemma after_fill_ends addr st :
  inv (f_bus st) -> 0 <= addr -> addr + 32 <= limit -> pf_addr st = addr - addr mod 16 -> line_at (f_host st) (pf_addr st) ->
  exists x st1, prefetcher_fetch_value_after_fill_0 data port fetch addr (addr mod 16) st = Some (x, st1) /\
    fetch_ends 1 addr x st1.
Proof.
  intros Hi Ha Hend Hpf Hl. pose proof (Z.mod_pos_bound addr 16 ltac:(lia)) as Hm.
  pose proof (Z.mod_le addr 16 ltac:(lia) ltac:(lia)) as Hle.
  unfold prefetcher_fetch_value_after_fill_0, ISS_OPCODE_MAX_SIZE. change ISS_PREFETCHER_SIZE with 16 at 1.
  assert (Hal : (addr - addr mod 16) mod 16 = 0).
  { rewrite Zminus_mod, Z.mod_mod, Z.sub_diag by lia. done. }
  destruct (Z.leb_spec (addr mod 16 + 4) 16).
  - eexists _, _. split; [done|]. split; [|by rewrite <- Hpf in Hal; split; [|split; [lia|]]].
    unfold line_word, opcode_at. rewrite (line_bytes (f_host st) (pf_addr st)) by (done || lia). f_equal.
    apply list_fmap_ext. intros i k _. f_equal. lia.
  - destruct (next_line addr) as [En Eb]; [lia|lia|lia|]. rewrite En, Eb.
    destruct (fill_ok (addr - addr mod 16 + 16) st Hi) as (p & st1 & -> & Hi1 & Hpf1 & _ & Hl1); [lia|lia|].
    assert (E0 : (addr - addr mod 16 + 16) mod 16 = 0) by (rewrite <- (Z.mod_add _ 1) in Hal by lia; exact Hal).
    rewrite E0, Z.sub_0_r in Hpf1. rewrite Hpf in Hl. destruct p.
    + eexists _, _. split; [done|]. cbn [fetch_ends]. intros h s Hs Hlr.
      eexists _, _. split; [reflexivity|]. cbn [fetch_ends]. split.
      * cbn [prefetch_insn at_response set_fetch set_waiting]. rewrite En, Eb. apply two_lines; [lia|lia|done|].
        cbn [pf_addr set_waiting] in Hlr. by rewrite Hpf1 in Hlr.
      * cbn [pf_addr set_waiting] in Hlr. split; [|split]; cbn [pf_addr f_host at_response set_fetch set_waiting]; [by rewrite Hpf1|lia|done].
    + specialize (Hl1 eq_refl). eexists _, _. split; [done|]. cbn [fetch_ends]. split.
      * unfold line_word. apply two_lines; [lia|lia|done|by rewrite <- Hpf1].
      * split; [by rewrite Hpf1|split; [lia|done]].
Qed.

(** Where an address is in the line. *)
Lemma fetch_index addr st :
  0 <= addr -> addr + 32 <= limit -> (line_valid st /\ pf_addr st + 16 <= 2 ^ 32) \/ (pf_addr st = u32 (-1) /\ 15 <= addr) ->
  let index := s32 (u32 (addr - pf_addr st)) in
  (0 <= index < 16 /\ line_valid st /\ pf_addr st = addr - addr mod 16 /\ index = addr mod 16) \/ (index < 0 \/ 16 <= index).
Proof.
  intros Ha Hend Hv index. pose proof (Z.mod_pos_bound addr 16 ltac:(lia)) as Hm.
  pose proof (Z.div_mod addr 16 ltac:(lia)) as Hdm.
  destruct Hv as [[Hv Hpe]|[Hpf Hlow]].
  - pose proof Hv as (Hal & Hp0 & _). unfold index. rewrite sw_uw by lia.
    pose proof (Z.div_mod (pf_addr st) 16 ltac:(lia)) as Hpd.
    destruct (Z.ltb_spec (addr - pf_addr st) (2 ^ 31)); [destruct (Z.leb_spec (- 2 ^ 31) (addr - pf_addr st))|].
    + rewrite sw_small by lia. destruct (decide (0 <= addr - pf_addr st < 16)) as [Hin|]; [left|right; lia].
      assert (E : addr mod 16 = addr - pf_addr st).
      { symmetry. apply (Z.mod_unique _ _ (pf_addr st / 16)); lia. }
      split; [done|]. split; [done|]. lia.
    + right. right. destruct (sw_spec 32 (addr - pf_addr st) ltac:(lia)) as [k Ek].
      pose proof (sw_range 32 (addr - pf_addr st) ltac:(lia)) as Hr. rewrite Ek in *.
      assert (k = 1) as -> by lia. lia.
    + right. left. destruct (sw_spec 32 (addr - pf_addr st) ltac:(lia)) as [k Ek].
      pose proof (sw_range 32 (addr - pf_addr st) ltac:(lia)) as Hr. rewrite Ek in *.
      assert (k = -1) as -> by lia. lia.
  - right. unfold index. rewrite sw_uw, Hpf by lia. change (u32 (-1)) with (2 ^ 32 - 1).
    destruct (sw_spec 32 (addr - (2 ^ 32 - 1)) ltac:(lia)) as [k Ek].
    pose proof (sw_range 32 (addr - (2 ^ 32 - 1)) ltac:(lia)) as Hr. rewrite Ek in *.
    assert (k = 0 \/ k = 1) as [-> | ->] by lia; lia.
Qed.

(** C19: Fetching an instruction gives the little-endian word at its address in the memory behind the fetch
    port, whether it is in one line or in two, and whether the lines are there, are filled at once, or come
    later: the instruction then waits for at most two responses, each of which brings the line that was asked.
    The prefetcher holds a line of the memory that ends within the 4 GB of the addresses; or it has just been
    flushed and the address is at least 15, since an instruction at addresses 0 to 14 is then taken from the
    line that was flushed. The memory is of at most 4 GB, holds the 32 bytes from the address, and answers the
    request for any of its aligned lines at once or later. *)
Theorem fetch_reads_memory addr st :
  inv (f_bus st) -> 0 <= addr -> addr + 32 <= limit ->
  (line_valid st /\ pf_addr st + 16 <= 2 ^ 32) \/ (pf_addr st = u32 (-1) /\ 15 <= addr) ->
  exists x st1, prefetcher_fetch_value data port fetch addr st = Some (x, st1) /\ fetch_ends 2 addr x st1.
Proof.
  intros Hi Ha Hend Hv. pose proof (Z.mod_pos_bound addr 16 ltac:(lia)) as Hm.
  pose proof (Z.div_mod addr 16 ltac:(lia)) as Hdm.
  assert (Hmono : forall x st1, fetch_ends 1 addr x st1 -> fetch_ends 2 addr x st1).
  { intros [o|] st1 H; [exact H|]. intros h s Hs Hl. destruct (H h s Hs Hl) as (x' & st' & E & H').
    exists x', st'. split; [done|]. by destruct x'. }
  unfold prefetcher_fetch_value. set (index := s32 (u32 (addr - pf_addr st))).
  pose proof (fetch_index addr st Ha Hend Hv) as Hidx. cbv zeta in Hidx. fold index in Hidx.
  destruct Hidx as [(Hin & Hlv & Hpf & Hix)|Hout].
  - destruct (after_fill_ends addr st Hi Ha Hend Hpf) as (x & st1 & E & He); [apply Hlv|].
    rewrite Hix in *. change ISS_PREFETCHER_SIZE with 16.
    rewrite (proj2 (Z.leb_le 0 (addr mod 16))), (proj2 (Z.ltb_ge (addr mod 16) 0)), (proj2 (Z.leb_gt 16 (addr mod 16))) by lia.
    cbn [andb orb]. exists x, st1. split; [|by apply Hmono].
    destruct (Z.leb_spec (addr mod 16) (16 - 4)); [|exact E]. rewrite <- E.
    unfold prefetcher_fetch_value_after_fill_0, ISS_OPCODE_MAX_SIZE. change ISS_PREFETCHER_SIZE with 16.
    by rewrite (proj2 (Z.leb_le (addr mod 16 + 4) 16)) by lia.
  - replace ((0 <=? index) && (index <=? ISS_PREFETCHER_SIZE - 4)) with false.
    2: { symmetry. apply andb_false_iff. unfold ISS_PREFETCHER_SIZE. rewrite Z.leb_gt, Z.leb_gt. lia. }
    replace ((index <? 0) || (ISS_PREFETCHER_SIZE <=? index)) with true.
    2: { symmetry. apply orb_true_iff. unfold ISS_PREFETCHER_SIZE. rewrite Z.ltb_lt, Z.leb_le. lia. }
    destruct (fill_ok addr st Hi) as (p & st1 & -> & Hi1 & Hpf1 & _ & Hl1); [lia|lia|].
    assert (Hix : s32 (u32 (addr - pf_addr st1)) = addr mod 16).
    { rewrite Hpf1, sw_uw, sw_small by lia. lia. }
    destruct p.
    + eexists _, _. split; [done|]. cbn [fetch_ends]. intros h s Hs Hlr.
      destruct (after_fill_ends addr (Fetcher _ (pf_addr st1) (fetch_cycles st1) (Some FetchValueResume0)
        (fetch_stall_opcode st1) addr (f_stalled st1 + 1 - 1) h s)) as (x & st2 & E & He); [done|lia|lia|exact Hpf1|exact Hlr|].
      exists x, st2. split; [|exact He]. unfold fetch_response, prefetcher_fetch_value_resume_0.
      cbn [fetch_stall_callback at_response set_fetch set_waiting prefetch_insn pf_addr fetch_cycles fetch_stall_opcode f_stalled f_host f_bus].
      rewrite Hix, E. done.
    + rewrite Hix. destruct (after_fill_ends addr st1 Hi1 Ha Hend Hpf1 (Hl1 eq_refl)) as (x & st2 & E & He).
      exists x, st2. split; [done|]. by apply Hmono.
Qed.
End FetchFacts.

(** ** Witness: a fetch over two lines, from a memory and from a port that answers later. *)
Definition demo_code : memory := set_mem_data (seqZ 0 64) (memory_reset true (memory_start 64 0 false [])).
Definition demo_fetcher {T : Type} (s : T) : fetcher T := prefetcher_flush (Fetcher _ 0 0 None 0 0 0 ∅ s).

(** A memory that holds the code. *)
Definition holds_code (m : memory) : Prop :=
  (forall a n, mem_ok demo_code a n -> mem_ok m a n) /\ (forall b, mem_rd m b = mem_rd demo_code b).

Lemma demo_port_ok cycles a h s :
  holds_code s -> 0 <= a -> a mod 16 = 0 -> a + 16 <= 64 ->
  exists err r h' s', memory_req cycles (IoReq a 3000 16 false false 0 0 1 []) h s = Some (err, r, h', s') /\ holds_code s' /\
    (err = IO_REQ_OK /\ line_at 3000 (mem_rd demo_code) h' a \/ err = IO_REQ_PENDING).
Proof.
  intros [Hk Hm] Ha _ He. destruct (memory_req_ok cycles (IoReq a 3000 16 false false 0 0 1 []) h s)
    as (r' & h' & m' & E & _ & [Hm' Hh] & Hk'); [apply Hk; by repeat split|].
  exists IO_REQ_OK, r', h', m'. split; [exact E|]. split.
  - split; [intros b n Hb; by apply Hk', Hk|]. intros b. rewrite Hm'. apply Hm.
  - left. split; [done|]. intros k Hr. rewrite Hh. cbn [r_is_write r_data r_size r_addr negb andb].
    destruct (in_range_spec 3000 16 (3000 + k)); [|lia]. cbn [Z.eqb negb andb]. rewrite Hm. f_equal. lia.
Qed.

Lemma fetch_reads_memory_witness :
  (exists st, prefetcher_fetch_value 3000 1 (memory_req 0) 30 (demo_fetcher demo_code) = Some (Decode 0x21201f1e, st)) /\
  (exists st, prefetcher_fetch_value 3000 1 (fun r h s => Some (IO_REQ_PENDING, r, h, s)) 30 (demo_fetcher tt) = Some (Wait, st) /\
     fetch_ends 3000 1 (fun r h s => Some (IO_REQ_PENDING, r, h, s)) (mem_rd demo_code) (fun _ => True) 2 30 Wait st).
Proof.
  split.
  - destruct (fetch_reads_memory 3000 1 (memory_req 0) (mem_rd demo_code) holds_code 64 ltac:(lia)
      (demo_port_ok 0) 30 (demo_fetcher demo_code)) as (x & st & E & He); [by split|lia|lia|by right|].
    destruct x as [o|]; [|discriminate E]. destruct He as [-> _]. exists st.
    rewrite E. assert (O : opcode_at (mem_rd demo_code) 30 = 0x21201f1e) by (vm_compute; reflexivity). by rewrite O.
  - destruct (fetch_reads_memory (S := unit) 3000 1 (fun r h s => Some (IO_REQ_PENDING, r, h, s)) (mem_rd demo_code)
      (fun _ => True) 64) with (addr := 30) (st := demo_fetcher tt) as (x & st & E & He); [lia| |done|lia|lia|by right|].
    + intros. eexists _, _, _, _. split; [reflexivity|]. split; [done|]. by right.
    + destruct x as [o|]; [discriminate E|]. exists st. split; [exact E|exact He].
Defined.
