(* ===== verification/IsaVec.v ===== *)
(** * Packed-SIMD integer instructions of the simulator (iss/include/isa_lib/int.h)

    A 32-bit register is seen through a pointer cast as an array of 8- or 16-bit elements, on
    which the VEC_ macros of int.h define operations, comparisons, reductions and dot products.
    The macros are definitions with the macro's parameters, and each instance is the macro
    applied to the arguments of its line.  Element arithmetic is in int (32 bits), where none of
    the element types overflows except for products of uint16_t, which wrap. *)

From S2P Require Import Prelude IsaInt.

(** The C integer types the macros are applied to. *)
Record itype := IType { isigned : bool; iwidth : Z }.

Definition int8_t := IType true 8.
Definition int16_t := IType true 16.
Definition int32_t := IType true 32.
Definition uint8_t := IType false 8.
Definition uint16_t := IType false 16.
Definition uint32_t := IType false 32.

(** Conversion to a type. *)
Definition conv (t : itype) (z : Z) : Z := if isigned t then sw (iwidth t) z else uw (iwidth t) z.

(** The [n] elements of a word, and a word of type [t] stored through its elements. *)
Definition elems (e : itype) (n : nat) (x : Z) : list Z := conv e <$> lanes (iwidth e) n x.
Definition of_elems (t e : itype) (l : list Z) : Z := conv t (pack (iwidth e) l).

(** ** Element-wise operations *)

Definition VEC_OP (type elemType : itype) (num_elem : nat) (oper : Z -> Z -> Z) (a b : Z) : Z :=
  let tmp_a := elems elemType num_elem a in
  let tmp_b := elems elemType num_elem b in
  of_elems type elemType (zip_with oper tmp_a tmp_b).

Definition VEC_OP_SC (type elemType : itype) (num_elem : nat) (oper : Z -> Z -> Z) (a b : Z) : Z :=
  let tmp_a := elems elemType num_elem a in
  of_elems type elemType ((fun x => oper x b) <$> tmp_a).

Definition VEC_OP_DIV2 (type elemType : itype) (num_elem : nat) (oper : Z -> Z -> Z) (a b : Z) : Z :=
  let tmp_a := elems elemType num_elem a in
  let tmp_b := elems elemType num_elem b in
  of_elems type elemType (zip_with (fun x y => Z.shiftr (conv elemType (oper x y)) 1) tmp_a tmp_b).

Definition VEC_OP_DIV4 (type elemType : itype) (num_elem : nat) (oper : Z -> Z -> Z) (a b : Z) : Z :=
  let tmp_a := elems elemType num_elem a in
  let tmp_b := elems elemType num_elem b in
  of_elems type elemType (zip_with (fun x y => Z.shiftr (conv elemType (oper x y)) 2) tmp_a tmp_b).

Definition VEC_OP_DIV8 (type elemType : itype) (num_elem : nat) (oper : Z -> Z -> Z) (a b : Z) : Z :=
  let tmp_a := elems elemType num_elem a in
  let tmp_b := elems elemType num_elem b in
  of_elems type elemType (zip_with (fun x y => Z.shiftr (conv elemType (oper x y)) 3) tmp_a tmp_b).

Definition VEC_EXPR (type elemType : itype) (num_elem : nat) (expr : Z -> Z -> Z) (a b : Z) : Z :=
  let tmp_a := elems elemType num_elem a in
  let tmp_b := elems elemType num_elem b in
  of_elems type elemType (zip_with expr tmp_a tmp_b).

Definition VEC_EXPR_SC (type elemType : itype) (num_elem : nat) (expr : Z -> Z -> Z) (a b : Z) : Z :=
  let tmp_a := elems elemType num_elem a in
  of_elems type elemType ((fun x => expr x b) <$> tmp_a).

(** ** Comparisons *)

Definition neqb (x y : Z) : bool := negb (x =? y).

Definition VEC_CMP (type elemType : itype) (num_elem : nat) (oper : Z -> Z -> bool) (a b : Z) : Z :=
  let tmp_a := elems elemType num_elem a in
  let tmp_b := elems elemType num_elem b in
  of_elems type elemType (zip_with (fun x y => if oper x y then -1 else 0) tmp_a tmp_b).

Definition VEC_CMP_SC (type elemType : itype) (num_elem : nat) (oper : Z -> Z -> bool) (a b : Z) : Z :=
  let tmp_a := elems elemType num_elem a in
  of_elems type elemType ((fun x => if oper x b then -1 else 0) <$> tmp_a).

(** The loops of VEC_ALL and VEC_ANY: the elements of the result and the flag. *)
Fixpoint all_loop (l : list bool) (isOper : Z) : list Z * Z :=
  match l with
  | [] => ([], isOper)
  | c :: l =>
      let isOper := if c then isOper else 0 in
      let '(tmp_out, isOper) := all_loop l isOper in ((if c then -1 else 0) :: tmp_out, isOper)
  end.

Fixpoint any_loop (l : list bool) (isOper : Z) : list Z * Z :=
  match l with
  | [] => ([], isOper)
  | c :: l =>
      let isOper := if c then 1 else isOper in
      let '(tmp_out, isOper) := any_loop l isOper in ((if c then -1 else 0) :: tmp_out, isOper)
  end.

(** The word and the value stored through flagPtr. *)
Definition VEC_ALL (type elemType : itype) (num_elem : nat) (oper : Z -> Z -> bool) (a b : Z) : Z * Z :=
  let tmp_a := elems elemType num_elem a in
  let tmp_b := elems elemType num_elem b in
  let '(tmp_out, isOper) := all_loop (zip_with oper tmp_a tmp_b) 1 in
  (of_elems type elemType tmp_out, isOper).

Definition VEC_ALL_SC (type elemType : itype) (num_elem : nat) (oper : Z -> Z -> bool) (a b : Z) : Z * Z :=
  let tmp_a := elems elemType num_elem a in
  let '(tmp_out, isOper) := all_loop ((fun x => oper x b) <$> tmp_a) 1 in
  (of_elems type elemType tmp_out, isOper).

Definition VEC_ANY (type elemType : itype) (num_elem : nat) (oper : Z -> Z -> bool) (a b : Z) : Z * Z :=
  let tmp_a := elems elemType num_elem a in
  let tmp_b := elems elemType num_elem b in
  let '(tmp_out, isOper) := any_loop (zip_with oper tmp_a tmp_b) 0 in
  (of_elems type elemType tmp_out, isOper).

Definition VEC_ANY_SC (type elemType : itype) (num_elem : nat) (oper : Z -> Z -> bool) (a b : Z) : Z * Z :=
  let tmp_a := elems elemType num_elem a in
  let '(tmp_out, isOper) := any_loop ((fun x => oper x b) <$> tmp_a) 0 in
  (of_elems type elemType tmp_out, isOper).

(** ** Instances *)

Definition lib_VEC_ALL_EQ_int8_t_to_int32_t : Z -> Z -> Z * Z := VEC_ALL int32_t int8_t 4 Z.eqb.
Definition lib_VEC_ALL_SC_EQ_int8_t_to_int32_t : Z -> Z -> Z * Z := VEC_ALL_SC int32_t int8_t 4 Z.eqb.
Definition lib_VEC_ALL_EQ_int16_t_to_int32_t : Z -> Z -> Z * Z := VEC_ALL int32_t int16_t 2 Z.eqb.
Definition lib_VEC_ALL_SC_EQ_int16_t_to_int32_t : Z -> Z -> Z * Z := VEC_ALL_SC int32_t int16_t 2 Z.eqb.
Definition lib_VEC_ALL_GE_int8_t_to_int32_t : Z -> Z -> Z * Z := VEC_ALL int32_t int8_t 4 Z.geb.
Definition lib_VEC_ALL_SC_GE_int8_t_to_int32_t : Z -> Z -> Z * Z := VEC_ALL_SC int32_t int8_t 4 Z.geb.
Definition lib_VEC_ALL_GE_int16_t_to_int32_t : Z -> Z -> Z * Z := VEC_ALL int32_t int16_t 2 Z.geb.
Definition lib_VEC_ALL_SC_GE_int16_t_to_int32_t : Z -> Z -> Z * Z := VEC_ALL_SC int32_t int16_t 2 Z.geb.
Definition lib_VEC_ALL_GEU_uint8_t_to_uint32_t : Z -> Z -> Z * Z := VEC_ALL uint32_t uint8_t 4 Z.geb.
Definition lib_VEC_ALL_SC_GEU_uint8_t_to_uint32_t : Z -> Z -> Z * Z := VEC_ALL_SC uint32_t uint8_t 4 Z.geb.
Definition lib_VEC_ALL_GEU_uint16_t_to_uint32_t : Z -> Z -> Z * Z := VEC_ALL uint32_t uint16_t 2 Z.geb.
Definition lib_VEC_ALL_SC_GEU_uint16_t_to_uint32_t : Z -> Z -> Z * Z := VEC_ALL_SC uint32_t uint16_t 2 Z.geb.
Definition lib_VEC_ALL_GT_int8_t_to_int32_t : Z -> Z -> Z * Z := VEC_ALL int32_t int8_t 4 Z.gtb.
Definition lib_VEC_ALL_SC_GT_int8_t_to_int32_t : Z -> Z -> Z * Z := VEC_ALL_SC int32_t int8_t 4 Z.gtb.
Definition lib_VEC_ALL_GT_int16_t_to_int32_t : Z -> Z -> Z * Z := VEC_ALL int32_t int16_t 2 Z.gtb.
Definition lib_VEC_ALL_SC_GT_int16_t_to_int32_t : Z -> Z -> Z * Z := VEC_ALL_SC int32_t int16_t 2 Z.gtb.
Definition lib_VEC_ALL_GTU_uint8_t_to_uint32_t : Z -> Z -> Z * Z := VEC_ALL uint32_t uint8_t 4 Z.gtb.
Definition lib_VEC_ALL_SC_GTU_uint8_t_to_uint32_t : Z -> Z -> Z * Z := VEC_ALL_SC uint32_t uint8_t 4 Z.gtb.
Definition lib_VEC_ALL_GTU_uint16_t_to_uint32_t : Z -> Z -> Z * Z := VEC_ALL uint32_t uint16_t 2 Z.gtb.
Definition lib_VEC_ALL_SC_GTU_uint16_t_to_uint32_t : Z -> Z -> Z * Z := VEC_ALL_SC uint32_t uint16_t 2 Z.gtb.
Definition lib_VEC_ALL_LE_int8_t_to_int32_t : Z -> Z -> Z * Z := VEC_ALL int32_t int8_t 4 Z.leb.
Definition lib_VEC_ALL_SC_LE_int8_t_to_int32_t : Z -> Z -> Z * Z := VEC_ALL_SC int32_t int8_t 4 Z.leb.
Definition lib_VEC_ALL_LE_int16_t_to_int32_t : Z -> Z -> Z * Z := VEC_ALL int32_t int16_t 2 Z.leb.
Definition lib_VEC_ALL_SC_LE_int16_t_to_int32_t : Z -> Z -> Z * Z := VEC_ALL_SC int32_t int16_t 2 Z.leb.
Definition lib_VEC_ALL_LEU_uint8_t_to_uint32_t : Z -> Z -> Z * Z := VEC_ALL uint32_t uint8_t 4 Z.leb.
Definition lib_VEC_ALL_SC_LEU_uint8_t_to_uint32_t : Z -> Z -> Z * Z := VEC_ALL_SC uint32_t uint8_t 4 Z.leb.
Definition lib_VEC_ALL_LEU_uint16_t_to_uint32_t : Z -> Z -> Z * Z := VEC_ALL uint32_t uint16_t 2 Z.leb.
Definition lib_VEC_ALL_SC_LEU_uint16_t_to_uint32_t : Z -> Z -> Z * Z := VEC_ALL_SC uint32_t uint16_t 2 Z.leb.
Definition lib_VEC_ALL_LT_int8_t_to_int32_t : Z -> Z -> Z * Z := VEC_ALL int32_t int8_t 4 Z.ltb.
Definition lib_VEC_ALL_SC_LT_int8_t_to_int32_t : Z -> Z -> Z * Z := VEC_ALL_SC int32_t int8_t 4 Z.ltb.
Definition lib_VEC_ALL_LT_int16_t_to_int32_t : Z -> Z -> Z * Z := VEC_ALL int32_t int16_t 2 Z.ltb.
Definition lib_VEC_ALL_SC_LT_int16_t_to_int32_t : Z -> Z -> Z * Z := VEC_ALL_SC int32_t int16_t 2 Z.ltb.
Definition lib_VEC_ALL_LTU_uint8_t_to_uint32_t : Z -> Z -> Z * Z := VEC_ALL uint32_t uint8_t 4 Z.ltb.
Definition lib_VEC_ALL_SC_LTU_uint8_t_to_uint32_t : Z -> Z -> Z * Z := VEC_ALL_SC uint32_t uint8_t 4 Z.ltb.
Definition lib_VEC_ALL_LTU_uint16_t_to_uint32_t : Z -> Z -> Z * Z := VEC_ALL uint32_t uint16_t 2 Z.ltb.
Definition lib_VEC_ALL_SC_LTU_uint16_t_to_uint32_t : Z -> Z -> Z * Z := VEC_ALL_SC uint32_t uint16_t 2 Z.ltb.
Definition lib_VEC_ALL_NE_int8_t_to_int32_t : Z -> Z -> Z * Z := VEC_ALL int32_t int8_t 4 neqb.
Definition lib_VEC_ALL_SC_NE_int8_t_to_int32_t : Z -> Z -> Z * Z := VEC_ALL_SC int32_t int8_t 4 neqb.
Definition lib_VEC_ALL_NE_int16_t_to_int32_t : Z -> Z -> Z * Z := VEC_ALL int32_t int16_t 2 neqb.
Definition lib_VEC_ALL_SC_NE_int16_t_to_int32_t : Z -> Z -> Z * Z := VEC_ALL_SC int32_t int16_t 2 neqb.
Definition lib_VEC_ANY_EQ_int8_t_to_int32_t : Z -> Z -> Z * Z := VEC_ANY int32_t int8_t 4 Z.eqb.
Definition lib_VEC_ANY_SC_EQ_int8_t_to_int32_t : Z -> Z -> Z * Z := VEC_ANY_SC int32_t int8_t 4 Z.eqb.
Definition lib_VEC_ANY_EQ_int16_t_to_int32_t : Z -> Z -> Z * Z := VEC_ANY int32_t int16_t 2 Z.eqb.
Definition lib_VEC_ANY_SC_EQ_int16_t_to_int32_t : Z -> Z -> Z * Z := VEC_ANY_SC int32_t int16_t 2 Z.eqb.
Definition lib_VEC_ANY_GE_int8_t_to_int32_t : Z -> Z -> Z * Z := VEC_ANY int32_t int8_t 4 Z.geb.
Definition lib_VEC_ANY_SC_GE_int8_t_to_int32_t : Z -> Z -> Z * Z := VEC_ANY_SC int32_t int8_t 4 Z.geb.
Definition lib_VEC_ANY_GE_int16_t_to_int32_t : Z -> Z -> Z * Z := VEC_ANY int32_t int16_t 2 Z.geb.
Definition lib_VEC_ANY_SC_GE_int16_t_to_int32_t : Z -> Z -> Z * Z := VEC_ANY_SC int32_t int16_t 2 Z.geb.
Definition lib_VEC_ANY_GEU_uint8_t_to_uint32_t : Z -> Z -> Z * Z := VEC_ANY uint32_t uint8_t 4 Z.geb.
Definition lib_VEC_ANY_SC_GEU_uint8_t_to_uint32_t : Z -> Z -> Z * Z := VEC_ANY_SC uint32_t uint8_t 4 Z.geb.
Definition lib_VEC_ANY_GEU_uint16_t_to_uint32_t : Z -> Z -> Z * Z := VEC_ANY uint32_t uint16_t 2 Z.geb.
Definition lib_VEC_ANY_SC_GEU_uint16_t_to_uint32_t : Z -> Z -> Z * Z := VEC_ANY_SC uint32_t uint16_t 2 Z.geb.
Definition lib_VEC_ANY_GT_int8_t_to_int32_t : Z -> Z -> Z * Z := VEC_ANY int32_t int8_t 4 Z.gtb.
Definition lib_VEC_ANY_SC_GT_int8_t_to_int32_t : Z -> Z -> Z * Z := VEC_ANY_SC int32_t int8_t 4 Z.gtb.
Definition lib_VEC_ANY_GT_int16_t_to_int32_t : Z -> Z -> Z * Z := VEC_ANY int32_t int16_t 2 Z.gtb.
Definition lib_VEC_ANY_SC_GT_int16_t_to_int32_t : Z -> Z -> Z * Z := VEC_ANY_SC int32_t int16_t 2 Z.gtb.
Definition lib_VEC_ANY_GTU_uint8_t_to_uint32_t : Z -> Z -> Z * Z := VEC_ANY uint32_t uint8_t 4 Z.gtb.
Definition lib_VEC_ANY_SC_GTU_uint8_t_to_uint32_t : Z -> Z -> Z * Z := VEC_ANY_SC uint32_t uint8_t 4 Z.gtb.
Definition lib_VEC_ANY_GTU_uint16_t_to_uint32_t : Z -> Z -> Z * Z := VEC_ANY uint32_t uint16_t 2 Z.gtb.
Definition lib_VEC_ANY_SC_GTU_uint16_t_to_uint32_t : Z -> Z -> Z * Z := VEC_ANY_SC uint32_t uint16_t 2 Z.gtb.
Definition lib_VEC_ANY_LE_int8_t_to_int32_t : Z -> Z -> Z * Z := VEC_ANY int32_t int8_t 4 Z.leb.
Definition lib_VEC_ANY_SC_LE_int8_t_to_int32_t : Z -> Z -> Z * Z := VEC_ANY_SC int32_t int8_t 4 Z.leb.
Definition lib_VEC_ANY_LE_int16_t_to_int32_t : Z -> Z -> Z * Z := VEC_ANY int32_t int16_t 2 Z.leb.
Definition lib_VEC_ANY_SC_LE_int16_t_to_int32_t : Z -> Z -> Z * Z := VEC_ANY_SC int32_t int16_t 2 Z.leb.
Definition lib_VEC_ANY_LEU_uint8_t_to_uint32_t : Z -> Z -> Z * Z := VEC_ANY uint32_t uint8_t 4 Z.leb.
Definition lib_VEC_ANY_SC_LEU_uint8_t_to_uint32_t : Z -> Z -> Z * Z := VEC_ANY_SC uint32_t uint8_t 4 Z.leb.
Definition lib_VEC_ANY_LEU_uint16_t_to_uint32_t : Z -> Z -> Z * Z := VEC_ANY uint32_t uint16_t 2 Z.leb.
Definition lib_VEC_ANY_SC_LEU_uint16_t_to_uint32_t : Z -> Z -> Z * Z := VEC_ANY_SC uint32_t uint16_t 2 Z.leb.
Definition lib_VEC_ANY_LT_int8_t_to_int32_t : Z -> Z -> Z * Z := VEC_ANY int32_t int8_t 4 Z.ltb.
Definition lib_VEC_ANY_SC_LT_int8_t_to_int32_t : Z -> Z -> Z * Z := VEC_ANY_SC int32_t int8_t 4 Z.ltb.
Definition lib_VEC_ANY_LT_int16_t_to_int32_t : Z -> Z -> Z * Z := VEC_ANY int32_t int16_t 2 Z.ltb.
Definition lib_VEC_ANY_SC_LT_int16_t_to_int32_t : Z -> Z -> Z * Z := VEC_ANY_SC int32_t int16_t 2 Z.ltb.
Definition lib_VEC_ANY_LTU_uint8_t_to_uint32_t : Z -> Z -> Z * Z := VEC_ANY uint32_t uint8_t 4 Z.ltb.
Definition lib_VEC_ANY_SC_LTU_uint8_t_to_uint32_t : Z -> Z -> Z * Z := VEC_ANY_SC uint32_t uint8_t 4 Z.ltb.
Definition lib_VEC_ANY_LTU_uint16_t_to_uint32_t : Z -> Z -> Z * Z := VEC_ANY uint32_t uint16_t 2 Z.ltb.
Definition lib_VEC_ANY_SC_LTU_uint16_t_to_uint32_t : Z -> Z -> Z * Z := VEC_ANY_SC uint32_t uint16_t 2 Z.ltb.
Definition lib_VEC_ANY_NE_int8_t_to_int32_t : Z -> Z -> Z * Z := VEC_ANY int32_t int8_t 4 neqb.
Definition lib_VEC_ANY_SC_NE_int8_t_to_int32_t : Z -> Z -> Z * Z := VEC_ANY_SC int32_t int8_t 4 neqb.
Definition lib_VEC_ANY_NE_int16_t_to_int32_t : Z -> Z -> Z * Z := VEC_ANY int32_t int16_t 2 neqb.
Definition lib_VEC_ANY_SC_NE_int16_t_to_int32_t : Z -> Z -> Z * Z := VEC_ANY_SC int32_t int16_t 2 neqb.
Definition lib_VEC_CMPEQ_int8_t_to_int32_t : Z -> Z -> Z := VEC_CMP int32_t int8_t 4 Z.eqb.
Definition lib_VEC_CMPEQ_SC_int8_t_to_int32_t : Z -> Z -> Z := VEC_CMP_SC int32_t int8_t 4 Z.eqb.
Definition lib_VEC_CMPEQ_int16_t_to_int32_t : Z -> Z -> Z := VEC_CMP int32_t int16_t 2 Z.eqb.
Definition lib_VEC_CMPEQ_SC_int16_t_to_int32_t : Z -> Z -> Z := VEC_CMP_SC int32_t int16_t 2 Z.eqb.
Definition lib_VEC_CMPGE_int8_t_to_int32_t : Z -> Z -> Z := VEC_CMP int32_t int8_t 4 Z.geb.
Definition lib_VEC_CMPGE_SC_int8_t_to_int32_t : Z -> Z -> Z := VEC_CMP_SC int32_t int8_t 4 Z.geb.
Definition lib_VEC_CMPGE_int16_t_to_int32_t : Z -> Z -> Z := VEC_CMP int32_t int16_t 2 Z.geb.
Definition lib_VEC_CMPGE_SC_int16_t_to_int32_t : Z -> Z -> Z := VEC_CMP_SC int32_t int16_t 2 Z.geb.
Definition lib_VEC_CMPGEU_uint8_t_to_uint32_t : Z -> Z -> Z := VEC_CMP uint32_t uint8_t 4 Z.geb.
Definition lib_VEC_CMPGEU_SC_uint8_t_to_uint32_t : Z -> Z -> Z := VEC_CMP_SC uint32_t uint8_t 4 Z.geb.
Definition lib_VEC_CMPGEU_uint16_t_to_uint32_t : Z -> Z -> Z := VEC_CMP uint32_t uint16_t 2 Z.geb.
Definition lib_VEC_CMPGEU_SC_uint16_t_to_uint32_t : Z -> Z -> Z := VEC_CMP_SC uint32_t uint16_t 2 Z.geb.
Definition lib_VEC_CMPGT_int8_t_to_int32_t : Z -> Z -> Z := VEC_CMP int32_t int8_t 4 Z.gtb.
Definition lib_VEC_CMPGT_SC_int8_t_to_int32_t : Z -> Z -> Z := VEC_CMP_SC int32_t int8_t 4 Z.gtb.
Definition lib_VEC_CMPGT_int16_t_to_int32_t : Z -> Z -> Z := VEC_CMP int32_t int16_t 2 Z.gtb.
Definition lib_VEC_CMPGT_SC_int16_t_to_int32_t : Z -> Z -> Z := VEC_CMP_SC int32_t int16_t 2 Z.gtb.
Definition lib_VEC_CMPGTU_uint8_t_to_uint32_t : Z -> Z -> Z := VEC_CMP uint32_t uint8_t 4 Z.gtb.
Definition lib_VEC_CMPGTU_SC_uint8_t_to_uint32_t : Z -> Z -> Z := VEC_CMP_SC uint32_t uint8_t 4 Z.gtb.
Definition lib_VEC_CMPGTU_uint16_t_to_uint32_t : Z -> Z -> Z := VEC_CMP uint32_t uint16_t 2 Z.gtb.
Definition lib_VEC_CMPGTU_SC_uint16_t_to_uint32_t : Z -> Z -> Z := VEC_CMP_SC uint32_t uint16_t 2 Z.gtb.
Definition lib_VEC_CMPLE_int8_t_to_int32_t : Z -> Z -> Z := VEC_CMP int32_t int8_t 4 Z.leb.
Definition lib_VEC_CMPLE_SC_int8_t_to_int32_t : Z -> Z -> Z := VEC_CMP_SC int32_t int8_t 4 Z.leb.
Definition lib_VEC_CMPLE_int16_t_to_int32_t : Z -> Z -> Z := VEC_CMP int32_t int16_t 2 Z.leb.
Definition lib_VEC_CMPLE_SC_int16_t_to_int32_t : Z -> Z -> Z := VEC_CMP_SC int32_t int16_t 2 Z.leb.
Definition lib_VEC_CMPLEU_uint8_t_to_uint32_t : Z -> Z -> Z := VEC_CMP uint32_t uint8_t 4 Z.leb.
Definition lib_VEC_CMPLEU_SC_uint8_t_to_uint32_t : Z -> Z -> Z := VEC_CMP_SC uint32_t uint8_t 4 Z.leb.
Definition lib_VEC_CMPLEU_uint16_t_to_uint32_t : Z -> Z -> Z := VEC_CMP uint32_t uint16_t 2 Z.leb.
Definition lib_VEC_CMPLEU_SC_uint16_t_to_uint32_t : Z -> Z -> Z := VEC_CMP_SC uint32_t uint16_t 2 Z.leb.
Definition lib_VEC_CMPLT_int8_t_to_int32_t : Z -> Z -> Z := VEC_CMP int32_t int8_t 4 Z.ltb.
Definition lib_VEC_CMPLT_SC_int8_t_to_int32_t : Z -> Z -> Z := VEC_CMP_SC int32_t int8_t 4 Z.ltb.
Definition lib_VEC_CMPLT_int16_t_to_int32_t : Z -> Z -> Z := VEC_CMP int32_t int16_t 2 Z.ltb.
Definition lib_VEC_CMPLT_SC_int16_t_to_int32_t : Z -> Z -> Z := VEC_CMP_SC int32_t int16_t 2 Z.ltb.
Definition lib_VEC_CMPLTU_uint8_t_to_uint32_t : Z -> Z -> Z := VEC_CMP uint32_t uint8_t 4 Z.ltb.
Definition lib_VEC_CMPLTU_SC_uint8_t_to_uint32_t : Z -> Z -> Z := VEC_CMP_SC uint32_t uint8_t 4 Z.ltb.
Definition lib_VEC_CMPLTU_uint16_t_to_uint32_t : Z -> Z -> Z := VEC_CMP uint32_t uint16_t 2 Z.ltb.
Definition lib_VEC_CMPLTU_SC_uint16_t_to_uint32_t : Z -> Z -> Z := VEC_CMP_SC uint32_t uint16_t 2 Z.ltb.
Definition lib_VEC_CMPNE_int8_t_to_int32_t : Z -> Z -> Z := VEC_CMP int32_t int8_t 4 neqb.
Definition lib_VEC_CMPNE_SC_int8_t_to_int32_t : Z -> Z -> Z := VEC_CMP_SC int32_t int8_t 4 neqb.
Definition lib_VEC_CMPNE_int16_t_to_int32_t : Z -> Z -> Z := VEC_CMP int32_t int16_t 2 neqb.
Definition lib_VEC_CMPNE_SC_int16_t_to_int32_t : Z -> Z -> Z := VEC_CMP_SC int32_t int16_t 2 neqb.
Definition lib_VEC_ADD_int8_t_to_int32_t : Z -> Z -> Z := VEC_OP int32_t int8_t 4 Z.add.
Definition lib_VEC_ADD_SC_int8_t_to_int32_t : Z -> Z -> Z := VEC_OP_SC int32_t int8_t 4 Z.add.
Definition lib_VEC_ADD_int8_t_to_int32_t_div2 : Z -> Z -> Z := VEC_OP_DIV2 int32_t int8_t 4 Z.add.
Definition lib_VEC_ADD_int8_t_to_int32_t_div4 : Z -> Z -> Z := VEC_OP_DIV4 int32_t int8_t 4 Z.add.
Definition lib_VEC_ADD_int16_t_to_int32_t : Z -> Z -> Z := VEC_OP int32_t int16_t 2 Z.add.
Definition lib_VEC_ADD_SC_int16_t_to_int32_t : Z -> Z -> Z := VEC_OP_SC int32_t int16_t 2 Z.add.
Definition lib_VEC_ADD_int16_t_to_int32_t_div2 : Z -> Z -> Z := VEC_OP_DIV2 int32_t int16_t 2 Z.add.
Definition lib_VEC_ADD_int16_t_to_int32_t_div4 : Z -> Z -> Z := VEC_OP_DIV4 int32_t int16_t 2 Z.add.
Definition lib_VEC_ADD_int16_t_to_int32_t_div8 : Z -> Z -> Z := VEC_OP_DIV8 int32_t int16_t 2 Z.add.
Definition lib_VEC_SUB_int8_t_to_int32_t : Z -> Z -> Z := VEC_OP int32_t int8_t 4 Z.sub.
Definition lib_VEC_SUB_SC_int8_t_to_int32_t : Z -> Z -> Z := VEC_OP_SC int32_t int8_t 4 Z.sub.
Definition lib_VEC_SUB_int8_t_to_int32_t_div2 : Z -> Z -> Z := VEC_OP_DIV2 int32_t int8_t 4 Z.sub.
Definition lib_VEC_SUB_int8_t_to_int32_t_div4 : Z -> Z -> Z := VEC_OP_DIV4 int32_t int8_t 4 Z.sub.
Definition lib_VEC_SUB_int16_t_to_int32_t : Z -> Z -> Z := VEC_OP int32_t int16_t 2 Z.sub.
Definition lib_VEC_SUB_SC_int16_t_to_int32_t : Z -> Z -> Z := VEC_OP_SC int32_t int16_t 2 Z.sub.
Definition lib_VEC_SUB_int16_t_to_int32_t_div2 : Z -> Z -> Z := VEC_OP_DIV2 int32_t int16_t 2 Z.sub.
Definition lib_VEC_SUB_int16_t_to_int32_t_div4 : Z -> Z -> Z := VEC_OP_DIV4 int32_t int16_t 2 Z.sub.
Definition lib_VEC_SUB_int16_t_to_int32_t_div8 : Z -> Z -> Z := VEC_OP_DIV8 int32_t int16_t 2 Z.sub.
Definition lib_VEC_AVG_int8_t_to_int32_t : Z -> Z -> Z :=
  VEC_EXPR int32_t int8_t 4 (fun x y => Z.shiftr (s8 (x + y)) 1).
Definition lib_VEC_AVG_int16_t_to_int32_t : Z -> Z -> Z :=
  VEC_EXPR int32_t int16_t 2 (fun x y => Z.shiftr (s16 (x + y)) 1).
Definition lib_VEC_AVG_SC_int8_t_to_int32_t : Z -> Z -> Z :=
  VEC_EXPR_SC int32_t int8_t 4 (fun x y => Z.shiftr (s8 (x + y)) 1).
Definition lib_VEC_AVG_SC_int16_t_to_int32_t : Z -> Z -> Z :=
  VEC_EXPR_SC int32_t int16_t 2 (fun x y => Z.shiftr (s16 (x + y)) 1).
Definition lib_VEC_AVGU_uint8_t_to_uint32_t : Z -> Z -> Z :=
  VEC_EXPR uint32_t uint8_t 4 (fun x y => Z.shiftr (u8 (x + y)) 1).
Definition lib_VEC_AVGU_uint16_t_to_uint32_t : Z -> Z -> Z :=
  VEC_EXPR uint32_t uint16_t 2 (fun x y => Z.shiftr (u16 (x + y)) 1).
Definition lib_VEC_AVGU_SC_uint8_t_to_uint32_t : Z -> Z -> Z :=
  VEC_EXPR_SC uint32_t uint8_t 4 (fun x y => Z.shiftr (u8 (x + y)) 1).
Definition lib_VEC_AVGU_SC_uint16_t_to_uint32_t : Z -> Z -> Z :=
  VEC_EXPR_SC uint32_t uint16_t 2 (fun x y => Z.shiftr (u16 (x + y)) 1).
Definition lib_VEC_MIN_int8_t_to_int32_t : Z -> Z -> Z :=
  VEC_EXPR int32_t int8_t 4 (fun x y => if x >? y then y else x).
Definition lib_VEC_MIN_int16_t_to_int32_t : Z -> Z -> Z :=
  VEC_EXPR int32_t int16_t 2 (fun x y => if x >? y then y else x).
Definition lib_VEC_MIN_SC_int8_t_to_int32_t : Z -> Z -> Z :=
  VEC_EXPR_SC int32_t int8_t 4 (fun x y => if x >? y then y else x).
Definition lib_VEC_MIN_SC_int16_t_to_int32_t : Z -> Z -> Z :=
  VEC_EXPR_SC int32_t int16_t 2 (fun x y => if x >? y then y else x).
Definition lib_VEC_MINU_uint8_t_to_uint32_t : Z -> Z -> Z :=
  VEC_EXPR uint32_t uint8_t 4 (fun x y => if x >? y then y else x).
Definition lib_VEC_MINU_uint16_t_to_uint32_t : Z -> Z -> Z :=
  VEC_EXPR uint32_t uint16_t 2 (fun x y => if x >? y then y else x).
Definition lib_VEC_MINU_SC_uint8_t_to_uint32_t : Z -> Z -> Z :=
  VEC_EXPR_SC uint32_t uint8_t 4 (fun x y => if x >? y then y else x).
Definition lib_VEC_MINU_SC_uint16_t_to_uint32_t : Z -> Z -> Z :=
  VEC_EXPR_SC uint32_t uint16_t 2 (fun x y => if x >? y then y else x).
Definition lib_VEC_MAX_int8_t_to_int32_t : Z -> Z -> Z :=
  VEC_EXPR int32_t int8_t 4 (fun x y => if x >? y then x else y).
Definition lib_VEC_MAX_int16_t_to_int32_t : Z -> Z -> Z :=
  VEC_EXPR int32_t int16_t 2 (fun x y => if x >? y then x else y).
Definition lib_VEC_MAX_SC_int8_t_to_int32_t : Z -> Z -> Z :=
  VEC_EXPR_SC int32_t int8_t 4 (fun x y => if x >? y then x else y).
Definition lib_VEC_MAX_SC_int16_t_to_int32_t : Z -> Z -> Z :=
  VEC_EXPR_SC int32_t int16_t 2 (fun x y => if x >? y then x else y).
Definition lib_VEC_MAXU_uint8_t_to_uint32_t : Z -> Z -> Z :=
  VEC_EXPR uint32_t uint8_t 4 (fun x y => if x >? y then x else y).
Definition lib_VEC_MAXU_uint16_t_to_uint32_t : Z -> Z -> Z :=
  VEC_EXPR uint32_t uint16_t 2 (fun x y => if x >? y then x else y).
Definition lib_VEC_MAXU_SC_uint8_t_to_uint32_t : Z -> Z -> Z :=
  VEC_EXPR_SC uint32_t uint8_t 4 (fun x y => if x >? y then x else y).
Definition lib_VEC_MAXU_SC_uint16_t_to_uint32_t : Z -> Z -> Z :=
  VEC_EXPR_SC uint32_t uint16_t 2 (fun x y => if x >? y then x else y).
Definition lib_VEC_SRL_uint8_t_to_uint32_t : Z -> Z -> Z :=
  VEC_EXPR uint32_t uint8_t 4 (fun x y => Z.shiftr x (Z.land y 0x7)).
Definition lib_VEC_SRL_SC_uint8_t_to_uint32_t : Z -> Z -> Z :=
  VEC_EXPR_SC uint32_t uint8_t 4 (fun x y => Z.shiftr x (Z.land y 0x7)).
Definition lib_VEC_SRL_uint16_t_to_uint32_t : Z -> Z -> Z :=
  VEC_EXPR uint32_t uint16_t 2 (fun x y => Z.shiftr x (Z.land y 0xf)).
Definition lib_VEC_SRL_SC_uint16_t_to_uint32_t : Z -> Z -> Z :=
  VEC_EXPR_SC uint32_t uint16_t 2 (fun x y => Z.shiftr x (Z.land y 0xf)).
Definition lib_VEC_SRA_int8_t_to_int32_t : Z -> Z -> Z :=
  VEC_EXPR int32_t int8_t 4 (fun x y => Z.shiftr x (Z.land y 0x7)).
Definition lib_VEC_SRA_SC_int8_t_to_int32_t : Z -> Z -> Z :=
  VEC_EXPR_SC int32_t int8_t 4 (fun x y => Z.shiftr x (Z.land y 0x7)).
Definition lib_VEC_SRA_int16_t_to_int32_t : Z -> Z -> Z :=
  VEC_EXPR int32_t int16_t 2 (fun x y => Z.shiftr x (Z.land y 0xf)).
Definition lib_VEC_SRA_SC_int16_t_to_int32_t : Z -> Z -> Z :=
  VEC_EXPR_SC int32_t int16_t 2 (fun x y => Z.shiftr x (Z.land y 0xf)).
Definition lib_VEC_SLL_uint8_t_to_uint32_t : Z -> Z -> Z :=
  VEC_EXPR uint32_t uint8_t 4 (fun x y => Z.shiftl x (Z.land y 0x7)).
Definition lib_VEC_SLL_SC_uint8_t_to_uint32_t : Z -> Z -> Z :=
  VEC_EXPR_SC uint32_t uint8_t 4 (fun x y => Z.shiftl x (Z.land y 0x7)).
Definition lib_VEC_SLL_uint16_t_to_uint32_t : Z -> Z -> Z :=
  VEC_EXPR uint32_t uint16_t 2 (fun x y => Z.shiftl x (Z.land y 0xf)).
Definition lib_VEC_SLL_SC_uint16_t_to_uint32_t : Z -> Z -> Z :=
  VEC_EXPR_SC uint32_t uint16_t 2 (fun x y => Z.shiftl x (Z.land y 0xf)).
Definition lib_VEC_MUL_int8_t_to_int32_t : Z -> Z -> Z := VEC_OP int32_t int8_t 4 Z.mul.
Definition lib_VEC_MUL_SC_int8_t_to_int32_t : Z -> Z -> Z := VEC_OP_SC int32_t int8_t 4 Z.mul.
Definition lib_VEC_MUL_int16_t_to_int32_t : Z -> Z -> Z := VEC_OP int32_t int16_t 2 Z.mul.
Definition lib_VEC_MUL_SC_int16_t_to_int32_t : Z -> Z -> Z := VEC_OP_SC int32_t int16_t 2 Z.mul.
Definition lib_VEC_OR_int8_t_to_int32_t : Z -> Z -> Z := VEC_OP int32_t int8_t 4 Z.lor.
Definition lib_VEC_OR_SC_int8_t_to_int32_t : Z -> Z -> Z := VEC_OP_SC int32_t int8_t 4 Z.lor.
Definition lib_VEC_OR_int16_t_to_int32_t : Z -> Z -> Z := VEC_OP int32_t int16_t 2 Z.lor.
Definition lib_VEC_OR_SC_int16_t_to_int32_t : Z -> Z -> Z := VEC_OP_SC int32_t int16_t 2 Z.lor.
Definition lib_VEC_XOR_int8_t_to_int32_t : Z -> Z -> Z := VEC_OP int32_t int8_t 4 Z.lxor.
Definition lib_VEC_XOR_SC_int8_t_to_int32_t : Z -> Z -> Z := VEC_OP_SC int32_t int8_t 4 Z.lxor.
Definition lib_VEC_XOR_int16_t_to_int32_t : Z -> Z -> Z := VEC_OP int32_t int16_t 2 Z.lxor.
Definition lib_VEC_XOR_SC_int16_t_to_int32_t : Z -> Z -> Z := VEC_OP_SC int32_t int16_t 2 Z.lxor.
Definition lib_VEC_AND_int8_t_to_int32_t : Z -> Z -> Z := VEC_OP int32_t int8_t 4 Z.land.
Definition lib_VEC_AND_SC_int8_t_to_int32_t : Z -> Z -> Z := VEC_OP_SC int32_t int8_t 4 Z.land.
Definition lib_VEC_AND_int16_t_to_int32_t : Z -> Z -> Z := VEC_OP int32_t int16_t 2 Z.land.
Definition lib_VEC_AND_SC_int16_t_to_int32_t : Z -> Z -> Z := VEC_OP_SC int32_t int16_t 2 Z.land.

(** ** Insertion, extraction and permutation of elements *)

Definition lib_VEC_INS_8 (a b shift : Z) : option Z :=
  let shift := u32 (shift * 8) in
  let* m := shl 32 0xff shift in
  let mask := u32 m in
  let* i := shl 32 (Z.land b 0xff) shift in
  let ins := u32 i in
  let a := Z.land a (u32 (Z.lnot mask)) in
  Some (Z.lor a ins).

Definition lib_VEC_INS_16 (a b shift : Z) : option Z :=
  let shift := u32 (shift * 16) in
  let* m := shl 32 0xffff shift in
  let mask := u32 m in
  let* i := shl 32 (Z.land b 0xffff) shift in
  let ins := u32 i in
  let a := Z.land a (u32 (Z.lnot mask)) in
  Some (Z.lor a ins).

Definition lib_VEC_EXT_8 (a shift : Z) : option Z :=
  let shift := u32 (shift * 8) in
  let* m := shl 32 0xff shift in
  let a := Z.land a (u32 m) in
  let* a := shr 32 a shift in
  Some (u32 (s8 a)).

Definition lib_VEC_EXT_16 (a shift : Z) : option Z :=
  let shift := u32 (shift * 16) in
  let* m := shl 32 0xffff shift in
  let a := Z.land a (u32 m) in
  let* a := shr 32 a shift in
  Some (u32 (s16 a)).

Definition lib_VEC_EXTU_8 (a shift : Z) : option Z :=
  let shift := u32 (shift * 8) in
  let* m := shl 32 0xff shift in
  let a := Z.land a (u32 m) in
  shr 32 a shift.

Definition lib_VEC_EXTU_16 (a shift : Z) : option Z :=
  let shift := u32 (shift * 16) in
  let* m := shl 32 0xffff shift in
  let a := Z.land a (u32 m) in
  shr 32 a shift.

Definition lib_VEC_ABS_int8_t_to_int32_t (a : Z) : Z :=
  of_elems int32_t int8_t ((fun x => if x >? 0 then x else - x) <$> elems int8_t 4 a).

Definition lib_VEC_ABS_int16_t_to_int32_t (a : Z) : Z :=
  of_elems int32_t int16_t ((fun x => if x >? 0 then x else - x) <$> elems int16_t 2 a).

(** The shift counts of the shuffles are below 32 by construction. *)
Definition getShuffleHalf (a b pos : Z) : Z :=
  let shift := Z.shiftl (Z.land (Z.shiftr b pos) 1) 4 in
  u32 (Z.shiftl (Z.land (Z.shiftr a shift) 0xffff) pos).

Definition lib_VEC_SHUFFLE_16 (a b : Z) : Z :=
  Z.lor (getShuffleHalf a b 16) (getShuffleHalf a b 0).

Definition getShuffleHalfSci (a b pos : Z) : Z :=
  let bitPos := Z.shiftr pos 4 in
  let shift := Z.shiftl (Z.land (Z.shiftr b bitPos) 1) 4 in
  u32 (Z.shiftl (Z.land (Z.shiftr a shift) 0xffff) pos).

Definition lib_VEC_SHUFFLE_SCI_16 (a b : Z) : Z :=
  Z.lor (getShuffleHalfSci a b 16) (getShuffleHalfSci a b 0).

Definition getShuffleByte (a b pos : Z) : Z :=
  let shift := Z.shiftl (Z.land (Z.shiftr b pos) 0x3) 3 in
  u32 (Z.shiftl (Z.land (Z.shiftr a shift) 0xff) pos).

Definition lib_VEC_SHUFFLE_8 (a b : Z) : Z :=
  Z.lor (Z.lor (Z.lor (getShuffleByte a b 24) (getShuffleByte a b 16)) (getShuffleByte a b 8))
    (getShuffleByte a b 0).

Definition getShuffleByteSci (a b pos : Z) : Z :=
  let bitPos := Z.shiftr pos 2 in
  let shift := Z.shiftl (Z.land (Z.shiftr b bitPos) 0x3) 3 in
  u32 (Z.shiftl (Z.land (Z.shiftr a shift) 0xff) pos).

Definition lib_VEC_SHUFFLE_SCI_8 (a b : Z) : Z :=
  Z.lor (Z.lor (Z.lor (getShuffleByteSci a b 24) (getShuffleByteSci a b 16)) (getShuffleByteSci a b 8))
    (getShuffleByteSci a b 0).

Definition lib_VEC_SHUFFLEI0_SCI_8 (a b : Z) : Z :=
  Z.lor (Z.lor (Z.lor (u32 (Z.shiftl (Z.land (Z.shiftr a 0) 0xff) 24)) (getShuffleByteSci a b 16))
    (getShuffleByteSci a b 8)) (getShuffleByteSci a b 0).

Definition lib_VEC_SHUFFLEI1_SCI_8 (a b : Z) : Z :=
  Z.lor (Z.lor (Z.lor (u32 (Z.shiftl (Z.land (Z.shiftr a 8) 0xff) 24)) (getShuffleByteSci a b 16))
    (getShuffleByteSci a b 8)) (getShuffleByteSci a b 0).

Definition lib_VEC_SHUFFLEI2_SCI_8 (a b : Z) : Z :=
  Z.lor (Z.lor (Z.lor (u32 (Z.shiftl (Z.land (Z.shiftr a 16) 0xff) 24)) (getShuffleByteSci a b 16))
    (getShuffleByteSci a b 8)) (getShuffleByteSci a b 0).

Definition lib_VEC_SHUFFLEI3_SCI_8 (a b : Z) : Z :=
  Z.lor (Z.lor (Z.lor (u32 (Z.shiftl (Z.land (Z.shiftr a 24) 0xff) 24)) (getShuffleByteSci a b 16))
    (getShuffleByteSci a b 8)) (getShuffleByteSci a b 0).

(** As built for RISC-V. *)
Definition lib_VEC_SHUFFLE2_16 (a b c : Z) : Z :=
  Z.lor (getShuffleHalf (if negb (Z.land b (Z.shiftl 1 17) =? 0) then a else c) b 16)
    (getShuffleHalf (if negb (Z.land b (Z.shiftl 1 1) =? 0) then a else c) b 0).

Definition lib_VEC_SHUFFLE2_8 (a b c : Z) : Z :=
  Z.lor (Z.lor (Z.lor
    (getShuffleByte (if negb (Z.land b (Z.shiftl 1 26) =? 0) then a else c) b 24)
    (getShuffleByte (if negb (Z.land b (Z.shiftl 1 18) =? 0) then a else c) b 16))
    (getShuffleByte (if negb (Z.land b (Z.shiftl 1 10) =? 0) then a else c) b 8))
    (getShuffleByte (if negb (Z.land b (Z.shiftl 1 2) =? 0) then a else c) b 0).

Definition lib_VEC_PACK_SC_16 (a b : Z) : Z :=
  Z.lor (u32 (Z.shiftl (Z.land a 0xffff) 16)) (Z.land b 0xffff).

Definition lib_VEC_PACKHI_SC_8 (a b c : Z) : Z :=
  Z.lor (Z.lor (u32 (Z.shiftl (Z.land a 0xff) 24)) (u32 (Z.shiftl (Z.land b 0xff) 16))) (Z.land c 0xffff).

Definition lib_VEC_PACKLO_SC_8 (a b c : Z) : Z :=
  Z.lor (Z.lor (u32 (Z.shiftl (Z.land a 0xff) 8)) (Z.shiftl (Z.land b 0xff) 0)) (Z.land c 0xffff0000).

Definition lib_VEC_PACK_SC_H_16 (a b : Z) : Z := Z.lor (Z.shiftr b 16) (Z.land a 0xffff0000).
Definition lib_VEC_PACK_SC_HL_16 (a b : Z) : Z := Z.lor (Z.land b 0xffff) (u32 (Z.shiftl a 16)).

(** ** Dot products *)

(** The accumulation loop: products are computed in int, the sum in [typeOut]. *)
Fixpoint dot_loop (typeOut : itype) (l : list (Z * Z)) (out : Z) : Z :=
  match l with
  | [] => out
  | (x, y) :: l => dot_loop typeOut l (conv typeOut (out + s32 (x * y)))
  end.

Definition VEC_DOTP (typeOut elemTypeA elemTypeB : itype) (num_elem : nat) (a b : Z) : Z :=
  let tmp_a := elems elemTypeA num_elem a in
  let tmp_b := elems elemTypeB num_elem b in
  dot_loop typeOut (zip tmp_a tmp_b) 0.

Definition VEC_DOTP_SC (typeOut elemTypeA elemTypeB : itype) (num_elem : nat) (a b : Z) : Z :=
  let tmp_a := elems elemTypeA num_elem a in
  let tmp_b := elems elemTypeB num_elem b in
  dot_loop typeOut ((fun x => (x, default 0 (tmp_b !! 0%nat))) <$> tmp_a) 0.

Definition VEC_SDOT (typeOut elemTypeA elemTypeB : itype) (num_elem : nat) (out a b : Z) : Z :=
  let tmp_a := elems elemTypeA num_elem a in
  let tmp_b := elems elemTypeB num_elem b in
  dot_loop typeOut (zip tmp_a tmp_b) out.

Definition VEC_SDOT_SC (typeOut elemTypeA elemTypeB : itype) (num_elem : nat) (out a b : Z) : Z :=
  let tmp_a := elems elemTypeA num_elem a in
  let tmp_b := elems elemTypeB num_elem b in
  dot_loop typeOut ((fun x => (x, default 0 (tmp_b !! 0%nat))) <$> tmp_a) out.

Definition lib_VEC_DOTSP_16 : Z -> Z -> Z := VEC_DOTP int32_t int16_t int16_t 2.
Definition lib_VEC_DOTSP_SC_16 : Z -> Z -> Z := VEC_DOTP_SC int32_t int16_t int16_t 2.
Definition lib_VEC_DOTSP_8 : Z -> Z -> Z := VEC_DOTP int32_t int8_t int8_t 4.
Definition lib_VEC_DOTSP_SC_8 : Z -> Z -> Z := VEC_DOTP_SC int32_t int8_t int8_t 4.
Definition lib_VEC_DOTUP_16 : Z -> Z -> Z := VEC_DOTP uint32_t uint16_t uint16_t 2.
Definition lib_VEC_DOTUP_SC_16 : Z -> Z -> Z := VEC_DOTP_SC uint32_t uint16_t uint16_t 2.
Definition lib_VEC_DOTUP_8 : Z -> Z -> Z := VEC_DOTP uint32_t uint8_t uint8_t 4.
Definition lib_VEC_DOTUP_SC_8 : Z -> Z -> Z := VEC_DOTP_SC uint32_t uint8_t uint8_t 4.
Definition lib_VEC_DOTUSP_16 : Z -> Z -> Z := VEC_DOTP int32_t uint16_t int16_t 2.
Definition lib_VEC_DOTUSP_SC_16 : Z -> Z -> Z := VEC_DOTP_SC int32_t uint16_t int16_t 2.
Definition lib_VEC_DOTUSP_8 : Z -> Z -> Z := VEC_DOTP int32_t uint8_t int8_t 4.
Definition lib_VEC_DOTUSP_SC_8 : Z -> Z -> Z := VEC_DOTP_SC int32_t uint8_t int8_t 4.
Definition lib_VEC_SDOTSP_16 : Z -> Z -> Z -> Z := VEC_SDOT int32_t int16_t int16_t 2.
Definition lib_VEC_SDOTSP_SC_16 : Z -> Z -> Z -> Z := VEC_SDOT_SC int32_t int16_t int16_t 2.
Definition lib_VEC_SDOTSP_8 : Z -> Z -> Z -> Z := VEC_SDOT int32_t int8_t int8_t 4.
Definition lib_VEC_SDOTSP_SC_8 : Z -> Z -> Z -> Z := VEC_SDOT_SC int32_t int8_t int8_t 4.
Definition lib_VEC_SDOTUP_16 : Z -> Z -> Z -> Z := VEC_SDOT uint32_t uint16_t uint16_t 2.
Definition lib_VEC_SDOTUP_SC_16 : Z -> Z -> Z -> Z := VEC_SDOT_SC uint32_t uint16_t uint16_t 2.
Definition lib_VEC_SDOTUP_8 : Z -> Z -> Z -> Z := VEC_SDOT uint32_t uint8_t uint8_t 4.
Definition lib_VEC_SDOTUP_SC_8 : Z -> Z -> Z -> Z := VEC_SDOT_SC uint32_t uint8_t uint8_t 4.
Definition lib_VEC_SDOTUSP_16 : Z -> Z -> Z -> Z := VEC_SDOT int32_t uint16_t int16_t 2.
Definition lib_VEC_SDOTUSP_SC_16 : Z -> Z -> Z -> Z := VEC_SDOT_SC int32_t uint16_t int16_t 2.
Definition lib_VEC_SDOTUSP_8 : Z -> Z -> Z -> Z := VEC_SDOT int32_t uint8_t int8_t 4.
Definition lib_VEC_SDOTUSP_SC_8 : Z -> Z -> Z -> Z := VEC_SDOT_SC int32_t uint8_t int8_t 4.

(** ** Elements of a stored word *)

(** The types the macros are used with: [n] elements fill the word. *)
Definition fills (t e : itype) (n : nat) : Prop :=
  0 < iwidth e /\ 0 < iwidth t /\ iwidth t = iwidth e * Z.of_nat n.

Lemma uw_conv t e z : 0 < iwidth e -> iwidth e <= iwidth t -> uw (iwidth e) (conv t z) = uw (iwidth e) z.
Proof.
  intros He Ht. unfold conv. destruct (isigned t).
  - rewrite <- (uw_uw_le (iwidth e) (iwidth t) (sw _ z)), uw_sw, uw_uw_le by lia. done.
  - apply uw_uw_le. lia.
Qed.

Lemma conv_uw e z : 0 <= iwidth e -> conv e (uw (iwidth e) z) = conv e z.
Proof. intros. unfold conv. destruct (isigned e); [by apply sw_uw|by apply uw_idemp]. Qed.

Lemma conv_eqm e x y : eqm (iwidth e) x y -> conv e x = conv e y.
Proof. intros E. unfold conv. destruct (isigned e); [by apply uw_eq_sw|done]. Qed.

Lemma eqm_conv e x : 0 < iwidth e -> eqm (iwidth e) (conv e x) x.
Proof. intros. unfold conv. destruct (isigned e); [by apply eqm_sw|apply eqm_uw; lia]. Qed.

Lemma conv_idemp e x : 0 < iwidth e -> conv e (conv e x) = conv e x.
Proof. intros. by apply conv_eqm, eqm_conv. Qed.

Lemma lanes_eqm w n x y : 0 <= w -> eqm (w * Z.of_nat n) x y -> lanes w n x = lanes w n y.
Proof.
  intros Hw E. apply list_eq. intros i. destruct (decide (i < n)%nat) as [Hi|Hi].
  - rewrite !lookup_lanes by done. f_equal. apply Z.bits_inj'. intros j Hj.
    rewrite !uw_testbit, !Z.shiftr_spec by lia. destruct (Z.ltb_spec j w); [|done]. cbn [andb].
    rewrite <- (Z.mod_pow2_bits_low x (w * Z.of_nat n)), <- (Z.mod_pow2_bits_low y (w * Z.of_nat n)) by nia.
    unfold eqm, uw in E. by rewrite E.
  - rewrite !lookup_ge_None_2 by (rewrite length_lanes; lia). done.
Qed.

(** Reading back the elements of a word that has been stored. *)
Lemma elems_of_elems t e l :
  fills t e (length l) -> elems e (length l) (of_elems t e l) = conv e <$> l.
Proof.
  intros (He & Ht0 & Ht). unfold elems, of_elems.
  rewrite (lanes_eqm _ _ _ (pack (iwidth e) l)); [|lia|].
  - rewrite lanes_pack by lia. rewrite <- list_fmap_compose. apply list_fmap_ext. intros i x _.
    simpl. apply conv_uw. lia.
  - rewrite <- Ht. unfold eqm. apply (uw_conv t t); lia.
Qed.

Lemma length_elems e n x : length (elems e n x) = n.
Proof. unfold elems. by rewrite length_fmap, length_lanes. Qed.

Lemma lookup_elems e n x (i : nat) :
  0 < iwidth e -> (i < n)%nat ->
  elems e n x !! i = Some (conv e (Z.shiftr x (iwidth e * Z.of_nat i))).
Proof.
  intros He Hi. unfold elems. rewrite list_lookup_fmap, lookup_lanes by lia. simpl.
  by rewrite conv_uw by lia.
Qed.

(** A binary operation on the elements. *)
Lemma elementwise t e n f spec a b :
  fills t e n ->
  (forall x y, conv e (f x y) = conv e (spec x y)) ->
  elems e n (of_elems t e (zip_with f (elems e n a) (elems e n b))) =
  zip_with (fun x y => conv e (spec x y)) (elems e n a) (elems e n b).
Proof.
  intros Hf E. set (l := zip_with f (elems e n a) (elems e n b)).
  assert (Hl : length l = n) by (unfold l; rewrite length_zip_with, !length_elems; lia).
  rewrite <- Hl at 1. rewrite elems_of_elems by (by rewrite Hl). unfold l.
  by apply zip_with_post.
Qed.

(** The elements of a vector that repeats a scalar. *)
Lemma elems_replicate e n b :
  0 < iwidth e -> conv e b = b -> elems e n (pack (iwidth e) (replicate n b)) = replicate n b.
Proof.
  intros He Hb. unfold elems. rewrite <- (length_replicate n b) at 1. rewrite lanes_pack by lia.
  rewrite <- list_fmap_compose, fmap_replicate. f_equal. simpl. by rewrite conv_uw by lia.
Qed.

Lemma of_elems_splat t e n f a b :
  fills t e n -> conv e b = b ->
  of_elems t e ((fun x => f x b) <$> elems e n a) =
  of_elems t e (zip_with f (elems e n a) (elems e n (pack (iwidth e) (replicate n b)))).
Proof.
  intros (He & _) Hb. f_equal. rewrite elems_replicate by done.
  rewrite zip_with_replicate_r_eq; [done|]. by rewrite length_elems.
Qed.

(** ** Tables of the instances *)

(** An element-wise operation, its element type and count, and what it does to an element. *)
Record simd_op := SimdOp {
  so_fun : Z -> Z -> Z; so_elem : itype; so_n : nat; so_spec : Z -> Z -> Z }.

(** A vector operation and its variant with a scalar second operand. *)
Record simd_sc := SimdSc {
  sc_vec : Z -> Z -> Z; sc_fun : Z -> Z -> Z; sc_elem : itype; sc_n : nat }.

(** A comparison and its mask, reductions and scalar reductions. *)
Record simd_cmp := SimdCmp {
  sc_celem : itype; sc_cn : nat; sc_rel : Z -> Z -> bool;
  sc_mask : Z -> Z -> Z;
  sc_all : Z -> Z -> Z * Z; sc_any : Z -> Z -> Z * Z;
  sc_all_sc : Z -> Z -> Z * Z; sc_any_sc : Z -> Z -> Z * Z }.

Definition simd_table : list simd_op := [
  SimdOp lib_VEC_ADD_int8_t_to_int32_t int8_t 4 Z.add;
  SimdOp lib_VEC_ADD_int8_t_to_int32_t_div2 int8_t 4 (fun x y => s8 (Z.add x y) / 2);
  SimdOp lib_VEC_ADD_int8_t_to_int32_t_div4 int8_t 4 (fun x y => s8 (Z.add x y) / 4);
  SimdOp lib_VEC_ADD_int16_t_to_int32_t int16_t 2 Z.add;
  SimdOp lib_VEC_ADD_int16_t_to_int32_t_div2 int16_t 2 (fun x y => s16 (Z.add x y) / 2);
  SimdOp lib_VEC_ADD_int16_t_to_int32_t_div4 int16_t 2 (fun x y => s16 (Z.add x y) / 4);
  SimdOp lib_VEC_ADD_int16_t_to_int32_t_div8 int16_t 2 (fun x y => s16 (Z.add x y) / 8);
  SimdOp lib_VEC_SUB_int8_t_to_int32_t int8_t 4 Z.sub;
  SimdOp lib_VEC_SUB_int8_t_to_int32_t_div2 int8_t 4 (fun x y => s8 (Z.sub x y) / 2);
  SimdOp lib_VEC_SUB_int8_t_to_int32_t_div4 int8_t 4 (fun x y => s8 (Z.sub x y) / 4);
  SimdOp lib_VEC_SUB_int16_t_to_int32_t int16_t 2 Z.sub;
  SimdOp lib_VEC_SUB_int16_t_to_int32_t_div2 int16_t 2 (fun x y => s16 (Z.sub x y) / 2);
  SimdOp lib_VEC_SUB_int16_t_to_int32_t_div4 int16_t 2 (fun x y => s16 (Z.sub x y) / 4);
  SimdOp lib_VEC_SUB_int16_t_to_int32_t_div8 int16_t 2 (fun x y => s16 (Z.sub x y) / 8);
  SimdOp lib_VEC_AVG_int8_t_to_int32_t int8_t 4 (fun x y => s8 (x + y) / 2);
  SimdOp lib_VEC_AVG_int16_t_to_int32_t int16_t 2 (fun x y => s16 (x + y) / 2);
  SimdOp lib_VEC_AVGU_uint8_t_to_uint32_t uint8_t 4 (fun x y => u8 (x + y) / 2);
  SimdOp lib_VEC_AVGU_uint16_t_to_uint32_t uint16_t 2 (fun x y => u16 (x + y) / 2);
  SimdOp lib_VEC_MIN_int8_t_to_int32_t int8_t 4 Z.min;
  SimdOp lib_VEC_MIN_int16_t_to_int32_t int16_t 2 Z.min;
  SimdOp lib_VEC_MINU_uint8_t_to_uint32_t uint8_t 4 Z.min;
  SimdOp lib_VEC_MINU_uint16_t_to_uint32_t uint16_t 2 Z.min;
  SimdOp lib_VEC_MAX_int8_t_to_int32_t int8_t 4 Z.max;
  SimdOp lib_VEC_MAX_int16_t_to_int32_t int16_t 2 Z.max;
  SimdOp lib_VEC_MAXU_uint8_t_to_uint32_t uint8_t 4 Z.max;
  SimdOp lib_VEC_MAXU_uint16_t_to_uint32_t uint16_t 2 Z.max;
  SimdOp lib_VEC_SRL_uint8_t_to_uint32_t uint8_t 4 (fun x y => x / 2 ^ (y mod 8));
  SimdOp lib_VEC_SRL_uint16_t_to_uint32_t uint16_t 2 (fun x y => x / 2 ^ (y mod 16));
  SimdOp lib_VEC_SRA_int8_t_to_int32_t int8_t 4 (fun x y => x / 2 ^ (y mod 8));
  SimdOp lib_VEC_SRA_int16_t_to_int32_t int16_t 2 (fun x y => x / 2 ^ (y mod 16));
  SimdOp lib_VEC_SLL_uint8_t_to_uint32_t uint8_t 4 (fun x y => x * 2 ^ (y mod 8));
  SimdOp lib_VEC_SLL_uint16_t_to_uint32_t uint16_t 2 (fun x y => x * 2 ^ (y mod 16));
  SimdOp lib_VEC_MUL_int8_t_to_int32_t int8_t 4 Z.mul;
  SimdOp lib_VEC_MUL_int16_t_to_int32_t int16_t 2 Z.mul;
  SimdOp lib_VEC_OR_int8_t_to_int32_t int8_t 4 Z.lor;
  SimdOp lib_VEC_OR_int16_t_to_int32_t int16_t 2 Z.lor;
  SimdOp lib_VEC_XOR_int8_t_to_int32_t int8_t 4 Z.lxor;
  SimdOp lib_VEC_XOR_int16_t_to_int32_t int16_t 2 Z.lxor;
  SimdOp lib_VEC_AND_int8_t_to_int32_t int8_t 4 Z.land;
  SimdOp lib_VEC_AND_int16_t_to_int32_t int16_t 2 Z.land
].

Definition simd_sc_table : list simd_sc := [
  SimdSc lib_VEC_CMPEQ_int8_t_to_int32_t lib_VEC_CMPEQ_SC_int8_t_to_int32_t
    int8_t 4;
  SimdSc lib_VEC_CMPEQ_int16_t_to_int32_t lib_VEC_CMPEQ_SC_int16_t_to_int32_t
    int16_t 2;
  SimdSc lib_VEC_CMPGE_int8_t_to_int32_t lib_VEC_CMPGE_SC_int8_t_to_int32_t
    int8_t 4;
  SimdSc lib_VEC_CMPGE_int16_t_to_int32_t lib_VEC_CMPGE_SC_int16_t_to_int32_t
    int16_t 2;
  SimdSc lib_VEC_CMPGEU_uint8_t_to_uint32_t lib_VEC_CMPGEU_SC_uint8_t_to_uint32_t
    uint8_t 4;
  SimdSc lib_VEC_CMPGEU_uint16_t_to_uint32_t lib_VEC_CMPGEU_SC_uint16_t_to_uint32_t
    uint16_t 2;
  SimdSc lib_VEC_CMPGT_int8_t_to_int32_t lib_VEC_CMPGT_SC_int8_t_to_int32_t
    int8_t 4;
  SimdSc lib_VEC_CMPGT_int16_t_to_int32_t lib_VEC_CMPGT_SC_int16_t_to_int32_t
    int16_t 2;
  SimdSc lib_VEC_CMPGTU_uint8_t_to_uint32_t lib_VEC_CMPGTU_SC_uint8_t_to_uint32_t
    uint8_t 4;
  SimdSc lib_VEC_CMPGTU_uint16_t_to_uint32_t lib_VEC_CMPGTU_SC_uint16_t_to_uint32_t
    uint16_t 2;
  SimdSc lib_VEC_CMPLE_int8_t_to_int32_t lib_VEC_CMPLE_SC_int8_t_to_int32_t
    int8_t 4;
  SimdSc lib_VEC_CMPLE_int16_t_to_int32_t lib_VEC_CMPLE_SC_int16_t_to_int32_t
    int16_t 2;
  SimdSc lib_VEC_CMPLEU_uint8_t_to_uint32_t lib_VEC_CMPLEU_SC_uint8_t_to_uint32_t
    uint8_t 4;
  SimdSc lib_VEC_CMPLEU_uint16_t_to_uint32_t lib_VEC_CMPLEU_SC_uint16_t_to_uint32_t
    uint16_t 2;
  SimdSc lib_VEC_CMPLT_int8_t_to_int32_t lib_VEC_CMPLT_SC_int8_t_to_int32_t
    int8_t 4;
  SimdSc lib_VEC_CMPLT_int16_t_to_int32_t lib_VEC_CMPLT_SC_int16_t_to_int32_t
    int16_t 2;
  SimdSc lib_VEC_CMPLTU_uint8_t_to_uint32_t lib_VEC_CMPLTU_SC_uint8_t_to_uint32_t
    uint8_t 4;
  SimdSc lib_VEC_CMPLTU_uint16_t_to_uint32_t lib_VEC_CMPLTU_SC_uint16_t_to_uint32_t
    uint16_t 2;
  SimdSc lib_VEC_CMPNE_int8_t_to_int32_t lib_VEC_CMPNE_SC_int8_t_to_int32_t
    int8_t 4;
  SimdSc lib_VEC_CMPNE_int16_t_to_int32_t lib_VEC_CMPNE_SC_int16_t_to_int32_t
    int16_t 2;
  SimdSc lib_VEC_ADD_int8_t_to_int32_t lib_VEC_ADD_SC_int8_t_to_int32_t
    int8_t 4;
  SimdSc lib_VEC_ADD_int16_t_to_int32_t lib_VEC_ADD_SC_int16_t_to_int32_t
    int16_t 2;
  SimdSc lib_VEC_SUB_int8_t_to_int32_t lib_VEC_SUB_SC_int8_t_to_int32_t
    int8_t 4;
  SimdSc lib_VEC_SUB_int16_t_to_int32_t lib_VEC_SUB_SC_int16_t_to_int32_t
    int16_t 2;
  SimdSc lib_VEC_AVG_int8_t_to_int32_t lib_VEC_AVG_SC_int8_t_to_int32_t
    int8_t 4;
  SimdSc lib_VEC_AVG_int16_t_to_int32_t lib_VEC_AVG_SC_int16_t_to_int32_t
    int16_t 2;
  SimdSc lib_VEC_AVGU_uint8_t_to_uint32_t lib_VEC_AVGU_SC_uint8_t_to_uint32_t
    uint8_t 4;
  SimdSc lib_VEC_AVGU_uint16_t_to_uint32_t lib_VEC_AVGU_SC_uint16_t_to_uint32_t
    uint16_t 2;
  SimdSc lib_VEC_MIN_int8_t_to_int32_t lib_VEC_MIN_SC_int8_t_to_int32_t
    int8_t 4;
  SimdSc lib_VEC_MIN_int16_t_to_int32_t lib_VEC_MIN_SC_int16_t_to_int32_t
    int16_t 2;
  SimdSc lib_VEC_MINU_uint8_t_to_uint32_t lib_VEC_MINU_SC_uint8_t_to_uint32_t
    uint8_t 4;
  SimdSc lib_VEC_MINU_uint16_t_to_uint32_t lib_VEC_MINU_SC_uint16_t_to_uint32_t
    uint16_t 2;
  SimdSc lib_VEC_MAX_int8_t_to_int32_t lib_VEC_MAX_SC_int8_t_to_int32_t
    int8_t 4;
  SimdSc lib_VEC_MAX_int16_t_to_int32_t lib_VEC_MAX_SC_int16_t_to_int32_t
    int16_t 2;
  SimdSc lib_VEC_MAXU_uint8_t_to_uint32_t lib_VEC_MAXU_SC_uint8_t_to_uint32_t
    uint8_t 4;
  SimdSc lib_VEC_MAXU_uint16_t_to_uint32_t lib_VEC_MAXU_SC_uint16_t_to_uint32_t
    uint16_t 2;
  SimdSc lib_VEC_SRL_uint8_t_to_uint32_t lib_VEC_SRL_SC_uint8_t_to_uint32_t
    uint8_t 4;
  SimdSc lib_VEC_SRL_uint16_t_to_uint32_t lib_VEC_SRL_SC_uint16_t_to_uint32_t
    uint16_t 2;
  SimdSc lib_VEC_SRA_int8_t_to_int32_t lib_VEC_SRA_SC_int8_t_to_int32_t
    int8_t 4;
  SimdSc lib_VEC_SRA_int16_t_to_int32_t lib_VEC_SRA_SC_int16_t_to_int32_t
    int16_t 2;
  SimdSc lib_VEC_SLL_uint8_t_to_uint32_t lib_VEC_SLL_SC_uint8_t_to_uint32_t
    uint8_t 4;
  SimdSc lib_VEC_SLL_uint16_t_to_uint32_t lib_VEC_SLL_SC_uint16_t_to_uint32_t
    uint16_t 2;
  SimdSc lib_VEC_MUL_int8_t_to_int32_t lib_VEC_MUL_SC_int8_t_to_int32_t
    int8_t 4;
  SimdSc lib_VEC_MUL_int16_t_to_int32_t lib_VEC_MUL_SC_int16_t_to_int32_t
    int16_t 2;
  SimdSc lib_VEC_OR_int8_t_to_int32_t lib_VEC_OR_SC_int8_t_to_int32_t
    int8_t 4;
  SimdSc lib_VEC_OR_int16_t_to_int32_t lib_VEC_OR_SC_int16_t_to_int32_t
    int16_t 2;
  SimdSc lib_VEC_XOR_int8_t_to_int32_t lib_VEC_XOR_SC_int8_t_to_int32_t
    int8_t 4;
  SimdSc lib_VEC_XOR_int16_t_to_int32_t lib_VEC_XOR_SC_int16_t_to_int32_t
    int16_t 2;
  SimdSc lib_VEC_AND_int8_t_to_int32_t lib_VEC_AND_SC_int8_t_to_int32_t
    int8_t 4;
  SimdSc lib_VEC_AND_int16_t_to_int32_t lib_VEC_AND_SC_int16_t_to_int32_t
    int16_t 2
].

Definition simd_cmp_table : list simd_cmp := [
  SimdCmp int8_t 4 Z.eqb
    lib_VEC_CMPEQ_int8_t_to_int32_t lib_VEC_ALL_EQ_int8_t_to_int32_t lib_VEC_ANY_EQ_int8_t_to_int32_t
    lib_VEC_ALL_SC_EQ_int8_t_to_int32_t lib_VEC_ANY_SC_EQ_int8_t_to_int32_t;
  SimdCmp int16_t 2 Z.eqb
    lib_VEC_CMPEQ_int16_t_to_int32_t lib_VEC_ALL_EQ_int16_t_to_int32_t lib_VEC_ANY_EQ_int16_t_to_int32_t
    lib_VEC_ALL_SC_EQ_int16_t_to_int32_t lib_VEC_ANY_SC_EQ_int16_t_to_int32_t;
  SimdCmp int8_t 4 Z.geb
    lib_VEC_CMPGE_int8_t_to_int32_t lib_VEC_ALL_GE_int8_t_to_int32_t lib_VEC_ANY_GE_int8_t_to_int32_t
    lib_VEC_ALL_SC_GE_int8_t_to_int32_t lib_VEC_ANY_SC_GE_int8_t_to_int32_t;
  SimdCmp int16_t 2 Z.geb
    lib_VEC_CMPGE_int16_t_to_int32_t lib_VEC_ALL_GE_int16_t_to_int32_t lib_VEC_ANY_GE_int16_t_to_int32_t
    lib_VEC_ALL_SC_GE_int16_t_to_int32_t lib_VEC_ANY_SC_GE_int16_t_to_int32_t;
  SimdCmp uint8_t 4 Z.geb
    lib_VEC_CMPGEU_uint8_t_to_uint32_t lib_VEC_ALL_GEU_uint8_t_to_uint32_t lib_VEC_ANY_GEU_uint8_t_to_uint32_t
    lib_VEC_ALL_SC_GEU_uint8_t_to_uint32_t lib_VEC_ANY_SC_GEU_uint8_t_to_uint32_t;
  SimdCmp uint16_t 2 Z.geb
    lib_VEC_CMPGEU_uint16_t_to_uint32_t lib_VEC_ALL_GEU_uint16_t_to_uint32_t lib_VEC_ANY_GEU_uint16_t_to_uint32_t
    lib_VEC_ALL_SC_GEU_uint16_t_to_uint32_t lib_VEC_ANY_SC_GEU_uint16_t_to_uint32_t;
  SimdCmp int8_t 4 Z.gtb
    lib_VEC_CMPGT_int8_t_to_int32_t lib_VEC_ALL_GT_int8_t_to_int32_t lib_VEC_ANY_GT_int8_t_to_int32_t
    lib_VEC_ALL_SC_GT_int8_t_to_int32_t lib_VEC_ANY_SC_GT_int8_t_to_int32_t;
  SimdCmp int16_t 2 Z.gtb
    lib_VEC_CMPGT_int16_t_to_int32_t lib_VEC_ALL_GT_int16_t_to_int32_t lib_VEC_ANY_GT_int16_t_to_int32_t
    lib_VEC_ALL_SC_GT_int16_t_to_int32_t lib_VEC_ANY_SC_GT_int16_t_to_int32_t;
  SimdCmp uint8_t 4 Z.gtb
    lib_VEC_CMPGTU_uint8_t_to_uint32_t lib_VEC_ALL_GTU_uint8_t_to_uint32_t lib_VEC_ANY_GTU_uint8_t_to_uint32_t
    lib_VEC_ALL_SC_GTU_uint8_t_to_uint32_t lib_VEC_ANY_SC_GTU_uint8_t_to_uint32_t;
  SimdCmp uint16_t 2 Z.gtb
    lib_VEC_CMPGTU_uint16_t_to_uint32_t lib_VEC_ALL_GTU_uint16_t_to_uint32_t lib_VEC_ANY_GTU_uint16_t_to_uint32_t
    lib_VEC_ALL_SC_GTU_uint16_t_to_uint32_t lib_VEC_ANY_SC_GTU_uint16_t_to_uint32_t;
  SimdCmp int8_t 4 Z.leb
    lib_VEC_CMPLE_int8_t_to_int32_t lib_VEC_ALL_LE_int8_t_to_int32_t lib_VEC_ANY_LE_int8_t_to_int32_t
    lib_VEC_ALL_SC_LE_int8_t_to_int32_t lib_VEC_ANY_SC_LE_int8_t_to_int32_t;
  SimdCmp int16_t 2 Z.leb
    lib_VEC_CMPLE_int16_t_to_int32_t lib_VEC_ALL_LE_int16_t_to_int32_t lib_VEC_ANY_LE_int16_t_to_int32_t
    lib_VEC_ALL_SC_LE_int16_t_to_int32_t lib_VEC_ANY_SC_LE_int16_t_to_int32_t;
  SimdCmp uint8_t 4 Z.leb
    lib_VEC_CMPLEU_uint8_t_to_uint32_t lib_VEC_ALL_LEU_uint8_t_to_uint32_t lib_VEC_ANY_LEU_uint8_t_to_uint32_t
    lib_VEC_ALL_SC_LEU_uint8_t_to_uint32_t lib_VEC_ANY_SC_LEU_uint8_t_to_uint32_t;
  SimdCmp uint16_t 2 Z.leb
    lib_VEC_CMPLEU_uint16_t_to_uint32_t lib_VEC_ALL_LEU_uint16_t_to_uint32_t lib_VEC_ANY_LEU_uint16_t_to_uint32_t
    lib_VEC_ALL_SC_LEU_uint16_t_to_uint32_t lib_VEC_ANY_SC_LEU_uint16_t_to_uint32_t;
  SimdCmp int8_t 4 Z.ltb
    lib_VEC_CMPLT_int8_t_to_int32_t lib_VEC_ALL_LT_int8_t_to_int32_t lib_VEC_ANY_LT_int8_t_to_int32_t
    lib_VEC_ALL_SC_LT_int8_t_to_int32_t lib_VEC_ANY_SC_LT_int8_t_to_int32_t;
  SimdCmp int16_t 2 Z.ltb
    lib_VEC_CMPLT_int16_t_to_int32_t lib_VEC_ALL_LT_int16_t_to_int32_t lib_VEC_ANY_LT_int16_t_to_int32_t
    lib_VEC_ALL_SC_LT_int16_t_to_int32_t lib_VEC_ANY_SC_LT_int16_t_to_int32_t;
  SimdCmp uint8_t 4 Z.ltb
    lib_VEC_CMPLTU_uint8_t_to_uint32_t lib_VEC_ALL_LTU_uint8_t_to_uint32_t lib_VEC_ANY_LTU_uint8_t_to_uint32_t
    lib_VEC_ALL_SC_LTU_uint8_t_to_uint32_t lib_VEC_ANY_SC_LTU_uint8_t_to_uint32_t;
  SimdCmp uint16_t 2 Z.ltb
    lib_VEC_CMPLTU_uint16_t_to_uint32_t lib_VEC_ALL_LTU_uint16_t_to_uint32_t lib_VEC_ANY_LTU_uint16_t_to_uint32_t
    lib_VEC_ALL_SC_LTU_uint16_t_to_uint32_t lib_VEC_ANY_SC_LTU_uint16_t_to_uint32_t;
  SimdCmp int8_t 4 neqb
    lib_VEC_CMPNE_int8_t_to_int32_t lib_VEC_ALL_NE_int8_t_to_int32_t lib_VEC_ANY_NE_int8_t_to_int32_t
    lib_VEC_ALL_SC_NE_int8_t_to_int32_t lib_VEC_ANY_SC_NE_int8_t_to_int32_t;
  SimdCmp int16_t 2 neqb
    lib_VEC_CMPNE_int16_t_to_int32_t lib_VEC_ALL_NE_int16_t_to_int32_t lib_VEC_ANY_NE_int16_t_to_int32_t
    lib_VEC_ALL_SC_NE_int16_t_to_int32_t lib_VEC_ANY_SC_NE_int16_t_to_int32_t
].

(** ** Properties *)

Lemma land_ones_mod x k : 0 <= k -> Z.land x (Z.ones k) = x mod 2 ^ k.
Proof. apply Z.land_ones. Qed.

(** Relates the code of an element operation to its arithmetic meaning. *)
Ltac elem_op x y :=
  simpl;
  first
    [ reflexivity
    | f_equal; unfold conv; simpl; rewrite Z.shiftr_div_pow2 by lia; reflexivity
    | f_equal; rewrite Z.gtb_ltb; destruct (Z.ltb_spec y x); lia
    | change 0x7 with (Z.ones 3); rewrite land_ones_mod by lia;
      pose proof (Z.mod_pos_bound y (2 ^ 3) ltac:(lia));
      rewrite ?Z.shiftr_div_pow2, ?Z.shiftl_mul_pow2 by lia; reflexivity
    | change 0xf with (Z.ones 4); rewrite land_ones_mod by lia;
      pose proof (Z.mod_pos_bound y (2 ^ 4) ltac:(lia));
      rewrite ?Z.shiftr_div_pow2, ?Z.shiftl_mul_pow2 by lia; reflexivity ].

(** The element-wise instructions operate on each element independently of the others: element i
    of the result is the operation on elements i of the operands, converted to the element type -
    sums, differences and products modulo the element width, halves, quarters and eighths of the
    wrapped sum, minimum, maximum, shifts by the count modulo the element width, and bitwise
    operations - for each of the 40 instances. *)
Theorem simd_lanewise :
  Forall (fun o => forall a b,
    elems (so_elem o) (so_n o) (so_fun o a b) =
    zip_with (fun x y => conv (so_elem o) (so_spec o x y))
      (elems (so_elem o) (so_n o) a) (elems (so_elem o) (so_n o) b)) simd_table.
Proof.
  unfold simd_table. repeat apply Forall_cons_2; [..|apply Forall_nil_2]; intros a b;
    (apply elementwise; [by split|intros x y; elem_op x y]).
Qed.

(** The scalar macros on the vector that repeats the scalar. *)
Section Splat.
Context (t e : itype) (n : nat) (a b : Z) (Hf : fills t e n) (Hb : conv e b = b).
Let v : Z := pack (iwidth e) (replicate n b).

Lemma splat_op f : VEC_OP_SC t e n f a b = VEC_OP t e n f a v.
Proof. by apply of_elems_splat. Qed.
Lemma splat_expr f : VEC_EXPR_SC t e n f a b = VEC_EXPR t e n f a v.
Proof. by apply of_elems_splat. Qed.
Lemma splat_cmp f : VEC_CMP_SC t e n f a b = VEC_CMP t e n f a v.
Proof. by apply (of_elems_splat t e n (fun x y => if f x y then -1 else 0)). Qed.
End Splat.

(** The instructions with a scalar second operand agree with the vector ones on the vector that
    repeats the scalar, for each of the 50 instances. *)
Theorem simd_scalar :
  Forall (fun o => forall a b, conv (sc_elem o) b = b ->
    sc_fun o a b = sc_vec o a (pack (iwidth (sc_elem o)) (replicate (sc_n o) b))) simd_sc_table.
Proof.
  unfold simd_sc_table. repeat apply Forall_cons_2; [..|apply Forall_nil_2]; intros a b Hb;
    cbn [sc_fun sc_vec sc_elem sc_n] in *;
    first [ apply splat_op; [by split|exact Hb] | apply splat_expr; [by split|exact Hb]
          | apply splat_cmp; [by split|exact Hb] ].
Qed.

(** The reductions compute the mask and the flag of the comparison. *)
Lemma all_loop_spec l f :
  all_loop l f = ((fun c : bool => if c then -1 else 0) <$> l, if forallb id l then f else 0).
Proof.
  revert f. induction l as [|c l IH]; intros f; cbn [all_loop]; [done|].
  rewrite IH. destruct c; simpl; [done|]. by destruct (forallb id l).
Qed.

Lemma any_loop_spec l f :
  any_loop l f = ((fun c : bool => if c then -1 else 0) <$> l, if existsb id l then 1 else f).
Proof.
  revert f. induction l as [|c l IH]; intros f; cbn [any_loop]; [done|].
  rewrite IH. destruct c; simpl; [|done]. by destruct (existsb id l).
Qed.

(** What a comparison instance promises on its operands. *)
Definition cmp_spec (o : simd_cmp) (a b : Z) : Prop :=
  let e := sc_celem o in
  let test := zip_with (sc_rel o) (elems e (sc_cn o) a) (elems e (sc_cn o) b) in
  elems e (sc_cn o) (sc_mask o a b) = (fun c : bool => conv e (if c then -1 else 0)) <$> test /\
  sc_all o a b = (sc_mask o a b, Z.b2z (forallb id test)) /\
  sc_any o a b = (sc_mask o a b, Z.b2z (existsb id test)) /\
  (conv e b = b ->
    let v := pack (iwidth e) (replicate (sc_cn o) b) in
    sc_all_sc o a b = sc_all o a v /\ sc_any_sc o a b = sc_any o a v).

Lemma cmp_row t e n rel a b :
  fills t e n ->
  cmp_spec (SimdCmp e n rel (VEC_CMP t e n rel) (VEC_ALL t e n rel) (VEC_ANY t e n rel)
              (VEC_ALL_SC t e n rel) (VEC_ANY_SC t e n rel)) a b.
Proof.
  intros Hf. unfold cmp_spec. cbn [sc_celem sc_cn sc_rel sc_mask sc_all sc_any sc_all_sc sc_any_sc].
  assert (Hmask : forall l k : list Z,
    (fun c : bool => if c then -1 else 0) <$> zip_with rel l k =
    zip_with (fun x y => if rel x y then -1 else 0) l k) by (intros; by apply zip_with_post).
  split; [|split; [|split]].
  - unfold VEC_CMP. rewrite (elementwise t e n _ (fun x y => if rel x y then -1 else 0)) by done.
    symmetry. by apply zip_with_post.
  - unfold VEC_ALL. rewrite all_loop_spec, Hmask. by destruct (forallb _ _).
  - unfold VEC_ANY. rewrite any_loop_spec, Hmask. by destruct (existsb _ _).
  - intros Hb. unfold VEC_ALL, VEC_ANY, VEC_ALL_SC, VEC_ANY_SC.
    assert (Er : (fun x => rel x b) <$> elems e n a =
      zip_with rel (elems e n a) (elems e n (pack (iwidth e) (replicate n b)))).
    { rewrite elems_replicate by (apply Hf || done).
      rewrite zip_with_replicate_r_eq; [done|]. by rewrite length_elems. }
    by rewrite Er.
Qed.

(** The comparison instructions: each element of the result is all ones where the relation holds
    and 0 elsewhere; the ALL (ANY) forms give the same word and the flag that tells whether the
    relation holds for all (some) of the elements; and their scalar forms agree with the vector
    that repeats the scalar - for each of the 20 instances. *)
Theorem simd_compare : Forall (fun o => forall a b, cmp_spec o a b) simd_cmp_table.
Proof.
  unfold simd_cmp_table. repeat apply Forall_cons_2; [..|apply Forall_nil_2]; intros a b;
    (eapply cmp_row; by split).
Qed.

(** ** Permutations *)

Section Lane.
Context (w : Z) (Hw : 0 < w).

(** Element [i] of a word. *)
Definition lane (x i : Z) : Z := uw w (Z.shiftr x (w * i)).

Lemma lane_range x i : 0 <= lane x i < 2 ^ w.
Proof. apply uw_range. lia. Qed.

Lemma lane_lor x y i : 0 <= i -> lane (Z.lor x y) i = Z.lor (lane x i) (lane y i).
Proof.
  intros Hi. unfold lane. rewrite Z.shiftr_lor. apply Z.bits_inj'. intros j Hj.
  rewrite Z.lor_spec, !uw_testbit, Z.lor_spec by lia. by destruct (j <? w).
Qed.

(** A word made of one element. *)
Lemma lane_shl x k i :
  0 <= x < 2 ^ w -> 0 <= k -> 0 <= i -> lane (Z.shiftl x (w * k)) i = if i =? k then x else 0.
Proof.
  intros Hx Hk Hi. unfold lane. apply Z.bits_inj'. intros j Hj.
  rewrite uw_testbit, Z.shiftr_spec, Z.shiftl_spec by nia.
  destruct (Z.ltb_spec j w) as [Hjw|Hjw]; cbn [andb].
  - destruct (Z.eqb_spec i k) as [->|Hne].
    + f_equal. lia.
    + rewrite Z.bits_0. destruct (Z.ltb_spec i k).
      * apply Z.testbit_neg_r. nia.
      * apply (testbit_above w); [done|nia].
  - destruct (i =? k); [|by rewrite Z.bits_0]. symmetry. apply (testbit_above w); lia.
Qed.

Lemma lanes_lane n x : lanes w n x = lane x <$> (Z.of_nat <$> seq 0 n).
Proof.
  apply list_eq. intros i. destruct (decide (i < n)%nat) as [Hi|Hi].
  - rewrite lookup_lanes by lia. rewrite !list_lookup_fmap, lookup_seq_lt by done. done.
  - rewrite lookup_ge_None_2 by (rewrite length_lanes; lia).
    rewrite lookup_ge_None_2; [done|]. rewrite !length_fmap, length_seq. lia.
Qed.
End Lane.

(** An element that stays inside the word. *)
Lemma u32_shl w x k :
  0 < w -> 0 <= x < 2 ^ w -> 0 <= k -> w * (k + 1) <= 32 ->
  u32 (Z.shiftl x (w * k)) = Z.shiftl x (w * k).
Proof.
  intros Hw Hx Hk Hle. apply uw_small. rewrite Z.shiftl_mul_pow2 by nia.
  assert (2 ^ w * 2 ^ (w * k) <= 2 ^ 32).
  { rewrite <- Z.pow_add_r by nia. apply Z.pow_le_mono_r; lia. }
  pose proof (Z.pow_pos_nonneg 2 (w * k) ltac:(lia) ltac:(nia)). nia.
Qed.

(** A word assembled from four bytes or two halves. *)
Lemma lanes_bytes x0 x1 x2 x3 :
  0 <= x0 < 2 ^ 8 -> 0 <= x1 < 2 ^ 8 -> 0 <= x2 < 2 ^ 8 -> 0 <= x3 < 2 ^ 8 ->
  lanes 8 4 (Z.lor (Z.lor (Z.lor (u32 (Z.shiftl x3 24)) (u32 (Z.shiftl x2 16)))
               (u32 (Z.shiftl x1 8))) (u32 (Z.shiftl x0 0))) = [x0; x1; x2; x3].
Proof.
  intros H0 H1 H2 H3. change 24 with (8 * 3). change 16 with (8 * 2). change (Z.shiftl x1 8) with
    (Z.shiftl x1 (8 * 1)). change (Z.shiftl x0 0) with (Z.shiftl x0 (8 * 0)).
  rewrite !u32_shl by lia. rewrite lanes_lane by lia. cbn [seq fmap list_fmap].
  by rewrite !lane_lor, !lane_shl, ?Z.lor_0_r by lia.
Qed.

Lemma lanes_halves x0 x1 :
  0 <= x0 < 2 ^ 16 -> 0 <= x1 < 2 ^ 16 ->
  lanes 16 2 (Z.lor (u32 (Z.shiftl x1 16)) (u32 (Z.shiftl x0 0))) = [x0; x1].
Proof.
  intros H0 H1. change (Z.shiftl x1 16) with (Z.shiftl x1 (16 * 1)).
  change (Z.shiftl x0 0) with (Z.shiftl x0 (16 * 0)).
  rewrite !u32_shl by lia. rewrite lanes_lane by lia. cbn [seq fmap list_fmap].
  by rewrite !lane_lor, !lane_shl, ?Z.lor_0_r by lia.
Qed.

(** The element of [a] a selector designates. *)
Definition select (w : Z) (n : nat) (a s : Z) : Z :=
  default 0 (lanes w n a !! Z.to_nat (s mod Z.of_nat n)).

Lemma select_lane w n a s : 0 < w -> (0 < n)%nat -> select w n a s = lane w a (s mod Z.of_nat n).
Proof.
  intros Hw Hn. pose proof (Z.mod_pos_bound s (Z.of_nat n) ltac:(lia)). unfold select.
  rewrite lookup_lanes by lia. simpl. by rewrite Z2Nat.id by lia.
Qed.

Lemma shuffle_byte a b k :
  0 <= k < 4 -> getShuffleByte a b (8 * k) = u32 (Z.shiftl (select 8 4 a (lane 8 b k)) (8 * k)).
Proof.
  intros Hk. unfold getShuffleByte. rewrite select_lane by lia. do 2 f_equal. unfold lane.
  change 0xff with (Z.ones 8). rewrite uw_land by lia.
  rewrite Z.shiftl_mul_pow2 by lia. change (2 ^ 3) with 8. rewrite (Z.mul_comm _ 8). do 3 f_equal.
  change 0x3 with (Z.ones 2). rewrite uw_land by lia. symmetry. by apply (uw_uw_le 2 8).
Qed.

Lemma shuffle_half a b k :
  0 <= k < 2 -> getShuffleHalf a b (16 * k) = u32 (Z.shiftl (select 16 2 a (lane 16 b k)) (16 * k)).
Proof.
  intros Hk. unfold getShuffleHalf. rewrite select_lane by lia. do 2 f_equal. unfold lane.
  change 0xffff with (Z.ones 16). rewrite uw_land by lia.
  rewrite Z.shiftl_mul_pow2 by lia. change (2 ^ 4) with 16. rewrite (Z.mul_comm _ 16). do 3 f_equal.
  change 1 with (Z.ones 1) at 1. rewrite uw_land by lia. symmetry. by apply (uw_uw_le 1 16).
Qed.

Lemma select_range w n a s : 0 < w -> (0 < n)%nat -> 0 <= select w n a s < 2 ^ w.
Proof. intros. rewrite select_lane by done. by apply lane_range. Qed.

(** The shuffles select elements: element i of SHUFFLE is the element of the first operand that
    element i of the second designates (modulo the number of elements); SHUFFLE2 takes it from
    the first or the third operand according to the next bit of the selector. *)
Theorem shuffle_selects a b c :
  lanes 8 4 (lib_VEC_SHUFFLE_8 a b) = select 8 4 a <$> lanes 8 4 b /\
  lanes 16 2 (lib_VEC_SHUFFLE_16 a b) = select 16 2 a <$> lanes 16 2 b /\
  lanes 8 4 (lib_VEC_SHUFFLE2_8 a b c) =
    (fun s => select 8 4 (if Z.testbit s 2 then a else c) s) <$> lanes 8 4 b /\
  lanes 16 2 (lib_VEC_SHUFFLE2_16 a b c) =
    (fun s => select 16 2 (if Z.testbit s 1 then a else c) s) <$> lanes 16 2 b.
Proof.
  assert (Hbit : forall w k, 0 < w -> 0 <= k -> forall j, 0 <= j < w ->
    negb (Z.land b (Z.shiftl 1 (w * k + j)) =? 0) = Z.testbit (lane w b k) j).
  { intros w k Hw Hk j Hj. rewrite Z.shiftl_1_l, land_pow2 by nia. unfold lane.
    rewrite uw_testbit, Z.shiftr_spec by lia. rewrite (proj2 (Z.ltb_lt j w)) by lia.
    cbn [andb]. f_equal. lia. }
  assert (B3 : forall x, getShuffleByte x b 24 = u32 (Z.shiftl (select 8 4 x (lane 8 b 3)) 24))
    by (intros; apply (shuffle_byte x b 3); lia).
  assert (B2 : forall x, getShuffleByte x b 16 = u32 (Z.shiftl (select 8 4 x (lane 8 b 2)) 16))
    by (intros; apply (shuffle_byte x b 2); lia).
  assert (B1 : forall x, getShuffleByte x b 8 = u32 (Z.shiftl (select 8 4 x (lane 8 b 1)) 8))
    by (intros; apply (shuffle_byte x b 1); lia).
  assert (B0 : forall x, getShuffleByte x b 0 = u32 (Z.shiftl (select 8 4 x (lane 8 b 0)) 0))
    by (intros; apply (shuffle_byte x b 0); lia).
  assert (H1 : forall x, getShuffleHalf x b 16 = u32 (Z.shiftl (select 16 2 x (lane 16 b 1)) 16))
    by (intros; apply (shuffle_half x b 1); lia).
  assert (H0 : forall x, getShuffleHalf x b 0 = u32 (Z.shiftl (select 16 2 x (lane 16 b 0)) 0))
    by (intros; apply (shuffle_half x b 0); lia).
  rewrite (lanes_lane 8 ltac:(lia) 4 b), (lanes_lane 16 ltac:(lia) 2 b). split; [|split; [|split]].
  - unfold lib_VEC_SHUFFLE_8. rewrite B3, B2, B1, B0.
    by rewrite lanes_bytes by (apply select_range; lia).
  - unfold lib_VEC_SHUFFLE_16. rewrite H1, H0. by rewrite lanes_halves by (apply select_range; lia).
  - unfold lib_VEC_SHUFFLE2_8. rewrite B3, B2, B1, B0. rewrite lanes_bytes by (apply select_range; lia).
    change 26 with (8 * 3 + 2). change 18 with (8 * 2 + 2). change 10 with (8 * 1 + 2).
    change (Z.shiftl 1 2) with (Z.shiftl 1 (8 * 0 + 2)). by rewrite !Hbit by lia.
  - unfold lib_VEC_SHUFFLE2_16. rewrite H1, H0. rewrite lanes_halves by (apply select_range; lia).
    change 17 with (16 * 1 + 1). change (Z.shiftl 1 1) with (Z.shiftl 1 (16 * 0 + 1)).
    by rewrite !Hbit by lia.
Qed.

(** ** Insertion and extraction *)

Lemma ones_range w : 0 < w -> 0 <= Z.ones w < 2 ^ w.
Proof. intros Hw. rewrite Z.ones_equiv. pose proof (Z.pow_pos_nonneg 2 w). lia. Qed.

(** INS replaces the designated element of a register by the low part of the other operand and
    leaves the rest, EXTU reads an element and EXT reads it with sign extension, for byte and
    half-word elements. *)
Theorem insert_extract a b :
  0 <= a < 2 ^ 32 ->
  (forall k, 0 <= k < 4 ->
     lib_VEC_EXTU_8 a k = Some (lane 8 a k) /\ lib_VEC_EXT_8 a k = Some (u32 (s8 (lane 8 a k))) /\
     exists r, lib_VEC_INS_8 a b k = Some r /\
       forall i, 0 <= i < 4 -> lane 8 r i = if i =? k then u8 b else lane 8 a i) /\
  (forall k, 0 <= k < 2 ->
     lib_VEC_EXTU_16 a k = Some (lane 16 a k) /\ lib_VEC_EXT_16 a k = Some (u32 (s16 (lane 16 a k))) /\
     exists r, lib_VEC_INS_16 a b k = Some r /\
       forall i, 0 <= i < 2 -> lane 16 r i = if i =? k then u16 b else lane 16 a i).
Proof.
  intros Ha.
  assert (Hext : forall w k, 0 < w -> 0 <= k -> w * (k + 1) <= 32 ->
    Z.shiftr (Z.land a (u32 (Z.shiftl (Z.ones w) (w * k)))) (w * k) = lane w a k).
  { intros w k Hw Hk Hle.
    rewrite u32_shl by (done || lia || by apply ones_range).
    unfold lane. rewrite <- uw_land by lia. rewrite Z.shiftr_land. f_equal.
    rewrite Z.shiftr_shiftl_l by nia. by rewrite Z.sub_diag. }
  assert (Hins : forall w k, 0 < w -> 0 <= k -> w * (k + 1) <= 32 ->
    let r := Z.lor (Z.land a (u32 (Z.lnot (u32 (Z.shiftl (Z.ones w) (w * k))))))
               (u32 (Z.shiftl (Z.land b (Z.ones w)) (w * k))) in
    forall i, 0 <= i -> w * (i + 1) <= 32 -> lane w r i = if i =? k then uw w b else lane w a i).
  { intros w k Hw Hk Hle r i Hi Hlei. unfold r.
    rewrite uw_land by lia. rewrite (u32_shl w (uw w b)) by (try lia; apply uw_range; lia).
    rewrite lane_lor, lane_shl by (try lia; apply uw_range; lia).
    rewrite u32_shl by (done || lia || by apply ones_range).
    apply Z.bits_inj'. intros j Hj. rewrite Z.lor_spec. unfold lane.
    rewrite uw_testbit, Z.shiftr_spec, Z.land_spec, uw_testbit, Z.lnot_spec by lia.
    destruct (Z.ltb_spec j w) as [Hjw|Hjw].
    2:{ destruct (i =? k); rewrite ?Z.bits_0, ?uw_testbit by lia;
          rewrite ?(proj2 (Z.ltb_ge j w)) by lia; done. }
    rewrite (proj2 (Z.ltb_lt _ 32)) by nia. cbn [andb].
    rewrite Z.shiftl_spec by nia. destruct (Z.eqb_spec i k) as [->|Hne].
    - replace (j + w * k - w * k) with j by lia.
      rewrite Z.testbit_ones_nonneg by lia. rewrite (proj2 (Z.ltb_lt j w)) by lia.
      by autorewrite with gv_bits.
    - rewrite uw_testbit, Z.shiftr_spec, Z.bits_0 by lia.
      rewrite (proj2 (Z.ltb_lt j w)) by lia. cbn [andb].
      assert (Hz : Z.testbit (Z.ones w) (j + w * i - w * k) = false).
      { destruct (Z.ltb_spec i k); [apply Z.testbit_neg_r; nia|].
        apply Z.ones_spec_high. nia. }
      rewrite Hz. by autorewrite with gv_bits. }
  assert (Hsh8 : forall k, 0 <= k < 4 -> u32 (k * 8) = 8 * k) by (intros; rewrite uw_small; lia).
  assert (Hsh16 : forall k, 0 <= k < 2 -> u32 (k * 16) = 16 * k) by (intros; rewrite uw_small; lia).
  split; intros k Hk.
  - unfold lib_VEC_EXTU_8, lib_VEC_EXT_8, lib_VEC_INS_8. rewrite !Hsh8 by done.
    change 0xff with (Z.ones 8). rewrite !shl_some, shr_some, Hext by lia.
    split; [done|]. split; [done|]. eexists. split; [done|]. intros i Hi. apply Hins; lia.
  - unfold lib_VEC_EXTU_16, lib_VEC_EXT_16, lib_VEC_INS_16. rewrite !Hsh16 by done.
    change 0xffff with (Z.ones 16). rewrite !shl_some, shr_some, Hext by lia.
    split; [done|]. split; [done|]. eexists. split; [done|]. intros i Hi. apply Hins; lia.
Qed.

Lemma insert_extract_witness :
  lib_VEC_INS_8 0x11223344 0xab 2 = Some 0x11ab3344 /\ lib_VEC_EXTU_8 0x11223344 2 = Some (lane 8 0x11223344 2).
Proof.
  split; [reflexivity|]. apply (insert_extract 0x11223344 0xab); lia.
Defined.

(** ** Dot products *)

Definition sum_products (l : list (Z * Z)) : Z := foldr (fun p s => p.1 * p.2 + s) 0 l.

Lemma dot_loop_spec t l out :
  iwidth t = 32 -> dot_loop t l out = if decide (l = []) then out else conv t (out + sum_products l).
Proof.
  intros Ht. revert out. induction l as [|[x y] l IH]; intros out; cbn [dot_loop]; [done|].
  rewrite IH. rewrite (decide_False (P := (x, y) :: l = [])) by done.
  assert (E : eqm (iwidth t) (conv t (out + s32 (x * y))) (out + x * y)).
  { rewrite Ht. unfold conv. rewrite Ht. destruct (isigned t).
    - rewrite eqm_sw, eqm_sw by lia. reflexivity.
    - rewrite eqm_uw, eqm_sw by lia. reflexivity. }
  destruct (decide (l = [])) as [->|].
  - cbn [sum_products foldr]. rewrite Z.add_0_r. rewrite <- (conv_idemp t) by lia.
    by apply conv_eqm.
  - cbn [sum_products foldr fst snd]. apply conv_eqm. fold (sum_products l).
    rewrite E. rewrite Z.add_assoc. reflexivity.
Qed.

(** The instances of a dot product and its accumulating and scalar forms. *)
Record dot_op := DotOp {
  do_out : itype; do_a : itype; do_b : itype; do_n : nat;
  do_dot : Z -> Z -> Z; do_dot_sc : Z -> Z -> Z;
  do_sdot : Z -> Z -> Z -> Z; do_sdot_sc : Z -> Z -> Z -> Z }.

Definition dot_table : list dot_op := [
  DotOp int32_t int16_t int16_t 2
    lib_VEC_DOTSP_16 lib_VEC_DOTSP_SC_16 lib_VEC_SDOTSP_16 lib_VEC_SDOTSP_SC_16;
  DotOp int32_t int8_t int8_t 4
    lib_VEC_DOTSP_8 lib_VEC_DOTSP_SC_8 lib_VEC_SDOTSP_8 lib_VEC_SDOTSP_SC_8;
  DotOp uint32_t uint16_t uint16_t 2
    lib_VEC_DOTUP_16 lib_VEC_DOTUP_SC_16 lib_VEC_SDOTUP_16 lib_VEC_SDOTUP_SC_16;
  DotOp uint32_t uint8_t uint8_t 4
    lib_VEC_DOTUP_8 lib_VEC_DOTUP_SC_8 lib_VEC_SDOTUP_8 lib_VEC_SDOTUP_SC_8;
  DotOp int32_t uint16_t int16_t 2
    lib_VEC_DOTUSP_16 lib_VEC_DOTUSP_SC_16 lib_VEC_SDOTUSP_16 lib_VEC_SDOTUSP_SC_16;
  DotOp int32_t uint8_t int8_t 4
    lib_VEC_DOTUSP_8 lib_VEC_DOTUSP_SC_8 lib_VEC_SDOTUSP_8 lib_VEC_SDOTUSP_SC_8
].

Definition dot_spec (o : dot_op) (acc a b : Z) : Prop :=
  let la := elems (do_a o) (do_n o) a in
  let lb := elems (do_b o) (do_n o) b in
  let b0 := default 0 (lb !! 0%nat) in
  do_dot o a b = conv (do_out o) (sum_products (zip la lb)) /\
  do_sdot o acc a b = conv (do_out o) (acc + sum_products (zip la lb)) /\
  do_dot_sc o a b = conv (do_out o) (sum_products ((fun x => (x, b0)) <$> la)) /\
  do_sdot_sc o acc a b = conv (do_out o) (acc + sum_products ((fun x => (x, b0)) <$> la)).

Lemma dot_row t ea eb n acc a b :
  iwidth t = 32 -> (0 < n)%nat ->
  dot_spec (DotOp t ea eb n (VEC_DOTP t ea eb n) (VEC_DOTP_SC t ea eb n) (VEC_SDOT t ea eb n)
              (VEC_SDOT_SC t ea eb n)) acc a b.
Proof.
  intros Ht Hn. unfold dot_spec, VEC_DOTP, VEC_DOTP_SC, VEC_SDOT, VEC_SDOT_SC.
  cbn [do_out do_a do_b do_n do_dot do_dot_sc do_sdot do_sdot_sc].
  pose proof (length_elems ea n a) as La. pose proof (length_elems eb n b) as Lb.
  rewrite !dot_loop_spec by done.
  destruct (elems ea n a) as [|x la]; [simpl in La; lia|].
  destruct (elems eb n b) as [|y lb]; [simpl in Lb; lia|].
  cbn [zip zip_with fmap list_fmap]. rewrite !decide_False by done. rewrite !Z.add_0_l. done.
Qed.

(** The dot products: each instance is the sum of the products of the elements, added to the
    accumulator in the SDOT forms and taken with element 0 of the second operand in the scalar
    forms, modulo 2^32; on signed bytes the sum is exact. *)
Theorem dot_products :
  Forall (fun o => forall acc a b, dot_spec o acc a b) dot_table /\
  forall a b, lib_VEC_DOTSP_8 a b = sum_products (zip (elems int8_t 4 a) (elems int8_t 4 b)).
Proof.
  assert (Hall : Forall (fun o => forall acc a b, dot_spec o acc a b) dot_table).
  { unfold dot_table. repeat apply Forall_cons_2; [..|apply Forall_nil_2]; intros acc a b;
      (apply dot_row; [reflexivity|lia]). }
  split; [done|]. intros a b.
  pose proof (dot_row int32_t int8_t int8_t 4 0 a b eq_refl ltac:(lia)) as (E & _).
  cbn [do_out do_a do_b do_n do_dot] in E. change (lib_VEC_DOTSP_8 a b) with (VEC_DOTP int32_t int8_t int8_t 4 a b).
  rewrite E. apply (sw_small 32); [lia|]. unfold elems. cbn [lanes fmap list_fmap zip zip_with sum_products foldr fst snd].
  pose proof (sw_range 8) as Hr. unfold conv. simpl isigned. cbv iota. change (iwidth int8_t) with 8.
  assert (Hp : forall x y, - 2 ^ 14 <= s8 x * s8 y <= 2 ^ 14).
  { intros x y. pose proof (Hr x ltac:(lia)). pose proof (Hr y ltac:(lia)). nia. }
  repeat match goal with |- context [s8 ?x * s8 ?y] =>
    let z := fresh "z" in pose proof (Hp x y); set (z := s8 x * s8 y) in *; clearbody z end.
  change (2 ^ (32 - 1)) with 2147483648. lia.
Qed.
