(* ===== verification/PulpSimd.v ===== *)
(** * The vector instructions of the PULP extension (models/cpu/iss/include/pulp_v2.hpp)

    The macros that define the pv.* instructions, one record of six handlers for each (half words or bytes, with
    a vector, a register or an immediate as the second operand), their instances, and the handlers written
    without them, over the operations of IsaVec.v and the core of Rv32.v. *)

From S2P Require Import Prelude Io Memory IsaInt IsaVec Rv32.

Section Simd.
Context {S : Type} (regs : Z).
Implicit Types (i : iss_insn) (st : iss (S := S)).
#[local] Notation REG_GET := (REG_GET regs).
#[local] Notation insn_result := (insn_result regs).

Definition insn_handler : Type := iss_insn -> iss (S := S) -> option (Z * iss (S := S)).
Record pv_insns := PvInsns {
  pv_h_exec : insn_handler;
  pv_sc_h_exec : insn_handler;
  pv_sci_h_exec : insn_handler;
  pv_b_exec : insn_handler;
  pv_sc_b_exec : insn_handler;
  pv_sci_b_exec : insn_handler;
}.

(** ** The macros

    Their arguments are the library functions whose names they build. A scalar operand is converted to the type
    of an element, which is the type of the parameter it is passed to. *)

Definition PV_OP_RS_EXEC (lib_h lib_sc_h lib_b lib_sc_b : Z -> Z -> Z) : pv_insns := {|
  pv_h_exec i st := insn_result i (Some (lib_h (REG_GET i 0 st) (REG_GET i 1 st))) st;
  pv_sc_h_exec i st := insn_result i (Some (lib_sc_h (REG_GET i 0 st) (conv int16_t (REG_GET i 1 st)))) st;
  pv_sci_h_exec i st := insn_result i (Some (lib_sc_h (REG_GET i 0 st) (conv int16_t (SIM_GET i 0)))) st;
  pv_b_exec i st := insn_result i (Some (lib_b (REG_GET i 0 st) (REG_GET i 1 st))) st;
  pv_sc_b_exec i st := insn_result i (Some (lib_sc_b (REG_GET i 0 st) (conv int8_t (REG_GET i 1 st)))) st;
  pv_sci_b_exec i st := insn_result i (Some (lib_sc_b (REG_GET i 0 st) (conv int8_t (SIM_GET i 0)))) st;
|}.
Definition PV_OP_RU_EXEC (lib_h lib_sc_h lib_b lib_sc_b : Z -> Z -> Z) : pv_insns := {|
  pv_h_exec i st := insn_result i (Some (lib_h (REG_GET i 0 st) (REG_GET i 1 st))) st;
  pv_sc_h_exec i st := insn_result i (Some (lib_sc_h (REG_GET i 0 st) (conv uint16_t (REG_GET i 1 st)))) st;
  pv_sci_h_exec i st := insn_result i (Some (lib_sc_h (REG_GET i 0 st) (conv uint16_t (UIM_GET i 0)))) st;
  pv_b_exec i st := insn_result i (Some (lib_b (REG_GET i 0 st) (REG_GET i 1 st))) st;
  pv_sc_b_exec i st := insn_result i (Some (lib_sc_b (REG_GET i 0 st) (conv uint8_t (REG_GET i 1 st)))) st;
  pv_sci_b_exec i st := insn_result i (Some (lib_sc_b (REG_GET i 0 st) (conv uint8_t (UIM_GET i 0)))) st;
|}.

(** Dot products: the operands are the two words; with an accumulator, the immediate forms have it in their
    first register operand and the others in their third. *)
Definition PV_OP_RS_EXEC2 (lib_16 lib_sc_16 lib_8 lib_sc_8 : Z -> Z -> Z) : pv_insns := {|
  pv_h_exec i st := insn_result i (Some (lib_16 (REG_GET i 0 st) (REG_GET i 1 st))) st;
  pv_sc_h_exec i st := insn_result i (Some (lib_sc_16 (REG_GET i 0 st) (REG_GET i 1 st))) st;
  pv_sci_h_exec i st := insn_result i (Some (lib_sc_16 (REG_GET i 0 st) (SIM_GET i 0))) st;
  pv_b_exec i st := insn_result i (Some (lib_8 (REG_GET i 0 st) (REG_GET i 1 st))) st;
  pv_sc_b_exec i st := insn_result i (Some (lib_sc_8 (REG_GET i 0 st) (REG_GET i 1 st))) st;
  pv_sci_b_exec i st := insn_result i (Some (lib_sc_8 (REG_GET i 0 st) (SIM_GET i 0))) st;
|}.
Definition PV_OP_RU_EXEC2 (lib_16 lib_sc_16 lib_8 lib_sc_8 : Z -> Z -> Z) : pv_insns := {|
  pv_h_exec i st := insn_result i (Some (lib_16 (REG_GET i 0 st) (REG_GET i 1 st))) st;
  pv_sc_h_exec i st := insn_result i (Some (lib_sc_16 (REG_GET i 0 st) (REG_GET i 1 st))) st;
  pv_sci_h_exec i st := insn_result i (Some (lib_sc_16 (REG_GET i 0 st) (UIM_GET i 0))) st;
  pv_b_exec i st := insn_result i (Some (lib_8 (REG_GET i 0 st) (REG_GET i 1 st))) st;
  pv_sc_b_exec i st := insn_result i (Some (lib_sc_8 (REG_GET i 0 st) (REG_GET i 1 st))) st;
  pv_sci_b_exec i st := insn_result i (Some (lib_sc_8 (REG_GET i 0 st) (UIM_GET i 0))) st;
|}.
Definition PV_OP_RRS_EXEC2 (lib_16 lib_sc_16 lib_8 lib_sc_8 : Z -> Z -> Z -> Z) : pv_insns := {|
  pv_h_exec i st := insn_result i (Some (lib_16 (REG_GET i 2 st) (REG_GET i 0 st) (REG_GET i 1 st))) st;
  pv_sc_h_exec i st := insn_result i (Some (lib_sc_16 (REG_GET i 2 st) (REG_GET i 0 st) (REG_GET i 1 st))) st;
  pv_sci_h_exec i st := insn_result i (Some (lib_sc_16 (REG_GET i 0 st) (REG_GET i 1 st) (SIM_GET i 0))) st;
  pv_b_exec i st := insn_result i (Some (lib_8 (REG_GET i 2 st) (REG_GET i 0 st) (REG_GET i 1 st))) st;
  pv_sc_b_exec i st := insn_result i (Some (lib_sc_8 (REG_GET i 2 st) (REG_GET i 0 st) (REG_GET i 1 st))) st;
  pv_sci_b_exec i st := insn_result i (Some (lib_sc_8 (REG_GET i 0 st) (REG_GET i 1 st) (SIM_GET i 0))) st;
|}.
Definition PV_OP_RRU_EXEC2 (lib_16 lib_sc_16 lib_8 lib_sc_8 : Z -> Z -> Z -> Z) : pv_insns := {|
  pv_h_exec i st := insn_result i (Some (lib_16 (REG_GET i 2 st) (REG_GET i 0 st) (REG_GET i 1 st))) st;
  pv_sc_h_exec i st := insn_result i (Some (lib_sc_16 (REG_GET i 2 st) (REG_GET i 0 st) (REG_GET i 1 st))) st;
  pv_sci_h_exec i st := insn_result i (Some (lib_sc_16 (REG_GET i 0 st) (REG_GET i 1 st) (UIM_GET i 0))) st;
  pv_b_exec i st := insn_result i (Some (lib_8 (REG_GET i 2 st) (REG_GET i 0 st) (REG_GET i 1 st))) st;
  pv_sc_b_exec i st := insn_result i (Some (lib_sc_8 (REG_GET i 2 st) (REG_GET i 0 st) (REG_GET i 1 st))) st;
  pv_sci_b_exec i st := insn_result i (Some (lib_sc_8 (REG_GET i 0 st) (REG_GET i 1 st) (UIM_GET i 0))) st;
|}.

(** ** The instances *)

Definition pv_add : pv_insns := PV_OP_RS_EXEC
  lib_VEC_ADD_int16_t_to_int32_t lib_VEC_ADD_SC_int16_t_to_int32_t lib_VEC_ADD_int8_t_to_int32_t lib_VEC_ADD_SC_int8_t_to_int32_t.
Definition pv_sub : pv_insns := PV_OP_RS_EXEC
  lib_VEC_SUB_int16_t_to_int32_t lib_VEC_SUB_SC_int16_t_to_int32_t lib_VEC_SUB_int8_t_to_int32_t lib_VEC_SUB_SC_int8_t_to_int32_t.
Definition pv_avg : pv_insns := PV_OP_RS_EXEC
  lib_VEC_AVG_int16_t_to_int32_t lib_VEC_AVG_SC_int16_t_to_int32_t lib_VEC_AVG_int8_t_to_int32_t lib_VEC_AVG_SC_int8_t_to_int32_t.
Definition pv_avgu : pv_insns := PV_OP_RU_EXEC
  lib_VEC_AVGU_uint16_t_to_uint32_t lib_VEC_AVGU_SC_uint16_t_to_uint32_t lib_VEC_AVGU_uint8_t_to_uint32_t lib_VEC_AVGU_SC_uint8_t_to_uint32_t.
Definition pv_min : pv_insns := PV_OP_RS_EXEC
  lib_VEC_MIN_int16_t_to_int32_t lib_VEC_MIN_SC_int16_t_to_int32_t lib_VEC_MIN_int8_t_to_int32_t lib_VEC_MIN_SC_int8_t_to_int32_t.
Definition pv_minu : pv_insns := PV_OP_RU_EXEC
  lib_VEC_MINU_uint16_t_to_uint32_t lib_VEC_MINU_SC_uint16_t_to_uint32_t lib_VEC_MINU_uint8_t_to_uint32_t lib_VEC_MINU_SC_uint8_t_to_uint32_t.
Definition pv_max : pv_insns := PV_OP_RS_EXEC
  lib_VEC_MAX_int16_t_to_int32_t lib_VEC_MAX_SC_int16_t_to_int32_t lib_VEC_MAX_int8_t_to_int32_t lib_VEC_MAX_SC_int8_t_to_int32_t.
Definition pv_maxu : pv_insns := PV_OP_RU_EXEC
  lib_VEC_MAXU_uint16_t_to_uint32_t lib_VEC_MAXU_SC_uint16_t_to_uint32_t lib_VEC_MAXU_uint8_t_to_uint32_t lib_VEC_MAXU_SC_uint8_t_to_uint32_t.
Definition pv_srl : pv_insns := PV_OP_RU_EXEC
  lib_VEC_SRL_uint16_t_to_uint32_t lib_VEC_SRL_SC_uint16_t_to_uint32_t lib_VEC_SRL_uint8_t_to_uint32_t lib_VEC_SRL_SC_uint8_t_to_uint32_t.
Definition pv_sra : pv_insns := PV_OP_RS_EXEC
  lib_VEC_SRA_int16_t_to_int32_t lib_VEC_SRA_SC_int16_t_to_int32_t lib_VEC_SRA_int8_t_to_int32_t lib_VEC_SRA_SC_int8_t_to_int32_t.
Definition pv_sll : pv_insns := PV_OP_RU_EXEC
  lib_VEC_SLL_uint16_t_to_uint32_t lib_VEC_SLL_SC_uint16_t_to_uint32_t lib_VEC_SLL_uint8_t_to_uint32_t lib_VEC_SLL_SC_uint8_t_to_uint32_t.
Definition pv_or : pv_insns := PV_OP_RS_EXEC
  lib_VEC_OR_int16_t_to_int32_t lib_VEC_OR_SC_int16_t_to_int32_t lib_VEC_OR_int8_t_to_int32_t lib_VEC_OR_SC_int8_t_to_int32_t.
Definition pv_xor : pv_insns := PV_OP_RS_EXEC
  lib_VEC_XOR_int16_t_to_int32_t lib_VEC_XOR_SC_int16_t_to_int32_t lib_VEC_XOR_int8_t_to_int32_t lib_VEC_XOR_SC_int8_t_to_int32_t.
Definition pv_and : pv_insns := PV_OP_RS_EXEC
  lib_VEC_AND_int16_t_to_int32_t lib_VEC_AND_SC_int16_t_to_int32_t lib_VEC_AND_int8_t_to_int32_t lib_VEC_AND_SC_int8_t_to_int32_t.
Definition pv_cmpeq : pv_insns := PV_OP_RS_EXEC
  lib_VEC_CMPEQ_int16_t_to_int32_t lib_VEC_CMPEQ_SC_int16_t_to_int32_t lib_VEC_CMPEQ_int8_t_to_int32_t lib_VEC_CMPEQ_SC_int8_t_to_int32_t.
Definition pv_cmpne : pv_insns := PV_OP_RS_EXEC
  lib_VEC_CMPNE_int16_t_to_int32_t lib_VEC_CMPNE_SC_int16_t_to_int32_t lib_VEC_CMPNE_int8_t_to_int32_t lib_VEC_CMPNE_SC_int8_t_to_int32_t.
Definition pv_cmpgt : pv_insns := PV_OP_RS_EXEC
  lib_VEC_CMPGT_int16_t_to_int32_t lib_VEC_CMPGT_SC_int16_t_to_int32_t lib_VEC_CMPGT_int8_t_to_int32_t lib_VEC_CMPGT_SC_int8_t_to_int32_t.
Definition pv_cmpge : pv_insns := PV_OP_RS_EXEC
  lib_VEC_CMPGE_int16_t_to_int32_t lib_VEC_CMPGE_SC_int16_t_to_int32_t lib_VEC_CMPGE_int8_t_to_int32_t lib_VEC_CMPGE_SC_int8_t_to_int32_t.
Definition pv_cmplt : pv_insns := PV_OP_RS_EXEC
  lib_VEC_CMPLT_int16_t_to_int32_t lib_VEC_CMPLT_SC_int16_t_to_int32_t lib_VEC_CMPLT_int8_t_to_int32_t lib_VEC_CMPLT_SC_int8_t_to_int32_t.
Definition pv_cmple : pv_insns := PV_OP_RS_EXEC
  lib_VEC_CMPLE_int16_t_to_int32_t lib_VEC_CMPLE_SC_int16_t_to_int32_t lib_VEC_CMPLE_int8_t_to_int32_t lib_VEC_CMPLE_SC_int8_t_to_int32_t.
Definition pv_cmpgtu : pv_insns := PV_OP_RU_EXEC
  lib_VEC_CMPGTU_uint16_t_to_uint32_t lib_VEC_CMPGTU_SC_uint16_t_to_uint32_t lib_VEC_CMPGTU_uint8_t_to_uint32_t lib_VEC_CMPGTU_SC_uint8_t_to_uint32_t.
Definition pv_cmpgeu : pv_insns := PV_OP_RU_EXEC
  lib_VEC_CMPGEU_uint16_t_to_uint32_t lib_VEC_CMPGEU_SC_uint16_t_to_uint32_t lib_VEC_CMPGEU_uint8_t_to_uint32_t lib_VEC_CMPGEU_SC_uint8_t_to_uint32_t.
Definition pv_cmpltu : pv_insns := PV_OP_RU_EXEC
  lib_VEC_CMPLTU_uint16_t_to_uint32_t lib_VEC_CMPLTU_SC_uint16_t_to_uint32_t lib_VEC_CMPLTU_uint8_t_to_uint32_t lib_VEC_CMPLTU_SC_uint8_t_to_uint32_t.
Definition pv_cmpleu : pv_insns := PV_OP_RU_EXEC
  lib_VEC_CMPLEU_uint16_t_to_uint32_t lib_VEC_CMPLEU_SC_uint16_t_to_uint32_t lib_VEC_CMPLEU_uint8_t_to_uint32_t lib_VEC_CMPLEU_SC_uint8_t_to_uint32_t.
Definition pv_dotsp : pv_insns := PV_OP_RS_EXEC2 lib_VEC_DOTSP_16 lib_VEC_DOTSP_SC_16 lib_VEC_DOTSP_8 lib_VEC_DOTSP_SC_8.
Definition pv_dotup : pv_insns := PV_OP_RU_EXEC2 lib_VEC_DOTUP_16 lib_VEC_DOTUP_SC_16 lib_VEC_DOTUP_8 lib_VEC_DOTUP_SC_8.
Definition pv_dotusp : pv_insns := PV_OP_RS_EXEC2 lib_VEC_DOTUSP_16 lib_VEC_DOTUSP_SC_16 lib_VEC_DOTUSP_8 lib_VEC_DOTUSP_SC_8.
Definition pv_sdotsp : pv_insns := PV_OP_RRS_EXEC2 lib_VEC_SDOTSP_16 lib_VEC_SDOTSP_SC_16 lib_VEC_SDOTSP_8 lib_VEC_SDOTSP_SC_8.
Definition pv_sdotup : pv_insns := PV_OP_RRU_EXEC2 lib_VEC_SDOTUP_16 lib_VEC_SDOTUP_SC_16 lib_VEC_SDOTUP_8 lib_VEC_SDOTUP_SC_8.
Definition pv_sdotusp : pv_insns := PV_OP_RRS_EXEC2 lib_VEC_SDOTUSP_16 lib_VEC_SDOTUSP_SC_16 lib_VEC_SDOTUSP_8 lib_VEC_SDOTUSP_SC_8.

Definition pv_abs_h_exec : insn_handler := fun i st => insn_result i (Some (lib_VEC_ABS_int16_t_to_int32_t (REG_GET i 0 st))) st.
Definition pv_abs_b_exec : insn_handler := fun i st => insn_result i (Some (lib_VEC_ABS_int8_t_to_int32_t (REG_GET i 0 st))) st.

(** ** Extraction, insertion, shuffles and packs *)

Definition pv_extract_h_exec : insn_handler := fun i st => insn_result i (lib_VEC_EXT_16 (REG_GET i 0 st) (UIM_GET i 0)) st.
Definition pv_extract_b_exec : insn_handler := fun i st => insn_result i (lib_VEC_EXT_8 (REG_GET i 0 st) (UIM_GET i 0)) st.
Definition pv_extractu_h_exec : insn_handler := fun i st => insn_result i (lib_VEC_EXTU_16 (REG_GET i 0 st) (UIM_GET i 0)) st.
Definition pv_extractu_b_exec : insn_handler := fun i st => insn_result i (lib_VEC_EXTU_8 (REG_GET i 0 st) (UIM_GET i 0)) st.
Definition pv_insert_h_exec : insn_handler := fun i st =>
  insn_result i (lib_VEC_INS_16 (REG_GET i 0 st) (REG_GET i 1 st) (UIM_GET i 0)) st.
Definition pv_insert_b_exec : insn_handler := fun i st =>
  insn_result i (lib_VEC_INS_8 (REG_GET i 0 st) (REG_GET i 1 st) (UIM_GET i 0)) st.
Definition pv_shuffle_h_exec : insn_handler := fun i st =>
  insn_result i (Some (lib_VEC_SHUFFLE_16 (REG_GET i 0 st) (REG_GET i 1 st))) st.
Definition pv_shuffle_h_sci_exec : insn_handler := fun i st =>
  insn_result i (Some (lib_VEC_SHUFFLE_SCI_16 (REG_GET i 0 st) (UIM_GET i 0))) st.
Definition pv_shuffle_b_exec : insn_handler := fun i st =>
  insn_result i (Some (lib_VEC_SHUFFLE_8 (REG_GET i 0 st) (REG_GET i 1 st))) st.
Definition pv_shufflei0_b_sci_exec : insn_handler := fun i st =>
  insn_result i (Some (lib_VEC_SHUFFLEI0_SCI_8 (REG_GET i 0 st) (UIM_GET i 0))) st.
Definition pv_shufflei1_b_sci_exec : insn_handler := fun i st =>
  insn_result i (Some (lib_VEC_SHUFFLEI1_SCI_8 (REG_GET i 0 st) (UIM_GET i 0))) st.
Definition pv_shufflei2_b_sci_exec : insn_handler := fun i st =>
  insn_result i (Some (lib_VEC_SHUFFLEI2_SCI_8 (REG_GET i 0 st) (UIM_GET i 0))) st.
Definition pv_shufflei3_b_sci_exec : insn_handler := fun i st =>
  insn_result i (Some (lib_VEC_SHUFFLEI3_SCI_8 (REG_GET i 0 st) (UIM_GET i 0))) st.
Definition pv_shuffle2_h_exec : insn_handler := fun i st =>
  insn_result i (Some (lib_VEC_SHUFFLE2_16 (REG_GET i 0 st) (REG_GET i 1 st) (REG_GET i 2 st))) st.
Definition pv_shuffle2_b_exec : insn_handler := fun i st =>
  insn_result i (Some (lib_VEC_SHUFFLE2_8 (REG_GET i 0 st) (REG_GET i 1 st) (REG_GET i 2 st))) st.
Definition pv_pack_h_exec : insn_handler := fun i st =>
  insn_result i (Some (lib_VEC_PACK_SC_16 (REG_GET i 0 st) (REG_GET i 1 st))) st.
Definition pv_packhi_b_exec : insn_handler := fun i st =>
  insn_result i (Some (lib_VEC_PACKHI_SC_8 (REG_GET i 0 st) (REG_GET i 1 st) (REG_GET i 2 st))) st.
Definition pv_packlo_b_exec : insn_handler := fun i st =>
  insn_result i (Some (lib_VEC_PACKLO_SC_8 (REG_GET i 0 st) (REG_GET i 1 st) (REG_GET i 2 st))) st.

(** ** What they compute *)

(** The mask of a comparison. *)
Definition mask_of (rel : Z -> Z -> bool) : Z -> Z -> Z -> Z := fun _ x y => if rel x y then -1 else 0.

(** The instructions, whether their elements are signed, and what they do to elements of a width. *)
Definition pv_table : list (pv_insns * bool * (Z -> Z -> Z -> Z)) :=
  [(pv_add, true, fun _ => Z.add);
   (pv_sub, true, fun _ => Z.sub);
   (pv_avg, true, fun w x y => sw w (x + y) / 2);
   (pv_avgu, false, fun w x y => uw w (x + y) / 2);
   (pv_min, true, fun _ => Z.min);
   (pv_minu, false, fun _ => Z.min);
   (pv_max, true, fun _ => Z.max);
   (pv_maxu, false, fun _ => Z.max);
   (pv_srl, false, fun w x y => x / 2 ^ (y mod w));
   (pv_sra, true, fun w x y => x / 2 ^ (y mod w));
   (pv_sll, false, fun w x y => x * 2 ^ (y mod w));
   (pv_or, true, fun _ => Z.lor);
   (pv_xor, true, fun _ => Z.lxor);
   (pv_and, true, fun _ => Z.land);
   (pv_cmpeq, true, mask_of Z.eqb);
   (pv_cmpne, true, mask_of neqb);
   (pv_cmpgt, true, mask_of Z.gtb);
   (pv_cmpge, true, mask_of Z.geb);
   (pv_cmplt, true, mask_of Z.ltb);
   (pv_cmple, true, mask_of Z.leb);
   (pv_cmpgtu, false, mask_of Z.gtb);
   (pv_cmpgeu, false, mask_of Z.geb);
   (pv_cmpltu, false, mask_of Z.ltb);
   (pv_cmpleu, false, mask_of Z.leb)].

Definition halves (sgn : bool) : itype := IType sgn 16.
Definition bytes (sgn : bool) : itype := IType sgn 8.

(** A handler that writes a word with these elements to its destination, and does nothing else. *)
Definition writes_elems (e : itype) (n : nat) (l : list Z) i st (h : insn_handler) : Prop :=
  exists v, 0 <= v < 2 ^ 32 /\ h i st = Some (i_next i, set_reg regs (REG_OUT i 0) v st) /\ elems e n v = l.

Lemma set_reg_word k v st : set_reg regs k (u32 v) st = set_reg regs k v st.
Proof.
  unfold set_reg, iss_set_reg. destruct (negb (k =? 0)); [|done]. do 2 f_equal. apply lanes_eqm; [lia|].
  apply (uw_idemp 32). lia.
Qed.
Lemma elems_word e n v : 0 < iwidth e -> iwidth e * Z.of_nat n = 32 -> elems e n (u32 v) = elems e n v.
Proof. intros He Hn. unfold elems. f_equal. apply lanes_eqm; [lia|]. rewrite Hn. apply (uw_idemp 32). lia. Qed.

Lemma result_elems e n l i st v (h : insn_handler) :
  h i st = insn_result i (Some v) st -> 0 < iwidth e -> iwidth e * Z.of_nat n = 32 -> elems e n v = l ->
  writes_elems e n l i st h.
Proof.
  intros Eh He Hn E. exists (u32 v). split; [by apply uw_range|]. rewrite Eh, set_reg_word.
  split; [done|]. by rewrite elems_word.
Qed.

(** The operation [f] on the elements of [a] and those given. *)
Definition lanewise (e : itype) (n : nat) (f : Z -> Z -> Z -> Z) (a : Z) (l : list Z) : list Z :=
  zip_with (fun x y => conv e (f (iwidth e) x y)) (elems e n a) l.

(** A library function and its scalar form. *)
Record lane_op (e : itype) (n : nat) (f : Z -> Z -> Z -> Z) (lib lib_sc : Z -> Z -> Z) : Prop := {
  lane_fits : 0 < iwidth e /\ iwidth e * Z.of_nat n = 32;
  lane_vec a b : elems e n (lib a b) = lanewise e n f a (elems e n b);
  lane_sc a b : conv e b = b -> lib_sc a b = lib a (pack (iwidth e) (replicate n b));
}.
Lemma lane_scalar e n f lib lib_sc a b :
  lane_op e n f lib lib_sc -> elems e n (lib_sc a (conv e b)) = lanewise e n f a (replicate n (conv e b)).
Proof.
  intros [[He Hn] Hv Hs]. rewrite Hs by by apply conv_idemp. rewrite Hv. f_equal. apply elems_replicate; [done|].
  by apply conv_idemp.
Qed.

(** What the six handlers of an element-wise instruction do. *)
Definition pv_lanes (sgn : bool) (f : Z -> Z -> Z -> Z) i st (o : pv_insns) : Prop :=
  let imm := if sgn then SIM_GET i 0 else UIM_GET i 0 in
  let does e n l h := writes_elems e n (lanewise e n f (REG_GET i 0 st) l) i st h in
  does (halves sgn) 2%nat (elems (halves sgn) 2 (REG_GET i 1 st)) (pv_h_exec o) /\
  does (halves sgn) 2%nat (replicate 2 (conv (halves sgn) (REG_GET i 1 st))) (pv_sc_h_exec o) /\
  does (halves sgn) 2%nat (replicate 2 (conv (halves sgn) imm)) (pv_sci_h_exec o) /\
  does (bytes sgn) 4%nat (elems (bytes sgn) 4 (REG_GET i 1 st)) (pv_b_exec o) /\
  does (bytes sgn) 4%nat (replicate 4 (conv (bytes sgn) (REG_GET i 1 st))) (pv_sc_b_exec o) /\
  does (bytes sgn) 4%nat (replicate 4 (conv (bytes sgn) imm)) (pv_sci_b_exec o).

Lemma pv_row (sgn : bool) f i st h hs b bs :
  lane_op (halves sgn) 2 f h hs -> lane_op (bytes sgn) 4 f b bs ->
  pv_lanes sgn f i st ((if sgn then PV_OP_RS_EXEC else PV_OP_RU_EXEC) h hs b bs).
Proof.
  intros Hh Hb. destruct (lane_fits _ _ _ _ _ Hh), (lane_fits _ _ _ _ _ Hb).
  destruct sgn; unfold pv_lanes; split_and!; (eapply result_elems; [reflexivity|done|done|]);
    first [apply (lane_vec _ _ _ _ _ Hh)|apply (lane_scalar _ _ _ _ _ _ _ Hh)
          |apply (lane_vec _ _ _ _ _ Hb)|apply (lane_scalar _ _ _ _ _ _ _ Hb)].
Qed.

(** pv.abs: the absolute values of the elements, cut to them (that of the least one is itself). *)
Definition abs_lanes i st : Prop :=
  let abs e n := (fun x => conv e (Z.abs x)) <$> elems e n (REG_GET i 0 st) in
  writes_elems (halves true) 2 (abs (halves true) 2%nat) i st pv_abs_h_exec /\
  writes_elems (bytes true) 4 (abs (bytes true) 4%nat) i st pv_abs_b_exec.

Lemma elems_abs e n x : 0 < iwidth e -> iwidth e * Z.of_nat n = 32 ->
  elems e n (of_elems int32_t e ((fun x => if x >? 0 then x else - x) <$> elems e n x)) =
    (fun x => conv e (Z.abs x)) <$> elems e n x.
Proof.
  intros He Hn. assert (Hl : length ((fun x => if x >? 0 then x else - x) <$> elems e n x) = n).
  { by rewrite length_fmap, length_elems. }
  rewrite <-Hl at 1. rewrite elems_of_elems by (unfold fills; rewrite Hl; simpl; lia). rewrite <-list_fmap_compose.
  apply list_fmap_ext. intros k y _. simpl. f_equal. destruct (Z.gtb_spec y 0); lia.
Qed.

(** C26: The 24 element-wise vector instructions of [pv_table], and pv.abs, for half words and bytes: the
    destination register takes, in each element, the operation on that element of the first operand and on that
    element of the second, or on the scalar of the second register or of the immediate, cut to the element (for
    pv.abs the absolute value of that element); no other register nor the memory changes, and the next
    instruction follows. *)
Theorem pv_lanewise_isa o sgn f i st : ((o, sgn, f) ∈ pv_table -> pv_lanes sgn f i st o) /\ abs_lanes i st.
Proof.
  split; [intros Hin; unfold pv_table in Hin|by split; (eapply result_elems; [reflexivity|done|done|by apply elems_abs])].
  repeat (apply elem_of_cons in Hin as [Hin|Hin]; [injection Hin as -> -> ->|]); [..|by apply elem_of_nil in Hin].
  all: match goal with |- pv_lanes true _ _ _ _ => apply (pv_row true) | |- _ => apply (pv_row false) end; (split; [by split| |]).
  all: try (intros a b; apply elementwise; [by split|intros x y; elem_op x y]).
  all: intros a b Hb; first [apply splat_op; [by split|exact Hb]|apply splat_expr; [by split|exact Hb]|apply splat_cmp; [by split|exact Hb]].
Qed.

(** The dot products: the element types of the operands, whether the immediate is signed, and the two rows of
    IsaVec.v, for half words and bytes. *)
Definition dot_insns : list (pv_insns * bool * bool * bool) :=
  [(pv_dotsp, true, true, false); (pv_dotup, false, false, false); (pv_dotusp, false, true, false);
   (pv_sdotsp, true, true, true); (pv_sdotup, false, false, true); (pv_sdotusp, false, true, true)].

(** A handler that adds to [acc] the products of elements, modulo 2^32, into its destination. *)
Definition writes_dot (acc : Z) (l : list (Z * Z)) i st (h : insn_handler) : Prop :=
  exists v, 0 <= v < 2 ^ 32 /\ h i st = Some (i_next i, set_reg regs (REG_OUT i 0) v st) /\ v = u32 (acc + sum_products l).

(** With an accumulator, the destination register is also the third operand, or the first of the immediate forms,
    where the vector is the second. *)
Definition pv_dots (sa sb acc : bool) i st (o : pv_insns) : Prop :=
  let imm := if sb then SIM_GET i 0 else UIM_GET i 0 in
  let start k := if acc then REG_GET i k st else 0 in
  let vec e n := elems e n (REG_GET i (if acc then 1%nat else 0%nat) st) in
  let first e n x := default 0 (elems e n x !! 0%nat) in
  let scalar e e' n x l := map (fun y => (y, first e' n x)) l in
  writes_dot (start 2%nat) (zip (elems (halves sa) 2 (REG_GET i 0 st)) (elems (halves sb) 2 (REG_GET i 1 st))) i st (pv_h_exec o) /\
  writes_dot (start 2%nat) (scalar (halves sa) (halves sb) 2%nat (REG_GET i 1 st) (elems (halves sa) 2 (REG_GET i 0 st))) i st (pv_sc_h_exec o) /\
  writes_dot (start 0%nat) (scalar (halves sa) (halves sb) 2%nat imm (vec (halves sa) 2%nat)) i st (pv_sci_h_exec o) /\
  writes_dot (start 2%nat) (zip (elems (bytes sa) 4 (REG_GET i 0 st)) (elems (bytes sb) 4 (REG_GET i 1 st))) i st (pv_b_exec o) /\
  writes_dot (start 2%nat) (scalar (bytes sa) (bytes sb) 4%nat (REG_GET i 1 st) (elems (bytes sa) 4 (REG_GET i 0 st))) i st (pv_sc_b_exec o) /\
  writes_dot (start 0%nat) (scalar (bytes sa) (bytes sb) 4%nat imm (vec (bytes sa) 4%nat)) i st (pv_sci_b_exec o).

Lemma result_dot t acc l i st v (h : insn_handler) :
  h i st = insn_result i (Some v) st -> iwidth t = 32 -> v = conv t (acc + sum_products l) -> writes_dot acc l i st h.
Proof.
  intros Eh Ht ->. exists (u32 (acc + sum_products l)). split; [by apply uw_range|]. split; [|done].
  rewrite Eh. unfold Rv32.insn_result, REG_SET. cbn [mbind option_bind]. rewrite <- set_reg_word. do 3 f_equal.
  unfold conv. rewrite Ht. destruct (isigned t); [by apply (uw_sw 32)|by apply (uw_idemp 32)].
Qed.

(** The rows of IsaVec.v, by form. *)
Section Rows.
Context (t ea eb : itype) (n : nat) (acc a b : Z) (Ht : iwidth t = 32) (Hn : (0 < n)%nat).
Let row := dot_row t ea eb n acc a b Ht Hn.
Let b0 := default 0 (elems eb n b !! 0%nat).
Lemma vec_dotp : VEC_DOTP t ea eb n a b = conv t (0 + sum_products (zip (elems ea n a) (elems eb n b))).
Proof. exact (proj1 row). Qed.
Lemma vec_sdot : VEC_SDOT t ea eb n acc a b = conv t (acc + sum_products (zip (elems ea n a) (elems eb n b))).
Proof. exact (proj1 (proj2 row)). Qed.
Lemma vec_dotp_sc : VEC_DOTP_SC t ea eb n a b = conv t (0 + sum_products (map (fun x => (x, b0)) (elems ea n a))).
Proof. exact (proj1 (proj2 (proj2 row))). Qed.
Lemma vec_sdot_sc : VEC_SDOT_SC t ea eb n acc a b = conv t (acc + sum_products (map (fun x => (x, b0)) (elems ea n a))).
Proof. exact (proj2 (proj2 (proj2 row))). Qed.
End Rows.

(** the dot products of the PULP extension: the destination register takes the sum of the products of the
    elements of the two operands, or of those of the first with the first element of a register or of the
    immediate, added to the accumulator for the sdot forms, modulo 2^32; nothing else changes. *)
Theorem pv_dot_isa o sa sb acc i st : (o, sa, sb, acc) ∈ dot_insns -> pv_dots sa sb acc i st o.
Proof.
  intros Hin. unfold dot_insns in Hin.
  repeat (apply elem_of_cons in Hin as [Hin|Hin]; [injection Hin as -> -> -> ->|]); [..|by apply elem_of_nil in Hin].
  all: unfold pv_dots; split_and!.
  all: eapply result_dot; [reflexivity| |first [apply (vec_dotp _ _ _ _ 0)|apply (vec_dotp_sc _ _ _ _ 0)|apply vec_sdot|apply vec_sdot_sc]; solve [done|lia]].
  all: done.
Qed.
End Simd.

(** ** Examples: pv.add.b and pv.sdotsp.h of x5 and x6, from the registers of Rv32.v *)

Lemma pv_lanewise_isa_witness :
  exists v, pv_b_exec (pv_add 5000) (demo_insn 5 6 7 0) demo_iss = Some (68, set_reg 5000 7 v demo_iss) /\
    elems int8_t 4 v = [-42; -53; -70; -87].
Proof.
  assert (Hin : (pv_add (S := memory) 5000, true, fun _ => Z.add) ∈ pv_table 5000) by by apply (list_elem_of_lookup_2 _ 0).
  destruct (proj1 (pv_lanewise_isa 5000 _ _ _ (demo_insn 5 6 7 0) demo_iss) Hin) as (_ & _ & _ & (v & _ & E & H) & _).
  exists v. split; [exact E|]. exact (eq_trans H ltac:(vm_compute; reflexivity)).
Defined.
Lemma pv_dot_isa_witness :
  exists v, pv_sci_h_exec (pv_sdotsp 5000) (demo_insn 7 6 7 3) demo_iss = Some (68, set_reg 5000 7 v demo_iss) /\
    v = u32 (2 + (-7 * 3 + -1 * 3)).
Proof.
  assert (Hin : (pv_sdotsp (S := memory) 5000, true, true, true) ∈ dot_insns 5000) by by apply (list_elem_of_lookup_2 _ 3).
  destruct (pv_dot_isa 5000 _ _ _ _ (demo_insn 7 6 7 3) demo_iss Hin) as (_ & _ & (v & _ & E & H) & _).
  exists v. split; [exact E|]. exact (eq_trans H ltac:(vm_compute; reflexivity)).
Defined.
