(* ===== verification/IsaNN.v ===== *)
(** * Neural-network instructions of the simulator (iss/include/isa_lib/int.h)

    The tanh and sigmoid approximation, the threshold quantiser and the packed operations on
    nibbles (8 four-bit elements) and crumbs (16 two-bit elements) of int.h.  The code works byte by
    byte: it unpacks the two nibbles or four crumbs of a byte, sign-extends them, operates, and
    repacks.  A macro is a definition with the macro's parameters, num_elem being 8 or 16. *)

From S2P Require Import Prelude IsaInt IsaVec.

(** ** Activation functions *)

Definition lut_Tanh_m : list Z :=
  [4021; 3563; 2835; 2070; 1418; 929; 592; 370; 228; 140; 86; 52; 32; 19; 12; 7].
Definition lut_Tanh_q : list Z :=
  [17060; 512067; 2012407; 4361003; 7021506; 9510743; 11575189; 13158594; 14311861; 15123015;
   15679911; 16055709; 16306104; 16471340; 16579558; 16650000].
Definition lut_sig_m : list Z :=
  [1019; 988; 930; 850; 758; 660; 563; 472; 391; 319; 258; 207; 165; 131; 104; 82].
Definition lut_sig_q : list Z :=
  [8389671; 8423495; 8544906; 8789991; 9169470; 9670607; 10264318; 10914030; 11583389; 12241371;
   12864661; 13437943; 13952921; 14406803; 14800713; 15138308].

(** [None]: an index outside the tables. *)
Definition lib_TANHorSIG (a isSig : Z) : option Z :=
  let lutsize := 16 in
  let value1 := 4096 in
  let value0p999 := 4095 in
  let sign := Z.land (Z.shiftr a 31) 0x1 in
  let abs_a := if sign =? 1 then s32 (Z.lnot a) else s32 a in
  let tmp := Z.shiftr abs_a (13 - 3) in
  if u32 tmp >=? lutsize then
    if isSig =? 0 then Some (if sign =? 1 then u32 (- value1) else value1)
    else Some (if sign =? 1 then 0 else value1)
  else
    let* m := (if isSig =? 0 then lut_Tanh_m else lut_sig_m) !! Z.to_nat tmp in
    let* q := (if isSig =? 0 then lut_Tanh_q else lut_sig_q) !! Z.to_nat tmp in
    let mac_result := Z.shiftr (s32 (m * abs_a + q)) 12 in
    let mac_result_signed := if sign =? 1 then Z.lnot mac_result else mac_result in
    if (isSig =? 1) && (sign =? 1) then Some (u32 (value0p999 + mac_result_signed))
    else Some (u32 mac_result_signed).

Definition lib_TANH (a : Z) : option Z := lib_TANHorSIG a 0.
Definition lib_SIG (a : Z) : option Z := lib_TANHorSIG a 1.

(** The binary search of lib_VEC_QNT_4 among the 15 thresholds pThr[0..14]. *)
Definition lib_VEC_QNT_4 (input : Z) (pThr : nat -> Z) : Z :=
  if input <=? pThr 7%nat then
    if input <=? pThr 3%nat then
      if input <=? pThr 1%nat then
        if input <=? pThr 0%nat then -8 else -7
      else
        if input <=? pThr 2%nat then -6 else -5
    else
      if input <=? pThr 5%nat then
        if input <=? pThr 4%nat then -4 else -3
      else
        if input <=? pThr 6%nat then -2 else -1
  else
    if input <=? pThr 11%nat then
      if input <=? pThr 9%nat then
        if input <=? pThr 8%nat then 0 else 1
      else
        if input <=? pThr 10%nat then 2 else 3
    else
      if input <=? pThr 13%nat then
        if input <=? pThr 12%nat then 4 else 5
      else
        if input <=? pThr 14%nat then 6 else 7.

(** ** Unpacking and repacking a byte

    [nibble t signed x sh] is [a = (x >> sh) & 0x0F; a = signed ? ((a & 0x08) ? (a | 0xF0) : (a &
    0x0F)) : (a & 0x0F)] in a variable of type [t]; [crumb] is the two-bit version. *)
Definition nibble (t : itype) (signed : bool) (x sh : Z) : Z :=
  let a := conv t (Z.land (Z.shiftr x sh) 0x0F) in
  conv t (if signed then if negb (Z.land a 0x08 =? 0) then Z.lor a 0xF0 else Z.land a 0x0F
          else Z.land a 0x0F).

Definition crumb (t : itype) (signed : bool) (x sh : Z) : Z :=
  let a := conv t (Z.land (Z.shiftr x sh) 0x03) in
  conv t (if signed then if negb (Z.land a 0x02 =? 0) then Z.lor a 0xFC else Z.land a 0x03
          else Z.land a 0x03).

Definition pack_nibbles (out0 out1 : Z) : Z :=
  Z.lor (Z.land out0 0x0F) (Z.shiftl (Z.land out1 0x0F) 4).

Definition pack_crumbs (out0 out1 out2 out3 : Z) : Z :=
  Z.lor (Z.lor (Z.lor (Z.land out0 0x03) (Z.shiftl (Z.land out1 0x03) 2))
    (Z.shiftl (Z.land out2 0x03) 4)) (Z.shiftl (Z.land out3 0x03) 6).

(** ** Element-wise operations (VEC_OP_NN)

    Its repacking masks after the shift. *)
Definition VEC_OP_NN (type : itype) (num_elem : Z) (oper : Z -> Z -> Z) (a b : Z) : Z :=
  let tmp_a := elems int8_t 4 a in
  let tmp_b := elems int8_t 4 b in
  of_elems type int8_t (zip_with (fun x y =>
    if num_elem =? 8 then
      let lowa := nibble int8_t true x 0 in
      let higha := nibble int8_t true x 4 in
      let lowb := nibble int8_t true y 0 in
      let highb := nibble int8_t true y 4 in
      let lowout := s8 (oper lowa lowb) in
      let highout := s8 (oper higha highb) in
      Z.lor (Z.land lowout 0x0F) (Z.land (Z.shiftl highout 4) 0xF0)
    else
      let lowa := crumb int8_t true x 0 in
      let midla := crumb int8_t true x 2 in
      let midha := crumb int8_t true x 4 in
      let higha := crumb int8_t true x 6 in
      let lowb := crumb int8_t true y 0 in
      let midlb := crumb int8_t true y 2 in
      let midhb := crumb int8_t true y 4 in
      let highb := crumb int8_t true y 6 in
      let lowout := s8 (oper lowa lowb) in
      let midlo := s8 (oper midla midlb) in
      let midho := s8 (oper midha midhb) in
      let highout := s8 (oper higha highb) in
      Z.lor (Z.lor (Z.lor (Z.land lowout 0x03) (Z.land (Z.shiftl midlo 2) 0x0C))
        (Z.land (Z.shiftl midho 4) 0x30)) (Z.land (Z.shiftl highout 6) 0xC0)) tmp_a tmp_b).

Definition VEC_OP_NN_SC (type : itype) (num_elem : Z) (oper : Z -> Z -> Z) (a b : Z) : Z :=
  let tmp_a := elems int8_t 4 a in
  of_elems type int8_t ((fun x =>
    if num_elem =? 8 then
      let lowa := nibble int8_t true x 0 in
      let higha := nibble int8_t true x 4 in
      let lowb := nibble int8_t true b 0 in
      let lowout := s8 (oper lowa lowb) in
      let highout := s8 (oper higha lowb) in
      Z.lor (Z.land lowout 0x0F) (Z.land (Z.shiftl highout 4) 0xF0)
    else
      let lowa := crumb int8_t true x 0 in
      let midla := crumb int8_t true x 2 in
      let midha := crumb int8_t true x 4 in
      let higha := crumb int8_t true x 6 in
      let lowb := crumb int8_t true b 0 in
      let lowout := s8 (oper lowa lowb) in
      let midlo := s8 (oper midla lowb) in
      let midho := s8 (oper midha lowb) in
      let highout := s8 (oper higha lowb) in
      Z.lor (Z.lor (Z.lor (Z.land lowout 0x03) (Z.land (Z.shiftl midlo 2) 0x0C))
        (Z.land (Z.shiftl midho 4) 0x30)) (Z.land (Z.shiftl highout 6) 0xC0)) <$> tmp_a).

(** ** Dot products (VEC_DOTP_NN, VEC_SDOT_NN)

    The contribution of a pair of bytes. *)
Definition dotp_byte (num_elem : Z) (oper : Z -> Z -> Z) (signed1 signed2 : bool) (x y : Z) : Z :=
  if num_elem =? 8 then
    let a0 := nibble int8_t signed1 x 0 in
    let a1 := nibble int8_t signed1 x 4 in
    let b0 := nibble int8_t signed2 y 0 in
    let b1 := nibble int8_t signed2 y 4 in
    oper a1 b1 + oper a0 b0
  else
    let a0 := crumb int8_t signed1 x 0 in
    let a1 := crumb int8_t signed1 x 2 in
    let a2 := crumb int8_t signed1 x 4 in
    let a3 := crumb int8_t signed1 x 6 in
    let b0 := crumb int8_t signed2 y 0 in
    let b1 := crumb int8_t signed2 y 2 in
    let b2 := crumb int8_t signed2 y 4 in
    let b3 := crumb int8_t signed2 y 6 in
    oper a0 b0 + oper a1 b1 + oper a2 b2 + oper a3 b3.

Definition dotp_byte_sc (num_elem : Z) (oper : Z -> Z -> Z) (signed1 signed2 : bool) (x y : Z) : Z :=
  if num_elem =? 8 then
    let a0 := nibble int8_t signed1 x 0 in
    let a1 := nibble int8_t signed1 x 4 in
    let b0 := nibble int8_t signed2 y 0 in
    oper a1 b0 + oper a0 b0
  else
    let a0 := crumb int8_t signed1 x 0 in
    let a1 := crumb int8_t signed1 x 2 in
    let a2 := crumb int8_t signed1 x 4 in
    let a3 := crumb int8_t signed1 x 6 in
    let b0 := crumb int8_t signed2 y 0 in
    oper a0 b0 + oper a1 b0 + oper a2 b0 + oper a3 b0.

Definition VEC_SDOT_NN (typeOut : itype) (num_elem : Z) (oper : Z -> Z -> Z) (signed1 signed2 : bool)
    (out a b : Z) : Z :=
  let tmp_a := elems int8_t 4 a in
  let tmp_b := elems int8_t 4 b in
  fold_left (fun out p => conv typeOut (out + dotp_byte num_elem oper signed1 signed2 p.1 p.2))
    (zip tmp_a tmp_b) out.

Definition VEC_SDOT_NN_SC (typeOut : itype) (num_elem : Z) (oper : Z -> Z -> Z)
    (signed1 signed2 : bool) (out a b : Z) : Z :=
  let tmp_a := elems int8_t 4 a in
  let tmp_b := elems int8_t 4 b in
  fold_left (fun out x =>
    conv typeOut (out + dotp_byte_sc num_elem oper signed1 signed2 x (default 0 (tmp_b !! 0%nat))))
    tmp_a out.

Definition VEC_DOTP_NN (typeOut : itype) (num_elem : Z) (oper : Z -> Z -> Z) (signed1 signed2 : bool)
    (a b : Z) : Z :=
  let out := 0 in
  let tmp_a := elems int8_t 4 a in
  let tmp_b := elems int8_t 4 b in
  fold_left (fun out p => conv typeOut (out + dotp_byte num_elem oper signed1 signed2 p.1 p.2))
    (zip tmp_a tmp_b) out.

Definition VEC_DOTP_NN_SC (typeOut : itype) (num_elem : Z) (oper : Z -> Z -> Z)
    (signed1 signed2 : bool) (a b : Z) : Z :=
  let out := 0 in
  let tmp_a := elems int8_t 4 a in
  let tmp_b := elems int8_t 4 b in
  fold_left (fun out x =>
    conv typeOut (out + dotp_byte_sc num_elem oper signed1 signed2 x (default 0 (tmp_b !! 0%nat))))
    tmp_a out.

(** ** Averages (VEC_EXPR_NN_AVG) *)

Definition VEC_EXPR_NN_AVG (type : itype) (num_elem : Z) (signed : bool) (gcc_type : itype)
    (a b : Z) : Z :=
  let tmp_a := elems gcc_type 4 a in
  let tmp_b := elems gcc_type 4 b in
  of_elems type gcc_type (zip_with (fun x y =>
    if num_elem =? 8 then
      let a0 := nibble gcc_type signed x 0 in
      let a1 := nibble gcc_type signed x 4 in
      let b0 := nibble gcc_type signed y 0 in
      let b1 := nibble gcc_type signed y 4 in
      let out0 := conv gcc_type (Z.shiftr (a0 + b0) 1) in
      let out1 := conv gcc_type (Z.shiftr (a1 + b1) 1) in
      pack_nibbles out0 out1
    else
      let a0 := crumb gcc_type signed x 0 in
      let a1 := crumb gcc_type signed x 2 in
      let a2 := crumb gcc_type signed x 4 in
      let a3 := crumb gcc_type signed x 6 in
      let b0 := crumb gcc_type signed y 0 in
      let b1 := crumb gcc_type signed y 2 in
      let b2 := crumb gcc_type signed y 4 in
      let b3 := crumb gcc_type signed y 6 in
      let out0 := conv gcc_type (Z.shiftr (a0 + b0) 1) in
      let out1 := conv gcc_type (Z.shiftr (a1 + b1) 1) in
      let out2 := conv gcc_type (Z.shiftr (a2 + b2) 1) in
      let out3 := conv gcc_type (Z.shiftr (a3 + b3) 1) in
      pack_crumbs out0 out1 out2 out3) tmp_a tmp_b).

Definition VEC_EXPR_NN_AVG_SC (type : itype) (num_elem : Z) (signed : bool) (gcc_type : itype)
    (a b : Z) : Z :=
  let tmp_a := elems gcc_type 4 a in
  let tmp_b := elems gcc_type 4 b in
  let y := default 0 (tmp_b !! 0%nat) in
  of_elems type gcc_type ((fun x =>
    if num_elem =? 8 then
      let a0 := nibble gcc_type signed x 0 in
      let a1 := nibble gcc_type signed x 4 in
      let b0 := nibble gcc_type signed y 0 in
      let out0 := conv gcc_type (Z.shiftr (a0 + b0) 1) in
      let out1 := conv gcc_type (Z.shiftr (a1 + b0) 1) in
      pack_nibbles out0 out1
    else
      let a0 := crumb gcc_type signed x 0 in
      let a1 := crumb gcc_type signed x 2 in
      let a2 := crumb gcc_type signed x 4 in
      let a3 := crumb gcc_type signed x 6 in
      let b0 := crumb gcc_type signed y 0 in
      let out0 := conv gcc_type (Z.shiftr (a0 + b0) 1) in
      let out1 := conv gcc_type (Z.shiftr (a1 + b0) 1) in
      let out2 := conv gcc_type (Z.shiftr (a2 + b0) 1) in
      let out3 := conv gcc_type (Z.shiftr (a3 + b0) 1) in
      pack_crumbs out0 out1 out2 out3) <$> tmp_a).

(** ** Maximum and minimum (VEC_EXPR_NN_MAX) *)

Definition nn_max (oper : bool) (x y : Z) : Z :=
  if x >? y then if oper then x else y else if oper then y else x.

Definition VEC_EXPR_NN_MAX (type : itype) (num_elem : Z) (signed : bool) (gcc_type : itype)
    (oper : bool) (a b : Z) : Z :=
  let tmp_a := elems gcc_type 4 a in
  let tmp_b := elems gcc_type 4 b in
  of_elems type gcc_type (zip_with (fun x y =>
    if num_elem =? 8 then
      let a0 := nibble gcc_type signed x 0 in
      let a1 := nibble gcc_type signed x 4 in
      let b0 := nibble gcc_type signed y 0 in
      let b1 := nibble gcc_type signed y 4 in
      pack_nibbles (nn_max oper a0 b0) (nn_max oper a1 b1)
    else
      let a0 := crumb gcc_type signed x 0 in
      let a1 := crumb gcc_type signed x 2 in
      let a2 := crumb gcc_type signed x 4 in
      let a3 := crumb gcc_type signed x 6 in
      let b0 := crumb gcc_type signed y 0 in
      let b1 := crumb gcc_type signed y 2 in
      let b2 := crumb gcc_type signed y 4 in
      let b3 := crumb gcc_type signed y 6 in
      pack_crumbs (nn_max oper a0 b0) (nn_max oper a1 b1) (nn_max oper a2 b2) (nn_max oper a3 b3))
    tmp_a tmp_b).

(** The scalar form on crumbs assigns out0 and out1 twice and never out2 and out3, whose
    indeterminate values are the arguments [u2] and [u3]. *)
Definition VEC_EXPR_NN_MAX_SC (type : itype) (num_elem : Z) (signed : bool) (gcc_type : itype)
    (oper : bool) (u2 u3 : Z) (a b : Z) : Z :=
  let tmp_a := elems gcc_type 4 a in
  let tmp_b := elems gcc_type 4 b in
  let y := default 0 (tmp_b !! 0%nat) in
  of_elems type gcc_type ((fun x =>
    if num_elem =? 8 then
      let a0 := nibble gcc_type signed x 0 in
      let a1 := nibble gcc_type signed x 4 in
      let b0 := nibble gcc_type signed y 0 in
      pack_nibbles (nn_max oper a0 b0) (nn_max oper a1 b0)
    else
      let a2 := crumb gcc_type signed x 4 in
      let a3 := crumb gcc_type signed x 6 in
      let b0 := crumb gcc_type signed y 0 in
      let out0 := nn_max oper a2 b0 in
      let out1 := nn_max oper a3 b0 in
      pack_crumbs out0 out1 u2 u3) <$> tmp_a).

(** ** Shifts (VEC_EXPR_NN_SHIFT): the counts are read unsigned. *)

Definition VEC_EXPR_NN_SHIFT (type : itype) (num_elem : Z) (signed : bool) (gcc_type : itype)
    (oper : Z -> Z -> Z) (a b : Z) : Z :=
  let tmp_a := elems gcc_type 4 a in
  let tmp_b := elems uint8_t 4 b in
  of_elems type gcc_type (zip_with (fun x y =>
    if num_elem =? 8 then
      let a0 := nibble gcc_type signed x 0 in
      let a1 := nibble gcc_type signed x 4 in
      let b0 := Z.land y 0x0F in
      let b1 := Z.land (Z.shiftr y 4) 0x0F in
      let out0 := conv gcc_type (oper a0 (Z.land b0 0x3)) in
      let out1 := conv gcc_type (oper a1 (Z.land b1 0x3)) in
      pack_nibbles out0 out1
    else
      let a0 := crumb gcc_type signed x 0 in
      let a1 := crumb gcc_type signed x 2 in
      let a2 := crumb gcc_type signed x 4 in
      let a3 := crumb gcc_type signed x 6 in
      let b0 := Z.land y 0x03 in
      let b1 := Z.land (Z.shiftr y 2) 0x03 in
      let b2 := Z.land (Z.shiftr y 4) 0x03 in
      let b3 := Z.land (Z.shiftr y 6) 0x03 in
      let out0 := conv gcc_type (oper a0 (Z.land b0 0x1)) in
      let out1 := conv gcc_type (oper a1 (Z.land b1 0x1)) in
      let out2 := conv gcc_type (oper a2 (Z.land b2 0x1)) in
      let out3 := conv gcc_type (oper a3 (Z.land b3 0x1)) in
      pack_crumbs out0 out1 out2 out3) tmp_a tmp_b).

Definition VEC_EXPR_NN_SHIFT_SC (type : itype) (num_elem : Z) (signed : bool) (gcc_type : itype)
    (oper : Z -> Z -> Z) (a b : Z) : Z :=
  let tmp_a := elems gcc_type 4 a in
  let tmp_b := elems uint8_t 4 b in
  let y := default 0 (tmp_b !! 0%nat) in
  of_elems type gcc_type ((fun x =>
    if num_elem =? 8 then
      let a0 := nibble gcc_type signed x 0 in
      let a1 := nibble gcc_type signed x 4 in
      let b0 := Z.land y 0x0F in
      let out0 := conv gcc_type (oper a0 (Z.land b0 0x3)) in
      let out1 := conv gcc_type (oper a1 (Z.land b0 0x3)) in
      pack_nibbles out0 out1
    else
      let a0 := crumb gcc_type signed x 0 in
      let a1 := crumb gcc_type signed x 2 in
      let a2 := crumb gcc_type signed x 4 in
      let a3 := crumb gcc_type signed x 6 in
      let b0 := Z.land y 0x03 in
      let out0 := conv gcc_type (oper a0 (Z.land b0 0x1)) in
      let out1 := conv gcc_type (oper a1 (Z.land b0 0x1)) in
      let out2 := conv gcc_type (oper a2 (Z.land b0 0x1)) in
      let out3 := conv gcc_type (oper a3 (Z.land b0 0x1)) in
      pack_crumbs out0 out1 out2 out3) <$> tmp_a).

(** ** Absolute value *)

Definition lib_VEC_ABS_int4_t_to_int32_t (a : Z) : Z :=
  let tmp_a := elems int8_t 4 a in
  of_elems int32_t int8_t ((fun x =>
    let al := nibble int8_t true x 0 in
    let ah := nibble int8_t true x 4 in
    let ol := s8 (if al >? 0 then al else - al) in
    let oh := s8 (if ah >? 0 then ah else - ah) in
    pack_nibbles ol oh) <$> tmp_a).

(** The crumb version reads four 16-bit elements through an int16_t pointer to the 32-bit operand:
    the last two are outside it, and their values are the arguments [m2] and [m3]. *)
Definition lib_VEC_ABS_int2_t_to_int32_t (m2 m3 : Z) (a : Z) : Z :=
  let tmp_a := elems int16_t 2 a ++ [m2; m3] in
  of_elems int32_t int8_t ((fun x =>
    let al := crumb int8_t true x 0 in
    let aml := crumb int8_t true x 2 in
    let amh := crumb int8_t true x 4 in
    let ah := crumb int8_t true x 6 in
    let ol := s8 (if al >? 0 then al else - al) in
    let omh := s8 (if amh >? 0 then amh else - amh) in
    let oml := s8 (if aml >? 0 then aml else - aml) in
    let oh := s8 (if ah >? 0 then ah else - ah) in
    pack_crumbs ol oml omh oh) <$> tmp_a).

(** ** Instances *)

Definition lib_VEC_ADD_int4_t_to_int32_t : Z -> Z -> Z := VEC_OP_NN int32_t 8 Z.add.
Definition lib_VEC_ADD_SC_int4_t_to_int32_t : Z -> Z -> Z := VEC_OP_NN_SC int32_t 8 Z.add.
Definition lib_VEC_ADD_int2_t_to_int32_t : Z -> Z -> Z := VEC_OP_NN int32_t 16 Z.add.
Definition lib_VEC_ADD_SC_int2_t_to_int32_t : Z -> Z -> Z := VEC_OP_NN_SC int32_t 16 Z.add.
Definition lib_VEC_SUB_int4_t_to_int32_t : Z -> Z -> Z := VEC_OP_NN int32_t 8 Z.sub.
Definition lib_VEC_SUB_SC_int4_t_to_int32_t : Z -> Z -> Z := VEC_OP_NN_SC int32_t 8 Z.sub.
Definition lib_VEC_SUB_int2_t_to_int32_t : Z -> Z -> Z := VEC_OP_NN int32_t 16 Z.sub.
Definition lib_VEC_SUB_SC_int2_t_to_int32_t : Z -> Z -> Z := VEC_OP_NN_SC int32_t 16 Z.sub.
Definition lib_VEC_OR_int4_t_to_int32_t : Z -> Z -> Z := VEC_OP_NN int32_t 8 Z.lor.
Definition lib_VEC_OR_SC_int4_t_to_int32_t : Z -> Z -> Z := VEC_OP_NN_SC int32_t 8 Z.lor.
Definition lib_VEC_OR_int2_t_to_int32_t : Z -> Z -> Z := VEC_OP_NN int32_t 16 Z.lor.
Definition lib_VEC_OR_SC_int2_t_to_int32_t : Z -> Z -> Z := VEC_OP_NN_SC int32_t 16 Z.lor.
Definition lib_VEC_XOR_int4_t_to_int32_t : Z -> Z -> Z := VEC_OP_NN int32_t 8 Z.lxor.
Definition lib_VEC_XOR_SC_int4_t_to_int32_t : Z -> Z -> Z := VEC_OP_NN_SC int32_t 8 Z.lxor.
Definition lib_VEC_XOR_int2_t_to_int32_t : Z -> Z -> Z := VEC_OP_NN int32_t 16 Z.lxor.
Definition lib_VEC_XOR_SC_int2_t_to_int32_t : Z -> Z -> Z := VEC_OP_NN_SC int32_t 16 Z.lxor.
Definition lib_VEC_AND_int4_t_to_int32_t : Z -> Z -> Z := VEC_OP_NN int32_t 8 Z.land.
Definition lib_VEC_AND_SC_int4_t_to_int32_t : Z -> Z -> Z := VEC_OP_NN_SC int32_t 8 Z.land.
Definition lib_VEC_AND_int2_t_to_int32_t : Z -> Z -> Z := VEC_OP_NN int32_t 16 Z.land.
Definition lib_VEC_AND_SC_int2_t_to_int32_t : Z -> Z -> Z := VEC_OP_NN_SC int32_t 16 Z.land.
Definition lib_VEC_DOTSP_4 : Z -> Z -> Z :=
  VEC_DOTP_NN int32_t 8 Z.mul true true.
Definition lib_VEC_DOTSP_SC_4 : Z -> Z -> Z :=
  VEC_DOTP_NN_SC int32_t 8 Z.mul true true.
Definition lib_VEC_DOTSP_2 : Z -> Z -> Z :=
  VEC_DOTP_NN int32_t 16 Z.mul true true.
Definition lib_VEC_DOTSP_SC_2 : Z -> Z -> Z :=
  VEC_DOTP_NN_SC int32_t 16 Z.mul true true.
Definition lib_VEC_DOTUP_4 : Z -> Z -> Z :=
  VEC_DOTP_NN uint32_t 8 Z.mul false false.
Definition lib_VEC_DOTUP_SC_4 : Z -> Z -> Z :=
  VEC_DOTP_NN_SC uint32_t 8 Z.mul false false.
Definition lib_VEC_DOTUP_2 : Z -> Z -> Z :=
  VEC_DOTP_NN uint32_t 16 Z.mul false false.
Definition lib_VEC_DOTUP_SC_2 : Z -> Z -> Z :=
  VEC_DOTP_NN_SC uint32_t 16 Z.mul false false.
Definition lib_VEC_DOTUSP_4 : Z -> Z -> Z :=
  VEC_DOTP_NN int32_t 8 Z.mul false true.
Definition lib_VEC_DOTUSP_SC_4 : Z -> Z -> Z :=
  VEC_DOTP_NN_SC int32_t 8 Z.mul false true.
Definition lib_VEC_DOTUSP_2 : Z -> Z -> Z :=
  VEC_DOTP_NN int32_t 16 Z.mul false true.
Definition lib_VEC_DOTUSP_SC_2 : Z -> Z -> Z :=
  VEC_DOTP_NN_SC int32_t 16 Z.mul false true.
Definition lib_VEC_SDOTSP_4 : Z -> Z -> Z -> Z :=
  VEC_SDOT_NN int32_t 8 Z.mul true true.
Definition lib_VEC_SDOTSP_SC_4 : Z -> Z -> Z -> Z :=
  VEC_SDOT_NN_SC int32_t 8 Z.mul true true.
Definition lib_VEC_SDOTSP_2 : Z -> Z -> Z -> Z :=
  VEC_SDOT_NN int32_t 16 Z.mul true true.
Definition lib_VEC_SDOTSP_SC_2 : Z -> Z -> Z -> Z :=
  VEC_SDOT_NN_SC int32_t 16 Z.mul true true.
Definition lib_VEC_SDOTUP_4 : Z -> Z -> Z -> Z :=
  VEC_SDOT_NN uint32_t 8 Z.mul false false.
Definition lib_VEC_SDOTUP_SC_4 : Z -> Z -> Z -> Z :=
  VEC_SDOT_NN_SC uint32_t 8 Z.mul false false.
Definition lib_VEC_SDOTUP_2 : Z -> Z -> Z -> Z :=
  VEC_SDOT_NN uint32_t 16 Z.mul false false.
Definition lib_VEC_SDOTUP_SC_2 : Z -> Z -> Z -> Z :=
  VEC_SDOT_NN_SC uint32_t 16 Z.mul false false.
Definition lib_VEC_SDOTUSP_4 : Z -> Z -> Z -> Z :=
  VEC_SDOT_NN int32_t 8 Z.mul false true.
Definition lib_VEC_SDOTUSP_SC_4 : Z -> Z -> Z -> Z :=
  VEC_SDOT_NN_SC int32_t 8 Z.mul false true.
Definition lib_VEC_SDOTUSP_2 : Z -> Z -> Z -> Z :=
  VEC_SDOT_NN int32_t 16 Z.mul false true.
Definition lib_VEC_SDOTUSP_SC_2 : Z -> Z -> Z -> Z :=
  VEC_SDOT_NN_SC int32_t 16 Z.mul false true.
Definition lib_VEC_AVG_int4_t_to_int32_t : Z -> Z -> Z := VEC_EXPR_NN_AVG int32_t 8 true int8_t.
Definition lib_VEC_AVG_SC_int4_t_to_int32_t : Z -> Z -> Z := VEC_EXPR_NN_AVG_SC int32_t 8 true int8_t.
Definition lib_VEC_AVG_int2_t_to_int32_t : Z -> Z -> Z := VEC_EXPR_NN_AVG int32_t 16 true int8_t.
Definition lib_VEC_AVG_SC_int2_t_to_int32_t : Z -> Z -> Z := VEC_EXPR_NN_AVG_SC int32_t 16 true int8_t.
Definition lib_VEC_AVGU_uint4_t_to_uint32_t : Z -> Z -> Z := VEC_EXPR_NN_AVG uint32_t 8 false uint8_t.
Definition lib_VEC_AVGU_SC_uint4_t_to_uint32_t : Z -> Z -> Z := VEC_EXPR_NN_AVG_SC uint32_t 8 false uint8_t.
Definition lib_VEC_AVGU_uint2_t_to_uint32_t : Z -> Z -> Z := VEC_EXPR_NN_AVG uint32_t 16 false uint8_t.
Definition lib_VEC_AVGU_SC_uint2_t_to_uint32_t : Z -> Z -> Z := VEC_EXPR_NN_AVG_SC uint32_t 16 false uint8_t.
Definition lib_VEC_MAX_int4_t_to_int32_t : Z -> Z -> Z := VEC_EXPR_NN_MAX int32_t 8 true int8_t true.
Definition lib_VEC_MAX_SC_int4_t_to_int32_t : Z -> Z -> Z -> Z -> Z :=
  VEC_EXPR_NN_MAX_SC int32_t 8 true int8_t true.
Definition lib_VEC_MAX_int2_t_to_int32_t : Z -> Z -> Z := VEC_EXPR_NN_MAX int32_t 16 true int8_t true.
Definition lib_VEC_MAX_SC_int2_t_to_int32_t : Z -> Z -> Z -> Z -> Z :=
  VEC_EXPR_NN_MAX_SC int32_t 16 true int8_t true.
Definition lib_VEC_MAXU_uint4_t_to_uint32_t : Z -> Z -> Z := VEC_EXPR_NN_MAX uint32_t 8 false uint8_t true.
Definition lib_VEC_MAXU_SC_uint4_t_to_uint32_t : Z -> Z -> Z -> Z -> Z :=
  VEC_EXPR_NN_MAX_SC uint32_t 8 false uint8_t true.
Definition lib_VEC_MAXU_uint2_t_to_uint32_t : Z -> Z -> Z := VEC_EXPR_NN_MAX uint32_t 16 false uint8_t true.
Definition lib_VEC_MAXU_SC_uint2_t_to_uint32_t : Z -> Z -> Z -> Z -> Z :=
  VEC_EXPR_NN_MAX_SC uint32_t 16 false uint8_t true.
Definition lib_VEC_MIN_int4_t_to_int32_t : Z -> Z -> Z := VEC_EXPR_NN_MAX int32_t 8 true int8_t false.
Definition lib_VEC_MIN_SC_int4_t_to_int32_t : Z -> Z -> Z -> Z -> Z :=
  VEC_EXPR_NN_MAX_SC int32_t 8 true int8_t false.
Definition lib_VEC_MIN_int2_t_to_int32_t : Z -> Z -> Z := VEC_EXPR_NN_MAX int32_t 16 true int8_t false.
Definition lib_VEC_MIN_SC_int2_t_to_int32_t : Z -> Z -> Z -> Z -> Z :=
  VEC_EXPR_NN_MAX_SC int32_t 16 true int8_t false.
Definition lib_VEC_MINU_uint4_t_to_uint32_t : Z -> Z -> Z := VEC_EXPR_NN_MAX uint32_t 8 false uint8_t false.
Definition lib_VEC_MINU_SC_uint4_t_to_uint32_t : Z -> Z -> Z -> Z -> Z :=
  VEC_EXPR_NN_MAX_SC uint32_t 8 false uint8_t false.
Definition lib_VEC_MINU_uint2_t_to_uint32_t : Z -> Z -> Z := VEC_EXPR_NN_MAX uint32_t 16 false uint8_t false.
Definition lib_VEC_MINU_SC_uint2_t_to_uint32_t : Z -> Z -> Z -> Z -> Z :=
  VEC_EXPR_NN_MAX_SC uint32_t 16 false uint8_t false.
Definition lib_VEC_SRL_uint4_t_to_uint32_t : Z -> Z -> Z := VEC_EXPR_NN_SHIFT uint32_t 8 false uint8_t Z.shiftr.
Definition lib_VEC_SRL_SC_uint4_t_to_uint32_t : Z -> Z -> Z := VEC_EXPR_NN_SHIFT_SC uint32_t 8 false uint8_t Z.shiftr.
Definition lib_VEC_SRL_uint2_t_to_uint32_t : Z -> Z -> Z := VEC_EXPR_NN_SHIFT uint32_t 16 false uint8_t Z.shiftr.
Definition lib_VEC_SRL_SC_uint2_t_to_uint32_t : Z -> Z -> Z := VEC_EXPR_NN_SHIFT_SC uint32_t 16 false uint8_t Z.shiftr.
Definition lib_VEC_SRA_int4_t_to_int32_t : Z -> Z -> Z := VEC_EXPR_NN_SHIFT int32_t 8 true int8_t Z.shiftr.
Definition lib_VEC_SRA_SC_int4_t_to_int32_t : Z -> Z -> Z := VEC_EXPR_NN_SHIFT_SC int32_t 8 true int8_t Z.shiftr.
Definition lib_VEC_SRA_int2_t_to_int32_t : Z -> Z -> Z := VEC_EXPR_NN_SHIFT int32_t 16 true int8_t Z.shiftr.
Definition lib_VEC_SRA_SC_int2_t_to_int32_t : Z -> Z -> Z := VEC_EXPR_NN_SHIFT_SC int32_t 16 true int8_t Z.shiftr.
Definition lib_VEC_SLL_uint4_t_to_uint32_t : Z -> Z -> Z := VEC_EXPR_NN_SHIFT uint32_t 8 false uint8_t Z.shiftl.
Definition lib_VEC_SLL_SC_uint4_t_to_uint32_t : Z -> Z -> Z := VEC_EXPR_NN_SHIFT_SC uint32_t 8 false uint8_t Z.shiftl.
Definition lib_VEC_SLL_uint2_t_to_uint32_t : Z -> Z -> Z := VEC_EXPR_NN_SHIFT uint32_t 16 false uint8_t Z.shiftl.
Definition lib_VEC_SLL_SC_uint2_t_to_uint32_t : Z -> Z -> Z := VEC_EXPR_NN_SHIFT_SC uint32_t 16 false uint8_t Z.shiftl.

(** ** Types of the elements *)

Definition int4_t := IType true 4.
Definition uint4_t := IType false 4.
Definition int2_t := IType true 2.
Definition uint2_t := IType false 2.

(** ** Sub-byte elements of a word

    [parts e m b] are the [m] elements of type [e] of a byte. *)
Definition parts (e : itype) (m : nat) (b : Z) : list Z :=
  (fun j => conv e (Z.shiftr b (iwidth e * Z.of_nat j))) <$> seq 0 m.

Lemma lane_lane w m x i j :
  0 < w -> 0 <= i -> 0 <= j < m -> lane w (lane (w * m) x i) j = lane w x (i * m + j).
Proof.
  intros Hw Hi Hj. unfold lane. apply Z.bits_inj'. intros k Hk.
  rewrite !uw_testbit, !Z.shiftr_spec, uw_testbit, Z.shiftr_spec by nia.
  destruct (Z.ltb_spec k w); [|done]. cbn [andb]. rewrite (proj2 (Z.ltb_lt _ _)) by nia.
  cbn [andb]. f_equal. ring.
Qed.

Lemma elems_lane e n x :
  0 < iwidth e -> elems e n x = (fun i => conv e (lane (iwidth e) x (Z.of_nat i))) <$> seq 0 n.
Proof.
  intros He. unfold elems. rewrite lanes_lane by done. by rewrite <- !list_fmap_compose.
Qed.

Lemma conv_lane e w x i :
  0 < iwidth e -> conv e (lane (iwidth e) x i) = conv e (Z.shiftr x (iwidth e * i)) /\
  (iwidth e <= w -> conv e (lane w x i) = conv e (Z.shiftr x (w * i))).
Proof.
  intros He. unfold lane. split; [by apply conv_uw; lia|]. intros Hw.
  apply conv_eqm. unfold eqm. by rewrite uw_uw_le by lia.
Qed.

Definition byte_type (t : itype) : Prop := iwidth t = 8.

(** The elements of a word are those of its bytes. *)
Lemma elems_parts e t m x :
  byte_type t -> 0 < iwidth e -> (m = 2%nat /\ iwidth e = 4 \/ m = 4%nat /\ iwidth e = 2) ->
  elems e (4 * m) x = concat (parts e m <$> elems t 4 x).
Proof.
  intros Ht He Hm.
  assert (Hp : forall (i j : nat), (j < m)%nat ->
    conv e (lane (iwidth e) x (Z.of_nat (i * m + j))) =
    conv e (Z.shiftr (conv t (lane 8 x (Z.of_nat i))) (iwidth e * Z.of_nat j))).
  { intros i j Hj. assert (E8 : 8 = iwidth e * Z.of_nat m) by lia.
    replace (Z.of_nat (i * m + j)) with (Z.of_nat i * Z.of_nat m + Z.of_nat j) by lia.
    rewrite <- lane_lane by lia. rewrite <- E8. unfold lane at 1. rewrite conv_uw by lia.
    apply conv_eqm. unfold eqm. apply Z.bits_inj'. intros k Hk.
    rewrite !uw_testbit, !Z.shiftr_spec by nia. destruct (Z.ltb_spec k (iwidth e)); [|done]. cbn [andb].
    assert (Hlt : k + iwidth e * Z.of_nat j < 8) by nia.
    pose proof (eqm_conv t (lane 8 x (Z.of_nat i))) as Eq. rewrite Ht in Eq. unfold eqm in Eq.
    specialize (Eq ltac:(lia)).
    rewrite <- (Z.mod_pow2_bits_low (lane 8 x (Z.of_nat i)) 8) by nia.
    rewrite <- (Z.mod_pow2_bits_low (conv t _) 8) by nia. unfold uw in Eq. by rewrite Eq. }
  rewrite !elems_lane by (rewrite ?Ht; lia). rewrite Ht. unfold parts.
  destruct Hm as [[-> Hw]|[-> Hw]]; cbn [seq fmap list_fmap concat app Nat.mul Nat.add];
    by rewrite <- !Hp by lia.
Qed.

Lemma conv_parts e t m l :
  byte_type t -> 0 < iwidth e -> iwidth e * Z.of_nat m = 8 ->
  concat (parts e m <$> (conv t <$> l)) = concat (parts e m <$> l).
Proof.
  intros Ht He Hm. f_equal. rewrite <- list_fmap_compose. apply list_fmap_ext. intros i b _.
  unfold compose, parts. apply list_fmap_ext. intros k j Hj. apply lookup_seq in Hj as [-> Hj].
  apply conv_eqm. unfold eqm. apply Z.bits_inj'. intros p Hp.
  rewrite !uw_testbit, !Z.shiftr_spec by nia. destruct (Z.ltb_spec p (iwidth e)); [|done]. cbn [andb].
  pose proof (eqm_conv t b) as Eq. rewrite Ht in Eq. specialize (Eq ltac:(lia)). unfold eqm, uw in Eq.
  rewrite <- (Z.mod_pow2_bits_low (conv t b) 8), <- (Z.mod_pow2_bits_low b 8) by nia. by rewrite Eq.
Qed.

(** Reading the small elements of a word stored byte by byte. *)
Lemma stored_parts ty t e m l :
  byte_type t -> fills ty t 4 -> 0 < iwidth e ->
  (m = 2%nat /\ iwidth e = 4 \/ m = 4%nat /\ iwidth e = 2) -> length l = 4%nat ->
  elems e (4 * m) (of_elems ty t l) = concat (parts e m <$> l).
Proof.
  intros Ht Hf He Hm Hl. rewrite (elems_parts e t) by done.
  assert (E : elems t 4 (of_elems ty t l) = conv t <$> l).
  { rewrite <- Hl. apply elems_of_elems. by rewrite Hl. }
  rewrite E. apply conv_parts; [done|done|lia].
Qed.

Lemma zip_with_concat {A B} (f : A -> A -> A) (F G : B -> list A) (H : B -> B -> list A) l k :
  (forall x y, length (F x) = length (G y)) -> length l = length k ->
  (forall x y, H x y = zip_with f (F x) (G y)) ->
  concat (zip_with H l k) = zip_with f (concat (F <$> l)) (concat (G <$> k)).
Proof.
  intros Hlen Hlk HH. revert k Hlk. induction l as [|x l IH]; intros [|y k] Hlk; try done.
  simpl in *. rewrite zip_with_app by done. rewrite HH. f_equal. apply IH. lia.
Qed.

(** An operation on bytes that works on their small elements is element-wise on the word. *)
Lemma parts_elementwise ty t ta tb e m (byte spec : Z -> Z -> Z) a b :
  byte_type t -> byte_type ta -> byte_type tb -> fills ty t 4 -> 0 < iwidth e ->
  (m = 2%nat /\ iwidth e = 4 \/ m = 4%nat /\ iwidth e = 2) ->
  (forall x y, parts e m (byte x y) = zip_with (fun u v => conv e (spec u v)) (parts e m x) (parts e m y)) ->
  elems e (4 * m) (of_elems ty t (zip_with byte (elems ta 4 a) (elems tb 4 b))) =
  zip_with (fun u v => conv e (spec u v)) (elems e (4 * m) a) (elems e (4 * m) b).
Proof.
  intros Ht Hta Htb Hf He Hm Hb.
  rewrite (stored_parts ty t e m) by (done || by rewrite length_zip_with, !length_elems).
  rewrite (elems_parts e ta m a), (elems_parts e tb m b) by done.
  rewrite (zip_with_post (parts e m) byte (fun x y => parts e m (byte x y))) by done.
  apply zip_with_concat; [|by rewrite !length_elems|done].
  intros. unfold parts. by rewrite !length_fmap.
Qed.

(** ** What the unpacking and the packing compute *)

Lemma nibble_spec t signed x sh :
  (t = int8_t \/ t = uint8_t /\ signed = false) ->
  nibble t signed x sh = conv (IType signed 4) (Z.shiftr x sh).
Proof.
  intros Ht. unfold nibble.
  assert (E : Z.land (Z.shiftr x sh) 0x0F = uw 4 (Z.shiftr x sh)) by by apply (uw_land 4).
  rewrite !E. clear E.
  rewrite <- (conv_uw (IType signed 4)) by (simpl; lia). simpl iwidth.
  pose proof (uw_range 4 (Z.shiftr x sh) ltac:(lia)) as Hr.
  set (v := uw 4 (Z.shiftr x sh)) in *. clearbody v. change (2 ^ 4) with 16 in Hr.
  assert (Hv : v ∈ (Z.of_nat <$> seq 0 16)).
  { apply list_elem_of_fmap. exists (Z.to_nat v). split; [lia|]. apply elem_of_seq. lia. }
  revert v Hv Hr. refine (proj1 (Forall_forall _ _) _).
  destruct Ht as [->|[-> ->]]; [destruct signed|];
    (repeat apply Forall_cons_2; [..|apply Forall_nil_2]; intros _; vm_compute; reflexivity).
Qed.

Lemma crumb_spec t signed x sh :
  (t = int8_t \/ t = uint8_t /\ signed = false) ->
  crumb t signed x sh = conv (IType signed 2) (Z.shiftr x sh).
Proof.
  intros Ht. unfold crumb.
  assert (E : Z.land (Z.shiftr x sh) 0x03 = uw 2 (Z.shiftr x sh)) by by apply (uw_land 2).
  rewrite !E. clear E.
  rewrite <- (conv_uw (IType signed 2)) by (simpl; lia). simpl iwidth.
  pose proof (uw_range 2 (Z.shiftr x sh) ltac:(lia)) as Hr.
  set (v := uw 2 (Z.shiftr x sh)) in *. clearbody v. change (2 ^ 2) with 4 in Hr.
  assert (Hv : v ∈ (Z.of_nat <$> seq 0 4)).
  { apply list_elem_of_fmap. exists (Z.to_nat v). split; [lia|]. apply elem_of_seq. lia. }
  revert v Hv Hr. refine (proj1 (Forall_forall _ _) _).
  destruct Ht as [->|[-> ->]]; [destruct signed|];
    (repeat apply Forall_cons_2; [..|apply Forall_nil_2]; intros _; vm_compute; reflexivity).
Qed.

(** Resolves the selections [if i =? k then x else 0] of [lane_shl]. *)
Ltac decide_lanes :=
  repeat match goal with
  | |- context [if Z.of_nat ?i =? ?k then ?a else 0] =>
      first [ change (if Z.of_nat i =? k then a else 0) with a
            | change (if Z.of_nat i =? k then a else 0) with 0 ]
  end.

Lemma conv_uw' s w z : 0 <= w -> conv (IType s w) (uw w z) = conv (IType s w) z.
Proof. apply (conv_uw (IType s w)). Qed.

(** The elements of a byte packed from its elements. *)
Lemma parts_lanes s w m x :
  0 < w -> parts (IType s w) m x = (fun i => conv (IType s w) (lane w x (Z.of_nat i))) <$> seq 0 m.
Proof.
  intros Hw. unfold parts. apply list_fmap_ext. intros _ j _. unfold lane. simpl iwidth.
  by rewrite conv_uw' by lia.
Qed.

Lemma parts_pack_nibbles s o0 o1 :
  parts (IType s 4) 2 (pack_nibbles o0 o1) = [conv (IType s 4) o0; conv (IType s 4) o1].
Proof.
  rewrite parts_lanes by lia. cbn [seq fmap list_fmap]. unfold pack_nibbles.
  change 0x0F with (Z.ones 4). rewrite !uw_land by lia.
  rewrite <- (Z.shiftl_0_r (uw 4 o0)).
  change (Z.shiftl (uw 4 o0) 0) with (Z.shiftl (uw 4 o0) (4 * 0)).
  change (Z.shiftl (uw 4 o1) 4) with (Z.shiftl (uw 4 o1) (4 * 1)).
  rewrite !lane_lor, !lane_shl by (lia || (apply uw_range; lia)).
  decide_lanes. rewrite ?Z.lor_0_r, ?Z.lor_0_l. by rewrite !conv_uw' by lia.
Qed.

Lemma parts_pack_crumbs s o0 o1 o2 o3 :
  parts (IType s 2) 4 (pack_crumbs o0 o1 o2 o3) =
  [conv (IType s 2) o0; conv (IType s 2) o1; conv (IType s 2) o2; conv (IType s 2) o3].
Proof.
  rewrite parts_lanes by lia. cbn [seq fmap list_fmap]. unfold pack_crumbs.
  change 0x03 with (Z.ones 2). rewrite !uw_land by lia.
  rewrite <- (Z.shiftl_0_r (uw 2 o0)).
  change (Z.shiftl (uw 2 o0) 0) with (Z.shiftl (uw 2 o0) (2 * 0)).
  change (Z.shiftl (uw 2 o1) 2) with (Z.shiftl (uw 2 o1) (2 * 1)).
  change (Z.shiftl (uw 2 o2) 4) with (Z.shiftl (uw 2 o2) (2 * 2)).
  change (Z.shiftl (uw 2 o3) 6) with (Z.shiftl (uw 2 o3) (2 * 3)).
  rewrite !lane_lor, !lane_shl by (lia || (apply uw_range; lia)).
  decide_lanes. rewrite ?Z.lor_0_r, ?Z.lor_0_l. by rewrite !conv_uw' by lia.
Qed.

(** Masking after the shift is masking before it. *)
Lemma mask_after h k w :
  0 <= k -> 0 <= w -> Z.land (Z.shiftl h k) (Z.shiftl (Z.ones w) k) = Z.shiftl (Z.land h (Z.ones w)) k.
Proof. intros. by rewrite Z.shiftl_land. Qed.

Lemma pack_nibbles_alt l h :
  Z.lor (Z.land l 0x0F) (Z.land (Z.shiftl h 4) 0xF0) = pack_nibbles l h.
Proof. unfold pack_nibbles. change 0xF0 with (Z.shiftl (Z.ones 4) 4). by rewrite mask_after. Qed.

Lemma pack_crumbs_alt l ml mh h :
  Z.lor (Z.lor (Z.lor (Z.land l 0x03) (Z.land (Z.shiftl ml 2) 0x0C))
    (Z.land (Z.shiftl mh 4) 0x30)) (Z.land (Z.shiftl h 6) 0xC0) = pack_crumbs l ml mh h.
Proof.
  unfold pack_crumbs. change 0x0C with (Z.shiftl (Z.ones 2) 2). change 0x30 with (Z.shiftl (Z.ones 2) 4).
  change 0xC0 with (Z.shiftl (Z.ones 2) 6). by rewrite !mask_after.
Qed.

(** ** Tables of the instances *)

Definition nn_table : list simd_op := [
  SimdOp lib_VEC_ADD_int4_t_to_int32_t int4_t 8 Z.add;
  SimdOp lib_VEC_ADD_int2_t_to_int32_t int2_t 16 Z.add;
  SimdOp lib_VEC_SUB_int4_t_to_int32_t int4_t 8 Z.sub;
  SimdOp lib_VEC_SUB_int2_t_to_int32_t int2_t 16 Z.sub;
  SimdOp lib_VEC_OR_int4_t_to_int32_t int4_t 8 Z.lor;
  SimdOp lib_VEC_OR_int2_t_to_int32_t int2_t 16 Z.lor;
  SimdOp lib_VEC_XOR_int4_t_to_int32_t int4_t 8 Z.lxor;
  SimdOp lib_VEC_XOR_int2_t_to_int32_t int2_t 16 Z.lxor;
  SimdOp lib_VEC_AND_int4_t_to_int32_t int4_t 8 Z.land;
  SimdOp lib_VEC_AND_int2_t_to_int32_t int2_t 16 Z.land;
  SimdOp lib_VEC_AVG_int4_t_to_int32_t int4_t 8 (fun x y => (x + y) / 2);
  SimdOp lib_VEC_AVG_int2_t_to_int32_t int2_t 16 (fun x y => (x + y) / 2);
  SimdOp lib_VEC_AVGU_uint4_t_to_uint32_t uint4_t 8 (fun x y => (x + y) / 2);
  SimdOp lib_VEC_AVGU_uint2_t_to_uint32_t uint2_t 16 (fun x y => (x + y) / 2);
  SimdOp lib_VEC_MAX_int4_t_to_int32_t int4_t 8 Z.max;
  SimdOp lib_VEC_MAX_int2_t_to_int32_t int2_t 16 Z.max;
  SimdOp lib_VEC_MAXU_uint4_t_to_uint32_t uint4_t 8 Z.max;
  SimdOp lib_VEC_MAXU_uint2_t_to_uint32_t uint2_t 16 Z.max;
  SimdOp lib_VEC_MIN_int4_t_to_int32_t int4_t 8 Z.min;
  SimdOp lib_VEC_MIN_int2_t_to_int32_t int2_t 16 Z.min;
  SimdOp lib_VEC_MINU_uint4_t_to_uint32_t uint4_t 8 Z.min;
  SimdOp lib_VEC_MINU_uint2_t_to_uint32_t uint2_t 16 Z.min;
  SimdOp lib_VEC_SRL_uint4_t_to_uint32_t uint4_t 8 (fun x y => x / 2 ^ (y mod 4));
  SimdOp lib_VEC_SRL_uint2_t_to_uint32_t uint2_t 16 (fun x y => x / 2 ^ (y mod 2));
  SimdOp lib_VEC_SRA_int4_t_to_int32_t int4_t 8 (fun x y => x / 2 ^ (y mod 4));
  SimdOp lib_VEC_SRA_int2_t_to_int32_t int2_t 16 (fun x y => x / 2 ^ (y mod 2));
  SimdOp lib_VEC_SLL_uint4_t_to_uint32_t uint4_t 8 (fun x y => x * 2 ^ (y mod 4));
  SimdOp lib_VEC_SLL_uint2_t_to_uint32_t uint2_t 16 (fun x y => x * 2 ^ (y mod 2))
].

Definition nn_sc_table : list simd_op := [
  SimdOp lib_VEC_ADD_SC_int4_t_to_int32_t int4_t 8 Z.add;
  SimdOp lib_VEC_ADD_SC_int2_t_to_int32_t int2_t 16 Z.add;
  SimdOp lib_VEC_SUB_SC_int4_t_to_int32_t int4_t 8 Z.sub;
  SimdOp lib_VEC_SUB_SC_int2_t_to_int32_t int2_t 16 Z.sub;
  SimdOp lib_VEC_OR_SC_int4_t_to_int32_t int4_t 8 Z.lor;
  SimdOp lib_VEC_OR_SC_int2_t_to_int32_t int2_t 16 Z.lor;
  SimdOp lib_VEC_XOR_SC_int4_t_to_int32_t int4_t 8 Z.lxor;
  SimdOp lib_VEC_XOR_SC_int2_t_to_int32_t int2_t 16 Z.lxor;
  SimdOp lib_VEC_AND_SC_int4_t_to_int32_t int4_t 8 Z.land;
  SimdOp lib_VEC_AND_SC_int2_t_to_int32_t int2_t 16 Z.land;
  SimdOp lib_VEC_AVG_SC_int4_t_to_int32_t int4_t 8 (fun x y => (x + y) / 2);
  SimdOp lib_VEC_AVG_SC_int2_t_to_int32_t int2_t 16 (fun x y => (x + y) / 2);
  SimdOp lib_VEC_AVGU_SC_uint4_t_to_uint32_t uint4_t 8 (fun x y => (x + y) / 2);
  SimdOp lib_VEC_AVGU_SC_uint2_t_to_uint32_t uint2_t 16 (fun x y => (x + y) / 2);
  SimdOp (lib_VEC_MAX_SC_int4_t_to_int32_t 0 0) int4_t 8 Z.max;
  SimdOp (lib_VEC_MAXU_SC_uint4_t_to_uint32_t 0 0) uint4_t 8 Z.max;
  SimdOp (lib_VEC_MIN_SC_int4_t_to_int32_t 0 0) int4_t 8 Z.min;
  SimdOp (lib_VEC_MINU_SC_uint4_t_to_uint32_t 0 0) uint4_t 8 Z.min;
  SimdOp lib_VEC_SRL_SC_uint4_t_to_uint32_t uint4_t 8 (fun x y => x / 2 ^ (y mod 4));
  SimdOp lib_VEC_SRL_SC_uint2_t_to_uint32_t uint2_t 16 (fun x y => x / 2 ^ (y mod 2));
  SimdOp lib_VEC_SRA_SC_int4_t_to_int32_t int4_t 8 (fun x y => x / 2 ^ (y mod 4));
  SimdOp lib_VEC_SRA_SC_int2_t_to_int32_t int2_t 16 (fun x y => x / 2 ^ (y mod 2));
  SimdOp lib_VEC_SLL_SC_uint4_t_to_uint32_t uint4_t 8 (fun x y => x * 2 ^ (y mod 4));
  SimdOp lib_VEC_SLL_SC_uint2_t_to_uint32_t uint2_t 16 (fun x y => x * 2 ^ (y mod 2))
].

Definition nn_dot_table : list dot_op := [
  DotOp int32_t int4_t int4_t 8
    lib_VEC_DOTSP_4 lib_VEC_DOTSP_SC_4 lib_VEC_SDOTSP_4 lib_VEC_SDOTSP_SC_4;
  DotOp int32_t int2_t int2_t 16
    lib_VEC_DOTSP_2 lib_VEC_DOTSP_SC_2 lib_VEC_SDOTSP_2 lib_VEC_SDOTSP_SC_2;
  DotOp uint32_t uint4_t uint4_t 8
    lib_VEC_DOTUP_4 lib_VEC_DOTUP_SC_4 lib_VEC_SDOTUP_4 lib_VEC_SDOTUP_SC_4;
  DotOp uint32_t uint2_t uint2_t 16
    lib_VEC_DOTUP_2 lib_VEC_DOTUP_SC_2 lib_VEC_SDOTUP_2 lib_VEC_SDOTUP_SC_2;
  DotOp int32_t uint4_t int4_t 8
    lib_VEC_DOTUSP_4 lib_VEC_DOTUSP_SC_4 lib_VEC_SDOTUSP_4 lib_VEC_SDOTUSP_SC_4;
  DotOp int32_t uint2_t int2_t 16
    lib_VEC_DOTUSP_2 lib_VEC_DOTUSP_SC_2 lib_VEC_SDOTUSP_2 lib_VEC_SDOTUSP_SC_2
].

(** ** Properties *)

Lemma conv_conv8 s w t z :
  (t = int8_t \/ t = uint8_t /\ s = false) -> 0 < w <= 8 ->
  conv (IType s w) (conv t z) = conv (IType s w) z.
Proof.
  intros Ht Hw. apply conv_eqm. apply (uw_conv t (IType s w) z); simpl; [lia|].
  destruct Ht as [->|[-> _]]; simpl; lia.
Qed.

(** Shift counts are taken modulo the element width. *)
Lemma count_mod s w y :
  (w = 4 \/ w = 2) -> conv (IType s w) y mod w = y mod w.
Proof.
  intros Hw. destruct (sw_spec w y ltac:(lia)) as [k Hk].
  assert (E : exists k', conv (IType s w) y = y + k' * w).
  { unfold conv; simpl. destruct s.
    - rewrite Hk. destruct Hw as [->| ->]; [exists (k * 4)|exists (k * 2)]; ring.
    - unfold uw. destruct Hw as [->| ->]; [exists (- (y / 2 ^ 4) * 4)|exists (- (y / 2 ^ 2) * 2)];
        pose proof (Z.div_mod y (2 ^ 4)); pose proof (Z.div_mod y (2 ^ 2)); lia. }
  destruct E as [k' ->]. by rewrite Z.mod_add by lia.
Qed.

Lemma nn_byte_nibbles s t (f : Z -> Z -> Z) spec x y :
  (t = int8_t \/ t = uint8_t /\ s = false) ->
  (forall u v, conv (IType s 4) (f u v) = conv (IType s 4) (spec u v)) ->
  parts (IType s 4) 2 (pack_nibbles (f (nibble t s x 0) (nibble t s y 0)) (f (nibble t s x 4) (nibble t s y 4))) =
  zip_with (fun u v => conv (IType s 4) (spec u v)) (parts (IType s 4) 2 x) (parts (IType s 4) 2 y).
Proof.
  intros Ht Hf. rewrite parts_pack_nibbles, !nibble_spec, !Hf by done.
  unfold parts. cbn [seq fmap list_fmap zip_with iwidth]. done.
Qed.

Lemma nn_byte_crumbs s t (f : Z -> Z -> Z) spec x y :
  (t = int8_t \/ t = uint8_t /\ s = false) ->
  (forall u v, conv (IType s 2) (f u v) = conv (IType s 2) (spec u v)) ->
  parts (IType s 2) 4 (pack_crumbs (f (crumb t s x 0) (crumb t s y 0)) (f (crumb t s x 2) (crumb t s y 2))
                          (f (crumb t s x 4) (crumb t s y 4)) (f (crumb t s x 6) (crumb t s y 6))) =
  zip_with (fun u v => conv (IType s 2) (spec u v)) (parts (IType s 2) 4 x) (parts (IType s 2) 4 y).
Proof.
  intros Ht Hf. rewrite parts_pack_crumbs, !crumb_spec, !Hf by done.
  unfold parts. cbn [seq fmap list_fmap zip_with iwidth]. done.
Qed.

(** Each macro is element-wise. *)
Section Elementwise.
Context (ty : itype) (s : bool) (t : itype) (a b : Z).
Hypothesis Hf : fills ty t 4.
Hypothesis Ht : t = int8_t \/ t = uint8_t /\ s = false.

Lemma byte_t : byte_type t.
Proof. by destruct Ht as [->|[-> _]]. Qed.

Lemma elementwise_nibbles tb byte spec :
  byte_type tb ->
  (forall x y, parts (IType s 4) 2 (byte x y) =
     zip_with (fun u v => conv (IType s 4) (spec u v)) (parts (IType s 4) 2 x) (parts (IType s 4) 2 y)) ->
  elems (IType s 4) 8 (of_elems ty t (zip_with byte (elems t 4 a) (elems tb 4 b))) =
  zip_with (fun u v => conv (IType s 4) (spec u v)) (elems (IType s 4) 8 a) (elems (IType s 4) 8 b).
Proof.
  intros Htb. apply (parts_elementwise ty t t tb (IType s 4) 2); try done; try apply byte_t.
  by left.
Qed.

Lemma elementwise_crumbs tb byte spec :
  byte_type tb ->
  (forall x y, parts (IType s 2) 4 (byte x y) =
     zip_with (fun u v => conv (IType s 2) (spec u v)) (parts (IType s 2) 4 x) (parts (IType s 2) 4 y)) ->
  elems (IType s 2) 16 (of_elems ty t (zip_with byte (elems t 4 a) (elems tb 4 b))) =
  zip_with (fun u v => conv (IType s 2) (spec u v)) (elems (IType s 2) 16 a) (elems (IType s 2) 16 b).
Proof.
  intros Htb. apply (parts_elementwise ty t t tb (IType s 2) 4); try done; try apply byte_t.
  by right.
Qed.

Lemma avg_nibbles :
  elems (IType s 4) 8 (VEC_EXPR_NN_AVG ty 8 s t a b) =
  zip_with (fun u v => conv (IType s 4) ((u + v) / 2)) (elems (IType s 4) 8 a) (elems (IType s 4) 8 b).
Proof.
  apply (elementwise_nibbles t _ (fun u v => (u + v) / 2)); [apply byte_t|]. intros x y.
  apply (nn_byte_nibbles s t (fun u v => conv t (Z.shiftr (u + v) 1))); [done|].
  intros u v. rewrite conv_conv8 by (done || lia). by rewrite Z.shiftr_div_pow2.
Qed.

Lemma avg_crumbs :
  elems (IType s 2) 16 (VEC_EXPR_NN_AVG ty 16 s t a b) =
  zip_with (fun u v => conv (IType s 2) ((u + v) / 2)) (elems (IType s 2) 16 a) (elems (IType s 2) 16 b).
Proof.
  apply (elementwise_crumbs t _ (fun u v => (u + v) / 2)); [apply byte_t|]. intros x y.
  apply (nn_byte_crumbs s t (fun u v => conv t (Z.shiftr (u + v) 1))); [done|].
  intros u v. rewrite conv_conv8 by (done || lia). by rewrite Z.shiftr_div_pow2.
Qed.

Lemma nn_max_spec (oper : bool) u v : nn_max oper u v = if oper then Z.max u v else Z.min u v.
Proof. unfold nn_max. rewrite Z.gtb_ltb. destruct (Z.ltb_spec v u), oper; lia. Qed.

Lemma max_nibbles (oper : bool) :
  elems (IType s 4) 8 (VEC_EXPR_NN_MAX ty 8 s t oper a b) =
  zip_with (fun u v => conv (IType s 4) (if oper then Z.max u v else Z.min u v))
    (elems (IType s 4) 8 a) (elems (IType s 4) 8 b).
Proof.
  apply (elementwise_nibbles t _ (fun u v => if oper then Z.max u v else Z.min u v)); [apply byte_t|].
  intros x y. apply (nn_byte_nibbles s t (nn_max oper)); [done|]. intros u v. by rewrite nn_max_spec.
Qed.

Lemma max_crumbs (oper : bool) :
  elems (IType s 2) 16 (VEC_EXPR_NN_MAX ty 16 s t oper a b) =
  zip_with (fun u v => conv (IType s 2) (if oper then Z.max u v else Z.min u v))
    (elems (IType s 2) 16 a) (elems (IType s 2) 16 b).
Proof.
  apply (elementwise_crumbs t _ (fun u v => if oper then Z.max u v else Z.min u v)); [apply byte_t|].
  intros x y. apply (nn_byte_crumbs s t (nn_max oper)); [done|]. intros u v. by rewrite nn_max_spec.
Qed.

(** The count of a shift is read from the raw byte. *)
Lemma count_nibble y sh : Z.land (Z.land (Z.shiftr y sh) 0x0F) 0x3 = conv (IType s 4) (Z.shiftr y sh) mod 4.
Proof.
  rewrite count_mod by (by left). change 0x0F with (Z.ones 4). change 0x3 with (Z.ones 2).
  rewrite !uw_land, uw_uw_le by lia. done.
Qed.

Lemma count_crumb y sh : Z.land (Z.land (Z.shiftr y sh) 0x03) 0x1 = conv (IType s 2) (Z.shiftr y sh) mod 2.
Proof.
  rewrite count_mod by (by right). change 0x03 with (Z.ones 2). change 0x1 with (Z.ones 1).
  rewrite !uw_land, uw_uw_le by lia. done.
Qed.

Lemma shift_nibbles oper spec :
  (forall u n, 0 <= n -> oper u n = spec u n) ->
  elems (IType s 4) 8 (VEC_EXPR_NN_SHIFT ty 8 s t oper a b) =
  zip_with (fun u v => conv (IType s 4) (spec u (v mod 4))) (elems (IType s 4) 8 a) (elems (IType s 4) 8 b).
Proof.
  intros Ho. apply (elementwise_nibbles uint8_t _ (fun u v => spec u (v mod 4))); [done|]. intros x y.
  cbn [Z.eqb Pos.eqb]. rewrite parts_pack_nibbles, !nibble_spec by done.
  rewrite <- (Z.shiftr_0_r y) at 1. rewrite !count_nibble.
  rewrite !conv_conv8, !Ho by (done || lia || by apply Z.mod_pos_bound). done.
Qed.

Lemma shift_crumbs oper spec :
  (forall u n, 0 <= n -> oper u n = spec u n) ->
  elems (IType s 2) 16 (VEC_EXPR_NN_SHIFT ty 16 s t oper a b) =
  zip_with (fun u v => conv (IType s 2) (spec u (v mod 2))) (elems (IType s 2) 16 a) (elems (IType s 2) 16 b).
Proof.
  intros Ho. apply (elementwise_crumbs uint8_t _ (fun u v => spec u (v mod 2))); [done|]. intros x y.
  cbn [Z.eqb Pos.eqb]. rewrite parts_pack_crumbs, !crumb_spec by done.
  rewrite <- (Z.shiftr_0_r y) at 1. rewrite !count_crumb.
  rewrite !conv_conv8, !Ho by (done || lia || by apply Z.mod_pos_bound). done.
Qed.
End Elementwise.

Lemma op_nibbles oper a b :
  elems int4_t 8 (VEC_OP_NN int32_t 8 oper a b) =
  zip_with (fun u v => conv int4_t (oper u v)) (elems int4_t 8 a) (elems int4_t 8 b).
Proof.
  apply (elementwise_nibbles int32_t true int8_t a b ltac:(by split) ltac:(by left) int8_t _ oper); [done|].
  intros x y. cbn [Z.eqb Pos.eqb]. rewrite pack_nibbles_alt.
  apply (nn_byte_nibbles true int8_t (fun u v => s8 (oper u v))); [by left|].
  intros u v. apply (conv_conv8 true 4 int8_t); [by left|lia].
Qed.

Lemma op_crumbs oper a b :
  elems int2_t 16 (VEC_OP_NN int32_t 16 oper a b) =
  zip_with (fun u v => conv int2_t (oper u v)) (elems int2_t 16 a) (elems int2_t 16 b).
Proof.
  apply (elementwise_crumbs int32_t true int8_t a b ltac:(by split) ltac:(by left) int8_t _ oper); [done|].
  intros x y. cbn [Z.eqb Pos.eqb]. rewrite pack_crumbs_alt.
  apply (nn_byte_crumbs true int8_t (fun u v => s8 (oper u v))); [by left|].
  intros u v. apply (conv_conv8 true 2 int8_t); [by left|lia].
Qed.

Lemma shiftr_pow u n : 0 <= n -> Z.shiftr u n = u / 2 ^ n.
Proof. apply Z.shiftr_div_pow2. Qed.

Lemma shiftl_pow u n : 0 <= n -> Z.shiftl u n = u * 2 ^ n.
Proof. apply Z.shiftl_mul_pow2. Qed.

Ltac nn_side := first [by left | by right].

(** The nibble and crumb instructions operate on each 4-bit or 2-bit element independently of
    the others, although the code works on bytes: sums, differences and bitwise operations modulo
    the element width, exact averages, maximum, minimum, and shifts by the count modulo the
    element width - for each of the 28 instances. *)
Theorem nn_lanewise :
  Forall (fun o => forall a b,
    elems (so_elem o) (so_n o) (so_fun o a b) =
    zip_with (fun x y => conv (so_elem o) (so_spec o x y))
      (elems (so_elem o) (so_n o) a) (elems (so_elem o) (so_n o) b)) nn_table.
Proof.
  unfold nn_table. repeat apply Forall_cons_2; [..|apply Forall_nil_2]; intros a b;
    cbn [so_fun so_elem so_n so_spec].
  - exact (op_nibbles Z.add a b).
  - exact (op_crumbs Z.add a b).
  - exact (op_nibbles Z.sub a b).
  - exact (op_crumbs Z.sub a b).
  - exact (op_nibbles Z.lor a b).
  - exact (op_crumbs Z.lor a b).
  - exact (op_nibbles Z.lxor a b).
  - exact (op_crumbs Z.lxor a b).
  - exact (op_nibbles Z.land a b).
  - exact (op_crumbs Z.land a b).
  - exact (avg_nibbles int32_t true int8_t a b ltac:(by split) ltac:(nn_side)).
  - exact (avg_crumbs int32_t true int8_t a b ltac:(by split) ltac:(nn_side)).
  - exact (avg_nibbles uint32_t false uint8_t a b ltac:(by split) ltac:(nn_side)).
  - exact (avg_crumbs uint32_t false uint8_t a b ltac:(by split) ltac:(nn_side)).
  - exact (max_nibbles int32_t true int8_t a b ltac:(by split) ltac:(nn_side) true).
  - exact (max_crumbs int32_t true int8_t a b ltac:(by split) ltac:(nn_side) true).
  - exact (max_nibbles uint32_t false uint8_t a b ltac:(by split) ltac:(nn_side) true).
  - exact (max_crumbs uint32_t false uint8_t a b ltac:(by split) ltac:(nn_side) true).
  - exact (max_nibbles int32_t true int8_t a b ltac:(by split) ltac:(nn_side) false).
  - exact (max_crumbs int32_t true int8_t a b ltac:(by split) ltac:(nn_side) false).
  - exact (max_nibbles uint32_t false uint8_t a b ltac:(by split) ltac:(nn_side) false).
  - exact (max_crumbs uint32_t false uint8_t a b ltac:(by split) ltac:(nn_side) false).
  - exact (shift_nibbles uint32_t false uint8_t a b ltac:(by split) ltac:(nn_side) Z.shiftr _ shiftr_pow).
  - exact (shift_crumbs uint32_t false uint8_t a b ltac:(by split) ltac:(nn_side) Z.shiftr _ shiftr_pow).
  - exact (shift_nibbles int32_t true int8_t a b ltac:(by split) ltac:(nn_side) Z.shiftr _ shiftr_pow).
  - exact (shift_crumbs int32_t true int8_t a b ltac:(by split) ltac:(nn_side) Z.shiftr _ shiftr_pow).
  - exact (shift_nibbles uint32_t false uint8_t a b ltac:(by split) ltac:(nn_side) Z.shiftl _ shiftl_pow).
  - exact (shift_crumbs uint32_t false uint8_t a b ltac:(by split) ltac:(nn_side) Z.shiftl _ shiftl_pow).
Qed.

(** ** The forms with a scalar operand *)

(** An operation on bytes that maps their small elements. *)
Lemma parts_mapwise ty t ta e m (byte g : Z -> Z) a :
  byte_type t -> byte_type ta -> fills ty t 4 -> 0 < iwidth e ->
  (m = 2%nat /\ iwidth e = 4 \/ m = 4%nat /\ iwidth e = 2) ->
  (forall x, parts e m (byte x) = g <$> parts e m x) ->
  elems e (4 * m) (of_elems ty t (byte <$> elems ta 4 a)) = g <$> elems e (4 * m) a.
Proof.
  intros Ht Hta Hf He Hm Hb.
  rewrite (stored_parts ty t e m) by (done || by rewrite length_fmap, length_elems).
  rewrite (elems_parts e ta m a) by done. generalize (elems ta 4 a). intros l.
  induction l as [|x l IH]; [done|]. cbn [fmap list_fmap concat]. rewrite fmap_app, Hb. f_equal. exact IH.
Qed.

(** The first byte of the scalar operand holds its first element. *)
Lemma first_byte tb s w b :
  byte_type tb -> 0 < w <= 8 ->
  conv (IType s w) (default 0 (elems tb 4 b !! 0%nat)) = conv (IType s w) b.
Proof.
  intros Hb Hw. unfold byte_type in Hb. rewrite lookup_elems by lia. cbn [default from_option id].
  rewrite Hb, Z.mul_0_r, Z.shiftr_0_r. apply conv_eqm. apply (uw_conv tb (IType s w) b); simpl; lia.
Qed.

Section Scalar.
Context (ty : itype) (s : bool) (t : itype) (a b : Z).
Hypothesis Hf : fills ty t 4.
Hypothesis Ht : t = int8_t \/ t = uint8_t /\ s = false.

Lemma mapwise_nibbles (f : Z -> Z) g :
  (forall u, conv (IType s 4) (f u) = conv (IType s 4) (g u)) ->
  elems (IType s 4) 8 (of_elems ty t
    ((fun x => pack_nibbles (f (nibble t s x 0)) (f (nibble t s x 4))) <$> elems t 4 a)) =
  (fun u => conv (IType s 4) (g u)) <$> elems (IType s 4) 8 a.
Proof.
  intros E. apply (parts_mapwise ty t t (IType s 4) 2 _ (fun u => conv (IType s 4) (g u)));
    [by eapply byte_t|by eapply byte_t|done|simpl; lia|by left|].
  intros x. rewrite parts_pack_nibbles, !nibble_spec, !E by done. done.
Qed.

Lemma mapwise_crumbs (f : Z -> Z) g :
  (forall u, conv (IType s 2) (f u) = conv (IType s 2) (g u)) ->
  elems (IType s 2) 16 (of_elems ty t
    ((fun x => pack_crumbs (f (crumb t s x 0)) (f (crumb t s x 2)) (f (crumb t s x 4)) (f (crumb t s x 6)))
       <$> elems t 4 a)) =
  (fun u => conv (IType s 2) (g u)) <$> elems (IType s 2) 16 a.
Proof.
  intros E. apply (parts_mapwise ty t t (IType s 2) 4 _ (fun u => conv (IType s 2) (g u)));
    [by eapply byte_t|by eapply byte_t|done|simpl; lia|by right|].
  intros x. rewrite parts_pack_crumbs, !crumb_spec, !E by done. done.
Qed.

Let y : Z := default 0 (elems t 4 b !! 0%nat).
Lemma first_nibble : nibble t s y 0 = conv (IType s 4) b.
Proof. rewrite nibble_spec, Z.shiftr_0_r by done. apply first_byte; [by eapply byte_t|lia]. Qed.
Lemma first_crumb : crumb t s y 0 = conv (IType s 2) b.
Proof. rewrite crumb_spec, Z.shiftr_0_r by done. apply first_byte; [by eapply byte_t|lia]. Qed.

Lemma avg_nibbles_sc :
  elems (IType s 4) 8 (VEC_EXPR_NN_AVG_SC ty 8 s t a b) =
  (fun u => conv (IType s 4) ((u + conv (IType s 4) b) / 2)) <$> elems (IType s 4) 8 a.
Proof.
  unfold VEC_EXPR_NN_AVG_SC. cbv zeta. fold y. cbn [Z.eqb Pos.eqb]. rewrite first_nibble.
  apply (mapwise_nibbles (fun u => conv t (Z.shiftr (u + conv (IType s 4) b) 1))).
  intros u. rewrite conv_conv8 by (done || lia). by rewrite Z.shiftr_div_pow2.
Qed.

Lemma avg_crumbs_sc :
  elems (IType s 2) 16 (VEC_EXPR_NN_AVG_SC ty 16 s t a b) =
  (fun u => conv (IType s 2) ((u + conv (IType s 2) b) / 2)) <$> elems (IType s 2) 16 a.
Proof.
  unfold VEC_EXPR_NN_AVG_SC. cbv zeta. fold y. cbn [Z.eqb Pos.eqb]. rewrite first_crumb.
  apply (mapwise_crumbs (fun u => conv t (Z.shiftr (u + conv (IType s 2) b) 1))).
  intros u. rewrite conv_conv8 by (done || lia). by rewrite Z.shiftr_div_pow2.
Qed.

Lemma max_nibbles_sc (oper : bool) u2 u3 :
  elems (IType s 4) 8 (VEC_EXPR_NN_MAX_SC ty 8 s t oper u2 u3 a b) =
  (fun u => conv (IType s 4) (if oper then Z.max u (conv (IType s 4) b) else Z.min u (conv (IType s 4) b)))
    <$> elems (IType s 4) 8 a.
Proof.
  unfold VEC_EXPR_NN_MAX_SC. cbv zeta. fold y. cbn [Z.eqb Pos.eqb]. rewrite first_nibble.
  apply (mapwise_nibbles (fun u => nn_max oper u (conv (IType s 4) b))
           (fun u => if oper then Z.max u (conv (IType s 4) b) else Z.min u (conv (IType s 4) b))).
  intros u. by rewrite nn_max_spec.
Qed.

(** The scalar byte of a shift, read unsigned. *)
Let yu : Z := default 0 (elems uint8_t 4 b !! 0%nat).
Lemma count_first4 : Z.land (Z.land yu 0x0F) 0x3 = conv (IType s 4) b mod 4.
Proof.
  rewrite <- (Z.shiftr_0_r yu), (count_nibble s), Z.shiftr_0_r. f_equal. by apply first_byte.
Qed.
Lemma count_first2 : Z.land (Z.land yu 0x03) 0x1 = conv (IType s 2) b mod 2.
Proof.
  rewrite <- (Z.shiftr_0_r yu), (count_crumb s), Z.shiftr_0_r. f_equal. by apply first_byte.
Qed.

Lemma shift_nibbles_sc oper spec :
  (forall u n, 0 <= n -> oper u n = spec u n) ->
  elems (IType s 4) 8 (VEC_EXPR_NN_SHIFT_SC ty 8 s t oper a b) =
  (fun u => conv (IType s 4) (spec u (conv (IType s 4) b mod 4))) <$> elems (IType s 4) 8 a.
Proof.
  intros Ho. unfold VEC_EXPR_NN_SHIFT_SC. cbv zeta. fold yu. cbn [Z.eqb Pos.eqb]. rewrite count_first4.
  apply (mapwise_nibbles (fun u => conv t (oper u (conv (IType s 4) b mod 4)))
           (fun u => spec u (conv (IType s 4) b mod 4))).
  intros u. rewrite conv_conv8 by (done || lia). by rewrite Ho by by apply Z.mod_pos_bound.
Qed.

Lemma shift_crumbs_sc oper spec :
  (forall u n, 0 <= n -> oper u n = spec u n) ->
  elems (IType s 2) 16 (VEC_EXPR_NN_SHIFT_SC ty 16 s t oper a b) =
  (fun u => conv (IType s 2) (spec u (conv (IType s 2) b mod 2))) <$> elems (IType s 2) 16 a.
Proof.
  intros Ho. unfold VEC_EXPR_NN_SHIFT_SC. cbv zeta. fold yu. cbn [Z.eqb Pos.eqb]. rewrite count_first2.
  apply (mapwise_crumbs (fun u => conv t (oper u (conv (IType s 2) b mod 2)))
           (fun u => spec u (conv (IType s 2) b mod 2))).
  intros u. rewrite conv_conv8 by (done || lia). by rewrite Ho by by apply Z.mod_pos_bound.
Qed.
End Scalar.

Lemma op_nibbles_sc oper a b :
  elems int4_t 8 (VEC_OP_NN_SC int32_t 8 oper a b) =
  (fun u => conv int4_t (oper u (conv int4_t b))) <$> elems int4_t 8 a.
Proof.
  unfold VEC_OP_NN_SC. cbv zeta. cbn [Z.eqb Pos.eqb].
  rewrite (nibble_spec int8_t true b 0), Z.shiftr_0_r by by left. fold int4_t.
  rewrite (list_fmap_ext _ (fun x => pack_nibbles (s8 (oper (nibble int8_t true x 0) (conv int4_t b)))
      (s8 (oper (nibble int8_t true x 4) (conv int4_t b))))) by (intros; apply pack_nibbles_alt).
  apply (mapwise_nibbles int32_t true int8_t a ltac:(by split) ltac:(by left)
           (fun u => s8 (oper u (conv int4_t b))) (fun u => oper u (conv int4_t b))).
  intros u. apply (conv_conv8 true 4 int8_t); [by left|lia].
Qed.

Lemma op_crumbs_sc oper a b :
  elems int2_t 16 (VEC_OP_NN_SC int32_t 16 oper a b) =
  (fun u => conv int2_t (oper u (conv int2_t b))) <$> elems int2_t 16 a.
Proof.
  unfold VEC_OP_NN_SC. cbv zeta. cbn [Z.eqb Pos.eqb].
  rewrite (crumb_spec int8_t true b 0), Z.shiftr_0_r by by left. fold int2_t.
  rewrite (list_fmap_ext _ (fun x => pack_crumbs (s8 (oper (crumb int8_t true x 0) (conv int2_t b)))
      (s8 (oper (crumb int8_t true x 2) (conv int2_t b))) (s8 (oper (crumb int8_t true x 4) (conv int2_t b)))
      (s8 (oper (crumb int8_t true x 6) (conv int2_t b))))) by (intros; apply pack_crumbs_alt).
  apply (mapwise_crumbs int32_t true int8_t a ltac:(by split) ltac:(by left)
           (fun u => s8 (oper u (conv int2_t b))) (fun u => oper u (conv int2_t b))).
  intros u. apply (conv_conv8 true 2 int8_t); [by left|lia].
Qed.

(** The nibble and crumb instructions with a scalar operand apply the operation of the vector
    form between each element and element 0 of the scalar, for each of the 24 instances that have
    a defined result. *)
Theorem nn_scalar :
  Forall (fun o => forall a b,
    elems (so_elem o) (so_n o) (so_fun o a b) =
    (fun x => conv (so_elem o) (so_spec o x (conv (so_elem o) b))) <$> elems (so_elem o) (so_n o) a)
    nn_sc_table.
Proof.
  unfold nn_sc_table. repeat apply Forall_cons_2; [..|apply Forall_nil_2]; intros a b;
    cbn [so_fun so_elem so_n so_spec].
  - exact (op_nibbles_sc Z.add a b).
  - exact (op_crumbs_sc Z.add a b).
  - exact (op_nibbles_sc Z.sub a b).
  - exact (op_crumbs_sc Z.sub a b).
  - exact (op_nibbles_sc Z.lor a b).
  - exact (op_crumbs_sc Z.lor a b).
  - exact (op_nibbles_sc Z.lxor a b).
  - exact (op_crumbs_sc Z.lxor a b).
  - exact (op_nibbles_sc Z.land a b).
  - exact (op_crumbs_sc Z.land a b).
  - exact (avg_nibbles_sc int32_t true int8_t a b ltac:(by split) ltac:(nn_side)).
  - exact (avg_crumbs_sc int32_t true int8_t a b ltac:(by split) ltac:(nn_side)).
  - exact (avg_nibbles_sc uint32_t false uint8_t a b ltac:(by split) ltac:(nn_side)).
  - exact (avg_crumbs_sc uint32_t false uint8_t a b ltac:(by split) ltac:(nn_side)).
  - exact (max_nibbles_sc int32_t true int8_t a b ltac:(by split) ltac:(nn_side) true 0 0).
  - exact (max_nibbles_sc uint32_t false uint8_t a b ltac:(by split) ltac:(nn_side) true 0 0).
  - exact (max_nibbles_sc int32_t true int8_t a b ltac:(by split) ltac:(nn_side) false 0 0).
  - exact (max_nibbles_sc uint32_t false uint8_t a b ltac:(by split) ltac:(nn_side) false 0 0).
  - exact (shift_nibbles_sc uint32_t false uint8_t a b ltac:(by split) ltac:(nn_side) Z.shiftr _ shiftr_pow).
  - exact (shift_crumbs_sc uint32_t false uint8_t a b ltac:(by split) ltac:(nn_side) Z.shiftr _ shiftr_pow).
  - exact (shift_nibbles_sc int32_t true int8_t a b ltac:(by split) ltac:(nn_side) Z.shiftr _ shiftr_pow).
  - exact (shift_crumbs_sc int32_t true int8_t a b ltac:(by split) ltac:(nn_side) Z.shiftr _ shiftr_pow).
  - exact (shift_nibbles_sc uint32_t false uint8_t a b ltac:(by split) ltac:(nn_side) Z.shiftl _ shiftl_pow).
  - exact (shift_crumbs_sc uint32_t false uint8_t a b ltac:(by split) ltac:(nn_side) Z.shiftl _ shiftl_pow).
Qed.

(** ** Dot products *)

Definition sum_by {A} (g : A -> Z) (l : list A) : Z := foldr (fun x s => g x + s) 0 l.

Lemma fold_conv {A} t (g : A -> Z) l out :
  0 < iwidth t -> l <> [] ->
  fold_left (fun out x => conv t (out + g x)) l out = conv t (out + sum_by g l).
Proof.
  intros Ht. revert out. induction l as [|x l IH]; intros out Hne; [done|]. cbn [fold_left sum_by foldr].
  destruct l as [|x' l]; [cbn [fold_left foldr]; by rewrite Z.add_0_r|].
  rewrite IH by done. apply conv_eqm. rewrite (eqm_conv t (out + g x)) by done.
  fold (sum_by g (x' :: l)). by rewrite Z.add_assoc.
Qed.

Lemma sum_products_app l k : sum_products (l ++ k) = sum_products l + sum_products k.
Proof. induction l as [|p l IH]; cbn [app sum_products foldr]; [done|]. unfold sum_products in *. lia. Qed.

(** The products of the small elements, byte by byte. *)
Lemma sum_products_bytes (F G : Z -> list Z) l k :
  (forall x y, length (F x) = length (G y)) -> length l = length k ->
  sum_products (zip (concat (F <$> l)) (concat (G <$> k))) =
  sum_by (fun p => sum_products (zip (F p.1) (G p.2))) (zip l k).
Proof.
  intros Hlen. revert k. induction l as [|x l IH]; intros [|y k] Hl; try done.
  cbn [fmap list_fmap concat zip zip_with sum_by foldr]. rewrite zip_with_app by done.
  rewrite sum_products_app. simpl in Hl. f_equal. apply IH. lia.
Qed.

Lemma sum_products_scalar (F : Z -> list Z) c l :
  sum_products ((fun x => (x, c)) <$> concat (F <$> l)) =
  sum_by (fun x => sum_products ((fun u => (u, c)) <$> F x)) l.
Proof.
  induction l as [|x l IH]; [done|]. cbn [fmap list_fmap concat sum_by foldr].
  rewrite fmap_app, sum_products_app. f_equal. exact IH.
Qed.

Lemma sum_by_ext {A} (g h : A -> Z) l : (forall x, g x = h x) -> sum_by g l = sum_by h l.
Proof. intros E. induction l as [|x l IH]; [done|]. cbn [sum_by foldr]. unfold sum_by in *. by rewrite E, IH. Qed.

Lemma dotp_nibbles s1 s2 x y :
  dotp_byte 8 Z.mul s1 s2 x y = sum_products (zip (parts (IType s1 4) 2 x) (parts (IType s2 4) 2 y)).
Proof.
  unfold dotp_byte. cbn [Z.eqb Pos.eqb]. rewrite !nibble_spec by by left.
  unfold parts. cbn [seq fmap list_fmap zip zip_with sum_products foldr fst snd iwidth].
  change (4 * Z.of_nat 0) with 0. change (4 * Z.of_nat 1) with 4. ring.
Qed.

Lemma dotp_crumbs s1 s2 x y :
  dotp_byte 16 Z.mul s1 s2 x y = sum_products (zip (parts (IType s1 2) 4 x) (parts (IType s2 2) 4 y)).
Proof.
  unfold dotp_byte. cbn [Z.eqb Pos.eqb]. rewrite !crumb_spec by by left.
  unfold parts. cbn [seq fmap list_fmap zip zip_with sum_products foldr fst snd iwidth].
  change (2 * Z.of_nat 0) with 0. change (2 * Z.of_nat 1) with 2. change (2 * Z.of_nat 2) with 4.
  change (2 * Z.of_nat 3) with 6. ring.
Qed.

Lemma dotp_nibbles_sc s1 s2 x y :
  dotp_byte_sc 8 Z.mul s1 s2 x y =
  sum_products ((fun u => (u, conv (IType s2 4) y)) <$> parts (IType s1 4) 2 x).
Proof.
  unfold dotp_byte_sc. cbn [Z.eqb Pos.eqb]. rewrite !nibble_spec by by left. rewrite (Z.shiftr_0_r y).
  unfold parts. cbn [seq fmap list_fmap sum_products foldr fst snd iwidth].
  change (4 * Z.of_nat 0) with 0. change (4 * Z.of_nat 1) with 4. ring.
Qed.

Lemma dotp_crumbs_sc s1 s2 x y :
  dotp_byte_sc 16 Z.mul s1 s2 x y =
  sum_products ((fun u => (u, conv (IType s2 2) y)) <$> parts (IType s1 2) 4 x).
Proof.
  unfold dotp_byte_sc. cbn [Z.eqb Pos.eqb]. rewrite !crumb_spec by by left. rewrite (Z.shiftr_0_r y).
  unfold parts. cbn [seq fmap list_fmap sum_products foldr fst snd iwidth].
  change (2 * Z.of_nat 0) with 0. change (2 * Z.of_nat 1) with 2. change (2 * Z.of_nat 2) with 4.
  change (2 * Z.of_nat 3) with 6. ring.
Qed.

(** A row of the table, given what one byte contributes. *)
Lemma nn_dot_row t s1 s2 w m num acc a b :
  0 < iwidth t -> (m = 2%nat /\ w = 4 \/ m = 4%nat /\ w = 2) ->
  (forall x y, dotp_byte num Z.mul s1 s2 x y = sum_products (zip (parts (IType s1 w) m x) (parts (IType s2 w) m y))) ->
  (forall x y, dotp_byte_sc num Z.mul s1 s2 x y =
     sum_products ((fun u => (u, conv (IType s2 w) y)) <$> parts (IType s1 w) m x)) ->
  dot_spec (DotOp t (IType s1 w) (IType s2 w) (4 * m)
    (VEC_DOTP_NN t num Z.mul s1 s2) (VEC_DOTP_NN_SC t num Z.mul s1 s2)
    (VEC_SDOT_NN t num Z.mul s1 s2) (VEC_SDOT_NN_SC t num Z.mul s1 s2)) acc a b.
Proof.
  intros Ht Hm Hd Hs. assert (Hw : 0 < w <= 8) by lia.
  assert (Hv : forall out, fold_left (fun out p => conv t (out + dotp_byte num Z.mul s1 s2 p.1 p.2))
      (zip (elems int8_t 4 a) (elems int8_t 4 b)) out =
    conv t (out + sum_products (zip (elems (IType s1 w) (4 * m) a) (elems (IType s2 w) (4 * m) b)))).
  { intros out. rewrite (fold_conv t (fun p => dotp_byte num Z.mul s1 s2 p.1 p.2)) by done.
    do 2 f_equal. rewrite (elems_parts (IType s1 w) int8_t m a), (elems_parts (IType s2 w) int8_t m b) by (done || simpl; lia).
    rewrite sum_products_bytes.
    - apply sum_by_ext. intros [x y]. apply Hd.
    - intros. unfold parts. by rewrite !length_fmap.
    - by rewrite !length_elems. }
  set (y := default 0 (elems int8_t 4 b !! 0%nat)).
  assert (Hb0 : default 0 (elems (IType s2 w) (4 * m) b !! 0%nat) = conv (IType s2 w) y).
  { unfold y. rewrite first_byte by done. rewrite lookup_elems by (simpl; lia).
    cbn [default from_option id iwidth]. by rewrite Z.mul_0_r, Z.shiftr_0_r. }
  assert (Hsc : forall out, fold_left (fun out x => conv t (out + dotp_byte_sc num Z.mul s1 s2 x y))
      (elems int8_t 4 a) out =
    conv t (out + sum_products ((fun x => (x, conv (IType s2 w) y)) <$> elems (IType s1 w) (4 * m) a))).
  { intros out. rewrite (fold_conv t (fun x => dotp_byte_sc num Z.mul s1 s2 x y)) by done.
    do 2 f_equal. rewrite (elems_parts (IType s1 w) int8_t m a) by (done || simpl; lia).
    rewrite sum_products_scalar. apply sum_by_ext. intros x. apply Hs. }
  unfold dot_spec. cbn [do_out do_a do_b do_n do_dot do_dot_sc do_sdot do_sdot_sc]. rewrite Hb0.
  unfold VEC_DOTP_NN, VEC_DOTP_NN_SC, VEC_SDOT_NN, VEC_SDOT_NN_SC. cbv zeta. fold y.
  rewrite !Hv, !Hsc, !Z.add_0_l. done.
Qed.

(** The nibble and crumb dot products: each of the 24 instances is the sum of the products of the
    elements with their signedness, added to the accumulator in the SDOT forms and taken with
    element 0 of the second operand in the scalar forms, modulo 2^32. *)
Theorem nn_dot_products : Forall (fun o => forall acc a b, dot_spec o acc a b) nn_dot_table.
Proof.
  unfold nn_dot_table. repeat apply Forall_cons_2; [..|apply Forall_nil_2]; intros acc a b.
  - exact (nn_dot_row int32_t true true 4 2 8 acc a b ltac:(done) ltac:(by left) (dotp_nibbles _ _) (dotp_nibbles_sc _ _)).
  - exact (nn_dot_row int32_t true true 2 4 16 acc a b ltac:(done) ltac:(by right) (dotp_crumbs _ _) (dotp_crumbs_sc _ _)).
  - exact (nn_dot_row uint32_t false false 4 2 8 acc a b ltac:(done) ltac:(by left) (dotp_nibbles _ _) (dotp_nibbles_sc _ _)).
  - exact (nn_dot_row uint32_t false false 2 4 16 acc a b ltac:(done) ltac:(by right) (dotp_crumbs _ _) (dotp_crumbs_sc _ _)).
  - exact (nn_dot_row int32_t false true 4 2 8 acc a b ltac:(done) ltac:(by left) (dotp_nibbles _ _) (dotp_nibbles_sc _ _)).
  - exact (nn_dot_row int32_t false true 2 4 16 acc a b ltac:(done) ltac:(by right) (dotp_crumbs _ _) (dotp_crumbs_sc _ _)).
Qed.

(** ** The quantiser *)

Lemma count_prefix (P : nat -> Prop) `{!forall i, Decision (P i)} n j :
  (j <= n)%nat -> (forall i, (i < j)%nat -> P i) -> (forall i, (j <= i < n)%nat -> ~ P i) ->
  length (filter P (seq 0 n)) = j.
Proof.
  intros Hj Hp Hn. replace n with (j + (n - j))%nat by lia. rewrite seq_app, filter_app, length_app.
  rewrite (filter_all _ (seq 0 j)), (filter_none _ (seq (0 + j) (n - j))); [by rewrite length_seq; simpl; lia| |].
  - intros i Hi. apply elem_of_seq in Hi. apply Hn. lia.
  - intros i Hi. apply elem_of_seq in Hi. apply Hp. lia.
Qed.

(** lib_VEC_QNT_4 quantises to four bits: with thresholds in nondecreasing order its result is
    -8 plus the number of the 15 thresholds that are below the input. *)
Theorem quantiser_counts input pThr
    (Hsorted : forall i j, (i <= j < 15)%nat -> pThr i <= pThr j) :
  lib_VEC_QNT_4 input pThr =
  -8 + Z.of_nat (length (filter (fun i => pThr i < input) (seq 0 15))).
Proof.
  unfold lib_VEC_QNT_4.
  repeat match goal with |- context [if ?x <=? ?y then _ else _] => destruct (Z.leb_spec x y) end;
  match goal with |- ?r = _ =>
    rewrite (count_prefix (fun i => pThr i < input) 15 (Z.to_nat (r + 8)));
      [done|simpl; lia|intros i Hi|intros i Hi] end.
  all: simpl in Hi.
  all: match goal with
       | H : ?p ?k < ?x |- ?p ?i < ?x => pose proof (Hsorted i k ltac:(lia)); lia
       | H : ?x <= ?p ?k |- ~ ?p ?i < ?x => pose proof (Hsorted k i ltac:(lia)); lia
       | |- _ => lia
       end.
Qed.

Lemma quantiser_counts_witness :
  lib_VEC_QNT_4 25 (fun i => 10 * Z.of_nat i) =
  -8 + Z.of_nat (length (filter (fun i => 10 * Z.of_nat i < 25) (seq 0 15))).
Proof. apply (quantiser_counts 25 (fun i => 10 * Z.of_nat i)). intros i j Hij. lia. Defined.

(** ** The activation functions *)

Lemma operand_sign a : 0 <= a < 2 ^ 31 ->
  Z.land (Z.shiftr a 31) 1 = 0 /\ Z.land (Z.shiftr (u32 (Z.lnot a)) 31) 1 = 1 /\
  s32 a = a /\ s32 (Z.lnot (u32 (Z.lnot a))) = a.
Proof.
  intros Ha. change (2 ^ 31) with 2147483648 in Ha.
  assert (E : u32 (Z.lnot a) = 4294967295 - a).
  { unfold uw, Z.lnot. change (2 ^ 32) with 4294967296. by rewrite <- (Zmod_unique (Z.pred (- a)) 4294967296 (-1) (4294967295 - a)) by lia. }
  rewrite E, !Z.shiftr_div_pow2 by lia. change (2 ^ 31) with 2147483648.
  rewrite (Z.div_small a) by lia.
  rewrite <- (Z.div_unique (4294967295 - a) 2147483648 1 (2147483647 - a)) by lia.
  split; [done|]. split; [done|].
  split; unfold sw, uw, Z.lnot; change (2 ^ 32) with 4294967296; change (2 ^ (32 - 1)) with 2147483648.
  - rewrite Z.mod_small by lia. destruct (Z.ltb_spec a 2147483648); lia.
  - rewrite <- (Zmod_unique (Z.pred (- (4294967295 - a))) 4294967296 (-1) a) by lia.
    destruct (Z.ltb_spec a 2147483648); lia.
Qed.

(** One segment of the tables: the value of an operand of absolute value [a] in it. *)
Lemma segment a isSig m q :
  0 <= a < 16384 ->
  (if isSig =? 0 then lut_Tanh_m else lut_sig_m) !! Z.to_nat (a / 1024) = Some m ->
  (if isSig =? 0 then lut_Tanh_q else lut_sig_q) !! Z.to_nat (a / 1024) = Some q ->
  0 <= m * a + q < 2 ^ 31 ->
  lib_TANHorSIG a isSig = Some (u32 ((m * a + q) / 4096)) /\
  lib_TANHorSIG (u32 (Z.lnot a)) isSig =
    Some (u32 ((if isSig =? 1 then 4095 else 0) + Z.lnot ((m * a + q) / 4096))).
Proof.
  intros Ha Hm Hq Hr. destruct (operand_sign a ltac:(lia)) as (S0 & S1 & A0 & A1).
  assert (Hi : 0 <= a / 1024 < 16).
  { split; [apply Z.div_pos; lia|apply Z.div_lt_upper_bound; lia]. }
  assert (Ht : Z.shiftr a (13 - 3) = a / 1024) by (rewrite Z.shiftr_div_pow2 by lia; done).
  assert (Hu : u32 (a / 1024) = a / 1024) by (apply Z.mod_small; lia).
  assert (Hs : s32 (m * a + q) = m * a + q).
  { unfold sw, uw. rewrite Z.mod_small by lia. destruct (Z.ltb_spec (m * a + q) (2 ^ (32 - 1))); lia. }
  unfold lib_TANHorSIG. cbv zeta. rewrite S0, S1, A1. cbn [Z.eqb Pos.eqb]. rewrite A0, Ht, Hu.
  rewrite Z.geb_leb, (proj2 (Z.leb_gt _ _)) by lia. rewrite Hm, Hq, Hs.
  rewrite Z.shiftr_div_pow2 by lia. change (2 ^ 12) with 4096.
  rewrite andb_false_r, andb_true_r. split; [done|]. by destruct (isSig =? 1).
Qed.

(** The 16 segments of each table, found by the operand. *)
Ltac each_segment a :=
  assert (Hk : a / 1024 ∈ (Z.of_nat <$> seq 0 16)) by
    (apply list_elem_of_fmap; exists (Z.to_nat (a / 1024)); split;
      [rewrite Z2Nat.id; [done|apply Z.div_pos; lia]
      |apply elem_of_seq; assert (a / 1024 < 16) by (apply Z.div_lt_upper_bound; lia);
       assert (0 <= a / 1024) by (apply Z.div_pos; lia); lia]);
  let r := fresh "r" in
  pose proof (Z.div_mod a 1024 ltac:(lia)) as Hdm;
  pose proof (Z.mod_pos_bound a 1024 ltac:(lia)) as Hmb;
  remember (a / 1024) as k eqn:Ek;
  cbn [seq fmap list_fmap] in Hk; rewrite !elem_of_cons in Hk;
  repeat (destruct Hk as [->|Hk]; [|]); [..|by apply elem_of_nil in Hk].

Lemma tanh_segment a : 0 <= a < 16384 ->
  exists m q, lut_Tanh_m !! Z.to_nat (a / 1024) = Some m /\ lut_Tanh_q !! Z.to_nat (a / 1024) = Some q /\
    0 <= m * a + q < 16777216.
Proof.
  intros Ha. each_segment a; (eexists _, _; split; [reflexivity|]; split; [reflexivity|]; lia).
Qed.

Lemma sig_segment a : 0 <= a < 16384 ->
  exists m q, lut_sig_m !! Z.to_nat (a / 1024) = Some m /\ lut_sig_q !! Z.to_nat (a / 1024) = Some q /\
    8388608 <= m * a + q < 16777216.
Proof.
  intros Ha. each_segment a; (eexists _, _; split; [reflexivity|]; split; [reflexivity|]; lia).
Qed.

Lemma saturated a isSig : 16384 <= a < 2 ^ 31 -> 
  lib_TANHorSIG a isSig = Some 4096 /\
  lib_TANHorSIG (u32 (Z.lnot a)) isSig = Some (if isSig =? 0 then u32 (-4096) else 0).
Proof.
  intros Ha. destruct (operand_sign a ltac:(lia)) as (S0 & S1 & A0 & A1).
  assert (Ht : Z.shiftr a (13 - 3) = a / 1024) by (rewrite Z.shiftr_div_pow2 by lia; done).
  assert (Hl : 16 <= a / 1024) by (apply Z.div_le_lower_bound; lia).
  assert (Hh : a / 1024 < 2 ^ 31) by (apply Z.div_lt_upper_bound; lia).
  assert (Hu : u32 (a / 1024) = a / 1024) by (apply Z.mod_small; lia).
  unfold lib_TANHorSIG. cbv zeta. rewrite S0, S1, A1. cbn [Z.eqb Pos.eqb]. rewrite A0, Ht, Hu.
  rewrite Z.geb_leb, (proj2 (Z.leb_le _ _)) by lia. by destruct (isSig =? 0).
Qed.

(** lib_TANH and lib_SIG are defined on every operand (no table index is out of range) and
    stay in the range of the function, 1.0 being 4096: on a nonnegative 32-bit operand tanh is
    some t with 0 <= t <= 4096 and the sigmoid some g with 2048 <= g <= 4096; on its bitwise
    complement, tanh is the complement of t (and -4096, not -4097, in the saturated part), and
    the sigmoid is 4094 - g, where 1 - sigmoid would be 4096 - g (and 0 in the saturated part). *)
Theorem activation_range a (Ha : 0 <= a < 2 ^ 31) :
  exists t g,
    lib_TANH a = Some t /\ 0 <= t <= 4096 /\
    lib_TANH (u32 (Z.lnot a)) = Some (u32 (if a <? 16384 then Z.lnot t else - t)) /\
    lib_SIG a = Some g /\ 2048 <= g <= 4096 /\
    lib_SIG (u32 (Z.lnot a)) = Some (u32 (if a <? 16384 then 4094 - g else 4096 - g)).
Proof.
  unfold lib_TANH, lib_SIG. destruct (Z.ltb_spec a 16384) as [Hl|Hl].
  - destruct (tanh_segment a) as (m & q & Hm & Hq & Hr); [lia|].
    destruct (sig_segment a) as (m' & q' & Hm' & Hq' & Hr'); [lia|].
    destruct (segment a 0 m q) as [-> ->]; [lia|done|done|lia|].
    destruct (segment a 1 m' q') as [-> ->]; [lia|done|done|lia|].
    assert (B : 0 <= (m * a + q) / 4096 < 4096).
    { split; [apply Z.div_pos; lia|apply Z.div_lt_upper_bound; lia]. }
    assert (B' : 2048 <= (m' * a + q') / 4096 < 4096).
    { split; [apply Z.div_le_lower_bound; lia|apply Z.div_lt_upper_bound; lia]. }
    exists ((m * a + q) / 4096), ((m' * a + q') / 4096).
    assert (U : forall v, 0 <= v <= 4096 -> u32 v = v) by (intros v Hv; apply Z.mod_small; lia).
    rewrite !(U (_ / 4096)) by lia. cbn [Z.eqb Pos.eqb].
    do 5 (split; [done || lia|]). do 2 f_equal. unfold Z.lnot. lia.
  - destruct (saturated a 0) as [-> ->]; [lia|]. destruct (saturated a 1) as [-> ->]; [lia|].
    exists 4096, 4096. repeat split; lia.
Qed.

Lemma activation_range_witness : exists t g,
    lib_TANH 5000 = Some t /\ 0 <= t <= 4096 /\
    lib_TANH (u32 (Z.lnot 5000)) = Some (u32 (if 5000 <? 16384 then Z.lnot t else - t)) /\
    lib_SIG 5000 = Some g /\ 2048 <= g <= 4096 /\
    lib_SIG (u32 (Z.lnot 5000)) = Some (u32 (if 5000 <? 16384 then 4094 - g else 4096 - g)).
Proof. apply (activation_range 5000). lia. Defined.

(** ** Absolute value and the scalar crumb maximum *)

Lemma parts_eqm e m w x y :
  0 < iwidth e -> iwidth e * Z.of_nat m <= w -> eqm w x y -> parts e m x = parts e m y.
Proof.
  intros He Hw E. unfold parts. apply list_fmap_ext. intros k j Hj. apply lookup_seq in Hj as [-> Hj].
  apply conv_eqm. unfold eqm. apply Z.bits_inj'. intros p Hp.
  rewrite !uw_testbit, !Z.shiftr_spec by nia. destruct (Z.ltb_spec p (iwidth e)); [|done]. cbn [andb].
  unfold eqm, uw in E.
  rewrite <- (Z.mod_pow2_bits_low x w), <- (Z.mod_pow2_bits_low y w) by nia. by rewrite E.
Qed.

Lemma abs_spec s w u :
  0 < w <= 8 -> conv (IType s w) (s8 (if u >? 0 then u else - u)) = conv (IType s w) (Z.abs u).
Proof.
  intros Hw. replace (if u >? 0 then u else - u) with (Z.abs u).
  - apply conv_eqm. apply (uw_conv int8_t (IType s w)); simpl; lia.
  - rewrite Z.gtb_ltb. destruct (Z.ltb_spec 0 u); lia.
Qed.

Lemma crumbs_max_sc ty s t a b (Hf : fills ty t 4) (Ht : t = int8_t \/ t = uint8_t /\ s = false)
    (oper : bool) u2 u3 :
  elems (IType s 2) 16 (VEC_EXPR_NN_MAX_SC ty 16 s t oper u2 u3 a b) =
  concat ((fun x =>
    let m := fun z => if oper then Z.max (conv (IType s 2) z) (conv (IType s 2) b)
                      else Z.min (conv (IType s 2) z) (conv (IType s 2) b) in
    [m (Z.shiftr x 4); m (Z.shiftr x 6); conv (IType s 2) u2; conv (IType s 2) u3]) <$> elems t 4 a).
Proof.
  unfold VEC_EXPR_NN_MAX_SC. cbv zeta. cbn [Z.eqb Pos.eqb]. rewrite (first_crumb ty s t b Hf Ht).
  change 16%nat with (4 * 4)%nat. assert (byte_type t) by by eapply byte_t.
  rewrite (stored_parts ty t (IType s 2) 4);
    [|done|done|simpl; lia|by right|by rewrite length_fmap, length_elems].
  rewrite <- list_fmap_compose. f_equal. apply list_fmap_ext. intros i x _. unfold compose.
  rewrite parts_pack_crumbs, !crumb_spec, !nn_max_spec by done.
  assert (Hm : forall z, conv (IType s 2) (if oper then Z.max (conv (IType s 2) z) (conv (IType s 2) b)
     else Z.min (conv (IType s 2) z) (conv (IType s 2) b)) =
     if oper then Z.max (conv (IType s 2) z) (conv (IType s 2) b)
     else Z.min (conv (IType s 2) z) (conv (IType s 2) b)).
  { intros z. destruct oper; [destruct (Z.max_spec (conv (IType s 2) z) (conv (IType s 2) b)) as [[_ ->]|[_ ->]]
      |destruct (Z.min_spec (conv (IType s 2) z) (conv (IType s 2) b)) as [[_ ->]|[_ ->]]];
      by apply conv_idemp. }
  by rewrite !Hm.
Qed.

(** lib_VEC_ABS_int4_t is the absolute value of each nibble.  lib_VEC_ABS_int2_t is not that
    of each crumb: it walks the operand through a pointer to 16-bit elements, so result byte i
    comes from the low byte of half word i, and the last two from the half words [m2] and [m3]
    that follow the operand in memory. *)
Theorem packed_abs a m2 m3 :
  elems int4_t 8 (lib_VEC_ABS_int4_t_to_int32_t a) =
    (fun u => conv int4_t (Z.abs u)) <$> elems int4_t 8 a /\
  elems int2_t 16 (lib_VEC_ABS_int2_t_to_int32_t m2 m3 a) =
    (fun u => conv int2_t (Z.abs u)) <$>
      (parts int2_t 4 a ++ parts int2_t 4 (Z.shiftr a 16) ++ parts int2_t 4 m2 ++ parts int2_t 4 m3).
Proof.
  split.
  - apply (mapwise_nibbles int32_t true int8_t a ltac:(by split) ltac:(by left)
             (fun u => s8 (if u >? 0 then u else - u)) Z.abs).
    intros u. by apply abs_spec.
  - unfold lib_VEC_ABS_int2_t_to_int32_t. cbv zeta.
    change 16%nat with (4 * 4)%nat.
    rewrite (stored_parts int32_t int8_t int2_t 4);
      [|done|by split|done|by right|by rewrite length_fmap, length_app, length_elems].
    assert (Hb : forall x, parts int2_t 4 (pack_crumbs
        (s8 (if crumb int8_t true x 0 >? 0 then crumb int8_t true x 0 else - crumb int8_t true x 0))
        (s8 (if crumb int8_t true x 2 >? 0 then crumb int8_t true x 2 else - crumb int8_t true x 2))
        (s8 (if crumb int8_t true x 4 >? 0 then crumb int8_t true x 4 else - crumb int8_t true x 4))
        (s8 (if crumb int8_t true x 6 >? 0 then crumb int8_t true x 6 else - crumb int8_t true x 6))) =
        (fun u => conv int2_t (Z.abs u)) <$> parts int2_t 4 x).
    { intros x. unfold int2_t at 1. rewrite parts_pack_crumbs, !abs_spec by done.
      by rewrite !crumb_spec by by left. }
    transitivity (concat ((fun x => (fun u => conv int2_t (Z.abs u)) <$> parts int2_t 4 x)
                            <$> (elems int16_t 2 a ++ [m2; m3]))).
    { f_equal. rewrite <- list_fmap_compose. apply list_fmap_ext. intros i x _. exact (Hb x). }
    cbn [elems lanes fmap list_fmap app concat]. rewrite !fmap_app, app_nil_r.
    assert (Hp : forall x, parts int2_t 4 (conv int16_t (uw 16 x)) = parts int2_t 4 x).
    { intros x. apply (parts_eqm int2_t 4 16); [done|done|].
      etransitivity; [apply (eqm_conv int16_t); done|apply eqm_uw; lia]. }
    by rewrite !Hp.
Qed.

(** The scalar maximum and minimum of crumbs, in memory whose two uninitialised variables
    hold [u2] and [u3]: the elements 0 and 1 of each result byte are the results of elements 2
    and 3 of the operand byte, the elements 2 and 3 are [u2] and [u3]. *)
Theorem crumb_max_sc_misplaced a b u2 u3 :
  elems int2_t 16 (lib_VEC_MAX_SC_int2_t_to_int32_t u2 u3 a b) =
    concat ((fun x => [Z.max (conv int2_t (Z.shiftr x 4)) (conv int2_t b);
                       Z.max (conv int2_t (Z.shiftr x 6)) (conv int2_t b);
                       conv int2_t u2; conv int2_t u3]) <$> elems int8_t 4 a) /\
  elems int2_t 16 (lib_VEC_MIN_SC_int2_t_to_int32_t u2 u3 a b) =
    concat ((fun x => [Z.min (conv int2_t (Z.shiftr x 4)) (conv int2_t b);
                       Z.min (conv int2_t (Z.shiftr x 6)) (conv int2_t b);
                       conv int2_t u2; conv int2_t u3]) <$> elems int8_t 4 a).
Proof.
  split;
    [apply (crumbs_max_sc int32_t true int8_t a b ltac:(by split) ltac:(by left) true)
    |apply (crumbs_max_sc int32_t true int8_t a b ltac:(by split) ltac:(by left) false)].
Qed.
