(* ===== verification/IsaCplx.v ===== *)
(** * Complex and Viterbi instructions of the instruction set simulator (iss/include/isa_lib/int.h)

    A complex number is a word with its real part in the low half and its imaginary part in the high half,
    both signed. The conventions on integers are those of IsaInt.v. *)

From S2P Require Import Prelude IsaInt.

(** ** The functions *)

(** The conversions of the halves to int16_t. *)
Definition half_lo (a : Z) : Z := sw 16 (Z.land a 0xffff).
Definition half_hi (a : Z) : Z := sw 16 (Z.shiftr a 16).

Definition lib_CPLXMUL_H_I (a b c div : Z) : Z :=
  let a_imm := half_hi a in let a_re := half_lo a in
  let b_imm := half_hi b in let b_re := half_lo b in
  Z.lor (u32 (Z.shiftl (uw 16 (Z.shiftr (a_imm * b_re + a_re * b_imm) (15 + div))) 16)) (Z.land c 0xffff).

Definition lib_CPLXMUL_H_R (a b c div : Z) : Z :=
  let a_imm := half_hi a in let a_re := half_lo a in
  let b_imm := half_hi b in let b_re := half_lo b in
  Z.lor (Z.land c 0xffff0000) (uw 16 (Z.shiftr (a_re * b_re - a_imm * b_imm) (15 + div))).

Definition lib_CPLXMULS (a b : Z) : Z :=
  let a_imm := half_hi a in let a_re := half_lo a in
  let b_imm := half_hi b in let b_re := half_lo b in
  Z.lor (u32 (Z.shiftl (uw 16 (Z.shiftr (a_imm * b_re + a_re * b_imm) 15)) 16))
    (uw 16 (Z.shiftr (a_re * b_re - a_imm * b_imm) 15)).

Definition lib_CPLXMULS_DIV2 (a b : Z) : Z :=
  let a_imm := half_hi a in let a_re := half_lo a in
  let b_imm := half_hi b in let b_re := half_lo b in
  Z.lor (u32 (Z.shiftl (uw 16 (Z.shiftr (a_imm * b_re + a_re * b_imm) 16)) 16))
    (uw 16 (Z.shiftr (a_re * b_re - a_imm * b_imm) 16)).

Definition lib_CPLXMULS_DIV4 (a b : Z) : Z :=
  let a_imm := half_hi a in let a_re := half_lo a in
  let b_imm := half_hi b in let b_re := half_lo b in
  Z.lor (u32 (Z.shiftl (uw 16 (Z.shiftr (a_imm * b_re + a_re * b_imm) 17)) 16))
    (uw 16 (Z.shiftr (a_re * b_re - a_imm * b_imm) 17)).

(** The real part is not converted to 16 bits. *)
Definition lib_CPLXMULS_SC (a b : Z) : Z :=
  let a_imm := half_hi a in let a_re := half_lo a in
  u32 (Z.lor (Z.shiftl (uw 16 (Z.shiftr (s32 (s32 (a_imm * b) + s32 (a_re * b))) 15)) 16)
    (Z.shiftr (s32 (s32 (a_re * b) - s32 (a_imm * b))) 15)).

Definition lib_CPLX_CONJ_16 (a : Z) : Z :=
  let a_imm := half_hi a in let a_re := half_lo a in
  Z.lor (u32 (Z.shiftl (uw 16 (- a_imm)) 16)) (uw 16 a_re).

Definition lib_VEC_ADD_16_ROTMJ (a b : Z) : Z :=
  let a_imm := half_hi a in let a_re := half_lo a in
  let b_imm := half_hi b in let b_re := half_lo b in
  u32 (Z.lor (Z.shiftl (sw 16 (b_re - a_re)) 16) (Z.land (a_imm - b_imm) 0x0ffff)).

Definition lib_VEC_ADD_16_ROTMJ_DIV2 (a b : Z) : Z :=
  let a_imm := half_hi a in let a_re := half_lo a in
  let b_imm := half_hi b in let b_re := half_lo b in
  u32 (Z.lor (Z.shiftl (Z.shiftr (sw 16 (b_re - a_re)) 1) 16) (Z.land (Z.shiftr (sw 16 (a_imm - b_imm)) 1) 0x0ffff)).

Definition lib_VEC_ADD_16_ROTMJ_DIV4 (a b : Z) : Z :=
  let a_imm := half_hi a in let a_re := half_lo a in
  let b_imm := half_hi b in let b_re := half_lo b in
  u32 (Z.lor (Z.shiftl (Z.shiftr (sw 16 (b_re - a_re)) 2) 16) (Z.land (Z.shiftr (sw 16 (a_imm - b_imm)) 2) 0x0ffff)).

Definition lib_VEC_ADD_16_ROTMJ_DIV8 (a b : Z) : Z :=
  let a_imm := half_hi a in let a_re := half_lo a in
  let b_imm := half_hi b in let b_re := half_lo b in
  u32 (Z.lor (Z.shiftl (Z.shiftr (sw 16 (b_re - a_re)) 3) 16) (Z.land (Z.shiftr (sw 16 (a_imm - b_imm)) 3) 0x0ffff)).

(** The flags of the Viterbi instructions, vf0 and vf1 of iss_cpu_state_t. *)
Record viterbi := Viterbi { vf0 : Z; vf1 : Z }.

Definition lib_VITOP_MAX (a b : Z) (s : viterbi) : Z * viterbi :=
  let ah := half_hi a in let al := half_lo a in
  let bh := half_hi b in let bl := half_lo b in
  let s := Viterbi (if ah <=? bh then 1 else 0) (if al <=? bl then 1 else 0) in
  (u32 (Z.lor (Z.shiftl (if ah >? bh then ah else bh) 16) (Z.land (if al >? bl then al else bl) 0xFFFF)), s).

Definition lib_VITOP_SEL (a b : Z) (s : viterbi) : Z :=
  let ah := half_hi a in let al := half_lo a in
  let bh := half_hi b in let bl := half_lo b in
  let res := 0 in
  let res := if negb (vf0 s =? 0) then Z.lor res (u32 (Z.shiftl bh 17)) else Z.lor res (u32 (Z.shiftl ah 17)) in
  let res := Z.lor res (u32 (Z.shiftl (vf0 s) 16)) in
  let res := if negb (vf1 s =? 0) then Z.lor res (uw 16 (Z.shiftl bl 1)) else Z.lor res (uw 16 (Z.shiftl al 1)) in
  Z.lor res (vf1 s).

(** ** The halves of a word *)

Lemma half_lo_uw a : half_lo a = sw 16 a.
Proof. unfold half_lo. change 0xffff with (Z.ones 16). rewrite uw_land by lia. by apply sw_uw. Qed.

Lemma half_bounds a : - 2 ^ 15 <= half_lo a < 2 ^ 15 /\ - 2 ^ 15 <= half_hi a < 2 ^ 15.
Proof. split; [rewrite half_lo_uw|]; by apply (sw_range 16). Qed.

(** A word whose bits are those of [h] above those of [l]. *)
Lemma halves_of_bits x h l :
  (forall i, 0 <= i < 16 -> Z.testbit x i = Z.testbit l i) -> (forall i, 0 <= i < 16 -> Z.testbit x (i + 16) = Z.testbit h i) ->
  half_lo x = sw 16 l /\ half_hi x = sw 16 h.
Proof.
  intros Hl Hh. split; [rewrite half_lo_uw|unfold half_hi]; apply uw_eq_sw; apply Z.bits_inj'; intros i Hi;
    rewrite !uw_testbit by lia; destruct (Z.ltb_spec i 16); try done; cbn [andb]; [by apply Hl|].
  rewrite Z.shiftr_spec by lia. by apply Hh.
Qed.

Ltac half_bits :=
  apply halves_of_bits; intros k Hk;
  rewrite ?uw_testbit, ?Z.lor_spec, ?uw_testbit, ?Z.land_spec, ?Z.shiftl_spec, ?uw_testbit by lia;
  repeat match goal with |- context [Z.ltb ?x ?y] => destruct (Z.ltb_spec x y); try lia end; cbn [andb orb];
  repeat match goal with |- context [Z.testbit (Z.pos ?m) ?i] =>
    first [ rewrite (testbit_above 16 (Z.pos m) i) by (simpl; lia) | change (Z.testbit (Z.pos m) i) with (Z.testbit (Z.ones 16) i); rewrite Z.ones_spec_low by lia ] end;
  rewrite ?(Z.testbit_neg_r _ (k - 16)) by lia; rewrite ?andb_true_r, ?andb_false_r, ?orb_false_r, ?orb_false_l; try done; try (f_equal; lia).

Lemma halves_u16 h l : let x := Z.lor (u32 (Z.shiftl (uw 16 h) 16)) (uw 16 l) in half_lo x = sw 16 l /\ half_hi x = sw 16 h.
Proof. cbv zeta. half_bits. Qed.

Lemma halves_re_part c l : let x := Z.lor (Z.land c 0xffff0000) (uw 16 l) in half_lo x = sw 16 l /\ half_hi x = half_hi c.
Proof.
  cbv zeta. assert (half_hi c = sw 16 (Z.shiftr c 16)) as -> by done. apply halves_of_bits; intros k Hk;
    rewrite Z.lor_spec, Z.land_spec, uw_testbit by lia; change 0xffff0000 with (Z.shiftl (Z.ones 16) 16); rewrite Z.shiftl_spec by lia.
  - rewrite (Z.testbit_neg_r _ (k - 16)), (proj2 (Z.ltb_lt k 16)), andb_false_r by lia. done.
  - rewrite Z.ones_spec_low, (proj2 (Z.ltb_ge (k + 16) 16)), Z.shiftr_spec by lia. by rewrite andb_true_r, orb_false_r.
Qed.

Lemma halves_im_part h c : let x := Z.lor (u32 (Z.shiftl (uw 16 h) 16)) (Z.land c 0xffff) in half_lo x = half_lo c /\ half_hi x = sw 16 h.
Proof.
  cbv zeta. rewrite (half_lo_uw c). change 0xffff with (Z.ones 16). rewrite uw_land by lia. apply halves_u16.
Qed.

Lemma halves_signed h l : let x := u32 (Z.lor (Z.shiftl h 16) (Z.land l 0xffff)) in half_lo x = sw 16 l /\ half_hi x = sw 16 h.
Proof.
  cbv zeta. change 0xffff with (Z.ones 16). rewrite uw_land by lia. apply halves_of_bits; intros k Hk;
    rewrite uw_testbit, Z.lor_spec, uw_testbit, Z.shiftl_spec by lia.
  - rewrite (Z.testbit_neg_r _ (k - 16)), (proj2 (Z.ltb_lt k 32)), (proj2 (Z.ltb_lt k 16)) by lia. done.
  - rewrite (proj2 (Z.ltb_lt (k + 16) 32)), (proj2 (Z.ltb_ge (k + 16) 16)) by lia. cbn [andb]. rewrite orb_false_r. f_equal. lia.
Qed.

(** ** Complex numbers *)

Definition cmul_re (a b : Z) : Z := half_lo a * half_lo b - half_hi a * half_hi b.
Definition cmul_im (a b : Z) : Z := half_hi a * half_lo b + half_lo a * half_hi b.

(** The product of [a] and [b] in fixed point, with 15 fractional bits, divided by [2 ^ d]. *)
Definition is_product (x a b d : Z) : Prop :=
  half_lo x = sw 16 (cmul_re a b / 2 ^ (15 + d)) /\ half_hi x = sw 16 (cmul_im a b / 2 ^ (15 + d)).

(** The only product whose half does not fit. *)
Definition extreme (a : Z) : Prop := half_lo a = - 2 ^ 15 /\ half_hi a = - 2 ^ 15.

Lemma product_fits a b d : 1 <= d -> d = 1 -> ~ (extreme a /\ extreme b) ->
  - 2 ^ 15 <= cmul_re a b / 2 ^ (15 + d) < 2 ^ 15 /\ - 2 ^ 15 <= cmul_im a b / 2 ^ (15 + d) < 2 ^ 15.
Proof.
  intros _ -> Hx. destruct (half_bounds a) as [Hal Hah], (half_bounds b) as [Hbl Hbh]. unfold extreme, cmul_re, cmul_im in *.
  change (2 ^ (15 + 1)) with (2 ^ 16). set (al := half_lo a) in *. set (ah := half_hi a) in *. set (bl := half_lo b) in *. set (bh := half_hi b) in *.
  clearbody al ah bl bh.
  assert (forall x y, - 2 ^ 15 <= x < 2 ^ 15 -> - 2 ^ 15 <= y < 2 ^ 15 -> - (2 ^ 15 * (2 ^ 15 - 1)) - 2 ^ 15 <= x * y <= 2 ^ 30) as Hp by nia.
  assert (- 2 ^ 31 <= al * bl - ah * bh < 2 ^ 31) as Hre.
  { pose proof (Hp al bl Hal Hbl). pose proof (Hp ah bh Hah Hbh). nia. }
  assert (- 2 ^ 31 <= ah * bl + al * bh < 2 ^ 31) as Him.
  { pose proof (Hp ah bl Hah Hbl). pose proof (Hp al bh Hal Hbh). split; [lia|].
    destruct (Z.eq_dec (ah * bl) (2 ^ 30)) as [E1|]; [|lia]. destruct (Z.eq_dec (al * bh) (2 ^ 30)) as [E2|]; [|lia].
    exfalso. apply Hx. nia. }
  split; split; try (apply Z.div_le_lower_bound; lia); apply Z.div_lt_upper_bound; lia.
Qed.

Lemma product_quarter_fits a b d : 2 <= d ->
  - 2 ^ 15 <= cmul_re a b / 2 ^ (15 + d) < 2 ^ 15 /\ - 2 ^ 15 <= cmul_im a b / 2 ^ (15 + d) < 2 ^ 15.
Proof.
  intros Hd. destruct (half_bounds a) as [Hal Hah], (half_bounds b) as [Hbl Hbh]. unfold cmul_re, cmul_im.
  set (al := half_lo a) in *. set (ah := half_hi a) in *. set (bl := half_lo b) in *. set (bh := half_hi b) in *. clearbody al ah bl bh.
  assert (- 2 ^ 31 <= al * bl - ah * bh <= 2 ^ 31 /\ - 2 ^ 31 <= ah * bl + al * bh <= 2 ^ 31) as [Hre Him].
  { assert (forall x y, - 2 ^ 15 <= x < 2 ^ 15 -> - 2 ^ 15 <= y < 2 ^ 15 -> - 2 ^ 30 <= x * y <= 2 ^ 30) as Hp by nia.
    pose proof (Hp al bl Hal Hbl). pose proof (Hp ah bh Hah Hbh). pose proof (Hp ah bl Hah Hbl). pose proof (Hp al bh Hal Hbh). lia. }
  assert (2 ^ 17 <= 2 ^ (15 + d)) by (apply Z.pow_le_mono_r; lia). set (p := 2 ^ (15 + d)) in *. clearbody p.
  split; split; try (apply Z.div_le_lower_bound; nia); apply Z.div_lt_upper_bound; nia.
Qed.

(** The multiplications with one instruction for both parts. *)
Definition product_insns : list ((Z -> Z -> Z) * Z) := [(lib_CPLXMULS, 0); (lib_CPLXMULS_DIV2, 1); (lib_CPLXMULS_DIV4, 2)].

Lemma product_insns_value f d a b : (f, d) ∈ product_insns -> is_product (f a b) a b d.
Proof.
  intros Hin. unfold product_insns in Hin.
  repeat (apply elem_of_cons in Hin as [Hin|Hin]; [injection Hin as -> ->|]); [..|by apply elem_of_nil in Hin];
    unfold lib_CPLXMULS, lib_CPLXMULS_DIV2, lib_CPLXMULS_DIV4; cbv zeta; rewrite !Z.shiftr_div_pow2 by lia; apply halves_u16.
Qed.

(** The two instructions, one for each part, one after the other. *)
Lemma product_in_two a b c d : 0 <= d -> is_product (lib_CPLXMUL_H_R a b (lib_CPLXMUL_H_I a b c d) d) a b d.
Proof.
  intros Hd. unfold is_product, lib_CPLXMUL_H_R. cbv zeta. rewrite Z.shiftr_div_pow2 by lia. destruct (halves_re_part
    (lib_CPLXMUL_H_I a b c d) ((half_lo a * half_lo b - half_hi a * half_hi b) / 2 ^ (15 + d))) as [-> ->].
  split; [done|]. unfold lib_CPLXMUL_H_I. cbv zeta. rewrite Z.shiftr_div_pow2 by lia. apply halves_im_part.
Qed.

Lemma product_other_half a b c d : half_lo (lib_CPLXMUL_H_I a b c d) = half_lo c /\ half_hi (lib_CPLXMUL_H_R a b c d) = half_hi c.
Proof.
  split; [unfold lib_CPLXMUL_H_I; cbv zeta; apply halves_im_part|].
  unfold lib_CPLXMUL_H_R. cbv zeta.
  match goal with |- half_hi (Z.lor _ (uw 16 ?l)) = _ => apply (halves_re_part c l) end.
Qed.

(** The differences turned by -j, with the shift of the sum of each part. *)
Definition rotation_insns : list ((Z -> Z -> Z) * Z) :=
  [(lib_VEC_ADD_16_ROTMJ, 0); (lib_VEC_ADD_16_ROTMJ_DIV2, 1); (lib_VEC_ADD_16_ROTMJ_DIV4, 2); (lib_VEC_ADD_16_ROTMJ_DIV8, 3)].

Lemma rotation_value f k a b : (f, k) ∈ rotation_insns ->
  half_lo (f a b) = sw 16 (half_hi a - half_hi b) / 2 ^ k /\ half_hi (f a b) = sw 16 (half_lo b - half_lo a) / 2 ^ k.
Proof.
  intros Hin.
  assert (forall z j, 0 <= j -> sw 16 (sw 16 z / 2 ^ j) = sw 16 z / 2 ^ j) as Hsm.
  { intros z j Hj. pose proof (sw_range 16 z ltac:(lia)) as Hr. change (16 - 1) with 15 in Hr. apply sw_small; [lia|]. change (16 - 1) with 15.
    pose proof (Z.pow_pos_nonneg 2 j ltac:(lia) Hj). split; [apply Z.div_le_lower_bound; nia|apply Z.div_lt_upper_bound; nia]. }
  unfold rotation_insns in Hin.
  repeat (apply elem_of_cons in Hin as [Hin|Hin]; [injection Hin as -> ->|]); [..|by apply elem_of_nil in Hin];
    unfold lib_VEC_ADD_16_ROTMJ, lib_VEC_ADD_16_ROTMJ_DIV2, lib_VEC_ADD_16_ROTMJ_DIV4, lib_VEC_ADD_16_ROTMJ_DIV8; cbv zeta;
    match goal with |- context [Z.lor (Z.shiftl ?h 16) (Z.land ?l _)] => destruct (halves_signed h l) as [-> ->] end;
    rewrite ?Z.shiftr_div_pow2, ?Z.pow_0_r, ?Z.div_1_r by lia; rewrite ?Hsm by lia; [|done..].
  split; [done|]. apply uw_eq_sw, eqm_sw. lia.
Qed.

Lemma conjugate_value a : half_lo (lib_CPLX_CONJ_16 a) = half_lo a /\ half_hi (lib_CPLX_CONJ_16 a) = sw 16 (- half_hi a).
Proof.
  unfold lib_CPLX_CONJ_16. cbv zeta. destruct (halves_u16 (- half_hi a) (half_lo a)) as [-> ->]. split; [|done].
  apply (sw_small 16); [lia|]. apply half_bounds.
Qed.

(** The complex instructions. The products, in one instruction or with one for each part in turn, are the parts of
    the product of the two numbers with 15 fractional bits, divided by 1, 2, 4 or 8 and rounded down; divided by
    4 or more they never overflow, and by 2 only for the square of -1 - j; each one-part instruction keeps the other
    part of its third operand. The rotated sums are (a - b) times -j, divided, and conjugation is an
    involution. *)
Theorem complex_arithmetic a b c :
  (forall f d, (f, d) ∈ product_insns -> is_product (f a b) a b d) /\
  (forall d, 0 <= d -> is_product (lib_CPLXMUL_H_R a b (lib_CPLXMUL_H_I a b c d) d) a b d /\
    half_lo (lib_CPLXMUL_H_I a b c d) = half_lo c /\ half_hi (lib_CPLXMUL_H_R a b c d) = half_hi c) /\
  (forall x d, is_product x a b d -> 2 <= d \/ d = 1 /\ ~ (extreme a /\ extreme b) ->
    half_lo x = cmul_re a b / 2 ^ (15 + d) /\ half_hi x = cmul_im a b / 2 ^ (15 + d)) /\
  (forall f k, (f, k) ∈ rotation_insns ->
    half_lo (f a b) = sw 16 (half_hi a - half_hi b) / 2 ^ k /\ half_hi (f a b) = sw 16 (half_lo b - half_lo a) / 2 ^ k) /\
  (half_lo (lib_CPLX_CONJ_16 (lib_CPLX_CONJ_16 a)) = half_lo a /\ half_hi (lib_CPLX_CONJ_16 (lib_CPLX_CONJ_16 a)) = half_hi a).
Proof.
  split; [intros f d; apply product_insns_value|]. split; [intros d Hd; split; [by apply product_in_two|apply product_other_half]|].
  split; [|split; [intros f k; apply rotation_value|]].
  - intros x d [-> ->] Hd.
    assert (- 2 ^ 15 <= cmul_re a b / 2 ^ (15 + d) < 2 ^ 15 /\ - 2 ^ 15 <= cmul_im a b / 2 ^ (15 + d) < 2 ^ 15) as [Hr Hi]
      by (destruct Hd as [Hd|[Hd Hx]]; [by apply product_quarter_fits|apply product_fits; [lia|done..]]).
    split; apply (sw_small 16); (lia || done).
  - destruct (conjugate_value (lib_CPLX_CONJ_16 a)) as [-> ->], (conjugate_value a) as [-> ->]. split; [done|].
    destruct (half_bounds a) as [_ Hh]. rewrite <- (sw_small 16 (half_hi a)) at 2 by (lia || done). apply uw_eq_sw.
    destruct (sw_spec 16 (- half_hi a) ltac:(lia)) as [k ->].
    replace (- (- half_hi a + k * 2 ^ 16)) with (half_hi a + (- k) * 2 ^ 16) by ring. apply uw_add_mul. lia.
Qed.

Lemma complex_arithmetic_witness :
  half_lo (lib_CPLXMULS 0x40002000 0x10006000) = 4096 /\ half_hi (lib_CPLXMULS 0x40002000 0x10006000) = 13312 /\
  is_product (lib_CPLXMULS 0x40002000 0x10006000) 0x40002000 0x10006000 0.
Proof.
  split; [reflexivity|]. split; [reflexivity|].
  apply (proj1 (complex_arithmetic 0x40002000 0x10006000 0)). by apply list_elem_of_here.
Defined.

(** ** Viterbi: compare and select *)


Lemma decision_bit d z i : 0 <= d < 2 -> 0 <= i -> Z.testbit (2 * z + d) i = Z.testbit (Z.shiftl z 1) i || Z.testbit d i.
Proof.
  intros Hd Hi. assert (d = 0 \/ d = 1) as [-> | ->] by lia.
  - rewrite Z.add_0_r, Z.bits_0, orb_false_r, Z.shiftl_mul_pow2 by lia. f_equal. lia.
  - destruct (Z.eqb_spec i 0) as [->|]; [rewrite Z.testbit_odd_0, Z.shiftl_spec_low; done || lia|].
    replace i with (Z.succ (i - 1)) by lia. rewrite Z.testbit_odd_succ, Z.shiftl_spec by lia.
    rewrite (testbit_above 1 1) by lia. rewrite orb_false_r. f_equal. lia.
Qed.

Lemma selected_word h l dh dl : 0 <= dh < 2 -> 0 <= dl < 2 ->
  let x := Z.lor (Z.lor (Z.lor (Z.lor 0 (u32 (Z.shiftl h 17))) (u32 (Z.shiftl dh 16))) (uw 16 (Z.shiftl l 1))) dl in
  half_lo x = sw 16 (2 * l + dl) /\ half_hi x = sw 16 (2 * h + dh).
Proof.
  intros Hh Hl. cbv zeta. apply halves_of_bits; intros k Hk; rewrite decision_bit by lia;
    rewrite !Z.lor_spec, Z.bits_0, !uw_testbit, !Z.shiftl_spec by lia.
  - rewrite (Z.testbit_neg_r _ (k - 17)), (Z.testbit_neg_r _ (k - 16)), (proj2 (Z.ltb_lt k 16)) by lia. by rewrite !andb_false_r.
  - rewrite (testbit_above 1 dl (k + 16)) by lia. rewrite (proj2 (Z.ltb_lt (k + 16) 32)), (proj2 (Z.ltb_ge (k + 16) 16)) by lia.
    cbn [andb orb]. rewrite !orb_false_r. f_equal; f_equal; lia.
Qed.

(** The two Viterbi instructions make a compare-select step on the two halves of their operands. VITOP_MAX gives
    the larger of the two metrics of each half and records which one it is; VITOP_SEL, after it, appends the
    recorded decisions to the paths: each half is the path of the surviving metric, shifted by one bit, with the
    decision in its lowest bit. *)
Theorem viterbi_compare_select a b p q s :
  let (m, s') := lib_VITOP_MAX a b s in
  let x := lib_VITOP_SEL p q s' in
  half_lo m = Z.max (half_lo a) (half_lo b) /\ half_hi m = Z.max (half_hi a) (half_hi b) /\
  half_lo x = sw 16 (if half_lo a <=? half_lo b then 2 * half_lo q + 1 else 2 * half_lo p) /\
  half_hi x = sw 16 (if half_hi a <=? half_hi b then 2 * half_hi q + 1 else 2 * half_hi p).
Proof.
  destruct (half_bounds a) as [Hal Hah], (half_bounds b) as [Hbl Hbh].
  assert (forall x y, (if x >? y then x else y) = Z.max x y) as Hmax by (intros x y; rewrite Z.gtb_ltb; destruct (Z.ltb_spec y x); lia).
  unfold lib_VITOP_MAX. cbv zeta. rewrite !Hmax.
  destruct (halves_signed (Z.max (half_hi a) (half_hi b)) (Z.max (half_lo a) (half_lo b))) as [-> ->].
  split; [apply (sw_small 16); lia|]. split; [apply (sw_small 16); lia|].
  unfold lib_VITOP_SEL. cbn [vf0 vf1].
  destruct (half_hi a <=? half_hi b), (half_lo a <=? half_lo b); cbn [negb Z.eqb].
  - destruct (selected_word (half_hi q) (half_lo q) 1 1) as [-> ->]; [lia|lia|done].
  - destruct (selected_word (half_hi q) (half_lo p) 1 0) as [-> ->]; [lia|lia|]. by rewrite Z.add_0_r.
  - destruct (selected_word (half_hi p) (half_lo q) 0 1) as [-> ->]; [lia|lia|]. by rewrite Z.add_0_r.
  - destruct (selected_word (half_hi p) (half_lo p) 0 0) as [-> ->]; [lia|lia|]. by rewrite !Z.add_0_r.
Qed.
