(* ===== verification/IsaExt.v ===== *)
(** * 64-bit, GAP8 and GAP9 instructions (models/cpu/iss/include/rvXint64.hpp, rvXgap8.hpp, rvXgap9.hpp)

    The handlers of the instructions on pairs of registers, and of the complex, averaging, packing and Viterbi
    instructions of GAP8 and GAP9, over the functions of IsaInt.v, IsaVec.v and IsaCplx.v and the core of Rv32.v.
    A handler gives the next instruction and the new state; [None] is undefined behaviour of the C code. *)

From S2P Require Import Prelude Io Memory IsaInt IsaVec IsaCplx Rv32 PulpSimd.

(** ** Fields of a register, on 64 bits (utils.hpp) *)

Definition iss_get_field64 (val shift bits : Z) : option Z :=
  let* one := shl 32 1 bits in
  Some (Z.land (Z.shiftr val shift) (u32 (s32 one - 1))).
Definition iss_get_signed_value64 (val bits : Z) : Z := Z.shiftr (s64 (Z.shiftl val (64 - bits))) (64 - bits).

Section Handlers.
Context {S : Type} (regs : Z).
Implicit Types (i : iss_insn) (st : iss (S := S)).
#[local] Notation REG_GET := (REG_GET regs).
#[local] Notation insn_result := (insn_result regs).

(** The pairs of registers (macros.h). *)
Definition REG64_GET (i : iss_insn) (k : nat) st : Z := iss_get_reg64_untimed regs (hst st) (REG_IN i k).
Definition REG64_SET (i : iss_insn) (k : nat) (value : Z) st : iss := set_hst (iss_set_reg64 regs (REG_OUT i k) value (hst st)) st.
Definition insn_result64 (i : iss_insn) (value : option Z) st : option (Z * iss (S := S)) :=
  let* v := value in Some (i_next i, REG64_SET i 0 v st).

(** ** rvXint64.hpp *)

Definition add_d_exec : insn_handler := fun i st =>
  insn_result64 i (Some (lib_ADD_64 (REG64_GET i 0 st) (REG64_GET i 1 st))) st.
Definition sub_d_exec : insn_handler := fun i st =>
  insn_result64 i (Some (lib_SUB_64 (REG64_GET i 0 st) (REG64_GET i 1 st))) st.
Definition sll_d_exec : insn_handler := fun i st =>
  insn_result64 i (lib_SLL_64 (REG64_GET i 0 st) (REG64_GET i 1 st)) st.
Definition slt_d_exec : insn_handler := fun i st =>
  insn_result i (Some (if (s64 (REG64_GET i 0 st)) <? (s64 (REG64_GET i 1 st)) then 1 else 0)) st.
Definition sltu_d_exec : insn_handler := fun i st =>
  insn_result i (Some (if (REG64_GET i 0 st) <? (REG64_GET i 1 st) then 1 else 0)) st.
Definition xor_d_exec : insn_handler := fun i st =>
  insn_result64 i (Some (lib_XOR_64 (REG64_GET i 0 st) (REG64_GET i 1 st))) st.
Definition srl_d_exec : insn_handler := fun i st =>
  insn_result64 i (lib_SRL_64 (REG64_GET i 0 st) (REG64_GET i 1 st)) st.
Definition sra_d_exec : insn_handler := fun i st =>
  insn_result64 i (let* v := lib_SRA_64 (s64 (REG64_GET i 0 st)) (REG64_GET i 1 st) in Some (u64 v)) st.
Definition or_d_exec : insn_handler := fun i st =>
  insn_result64 i (Some (lib_OR_64 (REG64_GET i 0 st) (REG64_GET i 1 st))) st.
Definition and_d_exec : insn_handler := fun i st =>
  insn_result64 i (Some (lib_AND_64 (REG64_GET i 0 st) (REG64_GET i 1 st))) st.
Definition slli_d_exec : insn_handler := fun i st =>
  insn_result64 i (lib_SLL_64 (REG64_GET i 0 st) (UIM_GET i 0)) st.
Definition srli_d_exec : insn_handler := fun i st =>
  insn_result64 i (lib_SRL_64 (REG64_GET i 0 st) (UIM_GET i 0)) st.
Definition srai_d_exec : insn_handler := fun i st =>
  insn_result64 i (let* v := lib_SRA_64 (s64 (REG64_GET i 0 st)) (UIM_GET i 0) in Some (u64 v)) st.
Definition addi_d_exec : insn_handler := fun i st =>
  insn_result64 i (Some (lib_ADD_64 (REG64_GET i 0 st) (u64 (SIM_GET i 0)))) st.
Definition slti_d_exec : insn_handler := fun i st =>
  insn_result i (Some (if (s64 (REG64_GET i 0 st)) <? (SIM_GET i 0) then 1 else 0)) st.
Definition sltiu_d_exec : insn_handler := fun i st =>
  insn_result i (Some (if (REG64_GET i 0 st) <? (UIM_GET i 0) then 1 else 0)) st.
Definition xori_d_exec : insn_handler := fun i st =>
  insn_result64 i (Some (lib_XOR_64 (REG64_GET i 0 st) (UIM_GET i 0))) st.
Definition ori_d_exec : insn_handler := fun i st =>
  insn_result64 i (Some (lib_OR_64 (REG64_GET i 0 st) (UIM_GET i 0))) st.
Definition andi_d_exec : insn_handler := fun i st =>
  insn_result64 i (Some (lib_AND_64 (REG64_GET i 0 st) (UIM_GET i 0))) st.
Definition p_abs_d_exec : insn_handler := fun i st =>
  insn_result64 i (Some (u64 (lib_ABS_64 (s64 (REG64_GET i 0 st))))) st.
Definition p_seq_d_exec : insn_handler := fun i st =>
  insn_result i (Some (if (REG64_GET i 0 st) =? (REG64_GET i 1 st) then 1 else 0)) st.
Definition p_sne_d_exec : insn_handler := fun i st =>
  insn_result i (Some (if negb ((REG64_GET i 0 st) =? (REG64_GET i 1 st)) then 1 else 0)) st.
Definition p_slet_d_exec : insn_handler := fun i st =>
  insn_result i (Some (if (s64 (REG64_GET i 0 st)) <=? (s64 (REG64_GET i 1 st)) then 1 else 0)) st.
Definition p_sletu_d_exec : insn_handler := fun i st =>
  insn_result i (Some (if (REG64_GET i 0 st) <=? (REG64_GET i 1 st) then 1 else 0)) st.
Definition p_min_d_exec : insn_handler := fun i st =>
  insn_result64 i (Some (u64 (lib_MINS_64 (s64 (REG64_GET i 0 st)) (s64 (REG64_GET i 1 st))))) st.
Definition p_minu_d_exec : insn_handler := fun i st =>
  insn_result64 i (Some (lib_MINU_64 (REG64_GET i 0 st) (REG64_GET i 1 st))) st.
Definition p_max_d_exec : insn_handler := fun i st =>
  insn_result64 i (Some (u64 (lib_MAXS_64 (s64 (REG64_GET i 0 st)) (s64 (REG64_GET i 1 st))))) st.
Definition p_maxu_d_exec : insn_handler := fun i st =>
  insn_result64 i (Some (lib_MAXU_64 (REG64_GET i 0 st) (REG64_GET i 1 st))) st.
Definition p_cnt_d_exec : insn_handler := fun i st =>
  insn_result i (Some (lib_CNT_64 (REG64_GET i 0 st))) st.
Definition p_exths_d_exec : insn_handler := fun i st =>
  insn_result64 i (Some (u64 (iss_get_signed_value64 (REG_GET i 0 st) 16))) st.
Definition p_exthz_d_exec : insn_handler := fun i st =>
  insn_result64 i (iss_get_field64 (REG_GET i 0 st) 0 16) st.
Definition p_extbs_d_exec : insn_handler := fun i st =>
  insn_result64 i (Some (u64 (iss_get_signed_value64 (REG_GET i 0 st) 8))) st.
Definition p_extbz_d_exec : insn_handler := fun i st =>
  insn_result64 i (iss_get_field64 (REG_GET i 0 st) 0 8) st.
Definition p_extws_d_exec : insn_handler := fun i st =>
  insn_result64 i (Some (u64 (iss_get_signed_value64 (REG_GET i 0 st) 32))) st.
Definition p_extwz_d_exec : insn_handler := fun i st =>
  insn_result64 i (iss_get_field64 (REG_GET i 0 st) 0 32) st.
Definition p_mac_d_exec : insn_handler := fun i st =>
  insn_result64 i (Some (u64 (lib_MACS_64 (s64 (REG64_GET i 2 st)) (s32 (REG_GET i 0 st)) (s32 (REG_GET i 1 st))))) st.
Definition p_msu_d_exec : insn_handler := fun i st =>
  insn_result64 i (Some (u64 (lib_MSUS_64 (s64 (REG64_GET i 2 st)) (s32 (REG_GET i 0 st)) (s32 (REG_GET i 1 st))))) st.
Definition p_macu_d_exec : insn_handler := fun i st =>
  insn_result64 i (Some (lib_MACU_64 (REG64_GET i 2 st) (REG_GET i 0 st) (REG_GET i 1 st))) st.
Definition p_msuu_d_exec : insn_handler := fun i st =>
  insn_result64 i (Some (lib_MSUU_64 (REG64_GET i 2 st) (REG_GET i 0 st) (REG_GET i 1 st))) st.
Definition p_muls_d_exec : insn_handler := fun i st =>
  insn_result64 i (Some (u64 (lib_MULS_64 (s32 (REG_GET i 0 st)) (s32 (REG_GET i 1 st))))) st.
Definition p_mulu_d_exec : insn_handler := fun i st =>
  insn_result64 i (Some (lib_MULU_64 (REG_GET i 0 st) (REG_GET i 1 st))) st.
Definition p_mulsh_d_exec : insn_handler := fun i st =>
  insn_result i (Some (Z.shiftr (lib_MULS_64 (s32 (REG_GET i 0 st)) (s32 (REG_GET i 1 st))) 32)) st.
Definition p_muluh_d_exec : insn_handler := fun i st =>
  insn_result i (Some (Z.shiftr (lib_MULU_64 (REG_GET i 0 st) (REG_GET i 1 st)) 32)) st.

(** ** rvXgap8.hpp *)

Definition lib_CPLXMULS_exec : insn_handler := fun i st =>
  insn_result i (Some (lib_CPLXMULS (REG_GET i 0 st) (REG_GET i 1 st))) st.
Definition lib_CPLXMULS_DIV2_exec : insn_handler := fun i st =>
  insn_result i (Some (lib_CPLXMULS_DIV2 (REG_GET i 0 st) (REG_GET i 1 st))) st.
Definition lib_CPLXMULS_DIV4_exec : insn_handler := fun i st =>
  insn_result i (Some (lib_CPLXMULS_DIV4 (REG_GET i 0 st) (REG_GET i 1 st))) st.
Definition lib_CPLXMULS_SC_exec : insn_handler := fun i st =>
  insn_result i (Some (lib_CPLXMULS_SC (REG_GET i 0 st) (s32 (REG_GET i 1 st)))) st.
Definition lib_CPLXMULS_SCI_exec : insn_handler := fun i st =>
  insn_result i (Some (lib_CPLXMULS_SC (REG_GET i 0 st) (SIM_GET i 0))) st.
Definition lib_CPLX_CONJ_16_exec : insn_handler := fun i st =>
  insn_result i (Some (lib_CPLX_CONJ_16 (REG_GET i 0 st))) st.
Definition lib_VEC_ADD_16_ROTMJ_exec : insn_handler := fun i st =>
  insn_result i (Some (lib_VEC_ADD_16_ROTMJ (REG_GET i 0 st) (s32 (REG_GET i 1 st)))) st.
Definition lib_VEC_ADD_16_ROTMJ_DIV2_exec : insn_handler := fun i st =>
  insn_result i (Some (lib_VEC_ADD_16_ROTMJ_DIV2 (REG_GET i 0 st) (s32 (REG_GET i 1 st)))) st.
Definition lib_VEC_ADD_16_ROTMJ_DIV4_exec : insn_handler := fun i st =>
  insn_result i (Some (lib_VEC_ADD_16_ROTMJ_DIV4 (REG_GET i 0 st) (s32 (REG_GET i 1 st)))) st.
Definition lib_VEC_PACK_SC_H_16_exec : insn_handler := fun i st =>
  insn_result i (Some (lib_VEC_PACK_SC_H_16 (REG_GET i 0 st) (REG_GET i 1 st))) st.
Definition lib_VEC_PACK_SC_HL_16_exec : insn_handler := fun i st =>
  insn_result i (Some (lib_VEC_PACK_SC_HL_16 (REG_GET i 0 st) (REG_GET i 1 st))) st.
Definition lib_VEC_ADD_8_DIV2_exec : insn_handler := fun i st =>
  insn_result i (Some (lib_VEC_ADD_int8_t_to_int32_t_div2 (REG_GET i 0 st) (REG_GET i 1 st))) st.
Definition lib_VEC_ADD_8_DIV4_exec : insn_handler := fun i st =>
  insn_result i (Some (lib_VEC_ADD_int8_t_to_int32_t_div4 (REG_GET i 0 st) (REG_GET i 1 st))) st.
Definition lib_VEC_ADD_16_DIV2_exec : insn_handler := fun i st =>
  insn_result i (Some (lib_VEC_ADD_int16_t_to_int32_t_div2 (REG_GET i 0 st) (REG_GET i 1 st))) st.
Definition lib_VEC_ADD_16_DIV4_exec : insn_handler := fun i st =>
  insn_result i (Some (lib_VEC_ADD_int16_t_to_int32_t_div4 (REG_GET i 0 st) (REG_GET i 1 st))) st.
Definition lib_VEC_SUB_8_DIV2_exec : insn_handler := fun i st =>
  insn_result i (Some (lib_VEC_SUB_int8_t_to_int32_t_div2 (REG_GET i 0 st) (REG_GET i 1 st))) st.
Definition lib_VEC_SUB_8_DIV4_exec : insn_handler := fun i st =>
  insn_result i (Some (lib_VEC_SUB_int8_t_to_int32_t_div4 (REG_GET i 0 st) (REG_GET i 1 st))) st.
Definition lib_VEC_SUB_16_DIV2_exec : insn_handler := fun i st =>
  insn_result i (Some (lib_VEC_SUB_int16_t_to_int32_t_div2 (REG_GET i 0 st) (REG_GET i 1 st))) st.
Definition lib_VEC_SUB_16_DIV4_exec : insn_handler := fun i st =>
  insn_result i (Some (lib_VEC_SUB_int16_t_to_int32_t_div4 (REG_GET i 0 st) (REG_GET i 1 st))) st.

(** The Viterbi instructions also have the flags. *)
Definition lib_VITOP_MAX_exec (i : iss_insn) (t : iss (S := S) * viterbi) : option (Z * (iss (S := S) * viterbi)) :=
  let (st, s) := t in
  let (v, s) := lib_VITOP_MAX (REG_GET i 0 st) (REG_GET i 1 st) s in
  Some (i_next i, (REG_SET regs i 0 v st, s)).
Definition lib_VITOP_SEL_exec (i : iss_insn) (t : iss (S := S) * viterbi) : option (Z * (iss (S := S) * viterbi)) :=
  let (st, s) := t in
  Some (i_next i, (REG_SET regs i 0 (lib_VITOP_SEL (REG_GET i 0 st) (REG_GET i 1 st) s) st, s)).

(** ** rvXgap9.hpp *)

Definition gap9_CPLXMUL_H_I_exec : insn_handler := fun i st =>
  insn_result i (Some (lib_CPLXMUL_H_I (REG_GET i 0 st) (REG_GET i 1 st) (REG_GET i 2 st) 0)) st.
Definition gap9_CPLXMUL_H_I_DIV2_exec : insn_handler := fun i st =>
  insn_result i (Some (lib_CPLXMUL_H_I (REG_GET i 0 st) (REG_GET i 1 st) (REG_GET i 2 st) 1)) st.
Definition gap9_CPLXMUL_H_I_DIV4_exec : insn_handler := fun i st =>
  insn_result i (Some (lib_CPLXMUL_H_I (REG_GET i 0 st) (REG_GET i 1 st) (REG_GET i 2 st) 2)) st.
Definition gap9_CPLXMUL_H_I_DIV8_exec : insn_handler := fun i st =>
  insn_result i (Some (lib_CPLXMUL_H_I (REG_GET i 0 st) (REG_GET i 1 st) (REG_GET i 2 st) 3)) st.
Definition gap9_CPLXMUL_H_R_exec : insn_handler := fun i st =>
  insn_result i (Some (lib_CPLXMUL_H_R (REG_GET i 0 st) (REG_GET i 1 st) (REG_GET i 2 st) 0)) st.
Definition gap9_CPLXMUL_H_R_DIV2_exec : insn_handler := fun i st =>
  insn_result i (Some (lib_CPLXMUL_H_R (REG_GET i 0 st) (REG_GET i 1 st) (REG_GET i 2 st) 1)) st.
Definition gap9_CPLXMUL_H_R_DIV4_exec : insn_handler := fun i st =>
  insn_result i (Some (lib_CPLXMUL_H_R (REG_GET i 0 st) (REG_GET i 1 st) (REG_GET i 2 st) 2)) st.
Definition gap9_CPLXMUL_H_R_DIV8_exec : insn_handler := fun i st =>
  insn_result i (Some (lib_CPLXMUL_H_R (REG_GET i 0 st) (REG_GET i 1 st) (REG_GET i 2 st) 3)) st.
Definition gap9_CPLX_CONJ_16_exec : insn_handler := fun i st =>
  insn_result i (Some (lib_CPLX_CONJ_16 (REG_GET i 0 st))) st.
Definition gap9_VEC_ADD_16_ROTMJ_exec : insn_handler := fun i st =>
  insn_result i (Some (lib_VEC_ADD_16_ROTMJ (REG_GET i 0 st) (s32 (REG_GET i 1 st)))) st.
Definition gap9_VEC_ADD_16_ROTMJ_DIV2_exec : insn_handler := fun i st =>
  insn_result i (Some (lib_VEC_ADD_16_ROTMJ_DIV2 (REG_GET i 0 st) (s32 (REG_GET i 1 st)))) st.
Definition gap9_VEC_ADD_16_ROTMJ_DIV4_exec : insn_handler := fun i st =>
  insn_result i (Some (lib_VEC_ADD_16_ROTMJ_DIV4 (REG_GET i 0 st) (s32 (REG_GET i 1 st)))) st.
Definition gap9_VEC_ADD_16_ROTMJ_DIV8_exec : insn_handler := fun i st =>
  insn_result i (Some (lib_VEC_ADD_16_ROTMJ_DIV8 (REG_GET i 0 st) (s32 (REG_GET i 1 st)))) st.
Definition gap9_VEC_ADD_16_DIV2_exec : insn_handler := fun i st =>
  insn_result i (Some (lib_VEC_ADD_int16_t_to_int32_t_div2 (REG_GET i 0 st) (REG_GET i 1 st))) st.
Definition gap9_VEC_ADD_16_DIV4_exec : insn_handler := fun i st =>
  insn_result i (Some (lib_VEC_ADD_int16_t_to_int32_t_div4 (REG_GET i 0 st) (REG_GET i 1 st))) st.
Definition gap9_VEC_ADD_16_DIV8_exec : insn_handler := fun i st =>
  insn_result i (Some (lib_VEC_ADD_int16_t_to_int32_t_div8 (REG_GET i 0 st) (REG_GET i 1 st))) st.
Definition gap9_VEC_SUB_16_DIV2_exec : insn_handler := fun i st =>
  insn_result i (Some (lib_VEC_SUB_int16_t_to_int32_t_div2 (REG_GET i 0 st) (REG_GET i 1 st))) st.
Definition gap9_VEC_SUB_16_DIV4_exec : insn_handler := fun i st =>
  insn_result i (Some (lib_VEC_SUB_int16_t_to_int32_t_div4 (REG_GET i 0 st) (REG_GET i 1 st))) st.
Definition gap9_VEC_SUB_16_DIV8_exec : insn_handler := fun i st =>
  insn_result i (Some (lib_VEC_SUB_int16_t_to_int32_t_div8 (REG_GET i 0 st) (REG_GET i 1 st))) st.
Definition gap9_VEC_PACK_SC_H_16_exec : insn_handler := fun i st =>
  insn_result i (Some (lib_VEC_PACK_SC_H_16 (REG_GET i 0 st) (REG_GET i 1 st))) st.
Definition gap9_BITREV_exec : insn_handler := fun i st =>
  insn_result i (lib_BITREV (REG_GET i 0 st) (UIM_GET i 0) (u32 (UIM_GET i 1 + 1))) st.
End Handlers.

(** ** The 64-bit instructions *)

Section Int64.
Context {S : Type} (regs : Z).
Implicit Types (i : iss_insn) (st : iss (S := S)).

(** The value of a pair of registers. *)
Definition pair_value (k : Z) st : Z := if k =? 0 then 0 else get_reg regs st k + 2 ^ 32 * get_reg regs st (k + 1).

Lemma reg64_pair i k st : REG64_GET regs i k st = pair_value (REG_IN i k) st.
Proof.
  unfold REG64_GET, pair_value, iss_get_reg64_untimed, get_reg. destruct (_ =? 0); [done|].
  pose proof (get_reg_range regs (hst st) (REG_IN i k)). pose proof (get_reg_range regs (hst st) (REG_IN i k + 1)).
  rewrite Z.shiftl_mul_pow2, uw_small by lia. lia.
Qed.

Lemma pair_range k st : 0 <= pair_value k st < 2 ^ 64.
Proof.
  unfold pair_value, get_reg. destruct (_ =? 0); [lia|].
  pose proof (get_reg_range regs (hst st) k). pose proof (get_reg_range regs (hst st) (k + 1)). lia.
Qed.

Lemma get_reg_set64 r v st j : get_reg regs (set_hst (iss_set_reg64 regs r v (hst st)) st) j =
  if negb (r =? 0) && (j =? r) then u32 v
  else if negb (r =? 0) && (j =? r + 1) then u32 (Z.shiftr v 32) else get_reg regs st j.
Proof.
  unfold iss_set_reg64. destruct (Z.eqb_spec r 0) as [->|Hr]; [done|]. cbn [negb andb].
  assert (forall k v h, store_bytes (regs + 4 * k) (lanes 8 4 v) h = iss_set_reg regs k v h \/ k = 0) as Hset.
  { intros k v' h. unfold iss_set_reg. destruct (Z.eqb_spec k 0); [by right|by left]. }
  unfold get_reg. cbn [hst set_hst].
  assert (forall k v h, iss_get_reg_untimed regs (store_bytes (regs + 4 * k) (lanes 8 4 v) h) j =
    if j =? k then u32 v else iss_get_reg_untimed regs h j) as Hget.
  { intros k v' h. destruct (Z.eqb_spec j k) as [->|Hj].
    - unfold iss_get_reg_untimed. change 4 with (Z.of_nat (length (lanes 8 4 v'))) at 2. rewrite load_bytes_stored. by apply (pack_lanes 8 4).
    - apply get_reg_ext. intros p Hp. rewrite hget_store_bytes, length_lanes.
      destruct (Z.leb_spec (regs + 4 * k) p), (Z.ltb_spec p (regs + 4 * k + Z.of_nat 4)); try done; lia. }
  rewrite !Hget. destruct (Z.eqb_spec j (r + 1)) as [->|]; [|destruct (Z.eqb_spec j r); [|done]].
  - by rewrite (proj2 (Z.eqb_neq (r + 1) r)) by lia.
  - change 0xFFFFFFFF with (Z.ones 32). by rewrite uw_land, uw_idemp by lia.
Qed.

(** The operands: the pairs, the words, and the signed values of both. *)
#[local] Notation X := (fun i st => pair_value (REG_IN i 0) st).
#[local] Notation Y := (fun i st => pair_value (REG_IN i 1) st).
#[local] Notation W := (fun i st => pair_value (REG_IN i 2) st).
#[local] Notation A := (fun i st => REG_GET regs i 0 st).
#[local] Notation B := (fun i st => REG_GET regs i 1 st).

Definition count_ones (x : Z) : Z := Z.of_nat (length (filter (fun k => Z.testbit x (Z.of_nat k) = true) (seq 0 64))).
Definition truth (b : bool) : Z := if b then 1 else 0.
Definition shift64 (n v : Z) : option Z := if n <? 64 then Some (v mod 2 ^ 64) else None.

(** The handlers, whether their result is a pair, and what they compute; [None] is undefined behaviour of the
    C code. *)
Definition int64_insns : list (insn_handler (S := S) * bool * (iss_insn -> iss (S := S) -> option Z)) :=
  [(add_d_exec regs, true, fun i st => Some ((X i st + Y i st) mod 2 ^ 64));
   (sub_d_exec regs, true, fun i st => Some ((X i st - Y i st) mod 2 ^ 64));
   (sll_d_exec regs, true, fun i st => shift64 (Y i st) (X i st * 2 ^ Y i st));
   (slt_d_exec regs, false, fun i st => Some (truth (s64 (X i st) <? s64 (Y i st))));
   (sltu_d_exec regs, false, fun i st => Some (truth (X i st <? Y i st)));
   (xor_d_exec regs, true, fun i st => Some (Z.lxor (X i st) (Y i st)));
   (srl_d_exec regs, true, fun i st => shift64 (Y i st) (X i st / 2 ^ Y i st));
   (sra_d_exec regs, true, fun i st => shift64 (Y i st) (s64 (X i st) / 2 ^ Y i st));
   (or_d_exec regs, true, fun i st => Some (Z.lor (X i st) (Y i st)));
   (and_d_exec regs, true, fun i st => Some (Z.land (X i st) (Y i st)));
   (slli_d_exec regs, true, fun i st => shift64 (UIM_GET i 0) (X i st * 2 ^ UIM_GET i 0));
   (srli_d_exec regs, true, fun i st => shift64 (UIM_GET i 0) (X i st / 2 ^ UIM_GET i 0));
   (srai_d_exec regs, true, fun i st => shift64 (UIM_GET i 0) (s64 (X i st) / 2 ^ UIM_GET i 0));
   (addi_d_exec regs, true, fun i st => Some ((X i st + SIM_GET i 0) mod 2 ^ 64));
   (slti_d_exec regs, false, fun i st => Some (truth (s64 (X i st) <? SIM_GET i 0)));
   (sltiu_d_exec regs, false, fun i st => Some (truth (X i st <? UIM_GET i 0)));
   (xori_d_exec regs, true, fun i st => Some (Z.lxor (X i st) (UIM_GET i 0)));
   (ori_d_exec regs, true, fun i st => Some (Z.lor (X i st) (UIM_GET i 0)));
   (andi_d_exec regs, true, fun i st => Some (Z.land (X i st) (UIM_GET i 0)));
   (p_abs_d_exec regs, true, fun i st => Some (Z.abs (s64 (X i st))));
   (p_seq_d_exec regs, false, fun i st => Some (truth (X i st =? Y i st)));
   (p_sne_d_exec regs, false, fun i st => Some (truth (negb (X i st =? Y i st))));
   (p_slet_d_exec regs, false, fun i st => Some (truth (s64 (X i st) <=? s64 (Y i st))));
   (p_sletu_d_exec regs, false, fun i st => Some (truth (X i st <=? Y i st)));
   (p_min_d_exec regs, true, fun i st => Some (Z.min (s64 (X i st)) (s64 (Y i st)) mod 2 ^ 64));
   (p_minu_d_exec regs, true, fun i st => Some (Z.min (X i st) (Y i st)));
   (p_max_d_exec regs, true, fun i st => Some (Z.max (s64 (X i st)) (s64 (Y i st)) mod 2 ^ 64));
   (p_maxu_d_exec regs, true, fun i st => Some (Z.max (X i st) (Y i st)));
   (p_cnt_d_exec regs, false, fun i st => Some (count_ones (X i st)));
   (p_exths_d_exec regs, true, fun i st => Some (sw 16 (A i st) mod 2 ^ 64));
   (p_exthz_d_exec regs, true, fun i st => Some (A i st mod 2 ^ 16));
   (p_extbs_d_exec regs, true, fun i st => Some (sw 8 (A i st) mod 2 ^ 64));
   (p_extbz_d_exec regs, true, fun i st => Some (A i st mod 2 ^ 8));
   (p_extws_d_exec regs, true, fun i st => Some (s32 (A i st) mod 2 ^ 64));
   (p_extwz_d_exec regs, true, fun i st => None);
   (p_mac_d_exec regs, true, fun i st => Some ((W i st + s32 (A i st) * s32 (B i st)) mod 2 ^ 64));
   (p_msu_d_exec regs, true, fun i st => Some ((W i st - s32 (A i st) * s32 (B i st)) mod 2 ^ 64));
   (p_macu_d_exec regs, true, fun i st => Some ((W i st + A i st * B i st) mod 2 ^ 64));
   (p_msuu_d_exec regs, true, fun i st => Some ((W i st - A i st * B i st) mod 2 ^ 64));
   (p_muls_d_exec regs, true, fun i st => Some ((s32 (A i st) * s32 (B i st)) mod 2 ^ 64));
   (p_mulu_d_exec regs, true, fun i st => Some (A i st * B i st));
   (p_mulsh_d_exec regs, false, fun i st => Some ((s32 (A i st) * s32 (B i st) / 2 ^ 32) mod 2 ^ 32));
   (p_muluh_d_exec regs, false, fun i st => Some (A i st * B i st / 2 ^ 32))].

Lemma popcount_filter n : forall k a, popcount_from n (Z.of_nat k) a = Z.of_nat (length (filter (fun j => Z.testbit a (Z.of_nat j) = true) (seq k n))).
Proof.
  induction n as [|n IH]; intros k a; [done|]. cbn [popcount_from seq]. rewrite filter_cons.
  replace (Z.of_nat k + 1) with (Z.of_nat (Datatypes.S k)) by lia. rewrite IH.
  destruct (Z.testbit a (Z.of_nat k)) eqn:E; cbn [Z.b2z]; [rewrite decide_True by done; cbn [length]; lia|].
  by rewrite decide_False by done.
Qed.

Lemma popcount_ext n : forall k j a b, (forall m, 0 <= m < Z.of_nat n -> Z.testbit a (k + m) = Z.testbit b (j + m)) ->
  popcount_from n k a = popcount_from n j b.
Proof.
  induction n as [|n IH]; intros k j a b H; [done|]. cbn [popcount_from]. pose proof (H 0 ltac:(lia)) as H0. rewrite !Z.add_0_r in H0.
  rewrite H0. f_equal. apply IH. intros m Hm. replace (k + 1 + m) with (k + (1 + m)) by lia. replace (j + 1 + m) with (j + (1 + m)) by lia.
  apply H. lia.
Qed.

Lemma count_64 x : lib_CNT_64 x = count_ones x.
Proof.
  unfold lib_CNT_64, count_ones, popcount. change (Z.shiftl 1 32 - 1) with (Z.ones 32). rewrite !uw_land by lia.
  rewrite (popcount_ext 32 0 (Z.of_nat 32) (u32 (Z.shiftr x 32)) x), (popcount_ext 32 0 (Z.of_nat 0) (u32 x) x).
  - rewrite !popcount_filter. change (seq 0 64) with (seq 0 32 ++ seq 32 32). rewrite filter_app, length_app. lia.
  - intros m Hm. rewrite uw_testbit by lia. by rewrite (proj2 (Z.ltb_lt _ _)) by lia.
  - intros m Hm. rewrite uw_testbit, Z.shiftr_spec by lia. rewrite (proj2 (Z.ltb_lt _ _)) by lia. cbn [andb]. f_equal. lia.
Qed.

Lemma shifts_64 x n : 0 <= n ->
  lib_SLL_64 x n = shift64 n (x * 2 ^ n) /\ (0 <= x < 2 ^ 64 -> lib_SRL_64 x n = shift64 n (x / 2 ^ n)) /\
  (let* v := lib_SRA_64 x n in Some (u64 v)) = shift64 n (x / 2 ^ n).
Proof.
  intros Hn. unfold lib_SLL_64, lib_SRL_64, lib_SRA_64, shift64, shl, shr. rewrite (proj2 (Z.leb_le 0 n)) by lia. cbn [andb].
  destruct (n <? 64); [|done]. rewrite Z.shiftl_mul_pow2, Z.shiftr_div_pow2 by lia. split; [done|]. split; [|done].
  intros Hx. f_equal. symmetry. apply Z.mod_small. pose proof (Z.pow_pos_nonneg 2 n ltac:(lia) Hn).
  split; [apply Z.div_pos; lia|]. apply Z.div_lt_upper_bound; nia.
Qed.

Lemma signed_field_64 v n : 0 < n <= 64 -> iss_get_signed_value64 v n = sw n v.
Proof.
  intros Hn. unfold iss_get_signed_value64. rewrite Z.shiftr_div_pow2, Z.shiftl_mul_pow2 by lia.
  pose proof (sw_range n v ltac:(lia)) as Hr.
  assert (2 ^ 64 = 2 ^ n * 2 ^ (64 - n)) as E64 by (rewrite <- Z.pow_add_r by lia; f_equal; lia).
  assert (2 ^ 63 = 2 ^ (n - 1) * 2 ^ (64 - n)) as E63 by (rewrite <- Z.pow_add_r by lia; f_equal; lia).
  pose proof (Z.pow_pos_nonneg 2 (64 - n) ltac:(lia) ltac:(lia)) as Hp.
  assert (s64 (v * 2 ^ (64 - n)) = sw n v * 2 ^ (64 - n)) as ->; [|apply Z.div_mul; lia].
  rewrite <- (sw_small 64 (sw n v * 2 ^ (64 - n))) by nia. apply uw_eq_sw. destruct (sw_spec n v ltac:(lia)) as [k ->].
  rewrite Z.mul_add_distr_r, <- Z.mul_assoc, <- E64. by rewrite uw_add_mul by lia.
Qed.

Lemma low_field_64 v n : 0 < n < 31 -> 0 <= v < 2 ^ 32 -> iss_get_field64 v 0 n = Some (v mod 2 ^ n).
Proof.
  intros Hn Hv. unfold iss_get_field64. rewrite shl_some by lia. assert (0 < 2 ^ n < 2 ^ 31) as Hp by (split; [lia|apply Z.pow_lt_mono_r; lia]).
  rewrite Z.shiftl_mul_pow2, Z.mul_1_l, (sw_small 32 (2 ^ n)), (uw_small 32 (2 ^ n - 1)), Z.shiftr_0_r by lia.
  replace (2 ^ n - 1) with (Z.ones n) by (rewrite Z.ones_equiv; lia). by rewrite Z.land_ones by lia.
Qed.

Lemma signed_product a b : - 2 ^ 62 <= s32 a * s32 b <= 2 ^ 62.
Proof. pose proof (sw_range 32 a ltac:(lia)). pose proof (sw_range 32 b ltac:(lia)). change (32 - 1) with 31 in *. nia. Qed.

Lemma insn_result_word i v st : insn_result regs i (Some (u32 v)) st = insn_result regs i (Some v) st.
Proof. unfold insn_result, REG_SET. cbn [mbind option_bind]. by rewrite set_reg_word. Qed.

Lemma logic_range x y : 0 <= x < 2 ^ 64 -> 0 <= y < 2 ^ 64 ->
  0 <= Z.lxor x y < 2 ^ 64 /\ 0 <= Z.lor x y < 2 ^ 64 /\ 0 <= Z.land x y < 2 ^ 64.
Proof.
  intros Hx Hy. split_and!; apply (range_of_bits 64); try lia; intros k Hk;
    rewrite ?Z.lxor_spec, ?Z.lor_spec, ?Z.land_spec, (testbit_above 64 x k), (testbit_above 64 y k) by lia; done.
Qed.

Lemma count_range x : 0 <= count_ones x <= 64.
Proof. unfold count_ones. pose proof (length_filter (fun k => Z.testbit x (Z.of_nat k) = true) (seq 0 64)) as H. rewrite length_seq in H. lia. Qed.

(** A signed 64-bit result, in its pair. *)
Lemma signed_result v : u64 (s64 v) = v mod 2 ^ 64.
Proof. by apply uw_sw. Qed.

Lemma int64_value f (wide : bool) v i st : (f, wide, v) ∈ int64_insns -> insn_ok i ->
  f i st = (if wide then insn_result64 regs i (v i st) st else insn_result regs i (v i st) st) /\
  forall r, v i st = Some r -> 0 <= r < (if wide then 2 ^ 64 else 2 ^ 32).
Proof.
  intros Hin [Hs Hu]. pose proof (pair_range (REG_IN i 0) st) as Hx. pose proof (pair_range (REG_IN i 1) st) as Hy.
  pose proof (get_reg_range regs (hst st) (REG_IN i 0) : 0 <= REG_GET regs i 0 st < 2 ^ 32) as Ha.
  pose proof (get_reg_range regs (hst st) (REG_IN i 1) : 0 <= REG_GET regs i 1 st < 2 ^ 32) as Hb.
  specialize (Hs 0%nat). specialize (Hu 0%nat).
  pose proof (fun x => Z.mod_pos_bound x (2 ^ 64) ltac:(lia)) as Hm.
  assert (forall b, 0 <= truth b < 2 ^ 32) as Ht by (intros []; cbn; lia).
  unfold int64_insns in Hin.
  repeat (apply elem_of_cons in Hin as [Hin|Hin]; [injection Hin as -> -> ->; cbv beta|]); [..|by apply elem_of_nil in Hin].
  all: unfold add_d_exec, sub_d_exec, sll_d_exec, slt_d_exec, sltu_d_exec, xor_d_exec, srl_d_exec, sra_d_exec, or_d_exec, and_d_exec,
    slli_d_exec, srli_d_exec, srai_d_exec, addi_d_exec, slti_d_exec, sltiu_d_exec, xori_d_exec, ori_d_exec, andi_d_exec,
    p_abs_d_exec, p_seq_d_exec, p_sne_d_exec, p_slet_d_exec, p_sletu_d_exec, p_min_d_exec, p_minu_d_exec, p_max_d_exec,
    p_maxu_d_exec, p_cnt_d_exec, p_exths_d_exec, p_exthz_d_exec, p_extbs_d_exec, p_extbz_d_exec, p_extws_d_exec, p_extwz_d_exec,
    p_mac_d_exec, p_msu_d_exec, p_macu_d_exec, p_msuu_d_exec, p_muls_d_exec, p_mulu_d_exec, p_mulsh_d_exec, p_muluh_d_exec.
  all: rewrite ?reg64_pair; split.
  all: try (intros r [= <-]; first [apply Hm|apply Ht|apply logic_range; lia]).
  all: try (unfold shift64; intros r; destruct (_ <? 64); [intros [= <-]; apply Hm|done]).
  all: try reflexivity.
  all: generalize dependent (REG_GET regs i 0 st); generalize dependent (REG_GET regs i 1 st); generalize (pair_value (REG_IN i 2) st);
    generalize dependent (pair_value (REG_IN i 0) st); generalize dependent (pair_value (REG_IN i 1) st); intros y Hy x Hx z b Hb a Ha.
  all: pose proof (sw_range 64 x ltac:(lia)) as Hsx; pose proof (sw_range 64 y ltac:(lia)) as Hsy; change (64 - 1) with 63 in *.
  all: pose proof (signed_product a b) as Hab.
  - by rewrite (proj1 (shifts_64 x y ltac:(lia))).
  - by rewrite (proj1 (proj2 (shifts_64 x y ltac:(lia)))) by lia.
  - by rewrite (proj2 (proj2 (shifts_64 (s64 x) y ltac:(lia)))).
  - by rewrite (proj1 (shifts_64 x (UIM_GET i 0) ltac:(lia))).
  - by rewrite (proj1 (proj2 (shifts_64 x (UIM_GET i 0) ltac:(lia)))) by lia.
  - by rewrite (proj2 (proj2 (shifts_64 (s64 x) (UIM_GET i 0) ltac:(lia)))).
  - unfold lib_ADD_64. by rewrite uw_add_r by lia.
  - unfold lib_ABS_64. destruct (Z.ltb_spec (s64 x) 0); do 2 f_equal.
    + rewrite signed_result, Z.mod_small by lia. lia.
    + rewrite uw_small by lia. lia.
  - intros r [= <-]. lia.
  - unfold lib_MINS_64, uw. do 3 f_equal. destruct (Z.ltb_spec (s64 x) (s64 y)); lia.
  - unfold lib_MINU_64. do 2 f_equal. destruct (Z.ltb_spec x y); lia.
  - intros r [= <-]. lia.
  - unfold lib_MAXS_64, uw. do 3 f_equal. rewrite Z.gtb_ltb. destruct (Z.ltb_spec (s64 y) (s64 x)); lia.
  - unfold lib_MAXU_64. do 2 f_equal. rewrite Z.gtb_ltb. destruct (Z.ltb_spec y x); lia.
  - intros r [= <-]. lia.
  - by rewrite count_64.
  - intros r [= <-]. pose proof (count_range x). lia.
  - by rewrite signed_field_64 by lia.
  - by rewrite low_field_64 by lia.
  - intros r [= <-]. pose proof (Z.mod_pos_bound a (2 ^ 16) ltac:(lia)). lia.
  - by rewrite signed_field_64 by lia.
  - by rewrite low_field_64 by lia.
  - intros r [= <-]. pose proof (Z.mod_pos_bound a (2 ^ 8) ltac:(lia)). lia.
  - by rewrite signed_field_64 by lia.
  - unfold lib_MACS_64. do 2 f_equal. rewrite signed_result. destruct (sw_spec 64 z ltac:(lia)) as [k ->].
    rewrite <- Z.add_assoc, (Z.add_comm (k * 2 ^ 64)), Z.add_assoc. by apply Z.mod_add.
  - unfold lib_MSUS_64. do 2 f_equal. rewrite signed_result. destruct (sw_spec 64 z ltac:(lia)) as [k ->].
    replace (z + k * 2 ^ 64 - s32 a * s32 b) with (z - s32 a * s32 b + k * 2 ^ 64) by ring. by apply Z.mod_add.
  - unfold lib_MULS_64. by rewrite signed_result.
  - unfold lib_MULU_64. by rewrite uw_small by nia.
  - intros r [= <-]. nia.
  - unfold lib_MULS_64. rewrite (sw_small 64) by lia. rewrite Z.shiftr_div_pow2 by lia. symmetry. apply insn_result_word.
  - intros r [= <-]. apply Z.mod_pos_bound. lia.
  - unfold lib_MULU_64. rewrite uw_small by nia. by rewrite Z.shiftr_div_pow2 by lia.
  - intros r [= <-]. split; [apply Z.div_pos; nia|apply Z.div_lt_upper_bound; nia].
Qed.

(** C29: The 43 instructions of the 64-bit extension compute, on pairs of registers of 32 bits, what the C types of
    their operands say: sums, shifts, comparisons, logic, minima and maxima of 64-bit values, signed or not,
    products of words on 64 bits with or without an accumulator, extensions and counts. The destination pair takes the
    two halves of the result, or the destination register a narrow one, unless it is x0; nothing else changes. A shift by 64
    or more is undefined, and so is, always, p.extwz.d, which shifts an int by 32. *)
Theorem int64_insns_isa f (wide : bool) v i st : (f, wide, v) ∈ int64_insns -> insn_ok i ->
  match v i st with
  | None => f i st = None
  | Some r => 0 <= r < (if wide then 2 ^ 64 else 2 ^ 32) /\
      exists st', f i st = Some (i_next i, st') /\ cpu st' = cpu st /\ bus st' = bus st /\
      forall k, get_reg regs st' k =
        if negb (REG_OUT i 0 =? 0) && (k =? REG_OUT i 0) then r mod 2 ^ 32
        else if wide && negb (REG_OUT i 0 =? 0) && (k =? REG_OUT i 0 + 1) then r / 2 ^ 32
        else get_reg regs st k
  end.
Proof.
  intros Hin Hok. destruct (int64_value f wide v i st Hin Hok) as [E Hr]. destruct (v i st) as [r|].
  - specialize (Hr r eq_refl). split; [exact Hr|]. destruct wide; rewrite E; eexists; (split; [reflexivity|split; [done|split; [done|]]]); intros k.
    + unfold REG64_SET. rewrite get_reg_set64. destruct (negb (REG_OUT i 0 =? 0)); cbn [andb]; [|done].
      destruct (k =? REG_OUT i 0); [done|]. destruct (k =? REG_OUT i 0 + 1); [|done].
      rewrite Z.shiftr_div_pow2 by lia. apply uw_small. split; [apply Z.div_pos; lia|apply Z.div_lt_upper_bound; lia].
    + unfold REG_SET. rewrite get_reg_set. by destruct (negb (REG_OUT i 0 =? 0) && (k =? REG_OUT i 0)).
  - by destruct wide; rewrite E.
Qed.
End Int64.

(** The pair of x6 and x7 is 3 * 2^32 - 7. *)
Lemma int64_insns_isa_witness :
  exists st', add_d_exec 5000 (demo_insn 6 6 10 0) demo_iss = Some (68, st') /\
    get_reg 5000 st' 10 = 2 ^ 32 - 14 /\ get_reg 5000 st' 11 = 5.
Proof.
  pose proof (int64_insns_isa (S := memory) 5000 (add_d_exec 5000) true _ (demo_insn 6 6 10 0) demo_iss
    ltac:(by apply (list_elem_of_lookup_2 _ 0)) (demo_insn_ok 6 6 10 0 ltac:(lia))) as H. cbv beta iota in H.
  destruct H as (_ & st' & E & _ & _ & H). exists st'. split; [exact E|]. split; rewrite H; vm_compute; reflexivity.
Defined.
