(* ===== verification/PulpNN.v ===== *)
(** * Neural-network instructions (models/cpu/iss/include/pulp_nn.hpp and rnnext.hpp)

    The vector instructions on nibbles and crumbs, the dot products that load their next operand into a special
    register, and the quantiser, over the functions of IsaVec.v and IsaNN.v and the core of Rv32.v. The structure
    iss_pulp_nn_t is in the buffers of the bus, at [nn], since the data port loads into its fields; the prefetched
    operands of rnnext.hpp are at [rnnext]. The instruction pointers kept for the traces are left out. *)

From S2P Require Import Prelude Io Memory IsaInt IsaVec Rv32 PulpSimd IsaNN.

Section PulpNN.
Context {S : Type} (regs port : Z) (data : io_meth S) (nn rnnext : Z).
(** The values of two variables that lib_VEC_MAX_SC_int2_t and its like leave uninitialised, and of the two words that
    lib_VEC_ABS_int2_t reads after its operand. *)
Context (u2 u3 m2 m3 : Z).
Implicit Types (i : iss_insn) (st : iss (S := S)).
#[local] Notation REG_GET := (REG_GET regs).
#[local] Notation REG_SET := (REG_SET regs).
#[local] Notation insn_result := (insn_result regs).
#[local] Notation insn_handler := (insn_handler (S := S)).

Definition IN_REG_SET (i : iss_insn) (k : nat) (value : Z) st : iss := set_reg regs (REG_IN i k) value st.

(** ** Vectors of nibbles and crumbs *)

Record nn_insns := NnInsns {
  nn_n_exec : insn_handler;
  nn_sc_n_exec : insn_handler;
  nn_c_exec : insn_handler;
  nn_sc_c_exec : insn_handler;
}.

Definition PV_OP_RS_EXEC_NN (lib_n lib_sc_n lib_c lib_sc_c : Z -> Z -> Z) : nn_insns := {|
  nn_n_exec i st := insn_result i (Some (lib_n (REG_GET i 0 st) (REG_GET i 1 st))) st;
  nn_sc_n_exec i st := insn_result i (Some (lib_sc_n (REG_GET i 0 st) (REG_GET i 1 st))) st;
  nn_c_exec i st := insn_result i (Some (lib_c (REG_GET i 0 st) (REG_GET i 1 st))) st;
  nn_sc_c_exec i st := insn_result i (Some (lib_sc_c (REG_GET i 0 st) (REG_GET i 1 st))) st;
|}.
Definition PV_OP_RU_EXEC_NN (lib_n lib_sc_n lib_c lib_sc_c : Z -> Z -> Z) : nn_insns := {|
  nn_n_exec i st := insn_result i (Some (lib_n (REG_GET i 0 st) (REG_GET i 1 st))) st;
  nn_sc_n_exec i st := insn_result i (Some (lib_sc_n (REG_GET i 0 st) (REG_GET i 1 st))) st;
  nn_c_exec i st := insn_result i (Some (lib_c (REG_GET i 0 st) (REG_GET i 1 st))) st;
  nn_sc_c_exec i st := insn_result i (Some (lib_sc_c (REG_GET i 0 st) (REG_GET i 1 st))) st;
|}.

(** A scalar parameter of type int8_t. *)
Definition sc8 (f : Z -> Z -> Z) (a b : Z) : Z := f a (conv int8_t b).

Definition nn_add := PV_OP_RS_EXEC_NN lib_VEC_ADD_int4_t_to_int32_t (sc8 lib_VEC_ADD_SC_int4_t_to_int32_t)
  lib_VEC_ADD_int2_t_to_int32_t (sc8 lib_VEC_ADD_SC_int2_t_to_int32_t).
Definition nn_sub := PV_OP_RS_EXEC_NN lib_VEC_SUB_int4_t_to_int32_t (sc8 lib_VEC_SUB_SC_int4_t_to_int32_t)
  lib_VEC_SUB_int2_t_to_int32_t (sc8 lib_VEC_SUB_SC_int2_t_to_int32_t).
Definition nn_avg := PV_OP_RS_EXEC_NN lib_VEC_AVG_int4_t_to_int32_t lib_VEC_AVG_SC_int4_t_to_int32_t
  lib_VEC_AVG_int2_t_to_int32_t lib_VEC_AVG_SC_int2_t_to_int32_t.
Definition nn_avgu := PV_OP_RU_EXEC_NN lib_VEC_AVGU_uint4_t_to_uint32_t lib_VEC_AVGU_SC_uint4_t_to_uint32_t
  lib_VEC_AVGU_uint2_t_to_uint32_t lib_VEC_AVGU_SC_uint2_t_to_uint32_t.
Definition nn_max := PV_OP_RS_EXEC_NN lib_VEC_MAX_int4_t_to_int32_t (lib_VEC_MAX_SC_int4_t_to_int32_t u2 u3)
  lib_VEC_MAX_int2_t_to_int32_t (lib_VEC_MAX_SC_int2_t_to_int32_t u2 u3).
Definition nn_maxu := PV_OP_RU_EXEC_NN lib_VEC_MAXU_uint4_t_to_uint32_t (lib_VEC_MAXU_SC_uint4_t_to_uint32_t u2 u3)
  lib_VEC_MAXU_uint2_t_to_uint32_t (lib_VEC_MAXU_SC_uint2_t_to_uint32_t u2 u3).
Definition nn_min := PV_OP_RS_EXEC_NN lib_VEC_MIN_int4_t_to_int32_t (lib_VEC_MIN_SC_int4_t_to_int32_t u2 u3)
  lib_VEC_MIN_int2_t_to_int32_t (lib_VEC_MIN_SC_int2_t_to_int32_t u2 u3).
Definition nn_minu := PV_OP_RU_EXEC_NN lib_VEC_MINU_uint4_t_to_uint32_t (lib_VEC_MINU_SC_uint4_t_to_uint32_t u2 u3)
  lib_VEC_MINU_uint2_t_to_uint32_t (lib_VEC_MINU_SC_uint2_t_to_uint32_t u2 u3).
Definition nn_srl := PV_OP_RU_EXEC_NN lib_VEC_SRL_uint4_t_to_uint32_t lib_VEC_SRL_SC_uint4_t_to_uint32_t
  lib_VEC_SRL_uint2_t_to_uint32_t lib_VEC_SRL_SC_uint2_t_to_uint32_t.
Definition nn_sra := PV_OP_RS_EXEC_NN lib_VEC_SRA_int4_t_to_int32_t lib_VEC_SRA_SC_int4_t_to_int32_t
  lib_VEC_SRA_int2_t_to_int32_t lib_VEC_SRA_SC_int2_t_to_int32_t.
Definition nn_sll := PV_OP_RU_EXEC_NN lib_VEC_SLL_uint4_t_to_uint32_t lib_VEC_SLL_SC_uint4_t_to_uint32_t
  lib_VEC_SLL_uint2_t_to_uint32_t lib_VEC_SLL_SC_uint2_t_to_uint32_t.
Definition nn_or := PV_OP_RS_EXEC_NN lib_VEC_OR_int4_t_to_int32_t (sc8 lib_VEC_OR_SC_int4_t_to_int32_t)
  lib_VEC_OR_int2_t_to_int32_t (sc8 lib_VEC_OR_SC_int2_t_to_int32_t).
Definition nn_xor := PV_OP_RS_EXEC_NN lib_VEC_XOR_int4_t_to_int32_t (sc8 lib_VEC_XOR_SC_int4_t_to_int32_t)
  lib_VEC_XOR_int2_t_to_int32_t (sc8 lib_VEC_XOR_SC_int2_t_to_int32_t).
Definition nn_and := PV_OP_RS_EXEC_NN lib_VEC_AND_int4_t_to_int32_t (sc8 lib_VEC_AND_SC_int4_t_to_int32_t)
  lib_VEC_AND_int2_t_to_int32_t (sc8 lib_VEC_AND_SC_int2_t_to_int32_t).

Record nn_unary := NnUnary { un_n_exec : insn_handler; un_c_exec : insn_handler }.
Definition PV_OP1_RS_EXEC_NN (lib_n lib_c : Z -> Z) : nn_unary := {|
  un_n_exec i st := insn_result i (Some (lib_n (REG_GET i 0 st))) st;
  un_c_exec i st := insn_result i (Some (lib_c (REG_GET i 0 st))) st;
|}.
Definition nn_abs := PV_OP1_RS_EXEC_NN lib_VEC_ABS_int4_t_to_int32_t (lib_VEC_ABS_int2_t_to_int32_t m2 m3).

(** ** Dot products *)

Definition PV_OP_RS_EXEC_NN_2 (lib_4 lib_sc_4 lib_2 lib_sc_2 : Z -> Z -> Z) : nn_insns := {|
  nn_n_exec i st := insn_result i (Some (lib_4 (REG_GET i 0 st) (REG_GET i 1 st))) st;
  nn_sc_n_exec i st := insn_result i (Some (lib_sc_4 (REG_GET i 0 st) (REG_GET i 1 st))) st;
  nn_c_exec i st := insn_result i (Some (lib_2 (REG_GET i 0 st) (REG_GET i 1 st))) st;
  nn_sc_c_exec i st := insn_result i (Some (lib_sc_2 (REG_GET i 0 st) (REG_GET i 1 st))) st;
|}.
Definition PV_OP_RU_EXEC_NN_2 (lib_4 lib_sc_4 lib_2 lib_sc_2 : Z -> Z -> Z) : nn_insns := {|
  nn_n_exec i st := insn_result i (Some (lib_4 (REG_GET i 0 st) (REG_GET i 1 st))) st;
  nn_sc_n_exec i st := insn_result i (Some (lib_sc_4 (REG_GET i 0 st) (REG_GET i 1 st))) st;
  nn_c_exec i st := insn_result i (Some (lib_2 (REG_GET i 0 st) (REG_GET i 1 st))) st;
  nn_sc_c_exec i st := insn_result i (Some (lib_sc_2 (REG_GET i 0 st) (REG_GET i 1 st))) st;
|}.
Definition PV_OP_RRS_EXEC_NN_2 (lib_4 lib_sc_4 lib_2 lib_sc_2 : Z -> Z -> Z -> Z) : nn_insns := {|
  nn_n_exec i st := insn_result i (Some (lib_4 (REG_GET i 2 st) (REG_GET i 0 st) (REG_GET i 1 st))) st;
  nn_sc_n_exec i st := insn_result i (Some (lib_sc_4 (REG_GET i 2 st) (REG_GET i 0 st) (REG_GET i 1 st))) st;
  nn_c_exec i st := insn_result i (Some (lib_2 (REG_GET i 2 st) (REG_GET i 0 st) (REG_GET i 1 st))) st;
  nn_sc_c_exec i st := insn_result i (Some (lib_sc_2 (REG_GET i 2 st) (REG_GET i 0 st) (REG_GET i 1 st))) st;
|}.
Definition PV_OP_RRU_EXEC_NN_2 (lib_4 lib_sc_4 lib_2 lib_sc_2 : Z -> Z -> Z -> Z) : nn_insns := {|
  nn_n_exec i st := insn_result i (Some (lib_4 (REG_GET i 2 st) (REG_GET i 0 st) (REG_GET i 1 st))) st;
  nn_sc_n_exec i st := insn_result i (Some (lib_sc_4 (REG_GET i 2 st) (REG_GET i 0 st) (REG_GET i 1 st))) st;
  nn_c_exec i st := insn_result i (Some (lib_2 (REG_GET i 2 st) (REG_GET i 0 st) (REG_GET i 1 st))) st;
  nn_sc_c_exec i st := insn_result i (Some (lib_sc_2 (REG_GET i 2 st) (REG_GET i 0 st) (REG_GET i 1 st))) st;
|}.

Definition nn_dotsp := PV_OP_RS_EXEC_NN_2 lib_VEC_DOTSP_4 lib_VEC_DOTSP_SC_4 lib_VEC_DOTSP_2 lib_VEC_DOTSP_SC_2.
Definition nn_dotup := PV_OP_RU_EXEC_NN_2 lib_VEC_DOTUP_4 lib_VEC_DOTUP_SC_4 lib_VEC_DOTUP_2 lib_VEC_DOTUP_SC_2.
Definition nn_dotusp := PV_OP_RS_EXEC_NN_2 lib_VEC_DOTUSP_4 lib_VEC_DOTUSP_SC_4 lib_VEC_DOTUSP_2 lib_VEC_DOTUSP_SC_2.
Definition nn_sdotsp := PV_OP_RRS_EXEC_NN_2 lib_VEC_SDOTSP_4 lib_VEC_SDOTSP_SC_4 lib_VEC_SDOTSP_2 lib_VEC_SDOTSP_SC_2.
Definition nn_sdotusp := PV_OP_RRS_EXEC_NN_2 lib_VEC_SDOTUSP_4 lib_VEC_SDOTUSP_SC_4 lib_VEC_SDOTUSP_2 lib_VEC_SDOTUSP_SC_2.
Definition nn_sdotup := PV_OP_RRU_EXEC_NN_2 lib_VEC_SDOTUP_4 lib_VEC_SDOTUP_SC_4 lib_VEC_SDOTUP_2 lib_VEC_SDOTUP_SC_2.

(** ** The state: iss_pulp_nn_t

    qnt_step, the four qnt_regs, addr_reg, qnt_reg_out and the six spr_ml, in this order, of four bytes each. *)

Definition word_get (p : Z) st : Z := pack 8 (load_bytes p 4 (hst st)).
Definition word_set (p v : Z) st : iss := set_hst (store_bytes p (lanes 8 4 v) (hst st)) st.
Definition qnt_step_p : Z := nn.
Definition qnt_regs_p (k : Z) : Z := nn + 4 + 4 * k.
Definition addr_reg_p : Z := nn + 20.
Definition qnt_reg_out_p : Z := nn + 24.
Definition spr_ml_p (k : Z) : Z := nn + 28 + 4 * k.

Definition iss_set_spec_purp_reg (spreg value : Z) st : iss :=
  if (0 <=? spreg) && (spreg <? 6) then word_set (spr_ml_p spreg) value st else st.
Definition iss_get_spec_purp_reg (spreg : Z) st : Z :=
  if (0 <=? spreg) && (spreg <? 6) then word_get (spr_ml_p spreg) st else 0.
#[local] Notation SPR_GET := iss_get_spec_purp_reg.

Definition iss_pulp_nn_init st : iss := word_set qnt_step_p 0 st.

(** A load that is not over only leaves a callback that does nothing. *)
Definition stall_unless_ok (err : io_req_status_e) st : iss :=
  match err with IO_REQ_OK => st | _ => stall_access TraceResume (stall_reg (cpu st)) (stall_size (cpu st)) st end.

(** ** Dot products of two special registers (pv.mlsdotup and the others) *)

Definition WSPR_UPDATE_MASK : Z := 0x10.
Definition WSPR_UPDATE_POS : Z := 4.
Definition ASPR_UPDATE_MASK : Z := 0x08.
Definition ASPR_UPDATE_POS : Z := 3.
Definition WSPR_ADDR_MASK : Z := 0x06.
Definition WSPR_ADDR_POS : Z := 1.
Definition ASPR_ADDR_MASK : Z := 0x01.
Definition ASPR_ADDR_POS : Z := 0.

Definition ac_addr (ctl_imm : Z) : Z := Z.shiftr (Z.land ctl_imm ASPR_ADDR_MASK) ASPR_ADDR_POS.
Definition wt_addr (ctl_imm : Z) : Z := Z.shiftr (Z.land ctl_imm WSPR_ADDR_MASK) WSPR_ADDR_POS + 0x2.
Definition ac_update (ctl_imm : Z) : bool := negb (Z.shiftr (Z.land ctl_imm ASPR_UPDATE_MASK) ASPR_UPDATE_POS =? 0).
Definition wt_update (ctl_imm : Z) : bool := negb (Z.shiftr (Z.land ctl_imm WSPR_UPDATE_MASK) WSPR_UPDATE_POS =? 0).

(** The load of the next value of a special register. *)
Definition spr_update (i : iss_insn) (spr : Z) st : option (Z * iss (S := S)) :=
  let addr := REG_GET i 1 st in
  let* (err, st) := data_req port data addr (spr_ml_p spr) 4 false st in
  Some (i_next i, IN_REG_SET i 1 (u32 (addr + 4)) (stall_unless_ok err st)).

Definition ml_exec (signOpA : bool) (lib : Z -> Z -> Z -> Z) : insn_handler := fun i st =>
  let ctl_imm := UIM_GET i 0 in
  let ac := ac_addr ctl_imm in
  let wt := wt_addr ctl_imm in
  let st := if signOpA then REG_SET i 0 (lib (REG_GET i 0 st) (SPR_GET ac st) (SPR_GET wt st)) st
            else REG_SET i 0 (lib (REG_GET i 0 st) (SPR_GET wt st) (SPR_GET ac st)) st in
  if ac_update ctl_imm then spr_update i ac st
  else if wt_update ctl_imm then spr_update i wt st
  else Some (i_next i, st).

Record ml_insns := MlInsns { ml_h_exec : insn_handler; ml_b_exec : insn_handler; ml_n_exec : insn_handler; ml_c_exec : insn_handler }.
Definition PV_OP_RRRU3_EXEC_NN (lib_16 lib_8 lib_4 lib_2 : Z -> Z -> Z -> Z) (signOpA : bool) : ml_insns := {|
  ml_h_exec := ml_exec signOpA lib_16;
  ml_b_exec := ml_exec signOpA lib_8;
  ml_n_exec := ml_exec signOpA lib_4;
  ml_c_exec := ml_exec signOpA lib_2;
|}.
Definition pv_mlsdotup := PV_OP_RRRU3_EXEC_NN lib_VEC_SDOTUP_16 lib_VEC_SDOTUP_8 lib_VEC_SDOTUP_4 lib_VEC_SDOTUP_2 false.
Definition pv_mlsdotusp := PV_OP_RRRU3_EXEC_NN lib_VEC_SDOTUSP_16 lib_VEC_SDOTUSP_8 lib_VEC_SDOTUSP_4 lib_VEC_SDOTUSP_2 false.
Definition pv_mlsdotsup := PV_OP_RRRU3_EXEC_NN lib_VEC_SDOTUSP_16 lib_VEC_SDOTUSP_8 lib_VEC_SDOTUSP_4 lib_VEC_SDOTUSP_2 true.
Definition pv_mlsdotsp := PV_OP_RRRU3_EXEC_NN lib_VEC_SDOTSP_16 lib_VEC_SDOTSP_8 lib_VEC_SDOTSP_4 lib_VEC_SDOTSP_2 true.

(** ** rnnext.hpp *)

Definition sdot_prefetch_p (k : Z) : Z := rnnext + 4 * k.

Definition pl_sdotsp_h_exec (k : Z) : insn_handler := fun i st =>
  let addr := REG_GET i 0 st in
  let st := IN_REG_SET i 0 (u32 (addr + 4)) st in
  let st := REG_SET i 0 (lib_VEC_SDOTSP_16 (REG_GET i 2 st) (word_get (sdot_prefetch_p k) st) (REG_GET i 1 st)) st in
  let* (err, st) := data_req port data addr (sdot_prefetch_p k) 4 false st in
  Some (i_next i, stall_unless_ok err st).
Definition pl_sdotsp_h_0_exec : insn_handler := pl_sdotsp_h_exec 0.
Definition pl_sdotsp_h_1_exec : insn_handler := pl_sdotsp_h_exec 1.
Definition pl_tanh_exec : insn_handler := fun i st => insn_result i (lib_TANH (REG_GET i 0 st)) st.
Definition pl_sig_exec : insn_handler := fun i st => insn_result i (lib_SIG (REG_GET i 0 st)) st.

(** ** The quantiser (pv.qnt.n)

    It is executed again, at the same address, until its last step; each of the last four loads a threshold in the
    entry of qnt_regs of the number of the step, which for the last one is the field after the array. *)

Definition qnt_stall (i : iss_insn) (reg : Z) st : option (Z * iss (S := S)) :=
  Some (i_addr i, stall_access TraceResume reg (stall_size (cpu st)) st).

(** The threshold in the entry, an int16_t compared as an unsigned int. *)
Definition threshold (p : Z) st : Z := u32 (s16 (pack 8 (load_bytes p 2 (hst st)))).

Definition qnt_step (i : iss_insn) (input addr reg : Z) st : option (Z * iss (S := S)) :=
  let step := s32 (word_get qnt_step_p st) in
  let data_p := qnt_regs_p step in
  let st := word_set addr_reg_p addr st in
  if step =? 0 then Some (i_addr i, word_set qnt_step_p (step + 1) st)
  else if step =? 1 then
    let* (err, st) := data_req port data (word_get addr_reg_p st) data_p 2 false st in
    match err with
    | IO_REQ_OK =>
        let st := if input <=? threshold data_p st
                  then word_set addr_reg_p (u32 (word_get addr_reg_p st - 4 * 2)) (word_set qnt_reg_out_p 1 st)
                  else word_set addr_reg_p (u32 (word_get addr_reg_p st + 4 * 2)) (word_set qnt_reg_out_p 0 st) in
        let st := word_set qnt_reg_out_p (u32 (Z.shiftl (word_get qnt_reg_out_p st) 1)) st in
        Some (i_addr i, word_set qnt_step_p (step + 1) st)
    | _ => qnt_stall i reg st
    end
  else if (step =? 2) || (step =? 3) then
    let move := if step =? 2 then 2 * 2 else 1 * 2 in
    let* (err, st) := data_req port data (word_get addr_reg_p st) data_p 2 false st in
    match err with
    | IO_REQ_OK =>
        let st := if input >? threshold data_p st
                  then word_set addr_reg_p (u32 (word_get addr_reg_p st + move)) (word_set qnt_reg_out_p (Z.lor (word_get qnt_reg_out_p st) 1) st)
                  else word_set addr_reg_p (u32 (word_get addr_reg_p st - move)) (word_set qnt_reg_out_p (Z.lor (word_get qnt_reg_out_p st) 0) st) in
        let st := word_set qnt_reg_out_p (u32 (Z.shiftl (word_get qnt_reg_out_p st) 1)) st in
        Some (i_addr i, word_set qnt_step_p (step + 1) st)
    | _ => qnt_stall i reg st
    end
  else if step =? 4 then
    let* (err, st) := data_req port data (word_get addr_reg_p st) data_p 2 false st in
    match err with
    | IO_REQ_OK =>
        let st := if input >? threshold data_p st
                  then word_set qnt_reg_out_p (Z.lor (word_get qnt_reg_out_p st) 1) st
                  else word_set qnt_reg_out_p (Z.lor (word_get qnt_reg_out_p st) 0) st in
        let st := word_set qnt_step_p 0 st in
        let out := word_get qnt_reg_out_p st in
        let out := if negb (Z.land out 0x08 =? 0) then Z.lor out 0xFFFFFFF0 else Z.land out 0x0000000F in
        let st := REG_SET i 0 out (word_set qnt_reg_out_p out st) in
        Some (i_next i, set_cpu (set_insn_cycles 2 (cpu st)) st)
    | _ => qnt_stall i reg st
    end
  else Some (i_addr i, st).

Definition pv_qnt_n_exec : insn_handler := fun i st => qnt_step i (REG_GET i 0 st) (REG_GET i 1 st) (REG_OUT i 0) st.
End PulpNN.

(** ** The vector instructions *)

Section Vectors.
Context {S : Type} (regs port : Z) (data : io_meth S) (nn rnnext u2 u3 m2 m3 : Z).
Implicit Types (i : iss_insn) (st : iss (S := S)).
#[local] Notation N := (nn_n_exec (S := S)).
#[local] Notation C := (nn_c_exec (S := S)).
#[local] Notation NS := (nn_sc_n_exec (S := S)).
#[local] Notation CS := (nn_sc_c_exec (S := S)).
#[local] Notation handlers := (list (insn_handler (S := S))).

(** The handlers, in the order of the tables of IsaNN.v. The scalar forms of the maxima and minima of crumbs, which have no
    defined result, are not there. *)
Definition nn_both (o : nn_insns (S := S)) : handlers := [N o; C o].
Definition nn_scalars (o : nn_insns (S := S)) : handlers := [NS o; CS o].
Definition nn_vec_insns : handlers :=
  concat (map nn_both [nn_add regs; nn_sub regs; nn_or regs; nn_xor regs; nn_and regs; nn_avg regs; nn_avgu regs; nn_max regs u2 u3;
    nn_maxu regs u2 u3; nn_min regs u2 u3; nn_minu regs u2 u3; nn_srl regs; nn_sra regs; nn_sll regs]).
Definition nn_sc_insns : handlers :=
  concat (map nn_scalars [nn_add regs; nn_sub regs; nn_or regs; nn_xor regs; nn_and regs; nn_avg regs; nn_avgu regs]) ++
  [NS (nn_max regs u2 u3); NS (nn_maxu regs u2 u3); NS (nn_min regs u2 u3); NS (nn_minu regs u2 u3)] ++
  concat (map nn_scalars [nn_srl regs; nn_sra regs; nn_sll regs]).

(** Each row of a table: the dot product, its scalar form, and both with an accumulator. *)
Definition nn_dot_insns : list (insn_handler (S := S) * insn_handler (S := S) * insn_handler (S := S) * insn_handler (S := S)) :=
  [(N (nn_dotsp regs), NS (nn_dotsp regs), N (nn_sdotsp regs), NS (nn_sdotsp regs));
   (C (nn_dotsp regs), CS (nn_dotsp regs), C (nn_sdotsp regs), CS (nn_sdotsp regs));
   (N (nn_dotup regs), NS (nn_dotup regs), N (nn_sdotup regs), NS (nn_sdotup regs));
   (C (nn_dotup regs), CS (nn_dotup regs), C (nn_sdotup regs), CS (nn_sdotup regs));
   (N (nn_dotusp regs), NS (nn_dotusp regs), N (nn_sdotusp regs), NS (nn_sdotusp regs));
   (C (nn_dotusp regs), CS (nn_dotusp regs), C (nn_sdotusp regs), CS (nn_sdotusp regs))].

Definition calls2 (f : Z -> Z -> Z) (h : insn_handler (S := S)) : Prop :=
  forall i st, h i st = insn_result regs i (Some (f (REG_GET regs i 0 st) (REG_GET regs i 1 st))) st.

(** An operation that fills a word. *)
Definition fills_word (o : simd_op) : Prop := 0 < iwidth (so_elem o) /\ iwidth (so_elem o) * Z.of_nat (so_n o) = 32.

Lemma vec_rows : Forall2 (fun h o => calls2 (so_fun o) h /\ fills_word o) nn_vec_insns nn_table.
Proof.
  unfold nn_vec_insns, nn_both, nn_table. cbn [map concat app].
  repeat (apply Forall2_cons; split; [split; [intros i st; exact eq_refl|split; exact eq_refl]|]). by apply Forall2_nil.
Qed.

(** The scalar maxima of nibbles do not use the variables left uninitialised. *)
Lemma max_nibbles_any ty s t oper a b : VEC_EXPR_NN_MAX_SC ty 8 s t oper u2 u3 a b = VEC_EXPR_NN_MAX_SC ty 8 s t oper 0 0 a b.
Proof. unfold VEC_EXPR_NN_MAX_SC. change (8 =? 8) with true. reflexivity. Qed.

Lemma calls_max ty s t oper (h : insn_handler (S := S)) :
  calls2 (VEC_EXPR_NN_MAX_SC ty 8 s t oper u2 u3) h -> calls2 (VEC_EXPR_NN_MAX_SC ty 8 s t oper 0 0) h.
Proof. intros H i st. rewrite H. by rewrite max_nibbles_any. Qed.

Lemma sc_rows : Forall2 (fun h o => (calls2 (so_fun o) h \/ calls2 (sc8 (so_fun o)) h /\ isigned (so_elem o) = true /\ iwidth (so_elem o) <= 8) /\
  fills_word o) nn_sc_insns nn_sc_table.
Proof.
  unfold nn_sc_insns, nn_scalars, nn_sc_table. cbn [map concat app].
  do 10 (apply Forall2_cons; split; [split; [right; split; [intros i st; exact eq_refl|split; [exact eq_refl|discriminate]]|split; exact eq_refl]|]).
  do 4 (apply Forall2_cons; split; [split; [left; intros i st; exact eq_refl|split; exact eq_refl]|]).
  do 4 (apply Forall2_cons; split; [split; [left; cbn [so_fun]; apply calls_max; intros i st;
    unfold nn_max, nn_maxu, nn_min, nn_minu, PV_OP_RS_EXEC_NN, PV_OP_RU_EXEC_NN; cbn [nn_sc_n_exec]; reflexivity|split; exact eq_refl]|]).
  do 6 (apply Forall2_cons; split; [split; [left; intros i st; exact eq_refl|split; exact eq_refl]|]).
  by apply Forall2_nil.
Qed.

(** What a handler writes, from the row of its operation. *)
Definition nn_vec_spec (h : insn_handler (S := S)) (o : simd_op) : Prop := forall i st,
  writes_elems regs (so_elem o) (so_n o)
    (zip_with (fun x y => conv (so_elem o) (so_spec o x y)) (elems (so_elem o) (so_n o) (REG_GET regs i 0 st))
      (elems (so_elem o) (so_n o) (REG_GET regs i 1 st))) i st h.
Definition nn_sc_spec (h : insn_handler (S := S)) (o : simd_op) : Prop := forall i st,
  writes_elems regs (so_elem o) (so_n o)
    ((fun x => conv (so_elem o) (so_spec o x (conv (so_elem o) (REG_GET regs i 1 st)))) <$> elems (so_elem o) (so_n o) (REG_GET regs i 0 st)) i st h.
Definition nn_dot_ok (h : insn_handler (S := S) * insn_handler (S := S) * insn_handler (S := S) * insn_handler (S := S)) (o : dot_op) : Prop :=
  let '(dot, dot_sc, sdot, sdot_sc) := h in forall i st,
  let la := elems (do_a o) (do_n o) (REG_GET regs i 0 st) in
  let lb := elems (do_b o) (do_n o) (REG_GET regs i 1 st) in
  let b0 := default 0 (lb !! 0%nat) in
  writes_dot regs 0 (zip la lb) i st dot /\ writes_dot regs 0 ((fun x => (x, b0)) <$> la) i st dot_sc /\
  writes_dot regs (REG_GET regs i 2 st) (zip la lb) i st sdot /\ writes_dot regs (REG_GET regs i 2 st) ((fun x => (x, b0)) <$> la) i st sdot_sc.

Lemma dot_rows : Forall2 (fun h o => iwidth (do_out o) = 32 /\
  let '(dot, dot_sc, sdot, sdot_sc) := h in
  calls2 (do_dot o) dot /\ calls2 (do_dot_sc o) dot_sc /\
  (forall i st, sdot i st = insn_result regs i (Some (do_sdot o (REG_GET regs i 2 st) (REG_GET regs i 0 st) (REG_GET regs i 1 st))) st) /\
  (forall i st, sdot_sc i st = insn_result regs i (Some (do_sdot_sc o (REG_GET regs i 2 st) (REG_GET regs i 0 st) (REG_GET regs i 1 st))) st))
  nn_dot_insns nn_dot_table.
Proof.
  unfold nn_dot_insns, nn_dot_table.
  repeat (apply Forall2_cons; split; [split; [exact eq_refl|split_and!; intros i st; exact eq_refl]|]). by apply Forall2_nil.
Qed.

(** C28: The vector instructions on nibbles and crumbs: the 28 element-wise ones and the 24 with a scalar that have a
    defined result write in each element of the destination the operation on this element of the first operand and
    on the same element, or the first one, of the second, cut to the element; the 24 dot products write the sum of
    the products of the elements, signed or not, with or without an accumulator, modulo 2^32. No other register
    nor the memory changes. *)
Theorem nn_vector_isa :
  Forall2 nn_vec_spec nn_vec_insns nn_table /\ Forall2 nn_sc_spec nn_sc_insns nn_sc_table /\ Forall2 nn_dot_ok nn_dot_insns nn_dot_table.
Proof.
  assert (forall A B (P Q : A -> B -> Prop) (R : B -> Prop) l k, Forall2 P l k -> Forall R k -> (forall x y, P x y -> R y -> Q x y) -> Forall2 Q l k) as Hmap.
  { intros A B P Q R l k H. induction H as [|x y l k Hxy H IH]; intros HR Hi; [by constructor|]. apply Forall_cons in HR as [Hy HR]. constructor; auto. }
  split; [|split].
  - apply (Hmap _ _ _ _ _ _ _ vec_rows nn_lanewise). intros h o [Hc [Hw Hn]] Ho i st.
    eapply result_elems; [apply Hc|done|done|apply Ho].
  - apply (Hmap _ _ _ _ _ _ _ sc_rows nn_scalar). intros h o [[Hc|(Hc & Hs & H8)] [Hw Hn]] Ho i st.
    + eapply result_elems; [apply Hc|done|done|apply Ho].
    + eapply result_elems; [apply Hc|done|done|]. unfold sc8. rewrite Ho. apply list_fmap_ext. intros k x _.
      do 2 f_equal. destruct (so_elem o) as [s w]. cbn in Hs, H8, Hw. subst s. apply conv_conv8; [by left|lia].
  - apply (Hmap _ _ _ _ _ _ _ dot_rows nn_dot_products). intros [[[h1 h2] h3] h4] o (Ht & H1 & H2 & H3 & H4) Ho i st.
    pose proof (Ho (REG_GET regs i 2 st) (REG_GET regs i 0 st) (REG_GET regs i 1 st)) as (E1 & E2 & E3 & E4). cbv zeta.
    split_and!; eapply result_dot; [apply H1|exact Ht|exact E1|apply H2|exact Ht|exact E3|apply H3|exact Ht|exact E2|apply H4|exact Ht|exact E4].
Qed.
End Vectors.

(** ** The dot products that load their next operand *)

Section Streams.
Context {S : Type} (regs port : Z) (data : io_meth S) (rd : S -> Z -> Z) (ok : S -> Z -> Z -> Prop).
Context `{!IoTargets (fun _ : unit => data) (fun _ => rd) (fun _ => ok)}.
Hypothesis ok_part : forall s a n b m, ok s a n -> a <= b -> 0 <= m -> b + m <= a + n -> ok s b m.
(** The structure is apart from the 32 registers. *)
Context (nn : Z).
Hypothesis layout : 0 < nn /\ (nn + 52 <= regs \/ regs + 128 <= nn).
Implicit Types (st : iss (S := S)) (i : iss_insn).

Lemma word_get_ext p st st' : (forall q, p <= q < p + 4 -> hget (hst st') q = hget (hst st) q) -> word_get p st' = word_get p st.
Proof. intros H. unfold word_get. f_equal. apply load_bytes_ext. intros k Hk. apply H. lia. Qed.

Lemma spr_update_ok i spr st :
  let addr := REG_GET regs i 1 st in
  let base := REG_IN i 1 in
  access_ok ok addr 4 st -> 0 <= spr < 6 -> 0 <= base < 32 ->
  exists st', complete port data (spr_update regs port data nn i spr st) = Some st' /\
    misaligned_access (cpu st') = false /\ stalled (cpu st') = stalled (cpu st) /\ (forall b, rd (bus st') b = rd (bus st) b) /\
    (forall k, 0 <= k < 32 -> get_reg regs st' k = if negb (base =? 0) && (k =? base) then u32 (addr + 4) else get_reg regs st k) /\
    (forall k, 0 <= k < 6 -> iss_get_spec_purp_reg nn k st' =
      if k =? spr then pack 8 (mem_bytes rd (bus st) addr 4) else iss_get_spec_purp_reg nn k st).
Proof.
  intros addr base Hok Hspr Hbase. set (d := spr_ml_p nn spr). assert (0 < d) as Hd by (unfold d, spr_ml_p; lia).
  assert (separate regs d 4 base) as Hsep.
  { destruct (Z.eq_dec base 0); [by left|right]. intros p Hp. unfold d, spr_ml_p. lia. }
  set (v := u32 (addr + 4)).
  assert (exists st', complete port data (spr_update regs port data nn i spr st) = Some st' /\
    accessed rd false addr d 4 (iss_set_reg regs base v (hst st)) (cpu st) (bus st) st') as (st' & E & (Hm & Hmis & Hst)).
  { unfold spr_update. fold addr. fold d. destruct (access_update regs port data rd ok ok_part addr d 4 false st i Hok Hd) as (err & st1 & -> & _ & H).
    cbn [mbind option_bind]. destruct (addr mod 4 + 4 <=? 4); destruct H as [-> H].
    - exists (set_reg regs base v st1). destruct H as (Hm & Hmis & Hst). split.
      + unfold complete, stall_unless_ok, IN_REG_SET. fold base. fold v. cbn [cpu set_reg set_hst mbind option_bind]. by rewrite Hmis.
      + split; [|by split]. by apply moves_set_reg.
    - destruct (H TraceResume (stall_reg (cpu st1)) (stall_size (cpu st1)) base v Hsep) as (st2 & E2 & Hacc). by exists st2. }
  exists st'. split; [exact E|]. split; [done|]. split; [done|]. destruct Hm as [Hrd Hh]. cbn [andb negb] in Hrd, Hh.
  rewrite (proj2 (Z.eqb_neq d 0)) in Hh by lia. cbn [negb andb] in Hh. split; [exact Hrd|]. split.
  - intros k Hk. transitivity (iss_get_reg_untimed regs (iss_set_reg regs base v (hst st)) k).
    + apply get_reg_ext. intros p Hp. rewrite Hh. destruct (in_range_spec d 4 p); [|done]. unfold d, spr_ml_p in *. lia.
    + pose proof (get_reg_set regs base v st k) as Hg. unfold get_reg, set_reg in Hg. cbn [hst set_hst] in Hg. rewrite Hg.
      unfold v. by rewrite uw_idemp by lia.
  - intros k Hk. unfold iss_get_spec_purp_reg. rewrite (proj2 (Z.leb_le 0 k)), (proj2 (Z.ltb_lt k 6)) by lia. cbn [andb].
    destruct (Z.eqb_spec k spr) as [->|Hne].
    + unfold word_get. fold d. f_equal. exact (load_bytes_moved rd (bus st) addr d 4 _ _ Hh).
    + apply word_get_ext. intros q Hq. rewrite Hh. destruct (in_range_spec d 4 q); [unfold d, spr_ml_p in *; lia|].
      apply hget_set_reg. unfold spr_ml_p in *. lia.
Qed.

(** The handlers, with the signs of the activations and of the weights, and the width and number of the elements. *)
Definition ml_table : list (insn_handler (S := S) * bool * bool * Z * nat) :=
  let up := pv_mlsdotup regs port data nn in let usp := pv_mlsdotusp regs port data nn in
  let sup := pv_mlsdotsup regs port data nn in let sp := pv_mlsdotsp regs port data nn in
  [(ml_h_exec up, false, false, 16, 2%nat); (ml_b_exec up, false, false, 8, 4%nat); (ml_n_exec up, false, false, 4, 8%nat); (ml_c_exec up, false, false, 2, 16%nat);
   (ml_h_exec usp, true, false, 16, 2%nat); (ml_b_exec usp, true, false, 8, 4%nat); (ml_n_exec usp, true, false, 4, 8%nat); (ml_c_exec usp, true, false, 2, 16%nat);
   (ml_h_exec sup, false, true, 16, 2%nat); (ml_b_exec sup, false, true, 8, 4%nat); (ml_n_exec sup, false, true, 4, 8%nat); (ml_c_exec sup, false, true, 2, 16%nat);
   (ml_h_exec sp, true, true, 16, 2%nat); (ml_b_exec sp, true, true, 8, 4%nat); (ml_n_exec sp, true, true, 4, 8%nat); (ml_c_exec sp, true, true, 2, 16%nat)].

Lemma sum_products_comm l k : sum_products (zip l k) = sum_products (zip k l).
Proof. revert k. induction l as [|x l IH]; intros [|y k]; cbn [zip zip_with sum_products foldr fst snd]; [done..|]. fold (sum_products (zip l k)) (sum_products (zip k l)). rewrite IH. lia. Qed.

Lemma sdot_rows : Forall (fun r => let '(lib, sa, sb, w, n) := r in forall acc x y,
  u32 (lib acc x y) = u32 (acc + sum_products (zip (elems (IType sa w) n x) (elems (IType sb w) n y))))
  [(lib_VEC_SDOTUP_16, false, false, 16, 2%nat); (lib_VEC_SDOTUP_8, false, false, 8, 4%nat); (lib_VEC_SDOTUP_4, false, false, 4, 8%nat);
   (lib_VEC_SDOTUP_2, false, false, 2, 16%nat); (lib_VEC_SDOTUSP_16, false, true, 16, 2%nat); (lib_VEC_SDOTUSP_8, false, true, 8, 4%nat);
   (lib_VEC_SDOTUSP_4, false, true, 4, 8%nat); (lib_VEC_SDOTUSP_2, false, true, 2, 16%nat); (lib_VEC_SDOTSP_16, true, true, 16, 2%nat);
   (lib_VEC_SDOTSP_8, true, true, 8, 4%nat); (lib_VEC_SDOTSP_4, true, true, 4, 8%nat); (lib_VEC_SDOTSP_2, true, true, 2, 16%nat)].
Proof.
  assert (forall t x, iwidth t = 32 -> u32 (conv t x) = u32 x) as Hc.
  { intros t x Ht. unfold conv. rewrite Ht. destruct (isigned t); [by apply (uw_sw 32)|by apply (uw_idemp 32)]. }
  pose proof nn_dot_products as Hnn. unfold nn_dot_table in Hnn. repeat (apply Forall_cons in Hnn as [? Hnn]).
  repeat (apply Forall_cons; split; [intros acc x y|]); [..|by apply Forall_nil].
  all: match goal with
       | |- u32 (?f ?acc ?x ?y) = _ =>
           match goal with
           | H : forall acc a b, dot_spec (DotOp ?t _ _ _ _ _ f _) acc a b |- _ =>
               pose proof (proj1 (proj2 (H acc x y))) as E; cbn [do_sdot do_out do_a do_b do_n] in E; rewrite E; by apply Hc
           | _ => let g := eval unfold f in f in match g with VEC_SDOT ?t ?ea ?eb ?n =>
               pose proof (proj1 (proj2 (dot_row t ea eb n acc x y eq_refl ltac:(lia)))) as E;
               cbn [do_sdot do_out do_a do_b do_n] in E; unfold f; rewrite E; by apply Hc end
           end
       end.
Qed.

Definition ml_dot (sa sw : bool) (w : Z) (n : nat) (acc act wgt : Z) : Z :=
  u32 (acc + sum_products (zip (elems (IType sa w) n act) (elems (IType sw w) n wgt))).

Lemma ml_rows : Forall (fun r : insn_handler (S := S) * bool * bool * Z * nat => let '(h, sa, sw, w, n) := r in
  exists (signOpA : bool) (lib : Z -> Z -> Z -> Z), h = ml_exec regs port data nn signOpA lib /\
  forall acc act wgt, u32 (if signOpA : bool then lib acc act wgt else lib acc wgt act) = ml_dot sa sw w n acc act wgt) ml_table.
Proof.
  pose proof sdot_rows as Hr. repeat (apply Forall_cons in Hr as [? Hr]).
  unfold ml_table. repeat (apply Forall_cons; split; [do 2 eexists; split; [reflexivity|]; intros acc act wgt; unfold ml_dot|]); [..|by apply Forall_nil].
  all: cbv iota beta; match goal with
    | H : forall acc x y, u32 (?f acc x y) = _ |- u32 (?f ?c ?x ?y) = u32 (_ + sum_products (zip (elems _ _ ?x) _)) => exact (H c x y)
    | H : forall acc x y, u32 (?f acc x y) = _ |- u32 (?f ?c ?y ?x) = u32 (_ + sum_products (zip ?l _)) =>
        rewrite (sum_products_comm l); exact (H c y x) end.
Qed.

Lemma ac_addr_range imm : 0 <= ac_addr imm < 2.
Proof.
  unfold ac_addr, ASPR_ADDR_MASK, ASPR_ADDR_POS. rewrite Z.shiftr_0_r. change 1 with (Z.ones 1).
  rewrite Z.land_ones by lia. by apply Z.mod_pos_bound.
Qed.

Lemma wt_addr_range imm : 2 <= wt_addr imm < 6.
Proof.
  assert (wt_addr imm = Z.shiftr imm 1 mod 4 + 2) as ->; [|pose proof (Z.mod_pos_bound (Z.shiftr imm 1) 4); lia].
  unfold wt_addr, WSPR_ADDR_MASK, WSPR_ADDR_POS. rewrite Z.shiftr_land. change (Z.shiftr 6 1) with (Z.ones 2).
  by rewrite Z.land_ones by lia.
Qed.

Lemma spr_set_reg k r v st : 0 <= k < 6 -> 0 <= r < 32 -> iss_get_spec_purp_reg nn k (set_reg regs r v st) = iss_get_spec_purp_reg nn k st.
Proof.
  intros Hk Hr. unfold iss_get_spec_purp_reg. destruct (_ && _); [|done]. apply word_get_ext.
  intros q Hq. apply hget_set_reg. unfold spr_ml_p in Hq. lia.
Qed.

(** C27: A dot product of two special registers, on halves, bytes, nibbles or crumbs, of every signedness, adds to its
    destination the products of the elements of the selected activation and weight registers, modulo 2^32.  When one
    of its update bits is set, the register selected by it, the activation one first, then takes the word at the
    address in the base register, in one word or across two, and the base register moves on by four; the other
    special registers, the other registers and the memory do not change. *)
Theorem ml_streams h sa sw w n i st :
  (h, sa, sw, w, n) ∈ ml_table -> 0 <= REG_OUT i 0 < 32 -> 0 <= REG_IN i 1 < 32 -> REG_OUT i 0 <> REG_IN i 1 ->
  access_ok ok (REG_GET regs i 1 st) 4 st ->
  let imm := UIM_GET i 0 in
  let addr := REG_GET regs i 1 st in
  let update := ac_update imm || wt_update imm in
  let spr := if ac_update imm then ac_addr imm else wt_addr imm in
  let SPR := iss_get_spec_purp_reg nn in
  exists st', complete port data (h i st) = Some st' /\
    misaligned_access (cpu st') = false /\ stalled (cpu st') = stalled (cpu st) /\ (forall b, rd (bus st') b = rd (bus st) b) /\
    (forall k, 0 <= k < 32 -> get_reg regs st' k =
      if negb (REG_OUT i 0 =? 0) && (k =? REG_OUT i 0) then ml_dot sa sw w n (REG_GET regs i 0 st) (SPR (ac_addr imm) st) (SPR (wt_addr imm) st)
      else if update && negb (REG_IN i 1 =? 0) && (k =? REG_IN i 1) then u32 (addr + 4) else get_reg regs st k) /\
    (forall k, 0 <= k < 6 -> SPR k st' = if update && (k =? spr) then pack 8 (mem_bytes rd (bus st) addr 4) else SPR k st).
Proof.
  intros Hin Hout Hb Hne Hok imm addr update spr SPR.
  pose proof (proj1 (Forall_forall _ _) ml_rows _ Hin) as (signOpA & lib & -> & Hlib).
  set (v := if signOpA then lib (REG_GET regs i 0 st) (SPR (ac_addr imm) st) (SPR (wt_addr imm) st)
            else lib (REG_GET regs i 0 st) (SPR (wt_addr imm) st) (SPR (ac_addr imm) st)).
  set (st1 := set_reg regs (REG_OUT i 0) v st).
  assert (ml_exec regs port data nn signOpA lib i st =
    if update then spr_update regs port data nn i spr st1 else Some (i_next i, st1)) as ->.
  { unfold ml_exec, st1, v, update, spr, REG_SET. fold imm. destruct signOpA, (ac_update imm), (wt_update imm); reflexivity. }
  assert (REG_GET regs i 1 st1 = addr) as Haddr.
  { unfold REG_GET, st1. rewrite get_reg_set. by rewrite (proj2 (Z.eqb_neq (REG_IN i 1) _)), andb_false_r by auto. }
  assert (forall k, get_reg regs st1 k = if negb (REG_OUT i 0 =? 0) && (k =? REG_OUT i 0)
    then ml_dot sa sw w n (REG_GET regs i 0 st) (SPR (ac_addr imm) st) (SPR (wt_addr imm) st) else get_reg regs st k) as Hregs.
  { intros k. unfold st1. rewrite get_reg_set. rewrite <- Hlib. reflexivity. }
  assert (forall k, 0 <= k < 6 -> SPR k st1 = SPR k st) as Hspr by (intros k Hk; by apply spr_set_reg).
  pose proof (ac_addr_range imm). pose proof (wt_addr_range imm).
  destruct update; cbn [andb].
  - destruct (spr_update_ok i spr st1) as (st' & E & H1 & H2 & H3 & H4 & H5); [rewrite Haddr; by destruct Hok|unfold spr; destruct (ac_update imm); lia|lia|].
    rewrite Haddr in H4, H5. exists st'. split_and!; [exact E|exact H1|exact H2|exact H3|..]; intros k Hk.
    + rewrite H4 by lia. rewrite Hregs. destruct (Z.eqb_spec k (REG_OUT i 0)) as [->|]; [|by rewrite andb_false_r].
      by rewrite (proj2 (Z.eqb_neq _ _) Hne), !andb_false_r.
    + rewrite H5 by lia. by rewrite Hspr.
  - exists st1. split; [|split; [exact (ao_idle _ _ _ _ Hok)|split; [done|split; [done|split]]]].
    + unfold complete, st1. cbn [mbind option_bind cpu set_reg set_hst]. by rewrite (ao_idle _ _ _ _ Hok).
    + intros k _. apply Hregs.
    + intros k Hk. by apply Hspr.
Qed.
End Streams.

(** pv.mlsdotsp.b x5, x1, with both update bits: the destination x5 takes the dot product of two special registers which
    are all zero, and the first register the word at the address in x1. *)
Lemma ml_streams_witness :
  exists st', complete 1 (memory_req 0) (ml_b_exec (pv_mlsdotsp 5000 1 (memory_req 0) 6000) (Insn 64 4 [8; 9] [5] [0x19] [0] 68 0) demo_iss) = Some st' /\
    iss_get_spec_purp_reg 6000 1 st' = pack 8 (mem_bytes mem_rd (bus demo_iss) (REG_GET 5000 (Insn 64 4 [8; 9] [5] [0x19] [0] 68 0) 1 demo_iss) 4).
Proof.
  destruct (ml_streams 5000 1 (memory_req 0) mem_rd mem_ok mem_ok_part 6000 ltac:(split; [lia|right; lia])
    (ml_b_exec (pv_mlsdotsp 5000 1 (memory_req 0) 6000)) true true 8 4 (Insn 64 4 [8; 9] [5] [0x19] [0] 68 0) demo_iss) as (st' & E & _ & _ & _ & _ & H).
  - by apply (list_elem_of_lookup_2 _ 13).
  - split; vm_compute; done.
  - split; vm_compute; done.
  - vm_compute. done.
  - apply demo_access; vm_compute; done.
  - exists st'. split; [exact E|]. rewrite H by lia. reflexivity.
Defined.

(** ** The quantiser *)

Section Quantiser.
Context {S : Type} (regs port : Z) (data : io_meth S) (rd : S -> Z -> Z) (ok : S -> Z -> Z -> Prop).
Context `{!IoTargets (fun _ : unit => data) (fun _ => rd) (fun _ => ok)}.
Context (nn : Z).
Hypothesis layout : 0 < nn /\ (nn + 52 <= regs \/ regs + 128 <= nn).
Implicit Types (st : iss (S := S)) (i : iss_insn).

Lemma hget_word_set p v st q : ~ p <= q < p + 4 -> hget (hst (word_set p v st)) q = hget (hst st) q.
Proof.
  intros Hq. unfold word_set. cbn [hst set_hst]. rewrite hget_store_bytes, length_lanes.
  destruct (Z.leb_spec p q), (Z.ltb_spec q (p + Z.of_nat 4)); try done; lia.
Qed.

Lemma word_get_set p v st : word_get p (word_set p v st) = u32 v.
Proof.
  unfold word_get, word_set. cbn [hst set_hst]. change 4 with (Z.of_nat (length (lanes 8 4 v))) at 1.
  rewrite load_bytes_stored. by apply (pack_lanes 8 4).
Qed.

(** The number of the step and the bits found, with all the rest of the core as it was. *)
Record quantising (st0 st : iss (S := S)) (addr step out : Z) : Prop := {
  q_step : word_get (qnt_step_p nn) st = step;
  q_out : word_get (qnt_reg_out_p nn) st = out;
  q_regs : forall p, regs <= p < regs + 128 -> hget (hst st) p = hget (hst st0) p;
  q_mem : forall b, rd (bus st) b = rd (bus st0) b;
  q_ok : ok (bus st) addr 2;
}.

Lemma set_step st0 st addr step out v : 
  quantising st0 st addr step out -> quantising st0 (word_set (qnt_step_p nn) v st) addr (u32 v) out.
Proof.
  intros [H1 H2 H3 H4 H5]. split; [apply word_get_set| | |exact H4|exact H5].
  - rewrite <- H2. apply word_get_ext. intros q Hq. apply hget_word_set. unfold qnt_step_p, qnt_reg_out_p in *. lia.
  - intros p Hp. rewrite <- H3 by done. apply hget_word_set. unfold qnt_step_p. lia.
Qed.

Lemma set_out st0 st addr step out v :
  quantising st0 st addr step out -> quantising st0 (word_set (qnt_reg_out_p nn) v st) addr step (u32 v).
Proof.
  intros [H1 H2 H3 H4 H5]. split; [|apply word_get_set| |exact H4|exact H5].
  - rewrite <- H1. apply word_get_ext. intros q Hq. apply hget_word_set. unfold qnt_step_p, qnt_reg_out_p in *. lia.
  - intros p Hp. rewrite <- H3 by done. apply hget_word_set. unfold qnt_reg_out_p. lia.
Qed.

Lemma set_addr st0 st addr step out v :
  quantising st0 st addr step out -> quantising st0 (word_set (addr_reg_p nn) v st) addr step out.
Proof.
  intros [H1 H2 H3 H4 H5]. split; [| | |exact H4|exact H5].
  - rewrite <- H1. apply word_get_ext. intros q Hq. apply hget_word_set. unfold qnt_step_p, addr_reg_p in *. lia.
  - rewrite <- H2. apply word_get_ext. intros q Hq. apply hget_word_set. unfold qnt_reg_out_p, addr_reg_p in *. lia.
  - intros p Hp. rewrite <- H3 by done. apply hget_word_set. unfold addr_reg_p. lia.
Qed.

(** The bit of a step with the move of the address, and the end of a step. *)
Lemma record_bit st0 st addr step out b v :
  quantising st0 st addr step out -> quantising st0 (word_set (addr_reg_p nn) v (word_set (qnt_reg_out_p nn) b st)) addr step (u32 b).
Proof. intros H. by apply set_addr, set_out with (out := out). Qed.

Lemma advance st0 st addr step out :
  quantising st0 st addr step out ->
  quantising st0 (word_set (qnt_step_p nn) (step + 1) (word_set (qnt_reg_out_p nn) (u32 (Z.shiftl (word_get (qnt_reg_out_p nn) st) 1)) st))
    addr (u32 (step + 1)) (u32 (u32 (Z.shiftl out 1))).
Proof. intros H. rewrite (q_out _ _ _ _ _ H). by apply set_step with (step := step), set_out with (out := out). Qed.

(** The threshold at an address of the memory. *)
Definition mem_threshold (addr : Z) (s : S) : Z := u32 (s16 (pack 8 (mem_bytes rd s addr 2))).

(** A load of the threshold, whatever the entry it goes to. *)
Lemma load_threshold st0 st addr step out k :
  0 <= addr -> addr mod 4 + 2 <= 4 -> addr + 2 <= 2 ^ 32 -> 0 <= k <= 4 -> quantising st0 st addr step out ->
  exists st1, data_req port data addr (qnt_regs_p nn k) 2 false st = Some (IO_REQ_OK, st1) /\
    threshold (qnt_regs_p nn k) st1 = mem_threshold addr (bus st0) /\ quantising st0 st1 addr step out.
Proof.
  intros Ha Hin Hend Hk [H1 H2 H3 H4 H5].
  destruct (data_req_inside port data rd ok addr (qnt_regs_p nn k) 2 false st) as (r & h & s & E & [Hs Hh] & Hkeep);
    [done|done|done|unfold qnt_regs_p; lia|done|done|].
  cbn [andb negb] in Hs, Hh. rewrite (proj2 (Z.eqb_neq (qnt_regs_p nn k) 0)) in Hh by (unfold qnt_regs_p; lia).
  cbn [negb andb] in Hh. eexists. split; [exact E|]. split; [|split].
  - unfold threshold, mem_threshold. cbn [hst]. rewrite (load_bytes_moved rd (bus st) addr _ 2 _ _ Hh).
    do 3 f_equal. unfold mem_bytes. apply list_fmap_ext. intros j x _. apply H4.
  - rewrite <- H1. apply word_get_ext. intros q Hq. cbn [hst]. rewrite Hh.
    destruct (in_range_spec (qnt_regs_p nn k) 2 q); [unfold qnt_regs_p, qnt_step_p in *; lia|done].
  - rewrite <- H2. apply word_get_ext. intros q Hq. cbn [hst]. rewrite Hh.
    destruct (in_range_spec (qnt_regs_p nn k) 2 q); [unfold qnt_regs_p, qnt_reg_out_p in *; lia|done].
  - intros p Hp. cbn [hst]. rewrite Hh, H3 by done.
    destruct (in_range_spec (qnt_regs_p nn k) 2 p); [unfold qnt_regs_p in *; lia|done].
  - intros b. cbn [bus]. by rewrite Hs.
  - cbn [bus]. by apply Hkeep.
Qed.

#[local] Notation handler := (pv_qnt_n_exec regs port data nn).

Lemma quantising_reg st0 st addr step out k : quantising st0 st addr step out -> 0 <= k < 32 -> get_reg regs st k = get_reg regs st0 k.
Proof. intros H Hk. apply get_reg_ext. intros p Hp. apply (q_regs _ _ _ _ _ H). lia. Qed.

Section Steps.
Context (i : iss_insn) (st0 : iss (S := S)).
Let input : Z := REG_GET regs i 0 st0.
Let addr : Z := REG_GET regs i 1 st0.
Let t : Z := mem_threshold addr (bus st0).
Hypothesis inputs : 0 <= REG_IN i 0 < 32 /\ 0 <= REG_IN i 1 < 32.
Hypothesis range : 0 <= addr /\ addr mod 4 + 2 <= 4 /\ addr + 2 <= 2 ^ 32.

(** A call of the handler, from its step. *)
Lemma handler_step st step out : quantising st0 st addr step out -> handler i st = qnt_step regs port data nn i input addr (REG_OUT i 0) st.
Proof.
  intros H. unfold pv_qnt_n_exec, input, addr, REG_GET.
  by rewrite !(quantising_reg _ _ _ _ _ _ H) by apply inputs.
Qed.

Lemma quantising_load st step out k : 0 <= k <= 4 -> quantising st0 st addr step out ->
  exists st1, data_req port data (word_get (addr_reg_p nn) (word_set (addr_reg_p nn) addr st)) (qnt_regs_p nn k) 2 false
      (word_set (addr_reg_p nn) addr st) = Some (IO_REQ_OK, st1) /\
    threshold (qnt_regs_p nn k) st1 = t /\ quantising st0 st1 addr step out.
Proof.
  intros Hk H. rewrite word_get_set, (uw_small 32) by lia.
  apply load_threshold with (out := out) (step := step); try tauto. by apply set_addr.
Qed.

Lemma first_step st out : quantising st0 st addr 0 out ->
  exists st', handler i st = Some (i_addr i, st') /\ quantising st0 st' addr 1 out.
Proof.
  intros H. rewrite (handler_step _ _ _ H). unfold qnt_step. rewrite (q_step _ _ _ _ _ H).
  eexists. split; [reflexivity|]. apply (set_step st0 _ addr 0 out 1). by apply set_addr.
Qed.

Lemma second_step st out : quantising st0 st addr 1 out ->
  exists st', handler i st = Some (i_addr i, st') /\ quantising st0 st' addr 2 (if input <=? t then 2 else 0).
Proof.
  intros H. rewrite (handler_step _ _ _ H). unfold qnt_step. rewrite (q_step _ _ _ _ _ H).
  destruct (quantising_load st 1 out 1 ltac:(lia) H) as (st1 & E & Ht & H1).
  change (s32 1 =? 0) with false. change (s32 1 =? 1) with true. change (s32 1) with 1. cbv iota zeta. rewrite E. cbn [mbind option_bind].
  rewrite Ht. eexists. split; [reflexivity|].
  destruct (input <=? t); [exact (advance _ _ _ _ _ (record_bit _ _ _ _ _ 1 _ H1))|exact (advance _ _ _ _ _ (record_bit _ _ _ _ _ 0 _ H1))].
Qed.

(** A step in the middle appends a bit. *)
Lemma middle_step st step out : step = 2 \/ step = 3 -> quantising st0 st addr step out -> 
  exists st', handler i st = Some (i_addr i, st') /\
    quantising st0 st' addr (u32 (step + 1)) (u32 (u32 (Z.shiftl (u32 (Z.lor out (if input >? t then 1 else 0))) 1))).
Proof.
  intros Hs H. rewrite (handler_step _ _ _ H). unfold qnt_step. rewrite (q_step _ _ _ _ _ H).
  destruct (quantising_load st step out step ltac:(lia) H) as (st1 & E & Ht & H1).
  assert (s32 step = step) as Hs32 by (destruct Hs; subst step; reflexivity). rewrite Hs32.
  replace (step =? 0) with false by lia. replace (step =? 1) with false by lia. replace ((step =? 2) || (step =? 3)) with true by lia.
  cbv iota zeta. rewrite E. cbn [mbind option_bind]. rewrite Ht, (q_out _ _ _ _ _ H1). eexists. split; [reflexivity|].
  destruct (input >? t); [exact (advance _ _ _ _ _ (record_bit _ _ _ _ _ (Z.lor out 1) _ H1))|exact (advance _ _ _ _ _ (record_bit _ _ _ _ _ (Z.lor out 0) _ H1))].
Qed.

(** The last one sets the destination. *)
Definition qnt_out (out : Z) : Z := if negb (Z.land out 0x08 =? 0) then Z.lor out 0xFFFFFFF0 else Z.land out 0x0000000F.

Lemma last_step st out : 0 <= REG_OUT i 0 < 32 -> quantising st0 st addr 4 out ->
  exists st', handler i st = Some (i_next i, st') /\
    word_get (qnt_step_p nn) st' = 0 /\ (forall b, rd (bus st') b = rd (bus st0) b) /\
    (forall k, 0 <= k < 32 -> get_reg regs st' k =
      if negb (REG_OUT i 0 =? 0) && (k =? REG_OUT i 0) then u32 (qnt_out (u32 (Z.lor out (if input >? t then 1 else 0)))) else get_reg regs st0 k).
Proof.
  intros Hr H. rewrite (handler_step _ _ _ H). unfold qnt_step. rewrite (q_step _ _ _ _ _ H).
  destruct (quantising_load st 4 out 4 ltac:(lia) H) as (st1 & E & Ht & H1).
  change (s32 4) with 4. cbn [Z.eqb Pos.eqb orb]. cbv zeta. rewrite E. cbn [mbind option_bind]. rewrite Ht, (q_out _ _ _ _ _ H1).
  set (b := Z.lor out (if input >? t then 1 else 0)).
  replace (if input >? t then word_set (qnt_reg_out_p nn) (Z.lor out 1) st1 else word_set (qnt_reg_out_p nn) (Z.lor out 0) st1)
    with (word_set (qnt_reg_out_p nn) b st1) by (unfold b; by destruct (input >? t)).
  pose proof (set_step _ _ _ _ _ 0 (set_out _ _ _ _ _ b H1)) as H2. rewrite (q_out _ _ _ _ _ H2). fold (qnt_out (u32 b)).
  set (st2 := word_set (qnt_reg_out_p nn) (qnt_out (u32 b)) (word_set (qnt_step_p nn) 0 (word_set (qnt_reg_out_p nn) b st1))).
  assert (quantising st0 st2 addr (u32 0) (u32 (qnt_out (u32 b)))) as H3 by exact (set_out _ _ _ _ _ (qnt_out (u32 b)) H2).
  eexists. split; [reflexivity|].
  unfold REG_SET. split_and!.
  - transitivity (word_get (qnt_step_p nn) st2); [|exact (q_step _ _ _ _ _ H3)]. apply word_get_ext. intros q Hq. apply (hget_set_reg regs). unfold qnt_step_p in Hq. lia.
  - exact (q_mem _ _ _ _ _ H3).
  - intros k Hk. pose proof (get_reg_set regs (REG_OUT i 0) (qnt_out (u32 b)) st2 k) as Hg.
    rewrite (quantising_reg _ _ _ _ _ _ H3 Hk) in Hg. exact Hg.
Qed.

(** The instruction executed again as long as it asks for it. *)
Fixpoint execute_again (fuel : nat) (st : iss (S := S)) : option (Z * iss) :=
  match fuel with
  | O => None
  | Datatypes.S fuel => let* (pc, st) := handler i st in if pc =? i_addr i then execute_again fuel st else Some (pc, st)
  end.

Lemma again fuel st st1 : handler i st = Some (i_addr i, st1) -> execute_again (Datatypes.S fuel) st = execute_again fuel st1.
Proof. intros H. cbn [execute_again]. rewrite H. cbn [mbind option_bind]. by rewrite Z.eqb_refl. Qed.

(** pv.qnt.n executed again until it leaves, with its threshold in one word of the memory, takes five executions,
    resets its step, and writes -8 when the input, compared as an unsigned number, is at most the threshold at the
    address in its second register, and 7 when it is above: each step starts again at the same address, so that the
    four bits come from the same threshold. *)
Theorem qnt_one_threshold :
  ok (bus st0) addr 2 -> word_get (qnt_step_p nn) st0 = 0 -> i_next i <> i_addr i -> 0 <= REG_OUT i 0 < 32 ->
  exists st', execute_again 5 st0 = Some (i_next i, st') /\
    word_get (qnt_step_p nn) st' = 0 /\ (forall b, rd (bus st') b = rd (bus st0) b) /\
    (forall k, 0 <= k < 32 -> get_reg regs st' k =
      if negb (REG_OUT i 0 =? 0) && (k =? REG_OUT i 0) then (if input <=? t then 2 ^ 32 - 8 else 7) else get_reg regs st0 k).
Proof.
  intros Hok Hstep Hnext Hout.
  assert (quantising st0 st0 addr 0 (word_get (qnt_reg_out_p nn) st0)) as H0 by done.
  destruct (first_step _ _ H0) as (st1 & E1 & H1). destruct (second_step _ _ H1) as (st2 & E2 & H2).
  destruct (middle_step _ 2 _ ltac:(by left) H2) as (st3 & E3 & H3). destruct (middle_step _ 3 _ ltac:(by right) H3) as (st4 & E4 & H4).
  destruct (last_step _ _ Hout H4) as (st5 & E5 & Hs & Hm & Hr).
  exists st5. split.
  - rewrite (again 4 _ _ E1), (again 3 _ _ E2), (again 2 _ _ E3), (again 1 _ _ E4). cbn [execute_again]. rewrite E5.
    cbn [mbind option_bind]. by rewrite (proj2 (Z.eqb_neq _ _) Hnext).
  - split; [exact Hs|]. split; [exact Hm|]. intros k Hk. rewrite (Hr k Hk). destruct (_ && _); [|done].
    destruct (Z.leb_spec input t); [replace (input >? t) with false by lia|replace (input >? t) with true by lia]; reflexivity.
Qed.
End Steps.
End Quantiser.

(** The threshold at 0 in the memory of the examples, and the input 0xAABBCCDD in x5, above it. *)
Lemma qnt_one_threshold_witness :
  exists st', execute_again 5000 1 (memory_req 0) 6000 (Insn 64 4 [5; 9] [6] [0] [0] 68 0) 5 demo_iss = Some (68, st') /\ get_reg 5000 st' 6 = 7.
Proof.
  destruct (qnt_one_threshold 5000 1 (memory_req 0) mem_rd mem_ok 6000 ltac:(split; [lia|right; lia]) (Insn 64 4 [5; 9] [6] [0] [0] 68 0) demo_iss)
    as (st' & E & _ & _ & H).
  - split; split; vm_compute; done.
  - split_and!; vm_compute; done.
  - apply demo_memory_ok; vm_compute; done.
  - vm_compute. reflexivity.
  - done.
  - split; vm_compute; done.
  - exists st'. split; [exact E|]. rewrite H by lia. vm_compute. reflexivity.
Defined.
