(* ===== verification/HostFloat.v ===== *)
(** * The double arithmetic of the host (C99 Annex F and fenv.h)

    The type double of the C code is the binary64 format of IEEE 754: a value is its 64 bits.  The operations that the
    code uses are computed exactly and then rounded, in the current rounding mode, with the exception flags they raise.
    Every finite double is a multiple of 2^-1074, so exact values are integers and fractions in that unit. *)

From S2P Require Import Prelude.

(** ** The floating-point environment

    The constants are those of the x86-64 host. *)

Definition FE_INVALID : Z := 0x01.
Definition FE_DIVBYZERO : Z := 0x04.
Definition FE_OVERFLOW : Z := 0x08.
Definition FE_UNDERFLOW : Z := 0x10.
Definition FE_INEXACT : Z := 0x20.
Definition FE_TONEAREST : Z := 0x000.
Definition FE_DOWNWARD : Z := 0x400.
Definition FE_UPWARD : Z := 0x800.
Definition FE_TOWARDZERO : Z := 0xc00.

(** ** The format *)

Definition d_sign (a : Z) : bool := Z.testbit a 63.
Definition d_mag (a : Z) : Z := a mod 2 ^ 63.
Definition D_INF : Z := 0x7ff0000000000000.
Definition D_NAN : Z := 0x7ff8000000000000.
Definition d_of (s : bool) (m : Z) : Z := if s then 2 ^ 63 + m else m.
Definition d_is_nan (a : Z) : bool := D_INF <? d_mag a.
Definition d_is_inf (a : Z) : bool := d_mag a =? D_INF.
Definition d_is_snan (a : Z) : bool := d_is_nan a && negb (Z.testbit a 51).

(** The magnitude of a finite double, in the unit 2^-1074, from the 63 low bits. *)
Definition mag (x : Z) : Z :=
  let exp := x / 2 ^ 52 in
  let frac := x mod 2 ^ 52 in
  if exp =? 0 then frac else (2 ^ 52 + frac) * 2 ^ (exp - 1).
Definition signed (s : bool) (v : Z) : Z := if s then - v else v.
Definition d_val (a : Z) : Z := signed (d_sign a) (mag (d_mag a)).

(** One, in this unit. *)
Definition UNIT : Z := 2 ^ 1074.

(** ** Rounding *)

(** Whether the integer part of a fraction, odd or not, is increased: [r / d] is the part cut. *)
Definition round_up (mode : Z) (s odd : bool) (r d : Z) : bool :=
  if mode =? FE_TONEAREST then (d <? 2 * r) || ((2 * r =? d) && odd)
  else if mode =? FE_UPWARD then (0 <? r) && negb s
  else if mode =? FE_DOWNWARD then (0 <? r) && s
  else false.
Definition round_int (mode : Z) (s : bool) (num den : Z) : Z :=
  num / den + Z.b2z (round_up mode s (Z.odd (num / den)) (num mod den) den).

(** The double of the sign [s] for the magnitude [num / den], with the flags. Tininess is detected after rounding. *)
Definition round_dbl (mode : Z) (s : bool) (num den : Z) : Z * Z :=
  let q := num / den in
  let k := if q <? 2 ^ 53 then 0 else Z.log2 q - 52 in
  let d := den * 2 ^ k in
  let x := k * 2 ^ 52 + round_int mode s num d in
  if x <? D_INF then
    let tiny := (q <? 2 ^ 52) && (round_int mode s (2 * num) den <? 2 ^ 53) in
    (d_of s x, if num mod d =? 0 then 0 else if tiny then Z.lor FE_UNDERFLOW FE_INEXACT else FE_INEXACT)
  else
    let away := (mode =? FE_TONEAREST) || ((mode =? FE_UPWARD) && negb s) || ((mode =? FE_DOWNWARD) && s) in
    (d_of s (if away then D_INF else D_INF - 1), Z.lor FE_OVERFLOW FE_INEXACT).

(** A sum that is zero. *)
Definition round_sum (mode : Z) (zero_sign : bool) (v den : Z) : Z * Z :=
  if v =? 0 then (d_of zero_sign 0, 0) else round_dbl mode (v <? 0) (Z.abs v) den.

(** The result of an operation on a NaN, whose payload the code never keeps, and of an invalid operation. *)
Definition nan_result (l : list Z) : Z * Z := (D_NAN, if existsb d_is_snan l then FE_INVALID else 0).
Definition invalid : Z * Z := (D_NAN, FE_INVALID).

(** ** The operations *)

Definition d_neg (a : Z) : Z := d_of (negb (d_sign a)) (d_mag a).

Definition d_add (mode a b : Z) : Z * Z :=
  let sa := d_sign a in let sb := d_sign b in
  if d_is_nan a || d_is_nan b then nan_result [a; b]
  else if d_is_inf a then if d_is_inf b && xorb sa sb then invalid else (a, 0)
  else if d_is_inf b then (b, 0)
  else round_sum mode (if eqb sa sb then sa else mode =? FE_DOWNWARD) (d_val a + d_val b) 1.
Definition d_sub (mode a b : Z) : Z * Z := if d_is_nan b then nan_result [a; b] else d_add mode a (d_neg b).

Definition d_mul (mode a b : Z) : Z * Z :=
  let s := xorb (d_sign a) (d_sign b) in
  if d_is_nan a || d_is_nan b then nan_result [a; b]
  else if d_is_inf a || d_is_inf b then if (d_mag a =? 0) || (d_mag b =? 0) then invalid else (d_of s D_INF, 0)
  else round_dbl mode s (mag (d_mag a) * mag (d_mag b)) UNIT.

Definition d_div (mode a b : Z) : Z * Z :=
  let s := xorb (d_sign a) (d_sign b) in
  if d_is_nan a || d_is_nan b then nan_result [a; b]
  else if d_is_inf a then if d_is_inf b then invalid else (d_of s D_INF, 0)
  else if d_is_inf b then (d_of s 0, 0)
  else if d_mag b =? 0 then if d_mag a =? 0 then invalid else (d_of s D_INF, FE_DIVBYZERO)
  else round_dbl mode s (mag (d_mag a) * UNIT) (mag (d_mag b)).

Definition d_fma (mode a b c : Z) : Z * Z :=
  let s := xorb (d_sign a) (d_sign b) in
  if d_is_nan a || d_is_nan b || d_is_nan c then nan_result [a; b; c]
  else if d_is_inf a || d_is_inf b then
    if (d_mag a =? 0) || (d_mag b =? 0) then invalid
    else if d_is_inf c && xorb s (d_sign c) then invalid
    else (d_of s D_INF, 0)
  else if d_is_inf c then (c, 0)
  else round_sum mode (if eqb s (d_sign c) then s else mode =? FE_DOWNWARD) (d_val a * d_val b + d_val c * UNIT) UNIT.

(** The root of a magnitude has far more bits than a double, so that one more bit says whether it is exact. *)
Definition d_sqrt (mode a : Z) : Z * Z :=
  if d_is_nan a then nan_result [a]
  else if d_mag a =? 0 then (a, 0)
  else if d_sign a then invalid
  else if d_is_inf a then (a, 0)
  else let v := mag (d_mag a) * UNIT in
       let r := Z.sqrt v in
       round_dbl mode false (2 * r + Z.b2z (negb (r * r =? v))) 2.

(** ** Comparisons *)

(** The order of the doubles that are not NaN. *)
Definition d_key (a : Z) : Z := signed (d_sign a) (d_mag a).
Definition d_eq (a b : Z) : bool := negb (d_is_nan a || d_is_nan b) && (d_key a =? d_key b).
Definition d_lt (a b : Z) : bool := negb (d_is_nan a || d_is_nan b) && (d_key a <? d_key b).
Definition d_le (a b : Z) : bool := negb (d_is_nan a || d_is_nan b) && (d_key a <=? d_key b).

(** The functions fmin and fmax of math.h; the sign of a zero is not specified, the code sets it. *)
Definition d_fmin (a b : Z) : Z := if d_is_nan a then b else if d_is_nan b then a else if d_lt b a then b else a.
Definition d_fmax (a b : Z) : Z := if d_is_nan a then b else if d_is_nan b then a else if d_lt a b then b else a.

(** ** Conversions *)

Definition d_of_Z (mode v : Z) : Z * Z := round_sum mode false (v * UNIT) 1.

(** The conversion of a finite double to an integer, towards zero. *)
Definition d_trunc (a : Z) : Z := signed (d_sign a) (mag (d_mag a) / UNIT).

(** nearbyint and ceil. *)
Definition d_round_to_int (mode a : Z) : Z :=
  if d_is_nan a || d_is_inf a then a
  else let n := round_int mode (d_sign a) (mag (d_mag a)) UNIT in
       fst (round_dbl FE_TONEAREST (d_sign a) (n * UNIT) 1).
Definition d_nearbyint : Z -> Z -> Z := d_round_to_int.
Definition d_ceil : Z -> Z := d_round_to_int FE_UPWARD.

Example one_third : d_div FE_TONEAREST 0x3ff0000000000000 0x4008000000000000 = (0x3fd5555555555555, FE_INEXACT).
Proof. vm_compute. reflexivity. Qed.
Example root_two : d_sqrt FE_TONEAREST 0x4000000000000000 = (0x3ff6a09e667f3bcd, FE_INEXACT).
Proof. vm_compute. reflexivity. Qed.
Example tenths : d_add FE_TONEAREST 0x3fb999999999999a 0x3fc999999999999a = (0x3fd3333333333334, FE_INEXACT).
Proof. vm_compute. reflexivity. Qed.
Example smallest : d_mul FE_TONEAREST 0x0010000000000000 0x3fe0000000000001 = (0x0008000000000000, Z.lor FE_UNDERFLOW FE_INEXACT).
Proof. vm_compute. reflexivity. Qed.
Example ceiling : d_ceil 0xc00599999999999a = 0xc000000000000000 /\ d_trunc 0xc00599999999999a = -2 /\ d_of_Z FE_UPWARD (-7) = (0xc01c000000000000, 0).
Proof. vm_compute. done. Qed.
