(* ===== verification/FlexFloat.v ===== *)
(** * The flexible floating-point library (models/cpu/iss/flexfloat/flexfloat.c and flexfloat.h)

    A value of a format of [exp_bits] and [frac_bits] is kept in a double of the host, and brought back to its format
    after each operation.  The library is compiled as flexfloat_config.h says, on doubles and with the flags, so with
    the rounding; the statistics and the tracking are off. *)

From S2P Require Import Prelude HostFloat.

(** The state of the floating-point unit: the environment of the host, and the two fields of the register fcsr. *)
Record fpu := Fpu { fe_round : Z; fe_except : Z; fflags_raw : Z; frm : Z }.
Definition set_fe_round (x : Z) (f : fpu) : fpu := Fpu x (fe_except f) (fflags_raw f) (frm f).
Definition set_fe_except (x : Z) (f : fpu) : fpu := Fpu (fe_round f) x (fflags_raw f) (frm f).
Definition set_fflags_raw (x : Z) (f : fpu) : fpu := Fpu (fe_round f) (fe_except f) x (frm f).
Definition feraiseexcept (x : Z) (f : fpu) : fpu := set_fe_except (Z.lor (fe_except f) x) f.
Definition feclearexcept_all (f : fpu) : fpu := set_fe_except 0 f.
(** fesetround does nothing with a mode that does not exist. *)
Definition fesetround (m : Z) (f : fpu) : fpu :=
  if (m =? FE_TONEAREST) || (m =? FE_DOWNWARD) || (m =? FE_UPWARD) || (m =? FE_TOWARDZERO) then set_fe_round m f else f.

(** ** flexfloat.h *)

Definition NUM_BITS : Z := 64.
Definition NUM_BITS_EXP : Z := 11.
Definition NUM_BITS_FRAC : Z := 52.
Definition INF_EXP : Z := 0x7FF.
Definition BIAS : Z := 1023.
Definition MASK_FRAC : Z := 0x000FFFFFFFFFFFFF.
Definition MASK_FRAC_MSB : Z := 0x0010000000000000.
Definition EXPONENT (a : Z) : Z := Z.land (Z.shiftr a NUM_BITS_FRAC) INF_EXP.
Definition PACK (sign : bool) (exp sig : Z) : Z :=
  u64 (u64 (Z.shiftl (Z.b2z sign) (NUM_BITS - 1)) + u64 (Z.shiftl exp NUM_BITS_FRAC) + sig).

Record flexfloat_desc_t := Desc { exp_bits : Z; frac_bits : Z }.
Record flexfloat_t := FlexFloat { value : Z; desc : flexfloat_desc_t }.

Definition flexfloat_inf_exp (d : flexfloat_desc_t) : Z := Z.shiftl 1 (exp_bits d) - 1.
Definition flexfloat_bias (d : flexfloat_desc_t) : Z := Z.shiftl 1 (exp_bits d - 1) - 1.
Definition flexfloat_sign (a : flexfloat_t) : bool := Z.testbit (value a) (NUM_BITS - 1).

(** ** flexfloat.c *)

Definition flexfloat_exp (a : flexfloat_t) : Z :=
  let a_exp := EXPONENT (value a) in
  let bias := flexfloat_bias (desc a) in
  if (a_exp =? 0) || (a_exp =? INF_EXP) then a_exp else (a_exp - BIAS) + bias.

Definition flexfloat_frac (a : flexfloat_t) : Z :=
  Z.shiftr (Z.land (value a) MASK_FRAC) (NUM_BITS_FRAC - frac_bits (desc a)).

(** The shift of a value that is denormalized in its format, an unsigned short. *)
Definition denorm_shift (a : flexfloat_t) (exp : Z) : Z := u16 (NUM_BITS_FRAC - frac_bits (desc a) - exp + 1).
Definition whole_frac (a : flexfloat_t) : Z := Z.lor (Z.land (value a) MASK_FRAC) MASK_FRAC_MSB.

Definition flexfloat_denorm_frac (a : flexfloat_t) (exp : Z) : Z :=
  if EXPONENT (value a) =? 0 then Z.shiftr (Z.land (value a) MASK_FRAC) (NUM_BITS_FRAC - frac_bits (desc a))
  else let shift := denorm_shift a exp in
       if NUM_BITS <=? shift then 0 else Z.shiftr (whole_frac a) shift.

Definition flexfloat_pack (d : flexfloat_desc_t) (sign : bool) (exp frac : Z) : Z :=
  let bias := flexfloat_bias d in
  let inf_exp := flexfloat_inf_exp d in
  let exp := if exp =? inf_exp then INF_EXP else (exp - bias) + BIAS in
  PACK sign exp (u64 (Z.shiftl frac (NUM_BITS_FRAC - frac_bits d))).

Definition flexfloat_denorm_pack (d : flexfloat_desc_t) (sign : bool) (frac : Z) : Z :=
  PACK sign 0 (u64 (Z.shiftl frac (NUM_BITS_FRAC - frac_bits d))).

(** The loop that normalizes a fraction, with its exponent.  A bit of the fraction reaches the place of the implicit
    one in at most 64 turns. *)
Fixpoint normalize (fuel : nat) (frac_bits frac exp : Z) : Z * Z :=
  match fuel with
  | O => (frac, exp)
  | S fuel =>
      if frac =? 0 then (frac, exp)
      else let frac := u64 (Z.shiftl frac 1) in
           if negb (Z.land frac (Z.shiftl 1 frac_bits) =? 0) then (frac, exp) else normalize fuel frac_bits frac (exp - 1)
  end.

Definition flexfloat_pack_bits (d : flexfloat_desc_t) (bits : Z) : Z :=
  let sign := negb (Z.land (Z.shiftr bits (exp_bits d + frac_bits d)) 0x1 =? 0) in
  let exp := Z.land (Z.shiftr bits (frac_bits d)) (Z.shiftl 1 (exp_bits d) - 1) in
  let frac := Z.land bits (Z.shiftl 1 (frac_bits d) - 1) in
  if (exp =? 0) && (frac =? 0) then PACK sign 0 0
  else if exp <=? 0 then
    let '(frac, exp) := normalize 64 (frac_bits d) frac exp in
    let frac := Z.land frac (Z.shiftl 1 (frac_bits d) - 1) in
    flexfloat_pack d sign exp frac
  else flexfloat_pack d sign exp frac.

Definition flexfloat_set_bits (a : flexfloat_t) (bits : Z) : flexfloat_t := FlexFloat (flexfloat_pack_bits (desc a) bits) (desc a).

(** [None] is a shift by a negative number. *)
Definition flexfloat_get_bits (a : flexfloat_t) : option Z :=
  let exp := flexfloat_exp a in
  let frac := flexfloat_frac a in
  let* (exp, frac) :=
    if exp =? INF_EXP then Some (flexfloat_inf_exp (desc a), frac)
    else if (exp <? 0) && (frac =? 0) then
      if 0 <=? frac_bits (desc a) - exp - 1
      then let* one := shl 32 1 (frac_bits (desc a) + exp - 1) in Some (0, one)
      else Some (0, 0)
    else if exp <=? 0 then Some (0, flexfloat_denorm_frac a exp)
    else Some (exp, frac) in
  let s := Z.b2z (flexfloat_sign a) in
  let Mask := if flexfloat_sign a then u64 (Z.shiftl (-1) (exp_bits (desc a) + frac_bits (desc a))) else 0 in
  Some (Z.lor (u64 (Z.shiftl s (exp_bits (desc a) + frac_bits (desc a)) + Z.shiftl exp (frac_bits (desc a)) + frac)) Mask).

(** *** Rounding *)

Definition flexfloat_round_bit (a : flexfloat_t) (exp : Z) : bool :=
  if (exp <=? 0) && negb (EXPONENT (value a) =? 0) then
    let shift := denorm_shift a exp in
    if NUM_BITS <=? shift then false
    else negb (Z.land (whole_frac a) (u64 (Z.shiftl 1 (shift - 1))) =? 0)
  else negb (Z.land (value a) (Z.shiftl 1 (NUM_BITS_FRAC - frac_bits (desc a) - 1)) =? 0).

Definition flexfloat_sticky_bit (a : flexfloat_t) (exp : Z) : bool :=
  if (exp <=? 0) && negb (EXPONENT (value a) =? 0) then
    let shift := denorm_shift a exp in
    if NUM_BITS <=? shift then false
    else negb (Z.land (whole_frac a) (u64 (Z.shiftl 1 (shift - 1)) - 1) =? 0)
  else negb (Z.land (value a) (Z.shiftr MASK_FRAC (frac_bits (desc a) + 1)) =? 0).

Definition flexfloat_nearest_rounding (a : flexfloat_t) (exp : Z) : bool :=
  if flexfloat_round_bit a exp then
    if flexfloat_sticky_bit a exp then true
    else if exp <=? 0 then Z.odd (flexfloat_denorm_frac a exp) else Z.odd (flexfloat_frac a)
  else false.

Definition flexfloat_inf_rounding (a : flexfloat_t) (exp : Z) (sign plus : bool) : bool :=
  if flexfloat_round_bit a exp || flexfloat_sticky_bit a exp then xorb plus sign else false.

Definition flexfloat_rounding_value (a : flexfloat_t) (exp : Z) (sign : bool) : Z :=
  if EXPONENT (value a) =? 0 then flexfloat_denorm_pack (desc a) sign 0x1
  else if exp <=? 0 then flexfloat_pack (desc a) sign (- frac_bits (desc a) + 1) 0
  else flexfloat_pack (desc a) sign (exp - frac_bits (desc a)) 0.

(** The rounding of the value, before what it cannot represent is cut. *)
Definition round_value (a : flexfloat_t) (sign : bool) (exp : Z) (f : fpu) : flexfloat_t * fpu :=
  if (exp =? INF_EXP) || (frac_bits (desc a) =? NUM_BITS_FRAC) then (a, f)
  else
    let f := if flexfloat_round_bit a exp || flexfloat_sticky_bit a exp then feraiseexcept FE_INEXACT f else f in
    let mode := fe_round f in
    let add := FlexFloat (fst (d_add mode (value a) (flexfloat_rounding_value a exp sign))) (desc a) in
    if (mode =? FE_TONEAREST) && flexfloat_nearest_rounding a exp then (add, f)
    else if (mode =? FE_UPWARD) && flexfloat_inf_rounding a exp sign true then (add, f)
    else if (mode =? FE_DOWNWARD) && flexfloat_inf_rounding a exp sign false then (add, f)
    else (a, f).

Definition flexfloat_sanitize (a : flexfloat_t) (f : fpu) : flexfloat_t * fpu :=
  if (exp_bits (desc a) =? NUM_BITS_EXP) && (frac_bits (desc a) =? NUM_BITS_FRAC) then (a, f)
  else
    let sign := flexfloat_sign a in
    let '(a, f) := round_value a sign (flexfloat_exp a) f in
    let exp := flexfloat_exp a in
    let inf_exp := flexfloat_inf_exp (desc a) in
    let frac := flexfloat_frac a in
    let result v f := (FlexFloat v (desc a), f) in
    if EXPONENT (value a) =? 0 then result (flexfloat_denorm_pack (desc a) sign frac) f
    else if exp <=? 0 then
      let f := feraiseexcept FE_UNDERFLOW f in
      let denorm := flexfloat_denorm_frac a exp in
      if denorm =? 0 then result (PACK sign 0 0) f
      else
        let frac := if frac_bits (desc a) <? NUM_BITS_FRAC then
                      let shift := - exp + 1 in
                      if shift <? NUM_BITS_FRAC then u64 (Z.shiftl (Z.shiftr frac shift) shift) else 0
                    else frac in
        result (flexfloat_pack (desc a) sign exp frac) f
    else if (exp =? INF_EXP) && negb (Z.land (value a) MASK_FRAC =? 0) then
      result (flexfloat_pack (desc a) false inf_exp (Z.shiftl 1 (frac_bits (desc a) - 1))) f
    else if exp =? INF_EXP then
      let f := if Z.land (fe_except f) FE_DIVBYZERO =? 0 then feraiseexcept (Z.lor FE_OVERFLOW FE_INEXACT) f else f in
      result (flexfloat_pack (desc a) sign inf_exp frac) f
    else if inf_exp <=? exp then
      result (flexfloat_pack (desc a) sign inf_exp 0) (feraiseexcept (Z.lor FE_OVERFLOW FE_INEXACT) f)
    else result (flexfloat_pack (desc a) sign exp frac) f.

(** *** Constructors *)

Definition ff_init (d : flexfloat_desc_t) : flexfloat_t := FlexFloat 0 d.
Definition ff_init_double (v : Z) (d : flexfloat_desc_t) (f : fpu) : flexfloat_t * fpu := flexfloat_sanitize (FlexFloat v d) f.
(** An operation of the host, with the flags that it raises. *)
Definition host (r : Z * Z) (f : fpu) : Z * fpu := (fst r, feraiseexcept (snd r) f).
Definition ff_init_int (v : Z) (d : flexfloat_desc_t) (f : fpu) : flexfloat_t * fpu :=
  let '(v, f) := host (d_of_Z (fe_round f) v) f in flexfloat_sanitize (FlexFloat v d) f.
Definition ff_init_long (v : Z) (d : flexfloat_desc_t) (f : fpu) : flexfloat_t * fpu :=
  let '(v, f) := host (d_of_Z (fe_round f) v) f in flexfloat_sanitize (FlexFloat v d) f.
Definition ff_cast (source : flexfloat_t) (d : flexfloat_desc_t) (f : fpu) : flexfloat_t * fpu :=
  let obj := FlexFloat (value source) d in
  if negb (exp_bits d =? exp_bits (desc source)) || negb (frac_bits d =? frac_bits (desc source))
  then flexfloat_sanitize obj f else (obj, f).
Definition ff_get_double (a : flexfloat_t) : Z := value a.

(** *** Arithmetics

    The assertions that the operands have the format of the result hold in the calls of int.h. *)

Definition ff_inverse (a : flexfloat_t) : flexfloat_t := FlexFloat (d_neg (value a)) (desc a).
Definition ff_op (op : Z -> Z -> Z -> Z * Z) (d : flexfloat_desc_t) (a b : flexfloat_t) (f : fpu) : flexfloat_t * fpu :=
  let '(v, f) := host (op (fe_round f) (value a) (value b)) f in flexfloat_sanitize (FlexFloat v d) f.
Definition ff_add := ff_op d_add.
Definition ff_sub := ff_op d_sub.
Definition ff_mul := ff_op d_mul.
Definition ff_div := ff_op d_div.

Definition both_zero (a b : flexfloat_t) : bool := d_eq (value a) 0 && d_eq (value a) (value b).
Definition ff_min (d : flexfloat_desc_t) (a b : flexfloat_t) (f : fpu) : flexfloat_t * fpu :=
  let v := d_fmin (value a) (value b) in
  let v := if both_zero a b
           then if flexfloat_sign a || flexfloat_sign b then Z.shiftl 1 (NUM_BITS - 1) else 0 else v in
  flexfloat_sanitize (FlexFloat v d) f.
Definition ff_max (d : flexfloat_desc_t) (a b : flexfloat_t) (f : fpu) : flexfloat_t * fpu :=
  let v := d_fmax (value a) (value b) in
  let v := if both_zero a b
           then if flexfloat_sign a && flexfloat_sign b then Z.shiftl 1 (NUM_BITS - 1) else 0 else v in
  flexfloat_sanitize (FlexFloat v d) f.

(** The mode in which a fused operation is made, and the one it is rounded in. *)
Definition fma_mode (a b c : flexfloat_t) (f : fpu) (truncate : bool) : fpu :=
  let mode := fe_round f in
  let eff_sub := xorb (xorb (flexfloat_sign a) (flexfloat_sign b)) (flexfloat_sign c) in
  if (frac_bits (desc a) <? NUM_BITS_FRAC) && (mode =? FE_TONEAREST) then
    if negb eff_sub then
      let try := fst (d_fma mode (value a) (value b) (value c)) in
      if d_le 0 try then fesetround FE_UPWARD f else fesetround FE_DOWNWARD f
    else if truncate then fesetround FE_TOWARDZERO f else f
  else f.
Definition fma_restore (a : flexfloat_t) (mode : Z) (f : fpu) : fpu :=
  if (frac_bits (desc a) <? NUM_BITS_FRAC) && (mode =? FE_TONEAREST) then fesetround FE_TONEAREST f else f.

Definition ff_fma (d : flexfloat_desc_t) (a b c : flexfloat_t) (f : fpu) : flexfloat_t * fpu :=
  let mode := fe_round f in
  let f := fma_mode a b c f false in
  let '(v, f) := host (d_fma (fe_round f) (value a) (value b) (value c)) f in
  flexfloat_sanitize (FlexFloat v d) (fma_restore a mode f).

(** -(a * b) - c, in two operations. *)
Definition ff_fnma (d : flexfloat_desc_t) (a b c : flexfloat_t) (f : fpu) : flexfloat_t * fpu :=
  let mode := fe_round f in
  let f := fma_mode a b c f true in
  let '(p, f) := host (d_mul (fe_round f) (value a) (value b)) f in
  let '(v, f) := host (d_sub (fe_round f) (d_neg p) (value c)) f in
  flexfloat_sanitize (FlexFloat v d) (fma_restore a mode f).

(** *** Relational operators *)

Definition ff_eq (a b : flexfloat_t) : bool := d_eq (value a) (value b).
Definition ff_neq (a b : flexfloat_t) : bool := negb (d_eq (value a) (value b)).
Definition ff_le (a b : flexfloat_t) : bool := d_le (value a) (value b).
Definition ff_lt (a b : flexfloat_t) : bool := d_lt (value a) (value b).
Definition ff_ge (a b : flexfloat_t) : bool := d_le (value b) (value a).
Definition ff_gt (a b : flexfloat_t) : bool := d_lt (value b) (value a).
