(* ===== verification/FloatLib.v ===== *)
(** * The floating-point functions of the instructions (models/cpu/iss/include/isa_lib/int.h)

    Over the formats of FlexFloat.v. A function takes the state of the floating-point unit and gives the new one with
    its result; [None] is undefined behaviour of the C code, or the exit of the platform for the rounding mode
    that is not implemented. *)

From S2P Require Import Prelude HostFloat FlexFloat.

Definition DoExtend (R e m : Z) : Z :=
  if m + e =? 31 then R
  else let s := Z.land (Z.shiftr R (e + m)) 0x1 in
       if negb (s =? 0) then Z.lor R (u32 (Z.shiftl (-1) (e + m))) else R.

Definition FF_INIT (a e m : Z) : flexfloat_t := flexfloat_set_bits (ff_init (Desc e m)) a.

Definition set_fflags (fflags : Z) (f : fpu) : fpu := set_fflags_raw (Z.land (Z.lor (fflags_raw f) fflags) 0x1f) f.
Definition clear_fflags (fflags : Z) (f : fpu) : fpu := set_fflags_raw (Z.land (fflags_raw f) (Z.lnot fflags)) f.

Definition flag (ex x n : Z) : Z := if Z.land ex x =? 0 then 0 else Z.shiftl 1 n.
Definition update_fflags_fenv (f : fpu) : fpu :=
  let ex := fe_except f in
  set_fflags (Z.lor (flag ex FE_INEXACT 0) (Z.lor (flag ex FE_UNDERFLOW 1) (Z.lor (flag ex FE_OVERFLOW 2)
    (Z.lor (flag ex FE_DIVBYZERO 3) (flag ex FE_INVALID 4))))) f.

(** The end of a function: the flags, and the bits of the result. *)
Definition finish (r : flexfloat_t * fpu) : option (Z * fpu) :=
  let* bits := flexfloat_get_bits (fst r) in Some (u32 bits, update_fflags_fenv (snd r)).
Definition FF_EXEC_2 (name : flexfloat_desc_t -> flexfloat_t -> flexfloat_t -> fpu -> flexfloat_t * fpu) (a b e m : Z) (f : fpu) : option (Z * fpu) :=
  finish (name (Desc e m) (FF_INIT a e m) (FF_INIT b e m) (feclearexcept_all f)).
Definition FF_EXEC_3 (name : flexfloat_desc_t -> flexfloat_t -> flexfloat_t -> flexfloat_t -> fpu -> flexfloat_t * fpu) (a b c e m : Z) (f : fpu) :
    option (Z * fpu) :=
  finish (name (Desc e m) (FF_INIT a e m) (FF_INIT b e m) (FF_INIT c e m) (feclearexcept_all f)).

(** ** Conversions to integers *)

Definition cmp_int (x : Z) : Z := fst (d_of_Z FE_TONEAREST x).
Definition double_to (lo hi : Z) (mode dbl : Z) : Z :=
  let dbl := d_nearbyint mode dbl in
  if d_lt dbl (cmp_int (hi + 1)) then if d_le (cmp_int lo) (d_ceil dbl) then d_trunc dbl else lo else hi.
Definition double_to_int : Z -> Z -> Z := double_to (- 2 ^ 31) (2 ^ 31 - 1).
Definition double_to_uint : Z -> Z -> Z := double_to 0 (2 ^ 32 - 1).
Definition double_to_long : Z -> Z -> Z := double_to (- 2 ^ 63) (2 ^ 63 - 1).
Definition double_to_ulong : Z -> Z -> Z := double_to 0 (2 ^ 64 - 1).

(** A cast to a type of the range, whose result is undefined out of it. *)
Definition cast_double (lo hi v : Z) : option Z :=
  if d_is_nan v || d_is_inf v then None
  else let x := d_trunc v in if (lo <=? x) && (x <=? hi) then Some x else None.

(** ** Arithmetic *)

Definition lib_flexfloat_add (a b e m : Z) (f : fpu) : option (Z * fpu) := FF_EXEC_2 ff_add a b e m f.
Definition lib_flexfloat_sub (a b e m : Z) (f : fpu) : option (Z * fpu) := FF_EXEC_2 ff_sub a b e m f.
Definition lib_flexfloat_mul (a b e m : Z) (f : fpu) : option (Z * fpu) := FF_EXEC_2 ff_mul a b e m f.
Definition lib_flexfloat_div (a b e m : Z) (f : fpu) : option (Z * fpu) := FF_EXEC_2 ff_div a b e m f.

Definition lib_flexfloat_avg (a b e m : Z) (f : fpu) : option (Z * fpu) :=
  let '(ff_two, f) := ff_init_int 2 (Desc e m) f in
  let '(ff_res, f) := ff_add (Desc e m) (FF_INIT a e m) (FF_INIT b e m) (feclearexcept_all f) in
  finish (ff_div (Desc e m) ff_res ff_two f).

Definition lib_flexfloat_itof (a e m : Z) (f : fpu) : option (Z * fpu) :=
  finish (ff_init_int (s32 a) (Desc e m) (feclearexcept_all f)).
Definition lib_flexfloat_ftoi (a e m : Z) (f : fpu) : option (Z * fpu) :=
  let* x := cast_double (- 2 ^ 31) (2 ^ 31 - 1) (value (FF_INIT a e m)) in Some (u32 x, f).

Definition lib_flexfloat_madd (a b c e m : Z) (f : fpu) : option (Z * fpu) := FF_EXEC_3 ff_fma a b c e m f.
Definition lib_flexfloat_msub (a b c e m : Z) (f : fpu) : option (Z * fpu) :=
  finish (ff_fma (Desc e m) (FF_INIT a e m) (FF_INIT b e m) (ff_inverse (FF_INIT c e m)) (feclearexcept_all f)).
Definition lib_flexfloat_nmsub (a b c e m : Z) (f : fpu) : option (Z * fpu) :=
  finish (ff_fma (Desc e m) (ff_inverse (FF_INIT a e m)) (FF_INIT b e m) (FF_INIT c e m) (feclearexcept_all f)).
Definition lib_flexfloat_nmadd (a b c e m : Z) (f : fpu) : option (Z * fpu) := FF_EXEC_3 ff_fnma a b c e m f.

(** ** The rounding mode of an instruction *)

Definition setFFRoundingMode (mode : Z) (f : fpu) : option (Z * fpu) :=
  let old := fe_round f in
  let set mode :=
    if mode =? 0 then Some (fesetround FE_TONEAREST f)
    else if mode =? 1 then Some (fesetround FE_TOWARDZERO f)
    else if mode =? 2 then Some (fesetround FE_DOWNWARD f)
    else if mode =? 3 then Some (fesetround FE_UPWARD f)
    else if mode =? 4 then None
    else Some f in
  let* f := if mode =? 7 then set (frm f) else set mode in Some (old, f).
Definition restoreFFRoundingMode (mode : Z) (f : fpu) : fpu := fesetround mode f.

Definition with_rounding (round : Z) (op : fpu -> option (Z * fpu)) (f : fpu) : option (Z * fpu) :=
  let* (old, f) := setFFRoundingMode round f in
  let* (result, f) := op f in
  Some (result, restoreFFRoundingMode old f).
Definition lib_flexfloat_madd_round (a b c e m round : Z) (f : fpu) : option (Z * fpu) := with_rounding round (lib_flexfloat_madd a b c e m) f.
Definition lib_flexfloat_msub_round (a b c e m round : Z) (f : fpu) : option (Z * fpu) := with_rounding round (lib_flexfloat_msub a b c e m) f.
Definition lib_flexfloat_nmadd_round (a b c e m round : Z) (f : fpu) : option (Z * fpu) := with_rounding round (lib_flexfloat_nmadd a b c e m) f.
Definition lib_flexfloat_nmsub_round (a b c e m round : Z) (f : fpu) : option (Z * fpu) := with_rounding round (lib_flexfloat_nmsub a b c e m) f.
Definition lib_flexfloat_add_round (a b e m round : Z) (f : fpu) : option (Z * fpu) := with_rounding round (lib_flexfloat_add a b e m) f.
Definition lib_flexfloat_sub_round (a b e m round : Z) (f : fpu) : option (Z * fpu) := with_rounding round (lib_flexfloat_sub a b e m) f.
Definition lib_flexfloat_mul_round (a b e m round : Z) (f : fpu) : option (Z * fpu) := with_rounding round (lib_flexfloat_mul a b e m) f.
Definition lib_flexfloat_div_round (a b e m round : Z) (f : fpu) : option (Z * fpu) := with_rounding round (lib_flexfloat_div a b e m) f.
Definition lib_flexfloat_avg_round (a b e m round : Z) (f : fpu) : option (Z * fpu) := with_rounding round (lib_flexfloat_avg a b e m) f.
Definition lib_flexfloat_sqrt_round (a e m round : Z) (f : fpu) : option (Z * fpu) :=
  with_rounding round (fun f =>
    let f := feclearexcept_all f in
    let '(v, f) := host (d_sqrt (fe_round f) (ff_get_double (FF_INIT a e m))) f in
    finish (ff_init_double v (Desc e m) f)) f.

(** ** Signs, minimum and maximum *)

Definition sign_of (a e m : Z) : Z := Z.land (Z.shiftr a (m + e)) 0x1.
Definition with_sign (a s e m : Z) : Z := DoExtend (Z.lor (Z.land a (Z.shiftl 1 (m + e) - 1)) (u32 (Z.shiftl s (m + e)))) e m.
Definition lib_flexfloat_sgnj (a b e m : Z) (f : fpu) : option (Z * fpu) := Some (with_sign a (sign_of b e m) e m, f).
Definition lib_flexfloat_sgnjn (a b e m : Z) (f : fpu) : option (Z * fpu) := Some (with_sign a (1 - sign_of b e m) e m, f).
Definition lib_flexfloat_sgnjx (a b e m : Z) (f : fpu) : option (Z * fpu) := Some (with_sign a (Z.lxor (sign_of a e m) (sign_of b e m)) e m, f).

Definition exp_of (a e m : Z) : Z := Z.land (Z.shiftr a m) (Z.shiftl 1 e - 1).
Definition frac_of (a m : Z) : Z := Z.land a (Z.shiftl 1 m - 1).
Definition IsNan (X e m : Z) : Z :=
  let E := exp_of X e m in
  let M := frac_of X m in
  if (E =? Z.shiftl 1 e - 1) && negb (M =? 0) then if negb (Z.land (Z.shiftr M (m - 1)) 0x1 =? 0) then 1 else 2 else 0.
Definition is_nan (X e m : Z) : bool := negb (IsNan X e m =? 0).

Definition min_max (name : flexfloat_desc_t -> flexfloat_t -> flexfloat_t -> fpu -> flexfloat_t * fpu) (a b e m : Z) (f : fpu) : option (Z * fpu) :=
  let Nan_Q := Z.lor (Z.shiftl (Z.shiftl 1 e - 1) m) (Z.shiftl 1 (m - 1)) in
  if is_nan a e m && is_nan b e m then Some (Nan_Q, f)
  else if is_nan a e m then Some (b, f)
  else if is_nan b e m then Some (a, f)
  else FF_EXEC_2 name a b e m f.
Definition lib_flexfloat_min (a b e m : Z) (f : fpu) : option (Z * fpu) := min_max ff_min a b e m f.
Definition lib_flexfloat_max (a b e m : Z) (f : fpu) : option (Z * fpu) := min_max ff_max a b e m f.

(** ** Conversions *)

(** The value to round, and whether it was negated, when ties go to the larger magnitude (mode 4). *)
Definition half_up (round : Z) (v : Z) (f : fpu) : Z * bool :=
  if round =? 4 then
    let neg := d_lt v 0 in
    let v := if neg then d_neg v else v in
    (fst (d_add (fe_round f) v 0x3fe0000000000000), neg)
  else (v, false).
Definition new_round (round : Z) : Z := if round =? 4 then 2 else round.

(** The mode that this function restores is the one of the instruction. *)
Definition lib_flexfloat_cvt_w_ff_round (a e m round : Z) (f : fpu) : option (Z * fpu) :=
  let* (_, f) := setFFRoundingMode (new_round round) f in
  let '(v, neg) := half_up round (value (FF_INIT a e m)) f in
  let x := double_to_int (fe_round f) v in
  let x := if neg then s32 (- x) else x in
  Some (x, restoreFFRoundingMode (new_round round) f).
Definition lib_flexfloat_cvt_wu_ff_round (a e m round : Z) (f : fpu) : option (Z * fpu) :=
  let* (old, f) := setFFRoundingMode (new_round round) f in
  let '(v, _) := half_up round (value (FF_INIT a e m)) f in
  Some (s32 (double_to_uint (fe_round f) v), restoreFFRoundingMode old f).

Definition cvt_ff_round (signed : bool) (ff_a : fpu -> flexfloat_t * fpu) (round : Z) (f : fpu) : option (Z * fpu) :=
  let* (old, f) := setFFRoundingMode round f in
  let '(r, f) := ff_a f in
  let* bits := flexfloat_get_bits r in
  Some (if signed then s32 bits else u32 bits, restoreFFRoundingMode old f).
Definition lib_flexfloat_cvt_ff_w_round (a e m round : Z) (f : fpu) : option (Z * fpu) :=
  cvt_ff_round true (ff_init_int (s32 (Z.land a 0xffffffff)) (Desc e m)) round f.
Definition lib_flexfloat_cvt_ff_wu_round (a e m round : Z) (f : fpu) : option (Z * fpu) :=
  cvt_ff_round false (ff_init_long (Z.land (u32 a) 0xffffffff) (Desc e m)) round f.
Definition lib_flexfloat_cvt_l_ff_round (a e m round : Z) (f : fpu) : option (Z * fpu) :=
  let* (old, f) := setFFRoundingMode round f in
  Some (double_to_long (fe_round f) (value (FF_INIT a e m)), restoreFFRoundingMode old f).
Definition lib_flexfloat_cvt_lu_ff_round (a e m round : Z) (f : fpu) : option (Z * fpu) :=
  let* (old, f) := setFFRoundingMode round f in
  Some (double_to_ulong (fe_round f) (value (FF_INIT a e m)), restoreFFRoundingMode old f).
Definition lib_flexfloat_cvt_ff_l_round (a e m round : Z) (f : fpu) : option (Z * fpu) :=
  cvt_ff_round true (ff_init_long a (Desc e m)) round f.
Definition lib_flexfloat_cvt_ff_lu_round (a e m round : Z) (f : fpu) : option (Z * fpu) :=
  cvt_ff_round false (ff_init_long (s64 a) (Desc e m)) round f.
Definition lib_flexfloat_cvt_ff_ff_round (a es ms ed md round : Z) (f : fpu) : option (Z * fpu) :=
  cvt_ff_round true (ff_cast (FF_INIT a es ms) (Desc ed md)) round f.
Definition lib_flexfloat_fmv_x_ff (a e m : Z) (f : fpu) : option (Z * fpu) := Some (a, f).
Definition lib_flexfloat_fmv_ff_x (a e m : Z) (f : fpu) : option (Z * fpu) := Some (a, f).

(** The conversions of the vectors, to 16 bits: [lo] and [hi] bound the type of the cast, [min] and [max] the result. *)
Definition cvt_16 (lo hi min max below : Z) (a e m round : Z) (f : fpu) : option (Z * fpu) :=
  if is_nan a e m then Some (max, f)
  else
    let s := sign_of a e m in
    let inf := (exp_of a e m =? Z.shiftl 1 e - 1) && (frac_of a m =? 0) in
    if (s =? 1) && inf then Some (below, f)
    else if (s =? 0) && inf then Some (max, f)
    else
      let* (old, f) := setFFRoundingMode round f in
      let v := value (FF_INIT a e m) in
      let* result := if d_lt v (cmp_int lo) then Some lo else if d_lt (cmp_int (hi + 1)) v then Some hi else cast_double lo hi v in
      let f := restoreFFRoundingMode old f in
      Some (if result <? min then below else if max <? result then max else result, f).
Definition lib_flexfloat_cvt_x_ff_round : Z -> Z -> Z -> Z -> fpu -> option (Z * fpu) := cvt_16 (- 2 ^ 31) (2 ^ 31 - 1) (-32768) 0x7fff 0x8000.
Definition lib_flexfloat_cvt_xu_ff_round : Z -> Z -> Z -> Z -> fpu -> option (Z * fpu) := cvt_16 0 (2 ^ 32 - 1) 0 0xffff 0.

Definition cvt_ff_from (signed : bool) (ff_a : fpu -> flexfloat_t * fpu) (round : Z) (f : fpu) : option (Z * fpu) :=
  let* (old, f) := setFFRoundingMode round f in
  let '(r, f) := ff_a (feclearexcept_all f) in
  let f := restoreFFRoundingMode old (update_fflags_fenv f) in
  let* bits := flexfloat_get_bits r in
  Some (if signed then s32 bits else u32 bits, f).
Definition lib_flexfloat_cvt_ff_x_round (a e m round : Z) (f : fpu) : option (Z * fpu) :=
  let sign_mask := s32 (Z.shiftl 1 (e + m)) in
  let a := Z.land a (Z.shiftl 1 (e + m + 1) - 1) in
  cvt_ff_from true (ff_init_int (s32 (Z.lxor a sign_mask - sign_mask)) (Desc e m)) round f.
Definition lib_flexfloat_cvt_ff_xu_round (a e m round : Z) (f : fpu) : option (Z * fpu) :=
  let a := Z.land a (Z.shiftl 1 (e + m + 1) - 1) in
  cvt_ff_from false (ff_init_long a (Desc e m)) round f.

(** ** Comparisons *)

Definition compare (rel : flexfloat_t -> flexfloat_t -> bool) (a b e m : Z) (f : fpu) : option (Z * fpu) :=
  if is_nan a e m || is_nan b e m then Some (0, f)
  else Some (Z.b2z (rel (FF_INIT a e m) (FF_INIT b e m)), update_fflags_fenv (feclearexcept_all f)).
Definition lib_flexfloat_eq : Z -> Z -> Z -> Z -> fpu -> option (Z * fpu) := compare ff_eq.
Definition lib_flexfloat_ne : Z -> Z -> Z -> Z -> fpu -> option (Z * fpu) := compare (fun a b => negb (ff_eq a b)).
Definition lib_flexfloat_lt : Z -> Z -> Z -> Z -> fpu -> option (Z * fpu) := compare ff_lt.
Definition lib_flexfloat_ge : Z -> Z -> Z -> Z -> fpu -> option (Z * fpu) := compare (fun a b => negb (ff_lt a b)).
Definition lib_flexfloat_le : Z -> Z -> Z -> Z -> fpu -> option (Z * fpu) := compare ff_le.
Definition lib_flexfloat_gt : Z -> Z -> Z -> Z -> fpu -> option (Z * fpu) := compare (fun a b => negb (ff_le a b)).

(** ** Classes *)

Definition lib_flexfloat_class (a e m : Z) (f : fpu) : option (Z * fpu) :=
  let s := sign_of a e m in
  let E := exp_of a e m in
  let M := frac_of a m in
  let top := Z.shiftl 1 e - 1 in
  let nan := if negb (Z.land (Z.shiftr M (m - 1)) 0x1 =? 0) then Z.shiftl 1 9 else Z.shiftl 1 8 in
  Some (if s =? 1 then
          if (E =? top) && (M =? 0) then Z.shiftl 1 0
          else if (1 <=? E) && (E <=? Z.shiftl 1 e - 2) then Z.shiftl 1 1
          else if (E =? 0) && negb (M =? 0) then Z.shiftl 1 2
          else if (E =? 0) && (M =? 0) then Z.shiftl 1 3
          else if (E =? top) && negb (M =? 0) then nan
          else 0
        else
          if (E =? 0) && (M =? 0) then Z.shiftl 1 4
          else if (E =? 0) && negb (M =? 0) then Z.shiftl 1 5
          else if (1 <=? E) && (E <=? Z.shiftl 1 e - 2) then Z.shiftl 1 6
          else if (E =? top) && (M =? 0) then Z.shiftl 1 7
          else if (E =? top) && negb (M =? 0) then nan
          else 0, f).

(** The block of a vector element. *)
Definition cblock (a e m : Z) : Z :=
  let sign := negb (sign_of a e m =? 0) in
  let exp := exp_of a e m in
  let frac := frac_of a m in
  Z.lor (if sign then 0x80 else 0x40)
    (if exp =? Z.shiftl 1 e - 1 then
       if frac =? 0 then 0x1 else if negb (Z.land frac (Z.shiftl 1 (m - 1)) =? 0) then Z.shiftl 1 5 else Z.shiftl 1 4
     else if (exp =? 0) && (frac =? 0) then Z.shiftl 1 3
     else if (exp =? 0) && negb (frac =? 0) then Z.shiftl 1 2
     else Z.shiftl 1 1).
Fixpoint vclass_from (n : nat) (i a width e m : Z) : Z :=
  match n with
  | O => 0
  | S n => Z.lor (u32 (Z.shiftl (cblock a e m) (8 * i))) (vclass_from n (i + 1) (Z.shiftr a width) width e m)
  end.
Definition lib_flexfloat_vclass (a vlen width e m : Z) (f : fpu) : option (Z * fpu) := Some (vclass_from (Z.to_nat vlen) 0 a width e m, f).

(** ** Examples *)

Definition fpu0 : fpu := Fpu FE_TONEAREST 0 0 0.

Example add_s : lib_flexfloat_add_round 0x3f800000 0x33800000 8 23 0 fpu0 = Some (0x3f800000, Fpu 0 FE_INEXACT 1 0).
Proof. vm_compute. reflexivity. Qed.
Example mul_h : lib_flexfloat_mul_round 0x7bff 0x4000 5 10 0 fpu0 = Some (0x7c00, Fpu 0 (Z.lor FE_OVERFLOW FE_INEXACT) 5 0).
Proof. vm_compute. reflexivity. Qed.
Example denormal_h : lib_flexfloat_mul_round 0x0403 0x3800 5 10 0 fpu0 = Some (0x0202, Fpu 0 (Z.lor FE_UNDERFLOW FE_INEXACT) 3 0).
Proof. vm_compute. reflexivity. Qed.
Example fma_s : lib_flexfloat_madd_round 0x12800000 0x93000000 0x00800000 8 23 0 fpu0 = Some (0x00800001, Fpu 0 FE_INEXACT 1 0).
Proof. vm_compute. reflexivity. Qed.
