(* ===== verification/FloatFacts.v ===== *)
(** * The encoding of the floating-point formats

    Facts on FlexFloat.v: a format of [e] bits of exponent and [m] of fraction, the double that keeps each of its numbers, the
    value of a number, and the round trip of its bits through flexfloat_set_bits and flexfloat_get_bits. *)

From S2P Require Import Prelude HostFloat FlexFloat FloatLib.

(** ** Bits *)

Lemma land_low x k : 0 <= k -> Z.land x (Z.shiftl 1 k - 1) = x mod 2 ^ k.
Proof. intros Hk. rewrite Z.shiftl_1_l, <- Z.land_ones by done. f_equal. rewrite Z.ones_equiv. lia. Qed.

Lemma land_bit x k : 0 <= k -> negb (Z.land x (Z.shiftl 1 k) =? 0) = Z.testbit x k.
Proof. rewrite Z.shiftl_1_l. apply land_pow2. Qed.

(** ** Doubles by their fields *)

Definition dbl (s : bool) (E F : Z) : Z := d_of s (E * 2 ^ 52 + F).
Definition fields (E F : Z) : Prop := 0 <= E < 2048 /\ 0 <= F < 2 ^ 52.

Lemma dbl_sign s E F : fields E F -> Z.testbit (dbl s E F) 63 = s.
Proof.
  intros [HE HF]. unfold dbl, d_of. destruct s; [apply Z.testbit_true; [lia|]|apply (testbit_above 63); lia].
  replace ((2 ^ 63 + (E * 2 ^ 52 + F)) / 2 ^ 63) with 1; [done|]. apply (Z.div_unique _ _ _ (E * 2 ^ 52 + F)); lia.
Qed.

Lemma dbl_mag s E F : fields E F -> d_mag (dbl s E F) = E * 2 ^ 52 + F.
Proof.
  intros [HE HF]. unfold dbl, d_mag, d_of. destruct s; [|apply Z.mod_small; lia].
  symmetry. apply (Z.mod_unique _ _ 1); lia.
Qed.

Lemma dbl_exp s E F : fields E F -> EXPONENT (dbl s E F) = E.
Proof.
  intros [HE HF]. unfold EXPONENT, NUM_BITS_FRAC, INF_EXP. change 0x7FF with (Z.ones 11). rewrite Z.land_ones, Z.shiftr_div_pow2 by lia.
  unfold dbl, d_of. destruct s.
  - replace ((2 ^ 63 + (E * 2 ^ 52 + F)) / 2 ^ 52) with (2 ^ 11 + E) by (apply (Z.div_unique _ _ _ F); lia).
    symmetry. apply (Z.mod_unique _ _ 1); lia.
  - replace ((E * 2 ^ 52 + F) / 2 ^ 52) with E by (apply (Z.div_unique _ _ _ F); lia). apply Z.mod_small. lia.
Qed.

Lemma dbl_frac s E F : fields E F -> Z.land (dbl s E F) MASK_FRAC = F.
Proof.
  intros [HE HF]. unfold MASK_FRAC. change 0x000FFFFFFFFFFFFF with (Z.ones 52). rewrite Z.land_ones by lia. unfold dbl, d_of.
  destruct s; symmetry; [apply (Z.mod_unique _ _ (2 ^ 11 + E))|apply (Z.mod_unique _ _ E)]; lia.
Qed.

Lemma pack_dbl s E F : fields E F -> PACK s E F = dbl s E F.
Proof.
  intros [HE HF]. unfold PACK, NUM_BITS, NUM_BITS_FRAC. rewrite !Z.shiftl_mul_pow2 by lia. unfold dbl, d_of.
  rewrite (uw_small 64 (E * 2 ^ 52)) by lia. destruct s; cbn [Z.b2z]; rewrite (uw_small 64 (_ * 2 ^ (64 - 1))), uw_small by lia; lia.
Qed.

Lemma mag_fields E F : fields E F -> mag (E * 2 ^ 52 + F) = if E =? 0 then F else (2 ^ 52 + F) * 2 ^ (E - 1).
Proof.
  intros [HE HF]. unfold mag.
  replace ((E * 2 ^ 52 + F) / 2 ^ 52) with E by (apply (Z.div_unique _ _ _ F); lia).
  by replace ((E * 2 ^ 52 + F) mod 2 ^ 52) with F by (apply (Z.mod_unique _ _ E); lia).
Qed.

Lemma fields_of x : 0 <= x < 2 ^ 63 -> x = (x / 2 ^ 52) * 2 ^ 52 + x mod 2 ^ 52 /\ fields (x / 2 ^ 52) (x mod 2 ^ 52).
Proof.
  intros Hx. pose proof (Z.div_mod x (2 ^ 52) ltac:(lia)). pose proof (Z.mod_pos_bound x (2 ^ 52) ltac:(lia)).
  split; [lia|]. split; [|lia]. split; [apply Z.div_pos; lia|apply Z.div_lt_upper_bound; lia].
Qed.

(** ** A format *)

Section Format.
Context (e m : Z).
Hypothesis format : 2 <= e <= 8 /\ 2 <= m <= 23.
Let d : flexfloat_desc_t := Desc e m.

Definition fmt_sign (b : Z) : bool := Z.testbit b (e + m).
Definition fmt_exp (b : Z) : Z := (b / 2 ^ m) mod 2 ^ e.
Definition fmt_frac (b : Z) : Z := b mod 2 ^ m.
Definition fmt_bias : Z := 2 ^ (e - 1) - 1.
Definition fmt_top : Z := 2 ^ e - 1.

(** The value of the bits of a format, in the unit 2^-1074. *)
Definition fmt_mag (E F : Z) : Z :=
  if E =? 0 then F * 2 ^ (1075 - fmt_bias - m) else (2 ^ m + F) * 2 ^ (E + 1074 - fmt_bias - m).
Definition fmt_val (b : Z) : Z := signed (fmt_sign b) (fmt_mag (fmt_exp b) (fmt_frac b)).

Lemma fmt_exp_range b : 0 <= fmt_exp b <= fmt_top.
Proof. unfold fmt_exp, fmt_top. pose proof (Z.mod_pos_bound (b / 2 ^ m) (2 ^ e) ltac:(lia)). lia. Qed.
Lemma fmt_frac_range b : 0 <= fmt_frac b < 2 ^ m.
Proof. apply Z.mod_pos_bound. lia. Qed.
Lemma bias_range : 1 <= fmt_bias <= 127 /\ fmt_top = 2 * fmt_bias + 1.
Proof.
  unfold fmt_bias, fmt_top. pose proof (Z.pow_le_mono_r 2 1 (e - 1) ltac:(lia) ltac:(lia)).
  pose proof (Z.pow_le_mono_r 2 (e - 1) 7 ltac:(lia) ltac:(lia)). replace e with (Z.succ (e - 1)) at 3 by lia. rewrite Z.pow_succ_r by lia. lia.
Qed.

(** The double that keeps a number of the format. *)
Definition kept_exp (E F : Z) : Z :=
  if E =? 0 then if F =? 0 then 0 else Z.log2 F + 1 - m - fmt_bias + 1023
  else if E =? fmt_top then 2047 else E - fmt_bias + 1023.
Definition kept_frac (E F : Z) : Z :=
  if E =? 0 then if F =? 0 then 0 else F * 2 ^ (52 - Z.log2 F) - 2 ^ 52 else F * 2 ^ (52 - m).

Lemma log2_bounds F : 0 < F < 2 ^ m -> 0 <= Z.log2 F < m /\ 2 ^ Z.log2 F <= F < 2 ^ (Z.log2 F + 1).
Proof.
  intros HF. pose proof (Z.log2_spec F ltac:(lia)). split; [|by rewrite <- Z.add_1_r in *].
  split; [apply Z.log2_nonneg|]. apply Z.log2_lt_pow2; lia.
Qed.

Lemma pow_split a b : 0 <= a -> 0 <= b -> 2 ^ (a + b) = 2 ^ a * 2 ^ b.
Proof. intros. by apply Z.pow_add_r. Qed.

Lemma scaled_range F : 0 < F < 2 ^ m -> 2 ^ 52 <= F * 2 ^ (52 - Z.log2 F) < 2 ^ 53.
Proof.
  intros HF. destruct (log2_bounds F HF) as [Hh [Hl Hu]]. set (h := Z.log2 F) in *.
  assert (2 ^ 52 = 2 ^ h * 2 ^ (52 - h)) as -> by (rewrite <- pow_split by lia; f_equal; lia).
  assert (2 ^ 53 = 2 ^ (h + 1) * 2 ^ (52 - h)) as -> by (rewrite <- pow_split by lia; f_equal; lia). nia.
Qed.

Lemma frac_scaled F : 0 <= F < 2 ^ m -> 0 <= F * 2 ^ (52 - m) < 2 ^ 52.
Proof. intros HF. assert (2 ^ 52 = 2 ^ m * 2 ^ (52 - m)) as -> by (rewrite <- pow_split by lia; f_equal; lia). nia. Qed.

Lemma kept_fields E F : 0 <= E <= fmt_top -> 0 <= F < 2 ^ m -> fields (kept_exp E F) (kept_frac E F).
Proof.
  intros HE HF. destruct bias_range as [Hb Ht]. unfold fields, kept_exp, kept_frac.
  pose proof (frac_scaled F HF). destruct (Z.eqb_spec E 0); [destruct (Z.eqb_spec F 0); [lia|]|destruct (Z.eqb_spec E fmt_top); lia].
  destruct (log2_bounds F ltac:(lia)) as [Hh _]. pose proof (scaled_range F ltac:(lia)). lia.
Qed.

Lemma normalize_spec fuel F x :
  0 < F < 2 ^ m -> m - Z.log2 F <= Z.of_nat fuel -> normalize fuel m F x = (F * 2 ^ (m - Z.log2 F), x - (m - Z.log2 F - 1)).
Proof.
  revert F x. induction fuel as [|fuel IH]; intros F x HF Hf; destruct (log2_bounds F HF) as [Hh [Hl Hu]]; [lia|].
  cbn [normalize]. rewrite (proj2 (Z.eqb_neq F 0)) by lia. rewrite Z.shiftl_mul_pow2 by lia. change (2 ^ 1) with 2.
  assert (2 ^ m <= 2 ^ 23) as Hm by (apply Z.pow_le_mono_r; lia).
  rewrite (uw_small 64) by lia. rewrite land_bit by lia.
  assert (Z.log2 (F * 2) = Z.log2 F + 1) as Hl2 by (rewrite Z.mul_comm, Z.log2_double by lia; lia).
  destruct (Z.eq_dec (Z.log2 F + 1) m) as [Hm1|Hm1].
  - rewrite (testbit_top m), (proj2 (Z.leb_le _ _)); [|rewrite <- Hm1, Z.pow_add_r by lia; lia|lia|lia].
    replace (m - Z.log2 F) with 1 by lia. f_equal. lia.
  - assert (F * 2 < 2 ^ m).
    { apply Z.log2_lt_pow2; [lia|]. lia. }
    rewrite (testbit_above m) by lia. rewrite IH by lia. rewrite Hl2. f_equal; [|lia].
    replace (m - Z.log2 F) with (1 + (m - (Z.log2 F + 1))) by lia. rewrite (pow_split 1) by lia. lia.
Qed.

Lemma pack_normal s E F :
  fields (E - fmt_bias + 1023) (F * 2 ^ (52 - m)) -> E <> fmt_top -> flexfloat_pack d s E F = dbl s (E - fmt_bias + 1023) (F * 2 ^ (52 - m)).
Proof.
  intros Hf Ht. unfold flexfloat_pack, flexfloat_inf_exp, flexfloat_bias, NUM_BITS_FRAC, BIAS. cbn [exp_bits frac_bits d].
  rewrite !Z.shiftl_1_l. fold fmt_bias fmt_top. rewrite (proj2 (Z.eqb_neq _ _)) by done.
  rewrite Z.shiftl_mul_pow2 by lia. rewrite (uw_small 64) by (destruct Hf; lia). by apply pack_dbl.
Qed.

Lemma pack_top s F : 0 <= F < 2 ^ m -> flexfloat_pack d s fmt_top F = dbl s 2047 (F * 2 ^ (52 - m)).
Proof.
  intros HF. unfold flexfloat_pack, flexfloat_inf_exp, flexfloat_bias, NUM_BITS_FRAC, BIAS. cbn [exp_bits frac_bits d].
  rewrite !Z.shiftl_1_l. fold fmt_top. rewrite Z.eqb_refl. pose proof (frac_scaled F HF).
  rewrite Z.shiftl_mul_pow2 by lia. rewrite (uw_small 64) by lia. apply pack_dbl. unfold INF_EXP, fields. lia.
Qed.

Lemma pack_bits_spec b :
  flexfloat_pack_bits d b = dbl (fmt_sign b) (kept_exp (fmt_exp b) (fmt_frac b)) (kept_frac (fmt_exp b) (fmt_frac b)).
Proof.
  unfold flexfloat_pack_bits. cbn [exp_bits frac_bits d].
  assert (negb (Z.land (Z.shiftr b (e + m)) 0x1 =? 0) = fmt_sign b) as ->.
  { change 0x1 with (Z.shiftl 1 0). rewrite land_bit by lia. unfold fmt_sign. by rewrite Z.shiftr_spec by lia. }
  rewrite !land_low, Z.shiftr_div_pow2 by lia. fold (fmt_exp b) (fmt_frac b).
  pose proof (fmt_exp_range b) as HE. pose proof (fmt_frac_range b) as HF. pose proof bias_range as [Hb Ht].
  pose proof (kept_fields _ _ HE HF) as Hk. unfold kept_exp, kept_frac in *.
  destruct (Z.eqb_spec (fmt_exp b) 0) as [E0|E0]; [destruct (Z.eqb_spec (fmt_frac b) 0) as [F0|F0]|]; cbn [andb].
  - by apply pack_dbl.
  - rewrite E0. cbn [Z.leb Z.compare]. rewrite normalize_spec by (destruct (log2_bounds (fmt_frac b)); lia).
    destruct (log2_bounds (fmt_frac b) ltac:(lia)) as [Hh _]. set (h := Z.log2 (fmt_frac b)) in *.
    pose proof (scaled_range (fmt_frac b) ltac:(lia)) as Hs. fold h in Hs.
    assert (2 ^ (52 - h) = 2 ^ (m - h) * 2 ^ (52 - m)) as Hp by (rewrite <- pow_split by lia; f_equal; lia).
    assert (2 ^ 52 = 2 ^ m * 2 ^ (52 - m)) as H52 by (rewrite <- pow_split by lia; f_equal; lia).
    assert (2 ^ 53 = 2 * 2 ^ m * 2 ^ (52 - m)) as H53 by (rewrite <- Z.mul_assoc, <- H52; lia).
    rewrite Hp, ?H53 in Hs. rewrite H52 in Hs.
    assert (0 < 2 ^ (52 - m)) as Hpos by (apply Z.pow_pos_nonneg; lia).
    assert (2 ^ m <= fmt_frac b * 2 ^ (m - h) < 2 * 2 ^ m) as Hn by nia.
    rewrite land_low by lia.
    replace ((fmt_frac b * 2 ^ (m - h)) mod 2 ^ m) with (fmt_frac b * 2 ^ (m - h) - 2 ^ m) by (apply (Z.mod_unique _ _ 1); lia).
    replace (0 - (m - h - 1)) with (h + 1 - m) by lia.
    assert ((fmt_frac b * 2 ^ (m - h) - 2 ^ m) * 2 ^ (52 - m) = fmt_frac b * 2 ^ (52 - h) - 2 ^ 52) as Hfr by (rewrite Hp, H52; lia).
    rewrite pack_normal; [by rewrite Hfr| |lia]. by rewrite Hfr.
  - rewrite (proj2 (Z.leb_gt (fmt_exp b) 0)) by lia.
    destruct (Z.eqb_spec (fmt_exp b) fmt_top) as [->|]; [by apply pack_top|by apply pack_normal].
Qed.

(** ** Back to the bits *)

#[local] Notation bias := fmt_bias.
#[local] Notation top := fmt_top.

(** The bits of a number, with the sign extended to 64 bits. *)
Definition sign_extended (s : bool) (x : Z) : Z := if s then 2 ^ 64 - 2 ^ (e + m) + x else x.

Lemma exp_of_dbl s E F : fields E F ->
  flexfloat_exp (FlexFloat (dbl s E F) d) = if (E =? 0) || (E =? 2047) then E else E - 1023 + bias.
Proof.
  intros Hf. unfold flexfloat_exp, flexfloat_bias, INF_EXP, BIAS. cbn [value desc exp_bits d]. rewrite dbl_exp by done.
  by rewrite Z.shiftl_1_l.
Qed.

Lemma frac_of_dbl s E F : fields E F -> flexfloat_frac (FlexFloat (dbl s E F) d) = F / 2 ^ (52 - m).
Proof.
  intros Hf. unfold flexfloat_frac, NUM_BITS_FRAC. cbn [value desc frac_bits d]. by rewrite dbl_frac, Z.shiftr_div_pow2 by (done || lia).
Qed.

Lemma whole_frac_dbl s E F : fields E F -> whole_frac (FlexFloat (dbl s E F) d) = 2 ^ 52 + F.
Proof.
  intros Hf. unfold whole_frac, MASK_FRAC_MSB. cbn [value]. rewrite dbl_frac by done.
  change 0x0010000000000000 with (2 ^ 52 * 1). destruct Hf. rewrite lor_high by lia. lia.
Qed.

Lemma sign_of_dbl s E F : fields E F -> flexfloat_sign (FlexFloat (dbl s E F) d) = s.
Proof. apply dbl_sign. Qed.

(** The end of get_bits. *)
Lemma extend_bits s E F : 0 <= E <= top -> 0 <= F < 2 ^ m ->
  Z.lor (u64 (Z.shiftl (Z.b2z s) (e + m) + Z.shiftl E m + F)) (if s then u64 (Z.shiftl (-1) (e + m)) else 0) =
  sign_extended s (E * 2 ^ m + F).
Proof.
  intros HE HF. unfold sign_extended, fmt_top in *. rewrite !Z.shiftl_mul_pow2 by lia.
  assert (2 ^ (e + m) = 2 ^ e * 2 ^ m) as Hem by (apply pow_split; lia).
  assert (2 ^ (e + m) <= 2 ^ 31) as Hle by (apply Z.pow_le_mono_r; lia).
  assert (0 <= E * 2 ^ m + F < 2 ^ (e + m)) as Hx by (rewrite Hem; nia).
  destruct s; cbn [Z.b2z]; [|rewrite Z.lor_0_r; apply uw_small; lia].
  replace (u64 (-1 * 2 ^ (e + m))) with (2 ^ 64 - 2 ^ (e + m)) by (apply (Z.mod_unique _ _ (-1)); lia).
  rewrite uw_small by lia.
  replace (2 ^ 64 - 2 ^ (e + m)) with (2 ^ (e + m) * (1 + 2 * (2 ^ (63 - (e + m)) - 1))).
  2: { assert (2 ^ 63 = 2 ^ (63 - (e + m)) * 2 ^ (e + m)) by (rewrite <- pow_split by lia; f_equal; lia). lia. }
  set (x := E * 2 ^ m + F) in *. set (k := 2 ^ (63 - (e + m)) - 1). set (n := e + m) in *.
  replace (1 * 2 ^ n + E * 2 ^ m + F) with (x + 2 ^ n * 1) by lia.
  rewrite (Z.add_comm (2 ^ n * _) x), <- !lor_high by lia. rewrite <- Z.lor_assoc. f_equal.
  rewrite !(Z.mul_comm (2 ^ n)), <- !Z.shiftl_mul_pow2, <- Z.shiftl_lor by lia. f_equal.
  assert (1 + 2 * k = Z.lor 1 (2 * k)) as -> by exact (eq_sym (lor_high 1 k 1 ltac:(lia) ltac:(lia))). by rewrite Z.lor_assoc.
Qed.

Lemma get_kept s E F : 0 <= E <= top -> 0 <= F < 2 ^ m ->
  flexfloat_get_bits (FlexFloat (dbl s (kept_exp E F) (kept_frac E F)) d) = Some (sign_extended s (E * 2 ^ m + F)).
Proof.
  intros HE HF. pose proof (kept_fields E F HE HF) as Hf. pose proof bias_range as [Hb Ht].
  unfold flexfloat_get_bits. rewrite sign_of_dbl, exp_of_dbl, frac_of_dbl by done. cbn [desc exp_bits frac_bits d].
  pose proof (extend_bits s E F HE HF) as Hext. unfold INF_EXP, flexfloat_inf_exp. cbn [exp_bits d]. rewrite Z.shiftl_1_l. fold top.
  assert (0 < 2 ^ (52 - m)) as Hpos by (apply Z.pow_pos_nonneg; lia).
  unfold kept_exp, kept_frac in *.
  destruct (Z.eqb_spec E 0) as [->|E0]; [destruct (Z.eqb_spec F 0) as [->|F0]|destruct (Z.eqb_spec E top) as [->|Et]].
  - cbn [Z.eqb orb]. rewrite Z.div_0_l by lia. cbn [Z.ltb Z.compare andb Z.leb].
    unfold flexfloat_denorm_frac. cbn [value]. rewrite dbl_exp by done. cbn [Z.eqb desc frac_bits d].
    rewrite dbl_frac by done. rewrite Z.shiftr_0_l. by rewrite Hext.
  - destruct (log2_bounds F ltac:(lia)) as [Hh [Hl Hu]]. pose proof (scaled_range F ltac:(lia)) as Hs.
    set (h := Z.log2 F) in *. set (X := h + 1 - m - bias + 1023) in *.
    replace ((X =? 0) || (X =? 2047)) with false by lia. replace (X - 1023 + bias) with (h + 1 - m) by lia.
    rewrite (proj2 (Z.eqb_neq (h + 1 - m) 2047)) by lia. 
    assert (flexfloat_denorm_frac (FlexFloat (dbl s X (F * 2 ^ (52 - h) - 2 ^ 52)) d) (h + 1 - m) = F) as Hd.
    { unfold flexfloat_denorm_frac. cbn [value]. rewrite dbl_exp by done. rewrite (proj2 (Z.eqb_neq X 0)) by lia.
      unfold denorm_shift, NUM_BITS_FRAC, NUM_BITS. cbn [desc frac_bits d]. rewrite (uw_small 16) by lia.
      rewrite (proj2 (Z.leb_gt 64 _)) by lia. rewrite whole_frac_dbl by done. rewrite Z.shiftr_div_pow2 by lia.
      replace (52 - m - (h + 1 - m) + 1) with (52 - h) by lia. rewrite Z.add_comm, Z.sub_add. apply Z.div_mul.
      apply Z.pow_nonzero; lia. }
    destruct ((h + 1 - m <? 0) && ((F * 2 ^ (52 - h) - 2 ^ 52) / 2 ^ (52 - m) =? 0)) eqn:Hc.
    + apply andb_true_iff in Hc as [Hneg Hz]. apply Z.ltb_lt in Hneg. apply Z.eqb_eq in Hz.
      rewrite (proj2 (Z.leb_le 0 _)) by lia. rewrite shl_some by lia. cbn [mbind option_bind].
      assert (F = 2 ^ h) as HF2.
      { assert (2 ^ (52 - h) = 2 ^ (m - h) * 2 ^ (52 - m)) as Hp by (rewrite <- pow_split by lia; f_equal; lia).
        assert (2 ^ 52 = 2 ^ h * 2 ^ (52 - h)) as H52 by (rewrite <- pow_split by lia; f_equal; lia).
        assert (0 < 2 ^ (m - h)) by (apply Z.pow_pos_nonneg; lia).
        apply Z.div_small_iff in Hz; [|lia]. destruct Hz as [Hz|Hz]; [|lia]. rewrite H52, Hp in Hz.
        destruct (Z.eq_dec F (2 ^ h)) as [|Hne]; [done|]. nia. }
      rewrite Z.shiftl_1_l. replace (m + (h + 1 - m) - 1) with h by lia. rewrite <- HF2. by rewrite Hext.
    + rewrite (proj2 (Z.leb_le (h + 1 - m) 0)) by lia. cbn [mbind option_bind]. rewrite Hd. by rewrite Hext.
  - rewrite orb_true_r. cbn [Z.eqb Pos.eqb mbind option_bind]. rewrite Z.div_mul by lia. by rewrite Hext.
  - replace ((E - bias + 1023 =? 0) || (E - bias + 1023 =? 2047)) with false by lia.
    replace (E - bias + 1023 - 1023 + bias) with E by lia. rewrite (proj2 (Z.eqb_neq E 2047)) by lia.
    rewrite (proj2 (Z.ltb_ge E 0)), (proj2 (Z.leb_gt E 0)) by lia. cbn [andb mbind option_bind]. rewrite Z.div_mul by lia. by rewrite Hext.
Qed.

Lemma fmt_parts b : sw (e + m + 1) b = fmt_exp b * 2 ^ m + fmt_frac b - (if fmt_sign b then 2 ^ (e + m) else 0).
Proof.
  assert (b mod 2 ^ (e + m) = fmt_exp b * 2 ^ m + fmt_frac b) as Hlow.
  { unfold fmt_exp, fmt_frac. rewrite Z.add_comm, pow_split by lia. rewrite Z.rem_mul_r by lia. lia. }
  assert (2 ^ (e + m + 1) = 2 ^ (e + m) * 2) as Hp by (rewrite pow_split by lia; lia).
  pose proof (Z.mod_pos_bound b (2 ^ (e + m)) ltac:(lia)) as Hr.
  assert (uw (e + m + 1) b = fmt_exp b * 2 ^ m + fmt_frac b + (if fmt_sign b then 2 ^ (e + m) else 0)) as Hu.
  { unfold uw, fmt_sign. rewrite Hp, Z.rem_mul_r by lia. rewrite Hlow. pose proof (Z.testbit_spec' b (e + m) ltac:(lia)) as Ht.
    rewrite <- Ht. destruct (Z.testbit b (e + m)); cbn [Z.b2z]; lia. }
  unfold sw. replace (e + m + 1 - 1) with (e + m) by lia. rewrite Hu, Hp. destruct (fmt_sign b); bcases.
Qed.

Lemma sign_extended_parts b : u64 (sw (e + m + 1) b) = sign_extended (fmt_sign b) (fmt_exp b * 2 ^ m + fmt_frac b).
Proof.
  rewrite fmt_parts. unfold sign_extended. pose proof (fmt_exp_range b) as HE. pose proof (fmt_frac_range b) as HF. unfold fmt_top in HE.
  assert (2 ^ (e + m) = 2 ^ e * 2 ^ m) as Hem by (apply pow_split; lia).
  assert (2 ^ (e + m) <= 2 ^ 31) as Hle by (apply Z.pow_le_mono_r; lia).
  assert (0 <= fmt_exp b * 2 ^ m + fmt_frac b < 2 ^ (e + m)) by (rewrite Hem; nia).
  destruct (fmt_sign b); symmetry; [apply (Z.mod_unique _ _ (-1))|apply (Z.mod_unique _ _ 0)]; lia.
Qed.

(** C23: The bits of a format survive the double that keeps them: whatever the word, flexfloat_get_bits gives back
    what flexfloat_set_bits was given, with the sign of the format extended, for every number (zeros, subnormal numbers,
    infinities and NaNs with their payload included) of every format of 2 to 8 bits of exponent and 2 to 23 of fraction. *)
Theorem format_roundtrip b a : desc a = Desc e m -> flexfloat_get_bits (flexfloat_set_bits a b) = Some (u64 (sw (e + m + 1) b)).
Proof.
  intros Hd. unfold flexfloat_set_bits. rewrite Hd. fold d. rewrite pack_bits_spec, sign_extended_parts.
  apply get_kept; [apply fmt_exp_range|apply fmt_frac_range].
Qed.

(** ** Values *)

Lemma kept_mag E F : 0 <= E < top -> 0 <= F < 2 ^ m -> mag (kept_exp E F * 2 ^ 52 + kept_frac E F) = fmt_mag E F.
Proof.
  intros HE HF. pose proof bias_range as [Hb Ht].
  rewrite mag_fields by (apply kept_fields; lia). unfold kept_exp, kept_frac, fmt_mag.
  destruct (Z.eqb_spec E 0) as [->|E0]; [destruct (Z.eqb_spec F 0) as [->|F0]; [done|]|].
  - destruct (log2_bounds F ltac:(lia)) as [Hh _]. rewrite (proj2 (Z.eqb_neq _ 0)) by lia.
    replace (2 ^ 52 + (F * 2 ^ (52 - Z.log2 F) - 2 ^ 52)) with (F * 2 ^ (52 - Z.log2 F)) by lia.
    rewrite <- Z.mul_assoc, <- pow_split by lia. do 2 f_equal. lia.
  - rewrite (proj2 (Z.eqb_neq E top)) by lia. rewrite (proj2 (Z.eqb_neq _ 0)) by lia.
    assert (2 ^ 52 = 2 ^ m * 2 ^ (52 - m)) as -> by (rewrite <- pow_split by lia; f_equal; lia).
    rewrite <- Z.mul_add_distr_r, <- Z.mul_assoc, <- pow_split by lia. do 2 f_equal. lia.
Qed.

(** A number that is neither an infinity nor a NaN is kept with its value. *)
Lemma kept_val b : fmt_exp b <> top -> d_val (flexfloat_pack_bits d b) = fmt_val b.
Proof.
  intros Hb. pose proof (fmt_exp_range b) as HE. pose proof (fmt_frac_range b) as HF. rewrite pack_bits_spec.
  pose proof (kept_fields _ _ HE HF) as Hf. unfold d_val, fmt_val, d_sign. rewrite dbl_sign, dbl_mag by done. by rewrite kept_mag by lia.
Qed.

Lemma kept_finite b : fmt_exp b <> top -> d_mag (flexfloat_pack_bits d b) < D_INF.
Proof.
  intros Hb. pose proof (fmt_exp_range b) as HE. pose proof (fmt_frac_range b) as HF. rewrite pack_bits_spec.
  pose proof (kept_fields _ _ HE HF) as Hf. rewrite dbl_mag by done. pose proof bias_range as [Hbi Ht].
  assert (kept_exp (fmt_exp b) (fmt_frac b) <> 2047).
  { unfold kept_exp. destruct (Z.eqb_spec (fmt_exp b) 0); [destruct (Z.eqb_spec (fmt_frac b) 0); [lia|]|].
    - destruct (log2_bounds (fmt_frac b) ltac:(lia)) as [Hh _]. lia.
    - rewrite (proj2 (Z.eqb_neq _ _)) by done. lia. }
  unfold D_INF. destruct Hf as [HE' HF']. lia.
Qed.
Lemma fmt_val_abs b : Z.abs (fmt_val b) = fmt_mag (fmt_exp b) (fmt_frac b).
Proof.
  pose proof (fmt_exp_range b) as HE. pose proof (fmt_frac_range b) as HF. pose proof bias_range as [Hb Ht].
  assert (0 <= fmt_mag (fmt_exp b) (fmt_frac b)).
  { unfold fmt_mag. destruct (_ =? 0); apply Z.mul_nonneg_nonneg; try (apply Z.pow_nonneg; lia); lia. }
  unfold fmt_val, signed. destruct (fmt_sign b); lia.
Qed.
End Format.

Lemma format_roundtrip_witness :
  desc (ff_init (Desc 5 10)) = Desc 5 10 /\
  flexfloat_get_bits (flexfloat_set_bits (ff_init (Desc 5 10)) 0x8203) = Some (u64 (sw 16 0x8203)).
Proof. split; [done|]. apply (format_roundtrip 5 10 ltac:(lia) 0x8203 (ff_init (Desc 5 10))). reflexivity. Defined.
