(* ===== verification/FloatRound.v ===== *)
(** * The rounding of the floating-point operations

    Facts on FlexFloat.v and FloatLib.v. The doubles of the host are ordered as the magnitudes of the bits; the rounding of
    round_value is the rounding of an integer, so that the result of flexfloat_sanitize is one of the two neighbours, in the
    format, of the value. [rounded] is the specification of IEEE 754, and the last theorems prove it of operations. *)

From S2P Require Import Prelude HostFloat FlexFloat FloatLib FloatFacts.

(** ** The rounding of the host *)

Lemma mag_nonneg x : 0 <= x -> 0 <= mag x.
Proof.
  intros Hx. unfold mag. pose proof (Z.mod_pos_bound x (2 ^ 52) ltac:(lia)). pose proof (Z.div_pos x (2 ^ 52) Hx ltac:(lia)).
  destruct (Z.eqb_spec (x / 2 ^ 52) 0); [lia|]. apply Z.mul_nonneg_nonneg; [lia|]. apply Z.pow_nonneg. lia.
Qed.

(** The magnitudes of a binade are evenly spaced, its end included. *)
Lemma mag_linear E F t : fields E F -> 1 <= E -> 0 <= t -> F + t <= 2 ^ 52 ->
  mag (E * 2 ^ 52 + F + t) = mag (E * 2 ^ 52 + F) + t * 2 ^ (E - 1).
Proof.
  intros [HE HF] H1 Ht Hend. rewrite (mag_fields E F) by done. rewrite (proj2 (Z.eqb_neq E 0)) by lia.
  unfold mag. destruct (Z.eq_dec (F + t) (2 ^ 52)) as [Heq|Hne].
  - replace ((E * 2 ^ 52 + F + t) / 2 ^ 52) with (E + 1) by (apply (Z.div_unique _ _ _ 0); lia).
    replace ((E * 2 ^ 52 + F + t) mod 2 ^ 52) with 0 by (apply (Z.mod_unique _ _ (E + 1)); lia).
    rewrite (proj2 (Z.eqb_neq _ 0)) by lia. replace (E + 1 - 1) with (1 + (E - 1)) by lia. rewrite pow_split by lia. change (2 ^ 1) with 2. nia.
  - replace ((E * 2 ^ 52 + F + t) / 2 ^ 52) with E by (apply (Z.div_unique _ _ _ (F + t)); lia).
    replace ((E * 2 ^ 52 + F + t) mod 2 ^ 52) with (F + t) by (apply (Z.mod_unique _ _ E); lia).
    rewrite (proj2 (Z.eqb_neq E 0)) by lia. lia.
Qed.

Lemma mag_bounds E F : fields E F -> 1 <= E -> 2 ^ (52 + (E - 1)) <= mag (E * 2 ^ 52 + F) < 2 ^ (53 + (E - 1)).
Proof.
  intros [HE HF] H1. rewrite (mag_fields E F) by done. rewrite (proj2 (Z.eqb_neq E 0)) by lia.
  rewrite !pow_split by lia. assert (0 < 2 ^ (E - 1)) by (apply Z.pow_pos_nonneg; lia). nia.
Qed.

Lemma mag_mono x y : 0 <= x < y -> y < 2 ^ 63 -> mag x < mag y.
Proof.
  intros Hx Hy. destruct (fields_of x ltac:(lia)) as [Ex Hfx], (fields_of y ltac:(lia)) as [Ey Hfy].
  set (E1 := x / 2 ^ 52) in *. set (F1 := x mod 2 ^ 52) in *. set (E2 := y / 2 ^ 52) in *. set (F2 := y mod 2 ^ 52) in *.
  pose proof Hfx as [HE1 HF1]. pose proof Hfy as [HE2 HF2].
  assert (E1 < E2 \/ E1 = E2 /\ F1 < F2) as [Hlt|[-> Hlt]] by lia.
  - pose proof (mag_bounds E2 F2 Hfy ltac:(lia)) as [H2 _]. rewrite <- Ey in H2. destruct (Z.eq_dec E1 0) as [E0|E0].
    + rewrite Ex, E0, mag_fields by (split; lia). cbn [Z.eqb].
      pose proof (Z.pow_le_mono_r 2 52 (52 + (E2 - 1)) ltac:(lia) ltac:(lia)). lia.
    + pose proof (mag_bounds E1 F1 Hfx ltac:(lia)) as [_ H1]. rewrite <- Ex in H1.
      pose proof (Z.pow_le_mono_r 2 (53 + (E1 - 1)) (52 + (E2 - 1)) ltac:(lia) ltac:(lia)). lia.
  - rewrite Ex, Ey, !mag_fields by done. destruct (Z.eqb_spec E2 0); [lia|].
    apply Z.mul_lt_mono_pos_r; [apply Z.pow_pos_nonneg; lia|lia].
Qed.

Lemma mag_mono_le x y : 0 <= x <= y -> y < 2 ^ 63 -> mag x <= mag y.
Proof. intros Hx Hy. destruct (Z.eq_dec x y) as [->|]; [lia|]. pose proof (mag_mono x y ltac:(lia) ltac:(lia)). lia. Qed.

Lemma round_int_exact mode s q den : 0 < den -> round_int mode s (q * den) den = q.
Proof.
  intros Hd. unfold round_int. rewrite Z.div_mul, Z.mod_mul by lia. unfold round_up. change (2 * 0) with 0.
  rewrite (proj2 (Z.ltb_ge den 0)), (proj2 (Z.eqb_neq 0 den)) by lia. cbn [orb andb].
  change (0 <? 0) with false. cbn [andb]. repeat destruct (_ =? _); cbn; lia.
Qed.

Lemma round_int_range mode s num den : 0 < den -> num / den <= round_int mode s num den <= num / den + 1.
Proof. intros Hd. unfold round_int. destruct (round_up _ _ _ _ _); cbn [Z.b2z]; lia. Qed.

(** A magnitude that is a double is not changed. *)
Lemma round_dbl_exact mode s x den : 0 <= x < D_INF -> 0 < den -> round_dbl mode s (mag x * den) den = (d_of s x, 0).
Proof.
  intros Hx Hd. unfold D_INF in Hx. destruct (fields_of x ltac:(lia)) as [Ex Hf]. pose proof Hf as [HE HF].
  set (E := x / 2 ^ 52) in *. set (F := x mod 2 ^ 52) in *.
  unfold round_dbl. rewrite Z.div_mul by lia.
  assert ((if mag x <? 2 ^ 53 then 0 else Z.log2 (mag x) - 52) = if E =? 0 then 0 else E - 1) as ->.
  { destruct (Z.eqb_spec E 0) as [E0|E0].
    - rewrite Ex, mag_fields, E0 by done. cbn [Z.eqb]. by rewrite (proj2 (Z.ltb_lt _ _)) by lia.
    - pose proof (mag_bounds E F Hf ltac:(lia)) as [Hl Hu]. rewrite <- Ex in Hl, Hu.
      destruct (Z.ltb_spec (mag x) (2 ^ 53)) as [Hlt|Hge].
      + destruct (Z.eq_dec E 1) as [->|H1]; [done|]. pose proof (Z.pow_le_mono_r 2 53 (52 + (E - 1)) ltac:(lia) ltac:(lia)). lia.
      + rewrite (Z.log2_unique (mag x) (52 + (E - 1))); [lia|lia|]. split; [lia|].
        replace (Z.succ (52 + (E - 1))) with (53 + (E - 1)) by lia. lia. }
  set (k := if E =? 0 then 0 else E - 1).
  assert (exists M, mag x = M * 2 ^ k /\ k * 2 ^ 52 + M = x) as (M & HM & HMx).
  { unfold k. rewrite Ex, mag_fields by done. destruct (Z.eqb_spec E 0); [exists F; lia|exists (2 ^ 52 + F); lia]. }
  assert (0 < 2 ^ k) by (apply Z.pow_pos_nonneg; [lia|unfold k; destruct (Z.eqb_spec E 0); lia]).
  rewrite HM. replace (M * 2 ^ k * den) with (M * (den * 2 ^ k)) by lia. rewrite round_int_exact by nia.
  rewrite HMx. unfold D_INF. rewrite (proj2 (Z.ltb_lt _ _)) by lia. rewrite Z.mod_mul by nia. done.
Qed.

(** A product of 53 bits and a power of two, which is not too small nor too large, is a double. *)
Lemma dbl_of_product P q : 0 < P < 2 ^ 53 -> 52 <= q + Z.log2 P -> q + Z.log2 P < 52 + 2046 -> 0 <= q ->
  exists E F, fields E F /\ 1 <= E < 2047 /\ mag (E * 2 ^ 52 + F) = P * 2 ^ q.
Proof.
  intros HP Hl Hu Hq. set (h := Z.log2 P) in *. pose proof (Z.log2_spec P ltac:(lia)) as [H1 H2]. fold h in H1, H2.
  pose proof (Z.log2_nonneg P). fold h in H.
  assert (h < 53) by (apply Z.log2_lt_pow2; lia).
  assert (2 ^ 52 = 2 ^ h * 2 ^ (52 - h)) as E52 by (rewrite <- pow_split by lia; f_equal; lia).
  assert (0 < 2 ^ (52 - h)) by (apply Z.pow_pos_nonneg; lia).
  rewrite Z.pow_succ_r in H2 by lia.
  exists (q + h - 52 + 1), (P * 2 ^ (52 - h) - 2 ^ 52).
  assert (fields (q + h - 52 + 1) (P * 2 ^ (52 - h) - 2 ^ 52)) as Hf by (split; [lia|]; rewrite E52; nia).
  split; [done|]. split; [lia|]. rewrite mag_fields by done. rewrite (proj2 (Z.eqb_neq _ 0)) by lia.
  replace (2 ^ 52 + (P * 2 ^ (52 - h) - 2 ^ 52)) with (P * 2 ^ (52 - h)) by lia.
  rewrite <- Z.mul_assoc, <- pow_split by lia. do 2 f_equal. lia.
Qed.

(** A magnitude just above the end of a binade. *)
Lemma next_binade mode s X r k : 1 <= X < 2046 -> 0 < r < 2 * 2 ^ k -> 0 <= k <= 50 ->
  exists g, 0 <= g <= 2 ^ k /\ fst (round_dbl mode s ((2 ^ 53 + r) * 2 ^ (X - 1)) 1) = d_of s ((X + 1) * 2 ^ 52 + g).
Proof.
  intros HX Hr Hk. assert (0 < 2 ^ (X - 1)) as HpX by (apply Z.pow_pos_nonneg; lia).
  pose proof (Z.pow_le_mono_r 2 k 50 ltac:(lia) ltac:(lia)).
  assert (2 ^ X = 2 * 2 ^ (X - 1)) as HX1 by (replace X with (1 + (X - 1)) at 1 by lia; rewrite pow_split by lia; done).
  set (V := (2 ^ 53 + r) * 2 ^ (X - 1)). unfold round_dbl. rewrite Z.div_1_r.
  assert (2 ^ 53 < V) as HV53 by (unfold V; nia). rewrite (proj2 (Z.ltb_ge V (2 ^ 53))) by lia.
  rewrite (Z.log2_unique V (53 + (X - 1))).
  2: lia.
  2: { unfold V. rewrite Z.pow_succ_r, pow_split by lia. nia. }
  replace (53 + (X - 1) - 52) with X by lia. rewrite Z.mul_1_l.
  assert (V / 2 ^ X = 2 ^ 52 + r / 2) as Hq.
  { unfold V. rewrite HX1. rewrite Z.div_mul_cancel_r by lia. replace (2 ^ 53 + r) with (r + 2 ^ 52 * 2) by lia. rewrite Z.div_add by lia. lia. }
  pose proof (round_int_range mode s V (2 ^ X) ltac:(lia)) as Hri. rewrite Hq in Hri.
  set (w := round_int mode s V (2 ^ X)) in *.
  assert (0 <= w - 2 ^ 52 <= 2 ^ k) as Hg.
  { pose proof (Z.div_pos r 2 ltac:(lia) ltac:(lia)). pose proof (Z.div_lt_upper_bound r 2 (2 ^ k) ltac:(lia) ltac:(lia)). lia. }
  rewrite (proj2 (Z.ltb_lt _ D_INF)) by (unfold D_INF; lia). cbn [fst].
  exists (w - 2 ^ 52). split; [done|]. f_equal. lia.
Qed.

(** ** Correct rounding

    The specification of IEEE 754, over the numbers of a format that are not infinities nor NaNs: [num / den] is the
    exact value of an operation, in the unit 2^-1074, and [rm] one of the rounding modes 0 to 3 of the instructions. *)

Definition finite (e m b : Z) : Prop := 0 <= b < 2 ^ (e + m + 1) /\ fmt_exp e m b <> fmt_top e.
Definition RNE : Z := 0.
Definition RTZ : Z := 1.
Definition RDN : Z := 2.
Definition RUP : Z := 3.

Definition rounded (e m rm num den b : Z) : Prop :=
  let x b := fmt_val e m b * den in
  finite e m b /\ fmt_sign e m b = (num <? 0) /\
  (rm = RNE -> forall b', finite e m b' ->
     Z.abs (x b - num) <= Z.abs (x b' - num) /\
     (Z.abs (x b - num) = Z.abs (x b' - num) -> x b <> x b' -> Z.even (fmt_frac m b) = true)) /\
  (rm = RTZ -> Z.abs (x b) <= Z.abs num /\ forall b', finite e m b' -> Z.abs (x b') <= Z.abs num -> Z.abs (x b') <= Z.abs (x b)) /\
  (rm = RDN -> x b <= num /\ forall b', finite e m b' -> x b' <= num -> x b' <= x b) /\
  (rm = RUP -> num <= x b /\ forall b', finite e m b' -> num <= x b' -> x b <= x b').

(** The mode of the host for a mode of the instructions. *)
Definition host_mode (rm : Z) : Z :=
  if rm =? RNE then FE_TONEAREST else if rm =? RTZ then FE_TOWARDZERO else if rm =? RDN then FE_DOWNWARD else FE_UPWARD.

Lemma rounded_scale e m rm v den b : 0 < den -> rounded e m rm v 1 b -> rounded e m rm (v * den) den b.
Proof.
  intros Hd (Hf & Hs & HN & HZ & HD & HU). split; [done|].
  assert (forall x, Z.abs (x * den) = Z.abs x * den) as Habs by (intros; rewrite Z.abs_mul; lia).
  assert (forall x, x * den - v * den = (x - v) * den) as Hsub by (intros; lia).
  assert (forall x y, x * den <= y * den <-> x <= y) as Hle by (intros; symmetry; apply Z.mul_le_mono_pos_r; lia).
  assert (forall x y, x * den = y * den <-> x = y) as Heq by (intros; apply Z.mul_cancel_r; lia).
  rewrite !Z.mul_1_r in *. split; [|split; [|split; [|split]]].
  - rewrite Hs. bcases; nia.
  - intros Hrm b' Hb'. destruct (HN Hrm b' Hb') as [H1 H2]. rewrite !Z.mul_1_r in H1, H2.
    rewrite !Hsub, !Habs, Hle, Heq. split; [done|]. intros E Hne. apply H2; [done|]. intros Hc. apply Hne. by rewrite Hc.
  - intros Hrm. destruct (HZ Hrm) as [H1 H2]. rewrite !Habs, Hle. split; [done|]. intros b' Hb'. specialize (H2 b' Hb').
    rewrite !Z.mul_1_r in H2. by rewrite !Habs, !Hle.
  - intros Hrm. destruct (HD Hrm) as [H1 H2]. rewrite Hle. split; [done|]. intros b' Hb'. specialize (H2 b' Hb').
    rewrite !Z.mul_1_r in H2. by rewrite !Hle.
  - intros Hrm. destruct (HU Hrm) as [H1 H2]. rewrite Hle. split; [done|]. intros b' Hb'. specialize (H2 b' Hb').
    rewrite !Z.mul_1_r in H2. by rewrite !Hle.
Qed.

(** The choice between two neighbours: [lo + c] lies between [lo] and [lo + g], and no number of [P] does. *)
Section Choice.
Context (lo c g : Z) (s ev : bool).
Hypothesis around : 0 < lo /\ 0 <= c < g.
Let x : Z := signed s (lo + c).
Let y (rm : Z) : Z := signed s (if round_up (host_mode rm) s (negb ev) c g then lo + g else lo).
Context (P : Z -> Prop).
Hypothesis gap : forall v, P v -> Z.abs v <= lo \/ lo + g <= Z.abs v.

Lemma round_up_scale mode r d w : 0 < w -> round_up mode s (negb ev) (r * w) (d * w) = round_up mode s (negb ev) r d.
Proof.
  intros Hw. unfold round_up. rewrite Z.mul_assoc.
  assert ((d * w <? 2 * r * w) = (d <? 2 * r)) as -> by (bcases; nia).
  assert ((2 * r * w =? d * w) = (2 * r =? d)) as -> by (bcases; nia).
  assert ((0 <? r * w) = (0 <? r)) as -> by (bcases; nia). done.
Qed.

Lemma choose_nearest v : P v ->
  Z.abs (y RNE - x) <= Z.abs (v - x) /\
  (Z.abs (y RNE - x) = Z.abs (v - x) -> y RNE <> v -> xorb (round_up (host_mode RNE) s (negb ev) c g) ev = true).
Proof.
  intros Hv. apply gap in Hv. unfold y, x. cbn. unfold round_up, signed. cbn.
  destruct ev, s; cbn; bcases.
Qed.

Lemma choose_zero : Z.abs (y RTZ) <= Z.abs x /\ forall v, P v -> Z.abs v <= Z.abs x -> Z.abs v <= Z.abs (y RTZ).
Proof. unfold y, x, round_up, signed. cbn. split; [|intros v Hv; apply gap in Hv]; destruct s; lia. Qed.

Lemma choose_down : y RDN <= x /\ forall v, P v -> v <= x -> v <= y RDN.
Proof. unfold y, x, round_up, signed. cbn. split; [|intros v Hv; apply gap in Hv]; destruct s; cbn; bcases. Qed.

Lemma choose_up : x <= y RUP /\ forall v, P v -> x <= v -> y RUP <= v.
Proof. unfold y, x, round_up, signed. cbn. split; [|intros v Hv; apply gap in Hv]; destruct s; cbn; bcases. Qed.
End Choice.

(** ** The rounding to a format *)

Section Rounding.
Context (e m : Z).
Hypothesis format : 2 <= e <= 8 /\ 2 <= m <= 23.
Let d : flexfloat_desc_t := Desc e m.
Let J : Z := 52 - m.
#[local] Notation bias := (fmt_bias e).
#[local] Notation top := (fmt_top e).

(** A value whose exponent is one of a normal number of the format, or above. *)
Context (s : bool) (X M : Z).
Hypothesis value_fields : fields X M.
Hypothesis normal : 1024 - bias <= X < 2047.
Let N : Z := X * 2 ^ 52 + M.
Let a : flexfloat_t := FlexFloat (dbl s X M) d.
Let exp : Z := X - 1023 + bias.

Lemma J_range : 29 <= J <= 50 /\ 2 ^ 52 = 2 ^ m * 2 ^ J /\ 2 ^ J = 2 * 2 ^ (J - 1) /\ 0 < 2 ^ (J - 1).
Proof.
  unfold J. split; [lia|]. split; [rewrite <- pow_split by lia; f_equal; lia|].
  split; [|apply Z.pow_pos_nonneg; lia]. replace (52 - m) with (1 + (52 - m - 1)) at 1 by lia. rewrite pow_split by lia. done.
Qed.

Lemma value_low : value a mod 2 ^ J = N mod 2 ^ J /\ value a mod 2 ^ (J - 1) = N mod 2 ^ (J - 1).
Proof.
  destruct J_range as (HJ & _ & _ & _).
  assert (forall k, 0 <= k <= 52 -> dbl s X M mod 2 ^ k = N mod 2 ^ k) as H.
  { intros k Hk. unfold dbl, d_of. destruct s; [|done]. fold N.
    assert (2 ^ 63 = 2 ^ (63 - k) * 2 ^ k) as -> by (rewrite <- pow_split by lia; f_equal; lia).
    rewrite Z.add_comm. by rewrite Z.mod_add by lia. }
  split; apply H; lia.
Qed.

Lemma round_bit_spec : flexfloat_round_bit a exp = (2 ^ (J - 1) <=? N mod 2 ^ J).
Proof.
  destruct J_range as (HJ & _ & Hp & Hpos). unfold flexfloat_round_bit. rewrite (proj2 (Z.leb_gt exp 0)) by (unfold exp; lia). cbn [andb].
  unfold NUM_BITS_FRAC. cbn [desc frac_bits a d]. fold J. rewrite land_bit by lia.
  rewrite <- (proj1 value_low). pose proof (Z.mod_pos_bound (value a) (2 ^ J) ltac:(lia)).
  rewrite <- (testbit_top (J - 1)) by lia. by rewrite Z.mod_pow2_bits_low by lia.
Qed.

Lemma sticky_bit_spec : flexfloat_sticky_bit a exp = negb (N mod 2 ^ (J - 1) =? 0).
Proof.
  destruct J_range as (HJ & _ & _ & _). unfold flexfloat_sticky_bit. rewrite (proj2 (Z.leb_gt exp 0)) by (unfold exp; lia). cbn [andb].
  cbn [desc frac_bits a d]. unfold MASK_FRAC. change 0x000FFFFFFFFFFFFF with (Z.ones 52). rewrite Z.shiftr_div_pow2 by lia.
  assert (Z.ones 52 / 2 ^ (m + 1) = Z.ones (J - 1)) as ->.
  { rewrite Z.ones_div_pow2 by (unfold J in *; lia). f_equal. unfold J. lia. }
  rewrite Z.land_ones by lia. by rewrite <- (proj2 value_low).
Qed.

(** The part cut, from its first bit and the others. *)
Lemma cut_parts : let r := N mod 2 ^ J in
  (2 ^ (J - 1) <=? r) = (2 ^ J <=? 2 * r) /\ negb (N mod 2 ^ (J - 1) =? 0) = negb (r =? 0) && negb (2 * r =? 2 ^ J).
Proof.
  intros r. destruct J_range as (HJ & _ & Hp & Hpos). pose proof (Z.mod_pos_bound N (2 ^ J) ltac:(lia)) as Hr. fold r in Hr.
  split; [bcases|].
  assert (N mod 2 ^ (J - 1) = r mod 2 ^ (J - 1)) as ->.
  { unfold r. rewrite Hp. symmetry. rewrite Z.mul_comm. rewrite Z.rem_mul_r by lia. rewrite Z.mul_comm, Z.mod_add by lia. by rewrite Z.mod_mod by lia. }
  destruct (Z.ltb_spec r (2 ^ (J - 1))).
  - rewrite Z.mod_small by lia. bcases.
  - replace (r mod 2 ^ (J - 1)) with (r - 2 ^ (J - 1)) by (apply (Z.mod_unique _ _ 1); lia). bcases.
Qed.

Lemma odd_frac : Z.odd (flexfloat_frac a) = Z.odd (N / 2 ^ J).
Proof.
  destruct J_range as (HJ & H52 & _ & _). unfold a. rewrite (frac_of_dbl e m format) by done. fold J. unfold N. rewrite H52.
  replace (X * (2 ^ m * 2 ^ J) + M) with (M + (X * 2 ^ m) * 2 ^ J) by lia. rewrite Z.div_add by lia.
  rewrite Z.odd_add, Z.odd_mul. assert (Z.odd (2 ^ m) = false) as ->.
  { replace m with (1 + (m - 1)) by lia. rewrite pow_split by lia. by rewrite Z.odd_mul. }
  by rewrite andb_false_r, xorb_false_r.
Qed.

(** The decision to round is the one of an integer division. *)
Lemma rounding_spec mode : 
  (if (mode =? FE_TONEAREST) && flexfloat_nearest_rounding a exp then true
   else if (mode =? FE_UPWARD) && flexfloat_inf_rounding a exp s true then true
   else (mode =? FE_DOWNWARD) && flexfloat_inf_rounding a exp s false)
  = round_up mode s (Z.odd (N / 2 ^ J)) (N mod 2 ^ J) (2 ^ J).
Proof.
  destruct cut_parts as [H1 H2]. destruct J_range as (HJ & _ & Hp & Hpos).
  pose proof (Z.mod_pos_bound N (2 ^ J) ltac:(lia)) as Hr.
  unfold flexfloat_nearest_rounding, flexfloat_inf_rounding, round_up.
  rewrite round_bit_spec, sticky_bit_spec, odd_frac, H1, H2. rewrite (proj2 (Z.leb_gt exp 0)) by (unfold exp; lia).
  set (r := N mod 2 ^ J) in *. generalize (Z.odd (N / 2 ^ J)). intros o.
  destruct (Z.eqb_spec mode FE_TONEAREST) as [->|]; [|destruct (Z.eqb_spec mode FE_UPWARD) as [->|]; [|destruct (Z.eqb_spec mode FE_DOWNWARD) as [->|]; [|done]]].
  all: cbn [andb]; try change (FE_TONEAREST =? FE_UPWARD) with false; try change (FE_TONEAREST =? FE_DOWNWARD) with false;
    try change (FE_UPWARD =? FE_DOWNWARD) with false; cbn [andb].
  all: destruct o, s; bcases.
Qed.

(** The sum with the rounding value: it has the digits wanted, whatever becomes of those that are cut. *)
Hypothesis in_range : exp < top.

Lemma rounding_value_spec : flexfloat_rounding_value a exp s = dbl s (X - m) 0.
Proof.
  pose proof (bias_range e m format) as [Hb _]. unfold flexfloat_rounding_value, a. cbn [value]. rewrite dbl_exp by done.
  rewrite (proj2 (Z.eqb_neq X 0)), (proj2 (Z.leb_gt exp 0)) by (unfold exp; lia).
  cbn [desc frac_bits d]. rewrite (pack_normal e m format); [|split; unfold exp; lia|lia].
  f_equal; unfold exp; lia.
Qed.

Lemma add_rounding_value mode :
  exists y, fst (d_add mode (value a) (dbl s (X - m) 0)) = d_of s y /\ y / 2 ^ J = N / 2 ^ J + 1 /\ N <= y.
Proof.
  destruct J_range as (HJ & H52 & _ & Hpos). pose proof (bias_range e m format) as [Hb Htop]. unfold exp in in_range.
  pose proof value_fields as [HX HM]. assert (fields (X - m) 0) as Hf by (split; lia).
  assert (d_mag (dbl s X M) = N) as HmN by (by apply dbl_mag).
  assert (d_mag (dbl s (X - m) 0) = (X - m) * 2 ^ 52) as Hmr by (rewrite dbl_mag by done; lia).
  unfold d_add. cbn [value a]. unfold d_is_nan, d_is_inf. rewrite HmN, Hmr. unfold D_INF.
  replace (0x7ff0000000000000 <? N) with false by (symmetry; apply Z.ltb_ge; unfold N; lia).
  replace (0x7ff0000000000000 <? (X - m) * 2 ^ 52) with false by (symmetry; apply Z.ltb_ge; lia).
  replace (N =? 0x7ff0000000000000) with false by (symmetry; apply Z.eqb_neq; unfold N; lia).
  replace ((X - m) * 2 ^ 52 =? 0x7ff0000000000000) with false by (symmetry; apply Z.eqb_neq; lia). cbn [orb].
  unfold d_val, d_sign. rewrite !dbl_sign by done. rewrite HmN, Hmr.
  assert (mag N = (2 ^ 52 + M) * 2 ^ (X - 1)) as HvN.
  { unfold N. rewrite mag_fields by done. by rewrite (proj2 (Z.eqb_neq X 0)) by lia. }
  assert (mag ((X - m) * 2 ^ 52) = 2 ^ J * 2 ^ (X - 1)) as Hvr.
  { rewrite <- (Z.add_0_r (_ * _)), mag_fields by done. rewrite (proj2 (Z.eqb_neq _ 0)) by lia. rewrite Z.add_0_r, <- !pow_split by lia.
    f_equal. unfold J. lia. }
  assert (0 < 2 ^ (X - 1)) as HpX by (apply Z.pow_pos_nonneg; lia).
  set (V := (2 ^ 52 + M + 2 ^ J) * 2 ^ (X - 1)).
  assert (0 < V) as HV by (unfold V; nia).
  replace (signed s (mag N) + signed s (mag ((X - m) * 2 ^ 52))) with (signed s V).
  2: { rewrite HvN, Hvr. unfold signed, V. destruct s; lia. }
  unfold round_sum. replace (signed s V =? 0) with false by (symmetry; apply Z.eqb_neq; unfold signed; destruct s; lia).
  replace (signed s V <? 0) with s by (unfold signed; destruct s; symmetry; [apply Z.ltb_lt|apply Z.ltb_ge]; lia).
  replace (Z.abs (signed s V)) with V by (unfold signed; destruct s; lia).
  destruct (Z.le_gt_cases (M + 2 ^ J) (2 ^ 52)) as [Hle|Hgt].
  - assert (V = mag (N + 2 ^ J) * 1) as ->.
    { unfold N. rewrite mag_linear by (done || lia). fold N. rewrite HvN. unfold V. lia. }
    rewrite round_dbl_exact by (unfold N, D_INF; lia). exists (N + 2 ^ J). split; [done|]. split; [|lia].
    rewrite <- (Z.mul_1_l (2 ^ J)) at 1. by rewrite Z.div_add by lia.
  - (* The sum goes to the next binade. *)
    set (r := M + 2 ^ J - 2 ^ 52).
    assert (V = (2 ^ 53 + r) * 2 ^ (X - 1)) as -> by (unfold V, r; lia).
    destruct J_range as (_ & _ & Hp & _).
    destruct (next_binade mode s X r (J - 1)) as (g & Hg & ->); [lia|unfold r; lia|lia|].
    exists ((X + 1) * 2 ^ 52 + g). split; [done|]. split; [|unfold N; lia].
    replace ((X + 1) * 2 ^ 52 + g) with (g + ((X + 1) * 2 ^ m) * 2 ^ J) by (rewrite H52; lia).
    rewrite Z.div_add by lia. rewrite (Z.div_small g) by lia.
    unfold N. replace (X * 2 ^ 52 + M) with (M + (X * 2 ^ m) * 2 ^ J) by (rewrite H52; lia). rewrite Z.div_add by lia.
    replace (M / 2 ^ J) with (2 ^ m - 1); [lia|]. apply (Z.div_unique _ _ _ (M - (2 ^ m - 1) * 2 ^ J)); lia.
Qed.

Context (f : fpu).
Let R : Z := round_int (fe_round f) s N (2 ^ J).
Hypothesis no_overflow : R * 2 ^ J < (top + 1023 - bias) * 2 ^ 52.

(** The flags of the rounding: inexact when something is cut. *)
Definition inexact_flag (r : Z) (f : fpu) : fpu := if r =? 0 then f else feraiseexcept FE_INEXACT f.

Lemma fe_round_inexact r g : fe_round (inexact_flag r g) = fe_round g.
Proof. unfold inexact_flag. destruct (r =? 0); reflexivity. Qed.

Lemma round_value_spec :
  exists y, round_value a s exp f = (FlexFloat (d_of s y) d, inexact_flag (N mod 2 ^ J) f) /\ y / 2 ^ J = R /\ N <= y.
Proof.
  destruct J_range as (HJ & _ & Hp & Hpos). destruct (cut_parts) as [H1 H2]. pose proof (Z.mod_pos_bound N (2 ^ J) ltac:(lia)) as Hr.
  pose proof (bias_range e m format) as [Hb Ht].
  unfold round_value. unfold INF_EXP, NUM_BITS_FRAC. rewrite (proj2 (Z.eqb_neq exp 0x7FF)) by lia.
  cbn [desc frac_bits a d]. rewrite (proj2 (Z.eqb_neq m 52)) by lia. cbn [orb].
  assert ((flexfloat_round_bit a exp || flexfloat_sticky_bit a exp) = negb (N mod 2 ^ J =? 0)) as ->.
  { rewrite round_bit_spec, sticky_bit_spec, H1, H2. bcases. }
  assert ((if negb (N mod 2 ^ J =? 0) then feraiseexcept FE_INEXACT f else f) = inexact_flag (N mod 2 ^ J) f) as ->.
  { unfold inexact_flag. by destruct (N mod 2 ^ J =? 0). }
  rewrite fe_round_inexact, rounding_value_spec.
  destruct (add_rounding_value (fe_round f)) as (y & -> & Hy & HNy).
  pose proof (rounding_spec (fe_round f)) as Hround.
  assert (forall b : bool, (if b then (FlexFloat (d_of s y) d, inexact_flag (N mod 2 ^ J) f) else (a, inexact_flag (N mod 2 ^ J) f)) =
    (FlexFloat (d_of s (if b then y else N)) d, inexact_flag (N mod 2 ^ J) f)) as Hif by (by intros []).
  exists (if round_up (fe_round f) s (Z.odd (N / 2 ^ J)) (N mod 2 ^ J) (2 ^ J) then y else N). split.
  - rewrite <- Hround, <- Hif.
    destruct (_ && flexfloat_nearest_rounding _ _); [done|]. destruct (_ && flexfloat_inf_rounding _ _ _ true); [done|].
    by destruct (_ && flexfloat_inf_rounding _ _ _ false).
  - unfold R, round_int. destruct (round_up _ _ _ _ _); cbn [Z.b2z]; lia.
Qed.

Lemma result_below : R < (top + 1023 - bias) * 2 ^ m.
Proof.
  destruct J_range as (HJ & H52 & Hp & Hpos). apply (Z.mul_lt_mono_pos_r (2 ^ J)); [lia|].
  rewrite <- Z.mul_assoc, <- H52. exact no_overflow.
Qed.

(** The rounded value, in the double that keeps it. *)
Lemma sanitize_normal :
  flexfloat_sanitize a f = (FlexFloat (d_of s (R * 2 ^ J)) d, inexact_flag (N mod 2 ^ J) f).
Proof.
  destruct J_range as (HJ & H52 & Hp & Hpos). pose proof (bias_range e m format) as [Hb Ht]. pose proof value_fields as [HX HM].
  unfold flexfloat_sanitize. cbn [desc exp_bits frac_bits a d]. unfold NUM_BITS_EXP. rewrite (proj2 (Z.eqb_neq e 11)) by lia. cbn [andb].
  assert (flexfloat_sign a = s) as -> by exact (sign_of_dbl e m s X M value_fields).
  assert (flexfloat_exp a = exp) as ->.
  { etransitivity; [exact (exp_of_dbl e m s X M value_fields)|]. by replace ((X =? 0) || (X =? 2047)) with false by lia. }
  destruct round_value_spec as (y & -> & Hy & HNy).
  assert (R * 2 ^ J <= y < R * 2 ^ J + 2 ^ J) as HyR.
  { rewrite <- Hy. pose proof (Z.div_mod y (2 ^ J) ltac:(lia)). pose proof (Z.mod_pos_bound y (2 ^ J) ltac:(lia)). lia. }
  assert (y < (top + 1023 - bias) * 2 ^ 52) as Hytop.
  { pose proof result_below as HRK. replace ((top + 1023 - bias) * 2 ^ 52) with ((top + 1023 - bias) * 2 ^ m * 2 ^ J) by (rewrite H52; lia).
    assert ((R + 1) * 2 ^ J <= (top + 1023 - bias) * 2 ^ m * 2 ^ J) by (apply Z.mul_le_mono_nonneg_r; lia). lia. }
  assert (0 <= N) as HN by (unfold N; lia).
  destruct (fields_of y ltac:(lia)) as [Ey Hfy]. set (Y := y / 2 ^ 52) in *. set (G := y mod 2 ^ 52) in *.
  assert (1024 - bias <= Y < top + 1023 - bias) as HY.
  { pose proof (proj2 Hfy). unfold N in HNy. lia. }
  assert (d_of s y = dbl s Y G) as -> by (unfold dbl; by rewrite <- Ey).
  cbn [desc exp_bits frac_bits value]. rewrite (dbl_exp s Y G Hfy). rewrite (proj2 (Z.eqb_neq Y 0)) by lia.
  change (FlexFloat (dbl s Y G) d) with (FlexFloat (dbl s Y G) (Desc e m)).
  rewrite (exp_of_dbl e m s Y G Hfy), (frac_of_dbl e m format s Y G Hfy). rewrite (proj2 (Z.eqb_neq Y 0)), (proj2 (Z.eqb_neq Y 2047)) by lia. cbn [orb].
  rewrite (proj2 (Z.leb_gt _ 0)) by lia. unfold INF_EXP. rewrite (proj2 (Z.eqb_neq (Y - 1023 + bias) 0x7FF)) by lia. cbn [andb].
  assert (flexfloat_inf_exp d = top) as -> by (unfold flexfloat_inf_exp; cbn [exp_bits d]; by rewrite Z.shiftl_1_l).
  rewrite (proj2 (Z.leb_gt _ (Y - 1023 + bias))) by lia.
  f_equal. f_equal. fold J. pose proof (proj2 Hfy) as HG.
  assert (y = G + (Y * 2 ^ m) * 2 ^ J) as EyG by (rewrite Ey, H52; lia).
  assert (R = G / 2 ^ J + Y * 2 ^ m) as ER by (rewrite <- Hy, EyG, Z.div_add by lia; done).
  assert (0 <= G / 2 ^ J * 2 ^ J <= G) as HGJ.
  { pose proof (Z.div_mod G (2 ^ J) ltac:(lia)). pose proof (Z.mod_pos_bound G (2 ^ J) ltac:(lia)). pose proof (Z.div_pos G (2 ^ J) ltac:(lia) ltac:(lia)). nia. }
  rewrite (pack_normal e m format).
  - unfold dbl. fold J. f_equal. rewrite ER, H52. lia.
  - fold J. split; lia.
  - lia.
Qed.

(** The bits of the result: those of the integer that was rounded, in the exponents of the format. *)
Lemma sanitize_bits :
  flexfloat_get_bits (fst (flexfloat_sanitize a f)) = Some (sign_extended e m s (R - (1023 - bias) * 2 ^ m)) /\
  2 ^ m <= R - (1023 - bias) * 2 ^ m < top * 2 ^ m.
Proof.
  destruct J_range as (HJ & H52 & Hp & Hpos). pose proof (bias_range e m format) as [Hb Ht]. pose proof value_fields as [HX HM].
  rewrite sanitize_normal. cbn [fst].
  assert ((1024 - bias) * 2 ^ m <= R) as Hlow.
  { unfold R. pose proof (round_int_range (fe_round f) s N (2 ^ J) ltac:(lia)) as [Hl _]. etransitivity; [|exact Hl].
    apply Z.div_le_lower_bound; [lia|]. unfold N. rewrite H52. nia. }
  pose proof result_below as Hhigh.
  split; [|nia].
  set (E := R / 2 ^ m - 1023 + bias). set (F := R mod 2 ^ m).
  pose proof (Z.div_mod R (2 ^ m) ltac:(lia)) as HR. pose proof (Z.mod_pos_bound R (2 ^ m) ltac:(lia)) as HF. fold F in HR, HF.
  assert (1 <= E < top) as HE.
  { unfold E. split.
    - pose proof (Z.div_le_lower_bound R (2 ^ m) (1024 - bias) ltac:(lia) ltac:(lia)). lia.
    - pose proof (Z.div_lt_upper_bound R (2 ^ m) (top + 1023 - bias) ltac:(lia) ltac:(lia)). lia. }
  assert (d_of s (R * 2 ^ J) = dbl s (kept_exp e m E F) (kept_frac m E F)) as ->.
  { unfold dbl, kept_exp, kept_frac. rewrite (proj2 (Z.eqb_neq E 0)), (proj2 (Z.eqb_neq E top)) by lia. f_equal. fold J. rewrite H52. unfold E. lia. }
  rewrite (get_kept e m format) by lia. do 2 f_equal. unfold E. lia.
Qed.

(** *** The result is the number of the format that the rounding mode asks for *)

#[local] Notation Bits := (R - (1023 - bias) * 2 ^ m).

Lemma number_parts E F : 0 <= E <= top -> 0 <= F < 2 ^ m ->
  let b := (if s then 2 ^ (e + m) else 0) + (E * 2 ^ m + F) in
  0 <= b < 2 ^ (e + m + 1) /\ fmt_sign e m b = s /\ fmt_exp e m b = E /\ fmt_frac m b = F.
Proof.
  intros HE HF b. unfold fmt_top in HE.
  assert (2 ^ (e + m) = 2 ^ e * 2 ^ m) as Hem by (apply pow_split; lia).
  assert (2 ^ (e + m + 1) = 2 ^ (e + m) * 2) as Hem1 by (rewrite pow_split by lia; lia).
  assert (0 < 2 ^ m) by lia. assert (0 < 2 ^ e) by lia.
  assert (0 <= E * 2 ^ m + F < 2 ^ (e + m)) as Hx by (rewrite Hem; nia).
  split; [unfold b; destruct s; lia|]. unfold fmt_sign, fmt_exp, fmt_frac. split; [|split].
  - unfold b. destruct s; [|apply (testbit_above (e + m)); lia].
    rewrite (testbit_top (e + m)); [apply Z.leb_le; lia|lia|lia].
  - unfold b. destruct s; rewrite ?Hem.
    + replace (2 ^ e * 2 ^ m + (E * 2 ^ m + F)) with (F + (2 ^ e + E) * 2 ^ m) by lia. rewrite Z.div_add, (Z.div_small F) by lia.
      symmetry. apply (Z.mod_unique _ _ 1); lia.
    + replace (0 + (E * 2 ^ m + F)) with (F + E * 2 ^ m) by lia. rewrite Z.div_add, (Z.div_small F) by lia. apply Z.mod_small. lia.
  - unfold b. destruct s; rewrite ?Hem.
    + replace (2 ^ e * 2 ^ m + (E * 2 ^ m + F)) with (F + (2 ^ e + E) * 2 ^ m) by lia. rewrite Z.mod_add by lia. apply Z.mod_small. lia.
    + replace (0 + (E * 2 ^ m + F)) with (F + E * 2 ^ m) by lia. rewrite Z.mod_add by lia. apply Z.mod_small. lia.
Qed.

(** The two numbers of the format around the value. *)
Let below : Z := mag (N / 2 ^ J * 2 ^ J).
Let above : Z := mag ((N / 2 ^ J + 1) * 2 ^ J).

Lemma around : exists w, 0 < w /\ mag N = below + N mod 2 ^ J * w /\ above = below + 2 ^ J * w.
Proof.
  destruct J_range as (HJ & H52 & Hp & Hpos). pose proof (bias_range e m format) as [Hb Ht]. pose proof value_fields as [HX HM].
  exists (2 ^ (X - 1)). split; [apply Z.pow_pos_nonneg; lia|].
  pose proof (Z.div_mod M (2 ^ J) ltac:(lia)) as Hdm. pose proof (Z.mod_pos_bound M (2 ^ J) ltac:(lia)) as Hr.
  set (q := M / 2 ^ J) in *.
  assert (0 <= q < 2 ^ m) as Hq.
  { split; [apply Z.div_pos; lia|]. apply Z.div_lt_upper_bound; lia. }
  assert (N / 2 ^ J * 2 ^ J = X * 2 ^ 52 + q * 2 ^ J) as HNq.
  { unfold N. replace (X * 2 ^ 52 + M) with (M + X * 2 ^ m * 2 ^ J) by (rewrite H52; lia). rewrite Z.div_add by lia. fold q. rewrite H52. lia. }
  assert (N mod 2 ^ J = M mod 2 ^ J) as HNr.
  { unfold N. replace (X * 2 ^ 52 + M) with (M + X * 2 ^ m * 2 ^ J) by (rewrite H52; lia). by rewrite Z.mod_add by lia. }
  assert (q * 2 ^ J + 2 ^ J <= 2 ^ 52) as Hend by (rewrite H52; nia).
  assert (fields X (q * 2 ^ J)) as Hfq by (split; nia).
  assert ((N / 2 ^ J + 1) * 2 ^ J = X * 2 ^ 52 + q * 2 ^ J + 2 ^ J) as HN1 by lia.
  unfold below, above. rewrite HN1, HNq, HNr. split.
  - rewrite <- (mag_linear X _ (M mod 2 ^ J)) by (done || lia). f_equal. unfold N. lia.
  - by rewrite (mag_linear X _ (2 ^ J)) by (done || lia).
Qed.

Lemma N_bounds : 0 <= N / 2 ^ J * 2 ^ J <= N /\ (N / 2 ^ J + 1) * 2 ^ J < 2 ^ 63 /\ (1024 - bias) * 2 ^ 52 <= N / 2 ^ J * 2 ^ J.
Proof.
  destruct J_range as (HJ & H52 & Hp & Hpos). pose proof (bias_range e m format) as [Hb Ht]. pose proof value_fields as [HX HM].
  pose proof (Z.div_mod N (2 ^ J) ltac:(lia)) as Hdm. pose proof (Z.mod_pos_bound N (2 ^ J) ltac:(lia)) as Hr.
  pose proof (Z.pow_le_mono_r 2 J 50 ltac:(lia) ltac:(lia)). unfold exp in in_range.
  assert (N < 1151 * 2 ^ 52) by (unfold N; nia).
  assert ((1024 - bias) * 2 ^ m <= N / 2 ^ J).
  { apply Z.div_le_lower_bound; [lia|]. unfold N. nia. }
  assert ((1024 - bias) * 2 ^ 52 <= N / 2 ^ J * 2 ^ J) by (rewrite H52; nia). lia.
Qed.

Lemma grid b : finite e m b -> Z.abs (fmt_val e m b) <= below \/ above <= Z.abs (fmt_val e m b).
Proof.
  intros [Hb Hfin]. rewrite (fmt_val_abs e m format). destruct J_range as (HJ & H52 & Hp & Hpos). pose proof (bias_range e m format) as [Hbi Ht].
  pose proof (fmt_exp_range e m format b) as HE. pose proof (fmt_frac_range e m format b) as HF.
  destruct N_bounds as (HN0 & HN1 & HN2). set (E := fmt_exp e m b) in *. set (F := fmt_frac m b) in *.
  destruct (Z.eq_dec E 0) as [->|E0].
  - left. etransitivity; [|exact (mag_mono_le ((1024 - bias) * 2 ^ 52) (N / 2 ^ J * 2 ^ J) ltac:(lia) ltac:(lia))].
    rewrite <- (Z.add_0_r (_ * 2 ^ 52)), mag_fields by (split; lia). rewrite (proj2 (Z.eqb_neq _ 0)) by lia. unfold fmt_mag. cbn [Z.eqb].
    rewrite Z.add_0_r, <- pow_split by lia. replace (52 + (1024 - bias - 1)) with (m + (1075 - bias - m)) by lia.
    rewrite (pow_split m) by lia. apply Z.mul_le_mono_nonneg_r; [apply Z.pow_nonneg; lia|lia].
  - rewrite <- (kept_mag e m format) by lia.
    assert (kept_exp e m E F * 2 ^ 52 + kept_frac m E F = ((E - bias + 1023) * 2 ^ m + F) * 2 ^ J) as ->.
    { unfold kept_exp, kept_frac. rewrite (proj2 (Z.eqb_neq E 0)), (proj2 (Z.eqb_neq E top)) by lia. fold J. rewrite H52. lia. }
    set (K := (E - bias + 1023) * 2 ^ m + F). assert (0 <= K) by (unfold K; nia).
    destruct (Z.le_gt_cases K (N / 2 ^ J)); [left|right]; (apply mag_mono_le; [nia|]); [nia|].
    assert (K < 1151 * 2 ^ m) by (unfold K; nia). replace (2 ^ 63) with (2 ^ 11 * 2 ^ m * 2 ^ J) by (rewrite <- Z.mul_assoc, <- H52; lia). nia.
Qed.

Lemma result_number : exists b,
  flexfloat_get_bits (fst (flexfloat_sanitize a f)) = Some (u64 (sw (e + m + 1) b)) /\ finite e m b /\
  fmt_sign e m b = s /\ fmt_val e m b = signed s (mag (R * 2 ^ J)) /\ Z.even (fmt_frac m b) = Z.even R.
Proof.
  destruct J_range as (HJ & H52 & Hp & Hpos). pose proof (bias_range e m format) as [Hb Ht].
  destruct sanitize_bits as [Hget Hbits]. rewrite Hget.
  set (B := Bits) in *. set (E := B / 2 ^ m). set (F := B mod 2 ^ m).
  pose proof (Z.div_mod B (2 ^ m) ltac:(lia)) as HB. pose proof (Z.mod_pos_bound B (2 ^ m) ltac:(lia)) as HF. fold E F in HB, HF.
  assert (1 <= E < top) as HE.
  { split; [apply Z.div_le_lower_bound; lia|apply Z.div_lt_upper_bound; lia]. }
  destruct (number_parts E F ltac:(lia) ltac:(lia)) as (Hr & Hs & HbE & HbF). set (b := (if s then 2 ^ (e + m) else 0) + (E * 2 ^ m + F)) in *. exists b.
  split; [rewrite (sign_extended_parts e m format), Hs, HbE, HbF; do 2 f_equal; lia|].
  split; [split; [done|rewrite HbE; lia]|]. split; [done|]. split.
  - unfold fmt_val. rewrite Hs, HbE, HbF, <- (kept_mag e m format) by lia. do 2 f_equal.
    unfold kept_exp, kept_frac. rewrite (proj2 (Z.eqb_neq E 0)), (proj2 (Z.eqb_neq E top)) by lia. fold J. rewrite H52. unfold B in HB. lia.
  - rewrite HbF. assert (R = F + (E + (1023 - bias)) * 2 ^ m) as HRF by (unfold B in HB; lia). rewrite HRF.
    rewrite Z.even_add, Z.even_mul, Z.even_pow by lia. cbn [Z.even]. rewrite orb_true_r. by destruct (Z.even F).
Qed.

(** The mode decides between the two numbers around the value. *)
Lemma sanitize_rounded rm b : 0 <= rm <= 3 -> fe_round f = host_mode rm ->
  finite e m b -> fmt_sign e m b = s -> fmt_val e m b = signed s (mag (R * 2 ^ J)) -> Z.even (fmt_frac m b) = Z.even R ->
  rounded e m rm (signed s (mag N)) 1 b.
Proof.
  intros Hrm Hmode Hfin Hs Hv Heven. destruct J_range as (HJ & H52 & Hp & Hpos). pose proof (Z.mod_pos_bound N (2 ^ J) ltac:(lia)) as Hr.
  destruct around as (w & Hw & HN & Habove). destruct N_bounds as (HN0 & HN1 & HN2). pose proof (bias_range e m format) as [Hb _].
  set (ev := Z.even (N / 2 ^ J)).
  assert (0 < below /\ 0 <= N mod 2 ^ J * w < 2 ^ J * w) as Haround.
  { unfold below. pose proof (mag_mono 0 (N / 2 ^ J * 2 ^ J) ltac:(lia) ltac:(lia)) as H. split; [exact H|nia]. }
  set (P v := exists b', finite e m b' /\ v = fmt_val e m b').
  assert (forall v, P v -> Z.abs v <= below \/ below + 2 ^ J * w <= Z.abs v) as Hgap.
  { intros v (b' & Hb' & ->). rewrite <- Habove. by apply grid. }
  assert (forall b', finite e m b' -> P (fmt_val e m b')) as HP by (intros b' Hb'; by exists b').
  set (up := round_up (host_mode rm) s (negb ev) (N mod 2 ^ J * w) (2 ^ J * w)).
  assert (R = N / 2 ^ J + Z.b2z up) as HR.
  { unfold R, round_int. rewrite Hmode, <- Z.negb_even. fold ev. unfold up. by rewrite round_up_scale. }
  assert (fmt_val e m b = signed s (if up then below + 2 ^ J * w else below)) as Hval.
  { rewrite Hv, HR, <- Habove. destruct up; cbn [Z.b2z]; [done|]. by rewrite Z.add_0_r. }
  assert (Z.even (fmt_frac m b) = xorb up ev) as Hfe by (rewrite Heven, HR, Z.even_add; fold ev; by destruct up, ev).
  unfold rounded. split; [done|]. split; [rewrite Hs, HN; unfold signed; destruct s; bcases|].
  rewrite Hval, HN, Hfe. clear Hval Hfe Heven Hv HR. rewrite !Z.mul_1_r. unfold up.
  split; [|split; [|split]]; intros ->; try intros b' Hb'; rewrite ?Z.mul_1_r.
  - exact (choose_nearest _ _ _ s ev Haround P Hgap _ (HP b' Hb')).
  - destruct (choose_zero _ _ _ s ev Haround P Hgap) as [H1 H2]. split; [exact H1|]. intros b' Hb'. rewrite Z.mul_1_r. exact (H2 _ (HP b' Hb')).
  - destruct (choose_down _ _ _ s ev Haround P Hgap) as [H1 H2]. split; [exact H1|]. intros b' Hb'. rewrite Z.mul_1_r. exact (H2 _ (HP b' Hb')).
  - destruct (choose_up _ _ _ s ev Haround P Hgap) as [H1 H2]. split; [exact H1|]. intros b' Hb'. rewrite Z.mul_1_r. exact (H2 _ (HP b' Hb')).
Qed.

Lemma exact_result : (N mod 2 ^ J =? 0) = (mag (R * 2 ^ J) =? mag N).
Proof.
  destruct J_range as (HJ & H52 & Hp & Hpos). pose proof (Z.mod_pos_bound N (2 ^ J) ltac:(lia)) as Hr.
  destruct around as (w & Hw & HN & Habove). destruct (Z.eqb_spec (N mod 2 ^ J) 0) as [Hz|Hnz].
  - symmetry. apply Z.eqb_eq. unfold R. pose proof (Z.div_mod N (2 ^ J) ltac:(lia)) as Hdm.
    assert (N = N / 2 ^ J * 2 ^ J) as -> by lia. by rewrite round_int_exact by lia.
  - symmetry. apply Z.eqb_neq. unfold R, round_int. destruct (round_up _ _ _ _ _); cbn [Z.b2z]; [|rewrite Z.add_0_r]; fold below above; nia.
Qed.
End Rounding.

(** ** The end of an operation whose exact value is a double *)

Section Finish.
Context (e m : Z).
Hypothesis format : 2 <= e <= 8 /\ 2 <= m <= 23.
#[local] Notation bias := (fmt_bias e).
#[local] Notation top := (fmt_top e).

(** The smallest normal number of the format, and its largest number. *)
Definition fmt_min : Z := fmt_mag e m 1 0.
Definition fmt_max : Z := fmt_mag e m (top - 1) (2 ^ m - 1).

Lemma fmt_limits : fmt_min = mag ((1024 - bias) * 2 ^ 52) /\ fmt_max = mag (((top - 1 - bias + 1023) * 2 ^ m + (2 ^ m - 1)) * 2 ^ (52 - m)).
Proof.
  pose proof (bias_range e m format) as [Hb Ht]. assert (2 ^ 52 = 2 ^ m * 2 ^ (52 - m)) as H52 by (rewrite <- pow_split by lia; f_equal; lia).
  unfold fmt_min, fmt_max. rewrite <- !(kept_mag e m format) by lia. unfold kept_exp, kept_frac.
  rewrite (proj2 (Z.eqb_neq (top - 1) 0)), (proj2 (Z.eqb_neq (top - 1) top)), (proj2 (Z.eqb_neq 1 0)), (proj2 (Z.eqb_neq 1 top)) by lia.
  split; f_equal; [lia|]. rewrite H52. lia.
Qed.

(** A value in the range of the normal numbers. *)
Lemma range_fields X M : fields X M -> X < 2047 -> fmt_min <= mag (X * 2 ^ 52 + M) <= fmt_max ->
  1024 - bias <= X /\ X * 2 ^ 52 + M <= ((top - 1 - bias + 1023) * 2 ^ m + (2 ^ m - 1)) * 2 ^ (52 - m).
Proof.
  intros [HX HM] HX2 HV. pose proof (bias_range e m format) as [Hb Ht]. destruct fmt_limits as [Hmin Hmax]. rewrite Hmin, Hmax in HV.
  assert (2 ^ 52 = 2 ^ m * 2 ^ (52 - m)) as H52 by (rewrite <- pow_split by lia; f_equal; lia). split.
  - destruct (Z.le_gt_cases (1024 - bias) X) as [|Hlt]; [done|]. exfalso.
    pose proof (mag_mono (X * 2 ^ 52 + M) ((1024 - bias) * 2 ^ 52) ltac:(lia) ltac:(lia)). lia.
  - apply Z.le_ngt. intros Hlt. assert (0 < 2 ^ (52 - m)) by (apply Z.pow_pos_nonneg; lia).
    assert (0 <= (top - 1 - bias + 1023) * 2 ^ m + (2 ^ m - 1)) as HK by nia.
    pose proof (mag_mono _ _ (conj (Z.mul_nonneg_nonneg _ (2 ^ (52 - m)) HK ltac:(lia)) Hlt) ltac:(lia)). lia.
Qed.

Lemma no_overflow_below mode s X M : fields X M ->
  X * 2 ^ 52 + M <= ((top - 1 - bias + 1023) * 2 ^ m + (2 ^ m - 1)) * 2 ^ (52 - m) ->
  X - 1023 + bias < top /\ round_int mode s (X * 2 ^ 52 + M) (2 ^ (52 - m)) * 2 ^ (52 - m) < (top + 1023 - bias) * 2 ^ 52.
Proof.
  intros [HX HM] HN. pose proof (bias_range e m format) as [Hb Ht].
  assert (2 ^ 52 = 2 ^ m * 2 ^ (52 - m)) as H52 by (rewrite <- pow_split by lia; f_equal; lia).
  set (p := 2 ^ (52 - m)) in *. assert (0 < p) as Hp by (apply Z.pow_pos_nonneg; lia).
  set (N := X * 2 ^ 52 + M) in *. set (K := (top - 1 - bias + 1023) * 2 ^ m + (2 ^ m - 1)) in *.
  assert ((K + 1) * p = (top + 1023 - bias) * 2 ^ 52) as HK by (unfold K; rewrite H52; lia).
  split; [unfold N in HN; nia|]. rewrite <- HK. apply Z.mul_lt_mono_pos_r; [done|].
  pose proof (round_int_range mode s N p Hp) as Hri. destruct (Z.eq_dec N (K * p)) as [->|Hne].
  - rewrite round_int_exact by done. lia.
  - pose proof (Z.div_lt_upper_bound N p K Hp ltac:(lia)). lia.
Qed.
End Finish.

(** The state after an operation whose result is inexact or not: only this flag is raised, and the rounding mode of the
    host is the one of before. *)
Definition after (inexact : bool) (f : fpu) : fpu :=
  Fpu (fe_round f) (if inexact then FE_INEXACT else 0) (Z.land (Z.lor (fflags_raw f) (Z.b2z inexact)) 0x1f) (frm f).

Lemma update_after (x : bool) f : update_fflags_fenv (if x then feclearexcept_all f else feraiseexcept FE_INEXACT (feclearexcept_all f)) = after (negb x) f.
Proof. destruct x; reflexivity. Qed.

Lemma signed_eqb s x y : (signed s x =? signed s y) = (x =? y).
Proof. unfold signed. destruct s; bcases. Qed.

(** [finish], when the host gives the exact value: the bits are those of the number the rounding mode asks for. *)
Lemma finish_rounded e m s X M rm f : 2 <= e <= 8 /\ 2 <= m <= 23 -> fields X M -> X < 2047 ->
  fmt_min e m <= mag (X * 2 ^ 52 + M) <= fmt_max e m -> 0 <= rm <= 3 -> fe_round f = host_mode rm ->
  let v := signed s (mag (X * 2 ^ 52 + M)) in
  exists b, finish (flexfloat_sanitize (FlexFloat (dbl s X M) (Desc e m)) (feclearexcept_all f)) =
      Some (u32 (sw (e + m + 1) b), after (negb (fmt_val e m b =? v)) f) /\ rounded e m rm v 1 b.
Proof.
  intros format Hf HX Hrange Hrm Hmode v. destruct (range_fields e m format X M Hf HX Hrange) as [HX1 HN].
  set (g := feclearexcept_all f). assert (fe_round g = host_mode rm) as Hg by exact Hmode.
  destruct (no_overflow_below e m format (fe_round g) s X M Hf HN) as [Hin Hno].
  destruct (result_number e m format s X M Hf (conj HX1 HX) Hin g Hno) as (b & Hget & Hfin & Hs & Hval & Heven). exists b.
  split; [|by apply (sanitize_rounded e m format s X M Hf (conj HX1 HX) Hin g)].
  pose proof (sanitize_normal e m format s X M Hf (conj HX1 HX) Hin g Hno) as Hsan.
  unfold finish. rewrite Hget. cbn [mbind option_bind]. rewrite uw_uw_le by lia. rewrite Hsan. cbn [snd]. do 2 f_equal.
  unfold inexact_flag. rewrite (exact_result e m format s X M Hf (conj HX1 HX) Hin g Hno).
  unfold g. rewrite update_after. do 2 f_equal. rewrite Hval. unfold v. by rewrite signed_eqb.
Qed.

(** The rounding mode that an instruction gives, in its own field or in the register frm. *)
Definition mode_given (round rm : Z) (f : fpu) : Prop := 0 <= rm <= 3 /\ (round = rm \/ round = 7 /\ frm f = rm).

Lemma with_rounding_mode round rm r0 op f : mode_given round rm f -> 0 <= r0 <= 3 -> fe_round f = host_mode r0 ->
  with_rounding round op f =
  (let* (result, g) := op (set_fe_round (host_mode rm) f) in Some (result, fesetround (host_mode r0) g)).
Proof.
  intros [Hrm Hgiven] Hr0 Hf. unfold with_rounding, setFFRoundingMode.
  assert (fe_round f = host_mode r0) as -> by done.
  destruct Hgiven as [->|[-> ->]]; cbn [Z.eqb Pos.eqb];
    (assert (rm = 0 \/ rm = 1 \/ rm = 2 \/ rm = 3) as [->|[->|[->| ->]]] by lia; cbn; reflexivity).
Qed.

Lemma fesetround_mode r0 g : 0 <= r0 <= 3 -> fesetround (host_mode r0) g = set_fe_round (host_mode r0) g.
Proof. intros Hr. assert (r0 = 0 \/ r0 = 1 \/ r0 = 2 \/ r0 = 3) as [->|[->|[->| ->]]] by lia; reflexivity. Qed.

(** An operation under the rounding mode of the instruction, whose exact value is the double of [P * 2^q]. *)
Lemma op_rounded e m s P q round rm r0 f : 2 <= e <= 8 /\ 2 <= m <= 23 ->
  0 < P < 2 ^ 53 -> 0 <= q -> 52 <= q + Z.log2 P -> fmt_min e m <= P * 2 ^ q <= fmt_max e m ->
  mode_given round rm f -> 0 <= r0 <= 3 -> fe_round f = host_mode r0 ->
  exists x b, d_of s x < 2 ^ 64 /\ d_mag (d_of s x) = x /\ 0 <= x < D_INF /\ mag x = P * 2 ^ q /\
    with_rounding round (fun g => finish (flexfloat_sanitize (FlexFloat (d_of s x) (Desc e m)) (feclearexcept_all g))) f =
      Some (u32 (sw (e + m + 1) b), after (negb (fmt_val e m b =? signed s (P * 2 ^ q))) f) /\
    rounded e m rm (signed s (P * 2 ^ q)) 1 b.
Proof.
  intros format HP Hq Hl Hrange Hgiven Hr0 Hf.
  assert (q + Z.log2 P < 52 + 2046) as Hu.
  { pose proof (fmt_limits e m format) as [_ Hmax]. pose proof (bias_range e m format) as [Hb Ht].
    assert (P * 2 ^ q < 2 ^ 1500) as Hlt.
    { apply (Z.le_lt_trans _ _ _ (proj2 Hrange)). unfold fmt_max, fmt_mag. rewrite (proj2 (Z.eqb_neq (fmt_top e - 1) 0)) by lia.
      apply (Z.lt_le_trans _ (2 ^ (m + 1) * 2 ^ (fmt_top e - 1 + 1074 - fmt_bias e - m))).
      - apply Z.mul_lt_mono_pos_r; [apply Z.pow_pos_nonneg; lia|]. rewrite pow_split by lia. lia.
      - rewrite <- pow_split by lia. apply Z.pow_le_mono_r; lia. }
    assert (2 ^ (q + Z.log2 P) < 2 ^ 1500) as H1.
    { apply (Z.le_lt_trans _ (P * 2 ^ q)); [|done]. rewrite Z.add_comm, pow_split by (apply Z.log2_nonneg || lia).
      apply Z.mul_le_mono_nonneg_r; [apply Z.pow_nonneg; lia|]. apply Z.log2_spec. lia. }
    apply Z.pow_lt_mono_r_iff in H1; lia. }
  destruct (dbl_of_product P q HP Hl Hu Hq) as (E & F & Hfl & HE & Hmag). exists (E * 2 ^ 52 + F).
  rewrite <- Hmag in Hrange. pose proof Hfl as [HE' HF'].
  destruct (finish_rounded e m s E F rm (set_fe_round (host_mode rm) f) format Hfl ltac:(lia) Hrange (proj1 Hgiven) eq_refl) as (b & Hfin & Hround).
  exists b. rewrite Hmag in Hfin, Hround. split; [unfold d_of; destruct s; lia|]. split; [exact (dbl_mag s E F Hfl)|]. split; [unfold D_INF; lia|]. split; [done|]. split; [|done].
  rewrite (with_rounding_mode round rm r0) by done. fold (dbl s E F). rewrite Hfin. cbn [mbind option_bind].
  rewrite fesetround_mode by done. unfold after. cbn. by rewrite Hf.
Qed.

Lemma with_rounding_ext round rm r0 op op' f : mode_given round rm f -> 0 <= r0 <= 3 -> fe_round f = host_mode r0 ->
  op (set_fe_round (host_mode rm) f) = op' (set_fe_round (host_mode rm) f) -> with_rounding round op f = with_rounding round op' f.
Proof. intros Hg Hr Hf H. rewrite !(with_rounding_mode round rm r0) by done. by rewrite H. Qed.

Lemma scale_eqb x y u : 0 < u -> (x * u =? y * u) = (x =? y).
Proof. intros Hu. bcases; nia. Qed.

(** ** Operations *)

Section Operations.
Context (e m : Z).
Hypothesis format : 2 <= e <= 8 /\ 2 <= m <= 23.
#[local] Notation val := (fmt_val e m).
#[local] Notation unit_exp := (1075 - fmt_bias e - m).

(** The double of an operand. *)
Lemma operand b : fmt_exp e m b <> fmt_top e ->
  let v := value (FF_INIT b e m) in
  d_sign v = fmt_sign e m b /\ d_mag v < D_INF /\ 0 <= d_mag v /\ mag (d_mag v) = Z.abs (val b) /\ d_val v = val b.
Proof.
  intros Hb v. unfold v, FF_INIT, ff_init, flexfloat_set_bits. cbn [value desc].
  split; [|split; [|split; [|split]]].
  - rewrite (pack_bits_spec e m format). unfold d_sign. apply dbl_sign. apply (kept_fields e m format); [apply (fmt_exp_range e m format)|apply (fmt_frac_range e m format)].
  - by apply (kept_finite e m format).
  - unfold d_mag. apply Z.mod_pos_bound. lia.
  - rewrite <- (kept_val e m format) by done. unfold d_val, signed.
    assert (0 <= mag (d_mag (flexfloat_pack_bits (Desc e m) b))) by (apply mag_nonneg; unfold d_mag; apply Z.mod_pos_bound; lia).
    destruct (d_sign _); lia.
  - by apply (kept_val e m format).
Qed.

(** A number is an integer of [m + 1] bits, scaled. *)
Lemma scaled b : exists k q, Z.abs (val b) = k * 2 ^ q /\ 0 <= k < 2 ^ (m + 1) /\ unit_exp <= q <= unit_exp + (fmt_top e - 1).
Proof.
  rewrite (fmt_val_abs e m format). pose proof (fmt_exp_range e m format b) as HE. pose proof (fmt_frac_range e m format b) as HF.
  pose proof (bias_range e m format) as [Hb Ht]. rewrite (pow_split m 1) by lia. unfold fmt_mag. destruct (Z.eqb_spec (fmt_exp e m b) 0).
  - exists (fmt_frac m b), unit_exp. lia.
  - exists (2 ^ m + fmt_frac m b), (fmt_exp e m b + 1074 - fmt_bias e - m). lia.
Qed.

Lemma fmt_min_pos : 0 < fmt_min e m.
Proof. unfold fmt_min, fmt_mag. cbn [Z.eqb]. pose proof (bias_range e m format). apply Z.mul_pos_pos; [lia|apply Z.pow_pos_nonneg; lia]. Qed.

Lemma val_sign b : val b = signed (fmt_sign e m b) (Z.abs (val b)).
Proof. rewrite (fmt_val_abs e m format). done. Qed.

(** The arguments that the theorems share: the instruction has a rounding mode, and the host too. *)
Context (round rm r0 : Z) (f : fpu).
Hypothesis modes : mode_given round rm f /\ 0 <= r0 <= 3 /\ fe_round f = host_mode r0.

(** C20: Multiplication is correctly rounded: in each of the four formats (and any other of 2 to 8 bits of exponent and 2 to
    23 of fraction), for all finite operands whose exact product is in the range of the normal numbers, and for each of
    the rounding modes, given by the instruction or by frm, the result is the number of the format that IEEE 754 asks for
    (the nearest, ties to even; the nearest towards zero, below or above), although the code multiplies doubles and
    rounds the product itself.  The inexact flag is raised exactly when the result is not the product, no other flag
    is, and the rounding mode of the host is restored. *)
Theorem mul_rounded a b : fmt_exp e m a <> fmt_top e -> fmt_exp e m b <> fmt_top e ->
  let product := val a * val b in
  fmt_min e m * UNIT <= Z.abs product <= fmt_max e m * UNIT ->
  exists r, lib_flexfloat_mul_round a b e m round f = Some (u32 (sw (e + m + 1) r), after (negb (val r * UNIT =? product)) f) /\
            rounded e m rm product UNIT r.
Proof.
  intros Ha Hb product Hrange. destruct modes as (Hgiven & Hr0 & Hf). pose proof (bias_range e m format) as [Hbi Ht].
  destruct (scaled a) as (ka & qa & Eka & Hka & Hqa), (scaled b) as (kb & qb & Ekb & Hkb & Hqb).
  set (P := ka * kb). set (q := qa + qb - 1074). set (s := xorb (fmt_sign e m a) (fmt_sign e m b)).
  assert (0 < UNIT) as HU by done.
  assert (Z.abs (val a) * Z.abs (val b) = P * 2 ^ q * UNIT) as Habs.
  { rewrite Eka, Ekb. assert (2 ^ qa * 2 ^ qb = 2 ^ q * UNIT) as Hpow; [|unfold P; nia].
    unfold UNIT. rewrite <- !pow_split by lia. f_equal. lia. }
  assert (product = signed s (P * 2 ^ q) * UNIT) as Hprod.
  { unfold product. rewrite (val_sign a), (val_sign b). unfold s, signed. destruct (fmt_sign e m a), (fmt_sign e m b); cbn [xorb]; nia. }
  assert (Z.abs product = P * 2 ^ q * UNIT) as Hap by (unfold product; by rewrite Z.abs_mul).
  rewrite Hap in Hrange. rewrite <- !Z.mul_le_mono_pos_r in Hrange by done. pose proof fmt_min_pos as Hmin.
  assert (0 <= P) as HP0 by (unfold P; nia). assert (P <> 0) as HPn by (intros ->; lia).
  assert (P < 2 ^ 53) as HP53.
  { apply (Z.lt_le_trans _ (2 ^ (m + 1) * 2 ^ (m + 1))); [unfold P; nia|]. rewrite <- pow_split by lia. apply Z.pow_le_mono_r; lia. }
  destruct (op_rounded e m s P q round rm r0 f format ltac:(lia) ltac:(lia) ltac:(pose proof (Z.log2_nonneg P); lia) ltac:(lia) Hgiven Hr0 Hf)
    as (x & r & _ & _ & HxI & Hmx & Hop & Hround).
  exists r. rewrite Hprod. split; [|by apply rounded_scale].
  rewrite scale_eqb by done.
  rewrite <- Hop. apply (with_rounding_ext round rm r0); [done..|].
  unfold lib_flexfloat_mul, FF_EXEC_2, ff_mul, ff_op, host. f_equal.
  destruct (operand a Ha) as (Sa & Ia & _ & Ma & _), (operand b Hb) as (Sb & Ib & _ & Mb & _).
  unfold d_mul. unfold d_is_nan, d_is_inf.
  rewrite !(proj2 (Z.ltb_ge _ _)), !(proj2 (Z.eqb_neq _ D_INF)) by lia. cbn [orb].
  rewrite Sa, Sb, Ma, Mb, Habs. fold s. rewrite <- Hmx, round_dbl_exact by done. done.
Qed.

(** A number is an integer, in the unit of the subnormal numbers. *)
Lemma scaled_unit b : fmt_exp e m b <> fmt_top e ->
  exists k, val b = k * 2 ^ unit_exp /\ Z.abs k < 2 ^ (m + fmt_top e).
Proof.
  intros Hb. pose proof (fmt_exp_range e m format b) as HE. pose proof (fmt_frac_range e m format b) as HF. pose proof (bias_range e m format) as [Hbi Ht].
  assert (exists k, Z.abs (val b) = k * 2 ^ unit_exp /\ 0 <= k < 2 ^ (m + fmt_top e)) as (k & Hk & Hkr).
  { rewrite (fmt_val_abs e m format). unfold fmt_mag. destruct (Z.eqb_spec (fmt_exp e m b) 0).
    - exists (fmt_frac m b). split; [lia|]. pose proof (Z.pow_le_mono_r 2 m (m + fmt_top e) ltac:(lia) ltac:(lia)). lia.
    - exists ((2 ^ m + fmt_frac m b) * 2 ^ (fmt_exp e m b - 1)). split.
      + rewrite <- Z.mul_assoc, <- pow_split by lia. do 2 f_equal. lia.
      + replace (m + fmt_top e) with (m + 1 + (fmt_top e - 1)) by lia. rewrite (pow_split (m + 1)), (pow_split m 1) by lia.
        pose proof (Z.pow_le_mono_r 2 (fmt_exp e m b - 1) (fmt_top e - 1) ltac:(lia) ltac:(lia)).
        assert (0 < 2 ^ (fmt_exp e m b - 1)) by (apply Z.pow_pos_nonneg; lia). nia. }
  exists (signed (fmt_sign e m b) k). rewrite (val_sign b), Hk. unfold signed. destruct (fmt_sign e m b); lia.
Qed.

(** The sum of two doubles, when they are integers in this unit and few bits are enough for it. *)
Lemma sum_rounded op x y za zb :
  (forall mode, d_add mode x y = op mode) ->
  d_mag x < D_INF -> d_mag y < D_INF -> d_val x = za * 2 ^ unit_exp -> d_val y = zb * 2 ^ unit_exp -> Z.abs (za + zb) < 2 ^ 53 ->
  let sum := d_val x + d_val y in
  fmt_min e m <= Z.abs sum <= fmt_max e m ->
  exists r, with_rounding round (fun g => finish (let '(v, g) := host (op (fe_round g)) (feclearexcept_all g) in flexfloat_sanitize (FlexFloat v (Desc e m)) g)) f =
              Some (u32 (sw (e + m + 1) r), after (negb (val r =? sum)) f) /\ rounded e m rm sum 1 r.
Proof.
  intros Hop Hx Hy Vx Vy Hz sum Hrange. destruct modes as (Hgiven & Hr0 & Hf). pose proof (bias_range e m format) as [Hbi Ht].
  set (P := Z.abs (za + zb)) in *. set (s := sum <? 0).
  assert (Z.abs sum = P * 2 ^ unit_exp) as Habs.
  { unfold sum, P. rewrite Vx, Vy, <- Z.mul_add_distr_r, Z.abs_mul, (Z.abs_eq (2 ^ unit_exp)); [done|apply Z.pow_nonneg; lia]. }
  pose proof fmt_min_pos as Hmin. rewrite Habs in Hrange.
  assert (P <> 0) as HPn by (intros HP; rewrite HP in Hrange; lia). assert (0 < P) as HP by (unfold P in *; lia).
  destruct (op_rounded e m s P unit_exp round rm r0 f format ltac:(lia) ltac:(lia) ltac:(pose proof (Z.log2_nonneg P); lia) Hrange Hgiven Hr0 Hf)
    as (d & r & _ & _ & HdI & Hmd & Hres & Hround).
  assert (signed s (P * 2 ^ unit_exp) = sum) as Hsum by (rewrite <- Habs; unfold s, signed; bcases).
  rewrite Hsum in Hres, Hround. exists r. split; [|done]. rewrite <- Hres.
  apply (with_rounding_ext round rm r0); [done..|]. f_equal. rewrite <- Hop. unfold d_add, d_is_nan, d_is_inf.
  rewrite !(proj2 (Z.ltb_ge _ _)), !(proj2 (Z.eqb_neq _ D_INF)) by lia. cbn [orb]. fold sum.
  unfold round_sum. rewrite (proj2 (Z.eqb_neq sum 0)) by lia. fold s. rewrite Habs, <- Hmd, <- (Z.mul_1_r (mag d)), round_dbl_exact by done. done.
Qed.

Lemma d_neg_val x : d_val (d_neg x) = - d_val x /\ d_mag (d_neg x) = d_mag x.
Proof.
  assert (0 <= d_mag x < 2 ^ 63) as Hm by (apply Z.mod_pos_bound; lia).
  destruct (fields_of (d_mag x) Hm) as [Ex Hfx]. unfold d_val, d_neg. rewrite Ex. fold (dbl (negb (d_sign x)) (d_mag x / 2 ^ 52) (d_mag x mod 2 ^ 52)).
  unfold d_sign at 1. rewrite dbl_sign, dbl_mag, <- Ex by done. split; [|done]. unfold signed. destruct (d_sign x); cbn [negb]; lia.
Qed.

(** C21: Addition and subtraction are correctly rounded in the formats of 5 bits of exponent (16 and 8 bits; in general, when
    [m + 2 ^ e] is at most 51): for all finite operands whose exact sum or difference is in the range of the normal
    numbers, and for each rounding mode, the result is the number that IEEE 754 asks for; the inexact flag is raised exactly when
    it is not the exact one, no other flag is, and the rounding mode of the host is restored. *)
Theorem sum_difference_rounded a b : m + 2 ^ e <= 51 -> fmt_exp e m a <> fmt_top e -> fmt_exp e m b <> fmt_top e ->
  (forall sum, sum = val a + val b -> fmt_min e m <= Z.abs sum <= fmt_max e m ->
    exists r, lib_flexfloat_add_round a b e m round f = Some (u32 (sw (e + m + 1) r), after (negb (val r =? sum)) f) /\ rounded e m rm sum 1 r) /\
  (forall diff, diff = val a - val b -> fmt_min e m <= Z.abs diff <= fmt_max e m ->
    exists r, lib_flexfloat_sub_round a b e m round f = Some (u32 (sw (e + m + 1) r), after (negb (val r =? diff)) f) /\ rounded e m rm diff 1 r).
Proof.
  intros Hem Ha Hb. destruct (operand a Ha) as (_ & Ia & _ & _ & Va), (operand b Hb) as (_ & Ib & Nb & _ & Vb).
  destruct (scaled_unit a Ha) as (za & Eza & Hza), (scaled_unit b Hb) as (zb & Ezb & Hzb).
  assert (2 * 2 ^ (m + fmt_top e) <= 2 ^ 53) as Hle.
  { rewrite <- (Z.pow_succ_r 2) by (unfold fmt_top; lia). apply Z.pow_le_mono_r; unfold fmt_top; lia. }
  split; intros v -> Hv.
  - rewrite <- Va, <- Vb in *. apply (sum_rounded (fun mode => d_add mode _ _) _ _ za zb); [done..|lia|done].
  - set (x := value (FF_INIT a e m)) in *. set (y := value (FF_INIT b e m)) in *. destruct (d_neg_val y) as [Vn Mn].
    assert (forall mode, d_add mode x (d_neg y) = d_sub mode x y) as Hop.
    { intros mode. unfold d_sub, d_is_nan at 1. by rewrite (proj2 (Z.ltb_ge _ _)) by lia. }
    assert (val a - val b = d_val x + d_val (d_neg y)) as Hd by lia. rewrite Hd in *.
    apply (sum_rounded (fun mode => d_sub mode x y) x (d_neg y) za (- zb)); [done|done|lia|by rewrite Va|lia|lia|done].
Qed.
End Operations.

(** 1.5 times 1 + 2^-10, which lies between two numbers of 16 bits, and their sum. *)
Lemma mul_rounded_witness :
  (mode_given 0 0 fpu0 /\ 0 <= 0 <= 3 /\ fe_round fpu0 = host_mode 0) /\
  exists r, lib_flexfloat_mul_round 0x3e00 0x3c01 5 10 0 fpu0 =
      Some (u32 (sw 16 r), after (negb (fmt_val 5 10 r * UNIT =? fmt_val 5 10 0x3e00 * fmt_val 5 10 0x3c01)) fpu0) /\
    rounded 5 10 0 (fmt_val 5 10 0x3e00 * fmt_val 5 10 0x3c01) UNIT r.
Proof.
  assert (mode_given 0 0 fpu0 /\ 0 <= 0 <= 3 /\ fe_round fpu0 = host_mode 0) as H by (repeat split; (lia || by left)).
  split; [exact H|]. apply (mul_rounded 5 10 ltac:(lia) 0 0 0 fpu0 H 0x3e00 0x3c01); vm_compute; intuition discriminate.
Defined.

Lemma sum_difference_rounded_witness :
  10 + 2 ^ 5 <= 51 /\
  exists r, lib_flexfloat_add_round 0x3e00 0x1401 5 10 7 fpu0 =
      Some (u32 (sw 16 r), after (negb (fmt_val 5 10 r =? fmt_val 5 10 0x3e00 + fmt_val 5 10 0x1401)) fpu0) /\
    rounded 5 10 0 (fmt_val 5 10 0x3e00 + fmt_val 5 10 0x1401) 1 r.
Proof.
  split; [lia|]. assert (mode_given 7 0 fpu0 /\ 0 <= 0 <= 3 /\ fe_round fpu0 = host_mode 0) as H by (repeat split; (lia || by right)).
  apply (sum_difference_rounded 5 10 ltac:(lia) 7 0 0 fpu0 H 0x3e00 0x1401 ltac:(lia)); [vm_compute; discriminate..|reflexivity|vm_compute; intuition discriminate].
Defined.
