(* ===== verification/FloatInsns.v ===== *)
(** * The floating-point instructions (models/cpu/iss/include/rvf.hpp, rvXf16.hpp, rvXf16alt.hpp, rvXf8.hpp,
    rv32Xfvec.hpp, rv32Xfaux.hpp)

    The handlers of the instructions on the formats of 32 (8, 23), 16 (5, 10), alternative 16 (8, 7) and 8 (5, 2) bits,
    over the functions of FloatLib.v and the core of Rv32.v.  A handler takes and gives the state of the floating-point
    unit as well.  The registers are those of the core: a vector has two elements of 16 bits or four of 8 bits. *)

From S2P Require Import Prelude Io Memory IsaInt Rv32 HostFloat FlexFloat FloatLib.

Section FloatInsns.
Context {S : Type} (regs null_reg port : Z) (data : io_meth S).
Implicit Types (i : iss_insn) (st : iss (S := S)).
#[local] Notation REG_GET := (REG_GET regs).
#[local] Notation REG_SET := (REG_SET regs).

Definition fp_handler : Type := iss_insn -> fpu -> iss (S := S) -> option (Z * fpu * iss (S := S)).
Definition fp_result (i : iss_insn) (r : option (Z * fpu)) st : option (Z * fpu * iss (S := S)) :=
  let* (v, f) := r in Some (i_next i, f, REG_SET i 0 v st).

(** ** The shapes of the handlers

    One to three operands, without and with the rounding mode of the instruction. *)

Definition fp1 (op : Z -> fpu -> option (Z * fpu)) : fp_handler := fun i f st => fp_result i (op (REG_GET i 0 st) f) st.
Definition fp2 (op : Z -> Z -> fpu -> option (Z * fpu)) : fp_handler := fun i f st =>
  fp_result i (op (REG_GET i 0 st) (REG_GET i 1 st) f) st.
Definition fp1_rm (op : Z -> Z -> fpu -> option (Z * fpu)) : fp_handler := fun i f st =>
  fp_result i (op (REG_GET i 0 st) (UIM_GET i 0) f) st.
Definition fp2_rm (op : Z -> Z -> Z -> fpu -> option (Z * fpu)) : fp_handler := fun i f st =>
  fp_result i (op (REG_GET i 0 st) (REG_GET i 1 st) (UIM_GET i 0) f) st.
Definition fp3_rm (op : Z -> Z -> Z -> Z -> fpu -> option (Z * fpu)) : fp_handler := fun i f st =>
  fp_result i (op (REG_GET i 0 st) (REG_GET i 1 st) (REG_GET i 2 st) (UIM_GET i 0) f) st.

(** Vectors: the elements of the operands, the second one maybe replicated, and the result put together. *)
Definition lane16 (k : Z) (x : Z) : Z := if k =? 0 then Z.land x 0xffff else Z.shiftr x (16 * k).
Definition lane8 (k : Z) (x : Z) : Z := if k =? 0 then Z.land x 0xff else Z.shiftr x (8 * k).
Definition vec16 (op : Z -> fpu -> option (Z * fpu)) (f : fpu) : option (Z * fpu) :=
  let* (r0, f) := op 0 f in
  let* (r1, f) := op 1 f in
  Some (Z.lor (Z.land r0 0xffff) (u32 (Z.shiftl (Z.land r1 0xffff) 16)), f).
Definition vec8 (op : Z -> fpu -> option (Z * fpu)) (f : fpu) : option (Z * fpu) :=
  let* (r0, f) := op 0 f in
  let* (r1, f) := op 1 f in
  let* (r2, f) := op 2 f in
  let* (r3, f) := op 3 f in
  Some (Z.lor (Z.lor (Z.lor (Z.land r0 0xff) (u32 (Z.shiftl (Z.land r1 0xff) 8))) (u32 (Z.shiftl (Z.land r2 0xff) 16)))
          (u32 (Z.shiftl (Z.land r3 0xff) 24)), f).

Definition vec16_1 (op : Z -> fpu -> option (Z * fpu)) : fp_handler := fun i f st =>
  fp_result i (vec16 (fun k => op (lane16 k (REG_GET i 0 st))) f) st.
Definition vec16_2 (op : Z -> Z -> fpu -> option (Z * fpu)) : fp_handler := fun i f st =>
  fp_result i (vec16 (fun k => op (lane16 k (REG_GET i 0 st)) (lane16 k (REG_GET i 1 st))) f) st.
Definition vec16_2r (op : Z -> Z -> fpu -> option (Z * fpu)) : fp_handler := fun i f st =>
  fp_result i (vec16 (fun k => op (lane16 k (REG_GET i 0 st)) (lane16 0 (REG_GET i 1 st))) f) st.
Definition vec16_3 (op : Z -> Z -> Z -> fpu -> option (Z * fpu)) : fp_handler := fun i f st =>
  fp_result i (vec16 (fun k => op (lane16 k (REG_GET i 0 st)) (lane16 k (REG_GET i 1 st)) (lane16 k (REG_GET i 2 st))) f) st.
Definition vec16_3r (op : Z -> Z -> Z -> fpu -> option (Z * fpu)) : fp_handler := fun i f st =>
  fp_result i (vec16 (fun k => op (lane16 k (REG_GET i 0 st)) (lane16 0 (REG_GET i 1 st)) (lane16 k (REG_GET i 2 st))) f) st.
Definition vec8_1 (op : Z -> fpu -> option (Z * fpu)) : fp_handler := fun i f st =>
  fp_result i (vec8 (fun k => op (lane8 k (REG_GET i 0 st))) f) st.
Definition vec8_2 (op : Z -> Z -> fpu -> option (Z * fpu)) : fp_handler := fun i f st =>
  fp_result i (vec8 (fun k => op (lane8 k (REG_GET i 0 st)) (lane8 k (REG_GET i 1 st))) f) st.
Definition vec8_2r (op : Z -> Z -> fpu -> option (Z * fpu)) : fp_handler := fun i f st =>
  fp_result i (vec8 (fun k => op (lane8 k (REG_GET i 0 st)) (lane8 0 (REG_GET i 1 st))) f) st.
Definition vec8_3 (op : Z -> Z -> Z -> fpu -> option (Z * fpu)) : fp_handler := fun i f st =>
  fp_result i (vec8 (fun k => op (lane8 k (REG_GET i 0 st)) (lane8 k (REG_GET i 1 st)) (lane8 k (REG_GET i 2 st))) f) st.
Definition vec8_3r (op : Z -> Z -> Z -> fpu -> option (Z * fpu)) : fp_handler := fun i f st =>
  fp_result i (vec8 (fun k => op (lane8 k (REG_GET i 0 st)) (lane8 0 (REG_GET i 1 st)) (lane8 k (REG_GET i 2 st))) f) st.

(** Loads and stores, which the counters do not see. *)
Definition with_fpu (f : fpu) (x : option (Z * iss (S := S))) : option (Z * fpu * iss (S := S)) := let* (pc, st) := x in Some (pc, f, st).
Definition fp_load (size : Z) : fp_handler := fun i f st =>
  let* _ := iss_lsu_check_stack_access (REG_IN i 0) (mem_addr regs i st) st in
  with_fpu f (then_next i (iss_lsu_load regs null_reg port data (mem_addr regs i st) size (REG_OUT i 0) st)).
Definition fp_store (size : Z) : fp_handler := fun i f st =>
  let* _ := iss_lsu_check_stack_access (REG_OUT i 0) (mem_addr regs i st) st in
  with_fpu f (then_next i (iss_lsu_store regs port data (mem_addr regs i st) size (REG_IN i 1) st)).

(** ** Single precision (rvf.hpp) *)

Definition flw_exec : fp_handler := fp_load 4.
Definition fsw_exec : fp_handler := fp_store 4.
Definition fmadd_s_exec : fp_handler := fp3_rm (fun a b c rm => lib_flexfloat_madd_round a b c 8 23 rm).
Definition fmsub_s_exec : fp_handler := fp3_rm (fun a b c rm => lib_flexfloat_msub_round a b c 8 23 rm).
Definition fnmsub_s_exec : fp_handler := fp3_rm (fun a b c rm => lib_flexfloat_nmsub_round a b c 8 23 rm).
Definition fnmadd_s_exec : fp_handler := fp3_rm (fun a b c rm => lib_flexfloat_nmadd_round a b c 8 23 rm).
Definition fadd_s_exec : fp_handler := fp2_rm (fun a b rm => lib_flexfloat_add_round a b 8 23 rm).
Definition fsub_s_exec : fp_handler := fp2_rm (fun a b rm => lib_flexfloat_sub_round a b 8 23 rm).
Definition fmul_s_exec : fp_handler := fp2_rm (fun a b rm => lib_flexfloat_mul_round a b 8 23 rm).
Definition fdiv_s_exec : fp_handler := fp2_rm (fun a b rm => lib_flexfloat_div_round a b 8 23 rm).
Definition fsqrt_s_exec : fp_handler := fp1_rm (fun a rm => lib_flexfloat_sqrt_round a 8 23 rm).
Definition fsgnj_s_exec : fp_handler := fp2 (fun a b => lib_flexfloat_sgnj a b 8 23).
Definition fsgnjn_s_exec : fp_handler := fp2 (fun a b => lib_flexfloat_sgnjn a b 8 23).
Definition fsgnjx_s_exec : fp_handler := fp2 (fun a b => lib_flexfloat_sgnjx a b 8 23).
Definition fmin_s_exec : fp_handler := fp2 (fun a b => lib_flexfloat_min a b 8 23).
Definition fmax_s_exec : fp_handler := fp2 (fun a b => lib_flexfloat_max a b 8 23).
Definition fcvt_w_s_exec : fp_handler := fp1_rm (fun a rm => lib_flexfloat_cvt_w_ff_round a 8 23 rm).
Definition fcvt_wu_s_exec : fp_handler := fp1_rm (fun a rm => lib_flexfloat_cvt_wu_ff_round a 8 23 rm).
Definition fmv_x_s_exec : fp_handler := fp1 (fun a => lib_flexfloat_fmv_x_ff a 8 23).
Definition fmv_s_x_exec : fp_handler := fp1 (fun a => lib_flexfloat_fmv_ff_x a 8 23).
Definition feq_s_exec : fp_handler := fp2 (fun a b => lib_flexfloat_eq a b 8 23).
Definition flt_s_exec : fp_handler := fp2 (fun a b => lib_flexfloat_lt a b 8 23).
Definition fle_s_exec : fp_handler := fp2 (fun a b => lib_flexfloat_le a b 8 23).
Definition fclass_s_exec : fp_handler := fp1 (fun a => lib_flexfloat_class a 8 23).
Definition fcvt_s_w_exec : fp_handler := fp1_rm (fun a rm => lib_flexfloat_cvt_ff_w_round a 8 23 rm).
Definition fcvt_s_wu_exec : fp_handler := fp1_rm (fun a rm => lib_flexfloat_cvt_ff_wu_round a 8 23 rm).
Definition fcvt_l_s_exec : fp_handler := fp1_rm (fun a rm => lib_flexfloat_cvt_l_ff_round a 8 23 rm).
Definition fcvt_lu_s_exec : fp_handler := fp1_rm (fun a rm => lib_flexfloat_cvt_lu_ff_round a 8 23 rm).
Definition fcvt_s_l_exec : fp_handler := fp1_rm (fun a rm => lib_flexfloat_cvt_ff_l_round a 8 23 rm).
Definition fcvt_s_lu_exec : fp_handler := fp1_rm (fun a rm => lib_flexfloat_cvt_ff_lu_round a 8 23 rm).
Definition c_fsw_exec : fp_handler := fsw_exec.
Definition c_fswsp_exec : fp_handler := fsw_exec.
Definition c_flw_exec : fp_handler := flw_exec.
Definition c_flwsp_exec : fp_handler := flw_exec.

(** ** Half precision (rvXf16.hpp) *)

Definition flh_exec : fp_handler := fp_load 2.
Definition fsh_exec : fp_handler := fp_store 2.
Definition fmadd_h_exec : fp_handler := fp3_rm (fun a b c rm => lib_flexfloat_madd_round a b c 5 10 rm).
Definition fmsub_h_exec : fp_handler := fp3_rm (fun a b c rm => lib_flexfloat_msub_round a b c 5 10 rm).
Definition fnmsub_h_exec : fp_handler := fp3_rm (fun a b c rm => lib_flexfloat_nmsub_round a b c 5 10 rm).
Definition fnmadd_h_exec : fp_handler := fp3_rm (fun a b c rm => lib_flexfloat_nmadd_round a b c 5 10 rm).
Definition fadd_h_exec : fp_handler := fp2_rm (fun a b rm => lib_flexfloat_add_round a b 5 10 rm).
Definition fsub_h_exec : fp_handler := fp2_rm (fun a b rm => lib_flexfloat_sub_round a b 5 10 rm).
Definition fmul_h_exec : fp_handler := fp2_rm (fun a b rm => lib_flexfloat_mul_round a b 5 10 rm).
Definition fdiv_h_exec : fp_handler := fp2_rm (fun a b rm => lib_flexfloat_div_round a b 5 10 rm).
Definition fsqrt_h_exec : fp_handler := fp1_rm (fun a rm => lib_flexfloat_sqrt_round a 5 10 rm).
Definition fsgnj_h_exec : fp_handler := fp2 (fun a b => lib_flexfloat_sgnj a b 5 10).
Definition fsgnjn_h_exec : fp_handler := fp2 (fun a b => lib_flexfloat_sgnjn a b 5 10).
Definition fsgnjx_h_exec : fp_handler := fp2 (fun a b => lib_flexfloat_sgnjx a b 5 10).
Definition fmin_h_exec : fp_handler := fp2 (fun a b => lib_flexfloat_min a b 5 10).
Definition fmax_h_exec : fp_handler := fp2 (fun a b => lib_flexfloat_max a b 5 10).
Definition fcvt_w_h_exec : fp_handler := fp1_rm (fun a rm => lib_flexfloat_cvt_w_ff_round a 5 10 rm).
Definition fcvt_wu_h_exec : fp_handler := fp1_rm (fun a rm => lib_flexfloat_cvt_wu_ff_round a 5 10 rm).
Definition fmv_x_h_exec : fp_handler := fp1 (fun a => lib_flexfloat_fmv_x_ff a 5 10).
Definition fmv_h_x_exec : fp_handler := fp1 (fun a => lib_flexfloat_fmv_ff_x a 5 10).
Definition feq_h_exec : fp_handler := fp2 (fun a b => lib_flexfloat_eq a b 5 10).
Definition flt_h_exec : fp_handler := fp2 (fun a b => lib_flexfloat_lt a b 5 10).
Definition fle_h_exec : fp_handler := fp2 (fun a b => lib_flexfloat_le a b 5 10).
Definition fclass_h_exec : fp_handler := fp1 (fun a => lib_flexfloat_class a 5 10).
Definition fcvt_h_w_exec : fp_handler := fp1_rm (fun a rm => lib_flexfloat_cvt_ff_w_round a 5 10 rm).
Definition fcvt_h_wu_exec : fp_handler := fp1_rm (fun a rm => lib_flexfloat_cvt_ff_wu_round a 5 10 rm).
Definition fcvt_s_h_exec : fp_handler := fp1_rm (fun a rm => lib_flexfloat_cvt_ff_ff_round a 5 10 8 23 rm).
Definition fcvt_h_s_exec : fp_handler := fp1_rm (fun a rm => lib_flexfloat_cvt_ff_ff_round a 8 23 5 10 rm).
Definition fcvt_l_h_exec : fp_handler := fp1_rm (fun a rm => lib_flexfloat_cvt_l_ff_round a 5 10 rm).
Definition fcvt_lu_h_exec : fp_handler := fp1_rm (fun a rm => lib_flexfloat_cvt_lu_ff_round a 5 10 rm).
Definition fcvt_h_l_exec : fp_handler := fp1_rm (fun a rm => lib_flexfloat_cvt_ff_l_round a 5 10 rm).
Definition fcvt_h_lu_exec : fp_handler := fp1_rm (fun a rm => lib_flexfloat_cvt_ff_lu_round a 5 10 rm).

(** ** Alternative half precision (rvXf16alt.hpp) *)

Definition flah_exec : fp_handler := fp_load 2.
Definition fsah_exec : fp_handler := fp_store 2.
Definition fmadd_ah_exec : fp_handler := fp3_rm (fun a b c rm => lib_flexfloat_madd_round a b c 8 7 rm).
Definition fmsub_ah_exec : fp_handler := fp3_rm (fun a b c rm => lib_flexfloat_msub_round a b c 8 7 rm).
Definition fnmsub_ah_exec : fp_handler := fp3_rm (fun a b c rm => lib_flexfloat_nmsub_round a b c 8 7 rm).
Definition fnmadd_ah_exec : fp_handler := fp3_rm (fun a b c rm => lib_flexfloat_nmadd_round a b c 8 7 rm).
Definition fadd_ah_exec : fp_handler := fp2_rm (fun a b rm => lib_flexfloat_add_round a b 8 7 rm).
Definition fsub_ah_exec : fp_handler := fp2_rm (fun a b rm => lib_flexfloat_sub_round a b 8 7 rm).
Definition fmul_ah_exec : fp_handler := fp2_rm (fun a b rm => lib_flexfloat_mul_round a b 8 7 rm).
Definition fdiv_ah_exec : fp_handler := fp2_rm (fun a b rm => lib_flexfloat_div_round a b 8 7 rm).
Definition fsqrt_ah_exec : fp_handler := fp1_rm (fun a rm => lib_flexfloat_sqrt_round a 8 7 rm).
Definition fsgnj_ah_exec : fp_handler := fp2 (fun a b => lib_flexfloat_sgnj a b 8 7).
Definition fsgnjn_ah_exec : fp_handler := fp2 (fun a b => lib_flexfloat_sgnjn a b 8 7).
Definition fsgnjx_ah_exec : fp_handler := fp2 (fun a b => lib_flexfloat_sgnjx a b 8 7).
Definition fmin_ah_exec : fp_handler := fp2 (fun a b => lib_flexfloat_min a b 8 7).
Definition fmax_ah_exec : fp_handler := fp2 (fun a b => lib_flexfloat_max a b 8 7).
Definition fcvt_w_ah_exec : fp_handler := fp1_rm (fun a rm => lib_flexfloat_cvt_w_ff_round a 8 7 rm).
Definition fcvt_wu_ah_exec : fp_handler := fp1_rm (fun a rm => lib_flexfloat_cvt_wu_ff_round a 8 7 rm).
Definition fmv_x_ah_exec : fp_handler := fp1 (fun a => lib_flexfloat_fmv_x_ff a 8 7).
Definition fmv_ah_x_exec : fp_handler := fp1 (fun a => lib_flexfloat_fmv_ff_x a 8 7).
Definition feq_ah_exec : fp_handler := fp2 (fun a b => lib_flexfloat_eq a b 8 7).
Definition flt_ah_exec : fp_handler := fp2 (fun a b => lib_flexfloat_lt a b 8 7).
Definition fle_ah_exec : fp_handler := fp2 (fun a b => lib_flexfloat_le a b 8 7).
Definition fclass_ah_exec : fp_handler := fp1 (fun a => lib_flexfloat_class a 8 7).
Definition fcvt_ah_w_exec : fp_handler := fp1_rm (fun a rm => lib_flexfloat_cvt_ff_w_round a 8 7 rm).
Definition fcvt_ah_wu_exec : fp_handler := fp1_rm (fun a rm => lib_flexfloat_cvt_ff_wu_round a 8 7 rm).
Definition fcvt_s_ah_exec : fp_handler := fp1_rm (fun a rm => lib_flexfloat_cvt_ff_ff_round a 8 7 8 23 rm).
Definition fcvt_ah_s_exec : fp_handler := fp1_rm (fun a rm => lib_flexfloat_cvt_ff_ff_round a 8 23 8 7 rm).
Definition fcvt_h_ah_exec : fp_handler := fp1_rm (fun a rm => lib_flexfloat_cvt_ff_ff_round a 8 7 5 10 rm).
Definition fcvt_ah_h_exec : fp_handler := fp1_rm (fun a rm => lib_flexfloat_cvt_ff_ff_round a 5 10 8 7 rm).
Definition fcvt_l_ah_exec : fp_handler := fp1_rm (fun a rm => lib_flexfloat_cvt_l_ff_round a 8 7 rm).
Definition fcvt_lu_ah_exec : fp_handler := fp1_rm (fun a rm => lib_flexfloat_cvt_lu_ff_round a 8 7 rm).
Definition fcvt_ah_l_exec : fp_handler := fp1_rm (fun a rm => lib_flexfloat_cvt_ff_l_round a 8 7 rm).
Definition fcvt_ah_lu_exec : fp_handler := fp1_rm (fun a rm => lib_flexfloat_cvt_ff_lu_round a 8 7 rm).

(** ** Quarter precision (rvXf8.hpp) *)

Definition flb_exec : fp_handler := fp_load 1.
Definition fsb_exec : fp_handler := fp_store 1.
Definition fmadd_b_exec : fp_handler := fp3_rm (fun a b c rm => lib_flexfloat_madd_round a b c 5 2 rm).
Definition fmsub_b_exec : fp_handler := fp3_rm (fun a b c rm => lib_flexfloat_msub_round a b c 5 2 rm).
Definition fnmsub_b_exec : fp_handler := fp3_rm (fun a b c rm => lib_flexfloat_nmsub_round a b c 5 2 rm).
Definition fnmadd_b_exec : fp_handler := fp3_rm (fun a b c rm => lib_flexfloat_nmadd_round a b c 5 2 rm).
Definition fadd_b_exec : fp_handler := fp2_rm (fun a b rm => lib_flexfloat_add_round a b 5 2 rm).
Definition fsub_b_exec : fp_handler := fp2_rm (fun a b rm => lib_flexfloat_sub_round a b 5 2 rm).
Definition fmul_b_exec : fp_handler := fp2_rm (fun a b rm => lib_flexfloat_mul_round a b 5 2 rm).
Definition fdiv_b_exec : fp_handler := fp2_rm (fun a b rm => lib_flexfloat_div_round a b 5 2 rm).
Definition fsqrt_b_exec : fp_handler := fp1_rm (fun a rm => lib_flexfloat_sqrt_round a 5 2 rm).
Definition fsgnj_b_exec : fp_handler := fp2 (fun a b => lib_flexfloat_sgnj a b 5 2).
Definition fsgnjn_b_exec : fp_handler := fp2 (fun a b => lib_flexfloat_sgnjn a b 5 2).
Definition fsgnjx_b_exec : fp_handler := fp2 (fun a b => lib_flexfloat_sgnjx a b 5 2).
Definition fmin_b_exec : fp_handler := fp2 (fun a b => lib_flexfloat_min a b 5 2).
Definition fmax_b_exec : fp_handler := fp2 (fun a b => lib_flexfloat_max a b 5 2).
Definition fcvt_w_b_exec : fp_handler := fp1_rm (fun a rm => lib_flexfloat_cvt_w_ff_round a 5 2 rm).
Definition fcvt_wu_b_exec : fp_handler := fp1_rm (fun a rm => lib_flexfloat_cvt_wu_ff_round a 5 2 rm).
Definition fmv_x_b_exec : fp_handler := fp1 (fun a => lib_flexfloat_fmv_x_ff a 5 2).
Definition fmv_b_x_exec : fp_handler := fp1 (fun a => lib_flexfloat_fmv_ff_x a 5 2).
Definition feq_b_exec : fp_handler := fp2 (fun a b => lib_flexfloat_eq a b 5 2).
Definition flt_b_exec : fp_handler := fp2 (fun a b => lib_flexfloat_lt a b 5 2).
Definition fle_b_exec : fp_handler := fp2 (fun a b => lib_flexfloat_le a b 5 2).
Definition fclass_b_exec : fp_handler := fp1 (fun a => lib_flexfloat_class a 5 2).
Definition fcvt_b_w_exec : fp_handler := fp1_rm (fun a rm => lib_flexfloat_cvt_ff_w_round a 5 2 rm).
Definition fcvt_b_wu_exec : fp_handler := fp1_rm (fun a rm => lib_flexfloat_cvt_ff_wu_round a 5 2 rm).
Definition fcvt_s_b_exec : fp_handler := fp1_rm (fun a rm => lib_flexfloat_cvt_ff_ff_round a 5 2 8 23 rm).
Definition fcvt_b_s_exec : fp_handler := fp1_rm (fun a rm => lib_flexfloat_cvt_ff_ff_round a 8 23 5 2 rm).
Definition fcvt_h_b_exec : fp_handler := fp1_rm (fun a rm => lib_flexfloat_cvt_ff_ff_round a 5 2 5 10 rm).
Definition fcvt_b_h_exec : fp_handler := fp1_rm (fun a rm => lib_flexfloat_cvt_ff_ff_round a 5 10 5 2 rm).
Definition fcvt_ah_b_exec : fp_handler := fp1_rm (fun a rm => lib_flexfloat_cvt_ff_ff_round a 5 2 8 7 rm).
Definition fcvt_b_ah_exec : fp_handler := fp1_rm (fun a rm => lib_flexfloat_cvt_ff_ff_round a 8 7 5 2 rm).
Definition fcvt_l_b_exec : fp_handler := fp1_rm (fun a rm => lib_flexfloat_cvt_l_ff_round a 5 2 rm).
Definition fcvt_lu_b_exec : fp_handler := fp1_rm (fun a rm => lib_flexfloat_cvt_lu_ff_round a 5 2 rm).
Definition fcvt_b_l_exec : fp_handler := fp1_rm (fun a rm => lib_flexfloat_cvt_ff_l_round a 5 2 rm).
Definition fcvt_b_lu_exec : fp_handler := fp1_rm (fun a rm => lib_flexfloat_cvt_ff_lu_round a 5 2 rm).

(** ** Vectors (rv32Xfvec.hpp) *)

Definition vfadd_h_exec : fp_handler := vec16_2 (fun a b => lib_flexfloat_add_round a b 5 10 0).
Definition vfadd_r_h_exec : fp_handler := vec16_2r (fun a b => lib_flexfloat_add_round a b 5 10 0).
Definition vfsub_h_exec : fp_handler := vec16_2 (fun a b => lib_flexfloat_sub_round a b 5 10 0).
Definition vfsub_r_h_exec : fp_handler := vec16_2r (fun a b => lib_flexfloat_sub_round a b 5 10 0).
Definition vfmul_h_exec : fp_handler := vec16_2 (fun a b => lib_flexfloat_mul_round a b 5 10 0).
Definition vfmul_r_h_exec : fp_handler := vec16_2r (fun a b => lib_flexfloat_mul_round a b 5 10 0).
Definition vfdiv_h_exec : fp_handler := vec16_2 (fun a b => lib_flexfloat_div_round a b 5 10 0).
Definition vfdiv_r_h_exec : fp_handler := vec16_2r (fun a b => lib_flexfloat_div_round a b 5 10 0).
Definition vfmin_h_exec : fp_handler := vec16_2 (fun a b => lib_flexfloat_min a b 5 10).
Definition vfmin_r_h_exec : fp_handler := vec16_2r (fun a b => lib_flexfloat_min a b 5 10).
Definition vfmax_h_exec : fp_handler := vec16_2 (fun a b => lib_flexfloat_max a b 5 10).
Definition vfmax_r_h_exec : fp_handler := vec16_2r (fun a b => lib_flexfloat_max a b 5 10).
Definition vfsqrt_h_exec : fp_handler := vec16_1 (fun a => lib_flexfloat_sqrt_round a 5 10 0).
Definition vfmac_h_exec : fp_handler := vec16_3 (fun a b c => lib_flexfloat_madd_round a b c 5 10 0).
Definition vfmac_r_h_exec : fp_handler := vec16_3r (fun a b c => lib_flexfloat_madd_round a b c 5 10 0).
Definition vfmre_h_exec : fp_handler := vec16_3 (fun a b c => lib_flexfloat_msub_round a b c 5 10 0).
Definition vfmre_r_h_exec : fp_handler := vec16_3r (fun a b c => lib_flexfloat_msub_round a b c 5 10 0).
Definition vfclass_h_exec : fp_handler := fp1 (fun a => lib_flexfloat_vclass a 2 16 5 10).
Definition vfsgnj_h_exec : fp_handler := vec16_2 (fun a b => lib_flexfloat_sgnj a b 5 10).
Definition vfsgnj_r_h_exec : fp_handler := vec16_2r (fun a b => lib_flexfloat_sgnj a b 5 10).
Definition vfsgnjn_h_exec : fp_handler := vec16_2 (fun a b => lib_flexfloat_sgnjn a b 5 10).
Definition vfsgnjn_r_h_exec : fp_handler := vec16_2r (fun a b => lib_flexfloat_sgnjn a b 5 10).
Definition vfsgnjx_h_exec : fp_handler := vec16_2 (fun a b => lib_flexfloat_sgnjx a b 5 10).
Definition vfsgnjx_r_h_exec : fp_handler := vec16_2r (fun a b => lib_flexfloat_sgnjx a b 5 10).
Definition vfeq_h_exec : fp_handler := vec16_2 (fun a b => lib_flexfloat_eq a b 5 10).
Definition vfeq_r_h_exec : fp_handler := vec16_2r (fun a b => lib_flexfloat_eq a b 5 10).
Definition vfne_h_exec : fp_handler := vec16_2 (fun a b => lib_flexfloat_ne a b 5 10).
Definition vfne_r_h_exec : fp_handler := vec16_2r (fun a b => lib_flexfloat_ne a b 5 10).
Definition vflt_h_exec : fp_handler := vec16_2 (fun a b => lib_flexfloat_lt a b 5 10).
Definition vflt_r_h_exec : fp_handler := vec16_2r (fun a b => lib_flexfloat_lt a b 5 10).
Definition vfge_h_exec : fp_handler := vec16_2 (fun a b => lib_flexfloat_ge a b 5 10).
Definition vfge_r_h_exec : fp_handler := vec16_2r (fun a b => lib_flexfloat_ge a b 5 10).
Definition vfle_h_exec : fp_handler := vec16_2 (fun a b => lib_flexfloat_le a b 5 10).
Definition vfle_r_h_exec : fp_handler := vec16_2r (fun a b => lib_flexfloat_le a b 5 10).
Definition vfgt_h_exec : fp_handler := vec16_2 (fun a b => lib_flexfloat_gt a b 5 10).
Definition vfgt_r_h_exec : fp_handler := vec16_2r (fun a b => lib_flexfloat_gt a b 5 10).
Definition vfcpka_h_s_exec : fp_handler := fun i f st => fp_result i (
  let* (r1, f) := lib_flexfloat_cvt_ff_ff_round (REG_GET i 0 st) 8 23 5 10 0 f in
  let* (r2, f) := lib_flexfloat_cvt_ff_ff_round (REG_GET i 1 st) 8 23 5 10 0 f in
  Some (Z.lor (Z.land r1 0xffff) (u32 (Z.shiftl (Z.land r2 0xffff) 16)), f)) st.
Definition vfmv_x_h_exec : fp_handler := vec16_1 (fun a => lib_flexfloat_fmv_x_ff a 5 10).
Definition vfmv_h_x_exec : fp_handler := vec16_1 (fun a => lib_flexfloat_fmv_ff_x a 5 10).
Definition vfcvt_x_h_exec : fp_handler := vec16_1 (fun a => lib_flexfloat_cvt_x_ff_round a 5 10 0).
Definition vfcvt_xu_h_exec : fp_handler := vec16_1 (fun a => lib_flexfloat_cvt_xu_ff_round a 5 10 0).
Definition vfcvt_h_x_exec : fp_handler := vec16_1 (fun a => lib_flexfloat_cvt_ff_x_round a 5 10 0).
Definition vfcvt_h_xu_exec : fp_handler := vec16_1 (fun a => lib_flexfloat_cvt_ff_xu_round a 5 10 0).
Definition vfadd_ah_exec : fp_handler := vec16_2 (fun a b => lib_flexfloat_add_round a b 8 7 0).
Definition vfadd_r_ah_exec : fp_handler := vec16_2r (fun a b => lib_flexfloat_add_round a b 8 7 0).
Definition vfsub_ah_exec : fp_handler := vec16_2 (fun a b => lib_flexfloat_sub_round a b 8 7 0).
Definition vfsub_r_ah_exec : fp_handler := vec16_2r (fun a b => lib_flexfloat_sub_round a b 8 7 0).
Definition vfmul_ah_exec : fp_handler := vec16_2 (fun a b => lib_flexfloat_mul_round a b 8 7 0).
Definition vfmul_r_ah_exec : fp_handler := vec16_2r (fun a b => lib_flexfloat_mul_round a b 8 7 0).
Definition vfdiv_ah_exec : fp_handler := vec16_2 (fun a b => lib_flexfloat_div_round a b 8 7 0).
Definition vfdiv_r_ah_exec : fp_handler := vec16_2r (fun a b => lib_flexfloat_div_round a b 8 7 0).
Definition vfmin_ah_exec : fp_handler := vec16_2 (fun a b => lib_flexfloat_min a b 8 7).
Definition vfmin_r_ah_exec : fp_handler := vec16_2r (fun a b => lib_flexfloat_min a b 8 7).
Definition vfmax_ah_exec : fp_handler := vec16_2 (fun a b => lib_flexfloat_max a b 8 7).
Definition vfmax_r_ah_exec : fp_handler := vec16_2r (fun a b => lib_flexfloat_max a b 8 7).
Definition vfsqrt_ah_exec : fp_handler := vec16_1 (fun a => lib_flexfloat_sqrt_round a 8 7 0).
Definition vfmac_ah_exec : fp_handler := vec16_3 (fun a b c => lib_flexfloat_madd_round a b c 8 7 0).
Definition vfmac_r_ah_exec : fp_handler := vec16_3r (fun a b c => lib_flexfloat_madd_round a b c 8 7 0).
Definition vfmre_ah_exec : fp_handler := vec16_3 (fun a b c => lib_flexfloat_msub_round a b c 8 7 0).
Definition vfmre_r_ah_exec : fp_handler := vec16_3r (fun a b c => lib_flexfloat_msub_round a b c 8 7 0).
Definition vfclass_ah_exec : fp_handler := fp1 (fun a => lib_flexfloat_vclass a 2 16 8 7).
Definition vfsgnj_ah_exec : fp_handler := vec16_2 (fun a b => lib_flexfloat_sgnj a b 8 7).
Definition vfsgnj_r_ah_exec : fp_handler := vec16_2r (fun a b => lib_flexfloat_sgnj a b 8 7).
Definition vfsgnjn_ah_exec : fp_handler := vec16_2 (fun a b => lib_flexfloat_sgnjn a b 8 7).
Definition vfsgnjn_r_ah_exec : fp_handler := vec16_2r (fun a b => lib_flexfloat_sgnjn a b 8 7).
Definition vfsgnjx_ah_exec : fp_handler := vec16_2 (fun a b => lib_flexfloat_sgnjx a b 8 7).
Definition vfsgnjx_r_ah_exec : fp_handler := vec16_2r (fun a b => lib_flexfloat_sgnjx a b 8 7).
Definition vfeq_ah_exec : fp_handler := vec16_2 (fun a b => lib_flexfloat_eq a b 8 7).
Definition vfeq_r_ah_exec : fp_handler := vec16_2r (fun a b => lib_flexfloat_eq a b 8 7).
Definition vfne_ah_exec : fp_handler := vec16_2 (fun a b => lib_flexfloat_ne a b 8 7).
Definition vfne_r_ah_exec : fp_handler := vec16_2r (fun a b => lib_flexfloat_ne a b 8 7).
Definition vflt_ah_exec : fp_handler := vec16_2 (fun a b => lib_flexfloat_lt a b 8 7).
Definition vflt_r_ah_exec : fp_handler := vec16_2r (fun a b => lib_flexfloat_lt a b 8 7).
Definition vfge_ah_exec : fp_handler := vec16_2 (fun a b => lib_flexfloat_ge a b 8 7).
Definition vfge_r_ah_exec : fp_handler := vec16_2r (fun a b => lib_flexfloat_ge a b 8 7).
Definition vfle_ah_exec : fp_handler := vec16_2 (fun a b => lib_flexfloat_le a b 8 7).
Definition vfle_r_ah_exec : fp_handler := vec16_2r (fun a b => lib_flexfloat_le a b 8 7).
Definition vfgt_ah_exec : fp_handler := vec16_2 (fun a b => lib_flexfloat_gt a b 8 7).
Definition vfgt_r_ah_exec : fp_handler := vec16_2r (fun a b => lib_flexfloat_gt a b 8 7).
Definition vfcpka_ah_s_exec : fp_handler := fun i f st => fp_result i (
  let* (r1, f) := lib_flexfloat_cvt_ff_ff_round (REG_GET i 0 st) 8 23 8 7 0 f in
  let* (r2, f) := lib_flexfloat_cvt_ff_ff_round (REG_GET i 1 st) 8 23 8 7 0 f in
  Some (Z.lor (Z.land r1 0xffff) (u32 (Z.shiftl (Z.land r2 0xffff) 16)), f)) st.
Definition vfmv_x_ah_exec : fp_handler := vec16_1 (fun a => lib_flexfloat_fmv_x_ff a 8 7).
Definition vfmv_ah_x_exec : fp_handler := vec16_1 (fun a => lib_flexfloat_fmv_ff_x a 8 7).
Definition vfcvt_x_ah_exec : fp_handler := vec16_1 (fun a => lib_flexfloat_cvt_x_ff_round a 8 7 0).
Definition vfcvt_xu_ah_exec : fp_handler := vec16_1 (fun a => lib_flexfloat_cvt_xu_ff_round a 8 7 0).
Definition vfcvt_ah_x_exec : fp_handler := vec16_1 (fun a => lib_flexfloat_cvt_ff_x_round a 8 7 0).
Definition vfcvt_ah_xu_exec : fp_handler := vec16_1 (fun a => lib_flexfloat_cvt_ff_xu_round a 8 7 0).
Definition vfcvt_h_ah_exec : fp_handler := vec16_1 (fun a => lib_flexfloat_cvt_ff_ff_round a 8 7 5 10 0).
Definition vfcvt_ah_h_exec : fp_handler := vec16_1 (fun a => lib_flexfloat_cvt_ff_ff_round a 5 10 8 7 0).
Definition vfadd_b_exec : fp_handler := vec8_2 (fun a b => lib_flexfloat_add_round a b 5 2 0).
Definition vfadd_r_b_exec : fp_handler := vec8_2r (fun a b => lib_flexfloat_add_round a b 5 2 0).
Definition vfsub_b_exec : fp_handler := vec8_2 (fun a b => lib_flexfloat_sub_round a b 5 2 0).
Definition vfsub_r_b_exec : fp_handler := vec8_2r (fun a b => lib_flexfloat_sub_round a b 5 2 0).
Definition vfmul_b_exec : fp_handler := vec8_2 (fun a b => lib_flexfloat_mul_round a b 5 2 0).
Definition vfmul_r_b_exec : fp_handler := vec8_2r (fun a b => lib_flexfloat_mul_round a b 5 2 0).
Definition vfdiv_b_exec : fp_handler := vec8_2 (fun a b => lib_flexfloat_div_round a b 5 2 0).
Definition vfdiv_r_b_exec : fp_handler := vec8_2r (fun a b => lib_flexfloat_div_round a b 5 2 0).
Definition vfmin_b_exec : fp_handler := vec8_2 (fun a b => lib_flexfloat_min a b 5 2).
Definition vfmin_r_b_exec : fp_handler := vec8_2r (fun a b => lib_flexfloat_min a b 5 2).
Definition vfmax_b_exec : fp_handler := vec8_2 (fun a b => lib_flexfloat_max a b 5 2).
Definition vfmax_r_b_exec : fp_handler := vec8_2r (fun a b => lib_flexfloat_max a b 5 2).
Definition vfsqrt_b_exec : fp_handler := vec8_1 (fun a => lib_flexfloat_sqrt_round a 5 2 0).
Definition vfmac_b_exec : fp_handler := vec8_3 (fun a b c => lib_flexfloat_madd_round a b c 5 2 0).
Definition vfmac_r_b_exec : fp_handler := vec8_3r (fun a b c => lib_flexfloat_madd_round a b c 5 2 0).
Definition vfmre_b_exec : fp_handler := vec8_3 (fun a b c => lib_flexfloat_msub_round a b c 5 2 0).
Definition vfmre_r_b_exec : fp_handler := vec8_3r (fun a b c => lib_flexfloat_msub_round a b c 5 2 0).
Definition vfsgnj_b_exec : fp_handler := vec8_2 (fun a b => lib_flexfloat_sgnj a b 5 2).
Definition vfsgnj_r_b_exec : fp_handler := vec8_2r (fun a b => lib_flexfloat_sgnj a b 5 2).
Definition vfsgnjn_b_exec : fp_handler := vec8_2 (fun a b => lib_flexfloat_sgnjn a b 5 2).
Definition vfsgnjn_r_b_exec : fp_handler := vec8_2r (fun a b => lib_flexfloat_sgnjn a b 5 2).
Definition vfsgnjx_b_exec : fp_handler := vec8_2 (fun a b => lib_flexfloat_sgnjx a b 5 2).
Definition vfsgnjx_r_b_exec : fp_handler := vec8_2r (fun a b => lib_flexfloat_sgnjx a b 5 2).
Definition vfeq_b_exec : fp_handler := vec8_2 (fun a b => lib_flexfloat_eq a b 5 2).
Definition vfeq_r_b_exec : fp_handler := vec8_2r (fun a b => lib_flexfloat_eq a b 5 2).
Definition vfne_b_exec : fp_handler := vec8_2 (fun a b => lib_flexfloat_ne a b 5 2).
Definition vfne_r_b_exec : fp_handler := vec8_2r (fun a b => lib_flexfloat_ne a b 5 2).
Definition vflt_b_exec : fp_handler := vec8_2 (fun a b => lib_flexfloat_lt a b 5 2).
Definition vflt_r_b_exec : fp_handler := vec8_2r (fun a b => lib_flexfloat_lt a b 5 2).
Definition vfge_b_exec : fp_handler := vec8_2 (fun a b => lib_flexfloat_ge a b 5 2).
Definition vfge_r_b_exec : fp_handler := vec8_2r (fun a b => lib_flexfloat_ge a b 5 2).
Definition vfle_b_exec : fp_handler := vec8_2 (fun a b => lib_flexfloat_le a b 5 2).
Definition vfle_r_b_exec : fp_handler := vec8_2r (fun a b => lib_flexfloat_le a b 5 2).
Definition vfgt_b_exec : fp_handler := vec8_2 (fun a b => lib_flexfloat_gt a b 5 2).
Definition vfgt_r_b_exec : fp_handler := vec8_2r (fun a b => lib_flexfloat_gt a b 5 2).
Definition vfmv_x_b_exec : fp_handler := vec8_1 (fun a => lib_flexfloat_fmv_x_ff a 5 2).
Definition vfmv_b_x_exec : fp_handler := vec8_1 (fun a => lib_flexfloat_fmv_ff_x a 5 2).
Definition vfclass_b_exec : fp_handler := fp1 (fun a => lib_flexfloat_vclass a 4 8 5 2).
Definition vfcvt_x_b_exec : fp_handler := vec8_1 (fun a => lib_flexfloat_cvt_x_ff_round a 5 2 0).
Definition vfcvt_xu_b_exec : fp_handler := vec8_1 (fun a => lib_flexfloat_cvt_xu_ff_round a 5 2 0).
Definition vfcvt_b_x_exec : fp_handler := vec8_1 (fun a => lib_flexfloat_cvt_ff_x_round a 5 2 0).
Definition vfcvt_b_xu_exec : fp_handler := vec8_1 (fun a => lib_flexfloat_cvt_ff_xu_round a 5 2 0).
Definition vfcpka_b_s_exec : fp_handler := fun i f st => fp_result i (
  let* (r1, f) := lib_flexfloat_cvt_ff_ff_round (REG_GET i 0 st) 8 23 5 2 0 f in
  let* (r2, f) := lib_flexfloat_cvt_ff_ff_round (REG_GET i 1 st) 8 23 5 2 0 f in
  Some (Z.lor (Z.land r1 0xff) (u32 (Z.shiftl (Z.land r2 0xff) 8)), f)) st.
Definition vfcpkb_b_s_exec : fp_handler := fun i f st => fp_result i (
  let* (r1, f) := lib_flexfloat_cvt_ff_ff_round (REG_GET i 0 st) 8 23 5 2 0 f in
  let* (r2, f) := lib_flexfloat_cvt_ff_ff_round (REG_GET i 1 st) 8 23 5 2 0 f in
  Some (Z.lor (Z.lor (u32 (Z.shiftl (Z.land r1 0xff) 16)) (u32 (Z.shiftl (Z.land r2 0xff) 24)))
          (Z.land (REG_GET i 2 st) (u32 (Z.lnot (u32 (Z.shiftl 0xffff 16))))), f)) st.
Definition vfcvt_h_b_exec : fp_handler := fun i f st => fp_result i (
  let* (r1, f) := lib_flexfloat_cvt_ff_ff_round (Z.land (REG_GET i 0 st) 0xff) 5 2 5 10 0 f in
  let* (r2, f) := lib_flexfloat_cvt_ff_ff_round (Z.land (Z.shiftr (REG_GET i 0 st) 8) 0xff) 5 2 5 10 0 f in
  Some (Z.lor (Z.land r1 0xffff) (u32 (Z.shiftl (Z.land r2 0xffff) 16)), f)) st.
Definition vfcvt_b_h_exec : fp_handler := fun i f st => fp_result i (
  let* (r1, f) := lib_flexfloat_cvt_ff_ff_round (Z.land (REG_GET i 0 st) 0xffff) 5 10 5 2 0 f in
  let* (r2, f) := lib_flexfloat_cvt_ff_ff_round (Z.shiftr (REG_GET i 0 st) 16) 5 10 5 2 0 f in
  Some (Z.lor (u32 (Z.shiftl (Z.land r1 0xff) 16)) (u32 (Z.shiftl (Z.land r2 0xff) 24)), f)) st.
Definition vfcvt_ah_b_exec : fp_handler := fun i f st => fp_result i (
  let* (r1, f) := lib_flexfloat_cvt_ff_ff_round (Z.land (REG_GET i 0 st) 0xff) 5 2 8 7 0 f in
  let* (r2, f) := lib_flexfloat_cvt_ff_ff_round (Z.land (Z.shiftr (REG_GET i 0 st) 8) 0xff) 5 2 8 7 0 f in
  Some (Z.lor (Z.land r1 0xffff) (u32 (Z.shiftl (Z.land r2 0xffff) 16)), f)) st.
Definition vfcvt_b_ah_exec : fp_handler := fun i f st => fp_result i (
  let* (r1, f) := lib_flexfloat_cvt_ff_ff_round (Z.land (REG_GET i 0 st) 0xffff) 8 7 5 2 0 f in
  let* (r2, f) := lib_flexfloat_cvt_ff_ff_round (Z.shiftr (REG_GET i 0 st) 16) 8 7 5 2 0 f in
  Some (Z.lor (u32 (Z.shiftl (Z.land r1 0xff) 16)) (u32 (Z.shiftl (Z.land r2 0xff) 24)), f)) st.

(** ** Expanding and vectorial operations (rv32Xfaux.hpp) *)

Definition fmulex_s_h_exec : fp_handler := fun i f st => fp_result i (
  let* (r1, f) := lib_flexfloat_cvt_ff_ff_round (REG_GET i 0 st) 5 10 8 23 (UIM_GET i 0) f in
  let* (r2, f) := lib_flexfloat_cvt_ff_ff_round (REG_GET i 1 st) 5 10 8 23 (UIM_GET i 0) f in
  let* (r3, f) := lib_flexfloat_mul_round (u32 r1) (u32 r2) 8 23 (UIM_GET i 0) f in
  Some (r3, f)) st.
Definition fmacex_s_h_exec : fp_handler := fun i f st => fp_result i (
  let* (r1, f) := lib_flexfloat_cvt_ff_ff_round (REG_GET i 0 st) 5 10 8 23 (UIM_GET i 0) f in
  let* (r2, f) := lib_flexfloat_cvt_ff_ff_round (REG_GET i 1 st) 5 10 8 23 (UIM_GET i 0) f in
  let* (r3, f) := lib_flexfloat_madd_round (u32 r1) (u32 r2) (REG_GET i 2 st) 8 23 (UIM_GET i 0) f in
  Some (r3, f)) st.
Definition vfdotp_h_exec : fp_handler := fun i f st => fp_result i (
  let* (r1, f) := lib_flexfloat_mul_round (Z.shiftr (REG_GET i 0 st) 16) (Z.shiftr (REG_GET i 1 st) 16) 5 10 0 f in
  let* (r2, f) := lib_flexfloat_madd_round (Z.land (REG_GET i 0 st) 0xffff) (Z.land (REG_GET i 1 st) 0xffff) (Z.land r1 0xffff) 5 10 0 f in
  Some (r2, f)) st.
Definition vfdotp_r_h_exec : fp_handler := fun i f st => fp_result i (
  let* (r1, f) := lib_flexfloat_mul_round (Z.shiftr (REG_GET i 0 st) 16) (Z.land (REG_GET i 1 st) 0xffff) 5 10 0 f in
  let* (r2, f) := lib_flexfloat_madd_round (Z.land (REG_GET i 0 st) 0xffff) (Z.land (REG_GET i 1 st) 0xffff) (Z.land r1 0xffff) 5 10 0 f in
  Some (r2, f)) st.
Definition vfdotpex_s_h_exec : fp_handler := fun i f st => fp_result i (
  let* (r1, f) := lib_flexfloat_cvt_ff_ff_round (Z.land (REG_GET i 0 st) 0xffff) 5 10 8 23 0 f in
  let* (r2, f) := lib_flexfloat_cvt_ff_ff_round (Z.land (REG_GET i 1 st) 0xffff) 5 10 8 23 0 f in
  let* (r3, f) := lib_flexfloat_cvt_ff_ff_round (Z.shiftr (REG_GET i 0 st) 16) 5 10 8 23 0 f in
  let* (r4, f) := lib_flexfloat_cvt_ff_ff_round (Z.shiftr (REG_GET i 1 st) 16) 5 10 8 23 0 f in
  let* (r5, f) := lib_flexfloat_mul_round (u32 r3) (u32 r4) 8 23 0 f in
  let* (r6, f) := lib_flexfloat_madd_round (u32 r1) (u32 r2) r5 8 23 0 f in
  Some (r6, f)) st.
Definition vfdotpex_s_r_h_exec : fp_handler := fun i f st => fp_result i (
  let* (r1, f) := lib_flexfloat_cvt_ff_ff_round (Z.land (REG_GET i 0 st) 0xffff) 5 10 8 23 0 f in
  let* (r2, f) := lib_flexfloat_cvt_ff_ff_round (Z.land (REG_GET i 1 st) 0xffff) 5 10 8 23 0 f in
  let* (r3, f) := lib_flexfloat_cvt_ff_ff_round (Z.shiftr (REG_GET i 0 st) 16) 5 10 8 23 0 f in
  let* (r4, f) := lib_flexfloat_cvt_ff_ff_round (Z.land (REG_GET i 1 st) 0xffff) 5 10 8 23 0 f in
  let* (r5, f) := lib_flexfloat_mul_round (u32 r3) (u32 r4) 8 23 0 f in
  let* (r6, f) := lib_flexfloat_madd_round (u32 r1) (u32 r2) r5 8 23 0 f in
  Some (r6, f)) st.
Definition vfavg_h_exec : fp_handler := vec16_2 (fun a b => lib_flexfloat_avg_round a b 5 10 0).
Definition vfavg_r_h_exec : fp_handler := vec16_2r (fun a b => lib_flexfloat_avg_round a b 5 10 0).
Definition fmulex_s_ah_exec : fp_handler := fun i f st => fp_result i (
  let* (r1, f) := lib_flexfloat_cvt_ff_ff_round (REG_GET i 0 st) 8 7 8 23 (UIM_GET i 0) f in
  let* (r2, f) := lib_flexfloat_cvt_ff_ff_round (REG_GET i 1 st) 8 7 8 23 (UIM_GET i 0) f in
  let* (r3, f) := lib_flexfloat_mul_round (u32 r1) (u32 r2) 8 23 (UIM_GET i 0) f in
  Some (r3, f)) st.
Definition fmacex_s_ah_exec : fp_handler := fun i f st => fp_result i (
  let* (r1, f) := lib_flexfloat_cvt_ff_ff_round (REG_GET i 0 st) 8 7 8 23 (UIM_GET i 0) f in
  let* (r2, f) := lib_flexfloat_cvt_ff_ff_round (REG_GET i 1 st) 8 7 8 23 (UIM_GET i 0) f in
  let* (r3, f) := lib_flexfloat_madd_round (u32 r1) (u32 r2) (REG_GET i 2 st) 8 23 (UIM_GET i 0) f in
  Some (r3, f)) st.
Definition vfdotp_ah_exec : fp_handler := fun i f st => fp_result i (
  let* (r1, f) := lib_flexfloat_mul_round (Z.shiftr (REG_GET i 0 st) 16) (Z.shiftr (REG_GET i 1 st) 16) 8 7 0 f in
  let* (r2, f) := lib_flexfloat_madd_round (Z.land (REG_GET i 0 st) 0xffff) (Z.land (REG_GET i 1 st) 0xffff) (Z.land r1 0xffff) 8 7 0 f in
  Some (r2, f)) st.
Definition vfdotp_r_ah_exec : fp_handler := fun i f st => fp_result i (
  let* (r1, f) := lib_flexfloat_mul_round (Z.shiftr (REG_GET i 0 st) 16) (Z.land (REG_GET i 1 st) 0xffff) 8 7 0 f in
  let* (r2, f) := lib_flexfloat_madd_round (Z.land (REG_GET i 0 st) 0xffff) (Z.land (REG_GET i 1 st) 0xffff) (Z.land r1 0xffff) 8 7 0 f in
  Some (r2, f)) st.
Definition vfdotpex_s_ah_exec : fp_handler := fun i f st => fp_result i (
  let* (r1, f) := lib_flexfloat_cvt_ff_ff_round (Z.land (REG_GET i 0 st) 0xffff) 8 7 8 23 0 f in
  let* (r2, f) := lib_flexfloat_cvt_ff_ff_round (Z.land (REG_GET i 1 st) 0xffff) 8 7 8 23 0 f in
  let* (r3, f) := lib_flexfloat_cvt_ff_ff_round (Z.shiftr (REG_GET i 0 st) 16) 8 7 8 23 0 f in
  let* (r4, f) := lib_flexfloat_cvt_ff_ff_round (Z.shiftr (REG_GET i 1 st) 16) 8 7 8 23 0 f in
  let* (r5, f) := lib_flexfloat_mul_round (u32 r3) (u32 r4) 8 23 0 f in
  let* (r6, f) := lib_flexfloat_madd_round (u32 r1) (u32 r2) r5 8 23 0 f in
  Some (r6, f)) st.
Definition vfdotpex_s_r_ah_exec : fp_handler := fun i f st => fp_result i (
  let* (r1, f) := lib_flexfloat_cvt_ff_ff_round (Z.land (REG_GET i 0 st) 0xffff) 8 7 8 23 0 f in
  let* (r2, f) := lib_flexfloat_cvt_ff_ff_round (Z.land (REG_GET i 1 st) 0xffff) 8 7 8 23 0 f in
  let* (r3, f) := lib_flexfloat_cvt_ff_ff_round (Z.shiftr (REG_GET i 0 st) 16) 8 7 8 23 0 f in
  let* (r4, f) := lib_flexfloat_cvt_ff_ff_round (Z.land (REG_GET i 1 st) 0xffff) 8 7 8 23 0 f in
  let* (r5, f) := lib_flexfloat_mul_round (u32 r3) (u32 r4) 8 23 0 f in
  let* (r6, f) := lib_flexfloat_madd_round (u32 r1) (u32 r2) r5 8 23 0 f in
  Some (r6, f)) st.
Definition vfavg_ah_exec : fp_handler := vec16_2 (fun a b => lib_flexfloat_avg_round a b 8 7 0).
Definition vfavg_r_ah_exec : fp_handler := vec16_2r (fun a b => lib_flexfloat_avg_round a b 8 7 0).
Definition fmulex_s_b_exec : fp_handler := fun i f st => fp_result i (
  let* (r1, f) := lib_flexfloat_cvt_ff_ff_round (REG_GET i 0 st) 5 2 8 23 (UIM_GET i 0) f in
  let* (r2, f) := lib_flexfloat_cvt_ff_ff_round (REG_GET i 1 st) 5 2 8 23 (UIM_GET i 0) f in
  let* (r3, f) := lib_flexfloat_mul_round (u32 r1) (u32 r2) 8 23 (UIM_GET i 0) f in
  Some (r3, f)) st.
Definition fmacex_s_b_exec : fp_handler := fun i f st => fp_result i (
  let* (r1, f) := lib_flexfloat_cvt_ff_ff_round (REG_GET i 0 st) 5 2 8 23 (UIM_GET i 0) f in
  let* (r2, f) := lib_flexfloat_cvt_ff_ff_round (REG_GET i 1 st) 5 2 8 23 (UIM_GET i 0) f in
  let* (r3, f) := lib_flexfloat_madd_round (u32 r1) (u32 r2) (REG_GET i 2 st) 8 23 (UIM_GET i 0) f in
  Some (r3, f)) st.
Definition vfdotp_b_exec : fp_handler := fun i f st => fp_result i (
  let* (r1, f) := lib_flexfloat_mul_round (Z.shiftr (REG_GET i 0 st) 24) (Z.shiftr (REG_GET i 1 st) 24) 5 2 0 f in
  let* (r2, f) := lib_flexfloat_madd_round (Z.shiftr (REG_GET i 0 st) 16) (Z.shiftr (REG_GET i 1 st) 16) (Z.land r1 0xff) 5 2 0 f in
  let* (r3, f) := lib_flexfloat_madd_round (Z.shiftr (REG_GET i 0 st) 8) (Z.shiftr (REG_GET i 1 st) 8) (Z.land r2 0xff) 5 2 0 f in
  let* (r4, f) := lib_flexfloat_madd_round (Z.land (REG_GET i 0 st) 0xff) (Z.land (REG_GET i 1 st) 0xff) (Z.land r3 0xff) 5 2 0 f in
  Some (r4, f)) st.
Definition vfdotp_r_b_exec : fp_handler := fun i f st => fp_result i (
  let* (r1, f) := lib_flexfloat_mul_round (Z.shiftr (REG_GET i 0 st) 24) (Z.land (REG_GET i 1 st) 0xff) 5 2 0 f in
  let* (r2, f) := lib_flexfloat_madd_round (Z.shiftr (REG_GET i 0 st) 16) (Z.land (REG_GET i 1 st) 0xff) (Z.land r1 0xff) 5 2 0 f in
  let* (r3, f) := lib_flexfloat_madd_round (Z.shiftr (REG_GET i 0 st) 8) (Z.land (REG_GET i 1 st) 0xff) (Z.land r2 0xff) 5 2 0 f in
  let* (r4, f) := lib_flexfloat_madd_round (Z.land (REG_GET i 0 st) 0xff) (Z.land (REG_GET i 1 st) 0xff) (Z.land r3 0xff) 5 2 0 f in
  Some (r4, f)) st.
Definition vfdotpex_s_b_exec : fp_handler := fun i f st => fp_result i (
  let* (r1, f) := lib_flexfloat_cvt_ff_ff_round (Z.land (REG_GET i 0 st) 0xff) 5 2 8 23 0 f in
  let* (r2, f) := lib_flexfloat_cvt_ff_ff_round (Z.land (REG_GET i 1 st) 0xff) 5 2 8 23 0 f in
  let* (r3, f) := lib_flexfloat_cvt_ff_ff_round (Z.shiftr (REG_GET i 0 st) 8) 5 2 8 23 0 f in
  let* (r4, f) := lib_flexfloat_cvt_ff_ff_round (Z.shiftr (REG_GET i 1 st) 8) 5 2 8 23 0 f in
  let* (r5, f) := lib_flexfloat_cvt_ff_ff_round (Z.shiftr (REG_GET i 0 st) 16) 5 2 8 23 0 f in
  let* (r6, f) := lib_flexfloat_cvt_ff_ff_round (Z.shiftr (REG_GET i 1 st) 16) 5 2 8 23 0 f in
  let* (r7, f) := lib_flexfloat_cvt_ff_ff_round (Z.shiftr (REG_GET i 0 st) 24) 5 2 8 23 0 f in
  let* (r8, f) := lib_flexfloat_cvt_ff_ff_round (Z.shiftr (REG_GET i 1 st) 24) 5 2 8 23 0 f in
  let* (r9, f) := lib_flexfloat_mul_round (u32 r7) (u32 r8) 8 23 0 f in
  let* (r10, f) := lib_flexfloat_madd_round (u32 r5) (u32 r6) r9 8 23 0 f in
  let* (r11, f) := lib_flexfloat_madd_round (u32 r3) (u32 r4) r10 8 23 0 f in
  let* (r12, f) := lib_flexfloat_madd_round (u32 r1) (u32 r2) r11 8 23 0 f in
  Some (r12, f)) st.
Definition vfdotpex_s_r_b_exec : fp_handler := fun i f st => fp_result i (
  let* (r1, f) := lib_flexfloat_cvt_ff_ff_round (Z.land (REG_GET i 0 st) 0xff) 5 2 8 23 0 f in
  let* (r2, f) := lib_flexfloat_cvt_ff_ff_round (Z.land (REG_GET i 1 st) 0xff) 5 2 8 23 0 f in
  let* (r3, f) := lib_flexfloat_cvt_ff_ff_round (Z.shiftr (REG_GET i 0 st) 8) 5 2 8 23 0 f in
  let* (r4, f) := lib_flexfloat_cvt_ff_ff_round (Z.land (REG_GET i 1 st) 0xff) 5 2 8 23 0 f in
  let* (r5, f) := lib_flexfloat_cvt_ff_ff_round (Z.shiftr (REG_GET i 0 st) 16) 5 2 8 23 0 f in
  let* (r6, f) := lib_flexfloat_cvt_ff_ff_round (Z.land (REG_GET i 1 st) 0xff) 5 2 8 23 0 f in
  let* (r7, f) := lib_flexfloat_cvt_ff_ff_round (Z.shiftr (REG_GET i 0 st) 24) 5 2 8 23 0 f in
  let* (r8, f) := lib_flexfloat_cvt_ff_ff_round (Z.land (REG_GET i 1 st) 0xff) 5 2 8 23 0 f in
  let* (r9, f) := lib_flexfloat_mul_round (u32 r7) (u32 r8) 8 23 0 f in
  let* (r10, f) := lib_flexfloat_madd_round (u32 r5) (u32 r6) r9 8 23 0 f in
  let* (r11, f) := lib_flexfloat_madd_round (u32 r3) (u32 r4) r10 8 23 0 f in
  let* (r12, f) := lib_flexfloat_madd_round (u32 r1) (u32 r2) r11 8 23 0 f in
  Some (r12, f)) st.
Definition vfavg_b_exec : fp_handler := vec8_2 (fun a b => lib_flexfloat_avg_round a b 5 2 0).
Definition vfavg_r_b_exec : fp_handler := vec8_2r (fun a b => lib_flexfloat_avg_round a b 5 2 0).
End FloatInsns.
