(* ===== verification/FloatIsa.v ===== *)
(** * The floating-point instructions, as the instruction set defines them

    Comparisons and sign injections in the four formats, on the handlers of FloatInsns.v. *)

From S2P Require Import Prelude Io Memory IsaInt Rv32 HostFloat FlexFloat FloatLib FloatFacts FloatRound FloatInsns.

(** ** The order of the doubles *)

Lemma d_key_val x y : d_mag x < D_INF -> d_mag y < D_INF ->
  (d_key x =? d_key y) = (d_val x =? d_val y) /\ (d_key x <? d_key y) = (d_val x <? d_val y) /\ (d_key x <=? d_key y) = (d_val x <=? d_val y).
Proof.
  intros Hx Hy. unfold d_key, d_val. unfold D_INF in *.
  assert (0 <= d_mag x) as Hx0 by (apply Z.mod_pos_bound; lia). assert (0 <= d_mag y) as Hy0 by (apply Z.mod_pos_bound; lia).
  set (a := d_mag x) in *. set (b := d_mag y) in *.
  pose proof (mag_mono_le 0 a ltac:(lia) ltac:(lia)) as Ha. pose proof (mag_mono_le 0 b ltac:(lia) ltac:(lia)) as Hb.
  change (mag 0) with 0 in Ha, Hb.
  assert (a = 0 -> mag a = 0) as Ha0 by (intros ->; done). assert (b = 0 -> mag b = 0) as Hb0 by (intros ->; done).
  assert (0 < a -> 0 < mag a) as Ha1 by (intros H; exact (mag_mono 0 a ltac:(lia) ltac:(lia))).
  assert (0 < b -> 0 < mag b) as Hb1 by (intros H; exact (mag_mono 0 b ltac:(lia) ltac:(lia))).
  assert (a < b -> mag a < mag b) as Hab by (intros H; apply mag_mono; lia).
  assert (b < a -> mag b < mag a) as Hba by (intros H; apply mag_mono; lia).
  assert (a = b -> mag a = mag b) as Heq by congruence.
  generalize dependent (mag a). generalize dependent (mag b). intros mb Hb Hb0 Hb1 ma Ha Ha0 Ha1 Hab Hba Heq.
  unfold signed. destruct (d_sign x), (d_sign y); repeat split; bcases.
Qed.

(** ** A sign put on a number *)

Section Format.
Context (e m : Z).
Hypothesis format : 2 <= e <= 8 /\ 2 <= m <= 23.

Lemma exp_of_fmt x : exp_of x e m = fmt_exp e m x.
Proof. unfold exp_of, fmt_exp. by rewrite land_low, Z.shiftr_div_pow2 by lia. Qed.

Lemma frac_of_fmt x : frac_of x m = fmt_frac m x.
Proof. unfold frac_of. by rewrite land_low by lia. Qed.

Lemma sign_of_fmt x : sign_of x e m = Z.b2z (fmt_sign e m x).
Proof.
  unfold sign_of, fmt_sign. change 0x1 with (Z.shiftl 1 1 - 1). rewrite land_low, Z.shiftr_div_pow2 by lia.
  change (2 ^ 1) with 2. rewrite (Z.add_comm m e). symmetry. apply Z.testbit_spec'. lia.
Qed.

Definition fmt_nan (x : Z) : bool := (fmt_exp e m x =? fmt_top e) && negb (fmt_frac m x =? 0).
Lemma is_nan_fmt x : is_nan x e m = fmt_nan x.
Proof.
  unfold is_nan, IsNan, fmt_nan. rewrite exp_of_fmt, frac_of_fmt, Z.shiftl_1_l. fold (fmt_top e).
  destruct (_ && _); [|done]. by destruct (Z.land _ _ =? 0).
Qed.

(** The number with the sign [s], extended to the register. *)
Definition signed_bits (s : bool) (x : Z) : Z := u32 (sw (e + m + 1) ((if s then 2 ^ (e + m) else 0) + x mod 2 ^ (e + m))).
Lemma with_sign_spec s x : with_sign x (Z.b2z s) e m = signed_bits s x.
Proof.
  unfold with_sign, signed_bits. rewrite (Z.add_comm m e), land_low, Z.shiftl_mul_pow2 by lia. set (n := e + m).
  assert (4 <= n <= 31) as Hn by lia. pose proof (Z.mod_pos_bound x (2 ^ n) ltac:(lia)) as Hx. set (y := x mod 2 ^ n) in *.
  pose proof (Z.pow_le_mono_r 2 n 31 ltac:(lia) ltac:(lia)) as Hle.
  rewrite (uw_small 32) by (destruct s; cbn [Z.b2z]; lia). rewrite Z.mul_comm, lor_high by lia.
  assert (y + 2 ^ n * Z.b2z s = (if s then 2 ^ n else 0) + y) as -> by (destruct s; cbn [Z.b2z]; lia).
  set (z := _ + y). assert (0 <= z < 2 ^ (n + 1)) as Hz by (rewrite pow_split by lia; unfold z; destruct s; lia).
  assert (sw (n + 1) z = (if s then - 2 ^ n else 0) + y) as ->.
  { unfold sw. rewrite uw_small by done. rewrite pow_split, Z.add_simpl_r in * by lia. change (2 ^ 1) with 2 in *. unfold z. destruct s; bcases. }
  unfold DoExtend. rewrite (Z.add_comm m e). fold n. destruct (Z.eqb_spec n 31) as [->|Hne].
  - unfold z. destruct s; [|symmetry; apply uw_small; lia]. apply (Z.mod_unique _ _ (-1)); lia.
  - change 0x1 with (Z.shiftl 1 0). rewrite land_bit, Z.shiftr_spec by lia. rewrite Z.add_0_l.
    rewrite (testbit_top n) by (rewrite pow_split in Hz; lia). unfold z. destruct s.
    + rewrite (proj2 (Z.leb_le _ _)) by lia. rewrite Z.shiftl_mul_pow2 by lia.
      replace (u32 (-1 * 2 ^ n)) with (2 ^ n * (2 ^ (32 - n) - 1)).
      2: { assert (2 ^ 32 = 2 ^ n * 2 ^ (32 - n)) by (rewrite <- pow_split by lia; f_equal; lia). apply (Z.mod_unique _ _ (-1)); nia. }
      assert (2 ^ (32 - n) = 2 * 2 ^ (31 - n)) as H32 by (replace (32 - n) with (1 + (31 - n)) by lia; by rewrite pow_split by lia).
      assert (2 ^ 32 = 2 ^ n * (2 * 2 ^ (31 - n))) as H by (rewrite <- H32, <- pow_split by lia; f_equal; lia).
      replace (2 ^ n + y) with (y + 2 ^ n * 1) by lia. rewrite <- lor_high, <- Z.lor_assoc by lia.
      rewrite !(Z.mul_comm (2 ^ n)), <- !Z.shiftl_mul_pow2, <- Z.shiftl_lor by lia. rewrite H32.
      replace (2 * 2 ^ (31 - n) - 1) with (1 + 2 ^ 1 * (2 ^ (31 - n) - 1)) by lia.
      rewrite <- (lor_high 1) by lia. rewrite Z.lor_assoc, Z.lor_diag, lor_high by lia. rewrite Z.shiftl_mul_pow2, Z.mul_comm, lor_high by lia.
      apply (Z.mod_unique _ _ (-1)); nia.
    + rewrite (proj2 (Z.leb_gt _ _)) by lia. symmetry. apply uw_small. lia.
Qed.
End Format.

(** ** The comparison of two operands *)

Section Compare.
Context (e m : Z).
Hypothesis format : 2 <= e <= 8 /\ 2 <= m <= 23.

Lemma fmt_nan_finite x : fmt_exp e m x <> fmt_top e -> fmt_nan e m x = false.
Proof. intros Hx. unfold fmt_nan. by rewrite (proj2 (Z.eqb_neq _ _)) by done. Qed.

Lemma compare_nan rel a b f : fmt_nan e m a || fmt_nan e m b = true -> compare rel a b e m f = Some (0, f).
Proof. intros H. unfold compare. by rewrite !(is_nan_fmt e m format), H. Qed.

Lemma compare_finite rel vrel a b f : fmt_exp e m a <> fmt_top e -> fmt_exp e m b <> fmt_top e ->
  (forall x y, d_mag (value x) < D_INF -> d_mag (value y) < D_INF -> rel x y = vrel (d_val (value x)) (d_val (value y))) ->
  compare rel a b e m f = Some (Z.b2z (vrel (fmt_val e m a) (fmt_val e m b)), after false f).
Proof.
  intros Ha Hb Hrel. unfold compare. rewrite !(is_nan_fmt e m format), !fmt_nan_finite by done. cbn [orb].
  destruct (operand e m format a Ha) as (_ & Ia & _ & _ & Va), (operand e m format b Hb) as (_ & Ib & _ & _ & Vb).
  rewrite Hrel by done. by rewrite Va, Vb.
Qed.
End Compare.

Lemma host_order x y : d_mag (value x) < D_INF -> d_mag (value y) < D_INF ->
  ff_eq x y = (d_val (value x) =? d_val (value y)) /\ ff_lt x y = (d_val (value x) <? d_val (value y)) /\
  ff_le x y = (d_val (value x) <=? d_val (value y)).
Proof.
  intros Hx Hy. destruct (d_key_val _ _ Hx Hy) as (He & Hl & Hle). unfold ff_eq, ff_lt, ff_le, d_eq, d_lt, d_le, d_is_nan.
  rewrite !(proj2 (Z.ltb_ge _ _)) by lia. by rewrite He, Hl, Hle.
Qed.

(** ** The handlers *)

Section FloatIsa.
Context {S : Type} (regs : Z).
#[local] Notation REG_GET := (REG_GET regs).
#[local] Notation REG_SET := (REG_SET regs).

Definition comparisons : list (fp_handler (S := S) * Z * Z * (Z -> Z -> bool)) :=
  [(feq_s_exec regs, 8, 23, Z.eqb); (flt_s_exec regs, 8, 23, Z.ltb); (fle_s_exec regs, 8, 23, Z.leb);
   (feq_h_exec regs, 5, 10, Z.eqb); (flt_h_exec regs, 5, 10, Z.ltb); (fle_h_exec regs, 5, 10, Z.leb);
   (feq_ah_exec regs, 8, 7, Z.eqb); (flt_ah_exec regs, 8, 7, Z.ltb); (fle_ah_exec regs, 8, 7, Z.leb);
   (feq_b_exec regs, 5, 2, Z.eqb); (flt_b_exec regs, 5, 2, Z.ltb); (fle_b_exec regs, 5, 2, Z.leb)].

Definition injections : list (fp_handler (S := S) * Z * Z * (bool -> bool -> bool)) :=
  [(fsgnj_s_exec regs, 8, 23, fun _ s => s); (fsgnjn_s_exec regs, 8, 23, fun _ s => negb s); (fsgnjx_s_exec regs, 8, 23, xorb);
   (fsgnj_h_exec regs, 5, 10, fun _ s => s); (fsgnjn_h_exec regs, 5, 10, fun _ s => negb s); (fsgnjx_h_exec regs, 5, 10, xorb);
   (fsgnj_ah_exec regs, 8, 7, fun _ s => s); (fsgnjn_ah_exec regs, 8, 7, fun _ s => negb s); (fsgnjx_ah_exec regs, 8, 7, xorb);
   (fsgnj_b_exec regs, 5, 2, fun _ s => s); (fsgnjn_b_exec regs, 5, 2, fun _ s => negb s); (fsgnjx_b_exec regs, 5, 2, xorb)].

(** What an instruction does: [spec] of its two operands, to its register, and to the state of the floating-point unit. *)
Definition does (h : fp_handler (S := S)) (spec : Z -> Z -> fpu -> Z * fpu) : Prop := forall i f st,
  let r := spec (REG_GET i 0 st) (REG_GET i 1 st) f in h i f st = Some (i_next i, snd r, REG_SET i 0 (fst r) st).

Lemma fp2_does op spec : (forall a b f, op a b f = Some (spec a b f)) -> does (fp2 regs op) spec.
Proof. intros H i f st r. unfold fp2, fp_result. rewrite H. fold r. by destruct r. Qed.

(** The specification of a sign injection. *)
Definition sgnj_spec (e m : Z) (rule : bool -> bool -> bool) (a b : Z) (f : fpu) : Z * fpu :=
  (signed_bits e m (rule (fmt_sign e m a) (fmt_sign e m b)) a, f).

Lemma sgnj_does e m : 2 <= e <= 8 /\ 2 <= m <= 23 ->
  does (fp2 regs (fun a b => lib_flexfloat_sgnj a b e m)) (sgnj_spec e m (fun _ s => s)) /\
  does (fp2 regs (fun a b => lib_flexfloat_sgnjn a b e m)) (sgnj_spec e m (fun _ s => negb s)) /\
  does (fp2 regs (fun a b => lib_flexfloat_sgnjx a b e m)) (sgnj_spec e m xorb).
Proof.
  intros Hf. unfold sgnj_spec. split; [|split]; apply fp2_does; intros a b f; rewrite <- with_sign_spec by done;
    unfold lib_flexfloat_sgnj, lib_flexfloat_sgnjn, lib_flexfloat_sgnjx; rewrite !(sign_of_fmt e m Hf).
  - done.
  - by destruct (fmt_sign e m b).
  - by destruct (fmt_sign e m a), (fmt_sign e m b).
Qed.

Lemma compare_does e m : 2 <= e <= 8 /\ 2 <= m <= 23 -> forall i f (st : iss (S := S)) rel vrel,
  (forall x y, d_mag (value x) < D_INF -> d_mag (value y) < D_INF -> rel x y = vrel (d_val (value x)) (d_val (value y))) ->
  let a := REG_GET i 0 st in let b := REG_GET i 1 st in let h := fp2 regs (fun a b => compare rel a b e m) in
  (fmt_exp e m a <> fmt_top e -> fmt_exp e m b <> fmt_top e ->
   h i f st = Some (i_next i, after false f, REG_SET i 0 (Z.b2z (vrel (fmt_val e m a) (fmt_val e m b))) st)) /\
  (fmt_nan e m a || fmt_nan e m b = true -> h i f st = Some (i_next i, f, REG_SET i 0 0 st)).
Proof.
  intros Hf i f st rel vrel Hrel a b h. unfold h, fp2, fp_result. fold a b. split.
  - intros Ha Hb. by rewrite (compare_finite e m Hf rel vrel).
  - intros Hn. by rewrite (compare_nan e m Hf).
Qed.

(** The twelve sign injections: the register gets the first operand with, as its sign, that of the second one, its opposite, or
    the exclusive or of both, extended to the width of the register (NaNs, infinities and the unused high bits of the
    operands included); the flags do not change. *)
Theorem sign_injections_isa h e m rule : In (h, e, m, rule) injections ->
  does h (sgnj_spec e m rule).
Proof.
  intros H. repeat destruct H as [H|H]; [..|destruct H]; injection H as <- <- <- <-;
    match goal with |- does _ (sgnj_spec ?e ?m _) => destruct (sgnj_does e m ltac:(lia)) as (H1 & H2 & H3) end;
    first [exact H1|exact H2|exact H3].
Qed.

(** C22: The twelve comparisons: when neither operand is an infinity or a NaN, the register gets 1 when the numbers that the bits
    stand for are equal, in order, or in order or equal, and 0 otherwise, although the doubles that keep them are what is compared
    (zeros of both signs and subnormal numbers included); no flag is raised.  With a NaN, the register gets 0. *)
Theorem comparisons_isa h e m rel : In (h, e, m, rel) comparisons -> forall i f (st : iss (S := S)),
  let a := REG_GET i 0 st in let b := REG_GET i 1 st in
  (fmt_exp e m a <> fmt_top e -> fmt_exp e m b <> fmt_top e ->
   h i f st = Some (i_next i, after false f, REG_SET i 0 (Z.b2z (rel (fmt_val e m a) (fmt_val e m b))) st)) /\
  (fmt_nan e m a || fmt_nan e m b = true -> h i f st = Some (i_next i, f, REG_SET i 0 0 st)).
Proof.
  intros H i f st a b. repeat destruct H as [H|H]; [..|destruct H]; injection H as <- <- <- <-;
    match goal with |- context [fmt_exp ?e ?m _] => pose proof (compare_does e m ltac:(lia) i f st) as Hc end.
  all: first [exact (Hc ff_eq Z.eqb (fun x y Hx Hy => proj1 (host_order x y Hx Hy)))
             |exact (Hc ff_lt Z.ltb (fun x y Hx Hy => proj1 (proj2 (host_order x y Hx Hy))))
             |exact (Hc ff_le Z.leb (fun x y Hx Hy => proj2 (proj2 (host_order x y Hx Hy))))].
Qed.
End FloatIsa.

(** The single-precision comparison of two registers, and the half-precision negation of one. *)
Lemma comparisons_isa_witness :
  flt_s_exec 5000 (demo_insn 0 7 5 0) fpu0 demo_iss =
    Some (i_next (demo_insn 0 7 5 0), after false fpu0,
          REG_SET 5000 (demo_insn 0 7 5 0) 0
            (Z.b2z (fmt_val 8 23 (get_reg 5000 demo_iss 0) <? fmt_val 8 23 (get_reg 5000 demo_iss 7))) demo_iss).
Proof.
  assert (In (flt_s_exec (S := memory) 5000, 8, 23, Z.ltb) (comparisons 5000)) as Hin by (right; left; reflexivity).
  destruct (comparisons_isa 5000 (flt_s_exec 5000) 8 23 Z.ltb Hin (demo_insn 0 7 5 0) fpu0 demo_iss) as [H _].
  apply H; vm_compute; intros Hx; discriminate Hx.
Defined.

Lemma sign_injections_isa_witness :
  In (fsgnjn_h_exec (S := memory) 5000, 5, 10, fun _ s => negb s) (injections 5000) /\
  fsgnjn_h_exec 5000 (demo_insn 6 6 5 0) fpu0 demo_iss =
    Some (i_next (demo_insn 6 6 5 0), fpu0,
          REG_SET 5000 (demo_insn 6 6 5 0) 0 (signed_bits 5 10 (negb (fmt_sign 5 10 (get_reg 5000 demo_iss 6))) (get_reg 5000 demo_iss 6)) demo_iss).
Proof.
  assert (In (fsgnjn_h_exec (S := memory) 5000, 5, 10, fun (_ s : bool) => negb s) (injections 5000)) as Hin by (do 4 right; left; reflexivity).
  split; [exact Hin|]. exact (sign_injections_isa 5000 (fsgnjn_h_exec 5000) 5 10 (fun _ s => negb s) Hin (demo_insn 6 6 5 0) fpu0 demo_iss).
Defined.
