(* ===== verification/CircBuf.v ===== *)
(** Circular character buffer of the GDB server (models/gdbserver/circular-buffer.cpp, .hpp).

    The buffer hands out blocks: [write_block] and [read_block] give the address and the length of the
    contiguous free or pending bytes, the client copies, then commits. [contents] is the abstract queue;
    the lemmas of this file say what each operation does to it. *)

From S2P Require Import Prelude.

(** ** State: [cells] is [buf] (of [max_size] characters), an address is an offset in it, [None] is NULL. *)
Record cbuf := CBuf { cells : list Z; head : nat; tail : nat; full : bool }.

Definition max_size (b : cbuf) : nat := length (cells b).
Definition new_cbuf (size : nat) : cbuf := CBuf (replicate size 0) 0 0 false.

Definition block : Type := option nat * nat.

(** ** Operations *)
Definition reset (b : cbuf) : cbuf := CBuf (cells b) 0 0 false.
Definition is_empty (b : cbuf) : bool := (head b =? tail b)%nat && negb (full b).
Definition is_full (b : cbuf) : bool := full b.

Definition size (b : cbuf) : nat :=
  if full b then max_size b
  else if (head b <=? tail b)%nat then tail b - head b else max_size b - head b + tail b.

Definition available (b : cbuf) : nat := max_size b - size b.

Definition commit_write (l : nat) (b : cbuf) : cbuf :=
  if (0 <? l)%nat then
    let t := (tail b + l)%nat in
    let t := if (max_size b <=? t)%nat then (t - max_size b)%nat else t in
    CBuf (cells b) (head b) t (if (t =? head b)%nat then true else full b)
  else b.

Definition write_block (b : cbuf) : block * cbuf :=
  if is_empty b then ((Some 0%nat, max_size b), CBuf (cells b) 0 0 (full b))
  else if is_full b then ((None, 0%nat), b)
  else if (tail b <? head b)%nat then ((Some (tail b), (head b - tail b)%nat), b)
  else ((Some (tail b), (max_size b - tail b)%nat), b).

Definition commit_read (l : nat) (b : cbuf) : cbuf :=
  if (0 <? l)%nat then
    let h := (head b + l)%nat in
    let h := if (max_size b <=? h)%nat then (h - max_size b)%nat else h in
    CBuf (cells b) h (tail b) false
  else b.

Definition read_block (b : cbuf) : block :=
  if is_empty b then (None, 0%nat)
  else if (tail b <=? head b)%nat then (Some (head b), (max_size b - head b)%nat)
  else (Some (head b), (tail b - head b)%nat).

(** memcpy to the block and the bytes of a block. *)
Definition fill (blk : block) (s : list Z) (b : cbuf) : cbuf :=
  match blk.1 with
  | Some p => CBuf (list_inserts p s (cells b)) (head b) (tail b) (full b)
  | None => b
  end.
Definition bytes (blk : block) (b : cbuf) : list Z :=
  match blk.1 with Some p => take blk.2 (drop p (cells b)) | None => [] end.

(** Loop of [write_copy]: each turn copies from the start of [s], and to [l] characters of it; [None]
    when the copy reads past [s]. *)
Fixpoint write_copy_loop (fuel : nat) (s : list Z) (copied : nat) (b : cbuf) : outcome (nat * cbuf) :=
  match fuel with
  | O => OutOfFuel
  | S fuel =>
      if (copied <? length s)%nat && negb (full b) then
        let (blk, b) := write_block b in
        if (blk.2 <=? 0)%nat then Done (copied, b)
        else
          let to_copy := Nat.min (length s) blk.2 in
          write_copy_loop fuel s (copied + to_copy) (commit_write to_copy (fill blk (take to_copy s) b))
      else Done (copied, b)
  end.
Definition write_copy (s : list Z) (b : cbuf) : outcome (nat * cbuf) := write_copy_loop (S (length s)) s 0 b.

(** Loop of [read_copy] to the [l] characters at [s]: each turn copies to the start of [s]. *)
Fixpoint read_copy_loop (fuel : nat) (s : list Z) (copied : nat) (b : cbuf) : outcome (nat * list Z * cbuf) :=
  match fuel with
  | O => OutOfFuel
  | S fuel =>
      if (copied <? length s)%nat && (0 <? size b)%nat then
        let blk := read_block b in
        let to_copy := Nat.min (length s) blk.2 in
        read_copy_loop fuel (list_inserts 0 (take to_copy (bytes blk b)) s) (copied + to_copy) (commit_read to_copy b)
      else Done (copied, s, b)
  end.
Definition read_copy (s : list Z) (b : cbuf) : outcome (nat * list Z * cbuf) := read_copy_loop (S (length s)) s 0 b.

(** ** The queue a buffer holds *)
Definition contents (b : cbuf) : list Z :=
  if is_empty b then []
  else if (head b <? tail b)%nat then take (tail b - head b) (drop (head b) (cells b))
  else drop (head b) (cells b) ++ take (tail b) (cells b).

Record wf (b : cbuf) : Prop := {
  wf_head : (head b < max_size b)%nat;
  wf_tail : (tail b < max_size b)%nat;
  wf_full : full b = true -> head b = tail b
}.

(** What a client of the buffer does: the characters it writes to the block, then commits. *)
Definition produce (s : list Z) (b : cbuf) : cbuf :=
  let (blk, b) := write_block b in commit_write (length s) (fill blk s b).

(** ** Lemmas *)

(** Case analysis on the comparisons of indices. *)
Ltac ncase :=
  match goal with
  | |- context [(?a <? ?b)%nat] => destruct (Nat.ltb_spec a b)
  | |- context [(?a <=? ?b)%nat] => destruct (Nat.leb_spec a b)
  | |- context [(?a =? ?b)%nat] => destruct (Nat.eqb_spec a b)
  end.
Ltac ncases := repeat (ncase; simpl in *; try done; try lia); try done; try lia.

Lemma new_wf n : (0 < n)%nat -> wf (new_cbuf n) /\ contents (new_cbuf n) = [].
Proof. intros Hn. repeat split; simpl; unfold max_size; simpl; rewrite ?length_replicate; done. Qed.

Lemma is_empty_spec b : is_empty b = true <-> head b = tail b /\ full b = false.
Proof. unfold is_empty. rewrite andb_true_iff, Nat.eqb_eq, negb_true_iff. done. Qed.

Lemma size_le b : wf b -> (size b <= max_size b)%nat.
Proof. intros [Hh Ht Hf]. unfold size. destruct (full b); ncases. Qed.

Lemma size_empty b : wf b -> size b = 0%nat <-> is_empty b = true.
Proof.
  intros [Hh Ht Hf]. rewrite is_empty_spec. unfold size. destruct (full b) eqn:E.
  - split; [lia|]. intros [_ ?]. done.
  - ncases; intuition lia.
Qed.

Lemma lookup_wrap {A} (l : list A) (h t i : nat) : (h < length l)%nat -> (t <= h)%nat ->
  (drop h l ++ take t l) !! i =
  if (i <? length l - h + t)%nat then l !! (if (h + i <? length l)%nat then h + i else h + i - length l)%nat else None.
Proof.
  intros Hh Ht. destruct (Nat.lt_ge_cases i (length l - h)) as [Hi|Hi].
  - rewrite lookup_app_l, lookup_drop by (rewrite length_drop; lia). ncases.
  - rewrite lookup_app_r, length_drop by (rewrite length_drop; lia). ncases.
    + rewrite lookup_take_lt by lia. f_equal. lia.
    + apply lookup_take_ge. lia.
Qed.

(** The character at place [i] of the queue is the one [i] cells after the head, modulo the capacity. *)
Lemma lookup_contents b (i : nat) : wf b ->
  contents b !! i =
  if (i <? size b)%nat then cells b !! (if (head b + i <? max_size b)%nat then head b + i else head b + i - max_size b)%nat
  else None.
Proof.
  intros Hw. destruct (is_empty b) eqn:E.
  - unfold contents. rewrite E. apply (size_empty b Hw) in E. rewrite E. done.
  - assert (head b = tail b -> full b = true) as Hne.
    { intros Hht. destruct (full b) eqn:Ef; [done|]. rewrite (proj2 (is_empty_spec b)) in E by done. done. }
    destruct Hw as [Hh Ht Hf]. unfold contents, size, max_size in *. rewrite E.
    destruct (Nat.ltb_spec (head b) (tail b)) as [Hl|Hl].
    + destruct (full b) eqn:Ef; [specialize (Hf eq_refl); lia|].
      destruct (Nat.leb_spec (head b) (tail b)); [|lia].
      destruct (Nat.ltb_spec i (tail b - head b)).
      * rewrite lookup_take_lt, lookup_drop by lia. ncases.
      * apply lookup_take_ge. lia.
    + rewrite lookup_wrap by lia. destruct (full b) eqn:Ef.
      * rewrite (Hf eq_refl). ncases.
      * destruct (Nat.leb_spec (head b) (tail b)); [|done]. assert (head b = tail b) as Heq by lia.
        by specialize (Hne Heq).
Qed.

Lemma length_contents b : wf b -> length (contents b) = size b.
Proof.
  intros Hw. pose proof (size_le b Hw) as Hs. apply Nat.le_antisymm.
  - apply lookup_ge_None. rewrite lookup_contents by done. rewrite Nat.ltb_irrefl. done.
  - apply Nat.nlt_ge. intros Hc. assert (contents b !! length (contents b) = None) as Hn by by apply lookup_ge_None.
    rewrite lookup_contents in Hn by done. rewrite (proj2 (Nat.ltb_lt _ _) Hc) in Hn. apply lookup_ge_None in Hn.
    destruct Hw as [Hh Ht Hf]. unfold max_size in *.
    destruct (Nat.ltb_spec (head b + length (contents b)) (length (cells b))); lia.
Qed.

Lemma contents_nil b : wf b -> contents b = [] <-> is_empty b = true.
Proof.
  intros Hw. rewrite <- size_empty, <- length_contents by done. split; [by intros ->|]. apply nil_length_inv.
Qed.

(** A block of pending characters is a prefix of the queue, empty only when the queue is. *)
Lemma read_block_le b : wf b -> ((read_block b).2 <= size b)%nat.
Proof.
  intros Hw. destruct (is_empty b) eqn:E; unfold read_block; rewrite E; simpl; [lia|].
  assert (head b = tail b -> full b = true) as Hne.
  { intros Hht. destruct (full b) eqn:Ef; [done|]. rewrite (proj2 (is_empty_spec b)) in E by done. done. }
  destruct Hw as [Hh Ht Hf]. unfold size, max_size in *. destruct (full b); ncases.
Qed.

Lemma read_block_pos b : wf b -> contents b <> [] -> (0 < (read_block b).2)%nat.
Proof.
  intros Hw Hc. rewrite contents_nil in Hc by done. apply not_true_is_false in Hc. destruct Hw as [Hh Ht Hf].
  unfold read_block, max_size in *. rewrite Hc. ncases.
Qed.

Lemma read_block_bytes b : wf b -> bytes (read_block b) b = take (read_block b).2 (contents b).
Proof.
  intros Hw. pose proof (read_block_le b Hw) as Hle. apply list_eq. intros i.
  destruct (Nat.lt_ge_cases i (read_block b).2) as [Hi|Hi].
  - rewrite (lookup_take_lt (contents b)), lookup_contents by done. destruct Hw as [Hh Ht Hf].
    destruct (Nat.ltb_spec i (size b)); [|lia]. unfold read_block, bytes, max_size in *.
    destruct (is_empty b); simpl in *; [lia|].
    destruct (Nat.leb_spec (tail b) (head b)); simpl in *; rewrite lookup_take_lt, lookup_drop by lia; ncases.
  - rewrite (lookup_take_ge (contents b)) by done. unfold bytes. destruct (read_block b).1; [|done].
    by apply lookup_take_ge.
Qed.

Lemma length_read_block b : wf b -> length (bytes (read_block b) b) = (read_block b).2.
Proof.
  intros Hw. rewrite read_block_bytes, length_take, length_contents by done. pose proof (read_block_le b Hw). lia.
Qed.

(** Committing a read of a part of the block drops it from the queue. *)
Lemma commit_read_ok l b : wf b -> (l <= (read_block b).2)%nat ->
  wf (commit_read l b) /\ contents (commit_read l b) = drop l (contents b).
Proof.
  intros Hw Hl. destruct l as [|l]; [by split|]. pose proof (read_block_le b Hw) as Hle.
  assert (wf (commit_read (S l) b)) as Hw'.
  { destruct Hw as [Hh Ht Hf]. unfold read_block, commit_read, max_size in *. simpl.
    split; simpl; unfold max_size; simpl; try done. destruct (is_empty b); simpl in *; [lia|].
    destruct (Nat.leb_spec (tail b) (head b)); simpl in *; ncases. }
  split; [done|]. apply list_eq. intros i. rewrite lookup_drop, !lookup_contents by done.
  assert (size (commit_read (S l) b) = size b - S l)%nat as ->.
  { destruct Hw as [Hh Ht Hf]. unfold read_block, size, commit_read, max_size in *. simpl.
    destruct (is_empty b) eqn:E; simpl in *; [lia|]. destruct (full b) eqn:Ef.
    - specialize (Hf eq_refl). destruct (Nat.leb_spec (tail b) (head b)); simpl in *; ncases.
    - assert (head b <> tail b) by (intros Hht; rewrite (proj2 (is_empty_spec b)) in E by done; done).
      destruct (Nat.leb_spec (tail b) (head b)); simpl in *; ncases. }
  destruct Hw as [Hh Ht Hf]. pose proof (size_le b ltac:(done)) as Hsz.
  assert (S l + head b <= max_size b)%nat as Hblk.
  { unfold read_block in Hl. destruct (is_empty b); simpl in *; [lia|].
    destruct (Nat.leb_spec (tail b) (head b)); simpl in *; lia. }
  destruct (Nat.ltb_spec i (size b - S l)); destruct (Nat.ltb_spec (S l + i) (size b)); try lia; try done.
  unfold commit_read, max_size in *. simpl. f_equal. ncases.
Qed.

(** The free block: its address and length. *)
Lemma write_block_wf b : wf b -> wf (write_block b).2 /\ contents (write_block b).2 = contents b.
Proof.
  intros Hw. unfold write_block. destruct (is_empty b) eqn:E.
  - pose proof (proj1 (is_empty_spec b) E) as [He Hf]. split.
    + destruct Hw as [Hh Ht _]. split; simpl; unfold max_size in *; simpl; [lia..|done].
    + unfold contents. rewrite E. unfold is_empty. simpl. rewrite Hf. done.
  - destruct (is_full b); [done|]. destruct (_ <? _)%nat; done.
Qed.

Lemma write_block_pos b : wf b -> (0 < (write_block b).1.2)%nat <-> full b = false.
Proof.
  intros [Hh Ht Hf]. unfold write_block, is_full. destruct (is_empty b) eqn:E; simpl.
  - apply is_empty_spec in E as [_ ->]. split; [done|lia].
  - destruct (full b); simpl; [split; [lia|done]|]. ncases.
Qed.

(** Writing a part of the free block and committing it appends it to the queue. *)
Lemma lookup_fill p s b (i : nat) : (p + length s <= max_size b)%nat ->
  list_inserts p s (cells b) !! i =
  if (p <=? i)%nat && (i <? p + length s)%nat then s !! (i - p)%nat else cells b !! i.
Proof.
  unfold max_size. intros Hp. destruct (Nat.leb_spec p i), (Nat.ltb_spec i (p + length s)); simpl;
    first [apply list_lookup_inserts; lia | apply list_lookup_inserts_ge; lia | apply list_lookup_inserts_lt; lia].
Qed.

Lemma commit_write_fill s b : wf b -> full b = false ->
  (length s <= if (tail b <? head b)%nat then head b - tail b else max_size b - tail b)%nat ->
  (head b = tail b -> tail b = 0)%nat ->
  let b' := commit_write (length s) (CBuf (list_inserts (tail b) s (cells b)) (head b) (tail b) false) in
  wf b' /\ contents b' = contents b ++ s /\ max_size b' = max_size b.
Proof.
  intros Hw Hfl Hl H0 b'. assert (max_size b' = max_size b) as Hm.
  { unfold b', commit_write. destruct (0 <? length s)%nat; apply length_inserts. }
  assert (head b' = head b) as Hh' by (unfold b', commit_write; destruct (0 <? length s)%nat; done).
  assert (cells b' = list_inserts (tail b) s (cells b)) as Hc' by (unfold b', commit_write; destruct (0 <? length s)%nat; done).
  assert (tail b' = if (max_size b <=? tail b + length s)%nat then tail b + length s - max_size b else tail b + length s)%nat as Ht'.
  { destruct Hw as [Hh Ht _]. unfold b', commit_write in *. unfold max_size in *. simpl. rewrite length_inserts.
    destruct (Nat.ltb_spec 0 (length s)); simpl; ncases. }
  assert (full b' = (0 <? length s)%nat && (tail b' =? head b)%nat) as Hf'.
  { rewrite Ht'. unfold b', commit_write. unfold max_size. simpl. rewrite length_inserts. destruct (0 <? length s)%nat; simpl; [|done].
    destruct (_ =? _)%nat; done. }
  clearbody b'. destruct Hw as [Hh Ht Hf] eqn:E. clear E.
  assert (wf b') as Hw'.
  { split; rewrite ?Hm, ?Hh', ?Ht', ?Hf'; [done| |].
    - destruct (Nat.ltb_spec (tail b) (head b)); ncases.
    - rewrite andb_true_iff, Nat.eqb_eq, Ht'. intros [_ ->]. done. }
  assert (size b' = size b + length s)%nat as Hs.
  { unfold size. rewrite Hf', Hh', Ht', Hm, Hfl. destruct (Nat.ltb_spec (tail b) (head b)); ncases. }
  split; [done|]. split; [|done]. apply list_eq. intros i.
  assert (size b = if (head b <=? tail b)%nat then tail b - head b else max_size b - head b + tail b)%nat as Hsb
    by (unfold size; by rewrite Hfl).
  assert (tail b + length s <= max_size b)%nat as Hfit by (destruct (Nat.ltb_spec (tail b) (head b)); lia).
  rewrite lookup_contents, Hs, Hm, Hh', Hc', lookup_fill by done. clear Hw' Hs Hm Hh' Ht' Hf' Hc' Hf.
  destruct (Nat.lt_ge_cases i (size b)) as [Hi|Hi].
  - rewrite lookup_app_l, lookup_contents by (done || by rewrite length_contents).
    destruct (Nat.ltb_spec i (size b)), (Nat.ltb_spec i (size b + length s)); try lia.
    destruct (Nat.leb_spec (head b) (tail b)), (Nat.ltb_spec (tail b) (head b)); try lia; ncases.
  - rewrite lookup_app_r, length_contents by (done || by rewrite length_contents).
    destruct (Nat.ltb_spec i (size b + length s)) as [Hj|Hj]; [|symmetry; apply lookup_ge_None; lia].
    destruct (Nat.leb_spec (head b) (tail b)), (Nat.ltb_spec (tail b) (head b)); try lia; ncases; f_equal; lia.
Qed.

Lemma write_block_free b : wf b -> full b = false ->
  let b' := (write_block b).2 in
  full b' = false /\ max_size b' = max_size b /\ (head b' = tail b' -> tail b' = 0)%nat /\
  (write_block b).1 = (Some (tail b'), if (tail b' <? head b')%nat then head b' - tail b' else max_size b - tail b')%nat.
Proof.
  intros [Hh Ht Hf] Hfl. unfold write_block, is_full. destruct (is_empty b) eqn:E; simpl.
  - unfold max_size. simpl. by rewrite Nat.sub_0_r.
  - rewrite Hfl. assert (head b <> tail b) by (intros Hht; rewrite (proj2 (is_empty_spec b)) in E by done; done).
    destruct (tail b <? head b)%nat eqn:El; simpl; rewrite El; done.
Qed.

Lemma produce_ok s b : wf b -> (length s <= (write_block b).1.2)%nat ->
  wf (produce s b) /\ contents (produce s b) = contents b ++ s /\ max_size (produce s b) = max_size b.
Proof.
  intros Hw Hl. destruct (full b) eqn:Hfl.
  - pose proof (write_block_pos b Hw) as [H1 _]. rewrite Hfl in H1. destruct s; simpl in *; [|discriminate (H1 ltac:(lia))].
    unfold produce, write_block, is_full, is_empty. rewrite Hfl, andb_false_r. simpl. unfold commit_write, fill. simpl.
    by rewrite app_nil_r.
  - destruct (write_block_wf b Hw) as [Hw' Hc']. destruct (write_block_free b Hw Hfl) as (Hf' & Hm & H0 & Hb).
    unfold produce. destruct (write_block b) as [blk b'] eqn:E. simpl in *. subst blk. unfold fill. simpl in *.
    rewrite <- Hc', <- Hm. rewrite <- Hm in Hl. rewrite Hf'. apply commit_write_fill; done.
Qed.

(** ** The buffer as a queue *)

(** The two uses of the buffer, each limited to the block it got. *)
Inductive op :=
  | Produce (s : list Z)
  | Consume (l : nat).

(** Runs the operations: the characters consumed, in order, and the buffer; [None] when an operation
    goes past its block. *)
Fixpoint run (ops : list op) (b : cbuf) : option (list Z * cbuf) :=
  match ops with
  | [] => Some ([], b)
  | Produce s :: ops => if (length s <=? (write_block b).1.2)%nat then run ops (produce s b) else None
  | Consume l :: ops =>
      if (l <=? (read_block b).2)%nat then
        let* (out, b') := run ops (commit_read l b) in Some (take l (bytes (read_block b) b) ++ out, b')
      else None
  end.

Definition produced (ops : list op) : list Z :=
  concat (map (fun o => match o with Produce s => s | Consume _ => [] end) ops).

Lemma run_fifo ops : forall b out b', wf b -> run ops b = Some (out, b') ->
  wf b' /\ out ++ contents b' = contents b ++ produced ops /\ max_size b' = max_size b.
Proof.
  induction ops as [|[s|l] ops IH]; intros b out b' Hw Hr; simpl in Hr.
  - injection Hr as <- <-. by rewrite app_nil_r.
  - destruct (Nat.leb_spec (length s) (write_block b).1.2) as [Hl|]; [|done].
    destruct (produce_ok s b Hw Hl) as (Hw' & Hc & Hm). destruct (IH _ _ _ Hw' Hr) as (? & Ho & Hm').
    split; [done|]. rewrite Ho, Hc, Hm', Hm. unfold produced. simpl. by rewrite <- app_assoc.
  - destruct (Nat.leb_spec l (read_block b).2) as [Hl|]; [|done].
    destruct (commit_read_ok l b Hw Hl) as [Hw' Hc]. destruct (run ops _) as [[o b'']|] eqn:E; [|done].
    injection Hr as <- <-. destruct (IH _ _ _ Hw' E) as (? & Ho & Hm'). split; [done|].
    split; [|rewrite Hm'; unfold commit_read; by destruct (_ <? _)%nat].
    rewrite <- app_assoc, Ho, Hc, read_block_bytes, take_take, (Nat.min_l l) by done. rewrite app_assoc, take_drop. done.
Qed.

(** The circular buffer is a queue of characters: whatever the blocks its clients are given and the
    parts of them they commit, the characters consumed, followed by those pending, are the characters
    produced, in order; and a buffer never holds more than its capacity. *)
Theorem circular_buffer_fifo n ops out b :
  (0 < n)%nat -> run ops (new_cbuf n) = Some (out, b) ->
  out ++ contents b = produced ops /\ length (contents b) = size b /\ (size b <= n)%nat.
Proof.
  intros Hn Hr. destruct (new_wf n Hn) as [Hw Hc]. destruct (run_fifo _ _ _ _ Hw Hr) as (Hw' & Ho & Hm).
  rewrite Ho, Hc. split; [done|]. split; [by apply length_contents|]. rewrite (size_le b Hw'), Hm.
  unfold max_size. simpl. by rewrite length_replicate.
Qed.

Lemma circular_buffer_fifo_witness :
  exists b, [1; 2; 3; 4] ++ contents b = [1; 2; 3; 4; 5; 6] /\ length (contents b) = size b /\ (size b <= 4)%nat.
Proof.
  exists (CBuf [5; 6; 3; 4] 0 2 false).
  apply (circular_buffer_fifo 4 [Produce [1; 2; 3]; Consume 2; Produce [4]; Produce [5; 6]; Consume 2] _ _);
    [lia|vm_compute; reflexivity].
Defined.

(** [write_copy] appends what fits in the first free block. *)
Lemma write_copy_fits s b : wf b -> (length s <= (write_block b).1.2)%nat -> s <> [] ->
  write_copy s b = Done (length s, produce s b).
Proof.
  intros Hw Hl Hs. assert (0 < length s)%nat as Hp by (destruct s; simpl; [done|lia]).
  assert (full b = false) as Hf by (apply write_block_pos; [done|lia]).
  destruct (write_block_free b Hw Hf) as (_ & _ & _ & Hb).
  unfold write_copy, produce. destruct s as [|c s]; [done|]. remember (c :: s) as t. simpl length at 1.
  simpl. rewrite Hf, (proj2 (Nat.ltb_lt 0 (length t))) by done. simpl.
  destruct (write_block b) as [blk b'] eqn:E. simpl in *. rewrite Nat.min_l, take_ge by lia.
  destruct (Nat.leb_spec blk.2 0); [lia|]. destruct t as [|c' t]; [done|]. simpl length.
  simpl write_copy_loop. rewrite Nat.ltb_irrefl. done.
Qed.

(** When they do not, the second block starts over: [write_copy] of two characters at the end of a
    buffer of four queues three, and reports three. *)
Lemma write_copy_wrapped :
  let b := commit_read 2 (produce [1; 2; 3] (new_cbuf 4)) in
  exists b', write_copy [7; 8] b = Done (3%nat, b') /\ contents b' = [3; 7; 7; 8].
Proof. eexists. split; vm_compute; reflexivity. Qed.

(** [read_copy] of the characters that wrap leaves the last of them at the start of the destination. *)
Lemma read_copy_wrapped :
  let b := produce [5; 6] (produce [4] (commit_read 2 (produce [1; 2; 3] (new_cbuf 4)))) in
  contents b = [3; 4; 5; 6] /\ exists b', read_copy [0; 0; 0; 0] b = Done (4%nat, [5; 6; 0; 0], b').
Proof. split; [|eexists]; vm_compute; reflexivity. Qed.
