(* ===== verification/RspCodec.v ===== *)
(** Packet codec of the GDB remote serial protocol (models/gdbserver/rsp-packet-codec.cpp, .hpp).

    Characters are bytes in [0, 256); where the code does arithmetic on a [char] it is signed ([s8]).
    The decoder takes blocks of a circular buffer ([CircBuf]); [sstep] is the automaton of the protocol,
    one character at a time, that the decoder refines. *)

From S2P Require Import Prelude CircBuf.

(** ** Constants and helpers *)
Definition RSP_PACKET_MAX_LEN : nat := Z.to_nat (16 * 1024).
Definition RSP_CTRLC_CHAR : Z := 3.
Definition RSP_ACK_CHAR : Z := 43.
Definition RSP_PKT_START_CHAR : Z := 36.
Definition RSP_PKT_END_CHAR : Z := 35.
Definition RSP_ACK_STR : list Z := [RSP_ACK_CHAR].

Definition ESC : Z := 125.    (* '}' *)
Definition STAR : Z := 42.
Definition PERCENT : Z := 37.

(** [deescape], in place: the write index [cur] follows the read index [i]. *)
Fixpoint deescape_loop (n : nat) (buf : list Z) (i cur : nat) (escaped : bool) : list Z * nat :=
  match n with
  | O => (buf, cur)
  | S n =>
      let c := nth i buf 0 in
      if escaped then deescape_loop n (<[cur := Z.lxor c 32]> buf) (S i) (S cur) false
      else if c =? ESC then deescape_loop n buf (S i) cur true
      else deescape_loop n (if negb (i =? cur)%nat then <[cur := c]> buf else buf) (S i) (S cur) false
  end.
Definition deescape (buf : list Z) (len : nat) : list Z * nat := deescape_loop len buf 0 0 false.

(** [scan_for_hash] over the characters of the block from [cur]: the characters passed, the [escaped]
    flag, and whether a '#' was found. *)
Fixpoint scan_for_hash (pkt : list Z) (cur : nat) (escaped : bool) : nat * bool * bool :=
  match pkt with
  | [] => (cur, escaped, false)
  | c :: pkt =>
      if escaped then scan_for_hash pkt (S cur) false
      else if c =? ESC then scan_for_hash pkt (S cur) true
      else if c =? RSP_PKT_END_CHAR then (cur, escaped, true)
      else scan_for_hash pkt (S cur) escaped
  end.

(** snprintf of "%02x" for a value below 256. *)
Definition hex_digit (d : Z) : Z := if d <? 10 then 48 + d else 87 + d.
Definition checksum_str (checksum : Z) : list Z := [hex_digit (checksum / 16); hex_digit (checksum mod 16)].

Definition sum_chars (buf : list Z) : Z := fold_left (fun checksum c => u32 (checksum + s8 c)) buf 0.

Definition verify_checksum (buf crc_buf : list Z) : bool :=
  let s := checksum_str (sum_chars buf mod 256) in
  (nth 0 crc_buf 0 =? nth 0 s 0) && (nth 1 crc_buf 0 =? nth 1 s 0).

(** [flush_seq] appends to [raw] and adds to [crc]; the packet under construction is the list [raw]. *)
Definition emit (c : Z) (rc : list Z * Z) : list Z * Z := (rc.1 ++ [uw 8 c], u32 (rc.2 + c)).

Fixpoint emit_n (n : nat) (c : Z) (rc : list Z * Z) : list Z * Z :=
  match n with O => rc | S n => emit_n n c (emit c rc) end.

Definition run_len (seq_len : nat) : nat :=
  if (seq_len =? 6)%nat || (seq_len =? 7)%nat then 5
  else if (126 <? seq_len + 29)%nat then (126 - 29)%nat
  else seq_len.

Fixpoint flush_seq (fuel : nat) (c : Z) (seq_len : nat) (rc : list Z * Z) : list Z * Z :=
  match fuel with
  | O => rc
  | S fuel =>
      if (0 <? seq_len)%nat then
        if (seq_len <? 3)%nat then emit_n seq_len (s8 c) rc
        else
          let r := run_len seq_len in
          flush_seq fuel c (seq_len - r)
            (emit (Z.of_nat (r + 29)) (emit STAR (emit (s8 c) rc)))
      else rc
  end.

Definition special (c : Z) : bool := (c =? RSP_PKT_END_CHAR) || (c =? PERCENT) || (c =? ESC) || (c =? STAR).

(** The loop of [escape]: [seq_c], [seq_len] hold the current run. *)
Fixpoint escape_loop (data : list Z) (dont_encode_runs : bool) (seq_c : Z) (seq_len : nat) (rc : list Z * Z)
  : list Z * Z :=
  match data with
  | [] => if (0 <? seq_len)%nat then flush_seq seq_len seq_c seq_len rc else rc
  | c :: data =>
      if special c then
        let rc := if (0 <? seq_len)%nat then flush_seq seq_len seq_c seq_len rc else rc in
        escape_loop data dont_encode_runs seq_c 0 (emit (s8 (Z.lxor c 32)) (emit ESC rc))
      else if dont_encode_runs then escape_loop data dont_encode_runs seq_c seq_len (emit (s8 c) rc)
      else if (0 <? seq_len)%nat then
        if negb (c =? seq_c) then escape_loop data dont_encode_runs c 1 (flush_seq seq_len seq_c seq_len rc)
        else escape_loop data dont_encode_runs seq_c (S seq_len) rc
      else escape_loop data dont_encode_runs c 1 rc
  end.

Definition escape (data : list Z) (raw : list Z) (dont_encode_runs : bool) : list Z * Z :=
  escape_loop data dont_encode_runs 0 0 (raw, 0).

(** The packet [encode] builds in [s_out_pkt]; it writes past the array when it is longer. *)
Definition encode_packet (data : list Z) (dont_encode_runs : bool) : option (list Z) :=
  let (raw, crc) := escape data [RSP_PKT_START_CHAR] dont_encode_runs in
  let out := raw ++ [RSP_PKT_END_CHAR] ++ checksum_str (crc mod 256) in
  if (length out <=? RSP_PACKET_MAX_LEN)%nat then Some out else None.

(** Encoding into the output buffer: whether the whole packet was written, and the buffer. *)
Definition encode (data : list Z) (dont_encode_runs : bool) (b : cbuf) : outcome (bool * cbuf) :=
  match encode_packet data dont_encode_runs with
  | Some out =>
      match write_copy out b with
      | Done (n, b) => Done ((n =? length out)%nat, b)
      | AssertFailed => AssertFailed
      | OutOfFuel => OutOfFuel
      end
  | None => AssertFailed
  end.

Definition encode_ack (b : cbuf) : outcome (bool * cbuf) :=
  match write_copy RSP_ACK_STR b with
  | Done (n, b) => Done ((n =? length RSP_ACK_STR)%nat, b)
  | AssertFailed => AssertFailed
  | OutOfFuel => OutOfFuel
  end.

(** ** The decoder *)
Inductive decoder_state := STATE_INIT | STATE_LEADIN | STATE_BODY | STATE_CRC.

(** The callbacks: [m_pkt_ctrlc], [m_pkt_ack], [m_pkt_decoded] with the packet, [m_pkt_error]. *)
Inductive event := CtrlC | Ack | Packet (pkt : list Z) | TooLong | CrcError.

Record codec := Codec {
  m_decode_state : decoder_state;
  m_pkt : list Z;
  m_cur : nat;
  m_last : nat;
  m_pkt_len : nat;
  m_crc_start : nat;
  m_escaped : bool
}.

Definition reset_state (k : codec) : codec := Codec STATE_LEADIN (m_pkt k) 0 0 0 0 false.
Definition new_codec : codec := Codec STATE_LEADIN (replicate RSP_PACKET_MAX_LEN 0) 0 0 0 0 false.
Definition set_state (s : decoder_state) (k : codec) : codec :=
  Codec s (m_pkt k) (m_cur k) (m_last k) (m_pkt_len k) (m_crc_start k) (m_escaped k).

(** The scan of STATE_LEADIN: the characters read up to the first one that means something. *)
Fixpoint leadin (buf : list Z) (buf_idx : nat) : nat * option Z :=
  match buf with
  | [] => (buf_idx, None)
  | c :: buf =>
      if (c =? RSP_CTRLC_CHAR) || (c =? RSP_ACK_CHAR) || (c =? RSP_PKT_START_CHAR) then (S buf_idx, Some c)
      else leadin buf (S buf_idx)
  end.

(** One turn of [decoder]: the value returned, the buffer, the codec and the callback made. [None] when
    memcpy goes past [m_pkt]. *)
Definition decoder (b : cbuf) (k : codec) : option (bool * cbuf * codec * list event) :=
  match m_decode_state k with
  | STATE_INIT => Some (true, b, reset_state k, [])
  | STATE_LEADIN =>
      let blk := read_block b in
      if (blk.2 =? 0)%nat then Some (false, b, k, [])
      else
        let (buf_idx, found) := leadin (bytes blk b) 0 in
        let b := commit_read buf_idx b in
        match found with
        | Some c =>
            if c =? RSP_CTRLC_CHAR then Some (true, b, k, [CtrlC])
            else if c =? RSP_ACK_CHAR then Some (true, b, k, [Ack])
            else Some (true, b, set_state STATE_BODY k, [])
        | None => Some (true, b, k, [])
        end
  | STATE_BODY =>
      let blk := read_block b in
      let full_check b k :=
        if (RSP_PACKET_MAX_LEN <=? m_cur k)%nat then Some (true, b, set_state STATE_INIT k, [TooLong])
        else Some ((0 <? blk.2)%nat, b, k, []) in
      if (0 <? blk.2)%nat then
        let '(buf_idx, escaped, hash_found) := scan_for_hash (bytes blk b) 0 (m_escaped k) in
        if (RSP_PACKET_MAX_LEN <? m_cur k + buf_idx)%nat then None
        else
          let k := Codec STATE_BODY (list_inserts (m_cur k) (take buf_idx (bytes blk b)) (m_pkt k))
                     (m_cur k + buf_idx) (m_last k) (m_pkt_len k) (m_crc_start k) escaped in
          if hash_found then Some (true, commit_read (S buf_idx) b, set_state STATE_CRC k, [])
          else full_check (commit_read buf_idx b) k
      else full_check b k
  | STATE_CRC =>
      let blk := read_block b in
      if (2 <=? blk.2)%nat then
        let b' := commit_read 2 b in
        if verify_checksum (take (m_cur k) (m_pkt k)) (bytes blk b) then
          let (pkt, len) := deescape (m_pkt k) (m_cur k) in
          let pkt := list_inserts len (replicate (RSP_PACKET_MAX_LEN - len) 0) pkt in
          Some (false, b', Codec STATE_INIT pkt (m_cur k) (m_last k) len (m_crc_start k) (m_escaped k),
                [Packet (take len pkt)])
        else Some (false, b', set_state STATE_INIT k, [CrcError])
      else Some (false, b, k, [])
  end.

(** [decode]: turns until [decoder] returns false. *)
Fixpoint decode_loop (fuel : nat) (b : cbuf) (k : codec) : outcome (cbuf * codec * list event) :=
  match fuel with
  | O => OutOfFuel
  | S fuel =>
      match decoder b k with
      | None => AssertFailed
      | Some (false, b, k, evs) => Done (b, k, evs)
      | Some (true, b, k, evs) =>
          match decode_loop fuel b k with
          | Done (b, k, evs') => Done (b, k, evs ++ evs')
          | AssertFailed => AssertFailed
          | OutOfFuel => OutOfFuel
          end
      end
  end.
Definition decode (b : cbuf) (k : codec) : outcome (cbuf * codec * list event) := decode_loop (3 * size b + 3) b k.

(** ** The protocol, a character at a time *)
Inductive phase :=
  | Lead
  | Body (acc : list Z) (escaped : bool)
  | Crc (acc : list Z)
  | Crc1 (acc : list Z) (c : Z).

(** The packet an escaped body stands for. *)
Fixpoint unescape (escaped : bool) (l : list Z) : list Z :=
  match l with
  | [] => []
  | c :: l => if escaped then Z.lxor c 32 :: unescape false l
              else if c =? ESC then unescape true l else c :: unescape false l
  end.

Definition sstep (p : phase) (c : Z) : phase * list event :=
  match p with
  | Lead => if c =? RSP_CTRLC_CHAR then (Lead, [CtrlC])
            else if c =? RSP_ACK_CHAR then (Lead, [Ack])
            else if c =? RSP_PKT_START_CHAR then (Body [] false, [])
            else (Lead, [])
  | Body acc true => (Body (acc ++ [c]) false, [])
  | Body acc false => if c =? ESC then (Body (acc ++ [c]) true, [])
                      else if c =? RSP_PKT_END_CHAR then (Crc acc, [])
                      else (Body (acc ++ [c]) false, [])
  | Crc acc => (Crc1 acc c, [])
  | Crc1 acc c1 => (Lead, [if verify_checksum acc [c1; c] then Packet (unescape false acc) else CrcError])
  end.

Fixpoint srun (p : phase) (l : list Z) : phase * list event :=
  match l with
  | [] => (p, [])
  | c :: l => let (p', evs) := sstep p c in let (p'', evs') := srun p' l in (p'', evs ++ evs')
  end.

(** ** The decoder follows the protocol *)
#[local] Arguments commit_read : simpl never.
#[local] Arguments read_block : simpl never.
#[local] Arguments contents : simpl never.
#[local] Arguments bytes : simpl never.

Lemma srun_app p l1 l2 :
  srun p (l1 ++ l2) = let (p1, e1) := srun p l1 in let (p2, e2) := srun p1 l2 in (p2, e1 ++ e2).
Proof.
  revert p. induction l1 as [|c l1 IH]; intros p; simpl; [by destruct (srun p l2)|].
  destruct (sstep p c) as [p' evs]. rewrite IH. destruct (srun p' l1) as [p1 e1]. destruct (srun p1 l2).
  by rewrite app_assoc.
Qed.

Lemma srun_snoc p l c p1 : srun p l = (p1, []) -> srun p (l ++ [c]) = sstep p1 c.
Proof. intros E. rewrite srun_app, E. simpl. destruct (sstep p1 c). by rewrite app_nil_r. Qed.

Lemma lookup_nth (buf : list Z) i : (i < length buf)%nat -> buf !! i = Some (nth i buf 0).
Proof. intros Hi. destruct (nth_lookup_or_length buf i 0); [done|lia]. Qed.

(** The in-place loop computes [unescape]: the cells before [cur] hold the output, those from [i] the input. *)
Lemma deescape_loop_ok n : forall buf i cur esc buf' len,
  (cur <= i)%nat -> (i + n <= length buf)%nat -> deescape_loop n buf i cur esc = (buf', len) ->
  take len buf' = take cur buf ++ unescape esc (take n (drop i buf)) /\
  (cur <= len <= cur + n)%nat /\ length buf' = length buf.
Proof.
  induction n as [|n IH]; intros buf i cur esc buf' len Hc Hi; simpl.
  - intros [= <- <-]. rewrite app_nil_r. repeat split; lia.
  - assert (drop i buf = nth i buf 0 :: drop (S i) buf) as Hd.
    { apply drop_S, lookup_nth. lia. }
    rewrite Hd. set (c := nth i buf 0). simpl.
    assert (forall x, take (S cur) (<[cur:=x]> buf) = take cur buf ++ [x]) as Hput.
    { intros x. rewrite (take_S_r _ _ x) by (apply list_lookup_insert_eq; lia). by rewrite take_insert_ge. }
    assert (forall x, drop (S i) (<[cur:=x]> buf) = drop (S i) buf) as Hkeep by (intros; apply drop_insert_lt; lia).
    destruct esc; [|destruct (Z.eqb_spec c ESC)].
    + intros E. apply IH in E as (E1 & E2 & E3); [|lia|rewrite length_insert; lia].
      rewrite E1, Hput, Hkeep, length_insert in *. rewrite <- app_assoc. repeat split; try done; lia.
    + intros E. apply IH in E as (E1 & E2 & E3); [|lia..]. repeat split; try done; lia.
    + destruct (Nat.eqb_spec i cur) as [->|]; simpl.
      * intros E. apply IH in E as (E1 & E2 & E3); [|lia..]. rewrite E1.
        rewrite (take_S_r _ _ c), <- app_assoc; [repeat split; try done; lia|].
        apply lookup_nth. lia.
      * intros E. apply IH in E as (E1 & E2 & E3); [|lia|rewrite length_insert; lia].
        rewrite E1, Hput, Hkeep, length_insert in *. rewrite <- app_assoc. repeat split; try done; lia.
Qed.

Lemma deescape_ok buf len buf' len' : (len <= length buf)%nat -> deescape buf len = (buf', len') ->
  take len' buf' = unescape false (take len buf) /\ (len' <= len)%nat /\ length buf' = length buf.
Proof.
  intros Hl E. apply deescape_loop_ok in E as (E1 & E2 & E3); [|lia..]. rewrite take_0, drop_0 in E1. split; [done|split; [lia|done]].
Qed.

Lemma leadin_ok l : forall i n found, leadin l i = (n, found) ->
  match found with
  | Some c => exists u rest, l = u ++ c :: rest /\ n = (i + S (length u))%nat /\ srun Lead u = (Lead, []) /\
                (c = RSP_CTRLC_CHAR \/ c = RSP_ACK_CHAR \/ c = RSP_PKT_START_CHAR)
  | None => n = (i + length l)%nat /\ srun Lead l = (Lead, [])
  end.
Proof.
  induction l as [|c l IH]; intros i n found; simpl.
  - intros [= <- <-]. split; [lia|done].
  - destruct (Z.eqb_spec c RSP_CTRLC_CHAR), (Z.eqb_spec c RSP_ACK_CHAR), (Z.eqb_spec c RSP_PKT_START_CHAR); simpl;
      try (intros [= <- <-]; exists [], l; split; [done|split; [simpl; lia|split; [done|tauto]]]).
    intros E. apply IH in E. destruct found as [c'|].
    + destruct E as (u & rest & -> & -> & E & Hc). exists (c :: u), rest. simpl. split; [done|split; [lia|split; [|done]]].
      destruct (Z.eqb_spec c RSP_CTRLC_CHAR), (Z.eqb_spec c RSP_ACK_CHAR), (Z.eqb_spec c RSP_PKT_START_CHAR); try done.
      by rewrite E.
    + destruct E as [-> E]. split; [lia|]. by rewrite E.
Qed.

Lemma scan_for_hash_ok l : forall acc i esc n esc' found, scan_for_hash l i esc = (n, esc', found) ->
  if found then exists u rest, l = u ++ RSP_PKT_END_CHAR :: rest /\ n = (i + length u)%nat /\ esc' = false /\
                  srun (Body acc esc) u = (Body (acc ++ u) false, [])
  else n = (i + length l)%nat /\ srun (Body acc esc) l = (Body (acc ++ l) esc', []).
Proof.
  assert (forall acc esc c esc' (u : list Z), srun (Body (acc ++ [c]) esc) u = (Body ((acc ++ [c]) ++ u) esc', []) ->
    srun (Body (acc ++ [c]) esc) u = (Body (acc ++ c :: u) esc', [])) as Happ by (intros *; by rewrite <- app_assoc).
  induction l as [|c l IH]; intros acc i esc n esc' found; cbn [scan_for_hash length].
  - intros [= <- <- <-]. rewrite app_nil_r. split; [lia|done].
  - assert (forall esc1, sstep (Body acc esc) c = (Body (acc ++ [c]) esc1, []) ->
      scan_for_hash l (S i) esc1 = (n, esc', found) ->
      if found then exists u rest, c :: l = u ++ RSP_PKT_END_CHAR :: rest /\ n = (i + length u)%nat /\ esc' = false /\
                  srun (Body acc esc) u = (Body (acc ++ u) false, [])
      else n = (i + S (length l))%nat /\ srun (Body acc esc) (c :: l) = (Body (acc ++ c :: l) esc', [])) as Hpass.
    { intros esc1 Hs E. apply (IH (acc ++ [c])) in E. destruct found.
      - destruct E as (u & rest & -> & -> & -> & E). exists (c :: u), rest. split; [done|]. split; [simpl; lia|].
        split; [done|]. cbn [srun]. rewrite Hs, (Happ _ _ _ _ _ E). done.
      - destruct E as [-> E]. split; [lia|]. cbn [srun]. rewrite Hs, (Happ _ _ _ _ _ E). done. }
    destruct esc; [by apply Hpass|].
    destruct (Z.eqb_spec c ESC) as [->|]; [by apply Hpass|]. destruct (Z.eqb_spec c RSP_PKT_END_CHAR) as [->|].
    + intros [= <- <- <-]. exists [], l. rewrite app_nil_r. simpl. repeat split; lia.
    + apply (Hpass false). simpl. destruct (Z.eqb_spec c ESC), (Z.eqb_spec c RSP_PKT_END_CHAR); done.
Qed.

(** What the codec knows of the phase: the body is in [m_pkt] up to [m_cur]. *)
Definition rel (k : codec) (p : phase) : Prop :=
  length (m_pkt k) = RSP_PACKET_MAX_LEN /\
  match p with
  | Lead => m_decode_state k = STATE_INIT \/ (m_decode_state k = STATE_LEADIN /\ m_cur k = 0%nat /\ m_escaped k = false)
  | Body acc esc => m_decode_state k = STATE_BODY /\ take (m_cur k) (m_pkt k) = acc /\ m_cur k = length acc /\ m_escaped k = esc
  | Crc acc => m_decode_state k = STATE_CRC /\ take (m_cur k) (m_pkt k) = acc /\ m_cur k = length acc
  | Crc1 _ _ => False
  end.

Definition acclen (p : phase) : nat := match p with Body acc _ => length acc | _ => 0 end.

Definition weight (k : codec) : nat := match m_decode_state k with STATE_BODY => 2 | STATE_INIT => 1 | _ => 0 end.

(** Why a call of [decode] returns: nothing is pending, a packet has just ended, or the checksum is not
    in one block. *)
Definition stops (b : cbuf) (p : phase) (evs : list event) : Prop :=
  contents b = [] \/ (exists e evs', evs = evs' ++ [e] /\ (e = CrcError \/ exists pkt, e = Packet pkt)) \/
  ((exists acc, p = Crc acc) /\ (read_block b).2 = 1%nat).

(** The pending characters and [n] more fit before the end of the cells. *)
Definition linear (b : cbuf) (n : nat) : Prop :=
  (size b = 0 /\ n <= max_size b \/ head b + size b + n <= max_size b)%nat.

Record step_ok (b : cbuf) (k : codec) (p : phase) (ret : bool) (b' : cbuf) (k' : codec) (evs : list event)
    (used : list Z) (p' : phase) : Prop := {
  so_wf : wf b';
  so_cap : max_size b' = max_size b;
  so_used : contents b = used ++ contents b';
  so_run : srun p used = (p', evs);
  so_rel : rel k' p';
  so_fits : (acclen p' + size b' <= acclen p + size b)%nat;
  so_linear : forall n, linear b n -> linear b' n;
  so_weight : ret = true -> (3 * size b' + weight k' < 3 * size b + weight k)%nat;
  so_stop : ret = false -> stops b' p' evs
}.

Lemma max_size_commit_read l b : max_size (commit_read l b) = max_size b.
Proof. unfold commit_read. by destruct (0 <? l)%nat. Qed.

Lemma split_block b n : wf b -> (n <= (read_block b).2)%nat ->
  exists u, take n (bytes (read_block b) b) = u /\ length u = n /\ contents b = u ++ contents (commit_read n b) /\
    size b = (n + size (commit_read n b))%nat /\ wf (commit_read n b).
Proof.
  intros Hw Hn. destruct (commit_read_ok n b Hw Hn) as [Hw' Hc]. eexists. split; [done|].
  rewrite read_block_bytes, take_take, Nat.min_l by done. pose proof (read_block_le b Hw).
  assert (length (take n (contents b)) = n) as Hlen by (rewrite length_take, length_contents by done; lia).
  split; [done|]. split; [by rewrite Hc, take_drop|]. split; [|done].
  rewrite <- !length_contents, Hc, length_drop by done. rewrite length_contents by done. lia.
Qed.

Lemma linear_commit_read l b n : wf b -> (l <= (read_block b).2)%nat -> linear b n -> linear (commit_read l b) n.
Proof.
  intros Hw Hl Hn. destruct (split_block b l Hw Hl) as (_ & _ & _ & _ & Es & _). unfold linear in *.
  rewrite max_size_commit_read. pose proof (size_le b Hw). generalize dependent (size (commit_read l b)). intros s' Es.
  unfold commit_read. destruct (Nat.ltb_spec 0 l); [|lia]. destruct (Nat.leb_spec (max_size b) (head b + l)); cbn [head]; lia.
Qed.

Ltac step_goals :=
  split; try done; try (by rewrite max_size_commit_read);
  try (by intros ? ?; apply linear_commit_read; [done|lia|done]).

Lemma decoder_leadin b k : wf b -> rel k Lead -> m_decode_state k = STATE_LEADIN ->
  exists ret b' k' evs used p', decoder b k = Some (ret, b', k', evs) /\ step_ok b k Lead ret b' k' evs used p'.
Proof.
  intros Hw [Hl Hrel] Hst. destruct Hrel as [?|(_ & Hcur & Hesc)]; [congruence|]. unfold decoder. rewrite Hst.
  destruct (Nat.eqb_spec (read_block b).2 0) as [H0|H0].
  - exists false, b, k, [], [], Lead. split; [done|]. split; try done.
    + split; [done|]. by right.
    + intros _. left. apply nil_length_inv. rewrite length_contents by done.
      destruct (contents b) eqn:Ec; [by rewrite <- length_contents, Ec|].
      pose proof (read_block_pos b Hw ltac:(by rewrite Ec)). lia.
  - destruct (leadin (bytes (read_block b) b) 0) as [n found] eqn:El. apply leadin_ok in El.
    pose proof (length_read_block b Hw) as Hlb. destruct found as [c|].
    + destruct El as (u & rest & Eb & -> & Er & Hc). rewrite Eb, length_app in Hlb. simpl in Hlb.
      destruct (split_block b (S (length u)) Hw ltac:(lia)) as (v & Ev & _ & Ec & Es & Hw').
      assert (v = u ++ [c]) as ->.
      { rewrite <- Ev, Eb. change (c :: rest) with ([c] ++ rest). rewrite app_assoc.
        apply take_app_length'. rewrite length_app. simpl. lia. }
      clear Ev. simpl. destruct Hc as [-> | [-> | ->]]; simpl;
        (eexists _, _, _, _, (u ++ [_]), _; split; [reflexivity|]; step_goals;
          [rewrite (srun_snoc _ _ _ _ Er); reflexivity|
           split; [done|]; try (right; done); simpl; rewrite ?Hcur, ?Hesc; done|simpl; lia|unfold weight; simpl; rewrite ?Hst; lia]).
    + destruct El as [-> Er]. rewrite Hlb. destruct (split_block b (read_block b).2 Hw ltac:(lia)) as (v & Ev & _ & Ec & Es & Hw').
      rewrite take_ge in Ev by lia. subst v. simpl.
      eexists _, _, _, _, _, _; split; [reflexivity|]; step_goals;
          [split; [done|]; by right|simpl; lia|lia].
Qed.

Lemma take_store (n : nat) (u l : list Z) : (n + length u <= length l)%nat ->
  take (n + length u) (list_inserts n u l) = take n l ++ u.
Proof.
  intros Hl. apply list_eq. intros i. destruct (Nat.lt_ge_cases i n); [|destruct (Nat.lt_ge_cases i (n + length u))].
  - rewrite lookup_take_lt, list_lookup_inserts_lt, lookup_app_l, lookup_take_lt by (rewrite ?length_take; lia). done.
  - rewrite lookup_take_lt, list_lookup_inserts, lookup_app_r, length_take, Nat.min_l by (rewrite ?length_take; lia). done.
  - rewrite lookup_take_ge by lia. symmetry. apply lookup_ge_None. rewrite length_app, length_take. lia.
Qed.

Lemma decoder_body b k acc esc : wf b -> rel k (Body acc esc) -> (acclen (Body acc esc) + size b < RSP_PACKET_MAX_LEN)%nat ->
  exists ret b' k' evs used p', decoder b k = Some (ret, b', k', evs) /\ step_ok b k (Body acc esc) ret b' k' evs used p'.
Proof.
  intros Hw (Hl & Hst & Htk & Hcur & He) Hfit. simpl in Hfit. unfold decoder. rewrite Hst. cbv zeta.
  pose proof (read_block_le b Hw) as Hble.
  destruct (Nat.ltb_spec 0 (read_block b).2) as [H0|H0].
  - rewrite He. destruct (scan_for_hash (bytes (read_block b) b) 0 esc) as [[n esc'] found] eqn:E.
    apply (scan_for_hash_ok _ acc) in E. pose proof (length_read_block b Hw) as Hlb.
    destruct found.
    + destruct E as (u & rest & Eb & -> & -> & Er). rewrite Eb, length_app in Hlb. simpl in Hlb.
      destruct (split_block b (S (length u)) Hw ltac:(lia)) as (v & Ev & _ & Ec & Es & Hw').
      assert (v = u ++ [RSP_PKT_END_CHAR]) as ->.
      { rewrite <- Ev, Eb. change (RSP_PKT_END_CHAR :: rest) with ([RSP_PKT_END_CHAR] ++ rest). rewrite app_assoc.
        apply take_app_length'. rewrite length_app. simpl. lia. }
      rewrite Eb. simpl (0 + _)%nat. rewrite take_app_length.
      destruct (Nat.ltb_spec RSP_PACKET_MAX_LEN (m_cur k + length u)); [lia|].
      eexists _, _, _, _, (u ++ [_]), _; split; [reflexivity|]; step_goals.
      * rewrite (srun_snoc _ _ _ _ Er). reflexivity.
      * split; simpl; [by rewrite length_inserts|]. split; [done|]. rewrite Hcur in *. rewrite take_store, length_app by lia.
        by rewrite Htk.
      * simpl. lia.
      * intros _. unfold weight. simpl. rewrite Hst. lia.
    + destruct E as [-> Er]. rewrite Hlb. destruct (split_block b (read_block b).2 Hw ltac:(lia)) as (v & Ev & Hlv & Ec & Es & Hw').
      simpl (0 + _)%nat. rewrite take_ge in Ev by lia. subst v. rewrite take_ge by lia.
      destruct (Nat.ltb_spec RSP_PACKET_MAX_LEN (m_cur k + (read_block b).2)); [lia|]. simpl m_cur.
      destruct (Nat.leb_spec RSP_PACKET_MAX_LEN (m_cur k + (read_block b).2)); [lia|].
      eexists _, _, _, _, _, _; split; [reflexivity|]; step_goals.
      * split; simpl; [by rewrite length_inserts|]. split; [done|]. rewrite Hcur in *. rewrite <- Hlb, take_store, length_app by lia.
        by rewrite Htk.
      * simpl. rewrite length_app. lia.
      * intros _. unfold weight. simpl. rewrite Hst. lia.
  - destruct (Nat.leb_spec RSP_PACKET_MAX_LEN (m_cur k)); [lia|].
    exists false, b, k, [], [], (Body acc esc). split; [done|]. split; try done.
    intros _. left. destruct (decide (contents b = [])) as [|Hc]; [done|]. pose proof (read_block_pos b Hw Hc). lia.
Qed.

Lemma verify_checksum_two acc (c1 c2 : Z) l : verify_checksum acc (c1 :: c2 :: l) = verify_checksum acc [c1; c2].
Proof. done. Qed.

Lemma decoder_crc b k acc : wf b -> rel k (Crc acc) ->
  exists ret b' k' evs used p', decoder b k = Some (ret, b', k', evs) /\ step_ok b k (Crc acc) ret b' k' evs used p'.
Proof.
  intros Hw (Hl & Hst & Htk & Hcur). unfold decoder. rewrite Hst. cbv zeta.
  destruct (Nat.leb_spec 2 (read_block b).2) as [H2|H2].
  - destruct (split_block b 2 Hw H2) as (v & Ev & Hlv & Ec & Es & Hw').
    destruct v as [|c1 [|c2 [|? v]]]; try discriminate. pose proof (length_read_block b Hw) as Hlb.
    destruct (bytes (read_block b) b) as [|d1 [|d2 rest]] eqn:Eb; [simpl in Hlb; lia..|].
    injection Ev as -> ->. rewrite verify_checksum_two, Htk.
    assert (length acc <= RSP_PACKET_MAX_LEN)%nat as Hacc by (rewrite <- Hl, <- Htk, length_take; lia).
    assert (srun (Crc acc) [c1; c2] = (Lead, [if verify_checksum acc [c1; c2] then Packet (unescape false acc) else CrcError]))
      as Er by done. destruct (verify_checksum acc [c1; c2]).
    + destruct (deescape (m_pkt k) (m_cur k)) as [pkt len] eqn:Ed. apply deescape_ok in Ed as (Ed & Hlen & Hlp); [|lia].
      rewrite Htk in Ed.
      assert (take len (list_inserts len (replicate (RSP_PACKET_MAX_LEN - len) 0) pkt) = unescape false acc) as ->.
      { rewrite <- Ed. apply list_eq. intros i. destruct (Nat.lt_ge_cases i len).
        - rewrite !lookup_take_lt, list_lookup_inserts_lt by lia. done.
        - rewrite !lookup_take_ge by lia. done. }
      eexists _, _, _, _, [c1; c2], _. split; [reflexivity|]. step_goals.
      * split; [simpl; by rewrite length_inserts, Hlp|by left].
      * simpl. lia.
      * intros _. right. left. eexists _, []. split; [done|]. by eauto.
    + eexists _, _, _, _, [c1; c2], _. split; [reflexivity|]. step_goals.
      * split; [done|by left].
      * simpl. lia.
      * intros _. right. left. eexists _, []. split; [done|]. by left.
  - exists false, b, k, [], [], (Crc acc). split; [done|]. split; try done.
    intros _. destruct (decide (contents b = [])) as [|Hc]; [by left|]. right. right.
    pose proof (read_block_pos b Hw Hc). split; [by eexists|lia].
Qed.

Lemma decoder_ok b k p : wf b -> rel k p -> (acclen p + size b < RSP_PACKET_MAX_LEN)%nat ->
  exists ret b' k' evs used p', decoder b k = Some (ret, b', k', evs) /\ step_ok b k p ret b' k' evs used p'.
Proof.
  intros Hw Hr Hfit. destruct p as [|acc esc|acc|acc c].
  - destruct Hr as [Hl Hs]. destruct Hs as [Hst|Hs]; [|apply decoder_leadin; [done|split; [done|by right]|tauto]].
    unfold decoder. rewrite Hst. exists true, b, (reset_state k), [], [], Lead. split; [done|]. split; try done.
    + split; [done|]. by right.
    + intros _. unfold weight. rewrite Hst. simpl. lia.
  - by apply decoder_body.
  - by apply decoder_crc.
  - by destruct Hr.
Qed.

Lemma decode_loop_ok fuel : forall b k p, wf b -> rel k p -> (acclen p + size b < RSP_PACKET_MAX_LEN)%nat ->
  (3 * size b + weight k < fuel)%nat ->
  exists b' k' evs used p', decode_loop fuel b k = Done (b', k', evs) /\
    step_ok b k p false b' k' evs used p'.
Proof.
  induction fuel as [|fuel IH]; intros b k p Hw Hr Hfit Hf; [lia|]. simpl.
  destruct (decoder_ok b k p Hw Hr Hfit) as (ret & b1 & k1 & e1 & u1 & p1 & -> & [Hw1 Hm1 Hu1 Hr1 Hrel1 Hf1 Hl1 Hwt1 Hs1]).
  destruct ret; [|by exists b1, k1, e1, u1, p1]. specialize (Hwt1 eq_refl).
  destruct (IH b1 k1 p1 Hw1 Hrel1 ltac:(lia) ltac:(lia)) as
    (b2 & k2 & e2 & u2 & p2 & -> & [Hw2 Hm2 Hu2 Hr2 Hrel2 Hf2 Hl2 _ Hs2]).
  exists b2, k2, (e1 ++ e2), (u1 ++ u2), p2. split; [done|]. split; try done.
  - congruence.
  - by rewrite Hu1, Hu2, app_assoc.
  - by rewrite srun_app, Hr1, Hr2.
  - lia.
  - intros n Hn. by apply Hl2, Hl1.
  - intros _. destruct (Hs2 eq_refl) as [|[(e & evs & -> & He)|]]; [by left| |by right; right].
    right. left. exists e, (e1 ++ evs). by rewrite app_assoc.
Qed.

Lemma decode_ok b k p : wf b -> rel k p -> (acclen p + size b < RSP_PACKET_MAX_LEN)%nat ->
  exists b' k' evs used p', decode b k = Done (b', k', evs) /\ step_ok b k p false b' k' evs used p'.
Proof.
  intros Hw Hr Hf. apply decode_loop_ok; [done..|]. unfold weight. destruct (m_decode_state k); lia.
Qed.

(** C35: [decode] refines the character automaton of the protocol. From a codec in phase [p], on any
    pending characters that fit in the packet buffer, the loop of [decode] returns; it has consumed a
    prefix of the characters, made exactly the calls the automaton makes on this prefix, and left the
    codec in the automaton's phase. It returns only when nothing is pending, when a packet has just
    ended, or when the next block holds one of the two characters of the checksum. *)
Theorem decode_refines_protocol b k p :
  wf b -> rel k p -> (acclen p + size b < RSP_PACKET_MAX_LEN)%nat ->
  exists b' k' evs used p', decode b k = Done (b', k', evs) /\ wf b' /\ contents b = used ++ contents b' /\
    srun p used = (p', evs) /\ rel k' p' /\ stops b' p' evs.
Proof.
  intros Hw Hr Hf. destruct (decode_ok b k p Hw Hr Hf) as (b' & k' & evs & used & p' & E & []).
  exists b', k', evs, used, p'. by eauto 10.
Qed.

Lemma new_codec_rel : rel new_codec Lead.
Proof. split; [apply length_replicate|]. by right. Qed.

(** "+$a#61" and the start of another packet in one block. *)
Lemma decode_refines_protocol_witness :
  exists b' k' evs used p',
    decode (produce [43; 36; 97; 35; 54; 49; 36] (new_cbuf 16)) new_codec = Done (b', k', evs) /\ wf b' /\
    contents (produce [43; 36; 97; 35; 54; 49; 36] (new_cbuf 16)) = used ++ contents b' /\
    srun Lead used = (p', evs) /\ rel k' p' /\ stops b' p' evs.
Proof.
  apply decode_refines_protocol; [|apply new_codec_rel|apply Nat.ltb_lt; vm_compute; reflexivity].
  apply produce_ok; [apply new_wf|]; apply Nat.ltb_lt || apply Nat.leb_le; vm_compute; reflexivity.
Defined.

(** ** Encoding *)

Definition byte (c : Z) : Prop := 0 <= c < 256.

(** The escaped form of the data, without run lengths. *)
Definition escaped (data : list Z) : list Z :=
  flat_map (fun c => if special c then [ESC; Z.lxor c 32] else [c]) data.

Lemma special_cases c : special c = true -> c = 35 \/ c = 37 \/ c = 125 \/ c = 42.
Proof. unfold special, RSP_PKT_END_CHAR, PERCENT, ESC, STAR. rewrite !orb_true_iff, !Z.eqb_eq. tauto. Qed.

Lemma unescape_escaped data : unescape false (escaped data) = data.
Proof.
  induction data as [|c data IH]; simpl; [done|]. destruct (special c) eqn:E; simpl.
  - rewrite IH, Z.lxor_assoc, Z.lxor_nilpotent, Z.lxor_0_r. done.
  - unfold special in E. breflect. destruct (Z.eqb_spec c ESC); [done|]. by rewrite IH.
Qed.

Lemma srun_escaped data acc : srun (Body acc false) (escaped data) = (Body (acc ++ escaped data) false, []).
Proof.
  revert acc. induction data as [|c data IH]; intros acc; simpl; [by rewrite app_nil_r|].
  rewrite srun_app. destruct (special c) eqn:E; simpl.
  - rewrite IH, <- !app_assoc. done.
  - unfold special in E. breflect. destruct (Z.eqb_spec c ESC); [done|]. destruct (Z.eqb_spec c RSP_PKT_END_CHAR); [done|].
    simpl. rewrite IH, <- app_assoc. done.
Qed.

Lemma sum_chars_snoc l c : sum_chars (l ++ [c]) = u32 (sum_chars l + s8 c).
Proof. unfold sum_chars. by rewrite fold_left_app. Qed.

Lemma emit_byte (pre raw : list Z) c : byte c ->
  emit (s8 c) (pre ++ raw, sum_chars raw) = (pre ++ (raw ++ [c]), sum_chars (raw ++ [c])).
Proof. intros Hc. unfold emit. simpl. rewrite uw_sw, uw_small, sum_chars_snoc, app_assoc by (done || lia). done. Qed.

Lemma escape_loop_plain pre data : forall raw c n, Forall byte data -> n = 0%nat ->
  escape_loop data true c n (pre ++ raw, sum_chars raw) = (pre ++ raw ++ escaped data, sum_chars (raw ++ escaped data)).
Proof.
  induction data as [|x data IH]; intros raw c n Hb ->; simpl; [by rewrite app_nil_r|].
  apply Forall_cons in Hb as [Hx Hb]. destruct (special x) eqn:E.
  - assert (byte (Z.lxor x 32)) as Hx' by (apply special_cases in E as [-> | [-> | [-> | ->]]]; vm_compute; split; congruence).
    assert (byte ESC) by (unfold byte, ESC; lia). change (emit ESC) with (emit (s8 ESC)). rewrite !emit_byte by done.
    rewrite IH by done. rewrite <- !app_assoc. done.
  - rewrite emit_byte, IH by done. rewrite <- !app_assoc. done.
Qed.

(** The packet of some data on the wire, without run lengths. *)
Definition frame (data : list Z) : list Z :=
  RSP_PKT_START_CHAR :: escaped data ++ RSP_PKT_END_CHAR :: checksum_str (sum_chars (escaped data) mod 256).

Lemma encode_packet_plain data : Forall byte data ->
  encode_packet data true = if (length (frame data) <=? RSP_PACKET_MAX_LEN)%nat then Some (frame data) else None.
Proof.
  intros Hb. unfold encode_packet, escape.
  pose proof (escape_loop_plain [RSP_PKT_START_CHAR] data [] 0 0 Hb eq_refl) as E. simpl app in E at 1. unfold sum_chars in E at 1.
  simpl fold_left in E. rewrite E. done.
Qed.

Lemma frame_run data :
  exists s0 c p0, frame data = s0 ++ [c] /\ srun Lead s0 = (p0, []) /\ sstep p0 c = (Lead, [Packet data]).
Proof.
  unfold frame. set (crc := sum_chars (escaped data) mod 256).
  exists (RSP_PKT_START_CHAR :: escaped data ++ [RSP_PKT_END_CHAR; hex_digit (crc / 16)]), (hex_digit (crc mod 16)),
    (Crc1 (escaped data) (hex_digit (crc / 16))). split; [simpl; by rewrite <- app_assoc|]. split.
  - simpl. rewrite srun_app, srun_escaped. done.
  - simpl. unfold verify_checksum. fold crc. simpl. rewrite !Z.eqb_refl. simpl. by rewrite unescape_escaped.
Qed.

Lemma length_escaped data : (length (escaped data) <= 2 * length data)%nat.
Proof. induction data as [|c data IH]; simpl; [lia|]. rewrite length_app. destruct (special c); simpl; lia. Qed.

(** ** Round trip *)

(** A turn of the loop of Rsp::proxy_loop (rsp.cpp): [recv] puts at most a block of characters in the
    input buffer, then they are decoded. *)
Definition receive (chunk : list Z) (b : cbuf) (k : codec) : outcome (cbuf * codec * list event) :=
  if (length chunk <=? (write_block b).1.2)%nat then decode (produce chunk b) k else AssertFailed.

Fixpoint receive_all (chunks : list (list Z)) (b : cbuf) (k : codec) : outcome (cbuf * codec * list event) :=
  match chunks with
  | [] => Done (b, k, [])
  | chunk :: chunks =>
      match receive chunk b k with
      | Done (b, k, evs) =>
          match receive_all chunks b k with
          | Done (b, k, evs') => Done (b, k, evs ++ evs')
          | AssertFailed => AssertFailed
          | OutOfFuel => OutOfFuel
          end
      | AssertFailed => AssertFailed
      | OutOfFuel => OutOfFuel
      end
  end.

(** The characters [s] make one call, [e], on the last of them, and end the packet. *)
Definition single (p : phase) (s : list Z) (e : event) : Prop :=
  exists s0 c p0, s = s0 ++ [c] /\ srun p s0 = (p0, []) /\ sstep p0 c = (Lead, [e]).

Lemma single_split p u v e p1 evs : single p (u ++ v) e -> srun p u = (p1, evs) -> v <> [] ->
  evs = [] /\ single p1 v e.
Proof.
  intros (s0 & c & p0 & Es & Er & Ec) Eu Hv. destruct (exists_last Hv) as (v0 & c' & ->).
  rewrite app_assoc in Es. apply app_inj_tail in Es as [<- ->]. rewrite srun_app, Eu in Er.
  destruct (srun p1 v0) as [p2 evs2] eqn:Ev. injection Er as <- Er. apply app_nil in Er as [-> ->].
  split; [done|]. by exists v0, c, p2.
Qed.

Lemma single_whole p u e p1 evs : single p u e -> srun p u = (p1, evs) -> p1 = Lead /\ evs = [e].
Proof.
  intros (s0 & c & p0 & -> & Er & Ec) Eu. rewrite (srun_snoc _ _ _ _ Er), Ec in Eu. by injection Eu as <- <-.
Qed.

Lemma linear_block b : wf b -> linear b 0 -> (read_block b).2 = size b.
Proof.
  intros Hw Hl. pose proof (read_block_le b Hw). destruct (is_empty b) eqn:E.
  - apply (size_empty b Hw) in E. lia.
  - assert (head b = tail b -> full b = true) as Hne.
    { intros Hht. destruct (full b) eqn:Ef; [done|]. rewrite (proj2 (is_empty_spec b)) in E by done. done. }
    destruct Hw as [Hh Ht Hf]. unfold read_block, linear, size, max_size in *. rewrite E in *.
    destruct (full b); ncases; lia.
Qed.

Lemma linear_produce c b n : wf b -> linear b (length c + n) ->
  (length c <= (write_block b).1.2)%nat /\ linear (produce c b) n.
Proof.
  intros Hw Hl. assert (length c <= (write_block b).1.2)%nat as Hc.
  { destruct (is_empty b) eqn:E.
    - pose proof (proj2 (size_empty b Hw) E). unfold linear in Hl. unfold write_block. rewrite E. simpl. lia.
    - destruct (full b) eqn:Ef.
      + unfold linear, size in Hl. rewrite Ef in Hl. lia.
      + assert (head b <> tail b) as Hne by (intros Hht; rewrite (proj2 (is_empty_spec b)) in E by done; done).
        destruct Hw as [Hh Ht Hf]. unfold write_block, is_full, linear, size in *. rewrite E, Ef in *.
        revert Hl. ncases. }
  split; [done|]. destruct (produce_ok c b Hw Hc) as (Hw' & Hcont & Hm). unfold linear in *. rewrite Hm.
  assert (size (produce c b) = size b + length c)%nat as -> by (rewrite <- !length_contents, Hcont, length_app by done; done).
  assert (head (produce c b) = if is_empty b then 0%nat else head b) as ->.
  { unfold produce, write_block. destruct (is_empty b); [|destruct (is_full b), (tail b <? head b)%nat];
      unfold commit_write, fill; simpl; by destruct (0 <? length c)%nat. }
  destruct (is_empty b) eqn:E; [apply (size_empty b Hw) in E; lia|].
  assert (size b <> 0%nat) by (intros H; apply (size_empty b Hw) in H; congruence). lia.
Qed.

Lemma receive_all_single chunks : forall b k p e, wf b -> rel k p -> Forall (fun c => c <> []) chunks ->
  linear b (length (concat chunks)) -> single p (contents b ++ concat chunks) e ->
  (acclen p + size b + length (concat chunks) < RSP_PACKET_MAX_LEN)%nat -> chunks <> [] ->
  exists b' k', receive_all chunks b k = Done (b', k', [e]) /\ contents b' = [] /\ rel k' Lead.
Proof.
  induction chunks as [|c chunks IH]; intros b k p e Hw Hr Hne Hlin Hs Hfit; [done|]. intros _.
  apply Forall_cons in Hne as [Hc Hne]. simpl in Hlin, Hs, Hfit. rewrite length_app in Hlin, Hfit.
  destruct (linear_produce c b _ Hw Hlin) as [Hcl Hlin']. destruct (produce_ok c b Hw Hcl) as (Hw1 & Hc1 & Hm1).
  assert (size (produce c b) = size b + length c)%nat as Hs1 by (rewrite <- !length_contents, Hc1, length_app by done; done).
  simpl. unfold receive. rewrite (proj2 (Nat.leb_le _ _) Hcl).
  destruct (decode_ok (produce c b) k p Hw1 Hr ltac:(lia)) as (b2 & k2 & evs & used & p2 & -> & [Hw2 Hm2 Hu2 Hr2 Hrel2 Hf2 Hl2 _ Hst]).
  specialize (Hst eq_refl). rewrite app_assoc, <- Hc1, Hu2, <- app_assoc in Hs.
  destruct (decide (contents b2 ++ concat chunks = [])) as [Hnil|Hmore].
  - rewrite Hnil, app_nil_r in Hs. apply app_nil in Hnil as [Hb2 Hcat].
    destruct (single_whole _ _ _ _ _ Hs Hr2) as [-> ->].
    destruct chunks as [|c2 chunks]; [|apply Forall_cons in Hne as [? _]; by destruct c2].
    simpl. by exists b2, k2.
  - destruct (single_split _ _ _ _ _ _ Hs Hr2 Hmore) as [-> Hs2]. destruct chunks as [|c2 chunks].
    + exfalso. simpl in Hmore, Hs2. rewrite app_nil_r in Hmore, Hs2.
      destruct Hst as [?|[(? & ? & Hev & _)|[[acc ->] Hb]]]; [done|by destruct x0|].
      rewrite (linear_block b2 Hw2 (Hl2 _ Hlin')), <- length_contents in Hb by done.
      destruct (contents b2) as [|c0 [|]]; try discriminate.
      destruct (single_whole _ _ _ (Crc1 acc c0) [] Hs2 eq_refl) as [? _]. done.
    + destruct (IH b2 k2 p2 e Hw2 Hrel2 Hne (Hl2 _ Hlin') Hs2) as (b3 & k3 & -> & Hc3 & Hk3); [lia|done|].
      by exists b3, k3.
Qed.

(** C34: A packet survives the wire. The packet that [encode] makes of any bytes without run-length encoding
    (as rsp.cpp calls it; a run is encoded with one repetition too many otherwise, see [run_too_long]),
    received in any number of non-empty parts of any lengths by a new codec from a new input buffer, makes the
    decoder call back exactly once, with the bytes that were encoded, and leaves nothing pending; this holds
    for every packet of less than RSP_PACKET_MAX_LEN characters that is no longer than the input buffer. On a
    buffer already used, a checksum split by the end of the buffer is never read, see [crc_stuck]. *)
Theorem codec_roundtrip data packet chunks cap :
  Forall byte data -> encode_packet data true = Some packet -> concat chunks = packet ->
  Forall (fun c => c <> []) chunks -> (length packet < RSP_PACKET_MAX_LEN)%nat -> (length packet <= cap)%nat ->
  exists b k, receive_all chunks (new_cbuf cap) new_codec = Done (b, k, [Packet data]) /\ contents b = [] /\ rel k Lead.
Proof.
  intros Hb He Hcat Hne Hlen Hcap. assert (packet = frame data) as Hp.
  { rewrite encode_packet_plain in He by done. destruct (_ <=? _)%nat; by inversion He. }
  assert (0 < cap)%nat as Hpos by (destruct packet; [done|simpl in *; lia]).
  destruct (new_wf cap Hpos) as [Hw Hc]. apply (receive_all_single _ _ _ Lead); try done.
  - apply new_codec_rel.
  - left. split; [done|]. unfold max_size. simpl. rewrite length_replicate, Hcat. lia.
  - rewrite Hc, Hcat, Hp. apply frame_run.
  - simpl. unfold size. simpl. rewrite Hcat. lia.
  - intros ->. simpl in Hcat. subst packet. done.
Qed.

(** The bytes "m}#1*" in three parts, the first inside an escape. *)
Lemma codec_roundtrip_witness :
  exists b k, receive_all [[36; 109; 125]; [93; 125; 3; 49]; [125; 10; 35; 55; 102]] (new_cbuf 64) new_codec =
    Done (b, k, [Packet [109; 125; 35; 49; 42]]) /\ contents b = [] /\ rel k Lead.
Proof.
  apply (codec_roundtrip [109; 125; 35; 49; 42] [36; 109; 125; 93; 125; 3; 49; 125; 10; 35; 55; 102]);
    [repeat (apply Forall_cons; split; [unfold byte; lia|]); by apply Forall_nil|vm_compute; reflexivity|reflexivity|by repeat constructor|
     apply Nat.ltb_lt; vm_compute; reflexivity|apply Nat.leb_le; vm_compute; reflexivity].
Defined.

(** ** What the codec does not handle *)

(** A character of the protocol that follows a packet in the same block waits for the next reception:
    "$a#61" and a Ctrl-C. *)
Lemma ctrlc_after_packet_waits :
  match receive [36; 97; 35; 54; 49; 3] (new_cbuf 64) new_codec with
  | Done (b, _, evs) => evs = [Packet [97]] /\ contents b = [3]
  | _ => False
  end.
Proof. vm_compute. done. Qed.

(** Once the first character of a checksum is in the last cell of the buffer, the decoder never leaves
    STATE_CRC: the block it is given holds one character, whatever is received. *)
Lemma crc_stuck chunks : forall b k b' k' evs, wf b -> m_decode_state k = STATE_CRC ->
  head b = (max_size b - 1)%nat -> contents b <> [] ->
  receive_all chunks b k = Done (b', k', evs) -> k' = k /\ evs = [] /\ contents b `prefix_of` contents b'.
Proof.
  induction chunks as [|c chunks IH]; intros b k b' k' evs Hw Hst Hh Hc; simpl; [by intros [= <- <- <-]|].
  unfold receive. destruct (Nat.leb_spec (length c) (write_block b).1.2) as [Hl|]; [|done].
  destruct (produce_ok c b Hw Hl) as (Hw' & Hc' & Hm).
  assert (is_empty b = false) as Hne by (apply not_true_is_false; rewrite <- contents_nil; done).
  assert (head (produce c b) = head b) as Hh'.
  { unfold produce, write_block. rewrite Hne. destruct (is_full b), (tail b <? head b)%nat;
      unfold commit_write, fill; simpl; by destruct (0 <? length c)%nat. }
  assert (contents (produce c b) <> []) as Hc1 by (rewrite Hc'; intros [? _]%app_nil; done).
  assert ((read_block (produce c b)).2 = 1)%nat as Hblk.
  { pose proof (read_block_pos _ Hw' Hc1) as Hp. destruct Hw' as [Hh1 Ht1 _]. unfold read_block in *.
    destruct (is_empty (produce c b)); [simpl in Hp; lia|]. revert Hp. rewrite Hh', Hh, Hm in *. ncases. }
  unfold decode. rewrite Nat.add_comm. simpl decode_loop. unfold decoder. rewrite Hst, Hblk. simpl.
  destruct (receive_all chunks (produce c b) k) as [[[b2 k2] evs2]| |] eqn:E; [|done..]. intros [= <- <- <-].
  apply IH in E as (-> & -> & Hpre); [|done|done|by rewrite Hh', Hm|done]. split; [done|]. split; [done|].
  rewrite Hc' in Hpre. eapply prefix_app_l. done.
Qed.

(** A buffer filled by "$" and a body, with "#" and one character of the checksum in its last cells. *)
Lemma crc_stuck_reached :
  match decode (produce [36; 97; 35; 54] (new_cbuf 4)) new_codec with
  | Done (b, k, evs) => evs = [] /\ m_decode_state k = STATE_CRC /\ head b = (max_size b - 1)%nat /\ contents b = [54]
  | _ => False
  end.
Proof. vm_compute. done. Qed.

(** The body is copied before its length is checked: a block that goes past [m_pkt] is written past it. *)
Lemma body_overruns b k : wf b -> m_decode_state k = STATE_BODY -> m_escaped k = false ->
  Forall (fun c => c <> ESC /\ c <> RSP_PKT_END_CHAR) (bytes (read_block b) b) ->
  (RSP_PACKET_MAX_LEN < m_cur k + (read_block b).2)%nat -> contents b <> [] -> decoder b k = None.
Proof.
  intros Hw Hst He Hl Hlen Hc. unfold decoder. rewrite Hst, He. cbv zeta. pose proof (read_block_pos b Hw Hc) as Hp.
  rewrite (proj2 (Nat.ltb_lt _ _) Hp).
  assert (forall l i, Forall (fun c => c <> ESC /\ c <> RSP_PKT_END_CHAR) l ->
    scan_for_hash l i false = ((i + length l)%nat, false, false)) as Hscan.
  { induction l as [|c l IH]; intros i Hf; simpl; [by rewrite Nat.add_0_r|]. apply Forall_cons in Hf as [[H1 H2] Hf].
    destruct (Z.eqb_spec c ESC), (Z.eqb_spec c RSP_PKT_END_CHAR); try done. rewrite IH, Nat.add_succ_r by done. done. }
  rewrite Hscan, length_read_block by done. simpl. rewrite (proj2 (Nat.ltb_lt _ _) Hlen). done.
Qed.

(** The characters that a run-length-encoded packet stands for: "c*n" is c, then n - 29 more. *)
Fixpoint expand (prev : Z) (l : list Z) : list Z :=
  match l with
  | [] => []
  | c :: l =>
      if c =? STAR then
        match l with n :: l => replicate (Z.to_nat (n - 29)) prev ++ expand prev l | [] => [] end
      else c :: expand c l
  end.

(** The run length counts the character itself: a run of [n] decodes to [n + 1] characters. *)
Lemma run_too_long c n : byte c -> c <> STAR -> (3 <= n <= 97)%nat -> n <> 6%nat -> n <> 7%nat ->
  exists crc, flush_seq n c n ([], 0) = ([c; STAR; Z.of_nat n + 29], crc) /\
    expand 0 [c; STAR; Z.of_nat n + 29] = replicate (S n) c.
Proof.
  intros Hb Hc Hn H6 H7. destruct n as [|n'] eqn:En; [lia|]. cbn [flush_seq]. rewrite <- En in *.
  rewrite (proj2 (Nat.ltb_lt 0 n)), (proj2 (Nat.ltb_ge n 3)) by lia. unfold run_len.
  rewrite (proj2 (Nat.eqb_neq n 6)), (proj2 (Nat.eqb_neq n 7)), (proj2 (Nat.ltb_ge 126 (n + 29))) by lia. simpl orb. cbv iota.
  rewrite Nat.sub_diag. eexists. split.
  - assert (forall rc, flush_seq n' c 0 rc = rc) as -> by (intros; by destruct n'). unfold emit. cbn [fst snd app].
    rewrite uw_sw, (uw_small 8 c), (uw_small 8 STAR), (uw_small 8 (Z.of_nat (n + 29))) by (unfold STAR; done || lia).
    rewrite Nat2Z.inj_add. reflexivity.
  - simpl expand. destruct (Z.eqb_spec c STAR); [done|]. simpl. rewrite app_nil_r. f_equal.
    f_equal. lia.
Qed.
