(* ===== verification/GdbServer.v ===== *)
(** GDB server (models/gdbserver/rsp.cpp, gdbserver.cpp; engine/include/vp/gdbserver/gdbserver_engine.hpp)
    and the side of the core it drives (iss_wrapper::gdbserver_* of iss_wrapper.cpp).

    A request packet goes through [on_packet]: the acknowledge is queued, [decode] dispatches to a handler,
    which replies through [send]. The cores are behind the class [Gdbserver_core], the memory behind the
    port [out]. The sockets, the threads and their lock, and the traces are left out: [send_ret] is what
    ::send returns for the characters it is given, and those it took are appended to [wire]. *)

From Stdlib Require Import String Ascii.
From S2P Require Import Prelude Io Rv32 CircBuf RspCodec Core.

#[local] Open Scope Z_scope.

(** ** C strings and formats *)
Definition str (s : string) : list Z := map (fun c => Z.of_N (N_of_ascii c)) (list_ascii_of_string s).

(** strncmp (s, data, n) == 0 for a [s] without a null character. *)
Definition starts_with (s data : list Z) : bool := bool_decide (s `prefix_of` data).

Definition is_space (c : Z) : bool := (c =? 32) || ((9 <=? c) && (c <=? 13)).
Definition hex_value (c : Z) : option Z :=
  if (48 <=? c) && (c <=? 57) then Some (c - 48)
  else if (97 <=? c) && (c <=? 102) then Some (c - 87)
  else if (65 <=? c) && (c <=? 70) then Some (c - 55)
  else None.
Definition dec_value (c : Z) : option Z := if (48 <=? c) && (c <=? 57) then Some (c - 48) else None.

(** The digits at the head of [l], at most [width] of them: how many, their value, and the rest. *)
Fixpoint scan_digits (digit : Z -> option Z) (base : Z) (width : nat) (acc : Z) (l : list Z) : nat * Z * list Z :=
  match width, l with
  | S width, c :: l' =>
      match digit c with
      | Some d => let '(n, v, r) := scan_digits digit base width (acc * base + d) l' in (S n, v, r)
      | None => (0%nat, acc, l)
      end
  | _, _ => (0%nat, acc, l)
  end.

Fixpoint skip_spaces (l : list Z) : list Z :=
  match l with c :: l' => if is_space c then skip_spaces l' else l | [] => [] end.

(** The sign and the rest. *)
Definition scan_sign (l : list Z) : bool * nat * list Z :=
  match l with
  | c :: l' => if c =? 45 then (true, 1%nat, l') else if c =? 43 then (false, 1%nat, l') else (false, 0%nat, l)
  | [] => (false, 0%nat, l)
  end.

(** The conversions %x and %d of sscanf, of a field of at most [width] characters; a value past 64 bits
    saturates like strtoul and strtol, and the int stored keeps its low 32 bits. *)
Definition skip_0x (width : nat) (l : list Z) : nat * list Z :=
  match l with
  | z :: x :: d :: l' =>
      if (z =? 48) && ((x =? 120) || (x =? 88)) && (2 <? width)%nat && bool_decide (is_Some (hex_value d))
      then ((width - 2)%nat, d :: l') else (width, l)
  | _ => (width, l)
  end.
Definition scan_x (width : nat) (l : list Z) : option (Z * list Z) :=
  let '(neg, n, l) := scan_sign (skip_spaces l) in
  let (width, l) := skip_0x (width - n) l in
  match scan_digits hex_value 16 width 0 l with
  | (O, _, _) => None
  | (_, v, r) => let v := Z.min v (2 ^ 64 - 1) in Some (u32 (if neg then - v else v), r)
  end.

Definition scan_d (l : list Z) : option (Z * list Z) :=
  let '(neg, _, l) := scan_sign (skip_spaces l) in
  match scan_digits dec_value 10 (length l) 0 l with
  | (O, _, _) => None
  | (_, v, r) => let v := if neg then - v else v in Some (s32 (Z.max (- 2 ^ 63) (Z.min v (2 ^ 63 - 1))), r)
  end.

Definition atoi (l : list Z) : Z := match scan_d l with Some (v, _) => v | None => 0 end.

(** A literal character of the format. *)
Definition scan_lit (c : Z) (l : list Z) : option (list Z) :=
  match l with d :: l' => if d =? c then Some l' else None | [] => None end.

(** %0<n>x and %x of an unsigned int. *)
Definition digit_of (upper : bool) (d : Z) : Z := if d <? 10 then 48 + d else (if upper then 55 else 87) + d.
Fixpoint hex_pad (upper : bool) (n : nat) (v : Z) : list Z :=
  match n with O => [] | S n => hex_pad upper n (v / 16) ++ [digit_of upper (v mod 16)] end.
Fixpoint hex_digits (v : Z) (n : nat) : nat :=
  match n with O => 1%nat | S n => if v <? 16 then 1%nat else S (hex_digits (v / 16) n) end.
Definition hex_min (upper : bool) (width : nat) (v : Z) : list Z := hex_pad upper (Nat.max width (hex_digits v 8)) v.

(** htonl and ntohl on a little-endian host. *)
Definition htonl (v : Z) : Z := pack 8 (rev (lanes 8 4 v)).
Definition ntohl (v : Z) : Z := htonl v.

(** ** The interface of a core *)
Inductive core_state := running | stopped.
#[export] Instance core_state_eq_dec : EqDecision core_state.
Proof. solve_decision. Defined.

(** [gdbserver_stop] is the part of it after the call to Gdbserver_engine::signal, which the server makes
    here. A value of reg_set, reg_get and regs_get is a 32-bit register; reg_get gives None when it leaves
    the destination as it is, and regs_get the register size and the registers. *)
Class Gdbserver_core (C : Type) := {
  gdbserver_get_id : C -> Z;
  gdbserver_get_name : C -> list Z;
  gdbserver_reg_set : Z -> Z -> C -> Z * C;
  gdbserver_reg_get : Z -> C -> Z * option Z;
  gdbserver_regs_get : C -> Z * list Z;
  gdbserver_stop : C -> C;
  gdbserver_cont : C -> Z * C;
  gdbserver_stepi : C -> Z * C;
  gdbserver_state : C -> core_state
}.

Section server.
Context {C : Type} `{Gdbserver_core C} {S : Type}.

(** What answers the port [out]: the address, the data and whether it is a write; the status and the latency. *)
Variable out_req : Z -> list Z -> bool -> S -> io_req_status_e * Z * S.
(** What ::send returns for a block of characters: how many it took, or a negative number. *)
Variable send_ret : list Z -> Z.

(** ** State of Gdb_server and Rsp: [event] is the delay of the pending event. *)
Record server := Server {
  cores : gmap Z (option C);
  cores_list : list Z;
  active_core : Z;
  pending_access : bool;
  event : option Z;
  out : S;
  out_buffer : cbuf;
  active_core_for_other : Z;
  wire : list Z
}.

Definition DEFAULT_THREAD : Z := 9.
Definition RSP_PACKET_MAX_SIZE : nat := Z.to_nat (16 * 1024).
Definition REPLY_BUF_LEN : nat := 256.

Definition set_cores x (s : server) := Server x (cores_list s) (active_core s) (pending_access s) (event s) (out s) (out_buffer s) (active_core_for_other s) (wire s).
Definition set_active_core_id x (s : server) := Server (cores s) (cores_list s) x (pending_access s) (event s) (out s) (out_buffer s) (active_core_for_other s) (wire s).
Definition set_pending_access x (s : server) := Server (cores s) (cores_list s) (active_core s) x (event s) (out s) (out_buffer s) (active_core_for_other s) (wire s).
Definition set_event x (s : server) := Server (cores s) (cores_list s) (active_core s) (pending_access s) x (out s) (out_buffer s) (active_core_for_other s) (wire s).
Definition set_out x (s : server) := Server (cores s) (cores_list s) (active_core s) (pending_access s) (event s) x (out_buffer s) (active_core_for_other s) (wire s).
Definition set_out_buffer x (s : server) := Server (cores s) (cores_list s) (active_core s) (pending_access s) (event s) (out s) x (active_core_for_other s) (wire s).
Definition set_active_core_for_other x (s : server) := Server (cores s) (cores_list s) (active_core s) (pending_access s) (event s) (out s) (out_buffer s) x (wire s).
Definition set_wire x (s : server) := Server (cores s) (cores_list s) (active_core s) (pending_access s) (event s) (out s) (out_buffer s) (active_core_for_other s) x.

(** A call: its value and the state; [None] is a null dereference or a write past a buffer. *)
Definition M (A : Type) : Type := server -> option (A * server).
#[local] Instance M_ret : MRet M := fun A a s => Some (a, s).
#[local] Instance M_bind : MBind M := fun A B k m s => match m s with Some (a, s) => k a s | None => None end.
Definition get {A} (f : server -> A) : M A := fun s => Some (f s, s).
Definition modify (f : server -> server) : M unit := fun s => Some (tt, f s).
Definition crash {A} : M A := fun _ => None.

(** ** Gdb_server *)
Definition register_core (id : Z) (core : C) (s : server) : server :=
  let s := set_cores (<[id := Some core]> (cores s)) s in
  Server (cores s) (cores_list s ++ [id]) (active_core s) (pending_access s) (event s) (out s) (out_buffer s)
    (active_core_for_other s) (wire s).

(** operator[] of the map: a null pointer is inserted at an id it does not have. *)
Definition cores_at (id : Z) : M (option C) := fun s =>
  match cores s !! id with
  | Some c => Some (c, s)
  | None => Some (None, set_cores (<[id := None]> (cores s)) s)
  end.

Definition set_active_core (id : Z) : M Z :=
  c ← cores_at id;
  match c with Some _ => modify (set_active_core_id id);; mret 0 | None => mret (-1) end.

Definition get_core (id : Z) : M (option C) :=
  a ← get active_core;
  cores_at (if id =? -1 then a else id).

(** A method called through the pointer returned by get_core, which is not checked. *)
Definition call {A} (id : Z) (f : C -> A * C) : M A :=
  a ← get active_core;
  c ← get_core id;
  match c with
  | Some c => let (r, c) := f c in
              modify (fun s => set_cores (<[(if id =? -1 then a else id) := Some c]> (cores s)) s);; mret r
  | None => crash
  end.
Definition query_core {A} (id : Z) (f : C -> A) : M A :=
  c ← get_core id; match c with Some c => mret (f c) | None => crash end.

(** ** Rsp: replies *)
Definition lift {A} (m : cbuf -> outcome (A * cbuf)) : M A := fun s =>
  match m (out_buffer s) with
  | Done (a, b) => Some (a, set_out_buffer b s)
  | _ => None
  end.

Definition send (data : list Z) : M bool :=
  lift (encode data true);;
  b ← get out_buffer;
  let blk := read_block b in
  let chars := bytes blk b in
  modify (fun s => set_wire (wire s ++ take (Z.to_nat (send_ret chars)) chars) s);;
  if negb (send_ret chars =? Z.of_nat blk.2) then mret false
  else modify (fun s => set_out_buffer (commit_read blk.2 (out_buffer s)) s);; mret true.

Definition send_str (data : string) : M bool := send (str data).

Definition signal : M bool :=
  state ← query_core (-1) gdbserver_state;
  id ← query_core (-1) gdbserver_get_id;
  modify (set_active_core_for_other id);;
  send (str "S" ++ hex_min false 2 (if bool_decide (state = running) then 0 else 17)).

(** ** Handlers: [data] is the packet after its first character. *)
Definition reg_write (data : list Z) : M bool :=
  match scan_x (List.length data) data with
  | Some (addr, r) =>
      match scan_lit 61 r with
      | Some r =>
          match scan_x 8 r with
          | Some (wdata, _) =>
              other ← get active_core_for_other;
              err ← call other (gdbserver_reg_set addr (ntohl wdata));
              if negb (err =? 0) then send_str "E01" else send_str "OK"
          | None => mret false
          end
      | None => mret false
      end
  | None => mret false
  end.

Definition reg_read (data : list Z) : M bool :=
  match scan_x (List.length data) data with
  | Some (addr, _) =>
      other ← get active_core_for_other;
      r ← query_core other (gdbserver_reg_get addr);
      if negb (r.1 =? 0) then send_str "E01"
      else send (hex_pad false 8 (htonl (default 0 r.2)))
  | None => mret false
  end.

Definition io_access_done (status : Z) : M bool := if negb (status =? 0) then send_str "E03" else send_str "OK".

(** Gdb_server::io_access; a status other than OK and INVALID stops the program. *)
Definition io_access (addr : Z) (data : list Z) (is_write : bool) : M Z :=
  pending ← get pending_access;
  if (pending : bool) then mret (-1)
  else
    modify (set_pending_access true);;
    o ← get out;
    let '(err, latency, o) := out_req addr data is_write o in
    modify (set_out o);;
    match err with
    | IO_REQ_OK => modify (set_event (Some (latency + 1)));; mret 0
    | IO_REQ_INVALID => io_access_done (-1);; mret 0
    | _ => crash
    end.

(** Gdb_server::handle, when the event is due. *)
Definition handle : M bool :=
  modify (set_event None);;
  pending ← get pending_access;
  if (pending : bool) then modify (set_pending_access false);; io_access_done 0 else mret false.

(** The data after the first ':' of the packet. *)
Fixpoint after_colon (data : list Z) : option (list Z) :=
  match data with [] => None | c :: data => if c =? 58 then Some data else after_colon data end.

Definition mem_write (data : list Z) : M bool :=
  match scan_x (List.length data) data with
  | Some (addr, r) =>
      match scan_lit 44 r with
      | Some r =>
          match scan_x (List.length r) r with
          | Some (_, _) =>
              match after_colon data with
              | Some payload => io_access addr payload true;; mret false
              | None => mret false
              end
          | None => mret false
          end
      | None => mret false
      end
  | None => mret false
  end.

Definition multithread (data : list Z) : M bool :=
  match data with
  | c :: rest =>
      if (c =? 99) || (c =? 103) then
        match scan_d rest with
        | Some (thread_id, _) =>
            if thread_id =? -1 then send_str "OK"
            else
              let thread_id := if negb (thread_id =? 0) then thread_id - 1 else DEFAULT_THREAD in
              if c =? 99 then
                err ← set_active_core thread_id;
                if negb (err =? 0) then send_str "E01" else send_str "OK"
              else modify (set_active_core_for_other thread_id);; send_str "OK"
        | None => mret false
        end
      else mret false
  | [] => mret false
  end.

(** The reply buffer has REPLY_BUF_LEN characters, the last one null. *)
Definition send_reply (reply : list Z) : M bool :=
  if (List.length reply <? REPLY_BUF_LEN)%nat then send reply else crash.

(** The ids of the cores that registered. *)
Fixpoint thread_ids (ids : list Z) : M (list Z) :=
  match ids with
  | [] => mret []
  | id :: ids =>
      t ← query_core id gdbserver_get_id;
      ts ← thread_ids ids; mret (hex_min false 1 (u32 (t + 1)) ++ str "," ++ ts)
  end.

Definition query (data : list Z) : M bool :=
  if starts_with (str "qSupported") data then
    send (str "PacketSize=" ++ hex_min false 1 (Z.of_nat RSP_PACKET_MAX_SIZE) ++ str ";vContSupported+;hwbreak+")
  else if starts_with (str "qTStatus") data then send_str ""
  else if starts_with (str "qfThreadInfo") data then
    ids ← get cores_list;
    ts ← thread_ids ids;
    let reply := str "m" ++ ts in send_reply (take (List.length reply - 1) reply)
  else if starts_with (str "qsThreadInfo") data then send_str "l"
  else if starts_with (str "qAttached") data then send_str "1"
  else if starts_with (str "qC") data then send_str ""
  else if starts_with (str "qOffsets") data then send_str "Text=0;Data=0;Bss=0"
  else if starts_with (str "qSymbol") data then send_str "OK"
  else if starts_with (str "qThreadExtraInfo") data then
    match scan_lit 44 (drop 16 data) ≫= scan_x (List.length data) with
    | Some (thread_id, _) =>
        c ← get_core (s32 (thread_id - 1));
        let name := match c with Some c => gdbserver_get_name c | None => str "Unknown Core" end in
        send_reply (List.concat (map (fun c => hex_min true 2 (u32 (s8 c))) name))
    | None => send_str "E01"
    end
  else send_str "".

(** The commands of vCont, between ';'; a command and, after its ':', the thread. *)
Fixpoint split (sep : Z) (cur : list Z) (data : list Z) : list (list Z) :=
  match data with
  | [] => match cur with [] => [] | _ => [rev cur] end
  | c :: data =>
      if c =? sep then match cur with [] => split sep [] data | _ => rev cur :: split sep [] data end
      else split sep (c :: cur) data
  end.

Definition vcont_command (cmd : list Z) : M unit :=
  match after_colon cmd with
  | Some t => let tid := atoi t in if negb (tid =? 0) then set_active_core (tid - 1);; mret tt else mret tt
  | None => mret tt
  end;;
  match cmd with
  | c :: _ =>
      if (c =? 67) || (c =? 99) then call (-1) gdbserver_cont;; mret tt
      else if (c =? 83) || (c =? 115) then call (-1) gdbserver_stepi;; mret tt
      else mret tt
  | [] => mret tt
  end.

Fixpoint vcont (cmds : list (list Z)) : M unit :=
  match cmds with [] => mret tt | cmd :: cmds => vcont_command cmd;; vcont cmds end.

(** strncmp on the shorter of the name and the packet. *)
Definition matches (name data : list Z) : bool :=
  bool_decide (take (List.length data) name = take (Nat.min (List.length name) (List.length data)) data).

Definition v_packet (data : list Z) : M bool :=
  if matches (str "vCont?") data then send_str "vCont;c;s;C;S"
  else if matches (str "vCont") data then vcont (split 59 [] (drop 6 data));; send_str "OK"
  else send_str "".

Definition regs_send : M bool :=
  other ← get active_core_for_other;
  r ← query_core other gdbserver_regs_get;
  if r.1 =? 4 then
    if (List.length r.2 * 8 <? 512)%nat then send (List.concat (map (fun v => hex_pad false 8 (htonl v)) r.2)) else crash
  else send (List.concat (replicate 33 (str "00000000"))).

Definition decode (data : list Z) : M bool :=
  match data with
  | [] => mret false
  | c :: rest =>
      if c =? 113 then query data
      else if c =? 118 then v_packet data
      else if c =? 72 then multithread rest
      else if c =? 63 then signal
      else if c =? 103 then regs_send
      else if c =? 88 then mem_write rest
      else if c =? 112 then reg_read rest
      else if c =? 80 then reg_write rest
      else if (c =? 99) || (c =? 67) then r ← call (-1) gdbserver_cont; mret (negb (r =? 0))
      else mret false
  end.

(** ** The callbacks of the codec, in proxy_loop *)
Definition on_packet (pkt : list Z) : M bool := lift encode_ack;; decode pkt.
Definition on_ctrlc : M bool := r ← signal; call (-1) (fun c => (tt, gdbserver_stop c));; mret r.
Definition on_event (e : RspCodec.event) : M unit :=
  match e with
  | CtrlC => on_ctrlc;; mret tt
  | Packet pkt => on_packet pkt;; mret tt
  | Ack | TooLong | CrcError => mret tt
  end.

(** ** Effects of the handlers *)

(** What a call does to the state, whatever it returns. *)
Definition does (R : server -> server -> Prop) {A} (m : M A) : Prop := forall s a s', m s = Some (a, s') -> R s s'.

Section does.
Context (R : server -> server -> Prop) `{!PreOrder R}.

Lemma does_ret {A} (a : A) : does R (mret a).
Proof. intros s x s' [= <- <-]. reflexivity. Qed.
Lemma does_get {A} (f : server -> A) : does R (get f).
Proof. intros s x s' [= <- <-]. reflexivity. Qed.
Lemma does_crash {A} : does R (crash (A := A)).
Proof. intros s x s'. done. Qed.
Lemma does_modify f : (forall s, R s (f s)) -> does R (modify f).
Proof. intros Hf s x s' [= <- <-]. apply Hf. Qed.
Lemma does_bind {A B} (m : M A) (k : A -> M B) : does R m -> (forall a, does R (k a)) -> does R (m ≫= k).
Proof.
  intros Hm Hk s b s'. unfold mbind, M_bind. destruct (m s) as [[a s1]|] eqn:E; [|done]. intros E2.
  etrans; [by eapply Hm|by eapply Hk].
Qed.
End does.
Hint Resolve does_ret does_get does_crash : gv.

(** Splits a handler along its binds and its branches. *)
Ltac does_step :=
  match goal with
  | |- does _ (mbind _ _) => apply does_bind; [try apply _| |intros ?]
  | |- does _ (let (_, _) := ?x in _) => destruct x
  | |- does _ (match ?x with _ => _ end) => destruct x eqn:?
  | |- does _ (mret _) => apply does_ret; apply _
  | |- does _ (get _) => apply does_get; apply _
  | |- does _ crash => apply does_crash
  | |- does _ (modify _) => apply does_modify; intros ?
  end.
Ltac does_tac := repeat (cbv beta zeta; does_step); eauto with gv.

(** Calls that touch neither the output nor an access. *)
Definition same_io (s s' : server) : Prop :=
  out_buffer s' = out_buffer s /\ wire s' = wire s /\ pending_access s' = pending_access s /\ event s' = event s /\ out s' = out s.
#[local] Instance same_io_preorder : PreOrder same_io.
Proof. split; [by intros s|]. unfold same_io. intros s1 s2 s3. intuition congruence. Qed.

Lemma cores_at_same id : does same_io (cores_at id).
Proof. intros s a s'. unfold cores_at. destruct (cores s !! id); intros [= <- <-]; done. Qed.
Hint Resolve cores_at_same : gv.
Lemma get_core_same id : does same_io (get_core id).
Proof. unfold get_core. does_tac. Qed.
Hint Resolve get_core_same : gv.
Lemma call_same {A} id (f : C -> A * C) : does same_io (call id f).
Proof. unfold call. does_tac. done. Qed.
Lemma query_core_same {A} id (f : C -> A) : does same_io (query_core id f).
Proof. unfold query_core. does_tac. Qed.
Lemma set_active_core_same id : does same_io (set_active_core id).
Proof. unfold set_active_core. does_tac. done. Qed.
Hint Resolve call_same query_core_same set_active_core_same : gv.
Lemma thread_ids_same ids : does same_io (thread_ids ids).
Proof. induction ids; simpl; does_tac. Qed.
Lemma vcont_same cmds : does same_io (vcont cmds).
Proof. induction cmds; simpl; unfold vcont_command; does_tac. Qed.
Hint Resolve thread_ids_same vcont_same : gv.

(** Calls that only leave the output as it is. *)
Definition same_out (s s' : server) : Prop := out_buffer s' = out_buffer s /\ wire s' = wire s.
#[local] Instance same_out_preorder : PreOrder same_out.
Proof. split; [by intros s|]. unfold same_out. intros s1 s2 s3. intuition congruence. Qed.

Lemma does_same_out {A} (m : M A) : does same_io m -> does same_out m.
Proof. intros Hm s a s' E. destruct (Hm s a s' E) as (? & ? & _). done. Qed.

(** Calls that leave the access as it is. *)
Definition same_access (s s' : server) : Prop :=
  pending_access s' = pending_access s /\ event s' = event s /\ out s' = out s.
#[local] Instance same_access_preorder : PreOrder same_access.
Proof. split; [by intros s|]. unfold same_access. intros s1 s2 s3. intuition congruence. Qed.

Lemma does_same_access {A} (m : M A) : does same_io m -> does same_access m.
Proof. intros Hm s a s' E. destruct (Hm s a s' E) as (? & ? & ? & ? & ?). done. Qed.

Lemma lift_access {A} (m : cbuf -> outcome (A * cbuf)) : does same_access (lift m).
Proof. intros s a s'. unfold lift. destruct (m (out_buffer s)) as [[? ?]| |]; intros [= <- <-] || intros; done. Qed.
Hint Resolve lift_access : gv.
Lemma send_access r : does same_access (send r).
Proof. unfold send. does_tac; done. Qed.
Hint Resolve send_access : gv.

(** ** Replies *)
(** The longest reply has 511 characters; in the buffer, the acknowledges not sent yet come before it. *)
Definition room (s : server) : Prop :=
  wf (out_buffer s) /\ max_size (out_buffer s) = RSP_PACKET_MAX_SIZE /\ linear (out_buffer s) 2048.

(** A reply was given to ::send after the acknowledges that wait, in one packet: the characters that ::send took
    are on the wire, and they are removed from the buffer only when it took all of them. *)
Definition replied (r : list Z) (s s' : server) : Prop :=
  let chars := contents (out_buffer s) ++ frame r in
  wire s' = wire s ++ take (Z.to_nat (send_ret chars)) chars /\
  contents (out_buffer s') = (if send_ret chars =? Z.of_nat (List.length chars) then [] else chars) /\
  wf (out_buffer s') /\ max_size (out_buffer s') = RSP_PACKET_MAX_SIZE.

Lemma frame_fits r : (List.length r <= 512)%nat -> (List.length (frame r) <= 2048)%nat.
Proof.
  intros Hr. unfold frame. cbn [List.length]. rewrite length_app. pose proof (length_escaped r). simpl. lia.
Qed.

Lemma empty_room b : wf b -> contents b = [] -> max_size b = RSP_PACKET_MAX_SIZE -> linear b 2048.
Proof.
  intros Hw Hc Hm. left. split; [apply size_empty, contents_nil; done|]. rewrite Hm. apply Nat.leb_le. vm_compute. done.
Qed.

Lemma linear_weaken b n m : (m <= n)%nat -> linear b n -> linear b m.
Proof. unfold linear. lia. Qed.

(** What [send] does, whatever ::send takes. *)
Lemma send_replied r s : Forall byte r -> (List.length r <= 512)%nat -> room s ->
  exists ok s', send r s = Some (ok, s') /\ replied r s s' /\ same_access s s' /\
    ok = (let chars := contents (out_buffer s) ++ frame r in send_ret chars =? Z.of_nat (List.length chars)).
Proof.
  intros Hb Hr (Hw & Hm & Hl). pose proof (frame_fits r Hr) as Hf.
  destruct (linear_produce (frame r) (out_buffer s) 0 Hw) as [Hblk Hlin]; [eapply linear_weaken; [|done]; lia|].
  destruct (produce_ok _ _ Hw Hblk) as (Hw1 & Hc1 & Hm1). set (b1 := produce (frame r) (out_buffer s)) in *.
  assert (encode r true (out_buffer s) = Done (true, b1)) as He.
  { unfold encode. rewrite encode_packet_plain by done.
    assert (2048 <= RSP_PACKET_MAX_LEN)%nat by (apply Nat.leb_le; vm_compute; done).
    rewrite (proj2 (Nat.leb_le (List.length (frame r)) RSP_PACKET_MAX_LEN)) by lia.
    rewrite write_copy_fits by done. by rewrite Nat.eqb_refl. }
  pose proof (linear_block b1 Hw1 Hlin) as Hb2. pose proof (read_block_bytes b1 Hw1) as Hby.
  rewrite Hb2, take_ge in Hby by (rewrite length_contents; done).
  destruct (commit_read_ok (size b1) b1 Hw1 ltac:(lia)) as [Hw2 Hc2].
  rewrite <- (length_contents b1 Hw1) in Hc2 at 2. rewrite drop_all in Hc2.
  unfold send, mbind, M_bind, lift, get, modify, mret, M_ret, replied. rewrite He. cbn [out_buffer set_out_buffer wire].
  rewrite Hby, Hb2, <- Hc1, (length_contents b1 Hw1). cbv zeta.
  destruct (send_ret (contents b1) =? Z.of_nat (size b1)); cbn [negb]; eexists _, _; (split; [reflexivity|]);
    cbn [out_buffer set_out_buffer wire set_wire]; (split; [|by split]); (split; [done|]); rewrite ?max_size_commit_read, ?Hm1;
    by split_and!.
Qed.

(** A call makes at most one reply. *)
Definition answers {A} (m : M A) : Prop := forall s a s', room s -> m s = Some (a, s') ->
  same_out s s' \/ exists r, Forall byte r /\ (List.length r <= 512)%nat /\ replied r s s'.

Lemma room_same s s' : same_out s s' -> room s -> room s'.
Proof. intros [Hb _]. unfold room. by rewrite Hb. Qed.

Lemma answers_quiet {A} (m : M A) : does same_out m -> answers m.
Proof. intros Hm s a s' _ E. left. by eapply Hm. Qed.

Lemma answers_send r : Forall byte r -> (List.length r <= 512)%nat -> answers (send r).
Proof.
  intros Hb Hr s a s' Hroom E. destruct (send_replied r s Hb Hr Hroom) as (ok & s1 & E1 & Hs & _).
  rewrite E in E1. injection E1 as -> ->. right. by exists r.
Qed.

Lemma answers_then {A B} (m : M A) (k : A -> M B) : does same_out m -> (forall a, answers (k a)) -> answers (m ≫= k).
Proof.
  intros Hm Hk s b s' Hroom. unfold mbind, M_bind. destruct (m s) as [[a s1]|] eqn:E; [|done]. intros E2.
  pose proof (Hm _ _ _ E) as H1. destruct (Hk a s1 b s' (room_same _ _ H1 Hroom) E2) as [H2|(r & Hb & Hr & Hw & Hc)].
  - left. by etrans.
  - right. exists r. split; [done|]. split; [done|]. destruct H1 as [Hbuf Hwire]. unfold replied. by rewrite Hw, Hbuf, Hwire, <-Hbuf.
Qed.

Lemma answers_finish {A B} (m : M A) (k : A -> M B) : answers m -> (forall a, does same_out (k a)) -> answers (m ≫= k).
Proof.
  intros Hm Hk s b s' Hroom. unfold mbind, M_bind. destruct (m s) as [[a s1]|] eqn:E; [|done]. intros E2.
  pose proof (Hk a _ _ _ E2) as H2. destruct (Hm _ _ _ Hroom E) as [H1|(r & Hb & Hr & Hw & Hc)].
  - left. by etrans.
  - right. exists r. split; [done|]. split; [done|]. destruct H2 as [Hbuf Hwire].
    unfold replied. by rewrite Hwire, Hbuf.
Qed.

(** The characters of replies. *)
Lemma byte_str x : Forall byte (str x).
Proof.
  unfold str. apply Forall_map, Forall_forall. intros a _. unfold byte. pose proof (N_ascii_bounded a). lia.
Qed.

Lemma length_hex_pad upper n v : List.length (hex_pad upper n v) = n.
Proof. revert v. induction n as [|n IH]; intros v; simpl; [done|]. rewrite length_app, IH. simpl. lia. Qed.

Lemma byte_hex_pad upper n v : Forall byte (hex_pad upper n v).
Proof.
  revert v. induction n as [|n IH]; intros v; simpl; [constructor|]. apply Forall_app. split; [done|].
  apply Forall_singleton. unfold digit_of, byte. pose proof (Z.mod_pos_bound v 16 ltac:(lia)).
  destruct (v mod 16 <? 10), upper; lia.
Qed.

Lemma length_hex_digits n v : (hex_digits v n <= Datatypes.S n)%nat.
Proof. revert v. induction n as [|n IH]; intros v; simpl; [lia|]. destruct (v <? 16); [lia|]. pose proof (IH (v / 16)). lia. Qed.

Lemma length_hex_min upper w v : (w <= 9)%nat -> (List.length (hex_min upper w v) <= 9)%nat.
Proof. intros Hw. unfold hex_min. rewrite length_hex_pad. pose proof (length_hex_digits 8 v). lia. Qed.

Lemma byte_hex_min upper w v : Forall byte (hex_min upper w v).
Proof. apply byte_hex_pad. Qed.
Hint Resolve byte_str byte_hex_pad byte_hex_min : gv.

Lemma byte_concat l : Forall (Forall byte) l -> Forall byte (List.concat l).
Proof. apply Forall_concat. Qed.

Lemma length_str x : List.length (str x) = String.length x.
Proof. unfold str. rewrite length_map. induction x; simpl; [done|]. by f_equal. Qed.

Lemma answers_str x : (String.length x <= 512)%nat -> answers (send_str x).
Proof.
  intros Hl. apply answers_send; [apply byte_str|]. by rewrite length_str.
Qed.

Lemma answers_reply r : Forall byte r -> answers (send_reply r).
Proof.
  intros Hb. unfold send_reply, REPLY_BUF_LEN. destruct (Nat.ltb_spec (List.length r) 256).
  - apply answers_send; [done|lia].
  - by intros s a s'.
Qed.

Ltac quiet := solve [apply does_same_out; eauto with gv typeclass_instances; does_tac; done | does_tac; done].
Ltac answers_tac :=
  repeat (cbv beta zeta;
    match goal with
    | |- answers (send_str _) => apply answers_str; simpl; lia
    | |- answers (send_reply _) => apply answers_reply
    | |- answers (mbind _ _) => apply answers_then; [quiet|intros ?]
    | |- answers (let (_, _) := ?x in _) => destruct x
    | |- answers (match ?x with _ => _ end) => destruct x eqn:?
    | |- answers (mret _) => apply answers_quiet, does_ret; apply _
    | |- answers crash => by intros ? ? ?
    end).

Lemma reg_write_answers data : answers (reg_write data).
Proof. unfold reg_write. answers_tac. Qed.
Lemma reg_read_answers data : answers (reg_read data).
Proof. unfold reg_read. answers_tac. apply answers_send; [apply byte_hex_pad|rewrite length_hex_pad; lia]. Qed.
Lemma signal_answers : answers signal.
Proof.
  unfold signal. answers_tac. apply answers_send; [apply Forall_app; eauto with gv|].
  rewrite length_app. pose proof (length_hex_min false 2 (if bool_decide (a = running) then 0 else 17) ltac:(lia)). simpl. lia.
Qed.

Lemma io_access_done_answers status : answers (io_access_done status).
Proof. unfold io_access_done. answers_tac. Qed.
Lemma io_access_answers addr data w : answers (io_access addr data w).
Proof.
  unfold io_access. answers_tac. apply answers_finish; [apply io_access_done_answers|]. intros. apply does_ret, _.
Qed.
Lemma mem_write_answers data : answers (mem_write data).
Proof.
  unfold mem_write. answers_tac. apply answers_finish; [apply io_access_answers|]. intros. apply does_ret, _.
Qed.
Lemma multithread_answers data : answers (multithread data).
Proof. unfold multithread. answers_tac. Qed.
Lemma Forall_byte_take n l : Forall byte l -> Forall byte (take n l).
Proof. apply Forall_take. Qed.

Lemma thread_ids_bytes ids : forall s l s', thread_ids ids s = Some (l, s') -> Forall byte l.
Proof.
  induction ids as [|id ids IH]; intros s l s'; simpl; [by intros [= <- <-]|]. unfold mbind, M_bind, mret, M_ret.
  destruct (query_core id gdbserver_get_id s) as [[t s1]|]; [|done].
  destruct (thread_ids ids s1) as [[ts s2]|] eqn:E; [|done]. intros [= <- <-].
  apply Forall_app; split; [auto with gv|]. apply Forall_cons; split; [unfold byte; lia|]. by eapply IH.
Qed.

Lemma thread_info_answers : answers (ids ← get cores_list; ts ← thread_ids ids;
  let reply := str "m" ++ ts in send_reply (take (List.length reply - 1) reply)).
Proof.
  intros s a s' Hroom. unfold mbind, M_bind, get. destruct (thread_ids (cores_list s) s) as [[ts s1]|] eqn:E; [|done].
  intros E2. pose proof (thread_ids_same (cores_list s) _ _ _ E) as (Hb & Hw & _).
  assert (same_out s s1) as Hs by done.
  eapply answers_reply in E2; [|apply Forall_take, Forall_app; split; [auto with gv|by eapply thread_ids_bytes]|by eapply room_same].
  destruct E2 as [H2|(r & Hbr & Hl & Hw2 & Hc)].
  - left. by etrans.
  - right. exists r. split; [done|]. split; [done|]. unfold replied. by rewrite Hw2, Hb, Hw, <-Hb.
Qed.

Lemma query_answers data : answers (query data).
Proof.
  unfold query. repeat (match goal with |- answers (if starts_with ?a ?b then _ else _) => destruct (starts_with a b) end;
    try match goal with |- answers (send_str _) => apply answers_str; simpl; lia end).
  - pose proof (byte_hex_min false 1 (Z.of_nat RSP_PACKET_MAX_SIZE)) as Hb.
    pose proof (length_hex_min false 1 (Z.of_nat RSP_PACKET_MAX_SIZE) ltac:(lia)) as Hl. revert Hb Hl.
    generalize (hex_min false 1 (Z.of_nat RSP_PACKET_MAX_SIZE)). intros l Hb Hl.
    apply answers_send; [apply Forall_app; split; [apply byte_str|apply Forall_app; split; [done|apply byte_str]]|].
    rewrite !length_app, !length_str. cbn [String.length]. lia.
  - apply thread_info_answers.
  - destruct (_ ≫= _) as [[t r]|]; [|apply answers_str; simpl; lia].
    answers_tac. apply byte_concat, Forall_map, Forall_forall. eauto with gv.
Qed.

Lemma v_packet_answers data : answers (v_packet data).
Proof. unfold v_packet. answers_tac. Qed.

Lemma regs_send_answers : answers regs_send.
Proof.
  unfold regs_send. answers_tac.
  - apply answers_send; [apply byte_concat, Forall_map, Forall_forall; eauto with gv|].
    match goal with H : (_ <? 512)%nat = true |- _ => apply Nat.ltb_lt in H; revert H end.
    generalize (a0.2). intros l Hl. assert (List.length (List.concat (map (fun v => hex_pad false 8 (htonl v)) l)) =
      List.length l * 8)%nat as ->; [|lia]. clear. induction l as [|v l IH]; [done|]. cbn [map List.concat].
    rewrite length_app, length_hex_pad, IH. simpl. lia.
  - apply answers_send; [apply byte_concat; by repeat constructor|simpl; lia].
Qed.

Lemma decode_answers data : answers (decode data).
Proof.
  unfold decode. destruct data as [|c rest]; [apply answers_quiet, does_ret, _|].
  repeat (match goal with |- answers (if ?b then _ else _) => destruct b end;
    [solve [apply query_answers|apply v_packet_answers|apply multithread_answers|apply signal_answers|apply regs_send_answers|
            apply mem_write_answers|apply reg_read_answers|apply reg_write_answers|answers_tac]|]).
  apply answers_quiet, does_ret, _.
Qed.

Lemma encode_ack_ok b : wf b -> linear b 2049 ->
  exists b', encode_ack b = Done (true, b') /\ wf b' /\ contents b' = contents b ++ [RSP_ACK_CHAR] /\
    max_size b' = max_size b /\ linear b' 2048.
Proof.
  intros Hw Hl. destruct (linear_produce RSP_ACK_STR b 2048 Hw Hl) as [Hblk Hlin].
  destruct (produce_ok _ _ Hw Hblk) as (Hw1 & Hc1 & Hm1). exists (produce RSP_ACK_STR b).
  split; [|done]. unfold encode_ack. rewrite write_copy_fits by done. by rewrite Nat.eqb_refl.
Qed.

(** C36: Handling a request acknowledges it once and makes at most one reply (that of a memory write comes
    later, with its event, when the memory accepts it). When the output buffer, of RSP_PACKET_MAX_SIZE
    characters, has 2049 contiguous free ones after those that wait (as when it is empty), handling a packet
    either makes no reply and leaves one acknowledge after those that wait, or gives to ::send, after these,
    the acknowledge and one packet, which are read as the acknowledge and the reply, unchanged, whatever its
    bytes. Whatever ::send does, the characters it takes are on the wire in order; when it takes all of them
    the buffer is empty, and when it fails or takes a part they all stay in the buffer (the part sent will be
    sent again with the next reply). Nothing is claimed of a request on which the server stops, as with an
    unknown core. *)
Theorem requests_answered pkt s x s' :
  wf (out_buffer s) -> max_size (out_buffer s) = RSP_PACKET_MAX_SIZE -> linear (out_buffer s) 2049 ->
  on_packet pkt s = Some (x, s') ->
  (wire s' = wire s /\ contents (out_buffer s') = contents (out_buffer s) ++ [RSP_ACK_CHAR]) \/
  (exists reply, let chars := contents (out_buffer s) ++ RSP_ACK_CHAR :: frame reply in
     wire s' = wire s ++ take (Z.to_nat (send_ret chars)) chars /\
     contents (out_buffer s') = (if send_ret chars =? Z.of_nat (List.length chars) then [] else chars) /\
     srun Lead (RSP_ACK_CHAR :: frame reply) = (Lead, [Ack; Packet reply])).
Proof.
  intros Hw Hm Hl. destruct (encode_ack_ok _ Hw Hl) as (b & Eb & Hwb & Hcb & Hmb & Hlb).
  unfold on_packet, mbind, M_bind, lift. rewrite Eb. intros E.
  apply decode_answers in E; [|split; [done|]; split; [cbn; congruence|done]].
  destruct E as [[Hb Hwi]|(r & _ & _ & Hwi & Hc & _)]; cbn [out_buffer set_out_buffer wire] in *.
  - left. by rewrite Hwi, Hb.
  - right. exists r. rewrite Hcb, <- app_assoc in Hwi, Hc. split; [exact Hwi|]. split; [exact Hc|].
    destruct (frame_run r) as (s0 & c & p0 & -> & E1 & E2).
    change (srun Lead (RSP_ACK_CHAR :: s0 ++ [c])) with (let (p, evs) := srun Lead (s0 ++ [c]) in (p, [Ack] ++ evs)).
    rewrite (srun_snoc _ _ _ _ E1), E2. done.
Qed.

(** ** Memory accesses *)

(** The packet "X addr,length:data", as the address and the data it carries. *)
Definition write_request (addr : Z) (payload data : list Z) : Prop :=
  exists r r' n, scan_x (List.length data) data = Some (addr, 44 :: r) /\
    scan_x (List.length r) r = Some (n, r') /\ after_colon data = Some payload.

Lemma mem_write_request addr payload data s : write_request addr payload data ->
  mem_write data s = match io_access addr payload true s with Some (_, s') => Some (false, s') | None => None end.
Proof.
  intros (r & r' & n & E1 & E2 & E3). unfold mem_write. rewrite E1. simpl. rewrite E2, E3. reflexivity.
Qed.

(** Once an access is refused, none is made any more. *)
Definition wedged (s s' : server) : Prop :=
  pending_access s = true -> event s = None -> pending_access s' = true /\ event s' = None /\ out s' = out s.
#[local] Instance wedged_preorder : PreOrder wedged.
Proof. split; [by intros s|]. unfold wedged. intros s1 s2 s3. intuition congruence. Qed.

Lemma does_wedged {A} (m : M A) : does same_access m -> does wedged m.
Proof. intros Hm s a s' E Hp He. destruct (Hm s a s' E) as (-> & -> & ->). done. Qed.
Lemma wedged_same_io {A} (m : M A) : does same_io m -> does wedged m.
Proof. intros Hm. apply does_wedged, does_same_access, Hm. Qed.
Hint Resolve does_wedged wedged_same_io : gv.

Lemma io_access_wedged addr data w : does wedged (io_access addr data w).
Proof. intros s a s' E Hp He. revert E. unfold io_access, mbind, M_bind, get, mret, M_ret. rewrite Hp. by intros [= <- <-]. Qed.
Hint Resolve io_access_wedged : gv.

Lemma decode_wedged data : does wedged (decode data).
Proof.
  unfold decode, query, v_packet, multithread, signal, regs_send, mem_write, reg_read, reg_write, send_reply, send_str.
  does_tac; done.
Qed.

Lemma on_event_wedged e : does wedged (on_event e).
Proof.
  destruct e; unfold on_event, on_ctrlc, on_packet, signal; repeat (cbv beta zeta; first [apply decode_wedged|does_step]);
    eauto with gv; done.
Qed.

(** The calls of the codec, one after the other. *)
Fixpoint on_events (es : list RspCodec.event) : M unit :=
  match es with [] => mret tt | e :: es => on_event e;; on_events es end.

(** C37: After a write that the memory refuses, the debugger cannot access the memory any more: whatever it
    sends, no access reaches the port, the one refused stays pending, and a write gets no answer, whatever
    ::send takes. *)
Theorem refused_access_wedges addr payload data s latency o es u s1 s2 :
  write_request addr payload data -> pending_access s = false -> event s = None ->
  out_req addr payload true (out s) = (IO_REQ_INVALID, latency, o) ->
  mem_write data s = Some (false, s1) -> on_events es s1 = Some (u, s2) ->
  pending_access s2 = true /\ event s2 = None /\ out s2 = out s1 /\ mem_write data s2 = Some (false, s2).
Proof.
  intros Hreq Hp He Hout E1 E2.
  assert (pending_access s1 = true /\ event s1 = None) as [Hp1 He1].
  { rewrite (mem_write_request _ _ _ _ Hreq) in E1. revert E1. unfold io_access, mbind, M_bind, get, modify, mret, M_ret.
    rewrite Hp. cbn. rewrite Hout. unfold io_access_done, send_str. cbn [negb Z.eqb].
    destruct (send (str "E03") _) as [[ok s3]|] eqn:E; [|done]. intros [= <-].
    destruct (send_access _ _ _ _ E) as (Hp3 & He3 & _). rewrite Hp3, He3. by split. }
  assert (does wedged (on_events es)) as Hwd.
  { clear. induction es as [|e es IH]; simpl; [apply does_ret, _|]. apply does_bind; [apply _|apply on_event_wedged|done]. }
  destruct (Hwd _ _ _ E2 Hp1 He1) as (Hp2 & He2 & Ho2). repeat split; try done.
  rewrite (mem_write_request _ _ _ _ Hreq). unfold io_access, mbind, M_bind, get. by rewrite Hp2.
Qed.

(** ** Registers *)

(** What a debugger reads in a reply: two hexadecimal characters for each byte. *)
Fixpoint unhex (l : list Z) : option (list Z) :=
  match l with
  | a :: b :: l =>
      match hex_value a, hex_value b, unhex l with
      | Some x, Some y, Some r => Some (16 * x + y :: r)
      | _, _, _ => None
      end
  | [] => Some []
  | [_] => None
  end.

Lemma hex_value_digit u d : 0 <= d < 16 -> hex_value (digit_of u d) = Some d.
Proof. intros Hd. unfold hex_value, digit_of. destruct u; bcases; f_equal; lia. Qed.

Lemma unhex_app l1 l2 r1 : unhex l1 = Some r1 -> unhex (l1 ++ l2) = (r2 ← unhex l2; Some (r1 ++ r2)).
Proof.
  revert r1. induction l1 as [l1 IH] using (induction_ltof1 _ (@List.length Z)). unfold ltof in IH. intros r1.
  destruct l1 as [|a [|b l1]]; simpl; [by intros [= <-]; destruct (unhex l2)|done|].
  destruct (hex_value a) as [x|], (hex_value b) as [y|]; try done. destruct (unhex l1) as [r|] eqn:E; [|done].
  intros [= <-]. rewrite (IH l1 ltac:(simpl; lia) r E). by destruct (unhex l2).
Qed.

Lemma unhex_hex_pad u n v : 0 <= v -> unhex (hex_pad u (2 * n) v) = Some (rev (lanes 8 n v)).
Proof.
  revert v. induction n as [|n IH]; intros v Hv; [done|]. replace (2 * Datatypes.S n)%nat with (Datatypes.S (Datatypes.S (2 * n))) by lia.
  cbn [hex_pad lanes rev]. rewrite <- app_assoc.
  rewrite Z.div_div by lia. change (16 * 16) with (2 ^ 8). rewrite <- Z.shiftr_div_pow2 by lia.
  rewrite (unhex_app _ _ _ (IH (Z.shiftr v 8) ltac:(apply Z.shiftr_nonneg; lia))). cbn [app unhex].
  rewrite !hex_value_digit by (apply Z.mod_pos_bound; lia). cbn [mbind option_bind]. do 3 f_equal.
  unfold uw. change (2 ^ 8) with (16 * 16). rewrite Z.rem_mul_r by lia. lia.
Qed.

Lemma unhex_htonl v : unhex (hex_pad false 8 (htonl v)) = Some (lanes 8 4 v).
Proof.
  assert (0 <= htonl v) as Hn by (apply pack_range; lia).
  pose proof (unhex_hex_pad false 4 (htonl v) Hn) as E0. simpl (2 * 4)%nat in E0. rewrite E0. f_equal. unfold htonl.
  pose proof (lanes_pack 8 (rev (lanes 8 4 v)) ltac:(lia)) as E. rewrite length_rev, length_lanes in E. rewrite E.
  simpl. rewrite !uw_idemp by lia. done.
Qed.

Lemma hex_value_byte_digit u d : 0 <= d < 16 -> is_space (digit_of u d) = false /\ digit_of u d <> 45 /\ digit_of u d <> 43 /\
  digit_of u d <> 120 /\ digit_of u d <> 88.
Proof. intros Hd. unfold is_space, digit_of. destruct u; bcases; repeat split; lia. Qed.

Lemma hex_pad_cons u n v :
  hex_pad u (Datatypes.S n) v = digit_of u (v / 16 ^ Z.of_nat n mod 16) :: hex_pad u n (v mod 16 ^ Z.of_nat n).
Proof.
  revert v. induction n as [|n IH]; intros v.
  - simpl. by rewrite Z.div_1_r.
  - pose proof (IH (v / 16)) as E. cbn [hex_pad] in *. rewrite E. rewrite Nat2Z.inj_succ, Z.pow_succ_r by lia.
    rewrite Z.div_div by lia. simpl. f_equal. rewrite (Z.rem_mul_r v 16) by lia. f_equal.
    + f_equal. rewrite (Z.add_comm (v mod 16)), (Z.mul_comm 16), Z.div_add_l by lia.
      rewrite (Z.div_small (v mod 16)) by (apply Z.mod_pos_bound; lia). lia.
    + f_equal. f_equal. rewrite (Z.mul_comm 16), Z.mod_add by lia. symmetry. apply Z.mod_mod. lia.
Qed.

Lemma scan_digits_pad u n : forall v w acc rest, 0 <= v < 16 ^ Z.of_nat n -> (n <= w)%nat ->
  (w = n \/ exists c l, rest = c :: l /\ hex_value c = None) ->
  scan_digits hex_value 16 w acc (hex_pad u n v ++ rest) = (n, acc * 16 ^ Z.of_nat n + v, rest).
Proof.
  induction n as [|n IH]; intros v w acc rest Hv Hw Hrest.
  - simpl in *. replace v with 0 by lia. rewrite Z.mul_1_r, Z.add_0_r. destruct Hrest as [->|(c & l & -> & Hc)]; [done|].
    destruct w; simpl; [done|]. by rewrite Hc.
  - rewrite Nat2Z.inj_succ, Z.pow_succ_r in * by lia. destruct w as [|w]; [lia|]. rewrite hex_pad_cons. cbn [app scan_digits].
    rewrite hex_value_digit by (apply Z.mod_pos_bound; lia).
    rewrite IH; [|apply Z.mod_pos_bound; lia|lia|destruct Hrest; [left; lia|by right]].
    do 2 f_equal. rewrite Z.mod_small; [|split; [apply Z.div_pos; lia|apply Z.div_lt_upper_bound; lia]].
    pose proof (Z.div_mod v (16 ^ Z.of_nat n) ltac:(lia)). lia.
Qed.

Lemma skip_0x_none w l : (forall z x l', l = z :: x :: l' -> x <> 120 /\ x <> 88) -> skip_0x w l = (w, l).
Proof.
  intros Hx. destruct l as [|z [|x [|d l]]]; simpl; try done. destruct (Hx z x (d :: l) eq_refl) as [H1 H2].
  apply Z.eqb_neq in H1, H2. by rewrite H1, H2, andb_false_r.
Qed.

(** %x reads back what %x and %08x print. *)
Lemma scan_x_pad u n v w rest : (0 < n <= w)%nat -> 0 <= v < 16 ^ Z.of_nat n -> v < 2 ^ 32 ->
  (w = n \/ exists c l, rest = c :: l /\ hex_value c = None) -> (forall c l, rest = c :: l -> c <> 120 /\ c <> 88) ->
  scan_x w (hex_pad u n v ++ rest) = Some (v, rest).
Proof.
  intros Hn Hv H32 Hrest Hx. pose proof (scan_digits_pad u n v w 0 rest Hv ltac:(lia) Hrest) as E.
  assert (forall x, let c := digit_of u (x mod 16) in is_space c = false /\ c <> 45 /\ c <> 43 /\ c <> 120 /\ c <> 88) as Hd
    by (intros; apply hex_value_byte_digit, Z.mod_pos_bound; lia).
  assert (skip_0x w (hex_pad u n v ++ rest) = (w, hex_pad u n v ++ rest)) as E0.
  { apply skip_0x_none. intros z x l. destruct n as [|[|n]]; [lia|rewrite hex_pad_cons; simpl; intros [= _ E1]; by eapply Hx|].
    rewrite !hex_pad_cons. simpl. intros [= _ <- _]. apply Hd. }
  assert (scan_sign (skip_spaces (hex_pad u n v ++ rest)) = (false, 0%nat, hex_pad u n v ++ rest)) as E1.
  { destruct n as [|n]; [lia|]. rewrite hex_pad_cons. destruct (Hd (v / 16 ^ Z.of_nat n)) as (Hs & Hm & Hp & _).
    apply Z.eqb_neq in Hm, Hp. cbn [app skip_spaces]. rewrite Hs. cbn [scan_sign]. by rewrite Hm, Hp. }
  unfold scan_x. rewrite E1, Nat.sub_0_r, E0, E. destruct n as [|n]; [lia|]. rewrite Z.mul_0_l, Z.add_0_l.
  rewrite Z.min_l, uw_small by lia. done.
Qed.

(** The debugger's request to set register [n] to [v]: "n=" and the bytes of [v] in memory order. *)
Definition set_request (n v : Z) : list Z := hex_min false 1 n ++ 61 :: hex_pad false 8 (htonl v).

Lemma hex_digits_enough v n : 0 <= v < 16 ^ Z.of_nat (Datatypes.S n) -> v < 16 ^ Z.of_nat (hex_digits v n).
Proof.
  revert v. induction n as [|n IH]; intros v Hv; [apply Hv|]. cbn [hex_digits]. destruct (Z.ltb_spec v 16) as [|Hge]; [simpl; lia|].
  rewrite (Nat2Z.inj_succ (Datatypes.S n)), Z.pow_succ_r in Hv by lia. rewrite Nat2Z.inj_succ, Z.pow_succ_r by lia.
  assert (0 <= v / 16 < 16 ^ Z.of_nat (Datatypes.S n)) as Hq by (split; [apply Z.div_pos; lia|apply Z.div_lt_upper_bound; lia]).
  pose proof (IH _ Hq). pose proof (Z.div_mod v 16 ltac:(lia)). pose proof (Z.mod_pos_bound v 16 ltac:(lia)). lia.
Qed.

Lemma htonl_range v : 0 <= htonl v < 2 ^ 32.
Proof. apply (pack_range 8 (rev (lanes 8 4 v))). lia. Qed.

Lemma htonl_involutive v : 0 <= v < 2 ^ 32 -> ntohl (htonl v) = v.
Proof.
  intros Hv. unfold ntohl, htonl. pose proof (lanes_pack 8 (rev (lanes 8 4 v)) ltac:(lia)) as E.
  rewrite length_rev, length_lanes in E. rewrite E. simpl rev. cbn [list_fmap fmap]. rewrite !uw_idemp by lia.
  transitivity (pack 8 (lanes 8 4 v)); [done|]. rewrite pack_lanes by lia. by apply uw_small.
Qed.

Lemma scan_set_request n v : 0 <= n < 2 ^ 32 -> 0 <= v < 2 ^ 32 ->
  scan_x (List.length (set_request n v)) (set_request n v) = Some (n, 61 :: hex_pad false 8 (htonl v)) /\
  scan_x 8 (hex_pad false 8 (htonl v)) = Some (htonl v, []).
Proof.
  intros Hn Hv. split.
  - unfold set_request, hex_min. apply scan_x_pad; [rewrite length_app, length_hex_pad; simpl; lia| |lia| |].
    + split; [lia|]. eapply Z.lt_le_trans; [apply (hex_digits_enough n 8); simpl; lia|]. apply Z.pow_le_mono_r; lia.
    + right. by eexists _, _.
    + by intros c l [= <- _].
  - rewrite <- (app_nil_r (hex_pad false 8 (htonl v))) at 1. pose proof (htonl_range v).
    apply scan_x_pad; [lia|simpl; lia|lia|by left|done].
Qed.

(** A reply leaves the cores as they are. *)
Definition same_cores (s s' : server) : Prop := cores s' = cores s.
#[local] Instance same_cores_preorder : PreOrder same_cores.
Proof. split; [by intros s|]. unfold same_cores. intros s1 s2 s3. congruence. Qed.
Lemma send_cores r : does same_cores (send r).
Proof.
  unfold send. apply does_bind; [apply _| |intros ?; does_tac; done]. intros s a s'. unfold lift, same_cores.
  destruct (encode r true (out_buffer s)) as [[? ?]| |]; intros [= <- <-] || intros; done.
Qed.

(** ** When ::send takes everything *)
Section sends_all.
Hypothesis send_all : forall l, send_ret l = Z.of_nat (List.length l).

(** A reply is on the wire after the acknowledges that wait; nothing is left in the buffer. *)
Definition sent (r : list Z) (s s' : server) : Prop :=
  wire s' = wire s ++ contents (out_buffer s) ++ frame r /\ contents (out_buffer s') = [] /\ room s'.

Lemma send_sent r s : Forall byte r -> (List.length r <= 512)%nat -> room s ->
  exists s', send r s = Some (true, s') /\ sent r s s' /\ same_access s s'.
Proof.
  intros Hb Hr Hroom. destruct (send_replied r s Hb Hr Hroom) as (ok & s' & E & Hs & Ha & Hok). exists s'.
  unfold replied in Hs. rewrite send_all, Z.eqb_refl, Nat2Z.id, take_ge in Hs by done.
  cbv zeta in Hok. rewrite send_all, Z.eqb_refl in Hok. subst ok. split; [exact E|]. split; [|exact Ha].
  destruct Hs as (H1 & H2 & H3 & H4). split; [exact H1|]. split; [exact H2|]. split; [exact H3|]. split; [exact H4|]. by apply empty_room.
Qed.

(** A write of the debugger is carried out and answered. When no access is pending, the packet sends one
    write with its address and data to the port; if the memory accepts it, nothing is said until the event
    posted after its latency, and the handler of the event answers "OK" and leaves no access pending; if
    the memory refuses it, "E03" is answered at once, but the access stays pending. *)
Theorem memory_access_answered addr payload data s err latency o :
  room s -> write_request addr payload data -> pending_access s = false ->
  out_req addr payload true (out s) = (err, latency, o) ->
  match err with
  | IO_REQ_OK =>
      exists s1 s2, mem_write data s = Some (false, s1) /\ same_out s s1 /\ out s1 = o /\ event s1 = Some (latency + 1) /\
        handle s1 = Some (true, s2) /\ sent (str "OK") s1 s2 /\ pending_access s2 = false /\ event s2 = None /\ out s2 = o
  | IO_REQ_INVALID =>
      exists s1, mem_write data s = Some (false, s1) /\ sent (str "E03") s s1 /\ out s1 = o /\
        pending_access s1 = true /\ event s1 = event s
  | _ => mem_write data s = None
  end.
Proof.
  intros Hroom Hreq Hp Hout.
  assert (forall st, mem_write data st = match io_access addr payload true st with Some (_, s') => Some (false, s') | None => None end)
    as Hmw by (intros; by apply mem_write_request).
  unfold io_access, mbind, M_bind, get, modify, mret, M_ret in Hmw. specialize (Hmw s). rewrite Hp in Hmw. cbn in Hmw.
  rewrite Hout in Hmw. destruct err; try done.
  - destruct (send_sent (str "OK") (set_pending_access false (set_event None (set_event (Some (latency + 1)) (set_out o (set_pending_access true s))))))
      as (s2 & E & Hs & Hp2 & He2 & Ho2); [apply byte_str|simpl; lia|done|].
    eexists _, s2. split; [exact Hmw|]. split; [done|]. split; [done|]. split; [done|]. split; [exact E|]. done.
  - destruct (send_sent (str "E03") (set_out o (set_pending_access true s))) as (s1 & E & Hs & Hp2 & He2 & Ho2);
      [apply byte_str|simpl; lia|done|].
    exists s1. unfold io_access_done in Hmw. simpl negb in Hmw. cbv iota in Hmw. unfold send_str in Hmw. rewrite E in Hmw. done.
Qed.

(** Registers cross the protocol in both directions. A "P" request with the bytes of a value calls
    reg_set of the selected core with this value, and is answered by the status; the reply to "g" is the
    registers of the selected core, and a debugger that reads its hexadecimal characters finds their bytes in
    memory order. *)
Theorem registers_cross (id n v : Z) (core : C) (s : server) :
  room s -> id <> -1 -> active_core_for_other s = id -> cores s !! id = Some (Some core) ->
  0 <= n < 2 ^ 32 -> 0 <= v < 2 ^ 32 ->
  (gdbserver_regs_get core).1 = 4 -> (List.length (gdbserver_regs_get core).2 < 64)%nat ->
  (exists s', reg_write (set_request n v) s = Some (true, s') /\
     cores s' !! id = Some (Some (gdbserver_reg_set n v core).2) /\
     sent (str (if (gdbserver_reg_set n v core).1 =? 0 then "OK" else "E01")) s s') /\
  (exists s' reply, regs_send s = Some (true, s') /\ sent reply s s' /\
     unhex reply = Some (List.concat (map (lanes 8 4) (gdbserver_regs_get core).2))).
Proof.
  intros Hroom Hid Ho Hc Hn Hv H4 Hlen. apply Z.eqb_neq in Hid. split.
  - destruct (scan_set_request n v Hn Hv) as [E1 E2]. unfold reg_write. rewrite E1.
    change (scan_lit 61 (61 :: hex_pad false 8 (htonl v))) with (Some (hex_pad false 8 (htonl v))). cbv iota. rewrite E2.
    rewrite htonl_involutive by done. unfold call, get_core, cores_at, mbind, M_bind, get, modify, mret, M_ret.
    rewrite Ho, Hid, Hc. destruct (gdbserver_reg_set n v core) as [err core'] eqn:Er. simpl fst. simpl snd.
    set (s1 := set_cores _ s).
    destruct (send_sent (str (if err =? 0 then "OK" else "E01")) s1) as (s' & E & Hs & _);
      [apply byte_str|destruct (err =? 0); simpl; lia|done|].
    exists s'. split; [destruct (err =? 0); exact E|]. split; [|exact Hs].
    assert (cores s' = cores s1) as ->; [exact (send_cores _ _ _ _ E)|apply lookup_insert_eq].
  - unfold regs_send, query_core, get_core, cores_at, mbind, M_bind, get, mret, M_ret. rewrite Ho, Hid, Hc, H4. simpl Z.eqb. cbv iota.
    set (regs := (gdbserver_regs_get core).2) in *. rewrite (proj2 (Nat.ltb_lt _ _)) by lia.
    set (reply := List.concat (map (fun v => hex_pad false 8 (htonl v)) regs)).
    assert (Forall byte reply) as Hb by (apply byte_concat, Forall_map, Forall_forall; eauto with gv).
    assert (List.length reply = List.length regs * 8)%nat as Hl.
    { unfold reply. clear. induction regs as [|x l IH]; [done|]. cbn [map List.concat]. rewrite length_app, length_hex_pad, IH. simpl. lia. }
    destruct (send_sent reply s Hb ltac:(lia) Hroom) as (s' & E & Hs & _). exists s', reply. split; [exact E|]. split; [done|].
    unfold reply. clear. induction regs as [|x l IH]; [done|]. cbn [map List.concat].
    rewrite (unhex_app _ _ _ (unhex_htonl x)), IH. done.
Qed.

End sends_all.
End server.

(** ** The core of the instruction set simulator behind the interface (iss_wrapper.cpp)

    [answer] is what the fetch of the next instruction finds, [regs] the address of the register file; a
    value of a register other than the pc is refused with a message, and reg_get is not implemented. *)
Section iss_core.
Context {S : Type}.
Variables (regs : Z) (answer : fetch_answer) (name : list Z).

Definition iss_reg_set (reg value : Z) (w : wrapper (S := S)) : Z * wrapper (S := S) :=
  (0, if reg =? 32 then iss_pc_set value w else w).
Definition iss_regs_get (w : wrapper (S := S)) : Z * list Z :=
  (4, map (fun i => iss_get_reg_untimed regs (hst (w_iss w)) (Z.of_nat i)) (seq 0 32) ++ [current_insn (w_cpu w)]).

Definition iss_core : Gdbserver_core (wrapper (S := S)) := {|
  gdbserver_get_id w := c_mhartid (c_csr (w_ctl w));
  gdbserver_get_name w := name;
  gdbserver_reg_set := iss_reg_set;
  gdbserver_reg_get reg w := (0, None);
  gdbserver_regs_get := iss_regs_get;
  gdbserver_stop w := Core.gdbserver_stop answer w;
  gdbserver_cont w := (0, Core.gdbserver_cont answer w);
  gdbserver_stepi w := (0, Core.gdbserver_stepi answer w);
  gdbserver_state w := running
|}.
End iss_core.

(** ** A server with this core, and a memory of addresses below 4096 *)
#[local] Instance demo_core : Gdbserver_core (wrapper (S := unit)) := iss_core 4000 Hit (str "core").
Definition demo_mem (addr : Z) (data : list Z) (w : bool) (s : unit) : io_req_status_e * Z * unit :=
  (if addr <? 4096 then IO_REQ_OK else IO_REQ_INVALID, 3, s).
Definition demo_send (l : list Z) : Z := Z.of_nat (List.length l).
Definition demo_server : server (C := wrapper (S := unit)) (S := unit) :=
  set_active_core_for_other 0 (register_core 0 (reset_off false 128 0 Hit demo_built)
    (Server ∅ [] 9 false None tt (new_cbuf RSP_PACKET_MAX_SIZE) 0 [])).

Lemma demo_room : room demo_server.
Proof.
  assert (0 < RSP_PACKET_MAX_SIZE)%nat as H by (apply Nat.ltb_lt; vm_compute; reflexivity).
  destruct (new_wf _ H) as [Hw Hc]. split; [exact Hw|]. split; [apply length_replicate|].
  apply empty_room; [exact Hw|exact Hc|apply length_replicate].
Qed.

Lemma registers_cross_witness :
  exists core, cores demo_server !! 0 = Some (Some core) /\
  (exists s', reg_write demo_send (set_request 32 4660) demo_server = Some (true, s') /\
     cores s' !! 0 = Some (Some (gdbserver_reg_set 32 4660 core).2) /\
     sent (str (if (gdbserver_reg_set 32 4660 core).1 =? 0 then "OK" else "E01")) demo_server s') /\
  (exists s' reply, regs_send demo_send demo_server = Some (true, s') /\ sent reply demo_server s' /\
     unhex reply = Some (List.concat (map (lanes 8 4) (gdbserver_regs_get core).2))).
Proof.
  exists (reset_off false 128 0 Hit demo_built). split; [reflexivity|].
  apply (registers_cross demo_send (fun l => eq_refl) 0 32 4660 (reset_off false 128 0 Hit demo_built) demo_server demo_room);
    [discriminate|reflexivity|reflexivity|lia|lia|reflexivity|apply Nat.ltb_lt; vm_compute; reflexivity].
Defined.

(** "qAttached" is answered "1". *)
Lemma requests_answered_witness :
  exists x s', on_packet demo_mem demo_send (str "qAttached") demo_server = Some (x, s') /\
  ((wire s' = wire demo_server /\ contents (out_buffer s') = contents (out_buffer demo_server) ++ [RSP_ACK_CHAR]) \/
   (exists reply, let chars := contents (out_buffer demo_server) ++ RSP_ACK_CHAR :: frame reply in
     wire s' = wire demo_server ++ take (Z.to_nat (demo_send chars)) chars /\
     contents (out_buffer s') = (if demo_send chars =? Z.of_nat (List.length chars) then [] else chars) /\
     srun Lead (RSP_ACK_CHAR :: frame reply) = (Lead, [Ack; Packet reply]))).
Proof.
  destruct (on_packet demo_mem demo_send (str "qAttached") demo_server) as [[x s']|] eqn:E; [|exfalso; revert E; vm_compute; discriminate].
  exists x, s'. split; [reflexivity|]. destruct demo_room as (Hw & Hm & _).
  apply (requests_answered demo_mem demo_send (str "qAttached") demo_server x s' Hw Hm); [|exact E].
  left. split; [reflexivity|]. rewrite Hm. apply Nat.leb_le. vm_compute. reflexivity.
Defined.

(** "1000,2:ab" and, at an address the memory refuses, "10000,2:ab". *)
Lemma memory_access_answered_witness :
  exists s1 s2, mem_write demo_mem demo_send (str "800,2:ab") demo_server = Some (false, s1) /\ same_out demo_server s1 /\
    out s1 = tt /\ event s1 = Some 4 /\ handle demo_send s1 = Some (true, s2) /\ sent (str "OK") s1 s2 /\
    pending_access s2 = false /\ event s2 = None /\ out s2 = tt.
Proof.
  apply (memory_access_answered demo_mem demo_send (fun l => eq_refl) 2048 (str "ab") (str "800,2:ab") demo_server IO_REQ_OK 3 tt demo_room);
    [|reflexivity|reflexivity].
  exists (str "2:ab"), (str ":ab"), 2. repeat split; vm_compute; reflexivity.
Defined.

Lemma refused_access_wedges_witness :
  exists u s1 s2, mem_write demo_mem demo_send (str "10000,2:ab") demo_server = Some (false, s1) /\
    on_events demo_mem demo_send [Ack; Packet (str "X800,2:ab"); Packet (str "qC")] s1 = Some (u, s2) /\
    pending_access s2 = true /\ event s2 = None /\ out s2 = out s1 /\
    mem_write demo_mem demo_send (str "10000,2:ab") s2 = Some (false, s2).
Proof.
  destruct (mem_write demo_mem demo_send (str "10000,2:ab") demo_server) as [[[] s1]|] eqn:E1;
    [exfalso; revert E1; vm_compute; discriminate| |exfalso; revert E1; vm_compute; discriminate].
  destruct (on_events demo_mem demo_send [Ack; Packet (str "X800,2:ab"); Packet (str "qC")] s1) as [[u s2]|] eqn:E2.
  - exists u, s1, s2. split; [reflexivity|]. split; [exact E2|].
    apply (refused_access_wedges demo_mem demo_send 65536 (str "ab") (str "10000,2:ab") demo_server 3 tt
      [Ack; Packet (str "X800,2:ab"); Packet (str "qC")] u s1 s2); [|reflexivity..|exact E1|exact E2].
    exists (str "2:ab"), (str ":ab"), 2. repeat split; vm_compute; reflexivity.
  - exfalso. revert E2. pose (f := fun s1 => option_map (fun _ => tt) (on_events demo_mem demo_send [Ack; Packet (str "X800,2:ab"); Packet (str "qC")] s1)).
    assert (option_map (fun p => f p.2) (mem_write demo_mem demo_send (str "10000,2:ab") demo_server) = Some (Some tt)) as H
      by (vm_compute; reflexivity).
    rewrite E1 in H. injection H as H. unfold f in H. intros E2. rewrite E2 in H. discriminate.
Defined.
