(* ===== verification/Spiflash.v ===== *)
(** SPI flash (models/devices/spiflash/spiflash_impl.cpp).

    The device is driven by the edges of the clock, with the four data lines, by the chip select and by the
    event that ends an erase; it answers on the lines. A step gives the new state and what is sent; [None]
    is an access outside of the memory or a null command. Loading the memory from files and the traces are
    left out. *)

From S2P Require Import Prelude.

(** ** Constants *)
Definition CMD_READ_ID : Z := 0x9f.
Definition CMD_RDCR : Z := 0x35.
Definition CMD_WREN : Z := 0x06.
Definition CMD_WRR : Z := 0x48.
Definition CMD_WRAR : Z := 0x71.
Definition CMD_RDSR1 : Z := 0x05.
Definition CMD_P4E : Z := 0x20.
Definition CMD_PP : Z := 0x02.
Definition CMD_QIOR : Z := 0xEB.
Definition CMD_QIOR_4B : Z := 0xEC.
Definition CMD_READ : Z := 0x0C.
Definition CMD_READ_SIMPLE : Z := 0x03.
Definition CMD_RESET_ENABLE : Z := 0x66.
Definition CMD_RESET : Z := 0x99.
Definition CMD_SECTOR_ERASE : Z := 0xD8.
Definition CMD_READ_SR2V : Z := 0x07.

(** ** State: [erase_event] is the delay of the pending event. *)
Record spiflash := Spiflash {
  size : Z;
  mem_data : list Z;
  pending_word : Z;
  pending_bits : Z;
  pending_command : option Z;
  cr1 : Z;
  sr2v : Z;
  quad : bool;
  read : bool;
  waiting_command : bool;
  current_addr : Z;
  erase_event : option Z
}.

Definition set_mem_data x (s : spiflash) := Spiflash (size s) x (pending_word s) (pending_bits s) (pending_command s) (cr1 s) (sr2v s) (quad s) (read s) (waiting_command s) (current_addr s) (erase_event s).
Definition set_pending_word x (s : spiflash) := Spiflash (size s) (mem_data s) x (pending_bits s) (pending_command s) (cr1 s) (sr2v s) (quad s) (read s) (waiting_command s) (current_addr s) (erase_event s).
Definition set_pending_bits x (s : spiflash) := Spiflash (size s) (mem_data s) (pending_word s) x (pending_command s) (cr1 s) (sr2v s) (quad s) (read s) (waiting_command s) (current_addr s) (erase_event s).
Definition set_pending_command x (s : spiflash) := Spiflash (size s) (mem_data s) (pending_word s) (pending_bits s) x (cr1 s) (sr2v s) (quad s) (read s) (waiting_command s) (current_addr s) (erase_event s).
Definition set_cr1 x (s : spiflash) := Spiflash (size s) (mem_data s) (pending_word s) (pending_bits s) (pending_command s) x (sr2v s) (quad s) (read s) (waiting_command s) (current_addr s) (erase_event s).
Definition set_sr2v x (s : spiflash) := Spiflash (size s) (mem_data s) (pending_word s) (pending_bits s) (pending_command s) (cr1 s) x (quad s) (read s) (waiting_command s) (current_addr s) (erase_event s).
Definition set_quad x (s : spiflash) := Spiflash (size s) (mem_data s) (pending_word s) (pending_bits s) (pending_command s) (cr1 s) (sr2v s) x (read s) (waiting_command s) (current_addr s) (erase_event s).
Definition set_read x (s : spiflash) := Spiflash (size s) (mem_data s) (pending_word s) (pending_bits s) (pending_command s) (cr1 s) (sr2v s) (quad s) x (waiting_command s) (current_addr s) (erase_event s).
Definition set_waiting_command x (s : spiflash) := Spiflash (size s) (mem_data s) (pending_word s) (pending_bits s) (pending_command s) (cr1 s) (sr2v s) (quad s) (read s) x (current_addr s) (erase_event s).
Definition set_current_addr x (s : spiflash) := Spiflash (size s) (mem_data s) (pending_word s) (pending_bits s) (pending_command s) (cr1 s) (sr2v s) (quad s) (read s) (waiting_command s) x (erase_event s).
Definition set_erase_event x (s : spiflash) := Spiflash (size s) (mem_data s) (pending_word s) (pending_bits s) (pending_command s) (cr1 s) (sr2v s) (quad s) (read s) (waiting_command s) (current_addr s) x.

(** The data lines of an edge; what is sent on them, with the mask of the lines driven. *)
Record lines := Lines { data_0 : Z; data_1 : Z; data_2 : Z; data_3 : Z }.
Definition sent : Type := lines * Z.
Definition step : Type := option (spiflash * list sent).

(** build: the memory is filled with 0x57; the fields that build leaves as they are come from [u]. *)
Definition build (size : Z) (u : spiflash) : spiflash :=
  Spiflash size (replicate (Z.to_nat size) 0x57) (pending_word u) (pending_bits u) (pending_command u) 0 0 false (read u)
    (waiting_command u) (current_addr u) None.

(** ** Bits *)
Definition enqueue_bits (d : lines) (s : spiflash) : spiflash :=
  if negb (quad s) then
    let s := if negb (read s) then set_pending_word (u32 (Z.lor (Z.shiftl (pending_word s) 1) (data_0 d))) s else s in
    set_pending_bits (pending_bits s + 1) s
  else
    let s := if negb (read s) then
               set_pending_word (u32 (Z.lor (Z.lor (Z.lor (Z.lor (Z.shiftl (pending_word s) 4) (Z.shiftl (data_3 d) 3))
                 (Z.shiftl (data_2 d) 2)) (Z.shiftl (data_1 d) 1)) (Z.shiftl (data_0 d) 0))) s
             else s in
    set_pending_bits (pending_bits s + 4) s.

Definition send_bits (s : spiflash) : spiflash * list sent :=
  if read s then
    if negb (quad s) then
      let value := Z.land (Z.shiftr (pending_word s) 7) 1 in
      (set_pending_word (u32 (Z.shiftl (pending_word s) 1)) s, [(Lines 0 value 0 0, 2)])
    else
      let value := Z.land (Z.shiftr (pending_word s) 4) 0xf in
      (set_pending_word (u32 (Z.shiftl (pending_word s) 4)) s,
       [(Lines (Z.land (Z.shiftr value 0) 1) (Z.land (Z.shiftr value 1) 1) (Z.land (Z.shiftr value 2) 1)
          (Z.land (Z.shiftr value 3) 1), 0xf)])
  else (s, []).

(** mem_data[current_addr++], read into pending_word or written with its low byte. *)
Definition load_next (s : spiflash) : option spiflash :=
  let* v := mem_data s !! Z.to_nat (current_addr s) in
  Some (set_pending_word v (set_current_addr (u32 (current_addr s + 1)) s)).
Definition store_next (s : spiflash) : option spiflash :=
  if current_addr s <? Z.of_nat (length (mem_data s)) then
    Some (set_current_addr (u32 (current_addr s + 1))
      (set_mem_data (<[Z.to_nat (current_addr s) := u8 (pending_word s)]> (mem_data s)) s))
  else None.

Definition start_command (s : spiflash) : spiflash :=
  set_pending_word 0 (set_read false (set_quad false (set_pending_bits 8 (set_waiting_command true s)))).

(** ** Handlers of the commands *)
Definition page_program (d : lines) (s : spiflash) : step :=
  let s := enqueue_bits d s in
  let s := if pending_bits s =? 24 then set_read false (set_current_addr (Z.land (pending_word s) 0xffffff) s) else s in
  if (32 <=? pending_bits s) && (pending_bits s mod 8 =? 0) then
    if size s <=? current_addr s then Some (s, [])
    else let* s := store_next s in Some (s, [])
  else Some (s, []).

Definition sector_erase_done (s : spiflash) : spiflash := set_erase_event None (set_sr2v (Z.lor (sr2v s) (Z.shiftl 1 2)) s).

Definition sector_erase (d : lines) (s : spiflash) : step :=
  let s := if pending_bits s =? 0 then set_sr2v (Z.land (sr2v s) (u8 (Z.lnot (Z.shiftl 1 2)))) s else s in
  let s := enqueue_bits d s in
  let s := if pending_bits s =? 24 then set_erase_event (Some 1000000) (set_current_addr (pending_word s) s) else s in
  Some (s, []).

Definition read_sr2v_start (s : spiflash) : spiflash * list sent := send_bits (set_read true (set_pending_word (sr2v s) s)).
Definition read_sr2v (d : lines) (s : spiflash) : step := Some (send_bits s).

Definition quad_read (d : lines) (s : spiflash) : step :=
  let s := if pending_bits s =? 0 then set_quad true s else s in
  let s := enqueue_bits d s in
  let s := if pending_bits s =? 32 then set_current_addr (pending_word s) s else s in
  let s := if pending_bits s =? 40 then set_read true s else s in
  if (40 <=? pending_bits s) && (pending_bits s mod 8 =? 0) then
    if size s <=? current_addr s then Some (s, [])
    else let* s := load_next s in Some (send_bits s)
  else Some (send_bits s).

Definition single_read (d : lines) (s : spiflash) : step :=
  let s := enqueue_bits d s in
  let s := if pending_bits s =? 24 then set_read true (set_current_addr (Z.land (pending_word s) 0xffffff) s) else s in
  if (24 <=? pending_bits s) && (pending_bits s mod 8 =? 0) then
    if size s <=? current_addr s then Some (s, [])
    else let* s := load_next s in Some (send_bits s)
  else Some (send_bits s).

Definition write_any_register (d : lines) (s : spiflash) : step :=
  let s := enqueue_bits d s in
  if pending_bits s =? 32 then
    let addr := Z.shiftr (pending_word s) 8 in
    let value := Z.land (pending_word s) 0xff in
    let s := if addr =? 0x800002 then set_cr1 value s else s in
    Some (start_command s, [])
  else Some (s, []).

(** commands_descs: the commands that exist, their handlers and their start handlers. *)
Definition commands : list Z :=
  [CMD_READ_ID; CMD_RDCR; CMD_WREN; CMD_WRR; CMD_WRAR; CMD_RDSR1; CMD_P4E; CMD_PP; CMD_QIOR; CMD_QIOR_4B; CMD_READ;
   CMD_READ_SIMPLE; CMD_RESET_ENABLE; CMD_RESET; CMD_SECTOR_ERASE; CMD_READ_SR2V].
Definition handler (id : Z) : option (lines -> spiflash -> step) :=
  if id =? CMD_WRAR then Some write_any_register
  else if id =? CMD_PP then Some page_program
  else if id =? CMD_QIOR_4B then Some quad_read
  else if (id =? CMD_READ) || (id =? CMD_READ_SIMPLE) then Some single_read
  else if id =? CMD_SECTOR_ERASE then Some sector_erase
  else if id =? CMD_READ_SR2V then Some read_sr2v
  else None.
Definition start_handler (id : Z) : option (spiflash -> spiflash * list sent) :=
  if id =? CMD_READ_SR2V then Some read_sr2v_start else None.

(** ** Dispatch *)
Definition handle_data (d : lines) (s : spiflash) : step :=
  if waiting_command s then
    let s := set_pending_bits (pending_bits s - 1) (set_pending_word (u32 (Z.lor (Z.shiftl (pending_word s) 1) (data_0 d))) s) in
    if pending_bits s =? 0 then
      let s := set_waiting_command false s in
      let id := Z.land (pending_word s) 0xff in
      if bool_decide (id ∈ commands) then
        let s := set_pending_command (Some id) s in
        match start_handler id with Some h => Some (h s) | None => Some (s, []) end
      else Some (start_command (set_pending_command None s), [])
    else Some (s, [])
  else
    let* id := pending_command s in
    match handler id with Some h => h d s | None => Some (s, []) end.

(** The inputs of the device. *)
Inductive input :=
  | Sync (sck : Z) (d : lines)
  | CsSync (active : bool)
  | EraseEvent.

Definition sync (i : input) (s : spiflash) : step :=
  match i with
  | Sync sck d => if negb (sck =? 0) then handle_data d s else Some (s, [])
  | CsSync active => Some (if active then s else start_command s, [])
  | EraseEvent => Some (sector_erase_done s, [])
  end.

Fixpoint run (l : list input) (s : spiflash) : step :=
  match l with
  | [] => Some (s, [])
  | i :: l => let* (s, o) := sync i s in let* (s, o') := run l s in Some (s, o ++ o')
  end.

(** ** Bits on the lines *)

(** The [n] low bits of a value, the most significant first, and the bits that a list of edges carries. *)
Fixpoint bits (n : nat) (v : Z) : list Z :=
  match n with O => [] | S n => Z.b2z (Z.testbit v (Z.of_nat n)) :: bits n v end.
Definition shift (w : Z) (l : list Z) : Z := fold_left (fun w b => u32 (Z.lor (Z.shiftl w 1) b)) l w.

(** The clock: a rising and a falling edge for each element of [l]. *)
Definition clocks (l : list lines) : list input := flat_map (fun d => [Sync 1 d; Sync 0 d]) l.

(** What is driven on the single line. *)
Definition single (b : Z) : sent := (Lines 0 b 0 0, 2).
Definition nibble (v : Z) : sent :=
  (Lines (Z.b2z (Z.testbit v 0)) (Z.b2z (Z.testbit v 1)) (Z.b2z (Z.testbit v 2)) (Z.b2z (Z.testbit v 3)), 0xf).

Fixpoint feed (l : list lines) (s : spiflash) : step :=
  match l with
  | [] => Some (s, [])
  | d :: l => let* (s, o) := handle_data d s in let* (s, o') := feed l s in Some (s, o ++ o')
  end.

Lemma run_clocks l s : run (clocks l) s = feed l s.
Proof.
  revert s. induction l as [|d l IH]; intros s; simpl; [done|]. destruct (handle_data d s) as [[s1 o]|]; [|done].
  simpl. rewrite IH. by destruct (feed l s1) as [[s2 o2]|].
Qed.

Lemma feed_app l1 l2 s :
  feed (l1 ++ l2) s = let* (s, o) := feed l1 s in let* (s, o') := feed l2 s in Some (s, o ++ o').
Proof.
  revert s. induction l1 as [|d l1 IH]; intros s; simpl; [by destruct (feed l2 s) as [[? ?]|]|].
  destruct (handle_data d s) as [[s1 o]|]; [|done]. rewrite IH. destruct (feed l1 s1) as [[s2 o2]|]; [|done].
  destruct (feed l2 s2) as [[s3 o3]|]; [|done]. by rewrite app_assoc.
Qed.

Lemma run_app l1 l2 s : run (l1 ++ l2) s = let* (s, o) := run l1 s in let* (s, o') := run l2 s in Some (s, o ++ o').
Proof.
  revert s. induction l1 as [|d l1 IH]; intros s; simpl; [by destruct (run l2 s) as [[? ?]|]|].
  destruct (sync d s) as [[s1 o]|]; [|done]. rewrite IH. destruct (run l1 s1) as [[s2 o2]|]; [|done].
  destruct (run l2 s2) as [[s3 o3]|]; [|done]. by rewrite app_assoc.
Qed.

Lemma length_bits n v : length (bits n v) = n.
Proof. induction n; simpl; congruence. Qed.

Lemma lor_bit w b : b = 0 \/ b = 1 -> Z.lor (Z.shiftl w 1) b = 2 * w + b.
Proof.
  intros Hb. rewrite Z.shiftl_mul_pow2 by lia. change (2 ^ 1) with 2. rewrite (Z.mul_comm w 2).
  destruct Hb as [-> | ->]; [by rewrite Z.lor_0_r, Z.add_0_r|]. pose proof (Z.add_lor_land (2 * w) 1) as E.
  change (Z.land (2 * w) 1) with (Z.land (2 * w) (Z.ones 1)) in E. rewrite Z.land_ones in E by lia. change (2 ^ 1) with 2 in E.
  assert ((2 * w) mod 2 = 0) by (rewrite Z.mul_comm; by apply Z.mod_mul). lia.
Qed.

Lemma shift_bits n v w : (n <= 32)%nat -> shift w (bits n v) = if (n =? 0)%nat then w else u32 (w * 2 ^ Z.of_nat n + v mod 2 ^ Z.of_nat n).
Proof.
  revert w. induction n as [|n IH]; intros w Hn; [done|]. unfold shift. simpl fold_left. fold (shift (u32 (Z.lor (Z.shiftl w 1) (Z.b2z (Z.testbit v (Z.of_nat n))))) (bits n v)).
  rewrite lor_bit by (destruct (Z.testbit v _); auto). rewrite IH by lia.
  rewrite Nat2Z.inj_succ, Z.pow_succ_r by lia. simpl Nat.eqb. cbv iota.
  assert (v mod (2 * 2 ^ Z.of_nat n) = Z.b2z (Z.testbit v (Z.of_nat n)) * 2 ^ Z.of_nat n + v mod 2 ^ Z.of_nat n) as ->.
  { rewrite (Z.mul_comm 2), Z.rem_mul_r by lia. rewrite <- Z.bit0_mod, Z.div_pow2_bits by lia. rewrite Z.add_0_l. lia. }
  destruct n as [|n]; simpl Nat.eqb; cbv iota.
  - simpl. rewrite Z.mod_1_r. f_equal. lia.
  - rewrite <- uw_add_l, <- (uw_mul_l 32 (u32 _)), uw_idemp, uw_mul_l, uw_add_l by lia. f_equal. lia.
Qed.

(** ** A command on the single line *)

(** The device between the fall of the chip select and the first edge. *)
Definition selected (s : spiflash) : Prop :=
  waiting_command s = true /\ pending_bits s = 8 /\ pending_word s = 0 /\ quad s = false /\ read s = false.

(** After the eight bits of command [c]. *)
Definition commanded (c : Z) (s : spiflash) : spiflash :=
  set_pending_command (Some c) (set_waiting_command false (set_pending_bits 0 (set_pending_word c s))).

(** The bits received and not consumed. *)
Definition received (l : list Z) (s : spiflash) : spiflash :=
  set_pending_bits (pending_bits s + Z.of_nat (length l)) (set_pending_word (shift (pending_word s) l) s).

Lemma feed_waiting l : forall s, waiting_command s = true -> Z.of_nat (length l) < pending_bits s ->
  feed l s = Some (set_pending_bits (pending_bits s - Z.of_nat (length l)) (set_pending_word (shift (pending_word s) (map data_0 l)) s), []).
Proof.
  induction l as [|d l IH]; intros s Hw Hl; [destruct s; simpl; by rewrite Z.sub_0_r|].
  cbn [feed length] in *. unfold handle_data. rewrite Hw. cbn [pending_bits set_pending_bits].
  destruct (Z.eqb_spec (pending_bits s - 1) 0); [lia|]. cbn [mbind option_bind].
  rewrite IH by (done || cbn; lia).
  replace (pending_bits s - Z.of_nat (S (length l))) with (pending_bits s - 1 - Z.of_nat (length l)) by lia. by destruct s.
Qed.

Lemma feed_command c l s : selected s -> c ∈ commands -> 0 <= c < 256 -> map data_0 l = bits 8 c ->
  feed l s = Some (match start_handler c with Some h => h (commanded c s) | None => (commanded c s, []) end).
Proof.
  intros (Hw & Hb & Hp & Hq & Hr) Hc Hrange Hl. assert (length l = 8%nat) as Hlen by (rewrite <- (length_map data_0), Hl; done).
  destruct (exists_last (l := l)) as (l7 & d & ->); [by intros ->|]. rewrite length_app in Hlen. simpl in Hlen.
  rewrite feed_app, feed_waiting by (done || lia). cbn [mbind option_bind feed]. unfold handle_data.
  cbn [waiting_command set_pending_bits set_pending_word pending_bits pending_word]. rewrite Hw, Hb, Hp.
  destruct (Z.eqb_spec (8 - Z.of_nat (length l7) - 1) 0); [|lia].
  assert (u32 (Z.lor (Z.shiftl (shift 0 (map data_0 l7)) 1) (data_0 d)) = c) as ->.
  { transitivity (shift 0 (bits 8 c)); [rewrite <- Hl, map_app; unfold shift; by rewrite fold_left_app|].
    rewrite shift_bits by lia. cbn [Nat.eqb]. change (2 ^ Z.of_nat 8) with 256. rewrite Z.mul_0_l, Z.add_0_l, Z.mod_small by lia.
    apply uw_small. lia. }
  assert (Z.land c 255 = c) as Hland by (change 255 with (Z.ones 8); rewrite Z.land_ones by lia; by apply Z.mod_small).
  match goal with |- context [Z.land (pending_word ?x) 255] => change (pending_word x) with c end. rewrite Hland, bool_decide_true by done.
  assert (set_pending_command (Some c) (set_waiting_command false (set_pending_bits (8 - Z.of_nat (length l7) - 1)
    (set_pending_word c (set_pending_bits (8 - Z.of_nat (length l7)) (set_pending_word (shift 0 (map data_0 l7)) s))))) = commanded c s) as ->.
  { unfold commanded. rewrite e. by destruct s. }
  destruct (start_handler c) as [h|]; [|done]. destruct (h (commanded c s)) as [s1 o]. cbn. by rewrite app_nil_r.
Qed.

(** A handler that only receives bits, while their number satisfies [P]. *)
Lemma feed_received (P : Z -> Prop) h l : forall s c, waiting_command s = false -> pending_command s = Some c -> handler c = Some h ->
  quad s = false -> read s = false ->
  (forall d s, quad s = false -> read s = false -> P (pending_bits s + 1) -> h d s = Some (enqueue_bits d s, [])) ->
  (forall i, pending_bits s < i <= pending_bits s + Z.of_nat (length l) -> P i) ->
  feed l s = Some (received (map data_0 l) s, []).
Proof.
  induction l as [|d l IH]; intros s c Hw Hc Hh Hq Hr Hrec Hl; [destruct s; unfold received; cbn; by rewrite Z.add_0_r|].
  cbn [feed length] in *. unfold handle_data. rewrite Hw, Hc. cbn [mbind option_bind]. rewrite Hh, Hrec by (done || apply Hl; lia).
  unfold enqueue_bits at 1. rewrite Hq, Hr. cbn [negb mbind option_bind].
  rewrite (IH _ c) by (done || cbn; intros; apply Hl; lia). unfold received. cbn [map length]. rewrite length_map.
  replace (pending_bits s + Z.of_nat (S (length l))) with (pending_bits s + 1 + Z.of_nat (length l)) by lia. by destruct s.
Qed.

(** ** Reading *)

Definition same_mem (s s' : spiflash) : Prop := mem_data s' = mem_data s /\ size s' = size s.

Lemma bit_at x n : 0 <= n -> Z.land (Z.shiftr x n) 1 = Z.b2z (Z.testbit x n).
Proof.
  intros Hn. change 1 with (Z.ones 1). rewrite Z.land_ones by lia. change (2 ^ 1) with 2. rewrite <- Z.bit0_mod, Z.shiftr_spec by lia.
  by rewrite Z.add_0_l.
Qed.

(** Bit [7 - j] of [v] has been sent; the address is that of the next byte. *)
Record serving (c j a v : Z) (s : spiflash) : Prop := {
  sv_waiting : waiting_command s = false;
  sv_command : pending_command s = Some c;
  sv_handler : handler c = Some single_read;
  sv_quad : quad s = false;
  sv_read : read s = true;
  sv_bits : 24 <= pending_bits s /\ pending_bits s mod 8 = j;
  sv_word : pending_word s = u32 (Z.shiftl v (j + 1));
  sv_addr : current_addr s = a
}.

Lemma serving_bit c j a v d s : serving c j a v s -> 0 <= j < 7 ->
  exists s', handle_data d s = Some (s', [single (Z.b2z (Z.testbit v (6 - j)))]) /\ serving c (j + 1) a v s' /\ same_mem s s'.
Proof.
  intros [Hw Hc Hh Hq Hr [Hb Hj] Hword Ha] Hr7. unfold handle_data. rewrite Hw, Hc. cbn [mbind option_bind]. rewrite Hh.
  unfold single_read, enqueue_bits. rewrite Hq, Hr. cbn [negb]. cbv zeta. cbn [pending_bits set_pending_bits].
  assert ((pending_bits s + 1) mod 8 = j + 1) as Hj' by (rewrite <- Z.add_mod_idemp_l, Hj by lia; apply Z.mod_small; lia).
  destruct (Z.eqb_spec (pending_bits s + 1) 24); [lia|]. cbn [pending_bits set_pending_bits]. rewrite Hj'.
  rewrite (proj2 (Z.eqb_neq (j + 1) 0)), andb_false_r by lia. unfold send_bits. cbn [read set_pending_bits quad pending_word].
  rewrite Hr, Hq. cbn [negb]. rewrite Hword, bit_at by lia. rewrite uw_testbit, Z.shiftl_spec by lia.
  replace (7 - (j + 1)) with (6 - j) by lia. eexists. split; [reflexivity|]. split; [|done]. split; try done.
  - cbn. split; [lia|done].
  - cbn. rewrite !Z.shiftl_mul_pow2 by lia. rewrite uw_mul_l by lia. rewrite (Z.pow_add_r 2 (j + 1) 1) by lia. f_equal. lia.
Qed.

(** An edge that loads the byte at [a] and sends its first bit. *)
Lemma load_send a v s : quad s = false -> read s = true -> current_addr s = a -> 0 <= a < 2 ^ 24 -> mem_data s !! Z.to_nat a = Some v ->
  exists s', load_next s = Some s' /\
    send_bits s' = (set_pending_word (u32 (Z.shiftl v 1)) s', [single (Z.b2z (Z.testbit v 7))]) /\
    s' = set_pending_word v (set_current_addr (a + 1) s).
Proof.
  intros Hq Hr Ha Hrange Hv. unfold load_next. rewrite Ha, Hv. cbn [mbind option_bind]. rewrite uw_small by lia.
  eexists. split; [done|]. split; [|done]. unfold send_bits. cbn. by rewrite Hr, Hq, bit_at by lia.
Qed.

Lemma serving_load c a v v' d s : serving c 7 a v s -> a < size s -> size s <= 2 ^ 24 -> 0 <= a -> mem_data s !! Z.to_nat a = Some v' ->
  exists s', handle_data d s = Some (s', [single (Z.b2z (Z.testbit v' 7))]) /\ serving c 0 (a + 1) v' s' /\ same_mem s s'.
Proof.
  intros [Hw Hc Hh Hq Hr [Hb Hj] Hword Ha] Has Hsz Ha0 Hv. unfold handle_data. rewrite Hw, Hc. cbn [mbind option_bind]. rewrite Hh.
  unfold single_read, enqueue_bits. rewrite Hq, Hr. cbn [negb]. cbv zeta. cbn [pending_bits set_pending_bits].
  assert ((pending_bits s + 1) mod 8 = 0) as Hj' by (rewrite <- Z.add_mod_idemp_l, Hj by lia; done).
  destruct (Z.eqb_spec (pending_bits s + 1) 24); [lia|]. cbn [pending_bits set_pending_bits size current_addr]. rewrite Hj', Ha.
  rewrite (proj2 (Z.leb_le 24 _)), (proj2 (Z.leb_gt (size s) a)) by lia. cbn [andb Z.eqb].
  destruct (load_send a v' (set_pending_bits (pending_bits s + 1) s)) as (s' & -> & Es & E); [done..|lia|done|].
  cbn [mbind option_bind]. rewrite Es, E. eexists. split; [reflexivity|]. split; [|done]. split; try done. cbn. split; [lia|done].
Qed.

Lemma serving_first c a v d s : waiting_command s = false -> pending_command s = Some c -> handler c = Some single_read ->
  quad s = false -> read s = false -> pending_bits s = 23 ->
  Z.land (u32 (Z.lor (Z.shiftl (pending_word s) 1) (data_0 d))) 0xffffff = a ->
  a < size s -> size s <= 2 ^ 24 -> mem_data s !! Z.to_nat a = Some v ->
  exists s', handle_data d s = Some (s', [single (Z.b2z (Z.testbit v 7))]) /\ serving c 0 (a + 1) v s' /\ same_mem s s'.
Proof.
  intros Hw Hc Hh Hq Hr Hb Ha Has Hsz Hv. unfold handle_data. rewrite Hw, Hc. cbn [mbind option_bind]. rewrite Hh.
  assert (0 <= a < 2 ^ 24) as Hrange by (rewrite <- Ha; change 0xffffff with (Z.ones 24); rewrite Z.land_ones by lia; apply Z.mod_pos_bound; lia).
  unfold single_read, enqueue_bits. rewrite Hq, Hr. cbn [negb]. cbv zeta. cbn [pending_bits set_pending_bits set_pending_word].
  rewrite Hb. change (23 + 1) with 24. change (24 =? 24) with true. cbv iota.
  cbn [pending_bits set_read set_current_addr set_pending_bits set_pending_word pending_word].
  rewrite Ha. change (24 <=? 24) with true. change (24 mod 8 =? 0) with true. cbn [andb]. cbv iota.
  cbn [size current_addr set_current_addr set_read set_pending_bits set_pending_word].
  rewrite (proj2 (Z.leb_gt (size s) a)) by lia.
  destruct (load_send a v (set_read true (set_current_addr a (set_pending_bits 24
     (set_pending_word (u32 (Z.lor (Z.shiftl (pending_word s) 1) (data_0 d))) s))))) as (s' & -> & Es & E); [done..|].
  cbn [mbind option_bind]. rewrite Es, E. eexists. split; [reflexivity|]. split; [|done]. split; try done.
Qed.

Lemma serving_rest m : forall l c a v s, (m <= 7)%nat -> length l = m -> serving c (7 - Z.of_nat m) a v s ->
  exists s', feed l s = Some (s', map single (bits m v)) /\ serving c 7 a v s' /\ same_mem s s'.
Proof.
  induction m as [|m IH]; intros l c a v s Hm Hl Hs; destruct l as [|d l]; try done.
  - exists s. split; [done|]. split; [by rewrite Z.sub_0_r in Hs|done].
  - simpl in Hl. destruct (serving_bit c (7 - Z.of_nat (S m)) a v d s Hs ltac:(lia)) as (s1 & E1 & Hs1 & Hm1).
    replace (7 - Z.of_nat (S m) + 1) with (7 - Z.of_nat m) in Hs1 by lia.
    destruct (IH l c a v s1 ltac:(lia) ltac:(lia) Hs1) as (s2 & E2 & Hs2 & Hm2). exists s2.
    cbn [feed]. rewrite E1. cbn [mbind option_bind]. rewrite E2. cbn [mbind option_bind bits map app].
    replace (6 - (7 - Z.of_nat (S m))) with (Z.of_nat m) by lia. split; [done|]. split; [done|].
    destruct Hm1, Hm2. split; congruence.
Qed.

Definition data_bits (vs : list Z) : list Z := concat (map (bits 8) vs).

Lemma serving_bytes vs : forall l c a v s, length l = (8 * length vs)%nat -> serving c 7 a v s -> 0 <= a ->
  take (length vs) (drop (Z.to_nat a) (mem_data s)) = vs -> a + Z.of_nat (length vs) <= size s -> size s <= 2 ^ 24 ->
  exists s' v', feed l s = Some (s', map single (data_bits vs)) /\ serving c 7 (a + Z.of_nat (length vs)) v' s' /\ same_mem s s'.
Proof.
  induction vs as [|v1 vs IH]; intros l c a v s Hl Hs Ha0 Hmem Hend Hsz.
  - destruct l; [|done]. exists s, v. split; [done|]. split; [by rewrite Z.add_0_r|done].
  - destruct l as [|d l]; [simpl in Hl; lia|]. cbn [length] in Hl, Hend, Hmem.
    assert (mem_data s !! Z.to_nat a = Some v1) as Hv1.
    { rewrite <- (Nat.add_0_r (Z.to_nat a)), <- lookup_drop. destruct (drop _ (mem_data s)); [done|]. by injection Hmem as -> _. }
    assert (take (length vs) (drop (Z.to_nat (a + 1)) (mem_data s)) = vs) as Hrest.
    { replace (Z.to_nat (a + 1)) with (Z.to_nat a + 1)%nat by lia. rewrite <- drop_drop.
      destruct (drop (Z.to_nat a) (mem_data s)) as [|x t]; [done|]. by injection Hmem as _ ?. }
    destruct (serving_load c a v v1 d s Hs ltac:(lia) Hsz Ha0 Hv1) as (s1 & E1 & Hs1 & [Hm1 Hz1]).
    rewrite <- (take_drop 7 l). destruct (serving_rest 7 (take 7 l) c (a + 1) v1 s1) as (s2 & E2 & Hs2 & [Hm2 Hz2]);
      [lia|rewrite length_take; lia|done|].
    destruct (IH (drop 7 l) c (a + 1) v1 s2) as (s3 & v' & E3 & Hs3 & [Hm3 Hz3]);
      [rewrite length_drop; lia|done|lia|by rewrite Hm2, Hm1|rewrite Hz2, Hz1; lia|rewrite Hz2, Hz1; lia|].
    exists s3, v'. split; [|split; [|split; congruence]].
    + cbn [feed]. rewrite E1. cbn [mbind option_bind]. rewrite feed_app, E2. cbn [mbind option_bind]. rewrite E3. cbn [mbind option_bind].
      unfold data_bits. cbn [map concat]. by rewrite map_app.
    + replace (a + Z.of_nat (length (v1 :: vs))) with (a + 1 + Z.of_nat (length vs)) by (simpl; lia). done.
Qed.

(** The handlers that take an address of 24 bits only receive before the last of them. *)
Lemma single_read_receives d s : quad s = false -> read s = false -> pending_bits s + 1 < 24 ->
  single_read d s = Some (enqueue_bits d s, []).
Proof.
  intros Hq Hr Hb. unfold single_read, enqueue_bits. rewrite Hq, Hr. cbn [negb]. cbn [pending_bits set_pending_bits set_pending_word].
  rewrite (proj2 (Z.eqb_neq _ 24)), (proj2 (Z.leb_gt 24 _)) by (cbn; lia). cbn [andb]. unfold send_bits. cbn. by rewrite Hr.
Qed.

Lemma page_program_receives d s : quad s = false -> read s = false ->
  pending_bits s + 1 < 24 \/ (24 < pending_bits s + 1 /\ (pending_bits s + 1) mod 8 <> 0) ->
  page_program d s = Some (enqueue_bits d s, []).
Proof.
  intros Hq Hr Hb. unfold page_program, enqueue_bits. rewrite Hq, Hr. cbn [negb]. cbn [pending_bits set_pending_bits set_pending_word].
  rewrite (proj2 (Z.eqb_neq _ 24)) by lia. cbn [pending_bits set_pending_bits set_pending_word].
  destruct (Z.leb_spec 32 (pending_bits s + 1)); [|done]. rewrite (proj2 (Z.eqb_neq _ 0)) by (destruct Hb; lia). done.
Qed.

(** The 23 first bits of an address, then the last one: the 24 low bits of the word are the address. *)
Lemma address_bits c a la : 0 <= a < 2 ^ 24 -> map data_0 la = bits 24 a ->
  exists l23 d, la = l23 ++ [d] /\ length l23 = 23%nat /\
    Z.land (u32 (Z.lor (Z.shiftl (shift c (map data_0 l23)) 1) (data_0 d))) 0xffffff = a.
Proof.
  intros Ha Hl. assert (length la = 24%nat) as Hlen by (rewrite <- (length_map data_0), Hl; done).
  destruct (exists_last (l := la)) as (l23 & d & ->); [by intros ->|]. rewrite length_app in Hlen. simpl in Hlen.
  exists l23, d. split; [done|]. split; [lia|].
  transitivity (Z.land (shift c (bits 24 a)) 0xffffff); [f_equal; rewrite <- Hl, map_app; unfold shift; by rewrite fold_left_app|].
  rewrite shift_bits by lia. cbn [Nat.eqb]. change 0xffffff with (Z.ones 24). rewrite Z.land_ones by lia.
  fold (uw 24 (u32 (c * 2 ^ Z.of_nat 24 + a mod 2 ^ Z.of_nat 24))). rewrite uw_uw_le by lia. change (Z.of_nat 24) with 24.
  rewrite Z.add_comm, uw_add_mul by lia. rewrite Z.mod_small by lia. by apply uw_small.
Qed.

(** A read on the single line: the command, the address, then the data. *)
Lemma single_read_ok c a vs lc la ld s :
  selected s -> c = CMD_READ \/ c = CMD_READ_SIMPLE -> 0 <= a < 2 ^ 24 -> vs <> [] ->
  take (length vs) (drop (Z.to_nat a) (mem_data s)) = vs -> a + Z.of_nat (length vs) <= size s -> size s <= 2 ^ 24 ->
  map data_0 lc = bits 8 c -> map data_0 la = bits 24 a -> S (length ld) = (8 * length vs)%nat ->
  exists s', feed (lc ++ la ++ ld) s = Some (s', map single (data_bits vs)) /\ same_mem s s'.
Proof.
  intros Hs Hc Ha Hne Hmem Hend Hsz Hlc Hla Hld. destruct vs as [|v vs]; [done|]. clear Hne. cbn [length] in *.
  assert (handler c = Some single_read /\ start_handler c = None /\ c ∈ commands /\ 0 <= c < 256) as (Hh & Hst & Hin & Hcr)
    by (destruct Hc as [-> | ->]; repeat split; try done; refine (bool_decide_eq_true_1 _ _); vm_compute; reflexivity).
  destruct (address_bits c a la Ha Hla) as (l23 & d & -> & H23 & Haddr).
  rewrite feed_app, (feed_command c lc s Hs Hin Hcr Hlc), Hst. cbn [mbind option_bind]. destruct Hs as (Hw & Hb & Hp & Hq & Hr).
  rewrite <- app_assoc, feed_app.
  rewrite (feed_received (fun i => i < 24) single_read l23 (commanded c s) c); try done;
    [|intros; by apply single_read_receives|intros i; cbn; lia].
  cbn [mbind option_bind]. set (s1 := received (map data_0 l23) (commanded c s)).
  assert (mem_data s !! Z.to_nat a = Some v) as Hv.
  { rewrite <- (Nat.add_0_r (Z.to_nat a)), <- lookup_drop. destruct (drop _ (mem_data s)); [done|]. by injection Hmem as -> _. }
  assert (take (length vs) (drop (Z.to_nat (a + 1)) (mem_data s)) = vs) as Hrest.
  { replace (Z.to_nat (a + 1)) with (Z.to_nat a + 1)%nat by lia. rewrite <- drop_drop.
    destruct (drop (Z.to_nat a) (mem_data s)) as [|x t]; [done|]. by injection Hmem as _ ?. }
  destruct (serving_first c a v d s1) as (s2 & E2 & Hs2 & [Hm2 Hz2]); try done.
  { cbn. rewrite length_map, H23. done. }
  { cbn. lia. }
  cbn [app feed]. rewrite E2. cbn [mbind option_bind]. rewrite <- (take_drop 7 ld), feed_app.
  destruct (serving_rest 7 (take 7 ld) c (a + 1) v s2) as (s3 & -> & Hs3 & [Hm3 Hz3]); [lia|rewrite length_take; lia|done|].
  cbn [mbind option_bind].
  destruct (serving_bytes vs (drop 7 ld) c (a + 1) v s3) as (s4 & v' & -> & Hs4 & [Hm4 Hz4]);
    [rewrite length_drop; lia|done|lia|by rewrite Hm3, Hm2|rewrite Hz3, Hz2; cbn; lia|rewrite Hz3, Hz2; done|].
  exists s4. cbn [mbind option_bind]. split; [unfold data_bits; cbn [map concat]; by rewrite map_app|].
  split; [by rewrite Hm4, Hm3, Hm2|by rewrite Hz4, Hz3, Hz2].
Qed.

(** ** Programming *)

(** A whole number of bytes has been received; the address is that of the next one. *)
Record programming (a : Z) (s : spiflash) : Prop := {
  pr_waiting : waiting_command s = false;
  pr_command : pending_command s = Some CMD_PP;
  pr_quad : quad s = false;
  pr_read : read s = false;
  pr_bits : 24 <= pending_bits s /\ pending_bits s mod 8 = 0;
  pr_addr : current_addr s = a
}.

Lemma programming_byte a v l s : programming a s -> 0 <= v < 256 -> map data_0 l = bits 8 v ->
  0 <= a < size s -> size s <= 2 ^ 24 -> size s = Z.of_nat (length (mem_data s)) ->
  exists s', feed l s = Some (s', []) /\ programming (a + 1) s' /\
    mem_data s' = <[Z.to_nat a := v]> (mem_data s) /\ size s' = size s.
Proof.
  intros [Hw Hc Hq Hr [Hb Hm] Ha] Hv Hl Has Hsz Hlen. assert (length l = 8%nat) as Hl8 by (rewrite <- (length_map data_0), Hl; done).
  destruct (exists_last (l := l)) as (l7 & d & ->); [by intros ->|]. rewrite length_app in Hl8. simpl in Hl8.
  rewrite feed_app.
  rewrite (feed_received (fun i => i < 24 \/ (24 < i /\ i mod 8 <> 0)) page_program l7 s CMD_PP); try done;
    [|intros; by apply page_program_receives|intros i Hi; right; split; [lia|Z.div_mod_to_equations; lia]].
  cbn [mbind option_bind feed]. unfold handle_data, received. cbn [waiting_command pending_command set_pending_bits set_pending_word].
  rewrite Hw, Hc. cbn [mbind option_bind]. change (handler CMD_PP) with (Some page_program). cbv iota.
  unfold page_program, enqueue_bits. cbn [quad read set_pending_bits set_pending_word]. rewrite Hq, Hr. cbn [negb]. cbv zeta.
  cbn [pending_bits set_pending_bits set_pending_word pending_word]. rewrite length_map.
  rewrite (proj2 (Z.eqb_neq _ 24)) by lia. cbn [pending_bits set_pending_bits size current_addr set_pending_word].
  rewrite (proj2 (Z.leb_le 32 _)) by lia. rewrite (proj2 (Z.eqb_eq _ 0)) by (Z.div_mod_to_equations; lia). cbn [andb].
  rewrite Ha, (proj2 (Z.leb_gt (size s) a)) by lia. unfold store_next.
  cbn [current_addr mem_data set_pending_bits set_pending_word pending_word]. rewrite Ha, (proj2 (Z.ltb_lt a _)) by lia.
  cbn [mbind option_bind]. eexists. split; [reflexivity|]. split; [|split; [|done]].
  - split; try done; cbn; [|by apply uw_small; lia]. split; [lia|Z.div_mod_to_equations; lia].
  - cbn. f_equal. transitivity (u8 (shift (pending_word s) (bits 8 v))).
    + rewrite <- Hl, map_app. unfold shift. by rewrite fold_left_app.
    + rewrite shift_bits by lia. cbn [Nat.eqb]. rewrite uw_uw_le by lia. change (Z.of_nat 8) with 8.
      rewrite Z.add_comm, uw_add_mul by lia. change (2 ^ 8) with 256. rewrite Z.mod_small by lia. by apply uw_small.
Qed.

Lemma programming_bytes vs : forall a l s, programming a s -> Forall (fun v => 0 <= v < 256) vs -> map data_0 l = data_bits vs ->
  0 <= a -> a + Z.of_nat (length vs) <= size s -> size s <= 2 ^ 24 -> size s = Z.of_nat (length (mem_data s)) ->
  exists s', feed l s = Some (s', []) /\ mem_data s' = list_inserts (Z.to_nat a) vs (mem_data s) /\ size s' = size s.
Proof.
  induction vs as [|v vs IH]; intros a l s Hs Hvs Hl Ha Hend Hsz Hlen.
  - destruct l; [|done]. by exists s.
  - apply Forall_cons in Hvs as [Hv Hvs]. unfold data_bits in Hl. cbn [map concat] in Hl. cbn [length] in Hend.
    assert (map data_0 (take 8 l) = bits 8 v) as H8 by (rewrite <- firstn_map, Hl; done).
    assert (map data_0 (drop 8 l) = data_bits vs) as Hrest by (rewrite <- skipn_map, Hl; done).
    destruct (programming_byte a v (take 8 l) s Hs Hv H8 ltac:(lia) Hsz Hlen) as (s1 & E1 & Hs1 & Hm1 & Hz1).
    destruct (IH (a + 1) (drop 8 l) s1 Hs1 Hvs Hrest) as (s2 & E2 & Hm2 & Hz2);
      [lia|rewrite Hz1; lia|by rewrite Hz1|by rewrite Hz1, Hm1, length_insert|].
    exists s2. rewrite <- (take_drop 8 l), feed_app, E1. cbn [mbind option_bind]. rewrite E2. split; [done|].
    split; [|congruence]. rewrite Hm2, Hm1. cbn [list_inserts]. rewrite list_insert_inserts_lt by lia.
    do 2 f_equal. lia.
Qed.

Lemma page_program_ok a vs lc la ld s :
  selected s -> 0 <= a < 2 ^ 24 -> Forall (fun v => 0 <= v < 256) vs ->
  a + Z.of_nat (length vs) <= size s -> size s <= 2 ^ 24 -> size s = Z.of_nat (length (mem_data s)) ->
  map data_0 lc = bits 8 CMD_PP -> map data_0 la = bits 24 a -> map data_0 ld = data_bits vs ->
  exists s', feed (lc ++ la ++ ld) s = Some (s', []) /\ mem_data s' = list_inserts (Z.to_nat a) vs (mem_data s) /\ size s' = size s.
Proof.
  intros Hs Ha Hvs Hend Hsz Hlen Hlc Hla Hld. destruct (address_bits CMD_PP a la Ha Hla) as (l23 & d & -> & H23 & Haddr).
  rewrite feed_app, (feed_command CMD_PP lc s Hs); [|refine (bool_decide_eq_true_1 _ _); vm_compute; reflexivity|done|done].
  change (start_handler CMD_PP) with (@None (spiflash -> spiflash * list sent)). cbn [mbind option_bind]. destruct Hs as (Hw & Hb & Hp & Hq & Hr).
  rewrite <- app_assoc, feed_app.
  rewrite (feed_received (fun i => i < 24 \/ (24 < i /\ i mod 8 <> 0)) page_program l23 (commanded CMD_PP s) CMD_PP); try done;
    [|intros; by apply page_program_receives|intros i; cbn; lia].
  cbn [mbind option_bind app feed]. set (s1 := received (map data_0 l23) (commanded CMD_PP s)).
  assert (pending_bits s1 = 23) as Hb1 by (cbn; rewrite length_map, H23; done).
  assert (exists s2, handle_data d s1 = Some (s2, []) /\ programming a s2 /\ same_mem s1 s2) as (s2 & E2 & Hs2 & [Hm2 Hz2]).
  { unfold handle_data. change (waiting_command s1) with false. change (pending_command s1) with (Some CMD_PP).
    cbn [mbind option_bind]. change (handler CMD_PP) with (Some page_program). cbv iota. unfold page_program, enqueue_bits.
    change (quad s1) with (quad s). change (read s1) with (read s). rewrite Hq, Hr. cbn [negb]. cbv zeta.
    change (pending_word s1) with (shift CMD_PP (map data_0 l23)).
    cbn [pending_bits set_pending_bits set_pending_word]. rewrite Hb1. change (23 + 1 =? 24) with true. cbv iota.
    cbn [pending_bits set_read set_current_addr set_pending_bits set_pending_word pending_word]. change (32 <=? 23 + 1) with false. cbn [andb].
    eexists. split; [reflexivity|]. split; [|done]. split; try done. }
  rewrite E2. cbn [mbind option_bind]. destruct (programming_bytes vs a ld s2 Hs2 Hvs Hld) as (s3 & -> & Hm3 & Hz3);
    [lia|rewrite Hz2; done|rewrite Hz2; done|by rewrite Hz2, Hm2|].
  exists s3. split; [done|]. split; [by rewrite Hm3, Hm2|by rewrite Hz3, Hz2].
Qed.

(** ** The quad read *)

Definition lines_of (x : Z) : lines :=
  Lines (Z.b2z (Z.testbit x 0)) (Z.b2z (Z.testbit x 1)) (Z.b2z (Z.testbit x 2)) (Z.b2z (Z.testbit x 3)).
(** The [n] low groups of four bits of a value, the most significant first. *)
Fixpoint nibbles (n : nat) (v : Z) : list Z :=
  match n with O => [] | S n => uw 4 (Z.shiftr v (4 * Z.of_nat n)) :: nibbles n v end.
Definition quad_shift (w : Z) (l : list Z) : Z := fold_left (fun w x => u32 (w * 16 + x)) l w.
Definition data_nibbles (vs : list Z) : list Z := concat (map (nibbles 2) vs).

Lemma quad_word w x : 0 <= x < 16 ->
  u32 (Z.lor (Z.lor (Z.lor (Z.lor (Z.shiftl w 4) (Z.shiftl (data_3 (lines_of x)) 3)) (Z.shiftl (data_2 (lines_of x)) 2))
    (Z.shiftl (data_1 (lines_of x)) 1)) (Z.shiftl (data_0 (lines_of x)) 0)) = u32 (w * 16 + x).
Proof.
  intros Hx. f_equal. rewrite <- !Z.lor_assoc.
  assert (Z.lor (Z.shiftl (data_3 (lines_of x)) 3) (Z.lor (Z.shiftl (data_2 (lines_of x)) 2)
    (Z.lor (Z.shiftl (data_1 (lines_of x)) 1) (Z.shiftl (data_0 (lines_of x)) 0))) = x) as ->.
  { assert (x ∈ seqZ 0 16) as Hin by (apply elem_of_seqZ; lia). revert x Hx Hin. intros x _ Hin.
    change (seqZ 0 16) with [0; 1; 2; 3; 4; 5; 6; 7; 8; 9; 10; 11; 12; 13; 14; 15] in Hin.
    repeat (apply elem_of_cons in Hin as [-> | Hin]; [reflexivity|]). by apply not_elem_of_nil in Hin. }
  pose proof (Z.add_lor_land (Z.shiftl w 4) x) as E.
  assert (Z.land (Z.shiftl w 4) x = 0) as H0.
  { apply Z.bits_inj'. intros i Hi. rewrite Z.land_spec, Z.bits_0. destruct (Z.lt_ge_cases i 4).
    - rewrite Z.shiftl_spec_low by lia. done.
    - rewrite (testbit_above 4 x i) by (simpl; lia). apply andb_false_r. }
  rewrite Z.shiftl_mul_pow2 in * by lia. change (2 ^ 4) with 16 in *. lia.
Qed.

Lemma quad_shift_nibbles n v w : (n <= 8)%nat ->
  quad_shift w (nibbles n v) = if (n =? 0)%nat then w else u32 (w * 16 ^ Z.of_nat n + v mod 16 ^ Z.of_nat n).
Proof.
  revert w. induction n as [|n IH]; intros w Hn; [done|]. unfold quad_shift. cbn [nibbles fold_left].
  fold (quad_shift (u32 (w * 16 + uw 4 (Z.shiftr v (4 * Z.of_nat n)))) (nibbles n v)). rewrite IH by lia.
  rewrite Nat2Z.inj_succ, Z.pow_succ_r by lia. cbn [Nat.eqb].
  assert (v mod (16 * 16 ^ Z.of_nat n) = uw 4 (Z.shiftr v (4 * Z.of_nat n)) * 16 ^ Z.of_nat n + v mod 16 ^ Z.of_nat n) as ->.
  { rewrite (Z.mul_comm 16), Z.rem_mul_r by lia. unfold uw. rewrite Z.shiftr_div_pow2 by lia.
    rewrite Z.pow_mul_r by lia. change (2 ^ 4) with 16. lia. }
  destruct n as [|n]; cbn [Nat.eqb].
  - simpl. rewrite Z.mod_1_r. f_equal. lia.
  - rewrite <- uw_add_l, <- (uw_mul_l 32 (u32 _)), uw_idemp, uw_mul_l, uw_add_l by lia. f_equal. lia.
Qed.

Lemma quad_send v : Z.land (Z.shiftr v 0) 1 = Z.b2z (Z.testbit v 0) /\ Z.land (Z.shiftr v 1) 1 = Z.b2z (Z.testbit v 1) /\
  Z.land (Z.shiftr v 2) 1 = Z.b2z (Z.testbit v 2) /\ Z.land (Z.shiftr v 3) 1 = Z.b2z (Z.testbit v 3).
Proof. by rewrite !bit_at by lia. Qed.

(** The next edge loads the byte at [a]. *)
Record quad_serving (a : Z) (s : spiflash) : Prop := {
  qs_waiting : waiting_command s = false;
  qs_command : pending_command s = Some CMD_QIOR_4B;
  qs_quad : quad s = true;
  qs_bits : 36 <= pending_bits s /\ pending_bits s mod 8 = 4;
  qs_read : read s = false -> pending_bits s = 36;
  qs_addr : current_addr s = a
}.

Lemma quad_high a v d s : quad_serving a s -> 0 <= a < size s -> size s <= 2 ^ 24 -> mem_data s !! Z.to_nat a = Some v -> 0 <= v < 256 ->
  exists s', handle_data d s = Some (s', [nibble (Z.shiftr v 4)]) /\ waiting_command s' = false /\
    pending_command s' = Some CMD_QIOR_4B /\ quad s' = true /\ read s' = true /\ pending_bits s' = pending_bits s + 4 /\
    current_addr s' = a + 1 /\ pending_word s' = Z.shiftl v 4 /\ same_mem s s'.
Proof.
  intros [Hw Hc Hq [Hb Hm] Hr Ha] Has Hsz Hv Hvr. unfold handle_data. rewrite Hw, Hc. cbn [mbind option_bind].
  change (handler CMD_QIOR_4B) with (Some quad_read). cbv iota. unfold quad_read.
  rewrite (proj2 (Z.eqb_neq (pending_bits s) 0)) by lia. set (s1 := enqueue_bits d s).
  assert (pending_bits s1 = pending_bits s + 4 /\ quad s1 = true /\ read s1 = read s /\ current_addr s1 = a /\ mem_data s1 = mem_data s /\
    size s1 = size s /\ waiting_command s1 = false /\ pending_command s1 = Some CMD_QIOR_4B) as (Hb1 & Hq1 & Hr1 & Ha1 & Hm1 & Hz1 & Hw1 & Hc1).
  { unfold s1, enqueue_bits. rewrite Hq. destruct (read s) eqn:E; cbn; rewrite ?E; done. }
  clearbody s1. rewrite Hb1. rewrite (proj2 (Z.eqb_neq (pending_bits s + 4) 32)) by lia. rewrite Hb1.
  set (s2 := if pending_bits s + 4 =? 40 then set_read true s1 else s1).
  assert (pending_bits s2 = pending_bits s + 4 /\ quad s2 = true /\ read s2 = true /\ current_addr s2 = a /\ mem_data s2 = mem_data s /\
    size s2 = size s /\ waiting_command s2 = false /\ pending_command s2 = Some CMD_QIOR_4B) as (Hb2 & Hq2 & Hr2 & Ha2 & Hm2 & Hz2 & Hw2 & Hc2).
  { unfold s2. destruct (Z.eqb_spec (pending_bits s + 4) 40); cbn; [done|]. repeat split; try done.
    rewrite Hr1. destruct (read s); [done|]. specialize (Hr eq_refl). lia. }
  clearbody s2. rewrite Hb2, Hz2, Ha2. rewrite (proj2 (Z.leb_le 40 _)), (proj2 (Z.leb_gt (size s) a)) by lia.
  rewrite (proj2 (Z.eqb_eq _ 0)) by (Z.div_mod_to_equations; lia). cbn [andb]. unfold load_next. rewrite Hm2, Ha2, Hv.
  cbn [mbind option_bind]. unfold send_bits. cbn [read quad pending_word set_pending_word set_current_addr]. rewrite Hr2, Hq2. cbn [negb].
  assert (Z.land (Z.shiftr v 4) 15 = Z.shiftr v 4) as ->.
  { change 15 with (Z.ones 4). rewrite Z.land_ones by lia. apply Z.mod_small. rewrite Z.shiftr_div_pow2 by lia. change (2 ^ 4) with 16.
    Z.div_mod_to_equations; lia. }
  destruct (quad_send (Z.shiftr v 4)) as (-> & -> & -> & ->). eexists. split; [reflexivity|]. cbn.
  split; [done|]. split; [done|]. split; [done|]. split; [done|]. split; [done|]. split; [apply uw_small; lia|].
  split; [|split; cbn; done]. apply uw_small. rewrite Z.shiftl_mul_pow2 by lia. lia.
Qed.

Lemma quad_low a v d s : waiting_command s = false -> pending_command s = Some CMD_QIOR_4B -> quad s = true -> read s = true ->
  40 <= pending_bits s -> pending_bits s mod 8 = 0 -> current_addr s = a -> pending_word s = Z.shiftl v 4 -> 0 <= v ->
  exists s', handle_data d s = Some (s', [nibble (uw 4 v)]) /\ quad_serving a s' /\ same_mem s s'.
Proof.
  intros Hw Hc Hq Hr Hb Hm Ha Hword Hv. unfold handle_data. rewrite Hw, Hc. cbn [mbind option_bind].
  change (handler CMD_QIOR_4B) with (Some quad_read). cbv iota. unfold quad_read, enqueue_bits.
  rewrite (proj2 (Z.eqb_neq (pending_bits s) 0)) by lia. rewrite Hq, Hr. cbn [negb]. cbv zeta. cbn [pending_bits set_pending_bits].
  rewrite (proj2 (Z.eqb_neq _ 32)) by lia. cbn [pending_bits set_pending_bits]. rewrite (proj2 (Z.eqb_neq _ 40)) by lia.
  cbn [pending_bits set_pending_bits]. rewrite (proj2 (Z.eqb_neq ((pending_bits s + 4) mod 8) 0)) by (Z.div_mod_to_equations; lia).
  rewrite andb_false_r. unfold send_bits. cbn [read quad set_pending_bits pending_word]. rewrite Hr, Hq, Hword. cbn [negb].
  rewrite Z.shiftr_shiftl_l, Z.sub_diag, Z.shiftl_0_r by lia. change 15 with (Z.ones 4). rewrite uw_land by lia.
  destruct (quad_send (uw 4 v)) as (-> & -> & -> & ->). eexists. split; [reflexivity|]. split; [|done].
  split; try done; cbn; [split; [lia|Z.div_mod_to_equations; lia]|congruence].
Qed.

Lemma quad_bytes vs : forall a l s, quad_serving a s -> length l = (2 * length vs)%nat -> Forall (fun v => 0 <= v < 256) vs -> 0 <= a ->
  take (length vs) (drop (Z.to_nat a) (mem_data s)) = vs -> a + Z.of_nat (length vs) <= size s -> size s <= 2 ^ 24 ->
  exists s', feed l s = Some (s', map nibble (data_nibbles vs)) /\ same_mem s s'.
Proof.
  induction vs as [|v vs IH]; intros a l s Hs Hl Hvs Ha0 Hmem Hend Hsz.
  - destruct l; [|done]. by exists s.
  - destruct l as [|d1 [|d2 l]]; simpl in Hl; [lia..|]. cbn [length] in Hmem, Hend. apply Forall_cons in Hvs as [Hv Hvs].
    assert (mem_data s !! Z.to_nat a = Some v) as Hv1.
    { rewrite <- (Nat.add_0_r (Z.to_nat a)), <- lookup_drop. destruct (drop _ (mem_data s)); [done|]. by injection Hmem as -> _. }
    assert (take (length vs) (drop (Z.to_nat (a + 1)) (mem_data s)) = vs) as Hrest.
    { replace (Z.to_nat (a + 1)) with (Z.to_nat a + 1)%nat by lia. rewrite <- drop_drop.
      destruct (drop (Z.to_nat a) (mem_data s)) as [|x t]; [done|]. by injection Hmem as _ ?. }
    destruct (quad_high a v d1 s Hs ltac:(lia) Hsz Hv1 Hv) as (s1 & E1 & Hw1 & Hc1 & Hq1 & Hr1 & Hb1 & Ha1 & Hword1 & [Hm1 Hz1]).
    destruct Hs as [_ _ _ [Hb Hm] _ _].
    destruct (quad_low (a + 1) v d2 s1 Hw1 Hc1 Hq1 Hr1) as (s2 & E2 & Hs2 & [Hm2 Hz2]); [lia|rewrite Hb1; Z.div_mod_to_equations; lia|done|done|lia|].
    destruct (IH (a + 1) l s2 Hs2) as (s3 & E3 & [Hm3 Hz3]); [lia|done|lia|by rewrite Hm2, Hm1|rewrite Hz2, Hz1; lia|by rewrite Hz2, Hz1|].
    exists s3. split; [|split; congruence]. cbn [feed]. rewrite E1. cbn [mbind option_bind]. rewrite E2. cbn [mbind option_bind]. rewrite E3.
    cbn [mbind option_bind]. unfold data_nibbles. cbn [map concat nibbles]. rewrite map_app. cbn [map app].
    change (4 * Z.of_nat 1) with 4. change (4 * Z.of_nat 0) with 0. rewrite Z.shiftr_0_r.
    rewrite (uw_small 4 (Z.shiftr v 4)); [done|]. rewrite Z.shiftr_div_pow2 by lia. change (2 ^ 4) with 16. Z.div_mod_to_equations; lia.
Qed.

(** Fewer than ten groups have been received, the first of them on a single line until it is known. *)
Record quad_receiving (b w : Z) (s : spiflash) : Prop := {
  qr_waiting : waiting_command s = false;
  qr_command : pending_command s = Some CMD_QIOR_4B;
  qr_quad : b = 0 \/ quad s = true;
  qr_read : read s = false;
  qr_bits : pending_bits s = b;
  qr_word : pending_word s = w
}.

Lemma quad_receive b w x s : quad_receiving b w s -> 0 <= b <= 32 -> 0 <= x < 16 ->
  exists s', handle_data (lines_of x) s = Some (s', []) /\ quad_receiving (b + 4) (u32 (w * 16 + x)) s' /\ same_mem s s' /\
    quad s' = true /\ current_addr s' = if b + 4 =? 32 then u32 (w * 16 + x) else current_addr s.
Proof.
  intros [Hw Hc Hq Hr Hb Hword] Hbr Hx. unfold handle_data. rewrite Hw, Hc. cbn [mbind option_bind].
  change (handler CMD_QIOR_4B) with (Some quad_read). cbv iota. unfold quad_read. rewrite Hb.
  set (s1 := if b =? 0 then set_quad true s else s).
  assert (pending_bits s1 = b /\ quad s1 = true /\ read s1 = false /\ pending_word s1 = w /\ same_mem s s1 /\ current_addr s1 = current_addr s /\
    waiting_command s1 = false /\ pending_command s1 = Some CMD_QIOR_4B) as (Hb1 & Hq1 & Hr1 & Hw1 & Hm1 & Ha1 & Hwa1 & Hc1).
  { unfold s1. destruct (Z.eqb_spec b 0); cbn; [done|]. destruct Hq; [lia|]. done. }
  clearbody s1. unfold enqueue_bits. rewrite Hq1, Hr1. cbn [negb]. cbv zeta. rewrite Hw1, quad_word by done.
  cbn [pending_bits set_pending_bits set_pending_word]. rewrite Hb1.
  set (s2 := set_pending_bits (b + 4) (set_pending_word (u32 (w * 16 + x)) s1)).
  set (s3 := if b + 4 =? 32 then set_current_addr (pending_word s2) s2 else s2).
  assert (pending_bits s3 = b + 4 /\ quad s3 = true /\ read s3 = false /\ pending_word s3 = u32 (w * 16 + x) /\ same_mem s s3 /\
    current_addr s3 = (if b + 4 =? 32 then u32 (w * 16 + x) else current_addr s) /\ waiting_command s3 = false /\
    pending_command s3 = Some CMD_QIOR_4B) as (Hb3 & Hq3 & Hr3 & Hw3 & Hm3 & Ha3 & Hwa3 & Hc3).
  { unfold s3. destruct (b + 4 =? 32); cbn; done. }
  clearbody s3. rewrite Hb3, (proj2 (Z.eqb_neq (b + 4) 40)) by lia. rewrite Hb3, (proj2 (Z.leb_gt 40 _)) by lia. cbn [andb].
  unfold send_bits. rewrite Hr3. exists s3. split; [done|]. split; [|done]. split; try done. by right.
Qed.

Lemma quad_receive_all xs : forall b w s, quad_receiving b w s -> Forall (fun x => 0 <= x < 16) xs -> 0 <= b ->
  b + 4 * Z.of_nat (length xs) <= 32 ->
  exists s', feed (map lines_of xs) s = Some (s', []) /\ quad_receiving (b + 4 * Z.of_nat (length xs)) (quad_shift w xs) s' /\
    same_mem s s' /\ (b < 32 -> b + 4 * Z.of_nat (length xs) = 32 -> current_addr s' = quad_shift w xs).
Proof.
  induction xs as [|x xs IH]; intros b w s Hs Hxs Hb Hend.
  - exists s. cbn [length]. rewrite Z.mul_0_r, Z.add_0_r. split; [done|]. split; [done|]. split; [done|]. lia.
  - apply Forall_cons in Hxs as [Hx Hxs]. cbn [length map feed] in *.
    destruct (quad_receive b w x s Hs ltac:(lia) Hx) as (s1 & -> & Hs1 & [Hm1 Hz1] & Hq1 & Ha1). cbn [mbind option_bind].
    destruct (IH (b + 4) _ s1 Hs1 Hxs) as (s2 & E2 & Hs2 & [Hm2 Hz2] & Ha2); [lia..|]. exists s2. rewrite E2. split; [done|].
    replace (b + 4 * Z.of_nat (S (length xs))) with (b + 4 + 4 * Z.of_nat (length xs)) by lia. split; [done|].
    split; [split; congruence|]. intros Hb32 He. destruct (Z.eq_dec (b + 4) 32) as [E|]; [|by apply Ha2; lia].
    assert (length xs = 0%nat) as H0 by lia. destruct xs; [|done]. injection E2 as <-. by rewrite E in Ha1.
Qed.

Lemma nibbles_range n v : Forall (fun x => 0 <= x < 16) (nibbles n v).
Proof. induction n as [|n IH]; simpl; constructor; [|done]. apply (uw_range 4). lia. Qed.

Lemma length_nibbles n v : length (nibbles n v) = n.
Proof. induction n; simpl; congruence. Qed.

(** A quad read: the command on the single line; on the four lines the address, eight groups of four bits, the mode, two
    groups, then the data. *)
Lemma quad_read_ok a vs lc m1 m2 ld s :
  selected s -> 0 <= a < 2 ^ 24 -> Forall (fun v => 0 <= v < 256) vs ->
  take (length vs) (drop (Z.to_nat a) (mem_data s)) = vs -> a + Z.of_nat (length vs) <= size s -> size s <= 2 ^ 24 ->
  map data_0 lc = bits 8 CMD_QIOR_4B -> 0 <= m1 < 16 -> S (length ld) = (2 * length vs)%nat ->
  exists s', feed (lc ++ map lines_of (nibbles 8 a) ++ lines_of m1 :: m2 :: ld) s = Some (s', map nibble (data_nibbles vs)) /\ same_mem s s'.
Proof.
  intros Hs Ha Hvs Hmem Hend Hsz Hlc Hm1 Hld.
  rewrite feed_app, (feed_command CMD_QIOR_4B lc s Hs); [|refine (bool_decide_eq_true_1 _ _); vm_compute; reflexivity|done|done].
  change (start_handler CMD_QIOR_4B) with (@None (spiflash -> spiflash * list sent)). cbn [mbind option_bind]. destruct Hs as (Hw & Hb & Hp & Hq & Hr).
  set (s0 := commanded CMD_QIOR_4B s). assert (quad_receiving 0 CMD_QIOR_4B s0) as Hs0 by (split; try done; by left).
  destruct (quad_receive_all (nibbles 8 a) 0 CMD_QIOR_4B s0 Hs0 (nibbles_range 8 a)) as (s1 & E1 & Hs1 & [Hme1 Hz1] & Ha1);
    [lia|rewrite length_nibbles; lia|]. rewrite feed_app, E1. cbn [mbind option_bind feed]. rewrite length_nibbles in Hs1, Ha1.
  change (0 + 4 * Z.of_nat 8) with 32 in *. specialize (Ha1 ltac:(lia) eq_refl).
  assert (quad_shift CMD_QIOR_4B (nibbles 8 a) = a) as Hword.
  { rewrite quad_shift_nibbles by lia. cbn [Nat.eqb]. change (16 ^ Z.of_nat 8) with (2 ^ 32). rewrite Z.add_comm, uw_add_mul by lia.
    rewrite Z.mod_small by lia. apply uw_small. lia. }
  destruct (quad_receive 32 _ m1 s1 Hs1 ltac:(lia) Hm1) as (s2 & E2 & Hs2 & [Hme2 Hz2] & Hq2 & Ha2). rewrite E2. cbn [mbind option_bind].
  change (32 + 4 =? 32) with false in Ha2. cbv iota in Ha2.
  assert (quad_serving a s2) as Hqs.
  { destruct Hs2 as [? ? _ ? Hb2 _]. split; try done; [rewrite Hb2; done|congruence]. }
  destruct (quad_bytes vs a (m2 :: ld) s2 Hqs) as (s3 & E3 & [Hme3 Hz3]); [simpl; lia|done|lia|by rewrite Hme2, Hme1|rewrite Hz2, Hz1; done|rewrite Hz2, Hz1; done|].
  cbn [feed] in E3. rewrite E3. exists s3. split; [done|]. split; [by rewrite Hme3, Hme2, Hme1|by rewrite Hz3, Hz2, Hz1].
Qed.

(** ** Transactions *)

(** The chip select, then the edges of the clock. *)
Definition transaction (l : list lines) : list input := CsSync false :: clocks l.

Record flash_ok (s : spiflash) : Prop := {
  fo_size : size s = Z.of_nat (length (mem_data s)) /\ size s <= 2 ^ 24;
  fo_bytes : Forall (fun v => 0 <= v < 256) (mem_data s)
}.

Lemma run_transaction l s : run (transaction l) s = feed l (start_command s).
Proof. unfold transaction. cbn [run sync mbind option_bind]. rewrite run_clocks. by destruct (feed l _) as [[? ?]|]. Qed.

Lemma start_selected s : selected (start_command s).
Proof. done. Qed.

(** The edges of each transaction. *)
Definition carries (l : list lines) (bs : list Z) : Prop := map data_0 l = bs.

(** C38: What is programmed is what is read. Programming bytes at an address changes exactly these cells of the memory,
    whatever was being done before the chip select; a read of [n] bytes, on the single line or on the four lines, then
    drives the bits of the memory from its address, the most significant first, the first one on the last edge of the
    address (of the mode, on four lines), and leaves the memory as it is. *)
Theorem flash_program_read a vs a' n pc pa pd rc ra rd qc m1 m2 qd c s :
  flash_ok s -> 0 <= a -> a + Z.of_nat (length vs) <= size s -> a < 2 ^ 24 -> Forall (fun v => 0 <= v < 256) vs ->
  0 <= a' < 2 ^ 24 -> (0 < n)%nat -> a' + Z.of_nat n <= size s ->
  carries pc (bits 8 CMD_PP) -> carries pa (bits 24 a) -> carries pd (data_bits vs) ->
  c = CMD_READ \/ c = CMD_READ_SIMPLE -> carries rc (bits 8 c) -> carries ra (bits 24 a') -> S (length rd) = (8 * n)%nat ->
  carries qc (bits 8 CMD_QIOR_4B) -> 0 <= m1 < 16 -> S (length qd) = (2 * n)%nat ->
  exists s1 s2 s3,
    run (transaction (pc ++ pa ++ pd)) s = Some (s1, []) /\
    mem_data s1 = list_inserts (Z.to_nat a) vs (mem_data s) /\
    run (transaction (rc ++ ra ++ rd)) s1 = Some (s2, map single (data_bits (take n (drop (Z.to_nat a') (mem_data s1))))) /\
    mem_data s2 = mem_data s1 /\
    run (transaction (qc ++ map lines_of (nibbles 8 a') ++ lines_of m1 :: m2 :: qd)) s2 =
      Some (s3, map nibble (data_nibbles (take n (drop (Z.to_nat a') (mem_data s1))))) /\
    mem_data s3 = mem_data s1.
Proof.
  intros [[Hz Hz24] Hbytes] Ha Haend Ha24 Hvs Ha' Hn Hend Hpc Hpa Hpd Hc Hrc Hra Hrd Hqc Hm1 Hqd. rewrite run_transaction.
  destruct (page_program_ok a vs pc pa pd (start_command s) (start_selected s)) as (s1 & E1 & Hm1' & Hz1); try done.
  change (mem_data (start_command s)) with (mem_data s) in Hm1'. change (size (start_command s)) with (size s) in Hz1.
  set (ws := take n (drop (Z.to_nat a') (mem_data s1))).
  assert (length (mem_data s1) = length (mem_data s)) as Hl1 by (rewrite Hm1'; apply length_inserts).
  assert (length ws = n) as Hws by (unfold ws; rewrite length_take, length_drop; lia).
  assert (Forall (fun v => 0 <= v < 256) (mem_data s1)) as Hb1 by (rewrite Hm1'; by apply Forall_inserts).
  assert (take (length ws) (drop (Z.to_nat a') (mem_data s1)) = ws) as Htk by by rewrite Hws.
  destruct (single_read_ok c a' ws rc ra rd (start_command s1) (start_selected s1)) as (s2 & E2 & [Hm2 Hz2]); try done;
    [by intros E0; rewrite E0 in Hws; simpl in Hws; lia|cbn; rewrite Hz1; lia|cbn; by rewrite Hz1|by rewrite Hws|].
  destruct (quad_read_ok a' ws qc m1 m2 qd (start_command s2) (start_selected s2)) as (s3 & E3 & [Hm3 Hz3]); try done;
    [by apply Forall_take, Forall_drop|cbn; by rewrite Hm2|cbn; rewrite Hz2; cbn; rewrite Hz1; lia|cbn; rewrite Hz2; cbn; by rewrite Hz1|by rewrite Hws|].
  exists s1, s2, s3. split; [done|]. split; [done|]. rewrite !run_transaction. split; [done|]. split; [done|]. split; [done|].
  rewrite Hm3. cbn. by rewrite Hm2.
Qed.

(** ** Accesses *)

Record flash_inv (z : Z) (s : spiflash) : Prop := {
  fi_size : size s = z /\ Z.of_nat (length (mem_data s)) = z;
  fi_bytes : Forall (fun v => 0 <= v < 256) (mem_data s);
  fi_word : 0 <= pending_word s < 2 ^ 32;
  fi_addr : 0 <= current_addr s < 2 ^ 32;
  fi_command : waiting_command s = true \/ is_Some (pending_command s);
  fi_sr2v : 0 <= sr2v s < 256
}.

Definition safe (z : Z) (r : step) : Prop := exists s o, r = Some (s, o) /\ flash_inv z s.

Lemma inv_word z w s : flash_inv z s -> 0 <= w < 2 ^ 32 -> flash_inv z (set_pending_word w s).
Proof. intros []. by split. Qed.
Lemma inv_addr z a s : flash_inv z s -> 0 <= a < 2 ^ 32 -> flash_inv z (set_current_addr a s).
Proof. intros []. by split. Qed.
Lemma inv_bits z n s : flash_inv z s -> flash_inv z (set_pending_bits n s).
Proof. intros []. by split. Qed.
Lemma inv_read z b s : flash_inv z s -> flash_inv z (set_read b s).
Proof. intros []. by split. Qed.
Lemma inv_quad z b s : flash_inv z s -> flash_inv z (set_quad b s).
Proof. intros []. by split. Qed.
Lemma inv_sr2v z v s : flash_inv z s -> 0 <= v < 256 -> flash_inv z (set_sr2v v s).
Proof. intros []. by split. Qed.
Lemma inv_cr1 z v s : flash_inv z s -> flash_inv z (set_cr1 v s).
Proof. intros []. by split. Qed.
Lemma inv_erase z v s : flash_inv z s -> flash_inv z (set_erase_event v s).
Proof. intros []. by split. Qed.
Lemma inv_start z s : flash_inv z s -> flash_inv z (start_command s).
Proof. intros []. split; try done. by left. Qed.
#[local] Hint Resolve inv_bits inv_read inv_quad inv_cr1 inv_erase inv_start : gv.

Lemma u32_range x : 0 <= u32 x < 2 ^ 32.
Proof. apply (uw_range 32). lia. Qed.

Lemma inv_enqueue z d s : flash_inv z s -> flash_inv z (enqueue_bits d s).
Proof.
  intros H. unfold enqueue_bits. destruct (quad s), (read s); cbn [negb]; auto with gv; apply inv_bits, inv_word;
    auto using u32_range.
Qed.

Lemma inv_send z s : flash_inv z s -> safe z (Some (send_bits s)).
Proof.
  intros H. unfold send_bits. destruct (read s); [|by eexists _, _].
  destruct (quad s); cbn [negb]; eexists _, _; (split; [reflexivity|]); apply inv_word; auto using u32_range.
Qed.

Lemma inv_land24 z s : flash_inv z s -> 0 <= Z.land (pending_word s) 0xffffff < 2 ^ 32.
Proof.
  intros _. change 0xffffff with (Z.ones 24). rewrite Z.land_ones by lia. pose proof (Z.mod_pos_bound (pending_word s) (2 ^ 24) ltac:(lia)). lia.
Qed.

Lemma safe_load z s : flash_inv z s -> current_addr s < size s ->
  safe z (let* s := load_next s in Some (send_bits s)).
Proof.
  intros H Ha. pose proof H as [[Hz Hl] Hb _ Hr _ _]. unfold load_next.
  destruct (lookup_lt_is_Some_2 (mem_data s) (Z.to_nat (current_addr s)) ltac:(lia)) as [v Hv]. rewrite Hv. cbn [mbind option_bind].
  apply inv_send, inv_word; [apply inv_addr; [done|apply u32_range]|].
  assert (0 <= v < 256) by exact (proj1 (Forall_lookup _ _) Hb _ _ Hv). lia.
Qed.

Lemma safe_store z s : flash_inv z s -> current_addr s < size s -> safe z (let* s := store_next s in Some (s, [])).
Proof.
  intros H Ha. pose proof H as [[Hz Hl] Hb Hw Hr Hc Hs]. unfold store_next. rewrite (proj2 (Z.ltb_lt _ _)) by lia. cbn [mbind option_bind].
  eexists _, _. split; [reflexivity|]. apply inv_addr; [|apply u32_range]. split; try done.
  - cbn. by rewrite length_insert.
  - cbn. apply Forall_insert; [done|]. apply (uw_range 8). lia.
Qed.

Lemma safe_handler z c h d s : handler c = Some h -> flash_inv z s -> safe z (h d s).
Proof.
  intros Hh H. unfold handler in Hh. repeat case_match; try done; injection Hh as <-.
  - unfold write_any_register. pose proof (inv_enqueue z d s H) as K1. destruct (pending_bits _ =? 32); [|by eexists _, _].
    eexists _, _. split; [reflexivity|]. destruct (_ =? 0x800002); auto with gv.
  - unfold page_program. pose proof (inv_enqueue z d s H) as K1. pose proof (inv_land24 z _ K1) as Hw.
    set (s1 := if _ =? 24 then _ else _). assert (flash_inv z s1) as K2
      by (unfold s1; destruct (_ =? 24); auto with gv; apply inv_read, inv_addr; done).
    clearbody s1. destruct (_ && _); [|by eexists _, _]. destruct (Z.leb_spec (size s1) (current_addr s1)); [by eexists _, _|by apply safe_store].
  - unfold quad_read. set (s0 := if pending_bits s =? 0 then set_quad true s else s).
    assert (flash_inv z s0) as K0 by (unfold s0; destruct (_ =? 0); auto with gv). clearbody s0.
    pose proof (inv_enqueue z d s0 K0) as K1. pose proof (fi_word _ _ K1) as Hw.
    set (s1 := if _ =? 32 then _ else _). assert (flash_inv z s1) as K2
      by (unfold s1; destruct (_ =? 32); auto with gv; apply inv_addr; done). clearbody s1.
    set (s2 := if _ =? 40 then _ else _). assert (flash_inv z s2) as K3 by (unfold s2; destruct (_ =? 40); auto with gv).
    clearbody s2. destruct (_ && _); [|by apply inv_send].
    destruct (Z.leb_spec (size s2) (current_addr s2)); [by eexists _, _|by apply safe_load].
  - unfold single_read. pose proof (inv_enqueue z d s H) as K1. pose proof (inv_land24 z _ K1) as Hw.
    set (s1 := if _ =? 24 then _ else _). assert (flash_inv z s1) as K2
      by (unfold s1; destruct (_ =? 24); auto with gv; apply inv_read, inv_addr; done).
    clearbody s1. destruct (_ && _); [|by apply inv_send].
    destruct (Z.leb_spec (size s1) (current_addr s1)); [by eexists _, _|by apply safe_load].
  - unfold sector_erase. set (s0 := if pending_bits s =? 0 then _ else s).
    assert (flash_inv z s0) as K0.
    { unfold s0. destruct (_ =? 0); [|done]. apply inv_sr2v; [done|]. pose proof (fi_sr2v _ _ H) as Hs.
      change (u8 (Z.lnot (Z.shiftl 1 2))) with 251. apply (range_of_bits 8); [lia|]. intros i Hi.
      rewrite Z.land_spec, (testbit_above 8 251 i) by (simpl; lia). apply andb_false_r. }
    clearbody s0. pose proof (inv_enqueue z d s0 K0) as K1. pose proof (fi_word _ _ K1) as Hw.
    eexists _, _. split; [reflexivity|]. destruct (_ =? 24); [apply inv_erase, inv_addr|]; done.
  - unfold read_sr2v. by apply inv_send.
Qed.

Lemma safe_sync z i s : flash_inv z s -> safe z (sync i s).
Proof.
  intros H. destruct i as [sck d|active|]; cbn [sync].
  - destruct (negb _); [|by eexists _, _]. unfold handle_data. pose proof H as [_ _ _ _ Hc _]. destruct (waiting_command s) eqn:Ew.
    + set (s1 := set_pending_bits _ _). assert (flash_inv z s1) as K1
        by (apply inv_bits, inv_word; [done|apply u32_range]). clearbody s1.
      destruct (pending_bits s1 =? 0); [|by eexists _, _]. set (id := Z.land _ _). destruct (bool_decide _).
      * assert (flash_inv z (set_pending_command (Some id) (set_waiting_command false s1))) as K2
          by (destruct K1; split; try done; right; by eexists).
        unfold start_handler. destruct (id =? CMD_READ_SR2V); [|by eexists _, _]. unfold read_sr2v_start.
        apply inv_send, inv_read, inv_word; [done|]. pose proof (fi_sr2v _ _ K2). lia.
      * eexists _, _. split; [reflexivity|]. destruct K1. split; try done. by left.
    + destruct Hc as [?|[c Hc]]; [done|]. rewrite Hc. cbn [mbind option_bind].
      destruct (handler c) as [h|] eqn:Eh; [|by eexists _, _]. by eapply safe_handler.
  - eexists _, _. split; [reflexivity|]. destruct active; auto with gv.
  - eexists _, _. split; [reflexivity|]. apply inv_erase, inv_sr2v; [done|]. pose proof (fi_sr2v _ _ H).
    change (Z.shiftl 1 2) with 4. apply (lor_range 8); lia.
Qed.

Lemma safe_run z l : forall s, flash_inv z s -> safe z (run l s).
Proof.
  induction l as [|i l IH]; intros s H; [by eexists _, _|]. cbn [run]. destruct (safe_sync z i s H) as (s1 & o1 & -> & K1).
  cbn [mbind option_bind]. destruct (IH s1 K1) as (s2 & o2 & -> & K2). by eexists _, _.
Qed.

(** C40: No access outside of the memory. Whatever edges, chip selects and events a flash gets after it was first
    selected, whole transactions or not, known commands or not, every read and write of its memory is at an
    address below its size, and no null command is called: the run does not get stuck. The memory keeps its
    size and its cells are bytes. *)
Theorem flash_in_bounds z u l :
  0 <= z < 2 ^ 31 -> 0 <= current_addr u < 2 ^ 32 ->
  exists s o, run (CsSync false :: l) (build z u) = Some (s, o) /\ Z.of_nat (length (mem_data s)) = z /\
    Forall (fun v => 0 <= v < 256) (mem_data s).
Proof.
  intros Hz Hu. assert (flash_inv z (start_command (build z u))) as H.
  { split; cbn; try done; try lia.
    - split; [done|]. rewrite length_replicate. lia.
    - apply Forall_replicate. lia. }
  destruct (safe_run z l _ H) as (s & o & E & [[_ Hl] Hb _ _ _ _]). exists s, o. split; [|done].
  cbn [run sync mbind option_bind]. by rewrite E.
Qed.

(** ** Erase *)

Lemma sector_erase_receives d s : pending_bits s <> 0 -> pending_bits s + 1 <> 24 -> quad s = false ->
  sector_erase d s = Some (enqueue_bits d s, []).
Proof.
  intros H0 H24 Hq. unfold sector_erase. rewrite (proj2 (Z.eqb_neq _ 0)) by done. unfold enqueue_bits. rewrite Hq. cbn [negb].
  destruct (read s); cbn [negb]; cbn [pending_bits set_pending_bits set_pending_word]; by rewrite (proj2 (Z.eqb_neq _ 24)).
Qed.

(** The bits of the status that are left, on the edges after the command. *)
Lemma status_rest m : forall l v s, (m <= 7)%nat -> length l = m -> waiting_command s = false -> pending_command s = Some CMD_READ_SR2V ->
  quad s = false -> read s = true -> pending_word s = u32 (Z.shiftl v (8 - Z.of_nat m)) ->
  exists s', feed l s = Some (s', map single (bits m v)) /\ same_mem s s'.
Proof.
  induction m as [|m IH]; intros l v s Hm Hl Hw Hc Hq Hr Hword; destruct l as [|d l]; try done; [by exists s|].
  cbn [feed]. unfold handle_data. rewrite Hw, Hc. cbn [mbind option_bind].
  change (handler CMD_READ_SR2V) with (Some read_sr2v). cbv iota. unfold read_sr2v, send_bits. rewrite Hr, Hq. cbn [negb mbind option_bind].
  rewrite Hword, bit_at, uw_testbit, Z.shiftl_spec by lia. replace (7 - (8 - Z.of_nat (S m))) with (Z.of_nat m) by lia.
  destruct (IH l v (set_pending_word (u32 (Z.shiftl (u32 (Z.shiftl v (8 - Z.of_nat (S m)))) 1)) s)) as (s' & -> & Hm'); try done;
    [lia|simpl in Hl; lia| |by exists s'].
  cbn. rewrite !Z.shiftl_mul_pow2 by lia. rewrite uw_mul_l by lia.
  replace (8 - Z.of_nat m) with (8 - Z.of_nat (S m) + 1) by lia. rewrite Z.pow_add_r by lia. f_equal. lia.
Qed.

Lemma read_status rc rd s : 0 <= sr2v s < 256 -> carries rc (bits 8 CMD_READ_SR2V) -> length rd = 7%nat ->
  exists s', run (transaction (rc ++ rd)) s = Some (s', map single (bits 8 (sr2v s))) /\ mem_data s' = mem_data s.
Proof.
  intros Hs Hrc Hrd. rewrite run_transaction, feed_app.
  rewrite (feed_command CMD_READ_SR2V rc _ (start_selected s)); [|refine (bool_decide_eq_true_1 _ _); vm_compute; reflexivity|done|done].
  change (start_handler CMD_READ_SR2V) with (Some read_sr2v_start). unfold read_sr2v_start, send_bits. cbn [read set_read quad set_pending_word].
  change (quad (commanded CMD_READ_SR2V (start_command s))) with false. cbn [negb mbind option_bind pending_word set_read set_pending_word].
  change (sr2v (commanded CMD_READ_SR2V (start_command s))) with (sr2v s). rewrite bit_at by lia.
  match goal with |- context [feed rd ?s1] => destruct (status_rest 7 rd (sr2v s) s1) as (s' & -> & [Hm _]); try done end.
  exists s'. cbn [mbind option_bind]. by rewrite Hm.
Qed.

Lemma erase_first d s : pending_bits s = 0 -> quad s = false -> read s = false -> 0 <= sr2v s < 256 ->
  sector_erase d s = Some (enqueue_bits d (set_sr2v (Z.land (sr2v s) 251) s), []).
Proof.
  intros Hb Hq Hr Hs. unfold sector_erase, enqueue_bits. rewrite Hb. change (0 =? 0) with true. cbv iota.
  cbn [quad read set_sr2v]. rewrite Hq, Hr. cbn [negb]. cbn [pending_bits set_pending_bits set_pending_word set_sr2v]. rewrite Hb. done.
Qed.

Lemma sector_erase_ok a ec ea s : carries ec (bits 8 CMD_SECTOR_ERASE) -> carries ea (bits 24 a) -> 0 <= a < 2 ^ 24 -> 0 <= sr2v s < 256 ->
  exists s', run (transaction (ec ++ ea)) s = Some (s', []) /\ erase_event s' = Some 1000000 /\
    sr2v s' = Z.land (sr2v s) 251 /\ mem_data s' = mem_data s.
Proof.
  intros Hec Hea Ha Hs. rewrite run_transaction, feed_app.
  rewrite (feed_command CMD_SECTOR_ERASE ec _ (start_selected s)); [|refine (bool_decide_eq_true_1 _ _); vm_compute; reflexivity|done|done].
  change (start_handler CMD_SECTOR_ERASE) with (@None (spiflash -> spiflash * list sent)). cbn [mbind option_bind].
  destruct (address_bits 0 a ea Ha Hea) as (l23 & d & -> & H23 & _). destruct l23 as [|d0 l22]; [done|]. simpl in H23.
  set (s0 := commanded CMD_SECTOR_ERASE (start_command s)).
  assert (handle_data d0 s0 = Some (enqueue_bits d0 (set_sr2v (Z.land (sr2v s0) 251) s0), [])) as E0 by (by apply erase_first).
  cbn [app feed]. rewrite E0. cbn [mbind option_bind]. set (s1 := enqueue_bits d0 _). rewrite feed_app.
  rewrite (feed_received (fun i => 1 < i < 24) sector_erase l22 s1 CMD_SECTOR_ERASE); try done;
    [|intros; apply sector_erase_receives; lia || done|intros i; change (pending_bits s1) with 1; lia].
  cbn [mbind option_bind feed]. set (s2 := received (map data_0 l22) s1).
  assert (pending_bits s2 = 23) as Hb2.
  { unfold s2, received. cbn [pending_bits set_pending_bits]. rewrite length_map. change (pending_bits s1) with 1. lia. }
  unfold handle_data. change (waiting_command s2) with false. change (pending_command s2) with (Some CMD_SECTOR_ERASE).
  cbn [mbind option_bind]. change (handler CMD_SECTOR_ERASE) with (Some sector_erase). cbv iota. unfold sector_erase. rewrite Hb2.
  change (23 =? 0) with false. cbv iota. unfold enqueue_bits. change (quad s2) with false. change (read s2) with false. cbn [negb].
  cbn [pending_bits set_pending_bits set_pending_word]. rewrite Hb2. change (23 + 1 =? 24) with true. cbv iota. cbn [mbind option_bind].
  eexists. split; [reflexivity|]. done.
Qed.

(** The status follows an erase. After the command and its address, bit 2 of the status register is 0 and the
    event is posted for 1000000 cycles later; a read of the status drives its eight bits, starting on the last
    edge of the command, with bit 2 at 0 until the event and at 1 after it. The memory, whatever the address, is
    not erased. *)
Theorem flash_erase_status a ec ea rc rd s :
  carries ec (bits 8 CMD_SECTOR_ERASE) -> carries ea (bits 24 a) -> 0 <= a < 2 ^ 24 -> 0 <= sr2v s < 256 ->
  carries rc (bits 8 CMD_READ_SR2V) -> length rd = 7%nat ->
  exists s1 s2 s3,
    run (transaction (ec ++ ea)) s = Some (s1, []) /\ erase_event s1 = Some 1000000 /\
    run (transaction (rc ++ rd)) s1 = Some (s2, map single (bits 8 (Z.land (sr2v s) 251))) /\
    run (EraseEvent :: transaction (rc ++ rd)) s1 = Some (s3, map single (bits 8 (Z.lor (Z.land (sr2v s) 251) 4))) /\
    mem_data s1 = mem_data s /\ mem_data s2 = mem_data s /\ mem_data s3 = mem_data s.
Proof.
  intros Hec Hea Ha Hs Hrc Hrd. destruct (sector_erase_ok a ec ea s Hec Hea Ha Hs) as (s1 & E1 & He1 & Hv1 & Hm1).
  assert (0 <= Z.land (sr2v s) 251 < 256) as Hr.
  { apply (range_of_bits 8); [lia|]. intros i Hi. rewrite Z.land_spec, (testbit_above 8 251 i) by (simpl; lia). apply andb_false_r. }
  destruct (read_status rc rd s1) as (s2 & E2 & Hm2); [by rewrite Hv1|done|done|].
  destruct (read_status rc rd (sector_erase_done s1)) as (s3 & E3 & Hm3);
    [change (0 <= Z.lor (sr2v s1) 4 < 2 ^ 8); rewrite Hv1; apply (lor_range 8); lia|done|done|].
  exists s1, s2, s3. split; [done|]. split; [done|]. split; [by rewrite <- Hv1|]. split.
  - cbn [run sync mbind option_bind]. change (Z.lor (Z.land (sr2v s) 251) 4) with (Z.lor (Z.land (sr2v s) 251) (Z.shiftl 1 2)).
    rewrite <- Hv1. fold (sr2v (sector_erase_done s1)). rewrite E3. done.
  - split; [done|]. split; [congruence|]. rewrite Hm3. done.
Qed.

(** ** Witnesses: a memory of 16 bytes *)
Definition demo_flash : spiflash :=
  build 16 (Spiflash 0 [] 0 0 None 0 0 false false false 0 None).
Definition single_lines (l : list Z) : list lines := map (fun b => Lines b 0 0 0) l.
Lemma carries_single l : carries (single_lines l) l.
Proof. unfold carries, single_lines. rewrite map_map. apply map_id. Qed.

(** Two bytes at 4, then three at 3. *)
Lemma flash_program_read_witness :
  exists s1 s2 s3,
    run (transaction (single_lines (bits 8 CMD_PP) ++ single_lines (bits 24 4) ++ single_lines (data_bits [0xA5; 0x0F]))) demo_flash = Some (s1, []) /\
    mem_data s1 = list_inserts (Z.to_nat 4) [0xA5; 0x0F] (mem_data demo_flash) /\
    run (transaction (single_lines (bits 8 CMD_READ) ++ single_lines (bits 24 3) ++ single_lines (replicate 23 0))) s1 =
      Some (s2, map single (data_bits (take 3 (drop (Z.to_nat 3) (mem_data s1))))) /\
    mem_data s2 = mem_data s1 /\
    run (transaction (single_lines (bits 8 CMD_QIOR_4B) ++ map lines_of (nibbles 8 3) ++ lines_of 0 :: Lines 0 0 0 0 :: single_lines (replicate 5 0))) s2 =
      Some (s3, map nibble (data_nibbles (take 3 (drop (Z.to_nat 3) (mem_data s1))))) /\
    mem_data s3 = mem_data s1.
Proof.
  apply (flash_program_read 4 [0xA5; 0x0F] 3 3 _ _ _ _ _ _ _ _ _ _ CMD_READ); try apply carries_single; try (vm_compute; reflexivity); try (cbn; lia).
  - split; [split; [reflexivity|cbn; lia]|]. apply Forall_replicate. lia.
  - repeat (apply Forall_cons; split; [lia|]). by apply Forall_nil.
Defined.

Lemma flash_in_bounds_witness :
  exists s o, run (CsSync false :: [EraseEvent; Sync 1 (Lines 1 0 0 0)]) (build 16 demo_flash) = Some (s, o) /\
    Z.of_nat (length (mem_data s)) = 16 /\ Forall (fun v => 0 <= v < 256) (mem_data s).
Proof. apply flash_in_bounds; cbn; lia. Defined.

Lemma flash_erase_status_witness :
  exists s1 s2 s3,
    run (transaction (single_lines (bits 8 CMD_SECTOR_ERASE) ++ single_lines (bits 24 0))) demo_flash = Some (s1, []) /\
    erase_event s1 = Some 1000000 /\
    run (transaction (single_lines (bits 8 CMD_READ_SR2V) ++ single_lines (replicate 7 0))) s1 = Some (s2, map single (bits 8 (Z.land 0 251))) /\
    run (EraseEvent :: transaction (single_lines (bits 8 CMD_READ_SR2V) ++ single_lines (replicate 7 0))) s1 =
      Some (s3, map single (bits 8 (Z.lor (Z.land 0 251) 4))) /\
    mem_data s1 = mem_data demo_flash /\ mem_data s2 = mem_data demo_flash /\ mem_data s3 = mem_data demo_flash.
Proof. apply (flash_erase_status 0); try apply carries_single; cbn; lia. Defined.
