(* ===== verification/Hyperbus.v ===== *)
(** Memories on the HyperBus: the RAM (models/devices/hyperbus/hyperram_impl.cpp) and the flash
    (hyperflash_impl.cpp).

    A transaction is framed by the chip select; its first six bytes are the command and address (CA), the
    next ones are data, one per cycle. A step gives the new state and the bytes sent; [None] is an access
    outside of the memory. Loading and writing back files, and the traces, are left out. *)

From S2P Require Import Prelude.

Definition step (A : Type) : Type := option (A * list Z).

(** ** Command and address *)

(** The union [ca] and its decoding: [raw] holds the bytes, [raw 5] is received first. *)
Record ca_t := Ca { low_addr : Z; high_addr : Z; burst_type : Z; address_space : Z; ca_read : Z }.
Definition ca_of (raw : list Z) : ca_t :=
  let v := pack 8 raw in
  Ca (uw 3 v) (uw 29 (Z.shiftr v 16)) (uw 1 (Z.shiftr v 45)) (uw 1 (Z.shiftr v 46)) (uw 1 (Z.shiftr v 47)).

(** The address is an int. *)
Definition address_of (c : ca_t) : Z := s32 (Z.lor (low_addr c) (Z.shiftl (high_addr c) 3)).

Inductive hyperbus_state := HYPERBUS_STATE_CA | HYPERBUS_STATE_DATA.

Inductive input :=
  | Cycle (data : Z)
  | CsSync (value : bool).

(** memory access at an int address that passed the test against the size: a negative one is outside. *)
Definition load (mem : list Z) (address : Z) : option Z := if 0 <=? address then mem !! Z.to_nat address else None.
Definition store (mem : list Z) (address v : Z) : option (list Z) :=
  if (0 <=? address) && (address <? Z.of_nat (length mem)) then Some (<[Z.to_nat address := v]> mem) else None.

(** ** Hyperram *)
Module Ram.

Record hyperram := Hyperram {
  size : Z;
  data : list Z;
  raw : list Z;
  ca_count : nat;
  current_address : Z;
  reg_access : bool;
  state : hyperbus_state
}.

(** build: the fields that it leaves as they are come from [u]. *)
Definition build (size : Z) (u : hyperram) : hyperram :=
  Hyperram size (replicate (Z.to_nat size) 0xff) (raw u) (ca_count u) (current_address u) (reg_access u) (state u).

Definition set_data x (s : hyperram) := Hyperram (size s) x (raw s) (ca_count s) (current_address s) (reg_access s) (state s).
Definition set_current_address x (s : hyperram) := Hyperram (size s) (data s) (raw s) (ca_count s) x (reg_access s) (state s).

Definition handle_access (reg_access : bool) (address : Z) (read : Z) (v : Z) (s : hyperram) : step hyperram :=
  if size s <=? address then Some (s, [])
  else if negb (read =? 0) then let* x := load (data s) address in Some (s, [x])
  else let* m := store (data s) address v in Some (set_data m s, []).

(** In the CA phase [ca_count] is positive. *)
Definition sync_cycle (v : Z) (s : hyperram) : step hyperram :=
  match state s with
  | HYPERBUS_STATE_CA =>
      match ca_count s with
      | O => None
      | S n =>
          let raw := <[n := u8 v]> (raw s) in
          let s := Hyperram (size s) (data s) raw n (current_address s) (reg_access s) (state s) in
          if (n =? 0)%nat then
            let c := ca_of raw in
            Some (Hyperram (size s) (data s) raw n (address_of c) (address_space c =? 1) HYPERBUS_STATE_DATA, [])
          else Some (s, [])
      end
  | HYPERBUS_STATE_DATA =>
      let* (s', o) := handle_access (reg_access s) (current_address s) (ca_read (ca_of (raw s))) (u8 v) s in
      Some (set_current_address (s32 (current_address s' + 1)) s', o)
  end.

Definition cs_sync (value : bool) (s : hyperram) : hyperram :=
  Hyperram (size s) (data s) (raw s) 6 (current_address s) (reg_access s) HYPERBUS_STATE_CA.

Definition sync (i : input) (s : hyperram) : step hyperram :=
  match i with Cycle v => sync_cycle v s | CsSync value => Some (cs_sync value s, []) end.

Fixpoint run (l : list input) (s : hyperram) : step hyperram :=
  match l with
  | [] => Some (s, [])
  | i :: l => let* (s, o) := sync i s in let* (s, o') := run l s in Some (s, o ++ o')
  end.
End Ram.

(** ** Hyperflash *)
Module Flash.

Definition FLASH_SECTOR_SIZE : Z := Z.shiftl 1 18.

Inductive hyperflash_state :=
  | WAIT_CMD0 | WAIT_CMD1 | WAIT_CMD2 | WAIT_CMD3 | WAIT_CMD4 | WAIT_CMD5
  | PROGRAM_START | PROGRAM | GET_STATUS_REG.
#[export] Instance hyperflash_state_eq_dec : EqDecision hyperflash_state.
Proof. solve_decision. Defined.

Record hyperflash := Hyperflash {
  size : Z;
  data : list Z;
  state : hyperflash_state;
  hyper_state : hyperbus_state;
  pending_bytes : Z;
  pending_cmd : Z;
  raw : list Z;
  ca_count : nat;
  current_address : Z;
  reg_access : bool;
  burst_write : bool;
  nb_word : Z;
  sector : Z
}.

Definition set_data x (s : hyperflash) := Hyperflash (size s) x (state s) (hyper_state s) (pending_bytes s) (pending_cmd s) (raw s) (ca_count s) (current_address s) (reg_access s) (burst_write s) (nb_word s) (sector s).
Definition set_state x (s : hyperflash) := Hyperflash (size s) (data s) x (hyper_state s) (pending_bytes s) (pending_cmd s) (raw s) (ca_count s) (current_address s) (reg_access s) (burst_write s) (nb_word s) (sector s).
Definition set_pending_bytes x (s : hyperflash) := Hyperflash (size s) (data s) (state s) (hyper_state s) x (pending_cmd s) (raw s) (ca_count s) (current_address s) (reg_access s) (burst_write s) (nb_word s) (sector s).
Definition set_pending_cmd x (s : hyperflash) := Hyperflash (size s) (data s) (state s) (hyper_state s) (pending_bytes s) x (raw s) (ca_count s) (current_address s) (reg_access s) (burst_write s) (nb_word s) (sector s).
Definition set_current_address x (s : hyperflash) := Hyperflash (size s) (data s) (state s) (hyper_state s) (pending_bytes s) (pending_cmd s) (raw s) (ca_count s) x (reg_access s) (burst_write s) (nb_word s) (sector s).
Definition set_burst_write x (s : hyperflash) := Hyperflash (size s) (data s) (state s) (hyper_state s) (pending_bytes s) (pending_cmd s) (raw s) (ca_count s) (current_address s) (reg_access s) x (nb_word s) (sector s).
Definition set_nb_word x (s : hyperflash) := Hyperflash (size s) (data s) (state s) (hyper_state s) (pending_bytes s) (pending_cmd s) (raw s) (ca_count s) (current_address s) (reg_access s) (burst_write s) x (sector s).
Definition set_sector x (s : hyperflash) := Hyperflash (size s) (data s) (state s) (hyper_state s) (pending_bytes s) (pending_cmd s) (raw s) (ca_count s) (current_address s) (reg_access s) (burst_write s) (nb_word s) x.

Definition build (size : Z) (u : hyperflash) : hyperflash :=
  Hyperflash size (replicate (Z.to_nat size) 0xff) WAIT_CMD0 (hyper_state u) 0 0 (raw u) (ca_count u) (current_address u)
    (reg_access u) false (-1) (sector u).

(** The address is unsigned, and compared to the size as such. memset past the end of the memory is [None]. *)
Definition erase_sector (addr : Z) (s : hyperflash) : option hyperflash :=
  let addr := Z.land addr (u32 (Z.lnot (FLASH_SECTOR_SIZE - 1))) in
  if u32 (size s) <=? addr then Some s
  else if addr + FLASH_SECTOR_SIZE <=? Z.of_nat (length (data s)) then
    Some (set_data (list_inserts (Z.to_nat addr) (replicate (Z.to_nat FLASH_SECTOR_SIZE) 0xff) (data s)) s)
  else None.

Fixpoint erase_chip_loop (fuel : nat) (addr : Z) (s : hyperflash) : outcome hyperflash :=
  match fuel with
  | O => OutOfFuel
  | S fuel =>
      if addr <? u32 (addr + size s) then
        match erase_sector addr s with
        | Some s => erase_chip_loop fuel (u32 (addr + FLASH_SECTOR_SIZE)) s
        | None => AssertFailed
        end
      else Done s
  end.
(** 2^32 / FLASH_SECTOR_SIZE turns, and the last test. *)
Definition erase_chip (s : hyperflash) : option hyperflash :=
  match erase_chip_loop (Z.to_nat 16385) 0 s with Done s => Some s | _ => None end.

(** The bits of a cell that are at 0 stay at 0. *)
Definition program_byte (address v : Z) (s : hyperflash) : option hyperflash :=
  let* old := load (data s) address in
  let* m := store (data s) address (Z.land old v) in
  Some (set_data m s).

(** The commands, once their two bytes are there. *)
Definition command (address cmd : Z) (s : hyperflash) : option hyperflash :=
  let word := Z.shiftr address 1 in
  match state s with
  | WAIT_CMD0 =>
      if (word =? 0x555) && (cmd =? 0xAA) then Some (set_state WAIT_CMD1 s)
      else if (word =? 0x555) && (cmd =? 0x70) then
        Some (set_pending_cmd 0x80 (set_pending_bytes 2 (set_state GET_STATUS_REG s)))
      else Some s
  | WAIT_CMD1 => Some (if (word =? 0x2AA) && (cmd =? 0x55) then set_state WAIT_CMD2 s else s)
  | WAIT_CMD2 =>
      Some (if (word =? 0x555) && (cmd =? 0xA0) then set_state PROGRAM_START s
            else if (word =? 0x555) && (cmd =? 0x80) then set_state WAIT_CMD3 s
            else if (word =? 0x555) && (cmd =? 0x38) then set_state WAIT_CMD0 s
            else if cmd =? 0x25 then set_state WAIT_CMD2 (set_sector word (set_burst_write true s))
            else if (word =? sector s) && burst_write s then set_state PROGRAM_START (set_nb_word cmd s)
            else s)
  | WAIT_CMD3 => Some (if (word =? 0x555) && (cmd =? 0xAA) then set_state WAIT_CMD4 s else s)
  | WAIT_CMD4 => Some (if (word =? 0x2AA) && (cmd =? 0x55) then set_state WAIT_CMD5 s else s)
  | WAIT_CMD5 =>
      if (word =? 0x555) && (cmd =? 0x10) then let* s := erase_chip s in Some (set_state WAIT_CMD0 s)
      else if cmd =? 0x30 then let* s := erase_sector (u32 address) s in Some (set_state WAIT_CMD0 s)
      else Some s
  | _ => Some s
  end.

Definition handle_access (reg_access : bool) (address read v : Z) (s : hyperflash) : step hyperflash :=
  if size s <=? address then Some (s, [])
  else if negb (read =? 0) then
    if bool_decide (state s = GET_STATUS_REG) then
      let x := u8 (pending_cmd s) in
      let s := set_pending_cmd (Z.shiftr (pending_cmd s) 8) (set_pending_bytes (pending_bytes s - 1) s) in
      Some (if pending_bytes s =? 0 then set_state WAIT_CMD0 s else s, [x])
    else let* x := load (data s) address in Some (s, [x])
  else if bool_decide (state s = PROGRAM) then
    if burst_write s then
      if (Z.shiftr address 1 =? sector s) && (v =? 0x29) then Some (set_nb_word (-1) (set_burst_write false s), [])
      else
        let* s := program_byte address v s in
        Some (if negb (pending_bytes s =? 0) then set_pending_bytes 0 (set_nb_word (nb_word s - 1) s)
              else set_pending_bytes 1 s, [])
    else let* s := program_byte address v s in Some (s, [])
  else if pending_bytes s =? 0 then Some (set_pending_bytes 1 (set_pending_cmd v s), [])
  else
    let cmd := u16 (Z.lor (pending_cmd s) (Z.shiftl v 8)) in
    let* s := command address cmd (set_pending_bytes 0 (set_pending_cmd 0 s)) in Some (s, []).

Definition sync_cycle (v : Z) (s : hyperflash) : step hyperflash :=
  match hyper_state s with
  | HYPERBUS_STATE_CA =>
      match ca_count s with
      | O => None
      | S n =>
          let raw := <[n := u8 v]> (raw s) in
          let c := ca_of raw in
          let last := (n =? 0)%nat in
          Some (Hyperflash (size s) (data s) (state s) (if last then HYPERBUS_STATE_DATA else hyper_state s) (pending_bytes s)
                  (pending_cmd s) raw n (if last then address_of c else current_address s)
                  (if last then address_space c =? 1 else reg_access s) (burst_write s) (nb_word s) (sector s), [])
      end
  | HYPERBUS_STATE_DATA =>
      let* (s', o) := handle_access (reg_access s) (current_address s) (ca_read (ca_of (raw s))) (u8 v) s in
      Some (set_current_address (s32 (current_address s' + 1)) s', o)
  end.

Definition cs_sync (value : bool) (s : hyperflash) : hyperflash :=
  let s := Hyperflash (size s) (data s) (state s) HYPERBUS_STATE_CA (pending_bytes s) (pending_cmd s) (raw s) 6 (current_address s)
             (reg_access s) (burst_write s) (nb_word s) (sector s) in
  if negb value then
    match state s with
    | PROGRAM_START => set_state PROGRAM s
    | PROGRAM => set_state (if nb_word s <? 0 then WAIT_CMD0 else PROGRAM) s
    | _ => s
    end
  else s.

Definition sync (i : input) (s : hyperflash) : step hyperflash :=
  match i with Cycle v => sync_cycle v s | CsSync value => Some (cs_sync value s, []) end.

Fixpoint run (l : list input) (s : hyperflash) : step hyperflash :=
  match l with
  | [] => Some (s, [])
  | i :: l => let* (s, o) := sync i s in let* (s, o') := run l s in Some (s, o ++ o')
  end.
End Flash.

(** ** The bytes of a transaction *)

(** The CA word of an access, and its bytes in the order they are sent. *)
Definition ca_word (read space address : Z) : Z := read * 2 ^ 47 + space * 2 ^ 46 + (address / 8) * 2 ^ 16 + address mod 8.
Definition ca_bytes (read space address : Z) : list Z := rev (lanes 8 6 (ca_word read space address)).

Lemma ca_of_word r sp a : 0 <= r < 2 -> 0 <= sp < 2 -> 0 <= a < 2 ^ 31 ->
  let c := ca_of (lanes 8 6 (ca_word r sp a)) in
  ca_read c = r /\ address_space c = sp /\ address_of c = a.
Proof.
  intros Hr Hsp Ha c. assert (0 <= ca_word r sp a < 2 ^ 48) as Hw by (unfold ca_word; Z.div_mod_to_equations; lia).
  assert (pack 8 (lanes 8 6 (ca_word r sp a)) = ca_word r sp a) as Hp.
  { rewrite pack_lanes by lia. change (8 * Z.of_nat 6) with 48. by apply uw_small. }
  unfold c, ca_of. rewrite Hp. cbn [ca_read address_space]. unfold address_of. cbn [low_addr high_addr].
  assert (uw 3 (ca_word r sp a) = a mod 8) as ->.
  { unfold ca_word, uw. change (2 ^ 3) with 8. Z.div_mod_to_equations; lia. }
  assert (uw 29 (Z.shiftr (ca_word r sp a) 16) = a / 8) as ->.
  { unfold ca_word, uw. rewrite Z.shiftr_div_pow2 by lia. Z.div_mod_to_equations; lia. }
  assert (Z.lor (a mod 8) (Z.shiftl (a / 8) 3) = a) as ->.
  { rewrite Z.lor_comm. pose proof (Z.add_lor_land (Z.shiftl (a / 8) 3) (a mod 8)) as E.
    assert (Z.land (Z.shiftl (a / 8) 3) (a mod 8) = 0) as H0.
    { apply Z.bits_inj'. intros i Hi. rewrite Z.land_spec, Z.bits_0. destruct (Z.lt_ge_cases i 3).
      - rewrite Z.shiftl_spec_low by lia. done.
      - rewrite (testbit_above 3 (a mod 8) i) by (simpl; try lia; apply Z.mod_pos_bound; lia). apply andb_false_r. }
    rewrite Z.shiftl_mul_pow2 in * by lia. change (2 ^ 3) with 8 in *. pose proof (Z.div_mod a 8 ltac:(lia)). lia. }
  split; [|split; [|apply sw_small; lia]]; unfold ca_word, uw; rewrite Z.shiftr_div_pow2 by lia; Z.div_mod_to_equations; lia.
Qed.

Lemma length_ca_bytes r sp a : length (ca_bytes r sp a) = 6%nat.
Proof. done. Qed.

Lemma lookup_load mem a v : 0 <= a -> mem !! Z.to_nat a = Some v -> load mem a = Some v.
Proof. intros Ha Hv. unfold load. by rewrite (proj2 (Z.leb_le 0 a)). Qed.

Lemma store_ok mem a v : 0 <= a < Z.of_nat (length mem) -> store mem a v = Some (<[Z.to_nat a := v]> mem).
Proof. intros Ha. unfold store. by rewrite (proj2 (Z.leb_le 0 a)), (proj2 (Z.ltb_lt a _)) by lia. Qed.

(** ** The RAM *)
Module RamProofs.
Import Ram.

Lemma ram_run_app l1 l2 s : run (l1 ++ l2) s = let* (s, o) := run l1 s in let* (s, o') := run l2 s in Some (s, o ++ o').
Proof.
  revert s. induction l1 as [|d l1 IH]; intros s; simpl; [by destruct (run l2 s) as [[? ?]|]|].
  destruct (sync d s) as [[s1 o]|]; [|done]. rewrite IH. destruct (run l1 s1) as [[s2 o2]|]; [|done].
  destruct (run l2 s2) as [[s3 o3]|]; [|done]. by rewrite app_assoc.
Qed.

(** The data phase of an access at [a]. *)
Record in_data (z r a : Z) (s : hyperram) : Prop := {
  id_state : state s = HYPERBUS_STATE_DATA;
  id_read : ca_read (ca_of (raw s)) = r;
  id_addr : current_address s = a;
  id_raw : length (raw s) = 6%nat;
  id_size : size s = z /\ Z.of_nat (length (data s)) = z
}.

Lemma ram_ca_phase z r sp a v s : length (raw s) = 6%nat -> size s = z -> Z.of_nat (length (data s)) = z ->
  0 <= r < 2 -> 0 <= sp < 2 -> 0 <= a < 2 ^ 31 ->
  exists s', run (CsSync v :: map Cycle (ca_bytes r sp a)) s = Some (s', []) /\ in_data z r a s' /\ data s' = data s.
Proof.
  intros Hraw Hz Hl Hr Hsp Ha. destruct (ca_of_word r sp a Hr Hsp Ha) as (Er & Es & Ea).
  set (b := lanes 8 6 (ca_word r sp a)) in *. assert (exists b0 b1 b2 b3 b4 b5, b = [b0; b1; b2; b3; b4; b5]) as (b0 & b1 & b2 & b3 & b4 & b5 & Eb)
    by (unfold b; cbn [lanes]; by do 6 eexists).
  assert (Forall (fun x => u8 x = x) b) as Hb.
  { unfold b. eapply Forall_impl; [apply Forall_lanes; lia|]. cbv beta. intros x Hx. by apply uw_small. }
  unfold ca_bytes. fold b. rewrite Eb in *. clearbody b. clear Eb b. repeat (apply Forall_cons in Hb as [? Hb]).
  destruct s as [sz d raw0 cc ca ra st]. cbn in Hraw, Hz, Hl.
  destruct raw0 as [|r0 [|r1 [|r2 [|r3 [|r4 [|r5 [|? ?]]]]]]]; try done.
  cbn -[ca_of address_of uw Z.eqb]. repeat match goal with H : uw 8 _ = _ |- _ => rewrite H; clear H end.
  eexists. split; [reflexivity|]. split; [|done]. by split.
Qed.

Lemma ram_write_data vs : forall z a s, in_data z 0 a s -> 0 <= a -> a + Z.of_nat (length vs) <= z -> z < 2 ^ 31 ->
  Forall (fun v => 0 <= v < 256) vs ->
  exists s', run (map Cycle vs) s = Some (s', []) /\ in_data z 0 (a + Z.of_nat (length vs)) s' /\
    data s' = list_inserts (Z.to_nat a) vs (data s).
Proof.
  induction vs as [|v vs IH]; intros z a s Hs Ha Hend Hz Hvs.
  - exists s. split; [done|]. split; [by rewrite Z.add_0_r|done].
  - apply Forall_cons in Hvs as [Hv Hvs]. destruct Hs as [Hst Hr Haddr Hraw [Hsz Hl]]. cbn [length map run sync] in *. unfold sync_cycle.
    rewrite Hst, Hr, Haddr. unfold handle_access. rewrite Hsz, (proj2 (Z.leb_gt z a)) by lia. change (negb (0 =? 0)) with false. cbv iota.
    rewrite store_ok, uw_small by lia. cbn [mbind option_bind].
    destruct (IH z (a + 1) (set_current_address (s32 (current_address (set_data (<[Z.to_nat a := v]> (data s)) s) + 1)) (set_data (<[Z.to_nat a := v]> (data s)) s)))
      as (s' & E & Hs' & Hd); [|lia|lia|done|done|].
    { split; try done; cbn; [rewrite Haddr; apply sw_small; lia|by rewrite length_insert]. }
    rewrite E. exists s'. split; [done|]. split; [by replace (a + Z.of_nat (S (length vs))) with (a + 1 + Z.of_nat (length vs)) by lia|].
    rewrite Hd. cbn [data set_current_address set_data list_inserts]. rewrite list_insert_inserts_lt by lia. do 2 f_equal. lia.
Qed.

Lemma ram_read_data l : forall z a s, in_data z 1 a s -> 0 <= a -> a + Z.of_nat (length l) <= z -> z < 2 ^ 31 ->
  exists s', run (map Cycle l) s = Some (s', take (length l) (drop (Z.to_nat a) (data s))) /\
    in_data z 1 (a + Z.of_nat (length l)) s' /\ data s' = data s.
Proof.
  induction l as [|v l IH]; intros z a s Hs Ha Hend Hz.
  - exists s. split; [done|]. split; [by rewrite Z.add_0_r|done].
  - destruct Hs as [Hst Hr Haddr Hraw [Hsz Hl]]. cbn [length map run sync] in *. unfold sync_cycle.
    rewrite Hst, Hr, Haddr. unfold handle_access. rewrite Hsz, (proj2 (Z.leb_gt z a)) by lia. change (negb (1 =? 0)) with true. cbv iota.
    destruct (lookup_lt_is_Some_2 (data s) (Z.to_nat a) ltac:(lia)) as [x Hx]. rewrite (lookup_load _ _ x) by done. cbn [mbind option_bind].
    destruct (IH z (a + 1) (set_current_address (s32 (current_address s + 1)) s)) as (s' & E & Hs' & Hd); [|lia|lia|done|].
    { split; try done; cbn. rewrite Haddr. apply sw_small; lia. }
    rewrite E. exists s'. cbn [mbind option_bind]. split; [|split; [|done]].
    + rewrite (drop_S _ _ _ Hx). cbn [app take data set_current_address]. by replace (Z.to_nat (a + 1)) with (S (Z.to_nat a)) by lia.
    + by replace (a + Z.of_nat (S (length l))) with (a + 1 + Z.of_nat (length l)) by lia.
Qed.

Definition transaction (r sp a : Z) (l : list Z) : list input := CsSync true :: map Cycle (ca_bytes r sp a) ++ map Cycle l.

(** The HyperBus RAM is a memory. A write transaction replaces the cells from its address by its data bytes, one
    per cycle, and no other; a read transaction then drives, one per cycle, the cells from its address. Both hold
    in the register space too, which the device does not distinguish. *)
Theorem hyperram_write_read z s sp vs a sp' l a' :
  length (raw s) = 6%nat -> size s = z -> Z.of_nat (length (data s)) = z -> z < 2 ^ 31 ->
  0 <= sp < 2 -> 0 <= a -> a + Z.of_nat (length vs) <= z -> Forall (fun v => 0 <= v < 256) vs ->
  0 <= sp' < 2 -> 0 <= a' -> a' + Z.of_nat (length l) <= z ->
  exists s1 s2,
    run (transaction 0 sp a vs) s = Some (s1, []) /\ data s1 = list_inserts (Z.to_nat a) vs (data s) /\
    run (transaction 1 sp' a' l) s1 = Some (s2, take (length l) (drop (Z.to_nat a') (data s1))) /\ data s2 = data s1.
Proof.
  intros Hraw Hsz Hl Hz Hsp Ha Hend Hvs Hsp' Ha' Hend'. unfold transaction. rewrite !app_comm_cons.
  destruct (ram_ca_phase z 0 sp a true s Hraw Hsz Hl) as (s1 & E1 & Hs1 & Hd1); [lia..|].
  destruct (ram_write_data vs z a s1 Hs1 Ha Hend Hz Hvs) as (s2 & E2 & Hs2 & Hd2).
  destruct Hs2 as [_ _ _ Hraw2 [Hsz2 Hl2]].
  destruct (ram_ca_phase z 1 sp' a' true s2 Hraw2 Hsz2 Hl2) as (s3 & E3 & Hs3 & Hd3); [lia..|].
  destruct (ram_read_data l z a' s3 Hs3 Ha' Hend' Hz) as (s4 & E4 & _ & Hd4).
  exists s2, s4. rewrite !ram_run_app, E1, E3. cbn [mbind option_bind]. rewrite E2, E4. cbn [mbind option_bind app].
  split; [done|]. split; [by rewrite Hd2, Hd1|]. split; [by rewrite Hd3|by rewrite Hd4, Hd3].
Qed.

Definition demo_ram : hyperram := build 16 (Hyperram 0 [] [0; 0; 0; 0; 0; 0] 0 0 false HYPERBUS_STATE_CA).
Lemma hyperram_write_read_witness :
  exists s1 s2,
    run (transaction 0 0 9 [1; 2; 3]) demo_ram = Some (s1, []) /\ data s1 = list_inserts (Z.to_nat 9) [1; 2; 3] (data demo_ram) /\
    run (transaction 1 1 8 [0; 0]) s1 = Some (s2, take 2 (drop (Z.to_nat 8) (data s1))) /\ data s2 = data s1.
Proof.
  apply (hyperram_write_read 16 demo_ram 0 [1; 2; 3] 9 1 [0; 0] 8); try reflexivity; try (cbn; lia).
  repeat (apply Forall_cons; split; [lia|]). by apply Forall_nil.
Defined.

(** An address with bit 31 set is negative: it passes the test against the size, and is outside of the memory. *)
Lemma hyperram_negative_address :
  exists s, run (CsSync true :: map Cycle (ca_bytes 1 0 (2 ^ 31))) demo_ram = Some (s, []) /\ current_address s = - 2 ^ 31 /\
    run [Cycle 0] s = None.
Proof. eexists. split; [vm_compute; reflexivity|]. split; vm_compute; reflexivity. Qed.
End RamProofs.

(** ** The flash *)
Module FlashProofs.
Import Flash.

Lemma flash_run_app l1 l2 s : run (l1 ++ l2) s = let* (s, o) := run l1 s in let* (s, o') := run l2 s in Some (s, o ++ o').
Proof.
  revert s. induction l1 as [|d l1 IH]; intros s; simpl; [by destruct (run l2 s) as [[? ?]|]|].
  destruct (sync d s) as [[s1 o]|]; [|done]. rewrite IH. destruct (run l1 s1) as [[s2 o2]|]; [|done].
  destruct (run l2 s2) as [[s3 o3]|]; [|done]. by rewrite app_assoc.
Qed.

(** The flash outside of a write buffer operation: its command state and its cells. *)
Record idle (z : Z) (st : hyperflash_state) (d : list Z) (s : hyperflash) : Prop := {
  i_state : state s = st;
  i_data : data s = d;
  i_size : size s = z /\ Z.of_nat (length d) = z /\ z < 2 ^ 31;
  i_pending : pending_bytes s = 0;
  i_burst : burst_write s = false /\ nb_word s < 0;
  i_raw : length (raw s) = 6%nat
}.

(** The data phase of an access at [a]. *)
Record in_data (r a : Z) (s : hyperflash) : Prop := {
  id_state : hyper_state s = HYPERBUS_STATE_DATA;
  id_read : ca_read (ca_of (raw s)) = r;
  id_addr : current_address s = a
}.

Lemma ca_phase z st d r sp a s : idle z st d s -> 0 <= r < 2 -> 0 <= sp < 2 -> 0 <= a < 2 ^ 31 ->
  exists s', run (CsSync true :: map Cycle (ca_bytes r sp a)) s = Some (s', []) /\ in_data r a s' /\ idle z st d s'.
Proof.
  intros [Hst Hd Hz Hp Hb Hraw] Hr Hsp Ha. destruct (ca_of_word r sp a Hr Hsp Ha) as (Er & Es & Ea).
  set (b := lanes 8 6 (ca_word r sp a)) in *. assert (exists b0 b1 b2 b3 b4 b5, b = [b0; b1; b2; b3; b4; b5]) as (b0 & b1 & b2 & b3 & b4 & b5 & Eb)
    by (unfold b; cbn [lanes]; by do 6 eexists).
  assert (Forall (fun x => u8 x = x) b) as Hby.
  { unfold b. eapply Forall_impl; [apply Forall_lanes; lia|]. cbv beta. intros x Hx. by apply uw_small. }
  unfold ca_bytes. fold b. rewrite Eb in *. clearbody b. clear Eb b. repeat (apply Forall_cons in Hby as [? Hby]).
  destruct s as [sz dd st0 hs pb pc raw0 cc ca ra bw nw sec]. cbn in Hraw, Hz, Hst, Hd, Hp, Hb.
  destruct raw0 as [|r0 [|r1 [|r2 [|r3 [|r4 [|r5 [|? ?]]]]]]]; try done.
  cbn -[ca_of address_of uw Z.eqb]. repeat match goal with H : uw 8 _ = _ |- _ => rewrite H; clear H end.
  eexists. split; [reflexivity|]. by split.
Qed.

(** A 16-bit write at a word address. *)
Definition write_word (w cmd : Z) : list input :=
  CsSync true :: map Cycle (ca_bytes 0 0 (2 * w)) ++ [Cycle (uw 8 cmd); Cycle (Z.shiftr cmd 8); CsSync false].

(** What the end of a transaction does to the command state. *)
Definition after_cs (st : hyperflash_state) : hyperflash_state :=
  match st with PROGRAM_START => PROGRAM | PROGRAM => WAIT_CMD0 | st => st end.

Lemma idle_cs z st d s : idle z st d s -> idle z (after_cs st) d (cs_sync false s).
Proof.
  intros [Hst Hd Hz Hp [Hb Hn] Hraw]. unfold cs_sync. cbn [state negb]. rewrite Hst.
  destruct st; (split; cbn; [|done..]); try done. by rewrite (proj2 (Z.ltb_lt _ 0)).
Qed.

Lemma command_write z st d st' d' w cmd s :
  idle z st d s -> st <> PROGRAM -> st <> GET_STATUS_REG -> 0 <= w -> 2 * w + 1 < z -> 0 <= cmd < 2 ^ 16 ->
  (forall s, idle z st d s -> exists s', command (2 * w + 1) cmd s = Some s' /\ idle z st' d' s') ->
  exists s', run (write_word w cmd) s = Some (s', []) /\ idle z (after_cs st') d' s'.
Proof.
  intros Hs Hp Hg Hw Hend Hcmd Hc. pose proof Hs as [_ _ (_ & _ & Hz) _ _ _]. unfold write_word. rewrite app_comm_cons, flash_run_app.
  destruct (ca_phase z st d 0 0 (2 * w) s Hs) as (s1 & -> & [Hh Hr Ha] & H1); [lia..|]. cbn [mbind option_bind app].
  destruct H1 as [Hst1 Hd1 (Hsz1 & Hl1 & _) Hp1 [Hb1 Hn1] Hraw1]. cbn [run sync]. unfold sync_cycle at 1. rewrite Hh, Hr, Ha.
  unfold handle_access. rewrite Hsz1, (proj2 (Z.leb_gt z _)) by lia. change (negb (0 =? 0)) with false. cbv iota.
  rewrite Hst1, (bool_decide_false (st = PROGRAM)), Hp1 by done. change (0 =? 0) with true. cbv iota. cbn [mbind option_bind].
  set (s2 := set_current_address _ _). unfold sync_cycle at 1. change (hyper_state s2) with (hyper_state s1).
  change (ca_read (ca_of (raw s2))) with (ca_read (ca_of (raw s1))). rewrite Hh, Hr. unfold handle_access.
  change (size s2) with (size s1). change (state s2) with (state s1). change (pending_bytes s2) with 1. change (pending_cmd s2) with (u8 (uw 8 cmd)).
  assert (current_address s2 = 2 * w + 1) as Ha2 by (cbn; rewrite Ha; apply sw_small; lia). rewrite Ha2, Hsz1, (proj2 (Z.leb_gt z _)) by lia.
  change (negb (0 =? 0)) with false. cbv iota. rewrite Hst1, (bool_decide_false (st = PROGRAM)) by done. change (1 =? 0) with false. cbv iota.
  assert (u16 (Z.lor (u8 (uw 8 cmd)) (Z.shiftl (u8 (Z.shiftr cmd 8)) 8)) = cmd) as ->.
  { rewrite uw_idemp by lia. rewrite (uw_small 8 (Z.shiftr cmd 8)) by (rewrite Z.shiftr_div_pow2 by lia; Z.div_mod_to_equations; lia).
    apply Z.bits_inj'. intros i Hi. rewrite uw_testbit, Z.lor_spec, uw_testbit by lia.
    destruct (Z.ltb_spec i 16); [|rewrite (testbit_above 16 cmd i) by lia; done]. cbn [andb].
    destruct (Z.ltb_spec i 8).
    - rewrite Z.shiftl_spec_low by lia. apply orb_false_r.
    - rewrite Z.shiftl_spec, Z.shiftr_spec by lia. cbn [andb orb]. f_equal. lia. }
  destruct (Hc (set_pending_bytes 0 (set_pending_cmd 0 s2))) as (s3 & -> & H3); [by split|]. cbn [mbind option_bind app].
  eexists. split; [reflexivity|]. apply idle_cs. destruct H3. by split.
Qed.

(** A command that only moves the state machine. *)
Definition moves (st st' : hyperflash_state) (w cmd : Z) : Prop :=
  st <> PROGRAM /\ st <> GET_STATUS_REG /\
  forall s, state s = st -> burst_write s = false -> command (2 * w + 1) cmd s = Some (set_state st' s).

Lemma move_write z st d st' w cmd s : idle z st d s -> moves st st' w cmd -> 0 <= w -> 2 * w + 1 < z -> 0 <= cmd < 2 ^ 16 ->
  exists s', run (write_word w cmd) s = Some (s', []) /\ idle z (after_cs st') d s'.
Proof.
  intros Hs (Hp & Hg & Hm) Hw Hend Hcmd. apply (command_write z st d); try done. intros s1 [Hst Hd Hz Hp1 [Hb Hn] Hraw].
  exists (set_state st' s1). split; [by apply Hm|]. by split.
Qed.

(** The unlock sequence, and the commands that start after it. *)
Definition unlock : list input := write_word 0x555 0xAA ++ write_word 0x2AA 0x55.

Ltac state_move := split; [done|split; [done|]]; intros ? E ?; unfold command; rewrite E; reflexivity.
Lemma move_0 : moves WAIT_CMD0 WAIT_CMD1 0x555 0xAA. Proof. state_move. Qed.
Lemma move_1 : moves WAIT_CMD1 WAIT_CMD2 0x2AA 0x55. Proof. state_move. Qed.
Lemma move_2 : moves WAIT_CMD2 WAIT_CMD3 0x555 0x80. Proof. state_move. Qed.
Lemma move_program : moves WAIT_CMD2 PROGRAM_START 0x555 0xA0. Proof. state_move. Qed.
Lemma move_3 : moves WAIT_CMD3 WAIT_CMD4 0x555 0xAA. Proof. state_move. Qed.
Lemma move_4 : moves WAIT_CMD4 WAIT_CMD5 0x2AA 0x55. Proof. state_move. Qed.

(** Composition of runs that send nothing. *)
Lemma run_quiet l1 l2 s s1 : run l1 s = Some (s1, []) -> run (l1 ++ l2) s = run l2 s1.
Proof. intros E. rewrite flash_run_app, E. cbn [mbind option_bind]. by destruct (run l2 s1) as [[? ?]|]. Qed.

Lemma unlock_ok z d s : idle z WAIT_CMD0 d s -> 0xAAB < z -> exists s', run unlock s = Some (s', []) /\ idle z WAIT_CMD2 d s'.
Proof.
  intros Hs Hz. destruct (move_write z _ d _ 0x555 0xAA s Hs move_0) as (s1 & E1 & H1); [lia..|].
  destruct (move_write z _ d _ 0x2AA 0x55 s1 H1 move_1) as (s2 & E2 & H2); [lia..|].
  exists s2. split; [|done]. unfold unlock. rewrite (run_quiet _ _ _ _ E1). exact E2.
Qed.


(** *** Erase *)

Definition sector_base (a : Z) : Z := a - a mod FLASH_SECTOR_SIZE.
Definition erased (a : Z) (d : list Z) : list Z :=
  list_inserts (Z.to_nat (sector_base a)) (replicate (Z.to_nat FLASH_SECTOR_SIZE) 0xff) d.

Lemma sector_mask a : 0 <= a < 2 ^ 32 -> Z.land a (u32 (Z.lnot (FLASH_SECTOR_SIZE - 1))) = sector_base a.
Proof.
  intros Ha. unfold sector_base. change FLASH_SECTOR_SIZE with (2 ^ 18). rewrite <- Z.land_ones by lia.
  change (2 ^ 18 - 1) with (Z.ones 18). rewrite Z.sub_nocarry_ldiff.
  - apply Z.bits_inj'. intros i Hi. rewrite Z.ldiff_spec, !Z.land_spec, uw_testbit, Z.lnot_spec by lia.
    destruct (Z.ltb_spec i 32); [by destruct (Z.testbit a i), (Z.testbit (Z.ones 18) i)|].
    by rewrite (testbit_above 32 a i) by lia.
  - apply Z.bits_inj'. intros i Hi. rewrite Z.ldiff_spec, Z.land_spec, Z.bits_0. by destruct (Z.testbit a i), (Z.testbit _ i).
Qed.

Lemma idle_set_data z st d d' s : idle z st d s -> length d' = length d -> idle z st d' (set_data d' s).
Proof. intros [Hst Hd (Hsz & Hl & Hz) Hp Hb Hraw] E. split; try done. by rewrite E. Qed.

(** A flash holds whole sectors. *)
Lemma erase_sector_ok z st d a s : idle z st d s -> z mod FLASH_SECTOR_SIZE = 0 -> 0 <= a < z ->
  exists s', erase_sector (u32 a) s = Some s' /\ idle z st (erased a d) s'.
Proof.
  intros Hs Hm Ha. pose proof Hs as [Hst Hd (Hsz & Hl & Hz) Hp Hb Hraw]. unfold erase_sector. cbv zeta. rewrite (uw_small 32 a), sector_mask by lia.
  assert (0 <= sector_base a /\ sector_base a + FLASH_SECTOR_SIZE <= z) as [Hb0 Hb1].
  { unfold sector_base. change FLASH_SECTOR_SIZE with 262144 in *. Z.div_mod_to_equations; lia. }
  assert (0 < FLASH_SECTOR_SIZE) as H0 by done. rewrite Hsz, uw_small, (proj2 (Z.leb_gt z _)) by lia. rewrite Hd, Hl.
  rewrite (proj2 (Z.leb_le _ z)) by lia.
  exists (set_data (erased a d) s). split; [exact eq_refl|]. apply (idle_set_data _ _ d); [exact Hs|]. unfold erased. rewrite length_inserts. reflexivity.
Qed.

Lemma move_erase z d w s : idle z WAIT_CMD5 d s -> z mod FLASH_SECTOR_SIZE = 0 -> 0 <= w -> 2 * w + 1 < z ->
  exists s', run (write_word w 0x30) s = Some (s', []) /\ idle z WAIT_CMD0 (erased (2 * w + 1) d) s'.
Proof.
  intros Hs Hm Hw Hend. apply (command_write z WAIT_CMD5 d WAIT_CMD0); try done; try lia. intros s1 H1.
  destruct (erase_sector_ok z _ d (2 * w + 1) s1 H1 Hm) as (s2 & E & H2); [lia|]. revert H2. generalize (erased (2 * w + 1) d). intros d2 H2.
  exists (set_state WAIT_CMD0 s2). split; [|destruct H2; by split].
  unfold command. rewrite (i_state _ _ _ _ H1), andb_false_r. change (48 =? 48) with true. cbv iota. rewrite E. reflexivity.
Qed.

Definition erase_sequence (w : Z) : list input := unlock ++ write_word 0x555 0x80 ++ write_word 0x555 0xAA ++ write_word 0x2AA 0x55 ++ write_word w 0x30.

Lemma erase_sequence_ok z d w s : idle z WAIT_CMD0 d s -> z mod FLASH_SECTOR_SIZE = 0 -> 0 <= w -> 2 * w + 1 < z ->
  exists s', run (erase_sequence w) s = Some (s', []) /\ idle z WAIT_CMD0 (erased (2 * w + 1) d) s'.
Proof.
  intros Hs Hm Hw Hend. assert (0xAAB < z) as Hz by (change FLASH_SECTOR_SIZE with 262144 in *; Z.div_mod_to_equations; lia).
  destruct (unlock_ok z d s Hs Hz) as (s1 & E1 & H1).
  destruct (move_write z _ d _ 0x555 0x80 s1 H1 move_2) as (s2 & E2 & H2); [lia..|].
  destruct (move_write z _ d _ 0x555 0xAA s2 H2 move_3) as (s3 & E3 & H3); [lia..|].
  destruct (move_write z _ d _ 0x2AA 0x55 s3 H3 move_4) as (s4 & E4 & H4); [lia..|].
  destruct (move_erase z d w s4 H4 Hm Hw Hend) as (s5 & E5 & H5). exists s5. split; [|done].
  unfold erase_sequence. rewrite (run_quiet _ _ _ _ E1), (run_quiet _ _ _ _ E2), (run_quiet _ _ _ _ E3), (run_quiet _ _ _ _ E4). exact E5.
Qed.

(** *** Program and read *)

(** What programming [vs] at [a] leaves: the bits at 0 stay there. *)
Definition programmed (a : Z) (vs d : list Z) : list Z :=
  list_inserts (Z.to_nat a) (zip_with Z.land (take (length vs) (drop (Z.to_nat a) d)) vs) d.

Lemma programmed_cons a v vs d x : 0 <= a -> d !! Z.to_nat a = Some x ->
  programmed (a + 1) vs (<[Z.to_nat a := Z.land x v]> d) = programmed a (v :: vs) d.
Proof.
  intros Ha Hx. unfold programmed. rewrite (drop_S _ _ _ Hx). cbn [length take zip_with list_inserts].
  replace (Z.to_nat (a + 1)) with (S (Z.to_nat a)) by lia. rewrite drop_insert_lt by lia.
  by rewrite list_insert_inserts_lt by lia.
Qed.

Lemma length_programmed a vs d : length (programmed a vs d) = length d.
Proof. apply length_inserts. Qed.

Lemma program_data vs : forall z a d s, idle z PROGRAM d s -> in_data 0 a s -> 0 <= a -> a + Z.of_nat (length vs) <= z ->
  Forall (fun v => 0 <= v < 256) vs ->
  exists s', run (map Cycle vs) s = Some (s', []) /\ idle z PROGRAM (programmed a vs d) s'.
Proof.
  induction vs as [|v vs IH]; intros z a d s Hs Hin Ha Hend Hvs.
  - exists s. split; [done|]. unfold programmed. cbn [length take zip_with list_inserts]. done.
  - apply Forall_cons in Hvs as [Hv Hvs]. destruct Hs as [Hst Hd (Hsz & Hl & Hz) Hp [Hb Hn] Hraw], Hin as [Hh Hr Haddr].
    cbn [length map run sync] in *. unfold sync_cycle. rewrite Hh, Hr, Haddr. unfold handle_access.
    rewrite Hsz, (proj2 (Z.leb_gt z a)) by lia. change (negb (0 =? 0)) with false. cbv iota.
    rewrite Hst, bool_decide_true, Hb, uw_small by (done || lia). unfold program_byte. rewrite Hd.
    destruct (lookup_lt_is_Some_2 d (Z.to_nat a) ltac:(lia)) as [x Hx]. rewrite (lookup_load _ _ x) by done. cbn [mbind option_bind].
    rewrite store_ok by lia. cbn [mbind option_bind].
    destruct (IH z (a + 1) (<[Z.to_nat a := Z.land x v]> d)
      (set_current_address (s32 (current_address (set_data (<[Z.to_nat a := Z.land x v]> d) s) + 1)) (set_data (<[Z.to_nat a := Z.land x v]> d) s)))
      as (s' & E & Hs'); [| |lia|lia|done|].
    { split; try done. cbn. by rewrite length_insert. }
    { split; try done. cbn. rewrite Haddr. apply sw_small; lia. }
    rewrite E. exists s'. cbn [mbind option_bind]. split; [done|]. by rewrite <- (programmed_cons a v vs d x).
Qed.

Lemma read_data l : forall z d a s, idle z WAIT_CMD0 d s -> in_data 1 a s -> 0 <= a -> a + Z.of_nat (length l) <= z ->
  exists s', run (map Cycle l) s = Some (s', take (length l) (drop (Z.to_nat a) d)) /\ idle z WAIT_CMD0 d s'.
Proof.
  induction l as [|v l IH]; intros z d a s Hs Hin Ha Hend.
  - by exists s.
  - pose proof Hs as [Hst Hd (Hsz & Hl & Hz) Hp [Hb Hn] Hraw]. destruct Hin as [Hh Hr Haddr].
    cbn [length map run sync] in *. unfold sync_cycle. rewrite Hh, Hr, Haddr. unfold handle_access.
    rewrite Hsz, (proj2 (Z.leb_gt z a)) by lia. change (negb (1 =? 0)) with true. cbv iota.
    rewrite Hst, bool_decide_false, Hd by done. destruct (lookup_lt_is_Some_2 d (Z.to_nat a) ltac:(lia)) as [x Hx].
    rewrite (lookup_load _ _ x) by done. cbn [mbind option_bind].
    destruct (IH z d (a + 1) (set_current_address (s32 (current_address s + 1)) s)) as (s' & E & Hs'); [by split| |lia|lia|].
    { split; try done. cbn. rewrite Haddr. apply sw_small; lia. }
    rewrite E. exists s'. cbn [mbind option_bind]. split; [|done]. rewrite (drop_S _ _ _ Hx). cbn [app take].
    by replace (Z.to_nat (a + 1)) with (S (Z.to_nat a)) by lia.
Qed.

Definition transaction (r sp a : Z) (l : list Z) : list input :=
  (CsSync true :: map Cycle (ca_bytes r sp a)) ++ map Cycle l ++ [CsSync false].
Definition program_sequence (sp a : Z) (vs : list Z) : list input := unlock ++ write_word 0x555 0xA0 ++ transaction 0 sp a vs.

Lemma program_sequence_ok z d sp a vs s : idle z WAIT_CMD0 d s -> 0xAAB < z -> 0 <= sp < 2 -> 0 <= a ->
  a + Z.of_nat (length vs) <= z -> Forall (fun v => 0 <= v < 256) vs -> vs <> [] ->
  exists s', run (program_sequence sp a vs) s = Some (s', []) /\ idle z WAIT_CMD0 (programmed a vs d) s'.
Proof.
  intros Hs Hz Hsp Ha Hend Hvs Hne. pose proof Hs as [_ _ (_ & _ & Hz31) _ _ _]. unfold program_sequence, transaction.
  assert (0 < length vs)%nat by (destruct vs; [done|cbn; lia]).
  destruct (unlock_ok z d s Hs Hz) as (s1 & E1 & H1).
  destruct (move_write z _ d _ 0x555 0xA0 s1 H1 move_program) as (s2 & E2 & H2); [lia..|].
  destruct (ca_phase z PROGRAM d 0 sp a s2 H2) as (s3 & E3 & Hin & H3); [lia..|].
  destruct (program_data vs z a d s3 H3 Hin Ha Hend Hvs) as (s4 & E4 & H4).
  exists (cs_sync false s4). split; [|exact (idle_cs _ _ _ _ H4)].
  rewrite (run_quiet _ _ _ _ E1), (run_quiet _ _ _ _ E2), (run_quiet _ _ _ _ E3), (run_quiet _ _ _ _ E4). reflexivity.
Qed.

Lemma read_ok z d sp a l s : idle z WAIT_CMD0 d s -> 0 <= sp < 2 -> 0 <= a -> a + Z.of_nat (length l) <= z -> l <> [] ->
  exists s', run (transaction 1 sp a l) s = Some (s', take (length l) (drop (Z.to_nat a) d)) /\ idle z WAIT_CMD0 d s'.
Proof.
  intros Hs Hsp Ha Hend Hne. pose proof Hs as [_ _ (_ & _ & Hz31) _ _ _]. assert (0 < length l)%nat by (destruct l; [done|cbn; lia]).
  destruct (ca_phase z WAIT_CMD0 d 1 sp a s Hs) as (s1 & E1 & Hin & H1); [lia..|].
  destruct (read_data l z d a s1 H1 Hin Ha Hend) as (s2 & E2 & H2).
  exists (cs_sync false s2). split; [|exact (idle_cs _ _ _ _ H2)].
  unfold transaction. rewrite (run_quiet _ _ _ _ E1), flash_run_app, E2. cbn [mbind option_bind run sync]. by rewrite app_nil_r.
Qed.

(** Cells of an erased sector take any byte. *)
Lemma land_ff v : 0 <= v < 256 -> Z.land 0xff v = v.
Proof. intros Hv. rewrite Z.land_comm. change 255 with (Z.ones 8). rewrite Z.land_ones by lia. by apply Z.mod_small. Qed.

Lemma zip_land_ff vs : Forall (fun v => 0 <= v < 256) vs -> zip_with Z.land (replicate (length vs) 0xff) vs = vs.
Proof. induction 1 as [|v vs Hv _ IH]; [done|]. cbn [length replicate zip_with]. by rewrite land_ff, IH. Qed.

Lemma take_drop_inserts (i j n : nat) (m : nat) (x : Z) d : (j <= i)%nat -> (i + n <= j + m)%nat -> (j + m <= length d)%nat ->
  take n (drop i (list_inserts j (replicate m x) d)) = replicate n x.
Proof.
  intros Hji Hin Hl. apply list_eq. intros k. destruct (Nat.lt_ge_cases k n).
  - rewrite lookup_take_lt, lookup_drop, list_lookup_inserts, lookup_replicate_2, lookup_replicate_2 by (rewrite ?length_replicate; lia). done.
  - rewrite lookup_take_ge by lia. symmetry. apply lookup_ge_None_2. rewrite length_replicate. lia.
Qed.

Lemma programmed_erased z d a b vs : Z.of_nat (length d) = z -> z mod FLASH_SECTOR_SIZE = 0 -> 0 <= b < z -> sector_base b <= a ->
  a + Z.of_nat (length vs) <= sector_base b + FLASH_SECTOR_SIZE -> Forall (fun v => 0 <= v < 256) vs ->
  programmed a vs (erased b d) = list_inserts (Z.to_nat a) vs (erased b d).
Proof.
  intros Hl Hm Hb Ha Hend Hvs. unfold programmed. f_equal. unfold erased.
  assert (0 <= sector_base b /\ sector_base b + FLASH_SECTOR_SIZE <= z) as [Hb0 Hb1].
  { unfold sector_base. change FLASH_SECTOR_SIZE with 262144 in *. Z.div_mod_to_equations; lia. }
  assert (0 < FLASH_SECTOR_SIZE) as H0 by done. rewrite take_drop_inserts by lia. by apply zip_land_ff.
Qed.

(** *** What is left of the cells *)

(** Erasing apart, a write never sets a bit of a cell. *)
Definition below (new old : list Z) : Prop := length new = length old /\ forall i x y, new !! i = Some x -> old !! i = Some y -> Z.land x y = x.

Lemma below_refl d : below d d.
Proof. split; [done|]. intros i x y E1 E2. rewrite E1 in E2. injection E2 as ->. apply Z.land_diag. Qed.

Lemma program_byte_below a v s s' : program_byte a v s = Some s' -> below (data s') (data s).
Proof.
  unfold program_byte, load, store. destruct (0 <=? a); [|done]. cbn [andb]. destruct (data s !! Z.to_nat a) as [old|] eqn:Ho; [|done].
  cbn [mbind option_bind]. destruct (a <? _); [|done]. intros [= <-]. split; [apply length_insert|]. intros i x y. cbn [data set_data].
  destruct (decide (i = Z.to_nat a)) as [->|Hi].
  - pose proof (lookup_lt_Some _ _ _ Ho). rewrite list_lookup_insert_eq, Ho by done. intros [= <-] [= <-]. rewrite <- Z.land_assoc, (Z.land_comm v), Z.land_assoc.
    by rewrite Z.land_diag.
  - rewrite list_lookup_insert_ne by done. intros E1 E2. rewrite E1 in E2. injection E2 as ->. apply Z.land_diag.
Qed.

Lemma access_below ra a r v s s' o : handle_access ra a r v s = Some (s', o) -> state s <> WAIT_CMD5 -> below (data s') (data s).
Proof.
  intros E Hn. revert E. unfold handle_access. destruct (size s <=? a); [by intros [= <- _]; apply below_refl|].
  destruct (negb (r =? 0)).
  { destruct (bool_decide _).
    - intros [= <- _]. repeat case_match; apply below_refl.
    - destruct (load _ _); [|done]. intros [= <- _]. apply below_refl. }
  assert (forall s1 (k : hyperflash -> hyperflash), (forall x, data (k x) = data x) -> (let* x := program_byte a v s1 in Some (k x, @nil Z)) = Some (s', o) ->
    data s1 = data s -> below (data s') (data s)) as Hpb.
  { intros s1 k Hk E Hd. destruct (program_byte a v s1) as [x|] eqn:Hx; [|done]. injection E as <- _. rewrite Hk, <- Hd. by apply program_byte_below in Hx. }
  destruct (bool_decide (state s = PROGRAM)).
  { destruct (burst_write s).
    - destruct (_ && _); [intros [= <- _]; apply below_refl|]. intros E.
      apply (Hpb s (fun s => if negb (pending_bytes s =? 0) then set_pending_bytes 0 (set_nb_word (nb_word s - 1) s) else set_pending_bytes 1 s)); [|exact E|done].
      intros x. by destruct (negb _).
    - intros E. by apply (Hpb s id). }
  destruct (pending_bytes s =? 0); [intros [= <- _]; apply below_refl|].
  unfold command. cbn [state set_pending_bytes set_pending_cmd]. destruct (state s); try done;
    cbn [mbind option_bind]; repeat (destruct (_ && _)); cbn [mbind option_bind]; repeat (destruct (_ =? _)); cbn [mbind option_bind]; repeat (destruct (_ && _));
    try (intros [= <- _]; apply below_refl).
Qed.

Lemma access_below_cells ra a r v s s' o i x y : handle_access ra a r v s = Some (s', o) -> state s <> WAIT_CMD5 ->
  data s' !! i = Some x -> data s !! i = Some y -> Z.land x y = x.
Proof. intros E Hn. destruct (access_below _ _ _ _ _ _ _ E Hn) as [_ Hb]. exact (Hb i x y). Qed.

(** *** Chip erase *)

(** The cells before [n] are erased. *)
Definition erased_to (z n : Z) (d : list Z) : Prop := exists rest, d = replicate (Z.to_nat (Z.min z n)) 0xff ++ rest.

Lemma erased_to_all z n d : Z.of_nat (length d) = z -> z <= n -> erased_to z n d -> d = replicate (Z.to_nat z) 0xff.
Proof.
  intros Hl Hn (rest & ->). rewrite Z.min_l in * by lia. destruct rest; [by rewrite app_nil_r|].
  rewrite length_app, length_replicate in Hl. cbn [length] in Hl. lia.
Qed.

Lemma erase_next z n d : Z.of_nat (length d) = z -> 0 <= n -> n + FLASH_SECTOR_SIZE <= z -> erased_to z n d ->
  erased_to z (n + FLASH_SECTOR_SIZE) (list_inserts (Z.to_nat n) (replicate (Z.to_nat FLASH_SECTOR_SIZE) 0xff) d).
Proof.
  assert (0 <= FLASH_SECTOR_SIZE) as H0 by done. revert H0. generalize FLASH_SECTOR_SIZE. intros S H0 Hl Hn Hz (rest & ->).
  rewrite Z.min_r in * by lia. rewrite length_app, length_replicate in Hl. exists (drop (Z.to_nat S) rest).
  rewrite <- (take_drop (Z.to_nat S) rest) at 1. pose proof (list_inserts_app_r (replicate (Z.to_nat S) 0xff) (replicate (Z.to_nat n) 0xff)
    (take (Z.to_nat S) rest ++ drop (Z.to_nat S) rest) 0) as E.
  rewrite length_replicate, Nat.add_0_r in E. rewrite E, list_inserts_0_r by (rewrite length_replicate, length_take; lia).
  rewrite Z.min_r, Z2Nat.inj_add, replicate_add, app_assoc by lia. done.
Qed.

(** The loop goes on past the end of the memory, and stops when the address of the end wraps around. *)
Lemma erase_chip_loop_ok (fuel : nat) : forall z st d s (k : Z), idle z st d s -> erased_to z (k * FLASH_SECTOR_SIZE) d ->
  0 < z -> z mod FLASH_SECTOR_SIZE = 0 -> 0 <= k -> k * FLASH_SECTOR_SIZE + z <= 2 ^ 32 ->
  2 ^ 32 - z - k * FLASH_SECTOR_SIZE < Z.of_nat fuel * FLASH_SECTOR_SIZE ->
  exists s', erase_chip_loop fuel (k * FLASH_SECTOR_SIZE) s = Done s' /\ idle z st (replicate (Z.to_nat z) 0xff) s'.
Proof.
  assert (FLASH_SECTOR_SIZE = 2 ^ 18) as HS by done.
  induction fuel as [|fuel IH]; intros z st d s k Hs He Hz0 Hm Hk Hend Hf; [lia|].
  pose proof Hs as [Hst Hd (Hsz & Hl & Hz) Hp Hb Hraw]. cbn [erase_chip_loop]. rewrite Hsz.
  destruct (Z.eq_dec (k * FLASH_SECTOR_SIZE + z) (2 ^ 32)) as [Ew|Ew].
  - rewrite Ew, (proj2 (Z.ltb_ge _ _)) by (change (u32 (2 ^ 32)) with 0; lia). exists s. split; [done|].
    rewrite <- (erased_to_all z (k * FLASH_SECTOR_SIZE) d Hl) by (done || lia). exact Hs.
  - assert (k * FLASH_SECTOR_SIZE + z <= 2 ^ 32 - 2 ^ 18) by (rewrite HS in *; Z.div_mod_to_equations; lia).
    rewrite (uw_small 32 (k * FLASH_SECTOR_SIZE + z)), (proj2 (Z.ltb_lt _ _)) by lia.
    assert (sector_base (k * FLASH_SECTOR_SIZE) = k * FLASH_SECTOR_SIZE) as Eb
      by (unfold sector_base; rewrite HS, Z.mod_mul by done; lia).
    assert (u32 (k * FLASH_SECTOR_SIZE + FLASH_SECTOR_SIZE) = (k + 1) * FLASH_SECTOR_SIZE) as ->
      by (rewrite uw_small; lia).
    unfold erase_sector. cbv zeta. rewrite sector_mask, Eb, Hsz, uw_small by lia.
    destruct (Z.leb_spec z (k * FLASH_SECTOR_SIZE)) as [Hzk|Hzk].
    + apply (IH z st d s); try done; try lia. rewrite (erased_to_all z _ d Hl Hzk He). exists []. rewrite Z.min_l, app_nil_r by lia. reflexivity.
    + assert (k * FLASH_SECTOR_SIZE + FLASH_SECTOR_SIZE <= z) as Hn by (rewrite HS in *; Z.div_mod_to_equations; lia).
      rewrite Hd, Hl, (proj2 (Z.leb_le _ _)) by lia. pose proof (erase_next z (k * FLASH_SECTOR_SIZE) d Hl ltac:(lia) Hn He) as He'.
      replace (k * FLASH_SECTOR_SIZE + FLASH_SECTOR_SIZE) with ((k + 1) * FLASH_SECTOR_SIZE) in He' by lia.
      pose proof (length_inserts d (Z.to_nat (k * FLASH_SECTOR_SIZE)) (replicate (Z.to_nat FLASH_SECTOR_SIZE) 0xff)) as Hl'.
      revert He' Hl'. generalize (list_inserts (Z.to_nat (k * FLASH_SECTOR_SIZE)) (replicate (Z.to_nat FLASH_SECTOR_SIZE) 0xff) d). intros d' He' Hl'.
      apply (IH z st d' (set_data d' s)); try assumption; try lia. by apply (idle_set_data _ _ d).
Qed.

Lemma erase_chip_ok z st d s : idle z st d s -> 0 < z -> z mod FLASH_SECTOR_SIZE = 0 ->
  exists s', erase_chip s = Some s' /\ idle z st (replicate (Z.to_nat z) 0xff) s'.
Proof.
  intros Hs Hz0 Hm. pose proof Hs as [_ _ (_ & _ & Hz) _ _ _]. unfold erase_chip.
  assert (Z.of_nat (Z.to_nat 16385) = 16385) as Hf by (apply Z2Nat.id; lia).
  revert Hf. generalize (Z.to_nat 16385). intros fuel Hf.
  destruct (erase_chip_loop_ok fuel z st d s 0 Hs) as (s' & E & H'); [|exact Hz0|exact Hm|reflexivity| | |].
  { exists d. rewrite Z.mul_0_l, Z.min_r by lia. reflexivity. }
  { rewrite Z.mul_0_l. lia. }
  { rewrite Hf. change FLASH_SECTOR_SIZE with (2 ^ 18). lia. }
  rewrite Z.mul_0_l in E. exists s'. split; [by rewrite E|exact H'].
Qed.

(** The chip erase command. *)
Definition chip_sequence : list input := unlock ++ write_word 0x555 0x80 ++ write_word 0x555 0xAA ++ write_word 0x2AA 0x55 ++ write_word 0x555 0x10.

Lemma chip_sequence_ok z d s : idle z WAIT_CMD0 d s -> 0 < z -> z mod FLASH_SECTOR_SIZE = 0 ->
  exists s', run chip_sequence s = Some (s', []) /\ idle z WAIT_CMD0 (replicate (Z.to_nat z) 0xff) s'.
Proof.
  intros Hs Hz0 Hm. assert (0xAAB < z) as Hz by (change FLASH_SECTOR_SIZE with 262144 in *; Z.div_mod_to_equations; lia).
  destruct (unlock_ok z d s Hs Hz) as (s1 & E1 & H1).
  destruct (move_write z _ d _ 0x555 0x80 s1 H1 move_2) as (s2 & E2 & H2); [lia..|].
  destruct (move_write z _ d _ 0x555 0xAA s2 H2 move_3) as (s3 & E3 & H3); [lia..|].
  destruct (move_write z _ d _ 0x2AA 0x55 s3 H3 move_4) as (s4 & E4 & H4); [lia..|].
  destruct (command_write z WAIT_CMD5 d WAIT_CMD0 (replicate (Z.to_nat z) 0xff) 0x555 0x10 s4 H4) as (s5 & E5 & H5); [discriminate|discriminate|lia|lia|lia| |].
  { intros s5 H5. destruct (erase_chip_ok z _ d s5 H5 Hz0 Hm) as (s6 & E6 & H6). exists (set_state WAIT_CMD0 s6).
    split; [|destruct H6; by split]. unfold command. rewrite (i_state _ _ _ _ H5). change ((_ =? 0x555) && (0x10 =? 0x10)) with true. cbv iota. rewrite E6. reflexivity. }
  exists s5. split; [|exact H5]. unfold chip_sequence.
  rewrite (run_quiet _ _ _ _ E1), (run_quiet _ _ _ _ E2), (run_quiet _ _ _ _ E3), (run_quiet _ _ _ _ E4). exact E5.
Qed.

(** *** The command sequences together *)

(** C39: The HyperBus flash erases, programs and reads as its command set says. From the state that waits for a
    command, the erase sequence sets to 0xff the 256 KiB sector of its address and no other cell; the program
    sequence, then, with its bytes in that sector, replaces these cells by its data bytes and no other, and a read
    transaction drives the cells from its address. The chip erase sequence, last, sets every cell to 0xff. The flash waits for a command
    again after each of them. *)
Theorem hyperflash_erase_program_read z d s w sp a vs sp' a' l :
  idle z WAIT_CMD0 d s -> z mod FLASH_SECTOR_SIZE = 0 -> 0 <= w -> 2 * w + 1 < z ->
  0 <= sp < 2 -> 0 <= sp' < 2 -> sector_base (2 * w + 1) <= a -> a + Z.of_nat (length vs) <= sector_base (2 * w + 1) + FLASH_SECTOR_SIZE ->
  Forall (fun v => 0 <= v < 256) vs -> vs <> [] -> 0 <= a' -> a' + Z.of_nat (length l) <= z -> l <> [] ->
  exists s1 s2 s3 s4,
    let d1 := erased (2 * w + 1) d in
    let d2 := list_inserts (Z.to_nat a) vs d1 in
    run (erase_sequence w) s = Some (s1, []) /\ idle z WAIT_CMD0 d1 s1 /\
    run (program_sequence sp a vs) s1 = Some (s2, []) /\ idle z WAIT_CMD0 d2 s2 /\
    run (transaction 1 sp' a' l) s2 = Some (s3, take (length l) (drop (Z.to_nat a') d2)) /\ idle z WAIT_CMD0 d2 s3 /\
    run chip_sequence s3 = Some (s4, []) /\ idle z WAIT_CMD0 (replicate (Z.to_nat z) 0xff) s4.
Proof.
  intros Hs Hm Hw Hwz Hsp Hsp' Ha Hend Hvs Hne Ha' Hend' Hne'. pose proof Hs as [_ _ (_ & Hl & _) _ _ _].
  assert (0 <= sector_base (2 * w + 1) /\ sector_base (2 * w + 1) + FLASH_SECTOR_SIZE <= z /\ 0xAAB < z) as (Hb0 & Hb1 & Hz).
  { unfold sector_base. change FLASH_SECTOR_SIZE with 262144 in *. Z.div_mod_to_equations; lia. }
  destruct (erase_sequence_ok z d w s Hs Hm Hw Hwz) as (s1 & E1 & H1).
  destruct (program_sequence_ok z _ sp a vs s1 H1 Hz Hsp) as (s2 & E2 & H2); [lia|lia|exact Hvs|exact Hne|].
  rewrite (programmed_erased z d a (2 * w + 1) vs Hl Hm) in H2; [|lia|exact Ha|exact Hend|exact Hvs].
  destruct (read_ok z _ sp' a' l s2 H2 Hsp' Ha' Hend' Hne') as (s3 & E3 & H3).
  destruct (chip_sequence_ok z _ s3 H3 ltac:(lia) Hm) as (s4 & E4 & H4). exists s1, s2, s3, s4. cbv zeta. split; [exact E1|]. split; [exact H1|]. split; [exact E2|]. split; [exact H2|]. split; [exact E3|]. split; [exact H3|]. split; [exact E4|exact H4].
Qed.

Definition demo_flash : hyperflash :=
  build FLASH_SECTOR_SIZE (Hyperflash 0 [] WAIT_CMD0 HYPERBUS_STATE_CA 0 0 [0; 0; 0; 0; 0; 0] 0 0 false false 0 0).
Lemma replicate_length_flash : Z.of_nat (length (replicate (Z.to_nat FLASH_SECTOR_SIZE) 0xff)) = FLASH_SECTOR_SIZE.
Proof. rewrite length_replicate. apply Z2Nat.id. discriminate. Qed.
Lemma demo_flash_idle : idle FLASH_SECTOR_SIZE WAIT_CMD0 (replicate (Z.to_nat FLASH_SECTOR_SIZE) 0xff) demo_flash.
Proof.
  unfold demo_flash, build. generalize replicate_length_flash. generalize (replicate (Z.to_nat FLASH_SECTOR_SIZE) 0xff). intros d Hd.
  split; [done|done| |done..]. split; [done|]. split; [exact Hd|done].
Qed.

Lemma hyperflash_erase_program_read_witness :
  exists s1 s2 s3 s4,
    let d1 := erased (2 * 16 + 1) (replicate (Z.to_nat FLASH_SECTOR_SIZE) 0xff) in
    let d2 := list_inserts (Z.to_nat 255) [1; 2; 3] d1 in
    run (erase_sequence 16) demo_flash = Some (s1, []) /\ idle FLASH_SECTOR_SIZE WAIT_CMD0 d1 s1 /\
    run (program_sequence 0 255 [1; 2; 3]) s1 = Some (s2, []) /\ idle FLASH_SECTOR_SIZE WAIT_CMD0 d2 s2 /\
    run (transaction 1 0 254 [0; 0; 0]) s2 = Some (s3, take 3 (drop (Z.to_nat 254) d2)) /\ idle FLASH_SECTOR_SIZE WAIT_CMD0 d2 s3 /\
    run chip_sequence s3 = Some (s4, []) /\ idle FLASH_SECTOR_SIZE WAIT_CMD0 (replicate (Z.to_nat FLASH_SECTOR_SIZE) 0xff) s4.
Proof.
  apply (hyperflash_erase_program_read FLASH_SECTOR_SIZE (replicate (Z.to_nat FLASH_SECTOR_SIZE) 0xff) demo_flash 16 0 255 [1; 2; 3] 0 254 [0; 0; 0]
    demo_flash_idle eq_refl); try (cbn; lia); try discriminate; try exact eq_refl.
  repeat (apply Forall_cons; split; [lia|]); by apply Forall_nil.
Defined.
End FlashProofs.
